(* ===== verification/_CoqProject ===== *)
-Q . S2P
Prelude.v
Io.v
Utf8.v
Json.v
Wire.v
Sha256.v
Time.v
Value.v
Intent.v
Bound.v
Cas.v
CasInv.v
CasSafe.v
CasCalm.v
CasContracts.v
Event.v
Peer.v
Base64.v
Journal.v
JournalDir.v
Compact.v
Frame.v
Link.v
View.v
AgentView.v
Terminal.v
JournalProto.v
JournalOps.v
JournalSafe.v
JournalCalm.v
ArtifactText.v
Bind.v
StoreTime.v
Store.v
EventStore.v
Attach.v
Routes.v
Inbox.v
Outbox.v
Domain.v
Admission.v
PeerAdmission.v
Current.v
ControlWire.v
ControlText.v
Control.v
ControlClient.v
ControlProof.v
Service.v
ServiceProof.v
History.v
Frames.v
Invariant.v
Lineage.v
PeerInv.v
Replies.v
Lifecycle.v
Projection.v
Replay.v
Effects.v
Attention.v
Boundary.v
PeerSteps.v
Calls.v
Exchange.v
Agreement.v
Scenario.v
ExchangeScenario.v
StoreContracts.v
PeerContracts.v
MessageContracts.v
LinkContracts.v
JournalContracts.v
ServiceReplay.v
ControlContracts.v
Heap.v
TopK.v
Registry.v
Scheduler.v
SchedulerProof.v
