(* ===== verification/Prelude.v ===== *)
(** * Mnemon Agency: a verification library

    Mnemon (module github.com/mnemon-dev/mnemon, Go) lets software agents share
    responsibility through a local authority.  This library models that authority,
    the values it exchanges, its Artifact object store, the exchange between two
    authorities, the terminal through which an agent reaches its own, and the
    control protocol and service between the two: the packages agency,
    agency/authority, agency/artifact, agency/peerlink and agency/client under
    src/internal, with the control server, the local service and the peer exchange
    of internal/daemon.  Of the second area of the repository, the memory server, it
    models the components with a concurrent or algorithmic core: the consolidation
    scheduler and the cache of open user stores of internal/aml, and the bounded
    selection of internal/memory.  The rest (records, model calls, commands) is not
    modelled; see the end of this comment.

    ** The program

    An agent never names machine state.  A Host opens a boundary (an Attachment) for
    a Principal; under it the agent asks for its Current View, a bounded projection
    that offers opaque handles for at most one claimed responsibility (a Handling),
    shared References, targets and Artifacts.  The agent answers with an Intent over
    those handles; the authority binds it to machine values ([bindIntent]) and
    admits it in one transaction: an Event is appended, Handlings and References
    move by compare and swap, deliveries to peers are queued.  A peer authority
    stages a signed delivery, admits it as an Event of its own and answers with a
    signed Receipt that settles the sender's row.  Every mutation is keyed so that
    a retry replays the first answer.  The bytes an Event refers to are objects of a
    content-addressed tree that several processes write without a lock; deliveries
    and objects travel in bounded frames over a mutually pinned connection.  The
    agent's side is a command that runs once per action: what it must remember from
    one run to the next (the boundary's proof, the Current operation, captured
    Artifacts, an accepted but unpresented Receipt) is a journal in a private
    directory, moved so that a crash at any moment leaves it usable.  Its calls go as
    bounded HTTP requests over a local socket to the daemon, whose service holds the
    Store and the object tree.

    The memory server keeps one store per user.  Requests share the open stores of a
    bounded cache; what they add is consolidated in the background by a fixed pool of
    workers, one job per user at a time, first come first served, with retries after
    failures and pauses while a search works on the user.

    ** Files and the code they model

    Foundations.
    - Prelude: errors, the [result] monad, strings, sorting, shared tactics.
    - Io: fallible steps over a world, for the components that mix I/O with other
      goroutines or processes, and triples over such steps with their rules.
    - Utf8, Json, Sha256, Time: the parts of unicode/utf8, encoding/json,
      crypto/sha256 and time the sources use, executable.
    - Wire: structs with json tags as codecs with laws ([Codec], [CodecLaws]);
      canonical_parse.go.

    Values and messages (src/internal/agency).
    - Value: value.go.  Intent: intent.go, intent_parse.go.
    - Bound: authority.go, artifact_binding.go, bound_intent.go, bound_wire.go.
    - Event: event_receipt.go, event_parse.go, receipt_parse.go.
    - Peer: peer_delivery*.go, verified_peer_delivery.go, peer_event.go,
      peer_admission_receipt*.go.
    - View: view_authority*.go, view_parse.go.
    - AgentView: agent_view*.go, agent_projection_parse.go, agent_receipt.go.

    The authority (src/internal/agency/authority).
    - Bind: bind.go.  StoreTime: the store's time text (store.go).
    - Store: schema.sql, the transaction discipline of store.go, Principals and the
      Artifact catalog.  EventStore: stored Events (event_projection.go).
    - Attach: attachment*.go, claim_disposition.go.  Routes: peer_route.go.
    - Inbox: peer_delivery_inbox.go, peer_delivery_projection.go,
      peer_terminal_reply_admission.go, event_depth.go.
    - Outbox: peer_delivery_outbox.go, peer_delivery_settlement.go.
    - Domain: domain_admission.go, admission_apply.go.
    - Admission: admission.go, admission_validate.go, admission_record.go.
    - PeerAdmission: peer_delivery_admission.go.
    - Current: current.go, current_projection.go, current_focus.go.

    The Artifact object store (src/internal/agency/artifact).
    - Cas: store.go, filesystem.go, over a file system of inodes, names and
      directories; before every system call other writers may run and every call
      may fail.  CasInv: the protocol of its writers ([cas_step]) and the invariant
      of the tree, with a program logic of file system steps.  CasSafe: what the
      operations establish under interference and faults.  CasCalm: that they end,
      and with which result, when left alone.  CasContracts: the properties.

    Peers talking (src/internal/agency/peerlink, src/internal/daemon).
    - Base64, Compact: encoding/base64 and json.Compact as the frames use them.
    - Frame: frame.go, errors.go, and that every frame fits its bounds.
    - Link: client.go, server.go, identity.go: one delivery over a connection.
    - Exchange: exchange.go, exchange_identity.go: the callbacks of a host's server
      and the pass over its outbox, with its Store.
    - Agreement: two hosts with their Stores, and what they agree on.
    - ExchangeScenario: a run of the exchange; LinkContracts: the properties.

    The agent terminal (src/internal/agency/client).
    - Base64: also base64.RawURLEncoding.  Journal: journal.go, the journal's text and
      the operation keys derived from it.  JournalDir: journal_files.go,
      journal_fs.go, the directory call by call.  Terminal: terminal.go,
      agent_commands.go, hook_commands.go, hook_boundary.go, control_types.go,
      intent_diagnostic.go, each command from its arguments to its exit status.
    - JournalProto: the protocol of the directory ([jstep]) and its invariant.
      JournalOps, JournalSafe: a program logic of a command's steps, and that every
      command follows the protocol whatever fails.  JournalCalm: that an undisturbed
      submit finishes.  JournalContracts: the properties.

    The control protocol (src/internal/daemon and src/internal/agency/client).
    - ArtifactText: artifact_projection.go, the Artifact text an agent may read.
    - ControlWire: control_wire.go and control_json.go, the messages; ControlText: that
      they survive their encoding.  Control: control.go, control_parse.go,
      control_error.go, the server's handlers.  ControlClient: control_client.go,
      control_transport.go.
    - Service: service.go, the operations over the Store and the object tree.
    - ControlProof: the class [SoundService] of what the server relies on, and that a
      call through the protocol is the call beside the service; ServiceProof: that
      the local service is such a service; ServiceReplay: what it answers again.
      ControlContracts: the properties.

    The memory server (src/internal/aml, src/internal/memory).
    - Heap: container/heap.  TopK: internal/topk, the bounded selection.
    - Registry: registry.go, the cache of open stores with its requests.
    - Scheduler: scheduler.go, the sections under the mutex.  SchedulerProof: the
      goroutines that run them, the invariants and the properties.

    Proofs.
    - History: [extends], the order a database moves forward in, and [store_step],
      one call of a method of the Store.  Frames: [tx_step] and which tables each
      transaction may change.
    - Invariant: the class [StoreInvariant] of properties of a database kept by every
      transaction, with the lemma that such a property holds of every reachable
      Store; instances for the origin clock, Artifact pins and claims.  Lineage,
      PeerInv, Replies, Boundary, PeerSteps: further instances.
    - Lifecycle: the abstract machine of a Handling, whose moves belong to callers, and
      the refinement; [store_call] is [store_step] with the caller of each method.
    - Projection: what a sealed View offers.  Replay: recorded outcomes read back.
    - Effects, Attention, Boundary, PeerSteps: what single calls do.
    - Calls: from transactions to method calls.
    - Scenario: a run of three hosts, evaluated by the kernel, on which the
      hypotheses of the store theorems are met.
    - MessageContracts, StoreContracts, PeerContracts (with CasContracts, LinkContracts,
      JournalContracts and ControlContracts above, and the ends of TopK, Registry and
      SchedulerProof): the properties, numbered C1 to C40, each with a witness when it
      has hypotheses.

    ** How the code is represented

    A Go string or []byte is a [string] of bytes; time.Time an instant in
    nanoseconds (a [Z]); sized integers are [Z] with their bounds written where the
    code or the column type has them; Go maps are [gmap].  A function that returns
    (value, error) returns [result].  A table is a [gmap] from primary key to a row
    of column values; CHECK, UNIQUE, PRIMARY KEY and FOREIGN KEY constraints are
    checked by the write functions and fail the statement.  A transaction is a
    function [db -> result (A * db)]; [transact] commits the new database on [Ok]
    and keeps the old one on [Err].  A method of the Store takes the Store and
    returns the answer and the new Store; the mutex makes methods atomic, except
    [Admit] and [AdmitPeerDelivery], which verify Artifacts between two
    transactions: there an arbitrary function stands for what other calls did
    meanwhile.

    Parameters: Ed25519 signing and verification, the Artifact verifier, reads of
    crypto/rand, the clock (the argument [now]), and in the components over [Io] the
    world: the dialer, the file system, the control client and whatever else runs.
    The scheduler and the registry are small-step machines instead: each section
    under their mutex is a function, a goroutine is a value that says where it is,
    and a step moves one of them; the clock, the ends of jobs, the opening of stores
    and every cancellation are free choices of the step relation, and the objects
    that outlive their place in a map live in a heap of the state.  The store properties
    assume nothing of them except that a read of the clock is not the zero time, or
    has a four-digit year, where the statement says so; those about the link and the
    exchange assume what the statement names of the connection (it carries frames to
    the peer that holds the pinned key) and of Ed25519; those about objects that the
    other writers of the tree follow its protocol, and those about the terminal that
    other commands do, and that two versions of a journal file under one name have
    different digests.  The witnesses instantiate them
    with concrete functions.

    Every definition is total and runs: recursion is structural, or carries a bound
    that is the length of its input (the JSON scanner's nesting and the UTF-8
    decoder), the length of the heap it walks, or a number of attempts of the code
    itself, so no result depends on a choice of fuel.

    ** What is proved

    - C1 to C4, values and messages: binding never leaves what the View offered;
      Intents and Events read back from their canonical bytes.
    - C5 and C8, the control protocol: every call of the terminal's client through the
      protocol returns what the service returns beside it, and a submission whose
      answer was lost is answered again with the recorded outcome.
    - C7 and C10, the Artifact object store: objects are final and are what was put
      under any interference and failure; left alone, every operation ends with the
      result the tree determines, finishing promotions a crash interrupted.
    - C12 and C15, the exchange: over a working connection the client reports what the
      server's callback answered; whatever a sender has settled the receiver has
      settled with the same Receipt.
    - C9, C11, C38, the scheduler: jobs are exclusive and users with work bounded; no
      goroutine sleeps over what it waits for; no accepted notification is lost.
    - C13, bounded selection is sort and cut.  C14, open stores are closed once, never
      while held, and shared.
    - C16 to C20, every reachable database: history is append-only, the origin clock
      has no gaps, claims are exclusive, Reference history is linear, Handlings
      refine their lifecycle, moved under a claim by the bearer of its attachment only.
    - C21 to C26, local admission: its outcomes, idempotence, key conflicts, compare
      and swap on subjects and References, the bound on open Handlings.
    - C27 to C30 and C40, Current and boundaries: whom attention serves, that Views
      read back, issue and end of boundaries, bounded overtaking.
    - C31 to C33 and C35 to C37, peers: bounded tables, authenticated staging, sound
      admission, one delivery per target, authenticated settlement.
    - C6, C34 and C39, the agent terminal: the same Intent is the same operation; no
      failure loses an accepted Receipt; an undisturbed submit finishes whatever an
      interrupted one left.

    C3 states a defect: two provenance handles for one Event seal an Event whose
    stored bytes the parser refuses.

    ** Not modelled

    Opening and locking of the database file, schema inspection (filesystem.go,
    schema.go), TLS and TCP below the link's frames, sockets and HTTP below the
    control messages, the daemon's process (start, locks, provisioning, life cycle)
    and the commands are input and output around this core.  Cancellation of a
    context, failures of SQLite other than constraint violations and, for the object
    store, writes lost at a power failure do not occur in the model of the agency
    area.  Of the scheduler the log lines and the text of durations are left out, and
    float64 rounds after each operation (no fused multiply and add).
    The rest of internal/memory, internal/memoryagent, internal/retrieval,
    internal/records and internal/aml (record stores and queries in SQL, ranking in
    floating point, prompts and calls of language models, HTTP handlers, log files)
    is a separate area, most of it around external services; its pure parts would be
    what a continuation adds next. *)

From Stdlib Require Export ZArith Ascii.
From stdpp Require Export sorting pretty.
From stdpp Require Export base numbers strings gmap list.

Declare Scope agency_scope.
Delimit Scope agency_scope with agency.
Global Open Scope agency_scope.

(** Encodability of wire values: the lemmas each value type contributes. *)
Create HintDb wire_ok.

(** ** Errors

    [agency.ValidationError] carries one of three categories, a field and a
    problem; [fmt.Errorf("...: %w", err)] is [Wrapped]; [errors.New] inside a
    function is [Errorf]; a package-level [errors.New] variable is [Sentinel];
    a failure reported by [encoding/json], [strconv] or [hex] is [StdError]
    (the standard library's message texts are not modelled); a [*controlError]
    of the local control protocol is [ControlError], determined by its code and
    message. *)

Inductive ErrCategory := ErrInvalid | ErrLimit | ErrInvariant.

Inductive error :=
| ValidationError (category : ErrCategory) (field problem : string)
| Wrapped (context : string) (cause : error)
| Errorf (message : string)
| Sentinel (message : string)
| StdError (what : string)
| ControlError (code message : string).

#[export] Instance ErrCategory_eq_dec : EqDecision ErrCategory.
Proof. solve_decision. Defined.
#[export] Instance error_eq_dec : EqDecision error.
Proof. solve_decision. Defined.

Definition invalid (field problem : string) : error :=
  ValidationError ErrInvalid field problem.

Definition limit (field : string) (size maximum : Z) : error :=
  ValidationError ErrLimit field
    ("size " +:+ pretty size +:+ " exceeds maximum " +:+ pretty maximum).

Definition invariant (field problem : string) : error :=
  ValidationError ErrInvariant field problem.

(** [errors.Is]: equality along the chain of wrapped causes. *)
Fixpoint errors_is (err target : error) : bool :=
  bool_decide (err = target) ||
  match err with Wrapped _ cause => errors_is cause target | _ => false end.

(** ** Results: the [(value, error)] pairs of the source *)

Inductive result (A : Type) :=
| Ok (value : A)
| Err (e : error).
Arguments Ok {_} _.
Arguments Err {_} _.

#[export] Instance Ok_inj {A} : Inj eq eq (@Ok A).
Proof. by intros a b [=]. Qed.

#[export] Instance result_ret : MRet result := @Ok.
#[export] Instance result_bind : MBind result := λ A B f m,
  match m with Ok a => f a | Err e => Err e end.
#[export] Instance result_fmap : FMap result := λ A B f m,
  match m with Ok a => Ok (f a) | Err e => Err e end.

(** [fail_if c e]: the early return [if c { return ..., e }]. *)
Definition fail_if (c : bool) (e : error) : result () :=
  if c then Err e else Ok ().

(** A result whose error is replaced by [e] ([if err != nil { return e }]). *)
Definition or_error {A} (m : result A) (e : error) : result A :=
  match m with Ok a => Ok a | Err _ => Err e end.

(** A result whose error is wrapped ([fmt.Errorf("ctx: %w", err)]). *)
Definition wrap_error {A} (context : string) (m : result A) : result A :=
  match m with Ok a => Ok a | Err e => Err (Wrapped context e) end.

Definition is_ok {A} (m : result A) : bool :=
  match m with Ok _ => true | Err _ => false end.

Definition is_some {A} (o : option A) : bool := match o with Some _ => true | None => false end.

Definition of_option {A} (o : option A) (e : error) : result A :=
  match o with Some a => Ok a | None => Err e end.

(** [for _, x := range xs { y, err := f(x); if err != nil { return err }; ... }] *)
Fixpoint mapR {A B} (f : A → result B) (xs : list A) : result (list B) :=
  match xs with
  | [] => Ok []
  | x :: xs => y ← f x; ys ← mapR f xs; Ok (y :: ys)
  end.

Fixpoint foldR {A B} (f : A → B → result A) (a : A) (xs : list B) : result A :=
  match xs with
  | [] => Ok a
  | x :: xs => a' ← f a x; foldR f a' xs
  end.

Lemma mapR_Forall {A B} (f : A → result B) (P : B → Prop) xs ys :
  (∀ x y, f x = Ok y → P y) → mapR f xs = Ok ys → Forall P ys.
Proof.
  intros Hf. revert ys. induction xs as [|x xs IH]; intros ys H; cbn in H.
  - injection H as <-. constructor.
  - destruct (f x) as [y|] eqn:Hy; cbn in H; [|done].
    destruct (mapR f xs) as [zs|] eqn:Hz; cbn in H; [|done]. injection H as <-.
    constructor; eauto.
Qed.


Section result_lemmas.
Context {A B : Type}.

Lemma bind_Ok (m : result A) (f : A → result B) (b : B) :
  m ≫= f = Ok b ↔ ∃ a, m = Ok a ∧ f a = Ok b.
Proof. destruct m; cbv [mbind result_bind]; naive_solver. Qed.

Lemma fail_if_Ok c e u : fail_if c e = Ok u ↔ c = false.
Proof. destruct c, u; cbv; naive_solver. Qed.

Lemma or_error_Ok (m : result A) e a : or_error m e = Ok a ↔ m = Ok a.
Proof. destruct m; cbv; naive_solver. Qed.

Lemma wrap_error_Ok (m : result A) c a : wrap_error c m = Ok a ↔ m = Ok a.
Proof. destruct m; cbv; naive_solver. Qed.

Lemma of_option_Ok (o : option A) e a : of_option o e = Ok a ↔ o = Some a.
Proof. destruct o; cbv; naive_solver. Qed.

Lemma mapR_Ok (f : A → result B) xs ys :
  mapR f xs = Ok ys ↔ Forall2 (λ x y, f x = Ok y) xs ys.
Proof.
  revert ys. induction xs as [|x xs IH]; intros ys; simpl.
  - split; [intros [= <-]; constructor | by inversion 1].
  - destruct (f x) as [y|e] eqn:Hx; cbv [mbind result_bind].
    + destruct (mapR f xs) as [ys'|e]; split.
      * intros [= <-]. constructor; [done|]. by apply IH.
      * inversion 1 as [|????? Hys]; simplify_eq. apply IH in Hys. congruence.
      * done.
      * inversion 1 as [|????? Hys]; simplify_eq. apply IH in Hys. congruence.
    + split; [done|]. inversion 1; congruence.
Qed.

Lemma mapR_length (f : A → result B) xs ys :
  mapR f xs = Ok ys → length ys = length xs.
Proof. intros H%mapR_Ok. symmetry. by eapply Forall2_length. Qed.

(** A partial inverse, element by element, is a partial inverse on lists. *)
Lemma mapR_inverse (f : A → result B) (g : B → A) ys :
  Forall (λ y, f (g y) = Ok y) ys → mapR f (g <$> ys) = Ok ys.
Proof.
  intros H. apply mapR_Ok. induction H; simpl; constructor; auto.
Qed.
End result_lemmas.

(** ** Tactics

    [inv_res] inverts every hypothesis that says a sequence of fallible steps
    returned [Ok]; [step_res] moves the goal forward through a step that is
    known to succeed. *)

Ltac inv_res_step :=
  match goal with
  | H : _ ≫= _ = Ok _ |- _ => apply bind_Ok in H as (? & ? & ?)
  | H : mbind _ _ = Ok _ |- _ => apply bind_Ok in H as (? & ? & ?)
  | H : fail_if _ _ = Ok _ |- _ => apply fail_if_Ok in H
  | H : or_error _ _ = Ok _ |- _ => apply or_error_Ok in H
  | H : wrap_error _ _ = Ok _ |- _ => apply wrap_error_Ok in H
  | H : of_option _ _ = Ok _ |- _ => apply of_option_Ok in H
  | H : Ok _ = Ok _ |- _ => injection H as H
  | H : Err _ = Ok _ |- _ => discriminate H
  | H : Ok _ = Err _ |- _ => discriminate H
  | H : mret _ = Ok _ |- _ => injection H as H
  | x : () |- _ => destruct x
  | x : (_ * _)%type |- _ => destruct x
  | H : _ || _ = false |- _ => apply orb_false_elim in H as [? ?]
  | H : _ && _ = true |- _ => apply andb_prop in H as [? ?]
  | H : negb _ = false |- _ => apply negb_false_iff in H
  | H : negb _ = true |- _ => apply negb_true_iff in H
  | H : bool_decide _ = true |- _ => apply bool_decide_eq_true in H
  | H : bool_decide _ = false |- _ => apply bool_decide_eq_false in H
  end.

Ltac inv_res := repeat (inv_res_step; cbv beta iota in *; subst).

(** ** Strings

    A Go string is a byte sequence: [String.string], one [ascii] per byte;
    Go's [<] on strings is the bytewise lexicographic order [String.le]. *)

#[local] Arguments String.append : simpl nomatch.

Definition lenZ {A} (xs : list A) : Z := Z.of_nat (length xs).
Definition slen (s : string) : Z := Z.of_nat (String.length s).
Definition is_empty (s : string) : bool := bool_decide (s = "").

Definition byte_of_N (n : N) : ascii := ascii_of_N n.
Definition N_of_byte (c : ascii) : N := N_of_ascii c.

Fixpoint string_to_bytes (s : string) : list ascii :=
  match s with EmptyString => [] | String c s => c :: string_to_bytes s end.

Fixpoint bytes_to_string (l : list ascii) : string :=
  match l with [] => EmptyString | c :: l => String c (bytes_to_string l) end.

(** [strings.HasPrefix] and [strings.TrimPrefix]. *)
Fixpoint strip_prefix (p s : string) : option string :=
  match p, s with
  | EmptyString, _ => Some s
  | String a p, String b s => if Ascii.eqb a b then strip_prefix p s else None
  | String _ _, EmptyString => None
  end.

Lemma strip_prefix_app p s : strip_prefix p (p +:+ s) = Some s.
Proof. induction p as [|a p IH]; simpl; [done|]. by rewrite Ascii.eqb_refl. Qed.

Lemma strip_prefix_Some p s t : strip_prefix p s = Some t ↔ s = p +:+ t.
Proof.
  split; [|intros ->; apply strip_prefix_app].
  revert s. induction p as [|a p IH]; intros [|b s]; simpl; try naive_solver.
  destruct (Ascii.eqb_spec a b) as [->|]; [|done]. intros H. simpl. by rewrite (IH s H).
Qed.

Lemma string_to_bytes_inv s : bytes_to_string (string_to_bytes s) = s.
Proof. induction s; simpl; congruence. Qed.

Lemma bytes_to_string_inv l : string_to_bytes (bytes_to_string l) = l.
Proof. induction l; simpl; congruence. Qed.

Lemma string_app_assoc (a b c : string) : (a +:+ b) +:+ c = a +:+ (b +:+ c).
Proof. induction a; simpl; congruence. Qed.

Lemma string_app_nil_r (a : string) : a +:+ "" = a.
Proof. induction a; simpl; congruence. Qed.

Lemma string_length_app (a b : string) :
  String.length (a +:+ b) = (String.length a + String.length b)%nat.
Proof. induction a; simpl; congruence. Qed.

Lemma string_to_bytes_app a b :
  string_to_bytes (a +:+ b) = string_to_bytes a ++ string_to_bytes b.
Proof. induction a; simpl; congruence. Qed.

Lemma string_to_bytes_length s : length (string_to_bytes s) = String.length s.
Proof. induction s; simpl; congruence. Qed.

Lemma is_empty_false s : is_empty s = false ↔ s ≠ "".
Proof. unfold is_empty. by rewrite bool_decide_eq_false. Qed.

Lemma is_empty_true s : is_empty s = true ↔ s = "".
Proof. unfold is_empty. by rewrite bool_decide_eq_true. Qed.

(** ** Sorting by a string key: [sort.Slice(xs, key(x_i) < key(x_j))].

    Go's sort is not stable; it is used here only where elements with equal
    keys are equal values or are rejected right after the sort, so that any
    sorting function gives the same answer. *)

Definition key_le {A} (key : A → string) (x y : A) : Prop := String.le (key x) (key y).

#[export] Instance key_le_dec {A} (key : A → string) : RelDecision (key_le key).
Proof. intros x y. unfold key_le. apply _. Defined.
#[export] Instance key_le_trans {A} (key : A → string) : Transitive (key_le key).
Proof. intros x y z. unfold key_le. apply (transitivity (R:=String.le)). Qed.
#[export] Instance key_le_total {A} (key : A → string) : Total (key_le key).
Proof. intros x y. unfold key_le. apply (total String.le). Qed.

Definition sort_by {A} (key : A → string) : list A → list A := merge_sort (key_le key).

Lemma sort_by_perm {A} (key : A → string) xs : sort_by key xs ≡ₚ xs.
Proof. apply merge_sort_Permutation. Qed.

Lemma sort_by_sorted {A} (key : A → string) xs : StronglySorted (key_le key) (sort_by key xs).
Proof. apply StronglySorted_merge_sort; apply _. Qed.

(** Sorting depends only on the set of elements when keys identify elements. *)
Lemma sort_by_unique {A} (key : A → string) xs ys :
  (∀ x y, x ∈ xs → y ∈ xs → key x = key y → x = y) →
  xs ≡ₚ ys → StronglySorted (key_le key) ys → sort_by key xs = ys.
Proof.
  intros Hinj Hp Hs. apply (StronglySorted_unique_strong (key_le key)).
  - intros x y Hx Hy Hxy Hyx. rewrite sort_by_perm in Hx.
    rewrite <- Hp in Hy. apply Hinj; [done..|].
    by apply (anti_symm String.le).
  - apply sort_by_sorted.
  - done.
  - by rewrite sort_by_perm.
Qed.

Lemma sort_by_Permutation {A} (key : A → string) xs ys :
  (∀ x y, x ∈ xs → y ∈ xs → key x = key y → x = y) →
  xs ≡ₚ ys → sort_by key xs = sort_by key ys.
Proof.
  intros Hinj Hp. apply sort_by_unique; [done| |apply sort_by_sorted].
  by rewrite sort_by_perm.
Qed.

(** Some element equal to its successor: the duplicate scan after a sort. *)
Fixpoint has_adjacent_dup {A} `{EqDecision A} (xs : list A) : bool :=
  match xs with
  | x :: (y :: _) as tl => bool_decide (x = y) || has_adjacent_dup tl
  | _ => false
  end.

(** A duplicate anywhere: the [seen] map scan. *)
Fixpoint has_dup {A} `{EqDecision A} (xs : list A) : bool :=
  match xs with
  | [] => false
  | x :: xs => bool_decide (x ∈ xs) || has_dup xs
  end.

Lemma has_dup_NoDup {A} `{EqDecision A} (xs : list A) : has_dup xs = false ↔ NoDup xs.
Proof.
  induction xs as [|x xs IH]; simpl; [split; [constructor|done]|].
  rewrite orb_false_iff, IH, bool_decide_eq_false, NoDup_cons. done.
Qed.

(** On a sorted list the adjacent scan finds every duplicate. *)
Lemma has_adjacent_dup_NoDup {A} `{EqDecision A} (R : relation A) `{!AntiSymm (=) R} (xs : list A) :
  StronglySorted R xs → has_adjacent_dup xs = false ↔ NoDup xs.
Proof.
  induction 1 as [|x xs Hs IH Hx]; simpl; [split; [constructor|done]|].
  destruct xs as [|y xs].
  { split; [intros _; apply NoDup_singleton|done]. }
  rewrite orb_false_iff, IH, bool_decide_eq_false, (NoDup_cons x). split.
  - intros [Hne Hnd]. split; [|done]. intros Hin. apply Hne.
    apply elem_of_cons in Hin as [?|Hin]; [done|].
    apply Forall_cons in Hx as [Hxy _].
    inversion Hs as [|?? _ Hy]; simplify_eq. rewrite Forall_forall in Hy.
    by apply (anti_symm R), Hy.
  - intros [Hnin Hnd]. split; [|done]. intros ->. apply Hnin. constructor.
Qed.

Lemma string_app_inj (p a b : string) : p +:+ a = p +:+ b → a = b.
Proof. induction p as [|c p IH]; cbn; [done|]. intros [= H]. by apply IH. Qed.

Lemma append_suffix_inj (s t u v : string) :
  String.length u = String.length v → s +:+ u = t +:+ v → s = t ∧ u = v.
Proof.
  intros Hlen. revert t. induction s as [|c s IH]; intros [|c' t] H.
  - by split.
  - exfalso. apply (f_equal String.length) in H. rewrite !string_length_app in H. cbn [String.length] in H. lia.
  - exfalso. apply (f_equal String.length) in H. rewrite !string_length_app in H. cbn [String.length] in H. lia.
  - injection H as -> H. by apply IH in H as [-> ->].
Qed.

#[export] Instance String_inj c : Inj eq eq (String c).
Proof. by intros a b [=]. Qed.

(** ** Counting

    How many of some values are about [e], as far as [f] says. *)

Definition count_of {T} (f : T → option nat) (e : nat) (ts : list T) : Z :=
  Z.of_nat (length (filter (λ t, f t = Some e) ts)).

Section count_of.
Context {T : Type} (f : T → option nat) (e : nat).
#[local] Open Scope Z_scope.
Implicit Types ts : list T.

#[global] Instance count_of_proper : Proper ((≡ₚ) ==> (=)) (count_of f e).
Proof. intros ts ts' Ht. unfold count_of. by rewrite Ht. Qed.

Lemma count_of_cons t ts : count_of f e (t :: ts) = (if decide (f t = Some e) then 1 else 0) + count_of f e ts.
Proof. unfold count_of. rewrite filter_cons. case_decide; [cbn [length]; lia|done]. Qed.

Lemma count_of_self t ts : f t = Some e → count_of f e (t :: ts) = 1 + count_of f e ts.
Proof. intros Hf. by rewrite count_of_cons, decide_True. Qed.

Lemma count_of_other t ts : f t ≠ Some e → count_of f e (t :: ts) = count_of f e ts.
Proof. intros Hf. by rewrite count_of_cons, decide_False. Qed.

Lemma count_of_nonneg ts : 0 <= count_of f e ts.
Proof. unfold count_of. lia. Qed.

Lemma count_of_pos t ts : t ∈ ts → f t = Some e → 0 < count_of f e ts.
Proof.
  intros (l1 & l2 & ->)%list_elem_of_split Hf. rewrite <- Permutation_middle, count_of_self by done.
  pose proof (count_of_nonneg (l1 ++ l2)). lia.
Qed.

Lemma count_of_pos_inv ts : 0 < count_of f e ts → ∃ t, t ∈ ts ∧ f t = Some e.
Proof.
  unfold count_of. destruct (filter _ ts) as [|t l] eqn:E; [cbn; lia|]. intros _.
  assert (t ∈ filter (λ t, f t = Some e) ts) as [? ?]%list_elem_of_filter by (rewrite E; left). by exists t.
Qed.

Lemma count_of_zero ts : (∀ t, t ∈ ts → f t ≠ Some e) → count_of f e ts = 0.
Proof.
  intros Hno. destruct (decide (0 < count_of f e ts)) as [(t & Ht & Hf)%count_of_pos_inv|].
  - by destruct (Hno t Ht).
  - pose proof (count_of_nonneg ts). lia.
Qed.
End count_of.
