(* ===== verification/Io.v ===== *)
(** Fallible steps over a world: the small state-and-error monad of the components
    that mix I/O with other goroutines or processes (a step that fails keeps the
    world it reached), and the relation such steps move a world along.

    Triples over fallible steps: from a state in order that satisfies a precondition,
    a step moves the part of the world that is looked at along a protocol only, and
    what it returns satisfies a postcondition. *)

From S2P Require Import Prelude.

Definition io (W A : Type) : Type := W → result A * W.
#[export] Instance io_ret {W} : MRet (io W) := λ A x w, (Ok x, w).
#[export] Instance io_bind {W} : MBind (io W) := λ A B k m w,
  match m w with (Ok x, w) => k x w | (Err e, w) => (Err e, w) end.
Definition lift {W A} (r : result A) : io W A := λ w, (r, w).
Definition run {W A} (f : W → result A * W) : io W A := f.

(** The outcome of a step as a value: [x, err := f(...)] without a return. *)
Definition attempt {W A} (m : io W A) : io W (result A) := λ w, let '(r, w) := m w in (Ok r, w).
Definition wrapping {W A} (context : string) (m : io W A) : io W A := λ w,
  let '(r, w) := m w in (wrap_error context r, w).
Definition guard {W} (c : bool) (e : error) : io W () := lift (fail_if c e).

(** [os.ErrNotExist] and [os.ErrExist]: the only outcomes of a system call the
    sources tell apart. *)
Definition ErrNotExist : error := Sentinel "file does not exist".
Definition ErrExist : error := Sentinel "file already exists".

(** [for _, x := range l { if err := f(x); err != nil { return err } }]. *)
Fixpoint each {W A} (f : A → io W ()) (l : list A) : io W () :=
  match l with
  | [] => mret ()
  | x :: l => _ ← f x; each f l
  end.

(** ** Evolution *)

Section along.
Context {W : Type} (R : relation W) `{!PreOrder R}.

(** A step moves the world along [R] from everywhere. *)
Definition along {A} (m : io W A) : Prop := ∀ w, R w (snd (m w)).

Lemma along_ret {A} (x : A) : along (mret x).
Proof. intros w. reflexivity. Qed.

Lemma along_lift {A} (r : result A) : along (lift r).
Proof. intros w. reflexivity. Qed.

Lemma along_bind {A B} (m : io W A) (k : A → io W B) : along m → (∀ x, along (k x)) → along (m ≫= k).
Proof.
  intros Hm Hk w. unfold mbind, io_bind. specialize (Hm w). destruct (m w) as [[x|e] w1]; [|done].
  etrans; [exact Hm|apply Hk].
Qed.

Lemma along_each {A} (f : A → io W ()) l : (∀ x, along (f x)) → along (each f l).
Proof. intros Hf. induction l as [|x l IH]; [apply along_ret|]. apply along_bind; [apply Hf|done]. Qed.
End along.

(** ** Results *)

Lemma io_bind_inv {W A B} (m : io W A) (k : A → io W B) w r w' :
  (m ≫= k) w = (r, w') →
  (∃ x w1, m w = (Ok x, w1) ∧ k x w1 = (r, w')) ∨ (∃ e, m w = (Err e, w') ∧ r = Err e).
Proof.
  unfold mbind, io_bind. destruct (m w) as [[x|e] w1]; [left; by eauto|]. intros [= <- <-]. right. by eauto.
Qed.

Lemma io_bind_Ok {W A B} (m : io W A) (k : A → io W B) w y w' :
  (m ≫= k) w = (Ok y, w') → ∃ x w1, m w = (Ok x, w1) ∧ k x w1 = (Ok y, w').
Proof. intros [H|(e & _ & [=])]%io_bind_inv. exact H. Qed.

Lemma io_bind_run {W A B} (m : io W A) (k : A → io W B) w x w1 :
  m w = (Ok x, w1) → (m ≫= k) w = k x w1.
Proof. unfold mbind, io_bind. by intros ->. Qed.

(** The protocol keeps the states in order. *)
Class Keeps {S} (step : relation S) (inv : S → Prop) : Prop :=
  keeps s s' : rtc step s s' → inv s → inv s'.

Definition triple {W S} (view : W → S) (step : relation S) (inv : S → Prop)
    {A} (P : S → Prop) (m : io W A) (Q : A → S → Prop) : Prop := ∀ w,
  inv (view w) → P (view w) →
  rtc step (view w) (view (snd (m w))) ∧ ∀ x, fst (m w) = Ok x → Q x (view (snd (m w))).

Section rules.
Context {W S : Type} {view : W → S} {step : relation S} {inv : S → Prop}.
Abbreviation ht := (triple view step inv).

Lemma ht_weaken {A} (P P' : S → Prop) (m : io W A) (Q Q' : A → S → Prop) :
  ht P m Q → (∀ s, P' s → P s) → (∀ x s, Q x s → Q' x s) → ht P' m Q'.
Proof. intros H HP HQ w Hi HP'. destruct (H w Hi (HP _ HP')). split; eauto. Qed.
Lemma ht_pre {A} (P P' : S → Prop) (m : io W A) Q : (∀ s, P' s → P s) → ht P m Q → ht P' m Q.
Proof. intros HP H. by eapply ht_weaken; [exact H|exact HP|]. Qed.
Lemma ht_post {A} P (m : io W A) (Q Q' : A → S → Prop) : (∀ x s, Q x s → Q' x s) → ht P m Q → ht P m Q'.
Proof. intros HQ H. by eapply ht_weaken; [exact H| |exact HQ]. Qed.

Lemma ht_ret {A} P (x : A) (Q : A → S → Prop) : (∀ s, P s → Q x s) → ht P (mret x) Q.
Proof. intros H w _ HP. split; [apply rtc_refl|]. cbn. intros y [= <-]. auto. Qed.
Lemma ht_lift {A} P (r : result A) (Q : A → S → Prop) : (∀ x s, r = Ok x → P s → Q x s) → ht P (lift r) Q.
Proof. intros H w _ HP. split; [apply rtc_refl|]. cbn. eauto. Qed.
Lemma ht_check P c e (Q : () → S → Prop) : (∀ s, c = false → P s → Q () s) → ht P (guard c e) Q.
Proof. intros H. apply ht_lift. intros [] s Hc%fail_if_Ok. by apply H. Qed.
Lemma ht_run {A} P (f : W → A) (Q : A → S → Prop) : (∀ x s, P s → Q x s) → ht P (run (λ w, (Ok (f w), w))) Q.
Proof. intros H w _ HP. split; [apply rtc_refl|]. cbn. intros y [= <-]. auto. Qed.

Lemma ht_bind `{!Keeps step inv} {A B} P (m : io W A) (k : A → io W B) Q Q' :
  ht P m Q → (∀ x, ht (Q x) (k x) Q') → ht P (m ≫= k) Q'.
Proof.
  intros Hm Hk w Hi HP. destruct (Hm w Hi HP) as [Hs HQ]. unfold mbind, io_bind.
  destruct (m w) as [[x|e] w1]; cbn [fst snd] in *; [|by split].
  destruct (Hk x w1 (keeps _ _ Hs Hi) (HQ x eq_refl)) as [Hs' HQ']. split; [by etrans|done].
Qed.

Lemma ht_attempt {A} P (m : io W A) Q : ht P m Q → ht P (attempt m) (λ r s, ∀ x, r = Ok x → Q x s).
Proof.
  intros Hm w Hi HP. destruct (Hm w Hi HP) as [Hs HQ]. unfold attempt.
  destruct (m w) as [r w1]; cbn [fst snd] in *. split; [done|]. intros y [= <-]. done.
Qed.
Lemma ht_wrapping {A} c P (m : io W A) Q : ht P m Q → ht P (wrapping c m) Q.
Proof.
  intros Hm w Hi HP. destruct (Hm w Hi HP) as [Hs HQ]. unfold wrapping.
  destruct (m w) as [r w1]; cbn [fst snd] in *. split; [done|]. intros x Hx%wrap_error_Ok. auto.
Qed.

(** Facts of the state that a step starts from. *)
Lemma ht_pure {A} (X : Prop) P (m : io W A) Q : (X → ht P m Q) → ht (λ s, P s ∧ X) m Q.
Proof. intros H w Hi [HP HX]. by apply H. Qed.
Lemma ht_fact {A} (X : Prop) P (m : io W A) Q : (∀ s, P s → X) → (X → ht P m Q) → ht P m Q.
Proof. intros HX H w Hi HP. apply H; [by eapply HX|done|done]. Qed.

(** A check in front: what it checked is known afterwards. *)
Lemma ht_guard {B} P c e (k : () → io W B) Q : (c = false → ht P (k ()) Q) → ht P (guard c e ≫= k) Q.
Proof.
  intros Hk w Hi HP. unfold guard, lift, mbind, io_bind. destruct c; cbn [fail_if].
  - split; [apply rtc_refl|done].
  - by apply Hk.
Qed.
Lemma ht_lifted {A B} P (r : result A) (k : A → io W B) Q :
  (∀ x, r = Ok x → ht P (k x) Q) → ht P (lift r ≫= k) Q.
Proof.
  intros Hk w Hi HP. unfold lift, mbind, io_bind. destruct r as [x|e].
  - by apply Hk.
  - split; [apply rtc_refl|done].
Qed.
End rules.
