(* ===== verification/Utf8.v ===== *)
(** UTF-8 as used through [unicode/utf8] by the agency packages: decoding of
    the first rune, encoding of a rune, validity, and the laws between them. *)

From S2P Require Import Prelude.
From Stdlib Require Import Lia.

#[local] Open Scope N_scope.
#[local] Arguments String.append : simpl nomatch.

Definition in_range (lo hi : N) (b : ascii) : bool :=
  (lo <=? N_of_byte b) && (N_of_byte b <=? hi).

Definition cont_bits (b : ascii) : N := N_of_byte b - 0x80.

(** [utf8.DecodeRuneInString] on a non-empty string: the first code point and
    the remaining bytes, [None] where Go returns [(RuneError, 1)]. *)
Definition decode_rune (s : string) : option (N * string) :=
  match s with
  | EmptyString => None
  | String b0 r0 =>
      let n0 := N_of_byte b0 in
      if n0 <? 0x80 then Some (n0, r0)
      else if n0 <? 0xC2 then None
      else if n0 <? 0xE0 then
        match r0 with
        | String b1 r1 =>
            if in_range 0x80 0xBF b1
            then Some ((n0 - 0xC0) * 64 + cont_bits b1, r1) else None
        | _ => None
        end
      else if n0 <? 0xF0 then
        match r0 with
        | String b1 (String b2 r2) =>
            if in_range (if n0 =? 0xE0 then 0xA0 else 0x80)
                        (if n0 =? 0xED then 0x9F else 0xBF) b1 &&
               in_range 0x80 0xBF b2
            then Some ((n0 - 0xE0) * 4096 + cont_bits b1 * 64 + cont_bits b2, r2)
            else None
        | _ => None
        end
      else if n0 <? 0xF5 then
        match r0 with
        | String b1 (String b2 (String b3 r3)) =>
            if in_range (if n0 =? 0xF0 then 0x90 else 0x80)
                        (if n0 =? 0xF4 then 0x8F else 0xBF) b1 &&
               in_range 0x80 0xBF b2 && in_range 0x80 0xBF b3
            then Some ((n0 - 0xF0) * 262144 + cont_bits b1 * 4096 +
                       cont_bits b2 * 64 + cont_bits b3, r3)
            else None
        | _ => None
        end
      else None
  end.

(** [utf8.AppendRune] on a Unicode scalar value. *)
Definition encode_rune (c : N) : string :=
  if c <? 0x80 then String (byte_of_N c) ""
  else if c <? 0x800 then
    String (byte_of_N (0xC0 + c / 64)) (String (byte_of_N (0x80 + c mod 64)) "")
  else if c <? 0x10000 then
    String (byte_of_N (0xE0 + c / 4096))
      (String (byte_of_N (0x80 + (c / 64) mod 64))
        (String (byte_of_N (0x80 + c mod 64)) ""))
  else
    String (byte_of_N (0xF0 + c / 262144))
      (String (byte_of_N (0x80 + (c / 4096) mod 64))
        (String (byte_of_N (0x80 + (c / 64) mod 64))
          (String (byte_of_N (0x80 + c mod 64)) ""))).

Definition scalar (c : N) : bool :=
  (c <? 0xD800) || ((0xE000 <=? c) && (c <? 0x110000)).

Fixpoint valid_utf8_fuel (fuel : nat) (s : string) : bool :=
  match fuel, s with
  | _, EmptyString => true
  | O, _ => false
  | S fuel, _ =>
      match decode_rune s with
      | Some (_, rest) => valid_utf8_fuel fuel rest
      | None => false
      end
  end.

(** [utf8.ValidString]: every step decodes a rune. *)
Definition valid_utf8 (s : string) : bool := valid_utf8_fuel (String.length s) s.

Lemma N_of_byte_of_N n : n < 256 → N_of_byte (byte_of_N n) = n.
Proof. apply N_ascii_embedding. Qed.

Lemma byte_of_N_of_byte b : byte_of_N (N_of_byte b) = b.
Proof. apply ascii_N_embedding. Qed.

Lemma N_of_byte_bound b : N_of_byte b < 256.
Proof. apply N_ascii_bounded. Qed.

Ltac utf8_case :=
  repeat match goal with
  | |- context [if ?c then _ else _] => destruct c eqn:?
  | H : context [if ?c then _ else _] |- _ => destruct c eqn:?
  end.

Ltac utf8_arith :=
  unfold in_range, cont_bits in *;
  repeat match goal with
  | H : _ && _ = true |- _ => apply andb_prop in H as [? ?]
  | H : _ && _ = false |- _ => apply andb_false_iff in H as [?|?]
  | H : (_ <? _) = true |- _ => apply N.ltb_lt in H
  | H : (_ <? _) = false |- _ => apply N.ltb_ge in H
  | H : (_ <=? _) = true |- _ => apply N.leb_le in H
  | H : (_ <=? _) = false |- _ => apply N.leb_gt in H
  | H : (_ =? _) = true |- _ => apply N.eqb_eq in H
  | H : (_ =? _) = false |- _ => apply N.eqb_neq in H
  end.

Ltac div_lia := zify; Z.to_euclidean_division_equations; lia.

(** Decoding what was encoded, in front of any suffix. *)
Lemma decode_encode_rune c t :
  scalar c = true → decode_rune (encode_rune c +:+ t) = Some (c, t).
Proof.
  intros Hc. unfold scalar in Hc. apply orb_true_iff in Hc.
  assert (Hb : c < 0xD800 ∨ (0xE000 <= c ∧ c < 0x110000)).
  { destruct Hc as [H|H]; utf8_arith; [left|right]; lia. }
  clear Hc. unfold encode_rune.
  destruct (c <? 0x80) eqn:H1; [|destruct (c <? 0x800) eqn:H2;
    [|destruct (c <? 0x10000) eqn:H3]]; utf8_arith; simpl;
    unfold in_range, cont_bits; rewrite ?N_of_byte_of_N by div_lia.
  - rewrite (proj2 (N.ltb_lt _ _)) by lia. done.
  - utf8_case; utf8_arith; try div_lia; repeat f_equal; div_lia.
  - utf8_case; utf8_arith; try div_lia; repeat f_equal; div_lia.
  - utf8_case; utf8_arith; try div_lia; repeat f_equal; div_lia.
Qed.

Lemma byte_eq b n : N_of_byte b = n → byte_of_N n = b.
Proof. intros <-. apply byte_of_N_of_byte. Qed.

Ltac decoded_bytes :=
  repeat (apply (f_equal2 String); [symmetry; apply byte_eq; div_lia|]); done.
Ltac orb_range :=
  match goal with |- (?c <? ?d) || _ = true =>
    destruct (N.ltb_spec c d); simpl; [done|];
    apply andb_true_iff; split; [apply N.leb_le|apply N.ltb_lt]; lia end.

(** What was decoded is the encoding of a scalar in front of the rest. *)
Lemma decode_rune_inv s c t :
  decode_rune s = Some (c, t) → s = encode_rune c +:+ t ∧ scalar c = true.
Proof.
  intros H. destruct s as [|b0 r0]; [done|]. simpl in H.
  pose proof (N_of_byte_bound b0).
  destruct (N_of_byte b0 <? 0x80) eqn:E0.
  { injection H as <- <-. unfold encode_rune. rewrite E0. utf8_arith.
    rewrite byte_of_N_of_byte. split; [done|]. unfold scalar.
    apply orb_true_iff. left. apply N.ltb_lt. lia. }
  destruct (N_of_byte b0 <? 0xC2) eqn:E1; [done|].
  destruct (N_of_byte b0 <? 0xE0) eqn:E2; [|destruct (N_of_byte b0 <? 0xF0) eqn:E3;
    [|destruct (N_of_byte b0 <? 0xF5) eqn:E4; [|done]]];
    repeat match type of H with (match ?r with EmptyString => _ | _ => _ end) = _ =>
      destruct r as [|? ?]; [done|] end;
    match type of H with (if ?c then _ else _) = _ => destruct c eqn:E; [|done] end;
    injection H as <- <-; unfold in_range, cont_bits, encode_rune, scalar in *;
    repeat match goal with H : _ && _ = true |- _ => apply andb_prop in H as [? ?] end.
  - utf8_case; utf8_arith; try lia. split; [|orb_range]. simpl; decoded_bytes.
  - utf8_case; utf8_arith; try lia; (split; [|orb_range]); simpl; decoded_bytes.
  - utf8_case; utf8_arith; try lia; (split; [|orb_range]); simpl; decoded_bytes.
Qed.

(** Validity by its own recursion: a valid string is empty or starts with an
    encoded scalar followed by a valid string. *)
Lemma decode_rune_shorter s c t :
  decode_rune s = Some (c, t) → (String.length t < String.length s)%nat.
Proof.
  intros [-> _]%decode_rune_inv. rewrite string_length_app.
  enough (0 < String.length (encode_rune c))%nat by lia.
  unfold encode_rune. utf8_case; simpl; lia.
Qed.

Lemma valid_utf8_fuel_enough f s :
  (String.length s <= f)%nat → valid_utf8_fuel f s = valid_utf8 s.
Proof.
  unfold valid_utf8. remember (String.length s) as n eqn:Hn. revert f s Hn.
  induction (lt_wf n) as [n _ IH]. intros f s Hn Hle.
  destruct s as [|a s]; [by destruct f, n|].
  destruct f as [|f]; [simpl in *; lia|]. destruct n as [|n]; [simpl in *; lia|].
  cbn [valid_utf8_fuel]. destruct (decode_rune (String a s)) as [[c t]|] eqn:Hd; [|done].
  apply decode_rune_shorter in Hd.
  rewrite (IH (String.length t)) by lia. symmetry. apply (IH (String.length t)); lia.
Qed.

Lemma valid_utf8_cons s c t :
  decode_rune s = Some (c, t) → valid_utf8 s = valid_utf8 t.
Proof.
  intros Hd. pose proof (decode_rune_shorter _ _ _ Hd).
  unfold valid_utf8 at 1. destruct s as [|a s]; [done|].
  cbn [String.length valid_utf8_fuel]. rewrite Hd. apply valid_utf8_fuel_enough.
  simpl in *. lia.
Qed.

Lemma valid_utf8_inv s :
  valid_utf8 s = true →
  s = "" ∨ ∃ c t, s = encode_rune c +:+ t ∧ scalar c = true ∧ valid_utf8 t = true.
Proof.
  destruct s as [|a s]; [by left|]. intros Hv. right.
  destruct (decode_rune (String a s)) as [[c t]|] eqn:Hd.
  - exists c, t. rewrite (valid_utf8_cons _ _ _ Hd) in Hv.
    by apply decode_rune_inv in Hd as [??].
  - unfold valid_utf8 in Hv. cbn [String.length valid_utf8_fuel] in Hv. by rewrite Hd in Hv.
Qed.

Lemma valid_utf8_encode c t :
  scalar c = true → valid_utf8 (encode_rune c +:+ t) = valid_utf8 t.
Proof. intros Hc. eapply valid_utf8_cons, decode_encode_rune, Hc. Qed.

Lemma valid_utf8_ind (P : string → Prop) :
  P "" →
  (∀ c t, scalar c = true → valid_utf8 t = true → P t → P (encode_rune c +:+ t)) →
  ∀ s, valid_utf8 s = true → P s.
Proof.
  intros H0 Hc s. remember (String.length s) as n eqn:Hn. revert s Hn.
  induction (lt_wf n) as [n _ IH]. intros s -> Hv.
  destruct (valid_utf8_inv s Hv) as [->|(c & t & -> & Hs & Ht)]; [done|].
  apply Hc; [done..|]. eapply IH; [|reflexivity|done].
  eapply decode_rune_shorter, decode_encode_rune, Hs.
Qed.

Lemma valid_utf8_app a b :
  valid_utf8 a = true → valid_utf8 (a +:+ b) = valid_utf8 b.
Proof.
  intros Ha. revert a Ha. apply (valid_utf8_ind (λ a, valid_utf8 (a +:+ b) = valid_utf8 b)); [done|].
  intros c t Hc _ IH. rewrite string_app_assoc, valid_utf8_encode; done.
Qed.
