(* ===== verification/Json.v ===== *)
(** The fragment of [encoding/json] the agency packages rely on: values,
    [json.Marshal]'s text (HTML-escaping string encoder, no spaces), the strict
    scanner behind [json.Decoder], and the theorem that scanning a marshalled
    value gives the value back.

    Object members are kept as an association list, in order and with
    duplicates, because the source inspects duplicates before it decodes. *)

From Stdlib Require Import Lia DecimalString DecimalN DecimalFacts.
From S2P Require Import Prelude Utf8.

#[local] Arguments String.append : simpl nomatch.

(** ** Decimal numerals ([strconv.FormatUint] and [strconv.ParseUint], base 10) *)

Definition dec_of_N (n : N) : string := NilZero.string_of_uint (N.to_uint n).
Definition N_of_dec (s : string) : option N := N.of_uint <$> NilZero.uint_of_string s.

(** ** Values *)

#[warnings="-register-all"]
Inductive json :=
| JNull
| JBool (b : bool)
| JNum (literal : string)
| JStr (s : string)
| JArr (elements : list json)
| JObj (members : list (string * json)).

(** ** [json.Marshal] *)

Definition dquote : string := String "034" "".

Definition hex_digit (n : N) : ascii :=
  byte_of_N (if (n <? 10)%N then 48 + n else 87 + n).

Definition u00 (n : N) : string :=
  "\u00" +:+ String (hex_digit (n / 16)) (String (hex_digit (n mod 16)) "").

(** One rune of [appendString] with [escapeHTML = true]. *)
Definition escape_rune (c : N) : string :=
  if (c <? 0x80)%N then
    let b := byte_of_N c in
    if Ascii.eqb b "034" then "\" +:+ dquote
    else if Ascii.eqb b "\" then "\\"
    else if (c =? 8)%N then "\b"
    else if (c =? 12)%N then "\f"
    else if (c =? 10)%N then "\n"
    else if (c =? 13)%N then "\r"
    else if (c =? 9)%N then "\t"
    else if (c <? 32)%N || Ascii.eqb b "<" || Ascii.eqb b ">" || Ascii.eqb b "&" then u00 c
    else String b ""
  else if (c =? 0x2028)%N then "\u2028"
  else if (c =? 0x2029)%N then "\u2029"
  else encode_rune c.

Fixpoint escape_fuel (fuel : nat) (s : string) : string :=
  match fuel, s with
  | _, EmptyString => ""
  | O, _ => ""
  | S fuel, String _ tl =>
      match decode_rune s with
      | Some (c, rest) => escape_rune c +:+ escape_fuel fuel rest
      | None => "\ufffd" +:+ escape_fuel fuel tl
      end
  end.

Definition escape (s : string) : string := escape_fuel (String.length s) s.
Definition marshal_string (s : string) : string := String "034" (escape s +:+ dquote).

Definition join_comma (xs : list string) : string :=
  match xs with
  | [] => ""
  | x :: xs => x +:+ foldr (λ y acc, String "," (y +:+ acc)) "" xs
  end.

Fixpoint marshal (v : json) : string :=
  match v with
  | JNull => "null"
  | JBool true => "true"
  | JBool false => "false"
  | JNum l => l
  | JStr s => marshal_string s
  | JArr vs => String "[" (join_comma (map marshal vs) +:+ "]")
  | JObj ms =>
      String "{" (join_comma (map (λ m, marshal_string m.1 +:+ String ":" (marshal m.2)) ms)
                  +:+ "}")
  end.

(** ** The scanner of [json.Decoder] *)

Definition json_error : error := StdError "encoding/json".

Fixpoint skip_ws (s : string) : string :=
  match s with
  | String c tl =>
      if Ascii.eqb c " " || Ascii.eqb c "009" || Ascii.eqb c "010" || Ascii.eqb c "013"
      then skip_ws tl else s
  | EmptyString => ""
  end.

Definition is_digit (c : ascii) : bool := in_range 48 57 c.

Fixpoint span_digits (s : string) : string * string :=
  match s with
  | String c tl =>
      if is_digit c then let '(ds, rest) := span_digits tl in (String c ds, rest)
      else ("", s)
  | EmptyString => ("", "")
  end.

(** The [int frac exp] grammar of RFC 8259 numbers, longest match. *)
Definition scan_int (s : string) : option (string * string) :=
  match s with
  | String c tl =>
      if Ascii.eqb c "0" then Some ("0"%string, tl)
      else if is_digit c then Some (span_digits s) else None
  | EmptyString => None
  end.

Definition scan_frac (s : string) : option (string * string) :=
  match s with
  | String c tl =>
      if Ascii.eqb c "." then
        let '(ds, rest) := span_digits tl in
        if is_empty ds then None else Some (String "." ds, rest)
      else Some ("", s)
  | EmptyString => Some ("", s)
  end.

Definition scan_sign (s : string) : string * string :=
  match s with
  | String c tl =>
      if Ascii.eqb c "+" || Ascii.eqb c "-" then (String c "", tl) else ("", s)
  | EmptyString => ("", s)
  end.

Definition scan_exp (s : string) : option (string * string) :=
  match s with
  | String e tl =>
      if Ascii.eqb e "e" || Ascii.eqb e "E" then
        let '(sign, tl') := scan_sign tl in
        let '(ds, rest) := span_digits tl' in
        if is_empty ds then None else Some (String e (sign +:+ ds), rest)
      else Some ("", s)
  | EmptyString => Some ("", s)
  end.

Definition scan_minus (s : string) : string * string :=
  match s with
  | String c tl => if Ascii.eqb c "-" then ("-", tl) else ("", s)
  | EmptyString => ("", s)
  end.

Definition scan_number (s : string) : option (string * string) :=
  let '(sign, s1) := scan_minus s in
  '(i, s2) ← scan_int s1; '(f, s3) ← scan_frac s2; '(e, s4) ← scan_exp s3;
  Some (sign +:+ i +:+ f +:+ e, s4).

Definition hex_value (c : ascii) : option N :=
  let n := N_of_byte c in
  if in_range 48 57 c then Some (n - 48)%N
  else if in_range 97 102 c then Some (n - 87)%N
  else if in_range 65 70 c then Some (n - 55)%N
  else None.

(** [getu4]: the four hexadecimal digits after [\u]. *)
Definition getu4 (s : string) : option (N * string) :=
  match s with
  | String a (String b (String c (String d rest))) =>
      x ← hex_value a; y ← hex_value b; z ← hex_value c; w ← hex_value d;
      Some (((x * 16 + y) * 16 + z) * 16 + w, rest)%N
  | _ => None
  end.

(** A [\u] escape, joining a surrogate pair; a lone surrogate is U+FFFD. *)
Definition scan_u (s : string) : option (string * string) :=
  '(r, rest) ← getu4 s;
  if (0xD800 <=? r)%N && (r <? 0xE000)%N then
    match strip_prefix "\u" rest ≫= getu4 with
    | Some (r', rest') =>
        if (r <? 0xDC00)%N && (0xDC00 <=? r')%N && (r' <? 0xE000)%N
        then Some (encode_rune (0x10000 + (r - 0xD800) * 1024 + (r' - 0xDC00)), rest')%N
        else Some (encode_rune 0xFFFD, rest)
    | None => Some (encode_rune 0xFFFD, rest)
    end
  else Some (encode_rune r, rest).

(** One unit of a string literal's body: the decoded bytes and the rest. *)
Definition scan_escape (s : string) : option (string * string) :=
  match s with
  | String e rest =>
      if Ascii.eqb e "034" || Ascii.eqb e "\" || Ascii.eqb e "/" then Some (String e "", rest)
      else if Ascii.eqb e "b" then Some (String "008" "", rest)
      else if Ascii.eqb e "f" then Some (String "012" "", rest)
      else if Ascii.eqb e "n" then Some (String "010" "", rest)
      else if Ascii.eqb e "r" then Some (String "013" "", rest)
      else if Ascii.eqb e "t" then Some (String "009" "", rest)
      else if Ascii.eqb e "u" then scan_u rest
      else None
  | EmptyString => None
  end.

Definition scan_char (s : string) : option (string * string) :=
  match s with
  | String c rest =>
      if Ascii.eqb c "\" then scan_escape rest
      else if (N_of_byte c <? 32)%N then None
      else match decode_rune s with
           | Some (r, rest') => Some (encode_rune r, rest')
           | None => Some (encode_rune 0xFFFD, rest)
           end
  | EmptyString => None
  end.

(** The body of a string literal up to and including the closing quote. *)
Fixpoint scan_string (fuel : nat) (s : string) : option (string * string) :=
  match fuel with
  | O => None
  | S fuel =>
      match s with
      | String c rest =>
          if Ascii.eqb c "034" then Some (""%string, rest)
          else '(u, s') ← scan_char s; '(us, t) ← scan_string fuel s'; Some (u +:+ us, t)
      | EmptyString => None
      end
  end.

Definition scan_literal (s : string) : option (json * string) :=
  match strip_prefix "null" s with
  | Some t => Some (JNull, t)
  | None => match strip_prefix "true" s with
    | Some t => Some (JBool true, t)
    | None => match strip_prefix "false" s with
      | Some t => Some (JBool false, t)
      | None => '(l, t) ← scan_number s; Some (JNum l, t)
      end end end.

(** [parse_value]: one value from the front of the input. With
    [chk = Some field] a repeated object key is an error as soon as it is read. *)
Definition dup_key_error (field : string) : error :=
  invalid field "contains a duplicate object key".

Definition check_key (chk : option string) (k : string) (seen : list string) : result () :=
  match chk with
  | Some field => fail_if (bool_decide (k ∈ seen)) (dup_key_error field)
  | None => Ok ()
  end.

Fixpoint parse_value (chk : option string) (fuel : nat) (s : string) {struct fuel}
    : result (json * string) :=
  match fuel, skip_ws s with
  | O, _ | _, EmptyString => Err json_error
  | S fuel, String c tl as s' =>
      if Ascii.eqb c "034" then
        '(x, t) ← of_option (scan_string (S (String.length tl)) tl) json_error;
        Ok (JStr x, t)
      else if Ascii.eqb c "[" then
        match strip_prefix "]" (skip_ws tl) with
        | Some t => Ok (JArr [], t)
        | None => '(vs, t) ← parse_elements chk fuel tl; Ok (JArr vs, t)
        end
      else if Ascii.eqb c "{" then
        match strip_prefix "}" (skip_ws tl) with
        | Some t => Ok (JObj [], t)
        | None => '(ms, t) ← parse_members chk fuel [] tl; Ok (JObj ms, t)
        end
      else of_option (scan_literal s') json_error
  end
with parse_elements (chk : option string) (fuel : nat) (s : string) {struct fuel}
    : result (list json * string) :=
  match fuel with
  | O => Err json_error
  | S fuel =>
      '(v, t) ← parse_value chk fuel s;
      match skip_ws t with
      | EmptyString => Err json_error
      | String c t' =>
          if Ascii.eqb c "," then
            '(vs, u) ← parse_elements chk fuel t'; Ok (v :: vs, u)
          else if Ascii.eqb c "]" then Ok ([v], t')
          else Err json_error
      end
  end
with parse_members (chk : option string) (fuel : nat) (seen : list string) (s : string)
    {struct fuel} : result (list (string * json) * string) :=
  match fuel with
  | O => Err json_error
  | S fuel =>
      tl ← of_option (strip_prefix dquote (skip_ws s)) json_error;
      '(k, t) ← of_option (scan_string (S (String.length tl)) tl) json_error;
      _ ← check_key chk k seen;
      t' ← of_option (strip_prefix ":" (skip_ws t)) json_error;
      '(v, u) ← parse_value chk fuel t';
      match skip_ws u with
      | EmptyString => Err json_error
      | String c u' =>
          if Ascii.eqb c "," then
            '(ms, w) ← parse_members chk fuel (k :: seen) u'; Ok ((k, v) :: ms, w)
          else if Ascii.eqb c "}" then Ok ([(k, v)], u')
          else Err json_error
      end
  end.

(** [Decoder.Decode] of the first value of the input, and [json.Unmarshal]. *)
Definition parse_first (chk : option string) (s : string) : result (json * string) :=
  parse_value chk (S (2 * String.length s)) s.

Definition parse_all (s : string) : result json :=
  '(v, rest) ← parse_first None s;
  _ ← fail_if (negb (is_empty (skip_ws rest))) json_error; Ok v.

(** ** Scanning what was marshalled *)

(** Decimal numerals: printing then reading, and the shape of a numeral. *)
Lemma N_of_dec_of_N n : N_of_dec (dec_of_N n) = Some n.
Proof.
  unfold N_of_dec, dec_of_N. assert (Hn : N.to_uint n ≠ Decimal.Nil).
  { pose proof (Unsigned.of_to n) as Hn. intros E. rewrite E in Hn. simpl in Hn.
    by rewrite <- Hn in E. }
  rewrite NilZero.usu by done. cbn. f_equal. apply Unsigned.of_to.
Qed.

Lemma dec_of_N_inj n m : dec_of_N n = dec_of_N m → n = m.
Proof. intros H. apply (inj Some). by rewrite <- !N_of_dec_of_N, H. Qed.

Fixpoint all_digits (s : string) : bool :=
  match s with EmptyString => true | String c s => is_digit c && all_digits s end.

(** Some digits, the first of them zero only in the numeral [0]. *)
Definition is_numeral (s : string) : bool :=
  match s with
  | String c tl => all_digits s && (negb (Ascii.eqb c "0") || is_empty tl)
  | EmptyString => false
  end.

Lemma dec_of_N_numeral n : is_numeral (dec_of_N n) = true.
Proof.
  assert (Hd : ∀ d, all_digits (NilEmpty.string_of_uint d) = true)
    by (induction d; simpl; auto).
  assert (Hu : Decimal.unorm (N.to_uint n) = N.to_uint n).
  { rewrite <- (Unsigned.to_of (N.to_uint n)). by rewrite Unsigned.of_to. }
  unfold dec_of_N. destruct (N.to_uint n) as [|u|u|u|u|u|u|u|u|u|u] eqn:E;
    simpl; rewrite ?Hd; try done.
  revert Hu. unfold Decimal.unorm. simpl. destruct (Decimal.nzhead u) eqn:E2; intros Hu;
    try discriminate; injection Hu as <-; try done.
  by apply nzhead_nonzero in E2.
Qed.

(** The characters that may follow a value inside an enclosing value. *)
Definition value_end (t : string) : bool :=
  match t with
  | EmptyString => true
  | String c _ => Ascii.eqb c "," || Ascii.eqb c "]" || Ascii.eqb c "}"
  end.

Lemma value_end_inv t :
  value_end t = true →
  t = "" ∨ ∃ u, t = String "," u ∨ t = String "]" u ∨ t = String "}" u.
Proof.
  destruct t as [|c u]; [by left|]. simpl.
  rewrite !orb_true_iff, !Ascii.eqb_eq. intros [[->| ->]| ->]; right; exists u; auto.
Qed.

Lemma span_digits_app s t :
  all_digits s = true → value_end t = true → span_digits (s +:+ t) = (s, t).
Proof.
  intros Hs Ht. induction s as [|c s IH]; simpl in *.
  - apply value_end_inv in Ht as [->|(u & [->|[->| ->]])]; done.
  - apply andb_prop in Hs as [Hc Hs]. rewrite Hc. by rewrite IH.
Qed.

Lemma scan_number_numeral s t :
  is_numeral s = true → value_end t = true → scan_number (s +:+ t) = Some (s, t).
Proof.
  intros Hs Ht. destruct s as [|c s]; [done|]. simpl in Hs.
  apply andb_prop in Hs as [[Hc Hs]%andb_prop Hz].
  unfold scan_number, scan_minus. cbn [String.append].
  destruct (Ascii.eqb_spec c "-") as [->|Hm]; [done|].
  assert (Hf : scan_frac t = Some ("", t) ∧ scan_exp t = Some ("", t)).
  { by apply value_end_inv in Ht as [->|(u & [->|[->| ->]])]. }
  destruct Hf as [Hf He]. unfold scan_int.
  destruct (Ascii.eqb_spec c "0") as [->|Hc0]; simpl in Hz.
  - apply is_empty_true in Hz as ->. simpl. rewrite Hf. simpl. by rewrite He.
  - rewrite Hc. change (String c (s +:+ t)) with (String c s +:+ t).
    rewrite span_digits_app; [|simpl; by rewrite Hc|done].
    cbn. rewrite Hf. cbn. rewrite He. cbn. by rewrite !string_app_nil_r.
Qed.

(** String literals. *)
Lemma escape_fuel_enough f s :
  (String.length s <= f)%nat → escape_fuel f s = escape s.
Proof.
  unfold escape. remember (String.length s) as n eqn:Hn. revert f s Hn.
  induction (lt_wf n) as [n _ IH]. intros f s Hn Hle.
  destruct s as [|a s]; [by destruct f, n|].
  destruct f as [|f]; [simpl in *; lia|]. destruct n as [|n]; [simpl in *; lia|].
  cbn [escape_fuel]. injection Hn as Hn.
  destruct (decode_rune (String a s)) as [[c t]|] eqn:Hd; f_equal.
  - apply decode_rune_shorter in Hd. simpl in Hd.
    rewrite (IH (String.length t)) by lia. symmetry. apply (IH (String.length t)); lia.
  - apply IH; lia.
Qed.

Lemma escape_encode c t :
  scalar c = true → escape (encode_rune c +:+ t) = escape_rune c +:+ escape t.
Proof.
  intros Hc. pose proof (decode_encode_rune c t Hc) as Hd.
  pose proof (decode_rune_shorter _ _ _ Hd) as Hl.
  unfold escape at 1. destruct (encode_rune c +:+ t) as [|a s]; [simpl in Hl; lia|].
  cbn [String.length escape_fuel]. rewrite Hd. f_equal.
  apply escape_fuel_enough. simpl in Hl. lia.
Qed.

(** The first byte of a multi-byte encoding is no ASCII character. *)
Lemma encode_rune_high c :
  (0x80 <= c)%N → scalar c = true →
  ∃ b s, encode_rune c = String b s ∧ (0x80 <= N_of_byte b)%N.
Proof.
  intros H Hs. destruct (encode_rune c) as [|b s] eqn:E.
  { revert E. unfold encode_rune. utf8_case; done. }
  exists b, s. split; [done|].
  pose proof (decode_encode_rune c "" Hs) as Hd. rewrite E in Hd. cbn in Hd.
  destruct (N.ltb_spec (N_of_byte b) 0x80) as [Hb|]; [|done].
  simplify_eq. lia.
Qed.

Lemma byte_neq b n : (N_of_byte b ≠ n) → (n < 256)%N → Ascii.eqb b (byte_of_N n) = false.
Proof.
  intros H Hn. apply Ascii.eqb_neq. intros ->. by rewrite N_of_byte_of_N in H.
Qed.

Definition scan_char_ok (c : N) : Prop := ∀ t,
  scan_char (escape_rune c +:+ t) = Some (encode_rune c, t) ∧
  ∃ a s, escape_rune c = String a s ∧ Ascii.eqb a "034" = false.

Lemma scan_char_ascii c : (c < 0x80)%N → scan_char_ok c.
Proof.
  intros Hc. destruct c as [|p]; [intros t; split; [reflexivity|eauto]|].
  do 7 (try (destruct p as [p|p|];
    [| |intros t; split; [reflexivity|eexists _, _; split; reflexivity]])); exfalso; lia.
Qed.

Lemma scan_char_escape c : scalar c = true → scan_char_ok c.
Proof.
  intros Hs. destruct (N.ltb_spec c 0x80) as [Hc|Hc]; [by apply scan_char_ascii|].
  intros t. unfold escape_rune. rewrite (proj2 (N.ltb_ge _ _) Hc).
  destruct (N.eqb_spec c 0x2028) as [->|H1]; [split; [reflexivity|eauto]|].
  destruct (N.eqb_spec c 0x2029) as [->|H2]; [split; [reflexivity|eauto]|].
  destruct (encode_rune_high c Hc Hs) as (b & s & E & Hb).
  pose proof (decode_encode_rune c t Hs) as Hd. rewrite E in Hd |- *.
  split.
  - cbn [scan_char String.append] in *.
    replace (Ascii.eqb b "\") with false by (symmetry; apply (byte_neq b 92); lia). rewrite (proj2 (N.ltb_ge _ _)) by lia.
    rewrite Hd. by rewrite E.
  - eexists _, _. split; [done|]. apply (byte_neq b 34); lia.
Qed.

Lemma scan_string_escape s :
  valid_utf8 s = true → ∀ f t, (String.length (escape s) < f)%nat →
  scan_string f (escape s +:+ String "034" t) = Some (s, t).
Proof.
  revert s. apply (valid_utf8_ind (λ s, ∀ f t, (String.length (escape s) < f)%nat →
    scan_string f (escape s +:+ String "034" t) = Some (s, t))).
  { intros [|f] t H; [simpl in H; lia|done]. }
  intros c s Hc _ IH f t Hf. rewrite escape_encode in Hf |- * by done.
  rewrite string_length_app in Hf. rewrite string_app_assoc.
  destruct f as [|f]; [lia|].
  destruct (scan_char_escape c Hc (escape s +:+ String "034" t)) as [Hsc (a & r & E & Ha)].
  rewrite E in Hf, Hsc |- *. cbn [scan_string String.append] in *.
  rewrite Ha, Hsc. cbn. rewrite IH by (simpl in Hf; lia). done.
Qed.

Lemma scan_string_marshal s t :
  valid_utf8 s = true →
  scan_string (S (String.length (escape s +:+ String "034" t))) (escape s +:+ String "034" t)
    = Some (s, t).
Proof. intros Hs. apply scan_string_escape; [done|]. rewrite string_length_app. lia. Qed.

(** Induction over values, with the hypothesis on every element and member. *)
Section json_ind.
Context (P : json → Prop).
Hypotheses (Hnull : P JNull) (Hbool : ∀ b, P (JBool b)) (Hnum : ∀ l, P (JNum l))
  (Hstr : ∀ s, P (JStr s)) (Harr : ∀ vs, Forall P vs → P (JArr vs))
  (Hobj : ∀ ms, Forall (λ m, P m.2) ms → P (JObj ms)).

Fixpoint json_induction (v : json) : P v :=
  match v with
  | JNull => Hnull
  | JBool b => Hbool b
  | JNum l => Hnum l
  | JStr s => Hstr s
  | JArr vs => Harr vs
      ((fix go vs : Forall P vs := match vs with
        | [] => Forall_nil_2 P
        | v :: vs => Forall_cons_2 P v vs (json_induction v) (go vs) end) vs)
  | JObj ms => Hobj ms
      ((fix go ms : Forall (λ m, P m.2) ms := match ms with
        | [] => Forall_nil_2 _
        | m :: ms => Forall_cons_2 (λ m, P m.2) m ms (json_induction m.2) (go ms) end) ms)
  end.
End json_ind.

(** Values whose marshalled text denotes them: strings and keys are UTF-8,
    numbers are decimal numerals, keys are distinct. *)
#[warnings="-register-all"]
Inductive json_wf : json → Prop :=
| wf_null : json_wf JNull
| wf_bool b : json_wf (JBool b)
| wf_num l : is_numeral l = true → json_wf (JNum l)
| wf_str s : valid_utf8 s = true → json_wf (JStr s)
| wf_arr vs : Forall json_wf vs → json_wf (JArr vs)
| wf_obj ms :
    NoDup ms.*1 → Forall (λ m, valid_utf8 m.1 = true ∧ json_wf m.2) ms → json_wf (JObj ms).

Fixpoint json_size (v : json) : nat :=
  match v with
  | JArr vs => S (sum_list (map (λ v, S (json_size v)) vs))
  | JObj ms => S (sum_list (map (λ m, S (json_size m.2)) ms))
  | _ => 1
  end.

Definition comma_tail (xs : list string) : string :=
  foldr (λ y acc, String "," (y +:+ acc)) "" xs.

Lemma join_comma_length xs :
  (sum_list (map (λ x, S (String.length x)) xs) <= S (String.length (join_comma xs)))%nat.
Proof.
  destruct xs as [|x xs]; simpl; [lia|]. rewrite string_length_app.
  enough (sum_list (map (λ x, S (String.length x)) xs) <=
    String.length (foldr (λ y acc, String "," (y +:+ acc)) "" xs))%nat by lia.
  induction xs as [|y xs IH]; simpl; [lia|]. rewrite string_length_app. lia.
Qed.

Lemma sum_list_double {A} (f g : A → nat) xs :
  Forall (λ x, f x <= 2 * g x)%nat xs → (sum_list (map f xs) <= 2 * sum_list (map g xs))%nat.
Proof. induction 1; simpl in *; lia. Qed.

Lemma json_size_marshal v : (json_size v <= S (2 * String.length (marshal v)))%nat.
Proof.
  induction v as [| | | |vs IH|ms IH] using json_induction; cbn [json_size marshal]; try lia.
  - cbn [String.length]. rewrite string_length_app. cbn [String.length].
    pose proof (join_comma_length (map marshal vs)) as Hj. rewrite map_map in Hj.
    apply (Forall_impl _ (λ v, (S (json_size v) <= 2 * S (String.length (marshal v)))%nat)),
      sum_list_double in IH; [lia|]. intros v; lia.
  - cbn [String.length]. rewrite string_length_app. cbn [String.length].
    pose proof (join_comma_length (map (λ m, marshal_string m.1 +:+ String ":" (marshal m.2)) ms)) as Hj.
    rewrite map_map in Hj.
    apply (Forall_impl _ (λ m, (S (json_size m.2) <=
      2 * S (String.length (marshal_string m.1 +:+ String ":" (marshal m.2))))%nat)),
      sum_list_double in IH; [lia|]. intros m Hm. rewrite string_length_app. simpl. lia.
Qed.

(** The first character of a marshalled value is no white space. *)
Lemma skip_ws_id c s :
  Ascii.eqb c " " || Ascii.eqb c "009" || Ascii.eqb c "010" || Ascii.eqb c "013" = false →
  skip_ws (String c s) = String c s.
Proof. intros H. simpl. by rewrite H. Qed.

Lemma is_digit_inv c : is_digit c = true →
  c = "0"%char ∨ c = "1"%char ∨ c = "2"%char ∨ c = "3"%char ∨ c = "4"%char ∨
  c = "5"%char ∨ c = "6"%char ∨ c = "7"%char ∨ c = "8"%char ∨ c = "9"%char.
Proof.
  destruct c as [[|] [|] [|] [|] [|] [|] [|] [|]]; cbv [is_digit in_range]; simpl;
    try discriminate; intros _; auto 12.
Qed.

Definition parses_back (chk : option string) (v : json) : Prop := ∀ fuel t,
  (json_size v <= fuel)%nat → value_end t = true →
  parse_value chk fuel (marshal v +:+ t) = Ok (v, t).

Lemma parses_back_num chk l : is_numeral l = true → parses_back chk (JNum l).
Proof.
  intros Hl [|fuel] t Hf Ht; [simpl in Hf; lia|].
  pose proof (scan_number_numeral l t Hl Ht) as Hn.
  destruct l as [|c l]; [done|]. simpl in Hl.
  apply andb_prop in Hl as [[Hc _]%andb_prop _].
  cbn [marshal parse_value String.append] in *.
  apply is_digit_inv in Hc.
  destruct_or! Hc; subst c; rewrite skip_ws_id by done; cbn [Ascii.eqb Bool.eqb];
    unfold scan_literal; cbn [strip_prefix Ascii.eqb Bool.eqb]; by rewrite Hn.
Qed.

Lemma parses_back_str chk s : valid_utf8 s = true → parses_back chk (JStr s).
Proof.
  intros Hs [|fuel] t Hf Ht; [simpl in Hf; lia|].
  cbn [marshal marshal_string parse_value]. unfold marshal_string, dquote.
  cbn [String.append]. rewrite skip_ws_id by done. cbn [Ascii.eqb Bool.eqb].
  rewrite string_app_assoc. cbn [String.append]. by rewrite scan_string_marshal.
Qed.

Lemma parse_elements_marshal chk v vs fuel t :
  Forall (parses_back chk) (v :: vs) →
  (sum_list (map (λ v, S (json_size v)) (v :: vs)) <= fuel)%nat →
  parse_elements chk fuel (marshal v +:+ comma_tail (map marshal vs) +:+ String "]" t)
    = Ok (v :: vs, t).
Proof.
  revert v fuel. induction vs as [|w vs IH]; intros v fuel Hall Hf;
    (destruct fuel as [|fuel]; [simpl in Hf; lia|]); cbn [parse_elements];
    apply Forall_cons in Hall as [Hv Hvs].
  - rewrite Hv by (simpl in *; try done; lia). done.
  - rewrite Hv by (simpl in *; try done; lia). cbn -[parse_elements].
    rewrite string_app_assoc. setoid_rewrite IH; [done|done|simpl in *; lia].
Qed.

Lemma check_key_fresh chk k seen : k ∉ seen → check_key chk k seen = Ok ().
Proof. intros H. destruct chk; simpl; [by rewrite bool_decide_eq_false_2|done]. Qed.

Lemma parse_members_marshal chk k v ms fuel t seen :
  Forall (λ m, valid_utf8 m.1 = true ∧ parses_back chk m.2) ((k, v) :: ms) →
  NoDup (k :: ms.*1) → (∀ x, x ∈ k :: ms.*1 → x ∉ seen) →
  (sum_list (map (λ m, S (json_size m.2)) ((k, v) :: ms)) <= fuel)%nat →
  parse_members chk fuel seen
    ((marshal_string k +:+ String ":" (marshal v)) +:+
     comma_tail (map (λ m, marshal_string m.1 +:+ String ":" (marshal m.2)) ms) +:+
     String "}" t)
    = Ok ((k, v) :: ms, t).
Proof.
  revert k v fuel seen. induction ms as [|[k' v'] ms IH]; intros k v fuel seen Hall Hnd Hseen Hf;
    (destruct fuel as [|fuel]; [simpl in Hf; lia|]); cbn [parse_members];
    apply Forall_cons in Hall as [[Hk Hv] Hms]; simpl in Hk, Hv;
    unfold marshal_string at 1, dquote; cbn [String.append];
    rewrite skip_ws_id by done; cbn [strip_prefix Ascii.eqb Bool.eqb of_option mbind result_bind];
    rewrite !string_app_assoc; cbn [String.append]; rewrite scan_string_marshal by done;
    cbn [of_option mbind result_bind];
    rewrite check_key_fresh by (apply (Hseen k); left);
    cbn [mbind result_bind]; rewrite ?string_app_assoc; cbn [String.append];
    rewrite skip_ws_id by done; cbn [strip_prefix Ascii.eqb Bool.eqb of_option mbind result_bind].
  - rewrite Hv by (simpl in *; try done; lia). done.
  - rewrite Hv by (simpl in *; try done; lia). cbn -[parse_members marshal_string].
    rewrite !string_app_assoc. simpl in Hnd. apply NoDup_cons in Hnd as [Hk' Hnd].
    pose proof (IH k' v' fuel (k :: seen) Hms Hnd) as IH'.
    rewrite !string_app_assoc in IH'. cbn [String.append] in IH'. cbn [String.append].
    setoid_rewrite IH'; [done| |simpl in *; lia].
    intros x Hx. apply not_elem_of_cons. split; [by intros ->|]. apply Hseen.
    by apply list_elem_of_further.
Qed.

Lemma marshal_parses_back chk v : json_wf v → parses_back chk v.
Proof.
  induction v as [|b|l|s|vs IH|ms IH] using json_induction; inversion 1; simplify_eq.
  - intros [|fuel] t Hf Ht; [simpl in Hf; lia|done].
  - intros [|fuel] t Hf Ht; [simpl in Hf; lia|by destruct b].
  - by apply parses_back_num.
  - by apply parses_back_str.
  - assert (Hall : Forall (parses_back chk) vs).
    { rewrite Forall_forall in *. auto. }
    intros [|fuel] t Hf Ht; [simpl in Hf; lia|]. destruct vs as [|v vs]; [done|].
    cbn [marshal map join_comma]. fold (comma_tail (map marshal vs)).
    pose proof (parse_elements_marshal chk v vs fuel t Hall) as Hp.
    cbn [parse_value String.append]. rewrite skip_ws_id by done. cbn [Ascii.eqb Bool.eqb].
    rewrite !string_app_assoc. cbn [String.append] in *.
    rewrite Hp by (simpl in *; lia). clear Hp.
    assert (Hb : ∀ u, strip_prefix "]" (skip_ws (marshal v +:+ u)) = None); [|by rewrite Hb].
    intros u. assert (Hv : json_wf v) by (match goal with H : Forall json_wf _ |- _ => by inversion H end).
    destruct Hv as [|[]|l Hl| | |]; try done.
    destruct l as [|c l]; [done|]. simpl in Hl. apply andb_prop in Hl as [[Hc _]%andb_prop _].
    apply is_digit_inv in Hc. by destruct_or! Hc; subst c.
  - assert (Hall : Forall (λ m, valid_utf8 m.1 = true ∧ parses_back chk m.2) ms).
    { rewrite Forall_forall in *. naive_solver. }
    intros [|fuel] t Hf Ht; [simpl in Hf; lia|]. destruct ms as [|[k v] ms]; [done|].
    cbn [marshal map join_comma fst snd].
    pose proof (parse_members_marshal chk k v ms fuel t [] Hall) as Hp.
    cbn [parse_value String.append]. rewrite skip_ws_id by done. cbn [Ascii.eqb Bool.eqb].
    rewrite !string_app_assoc. cbn [String.append] in *.
    rewrite !string_app_assoc in Hp. cbn [String.append] in Hp. unfold comma_tail in Hp.
    rewrite Hp; [done|done|set_solver|simpl in *; lia].
Qed.

(** Scanning the marshalled text of a well-formed value gives the value and
    leaves nothing behind, with or without the duplicate-key inspection. *)
Lemma parse_first_marshal chk v : json_wf v → parse_first chk (marshal v) = Ok (v, "").
Proof.
  intros Hv. unfold parse_first. rewrite <- (string_app_nil_r (marshal v)) at 2.
  apply marshal_parses_back; [done|apply json_size_marshal|done].
Qed.

Lemma parse_all_marshal v : json_wf v → parse_all (marshal v) = Ok v.
Proof. intros Hv. unfold parse_all. by rewrite parse_first_marshal. Qed.

(** Marshalling is injective on well-formed values. *)
Lemma marshal_inj v w : json_wf v → json_wf w → marshal v = marshal w → v = w.
Proof.
  intros Hv%parse_all_marshal Hw%parse_all_marshal E. rewrite E in Hv. congruence.
Qed.
