(* ===== verification/Wire.v ===== *)
(** Wire structs: [encoding/json]'s treatment of a Go struct with [json] tags
    ([omitempty], pointers, unknown fields) as codec combinators, and the
    canonical-object discipline of internal/agency/canonical_parse.go and
    intent_parse.go built on it.

    Field names are matched exactly. Go also accepts a name that differs in
    case; such a text is never the canonical encoding of what it decodes to, so
    every parser below rejects it either way. *)

From Stdlib Require Import Lia.
From S2P Require Import Prelude Utf8 Json.

(** ** Codecs *)

(** [enc]/[dec] are [json.Marshal]/[Decode] for the type, [zero] its zero value,
    [empty] the test behind [omitempty], [enc_ok] the values JSON text can
    carry (valid UTF-8, numbers in range). *)
Class Codec (A : Type) := {
  enc : A → json;
  dec_value : json → result A;
  zero : A;
  empty : A → bool;
  enc_ok : A → Prop;
}.

(** JSON [null] leaves the destination at its zero value. *)
Definition dec {A} `{Codec A} (j : json) : result A :=
  match j with JNull => Ok zero | _ => dec_value j end.

Class CodecLaws (A : Type) `{Codec A} := {
  dec_value_enc a : enc_ok a → dec_value (enc a) = Ok a;
  enc_wf a : enc_ok a → json_wf (enc a);
  enc_nonnull a : enc a ≠ JNull;
  empty_zero a : empty a = true → a = zero;
}.

Lemma dec_enc {A} `{CodecLaws A} (a : A) : enc_ok a → dec (enc a) = Ok a.
Proof.
  intros Ha. unfold dec. pose proof (enc_nonnull a).
  destruct (enc a) eqn:E; [done|rewrite <- E; by apply dec_value_enc..].
Qed.

(** ** Base types *)

#[export] Instance string_codec : Codec string := {
  enc := JStr;
  dec_value j := match j with JStr s => Ok s | _ => Err json_error end;
  zero := ""; empty := is_empty; enc_ok s := valid_utf8 s = true;
}.
#[export] Instance string_codec_laws : CodecLaws string.
Proof.
  split; simpl; [done| |done|].
  - by constructor.
  - intros a. by rewrite is_empty_true.
Qed.

#[export] Instance bool_codec : Codec bool := {
  enc := JBool;
  dec_value j := match j with JBool b => Ok b | _ => Err json_error end;
  zero := false; empty := negb; enc_ok _ := True;
}.
#[export] Instance bool_codec_laws : CodecLaws bool.
Proof. split; simpl; [done| |done|]; [constructor|by intros []]. Qed.

(** Unsigned and signed machine integers of a given width; the widths are
    distinguished by wrapper-free instances at the fields that use them. *)
Definition enc_Z (z : Z) : json :=
  JNum (if (z <? 0)%Z then "-" +:+ dec_of_N (Z.to_N (- z)) else dec_of_N (Z.to_N z)).

Definition dec_Z (lo hi : Z) (j : json) : result Z :=
  match j with
  | JNum l =>
      z ← of_option
        (match strip_prefix "-" l with
         | Some d => Z.opp ∘ Z.of_N <$> N_of_dec d
         | None => Z.of_N <$> N_of_dec l
         end) json_error;
      if (lo <=? z)%Z && (z <=? hi)%Z then Ok z else Err json_error
  | _ => Err json_error
  end.

Lemma strip_minus_numeral n : strip_prefix "-" (dec_of_N n) = None.
Proof.
  pose proof (dec_of_N_numeral n) as H. destruct (dec_of_N n) as [|c s]; [done|].
  simpl in H. apply andb_prop in H as [[Hc _]%andb_prop _].
  apply is_digit_inv in Hc. by destruct_or! Hc; subst.
Qed.

Lemma dec_enc_Z lo hi z : (0 <= z)%Z → (lo <= z <= hi)%Z → dec_Z lo hi (enc_Z z) = Ok z.
Proof.
  intros Hz Hr. unfold enc_Z, dec_Z. rewrite (proj2 (Z.ltb_ge _ _)) by done.
  rewrite strip_minus_numeral, N_of_dec_of_N. cbn. rewrite Z2N.id by done.
  rewrite (proj2 (Z.leb_le lo z)), (proj2 (Z.leb_le z hi)) by lia. done.
Qed.

Lemma enc_Z_wf z : (0 <= z)%Z → json_wf (enc_Z z).
Proof.
  intros Hz. unfold enc_Z. rewrite (proj2 (Z.ltb_ge _ _)) by done.
  constructor. apply dec_of_N_numeral.
Qed.

Definition max_uint64 : Z := 2^64 - 1.
Definition max_uint16 : Z := 2^16 - 1.
Definition max_uint8 : Z := 2^8 - 1.
Definition max_int64 : Z := 2^63 - 1.
Definition min_int64 : Z := - 2^63.

(** A codec for each integer field type of the source. *)
Definition int_codec_of (lo hi : Z) : Codec Z := {|
  enc := enc_Z; dec_value := dec_Z lo hi; zero := 0%Z; empty z := (z =? 0)%Z;
  enc_ok z := (0 <= z)%Z ∧ (lo <= z <= hi)%Z |}.
Definition uint64_codec := int_codec_of 0 max_uint64.
Definition uint16_codec := int_codec_of 0 max_uint16.
Definition uint8_codec := int_codec_of 0 max_uint8.
Definition int_codec := int_codec_of min_int64 max_int64.

Lemma int_codec_laws lo hi : @CodecLaws Z (int_codec_of lo hi).
Proof.
  split; simpl.
  - intros a [??]. by apply dec_enc_Z.
  - intros a [??]. by apply enc_Z_wf.
  - done.
  - intros a. apply Z.eqb_eq.
Qed.
#[export] Instance uint64_codec_laws : @CodecLaws Z uint64_codec := int_codec_laws _ _.
#[export] Instance uint16_codec_laws : @CodecLaws Z uint16_codec := int_codec_laws _ _.
#[export] Instance uint8_codec_laws : @CodecLaws Z uint8_codec := int_codec_laws _ _.
#[export] Instance int_codec_laws' : @CodecLaws Z int_codec := int_codec_laws _ _.

#[export] Instance list_codec {A} `{Codec A} : Codec (list A) := {
  enc l := JArr (map enc l);
  dec_value j := match j with JArr l => mapR dec l | _ => Err json_error end;
  zero := []; empty l := match l with [] => true | _ => false end;
  enc_ok := Forall enc_ok;
}.
#[export] Instance list_codec_laws {A} `{CodecLaws A} : CodecLaws (list A).
Proof.
  split; simpl; [| |done|by intros []].
  - intros a Ha. apply mapR_inverse. eapply Forall_impl; [done|]. intros x. apply dec_enc.
  - intros a Ha. constructor. apply Forall_map. eapply Forall_impl; [done|]. intros x. apply enc_wf.
Qed.

(** ** Structs *)

(** A struct is written as its fields in declaration order, each with the value
    to write or [None] where [omitempty] drops it. *)
Definition fieldspec : Type := string * option json.

Definition field {A} `{Codec A} (k : string) (x : A) : fieldspec := (k, Some (enc x)).
Definition omitempty {A} `{Codec A} (k : string) (x : A) : fieldspec :=
  (k, if empty x then None else Some (enc x)).
Definition omitnil {A} `{Codec A} (k : string) (p : option A) : fieldspec := (k, enc <$> p).

Fixpoint present (fs : list fieldspec) : list (string * json) :=
  match fs with
  | [] => []
  | (k, Some j) :: fs => (k, j) :: present fs
  | (_, None) :: fs => present fs
  end.

Definition struct (fs : list fieldspec) : json := JObj (present fs).

Fixpoint assoc {V} (k : string) (ms : list (string * V)) : option V :=
  match ms with
  | [] => None
  | (k', v) :: ms => if String.eqb k k' then Some v else assoc k ms
  end.

(** [DisallowUnknownFields]. *)
Definition members_of (names : list string) (j : json) : result (list (string * json)) :=
  match j with
  | JObj ms =>
      _ ← fail_if (negb (forallb (λ m, bool_decide (m.1 ∈ names)) ms)) json_error; Ok ms
  | _ => Err json_error
  end.

Definition get {A} `{Codec A} (k : string) (ms : list (string * json)) : result A :=
  match assoc k ms with None => Ok zero | Some j => dec j end.

(** An integer field decodes into its machine range. *)
Lemma get_int_range lo hi k ms z :
  (lo <= 0 <= hi)%Z → @get Z (int_codec_of lo hi) k ms = Ok z → (lo <= z <= hi)%Z.
Proof.
  intros H0. unfold get, dec. destruct (assoc k ms) as [j|]; [|by intros [= <-]].
  destruct j; cbn [dec_value int_codec_of dec_Z zero]; try done; [by intros [= <-]|].
  intros H. apply bind_Ok in H as (z' & _ & H). destruct (_ && _) eqn:E; [|done]. injection H as <-. lia.
Qed.

(** A pointer that is [nil] or points to an encodable value. *)
Definition ok_ptr {A} `{Codec A} (p : option A) : Prop := ∀ a, p = Some a → enc_ok a.

(** A pointer field: absent or [null] is [nil]. *)
Definition get_ptr {A} `{Codec A} (k : string) (ms : list (string * json)) : result (option A) :=
  match assoc k ms with
  | None | Some JNull => Ok None
  | Some j => Some <$> dec j
  end.

Lemma present_keys fs k : k ∈ (present fs).*1 → k ∈ fs.*1.
Proof.
  induction fs as [|[k' [j|]] fs IH]; simpl; [done| |].
  - rewrite !elem_of_cons. naive_solver.
  - rewrite elem_of_cons. naive_solver.
Qed.

Lemma assoc_None {V} k (ms : list (string * V)) : k ∉ ms.*1 → assoc k ms = None.
Proof.
  induction ms as [|[k' v] ms IH]; simpl; [done|]. rewrite not_elem_of_cons. intros [Hne Hin].
  destruct (String.eqb_spec k k'); [done|auto].
Qed.

Lemma assoc_present fs k : NoDup fs.*1 → assoc k (present fs) = mjoin (assoc k fs).
Proof.
  induction fs as [|[k' o] fs IH]; simpl; [done|]. intros [Hk Hnd]%NoDup_cons.
  destruct o as [j|]; simpl; destruct (String.eqb_spec k k') as [->|]; auto.
  apply assoc_None. intros Hin%present_keys. done.
Qed.

Lemma present_NoDup fs : NoDup fs.*1 → NoDup (present fs).*1.
Proof.
  induction fs as [|[k [j|]] fs IH]; simpl; [constructor| |]; intros [Hk Hnd]%NoDup_cons; [|auto].
  apply NoDup_cons. split; [|auto]. intros Hin%present_keys. done.
Qed.

Lemma members_of_struct names fs :
  (∀ k, k ∈ fs.*1 → k ∈ names) → members_of names (struct fs) = Ok (present fs).
Proof.
  intros Hsub. unfold members_of, struct.
  replace (forallb _ _) with true; [done|]. symmetry. apply forallb_forall.
  intros [k j] Hin%list_elem_of_In. apply bool_decide_eq_true_2, Hsub, present_keys.
  simpl. apply list_elem_of_fmap. by exists (k, j).
Qed.

Section get_lemmas.
Context {A} `{CodecLaws A}.

Lemma get_field k (x : A) fs :
  NoDup fs.*1 → assoc k fs = Some (Some (enc x)) → enc_ok x → get k (present fs) = Ok x.
Proof. intros Hnd Hk Hx. unfold get. rewrite assoc_present, Hk by done. by apply dec_enc. Qed.

Lemma get_omitempty k (x : A) fs :
  NoDup fs.*1 → assoc k fs = Some (if empty x then None else Some (enc x)) → enc_ok x →
  get k (present fs) = Ok x.
Proof.
  intros Hnd Hk Hx. unfold get. rewrite assoc_present, Hk by done.
  destruct (empty x) eqn:E; simpl; [|by apply dec_enc].
  by rewrite (empty_zero x E).
Qed.

Lemma get_omitnil k (x : option A) fs :
  NoDup fs.*1 → assoc k fs = Some (enc <$> x) → ok_ptr x →
  get_ptr k (present fs) = Ok x.
Proof.
  intros Hnd Hk Hx. unfold get_ptr. rewrite assoc_present, Hk by done.
  destruct x as [a|]; simpl; [|done]. specialize (Hx a eq_refl).
  pose proof (enc_nonnull a). pose proof (dec_enc a Hx) as Hd.
  destruct (enc a); [done|by rewrite Hd..].
Qed.
End get_lemmas.

Definition field_wf (f : fieldspec) : Prop :=
  valid_utf8 f.1 = true ∧ ∀ j, f.2 = Some j → json_wf j.

Lemma struct_wf fs : NoDup fs.*1 → Forall field_wf fs → json_wf (struct fs).
Proof.
  intros Hnd Hfs. constructor; [by apply present_NoDup|].
  clear Hnd. induction Hfs as [|[k [j|]] fs [Hk Hj] Hfs IH]; simpl; [constructor| |done].
  constructor; [|done]. split; [done|by apply Hj].
Qed.

Section field_wf.
Context {A} `{CodecLaws A}.
Lemma field_wf_field k (x : A) : valid_utf8 k = true → enc_ok x → field_wf (field k x).
Proof. intros Hk Hx. split; [done|]. intros j [= <-]. by apply enc_wf. Qed.
Lemma field_wf_omitempty k (x : A) : valid_utf8 k = true → enc_ok x → field_wf (omitempty k x).
Proof.
  intros Hk Hx. split; [done|]. simpl. destruct (empty x); intros j [= <-]. by apply enc_wf.
Qed.
Lemma field_wf_omitnil k (x : option A) :
  valid_utf8 k = true → ok_ptr x → field_wf (omitnil k x).
Proof.
  intros Hk Hx. split; [done|]. simpl. destruct x as [a|]; intros j [= <-].
  apply enc_wf, Hx. done.
Qed.
End field_wf.

(** [solve_struct] discharges the codec laws of a struct whose [enc_ok] is the
    conjunction of its fields' conditions. *)
Ltac struct_nodup := apply (bool_decide_unpack _); vm_compute; exact I.
Ltac field_ok := first [assumption | simpl; tauto].

Ltac get_step :=
  first
    [ erewrite get_field; [|struct_nodup|reflexivity|field_ok]
    | erewrite get_omitempty; [|struct_nodup|reflexivity|field_ok]
    | erewrite get_omitnil; [|struct_nodup|reflexivity|field_ok] ];
  cbn [mbind result_bind].

Ltac struct_dec :=
  rewrite members_of_struct by (intros ? ?; assumption); cbn [mbind result_bind];
  repeat get_step; reflexivity.

Ltac struct_fields :=
  repeat (apply Forall_cons_2;
    [first [apply field_wf_field | apply field_wf_omitempty | apply field_wf_omitnil];
     [reflexivity|field_ok]|]);
  apply Forall_nil_2.

Ltac solve_struct :=
  split;
  [ intros [] Hok; cbn -[struct get get_ptr members_of] in Hok |- *; destruct_and? Hok; struct_dec
  | intros [] Hok; cbn -[struct] in Hok |- *; destruct_and? Hok;
    apply struct_wf; [struct_nodup|struct_fields]
  | intros []; discriminate
  | intros []; discriminate ].

(** ** Canonical objects *)

(** The bytes of [json.Marshal(w)]; marshalling these types never fails. *)
Definition canonical_bytes {A} `{Codec A} (w : A) : string := marshal (enc w).

Definition rejectDuplicateJSONKeys (field data : string) : result () :=
  wrap_error ("agency: inspect " +:+ field)
    (_ ← parse_first (Some field) data; Ok ()).

(** [requireJSONEOF] on what the decoder has not consumed. *)
Definition requireJSONEOF (field rest : string) : result () :=
  if is_empty (skip_ws rest) then Ok ()
  else match parse_first None rest with
       | Err e => Err (Wrapped ("agency: decode trailing " +:+ field) e)
       | Ok _ => Err (invalid field "must contain exactly one value")
       end.

Definition decodeCanonicalObject {A} `{Codec A} (field data : string) (maximum : Z) : result A :=
  _ ← fail_if (is_empty data) (invalid field "must not be empty");
  _ ← fail_if (maximum <? slen data)%Z (limit (field +:+ " bytes") (slen data) maximum);
  _ ← rejectDuplicateJSONKeys field data;
  '(destination, rest) ← wrap_error ("agency: decode " +:+ field)
    ('(v, rest) ← parse_first None data; w ← dec v; Ok (w, rest));
  _ ← requireJSONEOF field rest;
  _ ← fail_if (negb (bool_decide (canonical_bytes destination = data)))
        (invalid field "is not the canonical encoding");
  Ok destination.

Definition requireReconstructedCanonical (field data reconstructed : string) : result () :=
  fail_if (negb (bool_decide (data = reconstructed)))
    (invariant field "does not match the authenticated authority").

Section canonical_lemmas.
Context {A} `{CodecLaws A}.

Lemma canonical_bytes_parse chk (w : A) :
  enc_ok w → parse_first chk (canonical_bytes w) = Ok (enc w, "").
Proof. intros Hw. by apply parse_first_marshal, enc_wf. Qed.

Lemma canonical_bytes_inj (w w' : A) :
  enc_ok w → enc_ok w' → canonical_bytes w = canonical_bytes w' → w = w'.
Proof.
  intros Hw Hw' E%marshal_inj; [|by apply enc_wf..].
  apply dec_enc in Hw, Hw'. rewrite E in Hw. congruence.
Qed.

Lemma marshal_nonempty v : json_wf v → marshal v ≠ "".
Proof. destruct 1 as [|[]|[|]| | |]; by simpl. Qed.

(** Every encodable value within the size bound is accepted from its
    canonical bytes. *)
Lemma decodeCanonicalObject_canonical field maximum (w : A) :
  enc_ok w → (slen (canonical_bytes w) <= maximum)%Z →
  decodeCanonicalObject field (canonical_bytes w) maximum = Ok w.
Proof.
  intros Hw Hlen. unfold decodeCanonicalObject, rejectDuplicateJSONKeys.
  rewrite !canonical_bytes_parse by done.
  replace (is_empty (canonical_bytes w)) with false.
  2:{ symmetry. apply is_empty_false, marshal_nonempty. by apply enc_wf. }
  rewrite (proj2 (Z.ltb_ge _ _)) by done. simpl.
  rewrite dec_enc by done. simpl. by rewrite bool_decide_eq_true_2.
Qed.

(** Acceptance means the input is byte for byte the canonical encoding. *)
Lemma decodeCanonicalObject_dec field data maximum (w : A) :
  decodeCanonicalObject field data maximum = Ok w → ∃ j, dec j = Ok w.
Proof.
  unfold decodeCanonicalObject. intros Hd. do 3 apply bind_Ok in Hd as ([] & _ & Hd).
  apply bind_Ok in Hd as ([w' rest] & Hw%wrap_error_Ok & Hd). apply bind_Ok in Hw as ([v rest'] & _ & Hw).
  apply bind_Ok in Hw as (w'' & Hw & E). injection E as <- <-. apply bind_Ok in Hd as ([] & _ & Hd).
  apply bind_Ok in Hd as ([] & _ & Hd). apply (inj Ok) in Hd as <-. by exists v.
Qed.

Lemma decodeCanonicalObject_Ok field data maximum (w : A) :
  decodeCanonicalObject field data maximum = Ok w →
  data = canonical_bytes w ∧ data ≠ "" ∧ (slen data <= maximum)%Z.
Proof.
  unfold decodeCanonicalObject. intros Hd. inv_res.
  split_and!; [done|by apply is_empty_false|by apply Z.ltb_ge].
Qed.
End canonical_lemmas.

Lemma requireReconstructedCanonical_Ok field a b u :
  requireReconstructedCanonical field a b = Ok u ↔ a = b.
Proof.
  unfold requireReconstructedCanonical. rewrite fail_if_Ok, negb_false_iff. apply bool_decide_eq_true.
Qed.
