(* ===== verification/Sha256.v ===== *)
(** [crypto/sha256.Sum256]: the FIPS 180-4 function on byte strings, executable,
    checked on the standard's test vectors. Proofs elsewhere use only the length
    of its output. *)

From Stdlib Require Import Lia.
From S2P Require Import Prelude.

#[local] Open Scope N_scope.
#[local] Arguments String.append : simpl nomatch.

Module Sha.

Definition word (n : N) : N := N.land n 0xFFFFFFFF.
Definition add (a b : N) : N := word (a + b).
Definition rotr (k x : N) : N := N.lor (N.shiftr x k) (word (N.shiftl x (32 - k))).
Definition not32 (x : N) : N := N.lxor x 0xFFFFFFFF.

Definition ch (x y z : N) : N := N.lxor (N.land x y) (N.land (not32 x) z).
Definition maj (x y z : N) : N := N.lxor (N.lxor (N.land x y) (N.land x z)) (N.land y z).
Definition big0 (x : N) : N := N.lxor (N.lxor (rotr 2 x) (rotr 13 x)) (rotr 22 x).
Definition big1 (x : N) : N := N.lxor (N.lxor (rotr 6 x) (rotr 11 x)) (rotr 25 x).
Definition small0 (x : N) : N := N.lxor (N.lxor (rotr 7 x) (rotr 18 x)) (N.shiftr x 3).
Definition small1 (x : N) : N := N.lxor (N.lxor (rotr 17 x) (rotr 19 x)) (N.shiftr x 10).

(** The standard's constants are the first 32 bits of the fractional parts of
    the roots of the first primes: cube roots for [K], square roots for [H0]. *)
Definition primes (count : nat) : list N :=
  take count (filter (λ p, forallb (λ d, negb (p mod d =? 0)) (map N.of_nat (seq 2 (N.to_nat p - 2))) = true)
    (map N.of_nat (seq 2 400))).

(** The integer cube root, one bit at a time. *)
Fixpoint cube_root (bits : nat) (n acc : N) : N :=
  match bits with
  | O => acc
  | S bits =>
      let next := acc + 2 ^ N.of_nat bits in
      cube_root bits n (if next * next * next <=? n then next else acc)
  end.

Definition K : list N :=
  Eval vm_compute in map (λ p, word (cube_root 40 (p * 2 ^ 96) 0)) (primes 64).

Record state := { sa : N; sb : N; sc : N; sd : N; se : N; sf : N; sg : N; sh : N }.

Definition H0 : state :=
  Eval vm_compute in
  let root i := word (N.sqrt (nth i (primes 8) 0 * 2 ^ 64)) in
  {| sa := root 0%nat; sb := root 1%nat; sc := root 2%nat; sd := root 3%nat;
     se := root 4%nat; sf := root 5%nat; sg := root 6%nat; sh := root 7%nat |}.

Definition round (s : state) (kw : N) : state :=
  let t1 := add (sh s) (add (big1 (se s)) (add (ch (se s) (sf s) (sg s)) kw)) in
  let t2 := add (big0 (sa s)) (maj (sa s) (sb s) (sc s)) in
  {| sa := add t1 t2; sb := sa s; sc := sb s; sd := sc s;
     se := add (sd s) t1; sf := se s; sg := sf s; sh := sg s |}.

(** The message schedule, sixteen words at a time: [window] holds the last
    sixteen words, oldest first; each round consumes the oldest. *)
Definition next_word (window : list N) : N :=
  add (small1 (nth 14 window 0)) (add (nth 9 window 0)
    (add (small0 (nth 1 window 0)) (nth 0 window 0))).

Fixpoint rounds (ks : list N) (window : list N) (s : state) : state :=
  match ks with
  | [] => s
  | k :: ks =>
      rounds ks (tail window ++ [next_word window]) (round s (add k (nth 0 window 0)))
  end.

Definition block_step (h : state) (block : list N) : state :=
  let s := rounds K block h in
  {| sa := add (sa h) (sa s); sb := add (sb h) (sb s); sc := add (sc h) (sc s);
     sd := add (sd h) (sd s); se := add (se h) (se s); sf := add (sf h) (sf s);
     sg := add (sg h) (sg s); sh := add (sh h) (sh s) |}.

Fixpoint words (bytes : list N) : list N :=
  match bytes with
  | a :: b :: c :: d :: tl => (((a * 256 + b) * 256 + c) * 256 + d) :: words tl
  | _ => []
  end.

Fixpoint blocks (fuel : nat) (ws : list N) (h : state) : state :=
  match fuel with
  | O => h
  | S fuel =>
      match ws with
      | [] => h
      | _ => blocks fuel (drop 16 ws) (block_step h (take 16 ws))
      end
  end.

Fixpoint be_bytes (count : nat) (n : N) : list N :=
  match count with
  | O => []
  | S c => be_bytes c (N.shiftr n 8) ++ [N.land n 255]
  end.

Definition padded (msg : list N) : list N :=
  let len := N.of_nat (length msg) in
  let zeros := N.to_nat ((119 - len mod 64) mod 64) in
  msg ++ [0x80] ++ replicate zeros 0 ++ be_bytes 8 (len * 8).

Definition sum256 (msg : list N) : list N :=
  let ws := words (padded msg) in
  let h := blocks (length ws) ws H0 in
  concat (map (be_bytes 4) [sa h; sb h; sc h; sd h; se h; sf h; sg h; sh h]).

End Sha.

(** [sha256.Sum256]. *)
Definition sha256 (s : string) : string :=
  bytes_to_string (map byte_of_N (Sha.sum256 (map N_of_byte (string_to_bytes s)))).

Definition hex_lower (n : N) : ascii :=
  byte_of_N (if n <? 10 then 48 + n else 87 + n).

(** [hex.EncodeToString]. *)
Fixpoint hex_encode (s : string) : string :=
  match s with
  | EmptyString => ""
  | String c s =>
      String (hex_lower (N_of_byte c / 16)) (String (hex_lower (N_of_byte c mod 16)) (hex_encode s))
  end.

Example sha256_abc :
  hex_encode (sha256 "abc") = "ba7816bf8f01cfea414140de5dae2223b00361a396177a9cb410ff61f20015ad".
Proof. vm_compute. reflexivity. Qed.

Example sha256_two_blocks :
  hex_encode (sha256 "abcdbcdecdefdefgefghfghighijhijkijkljklmklmnlmnomnopnopq") =
  "248d6a61d20638b8e5c026930c3e6039a33ce45964ff2167f6ecedd419db06c1".
Proof. vm_compute. reflexivity. Qed.

Lemma be_bytes_length c n : length (Sha.be_bytes c n) = c.
Proof. revert n. induction c; intros n; simpl; [done|]. rewrite length_app, IHc. simpl. lia. Qed.

Lemma sha256_length s : String.length (sha256 s) = 32%nat.
Proof.
  unfold sha256. rewrite <- string_to_bytes_length, bytes_to_string_inv, length_map.
  unfold Sha.sum256. cbn [map concat]. rewrite !length_app, !be_bytes_length. done.
Qed.

Global Opaque sha256.
