(* ===== verification/Time.v ===== *)
(** Instants as the agency packages use [time.Time]: UTC nanoseconds since the
    Unix epoch, their RFC 3339 text, [canonicalTime] (internal/agency/value.go)
    and the law that parsing inverts formatting on the [UnixNano] range. *)

From Stdlib Require Import Lia.
From S2P Require Import Prelude Utf8 Json Wire.

#[local] Open Scope Z_scope.
#[local] Arguments String.append : simpl nomatch.

(** An instant in nanoseconds since 1970-01-01T00:00:00Z. *)
Abbreviation Time := Z (only parsing).

Definition ns_per_second : Z := 1000000000.
Definition ns_per_day : Z := 86400 * ns_per_second.

(** [time.Time{}]: January 1, year 1. *)
Definition zero_time : Time := - 62135596800 * ns_per_second.

(** ** The proleptic Gregorian calendar *)

Definition days_from_civil (y m d : Z) : Z :=
  let y' := if m <=? 2 then y - 1 else y in
  let era := y' / 400 in
  let yoe := y' - era * 400 in
  let mp := if 2 <? m then m - 3 else m + 9 in
  let doy := (153 * mp + 2) / 5 + d - 1 in
  era * 146097 + (yoe * 365 + yoe / 4 - yoe / 100 + doy) - 719468.

Definition civil_from_days (z : Z) : Z * Z * Z :=
  let z' := z + 719468 in
  let era := z' / 146097 in
  let doe := z' - era * 146097 in
  let yoe := (doe - doe / 1460 + doe / 36524 - doe / 146096) / 365 in
  let doy := doe - (365 * yoe + yoe / 4 - yoe / 100) in
  let mp := (5 * doy + 2) / 153 in
  let d := doy - (153 * mp + 2) / 5 + 1 in
  let m := if mp <? 10 then mp + 3 else mp - 9 in
  (yoe + era * 400 + (if m <=? 2 then 1 else 0), m, d).

Definition is_leap (y : Z) : bool :=
  (y mod 4 =? 0) && (negb (y mod 100 =? 0) || (y mod 400 =? 0)).

Definition days_in (m y : Z) : Z :=
  if m =? 2 then (if is_leap y then 29 else 28)
  else if (m =? 4) || (m =? 6) || (m =? 9) || (m =? 11) then 30 else 31.

(** ** Text *)

Definition digit (n : Z) : ascii := byte_of_N (48 + Z.to_N n).

(** The [k] decimal digits of [n]. *)
Fixpoint fixed (k : nat) (n : Z) : string :=
  match k with
  | O => ""
  | S k => String (digit (n / 10 ^ Z.of_nat k)) (fixed k (n mod 10 ^ Z.of_nat k))
  end.

Fixpoint read_digits (k : nat) (acc : Z) (s : string) : option (Z * string) :=
  match k, s with
  | O, _ => Some (acc, s)
  | S k, String c tl =>
      if is_digit c then read_digits k (acc * 10 + (Z.of_N (N_of_byte c) - 48)) tl else None
  | S _, EmptyString => None
  end.

(** Trailing zeros removed: the [.999999999] of the layout. *)
Fixpoint trim_zeros (s : string) : string :=
  match s with
  | EmptyString => ""
  | String c tl =>
      let r := trim_zeros tl in
      if is_empty r && Ascii.eqb c "0" then "" else String c r
  end.

Fixpoint zeros (k : nat) : string :=
  match k with O => "" | S k => String "0" (zeros k) end.

Definition format_fraction (ns : Z) : string :=
  if ns =? 0 then "" else "." +:+ trim_zeros (fixed 9 ns).

(** [t.UTC().Format(time.RFC3339Nano)] for a year of four digits. *)
Definition format_time (t : Time) : string :=
  let days := t / ns_per_day in
  let rem := t mod ns_per_day in
  let secs := rem / ns_per_second in
  let '(y, m, d) := civil_from_days days in
  fixed 4 y +:+ "-" +:+ fixed 2 m +:+ "-" +:+ fixed 2 d +:+ "T" +:+
  fixed 2 (secs / 3600) +:+ ":" +:+ fixed 2 ((secs / 60) mod 60) +:+ ":" +:+
  fixed 2 (secs mod 60) +:+ format_fraction (rem mod ns_per_second) +:+ "Z".

Definition parse_fraction (s : string) : option (Z * string) :=
  match strip_prefix "." s with
  | None => Some (0, s)
  | Some tl =>
      let '(ds, rest) := span_digits tl in
      let n := String.length ds in
      if is_empty ds || (9 <? n)%nat then None
      else '(ns, _) ← read_digits 9 0 (ds +:+ zeros (9 - n)); Some (ns, rest)
  end.

(** [time.Parse(time.RFC3339Nano, s)] on the UTC spellings; every caller
    compares the result's canonical text with [s], which rejects the other
    spellings Go accepts (offsets, longer fractions). *)
Definition parse_time (s : string) : option Time :=
  '(y, s) ← read_digits 4 0 s; s ← strip_prefix "-" s;
  '(m, s) ← read_digits 2 0 s; s ← strip_prefix "-" s;
  '(d, s) ← read_digits 2 0 s; s ← strip_prefix "T" s;
  '(hh, s) ← read_digits 2 0 s; s ← strip_prefix ":" s;
  '(mm, s) ← read_digits 2 0 s; s ← strip_prefix ":" s;
  '(ss, s) ← read_digits 2 0 s;
  '(ns, s) ← parse_fraction s;
  if (1 <=? m) && (m <=? 12) && (1 <=? d) && (d <=? days_in m y) &&
     (hh <? 24) && (mm <? 60) && (ss <? 60) && String.eqb s "Z"
  then Some (days_from_civil y m d * ns_per_day +
             (hh * 3600 + mm * 60 + ss) * ns_per_second + ns)
  else None.

(** [canonicalTime]: the checks between [time.Time] and its two encodings. *)
Definition canonicalTime (field : string) (value : Time) : result Time :=
  _ ← fail_if (value =? zero_time) (invalid field "must not be zero");
  _ ← fail_if (negb ((min_int64 <=? value) && (value <=? max_int64)))
        (invalid field "must round-trip through Unix nanoseconds");
  _ ← fail_if (negb (bool_decide (parse_time (format_time value) = Some value)))
        (invalid field "must round-trip through RFC3339Nano");
  Ok value.

(** ** The calendar round trip *)

(** The last day of a month of the March-based year, leap day included. *)
Lemma month_length yoe era doy mp m :
  0 <= yoe < 400 → 0 <= doy <= 365 →
  (doy = 365 → (yoe + 1) mod 4 = 0 ∧ ((yoe + 1) mod 100 ≠ 0 ∨ yoe = 399)) →
  0 <= mp <= 11 → 153 * mp <= 5 * doy + 2 < 153 * mp + 153 →
  (mp < 10 ∧ m = mp + 3) ∨ (10 <= mp ∧ m = mp - 9) →
  doy - (153 * mp + 2) / 5 + 1 <=
    days_in m (yoe + era * 400 + (if m <=? 2 then 1 else 0)).
Proof.
  intros Hyoe Hdoy Hleap Hmp Hlo Hm. unfold days_in.
  destruct (Z.eqb_spec m 2) as [->|Hm2].
  - assert (mp = 11) as -> by lia. change ((153 * 11 + 2) / 5) with 337. simpl.
    destruct (is_leap _) eqn:El; [lia|].
    destruct (Z.eq_dec doy 365) as [E|]; [|lia].
    exfalso. destruct (Hleap E) as [H4 H100]. unfold is_leap in El.
    assert (Ht : (yoe + era * 400 + 1) mod 4 = 0 ∧
      ((yoe + era * 400 + 1) mod 100 ≠ 0 ∨ (yoe + era * 400 + 1) mod 400 = 0)).
    { clear El. Z.to_euclidean_division_equations; lia. }
    destruct Ht as [Ht1 Ht2]. rewrite (proj2 (Z.eqb_eq _ _) Ht1) in El.
    destruct Ht2 as [Ht2|Ht2].
    + by rewrite (proj2 (Z.eqb_neq _ _) Ht2) in El.
    + rewrite (proj2 (Z.eqb_eq _ _) Ht2), orb_true_r in El. done.
  - destruct (Z.eqb_spec m 4), (Z.eqb_spec m 6), (Z.eqb_spec m 9), (Z.eqb_spec m 11); simpl;
      Z.to_euclidean_division_equations; lia.
Qed.

Lemma civil_facts z :
  let '(y, m, d) := civil_from_days z in
  1 <= m <= 12 ∧ 1 <= d <= days_in m y ∧ days_from_civil y m d = z.
Proof.
  unfold civil_from_days.
  set (era := (z + 719468) / 146097). set (doe := z + 719468 - era * 146097).
  assert (Hdoe : 0 <= doe < 146097).
  { subst doe era. Z.to_euclidean_division_equations; lia. }
  assert (Hz : z = era * 146097 + doe - 719468) by lia. clearbody era doe.
  set (yoe := (doe - doe / 1460 + doe / 36524 - doe / 146096) / 365).
  set (doy := doe - (365 * yoe + yoe / 4 - yoe / 100)).
  assert (Hy : 0 <= yoe < 400 ∧ 0 <= doy <= 365 ∧
    (doy = 365 → (yoe + 1) mod 4 = 0 ∧ ((yoe + 1) mod 100 ≠ 0 ∨ yoe = 399))).
  { subst doy yoe. split_and!; Z.to_euclidean_division_equations; lia. }
  assert (Hdoy : doe = yoe * 365 + yoe / 4 - yoe / 100 + doy) by lia.
  clearbody yoe doy. destruct Hy as (Hyoe & Hdoyb & Hleap).
  set (mp := (5 * doy + 2) / 153).
  assert (Hmp : 0 <= mp <= 11) by (subst mp; Z.to_euclidean_division_equations; lia).
  assert (Hera : (yoe + era * 400) / 400 = era).
  { rewrite Z.div_add, Z.div_small by lia. lia. }
  assert (Hlo : 153 * mp <= 5 * doy + 2 < 153 * mp + 153)
    by (subst mp; Z.to_euclidean_division_equations; lia).
  clearbody mp.
  set (m := if mp <? 10 then mp + 3 else mp - 9).
  assert (Hm : (mp < 10 ∧ m = mp + 3) ∨ (10 <= mp ∧ m = mp - 9))
    by (subst m; destruct (Z.ltb_spec mp 10); lia).
  clearbody m. split_and!; [lia|lia|Z.to_euclidean_division_equations; lia| |].
  - by apply month_length.
  - unfold days_from_civil. destruct (Z.leb_spec m 2), (Z.ltb_spec 2 m); try lia;
      rewrite ?Z.add_simpl_r, ?Z.add_0_r, Hera.
    + replace (yoe + era * 400 - era * 400) with yoe by lia.
      replace (m + 9) with mp by lia. lia.
    + replace (yoe + era * 400 - era * 400) with yoe by lia.
      replace (m - 3) with mp by lia. lia.
Qed.

Lemma civil_year_range z :
  -106752 <= z <= 106752 → let '(y, _, _) := civil_from_days z in 0 <= y < 10000.
Proof.
  intros Hz. unfold civil_from_days.
  set (m := if _ <? 10 then _ else _).
  assert (0 <= (if m <=? 2 then 1 else 0) <= 1) by (destruct (m <=? 2); lia).
  clearbody m. Z.to_euclidean_division_equations; lia.
Qed.

(** ** The text round trip *)

Lemma digit_is_digit n : 0 <= n < 10 → is_digit (digit n) = true ∧
  Z.of_N (N_of_byte (digit n)) - 48 = n.
Proof.
  intros Hn. unfold digit. unfold is_digit, in_range. rewrite N_of_byte_of_N by lia.
  split; [|lia]. apply andb_true_iff. split; apply N.leb_le; lia.
Qed.

Lemma pow10_pos k : 0 < 10 ^ Z.of_nat k.
Proof. apply Z.pow_pos_nonneg; lia. Qed.

Lemma fixed_head k n : 0 <= n < 10 ^ Z.of_nat (S k) → 0 <= n / 10 ^ Z.of_nat k < 10.
Proof.
  intros Hn. pose proof (pow10_pos k). rewrite Nat2Z.inj_succ, Z.pow_succ_r in Hn by lia.
  split; [apply Z.div_pos; lia|]. apply Z.div_lt_upper_bound; lia.
Qed.

Lemma read_fixed k n acc t :
  0 <= n < 10 ^ Z.of_nat k →
  read_digits k acc (fixed k n +:+ t) = Some (acc * 10 ^ Z.of_nat k + n, t).
Proof.
  revert n acc. induction k as [|k IH]; intros n acc Hn.
  { simpl in *. repeat f_equal. lia. }
  pose proof (fixed_head k n Hn) as Hd. pose proof (pow10_pos k) as Hp.
  destruct (digit_is_digit _ Hd) as [Hdig Hval]. cbn [fixed read_digits String.append].
  rewrite Hdig, Hval, IH by (apply Z.mod_pos_bound; lia).
  do 2 f_equal. rewrite Nat2Z.inj_succ, Z.pow_succ_r by lia.
  pose proof (Z.div_mod n (10 ^ Z.of_nat k)). lia.
Qed.

Lemma fixed_digits k n : 0 <= n < 10 ^ Z.of_nat k → all_digits (fixed k n) = true.
Proof.
  revert n. induction k as [|k IH]; intros n Hn; [done|].
  pose proof (fixed_head k n Hn) as Hd. destruct (digit_is_digit _ Hd) as [Hdig _].
  cbn [fixed all_digits]. rewrite Hdig, IH; [done|]. apply Z.mod_pos_bound, pow10_pos.
Qed.

Lemma fixed_length k n : String.length (fixed k n) = k.
Proof. revert n. induction k; intros n; simpl; [done|]. by rewrite IHk. Qed.

Lemma trim_zeros_digits s : all_digits s = true → all_digits (trim_zeros s) = true.
Proof.
  induction s as [|c s IH]; [done|]. cbn [all_digits trim_zeros]. intros [Hc Hs]%andb_prop.
  destruct (is_empty _ && _); [done|]. cbn [all_digits]. by rewrite Hc, IH.
Qed.

Lemma trim_zeros_length s : (String.length (trim_zeros s) <= String.length s)%nat.
Proof.
  induction s as [|c s IH]; [done|]. cbn [trim_zeros]. destruct (is_empty _ && _); simpl; lia.
Qed.

(** Padding restores what trimming removed. *)
Lemma trim_zeros_pad s :
  trim_zeros s +:+ zeros (String.length s - String.length (trim_zeros s)) = s.
Proof.
  induction s as [|c s IH]; [done|]. cbn [trim_zeros].
  destruct (is_empty (trim_zeros s)) eqn:E; simpl.
  - apply is_empty_true in E. rewrite E in IH. simpl in IH. rewrite Nat.sub_0_r in IH.
    destruct (Ascii.eqb_spec c "0") as [->|]; simpl.
    + by rewrite IH.
    + rewrite E. simpl. by rewrite Nat.sub_0_r, IH.
  - by rewrite IH.
Qed.

Lemma trim_zeros_nonempty k n :
  0 < n < 10 ^ Z.of_nat k → is_empty (trim_zeros (fixed k n)) = false.
Proof.
  intros Hn. apply is_empty_false. intros E.
  pose proof (trim_zeros_pad (fixed k n)) as Hp. rewrite E in Hp. simpl in Hp.
  pose proof (read_fixed k n 0 "") as Hr. rewrite string_app_nil_r, <- Hp in Hr.
  rewrite Nat.sub_0_r, fixed_length in Hr.
  assert (Hz : ∀ j, read_digits j 0 (zeros j) = Some (0, "")).
  { induction j as [|j IHj]; [done|]. cbn [zeros read_digits]. exact IHj. }
  rewrite Hz in Hr. assert (Hr' := Hr ltac:(lia)). injection Hr' as ?. lia.
Qed.

Lemma span_digits_stop s c t :
  all_digits s = true → is_digit c = false → span_digits (s +:+ String c t) = (s, String c t).
Proof.
  intros Hs Hc. induction s as [|a s IH]; simpl in *; [by rewrite Hc|].
  apply andb_prop in Hs as [Ha Hs]. rewrite Ha. by rewrite IH.
Qed.

Lemma parse_format_fraction ns :
  0 <= ns < ns_per_second → parse_fraction (format_fraction ns +:+ "Z") = Some (ns, "Z").
Proof.
  intros Hns. unfold format_fraction. destruct (Z.eqb_spec ns 0) as [->|Hnz]; [done|].
  set (f := trim_zeros (fixed 9 ns)). unfold parse_fraction.
  rewrite string_app_assoc. cbn [String.append strip_prefix Ascii.eqb Bool.eqb].
  assert (Hr : 0 <= ns < 10 ^ Z.of_nat 9) by (unfold ns_per_second in Hns; lia).
  rewrite span_digits_stop; [|apply trim_zeros_digits, fixed_digits, Hr|done].
  unfold f. rewrite trim_zeros_nonempty by lia.
  pose proof (trim_zeros_length (fixed 9 ns)) as Hl. rewrite fixed_length in Hl.
  rewrite (proj2 (Nat.ltb_ge _ _)) by lia. simpl orb. cbn match.
  pose proof (trim_zeros_pad (fixed 9 ns)) as Hpad. rewrite fixed_length in Hpad. rewrite Hpad.
  rewrite <- (string_app_nil_r (fixed 9 ns)), read_fixed by done. done.
Qed.

(** The calendar and clock fields [format_time] writes are in range and
    determine the instant. *)
Lemma format_time_fields t :
  min_int64 <= t <= max_int64 →
  ∃ y m d hh mm ss ns,
    format_time t = fixed 4 y +:+ "-" +:+ fixed 2 m +:+ "-" +:+ fixed 2 d +:+ "T" +:+
      fixed 2 hh +:+ ":" +:+ fixed 2 mm +:+ ":" +:+ fixed 2 ss +:+ format_fraction ns +:+ "Z" ∧
    (0 <= y < 10000 ∧ 1 <= m <= 12 ∧ 1 <= d <= 31 ∧ d <= days_in m y ∧
     0 <= hh < 24 ∧ 0 <= mm < 60 ∧ 0 <= ss < 60 ∧ 0 <= ns < ns_per_second) ∧
    t = days_from_civil y m d * ns_per_day + (hh * 3600 + mm * 60 + ss) * ns_per_second + ns.
Proof.
  intros Ht. unfold format_time.
  set (days := t / ns_per_day). set (rem := t mod ns_per_day).
  assert (Hrem : 0 <= rem < ns_per_day) by (apply Z.mod_pos_bound; done).
  assert (Hdays : -106752 <= days <= 106752).
  { subst days. unfold min_int64, max_int64, ns_per_day, ns_per_second in *.
    Z.to_euclidean_division_equations; lia. }
  assert (Hsplit : t = days * ns_per_day + rem)
    by (subst days rem; pose proof (Z.div_mod t ns_per_day ltac:(done)); lia).
  clearbody days rem.
  set (secs := rem / ns_per_second). set (ns := rem mod ns_per_second).
  assert (Hns : 0 <= ns < ns_per_second) by (apply Z.mod_pos_bound; done).
  assert (Hsecs : 0 <= secs < 86400).
  { subst secs. unfold ns_per_day, ns_per_second in *. Z.to_euclidean_division_equations; lia. }
  assert (Hrs : rem = secs * ns_per_second + ns)
    by (subst secs ns; pose proof (Z.div_mod rem ns_per_second ltac:(done)); lia).
  clearbody secs ns.
  pose proof (civil_facts days) as Hc. pose proof (civil_year_range days Hdays) as Hy.
  destruct (civil_from_days days) as [[y m] d]. destruct Hc as (Hm & Hd & Hback).
  assert (Hd31 : 1 <= d <= 31).
  { revert Hd. unfold days_in. repeat destruct (_ =? _); try destruct (is_leap y); simpl; lia. }
  exists y, m, d, (secs / 3600), ((secs / 60) mod 60), (secs mod 60), ns.
  split; [done|]. rewrite Hback.
  split; [split_and!; try lia; Z.to_euclidean_division_equations; lia|].
  replace (secs / 3600 * 3600 + (secs / 60) mod 60 * 60 + secs mod 60) with secs; [lia|].
  Z.to_euclidean_division_equations; lia.
Qed.

Lemma parse_format_time t :
  min_int64 <= t <= max_int64 → parse_time (format_time t) = Some t.
Proof.
  intros Ht. destruct (format_time_fields t Ht) as
    (y & m & d & hh & mm & ss & ns & -> & (Hy & Hm & Hd31 & Hd & Hhh & Hmm & Hss & Hns) & Hback).
  unfold parse_time.
  do 6 (rewrite read_fixed by (simpl; lia); cbn [mbind option_bind];
    try (rewrite strip_prefix_app; cbn [mbind option_bind])).
  rewrite parse_format_fraction by done. cbn [mbind option_bind].
  rewrite !Z.mul_0_l, !Z.add_0_l.
  rewrite !(proj2 (Z.leb_le _ _)), !(proj2 (Z.ltb_lt _ _)) by lia. simpl.
  by rewrite <- Hback.
Qed.

Definition ascii_only (s : string) : bool :=
  forallb (λ c, N_of_byte c <? 0x80)%N (string_to_bytes s).

Lemma ascii_only_app a b : ascii_only (a +:+ b) = ascii_only a && ascii_only b.
Proof. unfold ascii_only. by rewrite string_to_bytes_app, forallb_app. Qed.

Lemma ascii_only_digits s : all_digits s = true → ascii_only s = true.
Proof.
  unfold ascii_only. induction s as [|c s IH]; [done|]. cbn [all_digits string_to_bytes forallb].
  intros [Hc Hs]%andb_prop. rewrite (IH Hs), andb_true_r.
  apply is_digit_inv in Hc. by destruct_or! Hc; subst.
Qed.

(** The text of an instant is ASCII. *)
Lemma format_time_ascii t : min_int64 <= t <= max_int64 → ascii_only (format_time t) = true.
Proof.
  intros Ht. destruct (format_time_fields t Ht) as
    (y & m & d & hh & mm & ss & ns & -> & (Hy & Hm & Hd31 & Hd & Hhh & Hmm & Hss & Hns) & _).
  rewrite !ascii_only_app.
  rewrite !(λ k n H, ascii_only_digits _ (fixed_digits k n H)) by (simpl; lia).
  cbn [andb ascii_only string_to_bytes forallb]. rewrite andb_true_r.
  unfold format_fraction. destruct (ns =? 0); [done|].
  rewrite ascii_only_app. rewrite (ascii_only_digits (trim_zeros (fixed 9 ns))); [done|].
  apply trim_zeros_digits, fixed_digits. unfold ns_per_second in Hns. lia.
Qed.

Lemma format_time_length t :
  min_int64 <= t <= max_int64 → (String.length (format_time t) <= 30)%nat.
Proof.
  intros Ht. destruct (format_time_fields t Ht) as
    (y & m & d & hh & mm & ss & ns & -> & _ & _).
  rewrite !string_length_app, !fixed_length. cbn [String.length].
  enough (String.length (format_fraction ns) <= 10)%nat by lia.
  unfold format_fraction. destruct (ns =? 0); [simpl; lia|].
  rewrite string_length_app. pose proof (trim_zeros_length (fixed 9 ns)) as Hl.
  rewrite fixed_length in Hl. cbn [String.length]. lia.
Qed.

(** [canonicalTime] accepts exactly the non-zero instants of the [UnixNano]
    range, unchanged: its RFC 3339 check never fails. *)
Lemma canonicalTime_Ok field t t' :
  canonicalTime field t = Ok t' ↔ t' = t ∧ t ≠ zero_time ∧ min_int64 <= t <= max_int64.
Proof.
  unfold canonicalTime. split.
  - intros H. inv_res.
    repeat match goal with
    | H : (_ =? _) = false |- _ => apply Z.eqb_neq in H
    | H : (_ <=? _) = true |- _ => apply Z.leb_le in H
    end. done.
  - intros (-> & Hz & Hr). rewrite (proj2 (Z.eqb_neq _ _) Hz).
    rewrite (proj2 (Z.leb_le min_int64 t)), (proj2 (Z.leb_le t max_int64)) by lia.
    by rewrite (bool_decide_eq_true_2 _ (parse_format_time t Hr)).
Qed.

Global Opaque format_time parse_time.
