(* ===== verification/Value.v ===== *)
(** Values of internal/agency/value.go: digests, tokens (labels, keys, handles,
    identifiers), semantic payloads, Event references and canonical JSON. *)

From Stdlib Require Import Lia.
From S2P Require Import Prelude Utf8 Json Wire Sha256 Time.

#[local] Open Scope Z_scope.
#[local] Arguments String.append : simpl nomatch.

Definition MaxSemanticLabelBytes : Z := 96.
Definition MaxReferenceKeyBytes : Z := 160.
Definition MaxOpaqueHandleBytes : Z := 192.
Definition MaxSemanticPayloadBytes : Z := 4 * 1024.
Definition MaxDiagnosticBytes : Z := 512.
Definition MaxSuccessors : Z := 16.
Definition MaxArtifactInputs : Z := 8.
Definition MaxCausationHandles : Z := 16.
Definition MaxViewConsequences : Z := 8.
Definition MaxViewTargets : Z := 64.
Definition MaxViewHandles : Z := 128.
Definition MaxIntentCanonicalBytes : Z := Z.shiftl 12 10.
Definition MaxViewCanonicalBytes : Z := Z.shiftl 16 10.

(** ** Digests: the 32 raw bytes of [Digest] *)

Abbreviation Digest := string (only parsing).

Definition zero_digest : Digest := bytes_to_string (replicate 32 "000"%char).
Definition digest_wf (d : Digest) : Prop := String.length d = 32%nat.

Definition Sum (value : string) : Digest := sha256 value.

Definition Digest_IsZero (d : Digest) : bool := bool_decide (d = zero_digest).

Definition Digest_String (d : Digest) : string := "sha256:" +:+ hex_encode d.

(** [hex.DecodeString]: digits of either case, an even number of them. *)
Fixpoint hex_decode (s : string) : option string :=
  match s with
  | EmptyString => Some ""
  | String a (String b tl) =>
      x ← hex_value a; y ← hex_value b; rest ← hex_decode tl;
      Some (String (byte_of_N (x * 16 + y)) rest)
  | String _ EmptyString => None
  end.

Definition to_lower_byte (c : ascii) : ascii :=
  if in_range 65 90 c then byte_of_N (N_of_byte c + 32) else c.

Fixpoint to_lower (s : string) : string :=
  match s with EmptyString => "" | String c s => String (to_lower_byte c) (to_lower s) end.

Definition ParseDigest (value : string) : result Digest :=
  hexValue ← of_option (strip_prefix "sha256:" value)
    (invalid "digest" "must use sha256:<lowercase-hex>");
  let malformed := invalid "digest" "must use 64 lowercase hexadecimal characters" in
  decoded ← of_option (hex_decode hexValue) malformed;
  _ ← fail_if (negb (String.length decoded =? 32)%nat) malformed;
  _ ← fail_if (negb (bool_decide (hexValue = to_lower hexValue)))
        (invalid "digest" "must use lowercase hexadecimal");
  _ ← fail_if (Digest_IsZero decoded) (invalid "digest" "must not be zero");
  Ok decoded.

(** ** Tokens *)

Definition isASCIILetter (character : ascii) (lowercase : bool) : bool :=
  in_range 97 122 character || (negb lowercase && in_range 65 90 character).

Definition isASCIIDigit (character : ascii) : bool := in_range 48 57 character.

Definition token_alnum (lowercase : bool) (c : ascii) : bool :=
  isASCIILetter c lowercase || isASCIIDigit c.

Definition token_punct (lowercase : bool) (c : ascii) : bool :=
  Ascii.eqb c "." || Ascii.eqb c "_" || Ascii.eqb c "-" || Ascii.eqb c ":" ||
  (negb lowercase && Ascii.eqb c "/").

(** The loop over [value], from byte [index] on. *)
Fixpoint token_scan (lowercase : bool) (index : Z) (value : string) : bool :=
  match value with
  | EmptyString => true
  | String character tl =>
      (token_alnum lowercase character || ((0 <? index) && token_punct lowercase character)) &&
      token_scan lowercase (index + 1) tl
  end.

Fixpoint last_byte (c : ascii) (s : string) : ascii :=
  match s with EmptyString => c | String c' s => last_byte c' s end.

Definition validateToken (field value : string) (maximum : Z) (lowercase : bool) : result () :=
  match value with
  | EmptyString => Err (invalid field "must not be empty")
  | String first tl =>
      _ ← fail_if (maximum <? slen value) (limit field (slen value) maximum);
      _ ← fail_if (negb (token_scan lowercase 0 value))
            (invalid field "contains a non-canonical character");
      fail_if (negb (token_alnum lowercase (last_byte first tl)))
        (invalid field "must end with an ASCII letter or digit")
  end.

Abbreviation SemanticLabel := string (only parsing).
Abbreviation ReferenceKey := string (only parsing).
Abbreviation OpaqueHandle := string (only parsing).
Abbreviation SemanticPayload := string (only parsing).
Abbreviation AgentPrincipalID := string (only parsing).
Abbreviation AttachmentID := string (only parsing).
Abbreviation EventID := string (only parsing).
Abbreviation HandlingID := string (only parsing).
Abbreviation OperationKey := string (only parsing).
Abbreviation RouteID := string (only parsing).

(** Each newtype around a string is the string; its zero value is [""]. *)
Definition IsZero (value : string) : bool := is_empty value.

Definition NewSemanticLabel (value : string) : result SemanticLabel :=
  _ ← validateToken "semantic label" value MaxSemanticLabelBytes true; Ok value.
Definition NewReferenceKey (value : string) : result ReferenceKey :=
  _ ← validateToken "reference key" value MaxReferenceKeyBytes true; Ok value.
Definition NewOpaqueHandle (value : string) : result OpaqueHandle :=
  _ ← validateToken "opaque handle" value MaxOpaqueHandleBytes false; Ok value.

Definition newIdentifier (field value : string) : result string :=
  _ ← validateToken field value MaxOpaqueHandleBytes false; Ok value.
Definition NewAgentPrincipalID (value : string) : result AgentPrincipalID :=
  newIdentifier "AgentPrincipalID" value.
Definition NewAttachmentID (value : string) : result AttachmentID :=
  newIdentifier "AttachmentID" value.
Definition NewEventID (value : string) : result EventID := newIdentifier "EventID" value.
Definition NewHandlingID (value : string) : result HandlingID :=
  newIdentifier "HandlingID" value.
Definition NewOperationKey (value : string) : result OperationKey :=
  newIdentifier "operation key" value.
Definition NewRouteID (value : string) : result RouteID := newIdentifier "route ID" value.

(** ** Payloads *)

Definition contains_byte (b : ascii) (s : string) : bool :=
  bool_decide (b ∈ string_to_bytes s).

Definition NewSemanticPayload (value : string) : result SemanticPayload :=
  _ ← fail_if (negb (valid_utf8 value) || contains_byte "000" value)
        (invalid "semantic payload" "must be valid UTF-8 without NUL");
  _ ← fail_if (MaxSemanticPayloadBytes <? slen value)
        (limit "semantic payload" (slen value) MaxSemanticPayloadBytes);
  let encodedContentBytes := slen (marshal_string value) - 2 in
  _ ← fail_if (encodedContentBytes <? 0)
        (invalid "semantic payload" "cannot be encoded canonically");
  _ ← fail_if (MaxSemanticPayloadBytes <? encodedContentBytes)
        (limit "semantic payload JSON bytes" encodedContentBytes MaxSemanticPayloadBytes);
  Ok value.

(** ** Event references *)

Record EventRef := { er_id : EventID; er_digest : Digest }.

#[export] Instance EventRef_eq_dec : EqDecision EventRef.
Proof. solve_decision. Defined.

Definition zero_EventRef : EventRef := {| er_id := ""; er_digest := zero_digest |}.

Definition NewEventRef (id : EventID) (digest : Digest) : result EventRef :=
  _ ← fail_if (IsZero id || Digest_IsZero digest)
        (invalid "Event reference" "ID and digest are required");
  Ok {| er_id := id; er_digest := digest |}.

Definition EventRef_IsZero (r : EventRef) : bool :=
  IsZero r.(er_id) || Digest_IsZero r.(er_digest).

Record eventRefWire := { erw_ID : string; erw_Digest : string }.

Definition EventRef_canonical (r : EventRef) : eventRefWire :=
  {| erw_ID := r.(er_id); erw_Digest := Digest_String r.(er_digest) |}.

#[export] Instance eventRefWire_codec : Codec eventRefWire := {
  enc w := struct [field "id" w.(erw_ID); field "digest" w.(erw_Digest)];
  dec_value j :=
    ms ← members_of ["id"; "digest"] j;
    id ← get "id" ms; digest ← get "digest" ms;
    Ok {| erw_ID := id; erw_Digest := digest |};
  zero := {| erw_ID := ""; erw_Digest := "" |};
  empty _ := false;
  enc_ok w := enc_ok w.(erw_ID) ∧ enc_ok w.(erw_Digest);
}.
#[export] Instance eventRefWire_laws : CodecLaws eventRefWire.
Proof. solve_struct. Qed.

(** [canonicalJSON]: the marshalled bytes and their digest. *)
Definition canonicalJSON {A} `{Codec A} (value : A) : result (string * Digest) :=
  let encoded := canonical_bytes value in Ok (encoded, Sum encoded).

(** ** Laws *)

Lemma hex_digit_value n : (n < 16)%N →
  hex_value (hex_lower n) = Some n ∧ to_lower_byte (hex_lower n) = hex_lower n.
Proof.
  intros Hn. destruct n as [|p]; [done|].
  do 4 (try (destruct p as [p|p|]; [| |done])); exfalso; lia.
Qed.

Lemma hex_decode_encode s : hex_decode (hex_encode s) = Some s.
Proof.
  induction s as [|c s IH]; [done|]. cbn [hex_encode hex_decode].
  pose proof (N_of_byte_bound c) as Hb.
  assert (Hq : (N_of_byte c / 16 < 16)%N) by (apply N.Div0.div_lt_upper_bound; lia).
  assert (Hr : (N_of_byte c mod 16 < 16)%N) by (apply N.mod_lt; lia).
  rewrite (proj1 (hex_digit_value _ Hq)), (proj1 (hex_digit_value _ Hr)).
  cbn [mbind option_bind]. rewrite IH. cbn [mbind option_bind]. do 2 f_equal.
  rewrite <- (byte_of_N_of_byte c) at 3. f_equal.
  pose proof (N.div_mod (N_of_byte c) 16). lia.
Qed.

Lemma hex_encode_lower s : to_lower (hex_encode s) = hex_encode s.
Proof.
  induction s as [|c s IH]; [done|]. cbn [hex_encode to_lower]. rewrite IH.
  pose proof (N_of_byte_bound c) as Hb.
  assert (Hq : (N_of_byte c / 16 < 16)%N) by (apply N.Div0.div_lt_upper_bound; lia).
  assert (Hr : (N_of_byte c mod 16 < 16)%N) by (apply N.mod_lt; lia).
  by rewrite (proj2 (hex_digit_value _ Hq)), (proj2 (hex_digit_value _ Hr)).
Qed.

Lemma hex_value_lower c x :
  hex_value c = Some x → to_lower_byte c = c → (x < 16)%N ∧ hex_lower x = c.
Proof.
  destruct c as [[|] [|] [|] [|] [|] [|] [|] [|]]; cbv; try discriminate;
    intros [= <-]; try discriminate; done.
Qed.

Fixpoint hex_decode_inv_aux (n : nat) s d :
  (String.length s <= n)%nat → hex_decode s = Some d → to_lower s = s → s = hex_encode d.
Proof.
  intros Hn Hd Hl. destruct s as [|a [|b s]]; [by simplify_eq/=|done|].
  destruct n as [|n]; [simpl in Hn; lia|]. simpl in Hd, Hl, Hn.
  injection Hl as Ha Hb Hs.
  destruct (hex_value a) as [x|] eqn:Hx; [|done].
  destruct (hex_value b) as [y|] eqn:Hy; [|done]. simpl in Hd.
  destruct (hex_decode s) as [d'|] eqn:Hd'; [|done]. injection Hd as <-.
  destruct (hex_value_lower _ _ Hx Ha) as [Hx16 <-].
  destruct (hex_value_lower _ _ Hy Hb) as [Hy16 <-].
  cbn [hex_encode]. rewrite N_of_byte_of_N by lia.
  rewrite (hex_decode_inv_aux n s d') by (done || lia).
  replace ((x * 16 + y) / 16)%N with x.
  2:{ symmetry. rewrite N.add_comm, N.div_add, N.div_small by lia. lia. }
  replace ((x * 16 + y) mod 16)%N with y; [done|].
  rewrite N.add_comm, N.Div0.mod_add, N.mod_small by lia. done.
Qed.

Lemma hex_decode_inv s d : hex_decode s = Some d → to_lower s = s → s = hex_encode d.
Proof. by apply (hex_decode_inv_aux (String.length s)). Qed.

Lemma ParseDigest_String d :
  digest_wf d → Digest_IsZero d = false → ParseDigest (Digest_String d) = Ok d.
Proof.
  intros Hw Hz. unfold ParseDigest, Digest_String. rewrite strip_prefix_app. cbn [of_option mbind result_bind].
  rewrite hex_decode_encode. cbn [of_option mbind result_bind].
  rewrite Hw. cbn [Nat.eqb negb fail_if mbind result_bind].
  rewrite hex_encode_lower, bool_decide_eq_true_2 by done. cbn [negb fail_if mbind result_bind].
  by rewrite Hz.
Qed.

Lemma ParseDigest_Ok s d :
  ParseDigest s = Ok d → s = Digest_String d ∧ digest_wf d ∧ Digest_IsZero d = false.
Proof.
  unfold ParseDigest. intros H. inv_res.
  match goal with H : strip_prefix _ _ = Some ?h |- _ =>
    apply strip_prefix_Some in H as ->; rename h into hexValue end.
  split_and!; [|by apply Nat.eqb_eq|done]. unfold Digest_String. f_equal.
  by apply hex_decode_inv.
Qed.

Lemma Sum_wf s : digest_wf (Sum s).
Proof. apply sha256_length. Qed.

(** ASCII strings are valid UTF-8. *)
Definition is_ascii (c : ascii) : bool := (N_of_byte c <? 0x80)%N.

Lemma valid_utf8_ascii_cons c s :
  is_ascii c = true → valid_utf8 (String c s) = valid_utf8 s.
Proof.
  intros Hc. apply (valid_utf8_cons _ (N_of_byte c)). unfold decode_rune, is_ascii in *. by rewrite Hc.
Qed.

Lemma valid_utf8_ascii s :
  forallb is_ascii (string_to_bytes s) = true → valid_utf8 s = true.
Proof.
  induction s as [|c s IH]; [done|]. cbn [string_to_bytes forallb].
  intros [Hc Hs]%andb_prop. rewrite valid_utf8_ascii_cons by done. auto.
Qed.

Lemma in_range_ascii lo hi c : (hi < 128)%N → in_range lo hi c = true → is_ascii c = true.
Proof.
  unfold in_range, is_ascii. intros H [_ Hc]%andb_prop.
  apply N.leb_le in Hc. apply N.ltb_lt. lia.
Qed.

Lemma token_alnum_ascii l c : token_alnum l c = true → is_ascii c = true.
Proof.
  unfold token_alnum, isASCIILetter, isASCIIDigit. rewrite !orb_true_iff.
  intros [[H|[_ H]%andb_prop]|H]; eapply in_range_ascii; [|exact H| |exact H| |exact H]; done.
Qed.

Lemma token_punct_ascii l c : token_punct l c = true → is_ascii c = true.
Proof.
  unfold token_punct. rewrite !orb_true_iff, andb_true_iff, !Ascii.eqb_eq.
  intros [[[[->| ->]| ->]| ->]|[_ ->]]; done.
Qed.

(** The set of strings [validateToken] accepts, written directly. *)
Definition token_spec (maximum : Z) (lowercase : bool) (value : string) : Prop :=
  slen value <= maximum ∧
  ∃ first mid last, (value = String first "" ∧ last = first ∨
      value = String first (mid +:+ String last "")) ∧
    token_alnum lowercase first = true ∧ token_alnum lowercase last = true ∧
    Forall (λ c, token_alnum lowercase c = true ∨ token_punct lowercase c = true)
      (string_to_bytes mid).

Lemma token_scan_pos l i s :
  0 < i → token_scan l i s = true ↔
  Forall (λ c, token_alnum l c = true ∨ token_punct l c = true) (string_to_bytes s).
Proof.
  revert i. induction s as [|c s IH]; intros i Hi; simpl; [done|].
  rewrite andb_true_iff, Forall_cons, IH by lia.
  rewrite (proj2 (Z.ltb_lt 0 i)) by lia. rewrite orb_true_iff. done.
Qed.

Lemma last_byte_snoc c s l : last_byte c (s +:+ String l "") = l.
Proof. revert c. induction s as [|a s IH]; intros c; simpl; [done|apply IH]. Qed.

Lemma string_snoc_inv c s : ∃ mid, String c s = mid +:+ String (last_byte c s) "".
Proof.
  revert c. induction s as [|a s IH]; intros c; [by exists ""|].
  destruct (IH a) as [mid E]. exists (String c mid). simpl. by rewrite <- E.
Qed.

Lemma validateToken_iff field value maximum lowercase u :
  validateToken field value maximum lowercase = Ok u ↔ token_spec maximum lowercase value.
Proof.
  destruct u. unfold token_spec. destruct value as [|first tl]; cbn [validateToken].
  { split; [done|]. intros (_ & f & mid & l & [[E _]|E] & _); done. }
  split.
  - intros H. inv_res.
    match goal with H : (_ <? _) = false |- _ => apply Z.ltb_ge in H end.
    split; [done|]. cbn [token_scan] in *. inv_res.
    match goal with H : token_alnum _ _ || _ = true |- _ =>
      rewrite orb_false_r in H; rename H into Hf end.
    match goal with H : token_scan _ _ _ = true |- _ =>
      apply token_scan_pos in H; [|lia]; rename H into Hs end.
    destruct tl as [|b tl].
    + exists first, "", first. split_and!; [by left|done..|constructor].
    + destruct (string_snoc_inv b tl) as [mid E]. cbn [last_byte] in *.
      exists first, mid, (last_byte b tl). rewrite E. split_and!; [by right|done..|].
      rewrite E, string_to_bytes_app, Forall_app in Hs. tauto.
  - intros (Hlen & f & mid & l & E & Hf & Hl & Hmid).
    rewrite (proj2 (Z.ltb_ge _ _)) by done. cbn [fail_if mbind result_bind token_scan].
    assert (f = first) as -> by (destruct E as [[E _]|E]; congruence).
    rewrite Hf. cbn [orb andb].
    assert (Hs : token_scan lowercase (0 + 1) tl = true).
    { apply token_scan_pos; [lia|]. destruct E as [[[= ->] _]|[= ->]]; [constructor|].
      rewrite string_to_bytes_app, Forall_app. split; [done|]. apply Forall_singleton. by left. }
    rewrite Hs. cbn [negb fail_if mbind result_bind].
    assert (last_byte first tl = l) as ->.
    { destruct E as [[[= ->] ->]|[= ->]]; [done|]. apply last_byte_snoc. }
    by rewrite Hl.
Qed.

Lemma token_spec_ascii maximum l value :
  token_spec maximum l value → forallb is_ascii (string_to_bytes value) = true.
Proof.
  intros (_ & f & mid & la & E & Hf & Hl & Hmid). apply forallb_forall.
  assert (Ha : Forall (λ c, is_ascii c = true) (string_to_bytes value)).
  { apply token_alnum_ascii in Hf, Hl.
    assert (Hm : Forall (λ c, is_ascii c = true) (string_to_bytes mid)).
    { eapply Forall_impl; [done|]. intros c [Hc|Hc].
      - by eapply token_alnum_ascii. - by eapply token_punct_ascii. }
    destruct E as [[-> _]| ->]; simpl; [by repeat constructor|].
    constructor; [done|]. rewrite string_to_bytes_app. apply Forall_app; split; [done|].
    by repeat constructor. }
  rewrite Forall_forall in Ha. intros c Hc. apply Ha. by apply list_elem_of_In.
Qed.

Lemma validateToken_nonempty field value maximum l u :
  validateToken field value maximum l = Ok u → value ≠ "".
Proof. by destruct value. Qed.

Lemma validateToken_utf8 field value maximum l u :
  validateToken field value maximum l = Ok u → valid_utf8 value = true.
Proof. intros H%validateToken_iff. eapply valid_utf8_ascii, token_spec_ascii, H. Qed.

(** The predicate each constructor establishes. *)
Definition token_ok (maximum : Z) (lowercase : bool) (value : string) : bool :=
  is_ok (validateToken "" value maximum lowercase).

Definition handle_ok : string → bool := token_ok MaxOpaqueHandleBytes false.
Definition label_ok : string → bool := token_ok MaxSemanticLabelBytes true.
Definition key_ok : string → bool := token_ok MaxReferenceKeyBytes true.

Lemma validateToken_token_ok field value maximum l :
  token_ok maximum l value = true ↔ validateToken field value maximum l = Ok ().
Proof.
  unfold token_ok. split.
  - destruct (validateToken "" value maximum l) as [[]|] eqn:E; [|done].
    intros _. by apply validateToken_iff, (validateToken_iff "" _ _ _ ()).
  - intros H%validateToken_iff. by rewrite (proj2 (validateToken_iff "" _ _ _ ()) H).
Qed.

Lemma token_ok_utf8 maximum l value : token_ok maximum l value = true → valid_utf8 value = true.
Proof. intros H%(validateToken_token_ok ""). by eapply validateToken_utf8. Qed.

Lemma token_ok_nonempty maximum l value : token_ok maximum l value = true → value ≠ "".
Proof. intros H%(validateToken_token_ok ""). by eapply validateToken_nonempty. Qed.

Lemma NewOpaqueHandle_Ok v h : NewOpaqueHandle v = Ok h ↔ h = v ∧ handle_ok v = true.
Proof.
  unfold NewOpaqueHandle, handle_ok. rewrite (validateToken_token_ok "opaque handle").
  split; [intros H; inv_res; done|]. by intros [-> ->].
Qed.
Lemma NewSemanticLabel_Ok v h : NewSemanticLabel v = Ok h ↔ h = v ∧ label_ok v = true.
Proof.
  unfold NewSemanticLabel, label_ok. rewrite (validateToken_token_ok "semantic label").
  split; [intros H; inv_res; done|]. by intros [-> ->].
Qed.
Lemma NewReferenceKey_Ok v h : NewReferenceKey v = Ok h ↔ h = v ∧ key_ok v = true.
Proof.
  unfold NewReferenceKey, key_ok. rewrite (validateToken_token_ok "reference key").
  split; [intros H; inv_res; done|]. by intros [-> ->].
Qed.
Lemma newIdentifier_Ok f v h : newIdentifier f v = Ok h ↔ h = v ∧ handle_ok v = true.
Proof.
  unfold newIdentifier, handle_ok. rewrite (validateToken_token_ok f).
  split; [intros H; inv_res; done|]. by intros [-> ->].
Qed.

Definition payload_ok (value : string) : bool := is_ok (NewSemanticPayload value).

Lemma NewSemanticPayload_Ok v p : NewSemanticPayload v = Ok p ↔ p = v ∧ payload_ok v = true.
Proof.
  unfold payload_ok. split.
  - intros H. rewrite H. unfold NewSemanticPayload in H. inv_res. done.
  - intros [-> H]. destruct (NewSemanticPayload v) as [p|] eqn:E; [|done].
    unfold NewSemanticPayload in E. inv_res. done.
Qed.

Lemma payload_ok_utf8 v : payload_ok v = true → valid_utf8 v = true.
Proof.
  unfold payload_ok. destruct (NewSemanticPayload v) as [p|] eqn:E; [|done].
  unfold NewSemanticPayload in E. inv_res. done.
Qed.

(** [hex_encode] writes ASCII only. *)
Lemma hex_encode_ascii s : forallb is_ascii (string_to_bytes (hex_encode s)) = true.
Proof.
  induction s as [|c s IH]; [done|]. cbn [hex_encode string_to_bytes forallb].
  assert (Hh : ∀ n, (n < 16)%N → is_ascii (hex_lower n) = true).
  { intros n Hn. destruct n as [|p]; [done|].
    do 4 (try (destruct p as [p|p|]; [| |done])); exfalso; lia. }
  pose proof (N_of_byte_bound c).
  rewrite !Hh, IH; [done|apply N.mod_lt; lia|apply N.Div0.div_lt_upper_bound; lia].
Qed.

Lemma Digest_String_utf8 d : valid_utf8 (Digest_String d) = true.
Proof.
  apply valid_utf8_ascii. unfold Digest_String. rewrite string_to_bytes_app, forallb_app.
  by rewrite hex_encode_ascii.
Qed.

#[export] Hint Extern 0 => (apply Digest_String_utf8) : wire_ok.
#[export] Hint Extern 1 => (eapply token_ok_utf8; eassumption) : wire_ok.
#[export] Hint Extern 1 => (apply payload_ok_utf8; eassumption) : wire_ok.

Lemma Digest_String_inj d d' : Digest_String d = Digest_String d' → d = d'.
Proof.
  unfold Digest_String. intros E%(inj (String.append "sha256:")).
  apply (f_equal hex_decode) in E. rewrite !hex_decode_encode in E. congruence.
Qed.

Lemma hex_encode_length s : String.length (hex_encode s) = (2 * String.length s)%nat.
Proof. induction s as [|c s IH]; [done|]. cbn [hex_encode String.length]. lia. Qed.

(** ** Lengths of encoded strings *)

Definition plain_byte (c : ascii) : bool :=
  is_ascii c && negb (N_of_byte c <? 32)%N && negb (Ascii.eqb c "034") && negb (Ascii.eqb c "\") &&
  negb (Ascii.eqb c "<") && negb (Ascii.eqb c ">") && negb (Ascii.eqb c "&").

Lemma escape_ascii_cons c s :
  is_ascii c = true → escape (String c s) = escape_rune (N_of_byte c) +:+ escape s.
Proof.
  intros Hc. unfold is_ascii in Hc.
  assert (E : encode_rune (N_of_byte c) = String c "").
  { unfold encode_rune. rewrite Hc. by rewrite byte_of_N_of_byte. }
  rewrite <- escape_encode; [by rewrite E|]. unfold scalar. apply N.ltb_lt in Hc.
  apply orb_true_iff. left. apply N.ltb_lt. lia.
Qed.

Lemma escape_rune_plain c : plain_byte c = true → escape_rune (N_of_byte c) = String c "".
Proof.
  unfold plain_byte. intros H. inv_res. unfold escape_rune. unfold is_ascii in *.
  repeat match goal with H : _ = true |- _ => rewrite H; clear H end.
  rewrite byte_of_N_of_byte.
  repeat match goal with H : Ascii.eqb _ _ = false |- _ => rewrite H end.
  match goal with H : (_ <? 32)%N = false |- _ => rewrite H; apply N.ltb_ge in H as Hge end.
  by rewrite !(proj2 (N.eqb_neq _ _)) by lia.
Qed.

Lemma escape_plain s : forallb plain_byte (string_to_bytes s) = true → escape s = s.
Proof.
  induction s as [|c s IH]; [done|]. cbn [string_to_bytes forallb]. intros [Hc Hs]%andb_prop.
  rewrite escape_ascii_cons, escape_rune_plain, IH by (done || (unfold plain_byte in Hc; by inv_res)).
  done.
Qed.

(** One rune takes at most six bytes per byte of its encoding. *)
Lemma escape_rune_length c :
  scalar c = true → (String.length (escape_rune c) <= 6 * String.length (encode_rune c))%nat.
Proof.
  intros _. assert (1 <= String.length (encode_rune c))%nat
    by (unfold encode_rune; utf8_case; simpl; lia).
  unfold escape_rune, u00. utf8_case; cbn -[Nat.mul encode_rune]; lia.
Qed.

Lemma escape_length s :
  valid_utf8 s = true → (String.length (escape s) <= 6 * String.length s)%nat.
Proof.
  revert s. apply (valid_utf8_ind (λ s, (String.length (escape s) <= 6 * String.length s)%nat)); [done|].
  intros c t Hc _ IH. rewrite escape_encode, !string_length_app by done.
  pose proof (escape_rune_length c Hc). lia.
Qed.

Lemma token_byte_plain l c :
  token_alnum l c = true ∨ token_punct l c = true → plain_byte c = true.
Proof.
  destruct c as [[|] [|] [|] [|] [|] [|] [|] [|]], l; vm_compute; tauto || (intros [?|?]; congruence).
Qed.

Lemma token_ok_bytes maximum l s :
  token_ok maximum l s = true →
  Forall (λ c, token_alnum l c = true ∨ token_punct l c = true) (string_to_bytes s) ∧ slen s <= maximum.
Proof.
  intros H%(validateToken_token_ok ""). apply validateToken_iff in H as (Hl & f & mid & la & E & Hf & Hla & Hm).
  split; [|done]. destruct E as [[-> ->]| ->]; cbn [string_to_bytes]; [constructor; [by left|constructor]|].
  rewrite string_to_bytes_app. constructor; [by left|]. apply Forall_app. split; [done|]. constructor; [by left|constructor].
Qed.

Lemma token_ok_plain maximum l s :
  token_ok maximum l s = true → forallb plain_byte (string_to_bytes s) = true ∧ slen s <= maximum.
Proof.
  intros [Hb Hl]%token_ok_bytes. split; [|done]. apply forallb_forall. intros c Hc%list_elem_of_In.
  rewrite Forall_forall in Hb. by eapply token_byte_plain, Hb.
Qed.

Lemma marshal_string_length s : slen (marshal_string s) = slen (escape s) + 2.
Proof. unfold marshal_string, slen. cbn [String.length]. rewrite string_length_app. simpl. lia. Qed.

Lemma marshal_token_length maximum l s :
  token_ok maximum l s = true → slen (marshal_string s) <= maximum + 2.
Proof.
  intros [Hp Hl]%token_ok_plain. rewrite marshal_string_length, escape_plain by done. lia.
Qed.

Lemma join_comma_app_length xs :
  slen (join_comma xs) <= foldr Z.add 0 (map (λ x, slen x + 1) xs).
Proof.
  destruct xs as [|x xs]; [done|]. cbn [join_comma map foldr].
  unfold slen at 1. rewrite string_length_app, Nat2Z.inj_add. fold (slen x).
  enough (Z.of_nat (String.length (foldr (λ y acc, String "," (y +:+ acc)) "" xs)) <=
    foldr Z.add 0 (map (λ x, slen x + 1) xs)) by lia.
  induction xs as [|y xs IH]; [done|]. cbn [foldr map String.length].
  rewrite string_length_app. unfold slen at 1. lia.
Qed.

(** The size of a struct's text: its members' sizes and their punctuation. *)
Definition member_size (f : fieldspec) : Z :=
  match f.2 with Some j => slen (marshal_string f.1) + slen (marshal j) + 2 | None => 0 end.

Lemma struct_length fs : slen (marshal (struct fs)) <= 2 + foldr Z.add 0 (map member_size fs).
Proof.
  unfold struct. cbn [marshal]. unfold slen at 1. cbn [String.length].
  rewrite string_length_app. simpl (String.length "}").
  pose proof (join_comma_app_length (map (λ m, marshal_string m.1 +:+ String ":" (marshal m.2)) (present fs))) as Hj.
  unfold slen at 1 in Hj. rewrite map_map in Hj.
  enough (foldr Z.add 0 (map (λ m, slen (marshal_string m.1 +:+ String ":" (marshal m.2)) + 1) (present fs))
    <= foldr Z.add 0 (map member_size fs)) by lia.
  clear Hj. induction fs as [|[k [j|]] fs IH]; [done| |]; cbn [present map foldr member_size snd fst].
  - unfold slen at 1. rewrite string_length_app. cbn [String.length]. unfold slen at 2 3.
    rewrite Nat2Z.inj_add, Nat2Z.inj_succ. lia.
  - lia.
Qed.

Lemma digits_plain s : all_digits s = true → forallb plain_byte (string_to_bytes s) = true.
Proof.
  induction s as [|c s IH]; [done|]. cbn [all_digits string_to_bytes forallb].
  intros [Hc Hs]%andb_prop. rewrite (IH Hs), andb_true_r.
  apply is_digit_inv in Hc. by destruct_or! Hc; subst.
Qed.

(** RFC 3339 text needs no JSON escaping. *)
Lemma format_time_plain t :
  min_int64 <= t <= max_int64 → forallb plain_byte (string_to_bytes (format_time t)) = true.
Proof.
  intros Ht. destruct (format_time_fields t Ht) as
    (y & m & d & hh & mm & ss & ns & -> & (Hy & Hm & Hd31 & Hd & Hhh & Hmm & Hss & Hns) & _).
  rewrite !string_to_bytes_app, !forallb_app.
  rewrite !(λ k n H, digits_plain _ (fixed_digits k n H)) by (simpl; lia).
  assert (Hf : forallb plain_byte (string_to_bytes (format_fraction ns)) = true).
  { unfold format_fraction. destruct (ns =? 0); [done|].
    rewrite string_to_bytes_app, forallb_app.
    rewrite (digits_plain (trim_zeros (fixed 9 ns))); [done|].
    apply trim_zeros_digits, fixed_digits. unfold ns_per_second in Hns. lia. }
  by rewrite Hf.
Qed.
