(* ===== verification/Intent.v ===== *)
(** Agent Intents: the closed set of consequences, the constructor
    [NewAgentIntent] (internal/agency/intent.go) and the strict parser
    [ParseAgentIntentJSON] (internal/agency/intent_parse.go). *)

From Stdlib Require Import Lia.
From S2P Require Import Prelude Utf8 Json Wire Sha256 Time Value.

#[local] Open Scope Z_scope.
#[local] Arguments String.append : simpl nomatch.

(** ** Consequences *)

Inductive Consequence :=
| ConsequenceInvalid
| ConsequenceCreateHandlings
| ConsequenceAdvanceHandling
| ConsequenceResolveCompleted
| ConsequenceResolveDeclined
| ConsequenceResolveUnresolved
| ConsequencePublishReference
| ConsequenceSupersedeReference
| ConsequenceRetractReference
| ConsequenceObserveCompleted
| ConsequenceObserveDeclined
| ConsequenceObserveUnresolved.

#[export] Instance Consequence_eq_dec : EqDecision Consequence.
Proof. solve_decision. Defined.

(** The [iota] value behind the source's range comparisons. *)
Definition Consequence_number (c : Consequence) : Z :=
  match c with
  | ConsequenceInvalid => 0
  | ConsequenceCreateHandlings => 1
  | ConsequenceAdvanceHandling => 2
  | ConsequenceResolveCompleted => 3
  | ConsequenceResolveDeclined => 4
  | ConsequenceResolveUnresolved => 5
  | ConsequencePublishReference => 6
  | ConsequenceSupersedeReference => 7
  | ConsequenceRetractReference => 8
  | ConsequenceObserveCompleted => 9
  | ConsequenceObserveDeclined => 10
  | ConsequenceObserveUnresolved => 11
  end.

Definition Consequence_String (c : Consequence) : string :=
  match c with
  | ConsequenceCreateHandlings => "handling.create"
  | ConsequenceAdvanceHandling => "handling.advance"
  | ConsequenceResolveCompleted => "handling.resolve.completed"
  | ConsequenceResolveDeclined => "handling.resolve.declined"
  | ConsequenceResolveUnresolved => "handling.resolve.unresolved"
  | ConsequencePublishReference => "reference.publish"
  | ConsequenceSupersedeReference => "reference.supersede"
  | ConsequenceRetractReference => "reference.retract"
  | ConsequenceObserveCompleted => "observation.completed"
  | ConsequenceObserveDeclined => "observation.declined"
  | ConsequenceObserveUnresolved => "observation.unresolved"
  | ConsequenceInvalid => ""
  end.

Definition consequence_between (lo hi c : Consequence) : bool :=
  (Consequence_number lo <=? Consequence_number c) &&
  (Consequence_number c <=? Consequence_number hi).

Definition Consequence_Valid : Consequence → bool :=
  consequence_between ConsequenceCreateHandlings ConsequenceObserveUnresolved.
Definition agentDeclarable : Consequence → bool :=
  consequence_between ConsequenceCreateHandlings ConsequenceRetractReference.
Definition observation : Consequence → bool :=
  consequence_between ConsequenceObserveCompleted ConsequenceObserveUnresolved.
Definition subjectBound : Consequence → bool :=
  consequence_between ConsequenceAdvanceHandling ConsequenceResolveUnresolved.
Definition referenceBound : Consequence → bool :=
  consequence_between ConsequencePublishReference ConsequenceRetractReference.

#[export] Instance Consequence_number_inj : Inj (=) (=) Consequence_number.
Proof. by intros [] []. Qed.
#[export] Instance Consequence_countable : Countable Consequence.
Proof.
  apply (inj_countable Consequence_number (λ n, nth_error
    [ConsequenceInvalid; ConsequenceCreateHandlings; ConsequenceAdvanceHandling;
     ConsequenceResolveCompleted; ConsequenceResolveDeclined; ConsequenceResolveUnresolved;
     ConsequencePublishReference; ConsequenceSupersedeReference; ConsequenceRetractReference;
     ConsequenceObserveCompleted; ConsequenceObserveDeclined; ConsequenceObserveUnresolved]
    (Z.to_nat n))).
  by intros [].
Defined.

(** The valid consequences in the order of the source's counting loop. *)
Definition all_consequences : list Consequence :=
  [ConsequenceCreateHandlings; ConsequenceAdvanceHandling; ConsequenceResolveCompleted;
   ConsequenceResolveDeclined; ConsequenceResolveUnresolved; ConsequencePublishReference;
   ConsequenceSupersedeReference; ConsequenceRetractReference; ConsequenceObserveCompleted;
   ConsequenceObserveDeclined; ConsequenceObserveUnresolved].

Definition parseConsequence (value : string) : result Consequence :=
  of_option (head (filter (λ c, Consequence_String c = value) all_consequences))
    (invalid "Intent consequence" "is not a closed consequence").

(** ** Targets and Artifact inputs *)

Record TargetRef := { tr_self : bool; tr_alias : OpaqueHandle }.

#[export] Instance TargetRef_eq_dec : EqDecision TargetRef.
Proof. solve_decision. Defined.

Definition SelfTarget : TargetRef := {| tr_self := true; tr_alias := "" |}.

Definition AliasTarget (alias : OpaqueHandle) : result TargetRef :=
  _ ← fail_if (IsZero alias) (invalid "target alias" "must not be zero");
  _ ← fail_if (bool_decide (alias = "self"))
        (invalid "target alias" "self is reserved for the local Principal");
  Ok {| tr_self := false; tr_alias := alias |}.

Definition TargetRef_IsZero (target : TargetRef) : bool :=
  negb target.(tr_self) && IsZero target.(tr_alias).

Definition TargetRef_canonicalKey (target : TargetRef) : string :=
  if target.(tr_self) then "self" else "alias:" +:+ target.(tr_alias).

Inductive ArtifactInputKind :=
| ArtifactInputInvalid | ArtifactInputCandidate | ArtifactInputViewHandle.

#[export] Instance ArtifactInputKind_eq_dec : EqDecision ArtifactInputKind.
Proof. solve_decision. Defined.

Definition ArtifactInputKind_number (k : ArtifactInputKind) : N :=
  match k with
  | ArtifactInputInvalid => 0 | ArtifactInputCandidate => 1 | ArtifactInputViewHandle => 2
  end.

Record ArtifactInput := { ain_kind : ArtifactInputKind; ain_handle : OpaqueHandle }.

#[export] Instance ArtifactInput_eq_dec : EqDecision ArtifactInput.
Proof. solve_decision. Defined.

Definition newArtifactInput (kind : ArtifactInputKind) (handle : OpaqueHandle)
    : result ArtifactInput :=
  _ ← fail_if (IsZero handle) (invalid "Artifact input" "handle must not be zero");
  Ok {| ain_kind := kind; ain_handle := handle |}.
Definition NewArtifactCandidate := newArtifactInput ArtifactInputCandidate.
Definition NewArtifactViewHandle := newArtifactInput ArtifactInputViewHandle.

Definition ArtifactInput_canonicalKey (input : ArtifactInput) : string :=
  dec_of_N (ArtifactInputKind_number input.(ain_kind)) +:+ ":" +:+ input.(ain_handle).

(** ** Intents *)

Record IntentSpec := {
  is_Kind : SemanticLabel;
  is_Payload : SemanticPayload;
  is_Consequence : Consequence;
  is_SubjectHandling : OpaqueHandle;
  is_Successors : list TargetRef;
  is_ReferenceKey : ReferenceKey;
  is_ReferenceHead : OpaqueHandle;
  is_Artifacts : list ArtifactInput;
  is_CausationHandles : list OpaqueHandle;
  is_CorrelationHandle : OpaqueHandle;
}.

Record AgentIntent := {
  ai_kind : SemanticLabel;
  ai_payload : SemanticPayload;
  ai_consequence : Consequence;
  ai_subjectHandling : OpaqueHandle;
  ai_successors : list TargetRef;
  ai_referenceKey : ReferenceKey;
  ai_referenceHead : OpaqueHandle;
  ai_artifacts : list ArtifactInput;
  ai_causationHandles : list OpaqueHandle;
  ai_correlationHandle : OpaqueHandle;
  ai_canonical : string;
}.

(** *** Wire structs *)

Record targetWire := { tw_Self : bool; tw_Alias : string }.
#[export] Instance targetWire_codec : Codec targetWire := {
  enc w := struct [omitempty "self" w.(tw_Self); omitempty "alias" w.(tw_Alias)];
  dec_value j :=
    ms ← members_of ["self"; "alias"] j;
    self ← get "self" ms; alias ← get "alias" ms;
    Ok {| tw_Self := self; tw_Alias := alias |};
  zero := {| tw_Self := false; tw_Alias := "" |};
  empty _ := false;
  enc_ok w := enc_ok w.(tw_Self) ∧ enc_ok w.(tw_Alias);
}.
#[export] Instance targetWire_laws : CodecLaws targetWire.
Proof. solve_struct. Qed.

Record artifactInputWire := { aiw_Kind : string; aiw_Handle : string }.
#[export] Instance artifactInputWire_codec : Codec artifactInputWire := {
  enc w := struct [field "kind" w.(aiw_Kind); field "handle" w.(aiw_Handle)];
  dec_value j :=
    ms ← members_of ["kind"; "handle"] j;
    kind ← get "kind" ms; handle ← get "handle" ms;
    Ok {| aiw_Kind := kind; aiw_Handle := handle |};
  zero := {| aiw_Kind := ""; aiw_Handle := "" |};
  empty _ := false;
  enc_ok w := enc_ok w.(aiw_Kind) ∧ enc_ok w.(aiw_Handle);
}.
#[export] Instance artifactInputWire_laws : CodecLaws artifactInputWire.
Proof. solve_struct. Qed.

Record intentWire := {
  iw_Kind : string; iw_Payload : string; iw_Consequence : string;
  iw_SubjectHandling : string; iw_Successors : list targetWire; iw_ReferenceKey : string;
  iw_ReferenceHead : string; iw_Artifacts : list artifactInputWire;
  iw_CausationHandles : list string; iw_CorrelationHandle : string;
}.

Definition intent_fields : list string :=
  ["kind"; "payload"; "consequence"; "subject_handling"; "successors"; "reference_key";
   "reference_head"; "artifacts"; "causation_handles"; "correlation_handle"].

#[export] Instance intentWire_codec : Codec intentWire := {
  enc w := struct [
    field "kind" w.(iw_Kind); field "payload" w.(iw_Payload);
    field "consequence" w.(iw_Consequence);
    omitempty "subject_handling" w.(iw_SubjectHandling);
    omitempty "successors" w.(iw_Successors);
    omitempty "reference_key" w.(iw_ReferenceKey);
    omitempty "reference_head" w.(iw_ReferenceHead);
    omitempty "artifacts" w.(iw_Artifacts);
    omitempty "causation_handles" w.(iw_CausationHandles);
    omitempty "correlation_handle" w.(iw_CorrelationHandle)];
  dec_value j :=
    ms ← members_of intent_fields j;
    kind ← get "kind" ms; payload ← get "payload" ms;
    consequence ← get "consequence" ms; subject ← get "subject_handling" ms;
    successors ← get "successors" ms; key ← get "reference_key" ms;
    head ← get "reference_head" ms; artifacts ← get "artifacts" ms;
    causation ← get "causation_handles" ms; correlation ← get "correlation_handle" ms;
    Ok {| iw_Kind := kind; iw_Payload := payload; iw_Consequence := consequence;
          iw_SubjectHandling := subject; iw_Successors := successors;
          iw_ReferenceKey := key; iw_ReferenceHead := head; iw_Artifacts := artifacts;
          iw_CausationHandles := causation; iw_CorrelationHandle := correlation |};
  zero := {| iw_Kind := ""; iw_Payload := ""; iw_Consequence := ""; iw_SubjectHandling := "";
    iw_Successors := []; iw_ReferenceKey := ""; iw_ReferenceHead := ""; iw_Artifacts := [];
    iw_CausationHandles := []; iw_CorrelationHandle := "" |};
  empty _ := false;
  enc_ok w := enc_ok w.(iw_Kind) ∧ enc_ok w.(iw_Payload) ∧ enc_ok w.(iw_Consequence) ∧
    enc_ok w.(iw_SubjectHandling) ∧ enc_ok w.(iw_Successors) ∧ enc_ok w.(iw_ReferenceKey) ∧
    enc_ok w.(iw_ReferenceHead) ∧ enc_ok w.(iw_Artifacts) ∧ enc_ok w.(iw_CausationHandles) ∧
    enc_ok w.(iw_CorrelationHandle);
}.
#[export] Instance intentWire_laws : CodecLaws intentWire.
Proof. solve_struct. Qed.

Definition target_wire (target : TargetRef) : targetWire :=
  {| tw_Self := target.(tr_self); tw_Alias := target.(tr_alias) |}.

Definition artifact_input_wire (artifact : ArtifactInput) : artifactInputWire :=
  {| aiw_Kind := if bool_decide (artifact.(ain_kind) = ArtifactInputViewHandle)
                 then "view_handle" else "candidate";
     aiw_Handle := artifact.(ain_handle) |}.

(** [AgentIntent.wire]. *)
Definition intent_wire (intent : AgentIntent) : intentWire := {|
  iw_Kind := intent.(ai_kind); iw_Payload := intent.(ai_payload);
  iw_Consequence := Consequence_String intent.(ai_consequence);
  iw_SubjectHandling := intent.(ai_subjectHandling);
  iw_Successors := map target_wire intent.(ai_successors);
  iw_ReferenceKey := intent.(ai_referenceKey); iw_ReferenceHead := intent.(ai_referenceHead);
  iw_Artifacts := map artifact_input_wire intent.(ai_artifacts);
  iw_CausationHandles := intent.(ai_causationHandles);
  iw_CorrelationHandle := intent.(ai_correlationHandle) |}.

(** *** [NewAgentIntent] *)

Definition validateRootIntentShape (spec : IntentSpec) : result () :=
  _ ← fail_if (negb (IsZero spec.(is_SubjectHandling)) || negb (IsZero spec.(is_ReferenceKey)) ||
               negb (IsZero spec.(is_ReferenceHead)))
        (invariant "root Intent" "cannot name a subject Handling or Reference");
  fail_if (lenZ spec.(is_Successors) =? 0)
    (invariant "root Intent" "must create at least one successor").

Definition validateSubjectIntentShape (spec : IntentSpec) : result () :=
  fail_if (IsZero spec.(is_SubjectHandling) || negb (IsZero spec.(is_ReferenceKey)) ||
           negb (IsZero spec.(is_ReferenceHead)))
    (invariant "subject Intent" "requires one subject and no Reference").

Definition validateReferencePublishShape (spec : IntentSpec) : result () :=
  fail_if (negb (IsZero spec.(is_SubjectHandling)) || negb (lenZ spec.(is_Successors) =? 0) ||
           IsZero spec.(is_ReferenceKey) || negb (IsZero spec.(is_ReferenceHead)) ||
           negb (lenZ spec.(is_Artifacts) =? 1))
    (invariant "Reference publish" "requires one new key and one Artifact only").

Definition validateReferenceSupersedeShape (spec : IntentSpec) : result () :=
  fail_if (negb (IsZero spec.(is_SubjectHandling)) || negb (lenZ spec.(is_Successors) =? 0) ||
           negb (IsZero spec.(is_ReferenceKey)) || IsZero spec.(is_ReferenceHead) ||
           negb (lenZ spec.(is_Artifacts) =? 1))
    (invariant "Reference supersede" "requires one offered head and one Artifact only").

Definition validateReferenceRetractShape (spec : IntentSpec) : result () :=
  fail_if (negb (IsZero spec.(is_SubjectHandling)) || negb (lenZ spec.(is_Successors) =? 0) ||
           negb (IsZero spec.(is_ReferenceKey)) || IsZero spec.(is_ReferenceHead) ||
           negb (lenZ spec.(is_Artifacts) =? 0))
    (invariant "Reference retract" "requires one offered head and no Artifact").

Definition validateIntentShape (spec : IntentSpec) : result () :=
  match spec.(is_Consequence) with
  | ConsequenceCreateHandlings => validateRootIntentShape spec
  | ConsequenceAdvanceHandling | ConsequenceResolveCompleted
  | ConsequenceResolveDeclined | ConsequenceResolveUnresolved => validateSubjectIntentShape spec
  | ConsequencePublishReference => validateReferencePublishShape spec
  | ConsequenceSupersedeReference => validateReferenceSupersedeShape spec
  | ConsequenceRetractReference => validateReferenceRetractShape spec
  | _ => Ok ()
  end.

Definition normalizeHandles (field : string) (handles : list OpaqueHandle) (maximum : Z)
    : result (list OpaqueHandle) :=
  _ ← fail_if (maximum <? lenZ handles) (limit field (lenZ handles) maximum);
  _ ← fail_if (existsb IsZero handles) (invalid field "contains a zero handle");
  let sorted := sort_by (λ h : string, h) handles in
  _ ← fail_if (has_adjacent_dup sorted) (invalid field "contains a duplicate handle");
  Ok sorted.

(** One step of the loop over [spec.Artifacts]; [seen] holds the earlier keys. *)
Definition check_artifact_input (seen : list string) (artifact : ArtifactInput)
    : result (list string) :=
  _ ← fail_if (negb (bool_decide (artifact.(ain_kind) = ArtifactInputCandidate)) &&
               negb (bool_decide (artifact.(ain_kind) = ArtifactInputViewHandle)))
        (invalid "Intent Artifacts" "contains an invalid input kind");
  _ ← fail_if (IsZero artifact.(ain_handle))
        (invalid "Intent Artifacts" "contains a zero handle");
  let key := ArtifactInput_canonicalKey artifact in
  _ ← fail_if (bool_decide (key ∈ seen))
        (invalid "Intent Artifacts" "contains a duplicate input");
  Ok (key :: seen).

Definition NewAgentIntent (spec : IntentSpec) : result AgentIntent :=
  _ ← fail_if (IsZero spec.(is_Kind)) (invalid "Intent kind" "must not be zero");
  _ ← fail_if (negb (agentDeclarable spec.(is_Consequence)))
        (invalid "Intent consequence" "must be an Agent-declarable consequence");
  _ ← validateIntentShape spec;
  _ ← fail_if (MaxSuccessors <? lenZ spec.(is_Successors))
        (limit "Intent successors" (lenZ spec.(is_Successors)) MaxSuccessors);
  _ ← fail_if (existsb TargetRef_IsZero spec.(is_Successors))
        (invalid "Intent successors" "contains a zero target");
  _ ← fail_if (has_dup (map TargetRef_canonicalKey spec.(is_Successors)))
        (invalid "Intent successors" "contains a duplicate target");
  _ ← fail_if (MaxArtifactInputs <? lenZ spec.(is_Artifacts))
        (limit "Intent Artifacts" (lenZ spec.(is_Artifacts)) MaxArtifactInputs);
  _ ← foldR check_artifact_input [] spec.(is_Artifacts);
  causation ← normalizeHandles "Intent causation" spec.(is_CausationHandles) MaxCausationHandles;
  let intent := {| ai_kind := spec.(is_Kind); ai_payload := spec.(is_Payload);
    ai_consequence := spec.(is_Consequence); ai_subjectHandling := spec.(is_SubjectHandling);
    ai_successors := spec.(is_Successors); ai_referenceKey := spec.(is_ReferenceKey);
    ai_referenceHead := spec.(is_ReferenceHead); ai_artifacts := spec.(is_Artifacts);
    ai_causationHandles := causation; ai_correlationHandle := spec.(is_CorrelationHandle);
    ai_canonical := "" |} in
  '(canonical, _) ← canonicalJSON (intent_wire intent);
  _ ← fail_if (MaxIntentCanonicalBytes <? slen canonical)
        (limit "Intent canonical bytes" (slen canonical) MaxIntentCanonicalBytes);
  Ok {| ai_kind := spec.(is_Kind); ai_payload := spec.(is_Payload);
    ai_consequence := spec.(is_Consequence); ai_subjectHandling := spec.(is_SubjectHandling);
    ai_successors := spec.(is_Successors); ai_referenceKey := spec.(is_ReferenceKey);
    ai_referenceHead := spec.(is_ReferenceHead); ai_artifacts := spec.(is_Artifacts);
    ai_causationHandles := causation; ai_correlationHandle := spec.(is_CorrelationHandle);
    ai_canonical := canonical |}.

(** *** [ParseAgentIntentJSON] *)

Definition parseOptionalHandle (field value : string) : result OpaqueHandle :=
  if is_empty value then Ok "" else wrap_error field (NewOpaqueHandle value).

Definition parseOptionalReferenceKey (value : string) : result ReferenceKey :=
  if is_empty value then Ok "" else NewReferenceKey value.

(** The same decision is written twice in the source, for Intents and for Views,
    with its own [field] in the error. *)
Definition parse_target (field : string) (wire : targetWire) : result TargetRef :=
  _ ← fail_if (eqb wire.(tw_Self) (negb (is_empty wire.(tw_Alias))))
        (invalid field "must contain exactly one of self or alias");
  if wire.(tw_Self) then Ok SelfTarget
  else alias ← NewOpaqueHandle wire.(tw_Alias); AliasTarget alias.

Definition parseTargets (wires : list targetWire) : result (list TargetRef) :=
  mapR (parse_target "Intent target") wires.

Definition parseArtifactInput (wire : artifactInputWire) : result ArtifactInput :=
  handle ← NewOpaqueHandle wire.(aiw_Handle);
  if String.eqb wire.(aiw_Kind) "candidate" then NewArtifactCandidate handle
  else if String.eqb wire.(aiw_Kind) "view_handle" then NewArtifactViewHandle handle
  else Err (invalid "Intent Artifact kind" "is not candidate or view_handle").

Definition parseArtifactInputs (wires : list artifactInputWire) : result (list ArtifactInput) :=
  mapR parseArtifactInput wires.

Definition parseHandles (field : string) (values : list string) : result (list OpaqueHandle) :=
  mapR (λ value, wrap_error field (NewOpaqueHandle value)) values.

Definition intentFromWire (wire : intentWire) : result AgentIntent :=
  kind ← NewSemanticLabel wire.(iw_Kind);
  payload ← NewSemanticPayload wire.(iw_Payload);
  consequence ← parseConsequence wire.(iw_Consequence);
  subject ← parseOptionalHandle "subject Handling" wire.(iw_SubjectHandling);
  referenceHead ← parseOptionalHandle "Reference head" wire.(iw_ReferenceHead);
  correlation ← parseOptionalHandle "correlation" wire.(iw_CorrelationHandle);
  referenceKey ← parseOptionalReferenceKey wire.(iw_ReferenceKey);
  successors ← parseTargets wire.(iw_Successors);
  artifacts ← parseArtifactInputs wire.(iw_Artifacts);
  causation ← parseHandles "causation" wire.(iw_CausationHandles);
  NewAgentIntent {|
    is_Kind := kind; is_Payload := payload; is_Consequence := consequence;
    is_SubjectHandling := subject; is_Successors := successors;
    is_ReferenceKey := referenceKey; is_ReferenceHead := referenceHead;
    is_Artifacts := artifacts; is_CausationHandles := causation;
    is_CorrelationHandle := correlation |}.

(** [json.Unmarshal] into [[]map[string]json.RawMessage]: an array (or null) of
    objects (or nulls). *)
Definition as_object (j : json) : result (list (string * json)) :=
  match j with JNull => Ok [] | JObj ms => Ok ms | _ => Err json_error end.
Definition as_object_array (j : json) : result (list (list (string * json))) :=
  match j with JNull => Ok [] | JArr vs => mapR as_object vs | _ => Err json_error end.

Definition requireObjectArrayKeys (field : string) (raw : json) (keys : list string) : result () :=
  objects ← wrap_error ("agency: inspect " +:+ field +:+ " fields") (as_object_array raw);
  fail_if (negb (forallb (forallb (λ m : string * json, bool_decide (m.1 ∈ keys))) objects))
    (invalid field "contains a non-canonical field name").

Definition require_keys_if_present (object : list (string * json)) (name field : string)
    (keys : list string) : result () :=
  match assoc name object with
  | Some raw => requireObjectArrayKeys field raw keys
  | None => Ok ()
  end.

(** Duplicate keys were rejected before, so the members are a map. *)
Definition requireExactIntentWireKeys (data : string) : result () :=
  object ← wrap_error "agency: inspect Agent Intent fields" (v ← parse_all data; as_object v);
  _ ← fail_if (negb (forallb (λ m : string * json, bool_decide (m.1 ∈ intent_fields)) object))
        (invalid "Intent JSON" "contains a non-canonical field name");
  _ ← fail_if (negb (forallb (λ k, bool_decide (k ∈ object.*1)) ["kind"; "payload"; "consequence"]))
        (invalid "Intent JSON" "omits a required field");
  _ ← require_keys_if_present object "successors" "Intent successor" ["self"; "alias"];
  require_keys_if_present object "artifacts" "Intent Artifact" ["kind"; "handle"].

Definition ParseAgentIntentJSON (data : string) : result AgentIntent :=
  _ ← fail_if (slen data =? 0) (invalid "Intent JSON" "must not be empty");
  _ ← fail_if (MaxIntentCanonicalBytes <? slen data)
        (limit "Intent JSON bytes" (slen data) MaxIntentCanonicalBytes);
  _ ← rejectDuplicateJSONKeys "Agent Intent JSON" data;
  _ ← requireExactIntentWireKeys data;
  '(wire, rest) ← wrap_error "agency: decode Agent Intent"
    ('(v, rest) ← parse_first None data; w ← dec v; Ok (w, rest));
  _ ← requireJSONEOF "Agent Intent JSON" rest;
  intentFromWire wire.

(** ** Well-formed Intents *)

Definition opt_handle_ok (h : OpaqueHandle) : Prop := h = "" ∨ handle_ok h = true.

Definition target_wf (t : TargetRef) : Prop :=
  t = SelfTarget ∨
  (t.(tr_self) = false ∧ handle_ok t.(tr_alias) = true ∧ t.(tr_alias) ≠ "self").

Definition artifact_input_wf (a : ArtifactInput) : Prop :=
  a.(ain_kind) ≠ ArtifactInputInvalid ∧ handle_ok a.(ain_handle) = true.

(** A specification whose parts came out of their own constructors: the only
    ones the exported API lets a caller build. *)
Record spec_wf (spec : IntentSpec) : Prop := {
  sw_kind : label_ok spec.(is_Kind) = true;
  sw_payload : payload_ok spec.(is_Payload) = true;
  sw_subject : opt_handle_ok spec.(is_SubjectHandling);
  sw_successors : Forall target_wf spec.(is_Successors);
  sw_key : spec.(is_ReferenceKey) = "" ∨ key_ok spec.(is_ReferenceKey) = true;
  sw_head : opt_handle_ok spec.(is_ReferenceHead);
  sw_artifacts : Forall artifact_input_wf spec.(is_Artifacts);
  sw_causation : Forall (λ h, handle_ok h = true) spec.(is_CausationHandles);
  sw_correlation : opt_handle_ok spec.(is_CorrelationHandle);
}.

Lemma parseConsequence_String c :
  Consequence_Valid c = true → parseConsequence (Consequence_String c) = Ok c.
Proof. by destruct c. Qed.

Lemma parseConsequence_Ok s c :
  parseConsequence s = Ok c → Consequence_String c = s ∧ Consequence_Valid c = true.
Proof.
  unfold parseConsequence. intros H. inv_res.
  destruct (filter _ _) as [|c' cs] eqn:E; [done|].
  match goal with H : head _ = Some _ |- _ => injection H as -> end.
  assert (Hin : c ∈ filter (λ c, Consequence_String c = s) all_consequences)
    by (rewrite E; constructor).
  apply list_elem_of_filter in Hin as [<- Hin]. split; [done|].
  rewrite Forall_forall in Hin || idtac. by destruct c; vm_compute in Hin |- *; try done;
    repeat (apply elem_of_cons in Hin as [?|Hin]; [discriminate|]); apply elem_of_nil in Hin.
Qed.

Lemma agentDeclarable_Valid c : agentDeclarable c = true → Consequence_Valid c = true.
Proof. by destruct c. Qed.

Lemma opt_handle_utf8 h : opt_handle_ok h → valid_utf8 h = true.
Proof. intros [->|H]; [done|by eapply token_ok_utf8]. Qed.

Lemma parseOptionalHandle_ok field h : opt_handle_ok h → parseOptionalHandle field h = Ok h.
Proof.
  intros [->|H]; [done|]. unfold parseOptionalHandle.
  pose proof (token_ok_nonempty _ _ _ H) as Hne%is_empty_false. rewrite Hne.
  by rewrite (proj2 (NewOpaqueHandle_Ok h h)).
Qed.

Lemma parseOptionalHandle_Ok field v h :
  parseOptionalHandle field v = Ok h → h = v ∧ opt_handle_ok v.
Proof.
  unfold parseOptionalHandle. destruct (is_empty v) eqn:E.
  - apply is_empty_true in E as ->. intros [= <-]. split; [done|by left].
  - intros H. inv_res. apply NewOpaqueHandle_Ok in H as [-> H]. split; [done|by right].
Qed.

Lemma parseTarget_ok f t : target_wf t → parse_target f (target_wire t) = Ok t.
Proof.
  intros [->|(Hs & Hh & Hself)]; [done|]. unfold parse_target, target_wire; simpl.
  pose proof (token_ok_nonempty _ _ _ Hh) as Hne%is_empty_false.
  rewrite Hs, Hne. cbn [eqb negb fail_if mbind result_bind].
  rewrite (proj2 (NewOpaqueHandle_Ok _ _) (conj eq_refl Hh)). cbn [mbind result_bind].
  unfold AliasTarget, IsZero. rewrite Hne, bool_decide_eq_false_2 by done.
  destruct t; simpl in *; by subst.
Qed.

Lemma parseTarget_Ok f w t : parse_target f w = Ok t → target_wf t.
Proof.
  unfold parse_target, AliasTarget. intros H. inv_res. destruct (tw_Self w).
  - inv_res. by left.
  - inv_res. right. simpl.
    match goal with H : NewOpaqueHandle _ = _ |- _ => apply NewOpaqueHandle_Ok in H as [-> ?] end.
    done.
Qed.

Lemma parseArtifactInput_ok a :
  artifact_input_wf a → parseArtifactInput (artifact_input_wire a) = Ok a.
Proof.
  destruct a as [kind handle]. intros [Hk Hh]. unfold parseArtifactInput, artifact_input_wire; simpl in *.
  rewrite (proj2 (NewOpaqueHandle_Ok _ _) (conj eq_refl Hh)). cbn [mbind result_bind].
  unfold NewArtifactCandidate, NewArtifactViewHandle, newArtifactInput, IsZero.
  rewrite (proj2 (is_empty_false _) (token_ok_nonempty _ _ _ Hh)).
  by destruct kind.
Qed.

Lemma parseArtifactInput_Ok w a : parseArtifactInput w = Ok a → artifact_input_wf a.
Proof.
  unfold parseArtifactInput, NewArtifactCandidate, NewArtifactViewHandle, newArtifactInput.
  intros H. inv_res.
  match goal with H : NewOpaqueHandle _ = _ |- _ => apply NewOpaqueHandle_Ok in H as [-> ?] end.
  repeat (destruct (String.eqb _ _)); inv_res; done.
Qed.

Lemma string_id_sorted_antisym : AntiSymm (=) (key_le (λ h : string, h)).
Proof. intros x y. unfold key_le. apply (anti_symm String.le). Qed.

Lemma normalizeHandles_Ok field hs maximum ss :
  normalizeHandles field hs maximum = Ok ss ↔
  ss = sort_by (λ h, h) hs ∧ lenZ hs <= maximum ∧ Forall (λ h, h ≠ "") hs ∧ NoDup hs.
Proof.
  pose proof string_id_sorted_antisym.
  assert (Hz : existsb IsZero hs = false ↔ Forall (λ h, h ≠ "") hs).
  { rewrite <- not_true_iff_false, existsb_exists, Forall_forall. unfold IsZero.
    setoid_rewrite is_empty_true. setoid_rewrite list_elem_of_In. naive_solver. }
  assert (Hd : has_adjacent_dup (sort_by (λ h : string, h) hs) = false ↔ NoDup hs).
  { rewrite (has_adjacent_dup_NoDup (key_le (λ h : string, h))) by apply sort_by_sorted.
    by rewrite sort_by_perm. }
  unfold normalizeHandles. split.
  - intros H'. inv_res. split_and!; [done| |by apply Hz|by apply Hd].
    by apply Z.ltb_ge.
  - intros (-> & Hl & Hz' & Hd'). rewrite (proj2 (Z.ltb_ge _ _)) by done.
    rewrite (proj2 Hz Hz'), (proj2 Hd Hd'). done.
Qed.

(** Normalization is idempotent. *)
Lemma normalizeHandles_idem field hs maximum ss :
  normalizeHandles field hs maximum = Ok ss → normalizeHandles field ss maximum = Ok ss.
Proof.
  rewrite !normalizeHandles_Ok. intros (-> & Hl & Hz & Hd).
  pose proof (sort_by_perm (λ h : string, h) hs) as Hp. split_and!.
  - symmetry. apply sort_by_unique; [done|done|apply sort_by_sorted].
  - unfold lenZ in *. by rewrite Hp.
  - by rewrite Hp.
  - by rewrite Hp.
Qed.

(** Replacing the causation handles by their normal form changes nothing. *)
Definition with_causation (spec : IntentSpec) (hs : list OpaqueHandle) : IntentSpec := {|
  is_Kind := spec.(is_Kind); is_Payload := spec.(is_Payload);
  is_Consequence := spec.(is_Consequence); is_SubjectHandling := spec.(is_SubjectHandling);
  is_Successors := spec.(is_Successors); is_ReferenceKey := spec.(is_ReferenceKey);
  is_ReferenceHead := spec.(is_ReferenceHead); is_Artifacts := spec.(is_Artifacts);
  is_CausationHandles := hs; is_CorrelationHandle := spec.(is_CorrelationHandle) |}.

Lemma NewAgentIntent_normal spec i :
  NewAgentIntent spec = Ok i →
  NewAgentIntent (with_causation spec i.(ai_causationHandles)) = Ok i.
Proof.
  unfold NewAgentIntent. intros H.
  replace (validateIntentShape (with_causation spec (ai_causationHandles i)))
    with (validateIntentShape spec) by done.
  cbn [is_Kind is_Payload is_Consequence is_SubjectHandling is_Successors is_ReferenceKey
       is_ReferenceHead is_Artifacts is_CausationHandles is_CorrelationHandle with_causation].
  do 7 (apply bind_Ok in H as ([] & Hs & H); rewrite Hs; cbn [mbind result_bind]; clear Hs).
  apply bind_Ok in H as (seen & Hs & H). rewrite Hs. cbn [mbind result_bind]. clear Hs.
  apply bind_Ok in H as (ss & Hn & H).
  assert (ai_causationHandles i = ss) as -> by (inv_res; done).
  rewrite (normalizeHandles_idem _ _ _ _ Hn). done.
Qed.

Definition spec_of (i : AgentIntent) : IntentSpec := {|
  is_Kind := i.(ai_kind); is_Payload := i.(ai_payload); is_Consequence := i.(ai_consequence);
  is_SubjectHandling := i.(ai_subjectHandling); is_Successors := i.(ai_successors);
  is_ReferenceKey := i.(ai_referenceKey); is_ReferenceHead := i.(ai_referenceHead);
  is_Artifacts := i.(ai_artifacts); is_CausationHandles := i.(ai_causationHandles);
  is_CorrelationHandle := i.(ai_correlationHandle) |}.

(** What every constructed Intent satisfies. *)
Record intent_wf (i : AgentIntent) : Prop := {
  iwf_spec : spec_wf (spec_of i);
  iwf_declarable : agentDeclarable i.(ai_consequence) = true;
  iwf_rebuild : NewAgentIntent (spec_of i) = Ok i;
  iwf_canonical : i.(ai_canonical) = canonical_bytes (intent_wire i);
  iwf_size : slen i.(ai_canonical) <= MaxIntentCanonicalBytes;
}.

Lemma NewAgentIntent_wf spec i : spec_wf spec → NewAgentIntent spec = Ok i → intent_wf i.
Proof.
  intros Hspec Hnew. pose proof (NewAgentIntent_normal _ _ Hnew) as Hback.
  unfold NewAgentIntent, canonicalJSON in Hnew. inv_res.
  match goal with H : normalizeHandles _ _ _ = _ |- _ =>
    apply normalizeHandles_Ok in H as (-> & _ & _ & _) end.
  split; cbn; [|done|exact Hback|done|by apply Z.ltb_ge].
  destruct Hspec. split; cbn; try done. by rewrite sort_by_perm.
Qed.

Lemma target_wire_ok t : target_wf t → enc_ok (target_wire t).
Proof.
  intros [->|(_ & Hh & _)]; [done|]. split; [done|]. by eapply token_ok_utf8.
Qed.

Lemma artifact_input_wire_ok a : artifact_input_wf a → enc_ok (artifact_input_wire a).
Proof.
  intros [_ Hh]. split; [|by eapply token_ok_utf8]. simpl. by destruct (bool_decide _).
Qed.

Lemma intent_wire_ok i : spec_wf (spec_of i) → enc_ok (intent_wire i).
Proof.
  intros []. repeat split; cbn -[valid_utf8] in *.
  - by eapply token_ok_utf8.
  - by apply payload_ok_utf8.
  - by destruct (ai_consequence i).
  - by apply opt_handle_utf8.
  - apply Forall_map. eapply Forall_impl; [done|]. apply target_wire_ok.
  - destruct sw_key0 as [->|]; [done|by eapply token_ok_utf8].
  - by apply opt_handle_utf8.
  - apply Forall_map. eapply Forall_impl; [done|]. apply artifact_input_wire_ok.
  - eapply Forall_impl; [done|]. intros h. apply token_ok_utf8.
  - by apply opt_handle_utf8.
Qed.

Lemma intentFromWire_wire i : intent_wf i → intentFromWire (intent_wire i) = Ok i.
Proof.
  intros [[] Hdecl Hback _ _]. unfold intentFromWire. cbn in * |-.
  cbn [intent_wire iw_Kind iw_Payload iw_Consequence iw_SubjectHandling iw_Successors
       iw_ReferenceKey iw_ReferenceHead iw_Artifacts iw_CausationHandles iw_CorrelationHandle].
  rewrite (proj2 (NewSemanticLabel_Ok _ _) (conj eq_refl sw_kind0)); cbn [mbind result_bind].
  rewrite (proj2 (NewSemanticPayload_Ok _ _) (conj eq_refl sw_payload0)); cbn [mbind result_bind].
  rewrite parseConsequence_String by (by apply agentDeclarable_Valid); cbn [mbind result_bind].
  rewrite !parseOptionalHandle_ok by done; cbn [mbind result_bind].
  replace (parseOptionalReferenceKey (ai_referenceKey i)) with (@Ok string (ai_referenceKey i)).
  2:{ destruct sw_key0 as [->|Hk]; [done|]. unfold parseOptionalReferenceKey.
      rewrite (proj2 (is_empty_false _) (token_ok_nonempty _ _ _ Hk)).
      by rewrite (proj2 (NewReferenceKey_Ok _ _) (conj eq_refl Hk)). }
  cbn [mbind result_bind]. unfold parseTargets, parseArtifactInputs, parseHandles.
  rewrite (mapR_inverse (parse_target "Intent target") target_wire); cbn [mbind result_bind].
  2:{ eapply Forall_impl; [done|]. apply parseTarget_ok. }
  rewrite (mapR_inverse parseArtifactInput artifact_input_wire); cbn [mbind result_bind].
  2:{ eapply Forall_impl; [done|]. apply parseArtifactInput_ok. }
  rewrite <- (list_fmap_id (ai_causationHandles i)), mapR_inverse; cbn [mbind result_bind].
  2:{ eapply Forall_impl; [done|]. intros h Hh. unfold id.
      by rewrite (proj2 (NewOpaqueHandle_Ok _ _) (conj eq_refl Hh)). }
  exact Hback.
Qed.

Lemma intentFromWire_wf w i : intentFromWire w = Ok i → intent_wf i.
Proof.
  unfold intentFromWire, parseTargets, parseArtifactInputs, parseHandles.
  intros H. do 10 (apply bind_Ok in H as (? & ? & H)).
  eapply NewAgentIntent_wf; [|exact H].
  repeat match goal with
  | H : NewSemanticLabel _ = _ |- _ => apply NewSemanticLabel_Ok in H as [-> ?]
  | H : NewSemanticPayload _ = _ |- _ => apply NewSemanticPayload_Ok in H as [-> ?]
  | H : parseOptionalHandle _ _ = _ |- _ => apply parseOptionalHandle_Ok in H as [-> ?]
  | H : mapR _ _ = Ok _ |- _ => apply mapR_Ok in H
  end.
  split; cbn; try done.
  - eapply Forall2_Forall_r; [done|]. apply Forall_forall. intros w' _ t. apply parseTarget_Ok.
  - match goal with H : parseOptionalReferenceKey _ = Ok _ |- _ =>
      revert H; unfold parseOptionalReferenceKey; destruct (is_empty _) end.
    + intros [= <-]. by left.
    + intros [-> ?]%NewReferenceKey_Ok. by right.
  - eapply Forall2_Forall_r; [done|]. apply Forall_forall. intros w' _ t. apply parseArtifactInput_Ok.
  - eapply Forall2_Forall_r; [done|]. apply Forall_forall. intros w' _ t Ht.
    inv_res. by apply NewOpaqueHandle_Ok in Ht as [-> ?].
Qed.

(** The exact-field inspection passes on every canonical Intent. *)
Lemma keys_if_present_struct fs name field keys (ws : list json) :
  NoDup fs.*1 →
  assoc name fs = Some (if ws is [] then None else Some (JArr ws)) →
  Forall (λ w, ∃ fs', w = struct fs' ∧ ∀ k, k ∈ fs'.*1 → k ∈ keys) ws →
  require_keys_if_present (present fs) name field keys = Ok ().
Proof.
  intros Hnd Ha Hws. unfold require_keys_if_present. rewrite assoc_present, Ha by done.
  destruct ws as [|w ws]; [done|]. cbn [mjoin option_join]. unfold requireObjectArrayKeys.
  assert (Hm : ∃ objs, as_object_array (JArr (w :: ws)) = Ok objs ∧
    forallb (forallb (λ m : string * json, bool_decide (m.1 ∈ keys))) objs = true).
  { cbn [as_object_array]. clear Ha. induction Hws as [|w' ws' (fs' & -> & Hk) Hws (objs & IH1 & IH2)].
    - by exists [].
    - exists (present fs' :: objs). cbn [mapR as_object struct mbind result_bind].
      rewrite IH1. cbn [mbind result_bind forallb]. split; [done|]. rewrite IH2, andb_true_r.
      apply forallb_forall. intros [k j] Hin%list_elem_of_In. apply bool_decide_eq_true_2, Hk, present_keys.
      apply list_elem_of_fmap. by exists (k, j). }
  destruct Hm as (objs & -> & Hall). cbn [wrap_error mbind result_bind]. by rewrite Hall.
Qed.

Lemma exact_keys_canonical i :
  spec_wf (spec_of i) →
  requireExactIntentWireKeys (canonical_bytes (intent_wire i)) = Ok ().
Proof.
  intros Hok%intent_wire_ok. unfold requireExactIntentWireKeys.
  unfold canonical_bytes. rewrite parse_all_marshal by (by apply enc_wf).
  cbn [mbind result_bind].
  match goal with |- context [enc ?w] =>
    let e := eval cbn -[struct field omitempty] in (enc w) in
    change (enc w) with e end.
  cbn [as_object struct wrap_error mbind result_bind].
  match goal with |- context [present ?fs] => set (fields := fs) end.
  assert (Hnd : NoDup fields.*1) by struct_nodup.
  replace (forallb _ (present fields)) with true.
  2:{ symmetry. apply forallb_forall. intros [k j] Hin%list_elem_of_In.
      apply bool_decide_eq_true_2. change intent_fields with fields.*1. apply present_keys.
      apply list_elem_of_fmap. by exists (k, j). }
  cbn [negb fail_if mbind result_bind].
  replace (forallb _ ["kind"; "payload"; "consequence"]) with true.
  2:{ symmetry. apply forallb_forall. intros k Hin. apply bool_decide_eq_true_2.
      subst fields. cbn. destruct Hin as [<-|[<-|[<-|[]]]]; set_solver. }
  cbn [negb fail_if mbind result_bind].
  rewrite (keys_if_present_struct _ "successors" _ _ (map enc (map target_wire (ai_successors i)))); [|done| |].
  - cbn [mbind result_bind].
    apply (keys_if_present_struct _ _ _ _ (map enc (map artifact_input_wire (ai_artifacts i)))); [done| |].
    + cbn. by destruct (ai_artifacts i).
    + apply Forall_map, Forall_true. intros w. by eexists.
  - cbn. by destruct (ai_successors i).
  - apply Forall_map, Forall_true. intros w. by eexists.
Qed.

Lemma ParseAgentIntentJSON_canonical i :
  intent_wf i → ParseAgentIntentJSON i.(ai_canonical) = Ok i.
Proof.
  intros Hi. pose proof Hi as [Hspec _ _ Hcan Hsize].
  pose proof (intent_wire_ok i Hspec) as Hok. unfold ParseAgentIntentJSON.
  rewrite Hcan in Hsize |- *.
  assert (Hne : slen (canonical_bytes (intent_wire i)) ≠ 0).
  { pose proof (marshal_nonempty _ (enc_wf _ Hok)) as Hne. unfold canonical_bytes, slen.
    by destruct (marshal (enc (intent_wire i))). }
  rewrite (proj2 (Z.eqb_neq _ _) Hne), (proj2 (Z.ltb_ge _ _) Hsize).
  unfold rejectDuplicateJSONKeys. rewrite !canonical_bytes_parse by done.
  cbn [fail_if mbind result_bind wrap_error]. rewrite exact_keys_canonical by done.
  cbn [mbind result_bind]. rewrite dec_enc by done. cbn [mbind result_bind].
  by apply intentFromWire_wire.
Qed.

Lemma ParseAgentIntentJSON_wf data i : ParseAgentIntentJSON data = Ok i → intent_wf i.
Proof.
  unfold ParseAgentIntentJSON. intros H. do 4 (apply bind_Ok in H as (? & ? & H)).
  apply bind_Ok in H as ([wire rest] & _ & H). apply bind_Ok in H as (? & _ & H).
  by eapply intentFromWire_wf.
Qed.
