(* ===== verification/Bound.v ===== *)
(** Machine-resolved authority: the value types of internal/agency/authority.go
    and artifact_binding.go, delivery identities, and the sealed request
    [BoundIntent] with its canonical encodings (bound_intent.go, bound_wire.go). *)

From Stdlib Require Import Lia.
From S2P Require Import Prelude Utf8 Json Wire Sha256 Time Value Intent.

#[local] Open Scope Z_scope.
#[local] Arguments String.append : simpl nomatch.

(** ** Delivery identities (peer_delivery.go): the digest behind [delivery:] *)

Abbreviation DeliveryID := string (only parsing).

Definition zero_DeliveryID : DeliveryID := zero_digest.
Definition DeliveryID_String (id : DeliveryID) : string := "delivery:" +:+ hex_encode id.
Definition DeliveryID_IsZero (id : DeliveryID) : bool := Digest_IsZero id.

Definition ParseDeliveryID (value : string) : result DeliveryID :=
  tail ← of_option (strip_prefix "delivery:" value)
    (invalid "DeliveryID" "must use delivery:<lowercase-hex>");
  or_error (ParseDigest ("sha256:" +:+ tail))
    (invalid "DeliveryID" "must use 64 lowercase hexadecimal characters").

(** ** Attachments *)

Record Attachment := {
  at_id : AttachmentID;
  at_principal : AgentPrincipalID;
  at_mayInitiate : bool;
  at_issuedAt : Time;
  at_expiresAt : Time;
}.
#[export] Instance Attachment_eq_dec : EqDecision Attachment.
Proof. solve_decision. Defined.

Definition NewAttachment (id : AttachmentID) (principal : AgentPrincipalID) (mayInitiate : bool)
    (issuedAt expiresAt : Time) : result Attachment :=
  _ ← fail_if (IsZero id || IsZero principal)
        (invalid "attachment" "ID and Principal are required");
  issued ← canonicalTime "attachment issued time" issuedAt;
  expires ← canonicalTime "attachment expiry" expiresAt;
  _ ← fail_if (negb (issued <? expires))
        (invariant "attachment" "expiry must be after issue time");
  Ok {| at_id := id; at_principal := principal; at_mayInitiate := mayInitiate;
        at_issuedAt := issued; at_expiresAt := expires |}.

(** ** Subjects, References, targets, provenance *)

Record SubjectBinding := {
  sb_handle : OpaqueHandle;
  sb_handlingID : HandlingID;
  sb_head : EventRef;
  sb_fence : Z;
  sb_observationRevision : Z;
}.
#[export] Instance SubjectBinding_eq_dec : EqDecision SubjectBinding.
Proof. solve_decision. Defined.

Definition NewSubjectBinding (handle : OpaqueHandle) (handlingID : HandlingID) (head : EventRef)
    (fence observationRevision : Z) : result SubjectBinding :=
  _ ← fail_if (IsZero handle || IsZero handlingID || EventRef_IsZero head || (fence =? 0))
        (invalid "subject binding" "handle, Handling, head, and positive fence are required");
  Ok {| sb_handle := handle; sb_handlingID := handlingID; sb_head := head; sb_fence := fence;
        sb_observationRevision := observationRevision |}.

Record ReferenceExpectation := {
  re_absent : bool;
  re_handle : OpaqueHandle;
  re_key : ReferenceKey;
  re_head : EventRef;
}.
#[export] Instance ReferenceExpectation_eq_dec : EqDecision ReferenceExpectation.
Proof. solve_decision. Defined.

Definition ExpectAbsentReference (key : ReferenceKey) : result ReferenceExpectation :=
  _ ← fail_if (IsZero key) (invalid "Reference expectation" "key is required");
  Ok {| re_absent := true; re_handle := ""; re_key := key; re_head := zero_EventRef |}.

Definition ExpectReferenceHead (handle : OpaqueHandle) (key : ReferenceKey) (head : EventRef)
    : result ReferenceExpectation :=
  _ ← fail_if (IsZero handle || IsZero key || EventRef_IsZero head)
        (invalid "Reference expectation" "handle, key, and head are required");
  Ok {| re_absent := false; re_handle := handle; re_key := key; re_head := head |}.

Inductive TargetDestination :=
| TargetDestinationInvalid | TargetDestinationLocal | TargetDestinationRemote.
#[export] Instance TargetDestination_eq_dec : EqDecision TargetDestination.
Proof. solve_decision. Defined.

Record ResolvedTarget := {
  rt_requested : TargetRef;
  rt_destination : TargetDestination;
  rt_localPrincipal : AgentPrincipalID;
  rt_remoteRoute : RouteID;
  rt_remoteAlias : OpaqueHandle;
}.
#[export] Instance ResolvedTarget_eq_dec : EqDecision ResolvedTarget.
Proof. solve_decision. Defined.

Definition ResolveLocalTarget (requested : TargetRef) (principal : AgentPrincipalID)
    : result ResolvedTarget :=
  _ ← fail_if (TargetRef_IsZero requested || IsZero principal)
        (invalid "resolved local target" "request and Principal are required");
  Ok {| rt_requested := requested; rt_destination := TargetDestinationLocal;
        rt_localPrincipal := principal; rt_remoteRoute := ""; rt_remoteAlias := "" |}.

Definition ResolveRemoteTarget (requested : TargetRef) (route : RouteID) (alias : OpaqueHandle)
    : result ResolvedTarget :=
  _ ← fail_if (TargetRef_IsZero requested || tr_self requested || IsZero route || IsZero alias)
        (invalid "resolved remote target" "non-self request, route, and alias are required");
  Ok {| rt_requested := requested; rt_destination := TargetDestinationRemote;
        rt_localPrincipal := ""; rt_remoteRoute := route; rt_remoteAlias := alias |}.

(** [destinationKey]: a target up to the alias it was requested by. *)
Definition destinationKey (target : ResolvedTarget)
    : TargetDestination * AgentPrincipalID * RouteID * OpaqueHandle :=
  (target.(rt_destination), target.(rt_localPrincipal), target.(rt_remoteRoute),
   target.(rt_remoteAlias)).

Record ProvenanceOffer := { po_handle : OpaqueHandle; po_event : EventRef }.

Definition NewProvenanceOffer (handle : OpaqueHandle) (event : EventRef) : result ProvenanceOffer :=
  _ ← fail_if (IsZero handle || EventRef_IsZero event)
        (invalid "provenance offer" "handle and Event are required");
  Ok {| po_handle := handle; po_event := event |}.

(** ** Artifacts *)

Record CapturedCandidate := {
  cc_operation : OperationKey; cc_input : ArtifactInput; cc_digest : Digest }.

Definition NewCapturedCandidate (operation : OperationKey) (input : ArtifactInput) (digest : Digest)
    : result CapturedCandidate :=
  _ ← fail_if (IsZero operation || negb (bool_decide (input.(ain_kind) = ArtifactInputCandidate)) ||
               IsZero input.(ain_handle) || Digest_IsZero digest)
        (invalid "captured candidate" "operation, candidate input, and verified digest are required");
  Ok {| cc_operation := operation; cc_input := input; cc_digest := digest |}.

Record ViewArtifactOffer := { vao_handle : OpaqueHandle; vao_digest : Digest }.

Definition NewViewArtifactOffer (handle : OpaqueHandle) (digest : Digest) : result ViewArtifactOffer :=
  _ ← fail_if (IsZero handle || Digest_IsZero digest)
        (invalid "View Artifact offer" "handle and verified digest are required");
  Ok {| vao_handle := handle; vao_digest := digest |}.

Record ResolvedArtifact := { ra_input : ArtifactInput; ra_digest : Digest }.

Definition NewResolvedArtifact (input : ArtifactInput) (digest : Digest) : result ResolvedArtifact :=
  _ ← fail_if ((negb (bool_decide (input.(ain_kind) = ArtifactInputCandidate)) &&
                negb (bool_decide (input.(ain_kind) = ArtifactInputViewHandle))) ||
               IsZero input.(ain_handle) || Digest_IsZero digest)
        (invalid "resolved Artifact" "input and verified digest are required");
  Ok {| ra_input := input; ra_digest := digest |}.

(** ** Wire structs (bound_wire.go) *)

Record subjectBindingWire := {
  sbw_HandlingID : string;
  sbw_Head : eventRefWire;
  sbw_Fence : Z;
  sbw_ObservationRevision : Z;
}.
#[export] Instance subjectBindingWire_codec : Codec subjectBindingWire := {
  enc w := struct [
    field "handling_id" w.(sbw_HandlingID); field "head" w.(sbw_Head);
    @field Z uint64_codec "fence" w.(sbw_Fence);
    @field Z uint64_codec "observation_revision" w.(sbw_ObservationRevision)];
  dec_value j :=
    ms ← members_of
      ["handling_id"; "head"; "fence"; "observation_revision"] j;
    xHandlingID ← get "handling_id" ms; xHead ← get "head" ms;
    xFence ← @get Z uint64_codec "fence" ms;
    xObservationRevision ← @get Z uint64_codec "observation_revision" ms;
    Ok {| sbw_HandlingID := xHandlingID; sbw_Head := xHead; sbw_Fence := xFence;
          sbw_ObservationRevision := xObservationRevision |};
  zero := {| sbw_HandlingID := zero; sbw_Head := zero; sbw_Fence := 0%Z;
    sbw_ObservationRevision := 0%Z |};
  empty _ := false;
  enc_ok w := enc_ok w.(sbw_HandlingID) ∧ enc_ok w.(sbw_Head) ∧ @enc_ok Z uint64_codec w.(sbw_Fence) ∧
    @enc_ok Z uint64_codec w.(sbw_ObservationRevision);
}.
#[export] Instance subjectBindingWire_laws : CodecLaws subjectBindingWire.
Proof. solve_struct. Qed.

Record referenceExpectationWire := {
  rew_Absent : bool;
  rew_Key : string;
  rew_Head : option eventRefWire;
}.
#[export] Instance referenceExpectationWire_codec : Codec referenceExpectationWire := {
  enc w := struct [
    field "absent" w.(rew_Absent); field "key" w.(rew_Key); omitnil "head" w.(rew_Head)];
  dec_value j :=
    ms ← members_of
      ["absent"; "key"; "head"] j;
    xAbsent ← get "absent" ms; xKey ← get "key" ms; xHead ← get_ptr "head" ms;
    Ok {| rew_Absent := xAbsent; rew_Key := xKey; rew_Head := xHead |};
  zero := {| rew_Absent := zero; rew_Key := zero; rew_Head := None |};
  empty _ := false;
  enc_ok w := enc_ok w.(rew_Absent) ∧ enc_ok w.(rew_Key) ∧ ok_ptr w.(rew_Head);
}.
#[export] Instance referenceExpectationWire_laws : CodecLaws referenceExpectationWire.
Proof. solve_struct. Qed.

Record resolvedTargetWire := {
  rtw_Destination : string;
  rtw_LocalPrincipal : string;
  rtw_RemoteRoute : string;
  rtw_RemoteAlias : string;
}.
#[export] Instance resolvedTargetWire_codec : Codec resolvedTargetWire := {
  enc w := struct [
    field "destination" w.(rtw_Destination);
    omitempty "local_principal" w.(rtw_LocalPrincipal);
    omitempty "remote_route" w.(rtw_RemoteRoute);
    omitempty "remote_alias" w.(rtw_RemoteAlias)];
  dec_value j :=
    ms ← members_of
      ["destination"; "local_principal"; "remote_route"; "remote_alias"] j;
    xDestination ← get "destination" ms; xLocalPrincipal ← get "local_principal" ms;
    xRemoteRoute ← get "remote_route" ms; xRemoteAlias ← get "remote_alias" ms;
    Ok {| rtw_Destination := xDestination; rtw_LocalPrincipal := xLocalPrincipal;
          rtw_RemoteRoute := xRemoteRoute; rtw_RemoteAlias := xRemoteAlias |};
  zero := {| rtw_Destination := zero; rtw_LocalPrincipal := zero; rtw_RemoteRoute := zero;
    rtw_RemoteAlias := zero |};
  empty _ := false;
  enc_ok w := enc_ok w.(rtw_Destination) ∧ enc_ok w.(rtw_LocalPrincipal) ∧
    enc_ok w.(rtw_RemoteRoute) ∧ enc_ok w.(rtw_RemoteAlias);
}.
#[export] Instance resolvedTargetWire_laws : CodecLaws resolvedTargetWire.
Proof. solve_struct. Qed.

Record resolvedArtifactWire := {
  raw_Input : artifactInputWire;
  raw_Digest : string;
}.
#[export] Instance resolvedArtifactWire_codec : Codec resolvedArtifactWire := {
  enc w := struct [
    field "input" w.(raw_Input); field "digest" w.(raw_Digest)];
  dec_value j :=
    ms ← members_of
      ["input"; "digest"] j;
    xInput ← get "input" ms; xDigest ← get "digest" ms;
    Ok {| raw_Input := xInput; raw_Digest := xDigest |};
  zero := {| raw_Input := zero; raw_Digest := zero |};
  empty _ := false;
  enc_ok w := enc_ok w.(raw_Input) ∧ enc_ok w.(raw_Digest);
}.
#[export] Instance resolvedArtifactWire_laws : CodecLaws resolvedArtifactWire.
Proof. solve_struct. Qed.

Record requestDigestWire := {
  rdw_SchemaVersion : Z;
  rdw_SourcePrincipal : string;
  rdw_MayInitiate : bool;
  rdw_ViewDigest : string;
  rdw_Intent : intentWire;
  rdw_Subject : option subjectBindingWire;
  rdw_ExpectedReference : option referenceExpectationWire;
  rdw_Targets : list resolvedTargetWire;
  rdw_Artifacts : list resolvedArtifactWire;
  rdw_Causation : list eventRefWire;
  rdw_Correlation : option eventRefWire;
  rdw_InReplyToDelivery : string;
}.
#[export] Instance requestDigestWire_codec : Codec requestDigestWire := {
  enc w := struct [
    @field Z int_codec "schema_version" w.(rdw_SchemaVersion);
    field "source_principal" w.(rdw_SourcePrincipal);
    field "may_initiate" w.(rdw_MayInitiate); field "view_digest" w.(rdw_ViewDigest);
    field "intent" w.(rdw_Intent); omitnil "subject" w.(rdw_Subject);
    omitnil "expected_reference" w.(rdw_ExpectedReference);
    omitempty "targets" w.(rdw_Targets); omitempty "artifacts" w.(rdw_Artifacts);
    omitempty "causation" w.(rdw_Causation); omitnil "correlation" w.(rdw_Correlation);
    omitempty "in_reply_to_delivery_id" w.(rdw_InReplyToDelivery)];
  dec_value j :=
    ms ← members_of
      ["schema_version"; "source_principal"; "may_initiate"; "view_digest"; "intent";
      "subject"; "expected_reference"; "targets"; "artifacts"; "causation"; "correlation";
      "in_reply_to_delivery_id"] j;
    xSchemaVersion ← @get Z int_codec "schema_version" ms;
    xSourcePrincipal ← get "source_principal" ms; xMayInitiate ← get "may_initiate" ms;
    xViewDigest ← get "view_digest" ms; xIntent ← get "intent" ms;
    xSubject ← get_ptr "subject" ms; xExpectedReference ← get_ptr "expected_reference" ms;
    xTargets ← get "targets" ms; xArtifacts ← get "artifacts" ms;
    xCausation ← get "causation" ms; xCorrelation ← get_ptr "correlation" ms;
    xInReplyToDelivery ← get "in_reply_to_delivery_id" ms;
    Ok {| rdw_SchemaVersion := xSchemaVersion; rdw_SourcePrincipal := xSourcePrincipal;
          rdw_MayInitiate := xMayInitiate; rdw_ViewDigest := xViewDigest;
          rdw_Intent := xIntent; rdw_Subject := xSubject;
          rdw_ExpectedReference := xExpectedReference; rdw_Targets := xTargets;
          rdw_Artifacts := xArtifacts; rdw_Causation := xCausation;
          rdw_Correlation := xCorrelation; rdw_InReplyToDelivery := xInReplyToDelivery |};
  zero := {| rdw_SchemaVersion := 0%Z; rdw_SourcePrincipal := zero; rdw_MayInitiate := zero;
    rdw_ViewDigest := zero; rdw_Intent := zero; rdw_Subject := None;
    rdw_ExpectedReference := None; rdw_Targets := zero; rdw_Artifacts := zero;
    rdw_Causation := zero; rdw_Correlation := None; rdw_InReplyToDelivery := zero |};
  empty _ := false;
  enc_ok w := @enc_ok Z int_codec w.(rdw_SchemaVersion) ∧ enc_ok w.(rdw_SourcePrincipal) ∧
    enc_ok w.(rdw_MayInitiate) ∧ enc_ok w.(rdw_ViewDigest) ∧ enc_ok w.(rdw_Intent) ∧
    ok_ptr w.(rdw_Subject) ∧ ok_ptr w.(rdw_ExpectedReference) ∧ enc_ok w.(rdw_Targets) ∧
    enc_ok w.(rdw_Artifacts) ∧ enc_ok w.(rdw_Causation) ∧ ok_ptr w.(rdw_Correlation) ∧
    enc_ok w.(rdw_InReplyToDelivery);
}.
#[export] Instance requestDigestWire_laws : CodecLaws requestDigestWire.
Proof. solve_struct. Qed.

Record boundIntentWire := {
  biw_SchemaVersion : Z;
  biw_OperationKey : string;
  biw_AttachmentID : string;
  biw_AttachmentIssue : string;
  biw_AttachmentExpiry : string;
  biw_RequestDigest : string;
  biw_Request : requestDigestWire;
}.
#[export] Instance boundIntentWire_codec : Codec boundIntentWire := {
  enc w := struct [
    @field Z int_codec "schema_version" w.(biw_SchemaVersion);
    field "operation_key" w.(biw_OperationKey); field "attachment_id" w.(biw_AttachmentID);
    field "attachment_issued_at" w.(biw_AttachmentIssue);
    field "attachment_expires_at" w.(biw_AttachmentExpiry);
    field "request_digest" w.(biw_RequestDigest); field "request" w.(biw_Request)];
  dec_value j :=
    ms ← members_of
      ["schema_version"; "operation_key"; "attachment_id"; "attachment_issued_at";
      "attachment_expires_at"; "request_digest"; "request"] j;
    xSchemaVersion ← @get Z int_codec "schema_version" ms;
    xOperationKey ← get "operation_key" ms; xAttachmentID ← get "attachment_id" ms;
    xAttachmentIssue ← get "attachment_issued_at" ms;
    xAttachmentExpiry ← get "attachment_expires_at" ms;
    xRequestDigest ← get "request_digest" ms; xRequest ← get "request" ms;
    Ok {| biw_SchemaVersion := xSchemaVersion; biw_OperationKey := xOperationKey;
          biw_AttachmentID := xAttachmentID; biw_AttachmentIssue := xAttachmentIssue;
          biw_AttachmentExpiry := xAttachmentExpiry; biw_RequestDigest := xRequestDigest;
          biw_Request := xRequest |};
  zero := {| biw_SchemaVersion := 0%Z; biw_OperationKey := zero; biw_AttachmentID := zero;
    biw_AttachmentIssue := zero; biw_AttachmentExpiry := zero; biw_RequestDigest := zero;
    biw_Request := zero |};
  empty _ := false;
  enc_ok w := @enc_ok Z int_codec w.(biw_SchemaVersion) ∧ enc_ok w.(biw_OperationKey) ∧
    enc_ok w.(biw_AttachmentID) ∧ enc_ok w.(biw_AttachmentIssue) ∧
    enc_ok w.(biw_AttachmentExpiry) ∧ enc_ok w.(biw_RequestDigest) ∧ enc_ok w.(biw_Request);
}.
#[export] Instance boundIntentWire_laws : CodecLaws boundIntentWire.
Proof. solve_struct. Qed.

(** ** Bound Intents *)

Record BoundIntentSpec := {
  bs_Intent : AgentIntent;
  bs_OperationKey : OperationKey;
  bs_Attachment : Attachment;
  bs_ViewDigest : Digest;
  bs_Subject : option SubjectBinding;
  bs_ExpectedReference : option ReferenceExpectation;
  bs_Targets : list ResolvedTarget;
  bs_Artifacts : list ResolvedArtifact;
  bs_Causation : list EventRef;
  bs_Correlation : EventRef;
  bs_InReplyToDelivery : DeliveryID;
}.

Record BoundIntent := {
  bi_intent : AgentIntent;
  bi_operationKey : OperationKey;
  bi_attachment : Attachment;
  bi_viewDigest : Digest;
  bi_subject : option SubjectBinding;
  bi_expectedReference : option ReferenceExpectation;
  bi_targets : list ResolvedTarget;
  bi_resolvedArtifacts : list ResolvedArtifact;
  bi_artifacts : list Digest;
  bi_causation : list EventRef;
  bi_correlation : EventRef;
  bi_inReplyToDelivery : DeliveryID;
  bi_canonical : string;
  bi_digest : Digest;
}.

Definition isTerminalConsequence (c : Consequence) : bool :=
  bool_decide (c = ConsequenceResolveCompleted) || bool_decide (c = ConsequenceResolveDeclined) ||
  bool_decide (c = ConsequenceResolveUnresolved).

(** [sortDigests] orders by the digests' text. *)
Definition sortDigests : list Digest → list Digest := sort_by Digest_String.

Definition subject_wire (s : SubjectBinding) : subjectBindingWire :=
  {| sbw_HandlingID := s.(sb_handlingID); sbw_Head := EventRef_canonical s.(sb_head);
     sbw_Fence := s.(sb_fence); sbw_ObservationRevision := s.(sb_observationRevision) |}.

(** A reference value that is omitted from the wire when zero. *)
Definition optional_ref_wire (r : EventRef) : option eventRefWire :=
  if EventRef_IsZero r then None else Some (EventRef_canonical r).

Definition expectation_wire (e : ReferenceExpectation) : referenceExpectationWire :=
  {| rew_Absent := e.(re_absent); rew_Key := e.(re_key); rew_Head := optional_ref_wire e.(re_head) |}.

Definition resolvedWire (target : ResolvedTarget) : resolvedTargetWire :=
  {| rtw_Destination := if bool_decide (target.(rt_destination) = TargetDestinationRemote)
                        then "remote" else "local";
     rtw_LocalPrincipal := target.(rt_localPrincipal); rtw_RemoteRoute := target.(rt_remoteRoute);
     rtw_RemoteAlias := target.(rt_remoteAlias) |}.

Definition resolved_artifact_wire (a : ResolvedArtifact) : resolvedArtifactWire :=
  {| raw_Input := artifact_input_wire a.(ra_input); raw_Digest := Digest_String a.(ra_digest) |}.

Definition optional_delivery_wire (id : DeliveryID) : string :=
  if DeliveryID_IsZero id then "" else DeliveryID_String id.

Definition requestWire (intent : BoundIntent) : requestDigestWire :=
  {| rdw_SchemaVersion := 3; rdw_SourcePrincipal := intent.(bi_attachment).(at_principal);
     rdw_MayInitiate := intent.(bi_attachment).(at_mayInitiate);
     rdw_ViewDigest := Digest_String intent.(bi_viewDigest);
     rdw_Intent := intent_wire intent.(bi_intent);
     rdw_Subject := subject_wire <$> intent.(bi_subject);
     rdw_ExpectedReference := expectation_wire <$> intent.(bi_expectedReference);
     rdw_Targets := map resolvedWire intent.(bi_targets);
     rdw_Artifacts := map resolved_artifact_wire intent.(bi_resolvedArtifacts);
     rdw_Causation := map EventRef_canonical intent.(bi_causation);
     rdw_Correlation := optional_ref_wire intent.(bi_correlation);
     rdw_InReplyToDelivery := optional_delivery_wire intent.(bi_inReplyToDelivery) |}.

(** [BoundIntent.wire]. *)
Definition bound_wire (intent : BoundIntent) : boundIntentWire :=
  {| biw_SchemaVersion := 3; biw_OperationKey := intent.(bi_operationKey);
     biw_AttachmentID := intent.(bi_attachment).(at_id);
     biw_AttachmentIssue := format_time intent.(bi_attachment).(at_issuedAt);
     biw_AttachmentExpiry := format_time intent.(bi_attachment).(at_expiresAt);
     biw_RequestDigest := Digest_String intent.(bi_digest);
     biw_Request := requestWire intent |}.

Definition validateResolvedReference (intent : AgentIntent) (expected : option ReferenceExpectation)
    : result () :=
  match expected with
  | None => Ok ()
  | Some expected =>
      match intent.(ai_consequence) with
      | ConsequencePublishReference =>
          fail_if (negb expected.(re_absent) ||
                   negb (bool_decide (expected.(re_key) = intent.(ai_referenceKey))) ||
                   negb (EventRef_IsZero expected.(re_head)))
            (invariant "BoundIntent Reference" "does not bind first publication")
      | ConsequenceSupersedeReference | ConsequenceRetractReference =>
          fail_if (expected.(re_absent) ||
                   negb (bool_decide (expected.(re_handle) = intent.(ai_referenceHead))) ||
                   IsZero expected.(re_key) || EventRef_IsZero expected.(re_head))
            (invariant "BoundIntent Reference" "does not bind the offered exact head")
      | _ => Ok ()
      end
  end.


Definition validateResolvedBoundIntent (spec : BoundIntentSpec) : result () :=
  let intent := spec.(bs_Intent) in
  let consequence := intent.(ai_consequence) in
  _ ← fail_if (negb (eqb (subjectBound consequence) (is_some spec.(bs_Subject))))
        (invariant "BoundIntent subject" "must match the closed consequence");
  _ ← fail_if (negb (eqb (referenceBound consequence) (is_some spec.(bs_ExpectedReference))))
        (invariant "BoundIntent Reference" "must match the closed consequence");
  _ ← match spec.(bs_Subject) with
      | Some subject =>
          fail_if (negb (bool_decide (subject.(sb_handle) = intent.(ai_subjectHandling))) ||
                   IsZero subject.(sb_handlingID) || EventRef_IsZero subject.(sb_head) ||
                   (subject.(sb_fence) =? 0))
            (invariant "BoundIntent subject" "does not bind the Intent handle")
      | None => Ok ()
      end;
  _ ← validateResolvedReference intent spec.(bs_ExpectedReference);
  _ ← fail_if (negb (lenZ spec.(bs_Targets) =? lenZ intent.(ai_successors)))
        (invariant "BoundIntent targets" "must resolve every requested successor exactly once");
  _ ← fail_if (negb (bool_decide (map rt_requested spec.(bs_Targets) = intent.(ai_successors))))
        (invariant "BoundIntent targets" "do not preserve requested successor order");
  _ ← fail_if (negb (lenZ spec.(bs_Artifacts) =? lenZ intent.(ai_artifacts)))
        (invariant "BoundIntent Artifacts" "must resolve every Artifact input exactly once");
  _ ← fail_if (negb (bool_decide (map ra_input spec.(bs_Artifacts) = intent.(ai_artifacts))) ||
               existsb (λ a, Digest_IsZero a.(ra_digest)) spec.(bs_Artifacts))
        (invariant "BoundIntent Artifacts" "do not bind the requested inputs");
  _ ← fail_if (bool_decide (consequence = ConsequenceResolveCompleted) &&
               (lenZ spec.(bs_Artifacts) =? 0))
        (invariant "completed consequence" "requires a verified Artifact");
  _ ← fail_if (negb (lenZ spec.(bs_Causation) =? lenZ intent.(ai_causationHandles)))
        (invariant "BoundIntent causation" "must resolve every provenance handle exactly once");
  _ ← fail_if (negb (eqb (EventRef_IsZero spec.(bs_Correlation))
                         (IsZero intent.(ai_correlationHandle))))
        (invariant "BoundIntent correlation" "must match the Intent correlation handle");
  fail_if (negb (DeliveryID_IsZero spec.(bs_InReplyToDelivery)) &&
           negb (isTerminalConsequence consequence))
    (invariant "BoundIntent reply" "is allowed only for a terminal consequence").

(** A [BoundIntent] before it is sealed, with the digest and bytes given. *)
Definition bound_of_spec (spec : BoundIntentSpec) (artifacts : list Digest) (digest : Digest)
    (canonical : string) : BoundIntent :=
  {| bi_intent := spec.(bs_Intent); bi_operationKey := spec.(bs_OperationKey);
     bi_attachment := spec.(bs_Attachment); bi_viewDigest := spec.(bs_ViewDigest);
     bi_subject := spec.(bs_Subject); bi_expectedReference := spec.(bs_ExpectedReference);
     bi_targets := spec.(bs_Targets); bi_resolvedArtifacts := spec.(bs_Artifacts);
     bi_artifacts := artifacts; bi_causation := spec.(bs_Causation);
     bi_correlation := spec.(bs_Correlation); bi_inReplyToDelivery := spec.(bs_InReplyToDelivery);
     bi_canonical := canonical; bi_digest := digest |}.

Definition NewBoundIntent (spec : BoundIntentSpec) : result BoundIntent :=
  _ ← fail_if (is_empty spec.(bs_Intent).(ai_canonical) || IsZero spec.(bs_OperationKey) ||
               IsZero spec.(bs_Attachment).(at_id) || Digest_IsZero spec.(bs_ViewDigest))
        (invalid "BoundIntent" "Intent, operation, Attachment, and View digest are required");
  _ ← validateResolvedBoundIntent spec;
  let artifacts := sortDigests (map ra_digest spec.(bs_Artifacts)) in
  _ ← fail_if (has_adjacent_dup artifacts)
        (invalid "BoundIntent Artifacts" "contains a duplicate digest");
  '(_, digest) ← canonicalJSON (requestWire (bound_of_spec spec artifacts zero_digest ""));
  '(canonical, _) ← canonicalJSON (bound_wire (bound_of_spec spec artifacts digest ""));
  Ok (bound_of_spec spec artifacts digest canonical).

(** ** Well-formed authority values *)

Definition digest_ok (d : Digest) : Prop := digest_wf d ∧ Digest_IsZero d = false.

Record ref_ok (r : EventRef) : Prop := {
  ro_id : handle_ok r.(er_id) = true;
  ro_digest : digest_ok r.(er_digest);
}.

Definition opt_ref_ok (r : EventRef) : Prop := r = zero_EventRef ∨ ref_ok r.
Definition opt_delivery_ok (d : DeliveryID) : Prop := d = zero_DeliveryID ∨ digest_ok d.

Record subject_ok (s : SubjectBinding) : Prop := {
  so_handling : handle_ok s.(sb_handlingID) = true;
  so_head : ref_ok s.(sb_head);
  so_fence : 0 < s.(sb_fence) <= max_uint64;
  so_revision : 0 <= s.(sb_observationRevision) <= max_uint64;
}.

Record expectation_ok (e : ReferenceExpectation) : Prop := {
  eo_key : key_ok e.(re_key) = true;
  eo_head : if e.(re_absent) then e.(re_head) = zero_EventRef else ref_ok e.(re_head);
}.

Definition target_ok (t : ResolvedTarget) : Prop :=
  match t.(rt_destination) with
  | TargetDestinationInvalid => False
  | TargetDestinationLocal =>
      handle_ok t.(rt_localPrincipal) = true ∧ t.(rt_remoteRoute) = "" ∧ t.(rt_remoteAlias) = ""
  | TargetDestinationRemote =>
      t.(rt_localPrincipal) = "" ∧ handle_ok t.(rt_remoteRoute) = true ∧
      handle_ok t.(rt_remoteAlias) = true
  end.

(** An instant [canonicalTime] accepts. *)
Definition time_ok (t : Time) : Prop := t ≠ zero_time ∧ min_int64 <= t <= max_int64.

Lemma format_time_utf8 t : time_ok t → valid_utf8 (format_time t) = true.
Proof. intros [_ Ht]. by apply valid_utf8_ascii, format_time_ascii. Qed.

(** ** Laws *)

Lemma ParseDeliveryID_String d : digest_ok d → ParseDeliveryID (DeliveryID_String d) = Ok d.
Proof.
  intros [Hw Hz]. unfold ParseDeliveryID, DeliveryID_String.
  rewrite strip_prefix_app. cbn [of_option mbind result_bind].
  fold (Digest_String d). by rewrite ParseDigest_String.
Qed.

Lemma ParseDeliveryID_Ok s d : ParseDeliveryID s = Ok d → s = DeliveryID_String d ∧ digest_ok d.
Proof.
  unfold ParseDeliveryID. intros H. inv_res.
  match goal with H : strip_prefix _ _ = Some _ |- _ => apply strip_prefix_Some in H as -> end.
  match goal with H : ParseDigest _ = Ok _ |- _ => apply ParseDigest_Ok in H as (E & Hw & Hz) end. apply (inj (String.append "sha256:")) in E as ->.
  done.
Qed.

Lemma DeliveryID_String_utf8 d : valid_utf8 (DeliveryID_String d) = true.
Proof.
  apply valid_utf8_ascii. unfold DeliveryID_String. rewrite string_to_bytes_app, forallb_app.
  by rewrite hex_encode_ascii.
Qed.

Lemma optional_delivery_utf8 d : valid_utf8 (optional_delivery_wire d) = true.
Proof. unfold optional_delivery_wire. destruct (DeliveryID_IsZero d); [done|apply DeliveryID_String_utf8]. Qed.

Lemma ref_ok_nonzero r : ref_ok r → EventRef_IsZero r = false.
Proof.
  intros [Hi [_ Hz]]. unfold EventRef_IsZero, IsZero.
  by rewrite (proj2 (is_empty_false _) (token_ok_nonempty _ _ _ Hi)), Hz.
Qed.

Lemma zero_EventRef_IsZero : EventRef_IsZero zero_EventRef = true.
Proof. done. Qed.

Lemma ref_wire_ok r : ref_ok r → enc_ok (EventRef_canonical r).
Proof. intros [Hi _]. split; eauto with wire_ok. Qed.

Lemma optional_ref_wire_ok r : opt_ref_ok r → ok_ptr (optional_ref_wire r).
Proof.
  intros [->|Hr] w Hw; [done|]. unfold optional_ref_wire in Hw.
  rewrite ref_ok_nonzero in Hw by done. injection Hw as <-. by apply ref_wire_ok.
Qed.

Lemma subject_wire_ok s : subject_ok s → enc_ok (subject_wire s).
Proof.
  intros [Hh Hr Hf Ho]. split; [by eapply token_ok_utf8|].
  split; [by apply ref_wire_ok|]. cbn. lia.
Qed.

Lemma expectation_wire_ok e : expectation_ok e → enc_ok (expectation_wire e).
Proof.
  intros [Hk Hh]. split_and!; cbn -[valid_utf8]; [done|by eapply token_ok_utf8|].
  apply optional_ref_wire_ok. destruct (re_absent e); [by left|by right].
Qed.

Lemma target_wire_enc_ok t : target_ok t → enc_ok (resolvedWire t).
Proof.
  unfold target_ok, resolvedWire. destruct (rt_destination t); [done| |];
    intros (H1 & H2 & H3); split_and!; cbn -[valid_utf8]; rewrite ?H1, ?H2, ?H3; try done;
    by eapply token_ok_utf8.
Qed.

Lemma ok_ptr_fmap {A B} `{Codec B} (f : A → B) (o : option A) :
  (∀ a, o = Some a → enc_ok (f a)) → ok_ptr (f <$> o).
Proof. intros Hf b Hb. apply fmap_Some in Hb as (a & -> & ->). by apply Hf. Qed.

Lemma Consequence_String_utf8 c : valid_utf8 (Consequence_String c) = true.
Proof. by destruct c. Qed.

#[export] Hint Extern 0 => (apply DeliveryID_String_utf8) : wire_ok.
#[export] Hint Extern 0 => (apply optional_delivery_utf8) : wire_ok.
#[export] Hint Extern 0 => (apply Consequence_String_utf8) : wire_ok.
#[export] Hint Extern 1 => (apply format_time_utf8; eassumption) : wire_ok.
#[export] Hint Resolve ref_wire_ok optional_ref_wire_ok : wire_ok.
