(* ===== verification/Cas.v ===== *)
(** The Artifact object store (internal/agency/artifact/store.go, filesystem.go): a
    content-addressed tree on a file system that other goroutines and processes use
    at the same time.

    A file system has inodes, file names that link to them, and directories with
    their owner-only mode; a path is a directory and a base name.  Every system call
    is one step: before it, anything else may run ([ce_others]), and it may fail
    ([ce_fault]).  Context cancellation, the per-shard mutexes (other holders are
    part of [ce_others]) and the loss of unsynced writes at a power failure are left
    out; a crash is a stop between two calls. *)

From Stdlib Require Import Lia.
From S2P Require Import Prelude Io Utf8 Json Wire Sha256 Time Value Intent Bound.

#[local] Open Scope Z_scope.

(** ** The file system *)

Definition path : Type := string * string.

(** [in_private]: a regular file, mode 0600, owned by the current user. *)
Record inode := { in_content : string; in_private : bool; in_mtime : Z }.

Record FS := {
  fs_inodes : gmap Z inode;
  fs_files : gmap path Z;
  fs_dirs : gmap string bool;
}.

Record FileInfo := {
  fi_inode : Z; fi_private : bool; fi_size : Z; fi_mtime : Z; fi_links : Z }.

Definition links_of (fs : FS) (i : Z) : gmap path Z := filter (λ '(_, j), j = i) fs.(fs_files).
Definition link_count (fs : FS) (i : Z) : Z := Z.of_nat (size (links_of fs i)).

Definition file_info (fs : FS) (i : Z) (n : inode) : FileInfo := {|
  fi_inode := i; fi_private := n.(in_private); fi_size := slen n.(in_content); fi_mtime := n.(in_mtime);
  fi_links := link_count fs i |}.

Definition fstat (fs : FS) (i : Z) : result FileInfo :=
  n ← of_option (fs.(fs_inodes) !! i) ErrNotExist; Ok (file_info fs i n).

Definition open_file (fs : FS) (p : path) : result Z := of_option (fs.(fs_files) !! p) ErrNotExist.

Definition lstat (fs : FS) (p : path) : result FileInfo := i ← open_file fs p; fstat fs i.

Definition set_files (f : gmap path Z) (fs : FS) : FS :=
  {| fs_inodes := fs.(fs_inodes); fs_files := f; fs_dirs := fs.(fs_dirs) |}.
Definition set_inodes (n : gmap Z inode) (fs : FS) : FS :=
  {| fs_inodes := n; fs_files := fs.(fs_files); fs_dirs := fs.(fs_dirs) |}.
Definition set_dirs (d : gmap string bool) (fs : FS) : FS :=
  {| fs_inodes := fs.(fs_inodes); fs_files := fs.(fs_files); fs_dirs := d |}.

(** A new inode number. *)
Definition fresh_inode (fs : FS) : Z := fresh (dom fs.(fs_inodes)).

(** [os.OpenFile(p, O_CREATE|O_EXCL|O_RDWR, 0600)]. *)
Definition create_excl (fs : FS) (p : path) (now : Z) : result Z * FS :=
  if is_some (fs.(fs_files) !! p) then (Err ErrExist, fs)
  else if negb (is_some (fs.(fs_dirs) !! p.1)) then (Err ErrNotExist, fs)
  else
    let i := fresh_inode fs in
    (Ok i, set_files (<[p := i]> fs.(fs_files))
             (set_inodes (<[i := {| in_content := ""; in_private := true; in_mtime := now |}]> fs.(fs_inodes)) fs)).

Definition write_inode (fs : FS) (i : Z) (content : string) (now : Z) : FS :=
  set_inodes (alter (λ n, {| in_content := content; in_private := n.(in_private); in_mtime := now |}) i
                fs.(fs_inodes)) fs.

(** [os.Link(old, new)]. *)
Definition link_file (fs : FS) (old new : path) : result () * FS :=
  match fs.(fs_files) !! old with
  | None => (Err ErrNotExist, fs)
  | Some i =>
      if negb (is_some (fs.(fs_dirs) !! new.1)) then (Err ErrNotExist, fs)
      else if is_some (fs.(fs_files) !! new) then (Err ErrExist, fs)
      else (Ok (), set_files (<[new := i]> fs.(fs_files)) fs)
  end.

(** [os.Rename(old, new)]: replaces [new]; two names of one inode are left alone. *)
Definition rename_file (fs : FS) (old new : path) : result () * FS :=
  match fs.(fs_files) !! old with
  | None => (Err ErrNotExist, fs)
  | Some i =>
      if negb (is_some (fs.(fs_dirs) !! new.1)) then (Err ErrNotExist, fs)
      else if bool_decide (fs.(fs_files) !! new = Some i) then (Ok (), fs)
      else (Ok (), set_files (<[new := i]> (delete old fs.(fs_files))) fs)
  end.

(** [os.Remove(p)]. *)
Definition remove_file (fs : FS) (p : path) : result () * FS :=
  match fs.(fs_files) !! p with
  | None => (Err ErrNotExist, fs)
  | Some _ => (Ok (), set_files (delete p fs.(fs_files)) fs)
  end.

(** ** System calls in a world *)

Record CasEnv (W : Type) := {
  ce_fs : W → FS;
  ce_put : W → FS → W;
  (** What other goroutines and processes do before a call. *)
  ce_others : W → W;
  (** The error the call fails with, if it fails, and how much a failing write wrote. *)
  ce_fault : W → option error;
  ce_short : W → nat;
  (** What [rand.Read] fills the 16 bytes of a name with. *)
  ce_random : W → result string;
  ce_clock : W → Z;
  (** [filepath.EvalSymlinks]. *)
  ce_real : W → string → result string;
}.
Arguments ce_fs {_}.
Arguments ce_put {_}.
Arguments ce_others {_}.
Arguments ce_fault {_}.
Arguments ce_short {_}.
Arguments ce_random {_}.
Arguments ce_clock {_}.
Arguments ce_real {_}.

Definition MaxObjectBytes : Z := Z.shiftl 4 20.
Definition ErrInput : error := Sentinel "artifact: invalid input".
Definition ErrCorruption : error := Sentinel "artifact: corruption".

Record CasStore := { cs_root : string; cs_temp : string }.
Record PutResult := { pr_digest : Digest; pr_size : Z; pr_replayed : bool }.

(** [filepath.Join] of a canonical absolute directory and one component. *)
Definition join (dir name : string) : string := (if String.eqb dir "/" then "" else dir) +:+ "/" +:+ name.

Definition digestHex (digest : Digest) : result string :=
  _ ← fail_if (Digest_IsZero digest) (Wrapped "zero digest" ErrInput);
  let value := default (Digest_String digest) (strip_prefix "sha256:" (Digest_String digest)) in
  _ ← fail_if (negb (slen value =? 64)) (Wrapped "malformed digest" ErrInput);
  Ok value.

Definition validatePrivateRegular (info : FileInfo) (maximum expectedLinks : Z) : result () :=
  _ ← fail_if (negb info.(fi_private)) (Wrapped "object is not an owner-only regular file" ErrCorruption);
  _ ← fail_if ((info.(fi_size) <? 0) || (maximum <? info.(fi_size)))
        (Wrapped "object size is outside its bound" ErrCorruption);
  fail_if ((info.(fi_links) =? 0) || negb (info.(fi_links) =? expectedLinks))
    (Wrapped "object has an unexpected hard-link count" ErrCorruption).

Definition sameSnapshot (left right : FileInfo) : bool :=
  (left.(fi_inode) =? right.(fi_inode)) && Bool.eqb left.(fi_private) right.(fi_private) &&
  (left.(fi_size) =? right.(fi_size)) && (left.(fi_mtime) =? right.(fi_mtime)) &&
  (left.(fi_links) =? right.(fi_links)) && left.(fi_private) && right.(fi_private).

(** [filepath.IsAbs(root) && filepath.Clean(root) == root]. *)
Fixpoint clean_components (component rest : string) : bool :=
  match rest with
  | EmptyString => negb (bool_decide (component ∈ [""; "."; ".."]))
  | String "/" rest => negb (bool_decide (component ∈ [""; "."; ".."])) && clean_components "" rest
  | String c rest => clean_components (component +:+ String c "") rest
  end.
Definition canonical_root (root : string) : bool :=
  match root with
  | String "/" EmptyString => true
  | String "/" rest => clean_components "" rest
  | _ => false
  end.

(** The directories of a canonical absolute path below the root, its own last. *)
Fixpoint ancestors (before rest : string) : list string :=
  match rest with
  | EmptyString => if is_empty before then [] else [before]
  | String "/" rest => (if is_empty before then [] else [before]) ++ ancestors (before +:+ "/") rest
  | String c rest => ancestors (before +:+ String c "") rest
  end.

(** [filepath.Dir] of a canonical absolute path: what precedes the last slash. *)
Fixpoint parent_directory (before component rest : string) : string :=
  match rest with
  | EmptyString => if is_empty before then "/" else before
  | String "/" rest => parent_directory (if is_empty component then before else join before component) "" rest
  | String c rest => parent_directory before (component +:+ String c "") rest
  end.

Definition retryablePromotionRace (e : error) : bool := errors_is e ErrNotExist || errors_is e ErrCorruption.

Section cas.
Context {W : Type} (env : CasEnv W).

Definition syscall {A} (f : W → FS → result A * FS) : io W A := λ w,
  let w := env.(ce_others) w in
  match env.(ce_fault) w with
  | Some e => (Err e, w)
  | None => let '(r, fs) := f w (env.(ce_fs) w) in (r, env.(ce_put) w fs)
  end.

Definition os_Lstat (p : path) : io W FileInfo := syscall (λ _ fs, (lstat fs p, fs)).
Definition os_Open (p : path) : io W Z := syscall (λ _ fs, (open_file fs p, fs)).
Definition os_Fstat (file : Z) : io W FileInfo := syscall (λ _ fs, (fstat fs file, fs)).
Definition os_Create (p : path) : io W Z := syscall (λ w fs, create_excl fs p (env.(ce_clock) w)).
Definition os_Link (old new : path) : io W () := syscall (λ _ fs, link_file fs old new).
Definition os_Rename (old new : path) : io W () := syscall (λ _ fs, rename_file fs old new).
Definition os_Remove (p : path) : io W () := syscall (λ _ fs, remove_file fs p).

(** [io.ReadAll(io.LimitReader(file, limit))]. *)
Definition os_ReadAll (file limit : Z) : io W string := syscall (λ _ fs,
  (n ← of_option (fs.(fs_inodes) !! file) ErrNotExist;
   Ok (String.substring 0 (Z.to_nat limit) n.(in_content)), fs)).

(** A [Sync] or [Close] of an open file. *)
Definition os_Sync : io W () := syscall (λ _ fs, (Ok (), fs)).

(** [writeFull]: a failing write leaves a prefix, no bytes are no write. *)
Definition writeFull (file : Z) (content : string) : io W () := if is_empty content then mret () else λ w,
  let w := env.(ce_others) w in
  let write c := env.(ce_put) w (write_inode (env.(ce_fs) w) file c (env.(ce_clock) w)) in
  match env.(ce_fault) w with
  | Some e => (Err e, write (String.substring 0 (env.(ce_short) w) content))
  | None => (Ok (), write content)
  end.

(** ** Directories *)

Definition os_LstatDirectory (dir : string) : io W bool := syscall (λ _ fs,
  (of_option (fs.(fs_dirs) !! dir) ErrNotExist, fs)).

(** [os.MkdirAll]: the directory and its missing ancestors, owner-only. *)
Definition os_MkdirAll (dir : string) : io W () := syscall (λ _ fs,
  (Ok (), foldr (λ a fs, set_dirs (<[a := default true (fs.(fs_dirs) !! a)]> fs.(fs_dirs)) fs) fs (ancestors "" dir))).

(** [os.Chmod(dir, 0700)]. *)
Definition os_Chmod (dir : string) : io W () := syscall (λ _ fs,
  match fs.(fs_dirs) !! dir with
  | None => (Err ErrNotExist, fs)
  | Some _ => (Ok (), set_dirs (<[dir := true]> fs.(fs_dirs)) fs)
  end).

Definition privateDirectory (dir : string) : io W bool :=
  info ← attempt (os_LstatDirectory dir);
  match info with
  | Err e => if errors_is e ErrNotExist then mret false else lift (Err (Wrapped "inspect CAS directory" e))
  | Ok private =>
      _ ← guard (negb private) (Wrapped "path is not an owner-only real directory" ErrCorruption);
      mret true
  end.

Definition requirePrivateDirectory (dir : string) : io W () :=
  present ← privateDirectory dir;
  guard (negb present) (Wrapped "CAS directory is unavailable" ErrCorruption).

Definition ensurePrivateDirectory (dir : string) : io W bool :=
  present ← privateDirectory dir;
  if present : bool then mret false else
  _ ← wrapping "create CAS directory" (os_MkdirAll dir);
  _ ← wrapping "protect CAS directory" (os_Chmod dir);
  _ ← requirePrivateDirectory dir;
  mret true.

Definition syncDirectory (dir : string) : io W () :=
  _ ← wrapping "open CAS directory for fsync" (syscall (λ _ fs,
        (_ ← of_option (fs.(fs_dirs) !! dir) ErrNotExist; Ok (), fs)));
  wrapping "fsync CAS directory" os_Sync.

(** ** Files *)

(** Whether the file exists. *)
Definition privateRegular (p : path) : io W bool :=
  info ← attempt (os_Lstat p);
  match info with
  | Err e => if errors_is e ErrNotExist then mret false else lift (Err (Wrapped "inspect CAS object" e))
  | Ok info =>
      _ ← lift (validatePrivateRegular info MaxObjectBytes info.(fi_links));
      mret true
  end.

Definition readVerifiedFile (p : path) (digest : Digest) (maximum expectedLinks : Z) : io W string :=
  before ← wrapping "read CAS object" (os_Lstat p);
  _ ← lift (wrap_error "verify CAS object" (validatePrivateRegular before maximum expectedLinks));
  file ← wrapping "open CAS object" (os_Open p);
  opened ← attempt (os_Fstat file);
  let changed (info : result FileInfo) :=
    negb (match info with Ok info => sameSnapshot before info | Err _ => false end) in
  _ ← guard (changed opened) (Wrapped "object changed while opening" ErrCorruption);
  let exceeded := Wrapped "object exceeded its read bound" ErrCorruption in
  read ← attempt (os_ReadAll file (maximum + 1));
  content ← lift (or_error read exceeded);
  _ ← guard (maximum <? slen content) exceeded;
  afterFD ← attempt (os_Fstat file);
  afterPath ← attempt (os_Lstat p);
  _ ← guard (changed afterFD || changed afterPath || negb (slen content =? before.(fi_size)))
        (Wrapped "object identity changed during read" ErrCorruption);
  _ ← guard (negb (bool_decide (Sum content = digest)))
        (Wrapped "object bytes do not match path digest" ErrCorruption);
  mret content.

Context (store : CasStore).

(** The object of a digest, in the directory of its first byte. *)
Definition objectPath (digest : Digest) (create : bool) : io W path :=
  hexDigest ← lift (digestHex digest);
  let shard := join store.(cs_root) (String.substring 0 2 hexDigest) in
  _ ← (if create then
         created ← ensurePrivateDirectory shard;
         if created : bool then syncDirectory store.(cs_root) else mret ()
       else _ ← privateDirectory shard; mret ());
  mret (shard, hexDigest).

Definition promotionPath (digest : Digest) : result path :=
  hexDigest ← digestHex digest;
  Ok (store.(cs_temp), hexDigest +:+ ".promote").

Definition temp_name (random : string) : string := "put-" +:+ hex_encode random +:+ ".tmp".

(** The attempts of [newTemp] that are left. *)
Fixpoint try_temp (attempts : nat) : io W (path * Z) :=
  match attempts with
  | O => lift (Err (Errorf "allocate CAS temporary object: collision budget exhausted"))
  | S attempts =>
      random ← run (λ w, (wrap_error "allocate CAS temporary object" (env.(ce_random) w), w));
      let p := (store.(cs_temp), temp_name random) in
      file ← attempt (os_Create p);
      match file with
      | Ok file => mret (p, file)
      | Err e => if errors_is e ErrExist then try_temp attempts
                 else lift (Err (Wrapped "create CAS temporary object" e))
      end
  end.

Definition newTemp : io W (path * Z) :=
  _ ← requirePrivateDirectory store.(cs_temp);
  try_temp 8.

(** [stageMarker] up to the rename. *)
Definition fill_temp (tempPath : path) (file : Z) (digest : Digest) (content : string) : io W () :=
  _ ← wrapping "write CAS temporary object" (writeFull file content);
  _ ← wrapping "fsync CAS temporary object" os_Sync;
  _ ← wrapping "close CAS temporary object" os_Sync;
  verified ← readVerifiedFile tempPath digest (slen content) 1;
  _ ← guard (negb (slen verified =? slen content)) (Wrapped "temporary object size changed" ErrCorruption);
  _ ← syncDirectory store.(cs_temp);
  marker ← lift (promotionPath digest);
  wrapping "publish CAS promotion marker" (os_Rename tempPath marker).

(** The temporary file is removed unless it became the marker. *)
Definition stageMarker (digest : Digest) (content : string) : io W () :=
  '(tempPath, file) ← newTemp;
  staged ← attempt (fill_temp tempPath file digest content);
  match staged with
  | Ok _ => syncDirectory store.(cs_temp)
  | Err e => _ ← attempt (os_Remove tempPath); lift (Err e)
  end.

(** Whether this call linked, and whether there was a marker. *)
Definition linkPromotion (digest : Digest) (marker final : path) : io W (bool * bool) :=
  present ← privateRegular marker;
  if negb present then mret (false, false) else
  _ ← readVerifiedFile marker digest MaxObjectBytes 1;
  linked ← attempt (os_Link marker final);
  match linked with
  | Ok _ => mret (true, true)
  | Err e => if errors_is e ErrExist || errors_is e ErrNotExist then lift (Err ErrCorruption)
             else lift (Err (Wrapped "promote CAS object" e))
  end.

Definition settleFinal (digest : Digest) (marker final : path) (created : bool) : io W (bool * bool) :=
  _ ← syncDirectory final.1;
  removed ← attempt (os_Remove marker);
  _ ← (match removed with
       | Err e => if errors_is e ErrNotExist then mret ()
                  else lift (Err (Wrapped "remove CAS promotion marker" e))
       | Ok _ => mret ()
       end);
  _ ← syncDirectory store.(cs_temp);
  _ ← readVerifiedFile final digest MaxObjectBytes 1;
  mret (created, true).

(** The attempts that are left; [installed]: this call has linked the object. *)
Fixpoint settle_attempts (attempts : nat) (digest : Digest) (marker final : path) (installed : bool)
    : io W (bool * bool) :=
  match attempts with
  | O => lift (Err (Wrapped "promotion did not settle" ErrCorruption))
  | S attempts =>
      finalPresent ← privateRegular final;
      if finalPresent : bool then
        settled ← attempt (settleFinal digest marker final installed);
        match settled with
        | Err e => if retryablePromotionRace e then settle_attempts attempts digest marker final installed
                   else lift (Err e)
        | Ok r => mret r
        end
      else
        promoted ← attempt (linkPromotion digest marker final);
        match promoted with
        | Err e => if retryablePromotionRace e then settle_attempts attempts digest marker final installed
                   else lift (Err e)
        | Ok (linked, markerPresent) =>
            if negb markerPresent then mret (false, false)
            else settle_attempts attempts digest marker final (linked || installed)
        end
  end.

Definition settlePromotion (digest : Digest) (final : path) : io W (bool * bool) :=
  marker ← lift (promotionPath digest);
  settle_attempts 8 digest marker final false.

Definition inspectReplay (digest : Digest) (p : path) (expected : string) : io W PutResult :=
  content ← readVerifiedFile p digest (slen expected) 1;
  _ ← guard (negb (bool_decide (content = expected))) (Wrapped "same digest has different bytes" ErrCorruption);
  mret {| pr_digest := digest; pr_size := slen content; pr_replayed := true |}.

Definition with_replayed (r : PutResult) (replayed : bool) : PutResult :=
  {| pr_digest := r.(pr_digest); pr_size := r.(pr_size); pr_replayed := replayed |}.

(** [validate] and the zero check of [digestGuard]; the mutex is not modelled. *)
Definition validate : io W () :=
  _ ← guard (is_empty store.(cs_root) || is_empty store.(cs_temp)) (Wrapped "nil or incomplete store" ErrInput);
  _ ← requirePrivateDirectory store.(cs_root);
  requirePrivateDirectory store.(cs_temp).
Definition digestGuard (digest : Digest) : io W () :=
  _ ← validate;
  guard (Digest_IsZero digest) (Wrapped "zero digest" ErrInput).

Definition Put (digest : Digest) (content : string) : io W PutResult :=
  _ ← guard (Digest_IsZero digest || (MaxObjectBytes <? slen content))
        (Wrapped "context, digest, or object size" ErrInput);
  _ ← guard (negb (bool_decide (Sum content = digest)))
        (Wrapped "bytes do not match the claimed digest" ErrCorruption);
  _ ← digestGuard digest;
  final ← objectPath digest true;
  '(created, present) ← settlePromotion digest final;
  if present : bool then
    result ← inspectReplay digest final content;
    mret (with_replayed result (negb created))
  else
    _ ← stageMarker digest content;
    '(created, present) ← settlePromotion digest final;
    _ ← guard (negb present) (Wrapped "promotion produced no final object" ErrCorruption);
    result ← inspectReplay digest final content;
    mret (with_replayed result (negb created)).

Definition Read (digest : Digest) (maximum : Z) : io W string :=
  _ ← guard (Digest_IsZero digest || (maximum <? 0) || (MaxObjectBytes <? maximum))
        (Wrapped "context, digest, or read bound" ErrInput);
  _ ← digestGuard digest;
  final ← objectPath digest false;
  '(_, present) ← settlePromotion digest final;
  _ ← guard (negb present) (Wrapped "read CAS object" ErrNotExist);
  readVerifiedFile final digest maximum 1.

Definition CasStore_VerifyArtifact (digest : Digest) (byteSize : Z) : io W () :=
  content ← Read digest byteSize;
  guard (negb (slen content =? byteSize) || negb (bool_decide (Sum content = digest)))
    (Wrapped "object does not match verified metadata" ErrCorruption).
End cas.

(** ** Opening *)

Section opening.
Context {W : Type} (env : CasEnv W).

Definition resolve (what : string) (root : string) : io W () :=
  real ← run (λ w, (wrap_error ("resolve " +:+ what) (env.(ce_real) w root), w));
  guard (negb (bool_decide (real = root))) (Wrapped (what +:+ " has a symlinked ancestor") ErrCorruption).

Definition Open (root : string) : io W CasStore :=
  _ ← guard (negb (canonical_root root)) (Wrapped "root must be an absolute canonical path" ErrInput);
  rootCreated ← ensurePrivateDirectory env root;
  _ ← (if rootCreated : bool then syncDirectory env (parent_directory "" "" root) else mret ());
  let temp := join root ".tmp" in
  created ← ensurePrivateDirectory env temp;
  _ ← (if created : bool then syncDirectory env root else mret ());
  _ ← resolve "CAS root" root;
  mret {| cs_root := root; cs_temp := temp |}.

Definition OpenExisting (root : string) : io W CasStore :=
  _ ← guard (negb (canonical_root root)) (Wrapped "root must be an absolute canonical path" ErrInput);
  _ ← requirePrivateDirectory env root;
  let temp := join root ".tmp" in
  _ ← requirePrivateDirectory env temp;
  _ ← resolve "existing CAS root" root;
  mret {| cs_root := root; cs_temp := temp |}.
End opening.
