(* ===== verification/CasInv.v ===== *)
(** The protocol of the object store: which file system changes its writers make,
    the invariant of the tree under any interleaving of them, and that every
    operation keeps to the protocol whatever fails.

    The operations of the object store keep to its protocol: a small program logic
    over file system steps, and what [Put] and [Read] establish, whatever other
    writers do between two calls and whichever calls fail. *)

From Stdlib Require Import Lia.
From S2P Require Import Prelude Io Utf8 Json Wire Sha256 Time Value Intent Bound Cas.

#[local] Open Scope Z_scope.

Section tree.
Context (store : CasStore).
Definition root_layout : Prop := store.(cs_temp) = join store.(cs_root) ".tmp".

Definition shard (d : Digest) : string := join store.(cs_root) (String.substring 0 2 (hex_encode d)).
Definition final (d : Digest) : path := (shard d, hex_encode d).
Definition marker (d : Digest) : path := (store.(cs_temp), hex_encode d +:+ ".promote").
Definition temp (r : string) : path := (store.(cs_temp), temp_name r).

(** ** Protocol steps *)

(** The content of an inode is a complete object of the digest. *)
Definition complete (fs : FS) (d : Digest) (i : Z) : Prop := ∃ n, fs.(fs_inodes) !! i = Some n ∧
  n.(in_private) = true ∧ Sum n.(in_content) = d ∧ slen n.(in_content) <= MaxObjectBytes.

(** One change by a writer that owns the temporary names [mine]: a temporary file
    is created, written, discarded, or - when it holds a complete object - becomes
    the marker of its digest; a marker is linked as the object unless there is one;
    a marker whose object exists is removed; a directory is made. *)
Inductive cas_step (mine : string → Prop) (fs : FS) : FS → Prop :=
| cas_create r now : mine r → cas_step mine fs (snd (create_excl fs (temp r) now))
| cas_write r i c now :
    mine r → fs.(fs_files) !! temp r = Some i → cas_step mine fs (write_inode fs i c now)
| cas_discard r : mine r → cas_step mine fs (snd (remove_file fs (temp r)))
| cas_publish r d i :
    mine r → digest_ok d → fs.(fs_files) !! temp r = Some i → complete fs d i → is_Some (fs.(fs_dirs) !! shard d) →
    cas_step mine fs (snd (rename_file fs (temp r) (marker d)))
| cas_promote d : digest_ok d → cas_step mine fs (snd (link_file fs (marker d) (final d)))
| cas_unmark d :
    digest_ok d → is_Some (fs.(fs_files) !! final d) → cas_step mine fs (snd (remove_file fs (marker d)))
| cas_mkdir dir private :
    (fs.(fs_dirs) !! dir = Some true → private = true) →
    cas_step mine fs (set_dirs (<[dir := private]> fs.(fs_dirs)) fs).

(** ** The invariant of the tree *)

(** A complete object that only the object name and the marker of its digest link. *)
Definition object_ok (fs : FS) (d : Digest) (i : Z) : Prop :=
  complete fs d i ∧ ∀ p, fs.(fs_files) !! p = Some i → p = final d ∨ p = marker d.

Record cas_inv (fs : FS) : Prop := {
  ci_inodes : ∀ p i, fs.(fs_files) !! p = Some i → is_Some (fs.(fs_inodes) !! i);
  ci_final : ∀ d i, digest_ok d → fs.(fs_files) !! final d = Some i → object_ok fs d i;
  ci_marker : ∀ d i, digest_ok d → fs.(fs_files) !! marker d = Some i →
    object_ok fs d i ∧ is_Some (fs.(fs_dirs) !! shard d);
  ci_temp : ∀ r i, fs.(fs_files) !! temp r = Some i → String.length r = 16%nat →
    ∀ p, fs.(fs_files) !! p = Some i → p = temp r;
}.

(** What no step of the protocol takes back. *)
Record kept (fs fs' : FS) : Prop := {
  kp_final : ∀ d i, digest_ok d → fs.(fs_files) !! final d = Some i → fs'.(fs_files) !! final d = Some i;
  kp_object : ∀ d i n, digest_ok d → fs.(fs_files) !! final d = Some i → fs.(fs_inodes) !! i = Some n →
    fs'.(fs_inodes) !! i = Some n;
  kp_dirs : ∀ dir, is_Some (fs.(fs_dirs) !! dir) → is_Some (fs'.(fs_dirs) !! dir);
  kp_private : ∀ dir, fs.(fs_dirs) !! dir = Some true → fs'.(fs_dirs) !! dir = Some true;
}.

#[export] Instance kept_preorder : PreOrder kept.
Proof.
  split; [by split|]. intros x y z [F1 O1 D1 P1] [F2 O2 D2 P2]. split; eauto.
Qed.

(** *** Names *)

Hypothesis Hroot : root_layout.

Lemma hex_inj d d' : hex_encode d = hex_encode d' → d = d'.
Proof. intros E. pose proof (hex_decode_encode d) as H. rewrite E, hex_decode_encode in H. by injection H. Qed.

Lemma final_inj d d' : final d = final d' → d = d'.
Proof. intros [= _ E]. by apply hex_inj. Qed.

Lemma marker_inj d d' : marker d = marker d' → d = d'.
Proof. intros [= E]. apply append_suffix_inj in E as [E _]; [by apply hex_inj|done]. Qed.

Lemma substring2_length s : (String.length (String.substring 0 2 s) <= 2)%nat.
Proof. destruct s as [|a [|b s]]; cbn; [lia..|]. destruct s; cbn; lia. Qed.

Lemma shard_temp d : shard d ≠ store.(cs_temp).
Proof.
  rewrite Hroot. unfold shard, join. intros E%string_app_inj. apply (string_app_inj "/") in E.
  pose proof (substring2_length (hex_encode d)) as H. rewrite E in H. cbn in H. lia.
Qed.

Lemma final_marker d d' : final d ≠ marker d'.
Proof. intros [= E _]. by apply shard_temp in E. Qed.

Lemma final_temp d r : final d ≠ temp r.
Proof. intros [= E _]. by apply shard_temp in E. Qed.

Lemma marker_temp d r : digest_wf d → String.length r = 16%nat → marker d ≠ temp r.
Proof.
  intros Hd Hr [= E]. apply (f_equal String.length) in E. unfold temp_name in E.
  rewrite !string_length_app, !hex_encode_length, Hd, Hr in E. cbn in E. lia.
Qed.

(** *** Preservation *)

Lemma complete_inodes fs fs' d i :
  fs'.(fs_inodes) !! i = fs.(fs_inodes) !! i → complete fs d i → complete fs' d i.
Proof. intros E (n & Hn & ?). exists n. by rewrite E. Qed.

Lemma create_kept fs r now :
  String.length r = 16%nat → cas_inv fs →
  cas_inv (snd (create_excl fs (temp r) now)) ∧ kept fs (snd (create_excl fs (temp r) now)).
Proof.
  intros Hlen Hinv. unfold create_excl. destruct (is_some (_ !! _)) eqn:Hp; [done|].
  destruct (negb _); [done|]. cbn [snd]. set (i := fresh_inode fs). destruct Hinv as [Hi Hf Hm Ht].
  assert (fs.(fs_inodes) !! i = None) as Hfresh.
  { unfold i, fresh_inode. apply not_elem_of_dom. apply is_fresh. }
  assert (∀ p j, fs.(fs_files) !! p = Some j → j ≠ i) as Hne.
  { intros p j Hpj ->. apply Hi in Hpj as [n Hn]. congruence. }
  assert (∀ p, p ≠ temp r → (<[temp r := i]> fs.(fs_files)) !! p = fs.(fs_files) !! p) as Hl
    by (intros; by apply lookup_insert_ne).
  assert (∀ d j, digest_ok d → object_ok fs d j → j ≠ i → object_ok
    (set_files (<[temp r := i]> fs.(fs_files))
      (set_inodes (<[i := {| in_content := ""; in_private := true; in_mtime := now |}]> fs.(fs_inodes)) fs)) d j)
    as Hok.
  { intros d j Hd [Hc Hn] Hj. split; [eapply complete_inodes; [|exact Hc]; by apply lookup_insert_ne|].
    cbn. intros p Hp'. destruct (decide (p = temp r)) as [->|Hp'']; [by rewrite lookup_insert_eq in Hp'; simplify_eq|].
    rewrite Hl in Hp' by done. by apply Hn. }
  split; [split; cbn|split; cbn].
  - intros p j Hpj. destruct (decide (j = i)) as [->|Hj]; [by rewrite lookup_insert_eq; eauto|].
    rewrite lookup_insert_ne by done. destruct (decide (p = temp r)) as [->|Hp'].
    + rewrite lookup_insert_eq in Hpj. congruence.
    + rewrite Hl in Hpj by done. by eapply Hi.
  - intros d j Hd Hj. rewrite Hl in Hj by apply final_temp. apply Hok; [done|by apply Hf|by eapply Hne].
  - intros d j Hd Hj. rewrite Hl in Hj by (apply marker_temp; [apply Hd|done]).
    destruct (Hm _ _ Hd Hj). split; [|done]. apply Hok; [done|done|by eapply Hne].
  - intros r' j Hj Hr' p Hpj. destruct (decide (temp r' = temp r)) as [E|Hr].
    + rewrite E, lookup_insert_eq in Hj. injection Hj as <-. destruct (decide (p = temp r)) as [->|Hp']; [done|].
      rewrite Hl in Hpj by done. by apply Hne in Hpj.
    + rewrite Hl in Hj by done. destruct (decide (p = temp r)) as [->|Hp'].
      * rewrite lookup_insert_eq in Hpj. injection Hpj as <-. by apply Hne in Hj.
      * rewrite Hl in Hpj by done. by eapply Ht.
  - intros d j Hd Hj. by rewrite Hl by apply final_temp.
  - intros d j n Hd Hj Hn. rewrite lookup_insert_ne; [done|]. intros ->. by apply Hne in Hj.
  - done.
  - done.
Qed.

Lemma write_kept fs r i c now :
  String.length r = 16%nat → cas_inv fs → fs.(fs_files) !! temp r = Some i →
  cas_inv (write_inode fs i c now) ∧ kept fs (write_inode fs i c now).
Proof.
  intros Hlen [Hi Hf Hm Ht] Hr. unfold write_inode.
  assert (∀ d j, digest_ok d → object_ok fs d j → fs.(fs_files) !! final d = Some j ∨ fs.(fs_files) !! marker d = Some j →
    j ≠ i) as Hne.
  { intros d j Hd _ [Hj|Hj] ->.
    - by eapply final_temp, (Ht r i).
    - eapply (marker_temp d r); [apply Hd|done|]. by eapply (Ht r i). }
  assert (∀ d j, object_ok fs d j → j ≠ i → object_ok (set_inodes (alter
    (λ n, {| in_content := c; in_private := n.(in_private); in_mtime := now |}) i fs.(fs_inodes)) fs) d j) as Hok.
  { intros d j [Hc Hn] Hj. split; [|done]. eapply complete_inodes; [|exact Hc]. by apply lookup_alter_ne. }
  split; [split; cbn|split; cbn].
  - intros p j Hpj. rewrite lookup_alter_is_Some. by eapply Hi.
  - intros d j Hd Hj. apply Hok; [by apply Hf|]. eapply Hne; [done|by apply Hf|by left].
  - intros d j Hd Hj. destruct (Hm _ _ Hd Hj) as [Ho ?]. split; [|done]. apply Hok; [done|]. eapply Hne; [done|done|by right].
  - exact Ht.
  - done.
  - intros d j n Hd Hj Hn. rewrite lookup_alter_ne; [done|]. intros <-. eapply (Hne d i); [done|by apply Hf|by left|done].
  - done.
  - done.
Qed.

(** A name that is neither an object nor needed by the invariant goes away. *)
Lemma delete_kept fs p :
  cas_inv fs → (∀ d, digest_ok d → p ≠ final d) →
  cas_inv (set_files (delete p fs.(fs_files)) fs) ∧ kept fs (set_files (delete p fs.(fs_files)) fs).
Proof.
  intros [Hi Hf Hm Ht] Hp.
  assert (∀ q j, (delete p fs.(fs_files)) !! q = Some j → fs.(fs_files) !! q = Some j) as Hd.
  { intros q j Hq. by apply lookup_delete_Some in Hq as [_ ?]. }
  assert (∀ d j, object_ok fs d j → object_ok (set_files (delete p fs.(fs_files)) fs) d j) as Hok.
  { intros d j [Hc Hn]. split; [done|]. cbn. intros q Hq. by apply Hn, Hd. }
  split; [split; cbn|split; cbn]; try done.
  - intros q j Hq. by eapply Hi, Hd.
  - intros d j Hdig Hj. by apply Hok, Hf, Hd.
  - intros d j Hdig Hj. destruct (Hm d j Hdig (Hd _ _ Hj)). split; [by apply Hok|done].
  - intros r i Hr Hlen q Hq. eapply Ht; [by apply Hd|done|by apply Hd].
  - intros d j Hdig Hj. rewrite lookup_delete_ne; [done|]. by apply Hp.
Qed.

Lemma remove_kept fs p :
  cas_inv fs → (∀ d, digest_ok d → p ≠ final d) →
  cas_inv (snd (remove_file fs p)) ∧ kept fs (snd (remove_file fs p)).
Proof. intros Hinv Hp. unfold remove_file. destruct (_ !! p); [by apply delete_kept|done]. Qed.

Lemma publish_kept fs r d i :
  String.length r = 16%nat → cas_inv fs → digest_ok d → fs.(fs_files) !! temp r = Some i → complete fs d i →
  is_Some (fs.(fs_dirs) !! shard d) →
  cas_inv (snd (rename_file fs (temp r) (marker d))) ∧ kept fs (snd (rename_file fs (temp r) (marker d))).
Proof.
  intros Hlen Hinv Hd Hr Hc Hs. unfold rename_file. rewrite Hr. destruct (negb _); [done|].
  destruct (bool_decide _); [done|]. cbn [snd].
  destruct (delete_kept fs (temp r) Hinv) as [Hinv1 Hk1]; [intros d' _ E; by eapply final_temp|].
  assert (∀ p, (delete (temp r) fs.(fs_files)) !! p ≠ Some i) as Hno.
  { intros p Hpi. apply lookup_delete_Some in Hpi as [Hp ?]. apply Hp. symmetry. by apply (ci_temp _ Hinv r i). }
  set (files := delete (temp r) fs.(fs_files)) in *.
  assert (∀ d', final d' ≠ marker d) as Hfm by (intros; apply final_marker).
  assert (∀ d' j, object_ok (set_files files fs) d' j → j ≠ i →
    object_ok (set_files (<[marker d := i]> files) fs) d' j) as Hok.
  { intros d' j [Hc' Hn] Hj. split; [done|]. cbn in *. intros p Hp.
    destruct (decide (p = marker d)) as [->|Hp']; [rewrite lookup_insert_eq in Hp; congruence|].
    rewrite lookup_insert_ne in Hp by done. by apply Hn. }
  destruct Hinv1 as [Hi Hf Hm Ht]. cbn in *. split.
  - split; cbn.
    + intros p j Hp. destruct (decide (p = marker d)) as [->|Hp'].
      * rewrite lookup_insert_eq in Hp. injection Hp as <-. destruct Hc as (n & Hn & _). by exists n.
      * rewrite lookup_insert_ne in Hp by done. by eapply Hi.
    + intros d' j Hd' Hj. rewrite lookup_insert_ne in Hj by done. apply Hok; [by apply Hf|].
      intros ->. by eapply Hno.
    + intros d' j Hd' Hj. destruct (decide (d' = d)) as [->|Hne].
      * rewrite lookup_insert_eq in Hj. injection Hj as <-. split; [|done]. split; [done|]. cbn. intros p Hp.
        destruct (decide (p = marker d)) as [->|Hp']; [by right|]. rewrite lookup_insert_ne in Hp by done.
        by apply Hno in Hp.
      * rewrite lookup_insert_ne in Hj by (intros E; by apply marker_inj in E).
        destruct (Hm d' j Hd' Hj). split; [|done]. apply Hok; [done|]. intros ->. by eapply Hno.
    + intros r' j Hj Hlen' p Hp. rewrite lookup_insert_ne in Hj by (apply marker_temp; [apply Hd|done]).
      destruct (decide (p = marker d)) as [->|Hp'].
      * rewrite lookup_insert_eq in Hp. injection Hp as <-. by apply Hno in Hj.
      * rewrite lookup_insert_ne in Hp by done. by eapply Ht.
  - etrans; [exact Hk1|]. split; cbn; try done.
    intros d' j Hd' Hj. by rewrite lookup_insert_ne by done.
Qed.

Lemma promote_kept fs d :
  cas_inv fs → digest_ok d →
  cas_inv (snd (link_file fs (marker d) (final d))) ∧ kept fs (snd (link_file fs (marker d) (final d))).
Proof.
  intros Hinv Hd. unfold link_file. destruct (_ !! marker d) as [i|] eqn:Hmk; [|done].
  destruct (negb _); [done|]. destruct (is_some _) eqn:Hfin; [done|]. cbn [snd].
  assert (fs.(fs_files) !! final d = None) as Hnone by by destruct (_ !! final d).
  destruct Hinv as [Hi Hf Hm Ht]. destruct (Hm d i Hd Hmk) as [[Hc Hn] Hs].
  assert (∀ p, p ≠ final d → (<[final d := i]> fs.(fs_files)) !! p = fs.(fs_files) !! p) as Hl
    by (intros; by apply lookup_insert_ne).
  assert (∀ d' j, digest_ok d' → object_ok fs d' j → (j = i → d' = d) →
    object_ok (set_files (<[final d := i]> fs.(fs_files)) fs) d' j) as Hok.
  { intros d' j Hd' [Hc' Hn'] Hj. split; [done|]. cbn. intros p Hp.
    destruct (decide (p = final d)) as [->|Hp'].
    - rewrite lookup_insert_eq in Hp. injection Hp as <-. left. by rewrite Hj.
    - rewrite Hl in Hp by done. by apply Hn'. }
  assert (∀ d' p, p = final d' ∨ p = marker d' → fs.(fs_files) !! p = Some i → d' = d) as Howner.
  { intros d' p Hp Hpi. destruct (Hn p Hpi) as [-> | ->].
    - congruence.
    - destruct Hp as [E|E]; [symmetry in E; by apply final_marker in E|by apply marker_inj in E]. }
  split; [split; cbn|split; cbn]; try done.
  - intros p j Hp. destruct (decide (p = final d)) as [->|Hp'].
    + rewrite lookup_insert_eq in Hp. injection Hp as <-. by eapply Hi.
    + rewrite Hl in Hp by done. by eapply Hi.
  - intros d' j Hd' Hj. destruct (decide (d' = d)) as [->|Hne].
    + rewrite lookup_insert_eq in Hj. injection Hj as <-. by apply Hok.
    + rewrite Hl in Hj by (intros E; by apply final_inj in E). apply Hok; [done|by apply Hf|].
      intros ->. eapply Howner; [by left|done].
  - intros d' j Hd' Hj. rewrite Hl in Hj by (intros E; by symmetry in E; apply final_marker in E).
    destruct (Hm d' j Hd' Hj). split; [|done]. apply Hok; [done|done|]. intros ->. eapply Howner; [by right|done].
  - intros r j Hj Hlen p Hp. rewrite Hl in Hj by (intros E; symmetry in E; by apply final_temp in E).
    destruct (decide (p = final d)) as [->|Hp'].
    + rewrite lookup_insert_eq in Hp. injection Hp as <-. exfalso.
      pose proof (Ht r i Hj Hlen (marker d) Hmk) as E. apply marker_temp in E; [done|apply Hd|done].
    + rewrite Hl in Hp by done. by eapply Ht.
  - intros d' j Hd' Hj. rewrite Hl; [done|]. intros E%final_inj. congruence.
Qed.

(** Every step keeps the invariant, and objects stay as they are. *)
Lemma cas_step_kept mine fs fs' :
  (∀ r, mine r → String.length r = 16%nat) → cas_step mine fs fs' → cas_inv fs → cas_inv fs' ∧ kept fs fs'.
Proof.
  intros Hmine Hstep Hinv. destruct Hstep.
  - by apply create_kept; [apply Hmine|].
  - by eapply write_kept; [apply Hmine| |].
  - apply remove_kept; [done|]. intros d _ E. symmetry in E. by apply final_temp in E.
  - by eapply publish_kept; [apply Hmine|..].
  - by apply promote_kept.
  - apply remove_kept; [done|]. intros d' _ E. symmetry in E. by apply final_marker in E.
  - destruct Hinv as [Hi Hf Hm Ht]. split; split; cbn; try done.
    + intros d i Hd Hi'. destruct (Hm d i Hd Hi') as [? Hs]. split; [done|].
      destruct (decide (dir = shard d)) as [->|Hne]; [by rewrite lookup_insert_eq; eauto|by rewrite lookup_insert_ne].
    + intros dir' Hdir. destruct (decide (dir = dir')) as [->|Hne];
        [by rewrite lookup_insert_eq; eauto|by rewrite lookup_insert_ne].
    + intros dir' Hdir. destruct (decide (dir = dir')) as [->|Hne]; [|by rewrite lookup_insert_ne].
      rewrite lookup_insert_eq. f_equal. auto.
Qed.

(** Only directories changed, and none went. *)
Lemma cas_inv_dirs fs fs' :
  fs'.(fs_files) = fs.(fs_files) → fs'.(fs_inodes) = fs.(fs_inodes) →
  (∀ dir, is_Some (fs.(fs_dirs) !! dir) → is_Some (fs'.(fs_dirs) !! dir)) → cas_inv fs → cas_inv fs'.
Proof.
  intros Hf Hn Hd [Hi Hfin Hm Ht]. unfold object_ok, complete in *. split; rewrite ?Hf, ?Hn; try done.
  - intros d i Hdig Hi'. unfold object_ok, complete. rewrite Hf, Hn. by apply Hfin.
  - intros d i Hdig Hi'. unfold object_ok, complete. rewrite Hf, Hn. destruct (Hm d i Hdig Hi'). eauto.
Qed.

Lemma cas_steps_kept mine fs fs' :
  (∀ r, mine r → String.length r = 16%nat) → rtc (cas_step mine) fs fs' → cas_inv fs → cas_inv fs' ∧ kept fs fs'.
Proof.
  intros Hmine. induction 1 as [|x y z Hxy _ IH]; intros Hinv; [done|].
  destruct (cas_step_kept _ _ _ Hmine Hxy Hinv) as [Hy Hk]. destruct (IH Hy) as [Hz Hk']. split; [done|by etrans].
Qed.
End tree.

Section ops.
Context {W : Type} (env : CasEnv W) (store : CasStore) (ours theirs : string → Prop).

Definition anyone (r : string) : Prop := ours r ∨ theirs r.

(** What is assumed of the world: a call's effect is what the next call finds, other
    writers follow the protocol under temporary names of their own, and random names
    have 16 bytes. *)
Record cas_world : Prop := {
  cw_root : root_layout store;
  cw_put : ∀ w fs, env.(ce_fs) (env.(ce_put) w fs) = fs;
  cw_others : ∀ w, rtc (cas_step store theirs) (env.(ce_fs) w) (env.(ce_fs) (env.(ce_others) w));
  cw_random : ∀ w r, env.(ce_random) w = Ok r → ours r;
  cw_names : ∀ r, anyone r → String.length r = 16%nat;
  cw_apart : ∀ r r', ours r → theirs r' → r ≠ r';
}.
Hypothesis Hw : cas_world.

Lemma steps_anyone (mine : string → Prop) fs fs' :
  (∀ r, mine r → anyone r) → rtc (cas_step store mine) fs fs' → rtc (cas_step store anyone) fs fs'.
Proof.
  intros Hm. apply rtc_subrel. intros x y Hstep. destruct Hstep; econstructor; eauto.
Qed.

Lemma tree_steps fs fs' :
  rtc (cas_step store anyone) fs fs' → cas_inv store fs → cas_inv store fs' ∧ kept store fs fs'.
Proof. apply cas_steps_kept; [apply (cw_root Hw)|apply (cw_names Hw)]. Qed.

(** ** Triples *)

(** From a tree in order, protocol steps only. *)
Abbreviation ht := (triple env.(ce_fs) (cas_step store anyone) (cas_inv store)).

Lemma cas_keeps : Keeps (cas_step store anyone) (cas_inv store).
Proof. intros fs fs' Hs Hi. by apply (tree_steps fs fs'). Qed.
#[local] Existing Instance cas_keeps.

(** A property no step takes back. *)
Class Mono (P : FS → Prop) : Prop := mono fs fs' : kept store fs fs' → P fs → P fs'.

(** A property the other writers do not take back. *)
Class Stable (P : FS → Prop) : Prop := stable fs fs' :
  cas_inv store fs → rtc (cas_step store theirs) fs fs' → P fs → P fs'.

(** Nothing but what others did. *)
Definition quiet {A} (m : io W A) : Prop := ∀ w,
  rtc (cas_step store theirs) (env.(ce_fs) w) (env.(ce_fs) (snd (m w))).

Definition nothing : FS → Prop := λ _, True.

#[export] Instance mono_and P Q : Mono P → Mono Q → Mono (λ fs, P fs ∧ Q fs).
Proof. intros HP HQ fs fs' Hk [? ?]. split; eauto. Qed.
#[export] Instance mono_nothing : Mono nothing.
Proof. done. Qed.
#[export] Instance mono_const (X : Prop) : Mono (λ _, X).
Proof. by intros ???. Qed.

#[export] Instance mono_stable P : Mono P → Stable P.
Proof.
  intros HP fs fs' Hi Hs. apply HP. apply (steps_anyone theirs) in Hs; [|by right]. by apply tree_steps.
Qed.
#[export] Instance stable_and P Q : Stable P → Stable Q → Stable (λ fs, P fs ∧ Q fs).
Proof. intros HP HQ fs fs' Hi Hs [? ?]. split; eauto. Qed.

(** What is never taken back survives every step. *)
Lemma ht_frame {A} P F (m : io W A) Q : Mono F → ht P m Q → ht (λ fs, P fs ∧ F fs) m (λ x fs, Q x fs ∧ F fs).
Proof.
  intros HF Hm w Hi [HP HFw]. destruct (Hm w Hi HP) as [Hs HQ]. split; [done|]. intros x Hx.
  split; [by apply HQ|]. eapply HF; [by apply tree_steps|done].
Qed.

Lemma ht_keep {A} P (m : io W A) Q : Mono P → ht nothing m Q → ht P m (λ x fs, Q x fs ∧ P fs).
Proof. intros HP Hm. eapply ht_weaken; [apply (ht_frame _ P _ _ HP Hm)|done|done]. Qed.

(** Steps that follow another whose result is only in the frame. *)
Lemma ht_seq {A B} P (m : io W A) (k : A → io W B) Q Q' :
  Mono P → ht nothing m Q → (∀ x, ht (λ fs, Q x fs ∧ P fs) (k x) Q') → ht P (m ≫= k) Q'.
Proof. intros HP Hm Hk. eapply ht_bind; [apply (ht_keep _ _ _ HP Hm)|done]. Qed.

(** ** System calls *)

Lemma ht_syscall {A} P (f : W → FS → result A * FS) Q :
  Stable P →
  (∀ w fs, cas_inv store fs → P fs → rtc (cas_step store ours) fs (snd (f w fs)) ∧
     ∀ x, fst (f w fs) = Ok x → Q x (snd (f w fs))) →
  ht P (syscall env f) Q.
Proof.
  intros HP Hf w Hi HPw. unfold syscall. pose proof (cw_others Hw w) as Ho.
  pose proof (HP _ _ Hi Ho HPw) as HPo. apply (steps_anyone theirs) in Ho; [|by right]. destruct (tree_steps _ _ Ho Hi) as [Hi' _].
  destruct (ce_fault env _); [by split|].
  destruct (Hf (env.(ce_others) w) _ Hi' HPo) as [Hs HQ].
  destruct (f _ _) as [r fs]. cbn [fst snd] in *. rewrite (cw_put Hw). split; [|done].
  etrans; [exact Ho|]. by apply (steps_anyone ours); [left|].
Qed.

Lemma ht_reads {A} P (f : W → FS → result A * FS) :
  Stable P → (∀ w fs, snd (f w fs) = fs) →
  ht P (syscall env f) (λ x fs, (∃ w, fst (f w fs) = Ok x) ∧ P fs).
Proof.
  intros HP Hf. apply ht_syscall; [done|]. intros w fs _ HPf. rewrite Hf. split; [apply rtc_refl|].
  intros x Hx. split; [by exists w|done].
Qed.

Lemma quiet_reads {A} (f : W → FS → result A * FS) : (∀ w fs, snd (f w fs) = fs) → quiet (syscall env f).
Proof.
  intros Hf w. unfold syscall. destruct (ce_fault env _); [apply (cw_others Hw)|].
  specialize (Hf (env.(ce_others) w) (env.(ce_fs) (env.(ce_others) w))). destruct (f _ _) as [r fs].
  cbn [snd] in *. subst fs. rewrite (cw_put Hw). apply (cw_others Hw).
Qed.

Lemma quiet_ret {A} (x : A) : quiet (mret x).
Proof. intros w. apply rtc_refl. Qed.
Lemma quiet_lift {A} (r : result A) : quiet (lift r).
Proof. intros w. apply rtc_refl. Qed.
Lemma quiet_bind {A B} (m : io W A) (k : A → io W B) : quiet m → (∀ x, quiet (k x)) → quiet (m ≫= k).
Proof.
  intros Hm Hk w. unfold mbind, io_bind. specialize (Hm w). destruct (m w) as [[x|e] w1]; [|done].
  cbn [snd] in *. etrans; [exact Hm|apply Hk].
Qed.
Lemma quiet_attempt {A} (m : io W A) : quiet m → quiet (attempt m).
Proof. intros Hm w. specialize (Hm w). unfold attempt. by destruct (m w). Qed.
Lemma quiet_wrapping {A} c (m : io W A) : quiet m → quiet (wrapping c m).
Proof. intros Hm w. specialize (Hm w). unfold wrapping. by destruct (m w). Qed.

(** A quiet operation is safe everywhere. *)
Lemma quiet_ht {A} (m : io W A) : quiet m → ht nothing m (λ _ _, True).
Proof. intros Hm w _ _. split; [|done]. apply (steps_anyone theirs); [by right|apply Hm]. Qed.

(** A quiet step in front. *)
Lemma ht_skip {A B} P (m : io W A) (k : A → io W B) Q :
  Stable P → quiet m → (∀ x, ht P (k x) Q) → ht P (m ≫= k) Q.
Proof.
  intros HP Hm Hk. apply (ht_bind P m k (λ _, P)); [|exact Hk]. intros w Hi HPw. specialize (Hm w).
  split; [apply (steps_anyone theirs); [by right|exact Hm]|]. intros x _. by eapply HP.
Qed.

End ops.

(** Steps that only look. *)
Ltac skip := eapply ht_skip; [eassumption|apply _|solve [eauto 12 with quiet]|intros ?].

Create HintDb quiet.
#[export] Hint Resolve quiet_ret quiet_lift quiet_attempt quiet_wrapping : quiet.
#[export] Hint Extern 1 (quiet _ _ _ (syscall _ _)) => eapply quiet_reads; [eassumption|intros; reflexivity] : quiet.
#[export] Hint Extern 1 (quiet _ _ _ (_ ≫= _)) => apply quiet_bind; [|intros ?] : quiet.
#[export] Hint Extern 1 (quiet _ _ _ (guard _ _)) => apply quiet_lift : quiet.
#[export] Hint Extern 2 (quiet _ _ _ (match ?x with _ => _ end)) => destruct x : quiet.
