(* ===== verification/CasSafe.v ===== *)
(** What the operations of the object store establish: each keeps to the protocol,
    [Put] leaves its bytes as the object of their digest, and [Read] returns the
    object's bytes. *)

From Stdlib Require Import Lia.
From S2P Require Import Prelude Io Utf8 Json Wire Sha256 Time Value Intent Bound Cas CasInv.

#[local] Open Scope Z_scope.

Lemma substring_whole k s : (String.length (String.substring 0 k s) < k)%nat → String.substring 0 k s = s.
Proof.
  revert s. induction k as [|k IH]; intros s; [lia|]. destruct s as [|c s]; [done|].
  cbn [String.substring String.length]. intros H. f_equal. apply IH. lia.
Qed.

Lemma digestHex_Ok d h : digest_wf d → digestHex d = Ok h → h = hex_encode d ∧ digest_ok d.
Proof.
  intros Hd H. unfold digestHex in H. apply bind_Ok in H as ([] & Hz%fail_if_Ok & H). cbv zeta in H.
  apply bind_Ok in H as ([] & _ & H). apply (inj Ok) in H as <-. split; [|done].
  unfold Digest_String. by rewrite strip_prefix_app.
Qed.

Section safe.
Context {W : Type} (env : CasEnv W) (store : CasStore) (ours theirs : string → Prop).
Hypothesis Hw : cas_world env store ours theirs.
Let Hroot := cw_root _ _ _ _ Hw.
Abbreviation ht := (triple env.(ce_fs) (cas_step store (anyone ours theirs)) (cas_inv store)).
#[local] Instance safe_keeps : Keeps (cas_step store (anyone ours theirs)) (cas_inv store) := cas_keeps _ _ _ _ Hw.
Abbreviation quiet := (quiet env store theirs).
Abbreviation Mono := (Mono store).

#[local] Instance mono_is_stable P : Mono P → Stable store theirs P := mono_stable _ _ _ _ Hw P.

(** ** Reading is quiet *)

Lemma quiet_privateDirectory dir : quiet (privateDirectory env dir).
Proof. unfold privateDirectory, os_LstatDirectory. eauto 9 with quiet. Qed.
Hint Resolve quiet_privateDirectory : quiet.

Lemma quiet_requirePrivateDirectory dir : quiet (requirePrivateDirectory env dir).
Proof. unfold requirePrivateDirectory. eauto 9 with quiet. Qed.
Hint Resolve quiet_requirePrivateDirectory : quiet.

Lemma quiet_os_Sync : quiet (os_Sync env).
Proof. unfold os_Sync. eauto 9 with quiet. Qed.
Hint Resolve quiet_os_Sync : quiet.

Lemma quiet_syncDirectory dir : quiet (syncDirectory env dir).
Proof. unfold syncDirectory. eauto 9 with quiet. Qed.
Hint Resolve quiet_syncDirectory : quiet.

Lemma quiet_privateRegular p : quiet (privateRegular env p).
Proof. unfold privateRegular, os_Lstat. eauto 12 with quiet. Qed.
Hint Resolve quiet_privateRegular : quiet.

Lemma quiet_readVerifiedFile p d maximum links : quiet (readVerifiedFile env p d maximum links).
Proof. unfold readVerifiedFile, os_Lstat, os_Open, os_Fstat, os_ReadAll. cbv zeta. eauto 40 with quiet. Qed.
Hint Resolve quiet_readVerifiedFile : quiet.

#[local] Hint Extern 1 (digest_ok _) => assumption : typeclass_instances.

(** ** Facts that last *)

(** The object of [d] holds [c]. *)
Definition object_is (d : Digest) (c : string) (fs : FS) : Prop := ∃ i n,
  fs.(fs_files) !! final store d = Some i ∧ fs.(fs_inodes) !! i = Some n ∧ n.(in_content) = c.
Definition has_final (d : Digest) (fs : FS) : Prop := is_Some (fs.(fs_files) !! final store d).
Definition has_dir (dir : string) (fs : FS) : Prop := is_Some (fs.(fs_dirs) !! dir).

#[export] Instance object_is_mono d c : digest_ok d → Mono (object_is d c).
Proof.
  intros Hd fs fs' Hk (i & n & Hf & Hn & Hc). exists i, n. split_and!; [by eapply kp_final| |done].
  by eapply kp_object.
Qed.
#[export] Instance has_final_mono d : digest_ok d → Mono (has_final d).
Proof. intros Hd fs fs' Hk [i Hi]. exists i. by eapply kp_final. Qed.
#[export] Instance has_dir_mono dir : Mono (has_dir dir).
Proof. intros fs fs' Hk H. by eapply kp_dirs. Qed.

(** ** The object as read *)

Definition opened (d : Digest) (i : Z) (fs : FS) : Prop := fs.(fs_files) !! final store d = Some i.
Lemma opened_mono d i : digest_ok d → Mono (opened d i).
Proof. intros Hd fs fs' Hk. by apply kp_final. Qed.

Lemma readVerifiedFile_object d maximum links :
  digest_ok d → ht nothing (readVerifiedFile env (final store d) d maximum links)
    (λ c fs, object_is d c fs ∧ Sum c = d).
Proof.
  intros Hd. pose proof (opened_mono d) as Hmono.
  unfold readVerifiedFile, os_Lstat, os_Open, os_Fstat, os_ReadAll.
  skip. rename x into before. apply ht_lifted. intros [] _.
  eapply (ht_bind).
  { apply ht_wrapping. apply (ht_reads _ _ _ _ Hw nothing); [apply _|by intros]. }
  intros file. apply (ht_pre (opened d file)); [by intros fs [[w H%of_option_Ok] _]|].
  specialize (Hmono file Hd). skip. cbv zeta. apply ht_guard. intros _.
  eapply (ht_bind).
  { apply ht_attempt. apply (ht_reads _ _ _ _ Hw (opened d file)); [apply _|by intros]. }
  intros r. apply ht_lifted. intros content Hr%or_error_Ok. apply ht_guard. intros Hlen%Z.ltb_ge.
  apply (ht_pre (object_is d content)).
  2:{ skip. skip. apply ht_guard. intros _. apply ht_guard. intros Hsum%negb_false_iff%bool_decide_eq_true.
    apply ht_ret. intros fs Ho. by split. }
  intros fs Hc. destruct (Hc content Hr) as [[w Hread] Hopen]. cbn [fst] in Hread.
  apply bind_Ok in Hread as (n & Hn%of_option_Ok & Hread). apply (inj Ok) in Hread.
  exists file, n. split_and!; [done|done|]. rewrite <- Hread. symmetry. apply substring_whole.
  rewrite Hread. unfold slen in Hlen. lia.
Qed.

(** ** Directories *)

Definition mkdirs (dirs : list string) (fs : FS) : FS :=
  foldr (λ a fs, set_dirs (<[a := default true (fs.(fs_dirs) !! a)]> fs.(fs_dirs)) fs) fs dirs.

Lemma mkdirs_files dirs fs : (mkdirs dirs fs).(fs_files) = fs.(fs_files) ∧ (mkdirs dirs fs).(fs_inodes) = fs.(fs_inodes).
Proof. induction dirs; [done|]. cbn. done. Qed.

Lemma mkdirs_dirs dirs fs dir :
  (mkdirs dirs fs).(fs_dirs) !! dir =
    match fs.(fs_dirs) !! dir with Some b => Some b | None => if bool_decide (dir ∈ dirs) then Some true else None end.
Proof.
  induction dirs as [|a dirs IH]; [by cbn; destruct (_ !! dir)|]. cbn [mkdirs foldr set_dirs fs_dirs].
  fold (mkdirs dirs fs). destruct (decide (a = dir)) as [->|Hne].
  - rewrite lookup_insert_eq, IH. destruct (fs_dirs fs !! dir) as [b|]; [done|].
    rewrite (bool_decide_true (dir ∈ dir :: dirs)) by left. by destruct (bool_decide _).
  - rewrite lookup_insert_ne, IH by done. destruct (fs_dirs fs !! dir) as [b|]; [done|].
    destruct (decide (dir ∈ dirs)).
    + rewrite !bool_decide_true by (done || by right). done.
    + rewrite !bool_decide_false; [done|intros [?|?]%elem_of_cons; congruence|done].
Qed.

Lemma mkdir_steps mine dirs fs : rtc (cas_step store mine) fs (mkdirs dirs fs).
Proof.
  induction dirs as [|a dirs IH]; [apply rtc_refl|]. eapply rtc_r; [exact IH|]. cbn [mkdirs foldr]. fold (mkdirs dirs fs).
  apply cas_mkdir. by intros ->.
Qed.

Lemma ancestors_self before dir : is_empty (before +:+ dir) = false → (before +:+ dir) ∈ ancestors before dir.
Proof.
  revert before. induction dir as [|c dir IH]; intros before; cbn [ancestors].
  - rewrite string_app_nil_r. intros ->. by left.
  - assert (∀ c, before +:+ String c dir = (before +:+ String c "") +:+ dir) as E.
    { intros c'. by rewrite string_app_assoc. }
    intros H. assert ((before +:+ String c dir) ∈ ancestors (before +:+ String c "") dir) as Hin.
    { rewrite E. apply IH. by rewrite <- E. }
    destruct c as [[] [] [] [] [] [] [] []]; try exact Hin; apply elem_of_app; by right.
Qed.

Lemma mkdir_has dir fs : is_empty dir = false → has_dir dir (mkdirs (ancestors "" dir) fs).
Proof.
  intros Hd. unfold has_dir. rewrite mkdirs_dirs. destruct (fs_dirs fs !! dir); [by eauto|].
  rewrite bool_decide_true; [by eauto|]. by apply (ancestors_self "").
Qed.

Lemma ht_ensurePrivateDirectory dir :
  is_empty dir = false → ht nothing (ensurePrivateDirectory env dir) (λ _, has_dir dir).
Proof.
  intros Hdir.
  unfold ensurePrivateDirectory. eapply (ht_bind _ _ _ (λ present fs, present = true → has_dir dir fs)).
  { unfold privateDirectory, os_LstatDirectory. eapply (ht_bind).
    { apply ht_attempt, (ht_reads _ _ _ _ Hw nothing); [apply _|by intros]. }
    intros [private|e]; [|destruct (errors_is _ _); [by apply ht_ret|by apply ht_lift]].
    eapply (ht_pre (has_dir dir)).
    - intros fs H. destruct (H _ eq_refl) as [[w E%of_option_Ok] _]. by exists private.
    - apply ht_guard. intros _. by apply ht_ret. }
  intros [|]; [apply ht_ret; auto|]. eapply (ht_bind _ _ _ (λ _, has_dir dir)).
  { apply ht_wrapping. apply (ht_syscall _ _ _ _ Hw); [intros ????; done|]. intros w fs Hi _. cbn [fst snd]. split.
    - apply mkdir_steps.
    - intros _ _. by apply mkdir_has. }
  intros _. eapply (ht_bind _ _ _ (λ _, has_dir dir)).
  { apply ht_wrapping. apply (ht_syscall _ _ _ _ Hw); [apply _|]. intros w fs Hi Hd.
    destruct (fs_dirs fs !! dir) as [b|] eqn:E; cbn [fst snd]; [|split; [apply rtc_refl|done]]. split.
    - by apply rtc_once, cas_mkdir.
    - intros _ _. unfold has_dir. cbn. rewrite lookup_insert_eq. by eauto. }
  intros _. skip. by apply ht_ret.
Qed.

Lemma shard_nonempty d : is_empty (shard store d) = false.
Proof. unfold shard, join. by destruct (if String.eqb _ _ then _ else _). Qed.

Lemma ht_objectPath d create :
  digest_wf d →
  ht nothing (objectPath env store d create)
    (λ p fs, p = final store d ∧ digest_ok d ∧ (create = true → has_dir (shard store d) fs)).
Proof.
  intros Hd. unfold objectPath. apply ht_lifted. intros h Hh. apply digestHex_Ok in Hh as [-> Hok]; [|done].
  cbv zeta. change (join (cs_root store) (String.substring 0 2 (hex_encode d))) with (shard store d).
  eapply (ht_bind _ _ _ (λ _ fs, create = true → has_dir (shard store d) fs)).
  - destruct create.
    + eapply (ht_bind); [apply ht_ensurePrivateDirectory, shard_nonempty|]. intros created.
      apply (ht_post _ _ (λ _, has_dir (shard store d))); [auto|].
      destruct created; [|by apply ht_ret]. eapply (ht_weaken (has_dir (shard store d)));
        [eapply (ht_keep _ _ _ _ Hw); [apply _|apply (quiet_ht _ _ _ _), quiet_syncDirectory]|done|by intros ?? []].
    + skip. by apply ht_ret.
  - intros _. apply ht_ret. auto.
Qed.

(** ** Our temporary file *)

(** It links one private inode, which holds [c]. *)
Definition temp_is (r : string) (i : Z) (c : string) (fs : FS) : Prop :=
  fs.(fs_files) !! temp store r = Some i ∧
  ∃ n, fs.(fs_inodes) !! i = Some n ∧ n.(in_private) = true ∧ n.(in_content) = c.

Lemma temp_inj r r' : temp store r = temp store r' → r = r'.
Proof.
  intros E%(f_equal snd). cbn [temp snd] in E. apply hex_inj. unfold temp_name in E. apply (string_app_inj "put-") in E.
  by apply append_suffix_inj in E as [E _].
Qed.

(** No step of another writer touches it. *)
Lemma temp_is_step r i c fs fs' :
  ours r → cas_inv store fs → cas_step store theirs fs fs' → temp_is r i c fs → temp_is r i c fs'.
Proof.
  intros Hr Hi Hs Hsame. destruct Hsame as (Hf & n & Hn & Hp & Hc) eqn:Hd0. clear Hd0. pose proof (cw_names _ _ _ _ Hw) as Hlen.
  assert (String.length r = 16%nat) as Hl by by apply Hlen; left.
  assert (∀ r', theirs r' → temp store r' ≠ temp store r) as Hne.
  { intros r' Hr' E%temp_inj. by apply (cw_apart _ _ _ _ Hw r r'). }
  assert (∀ d, final store d ≠ temp store r) as Hfin by (intros d; by apply final_temp).
  destruct Hs as [r' now Hr'|r' j c' now Hr' Hj|r' Hr'|r' d j Hr' Hd Hj _ _|d Hd|d Hd _|dir b _].
  - unfold create_excl. destruct (is_some _); [exact Hsame|]. destruct (negb _); [exact Hsame|]. split; cbn.
    + by rewrite lookup_insert_ne by auto.
    + exists n. rewrite lookup_insert_ne; [done|]. intros E. assert (fs_inodes fs !! i = None); [|congruence].
      rewrite <- E. unfold fresh_inode. apply not_elem_of_dom, is_fresh.
  - split; [done|]. exists n. cbn. rewrite lookup_alter_ne; [done|]. intros ->.
    apply (Hne r' Hr'). by apply (ci_temp _ _ Hi r i).
  - unfold remove_file. destruct (fs_files fs !! temp store r'); [|exact Hsame]. split; cbn; [|eauto].
    by rewrite lookup_delete_ne by auto.
  - assert (marker store d ≠ temp store r) as Hm by (apply marker_temp; [apply Hd|done]).
    unfold rename_file. rewrite Hj. destruct (negb _); [exact Hsame|]. destruct (bool_decide _); [exact Hsame|].
    split; cbn; [|eauto]. by rewrite lookup_insert_ne, lookup_delete_ne by auto.
  - unfold link_file. destruct (fs_files fs !! marker store d); [|exact Hsame]. destruct (negb _); [exact Hsame|].
    destruct (is_some _); [exact Hsame|]. split; cbn; [|eauto]. by rewrite lookup_insert_ne by auto.
  - assert (marker store d ≠ temp store r) as Hm by (apply marker_temp; [apply Hd|done]).
    unfold remove_file. destruct (fs_files fs !! marker store d); [|exact Hsame]. split; cbn; [|eauto].
    by rewrite lookup_delete_ne by auto.
  - exact Hsame.
Qed.

#[local] Instance temp_is_stable r i c : ours r → Stable store theirs (temp_is r i c).
Proof.
  intros Hr fs fs' Hi Hs. induction Hs as [|x y z Hxy _ IH]; [done|]. intros Ht.
  apply IH; [|by eapply temp_is_step]. eapply cas_step_kept; [exact Hroot| |exact Hxy|exact Hi].
  intros r' Hr'. apply (cw_names _ _ _ _ Hw). by right.
Qed.
#[local] Hint Extern 1 (ours _) => assumption : typeclass_instances.

Lemma ht_try_temp attempts :
  ht nothing (try_temp env store attempts)
    (λ x fs, ∃ r, ours r ∧ x.1 = temp store r ∧ temp_is r x.2 "" fs).
Proof.
  induction attempts as [|attempts IH]; cbn [try_temp]; [by apply ht_lift|].
  eapply (ht_bind _ _ _ (λ r _, ours r)).
  { intros w _ _. split; [apply rtc_refl|]. cbn. intros r Hr%wrap_error_Ok. by apply (cw_random _ _ _ _ Hw) in Hr. }
  intros r. eapply (ht_pre (λ fs, nothing fs ∧ ours r)); [done|]. apply ht_pure. intros Hr. cbv zeta.
  eapply (ht_bind).
  { apply ht_attempt. unfold os_Create. apply (ht_syscall _ _ _ _ Hw nothing _ (λ i, temp_is r i "")); [apply _|].
    intros w fs _ _. split; [by apply rtc_once, cas_create|].
    unfold create_excl. destruct (is_some _); [done|]. destruct (negb _); [done|]. cbn [fst snd].
    intros i [= <-]. split; cbn; [apply lookup_insert_eq|]. eexists. by rewrite lookup_insert_eq. }
  intros [file|e].
  - apply ht_ret. intros fs H. exists r. split_and!; [done|done|]. by apply H.
  - eapply (ht_pre nothing); [done|]. destruct (errors_is _ _); [exact IH|by apply ht_lift].
Qed.

(** Filling and publishing: the marker is a complete object. *)
Lemma ht_fill_temp r i d content :
  ours r → digest_ok d → Sum content = d → slen content <= MaxObjectBytes →
  ht (λ fs, temp_is r i "" fs ∧ has_dir (shard store d) fs) (fill_temp env store (temp store r) i d content)
    (λ _ _, True).
Proof.
  intros Hr Hd Hsum Hsize. unfold fill_temp.
  assert (Stable store theirs (λ fs, temp_is r i "" fs ∧ has_dir (shard store d) fs)) as Hst by apply _.
  eapply (ht_bind _ _ _ (λ _ fs, temp_is r i content fs ∧ has_dir (shard store d) fs)).
  { apply ht_wrapping. unfold writeFull. destruct (is_empty content) eqn:Hempty.
    { apply ht_ret. by destruct content. }
    intros w Hi HP. pose proof (cw_others _ _ _ _ Hw w) as Ho.
    assert (temp_is r i "" (ce_fs env (ce_others env w)) ∧ has_dir (shard store d) (ce_fs env (ce_others env w)))
      as [[Hf (n & Hn & Hp & _)] Hdir] by (eapply Hst; [exact Hi|exact Ho|exact HP]).
    assert (∀ c, rtc (cas_step store (anyone ours theirs)) (ce_fs env w)
      (write_inode (ce_fs env (ce_others env w)) i c (ce_clock env (ce_others env w)))) as Hsteps.
    { intros c. eapply rtc_r; [eapply (steps_anyone _ _ _ theirs); [by right|exact Ho]|].
      apply (cas_write _ _ _ r); [by left|done]. }
    destruct (ce_fault env _); cbn [fst snd]; rewrite (cw_put _ _ _ _ Hw); (split; [apply Hsteps|]); [done|].
    intros _ _. split; [|done]. split; [done|]. cbn. rewrite lookup_alter_eq, Hn. eexists. by split. }
  intros _. skip. skip. skip. apply ht_guard. intros _. skip. apply ht_lifted. intros m Hm.
  unfold promotionPath in Hm. apply bind_Ok in Hm as (h & Hh & Hm). apply (inj Ok) in Hm as <-.
  apply digestHex_Ok in Hh as [-> _]; [|apply Hd]. apply ht_wrapping. unfold os_Rename.
  apply (ht_syscall _ _ _ _ Hw); [apply _|]. intros w fs Hi [(Hf & n & Hn & Hp & Hc) Hdir]. split; [|done].
  apply rtc_once. apply (cas_publish _ _ _ r d i); [done|done|done| |done]. exists n. by rewrite Hc.
Qed.

Lemma ht_stageMarker d content :
  digest_ok d → Sum content = d → slen content <= MaxObjectBytes →
  ht (has_dir (shard store d)) (stageMarker env store d content) (λ _ _, True).
Proof.
  intros Hd Hsum Hsize. unfold stageMarker, newTemp.
  eapply (ht_bind); [apply (ht_keep _ _ _ _ Hw); [apply _|]|].
  { skip. apply ht_try_temp. }
  intros [p file]. cbn [fst snd]. intros w Hi [(r & Hr & Ep & Ht) Hdir]. revert w Hi Ht Hdir.
  assert (ht (λ fs, temp_is r file "" fs ∧ has_dir (shard store d) fs)
    (staged ← attempt (fill_temp env store p file d content);
     match staged with
     | Ok _ => syncDirectory env (cs_temp store)
     | Err e => _ ← attempt (os_Remove env p); lift (Err e)
     end) (λ _ _, True)) as H; [|intros w Hi Ht Hdir; by apply H].
  cbn in Ep. subst p. eapply (ht_bind); [apply ht_attempt, ht_fill_temp; done|].
  intros staged. apply (ht_pre nothing); [done|]. destruct staged as [[]|e].
  - apply (quiet_ht _ _ _ _), quiet_syncDirectory.
  - eapply (ht_bind _ _ _ (λ _ _, True)); [|intros _; by apply ht_lift].
    apply (ht_weaken nothing nothing _ (λ r0 fs, ∀ x, r0 = Ok x → True)); [|done|done].
    apply ht_attempt. unfold os_Remove. apply (ht_syscall _ _ _ _ Hw); [apply _|]. intros w fs _ _.
    split; [by apply rtc_once, cas_discard|done].
Qed.

(** ** Promotion *)

Lemma ht_privateRegular d :
  digest_ok d → ht nothing (privateRegular env (final store d)) (λ present fs, present = true → has_final d fs).
Proof.
  intros Hd. unfold privateRegular, os_Lstat. eapply (ht_bind).
  { apply ht_attempt, (ht_reads _ _ _ _ Hw nothing); [apply _|by intros]. }
  intros [info|e].
  - apply (ht_pre (has_final d)).
    { intros fs H. destruct (H _ eq_refl) as [[w Hl] _]. cbn [fst] in Hl.
      apply bind_Ok in Hl as (i & Hi%of_option_Ok & _). by exists i. }
    apply ht_lifted. intros [] _. by apply ht_ret.
  - destruct (errors_is e ErrNotExist); [by apply ht_ret|by apply ht_lift].
Qed.

Lemma ht_linkPromotion d :
  digest_ok d → ht nothing (linkPromotion env d (marker store d) (final store d)) (λ _ _, True).
Proof.
  intros Hd. unfold linkPromotion. skip. destruct (negb _); [by apply ht_ret|]. skip.
  eapply (ht_bind _ _ _ (λ _ _, True)).
  { apply (ht_post _ _ (λ r fs, ∀ x, r = Ok x → True)); [done|].
    apply ht_attempt. unfold os_Link. apply (ht_syscall _ _ _ _ Hw); [apply _|]. intros w fs _ _.
    split; [by apply rtc_once, cas_promote|done]. }
  intros [[]|e]; [by apply ht_ret|]. destruct (_ || _); by apply ht_lift.
Qed.

Lemma ht_settleFinal d created :
  digest_ok d → ht (has_final d) (settleFinal env store d (marker store d) (final store d) created)
    (λ r fs, r.2 = true → has_final d fs).
Proof.
  intros Hd. unfold settleFinal. skip. eapply (ht_bind _ _ _ (λ _, has_final d)).
  { apply (ht_weaken (λ fs, has_final d fs ∧ has_final d fs) _ _
      (λ r fs, (∀ x, r = Ok x → True) ∧ has_final d fs)); [|done|by intros ?? []].
    apply (ht_frame _ _ _ _ Hw); [apply _|]. apply ht_attempt. unfold os_Remove.
    apply (ht_syscall _ _ _ _ Hw); [apply _|]. intros w fs _ Hf. split; [by apply rtc_once, cas_unmark|done]. }
  intros removed. skip. skip. skip. apply ht_ret. auto.
Qed.

Lemma ht_settle_attempts attempts d installed :
  digest_ok d → ht nothing (settle_attempts env store attempts d (marker store d) (final store d) installed)
    (λ r fs, r.2 = true → has_final d fs).
Proof.
  intros Hd. revert installed. induction attempts as [|attempts IH]; intros installed; cbn [settle_attempts];
    [by apply ht_lift|].
  eapply (ht_bind); [by apply ht_privateRegular|]. intros [|].
  - apply (ht_pre (has_final d)); [auto|]. eapply (ht_bind); [by apply ht_attempt, ht_settleFinal|].
    intros [r|e]; [apply ht_ret; intros fs Hr; by apply Hr|]. apply (ht_pre nothing); [done|].
    destruct (retryablePromotionRace e); [apply IH|by apply ht_lift].
  - apply (ht_pre nothing); [done|]. eapply (ht_bind); [by apply ht_attempt, ht_linkPromotion|].
    intros r. apply (ht_pre nothing); [done|]. destruct r as [[linked present]|e].
    + destruct (negb present); [by apply ht_ret|apply IH].
    + destruct (retryablePromotionRace e); [apply IH|by apply ht_lift].
Qed.

Lemma promotionPath_marker d m : digest_ok d → promotionPath store d = Ok m → m = marker store d.
Proof.
  intros Hd Hm. unfold promotionPath in Hm. apply bind_Ok in Hm as (h & Hh & Hm). apply (inj Ok) in Hm as <-.
  by apply digestHex_Ok in Hh as [-> _]; [|apply Hd].
Qed.

Lemma ht_settlePromotion d :
  digest_ok d → ht nothing (settlePromotion env store d (final store d)) (λ r fs, r.2 = true → has_final d fs).
Proof.
  intros Hd. unfold settlePromotion. apply ht_lifted. intros m Hm%promotionPath_marker; [|done]. subst m.
  by apply ht_settle_attempts.
Qed.

(** ** The operations *)

Lemma quiet_digestGuard d : quiet (digestGuard env store d).
Proof. unfold digestGuard, validate. eauto 12 with quiet. Qed.
Hint Resolve quiet_digestGuard : quiet.

Lemma ht_inspectReplay d content :
  digest_ok d → ht nothing (inspectReplay env d (final store d) content)
    (λ r fs, object_is d content fs ∧ r.(pr_digest) = d ∧ r.(pr_size) = slen content).
Proof.
  intros Hd. unfold inspectReplay. eapply (ht_bind); [by apply readVerifiedFile_object|].
  intros c. apply ht_guard. intros Hc%negb_false_iff%bool_decide_eq_true. subst c. apply ht_ret.
  intros fs [Ho _]. by split_and!.
Qed.

Lemma ht_Put d content :
  digest_wf d → ht nothing (Put env store d content)
    (λ r fs, object_is d content fs ∧ Sum content = d ∧ r.(pr_digest) = d ∧ r.(pr_size) = slen content).
Proof.
  intros Hwf. unfold Put. apply ht_guard. intros [Hz Hsize%Z.ltb_ge]%orb_false_iff.
  apply ht_guard. intros Hsum%negb_false_iff%bool_decide_eq_true. skip.
  eapply (ht_bind); [by apply ht_objectPath|]. intros p.
  apply (ht_pre (λ fs, has_dir (shard store d) fs ∧ p = final store d ∧ digest_ok d)); [naive_solver|].
  apply ht_pure. intros [-> Hd].
  assert (∀ created, ht nothing (result ← inspectReplay env d (final store d) content;
      mret (with_replayed result (negb created)))
    (λ r fs, object_is d content fs ∧ Sum content = d ∧ r.(pr_digest) = d ∧ r.(pr_size) = slen content)) as Hreplay.
  { intros created. eapply (ht_bind); [by apply ht_inspectReplay|]. intros r. apply ht_ret.
    intros fs (Ho & Hrd & Hrs). by split_and!. }
  eapply (ht_bind); [apply (ht_keep _ _ _ _ Hw); [apply _|by apply ht_settlePromotion]|].
  intros [created present]. destruct present; [apply (ht_pre nothing); [done|apply Hreplay]|].
  eapply (ht_bind _ _ _ (λ _, nothing)).
  { eapply (ht_weaken _ _ _ _); [by apply ht_stageMarker|by intros fs [_ H]|done]. }
  intros _. eapply (ht_bind); [by apply ht_settlePromotion|]. intros [created' present'].
  apply ht_guard. intros _. apply (ht_pre nothing); [done|apply Hreplay].
Qed.

Lemma ht_Read d maximum :
  digest_wf d → ht nothing (Read env store d maximum) (λ c fs, object_is d c fs ∧ Sum c = d).
Proof.
  intros Hwf. unfold Read. apply ht_guard. intros _. skip.
  eapply (ht_bind); [by apply ht_objectPath|]. intros p.
  apply (ht_pre (λ fs, nothing fs ∧ (p = final store d ∧ digest_ok d))); [naive_solver|].
  apply ht_pure. intros [-> Hd]. eapply (ht_bind); [by apply ht_settlePromotion|].
  intros [created present]. apply ht_guard. intros _. apply (ht_pre nothing); [done|].
  by apply readVerifiedFile_object.
Qed.

Lemma ht_VerifyArtifact d size :
  digest_wf d → ht nothing (CasStore_VerifyArtifact env store d size)
    (λ _ fs, ∃ c, object_is d c fs ∧ Sum c = d ∧ slen c = size).
Proof.
  intros Hwf. unfold CasStore_VerifyArtifact. eapply (ht_bind); [by apply ht_Read|]. intros c.
  unfold guard. apply ht_lift. intros [] fs Hg%fail_if_Ok [Ho Hs]. exists c. split_and!; [done|done|].
  apply orb_false_iff in Hg as [Hg%negb_false_iff%Z.eqb_eq _]. done.
Qed.
End safe.
