(* ===== verification/CasCalm.v ===== *)
(** The object store when it is left alone: with no other writer and no failing
    call, every operation returns, an interrupted promotion settles within the
    attempts it has, and the results are exactly those of the tree it found. *)

From Stdlib Require Import Lia.
From S2P Require Import Prelude Io Utf8 Json Wire Sha256 Time Value Intent Bound Cas CasInv CasSafe.

#[local] Open Scope Z_scope.

Section calm.
Context {W : Type} (env : CasEnv W) (store : CasStore).

(** Nothing else runs and nothing fails. *)
Record calm : Prop := {
  ca_put : ∀ w fs, env.(ce_fs) (env.(ce_put) w fs) = fs;
  ca_others : ∀ w, env.(ce_fs) (env.(ce_others) w) = env.(ce_fs) w;
  ca_fault : ∀ w, env.(ce_fault) w = None;
}.
Hypothesis Hcalm : calm.

(** From the tree [fs], [m] ends with a result and a tree in [Φ]. *)
Definition ends {A} (m : io W A) (fs : FS) (Φ : result A → FS → Prop) : Prop := ∀ w,
  env.(ce_fs) w = fs → Φ (fst (m w)) (env.(ce_fs) (snd (m w))).

Lemma ends_bind {A B} (m : io W A) (k : A → io W B) fs Φ :
  ends m fs (λ r fs', match r with Ok x => ends (k x) fs' Φ | Err e => Φ (Err e) fs' end) → ends (m ≫= k) fs Φ.
Proof. intros H w Hw. specialize (H w Hw). unfold mbind, io_bind. destruct (m w) as [[x|e] w1]; [by apply H|done]. Qed.

Lemma ends_ret {A} (x : A) fs (Φ : result A → FS → Prop) : Φ (Ok x) fs → ends (mret x) fs Φ.
Proof. by intros H w <-. Qed.
Lemma ends_lift {A} (r : result A) fs (Φ : result A → FS → Prop) : Φ r fs → ends (lift r) fs Φ.
Proof. by intros H w <-. Qed.
Lemma ends_guard c e fs (Φ : result () → FS → Prop) : Φ (fail_if c e) fs → ends (guard c e) fs Φ.
Proof. apply ends_lift. Qed.
Lemma ends_attempt {A} (m : io W A) fs (Φ : result (result A) → FS → Prop) :
  ends m fs (λ r, Φ (Ok r)) → ends (attempt m) fs Φ.
Proof. intros H w Hw. specialize (H w Hw). unfold attempt. by destruct (m w). Qed.
Lemma ends_wrapping {A} c (m : io W A) fs (Φ : result A → FS → Prop) :
  ends m fs (λ r, Φ (wrap_error c r)) → ends (wrapping c m) fs Φ.
Proof. intros H w Hw. specialize (H w Hw). unfold wrapping. by destruct (m w). Qed.
Lemma ends_syscall {A} (f : W → FS → result A * FS) fs (Φ : result A → FS → Prop) :
  (∀ w, Φ (fst (f w fs)) (snd (f w fs))) → ends (syscall env f) fs Φ.
Proof.
  intros H w Hw. unfold syscall. rewrite (ca_fault Hcalm), (ca_others Hcalm), Hw.
  specialize (H (ce_others env w)). destruct (f _ fs). cbn [fst snd]. by rewrite (ca_put Hcalm).
Qed.
Lemma ends_mono {A} (m : io W A) fs (Φ Ψ : result A → FS → Prop) :
  ends m fs Φ → (∀ r fs', Φ r fs' → Ψ r fs') → ends m fs Ψ.
Proof. intros H HΦ w Hw. by apply HΦ, H. Qed.

(** ** Reading *)

(** [p] names a private inode [i] holding an object of [d], and nothing else does. *)
Record sole (fs : FS) (p : path) (i : Z) (d : Digest) (c : string) : Prop := {
  so_file : fs.(fs_files) !! p = Some i;
  so_only : ∀ q, fs.(fs_files) !! q = Some i → q = p;
  so_inode : ∃ n, fs.(fs_inodes) !! i = Some n ∧ n.(in_private) = true ∧ n.(in_content) = c;
  so_sum : Sum c = d;
}.

Lemma sole_links fs p i d c : sole fs p i d c → link_count fs i = 1.
Proof.
  intros [Hf Ho _ _]. unfold link_count. replace (links_of fs i) with ({[p := i]} : gmap path Z); [by rewrite map_size_singleton|].
  apply map_eq. intros q. unfold links_of. symmetry. destruct (decide (q = p)) as [->|Hq].
  - rewrite lookup_singleton_eq. by apply map_lookup_filter_Some.
  - rewrite lookup_singleton_ne by done. apply map_lookup_filter_None. right. intros j Hj ->. by apply Hq, Ho.
Qed.

Lemma slen_nonneg s : 0 <= slen s.
Proof. unfold slen. lia. Qed.

Lemma substring_all k s : (String.length s <= k)%nat → String.substring 0 k s = s.
Proof.
  revert s. induction k as [|k IH]; intros [|c s]; cbn; intros H; [done|lia|done|]. f_equal. apply IH. lia.
Qed.

Lemma ends_readVerifiedFile fs p i d c maximum (Φ : result string → FS → Prop) :
  sole fs p i d c → slen c <= MaxObjectBytes →
  Φ (if maximum <? slen c
     then Err (Wrapped "verify CAS object" (Wrapped "object size is outside its bound" ErrCorruption)) else Ok c) fs →
  ends (readVerifiedFile env p d maximum 1) fs Φ.
Proof.
  intros Hs Hmax HΦ. pose proof (sole_links _ _ _ _ _ Hs) as Hlinks. destruct Hs as [Hf Ho (n & Hn & Hp & Hc) Hsum].
  assert (lstat fs p = Ok (file_info fs i n)) as Hl by (unfold lstat, open_file, fstat; rewrite Hf; cbn; by rewrite Hn).
  assert (fstat fs i = Ok (file_info fs i n)) as Hfs by (unfold fstat; by rewrite Hn).
  unfold readVerifiedFile, os_Lstat, os_Open, os_Fstat, os_ReadAll.
  apply ends_bind, ends_wrapping, ends_syscall. intros _. cbn [fst snd]. rewrite Hl. cbn [wrap_error].
  apply ends_bind, ends_lift. unfold validatePrivateRegular, file_info at 1 2 3 4 5. cbn [fi_private fi_size fi_links].
  rewrite Hp, Hlinks, Hc. pose proof (slen_nonneg c) as Hpos. rewrite (proj2 (Z.ltb_ge _ _) Hpos). cbn [negb fail_if orb].
  destruct (maximum <? slen c) eqn:Hlen; [exact HΦ|]. cbn.
  apply ends_bind, ends_wrapping, ends_syscall. intros _. cbn [fst snd]. unfold open_file. rewrite Hf. cbn [of_option wrap_error].
  assert (sameSnapshot (file_info fs i n) (file_info fs i n) = true) as Hsame.
  { unfold sameSnapshot. cbn. by rewrite Hp, !Z.eqb_refl. }
  apply ends_bind, ends_attempt, ends_syscall. intros _. cbn [fst snd]. rewrite Hfs.
  apply ends_bind, ends_guard. rewrite Hsame. cbn [negb fail_if].
  apply ends_bind, ends_attempt, ends_syscall. intros _. cbn [fst snd]. rewrite Hn. cbn [of_option mbind result_bind].
  apply Z.ltb_ge in Hlen. rewrite Hc, substring_all by (unfold slen in *; lia).
  apply ends_bind, ends_lift. cbn [or_error]. apply ends_bind, ends_guard. rewrite (proj2 (Z.ltb_ge _ _) Hlen). cbn [fail_if].
  apply ends_bind, ends_attempt, ends_syscall. intros _. cbn [fst snd]. rewrite Hfs.
  apply ends_bind, ends_attempt, ends_syscall. intros _. cbn [fst snd]. rewrite Hl.
  apply ends_bind, ends_guard. rewrite Hsame. rewrite ?Hc. cbn [negb orb]. rewrite Z.eqb_refl. cbn [negb fail_if].
  apply ends_bind, ends_guard. rewrite bool_decide_true by done. cbn [negb fail_if]. by apply ends_ret.
Qed.

Lemma link_count_pos fs p i : fs.(fs_files) !! p = Some i → link_count fs i ≠ 0.
Proof.
  intros Hp E. assert (links_of fs i = ∅) as H by (apply map_size_empty_inv; unfold link_count in E; lia).
  assert (links_of fs i !! p = Some i) as H' by by apply map_lookup_filter_Some. by rewrite H in H'.
Qed.

Lemma ends_privateRegular fs p (Φ : result bool → FS → Prop) :
  (∀ i, fs.(fs_files) !! p = Some i → ∃ n, fs.(fs_inodes) !! i = Some n ∧ n.(in_private) = true ∧
     slen n.(in_content) <= MaxObjectBytes) →
  Φ (Ok (is_some (fs.(fs_files) !! p))) fs → ends (privateRegular env p) fs Φ.
Proof.
  intros Hok HΦ. unfold privateRegular, os_Lstat. apply ends_bind, ends_attempt, ends_syscall. intros _. cbn [fst snd].
  unfold lstat, open_file. destruct (fs.(fs_files) !! p) as [i|] eqn:Hp; cbn [of_option mbind result_bind is_some] in *.
  - destruct (Hok i eq_refl) as (n & Hn & Hpr & Hs). unfold fstat. rewrite Hn. cbn [of_option mbind result_bind].
    apply ends_bind, ends_lift. unfold validatePrivateRegular. cbn [file_info fi_private fi_size fi_links].
    pose proof (slen_nonneg n.(in_content)) as H0. pose proof (link_count_pos _ _ _ Hp) as Hl.
    rewrite Hpr, (proj2 (Z.ltb_ge _ _) H0), (proj2 (Z.ltb_ge _ _) Hs), (proj2 (Z.eqb_neq _ _) Hl), Z.eqb_refl. by apply ends_ret.
  - by apply ends_ret.
Qed.

Lemma ends_syncDirectory fs dir (Φ : result () → FS → Prop) :
  is_Some (fs.(fs_dirs) !! dir) → Φ (Ok ()) fs → ends (syncDirectory env dir) fs Φ.
Proof.
  intros [b Hb] HΦ. unfold syncDirectory, os_Sync. apply ends_bind, ends_wrapping, ends_syscall. intros _.
  cbn [fst snd]. rewrite Hb. by apply ends_wrapping, ends_syscall.
Qed.

(** ** Settling *)

Hypothesis Hroot : root_layout store.

(** The names of an inode are the object's and the marker's. *)
Record linked (fs : FS) (i : Z) (d : Digest) (c : string) : Prop := {
  ln_only : ∀ q, fs.(fs_files) !! q = Some i → q = final store d ∨ q = marker store d;
  ln_inode : ∃ n, fs.(fs_inodes) !! i = Some n ∧ n.(in_private) = true ∧ n.(in_content) = c;
  ln_sum : Sum c = d;
  ln_size : slen c <= MaxObjectBytes;
}.

Definition unmarked (d : Digest) (fs : FS) : FS := set_files (delete (marker store d) fs.(fs_files)) fs.

Lemma linked_sole fs i d c :
  linked fs i d c → fs.(fs_files) !! final store d = Some i → sole (unmarked d fs) (final store d) i d c.
Proof.
  intros [Ho Hn Hs _] Hf. split; [|intros q|done|done].
  - cbn. rewrite lookup_delete_ne; [done|]. intros E. symmetry in E. by apply final_marker in E.
  - cbn. intros [Hne Hq]%lookup_delete_Some. destruct (Ho q Hq); congruence.
Qed.

Lemma linked_marker fs i d c :
  linked fs i d c → fs.(fs_files) !! final store d = None → fs.(fs_files) !! marker store d = Some i →
  sole fs (marker store d) i d c.
Proof. intros [Ho Hn Hs _] Hf Hm. split; [done| |done|done]. intros q Hq. destruct (Ho q Hq); congruence. Qed.

Lemma ends_settleFinal fs d i c installed (Φ : result (bool * bool) → FS → Prop) :
  is_Some (fs.(fs_dirs) !! shard store d) → is_Some (fs.(fs_dirs) !! store.(cs_temp)) →
  linked fs i d c → fs.(fs_files) !! final store d = Some i →
  Φ (Ok (installed, true)) (unmarked d fs) →
  ends (settleFinal env store d (marker store d) (final store d) installed) fs Φ.
Proof.
  intros Hs Ht Hl Hf HΦ. unfold settleFinal. apply ends_bind, ends_syncDirectory; [done|].
  apply ends_bind. apply (ends_mono _ _ (λ r fs', fs' = unmarked d fs ∧ ∃ o, r = Ok o ∧ (o = Ok () ∨ o = Err ErrNotExist))).
  { apply ends_attempt, ends_syscall. intros _. unfold remove_file. destruct (_ !! marker store d) eqn:Hm; cbn [fst snd].
    - split; [done|]. eexists. split; [done|by left].
    - split; [|eexists; split; [done|by right]]. unfold unmarked. rewrite delete_id by done. by destruct fs. }
  intros r fs' [-> (o & -> & Ho)]. apply ends_bind.
  apply (ends_mono _ _ (λ r fs', r = Ok () ∧ fs' = unmarked d fs)).
  { destruct Ho as [-> | ->]; by apply ends_ret. }
  intros ? ? [-> ->]. apply ends_bind, ends_syncDirectory; [done|]. apply ends_bind.
  eapply ends_readVerifiedFile; [by apply linked_sole|apply (ln_size _ _ _ _ Hl)|].
  rewrite (proj2 (Z.ltb_ge _ _) (ln_size _ _ _ _ Hl)). by apply ends_ret.
Qed.

Lemma linked_private fs i d c : linked fs i d c → ∃ n, fs.(fs_inodes) !! i = Some n ∧ n.(in_private) = true ∧
  slen n.(in_content) <= MaxObjectBytes.
Proof. intros [_ (n & Hn & Hp & Hc) _ Hz]. exists n. by rewrite Hc. Qed.

Lemma ends_settle_final attempts fs d i c installed (Φ : result (bool * bool) → FS → Prop) :
  is_Some (fs.(fs_dirs) !! shard store d) → is_Some (fs.(fs_dirs) !! store.(cs_temp)) →
  linked fs i d c → fs.(fs_files) !! final store d = Some i →
  Φ (Ok (installed, true)) (unmarked d fs) →
  ends (settle_attempts env store (S attempts) d (marker store d) (final store d) installed) fs Φ.
Proof.
  intros Hs Ht Hl Hf HΦ. cbn [settle_attempts]. apply ends_bind, ends_privateRegular.
  { intros j Hj. assert (j = i) as -> by congruence. by eapply linked_private. }
  rewrite Hf. cbn [is_some]. apply ends_bind, ends_attempt. eapply ends_settleFinal; [done|done|done|done|].
  by apply ends_ret.
Qed.

Definition promoted (d : Digest) (i : Z) (fs : FS) : FS := set_files (<[final store d := i]> fs.(fs_files)) fs.

Lemma linked_promoted fs i d c : linked fs i d c → linked (promoted d i fs) i d c.
Proof.
  intros [Ho Hin Hsum Hz]. split; [|done..]. cbn. intros q Hq.
  destruct (decide (q = final store d)) as [->|Hne]; [by left|]. rewrite lookup_insert_ne in Hq by done. by apply Ho.
Qed.

(** A marker alone is linked as the object, and the next attempt settles it. *)
Lemma ends_settle_marker attempts fs d i c (Φ : result (bool * bool) → FS → Prop) :
  is_Some (fs.(fs_dirs) !! shard store d) → is_Some (fs.(fs_dirs) !! store.(cs_temp)) →
  linked fs i d c → fs.(fs_files) !! final store d = None → fs.(fs_files) !! marker store d = Some i →
  Φ (Ok (true, true)) (unmarked d (promoted d i fs)) →
  ends (settle_attempts env store (S (S attempts)) d (marker store d) (final store d) false) fs Φ.
Proof.
  intros Hs Ht Hl Hf Hm HΦ. remember (S attempts) as more eqn:Emore. cbn [settle_attempts].
  apply ends_bind, ends_privateRegular; [intros j Hj; congruence|]. rewrite Hf. cbn [is_some].
  apply ends_bind, ends_attempt. unfold linkPromotion. apply ends_bind, ends_privateRegular.
  { intros j Hj. assert (j = i) as -> by congruence. by eapply linked_private. }
  rewrite Hm. cbn [is_some negb]. apply ends_bind.
  eapply ends_readVerifiedFile; [by apply linked_marker|apply (ln_size _ _ _ _ Hl)|].
  rewrite (proj2 (Z.ltb_ge _ _) (ln_size _ _ _ _ Hl)). apply ends_bind, ends_attempt, ends_syscall. intros _.
  unfold link_file. rewrite Hm. cbn [fst final]. destruct Hs as [b Hb]. rewrite Hb. cbn [is_some negb].
  change (shard store d, hex_encode d) with (final store d). rewrite Hf. cbn [is_some fst snd].
  apply ends_ret. cbn [negb orb]. subst more. change (set_files _ fs) with (promoted d i fs).
  apply (ends_settle_final _ _ _ i c); [by exists b|done|by apply linked_promoted|apply lookup_insert_eq|done].
Qed.

(** Neither object nor marker: nothing to settle. *)
Lemma ends_settle_none attempts fs d (Φ : result (bool * bool) → FS → Prop) :
  fs.(fs_files) !! final store d = None → fs.(fs_files) !! marker store d = None → Φ (Ok (false, false)) fs →
  ends (settle_attempts env store (S attempts) d (marker store d) (final store d) false) fs Φ.
Proof.
  intros Hf Hm HΦ. cbn [settle_attempts]. apply ends_bind, ends_privateRegular; [intros j Hj; congruence|]. rewrite Hf.
  apply ends_bind, ends_attempt. unfold linkPromotion. apply ends_bind, ends_privateRegular; [intros j Hj; congruence|].
  rewrite Hm. apply ends_ret. by apply ends_ret.
Qed.

(** ** Staging *)

Lemma ends_privateDirectory fs dir (Φ : result bool → FS → Prop) :
  fs.(fs_dirs) !! dir ≠ Some false → Φ (Ok (is_some (fs.(fs_dirs) !! dir))) fs → ends (privateDirectory env dir) fs Φ.
Proof.
  intros Hd HΦ. unfold privateDirectory, os_LstatDirectory. apply ends_bind, ends_attempt, ends_syscall. intros _.
  cbn [fst snd]. destruct (fs_dirs fs !! dir) as [[|]|]; [|done|by apply ends_ret].
  apply ends_bind, ends_guard. by apply ends_ret.
Qed.

Lemma ends_requirePrivateDirectory fs dir (Φ : result () → FS → Prop) :
  fs.(fs_dirs) !! dir = Some true → Φ (Ok ()) fs → ends (requirePrivateDirectory env dir) fs Φ.
Proof.
  intros Hd HΦ. unfold requirePrivateDirectory. apply ends_bind, ends_privateDirectory; [by rewrite Hd|].
  rewrite Hd. by apply ends_guard.
Qed.

Lemma digestHex_ok d : digest_ok d → digestHex d = Ok (hex_encode d).
Proof.
  intros [Hwf Hz]. unfold digestHex. rewrite Hz. cbn [fail_if mbind result_bind].
  unfold Digest_String. rewrite strip_prefix_app. cbn [default from_option id]. cbv zeta.
  assert (slen (hex_encode d) = 64) as -> by (unfold slen; rewrite hex_encode_length, Hwf; reflexivity). done.
Qed.

Lemma ends_promotionPath fs d (Φ : result path → FS → Prop) :
  digest_ok d → Φ (Ok (marker store d)) fs → ends (lift (promotionPath store d)) fs Φ.
Proof. intros Hd HΦ. apply ends_lift. unfold promotionPath. by rewrite digestHex_ok. Qed.

(** An empty file of ours holds [content] afterwards. *)
Lemma ends_writeFull fs i n content (Φ : result () → FS → Prop) :
  fs.(fs_inodes) !! i = Some n → n.(in_private) = true → n.(in_content) = "" →
  (∀ fs' n', fs'.(fs_files) = fs.(fs_files) → fs'.(fs_dirs) = fs.(fs_dirs) → fs'.(fs_inodes) !! i = Some n' →
     n'.(in_private) = true → n'.(in_content) = content → Φ (Ok ()) fs') →
  ends (writeFull env i content) fs Φ.
Proof.
  intros Hn Hp Hc HΦ. unfold writeFull. destruct (is_empty content) eqn:He.
  { apply ends_ret, (HΦ fs n); try done. rewrite Hc. by destruct content. }
  intros w Hw. rewrite (ca_fault Hcalm), (ca_others Hcalm), Hw. cbn [fst snd].
  rewrite (ca_put Hcalm). eapply HΦ; [done|done| | |]; [cbn; by rewrite lookup_alter_eq, Hn|exact Hp|done].
Qed.

(** A temporary file of ours becomes the marker. *)
Lemma ends_fill_temp fs r i d content (Φ : result () → FS → Prop) :
  digest_ok d → String.length r = 16%nat → Sum content = d → slen content <= MaxObjectBytes →
  is_Some (fs.(fs_dirs) !! store.(cs_temp)) → fs.(fs_files) !! marker store d = None →
  fs.(fs_files) !! temp store r = Some i → (∀ q, fs.(fs_files) !! q = Some i → q = temp store r) →
  (∃ n, fs.(fs_inodes) !! i = Some n ∧ n.(in_private) = true ∧ n.(in_content) = "") →
  (∀ fs', fs'.(fs_files) = <[marker store d := i]> (delete (temp store r) fs.(fs_files)) →
     linked fs' i d content → fs'.(fs_dirs) = fs.(fs_dirs) → Φ (Ok ()) fs') →
  ends (fill_temp env store (temp store r) i d content) fs Φ.
Proof.
  intros Hd Hr Hsum Hsize Ht Hm Hf Ho (n & Hn & Hp & Hc) HΦ. unfold fill_temp, os_Sync.
  apply ends_bind, ends_wrapping. eapply ends_writeFull; [exact Hn|done|done|].
  intros fs1 n1 Hfiles Hdirs Hn1 Hp1 Hc1. cbn [wrap_error]. rewrite <- Hfiles in *. rewrite <- Hdirs in *.
  assert (sole fs1 (temp store r) i d content) as Hsole by (split; eauto).
  apply ends_bind, ends_wrapping, ends_syscall. intros _. cbn [fst snd wrap_error].
  apply ends_bind, ends_wrapping, ends_syscall. intros _. cbn [fst snd wrap_error].
  apply ends_bind. eapply ends_readVerifiedFile; [exact Hsole|done|]. rewrite Z.ltb_irrefl.
  apply ends_bind, ends_guard. rewrite Z.eqb_refl. cbn [negb fail_if].
  apply ends_bind, ends_syncDirectory; [done|]. apply ends_bind, ends_promotionPath; [done|].
  apply ends_wrapping, ends_syscall. intros _. unfold rename_file.
  rewrite Hf. destruct Ht as [b Hb]. change (marker store d).1 with (store.(cs_temp)). rewrite Hb, Hm.
  rewrite (bool_decide_false (None = Some i)) by done. cbn [is_some negb fst snd wrap_error].
  apply HΦ; [done| |done]. split; [|by eauto|done|done]. cbn. intros q Hq. right.
  destruct (decide (q = marker store d)) as [|Hne]; [done|]. rewrite lookup_insert_ne in Hq by done.
  apply lookup_delete_Some in Hq as [Hne' Hq]. by apply Ho in Hq.
Qed.

Lemma ends_stageMarker fs d content (Φ : result () → FS → Prop) :
  digest_ok d → Sum content = d → slen content <= MaxObjectBytes →
  fs.(fs_dirs) !! store.(cs_temp) = Some true →
  (∀ p i, fs.(fs_files) !! p = Some i → is_Some (fs.(fs_inodes) !! i)) →
  fs.(fs_files) !! marker store d = None → fs.(fs_files) !! final store d = None →
  (∀ w, env.(ce_fs) w = fs → ∃ r, env.(ce_random) w = Ok r ∧ String.length r = 16%nat ∧
     fs.(fs_files) !! temp store r = None) →
  (∀ i fs', fs'.(fs_files) !! marker store d = Some i → fs'.(fs_files) !! final store d = None →
     linked fs' i d content → fs'.(fs_dirs) = fs.(fs_dirs) → Φ (Ok ()) fs') →
  ends (stageMarker env store d content) fs Φ.
Proof.
  intros Hd Hsum Hsize Ht Hino Hm Hf Hrandom HΦ. unfold stageMarker, newTemp.
  apply ends_bind, ends_bind, ends_requirePrivateDirectory; [done|]. cbn [try_temp]. apply ends_bind.
  intros w Hw. destruct (Hrandom w Hw) as (r & Er & Hlen & Hfree). cbn. rewrite Er, Hw.
  apply ends_bind, ends_attempt, ends_syscall. intros w'. unfold create_excl. cbn [fst].
  change (cs_temp store, temp_name r) with (temp store r). rewrite Hfree, Ht. cbn [is_some negb fst snd].
  apply ends_ret. apply ends_bind, ends_attempt. set (i := fresh_inode fs).
  assert (fs.(fs_inodes) !! i = None) as Hfresh by (unfold i, fresh_inode; apply not_elem_of_dom; apply is_fresh).
  assert (marker store d ≠ temp store r) as Hmt by (apply marker_temp; [apply Hd|done]).
  assert (final store d ≠ temp store r) as Hft by by apply final_temp.
  apply (ends_fill_temp _ r i); try done; cbn.
  - by rewrite lookup_insert_ne.
  - by rewrite lookup_insert_eq.
  - intros q Hq. destruct (decide (q = temp store r)) as [|Hne]; [done|]. rewrite lookup_insert_ne in Hq by done.
    apply Hino in Hq as [n Hn]. congruence.
  - eexists. by rewrite lookup_insert_eq.
  - intros fs' Hfiles Hl Hdirs. apply ends_syncDirectory; [by rewrite Hdirs, Ht|]. apply (HΦ i); [| |done|done]; rewrite Hfiles.
    + by rewrite lookup_insert_eq.
    + rewrite lookup_insert_ne by (intros E; symmetry in E; by apply final_marker in E).
      by rewrite lookup_delete_ne, lookup_insert_ne by done.
Qed.

(** ** The operations, exactly *)

(** The object a tree has for [d]: the one in place, or the complete one whose
    promotion was interrupted. *)
Definition stored (fs : FS) (d : Digest) : option string :=
  i ← (match fs.(fs_files) !! final store d with Some i => Some i | None => fs.(fs_files) !! marker store d end);
  n ← fs.(fs_inodes) !! i;
  Some n.(in_content).

(** The directories of the store are its own, and an object is in its shard. *)
Record housed (fs : FS) (d : Digest) : Prop := {
  hs_name : is_empty store.(cs_root) = false;
  hs_root : fs.(fs_dirs) !! store.(cs_root) = Some true;
  hs_temp : fs.(fs_dirs) !! store.(cs_temp) = Some true;
  hs_private : fs.(fs_dirs) !! shard store d ≠ Some false;
  hs_shard : is_Some (fs.(fs_files) !! final store d) → is_Some (fs.(fs_dirs) !! shard store d);
}.

Lemma object_linked fs d i :
  object_ok store fs d i → ∃ n, fs.(fs_inodes) !! i = Some n ∧ linked fs i d n.(in_content).
Proof. intros [(n & Hn & Hp & Hs & Hz) Ho]. exists n. split; [done|]. split; eauto. Qed.

(** What settling leaves: the object alone, or nothing. *)
Record settled_tree (fs fs' : FS) (d : Digest) : Prop := {
  st_stored : stored fs' d = stored fs d;
  st_object : ∀ c, stored fs d = Some c → ∃ i, sole fs' (final store d) i d c ∧ slen c <= MaxObjectBytes;
  st_none : stored fs d = None → fs' = fs ∧ fs.(fs_files) !! final store d = None ∧ fs.(fs_files) !! marker store d = None;
}.

Lemma ends_settlePromotion fs d (Φ : result (bool * bool) → FS → Prop) :
  cas_inv store fs → digest_ok d → housed fs d →
  (∀ fs', settled_tree fs fs' d →
     Φ (Ok (is_some (stored fs d) && negb (is_some (fs.(fs_files) !! final store d)), is_some (stored fs d))) fs') →
  ends (settlePromotion env store d (final store d)) fs Φ.
Proof.
  intros Hinv Hd [_ Hrt Ht Hpr Hsh] HΦ. unfold settlePromotion. apply ends_bind, ends_promotionPath; [done|].
  assert (is_Some (fs.(fs_dirs) !! store.(cs_temp))) as Ht' by by rewrite Ht. unfold stored in HΦ.
  destruct (fs.(fs_files) !! final store d) as [i|] eqn:Hf; [|destruct (fs.(fs_files) !! marker store d) as [i|] eqn:Hm].
  - destruct (object_linked fs d i) as (n & Hn & Hl); [by eapply ci_final|]. cbn [mbind option_bind] in HΦ. rewrite Hn in HΦ.
    pose proof (linked_sole _ _ _ _ Hl Hf) as Hsole.
    apply (ends_settle_final 7 fs d i n.(in_content)); [by apply Hsh|done|done|done|]. apply HΦ. split.
    + unfold stored. by rewrite (so_file _ _ _ _ _ Hsole), Hf.
    + unfold stored. rewrite Hf. cbn. rewrite Hn. intros c [= <-]. exists i. split; [done|apply (ln_size _ _ _ _ Hl)].
    + unfold stored. rewrite Hf. cbn. by rewrite Hn.
  - destruct (ci_marker _ _ Hinv d i Hd Hm) as [Hok Hs]. destruct (object_linked fs d i) as (n & Hn & Hl); [done|].
    cbn [mbind option_bind] in HΦ. rewrite Hn in HΦ.
    pose proof (linked_promoted _ _ _ _ Hl) as Hl'.
    pose proof (linked_sole _ _ _ _ Hl' (lookup_insert_eq _ _ _)) as Hsole.
    apply (ends_settle_marker 6 fs d i n.(in_content)); [done..|]. apply HΦ. split.
    + unfold stored. by rewrite (so_file _ _ _ _ _ Hsole), Hf, Hm.
    + unfold stored. rewrite Hf, Hm. cbn. rewrite Hn. intros c [= <-]. exists i. split; [done|apply (ln_size _ _ _ _ Hl)].
    + unfold stored. rewrite Hf, Hm. cbn. by rewrite Hn.
  - apply ends_settle_none; [done..|]. apply HΦ. split; [done| |done]. unfold stored. by rewrite Hf, Hm.
Qed.

Lemma ends_digestGuard fs d (Φ : result () → FS → Prop) :
  digest_ok d → housed fs d → Φ (Ok ()) fs → ends (digestGuard env store d) fs Φ.
Proof.
  intros [_ Hz] [Hn Hr Ht _ _] HΦ. unfold digestGuard, validate. apply ends_bind, ends_bind, ends_guard.
  assert (is_empty store.(cs_temp) = false) as -> by (rewrite Hroot; unfold join; by destruct (if String.eqb _ _ then _ else _)). rewrite Hn. cbn [orb fail_if].
  apply ends_bind, ends_requirePrivateDirectory; [done|]. apply ends_requirePrivateDirectory; [done|].
  apply ends_guard. by rewrite Hz.
Qed.

(** The directory of the object is made when it is missing. *)
Lemma ends_objectPath fs d create (Φ : result path → FS → Prop) :
  digest_ok d → housed fs d →
  (∀ fs', fs'.(fs_files) = fs.(fs_files) → fs'.(fs_inodes) = fs.(fs_inodes) →
     (create = false → fs' = fs) → (create = true → fs'.(fs_dirs) !! shard store d = Some true) →
     (∀ dir b, fs.(fs_dirs) !! dir = Some b → fs'.(fs_dirs) !! dir = Some b) →
     Φ (Ok (final store d)) fs') →
  ends (objectPath env store d create) fs Φ.
Proof.
  intros Hd [_ Hr Ht Hp _] HΦ. unfold objectPath. apply ends_bind, ends_lift. rewrite digestHex_ok by done. cbv zeta.
  change (join (cs_root store) (String.substring 0 2 (hex_encode d))) with (shard store d).
  destruct create; apply ends_bind.
  2:{ apply ends_bind, ends_privateDirectory; [done|]. apply ends_ret. apply ends_ret. by apply HΦ. }
  apply ends_bind. unfold ensurePrivateDirectory. apply ends_bind, ends_privateDirectory; [done|].
  destruct (fs.(fs_dirs) !! shard store d) as [[|]|] eqn:Hs; [| |]; cbn [is_some].
  - apply ends_ret. apply ends_ret. apply ends_ret. by apply HΦ.
  - done.
  - apply ends_bind, ends_wrapping, ends_syscall. intros _. cbn [fst snd wrap_error].
    fold (mkdirs (ancestors "" (shard store d)) fs). set (fs1 := mkdirs _ fs).
    assert (∀ dir b, fs.(fs_dirs) !! dir = Some b → fs1.(fs_dirs) !! dir = Some b) as Hkeep.
    { intros dir b Hb. unfold fs1. by rewrite mkdirs_dirs, Hb. }
    assert (fs1.(fs_dirs) !! shard store d = Some true) as Hs1.
    { unfold fs1. rewrite mkdirs_dirs, Hs, bool_decide_true; [done|]. by apply (ancestors_self ""), shard_nonempty. }
    destruct (mkdirs_files (ancestors "" (shard store d)) fs) as [Hfiles Hinodes]. fold fs1 in Hfiles, Hinodes.
    apply ends_bind, ends_wrapping, ends_syscall. intros _. rewrite Hs1. rewrite insert_id by done.
    replace (set_dirs (fs_dirs fs1) fs1) with fs1 by by destruct fs1. cbn [fst snd wrap_error].
    apply ends_bind, ends_requirePrivateDirectory; [done|].
    apply ends_ret. apply ends_syncDirectory; [by rewrite (Hkeep _ _ Hr)|]. apply ends_ret. by apply HΦ.
Qed.

(** [Read] returns the object if it fits the bound, whether or not its promotion
    was interrupted. *)
Definition read_outcome (object : option string) (maximum : Z) : result string :=
  match object with
  | None => Err (Wrapped "read CAS object" ErrNotExist)
  | Some c => if maximum <? slen c
      then Err (Wrapped "verify CAS object" (Wrapped "object size is outside its bound" ErrCorruption)) else Ok c
  end.

Lemma ends_Read fs d maximum :
  cas_inv store fs → digest_ok d → housed fs d → 0 <= maximum <= MaxObjectBytes →
  ends (Read env store d maximum) fs (λ r fs', r = read_outcome (stored fs d) maximum ∧ stored fs' d = stored fs d).
Proof.
  intros Hinv Hd Hh [Hlo Hhi]. unfold Read. apply ends_bind, ends_guard.
  rewrite (proj2 Hd), (proj2 (Z.ltb_ge _ _) Hlo), (proj2 (Z.ltb_ge _ _) Hhi). cbn [orb fail_if].
  apply ends_bind, ends_digestGuard; [done|done|]. apply ends_bind, ends_objectPath; [done|done|].
  intros fs' _ _ Hsame _ _. rewrite (Hsame eq_refl). clear fs' Hsame. apply ends_bind, ends_settlePromotion; [done|done|done|].
  intros fs' [Hst Hobj Hnone]. destruct (stored fs d) as [c|]; cbn [is_some negb]; apply ends_bind, ends_guard; cbn [fail_if].
  - destruct (Hobj c eq_refl) as (i & Hsole & Hz). eapply ends_readVerifiedFile; [exact Hsole|done|]. by split.
  - by split.
Qed.

Lemma ends_inspectReplay fs d i content (Φ : result PutResult → FS → Prop) :
  sole fs (final store d) i d content → slen content <= MaxObjectBytes →
  Φ (Ok {| pr_digest := d; pr_size := slen content; pr_replayed := true |}) fs →
  ends (inspectReplay env d (final store d) content) fs Φ.
Proof.
  intros Hsole Hz HΦ. unfold inspectReplay. apply ends_bind. eapply ends_readVerifiedFile; [exact Hsole|done|].
  rewrite Z.ltb_irrefl. apply ends_bind, ends_guard. rewrite bool_decide_true by done. by apply ends_ret.
Qed.

Lemma sole_stored fs d i content : sole fs (final store d) i d content → stored fs d = Some content.
Proof. intros [Hf _ (n & Hn & _ & <-) _]. unfold stored. rewrite Hf. cbn. by rewrite Hn. Qed.

(** [Put] of bytes whose digest has no other object leaves them as the object. *)
Lemma ends_Put fs d content :
  cas_inv store fs → digest_ok d → housed fs d → Sum content = d → slen content <= MaxObjectBytes →
  (∀ c, stored fs d = Some c → c = content) →
  (∀ w, (env.(ce_fs) w).(fs_files) = fs.(fs_files) → ∃ r, env.(ce_random) w = Ok r ∧ String.length r = 16%nat ∧
     fs.(fs_files) !! temp store r = None) →
  ends (Put env store d content) fs (λ r fs', stored fs' d = Some content ∧
    r = Ok {| pr_digest := d; pr_size := slen content; pr_replayed := is_some (fs.(fs_files) !! final store d) |}).
Proof.
  intros Hinv Hd Hh Hsum Hz Hsame Hrandom. unfold Put. apply ends_bind, ends_guard.
  rewrite (proj2 Hd), (proj2 (Z.ltb_ge _ _) Hz). cbn [orb fail_if]. apply ends_bind, ends_guard.
  rewrite bool_decide_true by done. cbn [negb fail_if]. apply ends_bind, ends_digestGuard; [done|done|].
  apply ends_bind, ends_objectPath; [done|done|]. intros fs1 Hfiles Hinodes _ Hs Hkeep. specialize (Hs eq_refl).
  assert (cas_inv store fs1) as Hinv1.
  { eapply (cas_inv_dirs store fs); [done|done| |done]. intros dir [b Hb]. exists b. by apply Hkeep. }
  assert (housed fs1 d) as Hh1.
  { destruct Hh as [Hn Hr Ht Hp _]. split; [done|by apply Hkeep|by apply Hkeep|by rewrite Hs|by rewrite Hs]. }
  assert (stored fs1 d = stored fs d) as Est by (unfold stored; by rewrite Hfiles, Hinodes).
  rewrite <- Est in Hsame. rewrite <- Hfiles in Hrandom |- *. clear Est Hfiles Hinodes.
  apply ends_bind, ends_settlePromotion; [done..|]. intros fs2 [Hst Hobj Hnone].
  destruct (stored fs1 d) as [c|] eqn:Hs1; cbn [is_some].
  - rewrite (Hsame c eq_refl) in *. destruct (Hobj content eq_refl) as (i & Hsole & _). apply ends_bind.
    eapply ends_inspectReplay; [exact Hsole|done|]. apply ends_ret. cbn [with_replayed pr_digest pr_size].
    split; [done|]. cbn [andb]. by rewrite negb_involutive.
  - destruct (Hnone eq_refl) as (-> & Hf & Hm). rewrite Hf. cbn [is_some]. apply ends_bind.
    apply ends_stageMarker; [done|done|done|apply (hs_temp _ _ Hh1)|apply (ci_inodes _ _ Hinv1)|done|done| |].
    { intros w Hw. apply Hrandom. by rewrite Hw. }
    intros i fs3 Hm3 Hf3 Hl3 Hd3. unfold settlePromotion. apply ends_bind, ends_bind, ends_promotionPath; [done|].
    eapply (ends_settle_marker 6 fs3 d i content); [| |done|done|done|].
    + by rewrite Hd3, Hs.
    + rewrite Hd3, (hs_temp _ _ Hh1). done.
    + apply ends_bind, ends_guard. cbn [negb fail_if].
      assert (sole (unmarked d (promoted d i fs3)) (final store d) i d content) as Hsole.
      { apply linked_sole; [by apply linked_promoted|by cbn; rewrite lookup_insert_eq]. }
      apply ends_bind. eapply ends_inspectReplay; [exact Hsole|done|]. apply ends_ret.
      split; [by eapply sole_stored|done].
Qed.
End calm.
