(* ===== verification/CasContracts.v ===== *)
(** What the Artifact object store promises: objects are final and are what was put,
    whatever other writers do and whatever fails; and left alone it finishes an
    interrupted promotion and answers exactly. *)

From Stdlib Require Import Lia.
From S2P Require Import Prelude Io Utf8 Json Wire Sha256 Time Value Intent Bound Cas CasInv CasSafe CasCalm.

#[local] Open Scope Z_scope.

(** The tree is in order afterwards and no object of it went or changed. *)
Definition keeps_tree {W A} (env : CasEnv W) (store : CasStore) (m : io W A) (w : W) : Prop :=
  cas_inv store (env.(ce_fs) (snd (m w))) ∧ kept store (env.(ce_fs) w) (env.(ce_fs) (snd (m w))).

(** The names [newTemp] draws while no file is created or removed are unused. *)
Definition fresh_names {W} (env : CasEnv W) (store : CasStore) (w : W) : Prop := ∀ w',
  (env.(ce_fs) w').(fs_files) = (env.(ce_fs) w).(fs_files) →
  ∃ r, env.(ce_random) w' = Ok r ∧ String.length r = 16%nat ∧ (env.(ce_fs) w).(fs_files) !! temp store r = None.

Lemma ht_keeps {W A} (env : CasEnv W) store ours theirs (m : io W A) Q w :
  cas_world env store ours theirs → cas_inv store (env.(ce_fs) w) →
  triple env.(ce_fs) (cas_step store (anyone ours theirs)) (cas_inv store) nothing m Q →
  keeps_tree env store m w ∧ ∀ x, fst (m w) = Ok x → Q x (env.(ce_fs) (snd (m w))).
Proof. intros Hw Hi Hm. destruct (Hm w Hi I) as [Hs HQ]. split; [by eapply (tree_steps _ _ _ _ Hw)|done]. Qed.

Lemma object_is_functional store d c c' fs : object_is store d c fs → object_is store d c' fs → c = c'.
Proof. intros (i & n & Hf & Hn & <-) (i' & n' & Hf' & Hn' & <-). congruence. Qed.

(** C7. Under any interleaving with writers that follow the protocol, and whichever
    file system calls fail, every operation leaves the tree in order with all its
    objects unchanged. A [Put] that succeeds has left exactly its bytes as the object
    of their digest, they are still there after any further activity, and any later
    [Read] that succeeds returns them. [Read] and [VerifyArtifact] only succeed on the
    object in place, whose SHA-256 is the digest asked for. *)
Theorem artifact_store_durable {W} (env : CasEnv W) (store : CasStore) (ours theirs : string → Prop) w d :
  cas_world env store ours theirs → cas_inv store (env.(ce_fs) w) → digest_wf d →
  (∀ content,
     keeps_tree env store (Put env store d content) w ∧
     ∀ r w', fst (Put env store d content w) = Ok r →
       rtc (cas_step store (anyone ours theirs)) (env.(ce_fs) (snd (Put env store d content w))) (env.(ce_fs) w') →
       r.(pr_digest) = Sum content ∧ r.(pr_size) = slen content ∧ object_is store d content (env.(ce_fs) w') ∧
       ∀ maximum c, fst (Read env store d maximum w') = Ok c → c = content) ∧
  (∀ maximum, keeps_tree env store (Read env store d maximum) w ∧
     ∀ c, fst (Read env store d maximum w) = Ok c →
       Sum c = d ∧ object_is store d c (env.(ce_fs) (snd (Read env store d maximum w)))) ∧
  (∀ size, keeps_tree env store (CasStore_VerifyArtifact env store d size) w ∧
     (fst (CasStore_VerifyArtifact env store d size w) = Ok () →
       ∃ c, Sum c = d ∧ slen c = size ∧ object_is store d c (env.(ce_fs) (snd (CasStore_VerifyArtifact env store d size w))))).
Proof.
  intros Hw Hi Hd. split_and!.
  - intros content. destruct (ht_keeps _ _ _ _ _ _ w Hw Hi (ht_Put env store ours theirs Hw d content Hd)) as [Hk HP].
    split; [exact Hk|]. intros r w' Hr Hsteps. destruct (HP r Hr) as (Ho & Hsum & Hrd & Hrs).
    destruct (tree_steps _ _ _ _ Hw _ _ Hsteps (proj1 Hk)) as [Hi' Hk'].
    assert (digest_ok d) as Hok.
    { unfold Put, guard, lift, mbind, io_bind in Hr. split; [done|]. by destruct (Digest_IsZero d). }
    assert (object_is store d content (env.(ce_fs) w')) as Ho' by by eapply object_is_mono.
    split_and!; [congruence|done|done|]. intros maximum c Hc.
    destruct (ht_keeps _ _ _ _ _ _ w' Hw Hi' (ht_Read env store ours theirs Hw d maximum Hd)) as [[_ Hkr] HR].
    destruct (HR c Hc) as [Hoc _]. eapply object_is_functional; [exact Hoc|]. by eapply object_is_mono.
  - intros maximum. destruct (ht_keeps _ _ _ _ _ _ w Hw Hi (ht_Read env store ours theirs Hw d maximum Hd)) as [Hk HR].
    split; [exact Hk|]. intros c Hc. destruct (HR c Hc). by split.
  - intros size. destruct (ht_keeps _ _ _ _ _ _ w Hw Hi (ht_VerifyArtifact env store ours theirs Hw d size Hd)) as [Hk HV].
    split; [exact Hk|]. intros Hc. destruct (HV () Hc) as (c & ? & ? & ?). by exists c.
Qed.

(** C10. With no other writer and no failing call the object store always answers,
    within its eight attempts: [Read] returns the object of the digest if it is in
    place or if a crash interrupted its promotion, provided it fits the bound, and
    reports that it does not exist otherwise; [Put] succeeds, replaying exactly when
    the object was in place, and leaves its bytes as the object. *)
Theorem artifact_promotion_recovers {W} (env : CasEnv W) (store : CasStore) w d :
  calm env → root_layout store → cas_inv store (env.(ce_fs) w) → digest_ok d → housed store (env.(ce_fs) w) d →
  (∀ maximum, 0 <= maximum <= MaxObjectBytes →
     fst (Read env store d maximum w) = read_outcome (stored store (env.(ce_fs) w) d) maximum ∧
     stored store (env.(ce_fs) (snd (Read env store d maximum w))) d = stored store (env.(ce_fs) w) d) ∧
  (∀ content, Sum content = d → slen content <= MaxObjectBytes → fresh_names env store w →
     (∀ c, stored store (env.(ce_fs) w) d = Some c → c = content) →
     fst (Put env store d content w) = Ok {| pr_digest := d; pr_size := slen content;
       pr_replayed := is_some ((env.(ce_fs) w).(fs_files) !! final store d) |} ∧
     stored store (env.(ce_fs) (snd (Put env store d content w))) d = Some content).
Proof.
  intros Hc Hr Hi Hd Hh. split.
  - intros maximum Hm. by apply (ends_Read env store Hc Hr).
  - intros content Hs Hz Hn Hsame. apply and_comm. by apply (ends_Put env store Hc Hr _ d content).
Qed.

(** ** A store in use *)

Module Objects.
(** A tree whose writer stopped between publishing the marker of "hello" and linking it. *)
Definition store : CasStore := {| cs_root := "/r"; cs_temp := "/r/.tmp" |}.
Definition d : Digest := Eval vm_compute in Sum "hello".
Definition tree : FS := {|
  fs_inodes := {[1 := {| in_content := "hello"; in_private := true; in_mtime := 0 |}]};
  fs_files := {[marker store d := 1]};
  fs_dirs := <["/r" := true]> (<["/r/.tmp" := true]> {[shard store d := true]}) |}.

(** Another writer keeps a temporary file of its own. *)
Definition mine : string := "aaaaaaaaaaaaaaaa".
Definition their : string := "bbbbbbbbbbbbbbbb".
Definition env (busy : bool) : CasEnv FS := {|
  ce_fs w := w; ce_put _ fs := fs;
  ce_others w := if busy then snd (create_excl w (temp store their) 0) else w;
  ce_fault _ := None; ce_short _ := 0%nat; ce_random _ := Ok mine; ce_clock _ := 5; ce_real _ r := Ok r |}.

Lemma d_sum : Sum "hello" = d.
Proof. vm_compute. reflexivity. Qed.

Lemma d_ok : digest_ok d.
Proof. split; vm_compute; reflexivity. Qed.

Lemma tree_inv : cas_inv store tree.
Proof.
  assert (∀ p i, tree.(fs_files) !! p = Some i → p = marker store d ∧ i = 1) as H.
  { intros p i Hp. cbn [tree fs_files] in Hp. apply lookup_singleton_Some in Hp as [<- <-]. done. }
  assert (complete tree d 1) as Hc.
  { eexists. split; [reflexivity|]. split; [done|]. split; [apply d_sum|done]. }
  split.
  - intros p i [_ ->]%H. eexists. reflexivity.
  - intros d' i _ [E _]%H. exfalso. revert E. by apply final_marker.
  - intros d' i _ [E ->]%H. apply marker_inj in E as ->. split; [|by eexists]. split; [exact Hc|].
    intros p [-> _]%H. by right.
  - intros r i [E _]%H Hr. exfalso. symmetry in E. revert E. apply marker_temp; [apply d_ok|done].
Qed.

Lemma busy_world : cas_world (env true) store (λ r, r = mine) (λ r, r = their).
Proof.
  split; [reflexivity|done| | | |].
  - intros w. by apply rtc_once, cas_create.
  - by intros w r [= <-].
  - by intros r [-> | ->].
  - by intros r r' -> ->.
Qed.

Lemma tree_housed : housed store tree d.
Proof. split; [done..|]. intros _. by eexists. Qed.
End Objects.

Lemma artifact_store_durable_witness :
  (∃ r, fst (Put (Objects.env true) Objects.store Objects.d "hello" Objects.tree) = Ok r) ∧
  keeps_tree (Objects.env true) Objects.store (Put (Objects.env true) Objects.store Objects.d "hello") Objects.tree.
Proof.
  pose proof (artifact_store_durable (Objects.env true) Objects.store _ _ Objects.tree Objects.d
    Objects.busy_world Objects.tree_inv (proj1 Objects.d_ok)) as [H _].
  split; [|exact (proj1 (H "hello"))]. eexists. vm_compute. reflexivity.
Defined.

Lemma artifact_promotion_recovers_witness :
  fst (Read (Objects.env false) Objects.store Objects.d 100 Objects.tree) = Ok "hello" ∧
  fst (Put (Objects.env false) Objects.store Objects.d "hello" Objects.tree) =
    Ok {| pr_digest := Objects.d; pr_size := 5; pr_replayed := false |}.
Proof.
  assert (calm (Objects.env false)) as Hc by by split.
  pose proof (artifact_promotion_recovers (Objects.env false) Objects.store Objects.tree Objects.d
    Hc eq_refl Objects.tree_inv Objects.d_ok Objects.tree_housed) as [HR HP].
  split.
  - destruct (HR 100) as [H _]; [by split|]. exact H.
  - destruct (HP "hello" Objects.d_sum) as [H _]; [done| | |exact H].
    + intros w' Hw. exists Objects.mine. split_and!; [done|done|]. vm_compute. reflexivity.
    + intros c [= <-]. done.
Defined.
