(* ===== verification/Event.v ===== *)
(** Accepted Events and operation Receipts: construction and sealing
    (internal/agency/event_receipt.go), strict reconstruction from canonical
    bytes (event_parse.go, receipt_parse.go). *)

From Stdlib Require Import Lia.
From S2P Require Import Prelude Utf8 Json Wire Sha256 Time Value Intent Bound.

#[local] Open Scope Z_scope.
#[local] Arguments String.append : simpl nomatch.

Definition eventSchemaVersion : Z := 3.
Definition MaxEventCanonicalBytes : Z := Z.shiftl 32 10.
Definition MaxPeerCausalDepth : Z := 32.
Definition MaxReceiptCanonicalBytes : Z := Z.shiftl 4 10.

Record EventStamp := {
  es_ID : EventID;
  es_AcceptedAt : Time;
  es_OriginSequence : Z;
  es_CausalDepth : Z;
}.

Record Event := {
  ev_id : EventID;
  ev_acceptedAt : Time;
  ev_originSequence : Z;
  ev_causalDepth : Z;
  ev_source : AgentPrincipalID;
  ev_operationKey : OperationKey;
  ev_requestDigest : Digest;
  ev_kind : SemanticLabel;
  ev_payload : SemanticPayload;
  ev_consequence : Consequence;
  ev_subject : option SubjectBinding;
  ev_expectedRef : option ReferenceExpectation;
  ev_targets : list ResolvedTarget;
  ev_artifacts : list Digest;
  ev_causation : list EventRef;
  ev_correlation : EventRef;
  ev_inReplyToDelivery : DeliveryID;
  ev_canonical : string;
  ev_digest : Digest;
}.

(** ** Wire structs *)

Record eventMachineWire := {
  emw_ID : string;
  emw_AcceptedAt : string;
  emw_OriginSequence : Z;
  emw_CausalDepth : Z;
  emw_Source : string;
  emw_OperationKey : string;
  emw_RequestDigest : string;
  emw_Consequence : string;
  emw_Subject : option subjectBindingWire;
  emw_ExpectedReference : option referenceExpectationWire;
  emw_Targets : list resolvedTargetWire;
  emw_InReplyToDelivery : string;
}.
#[export] Instance eventMachineWire_codec : Codec eventMachineWire := {
  enc w := struct [
    field "event_id" w.(emw_ID); field "accepted_at" w.(emw_AcceptedAt);
    @field Z uint64_codec "origin_sequence" w.(emw_OriginSequence);
    @field Z uint16_codec "causal_depth" w.(emw_CausalDepth);
    field "source_principal" w.(emw_Source); field "operation_key" w.(emw_OperationKey);
    field "request_digest" w.(emw_RequestDigest); field "consequence" w.(emw_Consequence);
    omitnil "subject" w.(emw_Subject);
    omitnil "expected_reference" w.(emw_ExpectedReference);
    omitempty "targets" w.(emw_Targets);
    omitempty "in_reply_to_delivery_id" w.(emw_InReplyToDelivery)];
  dec_value j :=
    ms ← members_of
      ["event_id"; "accepted_at"; "origin_sequence"; "causal_depth"; "source_principal";
      "operation_key"; "request_digest"; "consequence"; "subject"; "expected_reference";
      "targets"; "in_reply_to_delivery_id"] j;
    xID ← get "event_id" ms; xAcceptedAt ← get "accepted_at" ms;
    xOriginSequence ← @get Z uint64_codec "origin_sequence" ms;
    xCausalDepth ← @get Z uint16_codec "causal_depth" ms;
    xSource ← get "source_principal" ms; xOperationKey ← get "operation_key" ms;
    xRequestDigest ← get "request_digest" ms; xConsequence ← get "consequence" ms;
    xSubject ← get_ptr "subject" ms; xExpectedReference ← get_ptr "expected_reference" ms;
    xTargets ← get "targets" ms; xInReplyToDelivery ← get "in_reply_to_delivery_id" ms;
    Ok {| emw_ID := xID; emw_AcceptedAt := xAcceptedAt;
          emw_OriginSequence := xOriginSequence; emw_CausalDepth := xCausalDepth;
          emw_Source := xSource; emw_OperationKey := xOperationKey;
          emw_RequestDigest := xRequestDigest; emw_Consequence := xConsequence;
          emw_Subject := xSubject; emw_ExpectedReference := xExpectedReference;
          emw_Targets := xTargets; emw_InReplyToDelivery := xInReplyToDelivery |};
  zero := {| emw_ID := zero; emw_AcceptedAt := zero; emw_OriginSequence := 0%Z;
    emw_CausalDepth := 0%Z; emw_Source := zero; emw_OperationKey := zero;
    emw_RequestDigest := zero; emw_Consequence := zero; emw_Subject := None;
    emw_ExpectedReference := None; emw_Targets := zero; emw_InReplyToDelivery := zero |};
  empty _ := false;
  enc_ok w := enc_ok w.(emw_ID) ∧ enc_ok w.(emw_AcceptedAt) ∧
    @enc_ok Z uint64_codec w.(emw_OriginSequence) ∧
    @enc_ok Z uint16_codec w.(emw_CausalDepth) ∧ enc_ok w.(emw_Source) ∧
    enc_ok w.(emw_OperationKey) ∧ enc_ok w.(emw_RequestDigest) ∧
    enc_ok w.(emw_Consequence) ∧ ok_ptr w.(emw_Subject) ∧ ok_ptr w.(emw_ExpectedReference) ∧
    enc_ok w.(emw_Targets) ∧ enc_ok w.(emw_InReplyToDelivery);
}.
#[export] Instance eventMachineWire_laws : CodecLaws eventMachineWire.
Proof. solve_struct. Qed.

Record eventSemanticWire := {
  esw_Kind : string;
  esw_Payload : string;
}.
#[export] Instance eventSemanticWire_codec : Codec eventSemanticWire := {
  enc w := struct [
    field "kind" w.(esw_Kind); field "payload" w.(esw_Payload)];
  dec_value j :=
    ms ← members_of
      ["kind"; "payload"] j;
    xKind ← get "kind" ms; xPayload ← get "payload" ms;
    Ok {| esw_Kind := xKind; esw_Payload := xPayload |};
  zero := {| esw_Kind := zero; esw_Payload := zero |};
  empty _ := false;
  enc_ok w := enc_ok w.(esw_Kind) ∧ enc_ok w.(esw_Payload);
}.
#[export] Instance eventSemanticWire_laws : CodecLaws eventSemanticWire.
Proof. solve_struct. Qed.

Record eventEvidenceWire := {
  eew_Artifacts : list string;
  eew_Causation : list eventRefWire;
  eew_Correlation : option eventRefWire;
}.
#[export] Instance eventEvidenceWire_codec : Codec eventEvidenceWire := {
  enc w := struct [
    omitempty "artifacts" w.(eew_Artifacts); omitempty "causation" w.(eew_Causation);
    omitnil "correlation" w.(eew_Correlation)];
  dec_value j :=
    ms ← members_of
      ["artifacts"; "causation"; "correlation"] j;
    xArtifacts ← get "artifacts" ms; xCausation ← get "causation" ms;
    xCorrelation ← get_ptr "correlation" ms;
    Ok {| eew_Artifacts := xArtifacts; eew_Causation := xCausation;
          eew_Correlation := xCorrelation |};
  zero := {| eew_Artifacts := zero; eew_Causation := zero; eew_Correlation := None |};
  empty _ := false;
  enc_ok w := enc_ok w.(eew_Artifacts) ∧ enc_ok w.(eew_Causation) ∧ ok_ptr w.(eew_Correlation);
}.
#[export] Instance eventEvidenceWire_laws : CodecLaws eventEvidenceWire.
Proof. solve_struct. Qed.

Record eventWire := {
  ew_SchemaVersion : Z;
  ew_Machine : eventMachineWire;
  ew_Semantic : eventSemanticWire;
  ew_Evidence : eventEvidenceWire;
}.
#[export] Instance eventWire_codec : Codec eventWire := {
  enc w := struct [
    @field Z int_codec "schema_version" w.(ew_SchemaVersion);
    field "machine" w.(ew_Machine); field "semantic" w.(ew_Semantic);
    field "evidence" w.(ew_Evidence)];
  dec_value j :=
    ms ← members_of
      ["schema_version"; "machine"; "semantic"; "evidence"] j;
    xSchemaVersion ← @get Z int_codec "schema_version" ms; xMachine ← get "machine" ms;
    xSemantic ← get "semantic" ms; xEvidence ← get "evidence" ms;
    Ok {| ew_SchemaVersion := xSchemaVersion; ew_Machine := xMachine;
          ew_Semantic := xSemantic; ew_Evidence := xEvidence |};
  zero := {| ew_SchemaVersion := 0%Z; ew_Machine := zero; ew_Semantic := zero; ew_Evidence := zero |};
  empty _ := false;
  enc_ok w := @enc_ok Z int_codec w.(ew_SchemaVersion) ∧ enc_ok w.(ew_Machine) ∧
    enc_ok w.(ew_Semantic) ∧ enc_ok w.(ew_Evidence);
}.
#[export] Instance eventWire_laws : CodecLaws eventWire.
Proof. solve_struct. Qed.

Record receiptWire := {
  rcw_SchemaVersion : Z;
  rcw_OperationKey : string;
  rcw_RequestDigest : string;
  rcw_Outcome : string;
  rcw_RecordedAt : string;
  rcw_Event : option eventRefWire;
  rcw_Code : string;
  rcw_Diagnostic : string;
}.
#[export] Instance receiptWire_codec : Codec receiptWire := {
  enc w := struct [
    @field Z int_codec "schema_version" w.(rcw_SchemaVersion);
    field "operation_key" w.(rcw_OperationKey);
    field "request_digest" w.(rcw_RequestDigest); field "outcome" w.(rcw_Outcome);
    field "recorded_at" w.(rcw_RecordedAt); omitnil "event" w.(rcw_Event);
    omitempty "code" w.(rcw_Code); omitempty "diagnostic" w.(rcw_Diagnostic)];
  dec_value j :=
    ms ← members_of
      ["schema_version"; "operation_key"; "request_digest"; "outcome"; "recorded_at";
      "event"; "code"; "diagnostic"] j;
    xSchemaVersion ← @get Z int_codec "schema_version" ms;
    xOperationKey ← get "operation_key" ms; xRequestDigest ← get "request_digest" ms;
    xOutcome ← get "outcome" ms; xRecordedAt ← get "recorded_at" ms;
    xEvent ← get_ptr "event" ms; xCode ← get "code" ms; xDiagnostic ← get "diagnostic" ms;
    Ok {| rcw_SchemaVersion := xSchemaVersion; rcw_OperationKey := xOperationKey;
          rcw_RequestDigest := xRequestDigest; rcw_Outcome := xOutcome;
          rcw_RecordedAt := xRecordedAt; rcw_Event := xEvent; rcw_Code := xCode;
          rcw_Diagnostic := xDiagnostic |};
  zero := {| rcw_SchemaVersion := 0%Z; rcw_OperationKey := zero; rcw_RequestDigest := zero;
    rcw_Outcome := zero; rcw_RecordedAt := zero; rcw_Event := None; rcw_Code := zero;
    rcw_Diagnostic := zero |};
  empty _ := false;
  enc_ok w := @enc_ok Z int_codec w.(rcw_SchemaVersion) ∧ enc_ok w.(rcw_OperationKey) ∧
    enc_ok w.(rcw_RequestDigest) ∧ enc_ok w.(rcw_Outcome) ∧ enc_ok w.(rcw_RecordedAt) ∧
    ok_ptr w.(rcw_Event) ∧ enc_ok w.(rcw_Code) ∧ enc_ok w.(rcw_Diagnostic);
}.
#[export] Instance receiptWire_laws : CodecLaws receiptWire.
Proof. solve_struct. Qed.

(** [Event.wire]. *)
Definition event_wire (event : Event) : eventWire :=
  {| ew_SchemaVersion := eventSchemaVersion;
     ew_Machine := {|
       emw_ID := event.(ev_id); emw_AcceptedAt := format_time event.(ev_acceptedAt);
       emw_OriginSequence := event.(ev_originSequence); emw_CausalDepth := event.(ev_causalDepth);
       emw_Source := event.(ev_source); emw_OperationKey := event.(ev_operationKey);
       emw_RequestDigest := Digest_String event.(ev_requestDigest);
       emw_Consequence := Consequence_String event.(ev_consequence);
       emw_Subject := subject_wire <$> event.(ev_subject);
       emw_ExpectedReference := expectation_wire <$> event.(ev_expectedRef);
       emw_Targets := map resolvedWire event.(ev_targets);
       emw_InReplyToDelivery := optional_delivery_wire event.(ev_inReplyToDelivery) |};
     ew_Semantic := {| esw_Kind := event.(ev_kind); esw_Payload := event.(ev_payload) |};
     ew_Evidence := {|
       eew_Artifacts := map Digest_String event.(ev_artifacts);
       eew_Causation := map EventRef_canonical event.(ev_causation);
       eew_Correlation := optional_ref_wire event.(ev_correlation) |} |}.

Definition with_seal (event : Event) (canonical : string) (digest : Digest) : Event :=
  {| ev_id := event.(ev_id); ev_acceptedAt := event.(ev_acceptedAt);
     ev_originSequence := event.(ev_originSequence); ev_causalDepth := event.(ev_causalDepth);
     ev_source := event.(ev_source); ev_operationKey := event.(ev_operationKey);
     ev_requestDigest := event.(ev_requestDigest); ev_kind := event.(ev_kind);
     ev_payload := event.(ev_payload); ev_consequence := event.(ev_consequence);
     ev_subject := event.(ev_subject); ev_expectedRef := event.(ev_expectedRef);
     ev_targets := event.(ev_targets); ev_artifacts := event.(ev_artifacts);
     ev_causation := event.(ev_causation); ev_correlation := event.(ev_correlation);
     ev_inReplyToDelivery := event.(ev_inReplyToDelivery);
     ev_canonical := canonical; ev_digest := digest |}.

Definition sealEvent (event : Event) : result Event :=
  '(canonical, digest) ← canonicalJSON (event_wire event);
  _ ← fail_if (MaxEventCanonicalBytes <? slen canonical)
        (limit "Event canonical bytes" (slen canonical) MaxEventCanonicalBytes);
  Ok (with_seal event canonical digest).

Definition NewEvent (request : BoundIntent) (stamp : EventStamp) : result Event :=
  _ ← fail_if (is_empty request.(bi_canonical) || IsZero request.(bi_operationKey) ||
               Digest_IsZero request.(bi_digest) || IsZero stamp.(es_ID) ||
               (stamp.(es_OriginSequence) =? 0) || (MaxPeerCausalDepth <? stamp.(es_CausalDepth)))
        (invalid "Event" "complete request, ID, and positive origin sequence are required");
  acceptedAt ← canonicalTime "Event accepted time" stamp.(es_AcceptedAt);
  sealEvent {|
    ev_id := stamp.(es_ID); ev_acceptedAt := acceptedAt;
    ev_originSequence := stamp.(es_OriginSequence); ev_causalDepth := stamp.(es_CausalDepth);
    ev_source := request.(bi_attachment).(at_principal);
    ev_operationKey := request.(bi_operationKey); ev_requestDigest := request.(bi_digest);
    ev_kind := request.(bi_intent).(ai_kind); ev_payload := request.(bi_intent).(ai_payload);
    ev_consequence := request.(bi_intent).(ai_consequence);
    ev_subject := request.(bi_subject); ev_expectedRef := request.(bi_expectedReference);
    ev_targets := request.(bi_targets); ev_artifacts := request.(bi_artifacts);
    ev_causation := request.(bi_causation); ev_correlation := request.(bi_correlation);
    ev_inReplyToDelivery := request.(bi_inReplyToDelivery);
    ev_canonical := ""; ev_digest := zero_digest |}.

Definition Event_Ref (event : Event) : EventRef :=
  {| er_id := event.(ev_id); er_digest := event.(ev_digest) |}.

(** ** Reconstruction *)

(** [parseCanonicalEventTime], [parseCanonicalReceiptTime] and
    [parsePeerCanonicalTime] differ in the field they report. *)
Definition parse_canonical_time (field value : string) : result Time :=
  parsed ← of_option (parse_time value) (invalid field "must use RFC3339Nano");
  canonical ← canonicalTime field parsed;
  _ ← fail_if (negb (bool_decide (value = format_time canonical)))
        (invalid field "must use canonical UTC RFC3339Nano");
  Ok canonical.

Definition parseCanonicalEventTime : string → result Time :=
  parse_canonical_time "Event accepted time".
Definition parseCanonicalReceiptTime : string → result Time :=
  parse_canonical_time "Receipt recorded time".

Definition parseEventRef (wire : eventRefWire) : result EventRef :=
  id ← NewEventID wire.(erw_ID);
  digest ← ParseDigest wire.(erw_Digest);
  NewEventRef id digest.

Definition parseEventSubject (wire : option subjectBindingWire) : result (option SubjectBinding) :=
  match wire with
  | None => Ok None
  | Some wire =>
      handling ← NewHandlingID wire.(sbw_HandlingID);
      head ← parseEventRef wire.(sbw_Head);
      _ ← fail_if (wire.(sbw_Fence) =? 0) (invalid "Event subject fence" "must be positive");
      Ok (Some {| sb_handle := ""; sb_handlingID := handling; sb_head := head;
                  sb_fence := wire.(sbw_Fence);
                  sb_observationRevision := wire.(sbw_ObservationRevision) |})
  end.

Definition parseEventReference (wire : option referenceExpectationWire)
    : result (option ReferenceExpectation) :=
  match wire with
  | None => Ok None
  | Some wire =>
      key ← NewReferenceKey wire.(rew_Key);
      if wire.(rew_Absent) then
        _ ← fail_if (is_some wire.(rew_Head))
              (invalid "Event absent Reference" "must not contain a head");
        Ok (Some {| re_absent := true; re_handle := ""; re_key := key; re_head := zero_EventRef |})
      else
        head ← of_option wire.(rew_Head) (invalid "Event exact Reference" "requires a head");
        head ← parseEventRef head;
        Ok (Some {| re_absent := false; re_handle := ""; re_key := key; re_head := head |})
  end.

Definition no_target : TargetRef := {| tr_self := false; tr_alias := "" |}.

Definition parseEventTarget (wire : resolvedTargetWire) : result ResolvedTarget :=
  if String.eqb wire.(rtw_Destination) "local" then
    _ ← fail_if (negb (is_empty wire.(rtw_RemoteRoute)) || negb (is_empty wire.(rtw_RemoteAlias)))
          (invalid "Event local target" "must not contain remote authority");
    principal ← NewAgentPrincipalID wire.(rtw_LocalPrincipal);
    Ok {| rt_requested := no_target; rt_destination := TargetDestinationLocal;
          rt_localPrincipal := principal; rt_remoteRoute := ""; rt_remoteAlias := "" |}
  else if String.eqb wire.(rtw_Destination) "remote" then
    _ ← fail_if (negb (is_empty wire.(rtw_LocalPrincipal)))
          (invalid "Event remote target" "must not contain local authority");
    route ← NewRouteID wire.(rtw_RemoteRoute);
    alias ← NewOpaqueHandle wire.(rtw_RemoteAlias);
    Ok {| rt_requested := no_target; rt_destination := TargetDestinationRemote;
          rt_localPrincipal := ""; rt_remoteRoute := route; rt_remoteAlias := alias |}
  else Err (invalid "Event target" "must be local or remote").

(** [for _, x := range xs] with a parser and a [seen] set over a key of the
    parsed value. *)
Fixpoint parse_distinct {A B K} `{EqDecision K} (parse : A → result B) (key : B → K)
    (duplicate : error) (seen : list K) (xs : list A) : result (list B) :=
  match xs with
  | [] => Ok []
  | x :: xs =>
      y ← parse x;
      _ ← fail_if (bool_decide (key y ∈ seen)) duplicate;
      ys ← parse_distinct parse key duplicate (key y :: seen) xs;
      Ok (y :: ys)
  end.

Definition parseEventTargets (wires : list resolvedTargetWire) : result (list ResolvedTarget) :=
  _ ← fail_if (MaxSuccessors <? lenZ wires) (limit "Event targets" (lenZ wires) MaxSuccessors);
  parse_distinct parseEventTarget destinationKey
    (invalid "Event targets" "contains a duplicate resolved destination") [] wires.

(** [normalizePeerArtifacts] of peer_delivery.go: sort, then reject a zero or a
    repeated digest. *)
Definition normalizePeerArtifacts (values : list Digest) : result (list Digest) :=
  _ ← fail_if (MaxArtifactInputs <? lenZ values)
        (limit "PeerDelivery Artifacts" (lenZ values) MaxArtifactInputs);
  let sorted := sort_by Digest_String values in
  _ ← fail_if (existsb Digest_IsZero sorted || has_adjacent_dup sorted)
        (invalid "PeerDelivery Artifacts" "contains a zero or duplicate digest");
  Ok sorted.

Definition parseEventArtifacts (values : list string) : result (list Digest) :=
  artifacts ← mapR (λ value, wrap_error "Event Artifact" (ParseDigest value)) values;
  normalizePeerArtifacts artifacts.

Definition parseEventCausation (wires : list eventRefWire) : result (list EventRef) :=
  _ ← fail_if (MaxCausationHandles <? lenZ wires)
        (limit "Event causation" (lenZ wires) MaxCausationHandles);
  parse_distinct (λ w, wrap_error "Event causation" (parseEventRef w)) (λ r, r)
    (invalid "Event causation" "contains a duplicate Event reference") [] wires.

Definition parseOptionalEventRef (field : string) (wire : option eventRefWire) : result EventRef :=
  match wire with
  | None => Ok zero_EventRef
  | Some wire => wrap_error field (parseEventRef wire)
  end.

Definition parse_optional_delivery (value : string) : result DeliveryID :=
  if is_empty value then Ok zero_DeliveryID else ParseDeliveryID value.

(** [parsedEventTargetCounts]. *)
Definition local_targets (targets : list ResolvedTarget) : list ResolvedTarget :=
  filter (λ t, rt_destination t = TargetDestinationLocal) targets.
Definition remote_targets (targets : list ResolvedTarget) : list ResolvedTarget :=
  filter (λ t, rt_destination t = TargetDestinationRemote) targets.
Definition parsedEventTargetCounts (targets : list ResolvedTarget) : Z * Z :=
  (lenZ (local_targets targets), lenZ (remote_targets targets)).

Definition expects_absent (e : option ReferenceExpectation) : bool :=
  match e with Some e => e.(re_absent) | None => false end.

Definition validateParsedEventShape (event : Event) : result () :=
  let hasSubject := is_some event.(ev_subject) in
  let hasReference := is_some event.(ev_expectedRef) in
  let '(localTargets, remoteTargets) := parsedEventTargetCounts event.(ev_targets) in
  let hasReply := negb (DeliveryID_IsZero event.(ev_inReplyToDelivery)) in
  let hasCorrelation := negb (EventRef_IsZero event.(ev_correlation)) in
  let targets := lenZ event.(ev_targets) in
  let artifacts := lenZ event.(ev_artifacts) in
  let absent := expects_absent event.(ev_expectedRef) in
  _ ← match event.(ev_consequence) with
      | ConsequenceCreateHandlings =>
          _ ← fail_if (hasSubject || hasReference || (targets =? 0) || hasReply)
                (invariant "Event handling.create"
                  "requires targets and no subject, Reference, or reply binding");
          fail_if ((0 <? remoteTargets) && (localTargets =? 0))
            (invariant "Event handling.create"
              "remote delegation requires a local responsibility anchor")
      | ConsequenceAdvanceHandling =>
          fail_if (negb hasSubject || hasReference || hasReply)
            (invariant "Event handling.advance"
              "requires a subject and no Reference or reply binding")
      | ConsequenceResolveCompleted | ConsequenceResolveDeclined | ConsequenceResolveUnresolved =>
          _ ← fail_if (negb hasSubject || hasReference)
                (invariant "Event handling resolution" "requires a subject and no Reference");
          _ ← fail_if (bool_decide (event.(ev_consequence) = ConsequenceResolveCompleted) &&
                       (artifacts =? 0))
                (invariant "Event completed resolution" "requires a verified Artifact");
          if hasReply then
            fail_if (negb (targets =? 1) || negb (remoteTargets =? 1) || negb hasCorrelation)
              (invariant "Event terminal reply" "requires one remote target and correlation")
          else
            fail_if ((0 <? remoteTargets) && (localTargets =? 0))
              (invariant "Event handling resolution"
                "remote delegation requires a local responsibility anchor")
      | ConsequencePublishReference =>
          fail_if (hasSubject || negb hasReference || negb absent || negb (targets =? 0) ||
                   negb (artifacts =? 1) || hasReply)
            (invariant "Event reference.publish" "requires one absent key and one Artifact only")
      | ConsequenceSupersedeReference =>
          fail_if (hasSubject || negb hasReference || absent || negb (targets =? 0) ||
                   negb (artifacts =? 1) || hasReply)
            (invariant "Event reference.supersede" "requires one exact head and one Artifact only")
      | ConsequenceRetractReference =>
          fail_if (hasSubject || negb hasReference || absent || negb (targets =? 0) ||
                   negb (artifacts =? 0) || hasReply)
            (invariant "Event reference.retract" "requires one exact head and no Artifact")
      | ConsequenceObserveCompleted | ConsequenceObserveDeclined | ConsequenceObserveUnresolved =>
          _ ← fail_if (hasSubject || hasReference || negb (targets =? 0) || negb hasReply ||
                       negb hasCorrelation || negb (lenZ event.(ev_causation) =? 1) ||
                       (event.(ev_causalDepth) =? 0))
                (invariant "Event observation"
                  "requires one direct cause, correlation, and reply binding only");
          _ ← fail_if (negb (is_ok (ParseDeliveryID event.(ev_operationKey))))
                (invariant "Event observation operation" "must be the authenticated Delivery ID");
          fail_if (bool_decide (event.(ev_consequence) = ConsequenceObserveCompleted) &&
                   (artifacts =? 0))
            (invariant "Event completed observation" "requires a verified Artifact")
      | ConsequenceInvalid => Err (invalid "Event consequence" "is not closed")
      end;
  fail_if (hasReply && negb (isTerminalConsequence event.(ev_consequence)) &&
           negb (observation event.(ev_consequence)))
    (invariant "Event reply binding" "is allowed only for terminal replies").

Definition eventFromWire (wire : eventWire) : result Event :=
  let machine := wire.(ew_Machine) in
  let evidence := wire.(ew_Evidence) in
  _ ← fail_if (negb (wire.(ew_SchemaVersion) =? eventSchemaVersion))
        (invalid "Event schema version" "is unsupported");
  id ← NewEventID machine.(emw_ID);
  acceptedAt ← parseCanonicalEventTime machine.(emw_AcceptedAt);
  _ ← fail_if (machine.(emw_OriginSequence) =? 0)
        (invalid "Event origin sequence" "must be positive");
  _ ← fail_if (MaxPeerCausalDepth <? machine.(emw_CausalDepth))
        (limit "Event causal depth" machine.(emw_CausalDepth) MaxPeerCausalDepth);
  source ← NewAgentPrincipalID machine.(emw_Source);
  operation ← NewOperationKey machine.(emw_OperationKey);
  requestDigest ← ParseDigest machine.(emw_RequestDigest);
  consequence ← parseConsequence machine.(emw_Consequence);
  kind ← NewSemanticLabel wire.(ew_Semantic).(esw_Kind);
  payload ← NewSemanticPayload wire.(ew_Semantic).(esw_Payload);
  subject ← parseEventSubject machine.(emw_Subject);
  expectedReference ← parseEventReference machine.(emw_ExpectedReference);
  targets ← parseEventTargets machine.(emw_Targets);
  artifacts ← parseEventArtifacts evidence.(eew_Artifacts);
  causation ← parseEventCausation evidence.(eew_Causation);
  correlation ← parseOptionalEventRef "Event correlation" evidence.(eew_Correlation);
  inReplyTo ← parse_optional_delivery machine.(emw_InReplyToDelivery);
  let event := {|
    ev_id := id; ev_acceptedAt := acceptedAt;
    ev_originSequence := machine.(emw_OriginSequence); ev_causalDepth := machine.(emw_CausalDepth);
    ev_source := source; ev_operationKey := operation; ev_requestDigest := requestDigest;
    ev_kind := kind; ev_payload := payload; ev_consequence := consequence;
    ev_subject := subject; ev_expectedRef := expectedReference; ev_targets := targets;
    ev_artifacts := artifacts; ev_causation := causation; ev_correlation := correlation;
    ev_inReplyToDelivery := inReplyTo; ev_canonical := ""; ev_digest := zero_digest |} in
  _ ← validateParsedEventShape event;
  sealEvent event.

Definition ParseEventCanonicalJSON (data : string) : result Event :=
  wire ← decodeCanonicalObject "Event JSON" data MaxEventCanonicalBytes;
  event ← eventFromWire wire;
  _ ← requireReconstructedCanonical "Event JSON" data event.(ev_canonical);
  Ok event.

(** ** Receipts *)

Inductive ReceiptOutcome :=
| ReceiptOutcomeInvalid | ReceiptOutcomeAccepted | ReceiptOutcomeRejected.
#[export] Instance ReceiptOutcome_eq_dec : EqDecision ReceiptOutcome.
Proof. solve_decision. Defined.

Definition ReceiptOutcome_String (outcome : ReceiptOutcome) : string :=
  match outcome with
  | ReceiptOutcomeAccepted => "accepted"
  | ReceiptOutcomeRejected => "rejected"
  | ReceiptOutcomeInvalid => ""
  end.

Record Receipt := {
  rc_operationKey : OperationKey;
  rc_requestDigest : Digest;
  rc_outcome : ReceiptOutcome;
  rc_recordedAt : Time;
  rc_event : EventRef;
  rc_code : SemanticLabel;
  rc_diagnostic : string;
  rc_canonical : string;
  rc_digest : Digest;
}.

(** [Receipt.wire]. *)
Definition receipt_wire (receipt : Receipt) : receiptWire :=
  {| rcw_SchemaVersion := 1; rcw_OperationKey := receipt.(rc_operationKey);
     rcw_RequestDigest := Digest_String receipt.(rc_requestDigest);
     rcw_Outcome := ReceiptOutcome_String receipt.(rc_outcome);
     rcw_RecordedAt := format_time receipt.(rc_recordedAt);
     rcw_Event := optional_ref_wire receipt.(rc_event);
     rcw_Code := receipt.(rc_code); rcw_Diagnostic := receipt.(rc_diagnostic) |}.

Definition receipt_with_seal (receipt : Receipt) (canonical : string) (digest : Digest) : Receipt :=
  {| rc_operationKey := receipt.(rc_operationKey); rc_requestDigest := receipt.(rc_requestDigest);
     rc_outcome := receipt.(rc_outcome); rc_recordedAt := receipt.(rc_recordedAt);
     rc_event := receipt.(rc_event); rc_code := receipt.(rc_code);
     rc_diagnostic := receipt.(rc_diagnostic);
     rc_canonical := canonical; rc_digest := digest |}.

Definition newReceipt (request : BoundIntent) (outcome : ReceiptOutcome) (event : EventRef)
    (code : SemanticLabel) (diagnostic : string) (recordedAt : Time) : result Receipt :=
  _ ← fail_if (IsZero request.(bi_operationKey) || Digest_IsZero request.(bi_digest))
        (invalid "Receipt" "complete request authority is required");
  canonicalRecordedAt ← canonicalTime "Receipt recorded time" recordedAt;
  let receipt := {| rc_operationKey := request.(bi_operationKey);
    rc_requestDigest := request.(bi_digest); rc_outcome := outcome;
    rc_recordedAt := canonicalRecordedAt; rc_event := event; rc_code := code;
    rc_diagnostic := diagnostic; rc_canonical := ""; rc_digest := zero_digest |} in
  '(canonical, digest) ← canonicalJSON (receipt_wire receipt);
  Ok (receipt_with_seal receipt canonical digest).

Definition NewAcceptedReceipt (request : BoundIntent) (event : Event) (recordedAt : Time)
    : result Receipt :=
  canonicalRecordedAt ← canonicalTime "Receipt recorded time" recordedAt;
  _ ← fail_if (IsZero request.(bi_operationKey) || Digest_IsZero request.(bi_digest) ||
               negb (bool_decide (event.(ev_operationKey) = request.(bi_operationKey))) ||
               negb (bool_decide (event.(ev_requestDigest) = request.(bi_digest))) ||
               Digest_IsZero event.(ev_digest))
        (invariant "accepted Receipt" "Event must be the accepted result of the exact operation");
  _ ← fail_if (canonicalRecordedAt <? event.(ev_acceptedAt))
        (invariant "accepted Receipt" "recorded time must not precede Event acceptance");
  newReceipt request ReceiptOutcomeAccepted (Event_Ref event) "" "" canonicalRecordedAt.

Definition NewRejectedReceipt (request : BoundIntent) (code : SemanticLabel) (diagnostic : string)
    (recordedAt : Time) : result Receipt :=
  _ ← fail_if (IsZero code) (invalid "rejected Receipt" "diagnostic code is required");
  _ ← fail_if (MaxDiagnosticBytes <? slen diagnostic)
        (limit "Receipt diagnostic" (slen diagnostic) MaxDiagnosticBytes);
  _ ← or_error (NewSemanticPayload diagnostic)
        (invalid "Receipt diagnostic" "must be valid UTF-8 without NUL");
  newReceipt request ReceiptOutcomeRejected zero_EventRef code diagnostic recordedAt.

Definition parseReceiptEventRef : eventRefWire → result EventRef := parseEventRef.

Definition receiptFromWire (wire : receiptWire) : result Receipt :=
  _ ← fail_if (negb (wire.(rcw_SchemaVersion) =? 1))
        (invalid "Receipt schema version" "must be 1");
  operationKey ← NewOperationKey wire.(rcw_OperationKey);
  requestDigest ← ParseDigest wire.(rcw_RequestDigest);
  recordedAt ← parseCanonicalReceiptTime wire.(rcw_RecordedAt);
  let receipt outcome event code diagnostic :=
    {| rc_operationKey := operationKey; rc_requestDigest := requestDigest; rc_outcome := outcome;
       rc_recordedAt := recordedAt; rc_event := event; rc_code := code;
       rc_diagnostic := diagnostic; rc_canonical := ""; rc_digest := zero_digest |} in
  if String.eqb wire.(rcw_Outcome) "accepted" then
    let shape := invalid "accepted Receipt" "requires one Event and no rejection fields" in
    event ← of_option wire.(rcw_Event) shape;
    _ ← fail_if (negb (is_empty wire.(rcw_Code)) || negb (is_empty wire.(rcw_Diagnostic))) shape;
    event ← parseReceiptEventRef event;
    Ok (receipt ReceiptOutcomeAccepted event "" "")
  else if String.eqb wire.(rcw_Outcome) "rejected" then
    _ ← fail_if (is_some wire.(rcw_Event) || is_empty wire.(rcw_Code))
          (invalid "rejected Receipt" "requires a code and no Event");
    code ← NewSemanticLabel wire.(rcw_Code);
    _ ← fail_if (MaxDiagnosticBytes <? slen wire.(rcw_Diagnostic))
          (limit "Receipt diagnostic" (slen wire.(rcw_Diagnostic)) MaxDiagnosticBytes);
    _ ← NewSemanticPayload wire.(rcw_Diagnostic);
    Ok (receipt ReceiptOutcomeRejected zero_EventRef code wire.(rcw_Diagnostic))
  else Err (invalid "Receipt outcome" "must be accepted or rejected").

Definition ParseReceiptCanonicalJSON (data : string) : result Receipt :=
  _ ← fail_if (slen data =? 0) (invalid "Receipt JSON" "must not be empty");
  _ ← fail_if (MaxReceiptCanonicalBytes <? slen data)
        (limit "Receipt JSON bytes" (slen data) MaxReceiptCanonicalBytes);
  _ ← rejectDuplicateJSONKeys "Receipt JSON" data;
  '(wire, rest) ← wrap_error "agency: decode Receipt"
    ('(v, rest) ← parse_first None data; w ← dec v; Ok (w, rest));
  _ ← requireJSONEOF "Receipt JSON" rest;
  receipt ← receiptFromWire wire;
  '(canonical, digest) ← canonicalJSON (receipt_wire receipt);
  _ ← fail_if (negb (bool_decide (canonical = data)))
        (invalid "Receipt JSON" "is not the canonical Receipt encoding");
  Ok (receipt_with_seal receipt canonical digest).

(** ** Laws *)

Lemma parse_canonical_time_format field t :
  time_ok t → parse_canonical_time field (format_time t) = Ok t.
Proof.
  intros [Hz Hr]. unfold parse_canonical_time.
  apply bind_Ok. exists t. split; [by rewrite (parse_format_time t Hr)|].
  apply bind_Ok. exists t. split; [by apply canonicalTime_Ok|].
  apply bind_Ok. exists (). split; [by rewrite bool_decide_eq_true_2|done].
Qed.

Lemma parse_canonical_time_Ok field s t :
  parse_canonical_time field s = Ok t → s = format_time t ∧ time_ok t.
Proof.
  unfold parse_canonical_time. intros H. inv_res.
  match goal with H : canonicalTime _ _ = _ |- _ => apply canonicalTime_Ok in H as (-> & ? & ?) end.
  done.
Qed.

Lemma parseEventRef_canonical r : ref_ok r → parseEventRef (EventRef_canonical r) = Ok r.
Proof.
  intros Hr. pose proof (ref_ok_nonzero r Hr) as Hz. destruct Hr as [Hi [Hw Hd]].
  unfold parseEventRef, EventRef_canonical, NewEventID; cbn [erw_ID erw_Digest].
  rewrite (proj2 (newIdentifier_Ok _ _ _) (conj eq_refl Hi)). cbn [mbind result_bind].
  rewrite ParseDigest_String by done. cbn [mbind result_bind]. unfold NewEventRef.
  unfold EventRef_IsZero in Hz. rewrite Hz. by destruct r.
Qed.

Lemma parseEventRef_Ok w r : parseEventRef w = Ok r → ref_ok r ∧ w = EventRef_canonical r.
Proof.
  unfold parseEventRef, NewEventID, NewEventRef. intros H. inv_res.
  match goal with H : newIdentifier _ _ = _ |- _ => apply newIdentifier_Ok in H as [-> ?] end.
  match goal with H : ParseDigest _ = _ |- _ => apply ParseDigest_Ok in H as (E & ? & ?) end.
  split; [by split|]. unfold EventRef_canonical; simpl. rewrite <- E. by destruct w.
Qed.

Lemma parseOptionalEventRef_wire field r :
  opt_ref_ok r → parseOptionalEventRef field (optional_ref_wire r) = Ok r.
Proof.
  intros [->|Hr]; [done|]. unfold optional_ref_wire. rewrite ref_ok_nonzero by done.
  cbn [parseOptionalEventRef]. by rewrite parseEventRef_canonical.
Qed.

Lemma parse_optional_delivery_wire d :
  opt_delivery_ok d → parse_optional_delivery (optional_delivery_wire d) = Ok d.
Proof.
  intros [->|Hd]; [done|]. unfold optional_delivery_wire, DeliveryID_IsZero.
  rewrite (proj2 Hd). unfold parse_optional_delivery. by rewrite ParseDeliveryID_String.
Qed.

(** The parts of an Event its canonical form does not carry: the opaque View
    handles its authority was selected by. *)
Definition erase_subject (s : SubjectBinding) : SubjectBinding :=
  {| sb_handle := ""; sb_handlingID := s.(sb_handlingID); sb_head := s.(sb_head);
     sb_fence := s.(sb_fence); sb_observationRevision := s.(sb_observationRevision) |}.
Definition erase_expectation (e : ReferenceExpectation) : ReferenceExpectation :=
  {| re_absent := e.(re_absent); re_handle := ""; re_key := e.(re_key); re_head := e.(re_head) |}.
Definition erase_target (t : ResolvedTarget) : ResolvedTarget :=
  {| rt_requested := no_target; rt_destination := t.(rt_destination);
     rt_localPrincipal := t.(rt_localPrincipal); rt_remoteRoute := t.(rt_remoteRoute);
     rt_remoteAlias := t.(rt_remoteAlias) |}.
Definition erase_handles (e : Event) : Event :=
  {| ev_id := e.(ev_id); ev_acceptedAt := e.(ev_acceptedAt);
     ev_originSequence := e.(ev_originSequence); ev_causalDepth := e.(ev_causalDepth);
     ev_source := e.(ev_source); ev_operationKey := e.(ev_operationKey);
     ev_requestDigest := e.(ev_requestDigest); ev_kind := e.(ev_kind);
     ev_payload := e.(ev_payload); ev_consequence := e.(ev_consequence);
     ev_subject := erase_subject <$> e.(ev_subject);
     ev_expectedRef := erase_expectation <$> e.(ev_expectedRef);
     ev_targets := map erase_target e.(ev_targets); ev_artifacts := e.(ev_artifacts);
     ev_causation := e.(ev_causation); ev_correlation := e.(ev_correlation);
     ev_inReplyToDelivery := e.(ev_inReplyToDelivery);
     ev_canonical := e.(ev_canonical); ev_digest := e.(ev_digest) |}.

Lemma parseEventSubject_wire o :
  (∀ s, o = Some s → subject_ok s) →
  parseEventSubject (subject_wire <$> o) = Ok (erase_subject <$> o).
Proof.
  intros Ho. destruct o as [s|]; [|done]. destruct (Ho s eq_refl) as [Hh Hr Hf Hv].
  cbn [fmap option_fmap option_map parseEventSubject subject_wire sbw_HandlingID sbw_Head sbw_Fence
       sbw_ObservationRevision]. unfold NewHandlingID.
  rewrite (proj2 (newIdentifier_Ok _ _ _) (conj eq_refl Hh)). cbn [mbind result_bind].
  rewrite parseEventRef_canonical by done. cbn [mbind result_bind].
  rewrite (proj2 (Z.eqb_neq _ _)) by lia. done.
Qed.

Lemma parseEventReference_wire o :
  (∀ e, o = Some e → expectation_ok e) →
  parseEventReference (expectation_wire <$> o) = Ok (erase_expectation <$> o).
Proof.
  intros Ho. destruct o as [e|]; [|done]. destruct (Ho e eq_refl) as [Hk Hh].
  cbn [fmap option_fmap option_map parseEventReference expectation_wire rew_Absent rew_Key rew_Head].
  rewrite (proj2 (NewReferenceKey_Ok _ _) (conj eq_refl Hk)). cbn [mbind result_bind].
  unfold erase_expectation. destruct (re_absent e); [by rewrite Hh|].
  unfold optional_ref_wire. rewrite ref_ok_nonzero by done. cbn [of_option mbind result_bind].
  by rewrite parseEventRef_canonical.
Qed.

Lemma parseEventTarget_wire t : target_ok t → parseEventTarget (resolvedWire t) = Ok (erase_target t).
Proof.
  unfold target_ok, parseEventTarget, resolvedWire, erase_target, NewAgentPrincipalID, NewRouteID.
  destruct t as [req dest lp rr ra]; cbn. destruct dest; [done| |].
  - intros (Hp & -> & ->). cbn.
    by rewrite (proj2 (newIdentifier_Ok _ _ _) (conj eq_refl Hp)).
  - intros (-> & Hr & Ha). cbn.
    rewrite (proj2 (newIdentifier_Ok _ _ _) (conj eq_refl Hr)). cbn [mbind result_bind].
    by rewrite (proj2 (NewOpaqueHandle_Ok _ _) (conj eq_refl Ha)).
Qed.

Section parse_distinct.
Context {A B K} `{EqDecision K} (parse : A → result B) (key : B → K) (dup : error).

Lemma parse_distinct_Ok seen xs ys :
  parse_distinct parse key dup seen xs = Ok ys ↔
  Forall2 (λ x y, parse x = Ok y) xs ys ∧ NoDup (map key ys) ∧
  (∀ y, y ∈ ys → key y ∉ seen).
Proof.
  revert seen ys. induction xs as [|x xs IH]; intros seen ys; cbn [parse_distinct].
  - split.
    + intros [= <-]. split_and!; [constructor..|]. by intros y ?%elem_of_nil.
    + by intros [->%Forall2_nil_inv_l _].
  - split.
    + intros H. inv_res. match goal with H : parse_distinct _ _ _ _ _ = _ |- _ =>
        apply IH in H as (H2 & Hnd & Hs) end.
      split_and!; [by constructor| |].
      * apply NoDup_cons. split; [|done]. intros Hin. apply list_elem_of_fmap in Hin as (y & E & Hy).
        apply (Hs y Hy). rewrite <- E. constructor.
      * intros y Hy. apply elem_of_cons in Hy as [->|Hy]; [done|].
        intros Hin. apply (Hs y Hy). by constructor.
    + intros (H2 & Hnd & Hs). destruct ys as [|y ys]; [by inversion H2|].
      apply Forall2_cons in H2 as [Hy H2]. rewrite Hy. cbn [mbind result_bind].
      rewrite bool_decide_eq_false_2 by (apply (Hs y), list_elem_of_here). cbn [fail_if mbind result_bind].
      cbn [map] in Hnd. apply NoDup_cons in Hnd as [Hk Hnd].
      rewrite (proj2 (IH (key y :: seen) ys)); [done|]. split_and!; [done..|].
      intros z Hz. apply not_elem_of_cons. split.
      * intros E. apply Hk. rewrite <- E. apply list_elem_of_fmap. by exists z.
      * apply Hs. by constructor.
Qed.
End parse_distinct.

(** What makes an Event's canonical bytes parse back. *)
Record event_ok (e : Event) : Prop := {
  eok_id : handle_ok e.(ev_id) = true;
  eok_time : time_ok e.(ev_acceptedAt);
  eok_sequence : 0 < e.(ev_originSequence) <= max_uint64;
  eok_depth : 0 <= e.(ev_causalDepth) <= MaxPeerCausalDepth;
  eok_source : handle_ok e.(ev_source) = true;
  eok_operation : handle_ok e.(ev_operationKey) = true;
  eok_request : digest_ok e.(ev_requestDigest);
  eok_kind : label_ok e.(ev_kind) = true;
  eok_payload : payload_ok e.(ev_payload) = true;
  eok_consequence : Consequence_Valid e.(ev_consequence) = true;
  eok_subject : ∀ s, e.(ev_subject) = Some s → subject_ok s;
  eok_reference : ∀ r, e.(ev_expectedRef) = Some r → expectation_ok r;
  eok_targets : Forall target_ok e.(ev_targets);
  eok_targets_distinct : NoDup (map destinationKey e.(ev_targets));
  eok_targets_bound : lenZ e.(ev_targets) <= MaxSuccessors;
  eok_artifacts : Forall digest_ok e.(ev_artifacts);
  eok_artifacts_sorted : StronglySorted (key_le Digest_String) e.(ev_artifacts);
  eok_artifacts_distinct : NoDup e.(ev_artifacts);
  eok_artifacts_bound : lenZ e.(ev_artifacts) <= MaxArtifactInputs;
  eok_causation : Forall ref_ok e.(ev_causation);
  eok_causation_distinct : NoDup e.(ev_causation);
  eok_causation_bound : lenZ e.(ev_causation) <= MaxCausationHandles;
  eok_correlation : opt_ref_ok e.(ev_correlation);
  eok_reply : opt_delivery_ok e.(ev_inReplyToDelivery);
  eok_shape : validateParsedEventShape e = Ok ();
}.

Lemma digest_sort_antisym : AntiSymm (=) (key_le Digest_String).
Proof.
  intros x y Hxy Hyx. apply Digest_String_inj. by apply (anti_symm String.le).
Qed.

Lemma normalizePeerArtifacts_Ok values sorted :
  normalizePeerArtifacts values = Ok sorted ↔
  sorted = sort_by Digest_String values ∧ lenZ values <= MaxArtifactInputs ∧
  Forall (λ d, Digest_IsZero d = false) values ∧ NoDup values.
Proof.
  pose proof digest_sort_antisym.
  assert (Hz : existsb Digest_IsZero (sort_by Digest_String values) = false ↔
    Forall (λ d, Digest_IsZero d = false) values).
  { rewrite <- (sort_by_perm Digest_String values) at 2.
    rewrite <- not_true_iff_false, existsb_exists, Forall_forall.
    setoid_rewrite <- list_elem_of_In. setoid_rewrite <- not_true_iff_false. naive_solver. }
  assert (Hd : has_adjacent_dup (sort_by Digest_String values) = false ↔ NoDup values).
  { rewrite (has_adjacent_dup_NoDup (key_le Digest_String)) by apply sort_by_sorted.
    by rewrite sort_by_perm. }
  unfold normalizePeerArtifacts. split.
  - intros Hn. inv_res. split_and!; [done|by apply Z.ltb_ge|by apply Hz|by apply Hd].
  - intros (-> & Hl & Hz' & Hd'). rewrite (proj2 (Z.ltb_ge _ _)) by done.
    by rewrite (proj2 Hz Hz'), (proj2 Hd Hd').
Qed.

Lemma sort_digests_id values :
  StronglySorted (key_le Digest_String) values → sort_by Digest_String values = values.
Proof.
  intros Hs. apply sort_by_unique; [|done|done]. intros x y _ _. apply Digest_String_inj.
Qed.

Lemma parseEventArtifacts_wire values :
  Forall digest_ok values → StronglySorted (key_le Digest_String) values → NoDup values →
  lenZ values <= MaxArtifactInputs →
  parseEventArtifacts (map Digest_String values) = Ok values.
Proof.
  intros Hok Hs Hnd Hl. unfold parseEventArtifacts.
  rewrite (mapR_inverse (λ value, wrap_error "Event Artifact" (ParseDigest value))).
  2:{ eapply Forall_impl; [done|]. intros d [Hw Hz]. by rewrite ParseDigest_String. }
  cbn [mbind result_bind]. apply normalizePeerArtifacts_Ok.
  rewrite sort_digests_id by done. split_and!; [done..| |done].
  eapply Forall_impl; [done|]. by intros d [_ Hz].
Qed.

Lemma parseEventCausation_wire refs :
  Forall ref_ok refs → NoDup refs → lenZ refs <= MaxCausationHandles →
  parseEventCausation (map EventRef_canonical refs) = Ok refs.
Proof.
  intros Hok Hnd Hl. unfold parseEventCausation.
  assert (Hlen : lenZ (map EventRef_canonical refs) = lenZ refs)
    by (unfold lenZ; by rewrite length_map).
  rewrite Hlen, (proj2 (Z.ltb_ge _ _)) by done. cbn [fail_if mbind result_bind].
  apply parse_distinct_Ok. rewrite map_id. split_and!; [|done|by intros ? ? ?%elem_of_nil].
  clear -Hok. induction Hok as [|r refs Hr Hrs IH]; cbn [map]; constructor; [|done].
  by rewrite parseEventRef_canonical.
Qed.

Lemma destinationKey_erase t : destinationKey (erase_target t) = destinationKey t.
Proof. done. Qed.

Lemma parseEventTargets_wire targets :
  Forall target_ok targets → NoDup (map destinationKey targets) →
  lenZ targets <= MaxSuccessors →
  parseEventTargets (map resolvedWire targets) = Ok (map erase_target targets).
Proof.
  intros Hok Hnd Hl. unfold parseEventTargets.
  assert (Hlen : lenZ (map resolvedWire targets) = lenZ targets)
    by (unfold lenZ; by rewrite length_map).
  rewrite Hlen, (proj2 (Z.ltb_ge _ _)) by done. cbn [fail_if mbind result_bind].
  apply parse_distinct_Ok. rewrite map_map. split_and!; [|done|by intros ? ? ?%elem_of_nil].
  clear -Hok. induction Hok as [|t ts Ht Hts IH]; cbn [map]; constructor; [|done].
  by apply parseEventTarget_wire.
Qed.

Lemma filter_erase dest targets :
  lenZ (filter (λ t, rt_destination t = dest) (map erase_target targets)) =
  lenZ (filter (λ t, rt_destination t = dest) targets).
Proof.
  unfold lenZ. f_equal. induction targets as [|t ts IH]; [done|].
  cbn [map]. rewrite !filter_cons. cbn [erase_target rt_destination].
  destruct (decide _); cbn [length]; congruence.
Qed.

Lemma validateParsedEventShape_erase e :
  validateParsedEventShape (erase_handles e) = validateParsedEventShape e.
Proof.
  unfold validateParsedEventShape, parsedEventTargetCounts, local_targets, remote_targets.
  cbn [erase_handles ev_subject ev_expectedRef ev_targets ev_inReplyToDelivery ev_correlation
       ev_artifacts ev_consequence ev_causation ev_causalDepth ev_operationKey].
  rewrite !filter_erase.
  replace (lenZ (map erase_target (ev_targets e))) with (lenZ (ev_targets e))
    by (unfold lenZ; by rewrite length_map).
  by destruct (ev_subject e), (ev_expectedRef e).
Qed.

Lemma event_wire_erase e : event_wire (erase_handles e) = event_wire e.
Proof.
  unfold event_wire. cbn [erase_handles ev_id ev_acceptedAt ev_originSequence ev_causalDepth
    ev_source ev_operationKey ev_requestDigest ev_kind ev_payload ev_consequence ev_subject
    ev_expectedRef ev_targets ev_artifacts ev_causation ev_correlation ev_inReplyToDelivery].
  rewrite map_map. f_equal. f_equal; by destruct (ev_subject e), (ev_expectedRef e).
Qed.

Lemma event_wire_ok e : event_ok e → enc_ok (event_wire e).
Proof.
  intros H. split; [done|]. split; [|split].
  - split; [by eapply token_ok_utf8, eok_id|].
    split; [by apply format_time_utf8, eok_time|].
    split; [pose proof (eok_sequence e H); cbn; lia|].
    split; [pose proof (eok_depth e H); cbn; unfold MaxPeerCausalDepth, max_uint16 in *; lia|].
    split; [by eapply token_ok_utf8, eok_source|].
    split; [by eapply token_ok_utf8, eok_operation|].
    split; [apply Digest_String_utf8|]. split; [apply Consequence_String_utf8|].
    split; [apply ok_ptr_fmap; intros s Hs; by eapply subject_wire_ok, eok_subject|].
    split; [apply ok_ptr_fmap; intros s Hs; by eapply expectation_wire_ok, eok_reference|].
    split; [|apply optional_delivery_utf8].
    apply Forall_map. eapply Forall_impl; [by apply eok_targets|]. apply target_wire_enc_ok.
  - split; [by eapply token_ok_utf8, eok_kind|by apply payload_ok_utf8, eok_payload].
  - split; [|split].
    + apply Forall_map, Forall_true. intros d. apply Digest_String_utf8.
    + apply Forall_map. eapply Forall_impl; [by apply eok_causation|]. apply ref_wire_ok.
    + by apply optional_ref_wire_ok, eok_correlation.
Qed.

(** Rewriting with a known sub-result and stepping past it. *)
Ltac step H := rewrite H; cbn [mbind result_bind].

Lemma eventFromWire_wire e e' :
  event_ok e → sealEvent e = Ok e' → eventFromWire (event_wire e) = Ok (erase_handles e').
Proof.
  intros H Hseal. unfold eventFromWire, NewEventID, NewAgentPrincipalID, NewOperationKey,
    parseCanonicalEventTime.
  cbn [event_wire ew_SchemaVersion ew_Machine ew_Semantic ew_Evidence emw_ID emw_AcceptedAt
    emw_OriginSequence emw_CausalDepth emw_Source emw_OperationKey emw_RequestDigest
    emw_Consequence emw_Subject emw_ExpectedReference emw_Targets emw_InReplyToDelivery
    esw_Kind esw_Payload eew_Artifacts eew_Causation eew_Correlation].
  cbn [eventSchemaVersion Z.eqb Pos.eqb negb fail_if mbind result_bind].
  step (proj2 (newIdentifier_Ok "EventID" _ _) (conj eq_refl (eok_id e H))).
  step (parse_canonical_time_format "Event accepted time" _ (eok_time e H)).
  rewrite (proj2 (Z.eqb_neq _ _)) by (pose proof (eok_sequence e H); lia).
  rewrite (proj2 (Z.ltb_ge _ _)) by apply (eok_depth e H). cbn [fail_if mbind result_bind].
  step (proj2 (newIdentifier_Ok "AgentPrincipalID" _ _) (conj eq_refl (eok_source e H))).
  step (proj2 (newIdentifier_Ok "operation key" _ _) (conj eq_refl (eok_operation e H))).
  step (ParseDigest_String _ (proj1 (eok_request e H)) (proj2 (eok_request e H))).
  step (parseConsequence_String _ (eok_consequence e H)).
  step (proj2 (NewSemanticLabel_Ok _ _) (conj eq_refl (eok_kind e H))).
  step (proj2 (NewSemanticPayload_Ok _ _) (conj eq_refl (eok_payload e H))).
  step (parseEventSubject_wire _ (eok_subject e H)).
  step (parseEventReference_wire _ (eok_reference e H)).
  step (parseEventTargets_wire _ (eok_targets e H) (eok_targets_distinct e H) (eok_targets_bound e H)).
  step (parseEventArtifacts_wire _ (eok_artifacts e H) (eok_artifacts_sorted e H)
    (eok_artifacts_distinct e H) (eok_artifacts_bound e H)).
  step (parseEventCausation_wire _ (eok_causation e H) (eok_causation_distinct e H)
    (eok_causation_bound e H)).
  step (parseOptionalEventRef_wire "Event correlation" _ (eok_correlation e H)).
  step (parse_optional_delivery_wire _ (eok_reply e H)).
  match goal with |- mbind _ (validateParsedEventShape ?x) = _ =>
    change x with (with_seal (erase_handles e) "" zero_digest) end.
  assert (Hs : validateParsedEventShape (with_seal (erase_handles e) "" zero_digest) = Ok ()).
  { exact (eq_trans (validateParsedEventShape_erase e) (eok_shape e H)). }
  step Hs. unfold sealEvent in *.
  change (event_wire (with_seal (erase_handles e) "" zero_digest))
    with (event_wire (erase_handles e)). rewrite event_wire_erase.
  unfold canonicalJSON in *. cbn [mbind result_bind] in *.
  destruct (MaxEventCanonicalBytes <? _); [discriminate|].
  cbn [fail_if mbind result_bind] in *. by injection Hseal as <-.
Qed.

Lemma ParseEventCanonicalJSON_seal e e' :
  event_ok e → sealEvent e = Ok e' → ParseEventCanonicalJSON e'.(ev_canonical) = Ok (erase_handles e').
Proof.
  intros H Hseal. unfold ParseEventCanonicalJSON.
  pose proof (eventFromWire_wire e e' H Hseal) as Hw.
  assert (Hc : ev_canonical e' = canonical_bytes (event_wire e) ∧
               slen (ev_canonical e') <= MaxEventCanonicalBytes).
  { unfold sealEvent, canonicalJSON in Hseal. inv_res.
    split; [done|]. by apply Z.ltb_ge. }
  destruct Hc as [Hc Hl]. rewrite Hc in Hl |- *.
  rewrite decodeCanonicalObject_canonical by (by try apply event_wire_ok).
  cbn [mbind result_bind]. step Hw. cbn [erase_handles ev_canonical].
  by rewrite (proj2 (requireReconstructedCanonical_Ok "Event JSON" _ _ ()) (eq_sym Hc)).
Qed.

(** *** Receipts *)

Record receipt_ok (r : Receipt) : Prop := {
  rok_operation : handle_ok r.(rc_operationKey) = true;
  rok_request : digest_ok r.(rc_requestDigest);
  rok_time : time_ok r.(rc_recordedAt);
  rok_outcome :
    match r.(rc_outcome) with
    | ReceiptOutcomeAccepted => ref_ok r.(rc_event) ∧ r.(rc_code) = "" ∧ r.(rc_diagnostic) = ""
    | ReceiptOutcomeRejected =>
        r.(rc_event) = zero_EventRef ∧ label_ok r.(rc_code) = true ∧
        payload_ok r.(rc_diagnostic) = true ∧ slen r.(rc_diagnostic) <= MaxDiagnosticBytes
    | ReceiptOutcomeInvalid => False
    end;
}.

Lemma receipt_wire_ok r : receipt_ok r → enc_ok (receipt_wire r).
Proof.
  intros [Ho Hd Ht Hout]. split; [done|].
  split; [by eauto with wire_ok|]. split; [by eauto with wire_ok|].
  split; [by cbn [receipt_wire rcw_Outcome]; destruct (rc_outcome r)|]. split; [by eauto with wire_ok|].
  cbn [receipt_wire rcw_Event rcw_Code rcw_Diagnostic].
  destruct (rc_outcome r); [done| |].
  - destruct Hout as (Hr & -> & ->). split; [|done]. apply optional_ref_wire_ok. by right.
  - destruct Hout as (-> & Hc & Hp & _).
    split; [apply optional_ref_wire_ok; by left|].
    split; eauto with wire_ok.
Qed.

Lemma hex_encode_plain d : forallb plain_byte (string_to_bytes (hex_encode d)) = true.
Proof.
  induction d as [|c d IH]; [done|]. cbn [hex_encode string_to_bytes forallb].
  assert (Hh : ∀ n, (n < 16)%N → plain_byte (hex_lower n) = true).
  { intros n Hn. destruct n as [|p]; [done|].
    do 4 (try (destruct p as [p|p|]; [| |done])); exfalso; lia. }
  pose proof (N_of_byte_bound c).
  rewrite !Hh, IH; [done|apply N.mod_lt; lia|apply N.Div0.div_lt_upper_bound; lia].
Qed.

Lemma Digest_String_length d : digest_wf d → slen (marshal_string (Digest_String d)) = 73.
Proof.
  intros Hd. rewrite marshal_string_length. unfold Digest_String. rewrite escape_plain.
  - unfold slen. rewrite string_length_app, hex_encode_length, Hd. done.
  - rewrite string_to_bytes_app, forallb_app. apply andb_true_iff. split; [done|apply hex_encode_plain].
Qed.

Lemma format_time_marshal_length t : time_ok t → slen (marshal_string (format_time t)) <= 32.
Proof.
  intros Ht. rewrite marshal_string_length. destruct Ht as [_ Ht].
  rewrite escape_plain; [pose proof (format_time_length t Ht); unfold slen; lia|].
  by apply format_time_plain.
Qed.

Lemma ref_wire_length r :
  ref_ok r → slen (marshal (enc (EventRef_canonical r))) <= 300.
Proof.
  intros [Hi [Hd _]]. etransitivity; [apply struct_length|].
  cbn [map member_size field fst snd enc string_codec erw_ID erw_Digest EventRef_canonical foldr].
  change (marshal (JStr (er_id r))) with (marshal_string (er_id r)).
  change (marshal (JStr (Digest_String (er_digest r)))) with (marshal_string (Digest_String (er_digest r))).
  rewrite Digest_String_length by done.
  pose proof (marshal_token_length _ _ _ Hi). unfold MaxOpaqueHandleBytes in *.
  change (slen (marshal_string "id")) with 4. change (slen (marshal_string "digest")) with 8. lia.
Qed.

Lemma omitempty_string_size k (s : string) :
  member_size (omitempty k s) <= slen (marshal_string k) + slen (marshal_string s) + 2.
Proof.
  unfold member_size, omitempty, slen; cbn [fst snd]. cbn [empty string_codec enc].
  destruct (is_empty s); [lia|]. change (marshal (JStr s)) with (marshal_string s). lia.
Qed.

(** Every Receipt the constructors can build fits the parser's size bound. *)
Lemma receipt_size r :
  receipt_ok r → slen (canonical_bytes (receipt_wire r)) <= MaxReceiptCanonicalBytes.
Proof.
  intros [Ho [Hd _] Ht Hout]. unfold canonical_bytes.
  match goal with |- context [marshal (enc ?w)] =>
    let e := eval cbn -[struct field omitempty omitnil receipt_wire] in (enc w) in
    change (enc w) with e end.
  etransitivity; [apply struct_length|].
  cbn [map field omitempty omitnil enc empty string_codec int_codec int_codec_of receipt_wire
    rcw_SchemaVersion rcw_OperationKey rcw_RequestDigest rcw_Outcome rcw_RecordedAt rcw_Event
    rcw_Code rcw_Diagnostic foldr member_size fst snd].
  change (marshal (JStr (rc_operationKey r))) with (marshal_string (rc_operationKey r)).
  change (marshal (JStr (Digest_String (rc_requestDigest r))))
    with (marshal_string (Digest_String (rc_requestDigest r))).
  change (marshal (JStr (format_time (rc_recordedAt r))))
    with (marshal_string (format_time (rc_recordedAt r))).
  change (slen (marshal (enc_Z 1))) with 1.
  pose proof (marshal_token_length _ _ _ Ho) as Lo. unfold MaxOpaqueHandleBytes in Lo.
  rewrite (Digest_String_length _ Hd). pose proof (format_time_marshal_length _ Ht) as Lt.
  repeat match goal with |- context [slen (marshal_string ?k)] =>
    lazymatch k with
    | rc_operationKey r => fail | format_time _ => fail | _ =>
      let n := eval vm_compute in (slen (marshal_string k)) in change (slen (marshal_string k)) with n
    end end.
  destruct (rc_outcome r); [done| |].
  - destruct Hout as (Hr & -> & ->). unfold optional_ref_wire. rewrite ref_ok_nonzero by done.
    cbn [fmap option_fmap option_map]. pose proof (ref_wire_length _ Hr) as Lr.
    change (member_size (omitempty "code" "")) with 0.
    change (member_size (omitempty "diagnostic" "")) with 0.
    change (member_size (omitnil "event" (Some (EventRef_canonical (rc_event r)))))
      with (7 + slen (marshal (enc (EventRef_canonical (rc_event r)))) + 2).
    change (slen (marshal (JStr (ReceiptOutcome_String ReceiptOutcomeAccepted)))) with 10.
    unfold MaxReceiptCanonicalBytes. change (Z.shiftl 4 10) with 4096. lia.
  - destruct Hout as (-> & Hc & Hp & Hdl). unfold optional_ref_wire.
    rewrite zero_EventRef_IsZero. change (member_size (omitnil "event" None)) with 0.
    pose proof (marshal_token_length _ _ _ Hc) as Lc. unfold MaxSemanticLabelBytes in Lc.
    pose proof (omitempty_string_size "code" (rc_code r)) as Sc.
    pose proof (omitempty_string_size "diagnostic" (rc_diagnostic r)) as Sd.
    change (slen (marshal_string "code")) with 6 in Sc.
    change (slen (marshal_string "diagnostic")) with 12 in Sd.
    change (slen (marshal (JStr (ReceiptOutcome_String ReceiptOutcomeRejected)))) with 10.
    unfold MaxReceiptCanonicalBytes. change (Z.shiftl 4 10) with 4096.
    rewrite (marshal_string_length (rc_diagnostic r)) in Sd.
    pose proof (escape_length _ (payload_ok_utf8 _ Hp)) as Le.
    unfold MaxDiagnosticBytes, slen in *. lia.
Qed.

Lemma receiptFromWire_wire r :
  receipt_ok r → receiptFromWire (receipt_wire r) = Ok (receipt_with_seal r "" zero_digest).
Proof.
  intros [Ho [Hw Hz] Ht Hout]. unfold receiptFromWire, NewOperationKey, parseCanonicalReceiptTime.
  cbn [receipt_wire rcw_SchemaVersion rcw_OperationKey rcw_RequestDigest rcw_Outcome rcw_RecordedAt
    rcw_Event rcw_Code rcw_Diagnostic].
  cbn [Z.eqb Pos.eqb negb fail_if mbind result_bind].
  step (proj2 (newIdentifier_Ok "operation key" _ _) (conj eq_refl Ho)).
  step (ParseDigest_String _ Hw Hz).
  step (parse_canonical_time_format "Receipt recorded time" _ Ht).
  destruct r as [op rd out rt ev code diag can dig]; cbn in *. destruct out; [done| |].
  - destruct Hout as (Hr & -> & ->). unfold optional_ref_wire. rewrite ref_ok_nonzero by done.
    cbn [of_option mbind result_bind String.eqb Ascii.eqb Bool.eqb ReceiptOutcome_String].
    change (is_empty "") with true. cbn [negb orb fail_if mbind result_bind].
    unfold parseReceiptEventRef. by rewrite parseEventRef_canonical.
  - destruct Hout as (-> & Hc & Hp & Hl). unfold optional_ref_wire.
    rewrite zero_EventRef_IsZero. cbn [is_some String.eqb Ascii.eqb Bool.eqb ReceiptOutcome_String orb].
    rewrite (proj2 (is_empty_false _) (token_ok_nonempty _ _ _ Hc)).
    cbn [fail_if mbind result_bind].
    step (proj2 (NewSemanticLabel_Ok _ _) (conj eq_refl Hc)).
    rewrite (proj2 (Z.ltb_ge _ _)) by done. cbn [fail_if mbind result_bind].
    by step (proj2 (NewSemanticPayload_Ok _ _) (conj eq_refl Hp)).
Qed.

(** A Receipt sealed over its own wire form. *)
Definition receipt_sealed (r : Receipt) : Prop :=
  r.(rc_canonical) = canonical_bytes (receipt_wire r) ∧ r.(rc_digest) = Sum r.(rc_canonical).

Lemma ParseReceiptCanonicalJSON_canonical r :
  receipt_ok r → receipt_sealed r → ParseReceiptCanonicalJSON r.(rc_canonical) = Ok r.
Proof.
  intros Hr [Hc Hd]. pose proof (receipt_wire_ok r Hr) as Hok.
  pose proof (receipt_size r Hr) as Hsize. unfold ParseReceiptCanonicalJSON. rewrite Hc.
  assert (Hne : slen (canonical_bytes (receipt_wire r)) ≠ 0).
  { pose proof (marshal_nonempty _ (enc_wf _ Hok)) as Hne. unfold canonical_bytes, slen.
    by destruct (marshal (enc (receipt_wire r))). }
  rewrite (proj2 (Z.eqb_neq _ _) Hne), (proj2 (Z.ltb_ge _ _) Hsize).
  unfold rejectDuplicateJSONKeys. rewrite !canonical_bytes_parse by done.
  cbn [fail_if mbind result_bind wrap_error]. rewrite dec_enc by done. cbn [mbind result_bind wrap_error].
  change (requireJSONEOF "Receipt JSON" "") with (@Ok () ()). cbn [mbind result_bind].
  step (receiptFromWire_wire r Hr).
  change (receipt_wire (receipt_with_seal r "" zero_digest)) with (receipt_wire r).
  unfold canonicalJSON. cbn [mbind result_bind]. rewrite bool_decide_eq_true_2 by done.
  cbn [negb fail_if mbind result_bind]. rewrite <- Hc, <- Hd. by destruct r.
Qed.

Lemma newReceipt_Ok request outcome event code diagnostic recordedAt r :
  newReceipt request outcome event code diagnostic recordedAt = Ok r →
  receipt_sealed r ∧ r.(rc_operationKey) = request.(bi_operationKey) ∧
  r.(rc_requestDigest) = request.(bi_digest) ∧ r.(rc_outcome) = outcome ∧
  r.(rc_event) = event ∧ r.(rc_code) = code ∧ r.(rc_diagnostic) = diagnostic ∧
  r.(rc_recordedAt) = recordedAt ∧ time_ok recordedAt ∧
  IsZero request.(bi_operationKey) = false ∧ Digest_IsZero request.(bi_digest) = false.
Proof.
  unfold newReceipt, canonicalJSON. intros H. inv_res.
  match goal with H : canonicalTime _ _ = _ |- _ => apply canonicalTime_Ok in H as (-> & ? & ?) end.
  split_and!; done.
Qed.

(** Constructed Receipts parse back. *)
Lemma NewAcceptedReceipt_ok request event recordedAt r :
  handle_ok request.(bi_operationKey) = true → digest_wf request.(bi_digest) →
  ref_ok (Event_Ref event) → NewAcceptedReceipt request event recordedAt = Ok r →
  receipt_ok r ∧ receipt_sealed r ∧ r.(rc_operationKey) = request.(bi_operationKey) ∧
  r.(rc_requestDigest) = request.(bi_digest) ∧ r.(rc_outcome) = ReceiptOutcomeAccepted ∧
  r.(rc_event) = Event_Ref event ∧ r.(rc_recordedAt) = recordedAt.
Proof.
  intros Hop Hw Hev H. unfold NewAcceptedReceipt in H. apply bind_Ok in H as (t & Ht & H).
  apply canonicalTime_Ok in Ht as (-> & _). apply bind_Ok in H as ([] & _ & H).
  apply bind_Ok in H as ([] & _ & H).
  apply newReceipt_Ok in H as (Hs & E1 & E2 & E3 & E4 & E5 & E6 & E7 & Ht & _ & Hz).
  split_and!; try done. split; rewrite ?E1, ?E2, ?E3, ?E4, ?E5, ?E6, ?E7; done.
Qed.

Lemma NewRejectedReceipt_ok request code diagnostic recordedAt r :
  handle_ok request.(bi_operationKey) = true → digest_wf request.(bi_digest) →
  label_ok code = true → NewRejectedReceipt request code diagnostic recordedAt = Ok r →
  receipt_ok r ∧ receipt_sealed r ∧ r.(rc_operationKey) = request.(bi_operationKey) ∧
  r.(rc_requestDigest) = request.(bi_digest) ∧ r.(rc_outcome) = ReceiptOutcomeRejected ∧
  r.(rc_event) = zero_EventRef ∧ r.(rc_recordedAt) = recordedAt.
Proof.
  intros Hop Hw Hc H. unfold NewRejectedReceipt in H. apply bind_Ok in H as ([] & _ & H).
  apply bind_Ok in H as ([] & Hl & H). apply bind_Ok in H as (p & Hp & H).
  apply or_error_Ok, NewSemanticPayload_Ok in Hp as [_ Hp]. apply fail_if_Ok, Z.ltb_ge in Hl.
  apply newReceipt_Ok in H as (Hs & E1 & E2 & E3 & E4 & E5 & E6 & E7 & Ht & _ & Hz).
  split_and!; try done. split; rewrite ?E1, ?E2, ?E3, ?E4, ?E5, ?E6, ?E7; done.
Qed.
