(* ===== verification/Peer.v ===== *)
(** Peer deliveries: the canonical signed-envelope content
    (internal/agency/peer_delivery.go, peer_delivery_parse.go), the verified
    candidate (verified_peer_delivery.go), the local Event it may become
    (peer_event.go), and the remote admission Receipt
    (peer_admission_receipt.go, peer_admission_receipt_parse.go). *)

From Stdlib Require Import Lia.
From S2P Require Import Prelude Utf8 Json Wire Sha256 Time Value Intent Bound Event.

#[local] Open Scope Z_scope.
#[local] Arguments String.append : simpl nomatch.

Definition MaxPeerDeliveryCanonicalBytes : Z := Z.shiftl 32 10.
Definition MaxPeerDeliveryTTL : Z := 24 * 3600 * ns_per_second.
Definition MaxPeerAdmissionReceiptCanonicalBytes : Z := Z.shiftl 4 10.
Definition MaxPeerArtifactBytes : Z := Z.shiftl 4 20.

Definition peerDeliveryIDDomain : string := "mnemon.peer-delivery-id.v1".
Definition peerDeliveryEnvelopeDomain : string := "mnemon.peer-delivery-envelope.v1".
Definition peerDeliverySignatureDomain : string := "mnemon.peer-delivery-signature.v1".
Definition peerAdmissionReceiptDigestDomain : string := "mnemon.peer-admission-receipt.v1".
Definition peerAdmissionReceiptSignatureDomain : string :=
  "mnemon.peer-admission-receipt-signature.v1".

(** SHA-256 over the domain, a NUL and the value. *)
Definition domainSeparatedDigest (domain value : string) : Digest :=
  sha256 (domain +:+ String "000" value).

Definition signingMessage (domain : string) (digest : Digest) : string :=
  domain +:+ String "000" (Digest_String digest).

(** ** Delivery *)

Record PeerDeliverySpec := {
  ps_OriginEvent : EventRef;
  ps_OriginSequence : Z;
  ps_OriginAcceptedAt : Time;
  ps_OriginSource : AgentPrincipalID;
  ps_OriginConsequence : Consequence;
  ps_OriginTargetCount : Z;
  ps_OriginCausation : list EventRef;
  ps_OriginCorrelation : EventRef;
  ps_InReplyToDelivery : DeliveryID;
  ps_TargetAlias : OpaqueHandle;
  ps_Kind : SemanticLabel;
  ps_Payload : SemanticPayload;
  ps_Artifacts : list Digest;
  ps_CausalDepth : Z;
  ps_ExpiresAt : Time;
}.

Record PeerDelivery := {
  pd_id : DeliveryID;
  pd_originEvent : EventRef;
  pd_originSequence : Z;
  pd_originAcceptedAt : Time;
  pd_originSource : AgentPrincipalID;
  pd_originConsequence : Consequence;
  pd_originTargetCount : Z;
  pd_originCausation : list EventRef;
  pd_originCorrelation : EventRef;
  pd_inReplyToDelivery : DeliveryID;
  pd_targetAlias : OpaqueHandle;
  pd_kind : SemanticLabel;
  pd_payload : SemanticPayload;
  pd_artifacts : list Digest;
  pd_causalDepth : Z;
  pd_expiresAt : Time;
  pd_canonical : string;
  pd_envelopeDigest : Digest;
}.

Record peerDeliveryIDWire := {
  piw_SchemaVersion : Z;
  piw_OriginEvent : eventRefWire;
  piw_EnrolledRoute : string;
  piw_TargetAlias : string;
}.
#[export] Instance peerDeliveryIDWire_codec : Codec peerDeliveryIDWire := {
  enc w := struct [
    @field Z int_codec "schema_version" w.(piw_SchemaVersion);
    field "origin_event" w.(piw_OriginEvent); field "enrolled_route" w.(piw_EnrolledRoute);
    field "target_alias" w.(piw_TargetAlias)];
  dec_value j :=
    ms ← members_of
      ["schema_version"; "origin_event"; "enrolled_route"; "target_alias"] j;
    xSchemaVersion ← @get Z int_codec "schema_version" ms;
    xOriginEvent ← get "origin_event" ms; xEnrolledRoute ← get "enrolled_route" ms;
    xTargetAlias ← get "target_alias" ms;
    Ok {| piw_SchemaVersion := xSchemaVersion; piw_OriginEvent := xOriginEvent;
          piw_EnrolledRoute := xEnrolledRoute; piw_TargetAlias := xTargetAlias |};
  zero := {| piw_SchemaVersion := 0%Z; piw_OriginEvent := zero; piw_EnrolledRoute := zero;
    piw_TargetAlias := zero |};
  empty _ := false;
  enc_ok w := @enc_ok Z int_codec w.(piw_SchemaVersion) ∧ enc_ok w.(piw_OriginEvent) ∧
    enc_ok w.(piw_EnrolledRoute) ∧ enc_ok w.(piw_TargetAlias);
}.
#[export] Instance peerDeliveryIDWire_laws : CodecLaws peerDeliveryIDWire.
Proof. solve_struct. Qed.

Record peerDeliveryOriginWire := {
  pow_Event : eventRefWire;
  pow_Sequence : Z;
  pow_AcceptedAt : string;
  pow_Source : string;
  pow_Consequence : string;
  pow_TargetCount : Z;
  pow_Causation : list eventRefWire;
  pow_Correlation : option eventRefWire;
}.
#[export] Instance peerDeliveryOriginWire_codec : Codec peerDeliveryOriginWire := {
  enc w := struct [
    field "event" w.(pow_Event); @field Z uint64_codec "sequence" w.(pow_Sequence);
    field "accepted_at" w.(pow_AcceptedAt); field "source_principal" w.(pow_Source);
    field "consequence" w.(pow_Consequence);
    @field Z uint8_codec "target_count" w.(pow_TargetCount);
    omitempty "causation" w.(pow_Causation); omitnil "correlation" w.(pow_Correlation)];
  dec_value j :=
    ms ← members_of
      ["event"; "sequence"; "accepted_at"; "source_principal"; "consequence"; "target_count";
      "causation"; "correlation"] j;
    xEvent ← get "event" ms; xSequence ← @get Z uint64_codec "sequence" ms;
    xAcceptedAt ← get "accepted_at" ms; xSource ← get "source_principal" ms;
    xConsequence ← get "consequence" ms;
    xTargetCount ← @get Z uint8_codec "target_count" ms; xCausation ← get "causation" ms;
    xCorrelation ← get_ptr "correlation" ms;
    Ok {| pow_Event := xEvent; pow_Sequence := xSequence; pow_AcceptedAt := xAcceptedAt;
          pow_Source := xSource; pow_Consequence := xConsequence;
          pow_TargetCount := xTargetCount; pow_Causation := xCausation;
          pow_Correlation := xCorrelation |};
  zero := {| pow_Event := zero; pow_Sequence := 0%Z; pow_AcceptedAt := zero; pow_Source := zero;
    pow_Consequence := zero; pow_TargetCount := 0%Z; pow_Causation := zero;
    pow_Correlation := None |};
  empty _ := false;
  enc_ok w := enc_ok w.(pow_Event) ∧ @enc_ok Z uint64_codec w.(pow_Sequence) ∧
    enc_ok w.(pow_AcceptedAt) ∧ enc_ok w.(pow_Source) ∧ enc_ok w.(pow_Consequence) ∧
    @enc_ok Z uint8_codec w.(pow_TargetCount) ∧ enc_ok w.(pow_Causation) ∧
    ok_ptr w.(pow_Correlation);
}.
#[export] Instance peerDeliveryOriginWire_laws : CodecLaws peerDeliveryOriginWire.
Proof. solve_struct. Qed.

Record peerDeliveryWire := {
  pdw_SchemaVersion : Z;
  pdw_DeliveryID : string;
  pdw_Origin : peerDeliveryOriginWire;
  pdw_TargetAlias : string;
  pdw_Kind : string;
  pdw_Payload : string;
  pdw_Artifacts : list string;
  pdw_InReplyToDelivery : string;
  pdw_CausalDepth : Z;
  pdw_ExpiresAt : string;
}.
#[export] Instance peerDeliveryWire_codec : Codec peerDeliveryWire := {
  enc w := struct [
    @field Z int_codec "schema_version" w.(pdw_SchemaVersion);
    field "delivery_id" w.(pdw_DeliveryID); field "origin" w.(pdw_Origin);
    field "target_alias" w.(pdw_TargetAlias); field "kind" w.(pdw_Kind);
    field "payload" w.(pdw_Payload); omitempty "artifacts" w.(pdw_Artifacts);
    omitempty "in_reply_to_delivery_id" w.(pdw_InReplyToDelivery);
    @field Z uint16_codec "causal_depth" w.(pdw_CausalDepth);
    field "expires_at" w.(pdw_ExpiresAt)];
  dec_value j :=
    ms ← members_of
      ["schema_version"; "delivery_id"; "origin"; "target_alias"; "kind"; "payload";
      "artifacts"; "in_reply_to_delivery_id"; "causal_depth"; "expires_at"] j;
    xSchemaVersion ← @get Z int_codec "schema_version" ms;
    xDeliveryID ← get "delivery_id" ms; xOrigin ← get "origin" ms;
    xTargetAlias ← get "target_alias" ms; xKind ← get "kind" ms;
    xPayload ← get "payload" ms; xArtifacts ← get "artifacts" ms;
    xInReplyToDelivery ← get "in_reply_to_delivery_id" ms;
    xCausalDepth ← @get Z uint16_codec "causal_depth" ms; xExpiresAt ← get "expires_at" ms;
    Ok {| pdw_SchemaVersion := xSchemaVersion; pdw_DeliveryID := xDeliveryID;
          pdw_Origin := xOrigin; pdw_TargetAlias := xTargetAlias; pdw_Kind := xKind;
          pdw_Payload := xPayload; pdw_Artifacts := xArtifacts;
          pdw_InReplyToDelivery := xInReplyToDelivery; pdw_CausalDepth := xCausalDepth;
          pdw_ExpiresAt := xExpiresAt |};
  zero := {| pdw_SchemaVersion := 0%Z; pdw_DeliveryID := zero; pdw_Origin := zero;
    pdw_TargetAlias := zero; pdw_Kind := zero; pdw_Payload := zero; pdw_Artifacts := zero;
    pdw_InReplyToDelivery := zero; pdw_CausalDepth := 0%Z; pdw_ExpiresAt := zero |};
  empty _ := false;
  enc_ok w := @enc_ok Z int_codec w.(pdw_SchemaVersion) ∧ enc_ok w.(pdw_DeliveryID) ∧
    enc_ok w.(pdw_Origin) ∧ enc_ok w.(pdw_TargetAlias) ∧ enc_ok w.(pdw_Kind) ∧
    enc_ok w.(pdw_Payload) ∧ enc_ok w.(pdw_Artifacts) ∧ enc_ok w.(pdw_InReplyToDelivery) ∧
    @enc_ok Z uint16_codec w.(pdw_CausalDepth) ∧ enc_ok w.(pdw_ExpiresAt);
}.
#[export] Instance peerDeliveryWire_laws : CodecLaws peerDeliveryWire.
Proof. solve_struct. Qed.

(** [PeerDelivery.wire]. *)
Definition delivery_wire (delivery : PeerDelivery) : peerDeliveryWire :=
  {| pdw_SchemaVersion := 3; pdw_DeliveryID := DeliveryID_String delivery.(pd_id);
     pdw_Origin := {|
       pow_Event := EventRef_canonical delivery.(pd_originEvent);
       pow_Sequence := delivery.(pd_originSequence);
       pow_AcceptedAt := format_time delivery.(pd_originAcceptedAt);
       pow_Source := delivery.(pd_originSource);
       pow_Consequence := Consequence_String delivery.(pd_originConsequence);
       pow_TargetCount := delivery.(pd_originTargetCount);
       pow_Causation := map EventRef_canonical delivery.(pd_originCausation);
       pow_Correlation := optional_ref_wire delivery.(pd_originCorrelation) |};
     pdw_TargetAlias := delivery.(pd_targetAlias); pdw_Kind := delivery.(pd_kind);
     pdw_Payload := delivery.(pd_payload);
     pdw_Artifacts := map Digest_String delivery.(pd_artifacts);
     pdw_InReplyToDelivery := optional_delivery_wire delivery.(pd_inReplyToDelivery);
     pdw_CausalDepth := delivery.(pd_causalDepth);
     pdw_ExpiresAt := format_time delivery.(pd_expiresAt) |}.

Definition wireCanonical (delivery : PeerDelivery) : string :=
  canonical_bytes (delivery_wire delivery).

Definition validatePeerDeliveryRequiredShape (spec : PeerDeliverySpec) : result () :=
  _ ← fail_if (EventRef_IsZero spec.(ps_OriginEvent) || (spec.(ps_OriginSequence) =? 0) ||
               IsZero spec.(ps_OriginSource) || negb (agentDeclarable spec.(ps_OriginConsequence)) ||
               (spec.(ps_OriginTargetCount) =? 0) || (MaxSuccessors <? spec.(ps_OriginTargetCount)) ||
               IsZero spec.(ps_TargetAlias) || IsZero spec.(ps_Kind) ||
               (spec.(ps_CausalDepth) =? 0))
        (invalid "PeerDelivery"
          "complete origin effect, target, semantic kind, and positive depth are required");
  let soleTargetTerminal :=
    isTerminalConsequence spec.(ps_OriginConsequence) && (spec.(ps_OriginTargetCount) =? 1) in
  _ ← fail_if (soleTargetTerminal && (EventRef_IsZero spec.(ps_OriginCorrelation) ||
                                      DeliveryID_IsZero spec.(ps_InReplyToDelivery)))
        (invariant "PeerDelivery terminal reply"
          "single-target terminal origin requires correlation and in-reply-to Delivery");
  fail_if (negb soleTargetTerminal && negb (DeliveryID_IsZero spec.(ps_InReplyToDelivery)))
    (invariant "PeerDelivery terminal reply"
      "in-reply-to Delivery is forbidden outside a single-target terminal origin").

(** [eventRefLess] as a non-strict order: by ID, then by digest text. *)
Definition eventRef_le (l r : EventRef) : Prop :=
  if decide (l.(er_id) = r.(er_id))
  then String.le (Digest_String l.(er_digest)) (Digest_String r.(er_digest))
  else String.le l.(er_id) r.(er_id).
#[export] Instance eventRef_le_dec : RelDecision eventRef_le.
Proof. intros x y. unfold eventRef_le. destruct (decide _); apply _. Defined.

Definition sort_refs : list EventRef → list EventRef := merge_sort eventRef_le.

Definition normalizePeerCausation (origin : EventRef) (values : list EventRef)
    (correlation : EventRef) : result (list EventRef) :=
  _ ← fail_if (MaxCausationHandles <? lenZ values)
        (limit "PeerDelivery origin causation" (lenZ values) MaxCausationHandles);
  let sorted := sort_refs values in
  _ ← fail_if (existsb (λ event, EventRef_IsZero event || bool_decide (event = origin)) sorted ||
               has_adjacent_dup sorted)
        (invalid "PeerDelivery origin causation"
          "contains a zero, self, or duplicate Event reference");
  _ ← fail_if (negb (EventRef_IsZero correlation) && bool_decide (correlation = origin))
        (invalid "PeerDelivery origin correlation" "must not refer to the origin Event itself");
  Ok sorted.

Definition deriveDeliveryID (route : RouteID) (origin : EventRef) (target : OpaqueHandle)
    : result DeliveryID :=
  _ ← fail_if (IsZero route || EventRef_IsZero origin || IsZero target)
        (invalid "DeliveryID derivation" "route, origin Event, and target alias are required");
  let wire := {| piw_SchemaVersion := 1; piw_OriginEvent := EventRef_canonical origin;
                 piw_EnrolledRoute := route; piw_TargetAlias := target |} in
  '(canonical, _) ← canonicalJSON wire;
  Ok (domainSeparatedDigest peerDeliveryIDDomain canonical).

(** The value under construction, before and after it is sealed. *)
Definition delivery_of_spec (spec : PeerDeliverySpec) (id : DeliveryID)
    (causation : list EventRef) (artifacts : list Digest) (canonical : string) (envelope : Digest)
    : PeerDelivery :=
  {| pd_id := id; pd_originEvent := spec.(ps_OriginEvent);
     pd_originSequence := spec.(ps_OriginSequence);
     pd_originAcceptedAt := spec.(ps_OriginAcceptedAt); pd_originSource := spec.(ps_OriginSource);
     pd_originConsequence := spec.(ps_OriginConsequence);
     pd_originTargetCount := spec.(ps_OriginTargetCount); pd_originCausation := causation;
     pd_originCorrelation := spec.(ps_OriginCorrelation);
     pd_inReplyToDelivery := spec.(ps_InReplyToDelivery); pd_targetAlias := spec.(ps_TargetAlias);
     pd_kind := spec.(ps_Kind); pd_payload := spec.(ps_Payload); pd_artifacts := artifacts;
     pd_causalDepth := spec.(ps_CausalDepth); pd_expiresAt := spec.(ps_ExpiresAt);
     pd_canonical := canonical; pd_envelopeDigest := envelope |}.

(** [canonicalTime] returns its argument, so the canonical times are the
    specification's own. *)
Definition NewPeerDelivery (enrolledRoute : RouteID) (spec : PeerDeliverySpec)
    : result PeerDelivery :=
  _ ← fail_if (IsZero enrolledRoute)
        (invalid "PeerDelivery route context" "enrolled route is required");
  _ ← validatePeerDeliveryRequiredShape spec;
  _ ← fail_if (MaxPeerCausalDepth <? spec.(ps_CausalDepth))
        (limit "PeerDelivery causal depth" spec.(ps_CausalDepth) MaxPeerCausalDepth);
  originAcceptedAt ← canonicalTime "PeerDelivery origin accepted time" spec.(ps_OriginAcceptedAt);
  expiresAt ← canonicalTime "PeerDelivery expiry" spec.(ps_ExpiresAt);
  _ ← fail_if (negb (originAcceptedAt <? expiresAt))
        (invariant "PeerDelivery expiry" "must be after origin Event acceptance");
  _ ← fail_if (MaxPeerDeliveryTTL <? expiresAt - originAcceptedAt)
        (limit "PeerDelivery TTL" (expiresAt - originAcceptedAt) MaxPeerDeliveryTTL);
  causation ← normalizePeerCausation spec.(ps_OriginEvent) spec.(ps_OriginCausation)
                spec.(ps_OriginCorrelation);
  artifacts ← normalizePeerArtifacts spec.(ps_Artifacts);
  id ← deriveDeliveryID enrolledRoute spec.(ps_OriginEvent) spec.(ps_TargetAlias);
  '(canonical, _) ← canonicalJSON
    (delivery_wire (delivery_of_spec spec id causation artifacts "" zero_digest));
  _ ← fail_if (MaxPeerDeliveryCanonicalBytes <? slen canonical)
        (limit "PeerDelivery canonical bytes" (slen canonical) MaxPeerDeliveryCanonicalBytes);
  Ok (delivery_of_spec spec id causation artifacts canonical
        (domainSeparatedDigest peerDeliveryEnvelopeDomain canonical)).

Definition PeerDelivery_SigningMessage (delivery : PeerDelivery) : option string :=
  if Digest_IsZero delivery.(pd_envelopeDigest) then None
  else Some (signingMessage peerDeliverySignatureDomain delivery.(pd_envelopeDigest)).

Definition RequiresTerminalReplyMatch (delivery : PeerDelivery) : bool :=
  negb (DeliveryID_IsZero delivery.(pd_inReplyToDelivery)).

(** ** Strict parsing under an enrolled route *)

Definition parsePeerCanonicalTime (field value : string) : result Time :=
  parse_canonical_time field value.

Definition parsePeerEventRef (field : string) (wire : eventRefWire) : result EventRef :=
  wrap_error field (parseEventRef wire).
Definition parsePeerEventRefs (field : string) (wires : list eventRefWire)
    : result (list EventRef) := mapR (parsePeerEventRef field) wires.
Definition parsePeerOptionalEventRef (field : string) (wire : option eventRefWire)
    : result EventRef :=
  match wire with None => Ok zero_EventRef | Some wire => parsePeerEventRef field wire end.
Definition parsePeerDigests (values : list string) : result (list Digest) :=
  mapR ParseDigest values.

Definition peerDeliveryFromWire (wire : peerDeliveryWire) (enrolledRoute : RouteID)
    : result PeerDelivery :=
  let origin := wire.(pdw_Origin) in
  _ ← fail_if (negb (wire.(pdw_SchemaVersion) =? 3))
        (invalid "PeerDelivery schema version" "must be 3");
  encodedID ← ParseDeliveryID wire.(pdw_DeliveryID);
  originEvent ← parsePeerEventRef "PeerDelivery origin Event" origin.(pow_Event);
  originAcceptedAt ← parsePeerCanonicalTime "PeerDelivery origin accepted time"
    origin.(pow_AcceptedAt);
  originSource ← NewAgentPrincipalID origin.(pow_Source);
  originConsequence ← parseConsequence origin.(pow_Consequence);
  causation ← parsePeerEventRefs "PeerDelivery origin causation" origin.(pow_Causation);
  correlation ← parsePeerOptionalEventRef "PeerDelivery origin correlation"
    origin.(pow_Correlation);
  inReplyToDelivery ← parse_optional_delivery wire.(pdw_InReplyToDelivery);
  target ← NewOpaqueHandle wire.(pdw_TargetAlias);
  kind ← NewSemanticLabel wire.(pdw_Kind);
  payload ← NewSemanticPayload wire.(pdw_Payload);
  artifacts ← parsePeerDigests wire.(pdw_Artifacts);
  expiresAt ← parsePeerCanonicalTime "PeerDelivery expiry" wire.(pdw_ExpiresAt);
  delivery ← NewPeerDelivery enrolledRoute {|
    ps_OriginEvent := originEvent; ps_OriginSequence := origin.(pow_Sequence);
    ps_OriginAcceptedAt := originAcceptedAt; ps_OriginSource := originSource;
    ps_OriginConsequence := originConsequence; ps_OriginTargetCount := origin.(pow_TargetCount);
    ps_OriginCausation := causation; ps_OriginCorrelation := correlation;
    ps_InReplyToDelivery := inReplyToDelivery; ps_TargetAlias := target; ps_Kind := kind;
    ps_Payload := payload; ps_Artifacts := artifacts; ps_CausalDepth := wire.(pdw_CausalDepth);
    ps_ExpiresAt := expiresAt |};
  _ ← fail_if (negb (bool_decide (delivery.(pd_id) = encodedID)))
        (invariant "PeerDelivery ID" "does not match authenticated route and envelope identity");
  Ok delivery.

(** [ParsedPeerDelivery] wraps the delivery it was parsed into. *)
Record ParsedPeerDelivery := { pp_delivery : PeerDelivery }.

Definition ParsePeerDeliveryCanonicalJSON (data : string) (enrolledRoute : RouteID)
    : result ParsedPeerDelivery :=
  _ ← fail_if (IsZero enrolledRoute)
        (invalid "PeerDelivery route context" "enrolled route is required");
  wire ← decodeCanonicalObject "PeerDelivery JSON" data MaxPeerDeliveryCanonicalBytes;
  delivery ← peerDeliveryFromWire wire enrolledRoute;
  _ ← requireReconstructedCanonical "PeerDelivery JSON" data delivery.(pd_canonical);
  Ok {| pp_delivery := delivery |}.

(** The integrity test shared by [ParsedPeerDelivery.valid] and
    [peerEventInputs]. *)
Definition delivery_sealed (d : PeerDelivery) : bool :=
  negb (DeliveryID_IsZero d.(pd_id)) && negb (Digest_IsZero d.(pd_envelopeDigest)) &&
  negb (is_empty d.(pd_canonical)) && bool_decide (d.(pd_canonical) = wireCanonical d) &&
  bool_decide (d.(pd_envelopeDigest) =
               domainSeparatedDigest peerDeliveryEnvelopeDomain d.(pd_canonical)).

Definition ParsedPeerDelivery_valid (parsed : ParsedPeerDelivery) : bool :=
  delivery_sealed parsed.(pp_delivery).

(** ** Verified candidates *)

Record VerifiedPeerArtifact := {
  vpa_digest : Digest; vpa_byteSize : Z; vpa_verifiedAt : Time }.

Definition NewVerifiedPeerArtifact (digest : Digest) (byteSize : Z) (verifiedAt : Time)
    : result VerifiedPeerArtifact :=
  _ ← fail_if (Digest_IsZero digest || (byteSize <? 0) || (MaxPeerArtifactBytes <? byteSize))
        (invalid "verified peer Artifact" "nonzero digest and bounded byte size are required");
  canonicalVerifiedAt ← canonicalTime "verified peer Artifact time" verifiedAt;
  Ok {| vpa_digest := digest; vpa_byteSize := byteSize; vpa_verifiedAt := canonicalVerifiedAt |}.

Record VerifiedPeerDelivery := {
  vpd_delivery : PeerDelivery;
  vpd_source : AgentPrincipalID;
  vpd_target : AgentPrincipalID;
  vpd_artifacts : list VerifiedPeerArtifact;
}.

(** The scan of [requireCompletePeerArtifacts] over the sorted evidence;
    [previous] is the digest before the current one. *)
Fixpoint check_peer_artifacts (previous : option Digest) (sorted : list VerifiedPeerArtifact)
    (required : list Digest) : result () :=
  match sorted, required with
  | [], _ => Ok ()
  | artifact :: sorted, _ =>
      _ ← fail_if (Digest_IsZero artifact.(vpa_digest) || (artifact.(vpa_byteSize) <? 0) ||
                   (MaxPeerArtifactBytes <? artifact.(vpa_byteSize)) ||
                   (artifact.(vpa_verifiedAt) =? zero_time))
            (invalid "VerifiedPeerDelivery Artifacts" "contains incomplete verification metadata");
      _ ← fail_if (bool_decide (previous = Some artifact.(vpa_digest)))
            (invalid "VerifiedPeerDelivery Artifacts" "contains a duplicate digest");
      _ ← fail_if (negb (bool_decide (head required = Some artifact.(vpa_digest))))
            (invariant "VerifiedPeerDelivery Artifacts"
              "verified set must exactly match delivery refs");
      check_peer_artifacts (Some artifact.(vpa_digest)) sorted (tail required)
  end.

Definition requireCompletePeerArtifacts (required : list Digest)
    (artifacts : list VerifiedPeerArtifact) : result (list VerifiedPeerArtifact) :=
  _ ← fail_if (negb (lenZ artifacts =? lenZ required))
        (invariant "VerifiedPeerDelivery Artifacts" "verified set must exactly match delivery refs");
  let sorted := sort_by (λ a, Digest_String a.(vpa_digest)) artifacts in
  _ ← check_peer_artifacts None sorted required;
  Ok sorted.

Definition NewVerifiedPeerDelivery (parsed : ParsedPeerDelivery)
    (localSource localTarget : AgentPrincipalID) (artifacts : list VerifiedPeerArtifact)
    : result VerifiedPeerDelivery :=
  let delivery := parsed.(pp_delivery) in
  _ ← fail_if (negb (ParsedPeerDelivery_valid parsed) || IsZero localSource || IsZero localTarget)
        (invalid "VerifiedPeerDelivery"
          "parsed delivery and machine-resolved local source and target are required");
  verified ← requireCompletePeerArtifacts delivery.(pd_artifacts) artifacts;
  _ ← fail_if (RequiresTerminalReplyMatch delivery &&
               bool_decide (delivery.(pd_originConsequence) = ConsequenceResolveCompleted) &&
               (lenZ verified =? 0))
        (invariant "VerifiedPeerDelivery completed reply" "requires a verified Artifact");
  Ok {| vpd_delivery := delivery; vpd_source := localSource; vpd_target := localTarget;
        vpd_artifacts := verified |}.

(** ** The local Event of an admitted delivery *)

Definition peerEventInputs (verified : VerifiedPeerDelivery)
    : result (PeerDelivery * list Digest) :=
  let delivery := verified.(vpd_delivery) in
  _ ← fail_if (IsZero verified.(vpd_source) || IsZero verified.(vpd_target) ||
               negb (delivery_sealed delivery))
        (invalid "peer Event" "complete verified Delivery authority is required");
  verifiedArtifacts ← requireCompletePeerArtifacts delivery.(pd_artifacts) verified.(vpd_artifacts);
  Ok (delivery, map vpa_digest verifiedArtifacts).

Definition exact_peer_target (delivery : PeerDelivery) (localTarget : AgentPrincipalID)
    (target : ResolvedTarget) : bool :=
  bool_decide (target.(rt_destination) = TargetDestinationLocal) &&
  bool_decide (target.(rt_localPrincipal) = localTarget) &&
  negb target.(rt_requested).(tr_self) &&
  bool_decide (target.(rt_requested).(tr_alias) = delivery.(pd_targetAlias)) &&
  IsZero target.(rt_remoteRoute) && IsZero target.(rt_remoteAlias).

Definition validateDecidedPeerEffect (delivery : PeerDelivery) (localTarget : AgentPrincipalID)
    (consequence : Consequence) (targets : list ResolvedTarget) : result () :=
  _ ← match consequence with
      | ConsequenceCreateHandlings | ConsequenceObserveCompleted
      | ConsequenceObserveDeclined | ConsequenceObserveUnresolved => Ok ()
      | _ => Err (invalid "peer Event consequence" "must be a closed inbound effect")
      end;
  _ ← fail_if (1 <? lenZ targets) (limit "peer Event targets" (lenZ targets) 1);
  fail_if (negb (forallb (exact_peer_target delivery localTarget) targets))
    (invariant "peer Event target" "must be the exact receiver-resolved local target").

Definition NewPeerEvent (verified : VerifiedPeerDelivery) (stamp : EventStamp)
    (consequence : Consequence) (targets : list ResolvedTarget) : result Event :=
  '(delivery, artifacts) ← peerEventInputs verified;
  _ ← fail_if (IsZero stamp.(es_ID) || (stamp.(es_OriginSequence) =? 0))
        (invalid "peer Event" "machine Event ID and positive local origin sequence are required");
  _ ← fail_if (negb (stamp.(es_CausalDepth) =? delivery.(pd_causalDepth)))
        (invariant "peer Event causal depth" "must equal the verified Delivery depth");
  acceptedAt ← canonicalTime "peer Event accepted time" stamp.(es_AcceptedAt);
  operationKey ← NewOperationKey (DeliveryID_String delivery.(pd_id));
  _ ← validateDecidedPeerEffect delivery verified.(vpd_target) consequence targets;
  let event := {|
    ev_id := stamp.(es_ID); ev_acceptedAt := acceptedAt;
    ev_originSequence := stamp.(es_OriginSequence); ev_causalDepth := delivery.(pd_causalDepth);
    ev_source := verified.(vpd_source); ev_operationKey := operationKey;
    ev_requestDigest := delivery.(pd_envelopeDigest); ev_kind := delivery.(pd_kind);
    ev_payload := delivery.(pd_payload); ev_consequence := consequence; ev_subject := None;
    ev_expectedRef := None; ev_targets := targets; ev_artifacts := artifacts;
    ev_causation := [delivery.(pd_originEvent)];
    ev_correlation := delivery.(pd_originCorrelation);
    ev_inReplyToDelivery := delivery.(pd_inReplyToDelivery);
    ev_canonical := ""; ev_digest := zero_digest |} in
  _ ← validateParsedEventShape event;
  sealEvent event.

(** ** Remote admission Receipts *)

Inductive PeerAdmissionOutcome :=
| PeerAdmissionOutcomeInvalid | PeerAdmissionOutcomeAccepted | PeerAdmissionOutcomeRejected.
#[export] Instance PeerAdmissionOutcome_eq_dec : EqDecision PeerAdmissionOutcome.
Proof. solve_decision. Defined.

Definition PeerAdmissionOutcome_String (outcome : PeerAdmissionOutcome) : string :=
  match outcome with
  | PeerAdmissionOutcomeAccepted => "accepted"
  | PeerAdmissionOutcomeRejected => "rejected"
  | PeerAdmissionOutcomeInvalid => ""
  end.

Record PeerAdmissionReceipt := {
  par_deliveryID : DeliveryID;
  par_envelopeDigest : Digest;
  par_outcome : PeerAdmissionOutcome;
  par_recordedAt : Time;
  par_localEvent : EventRef;
  par_code : SemanticLabel;
  par_diagnostic : string;
  par_canonical : string;
  par_digest : Digest;
}.

Record peerAdmissionReceiptWire := {
  paw_SchemaVersion : Z;
  paw_DeliveryID : string;
  paw_EnvelopeDigest : string;
  paw_Outcome : string;
  paw_RecordedAt : string;
  paw_LocalEvent : option eventRefWire;
  paw_Code : string;
  paw_Diagnostic : string;
}.
#[export] Instance peerAdmissionReceiptWire_codec : Codec peerAdmissionReceiptWire := {
  enc w := struct [
    @field Z int_codec "schema_version" w.(paw_SchemaVersion);
    field "delivery_id" w.(paw_DeliveryID); field "envelope_digest" w.(paw_EnvelopeDigest);
    field "outcome" w.(paw_Outcome); field "recorded_at" w.(paw_RecordedAt);
    omitnil "local_event" w.(paw_LocalEvent); omitempty "code" w.(paw_Code);
    omitempty "diagnostic" w.(paw_Diagnostic)];
  dec_value j :=
    ms ← members_of
      ["schema_version"; "delivery_id"; "envelope_digest"; "outcome"; "recorded_at";
      "local_event"; "code"; "diagnostic"] j;
    xSchemaVersion ← @get Z int_codec "schema_version" ms;
    xDeliveryID ← get "delivery_id" ms; xEnvelopeDigest ← get "envelope_digest" ms;
    xOutcome ← get "outcome" ms; xRecordedAt ← get "recorded_at" ms;
    xLocalEvent ← get_ptr "local_event" ms; xCode ← get "code" ms;
    xDiagnostic ← get "diagnostic" ms;
    Ok {| paw_SchemaVersion := xSchemaVersion; paw_DeliveryID := xDeliveryID;
          paw_EnvelopeDigest := xEnvelopeDigest; paw_Outcome := xOutcome;
          paw_RecordedAt := xRecordedAt; paw_LocalEvent := xLocalEvent; paw_Code := xCode;
          paw_Diagnostic := xDiagnostic |};
  zero := {| paw_SchemaVersion := 0%Z; paw_DeliveryID := zero; paw_EnvelopeDigest := zero;
    paw_Outcome := zero; paw_RecordedAt := zero; paw_LocalEvent := None; paw_Code := zero;
    paw_Diagnostic := zero |};
  empty _ := false;
  enc_ok w := @enc_ok Z int_codec w.(paw_SchemaVersion) ∧ enc_ok w.(paw_DeliveryID) ∧
    enc_ok w.(paw_EnvelopeDigest) ∧ enc_ok w.(paw_Outcome) ∧ enc_ok w.(paw_RecordedAt) ∧
    ok_ptr w.(paw_LocalEvent) ∧ enc_ok w.(paw_Code) ∧ enc_ok w.(paw_Diagnostic);
}.
#[export] Instance peerAdmissionReceiptWire_laws : CodecLaws peerAdmissionReceiptWire.
Proof. solve_struct. Qed.

(** [PeerAdmissionReceipt.wire]. *)
Definition admission_receipt_wire (receipt : PeerAdmissionReceipt) : peerAdmissionReceiptWire :=
  {| paw_SchemaVersion := 1; paw_DeliveryID := DeliveryID_String receipt.(par_deliveryID);
     paw_EnvelopeDigest := Digest_String receipt.(par_envelopeDigest);
     paw_Outcome := PeerAdmissionOutcome_String receipt.(par_outcome);
     paw_RecordedAt := format_time receipt.(par_recordedAt);
     paw_LocalEvent := optional_ref_wire receipt.(par_localEvent);
     paw_Code := receipt.(par_code); paw_Diagnostic := receipt.(par_diagnostic) |}.

Definition admission_receipt_of (id : DeliveryID) (envelope : Digest)
    (outcome : PeerAdmissionOutcome) (recordedAt : Time) (localEvent : EventRef)
    (code : SemanticLabel) (diagnostic canonical : string) (digest : Digest)
    : PeerAdmissionReceipt :=
  {| par_deliveryID := id; par_envelopeDigest := envelope; par_outcome := outcome;
     par_recordedAt := recordedAt; par_localEvent := localEvent; par_code := code;
     par_diagnostic := diagnostic; par_canonical := canonical; par_digest := digest |}.

Definition validatePeerDiagnostic (diagnostic : string) : result () :=
  _ ← fail_if (MaxDiagnosticBytes <? slen diagnostic)
        (limit "peer admission Receipt diagnostic" (slen diagnostic) MaxDiagnosticBytes);
  _ ← or_error (NewSemanticPayload diagnostic)
        (invalid "peer admission Receipt diagnostic" "must be valid UTF-8 without NUL");
  Ok ().

Definition delivery_complete (delivery : PeerDelivery) : bool :=
  negb (DeliveryID_IsZero delivery.(pd_id)) && negb (Digest_IsZero delivery.(pd_envelopeDigest)) &&
  negb (is_empty delivery.(pd_canonical)).

Definition newPeerAdmissionReceipt (delivery : PeerDelivery) (outcome : PeerAdmissionOutcome)
    (localEvent : EventRef) (code : SemanticLabel) (diagnostic : string) (recordedAt : Time)
    : result PeerAdmissionReceipt :=
  _ ← fail_if (negb (delivery_complete delivery))
        (invalid "peer admission Receipt" "complete delivery is required");
  recorded ← canonicalTime "peer admission Receipt recorded time" recordedAt;
  let receipt := admission_receipt_of delivery.(pd_id) delivery.(pd_envelopeDigest) outcome
    recorded localEvent code diagnostic in
  '(canonical, _) ← canonicalJSON (admission_receipt_wire (receipt "" zero_digest));
  _ ← fail_if (MaxPeerAdmissionReceiptCanonicalBytes <? slen canonical)
        (limit "peer admission Receipt canonical bytes" (slen canonical)
          MaxPeerAdmissionReceiptCanonicalBytes);
  Ok (receipt canonical (domainSeparatedDigest peerAdmissionReceiptDigestDomain canonical)).

Definition NewAcceptedPeerAdmissionReceipt (delivery : PeerDelivery) (localEvent : EventRef)
    (recordedAt : Time) : result PeerAdmissionReceipt :=
  _ ← fail_if (EventRef_IsZero localEvent)
        (invalid "accepted peer admission Receipt" "local Event is required");
  _ ← fail_if (bool_decide (localEvent = delivery.(pd_originEvent)))
        (invariant "accepted peer admission Receipt" "must name a new local Event");
  newPeerAdmissionReceipt delivery PeerAdmissionOutcomeAccepted localEvent "" "" recordedAt.

Definition NewRejectedPeerAdmissionReceipt (delivery : PeerDelivery) (code : SemanticLabel)
    (diagnostic : string) (recordedAt : Time) : result PeerAdmissionReceipt :=
  _ ← fail_if (IsZero code)
        (invalid "rejected peer admission Receipt" "diagnostic code is required");
  _ ← validatePeerDiagnostic diagnostic;
  newPeerAdmissionReceipt delivery PeerAdmissionOutcomeRejected zero_EventRef code diagnostic
    recordedAt.

Definition PeerAdmissionReceipt_SigningMessage (receipt : PeerAdmissionReceipt) : option string :=
  if Digest_IsZero receipt.(par_digest) then None
  else Some (signingMessage peerAdmissionReceiptSignatureDomain receipt.(par_digest)).

Definition peerAdmissionReceiptFromWire (wire : peerAdmissionReceiptWire)
    : result PeerAdmissionReceipt :=
  _ ← fail_if (negb (wire.(paw_SchemaVersion) =? 1))
        (invalid "peer admission Receipt schema version" "must be 1");
  deliveryID ← ParseDeliveryID wire.(paw_DeliveryID);
  envelopeDigest ← ParseDigest wire.(paw_EnvelopeDigest);
  recordedAt ← parsePeerCanonicalTime "peer admission Receipt recorded time" wire.(paw_RecordedAt);
  receipt ←
    (if String.eqb wire.(paw_Outcome) "accepted" then
       let shape := invalid "accepted peer admission Receipt"
         "requires one local Event and no rejection fields" in
       event ← of_option wire.(paw_LocalEvent) shape;
       _ ← fail_if (negb (is_empty wire.(paw_Code)) || negb (is_empty wire.(paw_Diagnostic))) shape;
       event ← parsePeerEventRef "peer admission Receipt local Event" event;
       Ok (admission_receipt_of deliveryID envelopeDigest PeerAdmissionOutcomeAccepted recordedAt
             event "" wire.(paw_Diagnostic))
     else if String.eqb wire.(paw_Outcome) "rejected" then
       _ ← fail_if (is_some wire.(paw_LocalEvent) || is_empty wire.(paw_Code))
             (invalid "rejected peer admission Receipt" "requires a code and no local Event");
       code ← NewSemanticLabel wire.(paw_Code);
       _ ← validatePeerDiagnostic wire.(paw_Diagnostic);
       Ok (admission_receipt_of deliveryID envelopeDigest PeerAdmissionOutcomeRejected recordedAt
             zero_EventRef code wire.(paw_Diagnostic))
     else Err (invalid "peer admission Receipt outcome" "must be accepted or rejected"));
  '(canonical, _) ← canonicalJSON (admission_receipt_wire (receipt "" zero_digest));
  Ok (receipt canonical (domainSeparatedDigest peerAdmissionReceiptDigestDomain canonical)).

Definition requirePeerAdmissionReceiptBinding (receipt : PeerAdmissionReceipt)
    (delivery : PeerDelivery) : result () :=
  _ ← fail_if (negb (bool_decide (receipt.(par_deliveryID) = delivery.(pd_id))) ||
               negb (bool_decide (receipt.(par_envelopeDigest) = delivery.(pd_envelopeDigest))))
        (invariant "peer admission Receipt binding" "delivery ID or envelope digest differs");
  fail_if (bool_decide (receipt.(par_outcome) = PeerAdmissionOutcomeAccepted) &&
           bool_decide (receipt.(par_localEvent) = delivery.(pd_originEvent)))
    (invariant "peer admission Receipt binding" "accepted outcome must name a new local Event").

Definition ParsePeerAdmissionReceiptCanonicalJSON (data : string) (delivery : PeerDelivery)
    : result PeerAdmissionReceipt :=
  _ ← fail_if (negb (delivery_complete delivery))
        (invalid "peer admission Receipt binding" "complete delivery is required");
  wire ← decodeCanonicalObject "peer admission Receipt JSON" data
           MaxPeerAdmissionReceiptCanonicalBytes;
  receipt ← peerAdmissionReceiptFromWire wire;
  _ ← requireReconstructedCanonical "peer admission Receipt JSON" data receipt.(par_canonical);
  _ ← requirePeerAdmissionReceiptBinding receipt delivery;
  Ok receipt.

(** ** Laws *)

#[export] Instance eventRef_le_total : Total eventRef_le.
Proof.
  intros x y. unfold eventRef_le.
  destruct (decide (er_id x = er_id y)) as [E|E], (decide (er_id y = er_id x)) as [E'|E'];
    try congruence; apply (total String.le).
Qed.

#[export] Instance eventRef_le_trans : Transitive eventRef_le.
Proof.
  intros x y z. unfold eventRef_le.
  destruct (decide (er_id x = er_id y)) as [E1|E1], (decide (er_id y = er_id z)) as [E2|E2],
    (decide (er_id x = er_id z)) as [E3|E3]; try congruence.
  - apply (transitivity (R:=String.le)).
  - intros Hxy Hyz. exfalso. apply E1, (anti_symm String.le); [done|]. by rewrite E3.
  - apply (transitivity (R:=String.le)).
Qed.

#[export] Instance eventRef_le_antisym : AntiSymm (=) eventRef_le.
Proof.
  intros [i d] [i' d']. unfold eventRef_le; cbn.
  destruct (decide (i = i')) as [->|E], (decide (_ = _)) as [E'|E']; try congruence.
  - intros H1 H2. f_equal. apply Digest_String_inj. by apply (anti_symm String.le).
  - intros H1 H2. exfalso. apply E. by apply (anti_symm String.le).
Qed.

Lemma sort_refs_perm refs : sort_refs refs ≡ₚ refs.
Proof. apply merge_sort_Permutation. Qed.

Lemma sort_refs_idem refs : sort_refs (sort_refs refs) = sort_refs refs.
Proof.
  apply (StronglySorted_unique eventRef_le); [apply StronglySorted_merge_sort; apply _..|].
  apply sort_refs_perm.
Qed.

Lemma sort_refs_dup refs : has_adjacent_dup (sort_refs refs) = false ↔ NoDup refs.
Proof.
  rewrite (has_adjacent_dup_NoDup eventRef_le) by (apply StronglySorted_merge_sort; apply _).
  by rewrite sort_refs_perm.
Qed.

Lemma normalizePeerCausation_idem origin values correlation sorted :
  normalizePeerCausation origin values correlation = Ok sorted →
  sorted = sort_refs values ∧ normalizePeerCausation origin sorted correlation = Ok sorted.
Proof.
  unfold normalizePeerCausation. intros H.
  apply bind_Ok in H as ([] & H1 & H). apply bind_Ok in H as ([] & H2 & H).
  apply bind_Ok in H as ([] & H3 & H). injection H as <-. split; [done|].
  assert (Hl : lenZ (sort_refs values) = lenZ values)
    by (unfold lenZ; by rewrite sort_refs_perm).
  rewrite Hl, sort_refs_idem. rewrite fail_if_Ok in H1. rewrite H1. cbn [fail_if mbind result_bind].
  rewrite H2. cbn [mbind result_bind]. by rewrite H3.
Qed.

Lemma normalizePeerArtifacts_idem values sorted :
  normalizePeerArtifacts values = Ok sorted → normalizePeerArtifacts sorted = Ok sorted.
Proof.
  rewrite !normalizePeerArtifacts_Ok. intros (-> & Hl & Hz & Hd).
  rewrite (sort_digests_id (sort_by Digest_String values)) by apply sort_by_sorted.
  unfold lenZ in *. split_and!; [done|by rewrite sort_by_perm..].
Qed.

(** A specification whose parts came out of their own constructors. *)
Record delivery_spec_ok (spec : PeerDeliverySpec) : Prop := {
  dso_origin : ref_ok spec.(ps_OriginEvent);
  dso_sequence : 0 <= spec.(ps_OriginSequence) <= max_uint64;
  dso_source : handle_ok spec.(ps_OriginSource) = true;
  dso_count : 0 <= spec.(ps_OriginTargetCount) <= max_uint8;
  dso_causation : Forall ref_ok spec.(ps_OriginCausation);
  dso_correlation : opt_ref_ok spec.(ps_OriginCorrelation);
  dso_reply : opt_delivery_ok spec.(ps_InReplyToDelivery);
  dso_alias : handle_ok spec.(ps_TargetAlias) = true;
  dso_kind : label_ok spec.(ps_Kind) = true;
  dso_payload : payload_ok spec.(ps_Payload) = true;
  dso_artifacts : Forall digest_ok spec.(ps_Artifacts);
  dso_depth : 0 <= spec.(ps_CausalDepth) <= max_uint16;
}.

(** The specification a delivery itself carries. *)
Definition spec_of_delivery (d : PeerDelivery) : PeerDeliverySpec :=
  {| ps_OriginEvent := d.(pd_originEvent); ps_OriginSequence := d.(pd_originSequence);
     ps_OriginAcceptedAt := d.(pd_originAcceptedAt); ps_OriginSource := d.(pd_originSource);
     ps_OriginConsequence := d.(pd_originConsequence);
     ps_OriginTargetCount := d.(pd_originTargetCount);
     ps_OriginCausation := d.(pd_originCausation);
     ps_OriginCorrelation := d.(pd_originCorrelation);
     ps_InReplyToDelivery := d.(pd_inReplyToDelivery); ps_TargetAlias := d.(pd_targetAlias);
     ps_Kind := d.(pd_kind); ps_Payload := d.(pd_payload); ps_Artifacts := d.(pd_artifacts);
     ps_CausalDepth := d.(pd_causalDepth); ps_ExpiresAt := d.(pd_expiresAt) |}.

(** What every constructed delivery satisfies under its route. *)
Record delivery_ok (route : RouteID) (d : PeerDelivery) : Prop := {
  dok_spec : delivery_spec_ok (spec_of_delivery d);
  dok_rebuild : NewPeerDelivery route (spec_of_delivery d) = Ok d;
  dok_id : deriveDeliveryID route d.(pd_originEvent) d.(pd_targetAlias) = Ok d.(pd_id);
  dok_accepted : time_ok d.(pd_originAcceptedAt);
  dok_expires : time_ok d.(pd_expiresAt);
  dok_ttl : d.(pd_originAcceptedAt) < d.(pd_expiresAt) <= d.(pd_originAcceptedAt) + MaxPeerDeliveryTTL;
  dok_declarable : agentDeclarable d.(pd_originConsequence) = true;
  dok_depth : 0 < d.(pd_causalDepth) <= MaxPeerCausalDepth;
  dok_canonical : d.(pd_canonical) = wireCanonical d;
  dok_envelope : d.(pd_envelopeDigest) =
    domainSeparatedDigest peerDeliveryEnvelopeDomain d.(pd_canonical);
  dok_size : slen d.(pd_canonical) <= MaxPeerDeliveryCanonicalBytes;
}.

(** Projections of a delivery built from a specification, and back. *)
Ltac simpl_delivery :=
  cbn [spec_of_delivery delivery_of_spec pd_id pd_originEvent pd_originSequence
    pd_originAcceptedAt pd_originSource pd_originConsequence pd_originTargetCount
    pd_originCausation pd_originCorrelation pd_inReplyToDelivery pd_targetAlias pd_kind pd_payload
    pd_artifacts pd_causalDepth pd_expiresAt pd_canonical pd_envelopeDigest ps_OriginEvent
    ps_OriginSequence ps_OriginAcceptedAt ps_OriginSource ps_OriginConsequence
    ps_OriginTargetCount ps_OriginCausation ps_OriginCorrelation ps_InReplyToDelivery
    ps_TargetAlias ps_Kind ps_Payload ps_Artifacts ps_CausalDepth ps_ExpiresAt] in *.

Lemma NewPeerDelivery_Ok route spec d :
  delivery_spec_ok spec → NewPeerDelivery route spec = Ok d → delivery_ok route d.
Proof.
  intros Hspec H. unfold NewPeerDelivery in H.
  apply bind_Ok in H as ([] & H1 & H). apply bind_Ok in H as ([] & H2 & H).
  apply bind_Ok in H as ([] & H3 & H).
  apply bind_Ok in H as (t1 & Ht1 & H). apply bind_Ok in H as (t2 & Ht2 & H).
  apply bind_Ok in H as ([] & H4 & H). apply bind_Ok in H as ([] & H5 & H).
  apply bind_Ok in H as (causation & Hc & H). apply bind_Ok in H as (artifacts & Ha & H).
  apply bind_Ok in H as (id & Hid & H). unfold canonicalJSON in H. cbn [mbind result_bind] in H.
  apply bind_Ok in H as ([] & H6 & H). injection H as <-.
  destruct (normalizePeerCausation_idem _ _ _ _ Hc) as [Ec Hc'].
  pose proof (normalizePeerArtifacts_idem _ _ Ha) as Ha'.
  apply normalizePeerArtifacts_Ok in Ha as (Ea & _ & _ & _).
  pose proof Ht1 as (-> & Hz1 & Hr1)%canonicalTime_Ok.
  pose proof Ht2 as (-> & Hz2 & Hr2)%canonicalTime_Ok.
  destruct Hspec. unfold validatePeerDeliveryRequiredShape in H2.
  apply bind_Ok in H2 as ([] & Hshape & H2'). apply fail_if_Ok in Hshape.
  assert (H2 : validatePeerDeliveryRequiredShape spec = Ok ()).
  { unfold validatePeerDeliveryRequiredShape. rewrite Hshape. exact H2'. }
  split; simpl_delivery.
  - split; simpl_delivery; try done; subst; [by rewrite sort_refs_perm|by rewrite sort_by_perm].
  - unfold NewPeerDelivery.
    do 7 (apply bind_Ok; eexists; split; [eassumption|]).
    apply bind_Ok; eexists; split; [exact Hc'|]. apply bind_Ok; eexists; split; [exact Ha'|].
    apply bind_Ok; eexists; split; [exact Hid|].
    unfold canonicalJSON. cbn [mbind result_bind]. apply bind_Ok. exists (). split; [exact H6|done].
  - done.
  - done.
  - done.
  - apply fail_if_Ok, negb_false_iff, Z.ltb_lt in H4. apply fail_if_Ok, Z.ltb_ge in H5. lia.
  - inv_res. done.
  - inv_res. apply Z.ltb_ge in H3.
    match goal with H : (ps_CausalDepth _ =? 0) = false |- _ => apply Z.eqb_neq in H end. lia.
  - done.
  - done.
  - by apply fail_if_Ok, Z.ltb_ge in H6.
Qed.

Lemma delivery_wire_ok route d : delivery_ok route d → enc_ok (delivery_wire d).
Proof.
  intros H. destruct (dok_spec _ _ H). simpl_delivery. split; [done|].
  split; [apply DeliveryID_String_utf8|]. split; [|].
  - split; [by apply ref_wire_ok|]. split; [cbn; lia|].
    split; [by apply format_time_utf8, (dok_accepted _ _ H)|].
    split; [by eapply token_ok_utf8|]. split; [apply Consequence_String_utf8|].
    split; [cbn; lia|]. split; [|by apply optional_ref_wire_ok].
    apply Forall_map. eapply Forall_impl; [done|]. apply ref_wire_ok.
  - do 3 (split; [by eauto with wire_ok|]).
    split; [apply Forall_map, Forall_true; eauto with wire_ok|].
    split; [by eauto with wire_ok|]. split; [cbn; lia|].
    by apply format_time_utf8, (dok_expires _ _ H).
Qed.

Lemma mapR_parsePeerEventRef field refs :
  Forall ref_ok refs → parsePeerEventRefs field (map EventRef_canonical refs) = Ok refs.
Proof.
  intros Hr. unfold parsePeerEventRefs. apply mapR_inverse. eapply Forall_impl; [done|].
  intros r Hok. unfold parsePeerEventRef. by rewrite parseEventRef_canonical.
Qed.

Lemma parsePeerDigests_wire ds : Forall digest_ok ds → parsePeerDigests (map Digest_String ds) = Ok ds.
Proof.
  intros H. unfold parsePeerDigests. apply mapR_inverse. eapply Forall_impl; [done|].
  intros d [Hw Hz]. by apply ParseDigest_String.
Qed.

Lemma domainSeparatedDigest_wf domain v : digest_wf (domainSeparatedDigest domain v).
Proof. apply sha256_length. Qed.

Lemma peerDeliveryFromWire_wire route d :
  delivery_ok route d → Digest_IsZero d.(pd_id) = false →
  peerDeliveryFromWire (delivery_wire d) route = Ok d.
Proof.
  intros H Hnz. destruct (dok_spec _ _ H). simpl_delivery.
  assert (Hid : digest_ok (pd_id d)).
  { split; [|done]. pose proof (dok_id _ _ H) as Hd. unfold deriveDeliveryID, canonicalJSON in Hd.
    inv_res. match goal with H : _ = pd_id d |- _ => rewrite <- H end. apply domainSeparatedDigest_wf. }
  unfold peerDeliveryFromWire, NewAgentPrincipalID, parsePeerCanonicalTime.
  cbn [delivery_wire pdw_SchemaVersion pdw_DeliveryID pdw_Origin pdw_TargetAlias pdw_Kind
    pdw_Payload pdw_Artifacts pdw_InReplyToDelivery pdw_CausalDepth pdw_ExpiresAt pow_Event
    pow_Sequence pow_AcceptedAt pow_Source pow_Consequence pow_TargetCount pow_Causation
    pow_Correlation].
  cbn [Z.eqb Pos.eqb negb fail_if mbind result_bind].
  step (ParseDeliveryID_String _ Hid).
  unfold parsePeerEventRef at 1. rewrite (parseEventRef_canonical _ dso_origin0).
  cbn [wrap_error mbind result_bind].
  step (parse_canonical_time_format "PeerDelivery origin accepted time" _ (dok_accepted _ _ H)).
  step (proj2 (newIdentifier_Ok "AgentPrincipalID" _ _) (conj eq_refl dso_source0)).
  step (parseConsequence_String _ (agentDeclarable_Valid _ (dok_declarable _ _ H))).
  step (mapR_parsePeerEventRef "PeerDelivery origin causation" _ dso_causation0).
  change (parsePeerOptionalEventRef ?f ?w) with (parseOptionalEventRef f w).
  step (parseOptionalEventRef_wire "PeerDelivery origin correlation" _ dso_correlation0).
  step (parse_optional_delivery_wire _ dso_reply0).
  step (proj2 (NewOpaqueHandle_Ok _ _) (conj eq_refl dso_alias0)).
  step (proj2 (NewSemanticLabel_Ok _ _) (conj eq_refl dso_kind0)).
  step (proj2 (NewSemanticPayload_Ok _ _) (conj eq_refl dso_payload0)).
  step (parsePeerDigests_wire _ dso_artifacts0).
  step (parse_canonical_time_format "PeerDelivery expiry" _ (dok_expires _ _ H)).
  change (NewPeerDelivery route _) with (NewPeerDelivery route (spec_of_delivery d)).
  step (dok_rebuild _ _ H). by rewrite bool_decide_eq_true_2.
Qed.

Lemma ParsePeerDeliveryCanonicalJSON_canonical route d :
  delivery_ok route d → Digest_IsZero d.(pd_id) = false →
  ParsePeerDeliveryCanonicalJSON d.(pd_canonical) route = Ok {| pp_delivery := d |}.
Proof.
  intros H Hnz. unfold ParsePeerDeliveryCanonicalJSON.
  assert (Hr : IsZero route = false).
  { pose proof (dok_id _ _ H) as Hd. unfold deriveDeliveryID in Hd. inv_res. done. }
  rewrite Hr. cbn [fail_if mbind result_bind].
  pose proof (dok_canonical _ _ H) as Hc. pose proof (dok_size _ _ H) as Hs.
  unfold wireCanonical in Hc. rewrite Hc in Hs |- *.
  rewrite decodeCanonicalObject_canonical; [|by eapply delivery_wire_ok|done].
  cbn [mbind result_bind]. step (peerDeliveryFromWire_wire route d H Hnz).
  by rewrite (proj2 (requireReconstructedCanonical_Ok "PeerDelivery JSON" _ _ ()) (eq_sym Hc)).
Qed.

(** Acceptance under a route proves the delivery was derived for that route. *)
Lemma ParsePeerDeliveryCanonicalJSON_Ok data route p :
  ParsePeerDeliveryCanonicalJSON data route = Ok p →
  p.(pp_delivery).(pd_canonical) = data ∧
  deriveDeliveryID route p.(pp_delivery).(pd_originEvent) p.(pp_delivery).(pd_targetAlias)
    = Ok p.(pp_delivery).(pd_id) ∧
  p.(pp_delivery).(pd_envelopeDigest) = domainSeparatedDigest peerDeliveryEnvelopeDomain data.
Proof.
  unfold ParsePeerDeliveryCanonicalJSON. intros H.
  apply bind_Ok in H as (? & _ & H). apply bind_Ok in H as (wire & _ & H).
  apply bind_Ok in H as (d & Hd & H). apply bind_Ok in H as (? & Hr & H). injection H as <-.
  apply requireReconstructedCanonical_Ok in Hr as ->. cbn [pp_delivery].
  unfold peerDeliveryFromWire in Hd. do 15 (apply bind_Ok in Hd as (? & ? & Hd)).
  apply bind_Ok in Hd as ([] & _ & Hd). injection Hd as <-.
  match goal with H : NewPeerDelivery _ _ = Ok _ |- _ => rename H into Hn end.
  unfold NewPeerDelivery, canonicalJSON in Hn.
  apply bind_Ok in Hn as ([] & _ & Hn). apply bind_Ok in Hn as ([] & _ & Hn).
  apply bind_Ok in Hn as ([] & _ & Hn). apply bind_Ok in Hn as (? & _ & Hn).
  apply bind_Ok in Hn as (? & _ & Hn). apply bind_Ok in Hn as ([] & _ & Hn).
  apply bind_Ok in Hn as ([] & _ & Hn). apply bind_Ok in Hn as (? & _ & Hn).
  apply bind_Ok in Hn as (? & _ & Hn). apply bind_Ok in Hn as (id & Hid & Hn).
  cbn [mbind result_bind] in Hn. apply bind_Ok in Hn as ([] & _ & Hn). injection Hn as <-.
  by split_and!.
Qed.

(** *** A parsed delivery is well formed *)

Lemma originWire_ranges j (w : peerDeliveryOriginWire) :
  dec j = Ok w → 0 <= w.(pow_Sequence) <= max_uint64 ∧ 0 <= w.(pow_TargetCount) <= max_uint8.
Proof.
  intros H. assert (w = zero ∨ dec_value j = Ok w) as [->|Hv].
  { unfold dec in H. destruct j; auto. injection H as <-. by left. }
  - unfold max_uint64, max_uint8. cbn. lia.
  - cbn [dec_value peerDeliveryOriginWire_codec] in Hv. apply bind_Ok in Hv as (ms & _ & Hv).
    repeat match type of Hv with _ ≫= _ = Ok _ => apply bind_Ok in Hv as (? & ? & Hv) end.
    apply (inj Ok) in Hv as <-. cbn [pow_Sequence pow_TargetCount].
    split; (eapply get_int_range; [|eassumption]); unfold max_uint64, max_uint8; lia.
Qed.

Lemma peerDeliveryWire_ranges j (w : peerDeliveryWire) :
  dec j = Ok w → 0 <= w.(pdw_Origin).(pow_Sequence) <= max_uint64 ∧
  0 <= w.(pdw_Origin).(pow_TargetCount) <= max_uint8 ∧ 0 <= w.(pdw_CausalDepth) <= max_uint16.
Proof.
  intros H. assert (w = zero ∨ dec_value j = Ok w) as [->|Hv].
  { unfold dec in H. destruct j; auto. injection H as <-. by left. }
  - unfold max_uint64, max_uint8, max_uint16. cbn. lia.
  - cbn [dec_value peerDeliveryWire_codec] in Hv. apply bind_Ok in Hv as (ms & _ & Hv).
    apply bind_Ok in Hv as (? & _ & Hv). apply bind_Ok in Hv as (? & _ & Hv).
    apply bind_Ok in Hv as (origin & Ho & Hv). do 5 apply bind_Ok in Hv as (? & _ & Hv).
    apply bind_Ok in Hv as (depth & Hd & Hv). apply bind_Ok in Hv as (? & _ & Hv).
    apply (inj Ok) in Hv as <-. cbn [pdw_Origin pdw_CausalDepth].
    assert (∃ j', dec j' = Ok origin) as [j' Hj'].
    { unfold get in Ho. destruct (assoc _ _) as [j'|]; [by exists j'|]. by exists JNull. }
    apply originWire_ranges in Hj' as [? ?]. split; [done|]. split; [done|].
    eapply get_int_range; [|exact Hd]. unfold max_uint16. lia.
Qed.

Lemma ParsePeerDeliveryCanonicalJSON_ok data route p :
  ParsePeerDeliveryCanonicalJSON data route = Ok p → delivery_ok route p.(pp_delivery).
Proof.
  unfold ParsePeerDeliveryCanonicalJSON. intros H.
  apply bind_Ok in H as ([] & _ & H). apply bind_Ok in H as (wire & Hwire & H).
  apply bind_Ok in H as (d & Hd & H). apply bind_Ok in H as (? & _ & H). injection H as <-. cbn [pp_delivery].
  apply decodeCanonicalObject_dec in Hwire as (j & Hj). apply peerDeliveryWire_ranges in Hj as (Hr1 & Hr2 & Hr3).
  unfold peerDeliveryFromWire in Hd. apply bind_Ok in Hd as ([] & _ & Hd). apply bind_Ok in Hd as (id & _ & Hd).
  apply bind_Ok in Hd as (origin & Ho & Hd). apply wrap_error_Ok, parseEventRef_Ok in Ho as [Ho _].
  apply bind_Ok in Hd as (at' & _ & Hd). apply bind_Ok in Hd as (source & Hs & Hd).
  apply newIdentifier_Ok in Hs as [-> Hs]. apply bind_Ok in Hd as (consequence & _ & Hd).
  apply bind_Ok in Hd as (causation & Hc & Hd). apply bind_Ok in Hd as (correlation & Hcor & Hd).
  apply bind_Ok in Hd as (reply & Hrep & Hd). apply bind_Ok in Hd as (target & Ht & Hd).
  apply newIdentifier_Ok in Ht as [-> Ht]. apply bind_Ok in Hd as (kind & Hk & Hd).
  apply NewSemanticLabel_Ok in Hk as [-> Hk]. apply bind_Ok in Hd as (payload & Hp & Hd).
  apply NewSemanticPayload_Ok in Hp as [-> Hp]. apply bind_Ok in Hd as (artifacts & Ha & Hd).
  apply bind_Ok in Hd as (expires & _ & Hd). apply bind_Ok in Hd as (delivery & Hn & Hd).
  apply bind_Ok in Hd as ([] & _ & Hd). injection Hd as <-. eapply NewPeerDelivery_Ok; [|exact Hn].
  split; simpl_delivery; try done.
  - eapply mapR_Forall; [|exact Hc]. intros u v Hx. apply wrap_error_Ok, parseEventRef_Ok in Hx as [? _]. done.
  - unfold parsePeerOptionalEventRef in Hcor. destruct (pow_Correlation _).
    + right. by apply wrap_error_Ok, parseEventRef_Ok in Hcor as [? _].
    + left. by injection Hcor as <-.
  - unfold parse_optional_delivery in Hrep. destruct (is_empty _).
    + left. by injection Hrep as <-.
    + right. by apply ParseDeliveryID_Ok in Hrep as [_ ?].
  - eapply mapR_Forall; [|exact Ha]. intros u v Hx. by apply ParseDigest_Ok in Hx as (_ & ?).
Qed.

(** What an accepted delivery takes from the bytes alone. *)
Lemma ParsePeerDeliveryCanonicalJSON_wire data route p :
  ParsePeerDeliveryCanonicalJSON data route = Ok p →
  ∃ wire, decodeCanonicalObject "PeerDelivery JSON" data MaxPeerDeliveryCanonicalBytes = Ok wire ∧
    ParseDeliveryID wire.(pdw_DeliveryID) = Ok p.(pp_delivery).(pd_id) ∧
    parseEventRef wire.(pdw_Origin).(pow_Event) = Ok p.(pp_delivery).(pd_originEvent) ∧
    NewOpaqueHandle wire.(pdw_TargetAlias) = Ok p.(pp_delivery).(pd_targetAlias).
Proof.
  unfold ParsePeerDeliveryCanonicalJSON. intros H.
  apply bind_Ok in H as (? & _ & H). apply bind_Ok in H as (wire & Hwire & H).
  apply bind_Ok in H as (d & Hd & H). apply bind_Ok in H as (? & _ & H). injection H as <-.
  exists wire. split; [done|]. unfold peerDeliveryFromWire in Hd. cbn [pp_delivery].
  apply bind_Ok in Hd as ([] & _ & Hd). apply bind_Ok in Hd as (id & Hid & Hd).
  apply bind_Ok in Hd as (origin & Ho%wrap_error_Ok & Hd). do 6 apply bind_Ok in Hd as (? & _ & Hd).
  apply bind_Ok in Hd as (target & Ht & Hd). do 4 apply bind_Ok in Hd as (? & _ & Hd).
  apply bind_Ok in Hd as (delivery & Hn & Hd). apply bind_Ok in Hd as ([] & He & Hd). injection Hd as <-.
  apply fail_if_Ok, negb_false_iff, bool_decide_eq_true in He as ->.
  unfold NewPeerDelivery in Hn. do 11 apply bind_Ok in Hn as (? & _ & Hn).
  repeat match type of Hn with context [let '(_, _) := ?x in _] => destruct x end.
  apply bind_Ok in Hn as ([] & _ & Hn). by injection Hn as <-.
Qed.

Lemma id_wire_ok origin route target :
  valid_utf8 origin.(er_id) = true → valid_utf8 target = true → valid_utf8 route = true →
  enc_ok {| piw_SchemaVersion := 1; piw_OriginEvent := EventRef_canonical origin;
            piw_EnrolledRoute := route; piw_TargetAlias := target |}.
Proof.
  intros Ho Ht Hr. split; [by split|]. split; [|by split].
  split; eauto with wire_ok.
Qed.

(** Two routes derive one identity only through a collision of the hash. *)
Lemma deriveDeliveryID_route route route' origin target id :
  handle_ok route = true → handle_ok route' = true → valid_utf8 origin.(er_id) = true →
  valid_utf8 target = true →
  deriveDeliveryID route origin target = Ok id → deriveDeliveryID route' origin target = Ok id →
  route = route' ∨ ∃ m m', m ≠ m' ∧ sha256 m = sha256 m'.
Proof.
  intros Hr Hr' Ho Ht H H'. unfold deriveDeliveryID, canonicalJSON in H, H'.
  apply bind_Ok in H as ([] & _ & H). apply bind_Ok in H' as ([] & _ & H').
  cbn [mbind result_bind] in H, H'. apply (inj Ok) in H as <-. apply (inj Ok) in H' as E. clear H'.
  destruct (decide (route = route')) as [->|Hne]; [by left|right]. unfold domainSeparatedDigest in E.
  eexists _, _. split; [|exact (eq_sym E)]. intros Em. apply Hne.
  apply string_app_inj in Em. apply (inj (String _)), canonical_bytes_inj in Em.
  - exact (f_equal piw_EnrolledRoute Em).
  - apply id_wire_ok; [done|done|by eapply token_ok_utf8].
  - apply id_wire_ok; [done|done|by eapply token_ok_utf8].
Qed.

(** Bytes accepted under two routes exhibit such a collision. *)
Lemma ParsePeerDeliveryCanonicalJSON_route data route route' p p' :
  handle_ok route = true → handle_ok route' = true →
  ParsePeerDeliveryCanonicalJSON data route = Ok p → ParsePeerDeliveryCanonicalJSON data route' = Ok p' →
  route = route' ∨ ∃ m m', m ≠ m' ∧ sha256 m = sha256 m'.
Proof.
  intros Hr Hr' H H'.
  destruct (ParsePeerDeliveryCanonicalJSON_wire _ _ _ H) as (w & Hw & Hid & Ho & Ht).
  destruct (ParsePeerDeliveryCanonicalJSON_wire _ _ _ H') as (w' & Hw' & Hid' & Ho' & Ht').
  rewrite Hw in Hw'. apply (inj Ok) in Hw' as <-. rewrite Hid in Hid'. rewrite Ho in Ho'. rewrite Ht in Ht'.
  apply (inj Ok) in Hid', Ho', Ht'. apply parseEventRef_Ok in Ho as [[Hi _] _].
  apply newIdentifier_Ok in Ht as [Et Ht]. rewrite <- Et in Ht.
  apply ParsePeerDeliveryCanonicalJSON_Ok in H as (_ & H & _).
  apply ParsePeerDeliveryCanonicalJSON_Ok in H' as (_ & H' & _).
  rewrite <- Hid', <- Ho', <- Ht' in H'.
  eapply deriveDeliveryID_route; [done|done| | |exact H|exact H']; by eapply token_ok_utf8.
Qed.

(** *** Admission Receipts *)

Record admission_receipt_ok (r : PeerAdmissionReceipt) : Prop := {
  aro_id : digest_ok r.(par_deliveryID);
  aro_envelope : digest_ok r.(par_envelopeDigest);
  aro_time : time_ok r.(par_recordedAt);
  aro_outcome :
    match r.(par_outcome) with
    | PeerAdmissionOutcomeAccepted =>
        ref_ok r.(par_localEvent) ∧ r.(par_code) = "" ∧ r.(par_diagnostic) = ""
    | PeerAdmissionOutcomeRejected =>
        r.(par_localEvent) = zero_EventRef ∧ label_ok r.(par_code) = true ∧
        payload_ok r.(par_diagnostic) = true ∧ slen r.(par_diagnostic) <= MaxDiagnosticBytes
    | PeerAdmissionOutcomeInvalid => False
    end;
  aro_canonical : r.(par_canonical) = canonical_bytes (admission_receipt_wire r);
  aro_digest : r.(par_digest) =
    domainSeparatedDigest peerAdmissionReceiptDigestDomain r.(par_canonical);
  aro_size : slen r.(par_canonical) <= MaxPeerAdmissionReceiptCanonicalBytes;
}.

Lemma admission_receipt_wire_ok r : admission_receipt_ok r → enc_ok (admission_receipt_wire r).
Proof.
  intros [_ _ Ht Hout _ _ _]. split; [done|]. split; [apply DeliveryID_String_utf8|].
  split; [by eauto with wire_ok|].
  split; [by cbn [admission_receipt_wire paw_Outcome]; destruct (par_outcome r)|].
  split; [by eauto with wire_ok|].
  cbn [admission_receipt_wire paw_LocalEvent paw_Code paw_Diagnostic].
  destruct (par_outcome r); [done| |].
  - destruct Hout as (Hr & -> & ->). split; [|done]. apply optional_ref_wire_ok. by right.
  - destruct Hout as (-> & Hc & Hp & _).
    split; [apply optional_ref_wire_ok; by left|].
    split; eauto with wire_ok.
Qed.

Lemma validatePeerDiagnostic_Ok d u :
  validatePeerDiagnostic d = Ok u ↔ payload_ok d = true ∧ slen d <= MaxDiagnosticBytes.
Proof.
  unfold validatePeerDiagnostic. destruct u. split.
  - intros H. inv_res.
    match goal with H : NewSemanticPayload _ = _ |- _ => apply NewSemanticPayload_Ok in H as [-> ?] end.
    split; [done|by apply Z.ltb_ge].
  - intros [Hp Hl]. rewrite (proj2 (Z.ltb_ge _ _)) by done. cbn [fail_if mbind result_bind].
    by rewrite (proj2 (NewSemanticPayload_Ok _ _) (conj eq_refl Hp)).
Qed.

Lemma peerAdmissionReceiptFromWire_wire r :
  admission_receipt_ok r → peerAdmissionReceiptFromWire (admission_receipt_wire r) = Ok r.
Proof.
  intros [Hi [Hew Hez] Ht Hout Hcan Hdig _]. unfold peerAdmissionReceiptFromWire, parsePeerCanonicalTime.
  destruct r as [id env out rt ev code diag can dig].
  cbn [par_deliveryID par_envelopeDigest par_outcome par_recordedAt par_localEvent par_code
    par_diagnostic par_canonical par_digest] in *.
  cbn [admission_receipt_wire paw_SchemaVersion paw_DeliveryID paw_EnvelopeDigest paw_Outcome
    paw_RecordedAt paw_LocalEvent paw_Code paw_Diagnostic par_deliveryID par_envelopeDigest
    par_outcome par_recordedAt par_localEvent par_code par_diagnostic].
  cbn [Z.eqb Pos.eqb negb fail_if mbind result_bind].
  step (ParseDeliveryID_String _ Hi). step (ParseDigest_String _ Hew Hez).
  step (parse_canonical_time_format "peer admission Receipt recorded time" _ Ht).
  destruct out; [done| |].
  - destruct Hout as (Hr & -> & ->). unfold optional_ref_wire. rewrite ref_ok_nonzero by done.
    cbn [of_option mbind result_bind String.eqb Ascii.eqb Bool.eqb PeerAdmissionOutcome_String].
    change (is_empty "") with true. cbn [negb orb fail_if mbind result_bind].
    unfold parsePeerEventRef. rewrite parseEventRef_canonical by done.
    cbn [wrap_error mbind result_bind]. unfold canonicalJSON. cbn [mbind result_bind].
    by rewrite Hdig, Hcan.
  - destruct Hout as (-> & Hc & Hp & Hl). unfold optional_ref_wire.
    rewrite zero_EventRef_IsZero.
    cbn [is_some String.eqb Ascii.eqb Bool.eqb PeerAdmissionOutcome_String orb].
    rewrite (proj2 (is_empty_false _) (token_ok_nonempty _ _ _ Hc)).
    cbn [fail_if mbind result_bind].
    step (proj2 (NewSemanticLabel_Ok _ _) (conj eq_refl Hc)).
    step (proj2 (validatePeerDiagnostic_Ok _ ()) (conj Hp Hl)).
    unfold canonicalJSON. cbn [mbind result_bind]. by rewrite Hdig, Hcan.
Qed.

Lemma newPeerAdmissionReceipt_Ok delivery outcome event code diagnostic recordedAt r :
  newPeerAdmissionReceipt delivery outcome event code diagnostic recordedAt = Ok r →
  delivery_complete delivery = true ∧ time_ok recordedAt ∧
  r = admission_receipt_of delivery.(pd_id) delivery.(pd_envelopeDigest) outcome recordedAt event
        code diagnostic r.(par_canonical) r.(par_digest) ∧
  r.(par_canonical) = canonical_bytes (admission_receipt_wire r) ∧
  r.(par_digest) = domainSeparatedDigest peerAdmissionReceiptDigestDomain r.(par_canonical) ∧
  slen r.(par_canonical) <= MaxPeerAdmissionReceiptCanonicalBytes.
Proof.
  unfold newPeerAdmissionReceipt, canonicalJSON. intros H.
  apply bind_Ok in H as ([] & Hd & H). apply bind_Ok in H as (t & Ht & H).
  cbn [mbind result_bind] in H. apply bind_Ok in H as ([] & Hs & H). injection H as <-.
  apply canonicalTime_Ok in Ht as (-> & Hz & Hr). apply fail_if_Ok, negb_false_iff in Hd.
  apply fail_if_Ok, Z.ltb_ge in Hs.
  repeat (split; [done|]). done.
Qed.

(** Delivery values whose digests have the form SHA-256 gives them. *)
Definition delivery_digests_ok (d : PeerDelivery) : Prop :=
  digest_wf d.(pd_id) ∧ digest_wf d.(pd_envelopeDigest).

Lemma NewAcceptedPeerAdmissionReceipt_ok delivery event recordedAt r :
  delivery_digests_ok delivery → ref_ok event →
  NewAcceptedPeerAdmissionReceipt delivery event recordedAt = Ok r → admission_receipt_ok r.
Proof.
  intros [Hi He] Hev H. unfold NewAcceptedPeerAdmissionReceipt in H.
  do 2 (apply bind_Ok in H as (? & _ & H)).
  apply newPeerAdmissionReceipt_Ok in H as (Hc & Ht & Er & Hcan & Hdig & Hs).
  unfold delivery_complete in Hc. inv_res.
  rewrite Er in *. split; try done; by split.
Qed.

Lemma NewRejectedPeerAdmissionReceipt_ok delivery code diagnostic recordedAt r :
  delivery_digests_ok delivery → label_ok code = true →
  NewRejectedPeerAdmissionReceipt delivery code diagnostic recordedAt = Ok r →
  admission_receipt_ok r.
Proof.
  intros [Hi He] Hcode H. unfold NewRejectedPeerAdmissionReceipt in H.
  apply bind_Ok in H as (? & _ & H). apply bind_Ok in H as (? & Hd & H).
  apply validatePeerDiagnostic_Ok in Hd as [Hp Hl].
  apply newPeerAdmissionReceipt_Ok in H as (Hc & Ht & Er & Hcan & Hdig & Hs).
  unfold delivery_complete in Hc. inv_res.
  rewrite Er in *. split; try done; by split.
Qed.

Lemma ParsePeerAdmissionReceiptCanonicalJSON_canonical delivery r :
  admission_receipt_ok r → delivery_complete delivery = true →
  requirePeerAdmissionReceiptBinding r delivery = Ok () →
  ParsePeerAdmissionReceiptCanonicalJSON r.(par_canonical) delivery = Ok r.
Proof.
  intros Hr Hd Hb. unfold ParsePeerAdmissionReceiptCanonicalJSON. rewrite Hd.
  cbn [negb fail_if mbind result_bind].
  pose proof (aro_canonical _ Hr) as Hc. pose proof (aro_size _ Hr) as Hs.
  rewrite Hc in Hs |- *.
  rewrite decodeCanonicalObject_canonical; [|by apply admission_receipt_wire_ok|done].
  cbn [mbind result_bind]. step (peerAdmissionReceiptFromWire_wire r Hr).
  rewrite (proj2 (requireReconstructedCanonical_Ok "peer admission Receipt JSON" _ _ ()) (eq_sym Hc)).
  cbn [mbind result_bind]. by step Hb.
Qed.

(** A decoded Receipt is well formed. *)
Lemma peerAdmissionReceiptFromWire_Ok w r :
  peerAdmissionReceiptFromWire w = Ok r → slen r.(par_canonical) <= MaxPeerAdmissionReceiptCanonicalBytes →
  admission_receipt_ok r.
Proof.
  unfold peerAdmissionReceiptFromWire, canonicalJSON, parsePeerCanonicalTime, parsePeerEventRef. intros H Hs.
  apply bind_Ok in H as ([] & _ & H). apply bind_Ok in H as (id & Hid & H).
  apply ParseDeliveryID_Ok in Hid as [_ Hid]. apply bind_Ok in H as (env & Henv & H).
  apply ParseDigest_Ok in Henv as (_ & Henv). apply bind_Ok in H as (t & Ht & H).
  apply parse_canonical_time_Ok in Ht as [_ Ht]. apply bind_Ok in H as (build & Hb & H).
  cbn [mbind result_bind] in H. apply (inj Ok) in H as <-.
  destruct (String.eqb _ "accepted").
  - cbv zeta in Hb. apply bind_Ok in Hb as (e & _ & Hb). apply bind_Ok in Hb as ([] & Hf & Hb).
    apply bind_Ok in Hb as (ev & Hev%wrap_error_Ok & Hb). apply parseEventRef_Ok in Hev as [Hev _].
    apply fail_if_Ok, orb_false_iff in Hf as [_ Hdiag%negb_false_iff%is_empty_true].
    apply (inj Ok) in Hb as <-. by split.
  - destruct (String.eqb _ "rejected"); [|done]. apply bind_Ok in Hb as ([] & _ & Hb).
    apply bind_Ok in Hb as (code & Hc%NewSemanticLabel_Ok & Hb). apply bind_Ok in Hb as ([] & Hd & Hb).
    apply validatePeerDiagnostic_Ok in Hd as []. destruct Hc as [-> Hc]. apply (inj Ok) in Hb as <-. by split.
Qed.

Lemma ParsePeerAdmissionReceiptCanonicalJSON_Ok data delivery r :
  ParsePeerAdmissionReceiptCanonicalJSON data delivery = Ok r →
  admission_receipt_ok r ∧ r.(par_canonical) = data ∧ requirePeerAdmissionReceiptBinding r delivery = Ok ().
Proof.
  unfold ParsePeerAdmissionReceiptCanonicalJSON. intros H. apply bind_Ok in H as ([] & _ & H).
  apply bind_Ok in H as (w & Hw & H). apply decodeCanonicalObject_Ok in Hw as (_ & _ & Hs).
  apply bind_Ok in H as (r' & Hr & H). apply bind_Ok in H as ([] & Hc & H).
  apply bind_Ok in H as ([] & Hb & H). apply (inj Ok) in H as <-.
  apply requireReconstructedCanonical_Ok in Hc. split_and!; [|congruence|done].
  eapply peerAdmissionReceiptFromWire_Ok; [done|congruence].
Qed.

(** The bytes of a Receipt parse as that Receipt or not at all. *)
Lemma ParsePeerAdmissionReceiptCanonicalJSON_exact delivery r r' :
  admission_receipt_ok r → ParsePeerAdmissionReceiptCanonicalJSON r.(par_canonical) delivery = Ok r' → r' = r.
Proof.
  intros Hr H. unfold ParsePeerAdmissionReceiptCanonicalJSON in H. apply bind_Ok in H as ([] & _ & H).
  pose proof (aro_size _ Hr) as Hs. rewrite (aro_canonical _ Hr) in Hs, H.
  rewrite decodeCanonicalObject_canonical in H; [|by apply admission_receipt_wire_ok|done].
  cbn [mbind result_bind] in H. rewrite (peerAdmissionReceiptFromWire_wire r Hr) in H.
  cbn [mbind result_bind] in H. apply bind_Ok in H as ([] & _ & H). apply bind_Ok in H as ([] & _ & H).
  by apply (inj Ok) in H.
Qed.
