(* ===== verification/Base64.v ===== *)
(** [encoding/base64] with the standard padded alphabet, as [encoding/json] uses
    it for a [[]byte] field, and the codec of such a field.

    [base64.RawURLEncoding]: unpadded URL-safe base64, its strict decoder, and the
    facts the identifiers, keys and file names built from it rely on. *)

From Stdlib Require Import Lia.
From S2P Require Import Prelude Utf8 Json Wire Value.

#[local] Open Scope N_scope.

Definition b64_char (n : N) : ascii :=
  byte_of_N (if n <? 26 then n + 65 else if n <? 52 then n + 71 else if n <? 62 then n - 4
             else if n =? 62 then 43 else 47).

Definition b64_value (c : ascii) : option N :=
  let n := N_of_byte c in
  if in_range 65 90 c then Some (n - 65)
  else if in_range 97 122 c then Some (n - 71)
  else if in_range 48 57 c then Some (n + 4)
  else if n =? 43 then Some 62
  else if n =? 47 then Some 63
  else None.

(** The sextets of three bytes. *)
Definition sextet1 (a : N) : N := a / 4.
Definition sextet2 (a b : N) : N := (a mod 4) * 16 + b / 16.
Definition sextet3 (b c : N) : N := (b mod 16) * 4 + c / 64.
Definition sextet4 (c : N) : N := c mod 64.

Fixpoint b64_encode (s : string) : string :=
  match s with
  | EmptyString => ""
  | String a EmptyString =>
      String (b64_char (sextet1 (N_of_byte a))) (String (b64_char (sextet2 (N_of_byte a) 0)) "==")
  | String a (String b EmptyString) =>
      String (b64_char (sextet1 (N_of_byte a)))
        (String (b64_char (sextet2 (N_of_byte a) (N_of_byte b)))
          (String (b64_char (sextet3 (N_of_byte b) 0)) "="))
  | String a (String b (String c s)) =>
      String (b64_char (sextet1 (N_of_byte a)))
        (String (b64_char (sextet2 (N_of_byte a) (N_of_byte b)))
          (String (b64_char (sextet3 (N_of_byte b) (N_of_byte c)))
            (String (b64_char (sextet4 (N_of_byte c))) (b64_encode s))))
  end.

Definition byte1 (x y : N) : ascii := byte_of_N (x * 4 + y / 16).
Definition byte2 (y z : N) : ascii := byte_of_N ((y mod 16) * 16 + z / 4).
Definition byte3 (z w : N) : ascii := byte_of_N ((z mod 4) * 64 + w).

(** Padding only in the last quantum; the spare bits of a short quantum are not
    checked (the encoding is not [Strict]). *)
Fixpoint b64_decode (s : string) : option string :=
  match s with
  | EmptyString => Some ""
  | String a (String b (String c (String d rest))) =>
      x ← b64_value a; y ← b64_value b;
      if Ascii.eqb c "=" then
        if Ascii.eqb d "=" && is_empty rest then Some (String (byte1 x y) "") else None
      else
        z ← b64_value c;
        if Ascii.eqb d "=" then
          if is_empty rest then Some (String (byte1 x y) (String (byte2 y z) "")) else None
        else
          w ← b64_value d; tail ← b64_decode rest;
          Some (String (byte1 x y) (String (byte2 y z) (String (byte3 z w) tail)))
  | _ => None
  end.

(** The decoder skips line breaks. *)
Fixpoint strip_newlines (s : string) : string :=
  match s with
  | EmptyString => ""
  | String c s => if Ascii.eqb c "010" || Ascii.eqb c "013" then strip_newlines s
                  else String c (strip_newlines s)
  end.

(** A JSON array of numbers also decodes into a [[]byte]; it is never the
    canonical form of what it decodes to, so it is refused here at once. *)
Definition bytes_codec : Codec string := {|
  enc b := JStr (b64_encode b);
  dec_value j :=
    match j with
    | JStr s => of_option (b64_decode (strip_newlines s)) json_error
    | _ => Err json_error
    end;
  zero := ""; empty := is_empty; enc_ok _ := True |}.

(** ** Laws *)

Definition b64_byte (c : ascii) : bool :=
  in_range 65 90 c || in_range 97 122 c || in_range 48 57 c || Ascii.eqb c "+" || Ascii.eqb c "/" ||
  Ascii.eqb c "=".

Definition sextet_facts (n : N) : bool :=
  bool_decide (b64_value (b64_char n) = Some n) && negb (Ascii.eqb (b64_char n) "=") &&
  b64_byte (b64_char n).

Lemma sextets_ok : forallb sextet_facts (map N.of_nat (seq 0 64)) = true.
Proof. vm_compute. reflexivity. Qed.

Lemma sextet_ok n : n < 64 →
  b64_value (b64_char n) = Some n ∧ Ascii.eqb (b64_char n) "=" = false ∧ b64_byte (b64_char n) = true.
Proof.
  intros Hn. pose proof (proj1 (forallb_forall _ _) sextets_ok n) as H.
  assert (In n (map N.of_nat (seq 0 64))) as Hin.
  { apply in_map_iff. exists (N.to_nat n). split; [lia|]. apply in_seq. lia. }
  specialize (H Hin). unfold sextet_facts in H.
  apply andb_true_iff in H as [[H1%bool_decide_eq_true H2%negb_true_iff]%andb_true_iff H3]. done.
Qed.

Lemma sextet_bounds a b c : a < 256 → b < 256 → c < 256 →
  sextet1 a < 64 ∧ sextet2 a b < 64 ∧ sextet3 b c < 64 ∧ sextet4 c < 64.
Proof. intros Ha Hb Hc. unfold sextet1, sextet2, sextet3, sextet4. repeat split; div_lia. Qed.

Lemma byte1_sextets a b : a < 256 → b < 256 → byte1 (sextet1 a) (sextet2 a b) = byte_of_N a.
Proof. intros Ha Hb. unfold byte1, sextet1, sextet2. f_equal. div_lia. Qed.
Lemma byte2_sextets a b c : a < 256 → b < 256 → c < 256 →
  byte2 (sextet2 a b) (sextet3 b c) = byte_of_N b.
Proof. intros Ha Hb Hc. unfold byte2, sextet2, sextet3. f_equal. div_lia. Qed.
Lemma byte3_sextets b c : b < 256 → c < 256 → byte3 (sextet3 b c) (sextet4 c) = byte_of_N c.
Proof. intros Hb Hc. unfold byte3, sextet3, sextet4. f_equal. div_lia. Qed.

(** Induction by quanta of three bytes. *)
Lemma string_ind3 (P : string → Prop) :
  P "" → (∀ a, P (String a "")) → (∀ a b, P (String a (String b ""))) →
  (∀ a b c s, P s → P (String a (String b (String c s)))) → ∀ s, P s.
Proof.
  intros H0 H1 H2 H3. enough (∀ n s, (String.length s <= n)%nat → P s) as H by (intros s; by eapply H).
  induction n as [|n IH]; intros [|a [|b [|c s]]]; cbn; intros Hn; try lia; auto.
  apply H3, IH. lia.
Qed.

Lemma b64_decode_encode s : b64_decode (b64_encode s) = Some s.
Proof.
  induction s as [|a|a b|a b c s IH] using string_ind3; cbn [b64_encode b64_decode]; [done|..].
  - pose proof (sextet_bounds (N_of_byte a) 0 0 (N_of_byte_bound a)) as (H1 & H2 & _); [lia..|].
    apply sextet_ok in H1 as (-> & _), H2 as (-> & _). cbn.
    by rewrite byte1_sextets, byte_of_N_of_byte by (apply N_of_byte_bound || lia).
  - pose proof (sextet_bounds (N_of_byte a) (N_of_byte b) 0 (N_of_byte_bound a) (N_of_byte_bound b))
      as (H1 & H2 & H3 & _); [lia|].
    apply sextet_ok in H1 as (-> & _), H2 as (-> & _), H3 as (-> & -> & _). cbn.
    rewrite byte1_sextets, byte2_sextets, !byte_of_N_of_byte by (apply N_of_byte_bound || lia). done.
  - pose proof (sextet_bounds _ _ _ (N_of_byte_bound a) (N_of_byte_bound b) (N_of_byte_bound c))
      as (H1 & H2 & H3 & H4).
    apply sextet_ok in H1 as (-> & _), H2 as (-> & _), H3 as (-> & -> & _), H4 as (-> & -> & _). cbn.
    rewrite IH. cbn. by rewrite byte1_sextets, byte2_sextets, byte3_sextets, !byte_of_N_of_byte
      by apply N_of_byte_bound.
Qed.

Lemma b64_encode_bytes s : forallb b64_byte (string_to_bytes (b64_encode s)) = true.
Proof.
  induction s as [|a|a b|a b c s IH] using string_ind3; cbn [b64_encode string_to_bytes forallb]; [done|..].
  - pose proof (sextet_bounds (N_of_byte a) 0 0 (N_of_byte_bound a)) as (H1 & H2 & _); [lia..|].
    apply sextet_ok in H1 as (_ & _ & ->), H2 as (_ & _ & ->). done.
  - pose proof (sextet_bounds (N_of_byte a) (N_of_byte b) 0 (N_of_byte_bound a) (N_of_byte_bound b))
      as (H1 & H2 & H3 & _); [lia|].
    apply sextet_ok in H1 as (_ & _ & ->), H2 as (_ & _ & ->), H3 as (_ & _ & ->). done.
  - pose proof (sextet_bounds _ _ _ (N_of_byte_bound a) (N_of_byte_bound b) (N_of_byte_bound c))
      as (H1 & H2 & H3 & H4).
    apply sextet_ok in H1 as (_ & _ & ->), H2 as (_ & _ & ->), H3 as (_ & _ & ->), H4 as (_ & _ & ->).
    done.
Qed.

Lemma b64_byte_plain c : b64_byte c = true → plain_byte c = true ∧ (Ascii.eqb c "010" || Ascii.eqb c "013") = false.
Proof. destruct c as [[] [] [] [] [] [] [] []]; vm_compute; intuition congruence. Qed.

Lemma b64_encode_plain s : forallb plain_byte (string_to_bytes (b64_encode s)) = true.
Proof.
  pose proof (b64_encode_bytes s) as H. rewrite forallb_forall in *. intros c Hc. by apply b64_byte_plain, H.
Qed.

Lemma strip_newlines_b64 s : forallb b64_byte (string_to_bytes s) = true → strip_newlines s = s.
Proof.
  induction s as [|c s IH]; [done|]. cbn [string_to_bytes forallb strip_newlines].
  intros [[_ ->]%b64_byte_plain Hs]%andb_prop. by rewrite IH.
Qed.

Lemma plain_utf8 s : forallb plain_byte (string_to_bytes s) = true → valid_utf8 s = true.
Proof.
  intros H. apply valid_utf8_ascii. rewrite forallb_forall in *. intros c Hc. specialize (H c Hc).
  unfold plain_byte in H. by inv_res.
Qed.

#[export] Instance bytes_codec_laws : @CodecLaws string bytes_codec.
Proof.
  split; cbn [dec_value enc enc_ok empty zero bytes_codec].
  - intros a _. by rewrite strip_newlines_b64, b64_decode_encode by apply b64_encode_bytes.
  - intros a _. constructor. apply plain_utf8, b64_encode_plain.
  - done.
  - intros a. by rewrite is_empty_true.
Qed.

Lemma b64_encode_length s : slen (b64_encode s) = (4 * ((slen s + 2) / 3))%Z.
Proof.
  unfold slen. induction s as [|a|a b|a b c s IH] using string_ind3; [done..|].
  change (String.length (b64_encode (String a (String b (String c s)))))
    with (4 + String.length (b64_encode s))%nat.
  change (String.length (String a (String b (String c s)))) with (3 + String.length s)%nat.
  rewrite !Nat2Z.inj_add, IH. replace (Z.of_nat 3 + Z.of_nat (String.length s) + 2)%Z
    with (Z.of_nat (String.length s) + 2 + 1 * 3)%Z by lia.
  rewrite Z.div_add by done. lia.
Qed.

Definition base64_alphabet : string :=
  "ABCDEFGHIJKLMNOPQRSTUVWXYZabcdefghijklmnopqrstuvwxyz0123456789-_".

Definition base64_char (n : N) : ascii :=
  default "A"%char (String.get (N.to_nat n) base64_alphabet).

(** [base64.RawURLEncoding.EncodeToString]. *)
Fixpoint base64_encode (s : string) : string :=
  match s with
  | EmptyString => ""
  | String a EmptyString =>
      let x := N_of_byte a in
      String (base64_char (x / 4)) (String (base64_char (x mod 4 * 16)) "")
  | String a (String b EmptyString) =>
      let x := N_of_byte a in let y := N_of_byte b in
      String (base64_char (x / 4)) (String (base64_char (x mod 4 * 16 + y / 16))
        (String (base64_char (y mod 16 * 4)) ""))
  | String a (String b (String c tl)) =>
      let x := N_of_byte a in let y := N_of_byte b in let z := N_of_byte c in
      String (base64_char (x / 4)) (String (base64_char (x mod 4 * 16 + y / 16))
        (String (base64_char (y mod 16 * 4 + z / 64)) (String (base64_char (z mod 64))
          (base64_encode tl))))
  end.

Definition base64_value (c : ascii) : option N :=
  let n := N_of_byte c in
  if in_range 65 90 c then Some (n - 65)
  else if in_range 97 122 c then Some (n - 71)
  else if in_range 48 57 c then Some (n + 4)
  else if n =? 45 then Some 62
  else if n =? 95 then Some 63
  else None.

(** The spare bits of a short last quantum must be zero. *)
Fixpoint base64_strict (s : string) : option string :=
  match s with
  | EmptyString => Some ""
  | String a (String b EmptyString) =>
      x ← base64_value a; y ← base64_value b;
      if y mod 16 =? 0 then Some (String (byte1 x y) "") else None
  | String a (String b (String c EmptyString)) =>
      x ← base64_value a; y ← base64_value b; z ← base64_value c;
      if z mod 4 =? 0 then Some (String (byte1 x y) (String (byte2 y z) "")) else None
  | String a (String b (String c (String d rest))) =>
      x ← base64_value a; y ← base64_value b; z ← base64_value c; w ← base64_value d;
      tail ← base64_strict rest;
      Some (String (byte1 x y) (String (byte2 y z) (String (byte3 z w) tail)))
  | _ => None
  end.

(** [base64.RawURLEncoding.Strict().DecodeString]: line breaks are skipped. *)
Definition base64_decode (s : string) : option string := base64_strict (strip_newlines s).

(** ** Laws *)

Definition base64_byte (c : ascii) : bool :=
  in_range 65 90 c || in_range 97 122 c || in_range 48 57 c || Ascii.eqb c "-" || Ascii.eqb c "_".

(** A character of a token: see [validateToken]. *)
Definition url_sextet (n : N) : bool :=
  bool_decide (base64_value (base64_char n) = Some n) && base64_byte (base64_char n) &&
  (if n <? 62 then token_alnum false (base64_char n) else true) &&
  (token_alnum false (base64_char n) || token_punct false (base64_char n)).

Lemma url_sextets_ok : forallb url_sextet (map N.of_nat (seq 0 64)) = true.
Proof. vm_compute. reflexivity. Qed.

Lemma url_sextet_ok n : n < 64 →
  base64_value (base64_char n) = Some n ∧ base64_byte (base64_char n) = true ∧
  (n < 62 → token_alnum false (base64_char n) = true) ∧
  (token_alnum false (base64_char n) = true ∨ token_punct false (base64_char n) = true).
Proof.
  intros Hn. pose proof (proj1 (forallb_forall _ _) url_sextets_ok n) as H.
  assert (In n (map N.of_nat (seq 0 64))) as Hin.
  { apply in_map_iff. exists (N.to_nat n). split; [lia|]. apply in_seq. lia. }
  specialize (H Hin). unfold url_sextet in H.
  apply andb_true_iff in H as [[[H1%bool_decide_eq_true H2]%andb_true_iff H3]%andb_true_iff H4%orb_true_iff].
  split_and!; [done|done| |done]. intros Hlt%N.ltb_lt. by rewrite Hlt in H3.
Qed.

(** The encoder in terms of the sextets of the padded one. *)
Lemma base64_encode_eq s : base64_encode s =
  match s with
  | EmptyString => ""
  | String a EmptyString =>
      String (base64_char (sextet1 (N_of_byte a))) (String (base64_char (sextet2 (N_of_byte a) 0)) "")
  | String a (String b EmptyString) =>
      String (base64_char (sextet1 (N_of_byte a))) (String (base64_char (sextet2 (N_of_byte a) (N_of_byte b)))
        (String (base64_char (sextet3 (N_of_byte b) 0)) ""))
  | String a (String b (String c tl)) =>
      String (base64_char (sextet1 (N_of_byte a))) (String (base64_char (sextet2 (N_of_byte a) (N_of_byte b)))
        (String (base64_char (sextet3 (N_of_byte b) (N_of_byte c))) (String (base64_char (sextet4 (N_of_byte c)))
          (base64_encode tl))))
  end.
Proof.
  unfold sextet1, sextet2, sextet3, sextet4. destruct s as [|a [|b [|c s]]]; cbn [base64_encode]; [done| | |done].
  - rewrite N.div_0_l by done. by rewrite N.add_0_r.
  - rewrite N.div_0_l by done. by rewrite N.add_0_r.
Qed.

Ltac url_sextet_facts :=
  repeat match goal with
  | H : ?n < 64 |- _ => lazymatch goal with
      | _ : base64_value (base64_char n) = Some n |- _ => fail
      | _ => destruct (url_sextet_ok n H) as (? & ? & ? & ?)
      end
  end.

Lemma base64_strict_encode s : base64_strict (base64_encode s) = Some s.
Proof.
  induction s as [|a|a b|a b c s IH] using string_ind3; rewrite base64_encode_eq; [done|..].
  - pose proof (sextet_bounds (N_of_byte a) 0 0 (N_of_byte_bound a)) as (H1 & H2 & _); [lia..|].
    url_sextet_facts. cbn [base64_strict].
    repeat match goal with E : base64_value _ = _ |- _ => rewrite E; clear E end. cbn [mbind option_bind].
    replace (sextet2 (N_of_byte a) 0 mod 16 =? 0) with true.
    + by rewrite byte1_sextets, byte_of_N_of_byte by (apply N_of_byte_bound || lia).
    + symmetry. apply N.eqb_eq. unfold sextet2. div_lia.
  - pose proof (sextet_bounds (N_of_byte a) (N_of_byte b) 0 (N_of_byte_bound a) (N_of_byte_bound b))
      as (H1 & H2 & H3 & _); [lia|].
    url_sextet_facts. cbn [base64_strict].
    repeat match goal with E : base64_value _ = _ |- _ => rewrite E; clear E end. cbn [mbind option_bind].
    replace (sextet3 (N_of_byte b) 0 mod 4 =? 0) with true.
    + by rewrite byte1_sextets, byte2_sextets, !byte_of_N_of_byte by (apply N_of_byte_bound || lia).
    + symmetry. apply N.eqb_eq. unfold sextet3. div_lia.
  - pose proof (sextet_bounds _ _ _ (N_of_byte_bound a) (N_of_byte_bound b) (N_of_byte_bound c))
      as (H1 & H2 & H3 & H4).
    url_sextet_facts. cbn [base64_strict].
    repeat match goal with E : base64_value _ = _ |- _ => rewrite E; clear E end. cbn [mbind option_bind].
    rewrite IH. cbn [mbind option_bind].
    by rewrite byte1_sextets, byte2_sextets, byte3_sextets, !byte_of_N_of_byte by apply N_of_byte_bound.
Qed.

Lemma base64_encode_bytes s : forallb base64_byte (string_to_bytes (base64_encode s)) = true.
Proof.
  induction s as [|a|a b|a b c s IH] using string_ind3; rewrite base64_encode_eq; [done|..].
  - pose proof (sextet_bounds (N_of_byte a) 0 0 (N_of_byte_bound a)) as (H1 & H2 & _); [lia..|].
    url_sextet_facts. cbn [string_to_bytes forallb]. by rewrite !andb_true_iff.
  - pose proof (sextet_bounds (N_of_byte a) (N_of_byte b) 0 (N_of_byte_bound a) (N_of_byte_bound b))
      as (H1 & H2 & H3 & _); [lia|].
    url_sextet_facts. cbn [string_to_bytes forallb]. by rewrite !andb_true_iff.
  - pose proof (sextet_bounds _ _ _ (N_of_byte_bound a) (N_of_byte_bound b) (N_of_byte_bound c))
      as (H1 & H2 & H3 & H4).
    url_sextet_facts. cbn [string_to_bytes forallb]. by rewrite !andb_true_iff.
Qed.

Lemma base64_byte_plain c :
  base64_byte c = true → plain_byte c = true ∧ (Ascii.eqb c "010" || Ascii.eqb c "013") = false ∧
  (token_alnum false c = true ∨ token_punct false c = true).
Proof. destruct c as [[] [] [] [] [] [] [] []]; vm_compute; intuition congruence. Qed.

Lemma strip_newlines_url s : forallb base64_byte (string_to_bytes s) = true → strip_newlines s = s.
Proof.
  induction s as [|c s IH]; [done|]. cbn [string_to_bytes forallb strip_newlines].
  intros [(_ & -> & _)%base64_byte_plain Hs]%andb_prop. by rewrite IH.
Qed.

Lemma base64_decode_encode s : base64_decode (base64_encode s) = Some s.
Proof. unfold base64_decode. by rewrite strip_newlines_url, base64_strict_encode by apply base64_encode_bytes. Qed.

Lemma base64_encode_inj s t : base64_encode s = base64_encode t → s = t.
Proof. intros E. pose proof (base64_decode_encode s) as H. rewrite E, base64_decode_encode in H. by injection H. Qed.

Lemma base64_encode_plain s : forallb plain_byte (string_to_bytes (base64_encode s)) = true.
Proof.
  pose proof (base64_encode_bytes s) as H. rewrite forallb_forall in *. intros c Hc. by apply base64_byte_plain, H.
Qed.

Lemma base64_encode_length s : slen (base64_encode s) = ((4 * slen s + 2) / 3)%Z.
Proof.
  unfold slen. induction s as [|a|a b|a b c s IH] using string_ind3; [done..|].
  rewrite base64_encode_eq. cbn [String.length]. rewrite !Nat2Z.inj_succ, IH.
  replace (4 * Z.succ (Z.succ (Z.succ (Z.of_nat (String.length s)))) + 2)%Z
    with (4 * Z.of_nat (String.length s) + 2 + 4 * 3)%Z by lia.
  rewrite Z.div_add by done. lia.
Qed.

(** The last character of an encoding whose length is not a multiple of three is a
    letter or a digit: its spare bits are zero. *)
Lemma base64_last_alnum s c :
  (String.length s mod 3 ≠ 0)%nat → token_alnum false (last_byte c (base64_encode s)) = true.
Proof.
  revert c. induction s as [|a|a b|a b c' s IH] using string_ind3; intros c; rewrite base64_encode_eq; [done|..].
  - intros _. cbn [last_byte]. apply url_sextet_ok; unfold sextet2; pose proof (N_of_byte_bound a); div_lia.
  - intros _. cbn [last_byte]. apply url_sextet_ok; unfold sextet3; pose proof (N_of_byte_bound b); div_lia.
  - intros H. cbn [last_byte]. apply IH. intros E. apply H. cbn [String.length].
    replace (S (S (S (String.length s)))) with (String.length s + 1 * 3)%nat by lia. by rewrite Nat.Div0.mod_add.
Qed.

(** A prefix that starts with a letter and such an encoding make a token. *)
Lemma base64_token p c s maximum field :
  (String.length s mod 3 ≠ 0)%nat → token_alnum false c = true →
  Forall (λ c, token_alnum false c = true ∨ token_punct false c = true) (string_to_bytes p) →
  (slen (String c (p +:+ base64_encode s)) <= maximum)%Z →
  validateToken field (String c (p +:+ base64_encode s)) maximum false = Ok ().
Proof.
  intros Hlen Hc Hp Hmax. unfold validateToken. rewrite (proj2 (Z.ltb_ge _ _) Hmax). cbn [fail_if mbind result_bind].
  assert (∀ q, last_byte c (q +:+ base64_encode s) = last_byte (last_byte c q) (base64_encode s)) as Hlast.
  { clear. intros q. revert c. induction q as [|x q IH]; intros c; [done|]. cbn. apply IH. }
  rewrite Hlast, base64_last_alnum by done.
  assert (token_scan false 0 (String c (p +:+ base64_encode s)) = true) as ->; [|done].
  cbn [token_scan]. rewrite Hc. cbn [orb andb]. apply token_scan_pos; [lia|].
  rewrite string_to_bytes_app. apply Forall_app. split; [done|].
  pose proof (base64_encode_bytes s) as Hb. rewrite forallb_forall in Hb. apply Forall_forall.
  intros x Hx%list_elem_of_In. by apply base64_byte_plain, Hb.
Qed.
