(* ===== verification/Journal.v ===== *)
(** The agent terminal's journal (internal/agency/client/journal.go): its value, its
    one canonical encoding, the candidates captured under it and the operation keys
    derived from it. *)

From Stdlib Require Import Lia.
From S2P Require Import Prelude Utf8 Json Wire Sha256 Time Value Intent Bound Event Base64.

#[local] Open Scope Z_scope.

Definition journalSchema : string := "mnemon.agency.client-journal".
Definition journalVersion : Z := 2.
Definition journalCredentialBytes : Z := 32.
Definition maxJournalBytes : Z := Z.shiftl 32 10.
Definition currentOperationEntropy : nat := 32.
Definition admissionOperationPrefix : string := "admit:".
Definition currentOperationPrefix : string := "current:".
Definition operationDerivationDomain : string := "mnemon/r7/agency-cli/admission-operation/v1".
Definition currentProjectionEmpty : string := "empty".
Definition currentProjectionSubject : string := "subject".

Definition errCandidateNotCaptured : error := Sentinel "Intent names an uncaptured Artifact candidate".
Definition errCandidateRepeated : error := Sentinel "Intent repeats an Artifact candidate".

(** ** Values *)

Record attachment := { at_ID : string; at_Credential : string; at_ExpiresAt : Time }.
#[export] Instance attachment_eq_dec : EqDecision attachment.
Proof. solve_decision. Defined.

Record capturedBinding := { cb_Handle : OpaqueHandle; cb_Digest : Digest }.
#[export] Instance capturedBinding_eq_dec : EqDecision capturedBinding.
Proof. solve_decision. Defined.

(** [clientJournal] without the file it was read from. *)
Record journal := {
  cj_Attachment : attachment;
  cj_BoundaryDigest : Digest;
  cj_CurrentOperation : OperationKey;
  cj_CurrentProjection : string;
  cj_Candidates : list capturedBinding;
}.
#[export] Instance journal_eq_dec : EqDecision journal.
Proof. solve_decision. Defined.

Record clientJournal := { cj_journal :> journal; cj_fileName : string; cj_fileDigest : Digest }.

Record candidateBinding := { cnb_Handle : string; cnb_Digest : string }.
Record artifactCapture := { ac_Handle : string; ac_Digest : string; ac_ByteSize : Z }.

(** ** Wire form *)

Record journalCandidateWire := { jcw_Handle : string; jcw_Digest : string }.
#[export] Instance journalCandidateWire_codec : Codec journalCandidateWire := {
  enc w := struct [field "handle" w.(jcw_Handle); field "digest" w.(jcw_Digest)];
  dec_value j :=
    ms ← members_of ["handle"; "digest"] j;
    handle ← get "handle" ms; digest ← get "digest" ms;
    Ok {| jcw_Handle := handle; jcw_Digest := digest |};
  zero := {| jcw_Handle := ""; jcw_Digest := "" |};
  empty _ := false;
  enc_ok w := enc_ok w.(jcw_Handle) ∧ enc_ok w.(jcw_Digest);
}.
#[export] Instance journalCandidateWire_laws : CodecLaws journalCandidateWire.
Proof. solve_struct. Qed.

Record journalWire := {
  jw_Schema : string; jw_Version : Z; jw_Attachment : string; jw_BoundaryDigest : string;
  jw_Credential : string; jw_ExpiresAt : string; jw_CurrentOperation : string;
  jw_CurrentProjection : string; jw_Candidates : list journalCandidateWire;
}.

Definition journal_fields : list string :=
  ["schema"; "version"; "attachment"; "boundary_digest"; "credential"; "expires_at";
   "current_operation"; "current_projection"; "candidates"].

#[export] Instance journalWire_codec : Codec journalWire := {
  enc w := struct [
    field "schema" w.(jw_Schema); @field Z int_codec "version" w.(jw_Version);
    field "attachment" w.(jw_Attachment); field "boundary_digest" w.(jw_BoundaryDigest);
    field "credential" w.(jw_Credential); field "expires_at" w.(jw_ExpiresAt);
    omitempty "current_operation" w.(jw_CurrentOperation);
    omitempty "current_projection" w.(jw_CurrentProjection);
    omitempty "candidates" w.(jw_Candidates)];
  dec_value j :=
    ms ← members_of journal_fields j;
    schema ← get "schema" ms; version ← @get Z int_codec "version" ms;
    attachment ← get "attachment" ms; boundary ← get "boundary_digest" ms;
    credential ← get "credential" ms; expires ← get "expires_at" ms;
    operation ← get "current_operation" ms; projection ← get "current_projection" ms;
    candidates ← get "candidates" ms;
    Ok {| jw_Schema := schema; jw_Version := version; jw_Attachment := attachment;
          jw_BoundaryDigest := boundary; jw_Credential := credential; jw_ExpiresAt := expires;
          jw_CurrentOperation := operation; jw_CurrentProjection := projection;
          jw_Candidates := candidates |};
  zero := {| jw_Schema := ""; jw_Version := 0; jw_Attachment := ""; jw_BoundaryDigest := "";
    jw_Credential := ""; jw_ExpiresAt := ""; jw_CurrentOperation := ""; jw_CurrentProjection := "";
    jw_Candidates := [] |};
  empty _ := false;
  enc_ok w := enc_ok w.(jw_Schema) ∧ @enc_ok Z int_codec w.(jw_Version) ∧ enc_ok w.(jw_Attachment) ∧
    enc_ok w.(jw_BoundaryDigest) ∧ enc_ok w.(jw_Credential) ∧ enc_ok w.(jw_ExpiresAt) ∧
    enc_ok w.(jw_CurrentOperation) ∧ enc_ok w.(jw_CurrentProjection) ∧ enc_ok w.(jw_Candidates);
}.
#[export] Instance journalWire_laws : CodecLaws journalWire.
Proof. solve_struct. Qed.

(** ** Validation and encoding *)

(** Strictly increasing handles after [previous]; [candidate.Handle.String() <= previous]
    compares bytes. *)
Fixpoint valid_candidates (previous : string) (candidates : list capturedBinding) : bool :=
  match candidates with
  | [] => true
  | c :: candidates =>
      negb (IsZero c.(cb_Handle) || Digest_IsZero c.(cb_Digest) || bool_decide (String.le c.(cb_Handle) previous)) &&
      valid_candidates c.(cb_Handle) candidates
  end.

Definition journal_validate (j : journal) : result () :=
  _ ← fail_if (negb (is_ok (NewAttachmentID j.(cj_Attachment).(at_ID))) ||
               negb (slen j.(cj_Attachment).(at_Credential) =? journalCredentialBytes) ||
               (j.(cj_Attachment).(at_ExpiresAt) =? zero_time) || Digest_IsZero j.(cj_BoundaryDigest))
        (Errorf "R7 client journal attachment is invalid");
  _ ← fail_if (negb (IsZero j.(cj_CurrentOperation)) &&
               negb (is_some (strip_prefix currentOperationPrefix j.(cj_CurrentOperation))))
        (Errorf "R7 client journal Current operation is invalid");
  _ ← fail_if (negb (is_empty j.(cj_CurrentProjection)) && IsZero j.(cj_CurrentOperation))
        (Errorf "R7 client journal Current projection has no operation");
  _ ← fail_if (negb (is_empty j.(cj_CurrentProjection)) &&
               negb (String.eqb j.(cj_CurrentProjection) currentProjectionEmpty) &&
               negb (String.eqb j.(cj_CurrentProjection) currentProjectionSubject))
        (Errorf "R7 client journal Current projection is invalid");
  _ ← fail_if (MaxArtifactInputs <? Z.of_nat (length j.(cj_Candidates)))
        (Errorf "R7 client journal candidate bound is exceeded");
  fail_if (negb (valid_candidates "" j.(cj_Candidates))) (Errorf "R7 client journal candidate set is invalid").

Definition newClientJournal (value : attachment) (boundary : Digest) : result journal :=
  let j := {| cj_Attachment := value; cj_BoundaryDigest := boundary; cj_CurrentOperation := "";
              cj_CurrentProjection := ""; cj_Candidates := [] |} in
  _ ← journal_validate j;
  Ok j.

Definition candidate_wire (c : capturedBinding) : journalCandidateWire :=
  {| jcw_Handle := c.(cb_Handle); jcw_Digest := Digest_String c.(cb_Digest) |}.

Definition journal_wire (j : journal) : journalWire := {|
  jw_Schema := journalSchema; jw_Version := journalVersion; jw_Attachment := j.(cj_Attachment).(at_ID);
  jw_BoundaryDigest := Digest_String j.(cj_BoundaryDigest);
  jw_Credential := base64_encode j.(cj_Attachment).(at_Credential);
  jw_ExpiresAt := format_time j.(cj_Attachment).(at_ExpiresAt);
  jw_CurrentOperation := j.(cj_CurrentOperation); jw_CurrentProjection := j.(cj_CurrentProjection);
  jw_Candidates := map candidate_wire j.(cj_Candidates) |}.

Definition newline : string := String "010" "".

Definition journal_canonical (j : journal) : result string :=
  _ ← journal_validate j;
  let raw := canonical_bytes (journal_wire j) in
  _ ← fail_if (maxJournalBytes <? slen raw) (Errorf "R7 client journal cannot be encoded");
  Ok (raw +:+ newline).

(** ** Decoding *)

Definition decodeJournalWire (raw : string) : result journalWire :=
  '(wire, rest) ← or_error ('(v, rest) ← parse_first None raw; w ← dec v; Ok (w, rest))
    (Errorf "R7 client journal has invalid fields");
  _ ← fail_if (negb (is_empty (skip_ws rest))) (Errorf "R7 client journal contains a trailing value");
  _ ← fail_if (negb (String.eqb wire.(jw_Schema) journalSchema) || negb (wire.(jw_Version) =? journalVersion))
        (Errorf "R7 client journal schema is unsupported");
  Ok wire.

Definition candidate_from_wire (c : journalCandidateWire) : result capturedBinding :=
  let corrupt := Errorf "R7 client journal candidate is corrupt" in
  handle ← or_error (NewOpaqueHandle c.(jcw_Handle)) corrupt;
  digest ← or_error (ParseDigest c.(jcw_Digest)) corrupt;
  Ok {| cb_Handle := handle; cb_Digest := digest |}.

Definition journalFromWire (wire : journalWire) : result journal :=
  let corrupt := Errorf "R7 client journal attachment is corrupt" in
  attachmentID ← or_error (NewAttachmentID wire.(jw_Attachment)) corrupt;
  boundary ← or_error (ParseDigest wire.(jw_BoundaryDigest)) corrupt;
  credential ← of_option (base64_decode wire.(jw_Credential)) corrupt;
  expires ← of_option (parse_time wire.(jw_ExpiresAt)) corrupt;
  _ ← fail_if (Digest_IsZero boundary || negb (slen credential =? journalCredentialBytes) ||
               negb (String.eqb wire.(jw_ExpiresAt) (format_time expires))) corrupt;
  operation ← (if is_empty wire.(jw_CurrentOperation) then Ok ""
               else or_error (NewOperationKey wire.(jw_CurrentOperation))
                      (Errorf "R7 client journal Current operation is corrupt"));
  candidates ← mapR candidate_from_wire wire.(jw_Candidates);
  let j := {| cj_Attachment := {| at_ID := attachmentID; at_Credential := credential; at_ExpiresAt := expires |};
              cj_BoundaryDigest := boundary; cj_CurrentOperation := operation;
              cj_CurrentProjection := wire.(jw_CurrentProjection); cj_Candidates := candidates |} in
  _ ← journal_validate j;
  Ok j.

Definition parseClientJournal (raw : string) : result (journal * Digest) :=
  _ ← fail_if ((slen raw <? 3) || (maxJournalBytes <? slen raw) ||
               negb (String.eqb (String.substring (String.length raw - 1) 1 raw) newline))
        (Errorf "R7 client journal has invalid framing");
  wire ← decodeJournalWire (String.substring 0 (String.length raw - 1) raw);
  j ← journalFromWire wire;
  let noncanonical := Errorf "R7 client journal is not canonical" in
  canonical ← or_error (journal_canonical j) noncanonical;
  _ ← fail_if (negb (String.eqb canonical raw)) noncanonical;
  Ok (j, Sum raw).

(** ** Candidates *)

Definition with_candidates (j : journal) (candidates : list capturedBinding) : journal := {|
  cj_Attachment := j.(cj_Attachment); cj_BoundaryDigest := j.(cj_BoundaryDigest);
  cj_CurrentOperation := j.(cj_CurrentOperation); cj_CurrentProjection := j.(cj_CurrentProjection);
  cj_Candidates := candidates |}.

Definition find_candidate (handle : string) (candidates : list capturedBinding) : option capturedBinding :=
  List.find (λ c, String.eqb c.(cb_Handle) handle) candidates.

Definition addCandidate (j : journal) (capture : artifactCapture) : result journal :=
  let broken := Errorf "R7 captured candidate is invalid" in
  handle ← or_error (NewOpaqueHandle capture.(ac_Handle)) broken;
  digest ← or_error (ParseDigest capture.(ac_Digest)) broken;
  match find_candidate handle j.(cj_Candidates) with
  | Some c =>
      _ ← fail_if (negb (bool_decide (c.(cb_Digest) = digest)))
            (Errorf "R7 captured candidate handle changed digest");
      Ok j
  | None =>
      _ ← fail_if (MaxArtifactInputs <=? Z.of_nat (length j.(cj_Candidates)))
            (Errorf "R7 captured candidate bound is exceeded");
      let j' := with_candidates j
        (sort_by cb_Handle (j.(cj_Candidates) ++ [{| cb_Handle := handle; cb_Digest := digest |}])) in
      _ ← journal_validate j';
      Ok j'
  end.

Fixpoint bind_candidates (candidates : list capturedBinding) (seen : list string) (inputs : list ArtifactInput)
    : result (list candidateBinding) :=
  match inputs with
  | [] => Ok []
  | input :: inputs =>
      if negb (bool_decide (input.(ain_kind) = ArtifactInputCandidate)) then bind_candidates candidates seen inputs
      else
        c ← of_option (find_candidate input.(ain_handle) candidates) errCandidateNotCaptured;
        _ ← fail_if (bool_decide (input.(ain_handle) ∈ seen)) errCandidateRepeated;
        rest ← bind_candidates candidates (input.(ain_handle) :: seen) inputs;
        Ok ({| cnb_Handle := input.(ain_handle); cnb_Digest := Digest_String c.(cb_Digest) |} :: rest)
  end.

Definition bindCandidates (j : journal) (intent : AgentIntent) : result (list candidateBinding) :=
  bind_candidates j.(cj_Candidates) [] intent.(ai_artifacts).

(** ** Operation keys *)

Definition newCurrentOperation (entropy : result string) : result OperationKey :=
  entropy ← wrap_error "generate R7 Current operation" entropy;
  NewOperationKey (currentOperationPrefix +:+ base64_encode entropy).

(** A big-endian 8-byte length, then the bytes. *)
Fixpoint be_length (k : nat) (n : Z) : string :=
  match k with
  | O => ""
  | S k => String (byte_of_N (Z.to_N ((n / 256 ^ Z.of_nat k) mod 256))) (be_length k n)
  end.
Definition writeOperationPart (value : string) : string := be_length 8 (slen value) +:+ value.

Fixpoint operation_candidates (candidates : list candidateBinding) : result string :=
  match candidates with
  | [] => Ok ""
  | c :: candidates =>
      let broken := Errorf "derive R7 admission operation: candidate is invalid" in
      handle ← or_error (NewOpaqueHandle c.(cnb_Handle)) broken;
      digest ← or_error (ParseDigest c.(cnb_Digest)) broken;
      rest ← operation_candidates candidates;
      Ok (writeOperationPart handle +:+ writeOperationPart digest +:+ rest)
  end.

Definition deriveAdmissionOperation (current : OperationKey) (intent : AgentIntent)
    (candidates : list candidateBinding) : result OperationKey :=
  _ ← fail_if (IsZero current || is_empty intent.(ai_canonical) ||
               (MaxArtifactInputs <? Z.of_nat (length candidates)))
        (Errorf "derive R7 admission operation: inputs are invalid");
  parts ← operation_candidates candidates;
  let digest := Sum (writeOperationPart operationDerivationDomain +:+ writeOperationPart current +:+
                     writeOperationPart intent.(ai_canonical) +:+ parts) in
  NewOperationKey (admissionOperationPrefix +:+ base64_encode digest).

(** ** The journal text *)

(** An instant whose RFC 3339 text reads back. *)
Definition time_text_ok (t : Time) : Prop := t ≠ zero_time ∧ parse_time (format_time t) = Some t.

Lemma read_digits_plain k acc s v rest :
  read_digits k acc s = Some (v, rest) →
  ∃ ds, s = ds +:+ rest ∧ String.length ds = k ∧ forallb plain_byte (string_to_bytes ds) = true.
Proof.
  revert acc s. induction k as [|k IH]; intros acc s; cbn [read_digits]; [intros [= _ <-]; by exists ""|].
  destruct s as [|c s]; [done|]. destruct (is_digit c) eqn:Hc; [|done].
  intros (ds & -> & <- & Hp)%IH. exists (String c ds). split_and!; [done|done|].
  cbn [string_to_bytes forallb]. rewrite Hp. apply is_digit_inv in Hc. by destruct_or! Hc; subst.
Qed.

Lemma span_digits_plain s ds rest :
  span_digits s = (ds, rest) → s = ds +:+ rest ∧ forallb plain_byte (string_to_bytes ds) = true.
Proof.
  revert ds rest. induction s as [|c s IH]; intros ds rest; cbn [span_digits]; [by intros [= <- <-]|].
  destruct (is_digit c) eqn:Hc; [|by intros [= <- <-]]. destruct (span_digits s) as [ds' rest'] eqn:E.
  intros [= <- <-]. destruct (IH _ _ eq_refl) as [-> Hp]. split; [done|].
  cbn [string_to_bytes forallb]. rewrite Hp. apply is_digit_inv in Hc. by destruct_or! Hc; subst.
Qed.

(** What the time parser accepts is short plain text. *)
Lemma parse_time_plain s t :
  parse_time s = Some t → forallb plain_byte (string_to_bytes s) = true ∧ slen s <= 30.
Proof.
  with_strategy transparent [parse_time] unfold parse_time. intros H.
  repeat match type of H with
  | (read_digits ?k ?a ?s ≫= _) = Some _ =>
      let E := fresh "E" in destruct (read_digits k a s) as [[? ?]|] eqn:E; [|done]; cbn [mbind option_bind] in H;
      apply read_digits_plain in E as (? & -> & ? & ?)
  | (strip_prefix ?p ?s ≫= _) = Some _ =>
      let E := fresh "E" in destruct (strip_prefix p s) as [?|] eqn:E; [|done]; cbn [mbind option_bind] in H;
      apply strip_prefix_Some in E as ->
  end.
  destruct (parse_fraction _) as [[ns rest]|] eqn:Ef; [|done]. cbn [mbind option_bind] in H.
  match type of H with (if ?c then _ else _) = _ => destruct c eqn:Hc; [|done] end. clear H.
  apply andb_prop in Hc as [_ Hz%String.eqb_eq]. subst rest.
  match type of Ef with parse_fraction ?f = _ =>
    assert (forallb plain_byte (string_to_bytes f) = true ∧ slen f <= 11) as [Hf Hl] end.
  { unfold parse_fraction in Ef. destruct (strip_prefix "." _) as [tl|] eqn:Ep.
    - apply strip_prefix_Some in Ep as ->. destruct (span_digits tl) as [ds r] eqn:Es.
      destruct (is_empty ds || (9 <? String.length ds)%nat) eqn:Eb; [done|].
      apply orb_false_iff in Eb as [_ Hn%Nat.ltb_ge].
      destruct (read_digits 9 0 _) as [[? ?]|]; [|done]. injection Ef as _ ->.
      apply span_digits_plain in Es as [-> Hp]. rewrite !string_to_bytes_app, !forallb_app, Hp. split; [done|].
      unfold slen. rewrite !string_length_app. cbn. lia.
    - injection Ef as _ E. rewrite E. split; [done|]. vm_compute. discriminate. }
  rewrite !string_to_bytes_app, !forallb_app, Hf.
  repeat match goal with H : forallb plain_byte _ = true |- _ => rewrite H; clear H end. split; [done|].
  unfold slen in *. rewrite !string_length_app. cbn [String.length]. lia.
Qed.

Record attachment_ok (a : attachment) : Prop := {
  ao_id : handle_ok a.(at_ID) = true;
  ao_credential : String.length a.(at_Credential) = 32%nat;
  ao_expires : time_text_ok a.(at_ExpiresAt);
}.

Record journal_ok (j : journal) : Prop := {
  jo_attachment : attachment_ok j.(cj_Attachment);
  jo_boundary : digest_ok j.(cj_BoundaryDigest);
  jo_operation : j.(cj_CurrentOperation) = "" ∨
    handle_ok j.(cj_CurrentOperation) = true ∧ is_some (strip_prefix currentOperationPrefix j.(cj_CurrentOperation)) = true;
  jo_projection : j.(cj_CurrentProjection) = "" ∨
    (j.(cj_CurrentProjection) = currentProjectionEmpty ∨ j.(cj_CurrentProjection) = currentProjectionSubject) ∧
    j.(cj_CurrentOperation) ≠ "";
  jo_count : Z.of_nat (length j.(cj_Candidates)) <= MaxArtifactInputs;
  jo_candidates : Forall (λ c, handle_ok c.(cb_Handle) = true ∧ digest_ok c.(cb_Digest)) j.(cj_Candidates);
  jo_sorted : valid_candidates "" j.(cj_Candidates) = true;
}.

Lemma journal_validate_ok j : journal_ok j → journal_validate j = Ok ().
Proof.
  intros [[Hid Hcr [Hne _]] [_ Hz] Hop Hpr Hn _ Hs]. unfold journal_validate.
  rewrite (proj2 (newIdentifier_Ok "AttachmentID" _ _) (conj eq_refl Hid) : NewAttachmentID _ = _), Hz.
  unfold slen. rewrite Hcr, (proj2 (Z.eqb_neq _ _) Hne), (proj2 (Z.ltb_ge _ _) Hn), Hs.
  destruct Hop as [E|[Ho Hpf]].
  - destruct Hpr as [Ep|[_ Hne']]; [|done]. rewrite E, Ep. done.
  - rewrite Hpf. assert (IsZero j.(cj_CurrentOperation) = false) as -> by (apply is_empty_false; by eapply token_ok_nonempty).
    destruct Hpr as [-> |[[-> | ->] _]]; done.
Qed.

Lemma journal_validate_Ok j : journal_validate j = Ok () →
  handle_ok j.(cj_Attachment).(at_ID) = true ∧ String.length j.(cj_Attachment).(at_Credential) = 32%nat ∧
  j.(cj_Attachment).(at_ExpiresAt) ≠ zero_time ∧ Digest_IsZero j.(cj_BoundaryDigest) = false ∧
  (j.(cj_CurrentOperation) = "" ∨ is_some (strip_prefix currentOperationPrefix j.(cj_CurrentOperation)) = true) ∧
  (j.(cj_CurrentProjection) = "" ∨
    (j.(cj_CurrentProjection) = currentProjectionEmpty ∨ j.(cj_CurrentProjection) = currentProjectionSubject) ∧
    j.(cj_CurrentOperation) ≠ "") ∧
  Z.of_nat (length j.(cj_Candidates)) <= MaxArtifactInputs ∧ valid_candidates "" j.(cj_Candidates) = true.
Proof.
  unfold journal_validate. intros H. apply bind_Ok in H as ([] & Ha%fail_if_Ok & H).
  apply bind_Ok in H as ([] & Ho%fail_if_Ok & H). apply bind_Ok in H as ([] & Hp%fail_if_Ok & H).
  apply bind_Ok in H as ([] & Hq%fail_if_Ok & H). apply bind_Ok in H as ([] & Hn%fail_if_Ok & Hs%fail_if_Ok).
  apply orb_false_iff in Ha as [[[Hid%negb_false_iff Hc%negb_false_iff%Z.eqb_eq]%orb_false_iff Ht%Z.eqb_neq]%orb_false_iff Hz].
  split_and!; try done.
  - destruct (NewAttachmentID _) as [x|] eqn:E; [|done]. by apply newIdentifier_Ok in E as [_ ?].
  - unfold slen, journalCredentialBytes in Hc. lia.
  - apply andb_false_iff in Ho as [Ho%negb_false_iff|Ho%negb_false_iff]; [left; by apply is_empty_true|by right].
  - destruct (is_empty (cj_CurrentProjection j)) eqn:E; [left; by apply is_empty_true|]. right. cbn [negb andb] in *.
    split; [|by apply is_empty_false]. apply andb_false_iff in Hq as [Hq%negb_false_iff|Hq%negb_false_iff]; apply String.eqb_eq in Hq; auto.
  - by apply Z.ltb_ge.
  - by apply negb_false_iff.
Qed.

Lemma valid_candidates_nonzero p cs :
  valid_candidates p cs = true → Forall (λ c, Digest_IsZero c.(cb_Digest) = false) cs.
Proof.
  revert p. induction cs as [|c cs IH]; intros p; cbn [valid_candidates]; [constructor|].
  intros [[[_ Hz]%orb_false_iff _]%negb_true_iff%orb_false_iff Hr]%andb_prop. constructor; eauto.
Qed.

Lemma candidate_wire_length c :
  handle_ok c.(cb_Handle) = true → digest_ok c.(cb_Digest) → slen (marshal (enc (candidate_wire c))) <= 292.
Proof.
  intros Hh [Hd _]. change (enc (candidate_wire c))
    with (struct [field "handle" c.(cb_Handle); field "digest" (Digest_String c.(cb_Digest))]).
  etransitivity; [apply struct_length|]. cbn [map field enc string_codec foldr member_size fst snd].
  change (marshal (JStr (cb_Handle c))) with (marshal_string (cb_Handle c)).
  change (marshal (JStr (Digest_String (cb_Digest c)))) with (marshal_string (Digest_String (cb_Digest c))).
  rewrite Digest_String_length by done. pose proof (marshal_token_length _ _ _ Hh). unfold MaxOpaqueHandleBytes in *.
  change (slen (marshal_string "handle")) with 8. change (slen (marshal_string "digest")) with 8. lia.
Qed.

Lemma candidates_length cs n :
  Forall (λ c, handle_ok c.(cb_Handle) = true ∧ digest_ok c.(cb_Digest)) cs → Z.of_nat (length cs) <= n → 0 <= n →
  member_size (omitempty "candidates" (map candidate_wire cs)) <= 20 + 293 * n.
Proof.
  intros Hc Hn H0. assert (slen (marshal (enc (map candidate_wire cs))) <= 2 + 293 * Z.of_nat (length cs)) as Hl.
  { cbn [enc list_codec marshal]. unfold slen at 1. cbn [String.length]. rewrite string_length_app.
    pose proof (join_comma_app_length (map marshal (map enc (map candidate_wire cs)))) as Hj. rewrite !map_map in *.
    unfold slen at 1 in Hj. cbn [String.length].
    enough (foldr Z.add 0 (map (λ x, slen (marshal (enc (candidate_wire x))) + 1) cs) <= 293 * Z.of_nat (length cs)) by lia.
    clear - Hc. induction Hc as [|x l [Hh Hd] _ IH]; cbn [map foldr length]; [lia|].
    pose proof (candidate_wire_length x Hh Hd). lia. }
  unfold member_size, omitempty. cbn [fst snd]. change (slen (marshal_string "candidates")) with 12.
  destruct (empty _); lia.
Qed.

Lemma optional_token_length k s :
  s = "" ∨ handle_ok s = true → member_size (omitempty k s) <= slen (marshal_string k) + 196.
Proof.
  intros Hs. pose proof (omitempty_string_size k s). destruct Hs as [-> |Hs].
  - change (slen (marshal_string "")) with 2 in *. lia.
  - pose proof (marshal_token_length _ _ _ Hs). unfold MaxOpaqueHandleBytes in *. lia.
Qed.

(** Every journal fits the bound its reader has. *)
Lemma journal_size j : journal_ok j → slen (canonical_bytes (journal_wire j)) <= 4096.
Proof.
  intros [[Hid Hcr Ht] [Hd _] Hop Hpr Hn Hc _]. unfold canonical_bytes.
  match goal with |- context [marshal (enc ?w)] =>
    let e := eval cbn -[struct field omitempty journal_wire] in (enc w) in change (enc w) with e end.
  etransitivity; [apply struct_length|].
  cbn [map field enc string_codec int_codec int_codec_of journal_wire jw_Schema jw_Version jw_Attachment
    jw_BoundaryDigest jw_Credential jw_ExpiresAt jw_CurrentOperation jw_CurrentProjection jw_Candidates foldr].
  pose proof (candidates_length (cj_Candidates j) 8 Hc) as Lc. unfold MaxArtifactInputs in Hn.
  pose proof (optional_token_length "current_operation" (cj_CurrentOperation j)) as Lo.
  pose proof (omitempty_string_size "current_projection" (cj_CurrentProjection j)) as Lp.
  change (slen (marshal_string "current_operation")) with 19 in Lo.
  change (slen (marshal_string "current_projection")) with 20 in Lp.
  assert (slen (marshal_string (cj_CurrentProjection j)) <= 9) as Lp'.
  { destruct Hpr as [-> |[[-> | ->] _]]; vm_compute; discriminate. }
  unfold member_size at 1 2 3 4 5 6, field. cbn [fst snd enc string_codec int_codec int_codec_of].
  assert (∀ s, marshal (JStr s) = marshal_string s) as Estr by done. rewrite !Estr.
  pose proof (marshal_token_length _ _ _ Hid) as Li. unfold MaxOpaqueHandleBytes in Li.
  rewrite (Digest_String_length _ Hd). destruct (parse_time_plain _ _ (proj2 Ht)) as [Pt Lt].
  pose proof (marshal_string_length (format_time (at_ExpiresAt (cj_Attachment j)))) as Mt. rewrite escape_plain in Mt by done.
  assert (slen (marshal_string (base64_encode (at_Credential (cj_Attachment j)))) = 45) as Lb.
  { rewrite marshal_string_length, escape_plain by apply base64_encode_plain. rewrite base64_encode_length.
    unfold slen. rewrite Hcr. reflexivity. }
  repeat match goal with |- context [slen (marshal_string ?k)] =>
    lazymatch k with
    | at_ID _ => fail | format_time _ => fail | base64_encode _ => fail | _ =>
      let n := eval vm_compute in (slen (marshal_string k)) in change (slen (marshal_string k)) with n
    end end.
  change (slen (marshal (enc_Z journalVersion))) with 1. rewrite Lb.
  assert (member_size (omitempty "current_operation" (cj_CurrentOperation j)) <= 215) by (apply Lo; tauto).
  specialize (Lc Hn ltac:(lia)). lia.
Qed.

Lemma journal_wire_ok j : journal_ok j → enc_ok (journal_wire j).
Proof.
  intros [[Hid Hcr [_ Ht]] [Hd _] Hop Hpr _ Hc _].
  cbn [enc_ok journalWire_codec journal_wire jw_Schema jw_Version jw_Attachment jw_BoundaryDigest jw_Credential
    jw_ExpiresAt jw_CurrentOperation jw_CurrentProjection jw_Candidates string_codec int_codec int_codec_of].
  split_and!; try done.
  - by eapply token_ok_utf8.
  - apply Digest_String_utf8.
  - apply plain_utf8, base64_encode_plain.
  - apply plain_utf8. by eapply parse_time_plain.
  - destruct Hop as [-> |[Ho _]]; [done|]. by eapply token_ok_utf8.
  - destruct Hpr as [-> |[[-> | ->] _]]; done.
  - cbn [enc_ok list_codec]. apply Forall_map. eapply Forall_impl; [exact Hc|]. intros c [Hh _]. cbn. split.
    + by eapply token_ok_utf8.
    + apply Digest_String_utf8.
Qed.

Lemma candidates_from_wire cs :
  Forall (λ c, handle_ok c.(cb_Handle) = true ∧ digest_ok c.(cb_Digest)) cs →
  mapR candidate_from_wire (map candidate_wire cs) = Ok cs.
Proof.
  intros Hc. apply mapR_inverse. eapply Forall_impl; [exact Hc|]. intros [h d] [Hh [Hw Hz]]. cbn in *.
  unfold candidate_from_wire. cbn [jcw_Handle jcw_Digest candidate_wire cb_Handle cb_Digest].
  rewrite (proj2 (NewOpaqueHandle_Ok _ _) (conj eq_refl Hh)). cbn [or_error mbind result_bind].
  by rewrite (ParseDigest_String _ Hw Hz).
Qed.

Lemma journalFromWire_wire j : journal_ok j → journalFromWire (journal_wire j) = Ok j.
Proof.
  intros Hok. pose proof (journal_validate_ok j Hok) as Hv. destruct Hok as [[Hid Hcr [Hne Ht]] [Hd Hz] Hop Hpr _ Hc _].
  unfold journalFromWire. cbn [journal_wire jw_Schema jw_Version jw_Attachment jw_BoundaryDigest jw_Credential
    jw_ExpiresAt jw_CurrentOperation jw_CurrentProjection jw_Candidates].
  rewrite (proj2 (newIdentifier_Ok "AttachmentID" _ _) (conj eq_refl Hid) : NewAttachmentID _ = _).
  rewrite (ParseDigest_String _ Hd Hz), base64_decode_encode, Ht. cbn [or_error of_option mbind result_bind].
  rewrite Hz, String.eqb_refl. unfold slen. rewrite Hcr. cbn [orb negb fail_if Z.of_nat Z.eqb journalCredentialBytes mbind result_bind].
  change (Z.of_nat 32 =? journalCredentialBytes) with true. cbn [negb orb fail_if mbind result_bind].
  rewrite (candidates_from_wire _ Hc).
  assert ((if is_empty (cj_CurrentOperation j) then Ok ""
    else or_error (NewOperationKey (cj_CurrentOperation j)) (Errorf "R7 client journal Current operation is corrupt"))
    = Ok (cj_CurrentOperation j)) as ->.
  { destruct Hop as [-> |[Ho _]]; [done|]. destruct (is_empty _) eqn:E; [by apply is_empty_true in E as ->|].
    by rewrite (proj2 (newIdentifier_Ok "operation key" _ _) (conj eq_refl Ho) : NewOperationKey _ = _). }
  cbn [mbind result_bind]. destruct j as [[? ? ?] ? ? ? ?]. cbn in *. by rewrite Hv.
Qed.

Lemma substring_app_l (a b : string) : String.substring 0 (String.length a) (a +:+ b) = a.
Proof.
  induction a as [|c a IH]; [by destruct b|]. change (String c (String.substring 0 (String.length a) (a +:+ b)) = String c a).
  by rewrite IH.
Qed.
Lemma substring_full (b : string) : String.substring 0 (String.length b) b = b.
Proof. induction b as [|x b IHb]; [done|]. cbn. by rewrite IHb. Qed.
Lemma substring_app_r (a b : string) : String.substring (String.length a) (String.length b) (a +:+ b) = b.
Proof.
  induction a as [|c a IH]; [apply substring_full|exact IH].
Qed.

Lemma substring_split k (s : string) :
  (k <= String.length s)%nat → s = String.substring 0 k s +:+ String.substring k (String.length s - k) s.
Proof.
  revert k. induction s as [|c s IH]; intros [|k] Hk; cbn in *; [done|lia| |].
  - change (String c s = String c (String.substring 0 (String.length s) s)). by rewrite substring_full.
  - change (String c s = String c (String.substring 0 k s +:+ String.substring k (String.length s - k) s)).
    f_equal. apply IH. lia.
Qed.

(** A journal reads back from its file, and nothing else is accepted for it. *)
Lemma journal_canonical_ok j :
  journal_ok j → journal_canonical j = Ok (canonical_bytes (journal_wire j) +:+ newline).
Proof.
  intros Hok. unfold journal_canonical. rewrite (journal_validate_ok j Hok). cbn [mbind result_bind].
  rewrite (proj2 (Z.ltb_ge _ _)); [done|]. pose proof (journal_size j Hok). unfold maxJournalBytes.
  change (Z.shiftl 32 10) with 32768. lia.
Qed.

Lemma decodeJournalWire_wire (w : journalWire) :
  enc_ok w → w.(jw_Schema) = journalSchema → w.(jw_Version) = journalVersion →
  decodeJournalWire (canonical_bytes w) = Ok w.
Proof.
  intros Hw Hs Hv. unfold decodeJournalWire. rewrite (canonical_bytes_parse None _ Hw). cbn [mbind result_bind].
  rewrite dec_enc by done. cbn [mbind result_bind or_error].
  replace (is_empty (skip_ws "")) with true by reflexivity. cbn [negb fail_if mbind result_bind].
  by rewrite Hs, Hv, String.eqb_refl, Z.eqb_refl.
Qed.

(** The framing of a text with a line end. *)
Lemma framed (body : string) :
  String.substring (String.length (body +:+ newline) - 1) 1 (body +:+ newline) = newline ∧
  String.substring 0 (String.length (body +:+ newline) - 1) (body +:+ newline) = body ∧
  slen (body +:+ newline) = slen body + 1.
Proof.
  assert (String.length (body +:+ newline) = (String.length body + 1)%nat) as El by apply string_length_app.
  unfold slen. rewrite El, Nat.add_sub. split_and!; [|apply substring_app_l|lia].
  apply (substring_app_r body newline).
Qed.

Lemma struct_nonempty fs : 2 <= slen (marshal (struct fs)).
Proof.
  unfold struct. cbn [marshal]. unfold slen. cbn [String.length]. rewrite string_length_app. cbn [String.length]. lia.
Qed.

Lemma parseClientJournal_canonical j raw :
  journal_ok j → journal_canonical j = Ok raw → parseClientJournal raw = Ok (j, Sum raw).
Proof.
  intros Hok Hc. pose proof Hc as Hraw. rewrite (journal_canonical_ok j Hok) in Hraw. apply (inj Ok) in Hraw.
  pose proof (journal_size j Hok) as Hs. pose proof (struct_nonempty _ : 2 <= slen (canonical_bytes (journal_wire j))) as H2.
  pose proof (decodeJournalWire_wire _ (journal_wire_ok j Hok) eq_refl eq_refl) as Hdec.
  destruct (framed (canonical_bytes (journal_wire j))) as (F1 & F2 & F3). rewrite Hraw in F1, F2, F3.
  unfold parseClientJournal. rewrite F1, F2, String.eqb_refl, Hdec.
  rewrite (proj2 (Z.ltb_ge _ _)) by lia. rewrite (proj2 (Z.ltb_ge maxJournalBytes _)).
  2:{ unfold maxJournalBytes. change (Z.shiftl 32 10) with 32768. lia. }
  cbn [negb orb fail_if mbind result_bind]. rewrite (journalFromWire_wire j Hok). cbn [mbind result_bind].
  rewrite Hc. cbn [or_error mbind result_bind]. by rewrite String.eqb_refl.
Qed.

Lemma candidate_from_wire_Ok w c :
  candidate_from_wire w = Ok c → handle_ok c.(cb_Handle) = true ∧ digest_ok c.(cb_Digest).
Proof.
  unfold candidate_from_wire. intros H. apply bind_Ok in H as (h & [-> Hh]%or_error_Ok%NewOpaqueHandle_Ok & H).
  apply bind_Ok in H as (d & (_ & Hw & Hz)%or_error_Ok%ParseDigest_Ok & H). apply (inj Ok) in H as <-. done.
Qed.

Lemma journalFromWire_Ok w j : journalFromWire w = Ok j → journal_ok j.
Proof.
  unfold journalFromWire. intros H. apply bind_Ok in H as (id & [-> Hid]%or_error_Ok%newIdentifier_Ok & H).
  apply bind_Ok in H as (b & (_ & Hb & Hbz)%or_error_Ok%ParseDigest_Ok & H).
  apply bind_Ok in H as (cr & _ & H). apply bind_Ok in H as (t & Ht%of_option_Ok & H).
  apply bind_Ok in H as ([] & Hg%fail_if_Ok & H). apply orb_false_iff in Hg as [_ Hg%negb_false_iff%String.eqb_eq].
  apply bind_Ok in H as (op & Hop & H). apply bind_Ok in H as (cs & Hcs & H). cbv zeta in H.
  apply bind_Ok in H as ([] & Hv & H). apply (inj Ok) in H as <-.
  apply journal_validate_Ok in Hv as (_ & Hcr & Hne & _ & Hpf & Hpr & Hn & Hs). cbn in *. split; cbn; try done.
  - split; cbn; [done|done|]. split; [done|]. by rewrite <- Hg.
  - destruct (is_empty (jw_CurrentOperation w)); [apply (inj Ok) in Hop as <-; by left|].
    apply or_error_Ok, newIdentifier_Ok in Hop as [-> Ho]. destruct Hpf as [E|Hpf]; [|by right]. rewrite E in Ho. done.
  - eapply mapR_Forall; [|exact Hcs]. intros w' c. apply candidate_from_wire_Ok.
Qed.

Lemma parseClientJournal_Ok raw j d :
  parseClientJournal raw = Ok (j, d) → journal_ok j ∧ journal_canonical j = Ok raw ∧ d = Sum raw.
Proof.
  unfold parseClientJournal. intros H. apply bind_Ok in H as ([] & _ & H). apply bind_Ok in H as (w & _ & H).
  apply bind_Ok in H as (j' & Hj & H). cbv zeta in H. apply bind_Ok in H as (c & Hc%or_error_Ok & H).
  apply bind_Ok in H as ([] & Hr%fail_if_Ok%negb_false_iff%String.eqb_eq & H). apply (inj Ok) in H. simplify_eq.
  split_and!; [by eapply journalFromWire_Ok|done|done].
Qed.

(** ** Keys *)

Lemma newCurrentOperation_ok entropy :
  String.length entropy = currentOperationEntropy →
  newCurrentOperation (Ok entropy) = Ok (currentOperationPrefix +:+ base64_encode entropy).
Proof.
  intros He. unfold newCurrentOperation, NewOperationKey, newIdentifier. cbn [wrap_error mbind result_bind].
  change (currentOperationPrefix +:+ base64_encode entropy)
    with (String "c" ("urrent:" +:+ base64_encode entropy)).
  rewrite base64_token; [done|by rewrite He|done| |].
  - repeat constructor; vm_compute; tauto.
  - unfold slen. cbn [String.length]. rewrite string_length_app. cbn [String.length].
    pose proof (base64_encode_length entropy) as Hl. unfold slen in Hl. rewrite He in Hl.
    change ((4 * Z.of_nat currentOperationEntropy + 2) / 3) with 43 in Hl. unfold MaxOpaqueHandleBytes. lia.
Qed.

(** The hashed text determines what the key is derived from. *)
Lemma be_length_length k n : String.length (be_length k n) = k.
Proof. induction k as [|k IH]; cbn; congruence. Qed.

Fixpoint read_be (acc : Z) (s : string) : Z :=
  match s with EmptyString => acc | String c s => read_be (acc * 256 + Z.of_N (N_of_byte c)) s end.

Lemma read_be_length k acc n : read_be acc (be_length k n) = acc * 256 ^ Z.of_nat k + n mod 256 ^ Z.of_nat k.
Proof.
  revert acc. induction k as [|k IH]; intros acc; cbn [be_length read_be].
  - rewrite Z.mod_1_r. lia.
  - rewrite IH, N_of_byte_of_N by (pose proof (Z.mod_pos_bound (n / 256 ^ Z.of_nat k) 256); lia).
    rewrite Z2N.id by (apply Z.mod_pos_bound; lia).
    rewrite Nat2Z.inj_succ, Z.pow_succ_r, (Z.mul_comm 256), Z.rem_mul_r; nia.
Qed.

Lemma part_inj a b x y :
  slen a < 2 ^ 64 → slen b < 2 ^ 64 → writeOperationPart a +:+ x = writeOperationPart b +:+ y → a = b ∧ x = y.
Proof.
  unfold writeOperationPart. intros Ha Hb E. rewrite !string_app_assoc in E.
  assert (∀ (p q r s : string), String.length p = String.length q → p +:+ r = q +:+ s → p = q ∧ r = s) as Hsplit.
  { clear. induction p as [|c p IH]; intros [|d q] r s Hl; try done. intros H.
    change (String c (p +:+ r) = String d (q +:+ s)) in H. injection H as -> H.
    destruct (IH q r s) as [-> ->]; [by injection Hl|done|done]. }
  apply Hsplit in E as [El E]; [|by rewrite !be_length_length].
  apply (f_equal (read_be 0)) in El. rewrite !read_be_length in El.
  change (256 ^ Z.of_nat 8) with (2 ^ 64) in El. rewrite !Z.mod_small in El by (unfold slen in *; lia).
  apply Hsplit in E; [done|]. unfold slen in El. lia.
Qed.

Lemma operation_candidates_inj cs cs' t :
  operation_candidates cs = Ok t → operation_candidates cs' = Ok t → cs = cs'.
Proof.
  assert (∀ c cs t, operation_candidates (c :: cs) = Ok t → ∃ d rest, ParseDigest c.(cnb_Digest) = Ok d ∧
    handle_ok c.(cnb_Handle) = true ∧ operation_candidates cs = Ok rest ∧
    t = writeOperationPart c.(cnb_Handle) +:+ writeOperationPart d +:+ rest) as Hcons.
  { clear. intros c cs t. cbn [operation_candidates]. cbv zeta. intros H.
    apply bind_Ok in H as (h & [-> Hh]%or_error_Ok%NewOpaqueHandle_Ok & H).
    apply bind_Ok in H as (d & Hd%or_error_Ok & H). apply bind_Ok in H as (rest & Hr & H). apply (inj Ok) in H as <-. eauto 9. }
  assert (∀ h, handle_ok h = true → slen h < 2 ^ 64) as Hlen.
  { intros h [_ Hh]%token_ok_plain. unfold MaxOpaqueHandleBytes in Hh. lia. }
  assert (∀ s d, ParseDigest s = Ok d → slen d < 2 ^ 64) as Hdl.
  { intros s d (_ & Hw & _)%ParseDigest_Ok. unfold slen. rewrite Hw. lia. }
  revert cs' t. induction cs as [|c cs IH]; intros [|c' cs'] t H H'; [done|..].
  - cbn in H. apply (inj Ok) in H as <-. apply Hcons in H' as (? & ? & _ & _ & _ & ?). done.
  - cbn in H'. apply (inj Ok) in H' as <-. apply Hcons in H as (? & ? & _ & _ & _ & ?). done.
  - apply Hcons in H as (d & r & Hd & Hh & Hr & ->), H' as (d' & r' & Hd' & Hh' & Hr' & E).
    apply part_inj in E as [E1 E]; [|by apply Hlen..]. apply part_inj in E as [E2 E]; [|by eapply Hdl..]. subst d' r'.
    rewrite (IH _ _ Hr Hr'). f_equal. apply ParseDigest_Ok in Hd as [Hd _], Hd' as [Hd' _].
    destruct c, c'. cbn in *. congruence.
Qed.

(** What is hashed into an admission key. *)
Definition operation_text (c : OperationKey) (i : AgentIntent) (parts : string) : string :=
  writeOperationPart operationDerivationDomain +:+ writeOperationPart c +:+
  writeOperationPart i.(ai_canonical) +:+ parts.

Lemma deriveAdmissionOperation_Ok c i cs k :
  deriveAdmissionOperation c i cs = Ok k →
  ∃ parts, operation_candidates cs = Ok parts ∧ k = admissionOperationPrefix +:+ base64_encode (Sum (operation_text c i parts)).
Proof.
  unfold deriveAdmissionOperation. intros H. apply bind_Ok in H as ([] & _ & H).
  apply bind_Ok in H as (t & Ht & H). cbv zeta in H. apply newIdentifier_Ok in H as [-> _]. by exists t.
Qed.

(** Equal keys come from equal inputs when SHA-256 does not collide on the two texts. *)
Lemma deriveAdmissionOperation_inj c i cs t c' i' cs' t' k :
  slen c < 2 ^ 64 → slen c' < 2 ^ 64 → slen i.(ai_canonical) < 2 ^ 64 → slen i'.(ai_canonical) < 2 ^ 64 →
  operation_candidates cs = Ok t → operation_candidates cs' = Ok t' →
  (Sum (operation_text c i t) = Sum (operation_text c' i' t') → operation_text c i t = operation_text c' i' t') →
  deriveAdmissionOperation c i cs = Ok k → deriveAdmissionOperation c' i' cs' = Ok k →
  c = c' ∧ i.(ai_canonical) = i'.(ai_canonical) ∧ cs = cs'.
Proof.
  intros Hc Hc' Hi Hi' Ht Ht' Hsum (u & Hu & ->)%deriveAdmissionOperation_Ok (u' & Hu' & E)%deriveAdmissionOperation_Ok.
  assert (u = t) as -> by congruence. assert (u' = t') as -> by congruence.
  apply string_app_inj, base64_encode_inj, Hsum in E. unfold operation_text in E.
  apply part_inj in E as [_ E]; [|done..]. apply part_inj in E as [-> E]; [|done..].
  apply part_inj in E as [-> ->]; [|done..]. split_and!; [done|done|]. by eapply operation_candidates_inj.
Qed.
