(* ===== verification/JournalDir.v ===== *)
(** The agent terminal's private directory (internal/agency/client/journal_files.go,
    journal_fs.go): loading the journal, replacing it through a stage file, and its
    moves to a terminal file and out, each file system call a step that may fail.

    The directory holds the lock file, at most one journal, named as active or as the
    terminal file of an operation, and for a moment the stage.  The process lock and
    the flock make a command's section atomic with respect to other commands:
    [tm_others] is what those did before the lock was taken.  A crash is a stop
    between two calls.  File modes, owners and identities are the [jf_safe] bit. *)

From Stdlib Require Import Lia.
From S2P Require Import Prelude Io Utf8 Json Wire Sha256 Time Value Intent Bound Event Base64 Journal.

#[local] Open Scope Z_scope.

Definition journalLockName : string := "lock".
Definition journalActiveName : string := "session.json".
Definition journalStageName : string := "journal.stage".
Definition journalTerminalHead : string := "terminal-".
Definition journalTerminalTail : string := ".json".

Definition errJournalAbsent : error := Sentinel "R7 client journal is absent".

(** [jf_safe]: a regular file, mode 0600, of the owner, with one link. *)
Record jfile := { jf_content : string; jf_safe : bool }.
Abbreviation jdir := (gmap string jfile) (only parsing).

(** What [agencyClient] offers; a step of it fails with a [ControlError]. *)
Record AgencyClient (W : Type) := {
  cl_Attach : Digest → io W attachment;
  cl_End : attachment → io W ();
  cl_Current : attachment → string → io W string;
  cl_Submit : attachment → string → string → string → list candidateBinding → io W string;
  cl_Capture : string → io W artifactCapture;
  cl_ReadArtifact : attachment → string → string → io W string;
}.
Arguments cl_Attach {_}.
Arguments cl_End {_}.
Arguments cl_Current {_}.
Arguments cl_Submit {_}.
Arguments cl_Capture {_}.
Arguments cl_ReadArtifact {_}.

(** The world of a command: the directory if it exists, the fault and the part
    written at each call, entropy, clock, standard output and the control client. *)
Record Terminal (W : Type) := {
  tm_dir : W → option jdir;
  tm_put : W → jdir → W;
  tm_others : W → W;
  tm_tick : W → W;
  tm_fault : W → option error;
  tm_short : W → nat;
  tm_random : W → result string;
  tm_clock : W → Time;
  tm_print : string → io W ();
  tm_client : AgencyClient W;
  (** [resolveWorkspace], [ensureDaemon] and [newClient]. *)
  tm_workspace : io W ();
  tm_ensureDaemon : io W ();
  tm_newClient : io W ();
}.
Arguments tm_dir {_}.
Arguments tm_put {_}.
Arguments tm_others {_}.
Arguments tm_tick {_}.
Arguments tm_fault {_}.
Arguments tm_short {_}.
Arguments tm_random {_}.
Arguments tm_clock {_}.
Arguments tm_print {_}.
Arguments tm_client {_}.
Arguments tm_workspace {_}.
Arguments tm_ensureDaemon {_}.
Arguments tm_newClient {_}.

(** ** Names *)

Definition strip_suffix (suffix s : string) : option string :=
  let n := (String.length s - String.length suffix)%nat in
  if String.eqb (String.substring n (String.length suffix) s) suffix && (String.length suffix <=? String.length s)%nat
  then Some (String.substring 0 n s) else None.

(** The part of a terminal file's name that carries the operation. *)
Definition terminal_value (name : string) : option string :=
  value ← strip_prefix journalTerminalHead name; strip_suffix journalTerminalTail value.

Definition validTerminalName (name : string) : bool :=
  match terminal_value name with
  | None => false
  | Some value =>
      match base64_decode value with
      | None => false
      | Some decoded => (slen decoded =? 32) && String.eqb (base64_encode decoded) value
      end
  end.

Definition terminalName (operation : OperationKey) : string :=
  journalTerminalHead +:+ default operation (strip_prefix admissionOperationPrefix operation) +:+ journalTerminalTail.

Definition terminalOperation (name : string) : result OperationKey :=
  let broken := Errorf "R7 terminal journal name is invalid" in
  _ ← fail_if (negb (validTerminalName name)) broken;
  value ← of_option (terminal_value name) broken;
  NewOperationKey (admissionOperationPrefix +:+ value).

(** The one journal among the directory's entries. *)
Fixpoint journal_file (names : list string) (found : string) : result string :=
  match names with
  | [] => Ok found
  | name :: names =>
      if String.eqb name journalLockName then journal_file names found
      else if String.eqb name journalActiveName || validTerminalName name then
        _ ← fail_if (negb (is_empty found)) (Errorf "multiple R7 client journals exist");
        journal_file names name
      else Err (Errorf "R7 client journal directory contains an unknown entry")
  end.

Section directory.
Context {W : Type} (tm : Terminal W).

(** ** System calls *)

Definition jcall {A} (f : jdir → result A * jdir) : io W A := λ w,
  let w := tm.(tm_tick) w in
  match tm.(tm_fault) w with
  | Some e => (Err e, w)
  | None =>
      match tm.(tm_dir) w with
      | None => (Err ErrNotExist, w)
      | Some d => let '(r, d') := f d in (r, tm.(tm_put) w d')
      end
  end.

Definition jstat (name : string) : io W jfile := jcall (λ d, (of_option (d !! name) ErrNotExist, d)).
Definition junlink (name : string) : io W () := jcall (λ d,
  match d !! name with None => (Err ErrNotExist, d) | Some _ => (Ok (), delete name d) end).
Definition jrename (old new : string) : io W () := jcall (λ d,
  match d !! old with None => (Err ErrNotExist, d) | Some f => (Ok (), <[new := f]> (delete old d)) end).
Definition jcreate (name : string) : io W () := jcall (λ d,
  match d !! name with
  | Some _ => (Err ErrExist, d)
  | None => (Ok (), <[name := {| jf_content := ""; jf_safe := true |}]> d)
  end).
(** A [Sync] or [Close]. *)
Definition jsync : io W () := jcall (λ d, (Ok (), d)).

(** A failing write leaves a prefix. *)
Definition jwrite (name content : string) : io W () := λ w,
  let w := tm.(tm_tick) w in
  match tm.(tm_dir) w with
  | None => (Err ErrNotExist, w)
  | Some d =>
      let put c := tm.(tm_put) w (alter (λ f, {| jf_content := c; jf_safe := f.(jf_safe) |}) name d) in
      match tm.(tm_fault) w with
      | Some e => (Err e, put (String.substring 0 (tm.(tm_short) w) content))
      | None => (Ok (), put content)
      end
  end.

(** ** The directory *)

Definition ensureJournalDirectoryEntry (create : bool) : io W () := λ w,
  let w := tm.(tm_tick) w in
  match tm.(tm_fault) w with
  | Some e => (Err (Wrapped "inspect R7 client journal directory" e), w)
  | None =>
      match tm.(tm_dir) w with
      | Some _ => (Ok (), w)
      | None => if create then (Ok (), tm.(tm_put) w ∅) else (Err errJournalAbsent, w)
      end
  end.

Definition openJournalLock : io W () :=
  lock ← wrapping "open R7 client journal lock" (jcall (λ d,
    match d !! journalLockName with
    | Some f => (Ok f, d)
    | None => let f := {| jf_content := ""; jf_safe := true |} in (Ok f, <[journalLockName := f]> d)
    end));
  guard (negb lock.(jf_safe)) (Errorf "R7 client journal lock identity is unsafe").

Definition openJournalDirectory (create : bool) : io W () :=
  _ ← ensureJournalDirectoryEntry create;
  openJournalLock.

Definition recoverStage : io W () :=
  stage ← attempt (jstat journalStageName);
  match stage with
  | Err e => if errors_is e ErrNotExist then mret () else lift (Err (Wrapped "inspect R7 client journal stage" e))
  | Ok f =>
      _ ← guard (negb f.(jf_safe)) (Errorf "R7 client journal stage is unsafe");
      _ ← wrapping "remove interrupted R7 client journal stage" (junlink journalStageName);
      jsync
  end.

(** The lock is taken; [directory.validate] is part of the calls that may fail. *)
Definition withLock {A} (create : bool) (callback : io W A) : io W A := λ w,
  (_ ← openJournalDirectory create;
   _ ← wrapping "lock R7 client journal" jsync;
   _ ← recoverStage;
   callback) (tm.(tm_others) w).

(** ** Reading *)

Definition entryNames : io W (list string) :=
  _ ← jsync;
  wrapping "scan R7 client journal directory" (jcall (λ d, (Ok (map_to_list d).*1, d))).

Definition readOwnerFile (name : string) (maximum : Z) : io W string :=
  _ ← guard (is_empty name || contains_byte "/" name || (maximum <=? 0)) (Errorf "R7 client journal file name is invalid");
  file ← wrapping "open R7 client journal" (jstat name);
  _ ← jsync;
  _ ← guard (negb file.(jf_safe)) (Errorf "R7 client journal file identity is unsafe");
  let exceeds := Errorf "R7 client journal exceeds its closed byte bound" in
  read ← attempt jsync;
  _ ← lift (or_error read exceeds);
  _ ← guard (maximum <? slen file.(jf_content)) exceeds;
  current ← attempt (jstat name);
  _ ← lift (or_error current (Errorf "R7 client journal identity changed while reading"));
  mret file.(jf_content).

Definition load : io W clientJournal :=
  names ← entryNames;
  fileName ← lift (journal_file names "");
  _ ← guard (is_empty fileName) errJournalAbsent;
  raw ← readOwnerFile fileName maxJournalBytes;
  '(j, digest) ← lift (parseClientJournal raw);
  _ ← (if validTerminalName fileName then
         operation ← lift (or_error (terminalOperation fileName) (Errorf "R7 terminal journal name is invalid"));
         guard (IsZero operation) (Errorf "R7 terminal journal name is invalid")
       else mret ());
  mret {| cj_journal := j; cj_fileName := fileName; cj_fileDigest := digest |}.

(** ** Writing *)

(** [publishJournal] between creating the stage and its rename. *)
Definition fill_stage (payload target : string) : io W () :=
  _ ← wrapping "write R7 client journal stage" (jwrite journalStageName payload);
  _ ← wrapping "persist R7 client journal stage" jsync;
  _ ← wrapping "close R7 client journal stage" jsync;
  wrapping "publish R7 client journal" (jrename journalStageName target).

Definition publishJournal (j : journal) (target : string) : io W () :=
  _ ← guard (negb (String.eqb target journalActiveName) && negb (validTerminalName target))
        (Errorf "R7 client journal target is invalid");
  payload ← lift (journal_canonical j);
  _ ← recoverStage;
  _ ← wrapping "create R7 client journal stage" (jcreate journalStageName);
  published ← attempt (fill_stage payload target);
  match published with
  | Err e => _ ← attempt (junlink journalStageName); lift (Err e)
  | Ok _ => jsync
  end.

Definition jd_write (j : journal) (fileName : string) : io W () :=
  _ ← guard (negb (is_empty fileName) && negb (String.eqb fileName journalActiveName))
        (Errorf "terminal R7 client journal is immutable");
  publishJournal j journalActiveName.

Definition same_file (a b : clientJournal) : bool :=
  String.eqb a.(cj_fileName) b.(cj_fileName) && bool_decide (a.(cj_fileDigest) = b.(cj_fileDigest)).

Definition markTerminal (expected : clientJournal) (operation : OperationKey) : io W clientJournal :=
  _ ← guard (negb (String.eqb expected.(cj_fileName) journalActiveName) ||
             negb (is_some (strip_prefix admissionOperationPrefix operation)))
        (Errorf "R7 terminal journal transition is invalid");
  current ← load;
  _ ← guard (negb (same_file current expected)) (Errorf "R7 client journal changed before terminal transition");
  let name := terminalName operation in
  existing ← attempt (jstat name);
  _ ← (match existing with
       | Ok _ => lift (Err (Errorf "R7 terminal journal already exists"))
       | Err e => guard (negb (errors_is e ErrNotExist)) e
       end);
  _ ← wrapping "publish R7 terminal journal" (jrename journalActiveName name);
  _ ← wrapping "persist R7 terminal journal" jsync;
  terminal ← attempt load;
  let differs := Errorf "published R7 terminal journal differs" in
  terminal ← lift (or_error terminal differs);
  _ ← guard (negb (String.eqb terminal.(cj_fileName) name) ||
             negb (bool_decide (terminal.(cj_fileDigest) = expected.(cj_fileDigest)))) differs;
  mret terminal.

(** What is left of a journal whose Receipt was presented. *)
Definition presented_journal (j : journal) : journal := {|
  cj_Attachment := j.(cj_Attachment); cj_BoundaryDigest := j.(cj_BoundaryDigest); cj_CurrentOperation := "";
  cj_CurrentProjection := ""; cj_Candidates := [] |}.

Definition markPresented (expected : clientJournal) : io W clientJournal :=
  _ ← guard (negb (validTerminalName expected.(cj_fileName)) || IsZero expected.(cj_CurrentOperation))
        (Errorf "R7 presented journal transition is invalid");
  current ← load;
  _ ← guard (negb (same_file current expected) || IsZero current.(cj_CurrentOperation))
        (Errorf "R7 terminal journal changed before presentation");
  _ ← publishJournal (presented_journal current) current.(cj_fileName);
  presented ← attempt load;
  let differs := Errorf "presented R7 client journal differs" in
  presented ← lift (or_error presented differs);
  _ ← guard (negb (String.eqb presented.(cj_fileName) current.(cj_fileName)) ||
             negb (IsZero presented.(cj_CurrentOperation)) || negb (is_empty presented.(cj_CurrentProjection)) ||
             negb (bool_decide (presented.(cj_Candidates) = []))) differs;
  mret presented.

Definition jd_remove (expected : clientJournal) : io W () :=
  _ ← guard (is_empty expected.(cj_fileName)) (Errorf "R7 client journal removal lacks identity");
  current ← load;
  _ ← guard (negb (same_file current expected)) (Errorf "R7 client journal changed before removal");
  _ ← wrapping "remove R7 client journal" (junlink current.(cj_fileName));
  jsync.

(** [journalStore.exists]. *)
Definition journal_exists : io W bool :=
  found ← attempt (withLock false (
    loaded ← attempt load;
    match loaded with
    | Ok _ => mret true
    | Err e => if errors_is e errJournalAbsent then mret false else lift (Err e)
    end));
  match found with
  | Ok found => mret found
  | Err e => if errors_is e errJournalAbsent then mret false else lift (Err e)
  end.
End directory.
