(* ===== verification/Compact.v ===== *)
(** [json.Valid] and [json.Compact], and that a marshalled value of bounded depth
    is valid and already compact. *)

From Stdlib Require Import Lia.
From S2P Require Import Prelude Utf8 Json Wire.

#[local] Arguments String.append : simpl nomatch.

(** ** Validity: one value, nested at most 10,000 deep *)

Fixpoint json_depth (v : json) : nat :=
  match v with
  | JArr vs => S (foldr Nat.max 0 (map json_depth vs))
  | JObj ms => S (foldr Nat.max 0 (map (λ m, json_depth m.2) ms))
  | _ => 0
  end.

Definition maxNestingDepth : Z := 10000.

Definition json_Valid (s : string) : bool :=
  match parse_all s with
  | Ok v => (Z.of_nat (json_depth v) <=? maxNestingDepth)%Z
  | Err _ => false
  end.

(** ** Compaction: white space outside string literals is dropped *)

Definition is_ws (c : ascii) : bool :=
  Ascii.eqb c " " || Ascii.eqb c "009" || Ascii.eqb c "010" || Ascii.eqb c "013".

(** [literal]: inside a string literal; [escaped]: just after its backslash. *)
Fixpoint compact_from (literal escaped : bool) (s : string) : string :=
  match s with
  | EmptyString => ""
  | String c s =>
      if literal then
        String c (compact_from (escaped || negb (Ascii.eqb c "034"))
                    (negb escaped && Ascii.eqb c "\") s)
      else if is_ws c then compact_from false false s
      else String c (compact_from (Ascii.eqb c "034") false s)
  end.

Definition json_Compact (s : string) : string := compact_from false false s.

(** ** What was marshalled is compact *)

(** Text that leaves the scanner outside a literal, respectively inside one. *)
Definition compact_text (literal : bool) (x : string) : Prop :=
  ∀ t, compact_from literal false (x +:+ t) = x +:+ compact_from literal false t.

Lemma compact_text_app literal x y :
  compact_text literal x → compact_text literal y → compact_text literal (x +:+ y).
Proof. intros Hx Hy t. by rewrite !string_app_assoc, Hx, Hy. Qed.

Lemma compact_text_cons (c : ascii) x :
  is_ws c = false → Ascii.eqb c "034" = false → compact_text false x → compact_text false (String c x).
Proof. intros Hw Hq Hx t. cbn. by rewrite Hw, Hq, Hx. Qed.

Lemma compact_in_literal (c : ascii) x :
  Ascii.eqb c "034" = false → Ascii.eqb c "\" = false → compact_text true x → compact_text true (String c x).
Proof. intros Hq Hb Hx t. cbn. by rewrite Hq, Hb, Hx. Qed.

Lemma compact_nil literal : compact_text literal "".
Proof. done. Qed.

Lemma compact_high (c : ascii) x :
  (0x80 <= N_of_byte c)%N → compact_text true x → compact_text true (String c x).
Proof. intros Hc. apply compact_in_literal; [apply (byte_neq c 34)|apply (byte_neq c 92)]; lia. Qed.

Lemma encode_rune_compact c : (0x80 <= c)%N → scalar c = true → compact_text true (encode_rune c).
Proof.
  intros Hc Hs. assert (c < 0x110000)%N.
  { unfold scalar in Hs. rewrite orb_true_iff, andb_true_iff, !N.ltb_lt in Hs. lia. }
  unfold encode_rune. destruct (N.ltb_spec c 0x80); [lia|].
  destruct (N.ltb_spec c 0x800); [|destruct (N.ltb_spec c 0x10000)];
    repeat (apply compact_high; [rewrite N_of_byte_of_N; div_lia|]); apply compact_nil.
Qed.

Lemma escape_rune_compact c : scalar c = true → compact_text true (escape_rune c).
Proof.
  intros Hs. destruct (N.ltb_spec c 0x80) as [Hc|Hc].
  - destruct c as [|p]; [by intros t|].
    do 7 (try (destruct p as [p|p|]; [| |by intros t])); exfalso; lia.
  - unfold escape_rune. rewrite (proj2 (N.ltb_ge _ _) Hc).
    destruct (N.eqb_spec c 0x2028); [by intros t|]. destruct (N.eqb_spec c 0x2029); [by intros t|].
    by apply encode_rune_compact.
Qed.

Lemma escape_compact s : valid_utf8 s = true → compact_text true (escape s).
Proof.
  revert s. apply valid_utf8_ind; [done|]. intros c s Hc _ IH. rewrite escape_encode by done.
  apply compact_text_app; [by apply escape_rune_compact|done].
Qed.

Lemma marshal_string_compact s : valid_utf8 s = true → compact_text false (marshal_string s).
Proof.
  intros Hs t. unfold marshal_string. cbn. rewrite !string_app_assoc, escape_compact by done. reflexivity.
Qed.

Lemma digits_compact s : all_digits s = true → compact_text false s.
Proof.
  induction s as [|c s IH]; [done|]. cbn [all_digits]. intros [Hc Hs]%andb_prop.
  apply is_digit_inv in Hc. apply compact_text_cons; [by destruct_or! Hc; subst..|by apply IH].
Qed.

Lemma numeral_compact s : is_numeral s = true → compact_text false s.
Proof.
  intros H. apply digits_compact. destruct s as [|c s]; [done|]. cbn [is_numeral all_digits] in *.
  by apply andb_prop in H as [H _].
Qed.

Lemma join_comma_compact xs : Forall (compact_text false) xs → compact_text false (join_comma xs).
Proof.
  destruct 1 as [|x xs Hx Hxs]; [done|]. apply compact_text_app; [done|].
  induction Hxs as [|y ys Hy _ IH]; [done|]. by apply compact_text_cons, compact_text_app.
Qed.

Lemma marshal_compact v : json_wf v → compact_text false (marshal v).
Proof.
  induction v as [|b|l|s|vs IH|ms IH] using json_induction; inversion 1; subst; cbn [marshal].
  - by intros t.
  - by destruct b; intros t.
  - by apply numeral_compact.
  - by apply marshal_string_compact.
  - apply compact_text_cons; [done..|]. apply compact_text_app; [|by intros t].
    apply join_comma_compact, Forall_map. rewrite Forall_forall in *. naive_solver.
  - apply compact_text_cons; [done..|]. apply compact_text_app; [|by intros t].
    apply join_comma_compact, Forall_map. rewrite Forall_forall in *.
    intros [k v] Hm. destruct (H2 _ Hm) as [Hk Hv]. cbn [fst snd] in *.
    apply compact_text_app; [by apply marshal_string_compact|].
    apply compact_text_cons; [done..|]. by apply (IH _ Hm).
Qed.

Lemma json_Compact_marshal v : json_wf v → json_Compact (marshal v) = marshal v.
Proof.
  intros Hv. pose proof (marshal_compact v Hv "") as H. by rewrite !string_app_nil_r in H.
Qed.

Lemma json_Valid_marshal v :
  json_wf v → (Z.of_nat (json_depth v) <= maxNestingDepth)%Z → json_Valid (marshal v) = true.
Proof. intros Hv Hd. unfold json_Valid. rewrite parse_all_marshal by done. by apply Z.leb_le. Qed.

(** ** Depth of wire structs *)

Definition field_depth (f : fieldspec) : nat := match f.2 with Some j => json_depth j | None => 0 end.

Lemma struct_depth fs n : Forall (λ f, (field_depth f <= n)%nat) fs → (json_depth (struct fs) <= S n)%nat.
Proof.
  intros H. cbn [struct json_depth]. apply le_n_S. induction H as [|[k [j|]] fs Hf _ IH]; cbn; [lia|..].
  - apply Nat.max_lub; [exact Hf|done].
  - done.
Qed.

Lemma array_depth vs n : Forall (λ v, (json_depth v <= n)%nat) vs → (json_depth (JArr vs) <= S n)%nat.
Proof.
  intros H. cbn [json_depth]. apply le_n_S. induction H as [|v vs Hv _ IH]; cbn; [lia|].
  by apply Nat.max_lub.
Qed.

(** ** What was marshalled is UTF-8 *)

Lemma escape_rune_utf8 c : scalar c = true → valid_utf8 (escape_rune c) = true.
Proof.
  intros Hs. destruct (N.ltb_spec c 0x80) as [Hc|Hc].
  - destruct c as [|p]; [done|]. do 7 (try (destruct p as [p|p|]; [| |done])); exfalso; lia.
  - unfold escape_rune. rewrite (proj2 (N.ltb_ge _ _) Hc).
    destruct (N.eqb_spec c 0x2028); [done|]. destruct (N.eqb_spec c 0x2029); [done|].
    rewrite <- (string_app_nil_r (encode_rune c)). by rewrite valid_utf8_encode.
Qed.

Lemma utf8_app a b : valid_utf8 a = true → valid_utf8 b = true → valid_utf8 (a +:+ b) = true.
Proof. intros Ha Hb. by rewrite valid_utf8_app. Qed.

Lemma escape_utf8 s : valid_utf8 s = true → valid_utf8 (escape s) = true.
Proof.
  revert s. apply valid_utf8_ind; [done|]. intros c s Hc _ IH. rewrite escape_encode by done.
  apply utf8_app; [by apply escape_rune_utf8|done].
Qed.

Lemma marshal_string_utf8 s : valid_utf8 s = true → valid_utf8 (marshal_string s) = true.
Proof.
  intros Hs. apply (utf8_app (String "034" "")); [done|]. apply utf8_app; [by apply escape_utf8|done].
Qed.

Lemma digits_utf8 s : all_digits s = true → valid_utf8 s = true.
Proof.
  induction s as [|c s IH]; [done|]. cbn [all_digits]. intros [Hc Hs]%andb_prop.
  apply (utf8_app (String c "")); [|by apply IH]. apply is_digit_inv in Hc. by destruct_or! Hc; subst.
Qed.

Lemma join_comma_utf8 xs : Forall (λ x, valid_utf8 x = true) xs → valid_utf8 (join_comma xs) = true.
Proof.
  destruct 1 as [|x xs Hx Hxs]; [done|]. apply utf8_app; [done|].
  induction Hxs as [|y ys Hy _ IH]; [done|]. apply (utf8_app ","); [done|]. by apply utf8_app.
Qed.

Lemma marshal_utf8 v : json_wf v → valid_utf8 (marshal v) = true.
Proof.
  induction v as [|b|l|s|vs IH|ms IH] using json_induction; inversion 1; subst; cbn [marshal].
  - done.
  - by destruct b.
  - apply digits_utf8. destruct l as [|c l]; [done|]. by apply andb_prop in H1 as [? _].
  - by apply marshal_string_utf8.
  - apply (utf8_app "["); [done|]. apply utf8_app; [|done].
    apply join_comma_utf8, Forall_map. rewrite Forall_forall in *. naive_solver.
  - apply (utf8_app "{"); [done|]. apply utf8_app; [|done].
    apply join_comma_utf8, Forall_map. rewrite Forall_forall in *.
    intros [k v] Hm. destruct (H2 _ Hm) as [Hk Hv]. cbn [fst snd] in *.
    apply utf8_app; [by apply marshal_string_utf8|]. apply (utf8_app ":"); [done|]. by apply (IH _ Hm).
Qed.

Section depth.
Context {A} `{Codec A}.

Lemma field_depth_field k (x : A) n : (json_depth (enc x) <= n)%nat → (field_depth (field k x) <= n)%nat.
Proof. done. Qed.
Lemma field_depth_omitempty k (x : A) n :
  (json_depth (enc x) <= n)%nat → (field_depth (omitempty k x) <= n)%nat.
Proof. unfold field_depth, omitempty. cbn [snd]. destruct (empty x); lia. Qed.
Lemma field_depth_omitnil k (p : option A) n :
  (∀ x, (json_depth (enc x) <= n)%nat) → (field_depth (omitnil k p) <= n)%nat.
Proof. intros Hx. unfold field_depth, omitnil. destruct p; cbn [snd fmap option_fmap option_map]; [apply Hx|lia]. Qed.
Lemma list_depth (xs : list A) n :
  (∀ x : A, (json_depth (enc x) <= n)%nat) → (json_depth (enc xs) <= S n)%nat.
Proof. intros Hx. apply array_depth, Forall_map, Forall_true. apply Hx. Qed.
End depth.

(** A struct whose fields are scalars, lists or structs of known depth. *)
Ltac solve_depth :=
  intros; apply struct_depth;
  repeat (apply Forall_cons_2;
    [first [apply field_depth_field | apply field_depth_omitempty | apply field_depth_omitnil; intros]|]);
  [..|apply Forall_nil_2]; try apply Nat.le_0_l; eauto using list_depth with depth.
Create HintDb depth.
