(* ===== verification/Frame.v ===== *)
(** Frames of the peer link (internal/agency/peerlink/frame.go): the values two
    hosts exchange, their canonical header, and the length-prefixed byte stream.

    A stream is the bytes still to be read; [io.ReadFull] that meets its end is a
    transport error.  Ed25519 signing is the parameter [ed25519_sign].

    Every frame the link builds fits its header bound: writing it succeeds and the
    other side reads it back. *)

From Stdlib Require Import Lia DecimalString DecimalN DecimalFacts.
From S2P Require Import Prelude Utf8 Json Wire Sha256 Time Value Intent Bound Event Peer Base64 Compact.

#[local] Open Scope Z_scope.

#[local] Arguments String.append : simpl nomatch.

Definition frameVersion : Z := 1.
Definition framePrefix : nat := 4.
Definition maxHeaderSize : Z := Z.shiftl 48 10.
(** artifact.MaxObjectBytes, ed25519.SignatureSize and ed25519.PrivateKeySize. *)
Definition MaxObjectBytes : Z := Z.shiftl 4 20.
Definition SignatureSize : Z := 64.
Definition PrivateKeySize : Z := 64.

Definition ErrInput : error := Sentinel "peerlink: invalid input".
Definition ErrAuthentication : error := Sentinel "peerlink: authentication failed".
Definition ErrFrame : error := Sentinel "peerlink: invalid frame".
Definition ErrTransport : error := Sentinel "peerlink: transport unavailable".

Definition frameDeliveryOffer : string := "delivery.offer".
Definition frameTransportACK : string := "transport.ack".
Definition frameAdmissionReceipt : string := "admission.receipt".
Definition frameArtifactRequest : string := "artifact.request".
Definition frameArtifactResponse : string := "artifact.response".

Record frameWire := {
  fw_Version : Z;
  fw_Type : string;
  fw_DeliveryID : string;
  fw_EnvelopeDigest : string;
  fw_ObjectDigest : string;
  fw_Canonical : string;
  fw_Signature : string;
  fw_BodyBytes : Z;
}.
#[export] Instance frameWire_codec : Codec frameWire := {
  enc w := struct [
    @field Z uint8_codec "version" w.(fw_Version); field "type" w.(fw_Type);
    field "delivery_id" w.(fw_DeliveryID); field "envelope_digest" w.(fw_EnvelopeDigest);
    omitempty "object_digest" w.(fw_ObjectDigest);
    @omitempty string bytes_codec "canonical" w.(fw_Canonical);
    @omitempty string bytes_codec "signature" w.(fw_Signature);
    @omitempty Z int_codec "body_bytes" w.(fw_BodyBytes)];
  dec_value j :=
    ms ← members_of ["version"; "type"; "delivery_id"; "envelope_digest"; "object_digest";
                     "canonical"; "signature"; "body_bytes"] j;
    xVersion ← @get Z uint8_codec "version" ms; xType ← get "type" ms;
    xDeliveryID ← get "delivery_id" ms; xEnvelopeDigest ← get "envelope_digest" ms;
    xObjectDigest ← get "object_digest" ms;
    xCanonical ← @get string bytes_codec "canonical" ms;
    xSignature ← @get string bytes_codec "signature" ms;
    xBodyBytes ← @get Z int_codec "body_bytes" ms;
    Ok {| fw_Version := xVersion; fw_Type := xType; fw_DeliveryID := xDeliveryID;
          fw_EnvelopeDigest := xEnvelopeDigest; fw_ObjectDigest := xObjectDigest;
          fw_Canonical := xCanonical; fw_Signature := xSignature; fw_BodyBytes := xBodyBytes |};
  zero := {| fw_Version := 0; fw_Type := zero; fw_DeliveryID := zero; fw_EnvelopeDigest := zero;
    fw_ObjectDigest := zero; fw_Canonical := ""; fw_Signature := ""; fw_BodyBytes := 0 |};
  empty _ := false;
  enc_ok w := @enc_ok Z uint8_codec w.(fw_Version) ∧ enc_ok w.(fw_Type) ∧ enc_ok w.(fw_DeliveryID) ∧
    enc_ok w.(fw_EnvelopeDigest) ∧ enc_ok w.(fw_ObjectDigest) ∧
    @enc_ok string bytes_codec w.(fw_Canonical) ∧ @enc_ok string bytes_codec w.(fw_Signature) ∧
    @enc_ok Z int_codec w.(fw_BodyBytes);
}.
#[export] Instance frameWire_laws : CodecLaws frameWire.
Proof. solve_struct. Qed.

Record frame := {
  fr_type : string;
  fr_deliveryID : DeliveryID;
  fr_envelopeDigest : Digest;
  fr_objectDigest : Digest;
  fr_canonical : string;
  fr_signature : string;
  fr_body : string;
}.

Record DeliveryOffer := {
  do_deliveryID : DeliveryID; do_envelopeDigest : Digest; do_canonical : string; do_signature : string }.

(** A zero Receipt is [None]. *)
Record DeliveryResponse := {
  dr_transportACK : bool; dr_receipt : option PeerAdmissionReceipt; dr_signature : string }.

Record ArtifactRequest := {
  arq_deliveryID : DeliveryID; arq_envelopeDigest : Digest; arq_objectDigest : Digest }.

(** ** Values a frame carries *)

Definition completeReceipt (receipt : option PeerAdmissionReceipt) : bool :=
  match receipt with
  | Some r => negb (DeliveryID_IsZero r.(par_deliveryID)) && negb (Digest_IsZero r.(par_envelopeDigest)) &&
              negb (is_empty r.(par_canonical)) && is_some (PeerAdmissionReceipt_SigningMessage r)
  | None => false
  end.

Definition NewTransportACK : DeliveryResponse :=
  {| dr_transportACK := true; dr_receipt := None; dr_signature := "" |}.

Definition NewAdmissionResponse (receipt : option PeerAdmissionReceipt) : result DeliveryResponse :=
  _ ← fail_if (negb (completeReceipt receipt)) (Wrapped "complete admission Receipt is required" ErrInput);
  Ok {| dr_transportACK := false; dr_receipt := receipt; dr_signature := "" |}.

(** [AdmissionReceipt]: the Receipt, when there is a complete one. *)
Definition DeliveryResponse_AdmissionReceipt (response : DeliveryResponse) : option PeerAdmissionReceipt :=
  if negb response.(dr_transportACK) && completeReceipt response.(dr_receipt)
  then response.(dr_receipt) else None.

Definition deliveryReferencesArtifact (delivery : PeerDelivery) (expected : Digest) : bool :=
  existsb (λ digest, bool_decide (digest = expected)) delivery.(pd_artifacts).

Definition artifactRequestFrame (delivery : PeerDelivery) (digest : Digest) : result frame :=
  _ ← fail_if (DeliveryID_IsZero delivery.(pd_id) || Digest_IsZero delivery.(pd_envelopeDigest) ||
               Digest_IsZero digest || negb (deliveryReferencesArtifact delivery digest))
        (Wrapped "Artifact must belong to the exact delivery" ErrInput);
  Ok {| fr_type := frameArtifactRequest; fr_deliveryID := delivery.(pd_id);
        fr_envelopeDigest := delivery.(pd_envelopeDigest); fr_objectDigest := digest;
        fr_canonical := ""; fr_signature := ""; fr_body := "" |}.

Definition artifactResponseFrame (request : ArtifactRequest) (body : string) : result frame :=
  _ ← fail_if (DeliveryID_IsZero request.(arq_deliveryID) || Digest_IsZero request.(arq_envelopeDigest) ||
               Digest_IsZero request.(arq_objectDigest) || (MaxObjectBytes <? slen body) ||
               negb (bool_decide (Sum body = request.(arq_objectDigest))))
        (Wrapped "verified delivery-scoped Artifact is required" ErrInput);
  Ok {| fr_type := frameArtifactResponse; fr_deliveryID := request.(arq_deliveryID);
        fr_envelopeDigest := request.(arq_envelopeDigest); fr_objectDigest := request.(arq_objectDigest);
        fr_canonical := ""; fr_signature := ""; fr_body := body |}.

Section signing.
Context (ed25519_sign : string → string → string).

Definition deliveryOfferFrame (delivery : PeerDelivery) (privateKey : string) : result frame :=
  _ ← fail_if (DeliveryID_IsZero delivery.(pd_id) || Digest_IsZero delivery.(pd_envelopeDigest) ||
               is_empty delivery.(pd_canonical) || negb (slen privateKey =? PrivateKeySize))
        (Wrapped "complete delivery and signing key are required" ErrInput);
  Ok {| fr_type := frameDeliveryOffer; fr_deliveryID := delivery.(pd_id);
        fr_envelopeDigest := delivery.(pd_envelopeDigest); fr_objectDigest := zero_digest;
        fr_canonical := delivery.(pd_canonical);
        fr_signature := ed25519_sign privateKey (default "" (PeerDelivery_SigningMessage delivery));
        fr_body := "" |}.

Definition deliveryResponseFrame (offer : DeliveryOffer) (response : DeliveryResponse)
    (privateKey : string) : result frame :=
  _ ← fail_if (DeliveryID_IsZero offer.(do_deliveryID) || Digest_IsZero offer.(do_envelopeDigest))
        (Wrapped "complete delivery binding is required" ErrInput);
  if response.(dr_transportACK) then
    _ ← fail_if (completeReceipt response.(dr_receipt) || negb (is_empty response.(dr_signature)))
          (Wrapped "transport ACK cannot carry admission evidence" ErrInput);
    Ok {| fr_type := frameTransportACK; fr_deliveryID := offer.(do_deliveryID);
          fr_envelopeDigest := offer.(do_envelopeDigest); fr_objectDigest := zero_digest;
          fr_canonical := ""; fr_signature := ""; fr_body := "" |}
  else
    let unbound := Wrapped "admission Receipt does not bind the offer" ErrInput in
    _ ← fail_if (negb (completeReceipt response.(dr_receipt)) || negb (slen privateKey =? PrivateKeySize))
          unbound;
    receipt ← of_option response.(dr_receipt) unbound;
    _ ← fail_if (negb (bool_decide (receipt.(par_deliveryID) = offer.(do_deliveryID))) ||
                 negb (bool_decide (receipt.(par_envelopeDigest) = offer.(do_envelopeDigest)))) unbound;
    Ok {| fr_type := frameAdmissionReceipt; fr_deliveryID := offer.(do_deliveryID);
          fr_envelopeDigest := offer.(do_envelopeDigest); fr_objectDigest := zero_digest;
          fr_canonical := receipt.(par_canonical);
          fr_signature := ed25519_sign privateKey (default "" (PeerAdmissionReceipt_SigningMessage receipt));
          fr_body := "" |}.
End signing.

(** ** Shape *)

Definition embedded_json_ok (raw : string) (maximum : Z) : bool :=
  negb (is_empty raw) && (slen raw <=? maximum) && valid_utf8 raw && json_Valid raw &&
  bool_decide (json_Compact raw = raw).

Definition validateDeliveryOffer (wire : frameWire) (value : frame) : result () :=
  fail_if (negb (Digest_IsZero value.(fr_objectDigest)) || negb (wire.(fw_BodyBytes) =? 0) ||
           negb (slen wire.(fw_Signature) =? SignatureSize) ||
           negb (embedded_json_ok wire.(fw_Canonical) MaxPeerDeliveryCanonicalBytes))
    (Wrapped "invalid delivery offer" ErrFrame).

Definition validateTransportACK (wire : frameWire) (value : frame) : result () :=
  fail_if (negb (Digest_IsZero value.(fr_objectDigest)) || negb (wire.(fw_BodyBytes) =? 0) ||
           negb (is_empty wire.(fw_Canonical)) || negb (is_empty wire.(fw_Signature)))
    (Wrapped "transport ACK carries forbidden fields" ErrFrame).

Definition validateAdmissionReceipt (wire : frameWire) (value : frame) : result () :=
  fail_if (negb (Digest_IsZero value.(fr_objectDigest)) || negb (wire.(fw_BodyBytes) =? 0) ||
           negb (slen wire.(fw_Signature) =? SignatureSize) ||
           negb (embedded_json_ok wire.(fw_Canonical) MaxPeerAdmissionReceiptCanonicalBytes))
    (Wrapped "invalid admission Receipt" ErrFrame).

Definition validateArtifactRequest (wire : frameWire) (value : frame) : result () :=
  fail_if (Digest_IsZero value.(fr_objectDigest) || negb (wire.(fw_BodyBytes) =? 0) ||
           negb (is_empty wire.(fw_Canonical)) || negb (is_empty wire.(fw_Signature)))
    (Wrapped "invalid Artifact request" ErrFrame).

Definition validateArtifactResponse (wire : frameWire) (value : frame) : result () :=
  fail_if (Digest_IsZero value.(fr_objectDigest) || negb (is_empty wire.(fw_Canonical)) ||
           negb (is_empty wire.(fw_Signature)) || (wire.(fw_BodyBytes) <? 0) ||
           (MaxObjectBytes <? wire.(fw_BodyBytes)))
    (Wrapped "invalid Artifact response" ErrFrame).

Definition validateFrameShape (wire : frameWire) (value : frame) : result () :=
  if bool_decide (wire.(fw_Type) = frameDeliveryOffer) then validateDeliveryOffer wire value
  else if bool_decide (wire.(fw_Type) = frameTransportACK) then validateTransportACK wire value
  else if bool_decide (wire.(fw_Type) = frameAdmissionReceipt) then validateAdmissionReceipt wire value
  else if bool_decide (wire.(fw_Type) = frameArtifactRequest) then validateArtifactRequest wire value
  else if bool_decide (wire.(fw_Type) = frameArtifactResponse) then validateArtifactResponse wire value
  else Err (Wrapped "unknown frame type" ErrFrame).

Definition wireToFrame (wire : frameWire) : result frame :=
  _ ← fail_if (negb (wire.(fw_Version) =? frameVersion)) (Wrapped "unsupported frame version" ErrFrame);
  deliveryID ← or_error (ParseDeliveryID wire.(fw_DeliveryID)) (Wrapped "invalid delivery ID" ErrFrame);
  envelopeDigest ← or_error (ParseDigest wire.(fw_EnvelopeDigest))
    (Wrapped "invalid envelope digest" ErrFrame);
  objectDigest ← (if is_empty wire.(fw_ObjectDigest) then Ok zero_digest
                  else or_error (ParseDigest wire.(fw_ObjectDigest)) (Wrapped "invalid object digest" ErrFrame));
  let value := {| fr_type := wire.(fw_Type); fr_deliveryID := deliveryID;
                  fr_envelopeDigest := envelopeDigest; fr_objectDigest := objectDigest;
                  fr_canonical := wire.(fw_Canonical); fr_signature := wire.(fw_Signature);
                  fr_body := "" |} in
  _ ← validateFrameShape wire value;
  Ok value.

(** The fields [frameToWire] copies. *)
Definition wire_of (value : frame) : frameWire := {|
  fw_Version := frameVersion; fw_Type := value.(fr_type);
  fw_DeliveryID := DeliveryID_String value.(fr_deliveryID);
  fw_EnvelopeDigest := Digest_String value.(fr_envelopeDigest);
  fw_ObjectDigest := if Digest_IsZero value.(fr_objectDigest) then ""
                     else Digest_String value.(fr_objectDigest);
  fw_Canonical := value.(fr_canonical); fw_Signature := value.(fr_signature);
  fw_BodyBytes := slen value.(fr_body) |}.

(** An Artifact travels with the bytes its digest names. *)
Definition artifact_diverges (value : frame) : bool :=
  bool_decide (value.(fr_type) = frameArtifactResponse) &&
  negb (bool_decide (Sum value.(fr_body) = value.(fr_objectDigest))).

Definition frameToWire (value : frame) : result frameWire :=
  let wire := wire_of value in
  _ ← wireToFrame wire;
  _ ← fail_if (artifact_diverges value) (Wrapped "Artifact digest mismatch" ErrFrame);
  Ok wire.

(** ** The byte stream *)

Definition be32 (n : Z) : string :=
  let byte k := byte_of_N (Z.to_N (n / 2 ^ k mod 256)) in
  String (byte 24) (String (byte 16) (String (byte 8) (String (byte 0) ""))).

Definition read_be32 (s : string) : Z :=
  foldl (λ acc c, acc * 256 + Z.of_N (N_of_byte c)) 0 (string_to_bytes s).

Fixpoint read_full (n : nat) (s : string) : option (string * string) :=
  match n, s with
  | O, _ => Some ("", s)
  | S n, String c s => '(x, rest) ← read_full n s; Some (String c x, rest)
  | S _, EmptyString => None
  end.

Definition writeFrame (value : frame) : result string :=
  wire ← frameToWire value;
  let header := canonical_bytes wire in
  _ ← fail_if (is_empty header || (maxHeaderSize <? slen header))
        (Wrapped "encode bounded frame header" ErrFrame);
  Ok (be32 (slen header) +:+ header +:+ value.(fr_body)).

Definition frame_EOF (rest : string) : result () :=
  fail_if (negb (is_empty (skip_ws rest))) (Wrapped "trailing frame input" ErrFrame).

Definition parseFrameWire (raw : string) : result frameWire :=
  _ ← fail_if (negb (valid_utf8 raw)) (Wrapped "header is not valid UTF-8" ErrFrame);
  '(wire, rest) ← or_error ('(v, rest) ← parse_first None raw; w ← dec v; Ok (w, rest))
    (Wrapped "decode frame header" ErrFrame);
  _ ← frame_EOF rest;
  _ ← fail_if (negb (bool_decide (canonical_bytes (A:=frameWire) wire = raw)))
        (Wrapped "frame header is not canonical" ErrFrame);
  Ok wire.

Definition with_body (value : frame) (body : string) : frame := {|
  fr_type := value.(fr_type); fr_deliveryID := value.(fr_deliveryID);
  fr_envelopeDigest := value.(fr_envelopeDigest); fr_objectDigest := value.(fr_objectDigest);
  fr_canonical := value.(fr_canonical); fr_signature := value.(fr_signature); fr_body := body |}.

Definition readFrame (input : string) : result (frame * string) :=
  '(prefix, input) ← of_option (read_full framePrefix input) (Wrapped "read frame prefix" ErrTransport);
  let size := read_be32 prefix in
  _ ← fail_if ((size =? 0) || (maxHeaderSize <? size)) (Wrapped "header size exceeds bound" ErrFrame);
  '(header, input) ← of_option (read_full (Z.to_nat size) input) (Wrapped "read frame header" ErrTransport);
  wire ← parseFrameWire header;
  value ← wireToFrame wire;
  '(value, input) ←
    (if 0 <? wire.(fw_BodyBytes) then
       '(body, input) ← of_option (read_full (Z.to_nat wire.(fw_BodyBytes)) input)
         (Wrapped "read frame body" ErrTransport);
       Ok (with_body value body, input)
     else Ok (value, input));
  _ ← fail_if (artifact_diverges value) (Wrapped "Artifact digest mismatch" ErrFrame);
  Ok (value, input).

(** ** The stream primitives *)

Lemma read_full_app x t : read_full (String.length x) (x +:+ t) = Some (x, t).
Proof. induction x as [|c x IH]; [done|]. cbn [read_full String.length String.append]. by rewrite IH. Qed.

Lemma read_full_Some n s x t : read_full n s = Some (x, t) → s = x +:+ t ∧ String.length x = n.
Proof.
  revert s x. induction n as [|n IH]; intros s x; cbn; [by intros [= <- <-]|].
  destruct s as [|c s]; [done|]. intros H. apply bind_Some in H as ([y u] & Hy & [= <- <-]).
  apply IH in Hy as [-> <-]. done.
Qed.

Lemma be32_length n : String.length (be32 n) = 4%nat.
Proof. done. Qed.

Lemma byte_of_Z_back z : 0 <= z < 256 → Z.of_N (N_of_byte (byte_of_N (Z.to_N z))) = z.
Proof. intros Hz. rewrite N_of_byte_of_N by lia. lia. Qed.

Lemma read_be32_be32 n : 0 <= n < 2 ^ 32 → read_be32 (be32 n) = n.
Proof.
  intros Hn. unfold read_be32, be32. cbn [string_to_bytes foldl].
  rewrite !byte_of_Z_back by (apply Z.mod_pos_bound; lia).
  change (2 ^ 32) with 4294967296 in Hn. change (2 ^ 24) with 16777216. change (2 ^ 16) with 65536.
  change (2 ^ 8) with 256. change (2 ^ 0) with 1. Z.to_euclidean_division_equations. lia.
Qed.

Lemma be32_read_be32 p : String.length p = 4%nat → be32 (read_be32 p) = p ∧ 0 <= read_be32 p < 2 ^ 32.
Proof.
  destruct p as [|a [|b [|c [|d [|]]]]]; try done. intros _. unfold read_be32.
  cbn [string_to_bytes foldl]. pose proof (N_of_byte_bound a). pose proof (N_of_byte_bound b).
  pose proof (N_of_byte_bound c). pose proof (N_of_byte_bound d).
  assert (∀ z x, z = Z.of_N (N_of_byte x) → byte_of_N (Z.to_N z) = x) as Hb.
  { intros z x ->. by rewrite N2Z.id, byte_of_N_of_byte. }
  change (2 ^ 32) with 4294967296. split; [|lia]. unfold be32.
  change (2 ^ 24) with 16777216. change (2 ^ 16) with 65536. change (2 ^ 8) with 256. change (2 ^ 0) with 1.
  f_equal; [|f_equal; [|f_equal; [|f_equal]]]; try done; apply Hb;
    Z.to_euclidean_division_equations; lia.
Qed.

(** ** Frames and headers *)

(** Digests are 32-byte arrays in the source. *)
Record frame_typed (f : frame) : Prop := {
  ft_delivery : digest_wf f.(fr_deliveryID);
  ft_envelope : digest_wf f.(fr_envelopeDigest);
  ft_object : digest_wf f.(fr_objectDigest);
}.

(** What a header decodes to. *)
Lemma wireToFrame_Ok w f :
  wireToFrame w = Ok f →
  frame_typed f ∧ f.(fr_body) = "" ∧ validateFrameShape w f = Ok () ∧
  w = {| fw_Version := 1; fw_Type := f.(fr_type);
         fw_DeliveryID := DeliveryID_String f.(fr_deliveryID);
         fw_EnvelopeDigest := Digest_String f.(fr_envelopeDigest);
         fw_ObjectDigest := if Digest_IsZero f.(fr_objectDigest) then "" else Digest_String f.(fr_objectDigest);
         fw_Canonical := f.(fr_canonical); fw_Signature := f.(fr_signature);
         fw_BodyBytes := w.(fw_BodyBytes) |}.
Proof.
  unfold wireToFrame. intros H. apply bind_Ok in H as ([] & Hv & H).
  apply bind_Ok in H as (id & Hid%or_error_Ok%ParseDeliveryID_Ok & H).
  apply bind_Ok in H as (env & Henv%or_error_Ok%ParseDigest_Ok & H).
  apply bind_Ok in H as (obj & Hobj & H). apply bind_Ok in H as ([] & Hshape & [= <-]).
  apply fail_if_Ok, negb_false_iff, Z.eqb_eq in Hv. destruct Hid as [Eid [Hid _]], Henv as (Eenv & Henv & _).
  assert (digest_wf obj ∧ w.(fw_ObjectDigest) = if Digest_IsZero obj then "" else Digest_String obj)
    as [Hobjw Eobj].
  { destruct (is_empty w.(fw_ObjectDigest)) eqn:He.
    - injection Hobj as <-. apply is_empty_true in He. by rewrite He.
    - apply or_error_Ok, ParseDigest_Ok in Hobj as (E & Hw & Hz). by rewrite Hz. }
  split; [by split|]. split; [done|]. split; [done|]. cbn [fr_type fr_deliveryID fr_envelopeDigest
    fr_objectDigest fr_canonical fr_signature]. destruct w; cbn in *. unfold frameVersion in *. congruence.
Qed.

Lemma wireToFrame_wire_of f v :
  frame_typed f → wireToFrame (wire_of f) = Ok v → v = with_body f "".
Proof.
  intros [H1 H2 H3] H. apply wireToFrame_Ok in H as (_ & Hb & _ & E).
  pose proof (f_equal fw_Type E) as E1. pose proof (f_equal fw_DeliveryID E) as E2.
  pose proof (f_equal fw_EnvelopeDigest E) as E3. pose proof (f_equal fw_ObjectDigest E) as E4.
  pose proof (f_equal fw_Canonical E) as E5. pose proof (f_equal fw_Signature E) as E6.
  cbn [wire_of fw_Type fw_DeliveryID fw_EnvelopeDigest fw_ObjectDigest fw_Canonical fw_Signature] in *.
  apply Digest_String_inj in E3. unfold DeliveryID_String in E2. apply string_app_inj in E2.
  assert (f.(fr_deliveryID) = v.(fr_deliveryID)) as E2'.
  { apply Digest_String_inj. unfold Digest_String. by rewrite E2. }
  assert (f.(fr_objectDigest) = v.(fr_objectDigest)) as E4'.
  { revert E4. unfold Digest_IsZero. repeat case_bool_decide; try congruence; [done..|].
    apply Digest_String_inj. }
  destruct v; cbn in *. unfold with_body. by subst.
Qed.

(** What every admitted shape has in common. *)
Lemma validateFrameShape_Ok w v :
  validateFrameShape w v = Ok () → 0 <= w.(fw_BodyBytes) <= MaxObjectBytes ∧ valid_utf8 w.(fw_Type) = true.
Proof.
  unfold validateFrameShape. intros H.
  repeat case_bool_decide; try discriminate;
    unfold validateDeliveryOffer, validateTransportACK, validateAdmissionReceipt, validateArtifactRequest,
      validateArtifactResponse in H; apply fail_if_Ok in H; rewrite !orb_false_iff in H;
    destruct_and! H; rewrite ?negb_false_iff, ?Z.eqb_eq, ?Z.ltb_ge in *;
    (split; [unfold MaxObjectBytes in *; change (Z.shiftl 4 20) with 4194304 in *; lia|by replace (fw_Type w)]).
Qed.

Lemma wire_of_with_body w f body :
  wireToFrame w = Ok f → slen body = w.(fw_BodyBytes) → wire_of (with_body f body) = w.
Proof.
  intros H Hb. apply wireToFrame_Ok in H as (_ & _ & _ & E). rewrite E. clear E.
  unfold wire_of. cbn [with_body fr_type fr_deliveryID fr_envelopeDigest fr_objectDigest fr_canonical
    fr_signature fr_body]. by rewrite Hb.
Qed.

Lemma wire_enc_ok w f : wireToFrame w = Ok f → enc_ok w.
Proof.
  intros H. apply wireToFrame_Ok in H as (_ & _ & Hs & E). apply validateFrameShape_Ok in Hs as [Hb Ht].
  rewrite (f_equal fw_Type E) in Ht. rewrite E. split; [by split|]. split; [exact Ht|].
  split; [by eauto with wire_ok|]. split; [by eauto with wire_ok|].
  split; [cbn [fw_ObjectDigest]; case_match; [done|by eauto with wire_ok]|].
  split; [done|]. split; [done|]. unfold MaxObjectBytes in Hb. change (Z.shiftl 4 20) with 4194304 in Hb.
  cbn. unfold min_int64, max_int64. lia.
Qed.

Lemma parseFrameWire_canonical w : enc_ok w → parseFrameWire (canonical_bytes w) = Ok w.
Proof.
  intros Hw. unfold parseFrameWire.
  assert (valid_utf8 (canonical_bytes w) = true) as -> by by apply marshal_utf8, enc_wf. cbn [negb fail_if mbind result_bind].
  rewrite canonical_bytes_parse by done. cbn [mbind result_bind]. rewrite dec_enc by done.
  cbn [mbind result_bind or_error]. by rewrite bool_decide_eq_true_2.
Qed.

Lemma parseFrameWire_Ok raw w : parseFrameWire raw = Ok w → raw = canonical_bytes w.
Proof.
  unfold parseFrameWire. intros H. apply bind_Ok in H as ([] & _ & H). apply bind_Ok in H as ([w' rest] & _ & H).
  apply bind_Ok in H as ([] & _ & H). apply bind_Ok in H as ([] & He & [= <-]).
  by apply fail_if_Ok, negb_false_iff, bool_decide_eq_true in He.
Qed.

Lemma with_body_id f b : f.(fr_body) = b → with_body f b = f.
Proof. by destruct f; cbn; intros ->. Qed.

(** ** Writing and reading *)

Lemma writeFrame_Ok f bytes :
  writeFrame f = Ok bytes ↔
  is_ok (wireToFrame (wire_of f)) = true ∧ artifact_diverges f = false ∧
  slen (canonical_bytes (wire_of f)) <= maxHeaderSize ∧ canonical_bytes (wire_of f) ≠ "" ∧
  bytes = be32 (slen (canonical_bytes (wire_of f))) +:+ canonical_bytes (wire_of f) +:+ f.(fr_body).
Proof.
  unfold writeFrame, frameToWire. destruct (wireToFrame (wire_of f)) as [v|e] eqn:Hw;
    cbn [mbind result_bind is_ok].
  2:{ split; [intros H; discriminate H|intros [H _]; discriminate H]. }
  destruct (artifact_diverges f); cbn [fail_if mbind result_bind].
  { split; [intros H; discriminate H|intros (_ & H & _); discriminate H]. }
  generalize (canonical_bytes (wire_of f)) as h. intros h.
  destruct (is_empty h) eqn:He; cbn [orb fail_if mbind result_bind].
  { apply is_empty_true in He. split; [intros H; discriminate H|by intros (_ & _ & _ & H & _)]. }
  apply is_empty_false in He. destruct (Z.ltb_spec maxHeaderSize (slen h)); cbn [fail_if mbind result_bind].
  - split; [intros H'; discriminate H'|intros (_ & _ & ? & _); lia].
  - split; [intros H'%(inj Ok); by subst|intros (_ & _ & _ & _ & ->); done].
Qed.

Lemma header_size_range (h : string) : h ≠ "" → slen h <= maxHeaderSize → 0 < slen h < 2 ^ 32.
Proof.
  intros Hne Hl. unfold maxHeaderSize in Hl. change (Z.shiftl 48 10) with 49152 in Hl.
  change (2 ^ 32) with 4294967296. destruct h; [done|]. unfold slen in *. cbn [String.length] in *. lia.
Qed.

Lemma readFrame_writeFrame f bytes rest :
  frame_typed f → writeFrame f = Ok bytes → readFrame (bytes +:+ rest) = Ok (f, rest).
Proof.
  intros Hf (Hw & Ha & Hs & Hne & ->)%writeFrame_Ok. set (h := canonical_bytes (wire_of f)) in *.
  destruct (wireToFrame (wire_of f)) as [v|] eqn:Hv; [|done].
  pose proof (wireToFrame_wire_of _ _ Hf Hv) as ->. pose proof (header_size_range h Hne Hs) as Hr.
  unfold readFrame. rewrite !string_app_assoc.
  rewrite (read_full_app (be32 (slen h)) (h +:+ f.(fr_body) +:+ rest) : read_full framePrefix _ = _).
  cbn [of_option mbind result_bind]. rewrite read_be32_be32 by lia.
  rewrite (proj2 (Z.eqb_neq _ _)), (proj2 (Z.ltb_ge _ _)) by lia. cbn [orb fail_if mbind result_bind].
  assert (Z.to_nat (slen h) = String.length h) as -> by (unfold slen; lia).
  rewrite read_full_app. cbn [of_option mbind result_bind]. unfold h.
  rewrite parseFrameWire_canonical by (by eapply wire_enc_ok). cbn [mbind result_bind]. rewrite Hv.
  cbn [mbind result_bind]. cbn [wire_of fw_BodyBytes].
  destruct (Z.ltb_spec 0 (slen f.(fr_body))) as [Hb|Hb].
  - assert (Z.to_nat (slen f.(fr_body)) = String.length f.(fr_body)) as -> by (unfold slen; lia).
    rewrite read_full_app. cbn [of_option mbind result_bind].
    change (with_body (with_body f "") f.(fr_body)) with (with_body f f.(fr_body)).
    by rewrite with_body_id, Ha by done.
  - cbn [mbind result_bind]. assert (f.(fr_body) = "") as E.
    { destruct f.(fr_body); [done|]. unfold slen in Hb. cbn [String.length] in Hb. lia. }
    rewrite (with_body_id f "" E), Ha. by rewrite E.
Qed.

Lemma readFrame_Ok s f rest :
  readFrame s = Ok (f, rest) → frame_typed f ∧ ∃ bytes, writeFrame f = Ok bytes ∧ s = bytes +:+ rest.
Proof.
  unfold readFrame. intros H. apply bind_Ok in H as ([prefix s1] & Hp%of_option_Ok & H).
  apply read_full_Some in Hp as [-> Hp]. destruct (be32_read_be32 _ Hp) as [Ep Hpr].
  apply bind_Ok in H as ([] & Hsize & H). apply fail_if_Ok, orb_false_iff in Hsize as [H0 H1%Z.ltb_ge].
  apply Z.eqb_neq in H0.
  apply bind_Ok in H as ([h s2] & Hh%of_option_Ok & H). apply read_full_Some in Hh as [-> Hh].
  apply bind_Ok in H as (w & Hw & H). apply parseFrameWire_Ok in Hw as ->.
  apply bind_Ok in H as (v & Hv & H). apply bind_Ok in H as ([v' s3] & Hbody & H).
  apply bind_Ok in H as ([] & Ha%fail_if_Ok & [= <- <-]).
  destruct (wireToFrame_Ok _ _ Hv) as (Hty & Hb0 & Hshape & _). apply validateFrameShape_Ok in Hshape as [Hbb _].
  assert (∃ body, v' = with_body v body ∧ slen body = w.(fw_BodyBytes) ∧ s2 = body +:+ s3) as (body & -> & Hl & ->).
  { destruct (Z.ltb_spec 0 w.(fw_BodyBytes)).
    - apply bind_Ok in Hbody as ([body s4] & Hr%of_option_Ok & [= <- <-]). apply read_full_Some in Hr as [-> Hr].
      exists body. split_and!; [done| |done]. unfold slen. lia.
    - injection Hbody as <- <-. exists "". split; [by rewrite with_body_id|].
      split; [change (slen "") with 0; lia|done]. }
  pose proof (wire_of_with_body _ _ _ Hv Hl) as Ew.
  assert (slen (canonical_bytes w) = read_be32 prefix) as Es.
  { unfold slen. rewrite Hh. lia. }
  split; [by destruct Hty; split|]. eexists. split.
  - apply writeFrame_Ok. rewrite Ew, Hv. split; [done|]. split; [done|]. split; [lia|].
    split; [|reflexivity]. intros E. rewrite E in Es. change (slen "") with 0 in Es. congruence.
  - cbn [with_body fr_body]. rewrite Es, Ep. by rewrite !string_app_assoc.
Qed.

(** ** Depth of the embedded documents *)

Lemma ref_wire_depth (r : eventRefWire) : (json_depth (enc r) <= 1)%nat.
Proof. revert r. solve_depth. Qed.
#[local] Hint Resolve ref_wire_depth : depth.

Lemma origin_wire_depth (w : peerDeliveryOriginWire) : (json_depth (enc w) <= 3)%nat.
Proof. revert w. solve_depth. Qed.
#[local] Hint Resolve origin_wire_depth : depth.

Lemma delivery_wire_depth (w : peerDeliveryWire) : (json_depth (enc w) <= 4)%nat.
Proof. revert w. solve_depth. Qed.

Lemma receipt_wire_depth (w : peerAdmissionReceiptWire) : (json_depth (enc w) <= 2)%nat.
Proof. revert w. solve_depth. Qed.

(** A sealed document is admissible inside a frame. *)
Lemma embedded_canonical {A} `{CodecLaws A} (w : A) maximum n :
  enc_ok w → (json_depth (enc w) <= n)%nat → (n <= 100)%nat → slen (canonical_bytes w) <= maximum →
  embedded_json_ok (canonical_bytes w) maximum = true.
Proof.
  intros Hw Hd Hn Hl. pose proof (enc_wf w Hw) as Hwf. unfold embedded_json_ok, canonical_bytes in *.
  rewrite (proj2 (is_empty_false _)) by by apply marshal_nonempty.
  rewrite (proj2 (Z.leb_le _ _)) by done. rewrite marshal_utf8 by done.
  rewrite json_Valid_marshal by (done || (unfold maxNestingDepth; lia)).
  by rewrite bool_decide_eq_true_2 by by apply json_Compact_marshal.
Qed.

(** ** Size of a header *)

Lemma b64_marshal_length s : slen (marshal_string (b64_encode s)) = 4 * ((slen s + 2) / 3) + 2.
Proof. by rewrite marshal_string_length, escape_plain, b64_encode_length by apply b64_encode_plain. Qed.

Lemma bytes_member_size k s n :
  slen s <= n → member_size (@omitempty string bytes_codec k s) <= slen (marshal_string k) + 4 * ((n + 2) / 3) + 4.
Proof.
  intros Hn. unfold member_size, omitempty. cbn [fst snd empty enc bytes_codec].
  pose proof (Z.div_le_mono (slen s + 2) (n + 2) 3 ltac:(lia) ltac:(lia)).
  assert (0 <= slen (marshal_string k)) by (unfold slen; lia).
  assert (0 <= (n + 2) / 3) by (apply Z.div_pos; unfold slen in *; lia).
  destruct (is_empty s); [lia|]. change (marshal (JStr (b64_encode s))) with (marshal_string (b64_encode s)).
  rewrite b64_marshal_length. lia.
Qed.

Lemma plain_marshal_length s : forallb plain_byte (string_to_bytes s) = true → slen (marshal_string s) = slen s + 2.
Proof. intros H. by rewrite marshal_string_length, escape_plain. Qed.

(** A decimal numeral has at most as many digits as the number has bits. *)
Lemma double_digits d :
  (Decimal.nb_digits (Decimal.Little.double d) <= S (Decimal.nb_digits d))%nat ∧
  (Decimal.nb_digits (Decimal.Little.succ_double d) <= S (Decimal.nb_digits d))%nat.
Proof.
  induction d as [|d [IH1 IH2]|d [IH1 IH2]|d [IH1 IH2]|d [IH1 IH2]|d [IH1 IH2]|d [IH1 IH2]|d [IH1 IH2]|
    d [IH1 IH2]|d [IH1 IH2]|d [IH1 IH2]]; cbn; lia.
Qed.

Lemma little_digits p : (Decimal.nb_digits (Pos.to_little_uint p) <= Pos.size_nat p)%nat.
Proof.
  induction p as [p IH|p IH|]; cbn [Pos.to_little_uint Pos.size_nat]; [..|done];
    pose proof (double_digits (Pos.to_little_uint p)) as []; lia.
Qed.

Lemma string_of_uint_length d : String.length (NilEmpty.string_of_uint d) = Decimal.nb_digits d.
Proof. induction d; cbn [NilEmpty.string_of_uint String.length Decimal.nb_digits]; congruence. Qed.

Lemma size_nat_bound p k : (Z.pos p < 2 ^ Z.of_nat k) → (Pos.size_nat p <= k)%nat.
Proof.
  revert k. induction p as [p IH|p IH|]; intros [|k] Hp; cbn [Pos.size_nat]; try (change (2 ^ Z.of_nat 0) with 1 in Hp; lia).
  - rewrite Nat2Z.inj_succ, Z.pow_succ_r in Hp by lia. apply le_n_S, IH. lia.
  - rewrite Nat2Z.inj_succ, Z.pow_succ_r in Hp by lia. apply le_n_S, IH. lia.
Qed.

Lemma nilzero_length d : (String.length (NilZero.string_of_uint d) <= Nat.max 1 (Decimal.nb_digits d))%nat.
Proof. rewrite <- string_of_uint_length. destruct d; cbn [NilZero.string_of_uint]; cbn; lia. Qed.

Lemma enc_Z_length z k : 0 <= z < 2 ^ Z.of_nat k → (0 < k)%nat → slen (marshal (enc_Z z)) <= Z.of_nat k.
Proof.
  intros Hz Hk. unfold enc_Z. rewrite (proj2 (Z.ltb_ge _ _)) by lia. cbn [marshal]. unfold slen, dec_of_N.
  pose proof (nilzero_length (N.to_uint (Z.to_N z))) as Hl.
  enough (Decimal.nb_digits (N.to_uint (Z.to_N z)) <= k)%nat by lia.
  destruct z as [|p|p]; [cbn; lia| |lia]. cbn [Z.to_N N.to_uint]. unfold Pos.to_uint. rewrite nb_digits_rev.
  etransitivity; [apply little_digits|]. apply size_nat_bound, Hz.
Qed.

(** ** Frames that are written *)

Lemma DeliveryID_String_length d : digest_wf d → slen (marshal_string (DeliveryID_String d)) = 75.
Proof.
  intros Hd. rewrite plain_marshal_length.
  - unfold DeliveryID_String, slen. by rewrite string_length_app, hex_encode_length, Hd.
  - unfold DeliveryID_String. rewrite string_to_bytes_app, forallb_app. apply andb_true_iff. split; [done|].
    pose proof (hex_encode_plain d). done.
Qed.

Definition frame_types : list string :=
  [frameDeliveryOffer; frameTransportACK; frameAdmissionReceipt; frameArtifactRequest; frameArtifactResponse].

Lemma header_size f n :
  frame_typed f → f.(fr_type) ∈ frame_types → slen f.(fr_canonical) <= n → slen f.(fr_signature) <= SignatureSize →
  slen f.(fr_body) <= MaxObjectBytes → slen (canonical_bytes (wire_of f)) <= 4 * ((n + 2) / 3) + 600.
Proof.
  intros [H1 H2 H3] Hty Hc Hs Hb. unfold canonical_bytes.
  etransitivity; [apply struct_length|].
  cbn [map foldr wire_of fw_Version fw_Type fw_DeliveryID fw_EnvelopeDigest fw_ObjectDigest fw_Canonical
    fw_Signature fw_BodyBytes].
  pose proof (bytes_member_size "canonical" _ _ Hc) as Lc.
  pose proof (bytes_member_size "signature" _ _ Hs) as Ls.
  change (slen (marshal_string "canonical")) with 11 in Lc. change (slen (marshal_string "signature")) with 11 in Ls.
  change (4 * ((SignatureSize + 2) / 3)) with 88 in Ls.
  assert (member_size (@field Z uint8_codec "version" frameVersion) = 12) as -> by reflexivity.
  assert (member_size (field "delivery_id" (DeliveryID_String f.(fr_deliveryID))) = 90) as ->.
  { unfold member_size, field. cbn [fst snd enc string_codec].
    change (marshal (JStr (DeliveryID_String f.(fr_deliveryID))))
      with (marshal_string (DeliveryID_String f.(fr_deliveryID))). by rewrite DeliveryID_String_length. }
  assert (member_size (field "envelope_digest" (Digest_String f.(fr_envelopeDigest))) = 92) as ->.
  { unfold member_size, field. cbn [fst snd enc string_codec].
    change (marshal (JStr (Digest_String f.(fr_envelopeDigest))))
      with (marshal_string (Digest_String f.(fr_envelopeDigest))). by rewrite Digest_String_length. }
  assert (member_size (omitempty "object_digest" (if Digest_IsZero f.(fr_objectDigest) then ""
    else Digest_String f.(fr_objectDigest))) <= 90) as Lo.
  { destruct (Digest_IsZero f.(fr_objectDigest)); [done|].
    etransitivity; [apply omitempty_string_size|]. by rewrite Digest_String_length. }
  assert (member_size (field "type" f.(fr_type)) <= 27) as Lt.
  { unfold frame_types in Hty. rewrite !elem_of_cons, elem_of_nil in Hty.
    by destruct_or! Hty; rewrite ?Hty; vm_compute. }
  assert (member_size (@omitempty Z int_codec "body_bytes" (slen f.(fr_body))) <= 40) as Lb.
  { unfold member_size, omitempty. cbn [fst snd empty enc int_codec int_codec_of].
    destruct (slen f.(fr_body) =? 0); [done|]. change (slen (marshal_string "body_bytes")) with 12.
    pose proof (enc_Z_length (slen f.(fr_body)) 23). unfold MaxObjectBytes in Hb.
    change (Z.shiftl 4 20) with 4194304 in Hb. change (2 ^ Z.of_nat 23) with 8388608 in H.
    assert (0 <= slen f.(fr_body)) by (unfold slen; lia). specialize (H ltac:(lia) ltac:(lia)). lia. }
  lia.
Qed.

Lemma Digest_String_nonempty d : is_empty (Digest_String d) = false.
Proof. by apply is_empty_false. Qed.

Lemma wireToFrame_of f :
  frame_typed f → DeliveryID_IsZero f.(fr_deliveryID) = false → Digest_IsZero f.(fr_envelopeDigest) = false →
  validateFrameShape (wire_of f) (with_body f "") = Ok () → wireToFrame (wire_of f) = Ok (with_body f "").
Proof.
  intros [H1 H2 H3] Hd He Hs. unfold wireToFrame.
  cbn [wire_of fw_Version fw_Type fw_DeliveryID fw_EnvelopeDigest fw_ObjectDigest fw_Canonical fw_Signature].
  change (negb (frameVersion =? frameVersion)) with false. cbn [fail_if mbind result_bind].
  rewrite ParseDeliveryID_String by done. cbn [or_error mbind result_bind].
  rewrite ParseDigest_String by done. cbn [or_error mbind result_bind].
  assert ((if is_empty (if Digest_IsZero f.(fr_objectDigest) then "" else Digest_String f.(fr_objectDigest))
           then Ok zero_digest
           else or_error (ParseDigest (if Digest_IsZero f.(fr_objectDigest) then ""
             else Digest_String f.(fr_objectDigest))) (Wrapped "invalid object digest" ErrFrame))
    = Ok f.(fr_objectDigest)) as ->.
  { destruct (Digest_IsZero f.(fr_objectDigest)) eqn:Hz.
    - apply bool_decide_eq_true in Hz. by rewrite Hz.
    - rewrite Digest_String_nonempty, ParseDigest_String by done. done. }
  cbn [mbind result_bind]. unfold with_body in Hs. rewrite Hs. done.
Qed.

(** The conditions under which a frame travels. *)
Record frame_ready (f : frame) : Prop := {
  fy_typed : frame_typed f;
  fy_delivery : DeliveryID_IsZero f.(fr_deliveryID) = false;
  fy_envelope : Digest_IsZero f.(fr_envelopeDigest) = false;
  fy_type : f.(fr_type) ∈ frame_types;
  fy_shape : validateFrameShape (wire_of f) (with_body f "") = Ok ();
  fy_artifact : artifact_diverges f = false;
  fy_canonical : slen f.(fr_canonical) <= MaxPeerDeliveryCanonicalBytes;
  fy_signature : slen f.(fr_signature) <= SignatureSize;
  fy_body : slen f.(fr_body) <= MaxObjectBytes;
}.

Lemma frame_travels f :
  frame_ready f → ∃ bytes, writeFrame f = Ok bytes ∧ ∀ rest, readFrame (bytes +:+ rest) = Ok (f, rest).
Proof.
  intros [Ht Hd He Hty Hs Ha Hc Hsig Hb].
  pose proof (wireToFrame_of f Ht Hd He Hs) as Hw. pose proof (header_size f _ Ht Hty Hc Hsig Hb) as Hl.
  change (4 * ((MaxPeerDeliveryCanonicalBytes + 2) / 3) + 600) with 44292 in Hl.
  assert (writeFrame f = Ok (be32 (slen (canonical_bytes (wire_of f))) +:+ canonical_bytes (wire_of f) +:+ f.(fr_body))) as H.
  { apply writeFrame_Ok. rewrite Hw. split; [done|]. split; [done|].
    split; [unfold maxHeaderSize; change (Z.shiftl 48 10) with 49152; lia|]. split; [|done].
    apply marshal_nonempty, enc_wf. by eapply wire_enc_ok. }
  eexists. split; [exact H|]. intros rest. by apply readFrame_writeFrame.
Qed.

(** ** The frames the link builds *)

Lemma zero_digest_wf : digest_wf zero_digest.
Proof. done. Qed.

Lemma delivery_ok_digests route d : delivery_ok route d → digest_wf d.(pd_id) ∧ digest_wf d.(pd_envelopeDigest).
Proof.
  intros Hd. split; [|rewrite (dok_envelope _ _ Hd); apply domainSeparatedDigest_wf].
  pose proof (dok_id _ _ Hd) as H. unfold deriveDeliveryID, canonicalJSON in H.
  apply bind_Ok in H as ([] & _ & H). cbn [mbind result_bind] in H. apply (inj Ok) in H as <-.
  apply domainSeparatedDigest_wf.
Qed.

(** A frame with an embedded signed document. *)
Lemma signed_shape kind id envelope canonical signature maximum :
  slen signature = SignatureSize → embedded_json_ok canonical maximum = true →
  (kind = frameDeliveryOffer ∧ maximum = MaxPeerDeliveryCanonicalBytes ∨
   kind = frameAdmissionReceipt ∧ maximum = MaxPeerAdmissionReceiptCanonicalBytes) →
  let f := {| fr_type := kind; fr_deliveryID := id; fr_envelopeDigest := envelope;
              fr_objectDigest := zero_digest; fr_canonical := canonical; fr_signature := signature;
              fr_body := "" |} in
  validateFrameShape (wire_of f) (with_body f "") = Ok ().
Proof.
  intros Hs He Hk f.
  assert (fail_if (negb (Digest_IsZero zero_digest) || negb (slen "" =? 0) ||
    negb (slen signature =? SignatureSize) || negb (embedded_json_ok canonical maximum)) = λ _, Ok ()) as Hok.
  { rewrite He, (proj2 (Z.eqb_eq _ _) Hs). done. }
  unfold validateFrameShape, validateDeliveryOffer, validateAdmissionReceipt, f.
  cbn [wire_of with_body fw_Type fw_Canonical fw_Signature fw_BodyBytes fr_type fr_objectDigest
    fr_canonical fr_signature fr_body].
  destruct Hk as [[-> ->]|[-> ->]]; rewrite Hok; reflexivity.
Qed.

Section signing.
Context (ed25519_sign : string → string → string) (key : string).
Context (sign_length : ∀ message, slen (ed25519_sign key message) = SignatureSize).

Lemma deliveryOfferFrame_ready route d f :
  delivery_ok route d → deliveryOfferFrame ed25519_sign d key = Ok f → frame_ready f.
Proof.
  intros Hd H. unfold deliveryOfferFrame in H. apply bind_Ok in H as ([] & Hg & H). apply (inj Ok) in H as <-.
  apply fail_if_Ok in Hg. rewrite !orb_false_iff in Hg. destruct Hg as [[[Hz1 Hz2] _] _].
  destruct (delivery_ok_digests _ _ Hd) as [Hw1 Hw2]. split; cbn; try done.
  - set_solver.
  - eapply signed_shape; [apply sign_length| |by left]. rewrite (dok_canonical _ _ Hd).
    apply (embedded_canonical _ _ 4); [by eapply delivery_wire_ok|apply delivery_wire_depth|lia|].
    rewrite <- (dok_canonical _ _ Hd : _ = canonical_bytes _). apply Hd.
  - apply Hd.
  - rewrite sign_length. done.
Qed.

Lemma deliveryResponseFrame_ready offer response f :
  digest_wf offer.(do_deliveryID) → digest_wf offer.(do_envelopeDigest) →
  (∀ r, response.(dr_receipt) = Some r → admission_receipt_ok r) →
  deliveryResponseFrame ed25519_sign offer response key = Ok f → frame_ready f.
Proof.
  intros Hw1 Hw2 Hr H. unfold deliveryResponseFrame in H. apply bind_Ok in H as ([] & Hg & H).
  apply fail_if_Ok, orb_false_iff in Hg as [Hz1 Hz2]. destruct response.(dr_transportACK).
  - apply bind_Ok in H as ([] & _ & H). apply (inj Ok) in H as <-. split; cbn; try done. set_solver.
  - apply bind_Ok in H as ([] & _ & H). apply bind_Ok in H as (receipt & Hrec%of_option_Ok & H).
    apply bind_Ok in H as ([] & _ & H). apply (inj Ok) in H as <-. specialize (Hr _ Hrec).
    pose proof (aro_size _ Hr) as Hs. unfold MaxPeerAdmissionReceiptCanonicalBytes in Hs.
    change (Z.shiftl 4 10) with 4096 in Hs.
    split; cbn; try done.
    + set_solver.
    + eapply signed_shape; [apply sign_length| |by right]. rewrite (aro_canonical _ Hr).
      apply (embedded_canonical _ _ 2); [by apply admission_receipt_wire_ok|apply receipt_wire_depth|lia|].
      rewrite <- (aro_canonical _ Hr). apply Hr.
    + unfold MaxPeerDeliveryCanonicalBytes. change (Z.shiftl 32 10) with 32768. lia.
    + rewrite sign_length. done.
Qed.
End signing.

Lemma artifactRequestFrame_ready route d digest f :
  delivery_ok route d → digest_wf digest → artifactRequestFrame d digest = Ok f → frame_ready f.
Proof.
  intros Hd Hw H. unfold artifactRequestFrame in H. apply bind_Ok in H as ([] & Hg & H). apply (inj Ok) in H as <-.
  apply fail_if_Ok in Hg. rewrite !orb_false_iff in Hg. destruct Hg as [[[Hz1 Hz2] Hz3] _].
  destruct (delivery_ok_digests _ _ Hd) as [Hw1 Hw2]. split; cbn; try done; [set_solver|].
  unfold validateFrameShape, validateArtifactRequest.
  cbn [wire_of with_body fw_Type fw_Canonical fw_Signature fw_BodyBytes fr_type fr_objectDigest fr_canonical
    fr_signature fr_body]. by rewrite Hz3.
Qed.

Lemma artifactResponseFrame_ready request body f :
  digest_wf request.(arq_deliveryID) → digest_wf request.(arq_envelopeDigest) →
  digest_wf request.(arq_objectDigest) → artifactResponseFrame request body = Ok f → frame_ready f.
Proof.
  intros Hw1 Hw2 Hw3 H. unfold artifactResponseFrame in H. apply bind_Ok in H as ([] & Hg & H).
  apply (inj Ok) in H as <-. apply fail_if_Ok in Hg. rewrite !orb_false_iff in Hg.
  destruct Hg as [[[[Hz1 Hz2] Hz3] Hl%Z.ltb_ge] Hs%negb_false_iff]. split; cbn; try done.
  - set_solver.
  - unfold validateFrameShape, validateArtifactResponse.
    cbn [wire_of with_body fw_Type fw_Canonical fw_Signature fw_BodyBytes fr_type fr_objectDigest fr_canonical
      fr_signature fr_body]. rewrite Hz3, (proj2 (Z.ltb_ge MaxObjectBytes _) Hl).
    rewrite (proj2 (Z.ltb_ge _ 0)) by (unfold slen; lia). done.
  - unfold artifact_diverges. cbn [fr_type fr_body fr_objectDigest]. by rewrite Hs, andb_false_r.
Qed.
