(* ===== verification/Link.v ===== *)
(** The peer link (internal/agency/peerlink/client.go, server.go, identity.go):
    enrolled key pins, the server's answer to one request frame, and the client's
    two operations over one connection each.

    TLS and TCP are outside: a connection the server accepts is described by what
    [authenticateConnection] reads of it, and a client's connection is the function
    [le_dial] from the bytes sent to the bytes received, which may do anything. *)

From Stdlib Require Import Lia.
From S2P Require Import Prelude Utf8 Json Wire Sha256 Time Value Intent Bound Event Peer Base64 Compact.
From S2P Require Import Frame.

#[local] Open Scope Z_scope.

Definition protocolALPN : string := "mnemon-peerlink/1".
Definition maxAddressBytes : Z := 512.
Definition PublicKeySize : Z := 32.
Definition defaultMaxHandlers : Z := 8.
Definition maximumHandlers : Z := 64.
Definition maximumTimeout : Z := 60 * ns_per_second.

(** ** Identities and pins *)

Record localIdentity := { li_id : OpaqueHandle; li_privateKey : string; li_publicKey : string }.
Record LinkPeer := { lp_ID : OpaqueHandle; lp_PublicKey : string; lp_Address : string }.
Record AuthenticatedPeer := { aup_id : OpaqueHandle; aup_publicKey : string }.

Definition validAddress (value : string) : bool :=
  negb (is_empty value) && (slen value <=? maxAddressBytes) &&
  negb (existsb (Ascii.eqb "000") (string_to_bytes value)).

Definition preparePeer (peer : LinkPeer) (requireAddress : bool) : result LinkPeer :=
  _ ← fail_if (IsZero peer.(lp_ID) || negb (slen peer.(lp_PublicKey) =? PublicKeySize))
        (Wrapped "complete peer ID and Ed25519 key are required" ErrInput);
  _ ← fail_if (requireAddress && negb (validAddress peer.(lp_Address)))
        (Wrapped "bounded peer address is required" ErrInput);
  Ok peer.

(** One enrolled peer added to the pins; [ids] are the identities seen so far. *)
Definition add_pin (local : localIdentity) (acc : gmap string LinkPeer * list OpaqueHandle)
    (input : LinkPeer) : result (gmap string LinkPeer * list OpaqueHandle) :=
  let '(pins, ids) := acc in
  peer ← preparePeer input false;
  _ ← fail_if (bool_decide (peer.(lp_ID) = local.(li_id)) ||
               bool_decide (peer.(lp_PublicKey) = local.(li_publicKey)))
        (Wrapped "a peer cannot be the local identity" ErrInput);
  _ ← fail_if (is_some (pins !! peer.(lp_PublicKey))) (Wrapped "duplicate enrolled public key" ErrInput);
  _ ← fail_if (bool_decide (peer.(lp_ID) ∈ ids)) (Wrapped "duplicate enrolled peer ID" ErrInput);
  Ok (<[peer.(lp_PublicKey) := {| lp_ID := peer.(lp_ID); lp_PublicKey := peer.(lp_PublicKey);
                                 lp_Address := "" |}]> pins, peer.(lp_ID) :: ids).

Definition peerPins (local : localIdentity) (peers : list LinkPeer) : result (gmap string LinkPeer) :=
  _ ← fail_if (lenZ peers =? 0) (Wrapped "at least one enrolled peer is required" ErrInput);
  '(pins, _) ← foldR (add_pin local) (∅, []) peers;
  Ok pins.

(** What [authenticateConnection] reads of a certificate: the Ed25519 key, when it
    is one, the algorithm and key usage, the validity period, and whether the
    certificate's own key signed it. *)
Record certificate := {
  ct_publicKey : option string; ct_ed25519 : bool; ct_digitalSignature : bool;
  ct_notBefore : Time; ct_notAfter : Time; ct_selfSigned : bool }.
Record connectionState := { cs_protocol : string; cs_certificates : list certificate }.

Definition authenticateConnection (state : connectionState) (pins : gmap string LinkPeer) (now : Time)
    : result AuthenticatedPeer :=
  let exact := Wrapped "exact peer certificate and protocol are required" ErrAuthentication in
  let invalid := Wrapped "invalid self-signed Ed25519 certificate" ErrAuthentication in
  _ ← fail_if (negb (bool_decide (state.(cs_protocol) = protocolALPN)) ||
               negb (lenZ state.(cs_certificates) =? 1)) exact;
  cert ← of_option (head state.(cs_certificates)) exact;
  publicKey ← of_option cert.(ct_publicKey) invalid;
  _ ← fail_if (negb (slen publicKey =? PublicKeySize) || negb cert.(ct_ed25519) ||
               negb cert.(ct_digitalSignature) || (now <? cert.(ct_notBefore)) ||
               (cert.(ct_notAfter) <? now) || negb cert.(ct_selfSigned)) invalid;
  peer ← of_option (pins !! publicKey) (Wrapped "public key is not enrolled" ErrAuthentication);
  Ok {| aup_id := peer.(lp_ID); aup_publicKey := peer.(lp_PublicKey) |}.

Definition boundedHandlers (value : Z) : result Z :=
  if value =? 0 then Ok defaultMaxHandlers else
  _ ← fail_if ((value <? 0) || (maximumHandlers <? value))
        (Wrapped "handler concurrency is outside the supported bound" ErrInput);
  Ok value.

Definition boundedTimeout (value fallback : Z) : result Z :=
  if value =? 0 then Ok fallback else
  _ ← fail_if ((value <? 0) || (maximumTimeout <? value))
        (Wrapped "timeout is outside the supported bound" ErrInput);
  Ok value.

(** ** The server: one request frame, one answer *)

Section server.
Context {S : Type} (ed25519_sign : string → string → string) (privateKey : string).
(** The delivery and authorization callbacks, and [artifact.Store.Read]. *)
Context (delivery : S → AuthenticatedPeer → DeliveryOffer → result DeliveryResponse * S)
        (authorizeArtifact : S → AuthenticatedPeer → ArtifactRequest → result bool * S)
        (read : S → Digest → result string).

Definition offer_of (request : frame) : DeliveryOffer := {|
  do_deliveryID := request.(fr_deliveryID); do_envelopeDigest := request.(fr_envelopeDigest);
  do_canonical := request.(fr_canonical); do_signature := request.(fr_signature) |}.

Definition respond (s : S) (peer : AuthenticatedPeer) (request : frame) : result frame * S :=
  if bool_decide (request.(fr_type) = frameDeliveryOffer) then
    let offer := offer_of request in
    let '(response, s) := delivery s peer offer in
    (response ← wrap_error "delivery callback" response;
     deliveryResponseFrame ed25519_sign offer response privateKey, s)
  else if bool_decide (request.(fr_type) = frameArtifactRequest) then
    let artifactRequest := {| arq_deliveryID := request.(fr_deliveryID);
      arq_envelopeDigest := request.(fr_envelopeDigest); arq_objectDigest := request.(fr_objectDigest) |} in
    let '(authorized, s) := authorizeArtifact s peer artifactRequest in
    (authorized ← wrap_error "Artifact authorization" authorized;
     _ ← fail_if (negb authorized) (Wrapped "Artifact scope was not authorized" ErrAuthentication);
     body ← wrap_error "read Artifact" (read s artifactRequest.(arq_objectDigest));
     artifactResponseFrame artifactRequest body, s)
  else (Err (Wrapped "first frame is not a request" ErrFrame), s).

(** An authenticated connection: the bytes received, the bytes sent back before
    the connection is closed. *)
Definition handle (s : S) (peer : AuthenticatedPeer) (input : string) : string * S :=
  match readFrame input with
  | Err _ => ("", s)
  | Ok (request, _) =>
      let '(response, s) := respond s peer request in
      match (response ← response; writeFrame response) with
      | Ok output => (output, s)
      | Err _ => ("", s)
      end
  end.
End server.

(** ** The client *)

(** One connection to a destination, and [artifact.Store.Put]. *)
Record LinkEnv (W : Type) := {
  le_dial : W → LinkPeer → string → result string * W;
  le_put : W → Digest → string → result () * W;
}.
Arguments le_dial {_}.
Arguments le_put {_}.

Definition clientSessionError (cause : error) : error :=
  if errors_is cause ErrFrame || errors_is cause ErrInput || errors_is cause ErrAuthentication
  then cause else Wrapped "session" ErrTransport.

Definition session_error {A} (r : result A) : result A :=
  match r with Ok x => Ok x | Err e => Err (clientSessionError e) end.

Section client.
Context {W : Type} (env : LinkEnv W) (ed25519_sign : string → string → string)
  (ed25519_verify : string → string → string → bool) (identity : localIdentity).

Definition destination (input : LinkPeer) : result LinkPeer :=
  peer ← preparePeer input true;
  _ ← fail_if (bool_decide (peer.(lp_ID) = identity.(li_id)) ||
               bool_decide (peer.(lp_PublicKey) = identity.(li_publicKey)))
        (Wrapped "destination cannot be the local identity" ErrInput);
  Ok peer.

(** One request frame sent over a fresh connection, one frame read back. *)
Definition exchange_frames (w : W) (peer : LinkPeer) (request : frame) : result frame * W :=
  match session_error (writeFrame request) with
  | Err e => (Err e, w)
  | Ok bytes =>
      let '(reply, w) := env.(le_dial) w peer bytes in
      (session_error (reply ← reply; '(response, _) ← readFrame reply; Ok response), w)
  end.

(** What a response frame to an offer means. *)
Definition delivery_response (peer : LinkPeer) (delivery : PeerDelivery) (response : frame)
    : result DeliveryResponse :=
  _ ← fail_if (negb (bool_decide (response.(fr_deliveryID) = delivery.(pd_id))) ||
               negb (bool_decide (response.(fr_envelopeDigest) = delivery.(pd_envelopeDigest))))
        (Wrapped "response does not bind the delivery" ErrFrame);
  if bool_decide (response.(fr_type) = frameTransportACK) then Ok NewTransportACK
  else if bool_decide (response.(fr_type) = frameAdmissionReceipt) then
    let invalid := Wrapped "invalid signed admission Receipt" ErrFrame in
    receipt ← or_error (ParsePeerAdmissionReceiptCanonicalJSON response.(fr_canonical) delivery) invalid;
    _ ← fail_if (negb (ed25519_verify peer.(lp_PublicKey)
                   (default "" (PeerAdmissionReceipt_SigningMessage receipt)) response.(fr_signature))) invalid;
    Ok {| dr_transportACK := false; dr_receipt := Some receipt; dr_signature := response.(fr_signature) |}
  else Err (Wrapped "unexpected delivery response" ErrFrame).

Definition SendDelivery (w : W) (input : LinkPeer) (delivery : PeerDelivery)
    : result DeliveryResponse * W :=
  match (request ← deliveryOfferFrame ed25519_sign delivery identity.(li_privateKey);
         peer ← destination input; Ok (request, peer)) with
  | Err e => (Err e, w)
  | Ok (request, peer) =>
      let '(response, w) := exchange_frames w peer request in
      (response ← response; delivery_response peer delivery response, w)
  end.

Definition PullArtifact (w : W) (input : LinkPeer) (delivery : PeerDelivery) (digest : Digest)
    : result () * W :=
  match (request ← artifactRequestFrame delivery digest;
         peer ← destination input; Ok (request, peer)) with
  | Err e => (Err e, w)
  | Ok (request, peer) =>
      let '(response, w) := exchange_frames w peer request in
      match (response ← response;
             _ ← fail_if (negb (bool_decide (response.(fr_type) = frameArtifactResponse)) ||
                    negb (bool_decide (response.(fr_deliveryID) = delivery.(pd_id))) ||
                    negb (bool_decide (response.(fr_envelopeDigest) = delivery.(pd_envelopeDigest))) ||
                    negb (bool_decide (response.(fr_objectDigest) = digest)) ||
                    negb (bool_decide (Sum response.(fr_body) = digest)))
                   (Wrapped "Artifact response does not bind the request" ErrFrame);
             Ok response.(fr_body)) with
      | Err e => (Err e, w)
      | Ok body =>
          let '(stored, w) := env.(le_put) w digest body in
          (wrap_error "store received Artifact" stored, w)
      end
  end.
End client.

(** ** What the client may conclude *)

Lemma session_error_Ok {A} (r : result A) x : session_error r = Ok x → r = Ok x.
Proof. by destruct r. Qed.

Lemma delivery_response_Ok verify peer d f response :
  delivery_response verify peer d f = Ok response →
  (response = NewTransportACK ∧ f.(fr_type) = frameTransportACK) ∨
  ∃ r, response = {| dr_transportACK := false; dr_receipt := Some r; dr_signature := f.(fr_signature) |} ∧
    f.(fr_type) = frameAdmissionReceipt ∧
    ParsePeerAdmissionReceiptCanonicalJSON f.(fr_canonical) d = Ok r ∧
    verify peer.(lp_PublicKey) (default "" (PeerAdmissionReceipt_SigningMessage r)) f.(fr_signature) = true.
Proof.
  unfold delivery_response. intros H. apply bind_Ok in H as ([] & _ & H).
  case_bool_decide; [left; split; [by apply (inj Ok) in H|done]|]. case_bool_decide as Ht; [|done]. right. cbv zeta in H.
  apply bind_Ok in H as (r & Hr%or_error_Ok & H). apply bind_Ok in H as ([] & Hv & H).
  apply fail_if_Ok, negb_false_iff in Hv. apply (inj Ok) in H as <-. by exists r.
Qed.

Lemma destination_Ok identity input peer :
  destination identity input = Ok peer → peer = input ∧ peer.(lp_ID) ≠ identity.(li_id) ∧
    peer.(lp_PublicKey) ≠ identity.(li_publicKey) ∧ slen peer.(lp_PublicKey) = PublicKeySize.
Proof.
  unfold destination, preparePeer. intros H. apply bind_Ok in H as (p & Hp & H).
  apply bind_Ok in H as ([] & Hg & H). apply (inj Ok) in H as <-.
  apply bind_Ok in Hp as ([] & Hk & Hp). apply bind_Ok in Hp as ([] & _ & Hp). apply (inj Ok) in Hp as <-.
  apply fail_if_Ok in Hk, Hg. apply orb_false_iff in Hk as [_ Hk%negb_false_iff%Z.eqb_eq].
  apply orb_false_iff in Hg as [H1%bool_decide_eq_false H2%bool_decide_eq_false]. done.
Qed.

(** Whatever the connection does, a Receipt the client reports is bound to the
    delivery sent and signed by the key of the destination asked for. *)
Lemma SendDelivery_sound {W} (env : LinkEnv W) sign verify identity w input d response w' :
  SendDelivery env sign verify identity w input d = (Ok response, w') →
  response = NewTransportACK ∨
  ∃ r canonical signature,
    response = {| dr_transportACK := false; dr_receipt := Some r; dr_signature := signature |} ∧
    ParsePeerAdmissionReceiptCanonicalJSON canonical d = Ok r ∧
    verify input.(lp_PublicKey) (default "" (PeerAdmissionReceipt_SigningMessage r)) signature = true.
Proof.
  unfold SendDelivery. destruct (_ ← deliveryOfferFrame _ _ _; _) as [[request peer]|e] eqn:Hq; [|done].
  apply bind_Ok in Hq as (request' & _ & Hq). apply bind_Ok in Hq as (peer' & Hp & [= -> ->]).
  apply destination_Ok in Hp as [-> _]. destruct (exchange_frames _ _ _ _) as [reply w1].
  intros [= H <-]. apply bind_Ok in H as (f & -> & H). apply delivery_response_Ok in H as [[-> _]|(r & -> & _ & H)].
  - by left.
  - right. exists r, f.(fr_canonical), f.(fr_signature). by destruct H.
Qed.

(** ** A connection to a server *)

Section served.
Context {W : Type} (env : LinkEnv W) (sign : string → string → string)
  (verify : string → string → string → bool) (identity : localIdentity).
(** The server at the other end, the peer it takes the client for, and its key. *)
Context (key : string) (client : AuthenticatedPeer)
  (delivery : W → AuthenticatedPeer → DeliveryOffer → result DeliveryResponse * W)
  (authorizeArtifact : W → AuthenticatedPeer → ArtifactRequest → result bool * W)
  (read : W → Digest → result string).

(** The connection to [peer] reaches that server and carries bytes unchanged. *)
Definition serves (peer : LinkPeer) : Prop := ∀ w bytes,
  env.(le_dial) w peer bytes =
    (let '(output, w) := handle sign key delivery authorizeArtifact read w client bytes in (Ok output, w)).

Lemma exchange_frames_served peer w request response w' :
  serves peer → frame_ready request →
  respond sign key delivery authorizeArtifact read w client request = (response, w') →
  (∀ f, response = Ok f → frame_ready f) →
  exchange_frames env w peer request =
    (match response with Ok f => Ok f | Err _ => Err (Wrapped "session" ErrTransport) end, w').
Proof.
  intros Hs Hr Hresp Hf. unfold exchange_frames.
  destruct (frame_travels _ Hr) as (bytes & Hw & Hread). rewrite Hw. cbn [session_error]. rewrite Hs.
  unfold handle. specialize (Hread ""). rewrite string_app_nil_r in Hread. rewrite Hread, Hresp.
  destruct response as [f|e]; cbn [mbind result_bind].
  - destruct (frame_travels _ (Hf f eq_refl)) as (out & Hw' & Hread'). rewrite Hw'. cbn [mbind result_bind].
    specialize (Hread' ""). rewrite string_app_nil_r in Hread'. rewrite Hread'. done.
  - cbn [mbind result_bind]. done.
Qed.

(** The offer the server's callback is given. *)
Definition offered (d : PeerDelivery) : DeliveryOffer := {|
  do_deliveryID := d.(pd_id); do_envelopeDigest := d.(pd_envelopeDigest); do_canonical := d.(pd_canonical);
  do_signature := sign identity.(li_privateKey) (default "" (PeerDelivery_SigningMessage d)) |}.

(** What a callback may answer: an error, an ACK, or a complete Receipt. *)
Definition answers (answer : result DeliveryResponse) : Prop :=
  match answer with
  | Err _ => True
  | Ok response => response = NewTransportACK ∨
      ∃ r, response = {| dr_transportACK := false; dr_receipt := Some r; dr_signature := "" |} ∧
           completeReceipt (Some r) = true ∧ admission_receipt_ok r
  end.

(** The client's result for an answer. *)
Definition reported (answer : result DeliveryResponse) : result DeliveryResponse :=
  match answer with
  | Err _ => Err (Wrapped "session" ErrTransport)
  | Ok {| dr_transportACK := false; dr_receipt := Some r |} =>
      Ok {| dr_transportACK := false; dr_receipt := Some r;
            dr_signature := sign key (default "" (PeerAdmissionReceipt_SigningMessage r)) |}
  | Ok _ => Ok NewTransportACK
  end.

Hypothesis sign_client : ∀ message, slen (sign identity.(li_privateKey) message) = SignatureSize.
Hypothesis sign_server : ∀ message, slen (sign key message) = SignatureSize.

Lemma answers_receipt answer :
  answers answer → ∀ response r, answer = Ok response → response.(dr_receipt) = Some r → admission_receipt_ok r.
Proof.
  intros H response r -> Hr. destruct H as [->|(r' & -> & _ & Hok)]; [done|]. by injection Hr as <-.
Qed.

(** The frame exchanged for an offer, from the callback's answer. *)
Lemma offer_exchanged route d input request peer w answer w' :
  serves input → delivery_ok route d →
  deliveryOfferFrame sign d identity.(li_privateKey) = Ok request → destination identity input = Ok peer →
  delivery w client (offered d) = (answer, w') → answers answer →
  exchange_frames env w peer request =
    (match (response ← answer; deliveryResponseFrame sign (offered d) response key) with
     | Ok f => Ok f | Err _ => Err (Wrapped "session" ErrTransport) end, w').
Proof.
  intros Hs Hd Hq Hp Hans Hok. apply destination_Ok in Hp as [-> _].
  pose proof (deliveryOfferFrame_ready _ _ sign_client _ _ _ Hd Hq) as Hready.
  destruct (delivery_ok_digests _ _ Hd) as [Hw1 Hw2].
  unfold deliveryOfferFrame in Hq. apply bind_Ok in Hq as ([] & _ & Hq). apply (inj Ok) in Hq as <-.
  erewrite exchange_frames_served; [| |exact Hready| |].
  - instantiate (1 := w'). instantiate (1 := response ← wrap_error "delivery callback" answer;
      deliveryResponseFrame sign (offered d) response key). by destruct answer.
  - done.
  - unfold respond. cbn [fr_type]. rewrite bool_decide_eq_true_2 by done. unfold offer_of.
    cbn [fr_deliveryID fr_envelopeDigest fr_canonical fr_signature]. unfold offered in Hans. by rewrite Hans.
  - intros f Hf. apply bind_Ok in Hf as (response & Ha%wrap_error_Ok & Hf).
    eapply deliveryResponseFrame_ready; [exact sign_server| | | |exact Hf]; [done..|].
    intros r Hr. by eapply answers_receipt.
Qed.

(** The server's callback ran on exactly the delivery sent, and the client learnt
    its answer: the Receipt it recorded, or no more than an ACK. *)
Lemma SendDelivery_received route d input w answer w' response w'' :
  serves input → delivery_ok route d → delivery w client (offered d) = (answer, w') → answers answer →
  SendDelivery env sign verify identity w input d = (Ok response, w'') →
  w'' = w' ∧ reported answer = Ok response.
Proof.
  intros Hs Hd Hans Hok. unfold SendDelivery.
  destruct (_ ← deliveryOfferFrame _ _ _; _) as [[request peer]|e] eqn:Hq; [|done].
  apply bind_Ok in Hq as (request' & Hq & Hp). apply bind_Ok in Hp as (peer' & Hp & [= -> ->]).
  rewrite (offer_exchanged route d input request peer w answer w') by done.
  destruct answer as [a|e]; cbn [mbind result_bind]; [|done].
  destruct (deliveryResponseFrame _ _ _ _) as [f|e] eqn:Hf; cbn [mbind result_bind]; [|done].
  intros [= H <-]. split; [done|]. unfold deliveryResponseFrame in Hf. apply bind_Ok in Hf as ([] & _ & Hf).
  destruct Hok as [->|(r & -> & _ & Hr)]; cbn [NewTransportACK dr_transportACK dr_receipt dr_signature] in Hf |- *.
  - apply bind_Ok in Hf as ([] & _ & Hf). apply (inj Ok) in Hf as <-.
    by apply delivery_response_Ok in H as [[-> _]|(r & _ & Ht & _)].
  - cbv zeta in Hf. apply bind_Ok in Hf as ([] & _ & Hf). cbn [of_option mbind result_bind] in Hf.
    apply bind_Ok in Hf as ([] & _ & Hf). apply (inj Ok) in Hf as <-.
    apply delivery_response_Ok in H as [[_ Ht]|(r' & -> & _ & Hparse & _)]; [done|].
    by apply ParsePeerAdmissionReceiptCanonicalJSON_exact in Hparse as ->.
Qed.

(** A link that delivers loses nothing: the client reports the answer itself. *)
Lemma SendDelivery_transparent route d input w answer w' :
  serves input → delivery_ok route d → DeliveryID_IsZero d.(pd_id) = false →
  Digest_IsZero d.(pd_envelopeDigest) = false → slen identity.(li_privateKey) = PrivateKeySize →
  slen key = PrivateKeySize → destination identity input = Ok input →
  (∀ message, verify input.(lp_PublicKey) message (sign key message) = true) →
  delivery w client (offered d) = (answer, w') → answers answer →
  (∀ response r, answer = Ok response → response.(dr_receipt) = Some r →
     requirePeerAdmissionReceiptBinding r d = Ok ()) →
  SendDelivery env sign verify identity w input d = (reported answer, w').
Proof.
  intros Hs Hd Hz1 Hz2 Hk1 Hk2 Hdest Hsound Hans Hok Hbind. unfold SendDelivery.
  assert (is_empty d.(pd_canonical) = false) as Hne.
  { rewrite (dok_canonical _ _ Hd). apply is_empty_false, marshal_nonempty, enc_wf.
    by eapply delivery_wire_ok. }
  assert (∃ f, deliveryOfferFrame sign d identity.(li_privateKey) = Ok f) as [f Hf].
  { unfold deliveryOfferFrame. rewrite Hz1, Hz2, Hne, (proj2 (Z.eqb_eq _ _) Hk1). by eexists. }
  rewrite Hf, Hdest. cbn [mbind result_bind].
  rewrite (offer_exchanged route d input f input w answer w') by done.
  destruct answer as [response|e]; cbn [mbind result_bind]; [|done].
  unfold deliveryResponseFrame. cbn [offered do_deliveryID do_envelopeDigest]. rewrite Hz1, Hz2.
  destruct Hok as [->|(r & -> & Hc & Hr)].
  -
    cbn [NewTransportACK dr_transportACK dr_receipt dr_signature completeReceipt negb orb fail_if
      mbind result_bind reported]. change (is_empty "") with true. cbn [negb fail_if mbind result_bind]. unfold delivery_response. cbn [fr_deliveryID fr_envelopeDigest fr_type].
    by rewrite !bool_decide_eq_true_2 by done.
  - specialize (Hbind _ _ eq_refl eq_refl). cbn [dr_transportACK dr_receipt].
    pose proof Hbind as Hb. unfold requirePeerAdmissionReceiptBinding in Hb.
    apply bind_Ok in Hb as ([] & Hb & _). apply fail_if_Ok, orb_false_iff in Hb as [E1 E2].
    cbn [orb fail_if mbind result_bind]. cbv zeta. rewrite Hc, (proj2 (Z.eqb_eq _ _) Hk2).
    cbn [negb orb fail_if of_option mbind result_bind]. rewrite E1, E2. cbn [orb fail_if mbind result_bind]. unfold delivery_response.
    cbn [fr_deliveryID fr_envelopeDigest fr_type fr_canonical fr_signature].
    rewrite (bool_decide_eq_true_2 (d.(pd_id) = _)), (bool_decide_eq_true_2 (d.(pd_envelopeDigest) = _)) by done.
    cbn [negb orb fail_if mbind result_bind].
    rewrite bool_decide_eq_false_2, bool_decide_eq_true_2 by done. cbv zeta.
    rewrite ParsePeerAdmissionReceiptCanonicalJSON_canonical; [|done| |done].
    + cbn [or_error mbind result_bind]. by rewrite Hsound.
    + unfold delivery_complete. by rewrite Hz1, Hz2, Hne.
Qed.
End served.
