(* ===== verification/View.v ===== *)
(** Sealed View authority: the machine-owned read-set behind one Agent View
    (internal/agency/view_authority.go, view_authority_wire.go) and its exact
    reconstruction (view_parse.go).

    Go maps keyed by handle text are [gmap string], the consequence set a
    [gset]; the encoding sorts their entries. *)

From Stdlib Require Import Lia.
From S2P Require Import Prelude Utf8 Json Wire Sha256 Time Value Intent Bound Event.

#[local] Open Scope Z_scope.
#[local] Arguments String.append : simpl nomatch.

Definition viewAuthorityVersion : Z := 7.

Record MachineViewSpec := {
  mv_Attachment : Attachment;
  mv_Consequences : list Consequence;
  mv_Subjects : list SubjectBinding;
  mv_References : list ReferenceExpectation;
  mv_Targets : list ResolvedTarget;
  mv_ReplyTo : OpaqueHandle;
  mv_ReplyTarget : TargetRef;
  mv_ReplyDelivery : DeliveryID;
  mv_ReplyObservationPending : bool;
  mv_Artifacts : list ViewArtifactOffer;
  mv_Provenance : list ProvenanceOffer;
}.

Record ViewAuthority := {
  va_attachment : Attachment;
  va_consequences : gset Consequence;
  va_subjects : gmap string SubjectBinding;
  va_references : gmap string ReferenceExpectation;
  va_targets : gmap string ResolvedTarget;
  va_replyTo : OpaqueHandle;
  va_replyTarget : TargetRef;
  va_replyDelivery : DeliveryID;
  va_replyObservationPending : bool;
  va_artifacts : gmap string ViewArtifactOffer;
  va_provenance : gmap string EventRef;
  va_canonical : string;
  va_digest : Digest;
}.

(** ** Wire structs *)

Record viewSubjectWire := {
  vsw_Handle : string;
  vsw_Binding : subjectBindingWire;
}.
#[export] Instance viewSubjectWire_codec : Codec viewSubjectWire := {
  enc w := struct [
    field "handle" w.(vsw_Handle); field "binding" w.(vsw_Binding)];
  dec_value j :=
    ms ← members_of
      ["handle"; "binding"] j;
    xHandle ← get "handle" ms; xBinding ← get "binding" ms;
    Ok {| vsw_Handle := xHandle; vsw_Binding := xBinding |};
  zero := {| vsw_Handle := zero; vsw_Binding := zero |};
  empty _ := false;
  enc_ok w := enc_ok w.(vsw_Handle) ∧ enc_ok w.(vsw_Binding);
}.
#[export] Instance viewSubjectWire_laws : CodecLaws viewSubjectWire.
Proof. solve_struct. Qed.

Record viewReferenceWire := {
  vrw_Handle : string;
  vrw_Head : referenceExpectationWire;
}.
#[export] Instance viewReferenceWire_codec : Codec viewReferenceWire := {
  enc w := struct [
    field "handle" w.(vrw_Handle); field "head" w.(vrw_Head)];
  dec_value j :=
    ms ← members_of
      ["handle"; "head"] j;
    xHandle ← get "handle" ms; xHead ← get "head" ms;
    Ok {| vrw_Handle := xHandle; vrw_Head := xHead |};
  zero := {| vrw_Handle := zero; vrw_Head := zero |};
  empty _ := false;
  enc_ok w := enc_ok w.(vrw_Handle) ∧ enc_ok w.(vrw_Head);
}.
#[export] Instance viewReferenceWire_laws : CodecLaws viewReferenceWire.
Proof. solve_struct. Qed.

Record viewTargetWire := {
  vtw_Requested : targetWire;
  vtw_Resolved : resolvedTargetWire;
}.
#[export] Instance viewTargetWire_codec : Codec viewTargetWire := {
  enc w := struct [
    field "requested" w.(vtw_Requested); field "resolved" w.(vtw_Resolved)];
  dec_value j :=
    ms ← members_of
      ["requested"; "resolved"] j;
    xRequested ← get "requested" ms; xResolved ← get "resolved" ms;
    Ok {| vtw_Requested := xRequested; vtw_Resolved := xResolved |};
  zero := {| vtw_Requested := zero; vtw_Resolved := zero |};
  empty _ := false;
  enc_ok w := enc_ok w.(vtw_Requested) ∧ enc_ok w.(vtw_Resolved);
}.
#[export] Instance viewTargetWire_laws : CodecLaws viewTargetWire.
Proof. solve_struct. Qed.

Record viewArtifactOfferWire := {
  vaw_Handle : string;
  vaw_Digest : string;
}.
#[export] Instance viewArtifactOfferWire_codec : Codec viewArtifactOfferWire := {
  enc w := struct [
    field "handle" w.(vaw_Handle); field "digest" w.(vaw_Digest)];
  dec_value j :=
    ms ← members_of
      ["handle"; "digest"] j;
    xHandle ← get "handle" ms; xDigest ← get "digest" ms;
    Ok {| vaw_Handle := xHandle; vaw_Digest := xDigest |};
  zero := {| vaw_Handle := zero; vaw_Digest := zero |};
  empty _ := false;
  enc_ok w := enc_ok w.(vaw_Handle) ∧ enc_ok w.(vaw_Digest);
}.
#[export] Instance viewArtifactOfferWire_laws : CodecLaws viewArtifactOfferWire.
Proof. solve_struct. Qed.

Record viewProvenanceOfferWire := {
  vpw_Handle : string;
  vpw_Event : eventRefWire;
}.
#[export] Instance viewProvenanceOfferWire_codec : Codec viewProvenanceOfferWire := {
  enc w := struct [
    field "handle" w.(vpw_Handle); field "event" w.(vpw_Event)];
  dec_value j :=
    ms ← members_of
      ["handle"; "event"] j;
    xHandle ← get "handle" ms; xEvent ← get "event" ms;
    Ok {| vpw_Handle := xHandle; vpw_Event := xEvent |};
  zero := {| vpw_Handle := zero; vpw_Event := zero |};
  empty _ := false;
  enc_ok w := enc_ok w.(vpw_Handle) ∧ enc_ok w.(vpw_Event);
}.
#[export] Instance viewProvenanceOfferWire_laws : CodecLaws viewProvenanceOfferWire.
Proof. solve_struct. Qed.

Record machineViewWire := {
  mvw_SchemaVersion : Z;
  mvw_SourcePrincipal : string;
  mvw_MayInitiate : bool;
  mvw_Consequences : list string;
  mvw_Subjects : list viewSubjectWire;
  mvw_References : list viewReferenceWire;
  mvw_Targets : list viewTargetWire;
  mvw_ReplyTo : string;
  mvw_ReplyTarget : option targetWire;
  mvw_ReplyDelivery : string;
  mvw_ReplyObservationPending : bool;
  mvw_Artifacts : list viewArtifactOfferWire;
  mvw_Provenance : list viewProvenanceOfferWire;
}.
#[export] Instance machineViewWire_codec : Codec machineViewWire := {
  enc w := struct [
    @field Z int_codec "schema_version" w.(mvw_SchemaVersion);
    field "source_principal" w.(mvw_SourcePrincipal);
    field "may_initiate" w.(mvw_MayInitiate); omitempty "consequences" w.(mvw_Consequences);
    omitempty "subjects" w.(mvw_Subjects); omitempty "references" w.(mvw_References);
    omitempty "targets" w.(mvw_Targets); omitempty "reply_to" w.(mvw_ReplyTo);
    omitnil "reply_target" w.(mvw_ReplyTarget);
    omitempty "reply_delivery_id" w.(mvw_ReplyDelivery);
    field "reply_observation_pending" w.(mvw_ReplyObservationPending);
    omitempty "artifacts" w.(mvw_Artifacts); omitempty "provenance" w.(mvw_Provenance)];
  dec_value j :=
    ms ← members_of
      ["schema_version"; "source_principal"; "may_initiate"; "consequences"; "subjects";
      "references"; "targets"; "reply_to"; "reply_target"; "reply_delivery_id";
      "reply_observation_pending"; "artifacts"; "provenance"] j;
    xSchemaVersion ← @get Z int_codec "schema_version" ms;
    xSourcePrincipal ← get "source_principal" ms; xMayInitiate ← get "may_initiate" ms;
    xConsequences ← get "consequences" ms; xSubjects ← get "subjects" ms;
    xReferences ← get "references" ms; xTargets ← get "targets" ms;
    xReplyTo ← get "reply_to" ms; xReplyTarget ← get_ptr "reply_target" ms;
    xReplyDelivery ← get "reply_delivery_id" ms;
    xReplyObservationPending ← get "reply_observation_pending" ms;
    xArtifacts ← get "artifacts" ms; xProvenance ← get "provenance" ms;
    Ok {| mvw_SchemaVersion := xSchemaVersion; mvw_SourcePrincipal := xSourcePrincipal;
          mvw_MayInitiate := xMayInitiate; mvw_Consequences := xConsequences;
          mvw_Subjects := xSubjects; mvw_References := xReferences; mvw_Targets := xTargets;
          mvw_ReplyTo := xReplyTo; mvw_ReplyTarget := xReplyTarget;
          mvw_ReplyDelivery := xReplyDelivery;
          mvw_ReplyObservationPending := xReplyObservationPending;
          mvw_Artifacts := xArtifacts; mvw_Provenance := xProvenance |};
  zero := {| mvw_SchemaVersion := 0%Z; mvw_SourcePrincipal := zero; mvw_MayInitiate := zero;
    mvw_Consequences := zero; mvw_Subjects := zero; mvw_References := zero;
    mvw_Targets := zero; mvw_ReplyTo := zero; mvw_ReplyTarget := None;
    mvw_ReplyDelivery := zero; mvw_ReplyObservationPending := zero; mvw_Artifacts := zero;
    mvw_Provenance := zero |};
  empty _ := false;
  enc_ok w := @enc_ok Z int_codec w.(mvw_SchemaVersion) ∧ enc_ok w.(mvw_SourcePrincipal) ∧
    enc_ok w.(mvw_MayInitiate) ∧ enc_ok w.(mvw_Consequences) ∧ enc_ok w.(mvw_Subjects) ∧
    enc_ok w.(mvw_References) ∧ enc_ok w.(mvw_Targets) ∧ enc_ok w.(mvw_ReplyTo) ∧
    ok_ptr w.(mvw_ReplyTarget) ∧ enc_ok w.(mvw_ReplyDelivery) ∧
    enc_ok w.(mvw_ReplyObservationPending) ∧ enc_ok w.(mvw_Artifacts) ∧
    enc_ok w.(mvw_Provenance);
}.
#[export] Instance machineViewWire_laws : CodecLaws machineViewWire.
Proof. solve_struct. Qed.

Definition targetWireKey (target : targetWire) : string :=
  if target.(tw_Self) then "self" else "alias:" +:+ target.(tw_Alias).

Definition view_subject_wire (e : string * SubjectBinding) : viewSubjectWire :=
  {| vsw_Handle := e.1; vsw_Binding := subject_wire e.2 |}.
Definition view_reference_wire (e : string * ReferenceExpectation) : viewReferenceWire :=
  {| vrw_Handle := e.1;
     vrw_Head := {| rew_Absent := false; rew_Key := e.2.(re_key);
                    rew_Head := Some (EventRef_canonical e.2.(re_head)) |} |}.
Definition view_target_wire (t : ResolvedTarget) : viewTargetWire :=
  {| vtw_Requested := target_wire t.(rt_requested); vtw_Resolved := resolvedWire t |}.
Definition view_artifact_wire (e : string * ViewArtifactOffer) : viewArtifactOfferWire :=
  {| vaw_Handle := e.1; vaw_Digest := Digest_String e.2.(vao_digest) |}.
Definition view_provenance_wire (e : string * EventRef) : viewProvenanceOfferWire :=
  {| vpw_Handle := e.1; vpw_Event := EventRef_canonical e.2 |}.

(** [ViewAuthority.wire]: every map is written as the list of its entries,
    sorted by handle. *)
Definition view_wire (view : ViewAuthority) : machineViewWire :=
  {| mvw_SchemaVersion := viewAuthorityVersion;
     mvw_SourcePrincipal := view.(va_attachment).(at_principal);
     mvw_MayInitiate := view.(va_attachment).(at_mayInitiate);
     mvw_Consequences := sort_by (λ c : string, c) (map Consequence_String (elements view.(va_consequences)));
     mvw_Subjects := sort_by vsw_Handle (map view_subject_wire (map_to_list view.(va_subjects)));
     mvw_References :=
       sort_by vrw_Handle (map view_reference_wire (map_to_list view.(va_references)));
     mvw_Targets := sort_by (λ t, targetWireKey t.(vtw_Requested))
       (map view_target_wire (map_to_list view.(va_targets)).*2);
     mvw_ReplyTo := view.(va_replyTo);
     mvw_ReplyTarget := if TargetRef_IsZero view.(va_replyTarget) then None
       else Some {| tw_Self := false; tw_Alias := view.(va_replyTarget).(tr_alias) |};
     mvw_ReplyDelivery := optional_delivery_wire view.(va_replyDelivery);
     mvw_ReplyObservationPending := view.(va_replyObservationPending);
     mvw_Artifacts := sort_by vaw_Handle (map view_artifact_wire (map_to_list view.(va_artifacts)));
     mvw_Provenance :=
       sort_by vpw_Handle (map view_provenance_wire (map_to_list view.(va_provenance))) |}.

(** ** Construction *)

Definition validateSubjectOfferBound (offers : list SubjectBinding) : result () :=
  if lenZ offers <=? 1 then Ok ()
  else
    _ ← fail_if (has_dup (map sb_handle offers))
          (invalid "View subjects" "contains a duplicate handle");
    Err (limit "View subjects" (lenZ offers) 1).

(** The shape of the [load*] loops: check an offer, reject a key already
    present, insert. *)
Definition load_offer {A V} (check : A → result ()) (key : A → string) (value : A → V)
    (duplicate : error) (destination : gmap string V) (offer : A) : result (gmap string V) :=
  _ ← check offer;
  _ ← fail_if (bool_decide (is_Some (destination !! key offer))) duplicate;
  Ok (<[key offer := value offer]> destination).

Definition load_offers {A V} (check : A → result ()) (key : A → string) (value : A → V)
    (duplicate : error) (offers : list A) : result (gmap string V) :=
  foldR (load_offer check key value duplicate) ∅ offers.

Definition load_consequence (destination : gset Consequence) (consequence : Consequence)
    : result (gset Consequence) :=
  _ ← fail_if (negb (agentDeclarable consequence))
        (invalid "View authority" "contains a non-Agent-declarable consequence");
  _ ← fail_if (bool_decide (consequence ∈ destination))
        (invalid "View authority" "contains a duplicate consequence");
  Ok ({[consequence]} ∪ destination).

Definition loadConsequences (offers : list Consequence) : result (gset Consequence) :=
  foldR load_consequence ∅ offers.

Definition check_subject_offer (subject : SubjectBinding) : result () :=
  fail_if (IsZero subject.(sb_handle) || IsZero subject.(sb_handlingID) ||
           EventRef_IsZero subject.(sb_head) || (subject.(sb_fence) =? 0))
    (invalid "View subject" "contains an invalid binding").
Definition loadSubjects : list SubjectBinding → result (gmap string SubjectBinding) :=
  load_offers check_subject_offer sb_handle (λ s, s)
    (invalid "View subject" "contains a duplicate handle").

Definition check_reference_offer (reference : ReferenceExpectation) : result () :=
  fail_if (reference.(re_absent) || IsZero reference.(re_handle) || IsZero reference.(re_key) ||
           EventRef_IsZero reference.(re_head))
    (invalid "View Reference" "must contain an exact locally accepted head").
Definition loadReferences : list ReferenceExpectation → result (gmap string ReferenceExpectation) :=
  load_offers check_reference_offer re_handle (λ r, r)
    (invalid "View Reference" "contains a duplicate handle").

Definition validateResolvedTarget (attachment : Attachment) (target : ResolvedTarget) : result () :=
  _ ← fail_if (TargetRef_IsZero target.(rt_requested))
        (invalid "View target" "requested target is required");
  match target.(rt_destination) with
  | TargetDestinationLocal =>
      _ ← fail_if (IsZero target.(rt_localPrincipal) || negb (IsZero target.(rt_remoteRoute)) ||
                   negb (IsZero target.(rt_remoteAlias)))
            (invalid "View target" "invalid local resolution");
      fail_if (target.(rt_requested).(tr_self) &&
               negb (bool_decide (target.(rt_localPrincipal) = attachment.(at_principal))))
        (invariant "View target" "self must resolve to the Attachment Principal")
  | TargetDestinationRemote =>
      fail_if (target.(rt_requested).(tr_self) || IsZero target.(rt_remoteRoute) ||
               IsZero target.(rt_remoteAlias) || negb (IsZero target.(rt_localPrincipal)))
        (invalid "View target" "invalid remote resolution")
  | TargetDestinationInvalid => Err (invalid "View target" "unknown destination")
  end.

Definition target_key (t : ResolvedTarget) : string := TargetRef_canonicalKey t.(rt_requested).

Definition loadTargets (attachment : Attachment)
    : list ResolvedTarget → result (gmap string ResolvedTarget) :=
  load_offers (validateResolvedTarget attachment) target_key (λ t, t)
    (invalid "View targets" "contains a duplicate requested target").

Definition check_artifact_offer (artifact : ViewArtifactOffer) : result () :=
  fail_if (IsZero artifact.(vao_handle) || Digest_IsZero artifact.(vao_digest))
    (invalid "View Artifacts" "contains an invalid offer").
Definition loadArtifacts : list ViewArtifactOffer → result (gmap string ViewArtifactOffer) :=
  load_offers check_artifact_offer vao_handle (λ a, a)
    (invalid "View Artifacts" "contains a duplicate handle").

Definition check_provenance_offer (provenance : ProvenanceOffer) : result () :=
  fail_if (IsZero provenance.(po_handle) || EventRef_IsZero provenance.(po_event))
    (invalid "View provenance" "contains an invalid offer").
Definition loadProvenance : list ProvenanceOffer → result (gmap string EventRef) :=
  load_offers check_provenance_offer po_handle po_event
    (invalid "View provenance" "contains a duplicate handle").

(** The reply context set by [loadReplyContext]; its zero value is the initial
    one. *)
Record ReplyContext := { rx_to : OpaqueHandle; rx_target : TargetRef; rx_delivery : DeliveryID }.
Definition no_reply : ReplyContext :=
  {| rx_to := ""; rx_target := no_target; rx_delivery := zero_DeliveryID |}.

Definition loadReplyContext (requestedReplyTo : OpaqueHandle) (requestedTarget : TargetRef)
    (requestedDelivery : DeliveryID) (subjects : gmap string SubjectBinding)
    (targets : gmap string ResolvedTarget) (provenance : gmap string EventRef)
    : result ReplyContext :=
  if IsZero requestedReplyTo then
    _ ← fail_if (negb (TargetRef_IsZero requestedTarget) ||
                 negb (DeliveryID_IsZero requestedDelivery))
          (invalid "View reply context" "target and Delivery require a reply-to offer");
    Ok no_reply
  else
    _ ← fail_if (negb (Z.of_nat (size subjects) =? 1))
          (invalid "View reply context" "requires one current subject");
    _ ← fail_if (negb (is_some (provenance !! requestedReplyTo)))
          (invariant "View reply context" "reply-to must be one exact provenance offer");
    if TargetRef_IsZero requestedTarget then
      _ ← fail_if (negb (DeliveryID_IsZero requestedDelivery))
            (invalid "View reply context" "Delivery requires a remote reply target");
      Ok {| rx_to := requestedReplyTo; rx_target := no_target; rx_delivery := zero_DeliveryID |}
    else
      _ ← fail_if (DeliveryID_IsZero requestedDelivery)
            (invalid "View reply context" "remote reply target requires an exact Delivery");
      _ ← fail_if requestedTarget.(tr_self)
            (invalid "View reply target" "must be a remote alias");
      _ ← fail_if
            (match targets !! TargetRef_canonicalKey requestedTarget with
             | None => true
             | Some resolved =>
                 negb (bool_decide (resolved.(rt_destination) = TargetDestinationRemote)) ||
                 negb (bool_decide (resolved.(rt_requested) = requestedTarget))
             end)
            (invariant "View reply target" "must be one exact offered remote target");
      Ok {| rx_to := requestedReplyTo; rx_target := requestedTarget;
            rx_delivery := requestedDelivery |}.

(** [ViewAuthority.load]. *)
Definition load (spec : MachineViewSpec) : result ViewAuthority :=
  consequences ← loadConsequences spec.(mv_Consequences);
  subjects ← loadSubjects spec.(mv_Subjects);
  references ← loadReferences spec.(mv_References);
  targets ← loadTargets spec.(mv_Attachment) spec.(mv_Targets);
  artifacts ← loadArtifacts spec.(mv_Artifacts);
  provenance ← loadProvenance spec.(mv_Provenance);
  reply ← loadReplyContext spec.(mv_ReplyTo) spec.(mv_ReplyTarget) spec.(mv_ReplyDelivery)
            subjects targets provenance;
  _ ← fail_if (spec.(mv_ReplyObservationPending) && negb (Z.of_nat (size subjects) =? 1))
        (invalid "View reply observation" "pending state requires one current subject");
  Ok {| va_attachment := spec.(mv_Attachment); va_consequences := consequences;
        va_subjects := subjects; va_references := references; va_targets := targets;
        va_replyTo := reply.(rx_to); va_replyTarget := reply.(rx_target);
        va_replyDelivery := reply.(rx_delivery);
        va_replyObservationPending := spec.(mv_ReplyObservationPending);
        va_artifacts := artifacts; va_provenance := provenance;
        va_canonical := ""; va_digest := zero_digest |}.

Definition view_with_seal (view : ViewAuthority) (canonical : string) (digest : Digest)
    : ViewAuthority :=
  {| va_attachment := view.(va_attachment); va_consequences := view.(va_consequences);
     va_subjects := view.(va_subjects); va_references := view.(va_references);
     va_targets := view.(va_targets); va_replyTo := view.(va_replyTo);
     va_replyTarget := view.(va_replyTarget); va_replyDelivery := view.(va_replyDelivery);
     va_replyObservationPending := view.(va_replyObservationPending);
     va_artifacts := view.(va_artifacts); va_provenance := view.(va_provenance);
     va_canonical := canonical; va_digest := digest |}.

Definition NewViewAuthority (spec : MachineViewSpec) : result ViewAuthority :=
  _ ← fail_if (IsZero spec.(mv_Attachment).(at_id))
        (invalid "View authority" "Attachment is required");
  _ ← fail_if (MaxViewConsequences <? lenZ spec.(mv_Consequences))
        (limit "View consequences" (lenZ spec.(mv_Consequences)) MaxViewConsequences);
  _ ← validateSubjectOfferBound spec.(mv_Subjects);
  _ ← fail_if (MaxViewTargets <? lenZ spec.(mv_Targets))
        (limit "View targets" (lenZ spec.(mv_Targets)) MaxViewTargets);
  let handleCount := lenZ spec.(mv_Subjects) + lenZ spec.(mv_References) +
    lenZ spec.(mv_Artifacts) + lenZ spec.(mv_Provenance) +
    lenZ (filter (λ t, tr_self (rt_requested t) = false) spec.(mv_Targets)) in
  _ ← fail_if (MaxViewHandles <? handleCount) (limit "View handles" handleCount MaxViewHandles);
  view ← load spec;
  '(canonical, digest) ← canonicalJSON (view_wire view);
  _ ← fail_if (MaxViewCanonicalBytes <? slen canonical)
        (limit "View canonical bytes" (slen canonical) MaxViewCanonicalBytes);
  Ok (view_with_seal view canonical digest).

(** ** Resolution of handles *)

Definition Allows (view : ViewAuthority) (consequence : Consequence) : bool :=
  bool_decide (consequence ∈ view.(va_consequences)).

(** [value, ok := m[h]; return value, ok && !h.IsZero()] *)
Definition resolve_handle {V} (m : gmap string V) (handle : OpaqueHandle) : option V :=
  if IsZero handle then None else m !! handle.

Definition ResolveSubject (view : ViewAuthority) : OpaqueHandle → option SubjectBinding :=
  resolve_handle view.(va_subjects).
Definition ResolveReference (view : ViewAuthority) : OpaqueHandle → option ReferenceExpectation :=
  resolve_handle view.(va_references).
Definition ResolveTarget (view : ViewAuthority) (target : TargetRef) : option ResolvedTarget :=
  if TargetRef_IsZero target then None else view.(va_targets) !! TargetRef_canonicalKey target.
Definition ResolveProvenance (view : ViewAuthority) : OpaqueHandle → option EventRef :=
  resolve_handle view.(va_provenance).

Definition ResolveOfferedArtifact (view : ViewAuthority) (handle : OpaqueHandle) : result Digest :=
  _ ← fail_if (IsZero handle) (invalid "View Artifact read" "handle is required");
  let refused := invariant "View Artifact read" "handle was not offered by the View" in
  offer ← of_option (view.(va_artifacts) !! handle) refused;
  _ ← fail_if (negb (bool_decide (offer.(vao_handle) = handle)) || Digest_IsZero offer.(vao_digest))
        refused;
  Ok offer.(vao_digest).

Definition View_ReplyContext (view : ViewAuthority) : option ReplyContext :=
  if IsZero view.(va_replyTo) then None
  else Some {| rx_to := view.(va_replyTo); rx_target := view.(va_replyTarget);
               rx_delivery := view.(va_replyDelivery) |}.

(** ** Reconstruction *)

Definition parseTarget : targetWire → result TargetRef := parse_target "View requested target".

Definition parseViewReplyTarget (wire : option targetWire) : result TargetRef :=
  match wire with
  | None => Ok no_target
  | Some wire =>
      target ← parseTarget wire;
      _ ← fail_if target.(tr_self) (invalid "View reply target" "must be a remote alias");
      Ok target
  end.

Definition parseViewConsequences (values : list string) : result (list Consequence) :=
  mapR parseConsequence values.

Definition parseViewSubject (wire : viewSubjectWire) : result SubjectBinding :=
  handle ← NewOpaqueHandle wire.(vsw_Handle);
  handlingID ← NewHandlingID wire.(vsw_Binding).(sbw_HandlingID);
  head ← parseEventRef wire.(vsw_Binding).(sbw_Head);
  NewSubjectBinding handle handlingID head wire.(vsw_Binding).(sbw_Fence)
    wire.(vsw_Binding).(sbw_ObservationRevision).
Definition parseViewSubjects (wires : list viewSubjectWire) : result (list SubjectBinding) :=
  mapR parseViewSubject wires.

Definition parseViewReference (wire : viewReferenceWire) : result ReferenceExpectation :=
  let inexact := invalid "View Reference" "must contain an exact locally accepted head" in
  _ ← fail_if wire.(vrw_Head).(rew_Absent) inexact;
  head ← of_option wire.(vrw_Head).(rew_Head) inexact;
  handle ← NewOpaqueHandle wire.(vrw_Handle);
  key ← NewReferenceKey wire.(vrw_Head).(rew_Key);
  head ← parseEventRef head;
  ExpectReferenceHead handle key head.
Definition parseViewReferences (wires : list viewReferenceWire)
    : result (list ReferenceExpectation) := mapR parseViewReference wires.

Definition parseResolvedTarget (requested : TargetRef) (wire : resolvedTargetWire)
    : result ResolvedTarget :=
  if String.eqb wire.(rtw_Destination) "local" then
    _ ← fail_if (negb (is_empty wire.(rtw_RemoteRoute)) || negb (is_empty wire.(rtw_RemoteAlias)))
          (invalid "View local target" "must not contain remote authority");
    principal ← NewAgentPrincipalID wire.(rtw_LocalPrincipal);
    ResolveLocalTarget requested principal
  else if String.eqb wire.(rtw_Destination) "remote" then
    _ ← fail_if (negb (is_empty wire.(rtw_LocalPrincipal)))
          (invalid "View remote target" "must not contain local authority");
    route ← NewRouteID wire.(rtw_RemoteRoute);
    alias ← NewOpaqueHandle wire.(rtw_RemoteAlias);
    ResolveRemoteTarget requested route alias
  else Err (invalid "View target destination" "must be local or remote").

Definition parseViewTarget (wire : viewTargetWire) : result ResolvedTarget :=
  requested ← parseTarget wire.(vtw_Requested);
  parseResolvedTarget requested wire.(vtw_Resolved).
Definition parseViewTargets (wires : list viewTargetWire) : result (list ResolvedTarget) :=
  mapR parseViewTarget wires.

Definition parseViewArtifact (wire : viewArtifactOfferWire) : result ViewArtifactOffer :=
  handle ← NewOpaqueHandle wire.(vaw_Handle);
  digest ← ParseDigest wire.(vaw_Digest);
  NewViewArtifactOffer handle digest.
Definition parseViewArtifacts (wires : list viewArtifactOfferWire)
    : result (list ViewArtifactOffer) := mapR parseViewArtifact wires.

Definition parseViewProvenanceOffer (wire : viewProvenanceOfferWire) : result ProvenanceOffer :=
  handle ← NewOpaqueHandle wire.(vpw_Handle);
  event ← parseEventRef wire.(vpw_Event);
  NewProvenanceOffer handle event.
Definition parseViewProvenance (wires : list viewProvenanceOfferWire)
    : result (list ProvenanceOffer) := mapR parseViewProvenanceOffer wires.

Definition machineViewSpecFromWire (wire : machineViewWire) (attachment : Attachment)
    : result MachineViewSpec :=
  consequences ← parseViewConsequences wire.(mvw_Consequences);
  subjects ← parseViewSubjects wire.(mvw_Subjects);
  references ← parseViewReferences wire.(mvw_References);
  targets ← parseViewTargets wire.(mvw_Targets);
  replyTo ← (if is_empty wire.(mvw_ReplyTo) then Ok ""%string else NewOpaqueHandle wire.(mvw_ReplyTo));
  replyTarget ← parseViewReplyTarget wire.(mvw_ReplyTarget);
  replyDelivery ← parse_optional_delivery wire.(mvw_ReplyDelivery);
  artifacts ← parseViewArtifacts wire.(mvw_Artifacts);
  provenance ← parseViewProvenance wire.(mvw_Provenance);
  Ok {| mv_Attachment := attachment; mv_Consequences := consequences; mv_Subjects := subjects;
        mv_References := references; mv_Targets := targets; mv_ReplyTo := replyTo;
        mv_ReplyTarget := replyTarget; mv_ReplyDelivery := replyDelivery;
        mv_ReplyObservationPending := wire.(mvw_ReplyObservationPending);
        mv_Artifacts := artifacts; mv_Provenance := provenance |}.

Definition ParseViewAuthorityCanonicalJSON (data : string) (attachment : Attachment)
    : result ViewAuthority :=
  wire ← decodeCanonicalObject "View authority JSON" data MaxViewCanonicalBytes;
  _ ← fail_if (negb (wire.(mvw_SchemaVersion) =? viewAuthorityVersion))
        (invalid "View authority schema version" "is unsupported");
  principal ← NewAgentPrincipalID wire.(mvw_SourcePrincipal);
  _ ← fail_if (IsZero attachment.(at_id) ||
               negb (bool_decide (principal = attachment.(at_principal))) ||
               negb (eqb wire.(mvw_MayInitiate) attachment.(at_mayInitiate)))
        (invariant "View authority Attachment" "Principal or initiation authority differs");
  spec ← machineViewSpecFromWire wire attachment;
  view ← NewViewAuthority spec;
  _ ← requireReconstructedCanonical "View authority JSON" data view.(va_canonical);
  Ok view.

(** ** Laws *)

Section load_offers.
Context {A V : Type} (check : A → result ()) (key : A → string) (value : A → V) (dup : error).

Definition entries (xs : list A) : list (string * V) := map (λ x, (key x, value x)) xs.

Lemma entries_keys xs : (entries xs).*1 = map key xs.
Proof. induction xs as [|x xs IH]; [done|]. cbn. f_equal. exact IH. Qed.

Lemma load_offer_fresh m x :
  check x = Ok () → m !! key x = None →
  load_offer check key value dup m x = Ok (<[key x := value x]> m).
Proof.
  intros Hc Hm. unfold load_offer. rewrite Hc, Hm. cbn [mbind result_bind].
  by rewrite bool_decide_eq_false_2 by (by intros [? ?]).
Qed.

Lemma load_offers_from m xs m' :
  foldR (load_offer check key value dup) m xs = Ok m' ↔
  Forall (λ x, check x = Ok ()) xs ∧ NoDup (map key xs) ∧
  (∀ x, x ∈ xs → m !! key x = None) ∧
  m' = list_to_map (entries xs) ∪ m.
Proof.
  revert m. induction xs as [|x xs IH]; intros m; cbn [foldR].
  - split.
    + intros [= <-]. split_and!; [constructor|constructor|by intros ? ?%elem_of_nil|].
      cbn [entries map list_to_map foldr]. by rewrite (left_id_L ∅ (∪)).
    + intros (_ & _ & _ & ->). cbn. by rewrite (left_id_L ∅ (∪)).
  - split.
    + intros H. apply bind_Ok in H as (m1 & H1 & H). unfold load_offer in H1.
      apply bind_Ok in H1 as ([] & Hc & H1). apply bind_Ok in H1 as ([] & Hf & H1).
      injection H1 as <-. apply fail_if_Ok, bool_decide_eq_false in Hf.
      apply IH in H as (Hall & Hnd & Hfresh & ->).
      assert (Hx : key x ∉ map key xs).
      { intros Hin. apply list_elem_of_fmap in Hin as (y & E & Hy).
        specialize (Hfresh y Hy). rewrite <- E, lookup_insert_eq in Hfresh. done. }
      split_and!; [by constructor|cbn [map]; by constructor| |].
      * intros y Hy. apply elem_of_cons in Hy as [->|Hy].
        { by apply eq_None_not_Some. }
        specialize (Hfresh y Hy). destruct (decide (key y = key x)) as [E|E].
        { rewrite E, lookup_insert_eq in Hfresh. done. }
        by rewrite lookup_insert_ne in Hfresh.
      * cbn [entries map list_to_map foldr fst snd]. rewrite <- insert_union_l.
        rewrite insert_union_r; [done|]. apply not_elem_of_list_to_map_1.
        by rewrite entries_keys.
    + intros (Hall & Hnd & Hfresh & ->). apply Forall_cons in Hall as [Hc Hall].
      cbn [map] in Hnd. apply NoDup_cons in Hnd as [Hx Hnd].
      rewrite load_offer_fresh by (done || apply Hfresh, list_elem_of_here).
      cbn [mbind result_bind]. apply IH. split_and!; [done..| |].
      * intros y Hy. rewrite lookup_insert_ne.
        { apply Hfresh. by constructor. }
        intros E. apply Hx. rewrite E. apply list_elem_of_fmap. by exists y.
      * cbn [entries map list_to_map foldr fst snd]. rewrite <- insert_union_l.
        symmetry. rewrite insert_union_r; [done|]. apply not_elem_of_list_to_map_1.
        by rewrite entries_keys.
Qed.

Lemma load_offers_Ok xs m :
  load_offers check key value dup xs = Ok m ↔
  Forall (λ x, check x = Ok ()) xs ∧ NoDup (map key xs) ∧ m = list_to_map (entries xs).
Proof.
  unfold load_offers. rewrite load_offers_from, (right_id_L ∅ (∪)). naive_solver.
Qed.

(** Loading does not depend on the order of the offers. *)
Lemma load_offers_perm xs ys m :
  xs ≡ₚ ys → load_offers check key value dup xs = Ok m → load_offers check key value dup ys = Ok m.
Proof.
  intros Hp. rewrite !load_offers_Ok. intros (Hall & Hnd & ->). split_and!.
  - by rewrite <- Hp.
  - by rewrite <- Hp.
  - apply list_to_map_proper; [by rewrite entries_keys|]. unfold entries. by rewrite Hp.
Qed.

Lemma load_offers_lookup xs m k v :
  load_offers check key value dup xs = Ok m →
  m !! k = Some v ↔ ∃ x, x ∈ xs ∧ key x = k ∧ value x = v.
Proof.
  intros (Hall & Hnd & ->)%load_offers_Ok.
  rewrite <- elem_of_list_to_map by (by rewrite entries_keys).
  unfold entries. rewrite list_elem_of_fmap. naive_solver.
Qed.

Lemma load_offers_to_list xs m :
  load_offers check key value dup xs = Ok m → map_to_list m ≡ₚ entries xs.
Proof.
  intros (Hall & Hnd & ->)%load_offers_Ok. apply map_to_list_to_map. by rewrite entries_keys.
Qed.

Lemma load_offers_size xs m :
  load_offers check key value dup xs = Ok m → size m = length xs.
Proof.
  intros H%load_offers_to_list. rewrite <- length_map_to_list, H. unfold entries. apply length_map.
Qed.
End load_offers.

(** ** The order of offers does not matter *)

Definition spec_perm (s t : MachineViewSpec) : Prop :=
  s.(mv_Attachment) = t.(mv_Attachment) ∧ s.(mv_Consequences) ≡ₚ t.(mv_Consequences) ∧
  s.(mv_Subjects) ≡ₚ t.(mv_Subjects) ∧ s.(mv_References) ≡ₚ t.(mv_References) ∧
  s.(mv_Targets) ≡ₚ t.(mv_Targets) ∧ s.(mv_ReplyTo) = t.(mv_ReplyTo) ∧
  s.(mv_ReplyTarget) = t.(mv_ReplyTarget) ∧ s.(mv_ReplyDelivery) = t.(mv_ReplyDelivery) ∧
  s.(mv_ReplyObservationPending) = t.(mv_ReplyObservationPending) ∧
  s.(mv_Artifacts) ≡ₚ t.(mv_Artifacts) ∧ s.(mv_Provenance) ≡ₚ t.(mv_Provenance).

Lemma load_consequence_fresh d c :
  agentDeclarable c = true → c ∉ d → load_consequence d c = Ok ({[c]} ∪ d).
Proof.
  intros Hc Hd. unfold load_consequence. rewrite Hc. by rewrite bool_decide_eq_false_2 by done.
Qed.

Lemma loadConsequences_from d cs d' :
  foldR load_consequence d cs = Ok d' ↔
  Forall (λ c, agentDeclarable c = true) cs ∧ NoDup cs ∧ (∀ c, c ∈ cs → c ∉ d) ∧
  d' = list_to_set cs ∪ d.
Proof.
  revert d. induction cs as [|c cs IH]; intros d; cbn [foldR].
  - split; [intros [= <-]|intros (_ & _ & _ & ->)].
    + split_and!; [constructor|constructor|by intros ? ?%elem_of_nil|set_solver].
    + f_equal. set_solver.
  - split.
    + intros H. apply bind_Ok in H as (d1 & H1 & H). unfold load_consequence in H1. inv_res.
      apply IH in H as (Hall & Hnd & Hf & ->). split_and!; [by constructor| | |].
      * apply NoDup_cons. split; [|done]. intros Hin. specialize (Hf c Hin). set_solver.
      * set_solver.
      * cbn. set_solver.
    + intros (Hall & Hnd & Hf & ->). apply Forall_cons in Hall as [Hc Hall].
      apply NoDup_cons in Hnd as [Hx Hnd]. rewrite load_consequence_fresh by (done || apply Hf, list_elem_of_here).
      cbn [mbind result_bind]. apply IH. split_and!; [done..| |cbn; set_solver].
      intros c' Hc'. assert (c' ≠ c) by (intros ->; done). specialize (Hf c').
      assert (c' ∈ c :: cs) by (by apply list_elem_of_further). set_solver.
Qed.

Lemma loadConsequences_Ok cs d :
  loadConsequences cs = Ok d ↔
  Forall (λ c, agentDeclarable c = true) cs ∧ NoDup cs ∧ d = list_to_set cs.
Proof.
  unfold loadConsequences. rewrite loadConsequences_from, (right_id_L ∅ (∪)). set_solver.
Qed.

Lemma loadConsequences_perm cs cs' d :
  cs ≡ₚ cs' → loadConsequences cs = Ok d → loadConsequences cs' = Ok d.
Proof.
  intros Hp. rewrite !loadConsequences_Ok. intros (Hall & Hnd & ->).
  split_and!; [by rewrite <- Hp..|]. apply list_to_set_perm_L. by rewrite Hp.
Qed.

Lemma lenZ_perm {A} (xs ys : list A) : xs ≡ₚ ys → lenZ xs = lenZ ys.
Proof. intros Hp. unfold lenZ. by rewrite Hp. Qed.

Lemma validateSubjectOfferBound_Ok xs u : validateSubjectOfferBound xs = Ok u ↔ lenZ xs <= 1.
Proof.
  unfold validateSubjectOfferBound. destruct u. destruct (Z.leb_spec (lenZ xs) 1); [done|].
  split; [|lia]. intros H'. inv_res.
Qed.

Lemma load_perm s t v : spec_perm s t → load s = Ok v → load t = Ok v.
Proof.
  intros (Ea & Hc & Hs & Hr & Ht & E1 & E2 & E3 & E4 & Har & Hp) H. unfold load in *.
  rewrite <- Ea, <- E1, <- E2, <- E3, <- E4.
  apply bind_Ok in H as (c & Hc' & H). apply bind_Ok. exists c.
  split; [by eapply loadConsequences_perm|].
  apply bind_Ok in H as (su & Hs' & H). apply bind_Ok. exists su.
  split; [by eapply load_offers_perm|].
  apply bind_Ok in H as (re & Hr' & H). apply bind_Ok. exists re.
  split; [by eapply load_offers_perm|].
  apply bind_Ok in H as (ta & Ht' & H). apply bind_Ok. exists ta.
  split; [by eapply load_offers_perm|].
  apply bind_Ok in H as (ar & Ha' & H). apply bind_Ok. exists ar.
  split; [by eapply load_offers_perm|].
  apply bind_Ok in H as (pr & Hp' & H). apply bind_Ok. exists pr.
  split; [by eapply load_offers_perm|]. exact H.
Qed.

Lemma NewViewAuthority_perm s t v :
  spec_perm s t → NewViewAuthority s = Ok v → NewViewAuthority t = Ok v.
Proof.
  intros Hperm H. pose proof (load_perm s t) as Hload.
  pose proof Hperm as (Ea & Hc & Hs & Hr & Ht & E1 & E2 & E3 & E4 & Har & Hp).
  unfold NewViewAuthority in *.
  rewrite <- Ea, <- (lenZ_perm _ _ Hc), <- (lenZ_perm _ _ Ht).
  apply bind_Ok in H as ([] & H1 & H). apply bind_Ok. exists (). split; [done|].
  apply bind_Ok in H as ([] & H2 & H). apply bind_Ok. exists (). split; [done|].
  apply bind_Ok in H as ([] & H3 & H). apply bind_Ok. exists (). split.
  { apply validateSubjectOfferBound_Ok. rewrite <- (lenZ_perm _ _ Hs).
    by apply validateSubjectOfferBound_Ok in H3. }
  apply bind_Ok in H as ([] & H4 & H). apply bind_Ok. exists (). split; [done|].
  cbv zeta in H |- *.
  rewrite <- (lenZ_perm _ _ Hs), <- (lenZ_perm _ _ Hr), <- (lenZ_perm _ _ Har), <- (lenZ_perm _ _ Hp).
  assert (Hf : lenZ (filter (λ t, tr_self (rt_requested t) = false) (mv_Targets s)) =
    lenZ (filter (λ t, tr_self (rt_requested t) = false) (mv_Targets t))).
  { apply lenZ_perm. by rewrite Ht. }
  rewrite <- Hf.
  apply bind_Ok in H as ([] & H5 & H). apply bind_Ok. exists (). split; [done|].
  apply bind_Ok in H as (v0 & H6 & H). apply bind_Ok. exists v0. split; [by apply Hload|]. exact H.
Qed.

(** ** Reconstruction of a sealed View *)

(** Offers whose parts came out of their own constructors. *)
Record view_spec_ok (spec : MachineViewSpec) : Prop := {
  vso_principal : handle_ok spec.(mv_Attachment).(at_principal) = true;
  vso_subjects : Forall (λ s, handle_ok s.(sb_handle) = true ∧ subject_ok s) spec.(mv_Subjects);
  vso_references : Forall (λ r, handle_ok r.(re_handle) = true ∧ expectation_ok r) spec.(mv_References);
  vso_targets : Forall (λ t, target_wf t.(rt_requested) ∧ target_ok t) spec.(mv_Targets);
  vso_replyTo : opt_handle_ok spec.(mv_ReplyTo);
  vso_replyTarget : spec.(mv_ReplyTarget) = no_target ∨ target_wf spec.(mv_ReplyTarget);
  vso_replyDelivery : opt_delivery_ok spec.(mv_ReplyDelivery);
  vso_artifacts : Forall (λ a, handle_ok a.(vao_handle) = true ∧ digest_ok a.(vao_digest)) spec.(mv_Artifacts);
  vso_provenance : Forall (λ p, handle_ok p.(po_handle) = true ∧ ref_ok p.(po_event)) spec.(mv_Provenance);
}.

(** Sorted wires of a map parse back to a permutation of what was loaded. *)
Lemma parse_sorted_wires {A E W} (parse : W → result A) (wire : E → W) (key : W → string)
    (mk : E → A) (es : list E) (xs : list A) :
  Forall (λ e, parse (wire e) = Ok (mk e)) es → map mk es ≡ₚ xs →
  ∃ ys, mapR parse (sort_by key (map wire es)) = Ok ys ∧ xs ≡ₚ ys.
Proof.
  intros Hall Hp. pose proof (sort_by_perm key (map wire es)) as Hs.
  apply Permutation_map_inv in Hs as (es' & E' & Hes). rewrite E'.
  exists (map mk es'). split.
  - apply mapR_Ok. rewrite Hes in Hall. clear -Hall.
    induction Hall; cbn [map]; constructor; done.
  - rewrite <- Hp, Hes. done.
Qed.

Lemma parseViewSubject_wire s :
  handle_ok s.(sb_handle) = true → subject_ok s →
  parseViewSubject (view_subject_wire (s.(sb_handle), s)) = Ok s.
Proof.
  intros Hh [Hi Hr Hf Ho]. unfold parseViewSubject, NewHandlingID.
  cbn [view_subject_wire subject_wire vsw_Handle vsw_Binding sbw_HandlingID sbw_Head sbw_Fence
       sbw_ObservationRevision fst snd].
  rewrite (proj2 (NewOpaqueHandle_Ok _ _) (conj eq_refl Hh)). cbn [mbind result_bind].
  rewrite (proj2 (newIdentifier_Ok _ _ _) (conj eq_refl Hi)). cbn [mbind result_bind].
  rewrite parseEventRef_canonical by done. cbn [mbind result_bind]. unfold NewSubjectBinding, IsZero.
  rewrite (proj2 (is_empty_false _) (token_ok_nonempty _ _ _ Hh)).
  rewrite (proj2 (is_empty_false _) (token_ok_nonempty _ _ _ Hi)).
  rewrite ref_ok_nonzero by done. rewrite (proj2 (Z.eqb_neq _ _)) by lia. by destruct s.
Qed.

Lemma parseViewReference_wire r :
  handle_ok r.(re_handle) = true → expectation_ok r → r.(re_absent) = false →
  parseViewReference (view_reference_wire (r.(re_handle), r)) = Ok r.
Proof.
  intros Hh [Hk Hr] Ha. rewrite Ha in Hr. unfold parseViewReference.
  cbn [view_reference_wire vrw_Handle vrw_Head rew_Absent rew_Key rew_Head fst snd fail_if mbind
       result_bind of_option].
  rewrite (proj2 (NewOpaqueHandle_Ok _ _) (conj eq_refl Hh)). cbn [mbind result_bind].
  rewrite (proj2 (NewReferenceKey_Ok _ _) (conj eq_refl Hk)). cbn [mbind result_bind].
  rewrite parseEventRef_canonical by done. cbn [mbind result_bind]. unfold ExpectReferenceHead, IsZero.
  rewrite (proj2 (is_empty_false _) (token_ok_nonempty _ _ _ Hh)).
  rewrite (proj2 (is_empty_false _) (token_ok_nonempty _ _ _ Hk)).
  rewrite ref_ok_nonzero by done. destruct r; cbn in *; by subst.
Qed.

Lemma target_wf_nonzero t : target_wf t → TargetRef_IsZero t = false.
Proof.
  intros [->|(Hs & Hh & _)]; [done|]. unfold TargetRef_IsZero, IsZero.
  rewrite Hs, (proj2 (is_empty_false _) (token_ok_nonempty _ _ _ Hh)). done.
Qed.

Lemma parseViewTarget_wire attachment t :
  target_wf t.(rt_requested) → target_ok t → validateResolvedTarget attachment t = Ok () →
  parseViewTarget (view_target_wire t) = Ok t.
Proof.
  intros Hw Ht Hv. unfold parseViewTarget, parseTarget.
  cbn [view_target_wire vtw_Requested vtw_Resolved].
  rewrite parseTarget_ok by done. cbn [mbind result_bind].
  pose proof (target_wf_nonzero _ Hw) as Hnz.
  unfold target_ok, validateResolvedTarget, parseResolvedTarget, resolvedWire, NewAgentPrincipalID,
    NewRouteID, ResolveLocalTarget, ResolveRemoteTarget in *.
  destruct t as [req dest lp rr ra]; cbn [rt_requested rt_destination rt_localPrincipal
    rt_remoteRoute rt_remoteAlias rtw_Destination rtw_LocalPrincipal rtw_RemoteRoute
    rtw_RemoteAlias] in *.
  rewrite Hnz in *. destruct dest; [done| |].
  - destruct Ht as (Hp & -> & ->). cbn -[newIdentifier].
    rewrite (proj2 (newIdentifier_Ok _ _ _) (conj eq_refl Hp)). cbn [mbind result_bind].
    unfold IsZero. by rewrite (proj2 (is_empty_false _) (token_ok_nonempty _ _ _ Hp)).
  - destruct Ht as (-> & Hr & Ha). cbn -[newIdentifier NewOpaqueHandle IsZero].
    rewrite (proj2 (newIdentifier_Ok _ _ _) (conj eq_refl Hr)). cbn [mbind result_bind].
    rewrite (proj2 (NewOpaqueHandle_Ok _ _) (conj eq_refl Ha)). cbn [mbind result_bind].
    cbn [fail_if mbind result_bind] in Hv. apply fail_if_Ok in Hv. inv_res.
    unfold IsZero in *.
    repeat match goal with H : _ = false |- _ => rewrite H; clear H end. done.
Qed.

Lemma parseViewArtifact_wire a :
  handle_ok a.(vao_handle) = true → digest_ok a.(vao_digest) →
  parseViewArtifact (view_artifact_wire (a.(vao_handle), a)) = Ok a.
Proof.
  intros Hh [Hw Hz]. unfold parseViewArtifact. cbn [view_artifact_wire vaw_Handle vaw_Digest fst snd].
  rewrite (proj2 (NewOpaqueHandle_Ok _ _) (conj eq_refl Hh)). cbn [mbind result_bind].
  rewrite ParseDigest_String by done. cbn [mbind result_bind]. unfold NewViewArtifactOffer, IsZero.
  rewrite (proj2 (is_empty_false _) (token_ok_nonempty _ _ _ Hh)), Hz. by destruct a.
Qed.

Lemma parseViewProvenanceOffer_wire p :
  handle_ok p.(po_handle) = true → ref_ok p.(po_event) →
  parseViewProvenanceOffer (view_provenance_wire (p.(po_handle), p.(po_event))) = Ok p.
Proof.
  intros Hh Hr. unfold parseViewProvenanceOffer.
  cbn [view_provenance_wire vpw_Handle vpw_Event fst snd].
  rewrite (proj2 (NewOpaqueHandle_Ok _ _) (conj eq_refl Hh)). cbn [mbind result_bind].
  rewrite parseEventRef_canonical by done. cbn [mbind result_bind]. unfold NewProvenanceOffer, IsZero.
  rewrite (proj2 (is_empty_false _) (token_ok_nonempty _ _ _ Hh)), ref_ok_nonzero by done.
  by destruct p.
Qed.

(** Entries that are exactly the loaded offers, by key. *)
Lemma entries_Forall {A V} (key : A → string) (value : A → V) (P : string * V → Prop) xs m :
  m ≡ₚ entries key value xs → Forall (λ x, P (key x, value x)) xs → Forall P m.
Proof. intros -> H. unfold entries. by apply Forall_map. Qed.

Lemma load_reply_facts to target delivery subjects targets provenance r :
  loadReplyContext to target delivery subjects targets provenance = Ok r →
  opt_delivery_ok delivery → (target = no_target ∨ target_wf target) →
  r = {| rx_to := to; rx_target := target; rx_delivery := delivery |} ∧
  target.(tr_self) = false.
Proof.
  unfold loadReplyContext. intros H Hd Ht.
  assert (Hz : TargetRef_IsZero target = true → target = no_target).
  { destruct Ht as [?|Hw%target_wf_nonzero]; [done|congruence]. }
  assert (Hdz : DeliveryID_IsZero delivery = true → delivery = zero_DeliveryID).
  { destruct Hd as [?|[_ Hn]]; [done|]. unfold DeliveryID_IsZero. congruence. }
  destruct (IsZero to) eqn:Eto.
  - inv_res. apply is_empty_true in Eto as ->.
    rewrite (Hz ltac:(done)), (Hdz ltac:(done)). done.
  - do 2 (apply bind_Ok in H as ([] & _ & H)). destruct (TargetRef_IsZero target) eqn:Et.
    + inv_res. rewrite (Hz eq_refl), (Hdz ltac:(done)). done.
    + inv_res. done.
Qed.

Lemma machineViewSpecFromWire_wire spec v :
  view_spec_ok spec → load spec = Ok v →
  ∃ spec', machineViewSpecFromWire (view_wire v) spec.(mv_Attachment) = Ok spec' ∧
           spec_perm spec spec'.
Proof.
  intros [] H. unfold load in H.
  apply bind_Ok in H as (c & Hc & H). apply bind_Ok in H as (su & Hs & H).
  apply bind_Ok in H as (re & Hr & H). apply bind_Ok in H as (ta & Ht & H).
  apply bind_Ok in H as (ar & Ha & H). apply bind_Ok in H as (pr & Hp & H).
  apply bind_Ok in H as (rx & Hx & H). apply bind_Ok in H as ([] & _ & H). injection H as <-.
  destruct (load_reply_facts _ _ _ _ _ _ _ Hx vso_replyDelivery0 vso_replyTarget0) as [-> Hself].
  unfold machineViewSpecFromWire, parseViewConsequences, parseViewSubjects, parseViewReferences,
    parseViewTargets, parseViewArtifacts, parseViewProvenance.
  cbn [view_wire va_consequences va_subjects va_references va_targets va_replyTo va_replyTarget
    va_replyDelivery va_replyObservationPending va_artifacts va_provenance mvw_Consequences
    mvw_Subjects mvw_References mvw_Targets mvw_ReplyTo mvw_ReplyTarget mvw_ReplyDelivery
    mvw_ReplyObservationPending mvw_Artifacts mvw_Provenance rx_to rx_target rx_delivery].
  apply loadConsequences_Ok in Hc as (Hcd & Hcn & ->).
  destruct (parse_sorted_wires parseConsequence Consequence_String (λ c, c) (λ c, c)
    (elements (list_to_set (C:=gset Consequence) (mv_Consequences spec))) (mv_Consequences spec))
    as (cs & Ec & Pc).
  { apply Forall_forall. intros c Hin. rewrite elem_of_elements, elem_of_list_to_set in Hin.
    rewrite Forall_forall in Hcd. by apply parseConsequence_String, agentDeclarable_Valid, Hcd. }
  { rewrite map_id. by apply elements_list_to_set. }
  pose proof (load_offers_to_list _ _ _ _ _ _ Hs) as Ls.
  pose proof (load_offers_to_list _ _ _ _ _ _ Hr) as Lr.
  pose proof (load_offers_to_list _ _ _ _ _ _ Ht) as Lt.
  pose proof (load_offers_to_list _ _ _ _ _ _ Ha) as La.
  pose proof (load_offers_to_list _ _ _ _ _ _ Hp) as Lp.
  apply load_offers_Ok in Hr as (Hrc & _ & _). apply load_offers_Ok in Ht as (Htc & _ & _).
  destruct (parse_sorted_wires parseViewSubject view_subject_wire vsw_Handle snd
    (map_to_list su) (mv_Subjects spec)) as (ss & Es & Ps).
  { eapply entries_Forall; [exact Ls|]. eapply Forall_impl; [done|].
    intros s [? ?]. by apply parseViewSubject_wire. }
  { rewrite Ls. unfold entries. rewrite map_map. by rewrite map_id. }
  destruct (parse_sorted_wires parseViewReference view_reference_wire vrw_Handle snd
    (map_to_list re) (mv_References spec)) as (rs & Er & Pr).
  { eapply entries_Forall; [exact Lr|]. rewrite Forall_forall in *. intros r Hin.
    destruct (vso_references0 r Hin) as [? ?]. apply parseViewReference_wire; [done..|].
    specialize (Hrc r Hin). unfold check_reference_offer in Hrc. inv_res. done. }
  { rewrite Lr. unfold entries. rewrite map_map. by rewrite map_id. }
  destruct (parse_sorted_wires parseViewTarget view_target_wire
    (λ t, targetWireKey (vtw_Requested t)) (λ t, t) (map_to_list ta).*2 (mv_Targets spec))
    as (ts & Et & Pt).
  { rewrite Lt. unfold entries. cbn. rewrite <- list_fmap_compose. apply Forall_fmap.
    rewrite Forall_forall in *. intros t Hin. destruct (vso_targets0 t Hin) as [? ?].
    cbn. eapply parseViewTarget_wire; [done..|]. by apply Htc. }
  { rewrite map_id, Lt. unfold entries. rewrite <- list_fmap_compose. cbn. by rewrite list_fmap_id. }
  destruct (parse_sorted_wires parseViewArtifact view_artifact_wire vaw_Handle snd
    (map_to_list ar) (mv_Artifacts spec)) as (as' & Ea & Pa).
  { eapply entries_Forall; [exact La|]. eapply Forall_impl; [done|].
    intros a [? ?]. by apply parseViewArtifact_wire. }
  { rewrite La. unfold entries. rewrite map_map. by rewrite map_id. }
  destruct (parse_sorted_wires parseViewProvenanceOffer view_provenance_wire vpw_Handle
    (λ e, {| po_handle := e.1; po_event := e.2 |}) (map_to_list pr) (mv_Provenance spec))
    as (ps & Ep & Pp).
  { eapply entries_Forall; [exact Lp|]. eapply Forall_impl; [done|].
    intros [h e] [? ?]. by apply (parseViewProvenanceOffer_wire {| po_handle := h; po_event := e |}). }
  { rewrite Lp. unfold entries. rewrite map_map. rewrite <- (map_id (mv_Provenance spec)) at 2.
    apply reflexive_eq, map_ext. by intros []. }
  step Ec. step Es. step Er. step Et.
  replace (if is_empty (mv_ReplyTo spec) then Ok "" else NewOpaqueHandle (mv_ReplyTo spec))
    with (@Ok string (mv_ReplyTo spec)).
  2:{ destruct vso_replyTo0 as [->|Hh]; [done|].
      rewrite (proj2 (is_empty_false _) (token_ok_nonempty _ _ _ Hh)).
      by rewrite (proj2 (NewOpaqueHandle_Ok _ _) (conj eq_refl Hh)). }
  cbn [mbind result_bind].
  replace (parseViewReplyTarget _) with (@Ok TargetRef (mv_ReplyTarget spec)).
  2:{ destruct vso_replyTarget0 as [->|Hw]; [done|]. rewrite target_wf_nonzero by done.
      cbn [parseViewReplyTarget]. unfold parseTarget.
      replace {| tw_Self := false; tw_Alias := tr_alias (mv_ReplyTarget spec) |}
        with (target_wire (mv_ReplyTarget spec)) by (unfold target_wire; by rewrite Hself).
      rewrite parseTarget_ok by done. cbn [mbind result_bind]. by rewrite Hself. }
  cbn [mbind result_bind]. step (parse_optional_delivery_wire _ vso_replyDelivery0).
  step Ea. step Ep. eexists. split; [done|]. by split_and!.
Qed.

Lemma view_wire_ok spec v : view_spec_ok spec → load spec = Ok v → enc_ok (view_wire v).
Proof.
  intros [] H. unfold load in H.
  apply bind_Ok in H as (c & Hc & H). apply bind_Ok in H as (su & Hs & H).
  apply bind_Ok in H as (re & Hr & H). apply bind_Ok in H as (ta & Ht & H).
  apply bind_Ok in H as (ar & Ha & H). apply bind_Ok in H as (pr & Hp & H).
  apply bind_Ok in H as (rx & Hx & H). apply bind_Ok in H as ([] & _ & H). injection H as <-.
  destruct (load_reply_facts _ _ _ _ _ _ _ Hx vso_replyDelivery0 vso_replyTarget0) as [-> Hself].
  pose proof Hr as (Hrc & _ & _)%load_offers_Ok.
  apply load_offers_to_list in Hs, Hr, Ht, Ha, Hp.
  split; [done|]. split; [by eapply token_ok_utf8|]. split; [done|].
  cbn [view_wire va_consequences va_subjects va_references va_targets va_replyTo va_replyTarget
    va_replyDelivery va_replyObservationPending va_artifacts va_provenance mvw_Consequences
    mvw_Subjects mvw_References mvw_Targets mvw_ReplyTo mvw_ReplyTarget mvw_ReplyDelivery
    mvw_ReplyObservationPending mvw_Artifacts mvw_Provenance rx_to rx_target rx_delivery].
  assert (Hsort : ∀ {W} `{Codec W} (key : W → string) ws, Forall enc_ok ws → enc_ok (sort_by key ws)).
  { intros W ? key ws Hws. cbn. by rewrite sort_by_perm. }
  split; [apply Hsort, Forall_map, Forall_true; intros ?; apply Consequence_String_utf8|].
  split.
  { apply Hsort, Forall_map. eapply entries_Forall; [exact Hs|]. eapply Forall_impl; [done|].
    intros s [? ?]. split; [by eapply token_ok_utf8|by apply subject_wire_ok]. }
  split.
  { apply Hsort, Forall_map. eapply entries_Forall; [exact Hr|].
    rewrite Forall_forall in *. intros r Hin. destruct (vso_references0 r Hin) as [? [? Hh]].
    specialize (Hrc r Hin). unfold check_reference_offer in Hrc. inv_res.
    repeat match goal with H : re_absent r = false |- _ => rewrite H in *; clear H end.
    split; [by eapply token_ok_utf8|]. split; [done|].
    split; [by eapply token_ok_utf8|]. intros w [= <-]. by apply ref_wire_ok. }
  split.
  { apply Hsort, Forall_map. rewrite Ht. unfold entries. rewrite <- list_fmap_compose.
    apply Forall_fmap. eapply Forall_impl; [done|]. intros t [? ?]. cbn -[enc_ok].
    split; [by apply target_wire_ok|by apply target_wire_enc_ok]. }
  split; [by apply opt_handle_utf8|]. split.
  { intros w Hw. destruct (TargetRef_IsZero (mv_ReplyTarget spec)) eqn:Ez; [done|].
    injection Hw as <-. split; [done|]. destruct vso_replyTarget0 as [E|[E|(_ & Hh & _)]].
    - by rewrite E in Ez.
    - by rewrite E in Hself.
    - by eapply token_ok_utf8. }
  split; [apply optional_delivery_utf8|]. split; [done|]. split.
  { apply Hsort, Forall_map. eapply entries_Forall; [exact Ha|]. eapply Forall_impl; [done|].
    intros a [? ?]. split; [by eapply token_ok_utf8|apply Digest_String_utf8]. }
  apply Hsort, Forall_map. eapply entries_Forall; [exact Hp|]. eapply Forall_impl; [done|].
  intros p [? ?]. split; [by eapply token_ok_utf8|by apply ref_wire_ok].
Qed.

(** The sealed form of a successful construction. *)
Lemma NewViewAuthority_Ok spec v :
  NewViewAuthority spec = Ok v →
  ∃ v0, load spec = Ok v0 ∧ v = view_with_seal v0 v.(va_canonical) v.(va_digest) ∧
    v.(va_canonical) = canonical_bytes (view_wire v) ∧ v.(va_digest) = Sum v.(va_canonical) ∧
    slen v.(va_canonical) <= MaxViewCanonicalBytes ∧ IsZero spec.(mv_Attachment).(at_id) = false.
Proof.
  unfold NewViewAuthority. intros H. apply bind_Ok in H as ([] & H1 & H).
  do 4 (apply bind_Ok in H as ([] & _ & H)). apply bind_Ok in H as (v0 & Hv & H).
  unfold canonicalJSON in H. cbn [mbind result_bind] in H.
  apply bind_Ok in H as ([] & Hs & H). injection H as <-. exists v0.
  apply fail_if_Ok in H1. apply fail_if_Ok, Z.ltb_ge in Hs. done.
Qed.

Lemma load_attachment spec v : load spec = Ok v → v.(va_attachment) = spec.(mv_Attachment).
Proof.
  unfold load. intros H. do 7 (apply bind_Ok in H as (? & _ & H)).
  apply bind_Ok in H as (? & _ & H). by injection H as <-.
Qed.

Lemma ParseViewAuthorityCanonicalJSON_canonical spec v :
  view_spec_ok spec → NewViewAuthority spec = Ok v →
  ParseViewAuthorityCanonicalJSON v.(va_canonical) v.(va_attachment) = Ok v.
Proof.
  intros Hok Hv. destruct (NewViewAuthority_Ok _ _ Hv) as (v0 & Hload & Ev & Hcan & _ & Hs & Hid).
  assert (Hwire : view_wire v = view_wire v0) by (by rewrite Ev).
  pose proof (view_wire_ok _ _ Hok Hload) as Henc.
  destruct (machineViewSpecFromWire_wire _ _ Hok Hload) as (spec' & Hspec & Hperm).
  assert (Hatt : va_attachment v = mv_Attachment spec)
    by (rewrite Ev; by apply load_attachment in Hload).
  unfold ParseViewAuthorityCanonicalJSON. rewrite Hatt. rewrite Hwire in Hcan. rewrite Hcan in Hs |- *.
  rewrite decodeCanonicalObject_canonical by done. cbn [mbind result_bind].
  change (mvw_SchemaVersion (view_wire v0)) with viewAuthorityVersion.
  change (mvw_SourcePrincipal (view_wire v0)) with (at_principal (va_attachment v0)).
  change (mvw_MayInitiate (view_wire v0)) with (at_mayInitiate (va_attachment v0)).
  rewrite (load_attachment _ _ Hload). rewrite Z.eqb_refl. cbn [negb fail_if mbind result_bind].
  unfold NewAgentPrincipalID.
  step (proj2 (newIdentifier_Ok "AgentPrincipalID" _ _) (conj eq_refl (vso_principal _ Hok))).
  rewrite Hid, bool_decide_eq_true_2 by done. rewrite eqb_reflx. cbn [negb orb fail_if mbind result_bind].
  step Hspec. step (NewViewAuthority_perm _ _ _ Hperm Hv).
  by rewrite (proj2 (requireReconstructedCanonical_Ok "View authority JSON" _ _ ()) (eq_sym Hcan)).
Qed.
