(* ===== verification/AgentView.v ===== *)
(** The bounded projections shown to an Agent: the View
    (internal/agency/agent_view.go, agent_view_focus.go, agent_view_wire.go), its
    reconstruction against the sealed authority (agent_view_parse.go,
    agent_projection_parse.go) and the Receipt projection (agent_receipt.go). *)

From Stdlib Require Import Lia.
From S2P Require Import Prelude Utf8 Json Wire Sha256 Time Value Intent Bound Event View.

#[local] Open Scope Z_scope.
#[local] Arguments String.append : simpl nomatch.

Definition AgentViewSchema : string := "mnemon.agent.view".
Definition AgentViewVersion : Z := 8.
Definition MaxAgentViewCanonicalBytes : Z := Z.shiftl 16 10.
Definition MaxAgentViewReferences : Z := 8.
Definition MaxAgentViewCurrentArtifacts : Z := MaxArtifactInputs.
Definition MaxAgentViewRelated : Z := 1.
Definition MaxAgentViewRelatedTotal : Z := 128.
Definition MaxAgentViewFocusPayloadBytes : Z := MaxSemanticPayloadBytes.

(** ** Wire structs *)

Record agentViewArtifactWire := {
  avaw_Handle : string;
  avaw_Digest : string;
}.
#[export] Instance agentViewArtifactWire_codec : Codec agentViewArtifactWire := {
  enc w := struct [
    field "handle" w.(avaw_Handle); field "digest" w.(avaw_Digest)];
  dec_value j :=
    ms ← members_of
      ["handle"; "digest"] j;
    xHandle ← get "handle" ms; xDigest ← get "digest" ms;
    Ok {| avaw_Handle := xHandle; avaw_Digest := xDigest |};
  zero := {| avaw_Handle := zero; avaw_Digest := zero |};
  empty _ := false;
  enc_ok w := enc_ok w.(avaw_Handle) ∧ enc_ok w.(avaw_Digest);
}.
#[export] Instance agentViewArtifactWire_laws : CodecLaws agentViewArtifactWire.
Proof. solve_struct. Qed.

Record agentViewSemanticWire := {
  avsw_Kind : string;
  avsw_Payload : string;
}.
#[export] Instance agentViewSemanticWire_codec : Codec agentViewSemanticWire := {
  enc w := struct [
    field "kind" w.(avsw_Kind); field "payload" w.(avsw_Payload)];
  dec_value j :=
    ms ← members_of
      ["kind"; "payload"] j;
    xKind ← get "kind" ms; xPayload ← get "payload" ms;
    Ok {| avsw_Kind := xKind; avsw_Payload := xPayload |};
  zero := {| avsw_Kind := zero; avsw_Payload := zero |};
  empty _ := false;
  enc_ok w := enc_ok w.(avsw_Kind) ∧ enc_ok w.(avsw_Payload);
}.
#[export] Instance agentViewSemanticWire_laws : CodecLaws agentViewSemanticWire.
Proof. solve_struct. Qed.

Record agentViewCurrentFactsWire := {
  avfw_Handle : string;
  avfw_ReplyTo : string;
  avfw_ReplyRequired : bool;
  avfw_ReplyTarget : string;
  avfw_ReplyObservationPending : bool;
  avfw_Artifacts : list agentViewArtifactWire;
}.
#[export] Instance agentViewCurrentFactsWire_codec : Codec agentViewCurrentFactsWire := {
  enc w := struct [
    field "handle" w.(avfw_Handle); field "reply_to" w.(avfw_ReplyTo);
    field "reply_required" w.(avfw_ReplyRequired);
    omitempty "reply_target" w.(avfw_ReplyTarget);
    field "reply_observation_pending" w.(avfw_ReplyObservationPending);
    omitempty "artifacts" w.(avfw_Artifacts)];
  dec_value j :=
    ms ← members_of
      ["handle"; "reply_to"; "reply_required"; "reply_target"; "reply_observation_pending";
      "artifacts"] j;
    xHandle ← get "handle" ms; xReplyTo ← get "reply_to" ms;
    xReplyRequired ← get "reply_required" ms; xReplyTarget ← get "reply_target" ms;
    xReplyObservationPending ← get "reply_observation_pending" ms;
    xArtifacts ← get "artifacts" ms;
    Ok {| avfw_Handle := xHandle; avfw_ReplyTo := xReplyTo;
          avfw_ReplyRequired := xReplyRequired; avfw_ReplyTarget := xReplyTarget;
          avfw_ReplyObservationPending := xReplyObservationPending;
          avfw_Artifacts := xArtifacts |};
  zero := {| avfw_Handle := zero; avfw_ReplyTo := zero; avfw_ReplyRequired := zero;
    avfw_ReplyTarget := zero; avfw_ReplyObservationPending := zero; avfw_Artifacts := zero |};
  empty _ := false;
  enc_ok w := enc_ok w.(avfw_Handle) ∧ enc_ok w.(avfw_ReplyTo) ∧ enc_ok w.(avfw_ReplyRequired) ∧
    enc_ok w.(avfw_ReplyTarget) ∧ enc_ok w.(avfw_ReplyObservationPending) ∧
    enc_ok w.(avfw_Artifacts);
}.
#[export] Instance agentViewCurrentFactsWire_laws : CodecLaws agentViewCurrentFactsWire.
Proof. solve_struct. Qed.

Record agentViewCurrentWire := {
  avcw_Facts : agentViewCurrentFactsWire;
  avcw_Semantic : agentViewSemanticWire;
}.
#[export] Instance agentViewCurrentWire_codec : Codec agentViewCurrentWire := {
  enc w := struct [
    field "facts" w.(avcw_Facts); field "semantic" w.(avcw_Semantic)];
  dec_value j :=
    ms ← members_of
      ["facts"; "semantic"] j;
    xFacts ← get "facts" ms; xSemantic ← get "semantic" ms;
    Ok {| avcw_Facts := xFacts; avcw_Semantic := xSemantic |};
  zero := {| avcw_Facts := zero; avcw_Semantic := zero |};
  empty _ := false;
  enc_ok w := enc_ok w.(avcw_Facts) ∧ enc_ok w.(avcw_Semantic);
}.
#[export] Instance agentViewCurrentWire_laws : CodecLaws agentViewCurrentWire.
Proof. solve_struct. Qed.

Record agentViewRelatedFactsWire := {
  avrf_Event : string;
  avrf_Relation : string;
  avrf_Outcome : string;
  avrf_Artifacts : list agentViewArtifactWire;
}.
#[export] Instance agentViewRelatedFactsWire_codec : Codec agentViewRelatedFactsWire := {
  enc w := struct [
    field "event" w.(avrf_Event); field "relation" w.(avrf_Relation);
    omitempty "outcome" w.(avrf_Outcome); omitempty "artifacts" w.(avrf_Artifacts)];
  dec_value j :=
    ms ← members_of
      ["event"; "relation"; "outcome"; "artifacts"] j;
    xEvent ← get "event" ms; xRelation ← get "relation" ms; xOutcome ← get "outcome" ms;
    xArtifacts ← get "artifacts" ms;
    Ok {| avrf_Event := xEvent; avrf_Relation := xRelation; avrf_Outcome := xOutcome;
          avrf_Artifacts := xArtifacts |};
  zero := {| avrf_Event := zero; avrf_Relation := zero; avrf_Outcome := zero; avrf_Artifacts := zero |};
  empty _ := false;
  enc_ok w := enc_ok w.(avrf_Event) ∧ enc_ok w.(avrf_Relation) ∧ enc_ok w.(avrf_Outcome) ∧
    enc_ok w.(avrf_Artifacts);
}.
#[export] Instance agentViewRelatedFactsWire_laws : CodecLaws agentViewRelatedFactsWire.
Proof. solve_struct. Qed.

Record agentViewRelatedWire := {
  avrw_Facts : agentViewRelatedFactsWire;
  avrw_Semantic : agentViewSemanticWire;
}.
#[export] Instance agentViewRelatedWire_codec : Codec agentViewRelatedWire := {
  enc w := struct [
    field "facts" w.(avrw_Facts); field "semantic" w.(avrw_Semantic)];
  dec_value j :=
    ms ← members_of
      ["facts"; "semantic"] j;
    xFacts ← get "facts" ms; xSemantic ← get "semantic" ms;
    Ok {| avrw_Facts := xFacts; avrw_Semantic := xSemantic |};
  zero := {| avrw_Facts := zero; avrw_Semantic := zero |};
  empty _ := false;
  enc_ok w := enc_ok w.(avrw_Facts) ∧ enc_ok w.(avrw_Semantic);
}.
#[export] Instance agentViewRelatedWire_laws : CodecLaws agentViewRelatedWire.
Proof. solve_struct. Qed.

Record agentViewOutstandingWire := {
  avow_OpenTotal : Z;
  avow_RelatedTotal : Z;
  avow_RelatedProjected : Z;
  avow_Truncated : bool;
}.
#[export] Instance agentViewOutstandingWire_codec : Codec agentViewOutstandingWire := {
  enc w := struct [
    @field Z int_codec "open_total" w.(avow_OpenTotal);
    @field Z int_codec "related_total" w.(avow_RelatedTotal);
    @field Z int_codec "related_projected" w.(avow_RelatedProjected);
    field "truncated" w.(avow_Truncated)];
  dec_value j :=
    ms ← members_of
      ["open_total"; "related_total"; "related_projected"; "truncated"] j;
    xOpenTotal ← @get Z int_codec "open_total" ms;
    xRelatedTotal ← @get Z int_codec "related_total" ms;
    xRelatedProjected ← @get Z int_codec "related_projected" ms;
    xTruncated ← get "truncated" ms;
    Ok {| avow_OpenTotal := xOpenTotal; avow_RelatedTotal := xRelatedTotal;
          avow_RelatedProjected := xRelatedProjected; avow_Truncated := xTruncated |};
  zero := {| avow_OpenTotal := 0%Z; avow_RelatedTotal := 0%Z; avow_RelatedProjected := 0%Z;
    avow_Truncated := zero |};
  empty _ := false;
  enc_ok w := @enc_ok Z int_codec w.(avow_OpenTotal) ∧ @enc_ok Z int_codec w.(avow_RelatedTotal) ∧
    @enc_ok Z int_codec w.(avow_RelatedProjected) ∧ enc_ok w.(avow_Truncated);
}.
#[export] Instance agentViewOutstandingWire_laws : CodecLaws agentViewOutstandingWire.
Proof. solve_struct. Qed.

Record agentViewReferenceFactsWire := {
  avxf_Key : string;
  avxf_Head : string;
  avxf_State : string;
  avxf_Artifact : option agentViewArtifactWire;
}.
#[export] Instance agentViewReferenceFactsWire_codec : Codec agentViewReferenceFactsWire := {
  enc w := struct [
    field "key" w.(avxf_Key); field "head" w.(avxf_Head); field "state" w.(avxf_State);
    omitnil "artifact" w.(avxf_Artifact)];
  dec_value j :=
    ms ← members_of
      ["key"; "head"; "state"; "artifact"] j;
    xKey ← get "key" ms; xHead ← get "head" ms; xState ← get "state" ms;
    xArtifact ← get_ptr "artifact" ms;
    Ok {| avxf_Key := xKey; avxf_Head := xHead; avxf_State := xState;
          avxf_Artifact := xArtifact |};
  zero := {| avxf_Key := zero; avxf_Head := zero; avxf_State := zero; avxf_Artifact := None |};
  empty _ := false;
  enc_ok w := enc_ok w.(avxf_Key) ∧ enc_ok w.(avxf_Head) ∧ enc_ok w.(avxf_State) ∧
    ok_ptr w.(avxf_Artifact);
}.
#[export] Instance agentViewReferenceFactsWire_laws : CodecLaws agentViewReferenceFactsWire.
Proof. solve_struct. Qed.

Record agentViewReferenceWire := {
  avxw_Facts : agentViewReferenceFactsWire;
}.
#[export] Instance agentViewReferenceWire_codec : Codec agentViewReferenceWire := {
  enc w := struct [
    field "facts" w.(avxw_Facts)];
  dec_value j :=
    ms ← members_of
      ["facts"] j;
    xFacts ← get "facts" ms;
    Ok {| avxw_Facts := xFacts |};
  zero := {| avxw_Facts := zero |};
  empty _ := false;
  enc_ok w := enc_ok w.(avxw_Facts);
}.
#[export] Instance agentViewReferenceWire_laws : CodecLaws agentViewReferenceWire.
Proof. solve_struct. Qed.

Record agentViewIntentShapeWire := {
  aviw_Consequence : string;
  aviw_Subject : string;
  aviw_Successors : string;
  aviw_Reference : string;
  aviw_Artifacts : string;
}.
#[export] Instance agentViewIntentShapeWire_codec : Codec agentViewIntentShapeWire := {
  enc w := struct [
    field "consequence" w.(aviw_Consequence); field "subject" w.(aviw_Subject);
    omitempty "successors" w.(aviw_Successors); omitempty "reference" w.(aviw_Reference);
    field "artifacts" w.(aviw_Artifacts)];
  dec_value j :=
    ms ← members_of
      ["consequence"; "subject"; "successors"; "reference"; "artifacts"] j;
    xConsequence ← get "consequence" ms; xSubject ← get "subject" ms;
    xSuccessors ← get "successors" ms; xReference ← get "reference" ms;
    xArtifacts ← get "artifacts" ms;
    Ok {| aviw_Consequence := xConsequence; aviw_Subject := xSubject;
          aviw_Successors := xSuccessors; aviw_Reference := xReference;
          aviw_Artifacts := xArtifacts |};
  zero := {| aviw_Consequence := zero; aviw_Subject := zero; aviw_Successors := zero;
    aviw_Reference := zero; aviw_Artifacts := zero |};
  empty _ := false;
  enc_ok w := enc_ok w.(aviw_Consequence) ∧ enc_ok w.(aviw_Subject) ∧ enc_ok w.(aviw_Successors) ∧
    enc_ok w.(aviw_Reference) ∧ enc_ok w.(aviw_Artifacts);
}.
#[export] Instance agentViewIntentShapeWire_laws : CodecLaws agentViewIntentShapeWire.
Proof. solve_struct. Qed.

Record agentViewWire := {
  avw_Schema : string;
  avw_Version : Z;
  avw_View : string;
  avw_Current : option agentViewCurrentWire;
  avw_Related : list agentViewRelatedWire;
  avw_Outstanding : agentViewOutstandingWire;
  avw_References : list agentViewReferenceWire;
  avw_Targets : list string;
  avw_AllowedIntents : list agentViewIntentShapeWire;
  avw_Provenance : list string;
}.
#[export] Instance agentViewWire_codec : Codec agentViewWire := {
  enc w := struct [
    field "schema" w.(avw_Schema); @field Z int_codec "version" w.(avw_Version);
    field "view" w.(avw_View); omitnil "current" w.(avw_Current);
    omitempty "related" w.(avw_Related); field "outstanding" w.(avw_Outstanding);
    omitempty "references" w.(avw_References); omitempty "targets" w.(avw_Targets);
    field "allowed_intents" w.(avw_AllowedIntents);
    omitempty "provenance_handles" w.(avw_Provenance)];
  dec_value j :=
    ms ← members_of
      ["schema"; "version"; "view"; "current"; "related"; "outstanding"; "references";
      "targets"; "allowed_intents"; "provenance_handles"] j;
    xSchema ← get "schema" ms; xVersion ← @get Z int_codec "version" ms;
    xView ← get "view" ms; xCurrent ← get_ptr "current" ms; xRelated ← get "related" ms;
    xOutstanding ← get "outstanding" ms; xReferences ← get "references" ms;
    xTargets ← get "targets" ms; xAllowedIntents ← get "allowed_intents" ms;
    xProvenance ← get "provenance_handles" ms;
    Ok {| avw_Schema := xSchema; avw_Version := xVersion; avw_View := xView;
          avw_Current := xCurrent; avw_Related := xRelated; avw_Outstanding := xOutstanding;
          avw_References := xReferences; avw_Targets := xTargets;
          avw_AllowedIntents := xAllowedIntents; avw_Provenance := xProvenance |};
  zero := {| avw_Schema := zero; avw_Version := 0%Z; avw_View := zero; avw_Current := None;
    avw_Related := zero; avw_Outstanding := zero; avw_References := zero;
    avw_Targets := zero; avw_AllowedIntents := zero; avw_Provenance := zero |};
  empty _ := false;
  enc_ok w := enc_ok w.(avw_Schema) ∧ @enc_ok Z int_codec w.(avw_Version) ∧ enc_ok w.(avw_View) ∧
    ok_ptr w.(avw_Current) ∧ enc_ok w.(avw_Related) ∧ enc_ok w.(avw_Outstanding) ∧
    enc_ok w.(avw_References) ∧ enc_ok w.(avw_Targets) ∧ enc_ok w.(avw_AllowedIntents) ∧
    enc_ok w.(avw_Provenance);
}.
#[export] Instance agentViewWire_laws : CodecLaws agentViewWire.
Proof. solve_struct. Qed.

Record agentReceiptWire := {
  agw_Schema : string;
  agw_Version : Z;
  agw_Outcome : string;
  agw_Replayed : bool;
  agw_Diagnostic : string;
}.
#[export] Instance agentReceiptWire_codec : Codec agentReceiptWire := {
  enc w := struct [
    field "schema" w.(agw_Schema); @field Z int_codec "version" w.(agw_Version);
    field "outcome" w.(agw_Outcome); field "replayed" w.(agw_Replayed);
    omitempty "diagnostic" w.(agw_Diagnostic)];
  dec_value j :=
    ms ← members_of
      ["schema"; "version"; "outcome"; "replayed"; "diagnostic"] j;
    xSchema ← get "schema" ms; xVersion ← @get Z int_codec "version" ms;
    xOutcome ← get "outcome" ms; xReplayed ← get "replayed" ms;
    xDiagnostic ← get "diagnostic" ms;
    Ok {| agw_Schema := xSchema; agw_Version := xVersion; agw_Outcome := xOutcome;
          agw_Replayed := xReplayed; agw_Diagnostic := xDiagnostic |};
  zero := {| agw_Schema := zero; agw_Version := 0%Z; agw_Outcome := zero; agw_Replayed := zero;
    agw_Diagnostic := zero |};
  empty _ := false;
  enc_ok w := enc_ok w.(agw_Schema) ∧ @enc_ok Z int_codec w.(agw_Version) ∧ enc_ok w.(agw_Outcome) ∧
    enc_ok w.(agw_Replayed) ∧ enc_ok w.(agw_Diagnostic);
}.
#[export] Instance agentReceiptWire_laws : CodecLaws agentReceiptWire.
Proof. solve_struct. Qed.

#[export] Instance agentViewIntentShapeWire_eq_dec : EqDecision agentViewIntentShapeWire.
Proof. solve_decision. Defined.

(** ** Specifications *)

Record AgentViewCurrentSpec := {
  acs_Subject : OpaqueHandle;
  acs_ReplyTo : OpaqueHandle;
  acs_Kind : SemanticLabel;
  acs_Payload : SemanticPayload;
  acs_Artifacts : list OpaqueHandle;
}.

Inductive AgentViewReferenceState :=
| AgentViewReferenceStateInvalid | AgentViewReferenceStateActive | AgentViewReferenceStateRetracted.

Record AgentViewReferenceSpec := {
  avr_Head : OpaqueHandle; avr_State : AgentViewReferenceState; avr_Artifact : OpaqueHandle }.

Inductive AgentViewRelation :=
| AgentViewRelationInvalid | AgentViewRelationCorrelation | AgentViewRelationTerminalReply.
#[export] Instance AgentViewRelation_eq_dec : EqDecision AgentViewRelation.
Proof. solve_decision. Defined.

Definition AgentViewRelation_String (relation : AgentViewRelation) : string :=
  match relation with
  | AgentViewRelationCorrelation => "correlation"
  | AgentViewRelationTerminalReply => "terminal_reply"
  | AgentViewRelationInvalid => ""
  end.

Inductive AgentViewTerminalOutcome :=
| AgentViewTerminalOutcomeInvalid | AgentViewTerminalOutcomeCompleted
| AgentViewTerminalOutcomeDeclined | AgentViewTerminalOutcomeUnresolved.
#[export] Instance AgentViewTerminalOutcome_eq_dec : EqDecision AgentViewTerminalOutcome.
Proof. solve_decision. Defined.

Definition AgentViewTerminalOutcome_String (outcome : AgentViewTerminalOutcome) : string :=
  match outcome with
  | AgentViewTerminalOutcomeCompleted => "completed"
  | AgentViewTerminalOutcomeDeclined => "declined"
  | AgentViewTerminalOutcomeUnresolved => "unresolved"
  | AgentViewTerminalOutcomeInvalid => ""
  end.

Record AgentViewRelatedSpec := {
  ars_Event : OpaqueHandle;
  ars_Relation : AgentViewRelation;
  ars_Outcome : AgentViewTerminalOutcome;
  ars_Kind : SemanticLabel;
  ars_Payload : SemanticPayload;
  ars_Artifacts : list OpaqueHandle;
}.

Record AgentViewOutstanding := {
  avo_OpenTotal : Z; avo_RelatedTotal : Z; avo_RelatedProjected : Z; avo_Truncated : bool }.

Record AgentViewSpec := {
  avs_Handle : OpaqueHandle;
  avs_Authority : ViewAuthority;
  avs_Current : option AgentViewCurrentSpec;
  avs_Related : list AgentViewRelatedSpec;
  avs_Outstanding : AgentViewOutstanding;
  avs_References : list AgentViewReferenceSpec;
}.

Record AgentView := { av_handle : OpaqueHandle; av_canonical : string }.

(** ** Projection *)

Definition publicArtifactWire (handle : OpaqueHandle) (digest : Digest) : agentViewArtifactWire :=
  {| avaw_Handle := handle; avaw_Digest := Digest_String digest |}.

(** The loop over offered Artifact handles: [seen] is the handle set built so
    far, shared with earlier projections of the same kind. *)
Fixpoint project_artifacts (field unoffered : string) (offers : gmap string ViewArtifactOffer)
    (seen : gset string) (handles : list OpaqueHandle)
    : result (list agentViewArtifactWire * gset string) :=
  match handles with
  | [] => Ok ([], seen)
  | handle :: handles =>
      offer ← of_option (offers !! handle) (invariant field unoffered);
      _ ← fail_if (IsZero handle) (invariant field unoffered);
      _ ← fail_if (bool_decide (handle ∈ seen)) (invalid field "contains a duplicate handle");
      '(wires, seen) ← project_artifacts field unoffered offers ({[handle]} ∪ seen) handles;
      Ok (publicArtifactWire handle offer.(vao_digest) :: wires, seen)
  end.

Definition projectReplyTarget (authority : ViewAuthority) : result string :=
  let target := authority.(va_replyTarget) in
  if TargetRef_IsZero target then Ok "" else
  let mismatch := invariant "Agent View reply target" "does not match sealed remote target authority" in
  resolved ← of_option (authority.(va_targets) !! TargetRef_canonicalKey target) mismatch;
  _ ← fail_if (negb (bool_decide (resolved.(rt_destination) = TargetDestinationRemote)) ||
               negb (bool_decide (resolved.(rt_requested) = target))) mismatch;
  Ok target.(tr_alias).

Definition sort_artifact_wires : list agentViewArtifactWire → list agentViewArtifactWire :=
  sort_by avaw_Handle.

Definition projectCurrent (spec : option AgentViewCurrentSpec) (authority : ViewAuthority)
    : result (option agentViewCurrentWire * gset string) :=
  match spec with
  | None =>
      _ ← fail_if (negb (bool_decide (authority.(va_subjects) = ∅)) ||
                   negb (IsZero authority.(va_replyTo)) ||
                   negb (TargetRef_IsZero authority.(va_replyTarget)) ||
                   negb (DeliveryID_IsZero authority.(va_replyDelivery)))
            (invariant "Agent View current" "sealed subject must be projected");
      Ok (None, ∅)
  | Some spec =>
      _ ← fail_if (IsZero spec.(acs_Subject) || IsZero spec.(acs_ReplyTo) || IsZero spec.(acs_Kind))
            (invalid "Agent View current" "subject, reply-to provenance, and kind are required");
      _ ← fail_if (MaxAgentViewCurrentArtifacts <? lenZ spec.(acs_Artifacts))
            (limit "Agent View current Artifacts" (lenZ spec.(acs_Artifacts))
              MaxAgentViewCurrentArtifacts);
      _ ← fail_if (negb (is_some (authority.(va_subjects) !! spec.(acs_Subject))) ||
                   negb (Z.of_nat (size authority.(va_subjects)) =? 1))
            (invariant "Agent View current" "subject was not the sealed current subject");
      _ ← fail_if (negb (bool_decide (spec.(acs_ReplyTo) = authority.(va_replyTo))))
            (invariant "Agent View current" "reply-to does not match sealed reply authority");
      _ ← fail_if (negb (is_some (authority.(va_provenance) !! spec.(acs_ReplyTo))))
            (invariant "Agent View current" "reply-to was not offered as provenance");
      replyTarget ← projectReplyTarget authority;
      '(wires, artifacts) ← project_artifacts "Agent View current Artifacts"
        "handle was not offered by sealed authority" authority.(va_artifacts) ∅ spec.(acs_Artifacts);
      Ok (Some {|
        avcw_Facts := {| avfw_Handle := spec.(acs_Subject); avfw_ReplyTo := spec.(acs_ReplyTo);
          avfw_ReplyRequired := negb (is_empty replyTarget); avfw_ReplyTarget := replyTarget;
          avfw_ReplyObservationPending := authority.(va_replyObservationPending);
          avfw_Artifacts := sort_artifact_wires wires |};
        avcw_Semantic := {| avsw_Kind := spec.(acs_Kind); avsw_Payload := spec.(acs_Payload) |} |},
        artifacts)
  end.

Definition projectRelatedEvent (authority : ViewAuthority) (spec : AgentViewRelatedSpec)
    (artifacts seenEvents : gset string) : result (agentViewRelatedWire * gset string) :=
  _ ← fail_if (IsZero spec.(ars_Event) || IsZero spec.(ars_Kind) ||
               is_empty (AgentViewRelation_String spec.(ars_Relation)))
        (invalid "Agent View related Event" "event, relation, and kind are required");
  let has_outcome := negb (bool_decide (spec.(ars_Outcome) = AgentViewTerminalOutcomeInvalid)) in
  _ ← fail_if (negb (eqb (bool_decide (spec.(ars_Relation) = AgentViewRelationTerminalReply))
                       has_outcome) ||
               (has_outcome && is_empty (AgentViewTerminalOutcome_String spec.(ars_Outcome))))
        (invariant "Agent View related outcome" "is required exactly for a terminal reply");
  _ ← fail_if (negb (is_some (authority.(va_provenance) !! spec.(ars_Event))))
        (invariant "Agent View related Event" "event was not offered as provenance");
  _ ← fail_if (bool_decide (spec.(ars_Event) ∈ seenEvents))
        (invalid "Agent View related Event" "contains a duplicate event");
  '(wires, artifacts) ← project_artifacts "Agent View related Artifacts" "handle was not offered"
    authority.(va_artifacts) artifacts spec.(ars_Artifacts);
  Ok ({| avrw_Facts := {| avrf_Event := spec.(ars_Event);
           avrf_Relation := AgentViewRelation_String spec.(ars_Relation);
           avrf_Outcome := AgentViewTerminalOutcome_String spec.(ars_Outcome);
           avrf_Artifacts := sort_artifact_wires wires |};
         avrw_Semantic := {| avsw_Kind := spec.(ars_Kind); avsw_Payload := spec.(ars_Payload) |} |},
      artifacts).

Fixpoint project_related_events (authority : ViewAuthority) (artifacts seenEvents : gset string)
    (specs : list AgentViewRelatedSpec) : result (list agentViewRelatedWire * gset string) :=
  match specs with
  | [] => Ok ([], artifacts)
  | spec :: specs =>
      '(wire, artifacts) ← projectRelatedEvent authority spec artifacts seenEvents;
      '(wires, artifacts) ← project_related_events authority artifacts
        ({[spec.(ars_Event)]} ∪ seenEvents) specs;
      Ok (wire :: wires, artifacts)
  end.

Definition projectRelated (specs : list AgentViewRelatedSpec) (outstanding : AgentViewOutstanding)
    (authority : ViewAuthority) : result (list agentViewRelatedWire * gset string) :=
  _ ← fail_if (MaxAgentViewRelated <? lenZ specs)
        (limit "Agent View related" (lenZ specs) MaxAgentViewRelated);
  _ ← fail_if ((outstanding.(avo_OpenTotal) <? 0) || (outstanding.(avo_RelatedTotal) <? 0) ||
               (MaxAgentViewRelatedTotal <? outstanding.(avo_RelatedTotal)) ||
               (outstanding.(avo_RelatedProjected) <? 0) ||
               negb (outstanding.(avo_RelatedProjected) =? lenZ specs) ||
               negb (eqb outstanding.(avo_Truncated)
                       (outstanding.(avo_RelatedProjected) <? outstanding.(avo_RelatedTotal))))
        (invariant "Agent View outstanding" "counts do not match the related projection");
  '(wires, artifacts) ← project_related_events authority ∅ ∅ specs;
  Ok (sort_by (λ w, w.(avrw_Facts).(avrf_Event)) wires, artifacts).

Definition projectReferenceState (spec : AgentViewReferenceSpec)
    (offers : gmap string ViewArtifactOffer) : result (string * option agentViewArtifactWire) :=
  match spec.(avr_State) with
  | AgentViewReferenceStateActive =>
      let unoffered := invariant "Agent View active Reference" "Artifact must be a sealed offer" in
      artifact ← of_option (offers !! spec.(avr_Artifact)) unoffered;
      _ ← fail_if (IsZero spec.(avr_Artifact)) unoffered;
      Ok ("active", Some (publicArtifactWire spec.(avr_Artifact) artifact.(vao_digest)))
  | AgentViewReferenceStateRetracted =>
      _ ← fail_if (negb (IsZero spec.(avr_Artifact)))
            (invariant "Agent View retracted Reference" "must not carry an Artifact");
      Ok ("retracted", None)
  | AgentViewReferenceStateInvalid =>
      Err (invalid "Agent View Reference state" "must be active or retracted")
  end.

Fixpoint project_reference_heads (authority : ViewAuthority) (seenHeads : gset string)
    (specs : list AgentViewReferenceSpec) : result (list agentViewReferenceWire * gset string) :=
  match specs with
  | [] => Ok ([], ∅)
  | spec :: specs =>
      let unsealed := invariant "Agent View Reference" "head must be a sealed offer" in
      reference ← of_option (authority.(va_references) !! spec.(avr_Head)) unsealed;
      _ ← fail_if (IsZero spec.(avr_Head)) unsealed;
      _ ← fail_if (bool_decide (spec.(avr_Head) ∈ seenHeads))
            (invalid "Agent View References" "contains a duplicate head");
      '(state, artifact) ← projectReferenceState spec authority.(va_artifacts);
      '(wires, artifacts) ← project_reference_heads authority ({[spec.(avr_Head)]} ∪ seenHeads) specs;
      Ok ({| avxw_Facts := {| avxf_Key := reference.(re_key); avxf_Head := spec.(avr_Head);
               avxf_State := state; avxf_Artifact := artifact |} |} :: wires,
          if IsZero spec.(avr_Artifact) then artifacts else {[spec.(avr_Artifact)]} ∪ artifacts)
  end.

Definition projectReferences (specs : list AgentViewReferenceSpec) (authority : ViewAuthority)
    : result (list agentViewReferenceWire * gset string) :=
  _ ← fail_if (MaxAgentViewReferences <? lenZ specs)
        (limit "Agent View References" (lenZ specs) MaxAgentViewReferences);
  _ ← fail_if (negb (lenZ specs =? Z.of_nat (size authority.(va_references))))
        (invariant "Agent View References" "every sealed Reference head must be projected");
  '(wires, artifacts) ← project_reference_heads authority ∅ specs;
  Ok (sort_by (λ w, w.(avxw_Facts).(avxf_Head)) wires, artifacts).

Definition requireExactArtifactProjection (projected : gset string)
    (offered : gmap string ViewArtifactOffer) : result () :=
  _ ← fail_if (negb (Nat.eqb (size projected) (size offered)))
        (invariant "Agent View Artifacts" "every sealed Artifact offer must be projected");
  fail_if (negb (bool_decide (dom offered ⊆ projected)))
    (invariant "Agent View Artifacts" "sealed Artifact offer is not projected").

Definition projectTargetAliases (targets : gmap string ResolvedTarget) : list string :=
  sort_by (λ s : string, s)
    (map (λ '(_, t), if t.(rt_requested).(tr_self) then "self" else t.(rt_requested).(tr_alias))
       (map_to_list targets)).

Definition projectProvenanceHandles (provenance : gmap string EventRef) : list string :=
  sort_by (λ s : string, s) (map fst (map_to_list provenance)).

Definition intent_shape (consequence : Consequence) (subject successors reference artifacts : string)
    : agentViewIntentShapeWire := {|
  aviw_Consequence := Consequence_String consequence; aviw_Subject := subject;
  aviw_Successors := successors; aviw_Reference := reference; aviw_Artifacts := artifacts |}.

Definition allowedIntentShape (consequence : Consequence) : agentViewIntentShapeWire :=
  let shape := intent_shape consequence in
  match consequence with
  | ConsequenceCreateHandlings => shape "none" "required" "" "optional"
  | ConsequenceAdvanceHandling => shape "current" "optional" "" "optional"
  | ConsequenceResolveCompleted => shape "current" "optional" "" "at_least_one"
  | ConsequenceResolveDeclined | ConsequenceResolveUnresolved =>
      shape "current" "optional" "" "optional"
  | ConsequencePublishReference => shape "none" "" "new_key" "exactly_one"
  | ConsequenceSupersedeReference => shape "none" "" "offered_head" "exactly_one"
  | ConsequenceRetractReference => shape "none" "" "offered_head" "none"
  | _ => shape "none" "" "" "optional"
  end.

Definition projectAllowedIntentShapes (consequences : gset Consequence)
    : list agentViewIntentShapeWire :=
  sort_by aviw_Consequence (map allowedIntentShape (elements consequences)).

Definition projectOutstanding (value : AgentViewOutstanding) : agentViewOutstandingWire := {|
  avow_OpenTotal := value.(avo_OpenTotal); avow_RelatedTotal := value.(avo_RelatedTotal);
  avow_RelatedProjected := value.(avo_RelatedProjected); avow_Truncated := value.(avo_Truncated) |}.

(** The map of consequences is ranged in no fixed order; the error reported does
    not depend on the order only when a single check fails. *)
Definition validateProjectedIntentShapes (authority : ViewAuthority)
    (current : option agentViewCurrentWire) (referenceCount : Z) : result () :=
  let cs := authority.(va_consequences) in
  let field := "Agent View allowed intents" in
  _ ← fail_if (existsb subjectBound (elements cs) && negb (is_some current))
        (invariant field "subject consequence requires a current responsibility");
  _ ← fail_if (bool_decide (ConsequenceCreateHandlings ∈ cs) &&
               bool_decide (authority.(va_targets) = ∅))
        (invariant field "create consequence requires a target");
  fail_if ((bool_decide (ConsequenceSupersedeReference ∈ cs) ||
            bool_decide (ConsequenceRetractReference ∈ cs)) && (referenceCount =? 0))
    (invariant field "head-bound Reference consequence requires a Reference").

Definition agent_view_wire (handle : OpaqueHandle) (authority : ViewAuthority)
    (current : option agentViewCurrentWire) (related : list agentViewRelatedWire)
    (outstanding : AgentViewOutstanding) (references : list agentViewReferenceWire)
    : agentViewWire := {|
  avw_Schema := AgentViewSchema; avw_Version := AgentViewVersion; avw_View := handle;
  avw_Current := current; avw_Related := related; avw_Outstanding := projectOutstanding outstanding;
  avw_References := references; avw_Targets := projectTargetAliases authority.(va_targets);
  avw_AllowedIntents := projectAllowedIntentShapes authority.(va_consequences);
  avw_Provenance := projectProvenanceHandles authority.(va_provenance) |}.

Definition NewAgentView (spec : AgentViewSpec) : result AgentView :=
  let authority := spec.(avs_Authority) in
  _ ← fail_if (IsZero spec.(avs_Handle) || Digest_IsZero authority.(va_digest) ||
               is_empty authority.(va_canonical))
        (invalid "Agent View" "handle and sealed authority are required");
  '(current, currentArtifacts) ← projectCurrent spec.(avs_Current) authority;
  '(related, relatedArtifacts) ← projectRelated spec.(avs_Related) spec.(avs_Outstanding) authority;
  '(references, referenceArtifacts) ← projectReferences spec.(avs_References) authority;
  _ ← requireExactArtifactProjection (currentArtifacts ∪ relatedArtifacts ∪ referenceArtifacts)
        authority.(va_artifacts);
  _ ← validateProjectedIntentShapes authority current (lenZ references);
  '(canonical, _) ← canonicalJSON (agent_view_wire spec.(avs_Handle) authority current related
                                     spec.(avs_Outstanding) references);
  _ ← fail_if (MaxAgentViewCanonicalBytes <? slen canonical)
        (limit "Agent View canonical bytes" (slen canonical) MaxAgentViewCanonicalBytes);
  Ok {| av_handle := spec.(avs_Handle); av_canonical := canonical |}.

(** ** Reconstruction against the sealed authority *)

Definition validatePublicArtifact (authority : ViewAuthority) (wire : agentViewArtifactWire)
    : result OpaqueHandle :=
  handle ← NewOpaqueHandle wire.(avaw_Handle);
  digest ← ParseDigest wire.(avaw_Digest);
  let mismatch := invariant "Agent View Artifact" "does not match a sealed Artifact offer" in
  offer ← of_option (authority.(va_artifacts) !! handle) mismatch;
  _ ← fail_if (negb (bool_decide (offer.(vao_digest) = digest))) mismatch;
  Ok handle.

Definition parseAgentViewTerminalOutcome (value : string) : result AgentViewTerminalOutcome :=
  if String.eqb value "completed" then Ok AgentViewTerminalOutcomeCompleted
  else if String.eqb value "declined" then Ok AgentViewTerminalOutcomeDeclined
  else if String.eqb value "unresolved" then Ok AgentViewTerminalOutcomeUnresolved
  else Err (invalid "Agent View related outcome"
              "must be completed, declined, or unresolved for terminal_reply").

Definition parseAgentViewRelatedRelation (facts : agentViewRelatedFactsWire)
    : result (AgentViewRelation * AgentViewTerminalOutcome) :=
  if String.eqb facts.(avrf_Relation) "correlation" then
    _ ← fail_if (negb (is_empty facts.(avrf_Outcome)))
          (invalid "Agent View related outcome" "must be absent for correlation");
    Ok (AgentViewRelationCorrelation, AgentViewTerminalOutcomeInvalid)
  else if String.eqb facts.(avrf_Relation) "terminal_reply" then
    outcome ← parseAgentViewTerminalOutcome facts.(avrf_Outcome);
    Ok (AgentViewRelationTerminalReply, outcome)
  else Err (invalid "Agent View related relation" "must be correlation or terminal_reply").

Definition parseAgentViewRelatedArtifacts (wires : list agentViewArtifactWire)
    (authority : ViewAuthority) : result (list OpaqueHandle) :=
  mapR (validatePublicArtifact authority) wires.

Definition agentViewRelatedSpecFromWire (authority : ViewAuthority) (wire : agentViewRelatedWire)
    : result AgentViewRelatedSpec :=
  event ← NewOpaqueHandle wire.(avrw_Facts).(avrf_Event);
  _ ← fail_if (negb (is_some (authority.(va_provenance) !! event)))
        (invariant "Agent View related Event" "does not match a sealed provenance offer");
  '(relation, outcome) ← parseAgentViewRelatedRelation wire.(avrw_Facts);
  kind ← NewSemanticLabel wire.(avrw_Semantic).(avsw_Kind);
  payload ← NewSemanticPayload wire.(avrw_Semantic).(avsw_Payload);
  artifacts ← parseAgentViewRelatedArtifacts wire.(avrw_Facts).(avrf_Artifacts) authority;
  Ok {| ars_Event := event; ars_Relation := relation; ars_Outcome := outcome; ars_Kind := kind;
        ars_Payload := payload; ars_Artifacts := artifacts |}.

Definition outstanding_of_wire (wire : agentViewOutstandingWire) : AgentViewOutstanding := {|
  avo_OpenTotal := wire.(avow_OpenTotal); avo_RelatedTotal := wire.(avow_RelatedTotal);
  avo_RelatedProjected := wire.(avow_RelatedProjected); avo_Truncated := wire.(avow_Truncated) |}.

Definition agentViewRelatedSpecsFromWire (wires : list agentViewRelatedWire)
    (outstanding : agentViewOutstandingWire) (authority : ViewAuthority)
    : result (list AgentViewRelatedSpec * AgentViewOutstanding) :=
  specs ← mapR (agentViewRelatedSpecFromWire authority) wires;
  Ok (specs, outstanding_of_wire outstanding).

Definition agentViewCurrentSpecFromWire (wire : option agentViewCurrentWire) (authority : ViewAuthority)
    : result (option AgentViewCurrentSpec) :=
  match wire with
  | None => Ok None
  | Some wire =>
      let facts := wire.(avcw_Facts) in
      let field := "Agent View current" in
      subject ← NewOpaqueHandle facts.(avfw_Handle);
      replyTo ← NewOpaqueHandle facts.(avfw_ReplyTo);
      _ ← fail_if (negb (bool_decide (replyTo = authority.(va_replyTo))))
            (invariant field "reply-to does not match sealed reply authority");
      _ ← fail_if (negb (is_some (authority.(va_provenance) !! replyTo)))
            (invariant field "reply-to does not match sealed provenance");
      replyTarget ← projectReplyTarget authority;
      _ ← fail_if (negb (bool_decide (facts.(avfw_ReplyTarget) = replyTarget)))
            (invariant field "reply-target does not match sealed target authority");
      _ ← fail_if (negb (eqb facts.(avfw_ReplyRequired) (negb (is_empty replyTarget))))
            (invariant field "reply requirement does not match sealed target authority");
      _ ← fail_if (negb (eqb facts.(avfw_ReplyObservationPending)
                           authority.(va_replyObservationPending)))
            (invariant field "reply observation state does not match sealed authority");
      kind ← NewSemanticLabel wire.(avcw_Semantic).(avsw_Kind);
      payload ← NewSemanticPayload wire.(avcw_Semantic).(avsw_Payload);
      artifacts ← mapR (validatePublicArtifact authority) facts.(avfw_Artifacts);
      Ok (Some {| acs_Subject := subject; acs_ReplyTo := replyTo; acs_Kind := kind;
                  acs_Payload := payload; acs_Artifacts := artifacts |})
  end.

Definition reference_spec_of_wire (authority : ViewAuthority) (wire : agentViewReferenceWire)
    : result AgentViewReferenceSpec :=
  let facts := wire.(avxw_Facts) in
  head ← NewOpaqueHandle facts.(avxf_Head);
  let mismatch := invariant "Agent View Reference" "does not match a sealed Reference offer" in
  reference ← of_option (authority.(va_references) !! head) mismatch;
  _ ← fail_if (negb (bool_decide (facts.(avxf_Key) = reference.(re_key)))) mismatch;
  if String.eqb facts.(avxf_State) "active" then
    artifact ← of_option facts.(avxf_Artifact)
      (invalid "Agent View active Reference" "requires an Artifact");
    handle ← validatePublicArtifact authority artifact;
    Ok {| avr_Head := head; avr_State := AgentViewReferenceStateActive; avr_Artifact := handle |}
  else if String.eqb facts.(avxf_State) "retracted" then
    _ ← fail_if (is_some facts.(avxf_Artifact))
          (invalid "Agent View retracted Reference" "must not contain an Artifact");
    Ok {| avr_Head := head; avr_State := AgentViewReferenceStateRetracted; avr_Artifact := "" |}
  else Err (invalid "Agent View Reference state" "must be active or retracted").

Definition agentViewReferenceSpecsFromWire (wires : list agentViewReferenceWire)
    (authority : ViewAuthority) : result (list AgentViewReferenceSpec) :=
  mapR (reference_spec_of_wire authority) wires.

(** The scans below compare two lists of equal length entry by entry. *)
Fixpoint validate_targets (seen : gset string) (values expected : list string) : result () :=
  match values, expected with
  | value :: values, want :: expected =>
      _ ← (if bool_decide (value = "self") then Ok "" else NewOpaqueHandle value);
      _ ← fail_if (bool_decide (value ∈ seen))
            (invalid "Agent View targets" "contains a duplicate target");
      _ ← fail_if (negb (bool_decide (value = want)))
            (invariant "Agent View targets" "do not match sealed target offers");
      validate_targets ({[value]} ∪ seen) values expected
  | _, _ => Ok ()
  end.

Definition validatePublicTargets (values : list string) (authority : ViewAuthority) : result () :=
  let expected := projectTargetAliases authority.(va_targets) in
  _ ← fail_if (negb (lenZ values =? lenZ expected))
        (invariant "Agent View targets" "do not match sealed target offers");
  validate_targets ∅ values expected.

Fixpoint validate_shapes (seen : gset Consequence) (wires expected : list agentViewIntentShapeWire)
    : result () :=
  match wires, expected with
  | wire :: wires, want :: expected =>
      consequence ← parseConsequence wire.(aviw_Consequence);
      _ ← fail_if (bool_decide (consequence ∈ seen))
            (invalid "Agent View allowed intents" "contains a duplicate consequence");
      _ ← fail_if (negb (bool_decide (wire = want)))
            (invariant "Agent View allowed intent" "does not match the closed consequence shape");
      validate_shapes ({[consequence]} ∪ seen) wires expected
  | _, _ => Ok ()
  end.

Definition validatePublicIntentShapes (wires : list agentViewIntentShapeWire) (authority : ViewAuthority)
    : result () :=
  let expected := projectAllowedIntentShapes authority.(va_consequences) in
  _ ← fail_if (negb (lenZ wires =? lenZ expected))
        (invariant "Agent View allowed intents" "do not match sealed consequences");
  validate_shapes ∅ wires expected.

Fixpoint validate_provenance (previous : option string) (values expected : list string) : result () :=
  match values, expected with
  | value :: values, want :: expected =>
      _ ← NewOpaqueHandle value;
      _ ← fail_if (bool_decide (previous = Some value))
            (invalid "Agent View provenance" "contains a duplicate handle");
      _ ← fail_if (negb (bool_decide (value = want)))
            (invariant "Agent View provenance" "does not match sealed provenance offers");
      validate_provenance (Some value) values expected
  | _, _ => Ok ()
  end.

Definition validatePublicProvenance (values : list string) (authority : ViewAuthority) : result () :=
  let expected := projectProvenanceHandles authority.(va_provenance) in
  _ ← fail_if (negb (lenZ values =? lenZ expected))
        (invariant "Agent View provenance" "does not match sealed provenance offers");
  validate_provenance None values expected.

Definition validateAgentViewDerivedWire (wire : agentViewWire) (authority : ViewAuthority) : result () :=
  _ ← validatePublicTargets wire.(avw_Targets) authority;
  _ ← validatePublicIntentShapes wire.(avw_AllowedIntents) authority;
  validatePublicProvenance wire.(avw_Provenance) authority.

Definition agent_view_envelope (wire : agentViewWire) : bool :=
  bool_decide (wire.(avw_Schema) = AgentViewSchema) && (wire.(avw_Version) =? AgentViewVersion).

Definition ParseAgentViewCanonicalJSON (data : string) (authority : ViewAuthority)
    : result AgentView :=
  wire ← decodeCanonicalObject "Agent View JSON" data MaxAgentViewCanonicalBytes;
  _ ← fail_if (negb (agent_view_envelope wire))
        (invalid "Agent View envelope" "has an unsupported schema or version");
  handle ← NewOpaqueHandle wire.(avw_View);
  current ← agentViewCurrentSpecFromWire wire.(avw_Current) authority;
  '(related, outstanding) ← agentViewRelatedSpecsFromWire wire.(avw_Related) wire.(avw_Outstanding)
    authority;
  references ← agentViewReferenceSpecsFromWire wire.(avw_References) authority;
  _ ← validateAgentViewDerivedWire wire authority;
  view ← NewAgentView {| avs_Handle := handle; avs_Authority := authority; avs_Current := current;
                         avs_Related := related; avs_Outstanding := outstanding;
                         avs_References := references |};
  _ ← requireReconstructedCanonical "Agent View JSON" data view.(av_canonical);
  Ok view.

(** ** Projections validated without authority *)

Definition AgentViewProjectionHasCurrent (data : string) : result bool :=
  wire ← decodeCanonicalObject "Agent View projection JSON" data MaxAgentViewCanonicalBytes;
  _ ← fail_if (negb (agent_view_envelope wire))
        (invalid "Agent View projection envelope" "has an unsupported schema or version");
  Ok (is_some wire.(avw_Current)).

Definition ValidateAgentViewProjectionCanonicalJSON (data : string) : result () :=
  _ ← AgentViewProjectionHasCurrent data; Ok ().

(** ** Agent Receipts *)

Definition AgentReceiptSchema : string := "mnemon.agent.receipt".
Definition AgentReceiptVersion : Z := 1.
Definition MaxAgentReceiptCanonicalBytes : Z := Z.shiftl 4 10.

Record AgentReceipt := {
  agr_outcome : ReceiptOutcome; agr_replayed : bool; agr_diagnostic : string; agr_canonical : string }.

Definition agent_receipt_wire (receipt : Receipt) (replayed : bool) : agentReceiptWire := {|
  agw_Schema := AgentReceiptSchema; agw_Version := AgentReceiptVersion;
  agw_Outcome := ReceiptOutcome_String receipt.(rc_outcome); agw_Replayed := replayed;
  agw_Diagnostic := if bool_decide (receipt.(rc_outcome) = ReceiptOutcomeRejected)
                    then receipt.(rc_diagnostic) else "" |}.

Definition ProjectAgentReceipt (receipt : Receipt) (replayed : bool) : result AgentReceipt :=
  let broken := invariant "Agent Receipt" "source Receipt is not an intact canonical value" in
  parsed ← or_error (ParseReceiptCanonicalJSON receipt.(rc_canonical)) broken;
  _ ← fail_if (negb (bool_decide (parsed.(rc_digest) = receipt.(rc_digest)))) broken;
  '(canonical, _) ← canonicalJSON (agent_receipt_wire receipt replayed);
  _ ← fail_if (MaxAgentReceiptCanonicalBytes <? slen canonical)
        (limit "Agent Receipt canonical bytes" (slen canonical) MaxAgentReceiptCanonicalBytes);
  Ok {| agr_outcome := receipt.(rc_outcome); agr_replayed := replayed;
        agr_diagnostic := receipt.(rc_diagnostic); agr_canonical := canonical |}.

Definition ParseAgentReceiptProjectionCanonicalJSON (data : string) : result AgentReceipt :=
  wire ← decodeCanonicalObject "Agent Receipt projection JSON" data MaxAgentReceiptCanonicalBytes;
  _ ← fail_if (negb (bool_decide (wire.(agw_Schema) = AgentReceiptSchema)) ||
               negb (wire.(agw_Version) =? AgentReceiptVersion))
        (invalid "Agent Receipt projection envelope" "has an unsupported schema or version");
  outcome ←
    (if String.eqb wire.(agw_Outcome) "accepted" then
       _ ← fail_if (negb (is_empty wire.(agw_Diagnostic)))
             (invalid "accepted Agent Receipt projection" "must not contain a diagnostic");
       Ok ReceiptOutcomeAccepted
     else if String.eqb wire.(agw_Outcome) "rejected" then
       _ ← fail_if (is_empty wire.(agw_Diagnostic) || (MaxDiagnosticBytes <? slen wire.(agw_Diagnostic)))
             (invalid "rejected Agent Receipt projection" "requires one bounded diagnostic");
       _ ← NewSemanticPayload wire.(agw_Diagnostic);
       Ok ReceiptOutcomeRejected
     else Err (invalid "Agent Receipt projection outcome" "must be accepted or rejected"));
  Ok {| agr_outcome := outcome; agr_replayed := wire.(agw_Replayed);
        agr_diagnostic := wire.(agw_Diagnostic); agr_canonical := data |}.
