(* ===== verification/Terminal.v ===== *)
(** The agent action terminal (internal/agency/client/terminal.go, agent_commands.go,
    hook_commands.go, hook_boundary.go, control_types.go, intent_diagnostic.go): one
    command, from its arguments and standard input to what it printed and its exit
    status, over the private directory and the control client. *)

From Stdlib Require Import Lia.
From S2P Require Import Prelude Io Utf8 Json Wire Sha256 Time Value Intent Bound Event View AgentView Base64.
From S2P Require Import Journal JournalDir.

#[local] Open Scope Z_scope.

(** ** Control errors *)

Definition controlSchemaVersion : Z := 1.
Definition maxControlDiagnostic : Z := 512.
Definition maxArtifactInputBytes : Z := Z.shiftl 4 20.
Definition maxIntentInputBytes : Z := MaxIntentCanonicalBytes.

Definition codeInvalidArgument : string := "invalid_argument".
Definition codeContentRequired : string := "content_required".
Definition codeContentTooLarge : string := "content_too_large".
Definition codeArtifactInvalid : string := "artifact_invalid".
Definition codeArtifactTooLarge : string := "artifact_too_large".
Definition codeAuthenticationFailed : string := "authentication_failed".
Definition codeContextRequired : string := "context_required".
Definition codeContextStale : string := "context_stale".
Definition codeAssetRevisionMismatch : string := "asset_revision_mismatch".
Definition codeActionNotAllowed : string := "action_not_allowed".
Definition codeOperationMismatch : string := "operation_mismatch".
Definition codeOperationPending : string := "operation_pending".
Definition codeMnemondUnavailable : string := "mnemond_unavailable".
Definition codeInternal : string := "internal".

Definition code_valid (code : string) : bool := bool_decide (code ∈ [
  codeInvalidArgument; codeContentRequired; codeContentTooLarge; codeArtifactInvalid; codeArtifactTooLarge;
  codeAuthenticationFailed; codeContextRequired; codeContextStale; codeAssetRevisionMismatch; codeActionNotAllowed;
  codeOperationMismatch; codeOperationPending; codeMnemondUnavailable; codeInternal]).

Definition code_retryable (code : string) : bool :=
  String.eqb code codeOperationPending || String.eqb code codeMnemondUnavailable.

Definition code_exitStatus (code : string) : Z :=
  if bool_decide (code ∈ [codeInvalidArgument; codeContentRequired; codeContentTooLarge; codeArtifactInvalid;
                          codeArtifactTooLarge]) then 2
  else if bool_decide (code ∈ [codeAuthenticationFailed; codeContextRequired; codeContextStale;
                               codeAssetRevisionMismatch]) then 3
  else if bool_decide (code ∈ [codeActionNotAllowed; codeOperationMismatch]) then 4
  else if bool_decide (code ∈ [codeOperationPending; codeMnemondUnavailable]) then 5
  else 1.

(** The messages are literals with no space around them. *)
Definition newControlError (code message : string) : error :=
  if negb (code_valid code) || is_empty message || (maxControlDiagnostic <? slen message)
  then ControlError codeInternal "internal control error" else ControlError code message.

(** A [*controlError] as it is written: [operation_id] is null, [replayed] false. *)
Record controlErrorWire := { cew_Code : string; cew_Message : string }.
Definition control_error_json (w : controlErrorWire) : json := JObj [
  ("code", JStr w.(cew_Code)); ("message", JStr w.(cew_Message)); ("operation_id", JNull);
  ("replayed", JBool false); ("retryable", JBool (code_retryable w.(cew_Code)));
  ("schema_version", enc_Z controlSchemaVersion); ("status", JStr "error")].

Definition clientStateError : error :=
  newControlError codeAuthenticationFailed "R7 owner-private client state is unsafe".

(** [errors.As(err, &apiErr)]; control errors are never wrapped. *)
Definition as_control (e : error) : error :=
  match e with ControlError _ _ => e | _ => clientStateError end.

(** ** Intent diagnostics *)

Definition intentValidationDiagnostic (field problem : string) : string :=
  let table := [
    ("Intent JSON", "omits a required field", "required");
    ("Agent Intent JSON", "contains a duplicate object key", "duplicate_json");
    ("Intent JSON", "contains a non-canonical field name", "noncanonical_field");
    ("Intent successor", "contains a non-canonical field name", "successor_noncanonical_field");
    ("Intent Artifact", "contains a non-canonical field name", "artifact_noncanonical_field");
    ("Intent consequence", "is not a closed consequence", "closed_consequence");
    ("root Intent", "cannot name a subject Handling or Reference", "root_shape");
    ("root Intent", "must create at least one successor", "root_shape");
    ("subject Intent", "requires one subject and no Reference", "subject_shape");
    ("Reference publish", "requires one new key and one Artifact only", "reference_publish_shape");
    ("Reference supersede", "requires one offered head and one Artifact only", "reference_supersede_shape");
    ("Reference retract", "requires one offered head and no Artifact", "reference_retract_shape");
    ("Intent target", "must contain exactly one of self or alias", "target_shape");
    ("Intent Artifact kind", "is not candidate or view_handle", "artifact_kind")] in
  match List.find (λ '(f, p, _), String.eqb f field && String.eqb p problem) table with
  | Some (_, _, diagnostic) => diagnostic
  | None => ""
  end.

(** The first [ValidationError] of a chain of wrapped errors, and whether its
    category is the one of [agency.ErrLimit]. *)
Fixpoint as_validation (e : error) : option (ErrCategory * string * string) :=
  match e with
  | ValidationError category field problem => Some (category, field, problem)
  | Wrapped _ cause => as_validation cause
  | _ => None
  end.

Definition intentInputControlError (e : error) : error :=
  match as_validation e with
  | Some (ErrLimit, _, _) =>
      newControlError codeContentTooLarge "Intent input exceeds a closed field or collection bound"
  | Some (_, field, problem) =>
      let diagnostic := intentValidationDiagnostic field problem in
      let table := [
        ("required", "Intent input must include kind, payload, and consequence");
        ("duplicate_json", "Intent input contains a duplicate JSON field");
        ("noncanonical_field", "Intent input contains a non-canonical field");
        ("successor_noncanonical_field",
          "Intent successors may contain only self:true or one View-offered alias; keep kind and payload on the Intent");
        ("artifact_noncanonical_field", "Intent Artifacts may contain only kind and handle");
        ("closed_consequence", "Intent consequence must be copied exactly from the current View allowed_intents");
        ("root_shape",
          "handling.create requires at least one View-offered successor and no subject or Reference fields");
        ("subject_shape",
          "handling advance or resolve requires current.facts.handle as subject_handling and no Reference fields");
        ("reference_publish_shape",
          "reference.publish requires one new reference_key, exactly one Artifact, and no Handling fields or successors");
        ("reference_supersede_shape",
          "reference.supersede requires one View-offered reference_head, exactly one Artifact, and no Handling fields or successors");
        ("reference_retract_shape",
          "reference.retract requires one View-offered reference_head, no Artifact, and no Handling fields or successors");
        ("target_shape", "each successor must contain exactly one of self:true or one View-offered alias");
        ("artifact_kind", "each Artifact kind must be exactly candidate or view_handle")] in
      newControlError codeInvalidArgument
        (match List.find (λ '(d, _), String.eqb d diagnostic) table with
         | Some (_, message) => message
         | None => "Intent input has an invalid canonical field or structural shape"
         end)
  | None =>
      newControlError codeInvalidArgument "Intent input must be exactly one JSON object without Markdown or trailing text"
  end.

Definition candidateBindingControlError (e : error) : error :=
  if errors_is e errCandidateNotCaptured then
    newControlError codeArtifactInvalid
      "Artifact candidate handle was not returned by capture in this Hook boundary; use view_handle for a View-offered Artifact"
  else if errors_is e errCandidateRepeated then
    newControlError codeInvalidArgument "Intent repeats an Artifact candidate"
  else e.

(** ** Input *)

(** Standard input: its bytes, or the error reading it ends with. *)
Definition readBoundedInput (stdin : result string) (maximum : Z) (code message : string) : result string :=
  raw ← or_error stdin (newControlError codeInvalidArgument "stdin cannot be read");
  _ ← fail_if (maximum <? slen raw) (newControlError code message);
  _ ← fail_if (is_empty raw) (newControlError codeContentRequired "stdin must not be empty");
  Ok raw.

Definition hookBoundarySchema : string := "mnemon.hook.boundary".
Definition hookBoundaryVersion : Z := 1.
Definition hookBoundaryEntropyBytes : Z := 32.
Definition maxHookBoundaryInputBytes : Z := 256.

Record hookBoundaryWire := { hbw_Boundary : string; hbw_Schema : string; hbw_Version : Z }.
#[export] Instance hookBoundaryWire_codec : Codec hookBoundaryWire := {
  enc w := struct [field "boundary" w.(hbw_Boundary); field "schema" w.(hbw_Schema);
                   @field Z int_codec "version" w.(hbw_Version)];
  dec_value j :=
    ms ← members_of ["boundary"; "schema"; "version"] j;
    boundary ← get "boundary" ms; schema ← get "schema" ms; version ← @get Z int_codec "version" ms;
    Ok {| hbw_Boundary := boundary; hbw_Schema := schema; hbw_Version := version |};
  zero := {| hbw_Boundary := ""; hbw_Schema := ""; hbw_Version := 0 |};
  empty _ := false;
  enc_ok w := enc_ok w.(hbw_Boundary) ∧ enc_ok w.(hbw_Schema) ∧ @enc_ok Z int_codec w.(hbw_Version);
}.
#[export] Instance hookBoundaryWire_laws : CodecLaws hookBoundaryWire.
Proof. solve_struct. Qed.

Definition readHookBoundary (stdin : result string) : result Digest :=
  raw ← readBoundedInput stdin maxHookBoundaryInputBytes codeContentTooLarge
          "Hook boundary input exceeds its closed byte bound";
  let broken := newControlError codeInvalidArgument "Hook boundary input is invalid" in
  '(wire, rest) ← or_error ('(v, rest) ← parse_first None raw; w ← dec (A := hookBoundaryWire) v; Ok (w, rest)) broken;
  _ ← fail_if (negb (is_empty (skip_ws rest))) broken;
  _ ← fail_if (negb (String.eqb (canonical_bytes wire) raw) || negb (String.eqb wire.(hbw_Schema) hookBoundarySchema) ||
               negb (wire.(hbw_Version) =? hookBoundaryVersion)) broken;
  boundary ← of_option (base64_decode wire.(hbw_Boundary)) broken;
  _ ← fail_if (negb (slen boundary =? hookBoundaryEntropyBytes) ||
               negb (String.eqb (base64_encode boundary) wire.(hbw_Boundary))) broken;
  Ok (Sum boundary).

(** ** Commands *)

Inductive commandKind :=
| commandOther | commandAttach | commandEnd | commandCurrent | commandSubmit | commandCapture | commandReadArtifact.
#[export] Instance commandKind_eq_dec : EqDecision commandKind.
Proof. solve_decision. Defined.

Definition classify (args : list string) : commandKind :=
  match args with
  | a :: b :: _ =>
      if String.eqb a "hook" && String.eqb b "attach" then commandAttach
      else if String.eqb a "hook" && String.eqb b "end" then commandEnd
      else if String.eqb a "agent" && String.eqb b "current" then commandCurrent
      else if String.eqb a "agent" && String.eqb b "submit" then commandSubmit
      else if String.eqb a "artifact" && String.eqb b "capture" then commandCapture
      else if String.eqb a "artifact" && String.eqb b "read" then commandReadArtifact
      else commandOther
  | _ => commandOther
  end.

Definition validArguments (command : commandKind) (args : list string) : bool :=
  match command, args with
  | commandReadArtifact, [_; _; handle] => is_ok (NewOpaqueHandle handle)
  | commandReadArtifact, _ | commandOther, _ => false
  | _, [_; _; flag] => String.eqb flag "--json"
  | _, _ => false
  end.

Definition classifyCurrentProjection (view : string) : result string :=
  hasCurrent ← or_error (AgentViewProjectionHasCurrent view) (Errorf "R7 Current response is invalid");
  Ok (if hasCurrent : bool then currentProjectionSubject else currentProjectionEmpty).

Definition agentReceiptOutcome (raw : string) : result ReceiptOutcome :=
  receipt ← or_error (ParseAgentReceiptProjectionCanonicalJSON raw)
              (Errorf "Mnemon Agency returned an invalid AgentReceipt");
  Ok receipt.(agr_outcome).

Definition with_operation (j : journal) (operation : OperationKey) : journal := {|
  cj_Attachment := j.(cj_Attachment); cj_BoundaryDigest := j.(cj_BoundaryDigest); cj_CurrentOperation := operation;
  cj_CurrentProjection := j.(cj_CurrentProjection); cj_Candidates := j.(cj_Candidates) |}.
Definition with_projection (j : journal) (projection : string) : journal := {|
  cj_Attachment := j.(cj_Attachment); cj_BoundaryDigest := j.(cj_BoundaryDigest);
  cj_CurrentOperation := j.(cj_CurrentOperation); cj_CurrentProjection := projection;
  cj_Candidates := j.(cj_Candidates) |}.

Definition sameAttachmentProof (left right : attachment) : bool :=
  String.eqb left.(at_ID) right.(at_ID) && (left.(at_ExpiresAt) =? right.(at_ExpiresAt)) &&
  (slen left.(at_Credential) =? journalCredentialBytes) && (slen right.(at_Credential) =? journalCredentialBytes) &&
  String.eqb left.(at_Credential) right.(at_Credential).

Definition awaiting : string := "an accepted R7 receipt is awaiting presentation".

(** The shape a projection must have to be printed. *)
Definition projection_shape (raw : string) : bool :=
  (2 <=? slen raw) && String.eqb (String.substring 0 1 raw) "{" &&
  String.eqb (String.substring (String.length raw - 1) 1 raw) "}".

Section terminal.
Context {W : Type} (tm : Terminal W).
Let client := tm.(tm_client).

(** ** Output: the exit status *)

Definition write_line (raw : string) : io W Z :=
  written ← attempt (tm.(tm_print) (raw +:+ newline));
  mret (if is_ok written then 0 else 1).

(** [writeError]; the text of a control error has the shape of a projection. *)
Definition writeError (e : error) : io W Z :=
  match e with
  | ControlError code message =>
      written ← write_line (marshal (control_error_json {| cew_Code := code; cew_Message := message |}));
      mret (if written =? 0 then code_exitStatus code else 1)
  | _ => mret 1
  end.

Definition writeCommandError (e : error) : io W Z := writeError (as_control e).

Definition writeCanonicalProjection (raw : string) : io W Z :=
  if negb (projection_shape raw)
  then writeError (newControlError codeInternal "Mnemon Agency returned an invalid R7 projection")
  else write_line raw.

Definition writeStatus (fields : list fieldspec) : io W Z := writeCanonicalProjection (marshal (struct fields)).

(** ** agent current *)

Definition establish_operation (j : clientJournal) : io W journal :=
  if IsZero j.(cj_CurrentOperation) then
    operation ← run (λ w, (newCurrentOperation (tm.(tm_random) w), w));
    let j' := with_operation j operation in
    _ ← jd_write tm j' j.(cj_fileName);
    mret j'
  else mret (j : journal).

Definition current_section : io W string :=
  j ← load tm;
  _ ← guard (validTerminalName j.(cj_fileName))
        (newControlError codeOperationPending
           (if negb (IsZero j.(cj_CurrentOperation)) then awaiting
            else "an accepted R7 receipt is awaiting Host-boundary reconciliation"));
  j' ← establish_operation j;
  view ← client.(cl_Current) j'.(cj_Attachment) j'.(cj_CurrentOperation);
  projection ← lift (classifyCurrentProjection view);
  _ ← jd_write tm (with_projection j' projection) j.(cj_fileName);
  mret view.

Definition runCurrent : io W Z :=
  projection ← attempt (withLock tm false current_section);
  match projection with
  | Err e => writeCommandError e
  | Ok view => writeCanonicalProjection view
  end.

(** ** artifact capture and read *)

Definition capture_section (content : string) : io W artifactCapture :=
  j ← load tm;
  _ ← guard (validTerminalName j.(cj_fileName)) (newControlError codeOperationPending awaiting);
  capture ← client.(cl_Capture) content;
  j' ← lift (addCandidate j capture);
  _ ← jd_write tm j' j.(cj_fileName);
  mret capture.

Definition runCapture (stdin : result string) : io W Z :=
  match readBoundedInput stdin maxArtifactInputBytes codeArtifactTooLarge
          "Artifact input exceeds its closed byte bound" with
  | Err e => writeError e
  | Ok content =>
      captured ← attempt (withLock tm false (capture_section content));
      match captured with
      | Err e => writeCommandError e
      | Ok capture => writeStatus [
          @field Z int_codec "byte_size" capture.(ac_ByteSize); field "handle" capture.(ac_Handle);
          field "schema" "mnemon.artifact.capture"; @field Z int_codec "version" 1]
      end
  end.

Definition read_section (handle : string) : io W string :=
  j ← load tm;
  _ ← guard (validTerminalName j.(cj_fileName)) (newControlError codeOperationPending awaiting);
  _ ← guard (IsZero j.(cj_journal).(cj_CurrentOperation))
        (newControlError codeContextRequired "agent current must establish a bounded View before Artifact read");
  client.(cl_ReadArtifact) j.(cj_journal).(cj_Attachment) j.(cj_journal).(cj_CurrentOperation) handle.

Definition runReadArtifact (handle : string) : io W Z :=
  content ← attempt (withLock tm false (read_section handle));
  match content with
  | Err e => writeCommandError e
  | Ok content => written ← attempt (tm.(tm_print) content); mret (if is_ok written then 0 else 1)
  end.

(** ** agent submit *)

Definition submit_operation (j : clientJournal) (intent : AgentIntent)
    : result (list candidateBinding * OperationKey) :=
  _ ← fail_if (IsZero j.(cj_CurrentOperation))
        (newControlError codeContextRequired "agent current must establish a bounded View before submit");
  candidates ← (match bindCandidates j intent with Ok c => Ok c | Err e => Err (candidateBindingControlError e) end);
  operation ← deriveAdmissionOperation j.(cj_CurrentOperation) intent candidates;
  let exact := newControlError codeOperationMismatch "terminal R7 replay requires the exact prior Intent" in
  _ ← (if validTerminalName j.(cj_fileName) then
         expected ← or_error (terminalOperation j.(cj_fileName)) exact;
         fail_if (negb (String.eqb expected operation)) exact
       else Ok ());
  Ok (candidates, operation).

(** The Receipt, and the terminal journal when it is accepted. *)
Definition submit_section (intent : AgentIntent) : io W (string * option clientJournal) :=
  j ← load tm;
  '(candidates, operation) ← lift (submit_operation j intent);
  projected ← client.(cl_Submit) j.(cj_Attachment) j.(cj_CurrentOperation) operation intent.(ai_canonical) candidates;
  outcome ← lift (agentReceiptOutcome projected);
  let accepted := bool_decide (outcome = ReceiptOutcomeAccepted) in
  _ ← guard (validTerminalName j.(cj_fileName) && negb accepted)
        (Errorf "terminal R7 replay returned a non-accepted receipt");
  terminal ← (if accepted && String.eqb j.(cj_fileName) journalActiveName then
                terminal ← markTerminal tm j operation; mret (Some terminal)
              else mret (if validTerminalName j.(cj_fileName) then Some j else None));
  mret (projected, terminal).

(** After an accepted Receipt was printed: every failure leaves a later command to
    finish. *)
Definition finishPresentedReceipt (terminal : clientJournal) : io W () :=
  presented ← attempt (withLock tm false (markPresented tm terminal));
  match presented with
  | Err _ => mret ()
  | Ok presented =>
      ended ← attempt (client.(cl_End) presented.(cj_Attachment));
      match ended with
      | Err _ => mret ()
      | Ok _ => _ ← attempt (withLock tm false (jd_remove tm presented)); mret ()
      end
  end.

Definition runSubmit (stdin : result string) : io W Z :=
  match readBoundedInput stdin maxIntentInputBytes codeContentTooLarge "Intent input exceeds its closed byte bound" with
  | Err (ControlError code message) =>
      writeError (if String.eqb code codeContentRequired
        then newControlError codeContentRequired "provide exactly one Intent JSON object on stdin with a quoted heredoc"
        else ControlError code message)
  | Err e => writeError e
  | Ok raw =>
      match ParseAgentIntentJSON raw with
      | Err e => writeError (intentInputControlError e)
      | Ok intent =>
          submitted ← attempt (withLock tm false (submit_section intent));
          match submitted with
          | Err e => writeCommandError e
          | Ok (receipt, terminal) =>
              written ← writeCanonicalProjection receipt;
              if negb (written =? 0) then mret 1 else
              match terminal with
              | None => mret 0
              | Some terminal => _ ← finishPresentedReceipt terminal; mret 0
              end
          end
      end
  end.

(** ** hook attach and end *)

Definition reconcileSameAttachBoundary (j : clientJournal) : io W () :=
  if validTerminalName j.(cj_fileName) && IsZero j.(cj_CurrentOperation) then
    _ ← client.(cl_End) j.(cj_Attachment);
    _ ← jd_remove tm j;
    lift (Err (newControlError codeContextStale "Hook boundary already completed"))
  else
    replayed ← client.(cl_Attach) j.(cj_BoundaryDigest);
    _ ← guard (negb (sameAttachmentProof j.(cj_Attachment) replayed))
          (newControlError codeAuthenticationFailed "authority attachment replay diverged from the private journal");
    now ← run (λ w, (Ok (tm.(tm_clock) w), w));
    guard (negb (now <? replayed.(at_ExpiresAt))) (newControlError codeContextStale "Hook boundary attachment expired").

Definition retirePredecessorBoundary (j : clientJournal) : io W (list capturedBinding) :=
  let terminal := validTerminalName j.(cj_fileName) in
  _ ← guard (terminal && negb (IsZero j.(cj_CurrentOperation))) (newControlError codeOperationPending awaiting);
  _ ← client.(cl_End) j.(cj_Attachment);
  _ ← (if terminal then jd_remove tm j else mret ());
  mret (if terminal then [] else j.(cj_Candidates)).

(** [None] when the boundary is already attached. *)
Definition reconcileAttachBoundary (boundary : Digest) : io W (option (list capturedBinding)) :=
  loaded ← attempt (load tm);
  match loaded with
  | Err e => if errors_is e errJournalAbsent then mret (Some []) else lift (Err e)
  | Ok j =>
      if bool_decide (j.(cj_journal).(cj_BoundaryDigest) = boundary)
      then _ ← reconcileSameAttachBoundary j; mret None
      else preserved ← retirePredecessorBoundary j; mret (Some preserved)
  end.

Definition issueAttachBoundary (boundary : Digest) (preserved : list capturedBinding) : io W () :=
  attachment ← client.(cl_Attach) boundary;
  now ← run (λ w, (Ok (tm.(tm_clock) w), w));
  _ ← guard (negb (now <? attachment.(at_ExpiresAt)))
        (newControlError codeContextStale "Hook boundary attachment expired before local journal commit");
  j ← lift (newClientJournal attachment boundary);
  jd_write tm (with_candidates j preserved) "".

Definition attach_section (boundary : Digest) : io W () :=
  preserved ← reconcileAttachBoundary boundary;
  match preserved with
  | None => mret ()
  | Some preserved => issueAttachBoundary boundary preserved
  end.

Definition hook_status (schema status : string) : list fieldspec :=
  [field "schema" schema; field "status" status; @field Z int_codec "version" 1].

Definition runAttach (boundary : Digest) : io W Z :=
  attached ← attempt (withLock tm true (attach_section boundary));
  match attached with
  | Err e => writeCommandError e
  | Ok _ => writeStatus (hook_status "mnemon.hook.attach" "ready")
  end.

Definition end_section (boundary : Digest) : io W () :=
  loaded ← attempt (load tm);
  match loaded with
  | Err e => if errors_is e errJournalAbsent then mret () else lift (Err e)
  | Ok j =>
      if negb (bool_decide (j.(cj_journal).(cj_BoundaryDigest) = boundary)) then mret () else
      _ ← guard (validTerminalName j.(cj_fileName) && negb (IsZero j.(cj_CurrentOperation)))
            (newControlError codeOperationPending "an accepted R7 receipt still requires exact presentation replay");
      _ ← client.(cl_End) j.(cj_Attachment);
      jd_remove tm j
  end.

Definition runEnd (boundary : Digest) : io W Z :=
  ended ← attempt (withLock tm false (end_section boundary));
  match ended with
  | Err e => if errors_is e errJournalAbsent then writeStatus (hook_status "mnemon.hook.end" "ended")
             else writeCommandError e
  | Ok _ => writeStatus (hook_status "mnemon.hook.end" "ended")
  end.

(** ** Dispatch *)

Definition preflightJournal (command : commandKind) : io W () :=
  found ← attempt (journal_exists tm);
  found ← lift (or_error found clientStateError);
  guard (negb found && negb (bool_decide (command = commandAttach)) && negb (bool_decide (command = commandEnd)))
    (newControlError codeContextRequired "hook attach must establish an Agent context before this command").

Definition unavailable {A} (message : string) (m : io W A) : io W A :=
  r ← attempt m; lift (or_error r (newControlError codeMnemondUnavailable message)).

(** [newClient] fails with [errUnsafeClientState]: see [classifyClientConstruction]. *)
Definition prepare (command : commandKind) : io W () :=
  _ ← unavailable "Mnemon Agency is not set up in this workspace" tm.(tm_workspace);
  _ ← preflightJournal command;
  _ ← unavailable "Mnemon Agency local control is unavailable" tm.(tm_ensureDaemon);
  created ← attempt tm.(tm_newClient);
  lift (or_error created clientStateError).

Definition dispatch (command : commandKind) (args : list string) (stdin : result string) (boundary : Digest) : io W Z :=
  match command with
  | commandAttach => runAttach boundary
  | commandEnd => runEnd boundary
  | commandCurrent => runCurrent
  | commandSubmit => runSubmit stdin
  | commandCapture => runCapture stdin
  | commandReadArtifact => runReadArtifact (nth 2 args "")
  | commandOther => writeError (newControlError codeInvalidArgument "R7 Agent command is not supported")
  end.

Definition hook_boundary (command : commandKind) (stdin : result string) : result Digest :=
  match command with
  | commandAttach | commandEnd => readHookBoundary stdin
  | _ => Ok zero_digest
  end.

Definition terminal_run (args : list string) (stdin : result string) : io W Z :=
  let command := classify args in
  if negb (validArguments command args) then
    writeError (newControlError codeInvalidArgument
      (if bool_decide (command = commandSubmit)
       then "use exactly mnemon agency agent submit --json and provide Intent JSON on stdin"
       else "R7 Agent command requires its exact --json form"))
  else
    match hook_boundary command stdin with
    | Err e => writeError e
    | Ok boundary =>
        prepared ← attempt (prepare command);
        match prepared with
        | Err e => writeError e
        | Ok _ => dispatch command args stdin boundary
        end
    end.
End terminal.
