(* ===== verification/JournalProto.v ===== *)
(** The protocol of the agent terminal's directory: which changes its commands make
    and on what grounds, the invariant of the directory under any sequence of them,
    and that an accepted Receipt is not let go before one was printed. *)

From Stdlib Require Import Lia.
From S2P Require Import Prelude Io Utf8 Json Wire Sha256 Time Value Intent Bound Event View AgentView Base64.
From S2P Require Import Journal JournalDir Terminal.

#[local] Open Scope Z_scope.

(** ** Names *)

Definition journal_name (name : string) : Prop := name = journalActiveName ∨ validTerminalName name = true.

Lemma validTerminalName_head name : validTerminalName name = true → ∃ v, name = journalTerminalHead +:+ v.
Proof.
  unfold validTerminalName, terminal_value. destruct (strip_prefix _ name) as [v|] eqn:E; [|done].
  intros _. exists v. by apply strip_prefix_Some.
Qed.

Lemma active_not_terminal : validTerminalName journalActiveName = false.
Proof. reflexivity. Qed.

Lemma journal_name_private name : journal_name name → name ≠ journalLockName ∧ name ≠ journalStageName ∧ name ≠ "".
Proof. intros [-> |[v ->]%validTerminalName_head]; done. Qed.

Lemma journal_name_dec name :
  (String.eqb name journalActiveName || validTerminalName name) = true ↔ journal_name name.
Proof. unfold journal_name. by rewrite orb_true_iff, String.eqb_eq. Qed.

Lemma strip_suffix_app suffix s : strip_suffix suffix (s +:+ suffix) = Some s.
Proof.
  unfold strip_suffix. rewrite string_length_app, Nat.add_sub, substring_app_r, String.eqb_refl, substring_app_l.
  by rewrite (proj2 (Nat.leb_le _ _)) by lia.
Qed.

Lemma strip_suffix_Some suffix s t : strip_suffix suffix s = Some t → s = t +:+ suffix.
Proof.
  unfold strip_suffix. destruct (_ && _) eqn:E; [|done]. intros [= <-].
  apply andb_true_iff in E as [E%String.eqb_eq Hl%Nat.leb_le].
  pose proof (substring_split (String.length s - String.length suffix) s ltac:(lia)) as Hs.
  replace (String.length s - (String.length s - String.length suffix))%nat with (String.length suffix) in Hs by lia.
  by rewrite E in Hs.
Qed.

Lemma terminal_value_name digest :
  terminal_value (terminalName (admissionOperationPrefix +:+ base64_encode digest)) = Some (base64_encode digest).
Proof.
  unfold terminal_value, terminalName. rewrite strip_prefix_app. cbn [default].
  change (default ?a (Some ?b)) with b. rewrite strip_prefix_app. cbn [mbind option_bind]. apply strip_suffix_app.
Qed.

(** The terminal file of a derived key carries exactly that key. *)
Lemma terminalName_valid digest :
  digest_wf digest → validTerminalName (terminalName (admissionOperationPrefix +:+ base64_encode digest)) = true.
Proof.
  intros Hd. unfold validTerminalName. rewrite terminal_value_name, base64_decode_encode, String.eqb_refl.
  unfold slen. by rewrite Hd.
Qed.

Lemma terminalOperation_name c i cs op :
  deriveAdmissionOperation c i cs = Ok op →
  validTerminalName (terminalName op) = true ∧ terminalOperation (terminalName op) = Ok op.
Proof.
  intros Hd. assert (∃ digest, digest_wf digest ∧ op = admissionOperationPrefix +:+ base64_encode digest) as (digest & Hw & E).
  { apply deriveAdmissionOperation_Ok in Hd as (parts & _ & E). eexists. split; [|exact E]. apply Sum_wf. }
  assert (handle_ok op = true) as Ho.
  { unfold deriveAdmissionOperation in Hd. apply bind_Ok in Hd as ([] & _ & Hd). apply bind_Ok in Hd as (t & _ & Hd).
    cbv zeta in Hd. apply newIdentifier_Ok in Hd as [E' Ho]. by rewrite <- E' in Ho. }
  clear Hd. subst op. pose proof (terminalName_valid digest Hw) as Hv. split; [done|].
  unfold terminalOperation. rewrite Hv, terminal_value_name. cbn [negb fail_if of_option mbind result_bind].
  by apply newIdentifier_Ok.
Qed.

(** ** States *)

(** What happened outside the directory: the control client's answers and the lines
    that reached standard output. *)
Inductive event :=
| Attached (boundary : Digest) (a : attachment)
| Ended (a : attachment)
| Answered (a : attachment) (current operation intent : string) (candidates : list candidateBinding) (receipt : string)
| Printed (line : string).

Definition state : Type := option jdir * list event.

Definition accepted (receipt : string) : Prop := agentReceiptOutcome receipt = Ok ReceiptOutcomeAccepted.

(** The file [n] of the directory is a safe journal that reads as [j]. *)
Definition file_is (d : jdir) (n : string) (j : journal) : Prop := ∃ f,
  d !! n = Some f ∧ f.(jf_safe) = true ∧ parseClientJournal f.(jf_content) = Ok (j, Sum f.(jf_content)).
Definition holds (d : jdir) (n : string) (j : journal) : Prop := journal_name n ∧ file_is d n j.

Lemma file_is_functional d n j j' : file_is d n j → file_is d n j' → j = j'.
Proof. intros (f & Hf & _ & Hp) (f' & Hf' & _ & Hp'). congruence. Qed.

Record dir_inv (d : jdir) : Prop := {
  di_names : ∀ n f, d !! n = Some f → f.(jf_safe) = true ∧ (n = journalLockName ∨ n = journalStageName ∨ journal_name n);
  di_one : ∀ n m, journal_name n → journal_name m → is_Some (d !! n) → is_Some (d !! m) → n = m;
  di_reads : ∀ n, journal_name n → is_Some (d !! n) → ∃ j, file_is d n j;
}.

Definition state_inv (s : state) : Prop := ∀ d, s.1 = Some d → dir_inv d.

(** The journal moves on under its attachment; a Current operation stays. *)
Record evolves (j j' : journal) : Prop := {
  ev_attachment : j'.(cj_Attachment) = j.(cj_Attachment);
  ev_boundary : j'.(cj_BoundaryDigest) = j.(cj_BoundaryDigest);
  ev_current : j.(cj_CurrentOperation) ≠ "" → j'.(cj_CurrentOperation) = j.(cj_CurrentOperation);
  ev_candidates : ∀ c, c ∈ j.(cj_Candidates) → c ∈ j'.(cj_Candidates);
}.

(** The Submit of [intent] under [j] that derived [operation] was answered by [receipt]. *)
Definition answered (l : list event) (j : journal) (operation receipt : string) : Prop := ∃ intent candidates,
  Answered j.(cj_Attachment) j.(cj_CurrentOperation) operation intent candidates receipt ∈ l.

(** ** Steps *)

Inductive jstep : state → state → Prop :=
| js_attached d l b a : jstep (d, l) (d, l ++ [Attached b a])
| js_ended d l a : jstep (d, l) (d, l ++ [Ended a])
| js_printed d l line : jstep (d, l) (d, l ++ [Printed line])
| js_answered d l n j i cs op r :
    holds d n j → bindCandidates j i = Ok cs → deriveAdmissionOperation j.(cj_CurrentOperation) i cs = Ok op →
    (validTerminalName n = true → terminalName op = n) →
    jstep (Some d, l) (Some d, l ++ [Answered j.(cj_Attachment) j.(cj_CurrentOperation) op i.(ai_canonical) cs r])
| js_mkdir l : jstep (None, l) (Some ∅, l)
| js_lock d l f : f.(jf_safe) = true → jstep (Some d, l) (Some (<[journalLockName := f]> d), l)
| js_stage d l f : f.(jf_safe) = true → jstep (Some d, l) (Some (<[journalStageName := f]> d), l)
| js_unstage d l : jstep (Some d, l) (Some (delete journalStageName d), l)
| js_evolve d l j j' f :
    holds d journalActiveName j → file_is d journalStageName j' → evolves j j' → d !! journalStageName = Some f →
    jstep (Some d, l) (Some (<[journalActiveName := f]> (delete journalStageName d)), l)
| js_issue d l j' f :
    (∀ n, journal_name n → is_Some (d !! n) →
       n = journalActiveName ∧ ∃ j, file_is d n j ∧ Ended j.(cj_Attachment) ∈ l) →
    file_is d journalStageName j' → j'.(cj_CurrentOperation) = "" →
    Attached j'.(cj_BoundaryDigest) j'.(cj_Attachment) ∈ l → d !! journalStageName = Some f →
    jstep (Some d, l) (Some (<[journalActiveName := f]> (delete journalStageName d)), l)
| js_terminal d l j op r f :
    holds d journalActiveName j → answered l j op r → accepted r → validTerminalName (terminalName op) = true →
    d !! journalActiveName = Some f →
    jstep (Some d, l) (Some (<[terminalName op := f]> (delete journalActiveName d)), l)
| js_presented d l n j op r f :
    holds d n j → n = terminalName op → validTerminalName n = true → answered l j op r → accepted r →
    Printed (r +:+ newline) ∈ l → file_is d journalStageName (presented_journal j) → d !! journalStageName = Some f →
    jstep (Some d, l) (Some (<[n := f]> (delete journalStageName d)), l)
| js_removed d l n j :
    holds d n j → Ended j.(cj_Attachment) ∈ l → (validTerminalName n = true → j.(cj_CurrentOperation) = "") →
    jstep (Some d, l) (Some (delete n d), l).

(** ** The invariant *)

Lemma dir_inv_empty : dir_inv ∅.
Proof. split; [intros n f Hf|intros n m _ _ [f Hf]|intros n _ [f Hf]]; by rewrite lookup_empty in Hf. Qed.

Lemma file_is_other d n j k f : n ≠ k → file_is (<[k := f]> d) n j ↔ file_is d n j.
Proof. intros Hne. unfold file_is. by rewrite lookup_insert_ne. Qed.

(** A private file changes. *)
Lemma dir_inv_private d k f :
  (k = journalLockName ∨ k = journalStageName) → f.(jf_safe) = true → dir_inv d → dir_inv (<[k := f]> d).
Proof.
  intros Hk Hf [Hn Ho Hr].
  assert (∀ n, journal_name n → n ≠ k) as Hne.
  { intros n Hj%journal_name_private ->. destruct Hj as (? & ? & ?). by destruct Hk. }
  split.
  - intros n g Hg. destruct (decide (n = k)) as [->|Hnk].
    + rewrite lookup_insert_eq in Hg. injection Hg as <-. split; [done|]. tauto.
    + rewrite lookup_insert_ne in Hg by done. by eapply Hn.
  - intros n m Hjn Hjm. rewrite !lookup_insert_ne by (symmetry; by apply Hne). by apply Ho.
  - intros n Hj. rewrite lookup_insert_ne by (symmetry; by apply Hne). intros Hs. destruct (Hr n Hj Hs) as [j Hj'].
    exists j. apply file_is_other; [by apply Hne|done].
Qed.

Lemma dir_inv_delete d k : dir_inv d → dir_inv (delete k d).
Proof.
  intros [Hn Ho Hr]. assert (∀ n g, delete k d !! n = Some g → d !! n = Some g) as Hd.
  { intros n g Hg. by apply lookup_delete_Some in Hg as [_ ?]. }
  assert (∀ n, is_Some (delete k d !! n) → is_Some (d !! n)) as Hs by (intros n [g Hg]; exists g; by apply Hd).
  split.
  - intros n g Hg. by eapply Hn, Hd.
  - intros n m Hjn Hjm H1 H2. by apply Ho; [| |apply Hs|apply Hs].
  - intros n Hj [g Hg]. destruct (Hr n Hj (Hs n (mk_is_Some _ _ Hg))) as (j & f & Hf & ? & ?). exists j, f.
    pose proof (Hd _ _ Hg). split; [congruence|done].
Qed.

(** A file becomes the journal [n], the only one. *)
Lemma dir_inv_replace d k n j f :
  dir_inv d → journal_name n → file_is d k j → d !! k = Some f →
  (∀ m, journal_name m → is_Some (delete k d !! m) → m = n) → dir_inv (<[n := f]> (delete k d)).
Proof.
  intros Hinv Hj (f' & Hf & Hsafe & Hp) Hk Hone. assert (f' = f) as -> by congruence.
  pose proof (dir_inv_delete d k Hinv) as [Hn Ho Hr]. split.
  - intros m g Hg. destruct (decide (m = n)) as [->|Hne].
    + rewrite lookup_insert_eq in Hg. injection Hg as <-. tauto.
    + rewrite lookup_insert_ne in Hg by done. by eapply Hn.
  - assert (∀ m, journal_name m → is_Some (<[n := f]> (delete k d) !! m) → m = n) as Hall.
    { intros m Hm Hs. destruct (decide (m = n)) as [|Hne]; [done|]. rewrite lookup_insert_ne in Hs by done. by apply Hone. }
    intros m m' Hm Hm' H1 H2. by rewrite (Hall m), (Hall m').
  - intros m Hm Hs. destruct (decide (m = n)) as [->|Hne].
    + exists j, f. by rewrite lookup_insert_eq.
    + rewrite lookup_insert_ne in Hs by done. exfalso. by apply Hne, Hone.
Qed.

Lemma holds_one d n j : dir_inv d → holds d n j → ∀ m, journal_name m → is_Some (d !! m) → m = n.
Proof. intros Hinv [Hj (f & Hf & _)] m Hm Hs. eapply di_one; [exact Hinv|done|done|done|by exists f]. Qed.

Lemma delete_is_Some (d : jdir) k m : is_Some (delete k d !! m) → is_Some (d !! m) ∧ m ≠ k.
Proof. intros [g [Hne Hg]%lookup_delete_Some]. split; [by exists g|done]. Qed.

Lemma jstep_inv s s' : jstep s s' → state_inv s → state_inv s'.
Proof.
  intros Hstep Hinv. unfold state_inv in *. destruct Hstep; cbn [fst] in *; try exact Hinv; intros d' [= <-].
  - apply dir_inv_empty.
  - apply dir_inv_private; [by left|done|by apply Hinv].
  - apply dir_inv_private; [by right|done|by apply Hinv].
  - by apply dir_inv_delete, Hinv.
  - eapply dir_inv_replace; [by apply Hinv|by left|done|done|]. intros m Hm [Hs _]%delete_is_Some.
    eapply (holds_one d); [by apply Hinv|done|done|done].
  - eapply dir_inv_replace; [by apply Hinv|by left|done|done|]. intros m Hm [Hs _]%delete_is_Some. by apply H.
  - eapply dir_inv_replace; [by apply Hinv|by right|exact (proj2 H)|done|]. intros m Hm [Hs Hne]%delete_is_Some.
    exfalso. apply Hne. eapply (holds_one d); [by apply Hinv|done|done|done].
  - eapply dir_inv_replace; [by apply Hinv|by right|done|done|]. intros m Hm [Hs _]%delete_is_Some.
    eapply (holds_one d); [by apply Hinv|done|done|done].
  - by apply dir_inv_delete, Hinv.
Qed.

Lemma jsteps_inv s s' : rtc jstep s s' → state_inv s → state_inv s'.
Proof. induction 1 as [|x y z Hxy _ IH]; [done|]. intros Hi. by eapply IH, jstep_inv. Qed.

(** The log only grows. *)
Lemma jstep_log s s' : jstep s s' → ∀ e, e ∈ s.2 → e ∈ s'.2.
Proof. destruct 1; cbn [snd]; intros e He; try done; apply elem_of_app; by left. Qed.
Lemma jsteps_log s s' : rtc jstep s s' → ∀ e, e ∈ s.2 → e ∈ s'.2.
Proof. induction 1 as [|x y z Hxy _ IH]; [done|]. intros e He. by eapply IH, jstep_log. Qed.

(** ** Accepted Receipts *)

(** Nothing is owed for an acceptance under [current]: an accepted Receipt of that
    View was printed, or the boundary was ended, or the journal still carries
    [current], under which the same Intent derives the same key. *)
Definition provided (s : state) (a : attachment) (current : string) : Prop :=
  (∃ op i cs r, Answered a current op i cs r ∈ s.2 ∧ accepted r ∧ Printed (r +:+ newline) ∈ s.2) ∨
  Ended a ∈ s.2 ∨
  ∃ d n j, s.1 = Some d ∧ holds d n j ∧ j.(cj_Attachment) = a ∧ j.(cj_CurrentOperation) = current.

Record proto_inv (s : state) : Prop := {
  pi_dir : state_inv s;
  pi_current : ∀ a c op i cs r, Answered a c op i cs r ∈ s.2 → c ≠ "";
  pi_accepted : ∀ a c op i cs r, Answered a c op i cs r ∈ s.2 → accepted r → provided s a c;
  (** A terminal file stands for an accepted answer to the operation in its name; a
      presented one for a Receipt that was printed. *)
  pi_terminal : ∀ d n j, s.1 = Some d → holds d n j → validTerminalName n = true →
    ∃ op c i cs r, n = terminalName op ∧ Answered j.(cj_Attachment) c op i cs r ∈ s.2 ∧ accepted r ∧
      (j.(cj_CurrentOperation) = c ∨ j.(cj_CurrentOperation) = "" ∧ Printed (r +:+ newline) ∈ s.2);
}.

Lemma provided_log d l l' a c : (∀ e, e ∈ l → e ∈ l') → provided (d, l) a c → provided (d, l') a c.
Proof.
  intros Hl [(op & i & cs & r & H1 & H2 & H3)|[H|H]]; cbn [fst snd] in *; [left; eauto 9|right; left; auto|right; right; done].
Qed.

Lemma derive_current c i cs op : deriveAdmissionOperation c i cs = Ok op → c ≠ "".
Proof.
  unfold deriveAdmissionOperation. intros H. apply bind_Ok in H as ([] & Hg%fail_if_Ok & _).
  apply orb_false_iff in Hg as [[Hc _]%orb_false_iff _]. by apply is_empty_false.
Qed.

(** The files of a directory after one became the journal [n]. *)
Lemma holds_replace d k n f m j :
  holds (<[n := f]> (delete k d)) m j →
  (m = n ∧ ∃ s, parseClientJournal f.(jf_content) = Ok (j, s)) ∨ (m ≠ n ∧ m ≠ k ∧ holds d m j).
Proof.
  intros [Hj (g & Hg & Hs & Hp)]. destruct (decide (m = n)) as [->|Hne].
  - rewrite lookup_insert_eq in Hg. injection Hg as <-. left. eauto.
  - rewrite lookup_insert_ne in Hg by done. apply lookup_delete_Some in Hg as [Hk Hg]. right.
    split_and!; [done|done|]. split; [done|]. by exists g.
Qed.

Lemma holds_new d n k f j :
  journal_name n → file_is d k j → d !! k = Some f → holds (<[n := f]> (delete k d)) n j.
Proof.
  intros Hn (f' & Hf & Hs & Hp) Hk. split; [done|]. exists f. rewrite lookup_insert_eq.
  assert (f' = f) as -> by congruence. done.
Qed.

Lemma holds_private d k f n j :
  (k = journalLockName ∨ k = journalStageName) → holds (<[k := f]> d) n j ↔ holds d n j.
Proof.
  intros Hk. unfold holds. split; intros [Hn Hf]; (split; [done|]);
    (apply file_is_other in Hf || (apply file_is_other; [|done])); try done;
    apply journal_name_private in Hn as (? & ? & _); intros ->; by destruct Hk.
Qed.

Lemma holds_delete d k n j : holds (delete k d) n j ↔ holds d n j ∧ n ≠ k.
Proof.
  unfold holds, file_is. split.
  - intros [Hn (f & [Hne Hf]%lookup_delete_Some & ?)]. eauto 9.
  - intros [[Hn (f & Hf & ?)] Hne]. split; [done|]. exists f. by rewrite lookup_delete_ne.
Qed.

(** Only the journal of the old and of the new directory matter. *)
Lemma proto_dir d d' l :
  proto_inv (Some d, l) → dir_inv d' →
  (∀ n j, holds d n j → (∃ n' j', holds d' n' j' ∧ j'.(cj_Attachment) = j.(cj_Attachment) ∧
       (j.(cj_CurrentOperation) ≠ "" → j'.(cj_CurrentOperation) = j.(cj_CurrentOperation))) ∨
     Ended j.(cj_Attachment) ∈ l ∨
     (∃ op i cs r, Answered j.(cj_Attachment) j.(cj_CurrentOperation) op i cs r ∈ l ∧ accepted r ∧ Printed (r +:+ newline) ∈ l)) →
  (∀ n j, holds d' n j → validTerminalName n = true →
     holds d n j ∨ ∃ op c i cs r, n = terminalName op ∧ Answered j.(cj_Attachment) c op i cs r ∈ l ∧ accepted r ∧
       (j.(cj_CurrentOperation) = c ∨ j.(cj_CurrentOperation) = "" ∧ Printed (r +:+ newline) ∈ l)) →
  proto_inv (Some d', l).
Proof.
  intros [Hi Hc Ha Ht] Hd' Hkeep Hterm. split; cbn [fst snd] in *.
  - intros x [= <-]. done.
  - done.
  - intros a c op i cs r He Hr. destruct (Ha a c op i cs r He Hr) as [H|[H|(d0 & n & j & E & Hh & <- & <-)]]; cbn [fst snd] in *.
    + by left.
    + right. by left.
    + injection E as <-. destruct (Hkeep n j Hh) as [(n' & j' & Hh' & Ea & Ec)|[H|H]].
      * right. right. exists d', n', j'. split_and!; [done|done|done|]. apply Ec. by eapply Hc.
      * right. by left.
      * by left.
  - intros x n j [= <-] Hh Hv. destruct (Hterm n j Hh Hv) as [H|H]; [|exact H]. by eapply Ht.
Qed.

Lemma proto_log d l l' :
  proto_inv (d, l) → (∀ e, e ∈ l → e ∈ l') →
  (∀ a c op i cs r, Answered a c op i cs r ∈ l' → Answered a c op i cs r ∈ l ∨ c ≠ "" ∧ provided (d, l') a c) →
  proto_inv (d, l').
Proof.
  intros [Hi Hc Ha Ht] Hl Hnew. split; cbn [fst snd] in *; [done|..].
  - intros a c op i cs r [H|[H _]]%Hnew; [by eapply Hc|done].
  - intros a c op i cs r [H|[_ H]]%Hnew Hr; [|done]. eapply provided_log; [done|]. by eapply Ha.
  - intros x n j E Hh Hv. destruct (Ht x n j E Hh Hv) as (op & c & i & cs & r & ? & ? & ? & Hd). exists op, c, i, cs, r.
    split_and!; [done|by apply Hl|done|]. destruct Hd as [?|[? ?]]; [by left|right; split; [done|by apply Hl]].
Qed.

Lemma proto_append d l e :
  proto_inv (d, l) → (∀ a c op i cs r, e ≠ Answered a c op i cs r) → proto_inv (d, l ++ [e]).
Proof.
  intros Hp He. eapply proto_log; [exact Hp|intros; apply elem_of_app; by left|].
  intros a c op i cs r [H|H%list_elem_of_singleton]%elem_of_app; [by left|]. symmetry in H. by apply He in H.
Qed.

Lemma jstep_proto s s' : jstep s s' → proto_inv s → proto_inv s'.
Proof.
  intros Hstep Hp. pose proof (jstep_inv _ _ Hstep (pi_dir _ Hp)) as Hi'. destruct Hstep.
  - by apply proto_append.
  - by apply proto_append.
  - by apply proto_append.
  - eapply proto_log; [exact Hp|intros; apply elem_of_app; by left|]. intros a c op' i' cs' r' Hin.
    apply elem_of_app in Hin as [?|[= -> -> _ _ _ _]%list_elem_of_singleton]; [by left|]. right.
    split; [by eapply derive_current|]. right. right. by exists d, n, j.
  - destruct Hp as [Hi Hc Ha Ht]. split; cbn [fst snd] in *; [done|done|..].
    + intros a c op i cs r He Hr. destruct (Ha a c op i cs r He Hr) as [?|[?|(? & ? & ? & ? & _)]]; [by left|by right; left|done].
    + intros x n j [= <-] [_ (f & Hf & _)]. by rewrite lookup_empty in Hf.
  - eapply proto_dir; [exact Hp|by apply Hi'| |].
    + intros n j Hh. left. exists n, j. split_and!; [apply holds_private; [by left|done]|done|done].
    + intros n j Hh _. left. apply holds_private in Hh; [done|by left].
  - eapply proto_dir; [exact Hp|by apply Hi'| |].
    + intros n j Hh. left. exists n, j. split_and!; [apply holds_private; [by right|done]|done|done].
    + intros n j Hh _. left. apply holds_private in Hh; [done|by right].
  - eapply proto_dir; [exact Hp|by apply Hi'| |].
    + intros n j Hh. left. exists n, j. split_and!; [|done|done]. apply holds_delete. split; [done|].
      by apply journal_name_private, (proj1 Hh).
    + intros n j [Hh _]%holds_delete _. by left.
  - eapply proto_dir; [exact Hp|by apply Hi'| |].
    + intros n j0 Hh. left. exists journalActiveName, j'. split; [eapply holds_new; [by left|done|done]|].
      assert (n = journalActiveName) as -> by (eapply (holds_one d); [by eapply (pi_dir _ Hp)|exact H|apply Hh|];
        destruct Hh as [_ (g & Hg & _)]; by exists g).
      assert (j0 = j) as -> by (eapply file_is_functional; [apply Hh|apply H]). destruct H1. done.
    + intros n j0 [[-> _]|(_ & _ & ?)]%holds_replace Hv; [done|by left].
  - eapply proto_dir; [exact Hp|by apply Hi'| |].
    + intros n j0 Hh. right. left. destruct (H n) as [_ (j1 & Hj1 & He)]; [apply Hh|destruct Hh as [_ (g & Hg & _)]; by exists g|].
      rewrite (file_is_functional d n j0 j1); [done|apply Hh|done].
    + intros n j0 [[-> _]|(_ & _ & ?)]%holds_replace Hv; [done|by left].
  - eapply proto_dir; [exact Hp|by apply Hi'| |].
    + intros n j0 Hh. left. exists (terminalName op), j.
      assert (n = journalActiveName) as -> by (eapply (holds_one d); [by eapply (pi_dir _ Hp)|exact H|apply Hh|];
        destruct Hh as [_ (g & Hg & _)]; by exists g).
      assert (j0 = j) as -> by (eapply file_is_functional; [apply Hh|apply H]).
      split_and!; [|done|done]. eapply holds_new; [by right|apply H|done].
    + intros n j0 [[-> (? & Hf)]|(_ & _ & ?)]%holds_replace Hv; [|by left]. right.
      destruct H as [_ (g & Hg & _ & Hpj)]. assert (g = f) as -> by congruence. assert (j0 = j) as -> by congruence.
      destruct H0 as (i & cs & Hans). exists op, j.(cj_CurrentOperation), i, cs, r. auto.
  - eapply proto_dir; [exact Hp|by apply Hi'| |].
    + intros n0 j0 Hh. right. right.
      assert (n0 = n) as -> by (eapply (holds_one d); [by eapply (pi_dir _ Hp)|exact H|apply Hh|];
        destruct Hh as [_ (g & Hg & _)]; by exists g).
      assert (j0 = j) as -> by (eapply file_is_functional; [apply Hh|apply H]).
      destruct H2 as (i & cs & Hans). exists op, i, cs, r. auto.
    + intros n0 j0 [[-> (? & Hf)]|(_ & _ & ?)]%holds_replace Hv; [|by left]. right.
      destruct H5 as (g & Hg & _ & Hpj). assert (g = f) as -> by congruence.
      assert (j0 = presented_journal j) as -> by congruence. destruct H2 as (i & cs & Hans).
      exists op, j.(cj_CurrentOperation), i, cs, r. cbn. auto 6.
  - eapply proto_dir; [exact Hp|by apply Hi'| |].
    + intros n0 j0 Hh. right. left.
      assert (n0 = n) as -> by (eapply (holds_one d); [by eapply (pi_dir _ Hp)|exact H|apply Hh|];
        destruct Hh as [_ (g & Hg & _)]; by exists g).
      assert (j0 = j) as -> by (eapply file_is_functional; [apply Hh|apply H]). done.
    + intros n0 j0 [Hh _]%holds_delete _. by left.
Qed.

Lemma jsteps_proto s s' : rtc jstep s s' → proto_inv s → proto_inv s'.
Proof. induction 1 as [|x y z Hxy _ IH]; [done|]. intros Hi. by eapply IH, jstep_proto. Qed.
