(* ===== verification/JournalOps.v ===== *)
(** The journal directory's operations keep to the protocol: a small program logic
    over a command's steps, and what loading, publishing, moving and removing the
    journal establish, whichever calls fail. *)

From Stdlib Require Import Lia.
From S2P Require Import Prelude Io Utf8 Json Wire Sha256 Time Value Intent Bound Event View AgentView Base64.
From S2P Require Import Journal JournalDir Terminal JournalProto.

#[local] Open Scope Z_scope.

(** ** Assertions *)

Definition file_of (s : state) (n : string) : option jfile := d ← s.1; d !! n.

(** The journal a command read, or none. *)
Definition loaded (c : clientJournal) (s : state) : Prop := ∃ d f,
  s.1 = Some d ∧ journal_name c.(cj_fileName) ∧ d !! c.(cj_fileName) = Some f ∧ f.(jf_safe) = true ∧
  parseClientJournal f.(jf_content) = Ok (c.(cj_journal), c.(cj_fileDigest)).
Definition at_file (n : string) (j : journal) (s : state) : Prop := ∃ d, s.1 = Some d ∧ holds d n j.
Definition no_journal (s : state) : Prop := ∀ n, journal_name n → file_of s n = None.
Definition logged (e : event) (s : state) : Prop := e ∈ s.2.
Definition nothing : state → Prop := λ _, True.

(** Equal digests of a journal file mean equal bytes. *)
Definition uncollided (s s' : state) : Prop := ∀ n f f',
  journal_name n → file_of s n = Some f → file_of s' n = Some f' →
  Sum f.(jf_content) = Sum f'.(jf_content) → f.(jf_content) = f'.(jf_content).

(** What held before other commands ran. *)
Definition after (P : state → Prop) (s : state) : Prop := ∃ s0,
  P s0 ∧ uncollided s0 s ∧ ∀ e, e ∈ s0.2 → e ∈ s.2.

(** A property that the private files and a longer log do not change. *)
Class Kept (P : state → Prop) : Prop := kept s s' :
  (∀ n, journal_name n → file_of s' n = file_of s n) → (∀ e, e ∈ s.2 → e ∈ s'.2) → P s → P s'.

Lemma file_of_Some s n f : file_of s n = Some f ↔ ∃ d, s.1 = Some d ∧ d !! n = Some f.
Proof. unfold file_of. destruct (s.1) as [d|]; cbn; [|naive_solver]. split; [eauto|]. intros (? & [= <-] & H). done. Qed.

#[export] Instance kept_loaded c : Kept (loaded c).
Proof.
  intros s s' Hf _ (d & f & Hd & Hn & Hl & H). specialize (Hf _ Hn).
  rewrite (proj2 (file_of_Some s _ f)) in Hf by eauto. apply file_of_Some in Hf as (d' & Hd' & Hl'). exists d', f. done.
Qed.
#[export] Instance kept_at_file n j : Kept (at_file n j).
Proof.
  intros s s' Hf _ (d & Hd & Hn & f & Hl & H). specialize (Hf _ Hn).
  rewrite (proj2 (file_of_Some s _ f)) in Hf by eauto. apply file_of_Some in Hf as (d' & Hd' & Hl'). exists d'.
  split; [done|]. split; [done|]. by exists f.
Qed.
#[export] Instance kept_no_journal : Kept no_journal.
Proof. intros s s' Hf _ H n Hn. rewrite Hf; auto. Qed.
#[export] Instance kept_logged e : Kept (logged e).
Proof. intros s s' _ Hl H. by apply Hl. Qed.
#[export] Instance kept_nothing : Kept nothing.
Proof. done. Qed.
#[export] Instance kept_const (X : Prop) : Kept (λ _, X).
Proof. by intros ????. Qed.
#[export] Instance kept_and P Q : Kept P → Kept Q → Kept (λ s, P s ∧ Q s).
Proof. intros HP HQ s s' Hf Hl [? ?]. split; [by eapply HP|by eapply HQ]. Qed.
#[export] Instance kept_after P : Kept (after P).
Proof.
  intros s s' Hf Hl (s0 & HP & Hu & Hs). exists s0. split_and!; [done| |auto].
  intros n f f' Hn Hn0 Hn'. rewrite Hf in Hn' by done. by eapply Hu.
Qed.

Lemma loaded_functional c c' s :
  loaded c s → loaded c' s → c.(cj_fileName) = c'.(cj_fileName) → c = c'.
Proof.
  intros (d & f & Hd & _ & Hf & _ & Hp) (d' & f' & Hd' & _ & Hf' & _ & Hp') E. destruct c, c'. cbn in *. congruence.
Qed.

Lemma loaded_at c s : loaded c s → at_file c.(cj_fileName) c s.
Proof.
  intros (d & f & Hd & Hn & Hf & Hs & Hp). exists d. split; [done|]. split; [done|]. exists f. split_and!; [done|done|].
  pose proof (parseClientJournal_Ok _ _ _ Hp) as (_ & _ & <-). done.
Qed.

Lemma at_functional n j j' s : at_file n j s → at_file n j' s → j = j'.
Proof. intros (d & Hd & _ & H) (d' & Hd' & _ & H'). eapply file_is_functional; [exact H|]. congruence. Qed.

Lemma at_ok n j s : at_file n j s → journal_ok j.
Proof. intros (d & _ & _ & f & _ & _ & Hp). by apply parseClientJournal_Ok in Hp as [? _]. Qed.
Lemma loaded_ok c s : loaded c s → journal_ok c.
Proof. intros H%loaded_at. by eapply at_ok. Qed.
Lemma loaded_name c s : loaded c s → journal_name c.(cj_fileName).
Proof. intros (d & f & _ & Hn & _). done. Qed.
Lemma loaded_active c s : loaded c s → validTerminalName c.(cj_fileName) = false → c.(cj_fileName) = journalActiveName.
Proof. intros [H|H]%loaded_name Hv; [done|congruence]. Qed.

Lemma same_file_true c c' :
  same_file c c' = true ↔ c.(cj_fileName) = c'.(cj_fileName) ∧ c.(cj_fileDigest) = c'.(cj_fileDigest).
Proof. unfold same_file. by rewrite andb_true_iff, String.eqb_eq, bool_decide_eq_true. Qed.

(** The journal that was read and the one found later, under one name and digest. *)
Lemma after_loaded c c' P s :
  (∀ s0, P s0 → loaded c s0) → after P s → loaded c' s → same_file c' c = true → c' = c.
Proof.
  intros HP (s0 & H0%HP & Hu & _) H' [En Ed]%same_file_true.
  destruct H0 as (d & f & Hd & Hn & Hf & _ & Hp), H' as (d' & f' & Hd' & _ & Hf' & _ & Hp').
  rewrite En in Hf'. pose proof (parseClientJournal_Ok _ _ _ Hp) as (_ & _ & Hs).
  pose proof (parseClientJournal_Ok _ _ _ Hp') as (_ & _ & Hs').
  assert (f.(jf_content) = f'.(jf_content)) as E.
  { eapply Hu; [exact Hn|apply file_of_Some; eauto|apply file_of_Some; eauto|congruence]. }
  destruct c, c'. cbn in *. congruence.
Qed.

Lemma after_logged e P s : (∀ s0, P s0 → logged e s0) → after P s → logged e s.
Proof. intros HP (s0 & H0%HP & _ & Hl). by apply Hl. Qed.

(** ** Errors *)

(** Only an empty directory makes a step report that the journal is absent. *)
Definition honest (e : error) (s : state) : Prop := errors_is e errJournalAbsent = true → no_journal s.

Lemma honest_errorf m s : honest (Errorf m) s.
Proof. done. Qed.
Lemma honest_wrapped c e s : honest e s → honest (Wrapped c e) s.
Proof. done. Qed.

#[export] Instance jstep_keeps : Keeps jstep state_inv := jsteps_inv.

Section ops.
Context {W : Type} (tm : Terminal W) (log : W → list event).

Definition st (w : W) : state := (tm.(tm_dir) w, log w).

(** A call outside the directory that is recorded when it succeeds. *)
Definition replies {A} (m : io W A) (events : A → list event) : Prop := ∀ w,
  st (snd (m w)) = (tm.(tm_dir) w, log w ++ match fst (m w) with Ok x => events x | Err _ => [] end).

(** What is assumed of the world: a call's effect is what the next call finds; other
    commands follow the protocol, and no two versions of a journal file collide under
    SHA-256; no system call fails with the terminal's own sentinel; an attachment
    expires at a time that can be written; the log records what the control client
    answered and what was printed. *)
Record terminal_world : Prop := {
  tw_put : ∀ w d, st (tm.(tm_put) w d) = (Some d, log w);
  tw_tick : ∀ w, st (tm.(tm_tick) w) = st w;
  tw_others : ∀ w, rtc jstep (st w) (st (tm.(tm_others) w));
  tw_uncollided : ∀ w, uncollided (st w) (st (tm.(tm_others) w));
  tw_fault : ∀ w e, tm.(tm_fault) w = Some e → errors_is e errJournalAbsent = false;
  tw_print : ∀ line, replies (tm.(tm_print) line) (λ _, [Printed line]);
  tw_Attach : ∀ b, replies (tm.(tm_client).(cl_Attach) b) (λ a, [Attached b a]);
  tw_expires : ∀ b w a, fst (tm.(tm_client).(cl_Attach) b w) = Ok a → time_text_ok a.(at_ExpiresAt);
  tw_End : ∀ a, replies (tm.(tm_client).(cl_End) a) (λ _, [Ended a]);
  tw_Current : ∀ a c, replies (tm.(tm_client).(cl_Current) a c) (λ _, []);
  tw_Submit : ∀ a c op i cs, replies (tm.(tm_client).(cl_Submit) a c op i cs) (λ r, [Answered a c op i cs r]);
  tw_Capture : ∀ c, replies (tm.(tm_client).(cl_Capture) c) (λ _, []);
  tw_ReadArtifact : ∀ a c h, replies (tm.(tm_client).(cl_ReadArtifact) a c h) (λ _, []);
  tw_workspace : replies tm.(tm_workspace) (λ _, []);
  tw_ensureDaemon : replies tm.(tm_ensureDaemon) (λ _, []);
  tw_newClient : replies tm.(tm_newClient) (λ _, []);
}.
Existing Class terminal_world.
Context {Hw : terminal_world}.

(** ** Triples *)

(** From a state in order, protocol steps only. *)
Abbreviation ht := (triple st jstep state_inv).

(** A step that changes nothing. *)
Definition qt {A} (P : state → Prop) (m : io W A) (Q : A → state → Prop) : Prop := ∀ w,
  state_inv (st w) → P (st w) →
  st (snd (m w)) = st w ∧ match fst (m w) with Ok x => Q x (st w) | Err e => honest e (st w) end.

(** The log survives every step. *)
Lemma ht_log {A} P e (m : io W A) Q :
  ht P m Q → ht (λ s, P s ∧ logged e s) m (λ x s, Q x s ∧ logged e s).
Proof.
  intros Hm w Hi [HP He]. destruct (Hm w Hi HP) as [Hs HQ]. split; [done|]. intros x Hx.
  split; [by apply HQ|]. by eapply jsteps_log.
Qed.

Lemma qt_ht {A} (P : state → Prop) (m : io W A) (Q : A → state → Prop) : qt P m Q → ht P m (λ x s, P s ∧ Q x s).
Proof.
  intros H w Hi HP. destruct (H w Hi HP) as [E HQ]. rewrite E. split; [apply rtc_refl|]. intros x Hx. by rewrite Hx in HQ.
Qed.
Lemma qt_attempt_ht {A} (P : state → Prop) (m : io W A) (Q : A → state → Prop) :
  qt P m Q → ht P (attempt m) (λ r s, P s ∧ match r with Ok x => Q x s | Err e => honest e s end).
Proof.
  intros H w Hi HP. destruct (H w Hi HP) as [E HQ]. unfold attempt. destruct (m w) as [r w1]. cbn [fst snd] in *.
  rewrite E. split; [apply rtc_refl|]. intros x [= <-]. done.
Qed.
Lemma qt_ret {A} P (x : A) (Q : A → state → Prop) : (∀ s, P s → Q x s) → qt P (mret x) Q.
Proof. intros H w _ HP. by split; [|apply H]. Qed.
Lemma qt_lift {A} P (r : result A) (Q : A → state → Prop) :
  (∀ s, state_inv s → P s → match r with Ok x => Q x s | Err e => honest e s end) → qt P (lift r) Q.
Proof. intros H w Hi HP. split; [done|]. cbn. by apply H. Qed.
Lemma qt_guard P c e : (∀ s, P s → c = true → honest e s) → qt P (guard c e) (λ _ s, P s ∧ c = false).
Proof. intros H. apply qt_lift. intros s _ HP. destruct c; cbn; [by apply H|done]. Qed.
Lemma qt_bind {A B} P (m : io W A) (k : A → io W B) Q Q' :
  qt P m Q → (∀ x, qt (Q x) (k x) Q') → qt P (m ≫= k) Q'.
Proof.
  intros Hm Hk w Hi HP. destruct (Hm w Hi HP) as [Hs HQ]. unfold mbind, io_bind.
  destruct (m w) as [[x|e] w1]; cbn [fst snd] in *; [|by split]. rewrite <- Hs in HQ, Hi.
  destruct (Hk x w1 Hi HQ) as [Hs' HQ']. rewrite Hs in Hs', HQ'. done.
Qed.
Lemma qt_attempt {A} P (m : io W A) Q :
  qt P m Q → qt P (attempt m) (λ r s, P s ∧ match r with Ok x => Q x s | Err _ => True end).
Proof.
  intros H w Hi HP. destruct (H w Hi HP) as [E HQ]. unfold attempt. destruct (m w) as [[x|e] w1]; cbn [fst snd] in *; done.
Qed.
Lemma qt_wrapping {A} c P (m : io W A) Q : qt P m Q → qt P (wrapping c m) Q.
Proof.
  intros H w Hi HP. destruct (H w Hi HP) as [E HQ]. unfold wrapping. destruct (m w) as [[x|e] w1]; cbn [fst snd] in *; done.
Qed.

Lemma qt_or_error {A} P (r : result A) m : qt P (lift (or_error r (Errorf m))) (λ _, P).
Proof. apply qt_lift. intros s _ HP. by destruct r. Qed.

(** ** System calls *)

Lemma ht_call {A} P (f : jdir → result A * jdir) Q :
  (∀ d l, dir_inv d → P (Some d, l) → rtc jstep (Some d, l) (Some (snd (f d)), l) ∧
     ∀ x, fst (f d) = Ok x → Q x (Some (snd (f d)), l)) →
  ht P (jcall tm f) Q.
Proof.
  intros Hf w Hi HP. unfold jcall. rewrite <- (tw_tick Hw w) in Hi, HP |- *. set (w1 := tm_tick tm w) in *.
  destruct (tm_fault tm w1); [split; [apply rtc_refl|done]|].
  destruct (tm_dir tm w1) as [d|] eqn:Ed; [|split; [apply rtc_refl|done]].
  assert (st w1 = (Some d, log w1)) as E by (unfold st; by rewrite Ed).
  rewrite E in HP |- *. destruct (Hf d (log w1) (Hi d Ed) HP) as [Hs HQ].
  destruct (f d) as [r d']. cbn [fst snd] in *. rewrite (tw_put Hw). done.
Qed.

Lemma qt_call {A} P (f : jdir → result A * jdir) Q :
  (∀ d, snd (f d) = d) →
  (∀ d l, dir_inv d → P (Some d, l) → match fst (f d) with Ok x => Q x (Some d, l) | Err e => honest e (Some d, l) end) →
  qt P (jcall tm f) Q.
Proof.
  intros Hd Hf w Hi HP. unfold jcall. pose proof (tw_tick Hw w) as Ht. rewrite <- Ht in Hi, HP |- *.
  set (w1 := tm_tick tm w) in *. destruct (tm_fault tm w1) eqn:Ef.
  { split; [done|]. cbn [fst]. intros H. by rewrite (tw_fault Hw _ _ Ef) in H. }
  destruct (tm_dir tm w1) as [d|] eqn:Ed; [|done].
  assert (st w1 = (Some d, log w1)) as E by (unfold st; by rewrite Ed).
  rewrite E in HP |- *. specialize (Hf d (log w1) (Hi d Ed) HP). specialize (Hd d).
  destruct (f d) as [r d']. cbn [fst snd] in *. subst d'. rewrite (tw_put Hw). done.
Qed.

Lemma qt_sync P : qt P (jsync tm) (λ _, P).
Proof. apply qt_call; [done|]. by intros d l _ H. Qed.
Lemma qt_stat P name : qt P (jstat tm name) (λ f s, P s ∧ file_of s name = Some f).
Proof. apply qt_call; [done|]. intros d l _ H. cbn. by destruct (d !! name) eqn:E. Qed.
Lemma ht_sync P : ht P (jsync tm) (λ _, P).
Proof. eapply ht_post; [|apply qt_ht, (qt_sync P)]. by intros _ s [H _]. Qed.

(** Calls on a private file. *)
Lemma kept_private P k d d' l :
  Kept P → (k = journalLockName ∨ k = journalStageName) → (∀ n, n ≠ k → d' !! n = d !! n) → P (Some d, l) → P (Some d', l).
Proof.
  intros HP Hk Hd. apply HP; [|done]. intros n (H1 & H2 & _)%journal_name_private. cbn. apply Hd. by destruct Hk as [-> | ->].
Qed.

Lemma ht_unlink_stage P : Kept P → ht P (junlink tm journalStageName) (λ _, P).
Proof.
  intros HP. apply ht_call. intros d l _ H. destruct (d !! journalStageName); cbn; [|split; [apply rtc_refl|done]].
  split; [apply rtc_once, js_unstage|]. intros _ _. eapply (kept_private P journalStageName); [done|by right| |done].
  intros n Hn. by rewrite lookup_delete_ne.
Qed.

Lemma ht_recoverStage P : Kept P → ht P (recoverStage tm) (λ _, P).
Proof.
  intros HP. unfold recoverStage. eapply ht_bind; [apply qt_attempt_ht, (qt_stat P)|]. intros [f|e].
  - apply (ht_pre P); [by intros s [? _]|]. eapply ht_bind; [apply (ht_check P _ _ (λ _, P)); by intros|]. intros ?.
    eapply ht_bind; [apply ht_wrapping, ht_unlink_stage, HP|]. intros ?. apply ht_sync.
  - apply (ht_pre P); [by intros s [? _]|]. destruct (errors_is _ _); [by apply ht_ret|by apply ht_lift].
Qed.

(** ** Loading *)

Lemma journal_file_spec names found :
  match journal_file names found with
  | Ok r => (r = found ∨ r ∈ names ∧ journal_name r) ∧ (r = "" → ∀ n, n ∈ names → ~ journal_name n)
  | Err e => ∃ m, e = Errorf m
  end.
Proof.
  revert found. induction names as [|name names IH]; intros found; cbn [journal_file].
  { split; [by left|]. intros _ n Hn. by apply elem_of_nil in Hn. }
  destruct (String.eqb name journalLockName) eqn:El.
  - apply String.eqb_eq in El. subst name. specialize (IH found). destruct (journal_file names found) as [r|e]; [|done].
    destruct IH as [Hr Hn]. split; [destruct Hr as [?|[? ?]]; [by left|right; split; [by right|done]]|].
    intros E n [-> |Hin]%elem_of_cons; [|by apply Hn]. intros Hj%journal_name_private. by destruct Hj.
  - destruct (_ || _) eqn:Ej; [|by eauto]. apply journal_name_dec in Ej. destruct (is_empty found) eqn:Ee; cbn [negb fail_if mbind result_bind]; [|by eauto].
    specialize (IH name). destruct (journal_file names name) as [r|e]; [|done]. destruct IH as [Hr Hn].
    assert (r ∈ name :: names ∧ journal_name r) as [Hin Hjr].
    { destruct Hr as [->|[? ?]]; [split; [left|done]|split; [by right|done]]. }
    split; [by right|]. intros ->. by apply journal_name_private in Hjr as (_ & _ & ?).
Qed.

Lemma qt_weaken {A} (P P' : state → Prop) (m : io W A) (Q Q' : A → state → Prop) :
  qt P m Q → (∀ s, P' s → P s) → (∀ x s, Q x s → Q' x s) → qt P' m Q'.
Proof.
  intros H HP HQ w Hi HP'. destruct (H w Hi (HP _ HP')) as [? H']. split; [done|]. destruct (fst (m w)); [by apply HQ|done].
Qed.

Lemma qt_entryNames : qt nothing (entryNames tm) (λ names s, ∃ d, s.1 = Some d ∧ names = (map_to_list d).*1).
Proof.
  unfold entryNames. eapply qt_bind; [apply qt_sync|]. intros ?. apply qt_wrapping, qt_call; [done|].
  intros d l _ _. cbn. by exists d.
Qed.

Lemma qt_readOwnerFile P name maximum :
  qt P (readOwnerFile tm name maximum) (λ raw s, P s ∧ ∃ f, file_of s name = Some f ∧ f.(jf_safe) = true ∧ raw = f.(jf_content)).
Proof.
  unfold readOwnerFile. eapply qt_bind; [apply qt_guard; intros; apply honest_errorf|]. intros ?.
  eapply qt_bind; [apply qt_wrapping, qt_stat|]. intros f. cbv beta.
  eapply qt_bind; [apply qt_sync|]. intros ?.
  eapply qt_bind; [apply qt_guard; intros; apply honest_errorf|]. intros ?. cbv zeta.
  eapply qt_bind; [apply qt_attempt, qt_sync|]. intros r. cbv beta.
  eapply qt_bind; [apply qt_or_error|]. intros ?.
  eapply qt_bind; [apply qt_guard; intros; apply honest_errorf|]. intros ?.
  eapply qt_bind; [apply qt_attempt, qt_stat|]. intros r'. cbv beta.
  eapply qt_bind; [apply qt_or_error|]. intros ?. apply qt_ret.
  intros s H. destruct_and! H. split; [done|]. exists f. split_and!; [done|by apply negb_false_iff|done].
Qed.

Lemma qt_load : qt nothing (load tm) loaded.
Proof.
  unfold load. eapply qt_bind; [apply qt_entryNames|]. intros names. cbv beta.
  pose proof (journal_file_spec names "") as Hspec. destruct (journal_file names "") as [name|e]; cycle 1.
  { intros w Hi HP. split; [done|]. destruct Hspec as [m ->]. done. }
  destruct Hspec as [Hname Hnone].
  eapply qt_bind; [apply (qt_ret _ name (λ x s, x = name ∧ ∃ d, s.1 = Some d ∧ names = (map_to_list d).*1)); done|].
  intros name'. cbv beta. eapply qt_bind; [apply qt_guard|].
  { intros s [-> (d & Hd & ->)] ->%is_empty_true _ n Hn. unfold file_of. rewrite Hd. cbn.
    destruct (d !! n) as [f|] eqn:E; [|done]. exfalso. eapply (Hnone eq_refl n); [|done].
    apply list_elem_of_fmap. exists (n, f). split; [done|]. by apply elem_of_map_to_list. }
  intros []. cbv beta. eapply qt_bind; [apply qt_readOwnerFile|]. intros raw. cbv beta.
  eapply qt_bind; [apply (qt_lift _ _ (λ x s, journal_name name' ∧ ∃ f, file_of s name' = Some f ∧ f.(jf_safe) = true ∧
    raw = f.(jf_content) ∧ parseClientJournal raw = Ok x))|].
  { intros s Hi (([-> _] & Hne%is_empty_false) & f & Hf & Hs & ->). destruct Hname as [?|[_ Hj]]; [done|].
    apply file_of_Some in Hf as (d & Hd & Hf). destruct (di_reads _ (Hi d Hd) name Hj) as (j & f' & Hf' & _ & Hp); [by eexists|].
    assert (f' = f) as -> by congruence. rewrite Hp. split; [done|]. exists f. split_and!; try done. apply file_of_Some. eauto. }
  intros [j digest]. cbv beta. eapply qt_bind; [|intros []; apply qt_ret].
  - instantiate (1 := λ _ s, journal_name name' ∧ ∃ f, file_of s name' = Some f ∧ f.(jf_safe) = true ∧
    raw = f.(jf_content) ∧ parseClientJournal raw = Ok (j, digest)). destruct (validTerminalName name'); [|by apply qt_ret].
    eapply qt_bind; [apply qt_or_error|]. intros op. eapply qt_weaken; [apply qt_guard; intros; apply honest_errorf|exact (λ _ H, H)|].
    intros x s [H _]. exact H.
  - intros s (Hj & f & Hf & Hs & -> & Hp). apply file_of_Some in Hf as (d & Hd & Hf). exists d, f. done.
Qed.

Lemma ht_load P : ht P (load tm) (λ c s, P s ∧ loaded c s).
Proof. apply qt_ht. eapply qt_weaken; [apply qt_load|done|done]. Qed.

(** The outcome of a load, as a value. *)
Lemma ht_attempt_load P :
  ht P (attempt (load tm)) (λ r s, P s ∧ match r with Ok c => loaded c s | Err e => honest e s end).
Proof. apply qt_attempt_ht. eapply qt_weaken; [apply qt_load|done|done]. Qed.

(** ** The lock *)

Lemma ht_ensureJournalDirectoryEntry P create : Kept P → ht P (ensureJournalDirectoryEntry tm create) (λ _, P).
Proof.
  intros HP w Hi HPw. unfold ensureJournalDirectoryEntry. rewrite <- (tw_tick Hw w) in Hi, HPw |- *.
  set (w1 := tm_tick tm w) in *. destruct (tm_fault tm w1); [split; [apply rtc_refl|done]|].
  destruct (tm_dir tm w1) as [d|] eqn:Ed; [split; [apply rtc_refl|done]|].
  destruct create; [|split; [apply rtc_refl|done]]. cbn [fst snd]. rewrite (tw_put Hw).
  assert (st w1 = (None, log w1)) as E by (unfold st; by rewrite Ed). rewrite E in HPw |- *.
  split; [apply rtc_once, js_mkdir|]. intros _ _. revert HPw. apply HP; [|done]. intros n _. cbn. apply lookup_empty.
Qed.

Lemma ht_openJournalLock P : Kept P → ht P (openJournalLock tm) (λ _, P).
Proof.
  intros HP. unfold openJournalLock. eapply ht_bind; [|intros f; apply (ht_check P); by intros].
  apply ht_wrapping, ht_call. intros d l _ H. destruct (d !! journalLockName); cbn; [split; [apply rtc_refl|done]|].
  split; [by apply rtc_once, js_lock|]. intros _ _. eapply (kept_private P journalLockName); [done|by left| |done].
  intros n Hn. by rewrite lookup_insert_ne.
Qed.

(** A section under the lock starts from what other commands left. *)
Lemma ht_withLock {A} P create (callback : io W A) Q :
  ht (after P) callback Q → ht P (withLock tm create callback) Q.
Proof.
  intros Hc w Hi HP. unfold withLock. pose proof (tw_others Hw w) as Ho.
  assert (ht (after P) (_ ← openJournalDirectory tm create; _ ← wrapping "lock R7 client journal" (jsync tm);
    _ ← recoverStage tm; callback) Q) as H.
  { eapply ht_bind; [|intros ?; eapply ht_bind; [apply ht_wrapping, ht_sync|]; intros ?;
      eapply ht_bind; [apply ht_recoverStage, _|]; intros ?; exact Hc].
    unfold openJournalDirectory. eapply ht_bind; [apply ht_ensureJournalDirectoryEntry, _|]. intros ?.
    apply ht_openJournalLock, _. }
  destruct (H (tm_others tm w)) as [Hs HQ]; [by eapply jsteps_inv| |split; [by etrans|done]].
  exists (st w). split_and!; [done|apply (tw_uncollided Hw)|by apply jsteps_log].
Qed.

(** ** Publishing *)

Lemma journal_canonical_validate j raw : journal_canonical j = Ok raw → journal_validate j = Ok ().
Proof. unfold journal_canonical. intros H. by apply bind_Ok in H as ([] & Hv & _). Qed.

Definition staged (P : state → Prop) (content : option string) (s : state) : Prop :=
  P s ∧ ∃ f, file_of s journalStageName = Some f ∧ ∀ c, content = Some c → f.(jf_content) = c.

Lemma ht_create_stage P : Kept P → ht P (jcreate tm journalStageName) (λ _, staged P None).
Proof.
  intros HP. apply ht_call. intros d l _ H. destruct (d !! journalStageName) eqn:E; cbn; [split; [apply rtc_refl|done]|].
  split; [by apply rtc_once, js_stage|]. intros _ _. split.
  - eapply (kept_private P journalStageName); [done|by right| |done]. intros n Hn. by rewrite lookup_insert_ne.
  - eexists. split; [|done]. cbn. apply lookup_insert_eq.
Qed.

Lemma ht_write_stage P content :
  Kept P → ht (staged P None) (jwrite tm journalStageName content) (λ _, staged P (Some content)).
Proof.
  intros HP w Hi [HPw (f & Hf & _)]. unfold jwrite. rewrite <- (tw_tick Hw w) in Hi, HPw, Hf |- *.
  set (w1 := tm_tick tm w) in *. apply file_of_Some in Hf as (d & Hd & Hf). cbn in Hd.
  assert (st w1 = (Some d, log w1)) as E by (unfold st; by rewrite Hd). rewrite E in HPw |- *. rewrite Hd.
  destruct (di_names _ (Hi d Hd) _ _ Hf) as [Hsafe _].
  assert (∀ c, alter (λ f, {| jf_content := c; jf_safe := f.(jf_safe) |}) journalStageName d =
    <[journalStageName := {| jf_content := c; jf_safe := f.(jf_safe) |}]> d) as Halter.
  { intros c. apply map_eq. intros n. destruct (decide (n = journalStageName)) as [->|Hn].
    - by rewrite lookup_alter_eq, Hf, lookup_insert_eq.
    - by rewrite lookup_alter_ne, lookup_insert_ne. }
  destruct (tm_fault tm w1); cbn [fst snd]; rewrite Halter, (tw_put Hw);
    (split; [by apply rtc_once, js_stage|]); [done|]. intros _ _. split.
  - eapply (kept_private P journalStageName); [done|by right| |done]. intros n Hn. by rewrite lookup_insert_ne.
  - eexists. split; [cbn; apply lookup_insert_eq|]. by intros c [= <-].
Qed.

Section publish.
Context (P : state → Prop) `{!Kept P} (j : journal) (target : string).
Hypothesis Hok : ∀ s, P s → journal_validate j = Ok () → journal_ok j.
Hypothesis Hgrounds : ∀ d l f, dir_inv d → P (Some d, l) → file_is d journalStageName j → d !! journalStageName = Some f →
  jstep (Some d, l) (Some (<[target := f]> (delete journalStageName d)), l).

Lemma ht_fill_stage payload :
  journal_name target → journal_canonical j = Ok payload →
  ht (staged P None) (fill_stage tm payload target) (λ _, at_file target j).
Proof.
  intros Htarget Hc. unfold fill_stage. eapply ht_bind; [apply ht_wrapping, ht_write_stage, _|]. intros ?.
  eapply ht_bind; [apply ht_wrapping, ht_sync|]. intros ?. eapply ht_bind; [apply ht_wrapping, ht_sync|]. intros ?.
  apply ht_wrapping, ht_call. intros d l Hi [HP (f & Hf & Hcontent)]. cbn in Hf. rewrite Hf. cbn [fst snd].
  pose proof (journal_canonical_validate _ _ Hc) as Hv.
  assert (file_is d journalStageName j) as Hfile.
  { exists f. split_and!; [done|by eapply di_names|]. rewrite (Hcontent payload eq_refl).
    apply parseClientJournal_canonical; [by eapply Hok|done]. }
  split; [apply rtc_once; by eapply Hgrounds|]. intros _ _. eexists. split; [done|]. by apply holds_new.
Qed.

Lemma ht_publish : ht P (publishJournal tm j target) (λ _, at_file target j).
Proof.
  unfold publishJournal. eapply ht_bind; [apply (ht_check P _ _ (λ _ s, P s ∧ journal_name target))|].
  { intros s Hg HP. split; [done|]. apply journal_name_dec. apply andb_false_iff in Hg as [H|H]; apply negb_false_iff in H;
      rewrite H; [done|apply orb_true_r]. }
  intros []. eapply ht_bind; [apply (ht_lift _ _ (λ payload s, P s ∧ journal_name target ∧ journal_canonical j = Ok payload))|].
  { by intros payload s E [? ?]. }
  intros payload. cbv beta. apply (ht_fact (journal_name target ∧ journal_canonical j = Ok payload)); [by intros s [_ ?]|].
  intros [Htarget Hc]. apply (ht_pre P); [by intros s [? _]|].
  eapply ht_bind; [apply ht_recoverStage, _|]. intros ?. eapply ht_bind; [apply ht_wrapping, ht_create_stage, _|].
  intros ?. eapply ht_bind; [apply ht_attempt, (ht_fill_stage payload Htarget Hc)|]. intros [[]|e].
  - apply (ht_pre (at_file target j)); [|apply (ht_sync (at_file target j))]. intros s H. exact (H () eq_refl).
  - eapply ht_bind; [apply ht_attempt, (ht_pre nothing); [done|apply ht_unlink_stage, _]|]. intros ?. by apply ht_lift.
Qed.
End publish.

(** The active journal is replaced by one that evolved from it. *)
Lemma ht_write_evolved j j' name :
  (journal_ok j → journal_validate j' = Ok () → journal_ok j') → evolves j j' →
  ht (at_file journalActiveName j) (jd_write tm j' name) (λ _, at_file journalActiveName j').
Proof.
  intros Hok Hev. unfold jd_write. eapply ht_bind; [apply (ht_check _ _ _ (λ _, at_file journalActiveName j)); by intros|].
  intros ?. apply ht_publish; [apply _|..].
  - intros s Hat. apply Hok. by eapply at_ok.
  - intros d l f Hi (d' & [= <-] & Hh) Hf Hl. by eapply js_evolve.
Qed.

(** What a new boundary may overwrite: the journal of an ended one. *)
Definition replaceable (s : state) : Prop :=
  no_journal s ∨ ∃ j, at_file journalActiveName j s ∧ logged (Ended j.(cj_Attachment)) s.
#[export] Instance kept_replaceable : Kept replaceable.
Proof.
  intros s s' Hf Hl [H|(j & H)]; [left; by eapply kept_no_journal|].
  right. exists j. revert H. by apply (kept_and _ _ (kept_at_file _ _) (kept_logged _)).
Qed.

Lemma ht_write_issued j name :
  (journal_validate j = Ok () → journal_ok j) → j.(cj_CurrentOperation) = "" →
  ht (λ s, replaceable s ∧ logged (Attached j.(cj_BoundaryDigest) j.(cj_Attachment)) s) (jd_write tm j name)
    (λ _, at_file journalActiveName j).
Proof.
  intros Hok Hop. unfold jd_write. eapply ht_bind; [eapply (ht_check _ _ _ (λ _ s, replaceable s ∧ _)); by intros|].
  intros ?. apply ht_publish; [apply _|intros s _; exact Hok|].
  intros d l f Hi [Hr Ha] Hf Hl. eapply js_issue; [|done|done|done|done]. intros n Hn Hs.
  destruct Hr as [H|(j0 & (d0 & [= <-] & Hh) & He)].
  - specialize (H n Hn). cbn in H. rewrite H in Hs. by destruct Hs.
  - assert (n = journalActiveName) as -> by (by eapply holds_one). split; [done|]. exists j0. split; [apply Hh|done].
Qed.

(** ** Moves *)

(** An accepted answer to the operation that the terminal file [c] is named after. *)
Definition accepted_answer (c : clientJournal) (receipt : string) (s : state) : Prop := ∃ op,
  c.(cj_fileName) = terminalName op ∧ validTerminalName c.(cj_fileName) = true ∧
  answered s.2 c op receipt ∧ accepted receipt.
#[export] Instance kept_accepted_answer c r : Kept (accepted_answer c r).
Proof.
  intros s s' _ Hl (op & E & Hv & (i & cs & Ha) & Hr). exists op. split_and!; [done|done| |done]. exists i, cs. by apply Hl.
Qed.

Lemma ht_markTerminal (c : clientJournal) op r :
  validTerminalName (terminalName op) = true → accepted r →
  ht (λ s, loaded c s ∧ answered s.2 c op r) (markTerminal tm c op) (λ t s, loaded t s ∧ accepted_answer t r s).
Proof.
  intros Hv Hr. set (P := λ s, loaded c s ∧ answered s.2 c op r).
  assert (Kept P) as HP.
  { intros s s' Hf Hl [H (i & cs & Ha)]. split; [by eapply kept_loaded|]. exists i, cs. by apply Hl. }
  unfold markTerminal. eapply ht_bind; [apply (ht_check _ _ _ (λ _ s, P s ∧ c.(cj_fileName) = journalActiveName))|].
  { intros s [H%negb_false_iff%String.eqb_eq _]%orb_false_iff Hs. done. }
  intros []. eapply ht_bind; [apply ht_load|]. intros current. cbv beta.
  eapply ht_bind; [apply (ht_check _ _ _ (λ _ s, P s ∧ c.(cj_fileName) = journalActiveName)); by intros s _ [? _]|].
  intros ?. eapply ht_bind; [apply qt_attempt_ht, (qt_stat _ (terminalName op))|]. intros existing. cbv beta.
  eapply ht_bind; [instantiate (1 := λ _ s, P s ∧ c.(cj_fileName) = journalActiveName)|].
  { destruct existing; [by apply ht_lift|]. apply ht_check. by intros s _ [? _]. }
  intros ?. eapply ht_bind; [apply ht_wrapping, ht_call|].
  { intros d l Hi [[Hl Ha] En]. instantiate (1 := λ _ s, at_file (terminalName op) c s ∧ answered s.2 c op r).
    apply loaded_at in Hl as (d' & [= <-] & Hh). rewrite En in Hh. destruct (d !! journalActiveName) as [f|] eqn:Ef; cbn [fst snd];
      [|split; [apply rtc_refl|done]].
    split; [apply rtc_once; by eapply js_terminal|]. intros _ _. split; [|done]. eexists. split; [done|].
    apply holds_new; [by right|apply Hh|done]. }
  intros ?. eapply ht_bind; [apply ht_wrapping, ht_sync|]. intros ?. eapply ht_bind; [apply ht_attempt_load|].
  intros [t|e]; cbn [or_error].
  - eapply ht_bind; [apply (ht_ret _ t (λ x s, x = t ∧ (at_file (terminalName op) c s ∧ answered s.2 c op r) ∧ loaded t s));
      by intros|].
    intros t'. apply (ht_fact (t' = t)); [by intros s [? _]|]. intros ->.
    eapply ht_bind; [apply (ht_check _ _ _ (λ _ s, loaded t s ∧ accepted_answer t r s))|intros ?; by apply ht_ret].
    intros s [H%negb_false_iff%String.eqb_eq _]%orb_false_iff (_ & (Hat & Ha) & Hl). split; [done|].
    exists op. split_and!; [done|by rewrite H| |done].
    assert (t.(cj_journal) = c.(cj_journal)) as -> by (apply loaded_at in Hl; rewrite H in Hl; by eapply at_functional).
    done.
  - eapply ht_bind; [apply (ht_lift _ _ (λ _ _, False)); by intros|]. intros ? w _ [].
Qed.

Lemma presented_journal_ok j : journal_ok j → journal_ok (presented_journal j).
Proof. intros [Ha Hb _ _ _ _ _]. split; cbn; [done|done|by left|by left|done|done|done]. Qed.

Lemma ht_markPresented P (c : clientJournal) r :
  Kept P →
  (∀ s current, P s → loaded current s → same_file current c = true →
     current = c ∧ accepted_answer c r s ∧ logged (Printed (r +:+ newline)) s) →
  ht P (markPresented tm c) (λ t s, loaded t s ∧ t.(cj_CurrentOperation) = "").
Proof.
  intros HP Hc. set (P' := λ s, loaded c s ∧ accepted_answer c r s ∧ logged (Printed (r +:+ newline)) s).
  unfold markPresented. eapply ht_bind; [apply (ht_check _ _ _ (λ _, P)); by intros|]. intros ?.
  eapply ht_bind; [apply ht_load|]. intros current. cbv beta.
  eapply ht_bind; [apply (ht_check _ _ _ (λ _ s, P' s ∧ current = c))|].
  { intros s [H%negb_false_iff _]%orb_false_iff [HPs Hl]. destruct (Hc s current HPs Hl H) as (-> & ? & ?). done. }
  intros []. apply (ht_fact (current = c)); [by intros s [_ ?]|]. intros ->. apply (ht_pre P'); [by intros s [? _]|].
  eapply ht_bind; [apply ht_publish; [apply _|..]|].
  { intros s [Hl _] _. by eapply presented_journal_ok, loaded_ok. }
  { intros d l f Hi (Hl & (op & E & Hv & Ha & Hr) & Hp) Hf Hs. apply loaded_at in Hl as (d' & [= <-] & Hh).
    by eapply js_presented. }
  intros ?. eapply ht_bind; [apply ht_attempt_load|]. intros [t|e]; cbn [or_error].
  - eapply ht_bind; [apply (ht_ret _ t (λ x s, x = t ∧ loaded t s)); by intros s [_ ?]|]. intros t'.
    apply (ht_fact (t' = t)); [by intros s [? _]|]. intros ->.
    eapply ht_bind; [apply (ht_check _ _ _ (λ _ s, loaded t s ∧ t.(cj_CurrentOperation) = ""))|intros ?; by apply ht_ret].
    intros s [[[_ H%negb_false_iff%is_empty_true]%orb_false_iff _]%orb_false_iff _]%orb_false_iff [_ Hl]. done.
  - eapply ht_bind; [apply (ht_lift _ _ (λ _ _, False)); by intros|]. intros ? w _ [].
Qed.

Lemma ht_remove P (c : clientJournal) :
  Kept P →
  (∀ s current, P s → loaded current s → same_file current c = true →
     current = c ∧ logged (Ended c.(cj_Attachment)) s ∧
     (validTerminalName c.(cj_fileName) = true → c.(cj_CurrentOperation) = "")) →
  ht P (jd_remove tm c) (λ _, no_journal).
Proof.
  intros HP Hc. unfold jd_remove. eapply ht_bind; [apply (ht_check _ _ _ (λ _, P)); by intros|]. intros ?.
  eapply ht_bind; [apply ht_load|]. intros current. cbv beta.
  eapply ht_bind; [apply (ht_check _ _ _ (λ _ s, (loaded c s ∧ logged (Ended c.(cj_Attachment)) s) ∧ current = c ∧
     (validTerminalName c.(cj_fileName) = true → c.(cj_CurrentOperation) = "")))|].
  { intros s H%negb_false_iff [HPs Hl]. destruct (Hc s current HPs Hl H) as (-> & ? & ?). done. }
  intros []. apply (ht_fact (current = c ∧ (validTerminalName c.(cj_fileName) = true → c.(cj_CurrentOperation) = "")));
    [by intros s [_ ?]|]. intros [-> Hterm].
  eapply ht_bind; [apply ht_wrapping, ht_call|intros ?; apply ht_sync].
  intros d l Hi [[(d' & [= <-] & Hh)%loaded_at He] _]. cbn [fst] in Hh.
  destruct (d !! c.(cj_fileName)) as [f|] eqn:Ef; cbn [fst snd]; [|split; [apply rtc_refl|done]].
  split; [apply rtc_once; by eapply js_removed|]. intros _ _ n Hn. cbn.
  destruct (delete _ d !! n) as [g|] eqn:Eg; [|done]. apply lookup_delete_Some in Eg as [Hne Hg].
  exfalso. apply Hne. symmetry. by eapply holds_one.
Qed.

(** ** The control client and standard output *)

Lemma ht_replies {A} P (m : io W A) events :
  Kept P → replies m events → (∀ d l x, P (d, l) → rtc jstep (d, l) (d, l ++ events x)) →
  ht P m (λ x s, P s ∧ ∀ e, e ∈ events x → logged e s).
Proof.
  intros HP Hm Hev w Hi HPw. rewrite (Hm w). unfold st in HPw |- *. destruct (fst (m w)) as [x|e] eqn:E.
  - split; [by apply Hev|]. intros y [= <-]. split.
    + revert HPw. apply HP; [done|]. intros e He. apply elem_of_app. by left.
    + intros e He. apply elem_of_app. by right.
  - rewrite app_nil_r. split; [apply rtc_refl|done].
Qed.

Lemma ht_attempt_replies {A} P (m : io W A) events :
  Kept P → replies m events → (∀ d l x, P (d, l) → rtc jstep (d, l) (d, l ++ events x)) →
  ht P (attempt m) (λ r s, P s ∧ ∀ x e, r = Ok x → e ∈ events x → logged e s).
Proof.
  intros HP Hm Hev w Hi HPw. destruct (ht_replies P m events HP Hm Hev w Hi HPw) as [Hs HQ]. specialize (Hm w).
  unfold attempt. destruct (m w) as [[x|e] w1]; cbn [fst snd] in *; (split; [done|]); intros y [= <-].
  - destruct (HQ x eq_refl) as [? He]. split; [done|]. by intros y e [= <-] ?%He.
  - rewrite Hm, app_nil_r. by split.
Qed.

(** A call that is not recorded. *)
Lemma ht_silent {A} P (m : io W A) : Kept P → replies m (λ _, []) → ht P m (λ _, P).
Proof.
  intros HP Hm. eapply ht_post; [|apply (ht_replies P m _ HP Hm)]; [by intros x s [? _]|].
  intros d l x _. rewrite app_nil_r. apply rtc_refl.
Qed.

Lemma ht_print P line : Kept P → ht P (tm.(tm_print) line) (λ _ s, P s ∧ logged (Printed line) s).
Proof.
  intros HP. eapply ht_post; [|apply (ht_replies P _ _ HP (tw_print Hw line))].
  - intros x s [? He]. split; [done|]. apply He. by left.
  - intros d l x _. apply rtc_once, js_printed.
Qed.

Lemma ht_Attach P b : Kept P → ht P (tm.(tm_client).(cl_Attach) b) (λ a s, (P s ∧ logged (Attached b a) s) ∧ time_text_ok a.(at_ExpiresAt)).
Proof.
  intros HP w Hi HPw. destruct (ht_replies P _ _ HP (tw_Attach Hw b)) with w as [Hs HQ]; [|done|done|].
  - intros d l x _. apply rtc_once, js_attached.
  - split; [done|]. intros a Ha. destruct (HQ a Ha) as [? He]. split; [split; [done|apply He; by left]|].
    by eapply (tw_expires Hw).
Qed.

Lemma ht_End P a : Kept P → ht P (tm.(tm_client).(cl_End) a) (λ _ s, P s ∧ logged (Ended a) s).
Proof.
  intros HP. eapply ht_post; [|apply (ht_replies P _ _ HP (tw_End Hw a))].
  - intros x s [? He]. split; [done|]. apply He. by left.
  - intros d l x _. apply rtc_once, js_ended.
Qed.

Lemma ht_Submit (c : clientJournal) (i : AgentIntent) cs op :
  bindCandidates c i = Ok cs → deriveAdmissionOperation c.(cj_CurrentOperation) i cs = Ok op →
  (validTerminalName c.(cj_fileName) = true → terminalName op = c.(cj_fileName)) →
  ht (loaded c) (tm.(tm_client).(cl_Submit) c.(cj_Attachment) c.(cj_CurrentOperation) op i.(ai_canonical) cs)
    (λ r s, loaded c s ∧ answered s.2 c op r).
Proof.
  intros Hb Hd Hn. eapply ht_post; [|apply (ht_replies (loaded c) _ _ _ (tw_Submit Hw _ _ _ _ _))].
  - intros x s [? He]. split; [done|]. exists i.(ai_canonical), cs. apply He. by left.
  - intros d l x (d' & [= ->] & Hh)%loaded_at. apply rtc_once. by eapply js_answered.
Qed.
End ops.
