(* ===== verification/JournalSafe.v ===== *)
(** Every command of the agent terminal keeps to the protocol of its directory: the
    sections under the lock one by one, then the whole command from its arguments. *)

From Stdlib Require Import Lia.
From S2P Require Import Prelude Io Utf8 Json Wire Sha256 Time Value Intent Bound Event View AgentView Base64.
From S2P Require Import Journal JournalDir Terminal JournalProto JournalOps.

#[local] Open Scope Z_scope.

(** ** Journals that are written *)

(** What [validate] does not check, since the types of the source ensure it. *)
Record journal_parts (j : journal) : Prop := {
  jp_expires : time_text_ok j.(cj_Attachment).(at_ExpiresAt);
  jp_boundary : digest_wf j.(cj_BoundaryDigest);
  jp_operation : j.(cj_CurrentOperation) = "" ∨ handle_ok j.(cj_CurrentOperation) = true;
  jp_candidates : Forall (λ c, handle_ok c.(cb_Handle) = true ∧ digest_ok c.(cb_Digest)) j.(cj_Candidates);
}.

Lemma journal_parts_ok j : journal_parts j → journal_validate j = Ok () → journal_ok j.
Proof.
  intros [Ht Hb Ho Hc] (Hid & Hcr & _ & Hz & Hpf & Hpr & Hn & Hs)%journal_validate_Ok. split; try done.
  destruct Ho as [?|Ho]; [by left|]. destruct Hpf as [?|?]; [by left|by right].
Qed.

Lemma ok_journal_parts j : journal_ok j → journal_parts j.
Proof. intros [[_ _ Ht] [Hb _] Ho _ _ Hc _]. split; [done|done| |done]. destruct Ho as [?|[? _]]; [by left|by right]. Qed.

Lemma with_operation_ok j op :
  journal_ok j → handle_ok op = true → journal_validate (with_operation j op) = Ok () → journal_ok (with_operation j op).
Proof. intros [Ht Hb _ Hc]%ok_journal_parts Ho. apply journal_parts_ok. split; cbn; [done|done|by right|done]. Qed.
Lemma with_projection_ok j p :
  journal_ok j → journal_validate (with_projection j p) = Ok () → journal_ok (with_projection j p).
Proof. intros [Ht Hb Ho Hc]%ok_journal_parts. by apply journal_parts_ok. Qed.

Lemma newCurrentOperation_handle entropy op : newCurrentOperation entropy = Ok op → handle_ok op = true ∧ op ≠ "".
Proof.
  unfold newCurrentOperation. intros H. apply bind_Ok in H as (x & _ & [-> Ho]%newIdentifier_Ok). split; [done|].
  by eapply token_ok_nonempty.
Qed.

Lemma addCandidate_evolves j capture j' : addCandidate j capture = Ok j' →
  evolves j j' ∧ (journal_ok j → journal_ok j').
Proof.
  unfold addCandidate. cbv zeta. intros H. apply bind_Ok in H as (h & [-> Hh]%or_error_Ok%NewOpaqueHandle_Ok & H).
  apply bind_Ok in H as (d & (_ & Hwf & Hz)%or_error_Ok%ParseDigest_Ok & H).
  destruct (find_candidate _ _).
  { apply bind_Ok in H as ([] & _ & H). apply (inj Ok) in H as <-. split; [by split|done]. }
  apply bind_Ok in H as ([] & _ & H). apply bind_Ok in H as ([] & Hv & H). apply (inj Ok) in H as <-. split.
  - split; cbn; [done|done|done|]. intros c Hc. rewrite sort_by_perm. apply elem_of_app. by left.
  - intros Hok. apply journal_parts_ok; [|done]. destruct (ok_journal_parts _ Hok) as [? ? ? Hc]. split; cbn; [done|done|done|].
    rewrite sort_by_perm. apply Forall_app. split; [done|]. by repeat constructor.
Qed.

Section safe.
Context {W : Type} (tm : Terminal W) (log : W → list event) `{!terminal_world tm log}.
Abbreviation ht := (triple (st tm log) jstep state_inv).

(** ** Output *)

Lemma ht_write_line P raw :
  Kept P → ht P (write_line tm raw) (λ r s, P s ∧ (r = 0 → logged (Printed (raw +:+ newline)) s)).
Proof.
  intros HP. unfold write_line. eapply ht_bind; [apply (ht_attempt_replies tm log _ _ _ HP (tw_print _ _ _ _))|].
  { intros d l x _. apply rtc_once, js_printed. }
  intros r. apply ht_ret. intros s [HPs He]. split; [done|]. destruct r as [[]|e]; cbn; [|done]. intros _.
  eapply He; [done|by left].
Qed.

Lemma ht_writeError P e : Kept P → ht P (writeError tm e) (λ r s, P s ∧ r ≠ 0).
Proof.
  intros HP. destruct e; try (by apply ht_ret). cbn [writeError].
  eapply ht_bind; [apply ht_write_line, HP|]. intros r. apply ht_ret. intros s [HPs _]. split; [done|].
  destruct (r =? 0); [|done]. unfold code_exitStatus. repeat case_bool_decide; done.
Qed.

Lemma ht_writeCommandError P e : Kept P → ht P (writeCommandError tm e) (λ r s, P s ∧ r ≠ 0).
Proof. apply ht_writeError. Qed.

(** Status 0 means that the line reached standard output. *)
Lemma ht_writeCanonicalProjection P raw :
  Kept P → ht P (writeCanonicalProjection tm raw) (λ r s, P s ∧ (r = 0 → logged (Printed (raw +:+ newline)) s)).
Proof.
  intros HP. unfold writeCanonicalProjection. destruct (negb _); [|by apply ht_write_line].
  eapply ht_post; [|by apply ht_writeError]. by intros x s [? ?].
Qed.

Lemma ht_writeStatus P fields : Kept P → ht P (writeStatus tm fields) (λ _, nothing).
Proof. intros HP. eapply ht_post; [|by apply ht_writeCanonicalProjection]. done. Qed.

Lemma ht_any {A} P (m : io W A) Q : ht P m Q → ht P m (λ _, nothing).
Proof. by apply ht_post. Qed.

(** A section under the lock, then its outcome. *)
Lemma ht_section {A B} create (m : io W A) Q (k : result A → io W B) Q' :
  ht nothing m Q → (∀ r, ht (λ s, ∀ x, r = Ok x → Q x s) (k r) Q') →
  ht nothing (r ← attempt (withLock tm create m); k r) Q'.
Proof.
  intros Hm Hk. eapply ht_bind; [|exact Hk]. apply ht_attempt, ht_withLock; [apply _|]. by apply (ht_pre nothing).
Qed.

(** ** agent current *)

Lemma ht_establish_operation c :
  ht (λ s, loaded c s ∧ c.(cj_fileName) = journalActiveName) (establish_operation tm c) (λ j, at_file journalActiveName j).
Proof.
  apply (ht_fact (c.(cj_fileName) = journalActiveName)); [by intros s [_ ?]|]. intros En.
  apply (ht_pre (at_file journalActiveName c)); [intros s [Hl%loaded_at _]; by rewrite En in Hl|].
  unfold establish_operation. destruct (IsZero _) eqn:Ez; [|by apply ht_ret]. apply is_empty_true in Ez.
  eapply ht_bind.
  { instantiate (1 := λ op s, at_file journalActiveName c s ∧ handle_ok op = true ∧ op ≠ "").
    intros w Hi HP. split; [apply rtc_refl|]. cbn. intros op Hop%newCurrentOperation_handle. done. }
  intros op. apply (ht_fact (handle_ok op = true)); [by intros s (_ & ? & _)|]. intros Ho.
  apply (ht_pre (at_file journalActiveName c)); [by intros s [? _]|]. cbv zeta.
  eapply ht_bind; [apply ht_write_evolved; [apply _|..]|intros ?; by apply ht_ret].
  - intros Hok Hv. by apply with_operation_ok.
  - split; cbn; [done|done|by rewrite Ez|done].
Qed.

Lemma ht_guard_active c e :
  ht (loaded c) (guard (validTerminalName c.(cj_fileName)) e) (λ _ s, loaded c s ∧ c.(cj_fileName) = journalActiveName).
Proof. apply ht_check. intros s Hv Hl. split; [done|]. by eapply loaded_active. Qed.

Lemma ht_load_any : ht nothing (load tm) loaded.
Proof. eapply ht_post; [|apply ht_load, _]. by intros c s [_ ?]. Qed.

Lemma ht_current_section : ht nothing (current_section tm) (λ _, nothing).
Proof.
  unfold current_section. eapply ht_bind; [apply ht_load_any|]. intros c.
  eapply ht_bind; [apply ht_guard_active|]. intros ?. eapply ht_bind; [apply ht_establish_operation|]. intros j.
  eapply ht_bind; [apply ht_silent; [apply _|apply (tw_Current _ _ _)]|]. intros view.
  eapply ht_bind; [apply (ht_lift _ _ (λ _, at_file journalActiveName j)); by intros|]. intros p. cbv beta.
  eapply ht_bind; [apply ht_write_evolved; [apply _|..]|intros ?; by apply ht_ret].
  - apply with_projection_ok.
  - by split.
Qed.

Lemma ht_runCurrent : ht nothing (runCurrent tm) (λ _, nothing).
Proof.
  eapply ht_section; [apply ht_current_section|]. intros [view|e]; apply (ht_pre nothing); try done; eapply ht_any.
  - apply ht_writeCanonicalProjection, _.
  - apply ht_writeCommandError, _.
Qed.

(** ** artifact capture and read *)

Lemma ht_capture_section content : ht nothing (capture_section tm content) (λ _, nothing).
Proof.
  unfold capture_section. eapply ht_bind; [apply ht_load_any|]. intros c.
  eapply ht_bind; [apply ht_guard_active|]. intros ?.
  eapply ht_bind; [apply ht_silent; [apply _|apply (tw_Capture _ _ _)]|]. intros capture. cbv beta.
  eapply ht_bind; [apply (ht_lift _ _ (λ j s, at_file journalActiveName c s ∧ addCandidate c capture = Ok j))|].
  { intros j s Hj [Hl%loaded_at En]. by rewrite En in Hl. }
  intros j. apply (ht_fact (addCandidate c capture = Ok j)); [by intros s [_ ?]|].
  intros [Hev Hok]%addCandidate_evolves. apply (ht_pre (at_file journalActiveName c)); [by intros s [? _]|].
  eapply ht_bind; [apply ht_write_evolved; [apply _|auto|done]|intros ?; by apply ht_ret].
Qed.

Lemma ht_runCapture stdin : ht nothing (runCapture tm stdin) (λ _, nothing).
Proof.
  unfold runCapture. destruct (readBoundedInput _ _ _ _) as [content|e]; [|eapply ht_any, ht_writeError, _].
  eapply ht_section; [apply ht_capture_section|]. intros [x|e]; apply (ht_pre nothing); try done.
  - apply ht_writeStatus, _.
  - eapply ht_any, ht_writeCommandError, _.
Qed.

Lemma ht_read_section handle : ht nothing (read_section tm handle) (λ _, nothing).
Proof.
  unfold read_section. eapply ht_bind; [apply ht_load_any|]. intros c.
  eapply ht_bind; [apply (ht_check _ _ _ (λ _, nothing)); by intros|]. intros ?.
  eapply ht_bind; [apply (ht_check _ _ _ (λ _, nothing)); by intros|]. intros ?.
  apply ht_silent; [apply _|apply (tw_ReadArtifact _ _ _)].
Qed.

Lemma ht_runReadArtifact handle : ht nothing (runReadArtifact tm handle) (λ _, nothing).
Proof.
  eapply ht_section; [apply ht_read_section|]. intros [x|e]; apply (ht_pre nothing); try done.
  - eapply ht_bind; [eapply ht_any, ht_attempt, ht_print; apply _|]. intros r. by apply ht_ret.
  - eapply ht_any, ht_writeCommandError, _.
Qed.

(** ** agent submit *)

Lemma submit_operation_Ok (c : clientJournal) i cs op :
  submit_operation c i = Ok (cs, op) →
  bindCandidates c i = Ok cs ∧ deriveAdmissionOperation c.(cj_CurrentOperation) i cs = Ok op ∧
  (validTerminalName c.(cj_fileName) = true → terminalName op = c.(cj_fileName)).
Proof.
  unfold submit_operation. intros H. apply bind_Ok in H as ([] & _ & H). apply bind_Ok in H as (cs' & Hcs & H).
  apply bind_Ok in H as (op' & Hop & H). cbv zeta in H. apply bind_Ok in H as ([] & Hn & H). apply (inj Ok) in H. simplify_eq.
  destruct (bindCandidates _ _) as [x|] eqn:E; [|done]. apply (inj Ok) in Hcs as ->. split_and!; [done|done|].
  intros Hv. rewrite Hv in Hn. apply bind_Ok in Hn as (exp & Hexp%or_error_Ok & Heq%fail_if_Ok%negb_false_iff%String.eqb_eq).
  subst exp. unfold terminalOperation in Hexp. rewrite Hv in Hexp. cbn [negb fail_if mbind result_bind] in Hexp.
  apply bind_Ok in Hexp as (v & Hval%of_option_Ok & [Eop _]%newIdentifier_Ok). clear Hop E. rewrite Eop.
  unfold terminalName. rewrite strip_prefix_app. change (default ?a (Some v)) with v.
  unfold terminal_value in Hval. apply bind_Some in Hval as (u & Hu%strip_prefix_Some & Hs).
  rewrite Hu. f_equal. symmetry. by apply strip_suffix_Some.
Qed.

(** The terminal journal of an accepted Receipt. *)
Definition submitted (x : string * option clientJournal) (s : state) : Prop := ∀ t,
  x.2 = Some t → loaded t s ∧ accepted_answer t x.1 s.
#[export] Instance kept_submitted x : Kept (submitted x).
Proof. intros s s' Hf Hl H t Ht. exact (kept_and _ _ (kept_loaded t) (kept_accepted_answer t x.1) s s' Hf Hl (H t Ht)). Qed.

Lemma ht_submit_section intent : ht nothing (submit_section tm intent) submitted.
Proof.
  unfold submit_section. eapply ht_bind; [apply ht_load_any|]. intros c.
  eapply ht_bind; [apply (ht_lift _ _ (λ x s, loaded c s ∧ submit_operation c intent = Ok x)); by intros|].
  intros [cs op]. apply (ht_fact (submit_operation c intent = Ok (cs, op))); [by intros s [_ ?]|].
  intros (Hb & Hd & Hn)%submit_operation_Ok. apply (ht_pre (loaded c)); [by intros s [? _]|].
  eapply ht_bind; [by apply ht_Submit|]. intros r. cbv beta.
  eapply ht_bind; [apply (ht_lift _ _ (λ o s, (loaded c s ∧ answered s.2 c op r) ∧ agentReceiptOutcome r = Ok o)); by intros|].
  intros o. cbv beta zeta. apply (ht_fact (agentReceiptOutcome r = Ok o)); [by intros s [_ ?]|]. intros Ho.
  set (b := bool_decide _). eapply ht_bind.
  { apply (ht_check _ _ _ (λ _ s, (loaded c s ∧ answered s.2 c op r) ∧ (validTerminalName c.(cj_fileName) = true → b = true))).
    intros s Hg [? _]. split; [done|]. intros Hv. rewrite Hv in Hg. by destruct b. }
  intros []. apply (ht_fact (validTerminalName c.(cj_fileName) = true → b = true)); [by intros s [_ ?]|]. intros Hvb.
  apply (ht_pre (λ s, loaded c s ∧ answered s.2 c op r)); [by intros s [? _]|].
  eapply ht_bind; [|intros t; by apply (ht_ret (submitted (r, t)))].
  assert (b = true → accepted r) as Hacc.
  { unfold b, accepted. intros ->%bool_decide_eq_true. done. }
  pose proof (terminalOperation_name _ _ _ _ Hd) as [Hvn _].
  destruct (b && _) eqn:E.
  - apply andb_true_iff in E as [Eb _]. eapply ht_bind; [apply (ht_markTerminal tm log c op r); auto|]. intros t.
    apply ht_ret. by intros s Ht t' [= <-].
  - apply ht_ret. intros s [Hl Ha] t. cbn. destruct (validTerminalName _) eqn:Ev; [|done]. intros [= <-].
    split; [done|]. exists op. split_and!; [by rewrite Hn|done|done|auto].
Qed.

Lemma ht_finishPresentedReceipt t r :
  ht (λ s, (loaded t s ∧ accepted_answer t r s) ∧ logged (Printed (r +:+ newline)) s) (finishPresentedReceipt tm t) (λ _, nothing).
Proof.
  unfold finishPresentedReceipt. eapply ht_bind.
  { apply ht_attempt, ht_withLock; [apply _|]. apply (ht_markPresented tm log _ t r); [apply _|].
    intros s current Ha Hl Hsame. split_and!.
    - eapply after_loaded; [|exact Ha|done|done]. by intros s0 [[? _] _].
    - destruct Ha as (s0 & [[_ H] _] & _ & Hlog). destruct H as (op & ? & ? & (i & cs & Hans) & ?). exists op.
      split_and!; [done|done| |done]. exists i, cs. by apply Hlog.
    - eapply after_logged; [|exact Ha]. by intros s0 [_ ?]. }
  intros [p|e]; [|by apply ht_ret]. apply (ht_pre (λ s, loaded p s ∧ p.(cj_CurrentOperation) = "")).
  { intros s H. by apply H. }
  eapply ht_bind; [apply ht_attempt, ht_End; apply _|]. intros [[]|e]; [|by apply ht_ret].
  eapply ht_bind; [|intros ?; by apply (ht_ret nothing)].
  eapply ht_any, ht_attempt, ht_withLock; [apply _|]. apply ht_remove; [apply _|apply _|].
  intros s current Ha Hl Hsame. split_and!.
  - eapply after_loaded; [|exact Ha|done|done]. intros s0 H. by apply (H ()).
  - eapply after_logged; [|exact Ha]. intros s0 H. by apply (H ()).
  - intros _. destruct Ha as (s0 & H & _). by apply (H ()).
Qed.

Lemma ht_runSubmit stdin : ht nothing (runSubmit tm stdin) (λ _, nothing).
Proof.
  unfold runSubmit. destruct (readBoundedInput _ _ _ _) as [raw|e]; [|destruct e; eapply ht_any, ht_writeError, _].
  destruct (ParseAgentIntentJSON raw) as [intent|e]; [|eapply ht_any, ht_writeError, _].
  eapply ht_section; [apply (ht_submit_section intent)|]. intros [[r t]|e]; cycle 1.
  { apply (ht_pre nothing); [done|]. eapply ht_any, ht_writeCommandError, _. }
  apply (ht_pre (submitted (r, t))); [intros s H; by apply H|].
  eapply ht_bind; [apply ht_writeCanonicalProjection, _|]. intros z. cbv beta.
  destruct (negb (z =? 0)) eqn:Ez; [by apply ht_ret|]. apply negb_false_iff, Z.eqb_eq in Ez. subst z.
  destruct t as [t|]; [|by apply ht_ret]. eapply ht_bind; [|intros ?; by apply (ht_ret nothing)].
  eapply ht_pre; [|apply (ht_finishPresentedReceipt t r)]. intros s [H Hp]. split; [by apply (H t)|by apply Hp].
Qed.

(** ** hook attach and end *)

(** The journal just read, its boundary ended. *)
Lemma ht_remove_ended c :
  (validTerminalName c.(cj_fileName) = true → c.(cj_CurrentOperation) = "") →
  ht (λ s, loaded c s ∧ logged (Ended c.(cj_Attachment)) s) (jd_remove tm c) (λ _, no_journal).
Proof.
  intros Hc. apply ht_remove; [apply _|apply _|]. intros s current [Hl He] Hl' [En _]%same_file_true.
  split_and!; [|done|done]. by eapply loaded_functional.
Qed.

Lemma ht_reconcileSameAttachBoundary c : ht (loaded c) (reconcileSameAttachBoundary tm c) (λ _, nothing).
Proof.
  unfold reconcileSameAttachBoundary. destruct (_ && _) eqn:E.
  - apply andb_true_iff in E as [_ Ez%is_empty_true]. eapply ht_bind; [apply ht_End; apply _|]. intros ?.
    eapply ht_bind; [by apply ht_remove_ended|]. intros ?. by apply ht_lift.
  - eapply ht_bind; [apply ht_Attach; apply _|]. intros a.
    eapply ht_bind; [apply (ht_check _ _ _ (λ _, nothing)); by intros|]. intros ?.
    eapply ht_bind; [apply (ht_run _ _ (λ _, nothing)); by intros|]. intros ?. by apply ht_check.
Qed.

Definition candidates_ok (cs : list capturedBinding) : Prop :=
  Forall (λ c, handle_ok c.(cb_Handle) = true ∧ digest_ok c.(cb_Digest)) cs.

Lemma ht_retirePredecessorBoundary c :
  ht (loaded c) (retirePredecessorBoundary tm c) (λ cs s, replaceable s ∧ candidates_ok cs).
Proof.
  unfold retirePredecessorBoundary. cbv zeta. destruct (validTerminalName c.(cj_fileName)) eqn:Ev; cbn [andb].
  - eapply ht_bind; [apply (ht_check _ _ _ (λ _ s, loaded c s ∧ c.(cj_CurrentOperation) = ""))|].
    { by intros s H%negb_false_iff%is_empty_true ?. }
    intros []. apply (ht_fact (c.(cj_CurrentOperation) = "")); [by intros s [_ ?]|]. intros Ez.
    eapply ht_bind; [apply (ht_pre (loaded c)); [by intros s [? _]|apply ht_End; apply _]|]. intros ?.
    eapply ht_bind; [by apply ht_remove_ended|]. intros ?. apply ht_ret. intros s Hn. split; [by left|constructor].
  - eapply ht_bind; [apply (ht_check _ _ _ (λ _, loaded c)); by intros|]. intros ?.
    eapply ht_bind; [apply ht_End; apply _|]. intros ?.
    eapply ht_bind; [apply (ht_ret _ _ (λ _ s, loaded c s ∧ logged (Ended c.(cj_Attachment)) s)); by intros|]. intros ?.
    apply ht_ret. intros s [Hl He]. split; [|by apply (jo_candidates _ (loaded_ok _ _ Hl))]. right. exists c.
    split; [|done]. pose proof (loaded_at _ _ Hl) as Hat. by rewrite (loaded_active _ _ Hl Ev) in Hat.
Qed.

Lemma ht_reconcileAttachBoundary b :
  ht nothing (reconcileAttachBoundary tm b) (λ r s, ∀ cs, r = Some cs → replaceable s ∧ candidates_ok cs).
Proof.
  unfold reconcileAttachBoundary. eapply ht_bind; [apply ht_attempt_load, _|]. intros [c|e]; cbv beta.
  - apply (ht_pre (loaded c)); [by intros s [_ ?]|]. case_bool_decide.
    + eapply ht_bind; [apply ht_reconcileSameAttachBoundary|]. intros ?. by apply ht_ret.
    + eapply ht_bind; [apply ht_retirePredecessorBoundary|]. intros cs. apply ht_ret. by intros s ? cs' [= <-].
  - destruct (errors_is e errJournalAbsent) eqn:E; [|by apply ht_lift]. apply ht_ret. intros s [_ Hh] cs [= <-].
    split; [left; by apply Hh|constructor].
Qed.

Lemma ht_issueAttachBoundary b cs :
  digest_wf b → candidates_ok cs → ht replaceable (issueAttachBoundary tm b cs) (λ _, nothing).
Proof.
  intros Hb Hcs. unfold issueAttachBoundary. eapply ht_bind; [apply ht_Attach; apply _|]. intros a. cbv beta.
  apply (ht_fact (time_text_ok a.(at_ExpiresAt))); [by intros s [_ ?]|]. intros Ht.
  apply (ht_pre (λ s, replaceable s ∧ logged (Attached b a) s)); [by intros s [? _]|].
  eapply ht_bind; [apply (ht_run _ _ (λ _ s, replaceable s ∧ logged (Attached b a) s)); by intros|]. intros now.
  eapply ht_bind; [apply (ht_check _ _ _ (λ _ s, replaceable s ∧ logged (Attached b a) s)); by intros|]. intros ?.
  unfold newClientJournal. cbv zeta. set (j := Build_journal _ _ _ _ _).
  eapply ht_bind; [apply (ht_lift _ _ (λ x s, (replaceable s ∧ logged (Attached b a) s) ∧ x = j))|].
  { intros j0 s H Hs. split; [done|]. by apply bind_Ok in H as ([] & _ & [= <-]). }
  intros j0. apply (ht_fact (j0 = j)); [by intros s [_ ?]|]. intros ->.
  eapply ht_any, ht_pre; [|apply (ht_write_issued tm log (with_candidates j cs))]; [by intros s [? _]| |done].
  apply journal_parts_ok. split; cbn; [done|done|by left|done].
Qed.

Lemma ht_runAttach b : digest_wf b → ht nothing (runAttach tm b) (λ _, nothing).
Proof.
  intros Hb. eapply (ht_section _ _ (λ _, nothing)).
  - unfold attach_section. eapply ht_bind; [apply ht_reconcileAttachBoundary|]. intros [cs|]; [|by apply ht_ret].
    apply (ht_fact (candidates_ok cs)); [intros s H; by apply (H cs)|]. intros Hcs.
    eapply ht_pre; [|by apply ht_issueAttachBoundary]. intros s H. by apply (H cs).
  - intros [x|e]; apply (ht_pre nothing); try done; [apply ht_writeStatus, _|eapply ht_any, ht_writeCommandError, _].
Qed.

Lemma ht_runEnd b : ht nothing (runEnd tm b) (λ _, nothing).
Proof.
  eapply (ht_section _ _ (λ _, nothing)).
  - unfold end_section. eapply ht_bind; [apply ht_attempt_load, _|]. intros [c|e]; cbv beta; cycle 1.
    { destruct (errors_is _ _); [by apply ht_ret|by apply ht_lift]. }
    destruct (negb _); [by apply ht_ret|].
    eapply ht_bind; [apply (ht_check _ _ _ (λ _ s, loaded c s ∧
      (validTerminalName c.(cj_fileName) = true → c.(cj_CurrentOperation) = "")))|].
    { intros s Hg [_ Hl]. split; [done|]. intros Hv. rewrite Hv in Hg. by apply negb_false_iff, is_empty_true in Hg. }
    intros []. apply (ht_fact (validTerminalName c.(cj_fileName) = true → c.(cj_CurrentOperation) = "")); [by intros s [_ ?]|].
    intros Hv. apply (ht_pre (loaded c)); [by intros s [? _]|].
    eapply ht_bind; [apply ht_End; apply _|]. intros ?. eapply ht_any. by apply ht_remove_ended.
  - intros [x|e]; apply (ht_pre nothing); try done; [apply ht_writeStatus, _|].
    destruct (errors_is _ _); [apply ht_writeStatus, _|eapply ht_any, ht_writeCommandError, _].
Qed.

(** ** The command *)

Lemma ht_journal_exists : ht nothing (journal_exists tm) (λ _, nothing).
Proof.
  eapply (ht_section _ _ (λ _, nothing)).
  - eapply ht_bind; [apply ht_attempt_load, _|]. intros [c|e]; [by apply ht_ret|].
    destruct (errors_is _ _); [by apply ht_ret|by apply ht_lift].
  - intros [x|e]; [by apply ht_ret|]. destruct (errors_is _ _); [by apply ht_ret|by apply ht_lift].
Qed.

Lemma ht_unavailable message (m : io W ()) : replies tm log m (λ _, []) → ht nothing (unavailable message m) (λ _, nothing).
Proof.
  intros Hm. eapply ht_bind; [|intros r; by apply (ht_lift _ _ (λ _, nothing))].
  eapply ht_any, ht_attempt, ht_silent; [apply _|done].
Qed.

Lemma ht_prepare command : ht nothing (prepare tm command) (λ _, nothing).
Proof.
  unfold prepare. eapply ht_bind; [apply ht_unavailable, (tw_workspace _ _ _)|]. intros ?. eapply ht_bind.
  { unfold preflightJournal. eapply ht_bind; [eapply ht_any, ht_attempt, ht_journal_exists|]. intros ?.
    eapply ht_bind; [by apply (ht_lift _ _ (λ _, nothing))|]. intros ?. by apply (ht_check _ _ _ (λ _, nothing)). }
  intros ?. eapply ht_bind; [apply ht_unavailable, (tw_ensureDaemon _ _ _)|]. intros ?.
  eapply ht_bind; [eapply ht_any, ht_attempt, ht_silent; [apply _|apply (tw_newClient _ _ _)]|]. intros ?. by apply ht_lift.
Qed.

Lemma hook_boundary_wf command stdin b :
  hook_boundary command stdin = Ok b → command = commandAttach → digest_wf b.
Proof.
  intros H ->. unfold hook_boundary, readHookBoundary in H. apply bind_Ok in H as (raw & _ & H). cbv zeta in H.
  apply bind_Ok in H as ([w rest] & _ & H). apply bind_Ok in H as (? & _ & H). apply bind_Ok in H as (? & _ & H).
  apply bind_Ok in H as (bytes & _ & H). apply bind_Ok in H as (? & _ & H). apply (inj Ok) in H. rewrite <- H. apply Sum_wf.
Qed.

Lemma ht_terminal_run args stdin : ht nothing (terminal_run tm args stdin) (λ _, nothing).
Proof.
  unfold terminal_run. cbv zeta. destruct (negb _); [eapply ht_any, ht_writeError, _|].
  destruct (hook_boundary _ _) as [b|e] eqn:Eb; [|eapply ht_any, ht_writeError, _].
  pose proof (hook_boundary_wf _ _ _ Eb) as Hb.
  eapply ht_bind; [eapply ht_any, ht_attempt, ht_prepare|]. intros [[]|e]; [|eapply ht_any, ht_writeError, _].
  destruct (classify args); cbn [dispatch].
  - eapply ht_any, ht_writeError, _.
  - by apply ht_runAttach, Hb.
  - apply ht_runEnd.
  - apply ht_runCurrent.
  - apply ht_runSubmit.
  - apply ht_runCapture.
  - apply ht_runReadArtifact.
Qed.
End safe.
