(* ===== verification/JournalCalm.v ===== *)
(** An undisturbed [agent submit] finishes: from whatever directory an interrupted
    command left, as long as the journal still carries the Current operation, the
    command prints the accepted Receipt, ends the boundary and removes the journal. *)

From Stdlib Require Import Lia.
From S2P Require Import Prelude Io Utf8 Json Wire Sha256 Time Value Intent Bound Event View AgentView Base64.
From S2P Require Import Journal JournalDir Terminal JournalProto JournalOps JournalSafe.

#[local] Open Scope Z_scope.

(** ** Shapes *)

Lemma projection_shape_struct fs : projection_shape (marshal (struct fs)) = true.
Proof.
  unfold struct. cbn [marshal]. set (body := join_comma _). set (raw := String "{" (body +:+ "}")).
  assert (raw = String "{" body +:+ "}") as E by done. unfold projection_shape.
  assert (String.length raw = S (String.length (String "{" body))) as El.
  { rewrite E, string_length_app. cbn. lia. }
  rewrite El. replace (S (String.length (String "{" body)) - 1)%nat with (String.length (String "{" body)) by lia.
  pose proof (substring_app_r (String "{" body) "}") as Hr. rewrite E. cbn [String.length] in Hr |- *. rewrite Hr.
  unfold slen. rewrite string_length_app. cbn [String.length]. rewrite (proj2 (Z.leb_le _ _)) by lia. cbn.
  change (String "{" body +:+ "}") with (String "{" (body +:+ "}")). by destruct (body +:+ "}").
Qed.

Lemma receipt_shape r o : agentReceiptOutcome r = Ok o → projection_shape r = true.
Proof.
  unfold agentReceiptOutcome, ParseAgentReceiptProjectionCanonicalJSON. intros H.
  apply bind_Ok in H as (receipt & H%or_error_Ok & _). apply bind_Ok in H as (w & Hw & _).
  apply decodeCanonicalObject_Ok in Hw as (-> & _). apply projection_shape_struct.
Qed.

Lemma terminal_name_slash n : journal_name n → contains_byte "/" n = false.
Proof.
  intros [-> |Hv]; [done|]. unfold validTerminalName in Hv. destruct (terminal_value n) as [v|] eqn:Ev; [|done].
  destruct (base64_decode v) as [x|]; [|done]. apply andb_true_iff in Hv as [_ <-%String.eqb_eq].
  apply bind_Some in Ev as (u & Hu%strip_prefix_Some & Hs%strip_suffix_Some). subst n u.
  unfold contains_byte. rewrite !string_to_bytes_app. apply bool_decide_eq_false. intros H.
  apply elem_of_app in H as [H|H]; [apply (bool_decide_pack _) in H; by vm_compute in H|].
  apply elem_of_app in H as [H|H]; [|apply (bool_decide_pack _) in H; by vm_compute in H].
  pose proof (base64_encode_bytes x) as Hb. rewrite forallb_forall in Hb. apply list_elem_of_In, Hb in H. done.
Qed.

Lemma parse_bound raw j s : parseClientJournal raw = Ok (j, s) → slen raw <= maxJournalBytes.
Proof.
  unfold parseClientJournal. intros H. apply bind_Ok in H as ([] & Hg%fail_if_Ok & _).
  by apply orb_false_iff in Hg as [[_ ?%Z.ltb_ge]%orb_false_iff _].
Qed.

Lemma admission_key x :
  digest_wf x → NewOperationKey (admissionOperationPrefix +:+ base64_encode x) = Ok (admissionOperationPrefix +:+ base64_encode x).
Proof.
  intros Hx. unfold digest_wf in Hx. unfold NewOperationKey, newIdentifier.
  change (admissionOperationPrefix +:+ base64_encode x) with (String "a" ("dmit:" +:+ base64_encode x)).
  rewrite base64_token; [done|by rewrite Hx|done| |].
  - repeat constructor; vm_compute; tauto.
  - unfold slen. cbn [String.length]. rewrite string_length_app. cbn [String.length].
    pose proof (base64_encode_length x) as Hl. unfold slen in Hl. rewrite Hx in Hl.
    change ((4 * Z.of_nat 32 + 2) / 3) with 43 in Hl. unfold MaxOpaqueHandleBytes. lia.
Qed.

(** A terminal file's name carries a key. *)
Lemma terminalOperation_valid n :
  validTerminalName n = true → ∃ op, terminalOperation n = Ok op ∧ op ≠ "" ∧ terminalName op = n.
Proof.
  intros Hv. pose proof Hv as Hv'. unfold validTerminalName in Hv. destruct (terminal_value n) as [v|] eqn:Ev; [|done].
  destruct (base64_decode v) as [x|]; [|done]. apply andb_true_iff in Hv as [Hx%Z.eqb_eq Hb%String.eqb_eq].
  exists (admissionOperationPrefix +:+ v). split_and!; [|done|].
  - unfold terminalOperation. rewrite Hv', Ev. cbn [negb fail_if of_option mbind result_bind]. rewrite <- Hb.
    apply admission_key. unfold slen in Hx. unfold digest_wf. lia.
  - apply bind_Some in Ev as (u & Hu%strip_prefix_Some & Hs%strip_suffix_Some).
    unfold terminalName. rewrite strip_prefix_app. change (default ?a (Some v)) with v. by subst n u.
Qed.

(** ** The directory of a quiet terminal: the lock and one journal *)

Definition lock_file : jfile := {| jf_content := ""; jf_safe := true |}.
Definition tidy (lk : jfile) (n : string) (f : jfile) : jdir := <[n := f]> {[journalLockName := lk]}.

Definition locked (d : jdir) : jdir :=
  delete journalStageName (match d !! journalLockName with Some _ => d | None => <[journalLockName := lock_file]> d end).

Lemma locked_tidy d n f :
  dir_inv d → journal_name n → d !! n = Some f → ∃ lk, lk.(jf_safe) = true ∧ locked d = tidy lk n f.
Proof.
  intros Hi Hn Hf. pose proof (journal_name_private _ Hn) as (Hl & Hs & _).
  exists (default lock_file (d !! journalLockName)). split.
  { destruct (d !! journalLockName) eqn:E; [|done]. by apply (di_names _ Hi _ _ E). }
  apply map_eq. intros m. unfold locked, tidy. destruct (decide (m = journalStageName)) as [->|Hms].
  { rewrite lookup_delete_eq, lookup_insert_ne, lookup_singleton_ne by done. done. }
  rewrite lookup_delete_ne by done. destruct (decide (m = n)) as [->|Hmn].
  { rewrite lookup_insert_eq. by destruct (d !! journalLockName); rewrite ?lookup_insert_ne by done. }
  rewrite (lookup_insert_ne (M := gmap string)) by done. destruct (decide (m = journalLockName)) as [->|Hml].
  { rewrite lookup_singleton_eq. destruct (d !! journalLockName) eqn:E; [done|]. by rewrite lookup_insert_eq. }
  rewrite lookup_singleton_ne by done.
  assert (d !! m = None) as Hm.
  { destruct (d !! m) eqn:E; [|done]. destruct (di_names _ Hi _ _ E) as [_ [?|[?|Hj]]]; [done|done|].
    exfalso. apply Hmn. by eapply di_one. }
  destruct (d !! journalLockName); [done|]. by rewrite lookup_insert_ne.
Qed.

Section calm.
Context {W : Type} (tm : Terminal W) (log : W → list event) `{!terminal_world tm log}.
Abbreviation st := (JournalOps.st tm log).

(** From the state [s], [m] ends with [r] in the state [s']. *)
Definition finishes {A} (s : state) (m : io W A) (r : result A) (s' : state) : Prop := ∀ w,
  st w = s → ∃ w', m w = (r, w') ∧ st w' = s'.

(** No call fails and no other command runs. *)
Record quiet_terminal : Prop := {
  qt_others : ∀ w, st (tm.(tm_others) w) = st w;
  qt_fault : ∀ w, tm.(tm_fault) w = None;
  qt_print : ∀ line w, is_ok (fst (tm.(tm_print) line w)) = true;
  qt_End : ∀ a w, is_ok (fst (tm.(tm_client).(cl_End) a w)) = true;
  qt_workspace : ∀ w, is_ok (fst (tm.(tm_workspace) w)) = true;
  qt_ensureDaemon : ∀ w, is_ok (fst (tm.(tm_ensureDaemon) w)) = true;
  qt_newClient : ∀ w, is_ok (fst (tm.(tm_newClient) w)) = true;
}.
Hypothesis Hq : quiet_terminal.

Lemma finishes_bind {A B} s (m : io W A) x s1 (k : A → io W B) r s2 :
  finishes s m (Ok x) s1 → finishes s1 (k x) r s2 → finishes s (m ≫= k) r s2.
Proof.
  intros Hm Hk w Hs. destruct (Hm w Hs) as (w1 & E & Hs1). destruct (Hk w1 Hs1) as (w2 & E' & Hs2).
  exists w2. split; [|done]. by rewrite (io_bind_run _ _ _ _ _ E).
Qed.
Lemma finishes_lift {A} s (r : result A) : finishes s (lift r) r s.
Proof. intros w Hs. by exists w. Qed.
Lemma finishes_ret {A} s (x : A) : finishes s (mret x) (Ok x) s.
Proof. intros w Hs. by exists w. Qed.
Lemma finishes_guard s c e : c = false → finishes s (guard c e) (Ok ()) s.
Proof. intros ->. apply finishes_lift. Qed.
Lemma finishes_attempt {A} s (m : io W A) r s' : finishes s m r s' → finishes s (attempt m) (Ok r) s'.
Proof. intros Hm w Hs. destruct (Hm w Hs) as (w1 & E & Hs1). exists w1. unfold attempt. by rewrite E. Qed.
Lemma finishes_wrapping {A} s c (m : io W A) x s' : finishes s m (Ok x) s' → finishes s (wrapping c m) (Ok x) s'.
Proof. intros Hm w Hs. destruct (Hm w Hs) as (w1 & E & Hs1). exists w1. unfold wrapping. by rewrite E. Qed.

Lemma finishes_call {A} d l (f : jdir → result A * jdir) r d' :
  f d = (r, d') → finishes (Some d, l) (jcall tm f) r (Some d', l).
Proof.
  intros Hf w Hs. unfold jcall. rewrite <- (tw_tick _ _ _ w) in Hs. set (w1 := tm_tick tm w) in *. rewrite (qt_fault Hq).
  injection Hs as Hd <-. rewrite Hd, Hf. exists (tm_put tm w1 d'). split; [done|]. apply (tw_put _ _ _).
Qed.
Lemma finishes_sync d l : finishes (Some d, l) (jsync tm) (Ok ()) (Some d, l).
Proof. by apply finishes_call. Qed.
Lemma finishes_stat d l n r : of_option (d !! n) ErrNotExist = r → finishes (Some d, l) (jstat tm n) r (Some d, l).
Proof. intros <-. by apply finishes_call. Qed.

Lemma finishes_reply {A} d l (m : io W A) events w0 :
  replies tm log m events → (∀ w, is_ok (fst (m w)) = true) → st w0 = (d, l) →
  ∃ x w', m w0 = (Ok x, w') ∧ st w' = (d, l ++ events x).
Proof.
  intros Hm Hok Hs. specialize (Hm w0). specialize (Hok w0). destruct (m w0) as [[x|e] w']; [|done]. exists x, w'.
  split; [done|]. cbn [fst snd] in Hm. rewrite Hm. by injection Hs as -> ->.
Qed.
Lemma finishes_reply_unit d l (m : io W ()) events :
  replies tm log m events → (∀ w, is_ok (fst (m w)) = true) → finishes (d, l) m (Ok ()) (d, l ++ events ()).
Proof. intros Hm Hok w Hs. by destruct (finishes_reply d l m events w Hm Hok Hs) as ([] & w' & ? & ?); eauto. Qed.

(** ** Sections *)

Lemma finishes_recoverStage d l :
  (∀ f, d !! journalStageName = Some f → f.(jf_safe) = true) →
  finishes (Some d, l) (recoverStage tm) (Ok ()) (Some (delete journalStageName d), l).
Proof.
  intros Hsafe. unfold recoverStage. eapply finishes_bind; [by apply finishes_attempt, finishes_stat|].
  destruct (d !! journalStageName) as [f|] eqn:E; cbn [of_option].
  - eapply finishes_bind; [apply finishes_guard; by rewrite (Hsafe f eq_refl)|].
    eapply finishes_bind; [apply finishes_wrapping, finishes_call; by rewrite E|]. apply finishes_sync.
  - rewrite delete_id by done. apply finishes_ret.
Qed.

Lemma finishes_withLock {A} d l (callback : io W A) r s :
  dir_inv d → finishes (Some (locked d), l) callback r s → finishes (Some d, l) (withLock tm false callback) r s.
Proof.
  intros Hi Hc w Hs. unfold withLock. rewrite <- (qt_others Hq w) in Hs. revert Hs. generalize (tm_others tm w). clear w.
  change (finishes (Some d, l) (_ ← openJournalDirectory tm false; _ ← wrapping "lock R7 client journal" (jsync tm);
    _ ← recoverStage tm; callback) r s).
  set (d1 := match d !! journalLockName with Some _ => d | None => <[journalLockName := lock_file]> d end).
  assert (∀ n f, d1 !! n = Some f → f.(jf_safe) = true) as Hsafe.
  { intros n f. unfold d1. destruct (d !! journalLockName) eqn:E; [intros H; by apply (di_names _ Hi _ _ H)|].
    intros [[<- <-]|[_ H]]%lookup_insert_Some; [done|]. by apply (di_names _ Hi _ _ H). }
  eapply finishes_bind; [instantiate (1 := (Some d1, l)); instantiate (1 := ())|].
  { unfold openJournalDirectory. eapply finishes_bind; [instantiate (1 := (Some d, l)); instantiate (1 := ())|].
    { intros w Hs. unfold ensureJournalDirectoryEntry. rewrite <- (tw_tick _ _ _ w) in Hs. set (w1 := tm_tick tm w) in *.
      rewrite (qt_fault Hq). injection Hs as Hd Hl. rewrite Hd. exists w1. split; [done|]. unfold JournalOps.st. by rewrite Hd, Hl. }
    assert (is_Some (d1 !! journalLockName)) as [lk Hlk].
    { unfold d1. destruct (d !! journalLockName) eqn:E; [by rewrite E|]. by rewrite lookup_insert_eq. }
    unfold openJournalLock. eapply finishes_bind; [apply finishes_wrapping, (finishes_call d l _ (Ok lk) d1)|apply finishes_guard].
    - unfold d1 in *. destruct (d !! journalLockName) eqn:E; [congruence|]. rewrite lookup_insert_eq in Hlk. by injection Hlk as <-.
    - by rewrite (Hsafe _ _ Hlk). }
  eapply finishes_bind; [apply finishes_wrapping, finishes_sync|]. eapply finishes_bind; [apply finishes_recoverStage; intros f; apply Hsafe|].
  exact Hc.
Qed.

(** The directory holds the lock and the journal [j], in the file [n]. *)
Record tidy_journal (lk : jfile) (n : string) (f : jfile) (j : journal) : Prop := {
  tj_name : journal_name n;
  tj_lock : lk.(jf_safe) = true;
  tj_safe : f.(jf_safe) = true;
  tj_parse : parseClientJournal f.(jf_content) = Ok (j, Sum f.(jf_content));
}.

Definition journal_at (n : string) (f : jfile) (j : journal) : clientJournal :=
  {| cj_journal := j; cj_fileName := n; cj_fileDigest := Sum f.(jf_content) |}.

Lemma tidy_lookup lk n f : journal_name n → tidy lk n f !! journalLockName = Some lk ∧ tidy lk n f !! journalStageName = None ∧
  tidy lk n f !! n = Some f.
Proof.
  intros (Hl & Hs & _)%journal_name_private. unfold tidy. split_and!.
  - by rewrite lookup_insert_ne, lookup_singleton_eq.
  - by rewrite lookup_insert_ne, lookup_singleton_ne.
  - by rewrite lookup_insert_eq.
Qed.

Lemma locked_self lk n f : journal_name n → locked (tidy lk n f) = tidy lk n f.
Proof.
  intros (El & Es & _)%(tidy_lookup lk n f). unfold locked. rewrite El. by apply delete_id.
Qed.

Lemma tidy_inv lk n f j : tidy_journal lk n f j → dir_inv (tidy lk n f).
Proof.
  intros [Hn Hlk Hf Hp]. pose proof (journal_name_private _ Hn) as (Hl & Hs & _).
  assert (∀ m g, tidy lk n f !! m = Some g → m = n ∧ g = f ∨ m = journalLockName ∧ g = lk) as Hm.
  { unfold tidy. intros m g [[<- <-]|[_ H]]%lookup_insert_Some; [by left|]. apply lookup_singleton_Some in H as [<- <-]. by right. }
  assert (∀ m, journal_name m → is_Some (tidy lk n f !! m) → m = n) as Hone.
  { intros m Hj [g [[-> _]|[-> _]]%Hm]; [done|]. by apply journal_name_private in Hj as (? & _). }
  split.
  - intros m g [[-> ->]|[-> ->]]%Hm; [tauto|split; [done|by left]].
  - intros m m' Hj Hj' H1 H2. by rewrite (Hone m), (Hone m').
  - intros m Hj ->%Hone; [|done]. exists j, f. split_and!; [apply lookup_insert_eq|done|done].
Qed.

Lemma finishes_load lk n f j l :
  tidy_journal lk n f j → finishes (Some (tidy lk n f), l) (load tm) (Ok (journal_at n f j)) (Some (tidy lk n f), l).
Proof.
  intros [Hn Hlk Hf Hp]. pose proof (journal_name_private _ Hn) as (Hl & _ & Hne).
  destruct (tidy_lookup lk n f Hn) as (_ & _ & Hlook). unfold load.
  eapply finishes_bind; [eapply finishes_bind; [apply finishes_sync|apply finishes_wrapping; by apply finishes_call]|].
  assert (journal_file (map_to_list (tidy lk n f)).*1 "" = Ok n) as ->.
  { assert ((map_to_list (tidy lk n f)).*1 ≡ₚ [n; journalLockName]) as Hperm.
    { unfold tidy. rewrite map_to_list_insert by (by rewrite lookup_singleton_ne). by rewrite map_to_list_singleton. }
    pose proof (proj2 (journal_name_dec n) Hn) as Hj. rewrite <- String.eqb_neq in Hl.
    apply Permutation_sym, Permutation_length_2_inv in Hperm as [-> | ->]; cbn [journal_file];
      rewrite ?String.eqb_refl, Hl, Hj; done. }
  eapply finishes_bind; [apply finishes_lift|]. eapply finishes_bind; [apply finishes_guard; by apply is_empty_false|].
  eapply finishes_bind.
  { unfold readOwnerFile. eapply finishes_bind.
    { apply finishes_guard. rewrite (proj2 (is_empty_false n) Hne), (terminal_name_slash n Hn). done. }
    eapply finishes_bind; [by apply finishes_wrapping, finishes_stat; rewrite Hlook|]. eapply finishes_bind; [apply finishes_sync|].
    eapply finishes_bind; [apply finishes_guard; by rewrite Hf|]. cbv zeta.
    eapply finishes_bind; [apply finishes_attempt, finishes_sync|]. eapply finishes_bind; [apply finishes_lift|].
    eapply finishes_bind; [apply finishes_guard, Z.ltb_ge; by eapply parse_bound|].
    eapply finishes_bind; [apply finishes_attempt, finishes_stat; by rewrite Hlook|]. eapply finishes_bind; [apply finishes_lift|]. apply finishes_ret. }
  rewrite Hp. eapply finishes_bind; [apply finishes_lift|]. eapply (finishes_bind _ _ ()); [|apply finishes_ret].
  destruct (validTerminalName n) eqn:Ev; [|apply finishes_ret].
  destruct (terminalOperation_valid n Ev) as (op & -> & Hop & _). eapply finishes_bind; [apply finishes_lift|].
  apply finishes_guard. by apply is_empty_false.
Qed.

Lemma finishes_write d l n f content :
  d !! n = Some f → finishes (Some d, l) (jwrite tm n content) (Ok ())
    (Some (<[n := {| jf_content := content; jf_safe := f.(jf_safe) |}]> d), l).
Proof.
  intros Hf w Hs. unfold jwrite. rewrite <- (tw_tick _ _ _ w) in Hs. set (w1 := tm_tick tm w) in *. rewrite (qt_fault Hq).
  injection Hs as Hd <-. rewrite Hd. eexists. split; [done|]. rewrite (tw_put _ _ _). do 2 f_equal. apply map_eq. intros m.
  destruct (decide (m = n)) as [->|Hne].
  - by rewrite lookup_alter_eq, Hf, lookup_insert_eq.
  - by rewrite lookup_alter_ne, lookup_insert_ne.
Qed.

Definition written (payload : string) : jfile := {| jf_content := payload; jf_safe := true |}.

Lemma finishes_publish lk n f j payload l :
  journal_name n → journal_canonical j = Ok payload →
  finishes (Some (tidy lk n f), l) (publishJournal tm j n) (Ok ()) (Some (tidy lk n (written payload)), l).
Proof.
  intros Hn Hc. destruct (tidy_lookup lk n f Hn) as (_ & Hs & _). pose proof (journal_name_private _ Hn) as (_ & Hns & _).
  unfold publishJournal. eapply finishes_bind.
  { apply finishes_guard. apply journal_name_dec in Hn. by rewrite <- negb_orb, Hn. }
  rewrite Hc. eapply finishes_bind; [apply finishes_lift|].
  eapply finishes_bind; [apply finishes_recoverStage; by rewrite Hs|]. rewrite delete_id by done.
  eapply finishes_bind; [apply finishes_wrapping, finishes_call; by rewrite Hs|].
  eapply finishes_bind; [apply finishes_attempt; unfold fill_stage|].
  { eapply finishes_bind; [apply finishes_wrapping, finishes_write, lookup_insert_eq|]. cbn [jf_safe]. rewrite insert_insert_eq.
    eapply finishes_bind; [apply finishes_wrapping, finishes_sync|]. eapply finishes_bind; [apply finishes_wrapping, finishes_sync|].
    apply finishes_wrapping, finishes_call. rewrite lookup_insert_eq. done. }
  cbv beta iota. rewrite delete_insert_id by done. unfold tidy. rewrite insert_insert_eq. apply finishes_sync.
Qed.

Lemma finishes_markTerminal lk f j op l :
  tidy_journal lk journalActiveName f j → validTerminalName (terminalName op) = true →
  is_some (strip_prefix admissionOperationPrefix op) = true →
  finishes (Some (tidy lk journalActiveName f), l) (markTerminal tm (journal_at journalActiveName f j) op)
    (Ok (journal_at (terminalName op) f j)) (Some (tidy lk (terminalName op) f), l).
Proof.
  intros Hj Hv Hop. assert (tidy_journal lk (terminalName op) f j) as Hj'.
  { destruct Hj. split; [by right|done|done|done]. }
  assert (terminalName op ≠ journalActiveName) as Hne by (intros E; by rewrite E in Hv).
  destruct (tidy_lookup lk journalActiveName f (tj_name _ _ _ _ Hj)) as (_ & _ & Hf).
  destruct (journal_name_private (terminalName op) (tj_name _ _ _ _ Hj')) as (Hnl & _).
  unfold markTerminal. eapply finishes_bind; [apply finishes_guard; by rewrite Hop|].
  eapply finishes_bind; [by apply finishes_load|]. eapply finishes_bind; [apply finishes_guard, negb_false_iff, same_file_true; done|].
  cbv zeta. eapply finishes_bind; [by apply finishes_attempt, finishes_stat|].
  assert (tidy lk journalActiveName f !! terminalName op = None) as ->.
  { unfold tidy. by rewrite lookup_insert_ne, lookup_singleton_ne. }
  cbn [of_option]. eapply finishes_bind; [by apply finishes_guard|].
  eapply finishes_bind; [apply finishes_wrapping, finishes_call; by rewrite Hf|].
  assert (<[terminalName op := f]> (delete journalActiveName (tidy lk journalActiveName f)) = tidy lk (terminalName op) f) as ->.
  { unfold tidy. by rewrite delete_insert_id by (by rewrite lookup_singleton_ne). }
  eapply finishes_bind; [apply finishes_wrapping, finishes_sync|]. eapply finishes_bind; [by apply finishes_attempt, finishes_load|].
  eapply finishes_bind; [apply finishes_lift|]. eapply finishes_bind; [apply finishes_guard|apply finishes_ret].
  cbn [journal_at cj_fileName cj_fileDigest]. rewrite String.eqb_refl. by rewrite bool_decide_eq_true_2.
Qed.

Lemma finishes_markPresented lk n f j l :
  tidy_journal lk n f j → validTerminalName n = true → j.(cj_CurrentOperation) ≠ "" →
  ∃ f', tidy_journal lk n f' (presented_journal j) ∧
    finishes (Some (tidy lk n f), l) (markPresented tm (journal_at n f j)) (Ok (journal_at n f' (presented_journal j)))
      (Some (tidy lk n f'), l).
Proof.
  intros Hj Hv Hop. pose proof (tj_parse _ _ _ _ Hj) as Hp. apply parseClientJournal_Ok in Hp as (Hok & _ & _).
  apply presented_journal_ok in Hok. pose proof (journal_canonical_ok _ Hok) as Hc.
  pose proof (parseClientJournal_canonical _ _ Hok Hc) as Hp. set (payload := _ +:+ newline) in Hc, Hp. clearbody payload.
  assert (tidy_journal lk n (written payload) (presented_journal j)) as Hj' by (destruct Hj; by split).
  exists (written payload). split; [done|]. unfold markPresented.
  assert (IsZero j.(cj_CurrentOperation) = false) as Hz by (by apply is_empty_false).
  eapply finishes_bind; [apply finishes_guard; cbn; by rewrite Hv, Hz|]. eapply finishes_bind; [by apply finishes_load|].
  eapply finishes_bind; [apply finishes_guard, orb_false_iff; split; [apply negb_false_iff, same_file_true; done|done]|].
  eapply finishes_bind; [apply finishes_publish; [apply (tj_name _ _ _ _ Hj)|exact Hc]|].
  eapply finishes_bind; [by apply finishes_attempt, finishes_load|]. eapply finishes_bind; [apply finishes_lift|].
  eapply finishes_bind; [apply finishes_guard|apply finishes_ret]. cbn. by rewrite String.eqb_refl.
Qed.

Lemma finishes_remove lk n f j l :
  tidy_journal lk n f j →
  finishes (Some (tidy lk n f), l) (jd_remove tm (journal_at n f j)) (Ok ()) (Some {[journalLockName := lk]}, l).
Proof.
  intros Hj. pose proof (tj_name _ _ _ _ Hj) as Hn. pose proof (journal_name_private _ Hn) as (Hl & _ & Hne).
  destruct (tidy_lookup lk n f Hn) as (_ & _ & Hf). unfold jd_remove.
  eapply finishes_bind; [apply finishes_guard; by apply is_empty_false|]. eapply finishes_bind; [by apply finishes_load|].
  eapply finishes_bind; [apply finishes_guard, negb_false_iff, same_file_true; done|].
  eapply finishes_bind; [apply finishes_wrapping, finishes_call; cbn [journal_at cj_fileName]; by rewrite Hf|].
  cbn [journal_at cj_fileName]. unfold tidy. rewrite delete_insert_id by (by rewrite lookup_singleton_ne). apply finishes_sync.
Qed.

(** ** The command *)

Lemma finishes_silent d l (m : io W ()) :
  replies tm log m (λ _, []) → (∀ w, is_ok (fst (m w)) = true) → finishes (d, l) m (Ok ()) (d, l).
Proof. intros Hm Hok. pose proof (finishes_reply_unit d l m _ Hm Hok) as H. by rewrite app_nil_r in H. Qed.

Lemma finishes_unavailable d l message (m : io W ()) :
  replies tm log m (λ _, []) → (∀ w, is_ok (fst (m w)) = true) → finishes (d, l) (unavailable message m) (Ok ()) (d, l).
Proof. intros Hm Hok. eapply finishes_bind; [by apply finishes_attempt, finishes_silent|]. apply finishes_lift. Qed.

Lemma finishes_print d l line : finishes (d, l) (tm.(tm_print) line) (Ok ()) (d, l ++ [Printed line]).
Proof. apply (finishes_reply_unit d l _ (λ _, [Printed line])); [apply (tw_print _ _ _)|apply (qt_print Hq)]. Qed.
Lemma finishes_End d l a : finishes (d, l) (tm.(tm_client).(cl_End) a) (Ok ()) (d, l ++ [Ended a]).
Proof. apply (finishes_reply_unit d l _ (λ _, [Ended a])); [apply (tw_End _ _ _)|apply (qt_End Hq)]. Qed.

Lemma finishes_prepare d n f j l lk :
  dir_inv d → locked d = tidy lk n f → tidy_journal lk n f j →
  finishes (Some d, l) (prepare tm commandSubmit) (Ok ()) (Some (tidy lk n f), l).
Proof.
  intros Hi Hl Hj. unfold prepare. eapply finishes_bind; [apply finishes_unavailable; [apply (tw_workspace _ _ _)|apply (qt_workspace Hq)]|].
  eapply (finishes_bind _ _ () (Some (tidy lk n f), l)).
  { unfold preflightJournal. eapply (finishes_bind _ _ (Ok true) (Some (tidy lk n f), l));
      [apply finishes_attempt|eapply finishes_bind; [apply finishes_lift|by apply finishes_guard]].
    unfold journal_exists. eapply (finishes_bind _ _ (Ok true)); [apply finishes_attempt, finishes_withLock; [done|]|apply finishes_ret].
    rewrite Hl. eapply finishes_bind; [by apply finishes_attempt, finishes_load|]. apply finishes_ret. }
  eapply finishes_bind; [apply finishes_unavailable; [apply (tw_ensureDaemon _ _ _)|apply (qt_ensureDaemon Hq)]|].
  eapply finishes_bind; [apply finishes_attempt, finishes_silent; [apply (tw_newClient _ _ _)|apply (qt_newClient Hq)]|]. apply finishes_lift.
Qed.

Section submit.
Context (lk : jfile) (n : string) (f : jfile) (j : journal) (i : AgentIntent) (cs : list candidateBinding).
Context (op : OperationKey) (r : string).
Hypothesis Hj : tidy_journal lk n f j.
Hypothesis Hsubmit : submit_operation (journal_at n f j) i = Ok (cs, op).
Hypothesis Hanswer : ∀ w,
  fst (tm.(tm_client).(cl_Submit) j.(cj_Attachment) j.(cj_CurrentOperation) op i.(ai_canonical) cs w) = Ok r.
Hypothesis Hr : accepted r.

Definition answer : event := Answered j.(cj_Attachment) j.(cj_CurrentOperation) op i.(ai_canonical) cs r.

Lemma finishes_Submit d l :
  finishes (d, l) (tm.(tm_client).(cl_Submit) j.(cj_Attachment) j.(cj_CurrentOperation) op i.(ai_canonical) cs) (Ok r) (d, l ++ [answer]).
Proof.
  intros w Hs. pose proof (tw_Submit tm log _ j.(cj_Attachment) j.(cj_CurrentOperation) op i.(ai_canonical) cs w) as Hm.
  specialize (Hanswer w). destruct (cl_Submit _ _ _ _ _ _ w) as [x w']. cbn [fst snd] in *. subst x. exists w'.
  split; [done|]. injection Hs as <- <-. exact Hm.
Qed.

Lemma finishes_submit_section l :
  finishes (Some (tidy lk n f), l) (submit_section tm i) (Ok (r, Some (journal_at (terminalName op) f j)))
    (Some (tidy lk (terminalName op) f), l ++ [answer]).
Proof.
  destruct (submit_operation_Ok _ _ _ _ Hsubmit) as (_ & Hd & Hn). cbn [journal_at cj_journal cj_fileName] in Hd, Hn.
  destruct (terminalOperation_name _ _ _ _ Hd) as [Hv _]. unfold submit_section.
  eapply finishes_bind; [by apply finishes_load|]. rewrite Hsubmit. eapply finishes_bind; [apply finishes_lift|].
  cbn [journal_at cj_journal cj_fileName]. eapply finishes_bind; [apply finishes_Submit|]. unfold accepted in Hr. rewrite Hr.
  eapply finishes_bind; [apply finishes_lift|]. cbv zeta. rewrite bool_decide_eq_true_2 by done.
  eapply finishes_bind; [apply finishes_guard; by rewrite andb_false_r|]. cbn [andb].
  eapply finishes_bind; [|apply finishes_ret].
  destruct (String.eqb n journalActiveName) eqn:E.
  - apply String.eqb_eq in E. clear Hn. revert Hj. rewrite E. intros Hj'. eapply finishes_bind; [|apply finishes_ret].
    apply finishes_markTerminal; [done|done|]. apply deriveAdmissionOperation_Ok in Hd as (t & _ & ->). by rewrite strip_prefix_app.
  - assert (validTerminalName n = true) as Ev.
    { apply String.eqb_neq in E. by destruct (tj_name _ _ _ _ Hj). }
    rewrite Ev, <- (Hn Ev). apply finishes_ret.
Qed.

Lemma finishes_finish l :
  tidy_journal lk n f j → validTerminalName n = true → j.(cj_CurrentOperation) ≠ "" →
  finishes (Some (tidy lk n f), l) (finishPresentedReceipt tm (journal_at n f j)) (Ok ())
    (Some {[journalLockName := lk]}, l ++ [Ended j.(cj_Attachment)]).
Proof.
  intros Hjn Hv Hop. destruct (finishes_markPresented lk n f j l Hjn Hv Hop) as (f' & Hj' & Hp).
  pose proof (tj_name _ _ _ _ Hjn) as Hn. unfold finishPresentedReceipt.
  eapply finishes_bind; [apply finishes_attempt, finishes_withLock; [by eapply tidy_inv|rewrite locked_self by done; exact Hp]|].
  cbv beta iota. eapply finishes_bind; [apply finishes_attempt, finishes_End|].
  eapply finishes_bind; [apply finishes_attempt, finishes_withLock; [by eapply tidy_inv|]|apply finishes_ret].
  rewrite locked_self by done. by apply finishes_remove.
Qed.
End submit.

(** A whole [agent submit]. *)
Lemma finishes_submit d n f j raw i cs op r l :
  dir_inv d → journal_name n → d !! n = Some f → parseClientJournal f.(jf_content) = Ok (j, Sum f.(jf_content)) →
  raw ≠ "" → slen raw <= maxIntentInputBytes → ParseAgentIntentJSON raw = Ok i →
  submit_operation (journal_at n f j) i = Ok (cs, op) →
  (∀ w, fst (tm.(tm_client).(cl_Submit) j.(cj_Attachment) j.(cj_CurrentOperation) op i.(ai_canonical) cs w) = Ok r) →
  accepted r →
  ∃ lk, finishes (Some d, l) (terminal_run tm ["agent"; "submit"; "--json"] (Ok raw)) (Ok 0)
    (Some {[journalLockName := lk]}, ((l ++ [answer j i cs op r]) ++ [Printed (r +:+ newline)]) ++ [Ended j.(cj_Attachment)]).
Proof.
  intros Hi Hn Hf Hp Hraw Hlen Hint Hsub Hans Hr. destruct (locked_tidy d n f Hi Hn Hf) as (lk & Hlk & El). exists lk.
  assert (tidy_journal lk n f j) as Hj by (split; [done|done|by apply (di_names _ Hi _ _ Hf)|done]).
  destruct (submit_operation_Ok _ _ _ _ Hsub) as (_ & Hd & _). cbn [journal_at cj_journal cj_fileName] in Hd.
  destruct (terminalOperation_name _ _ _ _ Hd) as [Hv _].
  assert (tidy_journal lk (terminalName op) f j) as Hj' by (destruct Hj; split; [by right|done|done|done]).
  change (terminal_run tm ["agent"; "submit"; "--json"] (Ok raw)) with
    (prepared ← attempt (prepare tm commandSubmit);
     match prepared with Err e => writeError tm e | Ok _ => runSubmit tm (Ok raw) end).
  eapply finishes_bind; [by apply finishes_attempt; eapply finishes_prepare|]. cbv beta iota.
  unfold runSubmit, readBoundedInput. cbn [or_error mbind result_bind].
  rewrite (proj2 (Z.ltb_ge _ _) Hlen), (proj2 (is_empty_false _) Hraw). cbn [fail_if mbind result_bind]. rewrite Hint.
  eapply finishes_bind; [apply finishes_attempt, finishes_withLock; [by eapply tidy_inv|]|].
  { rewrite locked_self by done. by apply finishes_submit_section. }
  cbv beta iota. eapply finishes_bind.
  { unfold writeCanonicalProjection. rewrite (receipt_shape _ _ Hr). cbn [negb]. unfold write_line.
    eapply finishes_bind; [apply finishes_attempt, finishes_print|]. apply finishes_ret. }
  cbn [is_ok Z.eqb negb]. eapply finishes_bind; [|apply finishes_ret]. apply finishes_finish; [done|done|by eapply derive_current].
Qed.
End calm.
