(* ===== verification/ArtifactText.v ===== *)
(** The text of an Artifact an agent may read (internal/agency/artifact_projection.go):
    bounded UTF-8 without control or format characters. *)

From Stdlib Require Import Lia.
From S2P Require Import Prelude Utf8 Json Wire Value.

#[local] Open Scope N_scope.

Definition MaxAgentArtifactReadBytes : Z := Z.shiftl 64 10.

(** [unicode.IsControl]: category Cc. *)
Definition is_control (c : N) : bool := (c <? 0x20) || ((0x7f <=? c) && (c <? 0xa0)).

(** [unicode.Cf], the ranges of the format characters. *)
Definition format_ranges : list (N * N) := [
  (0xad, 0xad); (0x600, 0x605); (0x61c, 0x61c); (0x6dd, 0x6dd); (0x70f, 0x70f); (0x890, 0x891); (0x8e2, 0x8e2);
  (0x180e, 0x180e); (0x200b, 0x200f); (0x202a, 0x202e); (0x2060, 0x2064); (0x2066, 0x206f); (0xfeff, 0xfeff);
  (0xfff9, 0xfffb); (0x110bd, 0x110bd); (0x110cd, 0x110cd); (0x13430, 0x1343f); (0x1bca0, 0x1bca3);
  (0x1d173, 0x1d17a); (0xe0001, 0xe0001); (0xe0020, 0xe007f)].
Definition is_format (c : N) : bool := existsb (λ '(lo, hi), (lo <=? c) && (c <=? hi)) format_ranges.

(** What the loop over the runes refuses. *)
Definition unsafe_rune (c : N) : bool :=
  negb ((c =? 10) || (c =? 13) || (c =? 9)) && (is_control c || is_format c).

(** The runes of a valid text, each at least one byte. *)
Fixpoint runes_fuel (fuel : nat) (s : string) : list N :=
  match fuel with
  | O => []
  | S fuel => match decode_rune s with Some (c, rest) => c :: runes_fuel fuel rest | None => [] end
  end.
Definition runes (s : string) : list N := runes_fuel (String.length s) s.

Definition ValidateAgentArtifactText (content : string) : result () :=
  _ ← fail_if (MaxAgentArtifactReadBytes <? slen content)%Z
        (limit "Agent Artifact read" (slen content) MaxAgentArtifactReadBytes);
  _ ← fail_if (negb (valid_utf8 content)) (invalid "Agent Artifact read" "must be valid UTF-8");
  fail_if (existsb unsafe_rune (runes content)) (invalid "Agent Artifact read" "contains an unsafe control character").

(** ** What is accepted *)

Fixpoint encode_runes (cs : list N) : string :=
  match cs with [] => "" | c :: cs => encode_rune c +:+ encode_runes cs end.

Lemma runes_fuel_encode fuel s :
  (String.length s <= fuel)%nat → valid_utf8_fuel fuel s = true → encode_runes (runes_fuel fuel s) = s.
Proof.
  revert s. induction fuel as [|fuel IH]; intros s Hl; [by destruct s; [|cbn in Hl; lia]|].
  destruct s as [|a s]; [by destruct fuel|]. cbn [valid_utf8_fuel runes_fuel].
  destruct (decode_rune (String a s)) as [[c rest]|] eqn:E; [|done]. intros Hv.
  pose proof (decode_rune_shorter _ _ _ E). apply decode_rune_inv in E as [-> _]. cbn [encode_runes].
  rewrite IH; [done|cbn in *; lia|done].
Qed.

(** Accepted content is the encoding of code points none of which moves a terminal's
    cursor, hides text or reorders it; it is at most 64 KiB. *)
Lemma ValidateAgentArtifactText_Ok content :
  ValidateAgentArtifactText content = Ok () →
  (slen content <= MaxAgentArtifactReadBytes)%Z ∧ valid_utf8 content = true ∧
  ∃ cs, content = encode_runes cs ∧ ∀ c, c ∈ cs → unsafe_rune c = false.
Proof.
  unfold ValidateAgentArtifactText. intros H. apply bind_Ok in H as ([] & Hl%fail_if_Ok%Z.ltb_ge & H).
  apply bind_Ok in H as ([] & Hv%fail_if_Ok%negb_false_iff & H%fail_if_Ok). split_and!; [done|done|].
  exists (runes content). split; [symmetry; by apply runes_fuel_encode|]. intros c Hc.
  destruct (unsafe_rune c) eqn:E; [|done]. rewrite (proj2 (List.existsb_exists _ _)) in H; [done|].
  exists c. split; [by apply list_elem_of_In|done].
Qed.
