(* ===== verification/Bind.v ===== *)
(** Intent binding (internal/agency/authority/bind.go): the cut from opaque View
    handles to machine identities, fences, routes and digests. *)

From Stdlib Require Import Lia.
From S2P Require Import Prelude Utf8 Json Wire Sha256 Time Value Intent Bound Event View.

#[local] Open Scope Z_scope.
#[local] Arguments String.append : simpl nomatch.

(** The category sentinels of value.go, as [errors.Is] targets. *)
Definition ErrInvalid_sentinel : error := Sentinel "agency: invalid value".
Definition ErrLimit_sentinel : error := Sentinel "agency: limit exceeded".
Definition ErrInvariant_sentinel : error := Sentinel "agency: invariant violated".

Definition bindInvalid (problem : string) : error :=
  Wrapped ("Intent binding: " +:+ problem) ErrInvalid_sentinel.
Definition bindInvariant (problem : string) : error :=
  Wrapped ("Intent binding: " +:+ problem) ErrInvariant_sentinel.

Definition terminalConsequence (value : Consequence) : bool :=
  bool_decide (value = ConsequenceResolveCompleted) ||
  bool_decide (value = ConsequenceResolveDeclined) ||
  bool_decide (value = ConsequenceResolveUnresolved).

Definition bindSubjectOrReference (view : ViewAuthority) (intent : AgentIntent)
    : result (option SubjectBinding * option ReferenceExpectation) :=
  match intent.(ai_consequence) with
  | ConsequenceAdvanceHandling | ConsequenceResolveCompleted
  | ConsequenceResolveDeclined | ConsequenceResolveUnresolved =>
      subject ← of_option (ResolveSubject view intent.(ai_subjectHandling))
        (bindInvariant "subject handle was not offered by the View");
      Ok (Some subject, None)
  | ConsequencePublishReference =>
      expected ← ExpectAbsentReference intent.(ai_referenceKey);
      Ok (None, Some expected)
  | ConsequenceSupersedeReference | ConsequenceRetractReference =>
      expected ← of_option (ResolveReference view intent.(ai_referenceHead))
        (bindInvariant "Reference head was not offered by the View");
      Ok (None, Some expected)
  | _ => Ok (None, None)
  end.

Definition bindTargets (view : ViewAuthority) (requested : list TargetRef)
    : result (list ResolvedTarget) :=
  parse_distinct
    (λ target, of_option (ResolveTarget view target)
      (bindInvariant "successor target was not offered by the View"))
    destinationKey (bindInvariant "successors resolve to a duplicate destination") [] requested.

(** The first loop of [bindArtifacts]: the captures indexed by handle. *)
Definition capture_candidate (operation : OperationKey)
    (captured : gmap string CapturedCandidate) (candidate : CapturedCandidate)
    : result (gmap string CapturedCandidate) :=
  let input := candidate.(cc_input) in
  _ ← fail_if (negb (bool_decide (candidate.(cc_operation) = operation)) ||
               negb (bool_decide (input.(ain_kind) = ArtifactInputCandidate)) ||
               IsZero input.(ain_handle) || Digest_IsZero candidate.(cc_digest))
        (bindInvalid "candidate capture is incomplete or belongs to another operation");
  _ ← fail_if (is_some (captured !! input.(ain_handle)))
        (bindInvalid "candidate captures contain a duplicate handle");
  Ok (<[input.(ain_handle) := candidate]> captured).

(** The digest behind one Artifact input. *)
Definition resolve_artifact_input (view : ViewAuthority)
    (captured : gmap string CapturedCandidate) (input : ArtifactInput) : result Digest :=
  match input.(ain_kind) with
  | ArtifactInputCandidate =>
      let missing := bindInvariant "Artifact candidate was not captured for this operation" in
      candidate ← of_option (captured !! input.(ain_handle)) missing;
      _ ← fail_if (negb (bool_decide (candidate.(cc_input) = input))) missing;
      Ok candidate.(cc_digest)
  | ArtifactInputViewHandle => ResolveOfferedArtifact view input.(ain_handle)
  | ArtifactInputInvalid => Err (bindInvalid "Artifact input kind is invalid")
  end.

Definition bind_artifact_input (view : ViewAuthority) (captured : gmap string CapturedCandidate)
    (input : ArtifactInput) : result ResolvedArtifact :=
  digest ← resolve_artifact_input view captured input;
  NewResolvedArtifact input digest.

Definition used_candidates (inputs : list ArtifactInput) : Z :=
  lenZ (filter (λ i, ain_kind i = ArtifactInputCandidate) inputs).

Definition bindArtifacts (view : ViewAuthority) (inputs : list ArtifactInput)
    (operation : OperationKey) (candidates : list CapturedCandidate)
    : result (list ResolvedArtifact) :=
  captured ← foldR (capture_candidate operation) ∅ candidates;
  resolved ← mapR (bind_artifact_input view captured) inputs;
  _ ← fail_if (negb (used_candidates inputs =? Z.of_nat (size captured)))
        (bindInvariant "candidate captures contain an unused input");
  Ok resolved.

Definition bindProvenance (view : ViewAuthority) (handles : list OpaqueHandle)
    (correlationHandle : OpaqueHandle) : result (list EventRef * EventRef) :=
  causation ← mapR (λ handle, of_option (ResolveProvenance view handle)
    (bindInvariant "causation handle was not offered by the View")) handles;
  correlation ← (if IsZero correlationHandle then Ok zero_EventRef
    else of_option (ResolveProvenance view correlationHandle)
           (bindInvariant "correlation handle was not offered by the View"));
  Ok (causation, correlation).

Definition exactReply (view : ViewAuthority) (intent : AgentIntent)
    (targets : list ResolvedTarget) (correlation : EventRef) : bool :=
  match View_ReplyContext view, targets with
  | Some reply, [target] =>
      negb (TargetRef_IsZero reply.(rx_target)) && negb (DeliveryID_IsZero reply.(rx_delivery)) &&
      terminalConsequence intent.(ai_consequence) &&
      bool_decide (intent.(ai_correlationHandle) = reply.(rx_to)) &&
      negb (EventRef_IsZero correlation) &&
      bool_decide (target.(rt_destination) = TargetDestinationRemote) &&
      bool_decide (target.(rt_requested) = reply.(rx_target)) &&
      bool_decide (ResolveProvenance view reply.(rx_to) = Some correlation)
  | _, _ => false
  end.

Definition requireLocalResponsibility (view : ViewAuthority) (intent : AgentIntent)
    (targets : list ResolvedTarget) (correlation : EventRef) : result () :=
  let remote := existsb (λ t, bool_decide (t.(rt_destination) = TargetDestinationRemote)) targets in
  let local := existsb (λ t, bool_decide (t.(rt_destination) = TargetDestinationLocal)) targets in
  if negb remote || bool_decide (intent.(ai_consequence) = ConsequenceAdvanceHandling) ||
     exactReply view intent targets correlation
  then Ok ()
  else fail_if ((bool_decide (intent.(ai_consequence) = ConsequenceCreateHandlings) ||
                 terminalConsequence intent.(ai_consequence)) && negb local)
         (bindInvariant "remote request must leave one causal local Handling open").

(** The Delivery an Intent replies to: the View's reply binding, when the Intent
    is its exact reply. *)
Definition reply_delivery (view : ViewAuthority) (intent : AgentIntent)
    (targets : list ResolvedTarget) (correlation : EventRef) : DeliveryID :=
  if exactReply view intent targets correlation then
    match View_ReplyContext view with
    | Some reply => reply.(rx_delivery)
    | None => zero_DeliveryID
    end
  else zero_DeliveryID.

Definition bindIntent (view : ViewAuthority) (intent : AgentIntent) (operation : OperationKey)
    (candidates : list CapturedCandidate) : result BoundIntent :=
  _ ← fail_if (IsZero operation || is_empty intent.(ai_canonical) || Digest_IsZero view.(va_digest))
        (bindInvalid "complete Intent, operation, and sealed View are required");
  _ ← fail_if (negb (Allows view intent.(ai_consequence)))
        (bindInvariant "consequence was not offered by the View");
  _ ← fail_if (bool_decide (intent.(ai_consequence) = ConsequenceCreateHandlings) &&
               negb view.(va_attachment).(at_mayInitiate))
        (bindInvariant "Attachment may not initiate root responsibility");
  '(subject, expectedReference) ← bindSubjectOrReference view intent;
  targets ← bindTargets view intent.(ai_successors);
  artifacts ← bindArtifacts view intent.(ai_artifacts) operation candidates;
  '(causation, correlation) ← bindProvenance view intent.(ai_causationHandles)
    intent.(ai_correlationHandle);
  _ ← requireLocalResponsibility view intent targets correlation;
  NewBoundIntent {|
    bs_Intent := intent; bs_OperationKey := operation; bs_Attachment := view.(va_attachment);
    bs_ViewDigest := view.(va_digest); bs_Subject := subject;
    bs_ExpectedReference := expectedReference; bs_Targets := targets; bs_Artifacts := artifacts;
    bs_Causation := causation; bs_Correlation := correlation;
    bs_InReplyToDelivery := reply_delivery view intent targets correlation |}.

(** ** What binding guarantees *)

(** Every machine value of the bound request was offered by the View (or
    captured for this very operation), selected by the Intent's own handles. *)
Record bound_by_view (view : ViewAuthority) (intent : AgentIntent) (operation : OperationKey)
    (candidates : list CapturedCandidate) (b : BoundIntent) : Prop := {
  bv_intent : b.(bi_intent) = intent;
  bv_operation : b.(bi_operationKey) = operation;
  bv_attachment : b.(bi_attachment) = view.(va_attachment);
  bv_view : b.(bi_viewDigest) = view.(va_digest);
  bv_allowed : intent.(ai_consequence) ∈ view.(va_consequences);
  bv_initiate : intent.(ai_consequence) = ConsequenceCreateHandlings →
    view.(va_attachment).(at_mayInitiate) = true;
  bv_subject : ∀ s, b.(bi_subject) = Some s →
    view.(va_subjects) !! intent.(ai_subjectHandling) = Some s;
  bv_reference : ∀ e, b.(bi_expectedReference) = Some e →
    (intent.(ai_consequence) = ConsequencePublishReference ∧
     ExpectAbsentReference intent.(ai_referenceKey) = Ok e) ∨
    view.(va_references) !! intent.(ai_referenceHead) = Some e;
  bv_targets : Forall2 (λ t r, view.(va_targets) !! TargetRef_canonicalKey t = Some r)
    intent.(ai_successors) b.(bi_targets);
  bv_targets_distinct : NoDup (map destinationKey b.(bi_targets));
  bv_artifacts : Forall (λ a,
    (∃ o, view.(va_artifacts) !! a.(ra_input).(ain_handle) = Some o ∧ o.(vao_digest) = a.(ra_digest)) ∨
    (∃ c, c ∈ candidates ∧ c.(cc_operation) = operation ∧ c.(cc_input) = a.(ra_input) ∧
          c.(cc_digest) = a.(ra_digest))) b.(bi_resolvedArtifacts);
  bv_causation : Forall2 (λ h e, view.(va_provenance) !! h = Some e)
    intent.(ai_causationHandles) b.(bi_causation);
  bv_correlation : if is_empty intent.(ai_correlationHandle) then b.(bi_correlation) = zero_EventRef
    else view.(va_provenance) !! intent.(ai_correlationHandle) = Some b.(bi_correlation);
  bv_reply : b.(bi_inReplyToDelivery) = reply_delivery view intent b.(bi_targets) b.(bi_correlation);
  bv_local : requireLocalResponsibility view intent b.(bi_targets) b.(bi_correlation) = Ok ();
  bv_structure : ∃ spec, NewBoundIntent spec = Ok b;
}.

Lemma NewBoundIntent_Ok spec b :
  NewBoundIntent spec = Ok b →
  validateResolvedBoundIntent spec = Ok () ∧ NoDup b.(bi_artifacts) ∧
  b = bound_of_spec spec (sortDigests (map ra_digest spec.(bs_Artifacts))) b.(bi_digest) b.(bi_canonical) ∧
  b.(bi_digest) = Sum (canonical_bytes (requestWire b)) ∧
  b.(bi_canonical) = canonical_bytes (bound_wire b).
Proof.
  unfold NewBoundIntent, canonicalJSON. intros H. apply bind_Ok in H as ([] & _ & H).
  apply bind_Ok in H as ([] & Hv & H). cbv zeta in H. apply bind_Ok in H as ([] & Hd & H).
  cbn [mbind result_bind] in H. injection H as <-. apply fail_if_Ok in Hd.
  split_and!; [done| |done|done|done].
  pose proof digest_sort_antisym.
  apply (has_adjacent_dup_NoDup (key_le Digest_String)); [apply sort_by_sorted|exact Hd].
Qed.

Lemma resolve_handle_Some {V} (m : gmap string V) h v :
  resolve_handle m h = Some v → m !! h = Some v ∧ h ≠ "".
Proof.
  unfold resolve_handle. destruct (IsZero h) eqn:E; [done|]. apply is_empty_false in E. done.
Qed.

Lemma capture_candidates_from operation m candidates m' :
  foldR (capture_candidate operation) m candidates = Ok m' →
  (∀ h c, m !! h = Some c → c.(cc_operation) = operation) →
  ∀ h c, m' !! h = Some c → m !! h = Some c ∨ (c ∈ candidates ∧ c.(cc_operation) = operation).
Proof.
  revert m. induction candidates as [|x xs IH]; intros m H Hm h c Hc; cbn [foldR] in H.
  { injection H as <-. by left. }
  apply bind_Ok in H as (m1 & H1 & H). unfold capture_candidate in H1. inv_res.
  destruct (IH _ H) with h c as [Hin|[Hin Hop]]; [|done| |].
  - intros h' c' Hl. destruct (decide (h' = ain_handle (cc_input x))) as [->|Hne].
    + rewrite lookup_insert_eq in Hl. by simplify_eq.
    + rewrite lookup_insert_ne in Hl by done. by eapply Hm.
  - destruct (decide (h = ain_handle (cc_input x))) as [->|Hne].
    + rewrite lookup_insert_eq in Hin. simplify_eq. right. split; [constructor|done].
    + rewrite lookup_insert_ne in Hin by done. by left.
  - right. split; [by constructor|done].
Qed.

Lemma bind_artifact_input_Ok view operation candidates captured input a :
  foldR (capture_candidate operation) ∅ candidates = Ok captured →
  bind_artifact_input view captured input = Ok a →
  (∃ o, view.(va_artifacts) !! a.(ra_input).(ain_handle) = Some o ∧ o.(vao_digest) = a.(ra_digest)) ∨
  (∃ c, c ∈ candidates ∧ c.(cc_operation) = operation ∧ c.(cc_input) = a.(ra_input) ∧
        c.(cc_digest) = a.(ra_digest)).
Proof.
  intros Hcap H. unfold bind_artifact_input, NewResolvedArtifact in H.
  apply bind_Ok in H as (d & Hd & H). apply bind_Ok in H as ([] & _ & H). injection H as <-.
  cbn [ra_input ra_digest]. unfold resolve_artifact_input in Hd.
  destruct (ain_kind input); [done| |].
  - right. cbv zeta in Hd. apply bind_Ok in Hd as (c & Hc & Hd).
    apply of_option_Ok in Hc. apply bind_Ok in Hd as ([] & Hi & Hd).
    injection Hd as <-. rewrite fail_if_Ok, negb_false_iff, bool_decide_eq_true in Hi. subst input.
    destruct (capture_candidates_from _ _ _ _ Hcap) with (h := ain_handle (cc_input c)) (c := c)
      as [Hl|[Hl Hop]]; [by intros ? ? ?%lookup_empty_Some|done|by apply lookup_empty_Some in Hl|].
    by exists c.
  - left. unfold ResolveOfferedArtifact in Hd. inv_res. eauto.
Qed.

Lemma bindIntent_bound view intent operation candidates b :
  bindIntent view intent operation candidates = Ok b →
  bound_by_view view intent operation candidates b.
Proof.
  unfold bindIntent. intros H. apply bind_Ok in H as ([] & _ & H).
  apply bind_Ok in H as ([] & Hallow & H). apply bind_Ok in H as ([] & Hinit & H).
  apply bind_Ok in H as ([subject expected] & Hsr & H). apply bind_Ok in H as (targets & Ht & H).
  apply bind_Ok in H as (artifacts & Ha & H). apply bind_Ok in H as ([causation correlation] & Hp & H).
  apply bind_Ok in H as ([] & Hlocal & H).
  pose proof (NewBoundIntent_Ok _ _ H) as (_ & _ & Eb & _ & _).
  unfold bindTargets in Ht. apply parse_distinct_Ok in Ht as (Ht2 & Htd & _).
  unfold bindArtifacts in Ha. apply bind_Ok in Ha as (captured & Hcap & Ha).
  apply bind_Ok in Ha as (resolved & Hres & Ha). apply bind_Ok in Ha as ([] & _ & Ha).
  injection Ha as ->. apply mapR_Ok in Hres.
  unfold bindProvenance in Hp. apply bind_Ok in Hp as (causation' & Hc & Hp).
  apply bind_Ok in Hp as (correlation' & Hcorr & Hp). injection Hp as -> ->. apply mapR_Ok in Hc.
  rewrite fail_if_Ok, negb_false_iff in Hallow. apply bool_decide_eq_true in Hallow.
  rewrite fail_if_Ok in Hinit.
  pose proof H as Hspec. rewrite Eb in Hspec |- *. split; cbn [bound_of_spec bi_intent bi_operationKey bi_attachment bi_viewDigest
    bi_subject bi_expectedReference bi_targets bi_resolvedArtifacts bi_causation bi_correlation
    bi_inReplyToDelivery bs_Intent bs_OperationKey bs_Attachment bs_ViewDigest bs_Subject
    bs_ExpectedReference bs_Targets bs_Artifacts bs_Causation bs_Correlation bs_InReplyToDelivery];
    try done.
  - intros E. rewrite bool_decide_eq_true_2 in Hinit by done. by apply negb_false_iff in Hinit.
  - intros s ->. unfold bindSubjectOrReference, ExpectAbsentReference in Hsr.
    destruct (ai_consequence intent); inv_res; by apply resolve_handle_Some.
  - intros e ->. unfold bindSubjectOrReference in Hsr.
    destruct (ai_consequence intent) eqn:Ec; inv_res;
      first [by left | right; by apply resolve_handle_Some].
  - eapply Forall2_impl; [done|]. intros t r Hr. cbn in Hr. inv_res. unfold ResolveTarget in Hr.
    by destruct (TargetRef_IsZero t).
  - eapply Forall2_Forall_r; [exact Hres|]. apply Forall_forall. intros i _ a.
    by apply bind_artifact_input_Ok.
  - eapply Forall2_impl; [exact Hc|]. intros h e Hh. cbn in Hh. inv_res. by apply resolve_handle_Some.
  - unfold IsZero in Hcorr. destruct (is_empty _); [by injection Hcorr|].
    inv_res. by apply resolve_handle_Some.
  - eexists. exact Hspec.
Qed.

(** ** Events of bound requests read back *)

(** The offers of a View hold well-formed authority values. *)
Record view_ok (view : ViewAuthority) : Prop := {
  vok_principal : handle_ok view.(va_attachment).(at_principal) = true;
  vok_subjects : map_Forall (λ _ s, subject_ok s) view.(va_subjects);
  vok_references : map_Forall (λ _ r, expectation_ok r) view.(va_references);
  vok_targets : map_Forall (λ _ t, target_ok t) view.(va_targets);
  vok_artifacts : map_Forall (λ _ a, digest_ok a.(vao_digest)) view.(va_artifacts);
  vok_provenance : map_Forall (λ _ e, ref_ok e) view.(va_provenance);
  vok_reply : opt_delivery_ok view.(va_replyDelivery);
}.

Lemma load_offers_map_Forall {A V} check (key : A → string) (value : A → V) dup xs m (P : V → Prop) :
  load_offers check key value dup xs = Ok m → Forall (λ x, P (value x)) xs →
  map_Forall (λ _ v, P v) m.
Proof.
  intros Hm Hall k v Hk. apply (load_offers_lookup _ _ _ _ _ _ _ _ Hm) in Hk as (x & Hx & _ & <-).
  rewrite Forall_forall in Hall. by apply Hall.
Qed.

Lemma NewViewAuthority_view_ok spec view :
  view_spec_ok spec → NewViewAuthority spec = Ok view → view_ok view.
Proof.
  intros [] (v0 & Hload & -> & _)%NewViewAuthority_Ok. unfold load in Hload.
  apply bind_Ok in Hload as (cs & _ & Hload). apply bind_Ok in Hload as (ss & Hs & Hload).
  apply bind_Ok in Hload as (rs & Hr & Hload). apply bind_Ok in Hload as (ts & Ht & Hload).
  apply bind_Ok in Hload as (ars & Ha & Hload). apply bind_Ok in Hload as (ps & Hp & Hload).
  apply bind_Ok in Hload as (rx & Hrx & Hload). apply bind_Ok in Hload as ([] & _ & Hload).
  injection Hload as <-. apply load_reply_facts in Hrx as [-> _]; [|done|done].
  split; cbn [view_with_seal va_attachment va_subjects va_references va_targets va_artifacts
    va_provenance va_replyDelivery rx_delivery]; [done|..|done].
  - eapply load_offers_map_Forall; [exact Hs|]. eapply Forall_impl; [done|]. by intros ? [].
  - eapply load_offers_map_Forall; [exact Hr|]. eapply Forall_impl; [done|]. by intros ? [].
  - eapply load_offers_map_Forall; [exact Ht|]. eapply Forall_impl; [done|]. by intros ? [].
  - eapply (load_offers_map_Forall _ _ _ _ _ _ (λ a, digest_ok a.(vao_digest))); [exact Ha|].
    eapply Forall_impl; [done|]. by intros ? [].
  - eapply load_offers_map_Forall; [exact Hp|]. eapply Forall_impl; [done|]. by intros ? [].
Qed.

(** What [NewBoundIntent] checks of the resolved parts. *)
Record bound_shape (b : BoundIntent) : Prop := {
  bsh_subject : is_some b.(bi_subject) = subjectBound b.(bi_intent).(ai_consequence);
  bsh_reference : is_some b.(bi_expectedReference) = referenceBound b.(bi_intent).(ai_consequence);
  bsh_absent : referenceBound b.(bi_intent).(ai_consequence) = true →
    expects_absent b.(bi_expectedReference) =
    bool_decide (b.(bi_intent).(ai_consequence) = ConsequencePublishReference);
  bsh_targets : lenZ b.(bi_targets) = lenZ b.(bi_intent).(ai_successors);
  bsh_artifacts : lenZ b.(bi_artifacts) = lenZ b.(bi_intent).(ai_artifacts);
  bsh_completed : b.(bi_intent).(ai_consequence) = ConsequenceResolveCompleted →
    lenZ b.(bi_artifacts) ≠ 0;
  bsh_causation : lenZ b.(bi_causation) = lenZ b.(bi_intent).(ai_causationHandles);
  bsh_artifacts_sorted : StronglySorted (key_le Digest_String) b.(bi_artifacts);
  bsh_artifacts_distinct : NoDup b.(bi_artifacts);
}.

Lemma lenZ_sort_map {A} (f : A → Digest) xs : lenZ (sortDigests (map f xs)) = lenZ xs.
Proof. unfold lenZ, sortDigests. by rewrite sort_by_perm, length_map. Qed.

Lemma NewBoundIntent_shape spec b : NewBoundIntent spec = Ok b → bound_shape b.
Proof.
  intros (Hv & Hnd & Eb & _)%NewBoundIntent_Ok. rewrite Eb in Hnd |- *. clear Eb.
  unfold validateResolvedBoundIntent in Hv. cbv zeta in Hv.
  apply bind_Ok in Hv as ([] & Hs & Hv). apply bind_Ok in Hv as ([] & Hr & Hv).
  apply bind_Ok in Hv as ([] & _ & Hv). apply bind_Ok in Hv as ([] & Hx & Hv).
  apply bind_Ok in Hv as ([] & Ht & Hv). apply bind_Ok in Hv as ([] & _ & Hv).
  apply bind_Ok in Hv as ([] & Ha & Hv). apply bind_Ok in Hv as ([] & _ & Hv).
  apply bind_Ok in Hv as ([] & Hc & Hv). apply bind_Ok in Hv as ([] & Hcaus & Hv).
  rewrite fail_if_Ok, negb_false_iff in Hs, Hr, Ht, Ha, Hcaus.
  apply eqb_prop in Hs, Hr. apply Z.eqb_eq in Ht, Ha, Hcaus. rewrite fail_if_Ok in Hc.
  split; cbn [bound_of_spec bi_intent bi_subject bi_expectedReference bi_targets bi_artifacts bi_causation].
  - done.
  - done.
  - intros Hb. rewrite Hb in Hr. unfold validateResolvedReference in Hx.
    destruct (bs_ExpectedReference spec) as [e|]; [|done]. cbn [expects_absent].
    destruct (ai_consequence (bs_Intent spec)); try discriminate Hb; inv_res; done.
  - done.
  - by rewrite lenZ_sort_map.
  - intros E. rewrite E, bool_decide_eq_true_2 in Hc by done. apply Z.eqb_neq in Hc.
    by rewrite lenZ_sort_map.
  - done.
  - apply sort_by_sorted.
  - exact Hnd.
Qed.

Lemma existsb_remote targets :
  existsb (λ t, bool_decide (rt_destination t = TargetDestinationRemote)) targets =
  (0 <? lenZ (remote_targets targets)).
Proof.
  induction targets as [|t ts IH]; [done|]. cbn [existsb remote_targets]. unfold remote_targets in *.
  rewrite filter_cons, IH. case_decide; [by rewrite bool_decide_eq_true_2|by rewrite bool_decide_eq_false_2].
Qed.

Lemma existsb_local targets :
  existsb (λ t, bool_decide (rt_destination t = TargetDestinationLocal)) targets =
  negb (lenZ (local_targets targets) =? 0).
Proof.
  induction targets as [|t ts IH]; [done|]. cbn [existsb local_targets]. unfold local_targets in *.
  rewrite filter_cons, IH. case_decide; [by rewrite bool_decide_eq_true_2|by rewrite bool_decide_eq_false_2].
Qed.

(** An exact reply is terminal, correlated, and goes to one remote target. *)
Lemma exactReply_facts view intent targets correlation :
  exactReply view intent targets correlation = true →
  terminalConsequence intent.(ai_consequence) = true ∧ EventRef_IsZero correlation = false ∧
  lenZ targets = 1 ∧ lenZ (remote_targets targets) = 1 ∧
  ∃ reply, View_ReplyContext view = Some reply ∧ DeliveryID_IsZero reply.(rx_delivery) = false.
Proof.
  unfold exactReply. destruct (View_ReplyContext view) as [reply|]; [|done].
  destruct targets as [|t [|t' ts]]; try done. intros H.
  repeat (apply andb_prop in H as [H ?]). inv_res.
  split_and!; [done|done|done| |by eauto].
  unfold remote_targets. by rewrite filter_cons, decide_True by done.
Qed.

Lemma reply_delivery_facts view intent targets correlation :
  DeliveryID_IsZero (reply_delivery view intent targets correlation) = false →
  exactReply view intent targets correlation = true.
Proof. unfold reply_delivery. by destruct (exactReply _ _ _ _). Qed.

Lemma exactReply_reply_delivery view intent targets correlation :
  exactReply view intent targets correlation = true →
  DeliveryID_IsZero (reply_delivery view intent targets correlation) = false.
Proof.
  intros H. pose proof (exactReply_facts _ _ _ _ H) as (_ & _ & _ & _ & reply & Hr & Hd).
  unfold reply_delivery. by rewrite H, Hr.
Qed.

(** The shape [ParseEventCanonicalJSON] demands holds of every bound request. *)
Lemma bound_event_shape view b e :
  bound_shape b → intent_wf b.(bi_intent) →
  b.(bi_inReplyToDelivery) = reply_delivery view b.(bi_intent) b.(bi_targets) b.(bi_correlation) →
  requireLocalResponsibility view b.(bi_intent) b.(bi_targets) b.(bi_correlation) = Ok () →
  e.(ev_consequence) = b.(bi_intent).(ai_consequence) → e.(ev_subject) = b.(bi_subject) →
  e.(ev_expectedRef) = b.(bi_expectedReference) → e.(ev_targets) = b.(bi_targets) →
  e.(ev_artifacts) = b.(bi_artifacts) → e.(ev_correlation) = b.(bi_correlation) →
  e.(ev_inReplyToDelivery) = b.(bi_inReplyToDelivery) →
  validateParsedEventShape e = Ok ().
Proof.
  intros Hsh Hwf Hreply Hlocal Ec Es Er Et Ea Ecorr Erep. unfold validateParsedEventShape.
  rewrite Ec, Es, Er, Et, Ea, Ecorr, Erep, Hreply.
  pose proof (iwf_declarable _ Hwf) as Hdecl. pose proof (iwf_rebuild _ Hwf) as Hnew.
  unfold NewAgentIntent in Hnew. do 2 (apply bind_Ok in Hnew as ([] & _ & Hnew)).
  apply bind_Ok in Hnew as ([] & Hshape & _). destruct Hsh.
  rewrite bsh_subject0, bsh_reference0, bsh_targets0, bsh_artifacts0.
  unfold requireLocalResponsibility in Hlocal. rewrite existsb_remote, existsb_local in Hlocal.
  unfold parsedEventTargetCounts.
  destruct (DeliveryID_IsZero (reply_delivery _ _ _ _)) eqn:Ez; cbn [negb].
  2:{ pose proof (reply_delivery_facts _ _ _ _ Ez) as Hx.
      pose proof (exactReply_facts _ _ _ _ Hx) as (Hterm & Hcorr & Ht1 & Hr1 & _).
      rewrite Hcorr, Hr1. rewrite <- bsh_targets0, Ht1.
      destruct (ai_consequence (bi_intent b)) eqn:E; try discriminate Hterm;
        cbn -[lenZ Z.eqb]; try done.
      specialize (bsh_completed0 eq_refl). rewrite bsh_artifacts0 in bsh_completed0.
      by rewrite (proj2 (Z.eqb_neq _ _) bsh_completed0). }
  assert (Hx : exactReply view (bi_intent b) (bi_targets b) (bi_correlation b) = false).
  { apply not_true_iff_false. intros Hx%exactReply_reply_delivery. congruence. }
  rewrite Hx, orb_false_r in Hlocal.
  revert Hshape. unfold validateIntentShape. cbn [spec_of is_Consequence].
  destruct (ai_consequence (bi_intent b)) eqn:E; try discriminate Hdecl; intros Hshape.
  all: cbn [subjectBound referenceBound consequence_between Consequence_number Z.leb Z.compare
    Pos.compare Pos.compare_cont andb orb negb fail_if mbind result_bind
    isTerminalConsequence observation] in bsh_absent0 |- *.
  all: try assert (Hanchor : (0 <? lenZ (remote_targets (bi_targets b))) &&
      (lenZ (local_targets (bi_targets b)) =? 0) = false) by
    (revert Hlocal; destruct (0 <? _); [|done]; cbn; by destruct (lenZ _ =? 0)).
  - unfold validateRootIntentShape in Hshape. cbn [spec_of is_Successors] in Hshape.
    apply bind_Ok in Hshape as ([] & _ & Hshape). apply fail_if_Ok in Hshape.
    by rewrite Hshape, Hanchor.
  - done.
  - specialize (bsh_completed0 eq_refl). rewrite bsh_artifacts0 in bsh_completed0.
    rewrite (proj2 (Z.eqb_neq _ _) bsh_completed0), andb_false_r. cbn [fail_if mbind result_bind].
    by rewrite Hanchor.
  - rewrite bool_decide_eq_false_2 by done. cbn [andb fail_if mbind result_bind]. by rewrite Hanchor.
  - rewrite bool_decide_eq_false_2 by done. cbn [andb fail_if mbind result_bind]. by rewrite Hanchor.
  - rewrite bsh_absent0, bool_decide_eq_true_2 by done. unfold validateReferencePublishShape in Hshape.
    cbn [spec_of is_Successors is_Artifacts] in Hshape. inv_res.
    repeat match goal with H : (lenZ _ =? _) = true |- _ => rewrite H; clear H end. done.
  - rewrite bsh_absent0, bool_decide_eq_false_2 by done. unfold validateReferenceSupersedeShape in Hshape.
    cbn [spec_of is_Successors is_Artifacts] in Hshape. inv_res.
    repeat match goal with H : (lenZ _ =? _) = true |- _ => rewrite H; clear H end. done.
  - rewrite bsh_absent0, bool_decide_eq_false_2 by done. unfold validateReferenceRetractShape in Hshape.
    cbn [spec_of is_Successors is_Artifacts] in Hshape. inv_res.
    repeat match goal with H : (lenZ _ =? _) = true |- _ => rewrite H; clear H end. done.
Qed.

(** What admission stamps on an Event. *)
Record stamp_ok (stamp : EventStamp) : Prop := {
  sto_id : handle_ok stamp.(es_ID) = true;
  sto_sequence : 0 < stamp.(es_OriginSequence) <= max_uint64;
  sto_depth : 0 <= stamp.(es_CausalDepth);
}.

Lemma NewEvent_Ok request stamp e :
  NewEvent request stamp = Ok e →
  ∃ e0, sealEvent e0 = Ok e ∧ Digest_IsZero request.(bi_digest) = false ∧
    stamp.(es_CausalDepth) <= MaxPeerCausalDepth ∧ time_ok stamp.(es_AcceptedAt) ∧
    e0 = {|
    ev_id := stamp.(es_ID); ev_acceptedAt := stamp.(es_AcceptedAt);
    ev_originSequence := stamp.(es_OriginSequence); ev_causalDepth := stamp.(es_CausalDepth);
    ev_source := request.(bi_attachment).(at_principal);
    ev_operationKey := request.(bi_operationKey); ev_requestDigest := request.(bi_digest);
    ev_kind := request.(bi_intent).(ai_kind); ev_payload := request.(bi_intent).(ai_payload);
    ev_consequence := request.(bi_intent).(ai_consequence);
    ev_subject := request.(bi_subject); ev_expectedRef := request.(bi_expectedReference);
    ev_targets := request.(bi_targets); ev_artifacts := request.(bi_artifacts);
    ev_causation := request.(bi_causation); ev_correlation := request.(bi_correlation);
    ev_inReplyToDelivery := request.(bi_inReplyToDelivery);
    ev_canonical := ""; ev_digest := zero_digest |}.
Proof.
  unfold NewEvent. intros H. apply bind_Ok in H as ([] & Hg & H).
  apply bind_Ok in H as (t & Ht & H). apply canonicalTime_Ok in Ht as (-> & Hz & Hr).
  eexists. split; [exact H|]. rewrite fail_if_Ok in Hg.
  apply orb_false_elim in Hg as [Hg Hd]. apply Z.ltb_ge in Hd.
  do 2 (apply orb_false_elim in Hg as [Hg _]). by apply orb_false_elim in Hg as [_ Hg].
Qed.

Lemma Forall2_Forall_right {A B} (R : A → B → Prop) (P : B → Prop) xs ys :
  Forall2 R xs ys → (∀ x y, R x y → P y) → Forall P ys.
Proof. intros H HP. induction H; constructor; eauto. Qed.

Lemma lookup_all_ok {A V} (key : A → string) (m : gmap string V) (P : V → Prop) hs vs :
  map_Forall (λ _ v, P v) m → Forall2 (λ h v, m !! key h = Some v) hs vs → Forall P vs.
Proof. intros Hm H2. eapply Forall2_Forall_right; [exact H2|]. intros h v. apply Hm. Qed.

Lemma bound_artifacts_ok view operation candidates b spec :
  map_Forall (λ _ a, digest_ok a.(vao_digest)) view.(va_artifacts) →
  Forall (λ c, digest_ok c.(cc_digest)) candidates →
  Forall (λ a,
    (∃ o, view.(va_artifacts) !! a.(ra_input).(ain_handle) = Some o ∧ o.(vao_digest) = a.(ra_digest)) ∨
    (∃ c, c ∈ candidates ∧ c.(cc_operation) = operation ∧ c.(cc_input) = a.(ra_input) ∧
          c.(cc_digest) = a.(ra_digest))) b.(bi_resolvedArtifacts) →
  NewBoundIntent spec = Ok b → Forall digest_ok b.(bi_artifacts).
Proof.
  intros Hview Hcand Hall (_ & _ & Eb & _)%NewBoundIntent_Ok.
  assert (Ea : bi_artifacts b = sortDigests (map ra_digest (bi_resolvedArtifacts b))) by (by rewrite Eb).
  rewrite Ea. unfold sortDigests. rewrite sort_by_perm. apply Forall_map.
  eapply Forall_impl; [exact Hall|]. intros a [(o & Ho & <-)|(c & Hc & _ & _ & <-)].
  - by eapply (Hview (ain_handle (ra_input a))).
  - rewrite Forall_forall in Hcand. by apply Hcand.
Qed.

(** Binding, then stamping, gives an Event whose stored bytes the parser
    accepts, when no two of the cited handles name one Event. *)
Lemma bound_event_ok view intent operation candidates b stamp e :
  view_ok view → intent_wf intent → handle_ok operation = true →
  Forall (λ c, digest_ok c.(cc_digest)) candidates → stamp_ok stamp →
  bindIntent view intent operation candidates = Ok b → NoDup b.(bi_causation) →
  NewEvent b stamp = Ok e → ∃ e0, sealEvent e0 = Ok e ∧ event_ok e0.
Proof.
  intros Hview Hwf Hop Hcand Hst Hb Hnd (e0 & Hseal & Hdz & Hdepth & Htime & E0)%NewEvent_Ok.
  exists e0. split; [done|]. pose proof (bindIntent_bound _ _ _ _ _ Hb) as [].
  destruct bv_structure0 as [spec Hspec]. pose proof (NewBoundIntent_shape _ _ Hspec) as Hsh.
  destruct (NewBoundIntent_Ok _ _ Hspec) as (_ & _ & Eb & Hdig & _).
  destruct Hview, Hst. pose proof (iwf_spec _ Hwf) as [].
  pose proof (iwf_rebuild _ Hwf) as Hnew. unfold NewAgentIntent in Hnew.
  do 3 (apply bind_Ok in Hnew as ([] & _ & Hnew)). apply bind_Ok in Hnew as ([] & Hsucc & Hnew).
  do 2 (apply bind_Ok in Hnew as ([] & _ & Hnew)). apply bind_Ok in Hnew as ([] & Hart & Hnew).
  apply bind_Ok in Hnew as (? & _ & Hnew). apply bind_Ok in Hnew as (? & Hcaus & _).
  apply normalizeHandles_Ok in Hcaus as (_ & Hcb & _). cbn [spec_of is_CausationHandles is_Successors is_Artifacts] in *.
  rewrite fail_if_Ok, Z.ltb_ge in Hsucc, Hart. rewrite E0.
  split; cbn [ev_id ev_acceptedAt ev_originSequence ev_causalDepth ev_source ev_operationKey
    ev_requestDigest ev_kind ev_payload ev_consequence ev_subject ev_expectedRef ev_targets
    ev_artifacts ev_causation ev_correlation ev_inReplyToDelivery].
  - done.
  - done.
  - done.
  - done.
  - by rewrite bv_attachment0.
  - by rewrite bv_operation0.
  - split; [|done]. rewrite Hdig. apply sha256_length.
  - by rewrite bv_intent0.
  - by rewrite bv_intent0.
  - rewrite bv_intent0. by apply agentDeclarable_Valid, iwf_declarable.
  - intros s Hs. eapply vok_subjects0. by apply bv_subject0.
  - intros r Hr. destruct (bv_reference0 r Hr) as [[_ Ha]|Hl]; [|by eapply vok_references0].
    unfold ExpectAbsentReference in Ha. inv_res. split; cbn [re_key re_absent re_head]; [|done].
    destruct sw_key as [Hk|]; [|done]. exfalso.
    match goal with H : IsZero _ = false |- _ => apply is_empty_false in H; exact (H Hk) end.
  - exact (lookup_all_ok TargetRef_canonicalKey _ _ _ _ vok_targets0 bv_targets0).
  - done.
  - rewrite (bsh_targets _ Hsh), bv_intent0. done.
  - eapply bound_artifacts_ok; eauto.
  - apply Hsh.
  - apply Hsh.
  - rewrite (bsh_artifacts _ Hsh), bv_intent0. done.
  - exact (lookup_all_ok (λ h, h) _ _ _ _ vok_provenance0 bv_causation0).
  - done.
  - rewrite (bsh_causation _ Hsh), bv_intent0. done.
  - revert bv_correlation0. destruct (is_empty _); [by left|]. right. by eapply vok_provenance0.
  - rewrite bv_reply0. unfold reply_delivery, View_ReplyContext.
    destruct (exactReply _ _ _ _); [|by left]. destruct (IsZero _); [by left|done].
  - rewrite <- bv_intent0 in bv_reply0, bv_local0, Hwf. by eapply bound_event_shape.
Qed.

Lemma bound_event_reparses view intent operation candidates b stamp e :
  view_ok view → intent_wf intent → handle_ok operation = true →
  Forall (λ c, digest_ok c.(cc_digest)) candidates → stamp_ok stamp →
  bindIntent view intent operation candidates = Ok b → NoDup b.(bi_causation) →
  NewEvent b stamp = Ok e →
  ParseEventCanonicalJSON e.(ev_canonical) = Ok (erase_handles e).
Proof.
  intros H1 H2 H3 H4 H5 H6 H7 H8.
  destruct (bound_event_ok _ _ _ _ _ _ _ H1 H2 H3 H4 H5 H6 H7 H8) as (e0 & Hs & Hok).
  by eapply ParseEventCanonicalJSON_seal.
Qed.
