(* ===== verification/StoreTime.v ===== *)
(** The text of instants in the authority database (internal/agency/authority/store.go):
    the fixed-width layout of [formatTime], [parseTime], and the law that the
    byte order SQLite compares TEXT by is the chronological order. *)

From Stdlib Require Import Lia.
From S2P Require Import Prelude Utf8 Json Wire Time.

#[local] Open Scope Z_scope.
#[local] Arguments String.append : simpl nomatch.

(** Calendar and clock fields of an instant: year, month, day, hour, minute,
    second, nanosecond. *)
Definition clock_fields (t : Time) : Z * Z * Z * Z * Z * Z * Z :=
  let rem := t mod ns_per_day in
  let secs := rem / ns_per_second in
  let '(y, m, d) := civil_from_days (t / ns_per_day) in
  (y, m, d, secs / 3600, (secs / 60) mod 60, secs mod 60, rem mod ns_per_second).

(** [value.Round(0).UTC().Format("2006-01-02T15:04:05.000000000Z")] for a year
    of four digits. *)
Definition formatTime (t : Time) : string :=
  let '(y, m, d, hh, mm, ss, ns) := clock_fields t in
  fixed 4 y +:+ "-" +:+ fixed 2 m +:+ "-" +:+ fixed 2 d +:+ "T" +:+
  fixed 2 hh +:+ ":" +:+ fixed 2 mm +:+ ":" +:+ fixed 2 ss +:+ "." +:+ fixed 9 ns +:+ "Z".

(** [time.Parse(storeTimeLayout, s)] on the spellings [formatTime] can write;
    [parseTime] rejects every other spelling by comparing the text. *)
Definition parse_layout (s : string) : option Time :=
  '(y, s) ← read_digits 4 0 s; s ← strip_prefix "-" s;
  '(m, s) ← read_digits 2 0 s; s ← strip_prefix "-" s;
  '(d, s) ← read_digits 2 0 s; s ← strip_prefix "T" s;
  '(hh, s) ← read_digits 2 0 s; s ← strip_prefix ":" s;
  '(mm, s) ← read_digits 2 0 s; s ← strip_prefix ":" s;
  '(ss, s) ← read_digits 2 0 s; s ← strip_prefix "." s;
  '(ns, s) ← read_digits 9 0 s;
  if (1 <=? m) && (m <=? 12) && (1 <=? d) && (d <=? days_in m y) &&
     (hh <? 24) && (mm <? 60) && (ss <? 60) && String.eqb s "Z"
  then Some (days_from_civil y m d * ns_per_day +
             (hh * 3600 + mm * 60 + ss) * ns_per_second + ns)
  else None.

Definition parseTime (value : string) : result Time :=
  let corrupt := Errorf "authority: stored time is not canonical" in
  parsed ← of_option (parse_layout value) corrupt;
  _ ← fail_if (negb (bool_decide (formatTime parsed = value))) corrupt;
  Ok parsed.

(** The instants of the years 0 to 9999. *)
Definition four_digit_year (t : Time) : Prop :=
  -719528 * ns_per_day <= t < 2932897 * ns_per_day.

(** ** The calendar *)

(** The year of a day number: a date outside the years 0 to 9999 has a day
    number outside their range. *)
Lemma march_year_days y m d :
  days_from_civil y m d =
  let y' := if m <=? 2 then y - 1 else y in
  let mp := if 2 <? m then m - 3 else m + 9 in
  365 * y' + y' / 4 - y' / 100 + y' / 400 + (153 * mp + 2) / 5 + d - 719469.
Proof.
  unfold days_from_civil. cbv zeta. set (y' := if m <=? 2 then y - 1 else y). clearbody y'.
  set (doy := (153 * _ + 2) / 5). clearbody doy.
  replace ((y' - y' / 400 * 400) / 4) with (y' / 4 - y' / 400 * 100)
    by (Z.to_euclidean_division_equations; lia).
  replace ((y' - y' / 400 * 400) / 100) with (y' / 100 - y' / 400 * 4)
    by (Z.to_euclidean_division_equations; lia).
  lia.
Qed.

(** ** Lexicographic order *)

(** Lexicographic combination of comparisons. *)
Definition then_compare (c1 c2 : comparison) : comparison :=
  match c1 with Eq => c2 | c => c end.

Lemma compare_app a b s t :
  String.length a = String.length b →
  String.compare (a +:+ s) (b +:+ t) = then_compare (String.compare a b) (String.compare s t).
Proof.
  revert b. induction a as [|c a IH]; intros [|c' b] Hl; try done.
  cbn [String.append String.compare]. injection Hl as Hl. rewrite (IH b Hl).
  by destruct (Ascii.compare c c').
Qed.

Lemma compare_refl s : String.compare s s = Eq.
Proof.
  induction s as [|c s IH]; [done|]. cbn. unfold Ascii.compare. by rewrite N.compare_refl.
Qed.

Lemma mixed_radix_compare w q1 r1 q2 r2 :
  0 <= r1 < w → 0 <= r2 < w →
  (q1 * w + r1 ?= q2 * w + r2) = then_compare (q1 ?= q2) (r1 ?= r2).
Proof.
  intros H1 H2. destruct (Z.compare_spec q1 q2) as [->|Hq|Hq]; cbn [then_compare].
  - by rewrite Z.add_compare_mono_l.
  - apply Z.compare_lt_iff. nia.
  - apply Z.compare_gt_iff. nia.
Qed.

Lemma digit_compare a b :
  0 <= a < 10 → 0 <= b < 10 → Ascii.compare (digit a) (digit b) = (a ?= b).
Proof.
  intros Ha Hb. unfold Ascii.compare. change N_of_ascii with N_of_byte. unfold digit.
  rewrite !N_of_byte_of_N by lia. rewrite <- N2Z.inj_compare, !N2Z.inj_add, !Z2N.id by lia.
  apply Z.add_compare_mono_l.
Qed.

Lemma fixed_compare k a b :
  0 <= a < 10 ^ Z.of_nat k → 0 <= b < 10 ^ Z.of_nat k →
  String.compare (fixed k a) (fixed k b) = (a ?= b).
Proof.
  revert a b. induction k as [|k IH]; intros a b Ha Hb.
  { simpl in *. assert (a = b) as -> by lia. symmetry. apply Z.compare_refl. }
  pose proof (pow10_pos k) as Hp. cbn [fixed String.compare].
  rewrite digit_compare by (by apply fixed_head).
  rewrite IH by (apply Z.mod_pos_bound; lia).
  rewrite (Z.div_mod a (10 ^ Z.of_nat k)) at 3 by lia.
  rewrite (Z.div_mod b (10 ^ Z.of_nat k)) at 3 by lia.
  rewrite !(Z.mul_comm (10 ^ Z.of_nat k)), mixed_radix_compare by (apply Z.mod_pos_bound; lia).
  by destruct (_ ?= _).
Qed.

(** *** Day numbers order as their dates do *)

(** The first day of the [k]-th month counted from January of year 0. *)
Definition month_start (k : Z) : Z := days_from_civil (k / 12) (k mod 12 + 1) 1.

Lemma month_start_next k :
  month_start (k + 1) = month_start k + days_in (k mod 12 + 1) (k / 12).
Proof.
  unfold month_start.
  assert (Hk : k = 12 * (k / 12) + k mod 12) by (apply Z.div_mod; lia).
  assert (Hr : 0 <= k mod 12 < 12) by (apply Z.mod_pos_bound; lia).
  assert (Hn : (k mod 12 = 11 ∧ (k + 1) / 12 = k / 12 + 1 ∧ (k + 1) mod 12 = 0) ∨
               (k mod 12 < 11 ∧ (k + 1) / 12 = k / 12 ∧ (k + 1) mod 12 = k mod 12 + 1)).
  { Z.to_euclidean_division_equations; lia. }
  revert Hr Hn. generalize (k / 12) as y, (k mod 12) as r. clear Hk.
  intros y r Hr [(-> & -> & ->)|(Hlt & -> & ->)]; rewrite !march_year_days.
  - change (days_in (11 + 1) y) with 31. simpl. rewrite Z.add_simpl_r.
    change ((153 * (0 + 1 + 9) + 2) / 5) with 306. change ((153 * (11 + 1 - 3) + 2) / 5) with 275. lia.
  - assert (Hcases : r = 0 ∨ r = 1 ∨ r = 2 ∨ r = 3 ∨ r = 4 ∨ r = 5 ∨ r = 6 ∨ r = 7 ∨ r = 8 ∨
      r = 9 ∨ r = 10) by lia.
    assert (Hleap : days_in 2 y = 28 + (y / 4 - (y - 1) / 4) - (y / 100 - (y - 1) / 100) +
      (y / 400 - (y - 1) / 400)).
    { unfold days_in, is_leap. simpl (2 =? 2).
      destruct (Z.eqb_spec (y mod 4) 0), (Z.eqb_spec (y mod 100) 0), (Z.eqb_spec (y mod 400) 0);
        cbn [andb orb negb]; Z.to_euclidean_division_equations; lia. }
    destruct_or! Hcases; subst r; cbv zeta;
      try (change (days_in (1 + 1) y) with (days_in 2 y); rewrite Hleap); clear Hleap;
      unfold days_in; simpl; Z.to_euclidean_division_equations; lia.
Qed.

Lemma days_in_ge m y : 28 <= days_in m y.
Proof. unfold days_in. repeat destruct (_ =? _); try destruct (is_leap y); simpl; lia. Qed.

Lemma month_start_mono j k : j <= k → month_start j <= month_start k.
Proof.
  intros H. replace k with (j + Z.of_nat (Z.to_nat (k - j))) by lia.
  induction (Z.to_nat (k - j)) as [|n IH]; [by rewrite Z.add_0_r|].
  rewrite Nat2Z.inj_succ, <- Z.add_1_r, Z.add_assoc, month_start_next.
  pose proof (days_in_ge ((j + Z.of_nat n) mod 12 + 1) ((j + Z.of_nat n) / 12)). lia.
Qed.

Lemma date_month y m d :
  1 <= m <= 12 → days_from_civil y m d = month_start (12 * y + (m - 1)) + d - 1 ∧
  days_in ((12 * y + (m - 1)) mod 12 + 1) ((12 * y + (m - 1)) / 12) = days_in m y.
Proof.
  intros Hm. unfold month_start.
  replace ((12 * y + (m - 1)) / 12) with y by (Z.to_euclidean_division_equations; lia).
  replace ((12 * y + (m - 1)) mod 12 + 1) with m by (Z.to_euclidean_division_equations; lia).
  split; [|done]. rewrite !march_year_days. cbv zeta. lia.
Qed.

Lemma days_from_civil_lt y1 m1 d1 y2 m2 d2 :
  1 <= m1 <= 12 → d1 <= days_in m1 y1 → 1 <= m2 <= 12 → 1 <= d2 →
  12 * y1 + m1 < 12 * y2 + m2 → days_from_civil y1 m1 d1 < days_from_civil y2 m2 d2.
Proof.
  intros Hm1 Hd1 Hm2 Hd2 Hlt.
  destruct (date_month y1 m1 d1 Hm1) as [-> Hin]. destruct (date_month y2 m2 d2 Hm2) as [-> _].
  pose proof (month_start_next (12 * y1 + (m1 - 1))) as Hs. rewrite Hin in Hs.
  pose proof (month_start_mono (12 * y1 + (m1 - 1) + 1) (12 * y2 + (m2 - 1)) ltac:(lia)). lia.
Qed.

Lemma date_compare y1 m1 d1 y2 m2 d2 :
  1 <= m1 <= 12 → 1 <= d1 <= days_in m1 y1 → 1 <= m2 <= 12 → 1 <= d2 <= days_in m2 y2 →
  (days_from_civil y1 m1 d1 ?= days_from_civil y2 m2 d2) =
  then_compare (y1 ?= y2) (then_compare (m1 ?= m2) (d1 ?= d2)).
Proof.
  intros Hm1 Hd1 Hm2 Hd2.
  destruct (Z.compare_spec y1 y2) as [->|Hy|Hy]; cbn [then_compare].
  - destruct (Z.compare_spec m1 m2) as [->|Hm|Hm]; cbn [then_compare].
    + destruct (date_month y2 m2 d1 Hm1) as [-> _]. destruct (date_month y2 m2 d2 Hm2) as [-> _].
      rewrite !Z.add_sub_swap, !(Z.add_comm _ d1), !(Z.add_comm _ d2).
      destruct (Z.compare_spec d1 d2) as [->|?|?];
        [apply Z.compare_refl|apply Z.compare_lt_iff; lia|apply Z.compare_gt_iff; lia].
    + apply Z.compare_lt_iff, days_from_civil_lt; lia.
    + apply Z.compare_gt_iff, days_from_civil_lt; lia.
  - apply Z.compare_lt_iff, days_from_civil_lt; lia.
  - apply Z.compare_gt_iff, days_from_civil_lt; lia.
Qed.

Lemma civil_year_range_wide z :
  -719528 <= z < 2932897 → let '(y, _, _) := civil_from_days z in 0 <= y < 10000.
Proof.
  intros Hz. pose proof (civil_facts z) as H. destruct (civil_from_days z) as [[y m] d].
  destruct H as (Hm & Hd & Hback). split.
  - destruct (Z.le_gt_cases 0 y); [done|].
    pose proof (days_from_civil_lt y m d 0 1 1). change (days_from_civil 0 1 1) with (-719528) in *. lia.
  - destruct (Z.lt_ge_cases y 10000); [done|].
    pose proof (days_from_civil_lt 9999 12 31 y m d) as Hl.
    change (days_from_civil 9999 12 31) with 2932896 in Hl. change (days_in 12 9999) with 31 in Hl. lia.
Qed.

(** ** Fields of an instant *)

Record fields_ok (y m d hh mm ss ns : Z) : Prop := {
  fo_y : 0 <= y < 10000; fo_m : 1 <= m <= 12; fo_d : 1 <= d <= 31; fo_days : d <= days_in m y;
  fo_hh : 0 <= hh < 24; fo_mm : 0 <= mm < 60; fo_ss : 0 <= ss < 60; fo_ns : 0 <= ns < ns_per_second;
}.

Lemma clock_fields_ok t :
  four_digit_year t →
  let '(y, m, d, hh, mm, ss, ns) := clock_fields t in
  fields_ok y m d hh mm ss ns ∧
  t = days_from_civil y m d * ns_per_day + (hh * 3600 + mm * 60 + ss) * ns_per_second + ns.
Proof.
  intros Ht. unfold clock_fields.
  set (days := t / ns_per_day). set (rem := t mod ns_per_day).
  assert (Hrem : 0 <= rem < ns_per_day) by (apply Z.mod_pos_bound; done).
  assert (Hdays : -719528 <= days < 2932897).
  { subst days. unfold four_digit_year in Ht. split.
    - apply Z.div_le_lower_bound; [done|lia].
    - apply Z.div_lt_upper_bound; [done|lia]. }
  assert (Hsplit : t = days * ns_per_day + rem)
    by (subst days rem; pose proof (Z.div_mod t ns_per_day ltac:(done)); lia).
  clearbody days rem.
  set (secs := rem / ns_per_second). set (ns := rem mod ns_per_second).
  assert (Hns : 0 <= ns < ns_per_second) by (apply Z.mod_pos_bound; done).
  assert (Hsecs : 0 <= secs < 86400).
  { subst secs. unfold ns_per_day, ns_per_second in *. Z.to_euclidean_division_equations; lia. }
  assert (Hrs : rem = secs * ns_per_second + ns)
    by (subst secs ns; pose proof (Z.div_mod rem ns_per_second ltac:(done)); lia).
  clearbody secs ns.
  pose proof (civil_facts days) as Hc. pose proof (civil_year_range_wide days Hdays) as Hy.
  destruct (civil_from_days days) as [[y m] d]. destruct Hc as (Hm & Hd & Hback).
  assert (Hd31 : 1 <= d <= 31).
  { revert Hd. unfold days_in. repeat destruct (_ =? _); try destruct (is_leap y); simpl; lia. }
  rewrite Hback.
  split; [split; try lia; Z.to_euclidean_division_equations; lia|].
  replace (secs / 3600 * 3600 + (secs / 60) mod 60 * 60 + secs mod 60) with secs; [lia|].
  Z.to_euclidean_division_equations; lia.
Qed.

(** ** Round trip *)

Lemma parse_layout_format t : four_digit_year t → parse_layout (formatTime t) = Some t.
Proof.
  intros Ht. pose proof (clock_fields_ok t Ht) as H. unfold formatTime.
  destruct (clock_fields t) as [[[[[[y m] d] hh] mm] ss] ns]. destruct H as [[] ->].
  unfold parse_layout, ns_per_second in *.
  do 7 (rewrite read_fixed by (simpl; lia); cbn [mbind option_bind];
    try (rewrite strip_prefix_app; cbn [mbind option_bind])).
  rewrite !Z.mul_0_l, !Z.add_0_l.
  rewrite !(proj2 (Z.leb_le _ _)), !(proj2 (Z.ltb_lt _ _)) by lia. done.
Qed.

(** ** The order of stored times *)

Lemma formatTime_compare t1 t2 :
  four_digit_year t1 → four_digit_year t2 →
  String.compare (formatTime t1) (formatTime t2) = (t1 ?= t2).
Proof.
  intros H1 H2. pose proof (clock_fields_ok t1 H1) as F1. pose proof (clock_fields_ok t2 H2) as F2.
  unfold formatTime.
  destruct (clock_fields t1) as [[[[[[y1 m1] d1] hh1] mm1] ss1] ns1]. destruct F1 as [[] ->].
  destruct (clock_fields t2) as [[[[[[y2 m2] d2] hh2] mm2] ss2] ns2]. destruct F2 as [[] ->].
  repeat (rewrite compare_app by (by rewrite ?fixed_length)). rewrite !compare_refl.
  unfold ns_per_day, ns_per_second in *.
  rewrite !fixed_compare by (simpl; lia).
  replace (days_from_civil y1 m1 d1 * (86400 * 1000000000) +
    (hh1 * 3600 + mm1 * 60 + ss1) * 1000000000 + ns1)
    with ((((days_from_civil y1 m1 d1 * 24 + hh1) * 60 + mm1) * 60 + ss1) * 1000000000 + ns1) by lia.
  replace (days_from_civil y2 m2 d2 * (86400 * 1000000000) +
    (hh2 * 3600 + mm2 * 60 + ss2) * 1000000000 + ns2)
    with ((((days_from_civil y2 m2 d2 * 24 + hh2) * 60 + mm2) * 60 + ss2) * 1000000000 + ns2) by lia.
  rewrite !mixed_radix_compare, date_compare by lia.
  by destruct (y1 ?= y2), (m1 ?= m2), (d1 ?= d2), (hh1 ?= hh2), (mm1 ?= mm2), (ss1 ?= ss2), (ns1 ?= ns2).
Qed.

(** SQL comparisons of stored times are comparisons of instants. *)
Lemma formatTime_leb t1 t2 :
  four_digit_year t1 → four_digit_year t2 →
  String.leb (formatTime t1) (formatTime t2) = (t1 <=? t2).
Proof. intros. unfold String.leb. rewrite formatTime_compare by done. by unfold Z.leb. Qed.

Lemma formatTime_inj t1 t2 :
  four_digit_year t1 → four_digit_year t2 → formatTime t1 = formatTime t2 → t1 = t2.
Proof.
  intros H1 H2 E. pose proof (formatTime_compare t1 t2 H1 H2) as Hc.
  rewrite E, compare_refl in Hc. by apply Z.compare_eq.
Qed.

Lemma int64_four_digit t : min_int64 <= t <= max_int64 → four_digit_year t.
Proof. unfold four_digit_year, min_int64, max_int64, ns_per_day, ns_per_second. lia. Qed.

Global Opaque formatTime parse_layout.

Lemma parseTime_format t : four_digit_year t → parseTime (formatTime t) = Ok t.
Proof.
  intros Ht. unfold parseTime. apply bind_Ok. exists t.
  split; [by apply of_option_Ok, parse_layout_format|].
  by rewrite bool_decide_eq_true_2 by reflexivity.
Qed.

Lemma parseTime_Ok s t : parseTime s = Ok t → s = formatTime t.
Proof. unfold parseTime. intros H. inv_res. done. Qed.

Global Opaque parseTime.
