(* ===== verification/Store.v ===== *)
(** The authority database (internal/agency/authority/schema.sql, store.go,
    errors.go): the tables as finite maps from primary keys to rows of column
    values, the constraints SQLite enforces on a write, transactions, the
    trusted clock, identifiers, the Principal table and the Artifact catalog
    (attachment.go, artifact.go).

    Columns hold what the code stores: identifiers and digests as text, times in
    the [formatTime] layout, canonical JSON as bytes.  A TEXT column whose CHECK
    admits a closed list of words is an inductive type. *)

From Stdlib Require Import Lia.
From S2P Require Import Prelude Utf8 Json Wire Sha256 Time StoreTime Value Intent Bound Event Base64.

#[local] Open Scope Z_scope.
#[local] Arguments String.append : simpl nomatch.

(** ** Package errors *)

Definition ErrClosed := Sentinel "authority: store closed".
Definition ErrPrincipalUnavailable := Sentinel "authority: Principal is not enrolled".
Definition ErrPrincipalConflict :=
  Sentinel "authority: initial Principal conflicts with durable authority".
Definition ErrAttachmentAuth := Sentinel "authority: attachment authentication failed".
Definition ErrAttachmentExpired := Sentinel "authority: attachment expired".
Definition ErrAttachmentEnded := Sentinel "authority: attachment boundary ended".
Definition ErrOperationConflict := Sentinel "authority: operation key reused with different request".
Definition ErrCurrentUnavailable := Sentinel "authority: Current operation was not issued".
Definition ErrArtifactUnavailable := Sentinel "authority: verified Artifact unavailable".
Definition ErrPeerRouteUnavailable := Sentinel "authority: peer route unavailable".
Definition ErrPeerRouteConflict :=
  Sentinel "authority: peer route conflicts with immutable enrollment".
Definition ErrPeerRouteRevoked := Sentinel "authority: peer route is revoked".
Definition ErrPeerAuthentication := Sentinel "authority: peer authentication failed".
Definition ErrPeerInboxBound := Sentinel "authority: staged peer delivery bound reached".
Definition ErrPeerDeliveryConflict := Sentinel "authority: peer delivery replay conflicts".
Definition ErrPeerDeliveryExpired := Sentinel "authority: peer delivery is no longer live".
Definition ErrPeerDeliveryUnavailable := Sentinel "authority: peer delivery unavailable".

(** ** Rows *)

Record attachment_row := {
  atr_principal : string; atr_mode : string; atr_credential_digest : string;
  atr_begin_operation_key : string; atr_begin_request_digest : string;
  atr_issued_at : string; atr_expires_at : string; atr_ended_at : option string;
}.

Record artifact_row := { vr_byte_size : Z; vr_verified_at : string }.

Record event_row := {
  evr_digest : string; evr_origin_sequence : Z; evr_source : string; evr_request_digest : string;
  evr_causal_depth : Z; evr_accepted_at : string; evr_canonical : string;
}.

Inductive route_state := RouteActive | RouteRevoked.
Record route_row := {
  rr_public_alias : string; rr_remote_peer : string; rr_public_key : string;
  rr_transport_address : string; rr_remote_target_alias : string; rr_inbound_target_alias : string;
  rr_local_target : string; rr_surrogate : string; rr_state : route_state;
  rr_enrolled_at : string; rr_revoked_at : option string;
}.

Inductive outbox_state := OutboxPending | OutboxSettled | OutboxExpired.
Record outbox_row := {
  or_route : string; or_origin_event : string; or_anchor : option string;
  or_root_event : option string; or_root_digest : option string; or_envelope_digest : string;
  or_delivery : string; or_state : outbox_state; or_expires_at : string; or_created_at : string;
  or_receipt_digest : option string; or_receipt : option string; or_receipt_signature : option string;
  or_settled_at : option string;
}.

Inductive inbox_state := InboxStaged | InboxSettled | InboxExpired.
Record inbox_row := {
  ir_route : string; ir_in_reply_to : option string; ir_envelope_digest : string;
  ir_delivery : string; ir_signature : string; ir_state : inbox_state; ir_expires_at : string;
  ir_received_at : string; ir_local_event : option string; ir_receipt_digest : option string;
  ir_receipt : option string; ir_settled_at : option string;
}.

Record operation_row := {
  opr_request_digest : string; opr_outcome : string; opr_event : option string;
  opr_receipt_digest : string; opr_receipt : string; opr_recorded_at : string;
}.

Record current_row := {
  cur_request_digest : string; cur_view_handle : string; cur_authority_digest : string;
  cur_authority : string; cur_agent_digest : string; cur_agent : string;
}.

Inductive handling_state := HandlingOpen | HandlingTerminal.
Record handling_row := {
  hr_target : string; hr_head : string; hr_state : handling_state; hr_outcome : option string;
  hr_claim : option string; hr_fence : Z; hr_until : option string; hr_created : Z;
}.

Inductive disposition_kind := DispositionExpiry | DispositionBoundaryEnd.
Record disposition_row := {
  dr_kind : disposition_kind; dr_request_digest : string; dr_handling : string;
  dr_attachment : string; dr_fence : Z; dr_until : string; dr_outcome_digest : string;
  dr_outcome : string; dr_recorded_at : string;
}.

Inductive reference_state := ReferenceActive | ReferenceRetracted.
Record reference_row := { rf_head : string; rf_state : reference_state; rf_artifact : option string }.
Record lineage_row := {
  lr_key : string; lr_previous : option string; lr_state : reference_state; lr_artifact : option string;
}.

#[export] Instance route_state_eq_dec : EqDecision route_state.
Proof. solve_decision. Defined.
#[export] Instance outbox_state_eq_dec : EqDecision outbox_state.
Proof. solve_decision. Defined.
#[export] Instance inbox_state_eq_dec : EqDecision inbox_state.
Proof. solve_decision. Defined.
#[export] Instance handling_state_eq_dec : EqDecision handling_state.
Proof. solve_decision. Defined.
#[export] Instance disposition_kind_eq_dec : EqDecision disposition_kind.
Proof. solve_decision. Defined.
#[export] Instance reference_state_eq_dec : EqDecision reference_state.
Proof. solve_decision. Defined.

(** ** The database *)

Record db := {
  origin_sequence : Z;
  principals : gmap string string;
  attachments : gmap string attachment_row;
  verified_artifacts : gmap string artifact_row;
  events : gmap string event_row;
  peer_routes : gmap string route_row;
  peer_outbox : gmap string outbox_row;
  peer_inbox : gmap string inbox_row;
  event_artifacts : gset (string * string);
  operations : gmap (string * string) operation_row;
  current_operations : gmap (string * string) current_row;
  handlings : gmap string handling_row;
  claim_dispositions : gmap string disposition_row;
  active_references : gmap string reference_row;
  reference_lineage : gmap string lineage_row;
}.

(** The database [initializeSchema] creates. *)
Definition empty_db : db := {|
  origin_sequence := 0; principals := ∅; attachments := ∅; verified_artifacts := ∅; events := ∅;
  peer_routes := ∅; peer_outbox := ∅; peer_inbox := ∅; event_artifacts := ∅; operations := ∅;
  current_operations := ∅; handlings := ∅; claim_dispositions := ∅; active_references := ∅;
  reference_lineage := ∅ |}.

(** One table replaced. *)
Definition set_origin_sequence v (d : db) : db := {|
  origin_sequence := v; principals := d.(principals); attachments := d.(attachments);
  verified_artifacts := d.(verified_artifacts); events := d.(events);
  peer_routes := d.(peer_routes); peer_outbox := d.(peer_outbox); peer_inbox := d.(peer_inbox);
  event_artifacts := d.(event_artifacts); operations := d.(operations);
  current_operations := d.(current_operations); handlings := d.(handlings);
  claim_dispositions := d.(claim_dispositions); active_references := d.(active_references);
  reference_lineage := d.(reference_lineage) |}.
Definition set_principals v (d : db) : db := {|
  origin_sequence := d.(origin_sequence); principals := v; attachments := d.(attachments);
  verified_artifacts := d.(verified_artifacts); events := d.(events);
  peer_routes := d.(peer_routes); peer_outbox := d.(peer_outbox); peer_inbox := d.(peer_inbox);
  event_artifacts := d.(event_artifacts); operations := d.(operations);
  current_operations := d.(current_operations); handlings := d.(handlings);
  claim_dispositions := d.(claim_dispositions); active_references := d.(active_references);
  reference_lineage := d.(reference_lineage) |}.
Definition set_attachments v (d : db) : db := {|
  origin_sequence := d.(origin_sequence); principals := d.(principals); attachments := v;
  verified_artifacts := d.(verified_artifacts); events := d.(events);
  peer_routes := d.(peer_routes); peer_outbox := d.(peer_outbox); peer_inbox := d.(peer_inbox);
  event_artifacts := d.(event_artifacts); operations := d.(operations);
  current_operations := d.(current_operations); handlings := d.(handlings);
  claim_dispositions := d.(claim_dispositions); active_references := d.(active_references);
  reference_lineage := d.(reference_lineage) |}.
Definition set_verified_artifacts v (d : db) : db := {|
  origin_sequence := d.(origin_sequence); principals := d.(principals);
  attachments := d.(attachments); verified_artifacts := v; events := d.(events);
  peer_routes := d.(peer_routes); peer_outbox := d.(peer_outbox); peer_inbox := d.(peer_inbox);
  event_artifacts := d.(event_artifacts); operations := d.(operations);
  current_operations := d.(current_operations); handlings := d.(handlings);
  claim_dispositions := d.(claim_dispositions); active_references := d.(active_references);
  reference_lineage := d.(reference_lineage) |}.
Definition set_events v (d : db) : db := {|
  origin_sequence := d.(origin_sequence); principals := d.(principals);
  attachments := d.(attachments); verified_artifacts := d.(verified_artifacts); events := v;
  peer_routes := d.(peer_routes); peer_outbox := d.(peer_outbox); peer_inbox := d.(peer_inbox);
  event_artifacts := d.(event_artifacts); operations := d.(operations);
  current_operations := d.(current_operations); handlings := d.(handlings);
  claim_dispositions := d.(claim_dispositions); active_references := d.(active_references);
  reference_lineage := d.(reference_lineage) |}.
Definition set_peer_routes v (d : db) : db := {|
  origin_sequence := d.(origin_sequence); principals := d.(principals);
  attachments := d.(attachments); verified_artifacts := d.(verified_artifacts);
  events := d.(events); peer_routes := v; peer_outbox := d.(peer_outbox);
  peer_inbox := d.(peer_inbox); event_artifacts := d.(event_artifacts);
  operations := d.(operations); current_operations := d.(current_operations);
  handlings := d.(handlings); claim_dispositions := d.(claim_dispositions);
  active_references := d.(active_references); reference_lineage := d.(reference_lineage) |}.
Definition set_peer_outbox v (d : db) : db := {|
  origin_sequence := d.(origin_sequence); principals := d.(principals);
  attachments := d.(attachments); verified_artifacts := d.(verified_artifacts);
  events := d.(events); peer_routes := d.(peer_routes); peer_outbox := v;
  peer_inbox := d.(peer_inbox); event_artifacts := d.(event_artifacts);
  operations := d.(operations); current_operations := d.(current_operations);
  handlings := d.(handlings); claim_dispositions := d.(claim_dispositions);
  active_references := d.(active_references); reference_lineage := d.(reference_lineage) |}.
Definition set_peer_inbox v (d : db) : db := {|
  origin_sequence := d.(origin_sequence); principals := d.(principals);
  attachments := d.(attachments); verified_artifacts := d.(verified_artifacts);
  events := d.(events); peer_routes := d.(peer_routes); peer_outbox := d.(peer_outbox);
  peer_inbox := v; event_artifacts := d.(event_artifacts); operations := d.(operations);
  current_operations := d.(current_operations); handlings := d.(handlings);
  claim_dispositions := d.(claim_dispositions); active_references := d.(active_references);
  reference_lineage := d.(reference_lineage) |}.
Definition set_event_artifacts v (d : db) : db := {|
  origin_sequence := d.(origin_sequence); principals := d.(principals);
  attachments := d.(attachments); verified_artifacts := d.(verified_artifacts);
  events := d.(events); peer_routes := d.(peer_routes); peer_outbox := d.(peer_outbox);
  peer_inbox := d.(peer_inbox); event_artifacts := v; operations := d.(operations);
  current_operations := d.(current_operations); handlings := d.(handlings);
  claim_dispositions := d.(claim_dispositions); active_references := d.(active_references);
  reference_lineage := d.(reference_lineage) |}.
Definition set_operations v (d : db) : db := {|
  origin_sequence := d.(origin_sequence); principals := d.(principals);
  attachments := d.(attachments); verified_artifacts := d.(verified_artifacts);
  events := d.(events); peer_routes := d.(peer_routes); peer_outbox := d.(peer_outbox);
  peer_inbox := d.(peer_inbox); event_artifacts := d.(event_artifacts); operations := v;
  current_operations := d.(current_operations); handlings := d.(handlings);
  claim_dispositions := d.(claim_dispositions); active_references := d.(active_references);
  reference_lineage := d.(reference_lineage) |}.
Definition set_current_operations v (d : db) : db := {|
  origin_sequence := d.(origin_sequence); principals := d.(principals);
  attachments := d.(attachments); verified_artifacts := d.(verified_artifacts);
  events := d.(events); peer_routes := d.(peer_routes); peer_outbox := d.(peer_outbox);
  peer_inbox := d.(peer_inbox); event_artifacts := d.(event_artifacts);
  operations := d.(operations); current_operations := v; handlings := d.(handlings);
  claim_dispositions := d.(claim_dispositions); active_references := d.(active_references);
  reference_lineage := d.(reference_lineage) |}.
Definition set_handlings v (d : db) : db := {|
  origin_sequence := d.(origin_sequence); principals := d.(principals);
  attachments := d.(attachments); verified_artifacts := d.(verified_artifacts);
  events := d.(events); peer_routes := d.(peer_routes); peer_outbox := d.(peer_outbox);
  peer_inbox := d.(peer_inbox); event_artifacts := d.(event_artifacts);
  operations := d.(operations); current_operations := d.(current_operations); handlings := v;
  claim_dispositions := d.(claim_dispositions); active_references := d.(active_references);
  reference_lineage := d.(reference_lineage) |}.
Definition set_claim_dispositions v (d : db) : db := {|
  origin_sequence := d.(origin_sequence); principals := d.(principals);
  attachments := d.(attachments); verified_artifacts := d.(verified_artifacts);
  events := d.(events); peer_routes := d.(peer_routes); peer_outbox := d.(peer_outbox);
  peer_inbox := d.(peer_inbox); event_artifacts := d.(event_artifacts);
  operations := d.(operations); current_operations := d.(current_operations);
  handlings := d.(handlings); claim_dispositions := v;
  active_references := d.(active_references); reference_lineage := d.(reference_lineage) |}.
Definition set_active_references v (d : db) : db := {|
  origin_sequence := d.(origin_sequence); principals := d.(principals);
  attachments := d.(attachments); verified_artifacts := d.(verified_artifacts);
  events := d.(events); peer_routes := d.(peer_routes); peer_outbox := d.(peer_outbox);
  peer_inbox := d.(peer_inbox); event_artifacts := d.(event_artifacts);
  operations := d.(operations); current_operations := d.(current_operations);
  handlings := d.(handlings); claim_dispositions := d.(claim_dispositions);
  active_references := v; reference_lineage := d.(reference_lineage) |}.
Definition set_reference_lineage v (d : db) : db := {|
  origin_sequence := d.(origin_sequence); principals := d.(principals);
  attachments := d.(attachments); verified_artifacts := d.(verified_artifacts);
  events := d.(events); peer_routes := d.(peer_routes); peer_outbox := d.(peer_outbox);
  peer_inbox := d.(peer_inbox); event_artifacts := d.(event_artifacts);
  operations := d.(operations); current_operations := d.(current_operations);
  handlings := d.(handlings); claim_dispositions := d.(claim_dispositions);
  active_references := d.(active_references); reference_lineage := v |}.

Ltac db_simpl := cbn [set_origin_sequence set_principals set_attachments set_verified_artifacts
  set_events set_peer_routes set_peer_outbox set_peer_inbox set_event_artifacts set_operations
  set_current_operations set_handlings set_claim_dispositions set_active_references
  set_reference_lineage origin_sequence principals attachments verified_artifacts events
  peer_routes peer_outbox peer_inbox event_artifacts operations current_operations handlings
  claim_dispositions active_references reference_lineage] in *.

(** ** What a write must satisfy *)

Definition sql_error (statement : string) : error := StdError ("SQLite: " +:+ statement).

(** [sql.ErrNoRows]. *)
Definition sql_ErrNoRows : error := StdError "sql: no rows in result set".

(** A constraint the statement violates aborts it. *)
Definition constraint (holds : bool) (statement : string) : result () :=
  fail_if (negb holds) (sql_error statement).

Section tables.
Context {K R : Type} `{Countable K}.

(** [REFERENCES table(key)]. *)
Definition references (table : gmap K R) (key : K) : bool := is_some (table !! key).

Definition references_opt (table : gmap K R) (key : option K) : bool :=
  match key with Some k => references table k | None => true end.

(** The rows that satisfy a WHERE clause, with their keys. *)
Definition select (where_ : K → R → bool) (table : gmap K R) : list (K * R) :=
  filter (λ '(k, r), where_ k r = true) (map_to_list table).

Definition count (where_ : K → R → bool) (table : gmap K R) : Z := lenZ (select where_ table).

(** [SELECT EXISTS(...)]. *)
Definition exists_row (where_ : K → R → bool) (table : gmap K R) : bool :=
  existsb (λ '(k, r), where_ k r) (map_to_list table).

(** [QueryRow] over a WHERE clause that at most one row satisfies. *)
Definition query_row (where_ : K → R → bool) (table : gmap K R) : option (K * R) :=
  head (select where_ table).

(** A UNIQUE column: no other row has the (non-NULL) value. *)
Definition unique_column {X} `{EqDecision X} (column : R → option X) (row : R)
    (table : gmap K R) : bool :=
  match column row with
  | None => true
  | Some x => negb (exists_row (λ _ r, bool_decide (column r = Some x)) table)
  end.

Lemma select_elem where_ table k r :
  (k, r) ∈ select where_ table ↔ table !! k = Some r ∧ where_ k r = true.
Proof.
  unfold select. rewrite list_elem_of_filter, elem_of_map_to_list. naive_solver.
Qed.

Lemma exists_row_true where_ table :
  exists_row where_ table = true ↔ ∃ k r, table !! k = Some r ∧ where_ k r = true.
Proof.
  unfold exists_row. rewrite existsb_exists. split.
  - intros ([k r] & Hin & Hw). rewrite <- list_elem_of_In, elem_of_map_to_list in Hin. eauto.
  - intros (k & r & Hl & Hw). exists (k, r). split; [|done].
    by apply list_elem_of_In, elem_of_map_to_list.
Qed.

Lemma exists_row_false where_ table :
  exists_row where_ table = false ↔ ∀ k r, table !! k = Some r → where_ k r = false.
Proof.
  rewrite <- not_true_iff_false, exists_row_true. split.
  - intros Hn k r Hl. apply not_true_iff_false. intros Hw. eauto.
  - intros Hf (k & r & Hl & Hw). by rewrite (Hf k r Hl) in Hw.
Qed.

Lemma query_row_Some where_ table k r :
  query_row where_ table = Some (k, r) → table !! k = Some r ∧ where_ k r = true.
Proof. intros Hq. apply select_elem. unfold query_row in Hq. by apply head_Some_elem_of. Qed.

Lemma query_row_None where_ table :
  query_row where_ table = None ↔ ∀ k r, table !! k = Some r → where_ k r = false.
Proof.
  unfold query_row. rewrite head_None. split.
  - intros Hs k r Hl. apply not_true_iff_false. intros Hw.
    assert (Hin : (k, r) ∈ select where_ table) by by apply select_elem.
    rewrite Hs in Hin. by apply not_elem_of_nil in Hin.
  - intros Hf. destruct (select where_ table) as [|[k r] l] eqn:E; [done|].
    assert (Hin : (k, r) ∈ select where_ table) by (rewrite E; constructor).
    apply select_elem in Hin as [Hl Hw]. by rewrite (Hf k r Hl) in Hw.
Qed.

(** A query that a single row satisfies finds it. *)
Lemma query_row_unique where_ table k r :
  table !! k = Some r → where_ k r = true →
  (∀ k' r', table !! k' = Some r' → where_ k' r' = true → k' = k) →
  query_row where_ table = Some (k, r).
Proof.
  intros Hl Hw Hu. destruct (query_row where_ table) as [[k' r']|] eqn:E.
  - apply query_row_Some in E as [Hl' Hw']. assert (k' = k) as -> by eauto. congruence.
  - rewrite query_row_None in E. by rewrite (E k r Hl) in Hw.
Qed.

Lemma unique_column_true {X} `{EqDecision X} (column : R → option X) row table :
  unique_column column row table = true ↔
  ∀ k r x, table !! k = Some r → column row = Some x → column r ≠ Some x.
Proof.
  unfold unique_column. destruct (column row) as [x|]; [|naive_solver].
  rewrite negb_true_iff, exists_row_false. split.
  - intros Hf k r x' Hl [= <-]. specialize (Hf k r Hl). by apply bool_decide_eq_false in Hf.
  - intros Hf k r Hl. apply bool_decide_eq_false. eauto.
Qed.

(** Counting rows across writes. *)
Lemma count_insert_new where_ table k r :
  table !! k = None →
  count where_ (<[k := r]> table) = count where_ table + (if where_ k r then 1 else 0).
Proof.
  intros Hk. unfold count, select, lenZ. rewrite map_to_list_insert by done.
  rewrite filter_cons. case_decide as Hw; cbn beta iota in Hw.
  - rewrite Hw. cbn [length]. lia.
  - apply not_true_is_false in Hw. rewrite Hw. lia.
Qed.

Lemma count_delete where_ table k r :
  table !! k = Some r →
  count where_ table = count where_ (delete k table) + (if where_ k r then 1 else 0).
Proof.
  intros Hk. rewrite <- (insert_delete_id table k r Hk) at 1.
  apply count_insert_new, lookup_delete_eq.
Qed.

Lemma count_insert where_ table k old r :
  table !! k = Some old →
  count where_ (<[k := r]> table) =
  count where_ table - (if where_ k old then 1 else 0) + (if where_ k r then 1 else 0).
Proof.
  intros Hk. rewrite <- insert_delete_eq, count_insert_new by apply lookup_delete_eq.
  rewrite (count_delete where_ table k old Hk). lia.
Qed.

Lemma count_nonneg where_ (table : gmap K R) : 0 <= count where_ table.
Proof. unfold count, lenZ. lia. Qed.

Lemma count_fmap_le where_ (f : R → R) table :
  (∀ k r, where_ k (f r) = true → where_ k r = true) →
  count where_ (f <$> table) <= count where_ table.
Proof.
  intros Hf. induction table as [|k r table Hk Hfirst IH] using map_first_key_ind; [by rewrite fmap_empty|].
  rewrite fmap_insert, !count_insert_new by (by rewrite ?lookup_fmap, ?Hk).
  specialize (Hf k r). destruct (where_ k (f r)), (where_ k r); lia || naive_solver.
Qed.

Lemma references_true (table : gmap K R) k : references table k = true ↔ is_Some (table !! k).
Proof. unfold references. destruct (table !! k); simpl; split; [eauto|done|done|by intros []]. Qed.
End tables.

Lemma constraint_Ok b statement u : constraint b statement = Ok u ↔ b = true.
Proof. unfold constraint. by rewrite fail_if_Ok, negb_false_iff. Qed.

(** The CHECK of a digest column. *)
Definition digest_text (s : string) : bool :=
  (slen s =? 71) &&
  match strip_prefix "sha256:" s with
  | Some tl => forallb (λ c, in_range 48 57 c || in_range 97 102 c) (string_to_bytes tl)
  | None => false
  end && negb (bool_decide (s = Digest_String zero_digest)).

Definition is_none {A} (o : option A) : bool := negb (is_some o).

(** ** The Store *)

Record Store := { st_db : db; st_closed : bool }.

Definition requireOpen (s : Store) : result () := fail_if s.(st_closed) ErrClosed.

(** [s.now().Round(0).UTC()] is the argument. *)
Definition trustedNow (now : Time) : result Time :=
  _ ← fail_if (now =? zero_time) (Errorf "authority: clock returned zero time");
  Ok now.

(** [Close]: idempotent; the database itself is unchanged. *)
Definition Close (s : Store) : Store := {| st_db := s.(st_db); st_closed := true |}.

(** A locked method body in one transaction: the effect is kept only on
    success ([defer tx.Rollback()] discards it on every error return). *)
Definition transact {A} (s : Store) (body : db → result (A * db)) : result A * Store :=
  match requireOpen s with
  | Err e => (Err e, s)
  | Ok _ =>
      match body s.(st_db) with
      | Ok (a, d) => (Ok a, {| st_db := d; st_closed := s.(st_closed) |})
      | Err e => (Err e, s)
      end
  end.

(** A method that fails before it takes the lock. *)
Definition guarded {A B} (s : Store) (guard : result A) (k : A → result B * Store)
    : result B * Store :=
  match guard with Ok a => k a | Err e => (Err e, s) end.

(** ** Identifiers: a prefix and 16 random bytes in unpadded URL base64 *)

Definition randomIdentifierBytes : Z := 16.

Definition randomIdentifier (prefix entropy : string) : string :=
  prefix +:+ ":" +:+ base64_encode entropy.

Definition newEventID (entropy : string) : result EventID :=
  NewEventID (randomIdentifier "event" entropy).
Definition newHandlingID (entropy : string) : result HandlingID :=
  NewHandlingID (randomIdentifier "handling" entropy).
Definition newHandlingIDs (entropies : list string) : result (list HandlingID) :=
  mapR newHandlingID entropies.

(** ** Principals *)

Definition insert_principal (d : db) (principal created : string) : result db :=
  _ ← constraint (negb (references d.(principals) principal)) "UNIQUE principals.principal_id";
  Ok (set_principals (<[principal := created]> d.(principals)) d).

(** [INSERT ... ON CONFLICT DO NOTHING] outside a transaction. *)
Definition EnrollPrincipal (s : Store) (now : Time) (principal : AgentPrincipalID)
    : result () * Store :=
  guarded s (_ ← fail_if (IsZero principal) (Errorf "enroll Principal: Principal is required");
             trustedNow now) (λ now,
  transact s (λ d,
    if references d.(principals) principal then Ok ((), d)
    else d ← insert_principal d principal (formatTime now); Ok ((), d))).

Definition RequirePrincipal (s : Store) (principal : AgentPrincipalID) : result () :=
  _ ← fail_if (IsZero principal) (Errorf "require Principal: Principal is required");
  _ ← requireOpen s;
  fail_if (negb (references s.(st_db).(principals) principal)) ErrPrincipalUnavailable.

(** ** The Artifact catalog *)

Definition MaxArtifactBytes : Z := Z.shiftl 4 20.

Record VerifiedArtifact := { vf_digest : Digest; vf_byteSize : Z; vf_verifiedAt : Time }.

Definition VerifyArtifact (content : string) (verifiedAt : Time) : result VerifiedArtifact :=
  _ ← fail_if (MaxArtifactBytes <? slen content) (Errorf "verify Artifact: bytes exceed the bound");
  _ ← fail_if (verifiedAt =? zero_time) (Errorf "verify Artifact: zero verification time");
  Ok {| vf_digest := Sum content; vf_byteSize := slen content; vf_verifiedAt := verifiedAt |}.

Definition catalogArtifactTx (artifact : VerifiedArtifact) (d : db) : result (() * db) :=
  let key := Digest_String artifact.(vf_digest) in
  match d.(verified_artifacts) !! key with
  | None =>
      _ ← constraint (0 <=? artifact.(vf_byteSize)) "CHECK verified_artifacts.byte_size";
      Ok ((), set_verified_artifacts
        (<[key := {| vr_byte_size := artifact.(vf_byteSize);
                     vr_verified_at := formatTime artifact.(vf_verifiedAt) |}]>
          d.(verified_artifacts)) d)
  | Some row =>
      _ ← fail_if (negb (row.(vr_byte_size) =? artifact.(vf_byteSize)))
            (Errorf "catalog Artifact: digest metadata conflicts with durable catalog");
      Ok ((), d)
  end.

Definition CatalogArtifact (s : Store) (artifact : VerifiedArtifact) : result () * Store :=
  guarded s (fail_if (Digest_IsZero artifact.(vf_digest) || (artifact.(vf_byteSize) <? 0) ||
                      (MaxArtifactBytes <? artifact.(vf_byteSize)) ||
                      (artifact.(vf_verifiedAt) =? zero_time))
               (Errorf "catalog Artifact: incomplete or out-of-bound Artifact")) (λ _,
  transact s (catalogArtifactTx artifact)).

Definition requireArtifacts (d : db) (digests : list Digest) : result () :=
  fail_if (negb (forallb (λ digest, references d.(verified_artifacts) (Digest_String digest)) digests))
    ErrArtifactUnavailable.

Record artifactCheck := { ac_digest : Digest; ac_size : Z }.
#[export] Instance artifactCheck_eq_dec : EqDecision artifactCheck.
Proof. solve_decision. Defined.

Definition artifactChecksTx (d : db) (digests : list Digest) : result (list artifactCheck) :=
  mapR (λ digest,
    row ← of_option (d.(verified_artifacts) !! Digest_String digest) ErrArtifactUnavailable;
    Ok {| ac_digest := digest; ac_size := row.(vr_byte_size) |}) digests.

(** ** Ordered selections: [ORDER BY ... LIMIT ...] *)

Definition order_by {A} (cmp : A → A → comparison) : list A → list A :=
  merge_sort (λ x y, cmp x y ≠ Gt).

(** Lexicographic order of two columns. *)
Definition text_compare (a b : string) : comparison := String.compare a b.

(** ** Handlings *)

Definition handling_outcomes : list string := ["completed"; "declined"; "unresolved"].

Definition handling_check (row : handling_row) : bool :=
  match row.(hr_outcome) with
  | Some outcome => bool_decide (outcome ∈ handling_outcomes)
  | None => true
  end &&
  (0 <=? row.(hr_fence)) && (row.(hr_fence) <=? max_int64) && (0 <? row.(hr_created)) &&
  match row.(hr_state) with
  | HandlingOpen => is_none row.(hr_outcome)
  | HandlingTerminal => is_some row.(hr_outcome)
  end &&
  match row.(hr_claim), row.(hr_until) with
  | None, None => true
  | Some _, Some _ => bool_decide (row.(hr_state) = HandlingOpen) && (0 <? row.(hr_fence))
  | _, _ => false
  end.

(** INSERT and UPDATE write a row that satisfies the table's constraints. *)
Definition write_handling (d : db) (id : string) (row : handling_row) : result db :=
  _ ← constraint (handling_check row) "CHECK handlings";
  _ ← constraint (references d.(principals) row.(hr_target)) "FOREIGN KEY handlings.target_principal_id";
  _ ← constraint (references d.(events) row.(hr_head)) "FOREIGN KEY handlings.head_event_id";
  _ ← constraint (references_opt d.(attachments) row.(hr_claim))
        "FOREIGN KEY handlings.claim_attachment_id";
  _ ← constraint (unique_column hr_claim row (delete id d.(handlings))) "UNIQUE handlings_attachment_slot";
  Ok (set_handlings (<[id := row]> d.(handlings)) d).

Definition insert_handling (d : db) (id : string) (row : handling_row) : result db :=
  _ ← constraint (negb (references d.(handlings) id)) "UNIQUE handlings.handling_id";
  write_handling d id row.

(** A claim released: the Handling keeps its state, head and fence. *)
Definition release_claim (row : handling_row) : handling_row := {|
  hr_target := row.(hr_target); hr_head := row.(hr_head); hr_state := row.(hr_state);
  hr_outcome := row.(hr_outcome); hr_claim := None; hr_fence := row.(hr_fence);
  hr_until := None; hr_created := row.(hr_created) |}.
