(* ===== verification/EventStore.v ===== *)
(** Durable Events (internal/agency/authority/admission_apply.go, event_projection.go):
    the row and Artifact pins [insertEventTx] writes, and the checks a stored
    Event passes on every load. *)

From Stdlib Require Import Lia.
From S2P Require Import Prelude Utf8 Json Wire Sha256 Time StoreTime Value Intent Bound Event Store.

#[local] Open Scope Z_scope.
#[local] Arguments String.append : simpl nomatch.

(** ** Writing *)

Definition event_row_of (event : Event) : event_row := {|
  evr_digest := Digest_String event.(ev_digest); evr_origin_sequence := event.(ev_originSequence);
  evr_source := event.(ev_source); evr_request_digest := Digest_String event.(ev_requestDigest);
  evr_causal_depth := event.(ev_causalDepth); evr_accepted_at := formatTime event.(ev_acceptedAt);
  evr_canonical := event.(ev_canonical) |}.

Definition insert_event_row (d : db) (id : string) (row : event_row) : result db :=
  let table := d.(events) in
  _ ← constraint (negb (references table id)) "UNIQUE events.event_id";
  _ ← constraint (unique_column (λ r, Some r.(evr_digest)) row table) "UNIQUE events.event_digest";
  _ ← constraint (unique_column (λ r, Some r.(evr_origin_sequence)) row table)
        "UNIQUE events.origin_sequence";
  _ ← constraint (0 <? row.(evr_origin_sequence)) "CHECK events.origin_sequence";
  _ ← constraint (references d.(principals) row.(evr_source)) "FOREIGN KEY events.source_principal_id";
  _ ← constraint ((0 <=? row.(evr_causal_depth)) && (row.(evr_causal_depth) <=? 32))
        "CHECK events.causal_depth";
  Ok (set_events (<[id := row]> table) d).

Definition pin_artifact (id : string) (d : db) (digest : Digest) : result db :=
  let pin := (id, Digest_String digest) in
  _ ← constraint (negb (bool_decide (pin ∈ d.(event_artifacts)))) "UNIQUE event_artifacts";
  _ ← constraint (references d.(events) id) "FOREIGN KEY event_artifacts.event_id";
  _ ← constraint (references d.(verified_artifacts) (Digest_String digest))
        "FOREIGN KEY event_artifacts.artifact_digest";
  Ok (set_event_artifacts ({[pin]} ∪ d.(event_artifacts)) d).

Definition insertEventTx (d : db) (event : Event) : result db :=
  d ← wrap_error "admit Intent: persist Event"
        (insert_event_row d event.(ev_id) (event_row_of event));
  wrap_error "admit Intent: pin Artifact"
    (foldR (pin_artifact event.(ev_id)) d event.(ev_artifacts)).

(** ** Reading *)

(** [SELECT artifact_digest ... WHERE event_id = ? ORDER BY artifact_digest]. *)
Definition event_pins (d : db) (id : string) : list string :=
  sort_by (λ s : string, s) (map snd (filter (λ p, p.1 = id) (elements d.(event_artifacts)))).

Definition loadEventArtifactsTx (d : db) (id : EventID) : result (list Digest) :=
  mapR (λ value, or_error (ParseDigest value) (Errorf "current View: corrupt Event Artifact digest"))
    (event_pins d id).

Record storedEventDetails := {
  sd_ref : EventRef;
  sd_kind : SemanticLabel;
  sd_payload : SemanticPayload;
  sd_artifacts : list Digest;
  sd_causation : list EventRef;
  sd_correlation : EventRef;
  sd_consequence : Consequence;
  sd_inReplyTo : DeliveryID;
}.

Definition validateStoredEventAuthority (event : Event) (id : string) (row : event_row) : result () :=
  _ ← fail_if (negb (bool_decide (event.(ev_id) = id)) ||
               negb (event.(ev_originSequence) =? row.(evr_origin_sequence)) ||
               negb (event.(ev_causalDepth) =? row.(evr_causal_depth)) ||
               negb (bool_decide (event.(ev_source) = row.(evr_source))) ||
               negb (bool_decide (Digest_String event.(ev_requestDigest) = row.(evr_request_digest))))
        (Errorf "current View: Event authority columns diverge from canonical bytes");
  let diverges := Errorf "current View: Event accepted time diverges from canonical bytes" in
  acceptedAt ← or_error (parseTime row.(evr_accepted_at)) diverges;
  fail_if (negb (acceptedAt =? event.(ev_acceptedAt))) diverges.

(** The details, and the Artifacts of the canonical bytes. *)
Definition inspectStoredEventDetails (id : string) (row : event_row)
    : result (storedEventDetails * list Digest) :=
  let corrupt := Errorf "current View: corrupt Event bytes" in
  digest ← or_error (ParseDigest row.(evr_digest)) corrupt;
  _ ← fail_if (negb (bool_decide (Sum row.(evr_canonical) = digest))) corrupt;
  event ← wrap_error "current View: invalid Event projection"
            (ParseEventCanonicalJSON row.(evr_canonical));
  _ ← fail_if (negb (bool_decide (event.(ev_digest) = digest))) corrupt;
  _ ← validateStoredEventAuthority event id row;
  Ok ({| sd_ref := Event_Ref event; sd_kind := event.(ev_kind); sd_payload := event.(ev_payload);
         sd_artifacts := []; sd_causation := event.(ev_causation);
         sd_correlation := event.(ev_correlation); sd_consequence := event.(ev_consequence);
         sd_inReplyTo := event.(ev_inReplyToDelivery) |}, event.(ev_artifacts)).

Definition inspectStoredEvent (id : string) (row : event_row) : result EventRef :=
  '(details, _) ← inspectStoredEventDetails id row; Ok details.(sd_ref).

Definition with_artifacts (details : storedEventDetails) (artifacts : list Digest)
    : storedEventDetails :=
  {| sd_ref := details.(sd_ref); sd_kind := details.(sd_kind); sd_payload := details.(sd_payload);
     sd_artifacts := artifacts; sd_causation := details.(sd_causation);
     sd_correlation := details.(sd_correlation); sd_consequence := details.(sd_consequence);
     sd_inReplyTo := details.(sd_inReplyTo) |}.

Definition loadStoredEventDetailsTx (d : db) (id : string) : result storedEventDetails :=
  row ← of_option (d.(events) !! id) (Wrapped "current View: load Event" sql_ErrNoRows);
  '(details, canonicalArtifacts) ← inspectStoredEventDetails id row;
  artifacts ← loadEventArtifactsTx d details.(sd_ref).(er_id);
  _ ← fail_if (negb (bool_decide (canonicalArtifacts = artifacts)))
        (Errorf "current View: Event Artifact pins diverge from canonical bytes");
  Ok (with_artifacts details artifacts).

Definition loadStoredEventTx (d : db) (id : string)
    : result (EventRef * SemanticLabel * SemanticPayload * list Digest) :=
  details ← loadStoredEventDetailsTx d id;
  Ok (details.(sd_ref), details.(sd_kind), details.(sd_payload), details.(sd_artifacts)).

(** ** What was written reads back *)

(** A sealed Event whose parts parse. *)
Definition sealed_event (e : Event) : Prop :=
  ∃ e0, event_ok e0 ∧ sealEvent e0 = Ok e ∧ Digest_IsZero e.(ev_digest) = false.

Lemma sealEvent_Ok e0 e :
  sealEvent e0 = Ok e →
  e = with_seal e0 (canonical_bytes (event_wire e0)) (Sum (canonical_bytes (event_wire e0))).
Proof.
  unfold sealEvent, canonicalJSON. cbn [mbind result_bind]. intros H.
  apply bind_Ok in H as ([] & _ & H). by injection H as <-.
Qed.

Lemma sealed_event_digest e :
  sealed_event e → Sum e.(ev_canonical) = e.(ev_digest) ∧ digest_ok e.(ev_digest).
Proof.
  intros (e0 & _ & Hs & Hz). apply sealEvent_Ok in Hs as ->.
  cbn [with_seal ev_canonical ev_digest] in *. split; [done|]. split; [apply sha256_length|done].
Qed.

Lemma validate_sealed e :
  time_ok e.(ev_acceptedAt) →
  validateStoredEventAuthority (erase_handles e) e.(ev_id) (event_row_of e) = Ok ().
Proof.
  intros Ht. unfold validateStoredEventAuthority.
  apply bind_Ok. exists (). split.
  { apply fail_if_Ok. cbn [event_row_of erase_handles ev_id ev_originSequence ev_causalDepth ev_source
      ev_requestDigest evr_origin_sequence evr_causal_depth evr_source evr_request_digest].
    by rewrite !bool_decide_eq_true_2, !Z.eqb_refl by done. }
  cbv zeta. apply bind_Ok. exists (ev_acceptedAt e). split.
  { apply or_error_Ok. exact (parseTime_format _ (int64_four_digit _ (proj2 Ht))). }
  apply fail_if_Ok. cbn [erase_handles ev_acceptedAt]. by rewrite Z.eqb_refl.
Qed.

Lemma inspect_sealed e :
  sealed_event e →
  inspectStoredEventDetails e.(ev_id) (event_row_of e) =
  Ok ({| sd_ref := Event_Ref e; sd_kind := e.(ev_kind); sd_payload := e.(ev_payload);
         sd_artifacts := []; sd_causation := e.(ev_causation);
         sd_correlation := e.(ev_correlation); sd_consequence := e.(ev_consequence);
         sd_inReplyTo := e.(ev_inReplyToDelivery) |}, e.(ev_artifacts)).
Proof.
  intros He. pose proof (sealed_event_digest e He) as [Hsum [Hw Hz]].
  destruct He as (e0 & Hok & Hs & _). unfold inspectStoredEventDetails.
  cbv zeta. apply bind_Ok. exists (ev_digest e). split.
  { apply or_error_Ok. by apply ParseDigest_String. }
  apply bind_Ok. exists (). split.
  { apply fail_if_Ok. by rewrite bool_decide_eq_true_2. }
  apply bind_Ok. exists (erase_handles e). split.
  { apply wrap_error_Ok. exact (ParseEventCanonicalJSON_seal e0 e Hok Hs). }
  apply bind_Ok. exists (). split.
  { apply fail_if_Ok. by rewrite bool_decide_eq_true_2. }
  apply bind_Ok. exists (). split; [|done]. apply validate_sealed.
  apply sealEvent_Ok in Hs as ->. apply Hok.
Qed.

Lemma pin_artifacts_Ok id xs d d' :
  foldR (pin_artifact id) d xs = Ok d' →
  d' = set_event_artifacts d'.(event_artifacts) d ∧
  Forall (λ x, is_Some (d.(verified_artifacts) !! Digest_String x)) xs ∧
  ∀ p, p ∈ d'.(event_artifacts) ↔ p ∈ map (λ x, (id, Digest_String x)) xs ∨ p ∈ d.(event_artifacts).
Proof.
  revert d. induction xs as [|x xs IH]; intros d H; cbn [foldR] in H.
  { injection H as <-. split_and!; [by destruct d|constructor|]. intros p. cbn. set_solver. }
  apply bind_Ok in H as (d1 & H1 & H). unfold pin_artifact in H1.
  apply bind_Ok in H1 as ([] & _ & H1). apply bind_Ok in H1 as ([] & _ & H1).
  apply bind_Ok in H1 as ([] & Hv & H1). injection H1 as <-.
  apply constraint_Ok, references_true in Hv. apply IH in H as (E & Hall & Hp). db_simpl.
  split_and!; [rewrite E; by destruct d|by constructor|].
  intros p. rewrite Hp. cbn. set_solver.
Qed.

(** A sealed Event's pins, once written, are its Artifacts in their own order. *)
Lemma event_pins_written d id xs :
  StronglySorted (key_le Digest_String) xs → NoDup xs →
  (∀ s, (id, s) ∈ d.(event_artifacts) ↔ s ∈ map Digest_String xs) →
  event_pins d id = map Digest_String xs.
Proof.
  intros Hs Hnd Hin. unfold event_pins. apply sort_by_unique; [done| |].
  - apply NoDup_Permutation.
    + apply NoDup_fmap_2_strong; [|by apply NoDup_filter, NoDup_elements].
      intros [i s] [i' s'] H1 H2 E. rewrite list_elem_of_filter in H1, H2. cbn in *.
      destruct H1 as [-> _], H2 as [-> _]. congruence.
    + apply NoDup_fmap_2; [|done]. intros ? ?. apply Digest_String_inj.
    + intros s. rewrite <- Hin. rewrite list_elem_of_fmap. split.
      * intros ([i s'] & -> & H). rewrite list_elem_of_filter, elem_of_elements in H.
        cbn in *. by destruct H as [-> H].
      * intros H. exists (id, s). split; [done|]. by rewrite list_elem_of_filter, elem_of_elements.
  - clear Hnd Hin. induction Hs as [|x xs Hs IH Hx]; cbn [map]; constructor; [done|].
    by apply Forall_map.
Qed.

Lemma loadEventArtifacts_written d id xs :
  Forall digest_ok xs → event_pins d id = map Digest_String xs →
  loadEventArtifactsTx d id = Ok xs.
Proof.
  intros Hok Hp. unfold loadEventArtifactsTx. rewrite Hp. apply mapR_inverse.
  eapply Forall_impl; [done|]. intros x [Hw Hz]. by rewrite ParseDigest_String.
Qed.

(** The columns and pins of a stored Event agree with its canonical bytes. *)
Record stored (d : db) (e : Event) : Prop := {
  st_sealed : sealed_event e;
  st_row : d.(events) !! e.(ev_id) = Some (event_row_of e);
  st_pins : ∀ s, (e.(ev_id), s) ∈ d.(event_artifacts) ↔ s ∈ map Digest_String e.(ev_artifacts);
}.

Lemma sealed_event_ok e : sealed_event e → event_ok e.
Proof. intros (e0 & Hok & Hs & _). apply sealEvent_Ok in Hs as ->. destruct Hok. by split. Qed.

Definition details_of (e : Event) : storedEventDetails := {|
  sd_ref := Event_Ref e; sd_kind := e.(ev_kind); sd_payload := e.(ev_payload);
  sd_artifacts := e.(ev_artifacts); sd_causation := e.(ev_causation);
  sd_correlation := e.(ev_correlation); sd_consequence := e.(ev_consequence);
  sd_inReplyTo := e.(ev_inReplyToDelivery) |}.

Lemma loadStoredEventDetails_stored d e :
  stored d e → loadStoredEventDetailsTx d e.(ev_id) = Ok (details_of e).
Proof.
  intros [Hsealed Hrow Hpins]. unfold loadStoredEventDetailsTx. rewrite Hrow.
  cbn [of_option mbind result_bind]. rewrite inspect_sealed by done. cbn [mbind result_bind sd_ref].
  pose proof (sealed_event_ok e Hsealed) as Hok.
  cbn [Event_Ref er_id]. rewrite (loadEventArtifacts_written d _ (ev_artifacts e)).
  - cbn [mbind result_bind]. by rewrite bool_decide_eq_true_2.
  - apply Hok.
  - apply event_pins_written; [apply Hok|apply Hok|exact Hpins].
Qed.

(** Pins name stored Events. *)
Definition pins_closed (d : db) : Prop :=
  ∀ id s, (id, s) ∈ d.(event_artifacts) → is_Some (d.(events) !! id).

Lemma insert_event_row_Ok d id row d' :
  insert_event_row d id row = Ok d' →
  d' = set_events (<[id := row]> d.(events)) d ∧ d.(events) !! id = None ∧
  is_Some (d.(principals) !! row.(evr_source)) ∧
  0 <= row.(evr_causal_depth) <= 32 ∧ 0 < row.(evr_origin_sequence) ∧
  ∀ k r, d.(events) !! k = Some r → r.(evr_origin_sequence) ≠ row.(evr_origin_sequence) ∧
                                    r.(evr_digest) ≠ row.(evr_digest).
Proof.
  unfold insert_event_row. cbv zeta. intros H. apply bind_Ok in H as ([] & H1 & H).
  apply bind_Ok in H as ([] & H2 & H). apply bind_Ok in H as ([] & H3 & H).
  apply bind_Ok in H as ([] & H4 & H). apply bind_Ok in H as ([] & H5 & H).
  apply bind_Ok in H as ([] & H6 & H). injection H as <-.
  rewrite constraint_Ok in H1, H2, H3, H4, H5, H6.
  apply references_true in H5. apply andb_prop in H6 as [H6 H6'].
  rewrite unique_column_true in H2. rewrite unique_column_true in H3. rewrite negb_true_iff in H1. unfold references in H1.
  split_and!; [done|by destruct (_ !! id)|done|lia|lia|lia|].
  intros k r Hk. split; intros E.
  - eapply H3; [exact Hk|done|]. by rewrite E.
  - eapply H2; [exact Hk|done|]. by rewrite E.
Qed.

Lemma insertEventTx_Ok d e d' :
  insertEventTx d e = Ok d' →
  ∃ pins, d' = set_event_artifacts pins (set_events (<[e.(ev_id) := event_row_of e]> d.(events)) d) ∧
    (∀ p, p ∈ pins ↔ p ∈ map (λ x, (e.(ev_id), Digest_String x)) e.(ev_artifacts) ∨
                     p ∈ d.(event_artifacts)) ∧
    d.(events) !! e.(ev_id) = None ∧ is_Some (d.(principals) !! e.(ev_source)) ∧
    0 <= e.(ev_causalDepth) <= 32 ∧ 0 < e.(ev_originSequence) ∧
    Forall (λ x, is_Some (d.(verified_artifacts) !! Digest_String x)) e.(ev_artifacts) ∧
    (∀ k r, d.(events) !! k = Some r → r.(evr_origin_sequence) ≠ e.(ev_originSequence)).
Proof.
  unfold insertEventTx. intros H. apply bind_Ok in H as (d1 & H1 & H).
  rewrite wrap_error_Ok in H1, H.
  apply insert_event_row_Ok in H1 as (-> & Hfresh & Hsrc & Hdepth & Hseq & Huniq).
  apply pin_artifacts_Ok in H as (E & Hall & Hp). db_simpl.
  exists (event_artifacts d'). split_and!; try done; try apply Hdepth.
  intros k r Hk. by apply (Huniq k r Hk).
Qed.

Lemma insertEventTx_stored d e d' :
  sealed_event e → pins_closed d → insertEventTx d e = Ok d' →
  stored d' e ∧ pins_closed d' ∧ ∀ e2, stored d e2 → stored d' e2.
Proof.
  intros Hs Hc (pins & -> & Hp & Hfresh & _)%insertEventTx_Ok.
  assert (Hno : ∀ s, (ev_id e, s) ∉ d.(event_artifacts)).
  { intros s Hin. apply Hc in Hin as [r Hr]. congruence. }
  split_and!.
  - split; db_simpl; [done|by rewrite lookup_insert_eq|].
    intros s. rewrite Hp, list_elem_of_fmap. split.
    + intros [(x & [= ->] & Hx)|Hin]; [|by apply Hno in Hin]. apply list_elem_of_fmap. eauto.
    + intros (x & -> & Hx)%list_elem_of_fmap. eauto.
  - intros id s. db_simpl. rewrite Hp, list_elem_of_fmap. intros [(x & [= -> ->] & Hx)|Hin].
    + rewrite lookup_insert_eq. eauto.
    + apply Hc in Hin as [r Hr]. destruct (decide (id = ev_id e)) as [->|Hne]; [congruence|].
      rewrite lookup_insert_ne by done. eauto.
  - intros e2 [Hs2 Hr2 Hp2].
    assert (Hne : ev_id e2 ≠ ev_id e) by (intros E; rewrite E in Hr2; congruence).
    split; db_simpl; [done|by rewrite lookup_insert_ne|].
    intros s. rewrite Hp, <- Hp2, list_elem_of_fmap. split; [|by right].
    intros [(x & [= E _] & _)|Hin]; [congruence|done].
Qed.
