(* ===== verification/Attach.v ===== *)
(** Host boundaries (internal/agency/authority/attachment.go, attachment_begin.go,
    attachment_end.go) and the release of the claims they occupy
    (claim_disposition.go). *)

From Stdlib Require Import Lia.
From S2P Require Import Prelude Utf8 Json Wire Sha256 Time StoreTime Value Intent Bound Event Base64 Store.

#[local] Open Scope Z_scope.
#[local] Arguments String.append : simpl nomatch.

Definition interactiveAttachmentLifetime : Z := 15 * 60 * ns_per_second.
Definition attachmentCredentialBytes : Z := 32.

(** ** Wire structs *)

Record attachmentBeginRequestWire := {
  abw_BoundaryDigest : string;
  abw_Mode : string;
  abw_Principal : string;
  abw_Schema : string;
  abw_Version : Z;
}.
#[export] Instance attachmentBeginRequestWire_codec : Codec attachmentBeginRequestWire := {
  enc w := struct [
    field "boundary_digest" w.(abw_BoundaryDigest); field "mode" w.(abw_Mode);
    field "principal" w.(abw_Principal); field "schema" w.(abw_Schema);
    @field Z int_codec "version" w.(abw_Version)];
  dec_value j :=
    ms ← members_of
      ["boundary_digest"; "mode"; "principal"; "schema"; "version"] j;
    xBoundaryDigest ← get "boundary_digest" ms; xMode ← get "mode" ms;
    xPrincipal ← get "principal" ms; xSchema ← get "schema" ms;
    xVersion ← @get Z int_codec "version" ms;
    Ok {| abw_BoundaryDigest := xBoundaryDigest; abw_Mode := xMode;
          abw_Principal := xPrincipal; abw_Schema := xSchema; abw_Version := xVersion |};
  zero := {| abw_BoundaryDigest := zero; abw_Mode := zero; abw_Principal := zero; abw_Schema := zero;
    abw_Version := 0%Z |};
  empty _ := false;
  enc_ok w := enc_ok w.(abw_BoundaryDigest) ∧ enc_ok w.(abw_Mode) ∧ enc_ok w.(abw_Principal) ∧
    enc_ok w.(abw_Schema) ∧ @enc_ok Z int_codec w.(abw_Version);
}.
#[export] Instance attachmentBeginRequestWire_laws : CodecLaws attachmentBeginRequestWire.
Proof. solve_struct. Qed.

Record claimExpiryRequestWire := {
  cew_Schema : string;
  cew_Handling : string;
  cew_Attachment : string;
  cew_Fence : Z;
  cew_ClaimUntil : string;
}.
#[export] Instance claimExpiryRequestWire_codec : Codec claimExpiryRequestWire := {
  enc w := struct [
    field "schema" w.(cew_Schema); field "handling" w.(cew_Handling);
    field "attachment" w.(cew_Attachment); @field Z uint64_codec "fence" w.(cew_Fence);
    field "claim_until" w.(cew_ClaimUntil)];
  dec_value j :=
    ms ← members_of
      ["schema"; "handling"; "attachment"; "fence"; "claim_until"] j;
    xSchema ← get "schema" ms; xHandling ← get "handling" ms;
    xAttachment ← get "attachment" ms; xFence ← @get Z uint64_codec "fence" ms;
    xClaimUntil ← get "claim_until" ms;
    Ok {| cew_Schema := xSchema; cew_Handling := xHandling; cew_Attachment := xAttachment;
          cew_Fence := xFence; cew_ClaimUntil := xClaimUntil |};
  zero := {| cew_Schema := zero; cew_Handling := zero; cew_Attachment := zero; cew_Fence := 0%Z;
    cew_ClaimUntil := zero |};
  empty _ := false;
  enc_ok w := enc_ok w.(cew_Schema) ∧ enc_ok w.(cew_Handling) ∧ enc_ok w.(cew_Attachment) ∧
    @enc_ok Z uint64_codec w.(cew_Fence) ∧ enc_ok w.(cew_ClaimUntil);
}.
#[export] Instance claimExpiryRequestWire_laws : CodecLaws claimExpiryRequestWire.
Proof. solve_struct. Qed.

Record claimExpiryOutcomeWire := {
  cow_Schema : string;
  cow_OperationKey : string;
  cow_RequestDigest : string;
  cow_Outcome : string;
  cow_RecordedAt : string;
}.
#[export] Instance claimExpiryOutcomeWire_codec : Codec claimExpiryOutcomeWire := {
  enc w := struct [
    field "schema" w.(cow_Schema); field "operation_key" w.(cow_OperationKey);
    field "request_digest" w.(cow_RequestDigest); field "outcome" w.(cow_Outcome);
    field "recorded_at" w.(cow_RecordedAt)];
  dec_value j :=
    ms ← members_of
      ["schema"; "operation_key"; "request_digest"; "outcome"; "recorded_at"] j;
    xSchema ← get "schema" ms; xOperationKey ← get "operation_key" ms;
    xRequestDigest ← get "request_digest" ms; xOutcome ← get "outcome" ms;
    xRecordedAt ← get "recorded_at" ms;
    Ok {| cow_Schema := xSchema; cow_OperationKey := xOperationKey;
          cow_RequestDigest := xRequestDigest; cow_Outcome := xOutcome;
          cow_RecordedAt := xRecordedAt |};
  zero := {| cow_Schema := zero; cow_OperationKey := zero; cow_RequestDigest := zero;
    cow_Outcome := zero; cow_RecordedAt := zero |};
  empty _ := false;
  enc_ok w := enc_ok w.(cow_Schema) ∧ enc_ok w.(cow_OperationKey) ∧ enc_ok w.(cow_RequestDigest) ∧
    enc_ok w.(cow_Outcome) ∧ enc_ok w.(cow_RecordedAt);
}.
#[export] Instance claimExpiryOutcomeWire_laws : CodecLaws claimExpiryOutcomeWire.
Proof. solve_struct. Qed.

(** ** Proofs and authentication *)

Record AttachmentProof := { ap_id : AttachmentID; ap_credential : string; ap_expiresAt : Time }.

Definition NewAttachmentProof (id : AttachmentID) (credential : string) : result AttachmentProof :=
  _ ← fail_if (IsZero id || negb (slen credential =? attachmentCredentialBytes))
        (Errorf "attachment proof: exact ID and credential are required");
  Ok {| ap_id := id; ap_credential := credential; ap_expiresAt := zero_time |}.

Definition with_expiry (proof : AttachmentProof) (expiresAt : Time) : AttachmentProof :=
  {| ap_id := proof.(ap_id); ap_credential := proof.(ap_credential); ap_expiresAt := expiresAt |}.

Record authenticatedAttachment := { aa_value : Attachment; aa_endedAt : option Time }.

Definition authenticateAttachmentTx (d : db) (proof : AttachmentProof)
    : result authenticatedAttachment :=
  _ ← fail_if (IsZero proof.(ap_id)) ErrAttachmentAuth;
  row ← of_option (d.(attachments) !! proof.(ap_id)) ErrAttachmentAuth;
  _ ← fail_if (negb (bool_decide (row.(atr_mode) = "interactive")))
        (Errorf "authenticate attachment: unsupported mode");
  parsedStoredDigest ← or_error (ParseDigest row.(atr_credential_digest))
    (Errorf "authenticate attachment: corrupt credential digest");
  _ ← fail_if (negb (bool_decide (Sum proof.(ap_credential) = parsedStoredDigest))) ErrAttachmentAuth;
  principal ← or_error (NewAgentPrincipalID row.(atr_principal))
    (Errorf "authenticate attachment: corrupt Principal");
  issuedAt ← parseTime row.(atr_issued_at);
  expiresAt ← parseTime row.(atr_expires_at);
  attachment ← wrap_error "authenticate attachment: corrupt authority"
    (NewAttachment proof.(ap_id) principal true issuedAt expiresAt);
  endedAt ← match row.(atr_ended_at) with
            | None => Ok None
            | Some value =>
                let corrupt := Errorf "authenticate attachment: corrupt end time" in
                parsed ← or_error (parseTime value) corrupt;
                _ ← fail_if (parsed <? issuedAt) corrupt;
                Ok (Some parsed)
            end;
  Ok {| aa_value := attachment; aa_endedAt := endedAt |}.

Definition requireLiveAttachment (attachment : authenticatedAttachment) (now : Time) : result () :=
  _ ← fail_if (is_some attachment.(aa_endedAt)) ErrAttachmentEnded;
  fail_if (negb (now <? attachment.(aa_value).(at_expiresAt))) ErrAttachmentExpired.

(** ** Claims and their disposition *)

Definition MaxClaimExpirySettlementsPerCurrent : Z := 16.
Definition claimExpiryOperationDomain : string := "mnemon.claim-expiry.operation.v1" +:+ String "000" "".
Definition claimBoundaryEndOperationDomain : string :=
  "mnemon.claim-boundary-end.operation.v1" +:+ String "000" "".

Record expiredClaim := {
  ec_handling : HandlingID; ec_attachment : AttachmentID; ec_fence : Z; ec_claimUntil : Time;
}.

(** NULL columns do not scan into Go strings. *)
Definition scanExpiredClaim (id : string) (row : handling_row) : result expiredClaim :=
  let scan := Wrapped "claim expiry: scan" (StdError "sql: Scan") in
  attachmentValue ← of_option row.(hr_claim) scan;
  untilValue ← of_option row.(hr_until) scan;
  handling ← or_error (NewHandlingID id) (Errorf "claim expiry: corrupt Handling ID");
  let corrupt := Errorf "claim expiry: corrupt claim authority" in
  attachment ← or_error (NewAttachmentID attachmentValue) corrupt;
  _ ← fail_if (row.(hr_fence) =? 0) corrupt;
  claimUntil ← parseTime untilValue;
  Ok {| ec_handling := handling; ec_attachment := attachment; ec_fence := row.(hr_fence);
        ec_claimUntil := claimUntil |}.

Definition claim_request (schema : string) (claim : expiredClaim) : claimExpiryRequestWire := {|
  cew_Schema := schema; cew_Handling := claim.(ec_handling); cew_Attachment := claim.(ec_attachment);
  cew_Fence := claim.(ec_fence); cew_ClaimUntil := formatTime claim.(ec_claimUntil) |}.

(** Key and request digest of a disposition, for its schema, key domain and
    key prefix. *)
Definition claim_identity (schema domain prefix context : string) (claim : expiredClaim)
    : result (OperationKey * Digest) :=
  let request := canonical_bytes (claim_request schema claim) in
  let keyDigest := Sum (domain +:+ request) in
  key ← wrap_error context (NewOperationKey (prefix +:+ Digest_String keyDigest));
  Ok (key, Sum request).

Definition claimExpiryIdentity : expiredClaim → result (OperationKey * Digest) :=
  claim_identity "mnemon.claim-expiry" claimExpiryOperationDomain "claim-expiry:"
    "claim expiry: operation key".

Definition claim_outcome (schema : string) (key : OperationKey) (requestDigest : Digest) (now : Time)
    : claimExpiryOutcomeWire := {|
  cow_Schema := schema; cow_OperationKey := key; cow_RequestDigest := Digest_String requestDigest;
  cow_Outcome := "claim_released"; cow_RecordedAt := formatTime now |}.

(** [UPDATE handlings SET claim_attachment_id = NULL, claim_until = NULL WHERE ...]:
    the row when it is the exact open claim. *)
Definition exact_claim (d : db) (claim : expiredClaim) : option handling_row :=
  row ← d.(handlings) !! claim.(ec_handling);
  if bool_decide (row.(hr_state) = HandlingOpen) &&
     bool_decide (row.(hr_claim) = Some claim.(ec_attachment)) &&
     (row.(hr_fence) =? claim.(ec_fence)) &&
     bool_decide (row.(hr_until) = Some (formatTime claim.(ec_claimUntil)))
  then Some row else None.

Definition insert_disposition (d : db) (key : string) (row : disposition_row) : result db :=
  let table := d.(claim_dispositions) in
  _ ← constraint (negb (references table key)) "UNIQUE claim_dispositions.disposition_key";
  _ ← constraint (unique_column (λ r, Some (r.(dr_handling), r.(dr_fence))) row table)
        "UNIQUE claim_dispositions(handling_id, claim_fence)";
  _ ← constraint (references d.(handlings) row.(dr_handling)) "FOREIGN KEY claim_dispositions.handling_id";
  _ ← constraint (references d.(attachments) row.(dr_attachment))
        "FOREIGN KEY claim_dispositions.attachment_id";
  _ ← constraint (0 <? row.(dr_fence)) "CHECK claim_dispositions.claim_fence";
  Ok (set_claim_dispositions (<[key := row]> table) d).

Definition disposition_of (kind : disposition_kind) (claim : expiredClaim) (requestDigest : Digest)
    (outcome : string) (now : Time) : disposition_row := {|
  dr_kind := kind; dr_request_digest := Digest_String requestDigest;
  dr_handling := claim.(ec_handling); dr_attachment := claim.(ec_attachment);
  dr_fence := claim.(ec_fence); dr_until := formatTime claim.(ec_claimUntil);
  dr_outcome_digest := Digest_String (Sum outcome); dr_outcome := outcome;
  dr_recorded_at := formatTime now |}.

Definition insertClaimExpiryTx (d : db) (now : Time) (claim : expiredClaim) (key : OperationKey)
    (requestDigest : Digest) : result db :=
  let outcome := canonical_bytes (claim_outcome "mnemon.claim-expiry-outcome" key requestDigest now) in
  wrap_error "claim expiry: persist outcome"
    (insert_disposition d key (disposition_of DispositionExpiry claim requestDigest outcome now)).

(** [json.Unmarshal] accepts more than the wire's own members, but the bytes
    must then equal the re-encoded struct: the strict decoder accepts exactly
    the same bytes. *)
Definition validateClaimExpiryOutcome (value : string) (claim : expiredClaim) (key : OperationKey)
    (requestDigest : Digest) (recordedValue : string) : result () :=
  j ← parse_all value;
  outcome ← @dec claimExpiryOutcomeWire _ j;
  _ ← fail_if (negb (bool_decide (canonical_bytes outcome = value)))
        (Errorf "claim expiry: outcome is not canonical");
  _ ← fail_if (negb (bool_decide (outcome.(cow_Schema) = "mnemon.claim-expiry-outcome")) ||
               negb (bool_decide (outcome.(cow_OperationKey) = key)) ||
               negb (bool_decide (outcome.(cow_RequestDigest) = Digest_String requestDigest)) ||
               negb (bool_decide (outcome.(cow_Outcome) = "claim_released")) ||
               negb (bool_decide (outcome.(cow_RecordedAt) = recordedValue)))
        (Errorf "claim expiry: outcome authority diverges");
  recordedAt ← parseTime recordedValue;
  fail_if (recordedAt <? claim.(ec_claimUntil))
    (Errorf "claim expiry: outcome predates the expired claim").

Definition expiry_row (d : db) (key : OperationKey) : option disposition_row :=
  row ← d.(claim_dispositions) !! key;
  if bool_decide (row.(dr_kind) = DispositionExpiry) then Some row else None.

Definition replayClaimExpiryTx (d : db) (claim : expiredClaim) (key : OperationKey)
    (requestDigest : Digest) : result bool :=
  match expiry_row d key with
  | None => Ok false
  | Some row =>
      _ ← fail_if (negb (bool_decide (row.(dr_request_digest) = Digest_String requestDigest)))
            ErrOperationConflict;
      _ ← fail_if (negb (bool_decide (row.(dr_handling) = claim.(ec_handling))) ||
                   negb (bool_decide (row.(dr_attachment) = claim.(ec_attachment))) ||
                   negb (row.(dr_fence) =? claim.(ec_fence)) ||
                   negb (bool_decide (row.(dr_until) = formatTime claim.(ec_claimUntil))))
            (Errorf "claim expiry: replay authority diverges");
      let corrupt := Errorf "claim expiry: corrupt replay outcome" in
      outcomeDigest ← or_error (ParseDigest row.(dr_outcome_digest)) corrupt;
      _ ← fail_if (negb (bool_decide (Sum row.(dr_outcome) = outcomeDigest))) corrupt;
      _ ← or_error (validateClaimExpiryOutcome row.(dr_outcome) claim key requestDigest
                      row.(dr_recorded_at)) corrupt;
      _ ← fail_if (is_some (exact_claim d claim))
            (Errorf "claim expiry: replay outcome exists without released claim");
      Ok true
  end.

(** The guarded UPDATE clears one claim; [AND claim_until <= now] compares the
    stored texts. *)
Definition settleClaimExpiryTx (now : Time) (d : db) (claim : expiredClaim) : result db :=
  '(key, requestDigest) ← claimExpiryIdentity claim;
  found ← replayClaimExpiryTx d claim key requestDigest;
  if (found : bool) then Ok d else
  row ← of_option (exact_claim d claim)
          (Errorf "claim expiry: exact claim changed before settlement");
  _ ← fail_if (negb (String.leb (formatTime claim.(ec_claimUntil)) (formatTime now)))
        (Errorf "claim expiry: exact claim changed before settlement");
  d ← wrap_error "claim expiry: clear occupancy"
        (write_handling d claim.(ec_handling) (release_claim row));
  insertClaimExpiryTx d now claim key requestDigest.

Definition expired_order (a b : string * handling_row) : comparison :=
  then_compare (text_compare (default "" a.2.(hr_until)) (default "" b.2.(hr_until)))
    (text_compare a.1 b.1).

Definition expired_for (principal : AgentPrincipalID) (now : Time) (_ : string) (row : handling_row)
    : bool :=
  bool_decide (row.(hr_target) = principal) && bool_decide (row.(hr_state) = HandlingOpen) &&
  match row.(hr_until) with Some until => String.leb until (formatTime now) | None => false end.

Definition loadExpiredClaimsTx (d : db) (principal : AgentPrincipalID) (now : Time) (limit : Z)
    : result (list expiredClaim) :=
  mapR (λ '(id, row), scanExpiredClaim id row)
    (take (Z.to_nat limit) (order_by expired_order (select (expired_for principal now) d.(handlings)))).

Definition settleExpiredClaimsTx (d : db) (principal : AgentPrincipalID) (now : Time) (limit : Z)
    : result db :=
  _ ← fail_if (limit <=? 0) (Errorf "claim expiry: positive settlement bound is required");
  _ ← fail_if (IsZero principal) (Errorf "claim expiry: Principal is required");
  claims ← loadExpiredClaimsTx d principal now limit;
  foldR (settleClaimExpiryTx now) d claims.

Definition claimBoundaryEndIdentity : expiredClaim → result (OperationKey * Digest) :=
  claim_identity "mnemon.claim-boundary-end" claimBoundaryEndOperationDomain "claim-boundary-end:"
    "claim boundary end: operation key".

Definition settleClaimBoundaryEndTx (d : db) (now : Time) (claim : expiredClaim) : result db :=
  '(key, requestDigest) ← claimBoundaryEndIdentity claim;
  row ← of_option (exact_claim d claim)
          (Errorf "claim boundary end: exact claim changed before settlement");
  d ← wrap_error "claim boundary end: clear occupancy"
        (write_handling d claim.(ec_handling) (release_claim row));
  let outcome := canonical_bytes
    (claim_outcome "mnemon.claim-boundary-end-outcome" key requestDigest now) in
  wrap_error "claim boundary end: persist outcome"
    (insert_disposition d key (disposition_of DispositionBoundaryEnd claim requestDigest outcome now)).

(** ** Ending a boundary *)

Record AttachmentEndResult := { ae_replayed : bool; ae_releasedClaim : bool }.

Definition claimed_by (attachment : AttachmentID) (_ : string) (row : handling_row) : bool :=
  bool_decide (row.(hr_claim) = Some attachment).

Definition attachmentClaimTx (d : db) (attachment : AttachmentID) : result (option expiredClaim) :=
  match query_row (claimed_by attachment) d.(handlings) with
  | None => Ok None
  | Some (id, row) =>
      claim ← wrap_error "end attachment: inspect claim" (scanExpiredClaim id row);
      Ok (Some claim)
  end.

(** The table's CHECK, key, index and reference constraints. *)
Definition attachment_check (row : attachment_row) : bool :=
  bool_decide (row.(atr_mode) = "interactive") && digest_text row.(atr_credential_digest) &&
  digest_text row.(atr_begin_request_digest) &&
  bool_decide (text_compare row.(atr_issued_at) row.(atr_expires_at) = Lt) &&
  match row.(atr_ended_at) with
  | Some ended => String.leb row.(atr_issued_at) ended
  | None => true
  end.

Definition live_slot (row : attachment_row) : option string :=
  match row.(atr_ended_at) with None => Some row.(atr_principal) | Some _ => None end.

Definition write_attachment (d : db) (id : string) (row : attachment_row) : result db :=
  let others := delete id d.(attachments) in
  _ ← constraint (attachment_check row) "CHECK attachments";
  _ ← constraint (unique_column (λ r, Some r.(atr_begin_operation_key)) row others)
        "UNIQUE attachments.begin_operation_key";
  _ ← constraint (unique_column live_slot row others) "UNIQUE attachments_one_live_per_principal";
  _ ← constraint (references d.(principals) row.(atr_principal)) "FOREIGN KEY attachments.principal_id";
  Ok (set_attachments (<[id := row]> d.(attachments)) d).

Definition with_end (row : attachment_row) (ended : string) : attachment_row := {|
  atr_principal := row.(atr_principal); atr_mode := row.(atr_mode);
  atr_credential_digest := row.(atr_credential_digest);
  atr_begin_operation_key := row.(atr_begin_operation_key);
  atr_begin_request_digest := row.(atr_begin_request_digest);
  atr_issued_at := row.(atr_issued_at); atr_expires_at := row.(atr_expires_at);
  atr_ended_at := Some ended |}.

Definition live_attachment (d : db) (id : string) : option attachment_row :=
  row ← d.(attachments) !! id;
  if is_some row.(atr_ended_at) then None else Some row.

Definition endLiveAttachmentTx (d : db) (now : Time) (attachment : AttachmentID)
    : result (bool * db) :=
  claim ← attachmentClaimTx d attachment;
  row ← of_option (live_attachment d attachment) (Errorf "end attachment: exact lifecycle changed");
  d ← wrap_error "end attachment: persist end"
        (write_attachment d attachment (with_end row (formatTime now)));
  match claim with
  | None => Ok (false, d)
  | Some claim => d ← settleClaimBoundaryEndTx d now claim; Ok (true, d)
  end.

Definition replayBoundaryEndTx (d : db) (attachment : AttachmentID) : result bool :=
  _ ← fail_if (exists_row (claimed_by attachment) d.(handlings))
        (Errorf "end attachment: ended boundary still occupies a claim");
  let dispositions := count (λ _ row, bool_decide (row.(dr_attachment) = attachment) &&
    bool_decide (row.(dr_kind) = DispositionBoundaryEnd)) d.(claim_dispositions) in
  _ ← fail_if ((dispositions <? 0) || (1 <? dispositions))
        (Errorf "end attachment: invalid replay disposition cardinality");
  Ok (dispositions =? 1).

Definition endAttachmentTx (now : Time) (proof : AttachmentProof) (d : db)
    : result (AttachmentEndResult * db) :=
  authenticated ← authenticateAttachmentTx d proof;
  let id := authenticated.(aa_value).(at_id) in
  if is_some authenticated.(aa_endedAt) then
    released ← replayBoundaryEndTx d id;
    Ok ({| ae_replayed := true; ae_releasedClaim := released |}, d)
  else
    '(released, d) ← endLiveAttachmentTx d now id;
    Ok ({| ae_replayed := false; ae_releasedClaim := released |}, d).

Definition EndInteractiveAttachment (s : Store) (now : Time) (proof : AttachmentProof)
    : result AttachmentEndResult * Store :=
  guarded s (trustedNow now) (λ now, transact s (endAttachmentTx now proof)).

(** ** Beginning a boundary *)

Definition attachmentBeginOperationHead : string := "attach:".
Definition attachmentBeginOperationDomain : string :=
  "mnemon.attachment-begin.operation.v1" +:+ String "000" "".
Definition attachmentBeginIDDomain : string := "mnemon.attachment-begin.id.v1" +:+ String "000" "".
Definition attachmentBeginCredentialDomain : string :=
  "mnemon.attachment-begin.credential.v1" +:+ String "000" "".

Record attachmentBeginMaterial := {
  am_attachment : AttachmentID; am_credential : string; am_operationKey : OperationKey;
  am_request : Digest;
}.

Definition sumAttachmentBeginDomain (domain value : string) : Digest := Sum (domain +:+ value).

Definition begin_wire (principal : AgentPrincipalID) (boundary : Digest)
    : attachmentBeginRequestWire := {|
  abw_BoundaryDigest := Digest_String boundary; abw_Mode := "interactive"; abw_Principal := principal;
  abw_Schema := "mnemon.attachment-begin"; abw_Version := 1 |}.

Definition deriveAttachmentBegin (principal : AgentPrincipalID) (boundary : Digest)
    : result attachmentBeginMaterial :=
  let request := canonical_bytes (begin_wire principal boundary) in
  operation ← wrap_error "issue attachment: operation key"
    (NewOperationKey (attachmentBeginOperationHead +:+
       base64_encode (sumAttachmentBeginDomain attachmentBeginOperationDomain boundary)));
  let idDigest := sumAttachmentBeginDomain attachmentBeginIDDomain request in
  id ← wrap_error "issue attachment: attachment ID"
    (NewAttachmentID ("attachment:" +:+
       base64_encode (String.substring 0 (Z.to_nat randomIdentifierBytes) idDigest)));
  Ok {| am_attachment := id;
        am_credential := sumAttachmentBeginDomain attachmentBeginCredentialDomain request;
        am_operationKey := operation; am_request := Sum request |}.

Definition replayAttachmentBeginTx (d : db) (principal : AgentPrincipalID)
    (material : attachmentBeginMaterial) : result (option AttachmentProof) :=
  match query_row (λ _ row, bool_decide (row.(atr_begin_operation_key) = material.(am_operationKey)))
          d.(attachments) with
  | None => Ok None
  | Some (attachmentValue, row) =>
      _ ← fail_if (negb (bool_decide
            (row.(atr_begin_request_digest) = Digest_String material.(am_request))))
            ErrOperationConflict;
      _ ← fail_if (is_some row.(atr_ended_at)) ErrAttachmentEnded;
      let corrupt := Errorf "issue attachment: corrupt replay outcome" in
      let wantCredentialDigest := Digest_String (Sum material.(am_credential)) in
      _ ← fail_if (negb (bool_decide (attachmentValue = material.(am_attachment))) ||
                   negb (bool_decide (row.(atr_principal) = principal)) ||
                   negb (bool_decide (row.(atr_mode) = "interactive")) ||
                   negb (bool_decide (row.(atr_credential_digest) = wantCredentialDigest))) corrupt;
      issuedAt ← or_error (parseTime row.(atr_issued_at)) corrupt;
      expiresAt ← or_error (parseTime row.(atr_expires_at)) corrupt;
      _ ← fail_if (negb (issuedAt <? expiresAt)) corrupt;
      proof ← NewAttachmentProof material.(am_attachment) material.(am_credential);
      Ok (Some (with_expiry proof expiresAt))
  end.

Definition requirePrincipalTx (d : db) (principal : AgentPrincipalID) : result () :=
  fail_if (negb (references d.(principals) principal)) ErrPrincipalUnavailable.

Definition live_for (principal : AgentPrincipalID) (_ : string) (row : attachment_row) : bool :=
  bool_decide (live_slot row = Some principal).

Definition replaceLiveAttachmentTx (d : db) (now : Time) (principal : AgentPrincipalID) : result db :=
  match query_row (live_for principal) d.(attachments) with
  | None => Ok d
  | Some (value, _) =>
      id ← or_error (NewAttachmentID value) (Errorf "issue attachment: corrupt predecessor");
      '(_, d) ← endLiveAttachmentTx d now id;
      Ok d
  end.

Definition begin_row (now : Time) (principal : AgentPrincipalID) (material : attachmentBeginMaterial)
    : attachment_row := {|
  atr_principal := principal; atr_mode := "interactive";
  atr_credential_digest := Digest_String (Sum material.(am_credential));
  atr_begin_operation_key := material.(am_operationKey);
  atr_begin_request_digest := Digest_String material.(am_request);
  atr_issued_at := formatTime now;
  atr_expires_at := formatTime (now + interactiveAttachmentLifetime); atr_ended_at := None |}.

Definition insertAttachmentBeginTx (d : db) (now : Time) (principal : AgentPrincipalID)
    (material : attachmentBeginMaterial) : result (AttachmentProof * db) :=
  d ← wrap_error "issue attachment: persist"
    (_ ← constraint (negb (references d.(attachments) material.(am_attachment)))
           "UNIQUE attachments.attachment_id";
     write_attachment d material.(am_attachment) (begin_row now principal material));
  proof ← NewAttachmentProof material.(am_attachment) material.(am_credential);
  Ok (with_expiry proof (now + interactiveAttachmentLifetime), d).

(** The clock is read inside the lock, after the replay. *)
Definition issueAttachmentTx (now : Time) (principal : AgentPrincipalID)
    (material : attachmentBeginMaterial) (d : db) : result (AttachmentProof * db) :=
  replay ← replayAttachmentBeginTx d principal material;
  match replay with
  | Some proof => Ok (proof, d)
  | None =>
      _ ← requirePrincipalTx d principal;
      now ← trustedNow now;
      d ← replaceLiveAttachmentTx d now principal;
      insertAttachmentBeginTx d now principal material
  end.

Definition IssueInteractiveAttachment (s : Store) (now : Time) (principal : AgentPrincipalID)
    (boundary : Digest) : result AttachmentProof * Store :=
  guarded s (_ ← fail_if (IsZero principal || Digest_IsZero boundary)
                   (Errorf "issue attachment: Principal and Host boundary are required");
             deriveAttachmentBegin principal boundary) (λ material,
  transact s (issueAttachmentTx now principal material)).
