(* ===== verification/Routes.v ===== *)
(** Peer routes (internal/agency/authority/peer_route.go) and the Principal
    provisioning checks over them (attachment.go). *)

From Stdlib Require Import Lia.
From S2P Require Import Prelude Utf8 Json Wire Sha256 Time StoreTime Value Intent Bound Event Store.

#[local] Open Scope Z_scope.
#[local] Arguments String.append : simpl nomatch.

Definition MaxPeerRoutePublicKeyBytes : Z := 32.
Definition MaxPeerTransportAddressBytes : Z := 512.
Definition MaxActivePeerRoutes : Z := 8.
Definition peerRouteSourceDomain : string := "mnemon.r7.peer-route.source-principal.v1".

Record PeerRouteSpec := {
  prs_RouteID : RouteID;
  prs_PublicAlias : OpaqueHandle;
  prs_RemotePeerID : OpaqueHandle;
  prs_RemotePublicKey : string;
  prs_TransportAddress : string;
  prs_RemoteTargetAlias : OpaqueHandle;
  prs_InboundTargetAlias : OpaqueHandle;
  prs_LocalTargetPrincipal : AgentPrincipalID;
}.
#[export] Instance PeerRouteSpec_eq_dec : EqDecision PeerRouteSpec.
Proof. solve_decision. Defined.

(** The route fields of a projection are those of the specification it enrolled. *)
Record PeerRouteProjection := {
  pr_spec : PeerRouteSpec;
  pr_surrogateSource : AgentPrincipalID;
  pr_active : bool;
  pr_enrolledAt : Time;
  pr_revokedAt : Time;
}.

Definition pr_routeID r := r.(pr_spec).(prs_RouteID).
Definition pr_publicAlias r := r.(pr_spec).(prs_PublicAlias).
Definition pr_remotePeerID r := r.(pr_spec).(prs_RemotePeerID).
Definition pr_remotePublicKey r := r.(pr_spec).(prs_RemotePublicKey).
Definition pr_remoteTargetAlias r := r.(pr_spec).(prs_RemoteTargetAlias).
Definition pr_inboundTargetAlias r := r.(pr_spec).(prs_InboundTargetAlias).
Definition pr_localTargetPrincipal r := r.(pr_spec).(prs_LocalTargetPrincipal).

Definition validatePeerRouteSpec (spec : PeerRouteSpec) : result () :=
  _ ← fail_if (IsZero spec.(prs_RouteID) || IsZero spec.(prs_PublicAlias) ||
               IsZero spec.(prs_RemotePeerID) || IsZero spec.(prs_RemoteTargetAlias) ||
               IsZero spec.(prs_InboundTargetAlias) || IsZero spec.(prs_LocalTargetPrincipal))
        (Errorf "enroll peer route: complete route authority is required");
  _ ← wrap_error "enroll peer route: public alias" (AliasTarget spec.(prs_PublicAlias));
  _ ← wrap_error "enroll peer route: remote target alias" (AliasTarget spec.(prs_RemoteTargetAlias));
  _ ← wrap_error "enroll peer route: inbound target alias" (AliasTarget spec.(prs_InboundTargetAlias));
  _ ← fail_if (negb (slen spec.(prs_RemotePublicKey) =? MaxPeerRoutePublicKeyBytes))
        (Errorf "enroll peer route: remote Ed25519 public key must be 32 bytes");
  let bad := Errorf "enroll peer route: transport address must be 1..512 opaque UTF-8 bytes" in
  address ← or_error (NewSemanticPayload spec.(prs_TransportAddress)) bad;
  fail_if (is_empty address || (MaxPeerTransportAddressBytes <? slen spec.(prs_TransportAddress))) bad.

(** The digest's hexadecimal digits, without the algorithm prefix. *)
Definition derivePeerRouteSourcePrincipal (spec : PeerRouteSpec) : result AgentPrincipalID :=
  _ ← validatePeerRouteSpec spec;
  let nul := String "000" "" in
  let keyDigest := Sum spec.(prs_RemotePublicKey) in
  let digest := Sum (peerRouteSourceDomain +:+ nul +:+ spec.(prs_RouteID) +:+ nul +:+
    spec.(prs_RemotePeerID) +:+ nul +:+ Digest_String keyDigest) in
  NewAgentPrincipalID ("agent:peer-route:" +:+ default "" (strip_prefix "sha256:" (Digest_String digest))).

Definition scan_route_spec (id : string) (row : route_row) : result PeerRouteSpec :=
  routeID ← or_error (NewRouteID id) (Errorf "peer route: corrupt RouteID");
  publicAlias ← or_error (NewOpaqueHandle row.(rr_public_alias))
    (Errorf "peer route: corrupt public alias");
  remotePeer ← or_error (NewOpaqueHandle row.(rr_remote_peer))
    (Errorf "peer route: corrupt remote peer identity");
  remoteAlias ← or_error (NewOpaqueHandle row.(rr_remote_target_alias))
    (Errorf "peer route: corrupt remote target alias");
  inboundAlias ← or_error (NewOpaqueHandle row.(rr_inbound_target_alias))
    (Errorf "peer route: corrupt inbound target alias");
  localPrincipal ← or_error (NewAgentPrincipalID row.(rr_local_target))
    (Errorf "peer route: corrupt local target Principal");
  Ok {| prs_RouteID := routeID; prs_PublicAlias := publicAlias; prs_RemotePeerID := remotePeer;
        prs_RemotePublicKey := row.(rr_public_key); prs_TransportAddress := row.(rr_transport_address);
        prs_RemoteTargetAlias := remoteAlias; prs_InboundTargetAlias := inboundAlias;
        prs_LocalTargetPrincipal := localPrincipal |}.

Definition scan_route_lifecycle (row : route_row) (enrolledAt : Time) : result (bool * Time) :=
  match row.(rr_state), row.(rr_revoked_at) with
  | RouteActive, None => Ok (true, zero_time)
  | RouteRevoked, Some value =>
      let corrupt := Errorf "peer route: corrupt revocation time" in
      revokedAt ← or_error (parseTime value) corrupt;
      _ ← fail_if (revokedAt <? enrolledAt) corrupt;
      Ok (false, revokedAt)
  | _, _ => Err (Errorf "peer route: corrupt lifecycle")
  end.

Definition scanPeerRoute (id : string) (row : route_row) : result PeerRouteProjection :=
  spec ← scan_route_spec id row;
  surrogate ← or_error (NewAgentPrincipalID row.(rr_surrogate))
    (Errorf "peer route: corrupt surrogate Principal");
  _ ← fail_if (negb (slen row.(rr_public_key) =? MaxPeerRoutePublicKeyBytes))
        (Errorf "peer route: corrupt remote public key");
  enrolledAt ← or_error (parseTime row.(rr_enrolled_at)) (Errorf "peer route: corrupt enrollment time");
  let derivation := Errorf "peer route: corrupt surrogate derivation" in
  expectedSurrogate ← or_error (derivePeerRouteSourcePrincipal spec) derivation;
  _ ← fail_if (negb (bool_decide (expectedSurrogate = surrogate))) derivation;
  '(active, revokedAt) ← scan_route_lifecycle row enrolledAt;
  Ok {| pr_spec := spec; pr_surrogateSource := surrogate; pr_active := active;
        pr_enrolledAt := enrolledAt; pr_revokedAt := revokedAt |}.

Definition peerRouteByIDTx (d : db) (routeID : RouteID) : result (option PeerRouteProjection) :=
  match d.(peer_routes) !! routeID with
  | None => Ok None
  | Some row => route ← scanPeerRoute routeID row; Ok (Some route)
  end.

Definition peerRouteByRemotePeerTx (d : db) (remotePeer : OpaqueHandle)
    : result (option PeerRouteProjection) :=
  match query_row (λ _ row, bool_decide (row.(rr_remote_peer) = remotePeer)) d.(peer_routes) with
  | None => Ok None
  | Some (id, row) =>
      route ← wrap_error "inspect peer route by authenticated identity" (scanPeerRoute id row);
      Ok (Some route)
  end.

Definition peerRouteMatchesSpec (route : PeerRouteProjection) (spec : PeerRouteSpec)
    (surrogate : AgentPrincipalID) : bool :=
  bool_decide (route.(pr_spec) = spec) && bool_decide (route.(pr_surrogateSource) = surrogate).

Definition peerRouteProjection (spec : PeerRouteSpec) (surrogate : AgentPrincipalID) (active : bool)
    (enrolledAt revokedAt : Time) : PeerRouteProjection := {|
  pr_spec := spec; pr_surrogateSource := surrogate; pr_active := active;
  pr_enrolledAt := enrolledAt; pr_revokedAt := revokedAt |}.

Definition route_active (_ : string) (row : route_row) : bool :=
  bool_decide (row.(rr_state) = RouteActive).

Definition requirePeerRouteInputsAvailableTx (d : db) (spec : PeerRouteSpec)
    (surrogate : AgentPrincipalID) : result () :=
  _ ← fail_if (negb (references d.(principals) spec.(prs_LocalTargetPrincipal))) ErrPrincipalUnavailable;
  _ ← fail_if (references d.(principals) surrogate ||
        exists_row (λ _ row, bool_decide (row.(rr_public_alias) = spec.(prs_PublicAlias))) d.(peer_routes) ||
        exists_row (λ _ row, bool_decide (row.(rr_remote_peer) = spec.(prs_RemotePeerID))) d.(peer_routes))
        ErrPeerRouteConflict;
  fail_if (MaxActivePeerRoutes <=? count route_active d.(peer_routes))
    (Errorf "enroll peer route: active route bound 8 reached").

Definition route_check (row : route_row) : bool :=
  (slen row.(rr_public_key) =? 32) &&
  match row.(rr_state), row.(rr_revoked_at) with
  | RouteActive, None | RouteRevoked, Some _ => true
  | _, _ => false
  end.

(** [length(transport_address) BETWEEN 1 AND 512] counts characters; validation
    has bounded the bytes, which bounds the characters. *)
Definition write_route (d : db) (id : string) (row : route_row) : result db :=
  let others := delete id d.(peer_routes) in
  _ ← constraint (route_check row) "CHECK peer_routes";
  _ ← constraint (unique_column (λ r, Some r.(rr_public_alias)) row others)
        "UNIQUE peer_routes.public_alias";
  _ ← constraint (unique_column (λ r, Some r.(rr_remote_peer)) row others)
        "UNIQUE peer_routes.remote_peer_id";
  _ ← constraint (unique_column (λ r, Some r.(rr_surrogate)) row others)
        "UNIQUE peer_routes.surrogate_source_principal_id";
  _ ← constraint (references d.(principals) row.(rr_local_target))
        "FOREIGN KEY peer_routes.local_target_principal_id";
  _ ← constraint (references d.(principals) row.(rr_surrogate))
        "FOREIGN KEY peer_routes.surrogate_source_principal_id";
  Ok (set_peer_routes (<[id := row]> d.(peer_routes)) d).

Definition route_row_of (spec : PeerRouteSpec) (surrogate : AgentPrincipalID) (now : Time)
    : route_row := {|
  rr_public_alias := spec.(prs_PublicAlias); rr_remote_peer := spec.(prs_RemotePeerID);
  rr_public_key := spec.(prs_RemotePublicKey); rr_transport_address := spec.(prs_TransportAddress);
  rr_remote_target_alias := spec.(prs_RemoteTargetAlias);
  rr_inbound_target_alias := spec.(prs_InboundTargetAlias);
  rr_local_target := spec.(prs_LocalTargetPrincipal); rr_surrogate := surrogate;
  rr_state := RouteActive; rr_enrolled_at := formatTime now; rr_revoked_at := None |}.

Definition enrollPeerRouteTx (now : Time) (spec : PeerRouteSpec) (surrogate : AgentPrincipalID)
    (d : db) : result (PeerRouteProjection * db) :=
  current ← peerRouteByIDTx d spec.(prs_RouteID);
  match current with
  | Some current =>
      _ ← fail_if (negb (peerRouteMatchesSpec current spec surrogate)) ErrPeerRouteConflict;
      _ ← fail_if (negb current.(pr_active)) ErrPeerRouteRevoked;
      Ok (current, d)
  | None =>
      _ ← requirePeerRouteInputsAvailableTx d spec surrogate;
      d ← wrap_error "enroll peer route: persist surrogate Principal"
            (insert_principal d surrogate (formatTime now));
      d ← wrap_error "enroll peer route: persist"
            (_ ← constraint (negb (references d.(peer_routes) spec.(prs_RouteID)))
                   "UNIQUE peer_routes.route_id";
             write_route d spec.(prs_RouteID) (route_row_of spec surrogate now));
      Ok (peerRouteProjection spec surrogate true now zero_time, d)
  end.

Definition EnrollPeerRoute (s : Store) (now : Time) (spec : PeerRouteSpec)
    : result PeerRouteProjection * Store :=
  guarded s (_ ← validatePeerRouteSpec spec;
             surrogate ← derivePeerRouteSourcePrincipal spec;
             now ← trustedNow now;
             Ok (surrogate, now)) (λ '(surrogate, now),
  transact s (enrollPeerRouteTx now spec surrogate)).

Definition revoke_row (row : route_row) (revoked : string) : route_row := {|
  rr_public_alias := row.(rr_public_alias); rr_remote_peer := row.(rr_remote_peer);
  rr_public_key := row.(rr_public_key); rr_transport_address := row.(rr_transport_address);
  rr_remote_target_alias := row.(rr_remote_target_alias);
  rr_inbound_target_alias := row.(rr_inbound_target_alias);
  rr_local_target := row.(rr_local_target); rr_surrogate := row.(rr_surrogate);
  rr_state := RouteRevoked; rr_enrolled_at := row.(rr_enrolled_at); rr_revoked_at := Some revoked |}.

Definition expire_outbox (settled : string) (row : outbox_row) : outbox_row := {|
  or_route := row.(or_route); or_origin_event := row.(or_origin_event); or_anchor := row.(or_anchor);
  or_root_event := row.(or_root_event); or_root_digest := row.(or_root_digest);
  or_envelope_digest := row.(or_envelope_digest); or_delivery := row.(or_delivery);
  or_state := OutboxExpired; or_expires_at := row.(or_expires_at); or_created_at := row.(or_created_at);
  or_receipt_digest := row.(or_receipt_digest); or_receipt := row.(or_receipt);
  or_receipt_signature := row.(or_receipt_signature); or_settled_at := Some settled |}.

(** [UPDATE peer_outbox SET state = 'expired' WHERE state = 'pending' AND ...]. *)
Definition expire_outbox_where (where_ : outbox_row → bool) (settled : string) (d : db) : db :=
  set_peer_outbox ((λ row, if bool_decide (row.(or_state) = OutboxPending) && where_ row
                           then expire_outbox settled row else row) <$> d.(peer_outbox)) d.

Definition revokePeerRouteTx (now : Time) (routeID : RouteID) (d : db)
    : result (PeerRouteProjection * db) :=
  found ← peerRouteByIDTx d routeID;
  current ← of_option found ErrPeerRouteUnavailable;
  if negb current.(pr_active) then Ok (current, d) else
  let unique := Errorf "admit Intent: peer route revoke cardinality violated" in
  row ← of_option (d.(peer_routes) !! routeID) unique;
  _ ← fail_if (negb (bool_decide (row.(rr_state) = RouteActive)) || is_some row.(rr_revoked_at)) unique;
  d ← wrap_error "revoke peer route: persist" (write_route d routeID (revoke_row row (formatTime now)));
  let d := expire_outbox_where (λ row, bool_decide (row.(or_route) = routeID)) (formatTime now) d in
  Ok (peerRouteProjection current.(pr_spec) current.(pr_surrogateSource) false
        current.(pr_enrolledAt) now, d).

Definition RevokePeerRoute (s : Store) (now : Time) (routeID : RouteID)
    : result PeerRouteProjection * Store :=
  guarded s (_ ← fail_if (IsZero routeID) (Errorf "revoke peer route: RouteID is required");
             trustedNow now) (λ now,
  transact s (revokePeerRouteTx now routeID)).

(** [ORDER BY route_id]. *)
Definition routes_by_id (d : db) : list (string * route_row) :=
  sort_by fst (map_to_list d.(peer_routes)).

Definition PeerRoutes (s : Store) : result (list PeerRouteProjection) :=
  _ ← requireOpen s;
  mapR (λ '(id, row), scanPeerRoute id row) (routes_by_id s.(st_db)).

(** ** Provisioning the local Principal (attachment.go) *)

Definition require_provisioned_route (principal : AgentPrincipalID) (entry : string * route_row)
    : result () :=
  route ← or_error (scanPeerRoute entry.1 entry.2) (Wrapped "invalid peer route" ErrPrincipalConflict);
  fail_if (negb (bool_decide (pr_localTargetPrincipal route = principal)) ||
           bool_decide (route.(pr_surrogateSource) = principal)) ErrPrincipalConflict.

Definition requireProvisionedRoutesTx (d : db) (principal : AgentPrincipalID) : result Z :=
  checked ← mapR (require_provisioned_route principal) (routes_by_id d);
  Ok (lenZ checked).

Definition requireProvisionedPrincipalShapeTx (d : db) (principal : AgentPrincipalID) (total : Z)
    : result () :=
  routes ← requireProvisionedRoutesTx d principal;
  fail_if (negb (total =? routes + 1)) ErrPrincipalConflict.

Definition principal_count (d : db) : Z := Z.of_nat (size d.(principals)).

Definition provisionInitialPrincipalTx (now : Time) (principal : AgentPrincipalID) (d : db)
    : result (bool * db) :=
  let total := principal_count d in
  if references d.(principals) principal then
    _ ← requireProvisionedPrincipalShapeTx d principal total;
    Ok (true, d)
  else if total =? 0 then
    d ← wrap_error "provision initial Principal: persist"
          (insert_principal d principal (formatTime now));
    Ok (false, d)
  else Err ErrPrincipalConflict.

Definition ProvisionInitialPrincipal (s : Store) (now : Time) (principal : AgentPrincipalID)
    : result bool * Store :=
  guarded s (_ ← fail_if (IsZero principal)
                   (Errorf "provision initial Principal: Principal is required");
             trustedNow now) (λ now,
  transact s (provisionInitialPrincipalTx now principal)).

Definition RequireProvisionedPrincipalShape (s : Store) (principal : AgentPrincipalID) : result () :=
  _ ← fail_if (IsZero principal) (Errorf "require provisioned Principal: Principal is required");
  _ ← requireOpen s;
  let d := s.(st_db) in
  _ ← fail_if (negb (references d.(principals) principal)) ErrPrincipalConflict;
  requireProvisionedPrincipalShapeTx d principal (principal_count d).
