(* ===== verification/Inbox.v ===== *)
(** The inbox of signed peer deliveries (internal/agency/authority/
    peer_delivery_inbox.go, peer_delivery_projection.go,
    peer_terminal_reply_admission.go): staging, replay, the integrity checks of a
    stored row, and the match of a terminal reply with the outbound Delivery it
    answers.  Ed25519 verification is the parameter [ed25519_verify].

    Causal depth of a local Event (internal/agency/authority/event_depth.go). *)

From Stdlib Require Import Lia.
From S2P Require Import Prelude Utf8 Json Wire Sha256 Time StoreTime Value Intent Bound Event Peer Store EventStore.
From S2P Require Import Routes.

#[local] Open Scope Z_scope.

#[local] Arguments String.append : simpl nomatch.

Definition MaxStagedPeerDeliveries : Z := 64.
Definition MaxTerminalObservationsPerAnchor : Z := 64.

Inductive PeerAdmissionState :=
| PeerAdmissionStateInvalid
| PeerAdmissionStateStaged
| PeerAdmissionStateAccepted
| PeerAdmissionStateRejected
| PeerAdmissionStateExpired.
#[export] Instance PeerAdmissionState_eq_dec : EqDecision PeerAdmissionState.
Proof. solve_decision. Defined.

(** The Receipt is the zero value except in the accepted and rejected states. *)
Record PeerAdmissionResult := {
  pa_state : PeerAdmissionState;
  pa_delivery : PeerDelivery;
  pa_receipt : option PeerAdmissionReceipt;
  pa_replayed : bool;
}.

Record StagedPeerDelivery := { sp_route : PeerRouteProjection; sp_delivery : PeerDelivery }.

Definition admission_result (state : PeerAdmissionState) (delivery : PeerDelivery)
    (receipt : option PeerAdmissionReceipt) : PeerAdmissionResult :=
  {| pa_state := state; pa_delivery := delivery; pa_receipt := receipt; pa_replayed := false |}.

Definition as_replay (r : PeerAdmissionResult) : PeerAdmissionResult :=
  {| pa_state := r.(pa_state); pa_delivery := r.(pa_delivery); pa_receipt := r.(pa_receipt);
     pa_replayed := true |}.

(** ** Stored rows *)

Definition inbox_check (row : inbox_row) : bool :=
  (slen row.(ir_signature) =? 64) &&
  match row.(ir_state) with
  | InboxStaged =>
      is_none row.(ir_local_event) && is_none row.(ir_receipt_digest) && is_none row.(ir_receipt) &&
      is_none row.(ir_settled_at)
  | InboxSettled =>
      is_some row.(ir_receipt_digest) && is_some row.(ir_receipt) && is_some row.(ir_settled_at)
  | InboxExpired =>
      is_none row.(ir_local_event) && is_none row.(ir_receipt_digest) && is_none row.(ir_receipt) &&
      is_some row.(ir_settled_at)
  end.

(** The partial index [peer_inbox_accepted_reply]. *)
Definition accepted_reply (row : inbox_row) : option string :=
  match row.(ir_local_event) with Some _ => row.(ir_in_reply_to) | None => None end.

Definition write_inbox (d : db) (id : string) (row : inbox_row) : result db :=
  let others := delete id d.(peer_inbox) in
  _ ← constraint (inbox_check row) "CHECK peer_inbox";
  _ ← constraint (references d.(peer_routes) row.(ir_route)) "FOREIGN KEY peer_inbox.route_id";
  _ ← constraint (references_opt d.(events) row.(ir_local_event)) "FOREIGN KEY peer_inbox.local_event_id";
  _ ← constraint (unique_column ir_local_event row others) "UNIQUE peer_inbox_local_event";
  _ ← constraint (unique_column accepted_reply row others) "UNIQUE peer_inbox_accepted_reply";
  Ok (set_peer_inbox (<[id := row]> d.(peer_inbox)) d).

Definition insert_inbox (d : db) (id : string) (row : inbox_row) : result db :=
  _ ← constraint (negb (references d.(peer_inbox) id)) "UNIQUE peer_inbox.delivery_id";
  write_inbox d id row.

Definition peerInboxReplyValue (delivery : PeerDelivery) : option string :=
  if DeliveryID_IsZero delivery.(pd_inReplyToDelivery) then None
  else Some (DeliveryID_String delivery.(pd_inReplyToDelivery)).

Definition staged_row (route : PeerRouteProjection) (delivery : PeerDelivery) (signature : string)
    (now : Time) : inbox_row := {|
  ir_route := pr_routeID route; ir_in_reply_to := peerInboxReplyValue delivery;
  ir_envelope_digest := Digest_String delivery.(pd_envelopeDigest);
  ir_delivery := delivery.(pd_canonical); ir_signature := signature; ir_state := InboxStaged;
  ir_expires_at := formatTime delivery.(pd_expiresAt); ir_received_at := formatTime now;
  ir_local_event := None; ir_receipt_digest := None; ir_receipt := None; ir_settled_at := None |}.

(** The columns an UPDATE or a settled INSERT sets. *)
Definition settle_row (row : inbox_row) (localEvent : option string) (receipt : PeerAdmissionReceipt)
    (now : Time) : inbox_row := {|
  ir_route := row.(ir_route); ir_in_reply_to := row.(ir_in_reply_to);
  ir_envelope_digest := row.(ir_envelope_digest); ir_delivery := row.(ir_delivery);
  ir_signature := row.(ir_signature); ir_state := InboxSettled;
  ir_expires_at := row.(ir_expires_at); ir_received_at := row.(ir_received_at);
  ir_local_event := localEvent; ir_receipt_digest := Some (Digest_String receipt.(par_digest));
  ir_receipt := Some receipt.(par_canonical); ir_settled_at := Some (formatTime now) |}.

Definition expire_row (row : inbox_row) (now : Time) : inbox_row := {|
  ir_route := row.(ir_route); ir_in_reply_to := row.(ir_in_reply_to);
  ir_envelope_digest := row.(ir_envelope_digest); ir_delivery := row.(ir_delivery);
  ir_signature := row.(ir_signature); ir_state := InboxExpired;
  ir_expires_at := row.(ir_expires_at); ir_received_at := row.(ir_received_at);
  ir_local_event := row.(ir_local_event); ir_receipt_digest := row.(ir_receipt_digest);
  ir_receipt := row.(ir_receipt); ir_settled_at := Some (formatTime now) |}.

(** [WHERE delivery_id = ? AND state = 'staged']. *)
Definition staged_inbox (d : db) (id : DeliveryID) : option inbox_row :=
  row ← d.(peer_inbox) !! DeliveryID_String id;
  if bool_decide (row.(ir_state) = InboxStaged) then Some row else None.

(** ** Inspection *)

Definition peerInboxReplyMatches (delivery : PeerDelivery) (stored : option string) : bool :=
  bool_decide (stored = peerInboxReplyValue delivery).

Definition validatePeerInboxReceiptEventTx (d : db) (receipt : PeerAdmissionReceipt)
    (storedID : option string) : result () :=
  if bool_decide (receipt.(par_outcome) = PeerAdmissionOutcomeAccepted) then
    let localEvent := receipt.(par_localEvent) in
    _ ← fail_if (negb (bool_decide (storedID = Some localEvent.(er_id))))
          (Errorf "inspect peer inbox: accepted Receipt local Event mismatch");
    '(storedEvent, _, _, _) ← wrap_error "inspect peer inbox: load accepted local Event"
      (loadStoredEventTx d (default "" storedID));
    fail_if (negb (bool_decide (storedEvent = localEvent)))
      (Errorf "inspect peer inbox: accepted local Event digest mismatch")
  else
    fail_if (is_some storedID) (Errorf "inspect peer inbox: rejected Receipt names a local Event").

Definition parsePeerInboxStateTx (d : db) (delivery : PeerDelivery) (row : inbox_row)
    : result PeerAdmissionResult :=
  let carries := is_some row.(ir_local_event) || is_some row.(ir_receipt_digest) ||
                 negb (is_empty (default "" row.(ir_receipt))) in
  match row.(ir_state) with
  | InboxStaged =>
      _ ← fail_if carries (Errorf "inspect peer inbox: staged row carries Receipt");
      Ok (admission_result PeerAdmissionStateStaged delivery None)
  | InboxSettled =>
      let corrupt := Errorf "inspect peer inbox: corrupt Receipt" in
      receipt ← or_error (ParsePeerAdmissionReceiptCanonicalJSON (default "" row.(ir_receipt)) delivery)
        corrupt;
      _ ← fail_if (negb (bool_decide
            (row.(ir_receipt_digest) = Some (Digest_String receipt.(par_digest))))) corrupt;
      _ ← validatePeerInboxReceiptEventTx d receipt row.(ir_local_event);
      Ok (admission_result
            (if bool_decide (receipt.(par_outcome) = PeerAdmissionOutcomeAccepted)
             then PeerAdmissionStateAccepted else PeerAdmissionStateRejected) delivery (Some receipt))
  | InboxExpired =>
      _ ← fail_if carries (Errorf "inspect peer inbox: expired row carries Receipt");
      Ok (admission_result PeerAdmissionStateExpired delivery None)
  end.

Definition peerInboxResultTx (d : db) (deliveryID : DeliveryID) : result (option PeerAdmissionResult) :=
  match d.(peer_inbox) !! DeliveryID_String deliveryID with
  | None => Ok None
  | Some row =>
      routeID ← or_error (NewRouteID row.(ir_route)) (Errorf "inspect peer inbox: corrupt RouteID");
      let corrupt := Errorf "inspect peer inbox: corrupt envelope authority" in
      parsed ← or_error (ParsePeerDeliveryCanonicalJSON row.(ir_delivery) routeID) corrupt;
      let delivery := parsed.(pp_delivery) in
      _ ← fail_if (negb (bool_decide (delivery.(pd_id) = deliveryID)) ||
                   negb (bool_decide (Digest_String delivery.(pd_envelopeDigest) =
                                      row.(ir_envelope_digest)))) corrupt;
      _ ← fail_if (negb (peerInboxReplyMatches delivery row.(ir_in_reply_to)))
            (Errorf "inspect peer inbox: reply binding diverges from signed envelope");
      let expiry := Errorf "inspect peer inbox: expiry column diverges" in
      expiresAt ← or_error (parseTime row.(ir_expires_at)) expiry;
      _ ← fail_if (negb (expiresAt =? delivery.(pd_expiresAt))) expiry;
      result ← parsePeerInboxStateTx d delivery row;
      Ok (Some result)
  end.

Definition routeForInboxTx (d : db) (deliveryID : DeliveryID) : result (option PeerRouteProjection) :=
  match d.(peer_inbox) !! DeliveryID_String deliveryID with
  | None => Ok None
  | Some row =>
      routeID ← or_error (NewRouteID row.(ir_route)) (Errorf "peer inbox: corrupt RouteID");
      peerRouteByIDTx d routeID
  end.

Definition peerInboxSignatureMatchesTx (d : db) (deliveryID : DeliveryID) (routeID : RouteID)
    (signature : string) : bool :=
  match d.(peer_inbox) !! DeliveryID_String deliveryID with
  | None => false
  | Some row => bool_decide (row.(ir_route) = routeID) && bool_decide (row.(ir_signature) = signature)
  end.

(** ** Settlement of one row *)

Definition row_cardinality (operation : string) : error :=
  Errorf ("admit Intent: " +:+ operation +:+ " cardinality violated").

Definition expirePeerInboxTx (d : db) (delivery : PeerDelivery) (now : Time)
    : result (PeerAdmissionResult * db) :=
  row ← of_option (staged_inbox d delivery.(pd_id)) (row_cardinality "peer inbox expiry");
  d ← wrap_error "admit PeerDelivery: persist expiry"
        (write_inbox d (DeliveryID_String delivery.(pd_id)) (expire_row row now));
  Ok (admission_result PeerAdmissionStateExpired delivery None, d).

(** [UPDATE peer_inbox SET state = 'expired' WHERE state = 'staged' AND expires_at <= ?]. *)
Definition expire_inbox_due (now : Time) (row : inbox_row) : inbox_row :=
  if bool_decide (row.(ir_state) = InboxStaged) && String.leb row.(ir_expires_at) (formatTime now)
  then expire_row row now else row.

Definition expirePeerInboxRowsTx (d : db) (now : Time) : db :=
  set_peer_inbox (expire_inbox_due now <$> d.(peer_inbox)) d.

Definition expirePeerInboxDeliveryTx (d : db) (deliveryID : DeliveryID) (now : Time) : db :=
  set_peer_inbox (alter (expire_inbox_due now) (DeliveryID_String deliveryID) d.(peer_inbox)) d.

Definition settleRejectedPeerInboxTx (d : db) (delivery : PeerDelivery) (codeValue diagnostic : string)
    (now : Time) : result (PeerAdmissionResult * db) :=
  code ← NewSemanticLabel codeValue;
  receipt ← NewRejectedPeerAdmissionReceipt delivery code diagnostic now;
  row ← of_option (staged_inbox d delivery.(pd_id)) (row_cardinality "peer inbox rejection");
  d ← wrap_error "admit PeerDelivery: persist rejection"
        (write_inbox d (DeliveryID_String delivery.(pd_id)) (settle_row row None receipt now));
  Ok (admission_result PeerAdmissionStateRejected delivery (Some receipt), d).

(** ** Staging *)

Definition insertRejectedPeerInboxTx (d : db) (route : PeerRouteProjection) (delivery : PeerDelivery)
    (signature codeValue diagnostic : string) (now : Time) : result (PeerAdmissionResult * db) :=
  code ← NewSemanticLabel codeValue;
  receipt ← NewRejectedPeerAdmissionReceipt delivery code diagnostic now;
  d ← wrap_error "stage PeerDelivery: persist rejection"
        (insert_inbox d (DeliveryID_String delivery.(pd_id))
           (settle_row (staged_row route delivery signature now) None receipt now));
  Ok (admission_result PeerAdmissionStateRejected delivery (Some receipt), d).

Definition insertExpiredPeerInboxTx (d : db) (route : PeerRouteProjection) (delivery : PeerDelivery)
    (signature : string) (now : Time) : result (PeerAdmissionResult * db) :=
  d ← wrap_error "stage PeerDelivery: persist expiry"
        (insert_inbox d (DeliveryID_String delivery.(pd_id))
           (expire_row (staged_row route delivery signature now) now));
  Ok (admission_result PeerAdmissionStateExpired delivery None, d).

Definition inbox_staged (_ : string) (row : inbox_row) : bool :=
  bool_decide (row.(ir_state) = InboxStaged).

Definition stageFreshPeerDeliveryTx (d : db) (route : PeerRouteProjection) (delivery : PeerDelivery)
    (signature : string) (now : Time) : result (PeerAdmissionResult * db) :=
  _ ← fail_if (negb route.(pr_active)) ErrPeerRouteRevoked;
  let d := expirePeerInboxRowsTx d now in
  _ ← fail_if (MaxStagedPeerDeliveries <=? count inbox_staged d.(peer_inbox)) ErrPeerInboxBound;
  if negb (bool_decide (delivery.(pd_targetAlias) = pr_inboundTargetAlias route)) then
    insertRejectedPeerInboxTx d route delivery signature
      "peer.target_unavailable" "target alias is not admitted by this route" now
  else if negb (now <? delivery.(pd_expiresAt)) then
    insertExpiredPeerInboxTx d route delivery signature now
  else
    d ← insert_inbox d (DeliveryID_String delivery.(pd_id)) (staged_row route delivery signature now);
    Ok (admission_result PeerAdmissionStateStaged delivery None, d).

Definition replayPeerInboxTx (d : db) (existing : PeerAdmissionResult) (route : PeerRouteProjection)
    (delivery : PeerDelivery) (canonical signature : string) (now : Time)
    : result (PeerAdmissionResult * db) :=
  _ ← fail_if (negb (bool_decide (existing.(pa_delivery).(pd_envelopeDigest) =
                                  delivery.(pd_envelopeDigest))) ||
               negb (bool_decide (existing.(pa_delivery).(pd_canonical) = canonical)) ||
               negb (peerInboxSignatureMatchesTx d delivery.(pd_id) (pr_routeID route) signature))
        ErrPeerDeliveryConflict;
  if bool_decide (existing.(pa_state) = PeerAdmissionStateStaged) &&
     negb (now <? delivery.(pd_expiresAt))
  then expirePeerInboxTx d delivery now
  else Ok (as_replay existing, d).

Section signatures.
(** [ed25519.Verify(key, message, signature)]. *)
Context (ed25519_verify : string → string → string → bool).

Definition verifyPeerSignature (key message signature : string) : bool :=
  (slen key =? 32) && (slen signature =? 64) && ed25519_verify key message signature.

(** A nil message is the empty byte string. *)
Definition delivery_message (delivery : PeerDelivery) : string :=
  default "" (PeerDelivery_SigningMessage delivery).

Definition stagePeerDeliveryTx (remotePeer : OpaqueHandle) (canonical signature : string) (now : Time)
    (d : db) : result (PeerAdmissionResult * db) :=
  found ← peerRouteByRemotePeerTx d remotePeer;
  route ← of_option found ErrPeerAuthentication;
  parsed ← or_error (ParsePeerDeliveryCanonicalJSON canonical (pr_routeID route)) ErrPeerAuthentication;
  let delivery := parsed.(pp_delivery) in
  _ ← fail_if (negb (verifyPeerSignature (pr_remotePublicKey route) (delivery_message delivery) signature))
        ErrPeerAuthentication;
  existing ← peerInboxResultTx d delivery.(pd_id);
  match existing with
  | Some existing => replayPeerInboxTx d existing route delivery canonical signature now
  | None => stageFreshPeerDeliveryTx d route delivery signature now
  end.

Definition StagePeerDelivery (s : Store) (now : Time) (remotePeer : OpaqueHandle)
    (canonical signature : string) : result PeerAdmissionResult * Store :=
  guarded s (fail_if (IsZero remotePeer || is_empty canonical || is_empty signature)
               (Errorf "stage PeerDelivery: authenticated peer and envelope are required")) (λ _,
  transact s (λ d, now ← trustedNow now; stagePeerDeliveryTx remotePeer canonical signature now d)).

Definition storedPeerInboxSignatureValidTx (d : db) (deliveryID : DeliveryID)
    (route : PeerRouteProjection) (message : string) : bool :=
  match d.(peer_inbox) !! DeliveryID_String deliveryID with
  | Some row =>
      bool_decide (row.(ir_route) = pr_routeID route) &&
      verifyPeerSignature (pr_remotePublicKey route) message row.(ir_signature)
  | None => false
  end.
End signatures.

(** ** Bounded projection for the worker *)

Definition staged_order (a b : string * inbox_row) : comparison :=
  then_compare (text_compare a.2.(ir_received_at) b.2.(ir_received_at)) (text_compare a.1 b.1).

Definition stagedPeerDeliveryIDsTx (d : db) (limit : Z) : result (list DeliveryID) :=
  mapR (λ '(id, _), or_error (ParseDeliveryID id) (Errorf "project staged PeerDelivery: corrupt ID"))
    (take (Z.to_nat limit) (order_by staged_order (select inbox_staged d.(peer_inbox)))).

Definition project_staged (d : db) (id : DeliveryID) : result StagedPeerDelivery :=
  let changed := Errorf "project staged PeerDelivery: durable state changed or is corrupt" in
  found ← or_error (peerInboxResultTx d id) changed;
  projected ← of_option found changed;
  _ ← fail_if (negb (bool_decide (projected.(pa_state) = PeerAdmissionStateStaged))) changed;
  let unavailable := Errorf "project staged PeerDelivery: route unavailable" in
  found ← or_error (routeForInboxTx d id) unavailable;
  route ← of_option found unavailable;
  Ok {| sp_route := route; sp_delivery := projected.(pa_delivery) |}.

Definition StagedPeerDeliveries (s : Store) (now : Time) (limit : Z)
    : result (list StagedPeerDelivery) * Store :=
  guarded s (fail_if ((limit <? 1) || (MaxStagedPeerDeliveries <? limit))
               (Errorf "project staged PeerDelivery: bounded positive limit is required")) (λ _,
  transact s (λ d,
    now ← trustedNow now;
    let d := expirePeerInboxRowsTx d now in
    ids ← stagedPeerDeliveryIDsTx d limit;
    result ← mapR (project_staged d) ids;
    Ok (result, d))).

(** ** Terminal replies *)

(** The accepted inbox rows that answer an outbound Delivery anchored at the Handling. *)
Definition answers_anchor (d : db) (anchor : HandlingID) (_ : string) (row : inbox_row) : bool :=
  is_some row.(ir_local_event) &&
  match row.(ir_in_reply_to) with
  | Some outbound =>
      match d.(peer_outbox) !! outbound with
      | Some sent => bool_decide (sent.(or_anchor) = Some anchor)
      | None => false
      end
  | None => false
  end.

Definition terminalObservationRevisionTx (d : db) (anchor : HandlingID) : result Z :=
  _ ← fail_if (IsZero anchor) (Errorf "terminal observation revision: anchor is required");
  let revision := count (answers_anchor d anchor) d.(peer_inbox) in
  _ ← fail_if (MaxTerminalObservationsPerAnchor <? revision)
        (Errorf "terminal observation revision: durable bound violated");
  Ok revision.

Record terminalReplyMatch := {
  tm_outbound : DeliveryID; tm_anchor : HandlingID; tm_root : EventRef }.

(** The outbound row joined with its open anchor. *)
Definition reply_binding (d : db) (outbound : DeliveryID) (route : RouteID) (root : EventRef)
    (localTarget : AgentPrincipalID) : option HandlingID :=
  row ← d.(peer_outbox) !! DeliveryID_String outbound;
  anchor ← row.(or_anchor);
  handling ← d.(handlings) !! anchor;
  if bool_decide (row.(or_route) = route) && bool_decide (row.(or_root_event) = Some root.(er_id)) &&
     bool_decide (row.(or_root_digest) = Some (Digest_String root.(er_digest))) &&
     bool_decide (handling.(hr_target) = localTarget) &&
     bool_decide (handling.(hr_state) = HandlingOpen)
  then Some anchor else None.

Definition matchOpenTerminalReplyAnchorTx (d : db) (verified : VerifiedPeerDelivery)
    (inboundRoute : RouteID) : result (option terminalReplyMatch) :=
  let delivery := verified.(vpd_delivery) in
  let outbound := delivery.(pd_inReplyToDelivery) in
  let root := delivery.(pd_originCorrelation) in
  if DeliveryID_IsZero outbound || EventRef_IsZero root || IsZero inboundRoute ||
     IsZero verified.(vpd_target)
  then Ok None else
  match reply_binding d outbound inboundRoute root verified.(vpd_target) with
  | None => Ok None
  | Some anchorValue =>
      anchor ← or_error (NewHandlingID anchorValue)
        (Errorf "admit terminal PeerDelivery: corrupt reply binding");
      if exists_row (λ _ row, bool_decide (accepted_reply row = Some (DeliveryID_String outbound)))
           d.(peer_inbox)
      then Ok None else
      revision ← terminalObservationRevisionTx d anchor;
      if MaxTerminalObservationsPerAnchor <=? revision then Ok None
      else Ok (Some {| tm_outbound := outbound; tm_anchor := anchor; tm_root := root |})
  end.

(** ** Where a local Event came from (current_focus.go) *)

Definition peerDeliveryForLocalEventTx (d : db) (local : EventRef)
    : result (option (PeerDelivery * PeerRouteProjection)) :=
  match query_row (λ _ row, bool_decide (row.(ir_local_event) = Some local.(er_id))) d.(peer_inbox) with
  | None => Ok None
  | Some (deliveryValue, row) =>
      deliveryID ← or_error (ParseDeliveryID deliveryValue)
        (Errorf "current View: corrupt imported Delivery ID");
      routeID ← or_error (NewRouteID row.(ir_route)) (Errorf "current View: corrupt imported Route ID");
      let absent := Errorf "current View: imported Event route authority is absent" in
      found ← or_error (peerRouteByIDTx d routeID) absent;
      route ← of_option found absent;
      let corrupt := Errorf "current View: corrupt imported Event authority" in
      found ← or_error (peerInboxResultTx d deliveryID) corrupt;
      result ← of_option found corrupt;
      _ ← fail_if (negb (bool_decide (result.(pa_state) = PeerAdmissionStateAccepted))) corrupt;
      receipt ← of_option result.(pa_receipt) (Errorf "current View: imported Event Receipt is absent");
      _ ← fail_if (negb (bool_decide (receipt.(par_outcome) = PeerAdmissionOutcomeAccepted)) ||
                   negb (bool_decide (receipt.(par_localEvent) = local)))
            (Errorf "current View: imported Event Receipt diverges");
      Ok (Some (result.(pa_delivery), route))
  end.

Definition handlingCreationEventTx (d : db) (handling : HandlingID) (current : EventRef)
    : result storedEventDetails :=
  let corrupt := Errorf "current View: corrupt Handling creation authority" in
  row ← of_option (d.(handlings) !! handling) corrupt;
  _ ← fail_if (negb (bool_decide (row.(hr_state) = HandlingOpen)) ||
               negb (bool_decide (row.(hr_head) = current.(er_id)))) corrupt;
  '(eventID, _) ← of_option
    (query_row (λ _ event, event.(evr_origin_sequence) =? row.(hr_created)) d.(events)) corrupt;
  loadStoredEventDetailsTx d eventID.

Record currentReplyContext := {
  crc_root : EventRef; crc_target : option TargetRef; crc_delivery : DeliveryID; crc_imported : bool }.

Definition reply_root (creation : storedEventDetails) (imported : option (PeerDelivery * PeerRouteProjection))
    : EventRef :=
  if negb (EventRef_IsZero creation.(sd_correlation)) then creation.(sd_correlation) else
  match imported with
  | Some (delivery, _) =>
      if EventRef_IsZero delivery.(pd_originCorrelation) then delivery.(pd_originEvent)
      else delivery.(pd_originCorrelation)
  | None => creation.(sd_ref)
  end.

Definition currentReplyContextTx (d : db) (handling : HandlingID) (current : EventRef)
    : result currentReplyContext :=
  _ ← fail_if (IsZero handling || EventRef_IsZero current)
        (Errorf "current View: corrupt current reply context");
  creation ← handlingCreationEventTx d handling current;
  imported ← peerDeliveryForLocalEventTx d creation.(sd_ref);
  let root := reply_root creation imported in
  match imported with
  | Some (delivery, route) =>
      if route.(pr_active) then
        target ← or_error (AliasTarget (pr_publicAlias route))
          (Errorf "current View: corrupt reply target alias");
        Ok {| crc_root := root; crc_target := Some target; crc_delivery := delivery.(pd_id);
              crc_imported := true |}
      else Ok {| crc_root := root; crc_target := None; crc_delivery := zero_DeliveryID;
                 crc_imported := true |}
  | None => Ok {| crc_root := root; crc_target := None; crc_delivery := zero_DeliveryID;
                  crc_imported := false |}
  end.

#[local] Arguments String.append : simpl nomatch.

Definition errCausalEventUnavailable := Sentinel "admit Intent: causal Event is unavailable".

Definition eventRefKey (ref : EventRef) : string :=
  ref.(er_id) +:+ String "000" (Digest_String ref.(er_digest)).

Definition exactEventDepthTx (d : db) (ref : EventRef) : result Z :=
  row ← of_option (d.(events) !! ref.(er_id)) errCausalEventUnavailable;
  let corrupt := Errorf "admit Intent: causal Event authority is corrupt" in
  _ ← fail_if ((row.(evr_causal_depth) <? 0) || (MaxPeerCausalDepth <? row.(evr_causal_depth))) corrupt;
  storedRef ← or_error (inspectStoredEvent ref.(er_id) row) corrupt;
  _ ← fail_if (negb (bool_decide (storedRef = ref))) corrupt;
  Ok row.(evr_causal_depth).

Definition subjectRemotePredecessorsTx (d : db) (subject : SubjectBinding) : result (list EventRef) :=
  let corrupt := Errorf "admit Intent: subject causal authority is corrupt" in
  details ← or_error (loadStoredEventDetailsTx d subject.(sb_head).(er_id)) corrupt;
  _ ← fail_if (negb (bool_decide (details.(sd_ref) = subject.(sb_head)))) corrupt;
  reply ← currentReplyContextTx d subject.(sb_handlingID) subject.(sb_head);
  Ok (details.(sd_causation) ++
      (if EventRef_IsZero details.(sd_correlation) then [] else [details.(sd_correlation)]) ++
      (if reply.(crc_imported) then [reply.(crc_root)] else [])).

(** The Events a request names: subject head, expected Reference head,
    causation, correlation. *)
Definition request_refs (request : BoundIntent) : list EventRef :=
  match request.(bi_subject) with Some subject => [subject.(sb_head)] | None => [] end ++
  match request.(bi_expectedReference) with
  | Some expected => if expected.(re_absent) then [] else [expected.(re_head)]
  | None => []
  end ++
  request.(bi_causation) ++
  (if EventRef_IsZero request.(bi_correlation) then [] else [request.(bi_correlation)]).

(** The loop of the function: [seen] holds the keys already looked up. *)
Fixpoint deepest (d : db) (remote seen : list string) (maximum : Z) (refs : list EventRef) : result Z :=
  match refs with
  | [] => Ok maximum
  | ref :: refs =>
      let key := eventRefKey ref in
      if bool_decide (key ∈ seen) then deepest d remote seen maximum refs else
      match exactEventDepthTx d ref with
      | Ok depth => deepest d remote (key :: seen) (if maximum <? depth then depth else maximum) refs
      | Err e =>
          if errors_is e errCausalEventUnavailable && bool_decide (key ∈ remote)
          then deepest d remote (key :: seen) maximum refs
          else Err e
      end
  end.

Definition deriveLocalEventCausalDepthTx (d : db) (request : BoundIntent) : result Z :=
  remote ← match request.(bi_subject) with
           | Some subject =>
               predecessors ← subjectRemotePredecessorsTx d subject;
               Ok (map eventRefKey predecessors)
           | None => Ok []
           end;
  deepest d remote [] 0 (request_refs request).
