(* ===== verification/Outbox.v ===== *)
(** The outbox of peer deliveries (internal/agency/authority/
    peer_delivery_outbox.go, peer_delivery_settlement.go): one pending row per
    remote target of an accepted Event, its expiry, and its settlement by the
    signed admission Receipt of the remote peer. *)

From Stdlib Require Import Lia.
From S2P Require Import Prelude Utf8 Json Wire Sha256 Time StoreTime Value Intent Bound Event Peer.
From S2P Require Import Store EventStore Routes Inbox.

#[local] Open Scope Z_scope.
#[local] Arguments String.append : simpl nomatch.

Definition MaxPendingPeerDeliveries : Z := 64.
Definition PeerDeliveryTTL : Z := 3600 * ns_per_second.

Record PendingPeerDelivery := {
  pp_route : PeerRouteProjection; pp_pending : PeerDelivery; pp_createdAt : Time }.

Definition localTargetCount (targets : list ResolvedTarget) : Z := lenZ (local_targets targets).
Definition remoteTargetCount (targets : list ResolvedTarget) : Z := lenZ (remote_targets targets).

(** ** Rejections of an admission *)

Record admissionRejection := { rj_code : SemanticLabel; rj_diagnostic : string }.

Definition rejectionAttachmentExpired : SemanticLabel := "authority.attachment_expired".
Definition rejectionArtifactUnavailable : SemanticLabel := "authority.artifact_unavailable".
Definition rejectionStaleView : SemanticLabel := "authority.stale_view".
Definition rejectionStaleSubject : SemanticLabel := "authority.stale_subject".
Definition rejectionStaleReference : SemanticLabel := "authority.stale_reference".
Definition rejectionStaleRoute : SemanticLabel := "authority.stale_route".
Definition rejectionResourceBound : SemanticLabel := "authority.resource_bound".

Definition reject (code : SemanticLabel) (diagnostic : string) : option admissionRejection :=
  Some {| rj_code := code; rj_diagnostic := diagnostic |}.

Definition outbox_pending_at (now : Time) (_ : string) (row : outbox_row) : bool :=
  bool_decide (row.(or_state) = OutboxPending) &&
  negb (String.leb row.(or_expires_at) (formatTime now)).

Definition validatePeerDeliveryCapacityTx (d : db) (request : BoundIntent) (now : Time)
    : result (option admissionRejection) :=
  let remote := remoteTargetCount request.(bi_targets) in
  if remote =? 0 then Ok None else
  depth ← deriveLocalEventCausalDepthTx d request;
  if MaxPeerCausalDepth <=? depth
  then Ok (reject rejectionResourceBound "peer causal depth bound reached") else
  let pending := count (outbox_pending_at now) d.(peer_outbox) in
  if MaxPendingPeerDeliveries <? pending + remote
  then Ok (reject rejectionResourceBound "pending PeerDelivery bound reached")
  else Ok None.

(** ** Reply bindings *)

Record peerReplyBinding := { pb_anchor : HandlingID; pb_root : EventRef }.
Definition no_binding : peerReplyBinding := {| pb_anchor := ""; pb_root := zero_EventRef |}.

Definition databaseValues (binding : peerReplyBinding) : option (string * string * string) :=
  if IsZero binding.(pb_anchor) || EventRef_IsZero binding.(pb_root) then None
  else Some (binding.(pb_anchor), binding.(pb_root).(er_id),
             Digest_String binding.(pb_root).(er_digest)).

Definition isExactTerminalReplyEvent (event : Event) : bool :=
  match event.(ev_targets) with
  | [target] =>
      bool_decide (target.(rt_destination) = TargetDestinationRemote) &&
      negb (DeliveryID_IsZero event.(ev_inReplyToDelivery)) &&
      isTerminalConsequence event.(ev_consequence) && negb (EventRef_IsZero event.(ev_correlation))
  | _ => false
  end.

(** The loop over the targets: the last local target that is the source names
    the anchor; the index counts every local target. *)
Fixpoint source_successor (source : AgentPrincipalID) (handlingIDs : list HandlingID) (index : nat)
    (result : HandlingID) (targets : list ResolvedTarget) : Prelude.result (HandlingID * nat) :=
  match targets with
  | [] => Ok (result, index)
  | target :: targets =>
      if negb (bool_decide (target.(rt_destination) = TargetDestinationLocal))
      then source_successor source handlingIDs index result targets
      else if bool_decide (target.(rt_localPrincipal) = source) then
        id ← of_option (handlingIDs !! index) (Errorf "admit Intent: reply anchor cardinality mismatch");
        source_successor source handlingIDs (S index) id targets
      else source_successor source handlingIDs (S index) result targets
  end.

Definition sourceLocalSuccessor (event : Event) (handlingIDs : list HandlingID) : result HandlingID :=
  '(id, index) ← source_successor event.(ev_source) handlingIDs 0 "" event.(ev_targets);
  _ ← fail_if (IsZero id) (Errorf "admit Intent: remote Event lacks source-local reply anchor");
  _ ← fail_if (negb (Z.of_nat index =? lenZ handlingIDs))
        (Errorf "admit Intent: reply anchor cardinality mismatch");
  Ok id.

Definition outboundReplyBinding (event : Event) (handlingIDs : list HandlingID)
    : result peerReplyBinding :=
  if (remoteTargetCount event.(ev_targets) =? 0) || isExactTerminalReplyEvent event then Ok no_binding else
  let root := if EventRef_IsZero event.(ev_correlation) then Event_Ref event
              else event.(ev_correlation) in
  if bool_decide (event.(ev_consequence) = ConsequenceAdvanceHandling) then
    subject ← of_option event.(ev_subject) (Errorf "admit Intent: remote advance lacks reply anchor");
    Ok {| pb_anchor := subject.(sb_handlingID); pb_root := root |}
  else
    anchor ← sourceLocalSuccessor event handlingIDs;
    Ok {| pb_anchor := anchor; pb_root := root |}.

(** ** Rows *)

Definition outbox_check (row : outbox_row) : bool :=
  match row.(or_anchor), row.(or_root_event), row.(or_root_digest) with
  | None, None, None => true
  | Some _, Some _, Some digest => digest_text digest
  | _, _, _ => false
  end &&
  match row.(or_state) with
  | OutboxPending =>
      is_none row.(or_receipt_digest) && is_none row.(or_receipt) &&
      is_none row.(or_receipt_signature) && is_none row.(or_settled_at)
  | OutboxSettled =>
      is_some row.(or_receipt_digest) && is_some row.(or_receipt) &&
      match row.(or_receipt_signature) with Some s => slen s =? 64 | None => false end &&
      is_some row.(or_settled_at)
  | OutboxExpired =>
      is_none row.(or_receipt_digest) && is_none row.(or_receipt) &&
      is_none row.(or_receipt_signature) && is_some row.(or_settled_at)
  end.

Definition write_outbox (d : db) (id : string) (row : outbox_row) : result db :=
  let others := delete id d.(peer_outbox) in
  _ ← constraint (outbox_check row) "CHECK peer_outbox";
  _ ← constraint (references d.(peer_routes) row.(or_route)) "FOREIGN KEY peer_outbox.route_id";
  _ ← constraint (references d.(events) row.(or_origin_event)) "FOREIGN KEY peer_outbox.origin_event_id";
  _ ← constraint (references_opt d.(handlings) row.(or_anchor))
        "FOREIGN KEY peer_outbox.reply_anchor_handling_id";
  _ ← constraint (unique_column (λ r, Some r.(or_envelope_digest)) row others)
        "UNIQUE peer_outbox.envelope_digest";
  _ ← constraint (unique_column (λ r, Some (r.(or_origin_event), r.(or_route))) row others)
        "UNIQUE peer_outbox_origin_route";
  Ok (set_peer_outbox (<[id := row]> d.(peer_outbox)) d).

Definition outbound_spec (event : Event) (route : PeerRouteProjection) (now : Time)
    : PeerDeliverySpec := {|
  ps_OriginEvent := Event_Ref event; ps_OriginSequence := event.(ev_originSequence);
  ps_OriginAcceptedAt := event.(ev_acceptedAt); ps_OriginSource := event.(ev_source);
  ps_OriginConsequence := event.(ev_consequence);
  ps_OriginTargetCount := lenZ event.(ev_targets) mod 256;
  ps_OriginCausation := event.(ev_causation); ps_OriginCorrelation := event.(ev_correlation);
  ps_InReplyToDelivery := event.(ev_inReplyToDelivery); ps_TargetAlias := pr_remoteTargetAlias route;
  ps_Kind := event.(ev_kind); ps_Payload := event.(ev_payload); ps_Artifacts := event.(ev_artifacts);
  ps_CausalDepth := (event.(ev_causalDepth) + 1) mod 2^16; ps_ExpiresAt := now + PeerDeliveryTTL |}.

Definition pending_row (event : Event) (route : PeerRouteProjection) (reply : peerReplyBinding)
    (delivery : PeerDelivery) (now : Time) : outbox_row :=
  let values := databaseValues reply in {|
  or_route := pr_routeID route; or_origin_event := event.(ev_id);
  or_anchor := (λ v, v.1.1) <$> values; or_root_event := (λ v, v.1.2) <$> values;
  or_root_digest := snd <$> values;
  or_envelope_digest := Digest_String delivery.(pd_envelopeDigest);
  or_delivery := delivery.(pd_canonical); or_state := OutboxPending;
  or_expires_at := formatTime delivery.(pd_expiresAt); or_created_at := formatTime now;
  or_receipt_digest := None; or_receipt := None; or_receipt_signature := None; or_settled_at := None |}.

Definition insert_delivery (event : Event) (reply : peerReplyBinding) (now : Time) (d : db)
    (target : ResolvedTarget) : result db :=
  found ← wrap_error "admit Intent: inspect outbound peer route"
            (peerRouteByIDTx d target.(rt_remoteRoute));
  let changed := Errorf "admit Intent: outbound peer route changed after validation" in
  route ← of_option found changed;
  _ ← fail_if (negb route.(pr_active) ||
               negb (bool_decide (pr_remoteTargetAlias route = target.(rt_remoteAlias)))) changed;
  delivery ← wrap_error "admit Intent: construct PeerDelivery"
    (NewPeerDelivery (pr_routeID route) (outbound_spec event route now));
  let id := DeliveryID_String delivery.(pd_id) in
  wrap_error "admit Intent: persist PeerDelivery"
    (_ ← constraint (negb (references d.(peer_outbox) id)) "UNIQUE peer_outbox.delivery_id";
     write_outbox d id (pending_row event route reply delivery now)).

Definition insertPeerDeliveriesTx (d : db) (event : Event) (handlingIDs : list HandlingID) (now : Time)
    : result db :=
  reply ← outboundReplyBinding event handlingIDs;
  foldR (insert_delivery event reply now) d (remote_targets event.(ev_targets)).

(** ** Projection *)

Definition parsePeerDeliveryRowTx (d : db) (id : string) (row : outbox_row)
    : result PendingPeerDelivery :=
  routeID ← or_error (NewRouteID row.(or_route)) (Errorf "inspect PeerDelivery: corrupt RouteID");
  let unavailable := Errorf "inspect PeerDelivery: unavailable route" in
  found ← or_error (peerRouteByIDTx d routeID) unavailable;
  route ← of_option found unavailable;
  parsed ← or_error (ParsePeerDeliveryCanonicalJSON row.(or_delivery) routeID)
    (Errorf "inspect PeerDelivery: corrupt envelope");
  let delivery := parsed.(pp_delivery) in
  let origin_diverges := Errorf "inspect PeerDelivery: origin Event diverges" in
  '(origin, _, _, _) ← or_error (loadStoredEventTx d row.(or_origin_event)) origin_diverges;
  _ ← fail_if (negb (bool_decide (origin = delivery.(pd_originEvent)))) origin_diverges;
  let diverge := Errorf "inspect PeerDelivery: durable columns diverge" in
  createdAt ← or_error (parseTime row.(or_created_at)) diverge;
  expiresAt ← or_error (parseTime row.(or_expires_at)) diverge;
  _ ← fail_if (negb (bool_decide (id = DeliveryID_String delivery.(pd_id))) ||
               negb (bool_decide (row.(or_envelope_digest) =
                                  Digest_String delivery.(pd_envelopeDigest))) ||
               negb (bool_decide (row.(or_origin_event) = delivery.(pd_originEvent).(er_id))) ||
               negb (expiresAt =? delivery.(pd_expiresAt))) diverge;
  Ok {| pp_route := route; pp_pending := delivery; pp_createdAt := createdAt |}.

Definition parsePendingPeerDeliveryTx (d : db) (id : string) (row : outbox_row)
    : result PendingPeerDelivery :=
  pending ← parsePeerDeliveryRowTx d id row;
  _ ← fail_if (negb pending.(pp_route).(pr_active))
        (Errorf "project pending PeerDelivery: unavailable route authority");
  Ok pending.

Definition expirePeerOutboxTx (d : db) (now : Time) : db :=
  expire_outbox_where (λ row, String.leb row.(or_expires_at) (formatTime now)) (formatTime now) d.

Definition outbox_pending (_ : string) (row : outbox_row) : bool :=
  bool_decide (row.(or_state) = OutboxPending).

Definition pending_order (a b : string * outbox_row) : comparison :=
  then_compare (text_compare a.2.(or_created_at) b.2.(or_created_at)) (text_compare a.1 b.1).

Definition PendingPeerDeliveries (s : Store) (now : Time) (limit : Z)
    : result (list PendingPeerDelivery) * Store :=
  guarded s (fail_if ((limit <? 1) || (MaxPendingPeerDeliveries <? limit))
               (Errorf "project pending PeerDelivery: bounded positive limit is required")) (λ _,
  transact s (λ d,
    now ← trustedNow now;
    let d := expirePeerOutboxTx d now in
    result ← mapR (λ '(id, row), parsePendingPeerDeliveryTx d id row)
      (take (Z.to_nat limit) (order_by pending_order (select outbox_pending d.(peer_outbox))));
    Ok (result, d))).

(** [JOIN peer_routes r ON r.route_id = o.route_id WHERE ...]. *)
Definition authorized_row (d : db) (remotePeer : OpaqueHandle) (deliveryID : DeliveryID)
    (envelope : Digest) (now : Time) : option outbox_row :=
  row ← d.(peer_outbox) !! DeliveryID_String deliveryID;
  route ← d.(peer_routes) !! row.(or_route);
  if bool_decide (row.(or_envelope_digest) = Digest_String envelope) &&
     outbox_pending_at now "" row && bool_decide (route.(rr_state) = RouteActive) &&
     bool_decide (route.(rr_remote_peer) = remotePeer)
  then Some row else None.

Definition AuthorizePeerArtifact (s : Store) (now : Time) (remotePeer : OpaqueHandle)
    (deliveryID : DeliveryID) (envelope object : Digest) : result bool :=
  _ ← fail_if (IsZero remotePeer || DeliveryID_IsZero deliveryID || Digest_IsZero envelope ||
               Digest_IsZero object)
        (Errorf "authorize peer Artifact: exact request authority is required");
  _ ← requireOpen s;
  now ← trustedNow now;
  match authorized_row s.(st_db) remotePeer deliveryID envelope now with
  | None => Ok false
  | Some row =>
      routeID ← or_error (NewRouteID row.(or_route)) (Errorf "authorize peer Artifact: corrupt RouteID");
      let corrupt := Errorf "authorize peer Artifact: corrupt outbox envelope" in
      parsed ← or_error (ParsePeerDeliveryCanonicalJSON row.(or_delivery) routeID) corrupt;
      let delivery := parsed.(pp_delivery) in
      _ ← fail_if (negb (bool_decide (delivery.(pd_id) = deliveryID)) ||
                   negb (bool_decide (delivery.(pd_envelopeDigest) = envelope))) corrupt;
      Ok (bool_decide (object ∈ delivery.(pd_artifacts)))
  end.

(** ** Settlement by a signed Receipt *)

Section signatures.
Context (ed25519_verify : string → string → string → bool).

Definition receipt_message (receipt : PeerAdmissionReceipt) : string :=
  default "" (PeerAdmissionReceipt_SigningMessage receipt).

(** Parsed under the pending Delivery and signed by the route's key. *)
Definition authentic_receipt (pending : PendingPeerDelivery) (canonical signature : string)
    : result PeerAdmissionReceipt :=
  receipt ← or_error (ParsePeerAdmissionReceiptCanonicalJSON canonical pending.(pp_pending))
    ErrPeerAuthentication;
  _ ← fail_if (negb (verifyPeerSignature ed25519_verify (pr_remotePublicKey pending.(pp_route))
                       (receipt_message receipt) signature)) ErrPeerAuthentication;
  Ok receipt.

Definition replayPeerSettlement (pending : PendingPeerDelivery) (row : outbox_row)
    (remotePeer : OpaqueHandle) (canonical signature : string) : result PeerAdmissionReceipt :=
  _ ← fail_if (negb (bool_decide (pr_remotePeerID pending.(pp_route) = remotePeer))) ErrPeerAuthentication;
  _ ← authentic_receipt pending canonical signature;
  let corrupt := Errorf "settle PeerDelivery: corrupt stored Receipt" in
  stored ← or_error (ParsePeerAdmissionReceiptCanonicalJSON (default "" row.(or_receipt))
                       pending.(pp_pending)) corrupt;
  _ ← fail_if (negb (bool_decide (row.(or_receipt_digest) = Some (Digest_String stored.(par_digest)))))
        corrupt;
  _ ← fail_if (negb (bool_decide (default "" row.(or_receipt) = canonical)) ||
               negb (bool_decide (default "" row.(or_receipt_signature) = signature)))
        ErrPeerDeliveryConflict;
  Ok stored.

Definition validateFreshPeerSettlement (pending : PendingPeerDelivery) (state : outbox_state)
    (remotePeer : OpaqueHandle) (canonical signature : string) (now : Time)
    : result PeerAdmissionReceipt :=
  _ ← fail_if (negb (bool_decide (state = OutboxPending)) || negb pending.(pp_route).(pr_active) ||
               negb (now <? pending.(pp_pending).(pd_expiresAt))) ErrPeerDeliveryExpired;
  _ ← fail_if (negb (bool_decide (pr_remotePeerID pending.(pp_route) = remotePeer))) ErrPeerAuthentication;
  authentic_receipt pending canonical signature.

Definition outboxSettlementAuthorityTx (d : db) (deliveryID : DeliveryID)
    : result (PendingPeerDelivery * outbox_row) :=
  let id := DeliveryID_String deliveryID in
  row ← of_option (d.(peer_outbox) !! id) ErrPeerDeliveryUnavailable;
  pending ← parsePeerDeliveryRowTx d id row;
  Ok (pending, row).

Definition settle_outbox (row : outbox_row) (receipt : PeerAdmissionReceipt) (signature : string)
    (now : Time) : outbox_row := {|
  or_route := row.(or_route); or_origin_event := row.(or_origin_event); or_anchor := row.(or_anchor);
  or_root_event := row.(or_root_event); or_root_digest := row.(or_root_digest);
  or_envelope_digest := row.(or_envelope_digest); or_delivery := row.(or_delivery);
  or_state := OutboxSettled; or_expires_at := row.(or_expires_at); or_created_at := row.(or_created_at);
  or_receipt_digest := Some (Digest_String receipt.(par_digest));
  or_receipt := Some receipt.(par_canonical); or_receipt_signature := Some signature;
  or_settled_at := Some (formatTime now) |}.

Definition settlePeerDeliveryTx (remotePeer : OpaqueHandle) (deliveryID : DeliveryID)
    (canonical signature : string) (now : Time) (d : db)
    : result ((PeerAdmissionReceipt * bool) * db) :=
  '(pending, row) ← outboxSettlementAuthorityTx d deliveryID;
  if bool_decide (row.(or_state) = OutboxSettled) then
    receipt ← replayPeerSettlement pending row remotePeer canonical signature;
    Ok ((receipt, true), d)
  else
    receipt ← validateFreshPeerSettlement pending row.(or_state) remotePeer canonical signature now;
    d ← wrap_error "settle PeerDelivery: update"
          (write_outbox d (DeliveryID_String deliveryID) (settle_outbox row receipt signature now));
    Ok ((receipt, false), d).

Definition SettlePeerDelivery (s : Store) (now : Time) (remotePeer : OpaqueHandle)
    (deliveryID : DeliveryID) (canonical signature : string)
    : result (PeerAdmissionReceipt * bool) * Store :=
  guarded s (fail_if (IsZero remotePeer || DeliveryID_IsZero deliveryID || is_empty canonical ||
                      is_empty signature)
               (Errorf "settle PeerDelivery: exact signed Receipt is required")) (λ _,
  transact s (λ d,
    now ← trustedNow now; settlePeerDeliveryTx remotePeer deliveryID canonical signature now d)).
End signatures.
