(* ===== verification/Domain.v ===== *)
(** The admission spine (internal/agency/authority/domain_admission.go,
    admission_apply.go): one accepted candidate becomes one durable Event, its
    effect on Handlings or References, and its outbound deliveries. *)

From Stdlib Require Import Lia.
From S2P Require Import Prelude Utf8 Json Wire Sha256 Time StoreTime Value Intent Bound Event Peer.
From S2P Require Import Store EventStore Routes Inbox Outbox.

#[local] Open Scope Z_scope.
#[local] Arguments String.append : simpl nomatch.

(** ** Candidates *)

Record decidedPeerEffect := { pe_consequence : Consequence; pe_targets : list ResolvedTarget }.

(** [domainActorKind] and the fields it selects. *)
Inductive domainAdmissionCandidate :=
| domainActorLocal (request : BoundIntent)
| domainActorPeer (verified : VerifiedPeerDelivery) (effect : decidedPeerEffect).

Definition localDomainAdmission := domainActorLocal.
Definition peerDomainAdmission := domainActorPeer.

Definition decidePeerEffect (verified : VerifiedPeerDelivery) : result decidedPeerEffect :=
  let delivery := verified.(vpd_delivery) in
  _ ← fail_if (DeliveryID_IsZero delivery.(pd_id) || IsZero verified.(vpd_target))
        (Errorf "admit PeerDelivery: incomplete verified candidate");
  if negb (RequiresTerminalReplyMatch delivery) then
    requested ← wrap_error "admit PeerDelivery: resolve target alias"
                  (AliasTarget delivery.(pd_targetAlias));
    target ← wrap_error "admit PeerDelivery: resolve local target"
               (ResolveLocalTarget requested verified.(vpd_target));
    Ok {| pe_consequence := ConsequenceCreateHandlings; pe_targets := [target] |}
  else
    match delivery.(pd_originConsequence) with
    | ConsequenceResolveCompleted =>
        _ ← fail_if (lenZ verified.(vpd_artifacts) =? 0)
              (Errorf "admit PeerDelivery: completed reply requires a verified Artifact");
        Ok {| pe_consequence := ConsequenceObserveCompleted; pe_targets := [] |}
    | ConsequenceResolveDeclined =>
        Ok {| pe_consequence := ConsequenceObserveDeclined; pe_targets := [] |}
    | ConsequenceResolveUnresolved =>
        Ok {| pe_consequence := ConsequenceObserveUnresolved; pe_targets := [] |}
    | _ => Err (Errorf "admit PeerDelivery: invalid terminal reply consequence")
    end.

(** ** The new Event *)

(** [origin_sequence + 1]; SQLite's INTEGER is a signed 64-bit column, and the
    sum that leaves it becomes a REAL, which the STRICT table refuses. *)
Definition nextOriginSequenceTx (d : db) : result (Z * db) :=
  let sequence := d.(origin_sequence) + 1 in
  _ ← wrap_error "admit Intent: advance origin sequence"
        (constraint (sequence <=? max_int64) "STRICT authority_clock.origin_sequence");
  _ ← fail_if (sequence =? 0) (Errorf "admit Intent: invalid origin sequence");
  Ok (sequence, set_origin_sequence sequence d).

Definition event_stamp (eventID : EventID) (now : Time) (sequence depth : Z) : EventStamp :=
  {| es_ID := eventID; es_AcceptedAt := now; es_OriginSequence := sequence; es_CausalDepth := depth |}.

(** The Event, the attachment whose claim it settles, and the advanced clock. *)
Definition newDomainEventTx (d : db) (candidate : domainAdmissionCandidate) (eventID : EventID)
    (now : Time) : result (Event * AttachmentID * db) :=
  '(sequence, d) ← nextOriginSequenceTx d;
  match candidate with
  | domainActorLocal request =>
      depth ← deriveLocalEventCausalDepthTx d request;
      event ← wrap_error "admit Intent: construct Event"
                (NewEvent request (event_stamp eventID now sequence depth));
      Ok (event, request.(bi_attachment).(at_id), d)
  | domainActorPeer verified effect =>
      event ← wrap_error "admit PeerDelivery: construct local Event"
                (NewPeerEvent verified
                   (event_stamp eventID now sequence verified.(vpd_delivery).(pd_causalDepth))
                   effect.(pe_consequence) effect.(pe_targets));
      Ok (event, "", d)
  end.

(** ** Handlings *)

Definition new_handling (event : Event) (target : ResolvedTarget) : handling_row := {|
  hr_target := target.(rt_localPrincipal); hr_head := event.(ev_id); hr_state := HandlingOpen;
  hr_outcome := None; hr_claim := None; hr_fence := 0; hr_until := None;
  hr_created := event.(ev_originSequence) |}.

(** The loop over the targets, with the successor IDs not used yet. *)
Fixpoint create_successors (event : Event) (d : db) (targets : list ResolvedTarget)
    (ids : list HandlingID) : result db :=
  match targets with
  | [] => Ok d
  | target :: targets =>
      if bool_decide (target.(rt_destination) = TargetDestinationRemote)
      then create_successors event d targets ids
      else
        _ ← fail_if (negb (bool_decide (target.(rt_destination) = TargetDestinationLocal)) ||
                     IsZero target.(rt_localPrincipal))
              (Errorf "admit Intent: invalid successor reached local apply");
        match ids with
        | [] => Err (StdError "index out of range")
        | id :: ids =>
            d ← wrap_error "admit Intent: create successor Handling"
                  (insert_handling d id (new_handling event target));
            create_successors event d targets ids
        end
  end.

Definition createSuccessorHandlingsTx (d : db) (event : Event) (handlingIDs : list HandlingID)
    : result db :=
  _ ← fail_if (negb (localTargetCount event.(ev_targets) =? lenZ handlingIDs))
        (Errorf "admit Intent: successor ID cardinality mismatch");
  create_successors event d event.(ev_targets) handlingIDs.

(** [WHERE handling_id = ? AND state = 'open' AND head_event_id = ? AND
    claim_attachment_id = ? AND claim_fence = ?]. *)
Definition claimed_subject (d : db) (subject : SubjectBinding) (claimAttachment : AttachmentID)
    : option handling_row :=
  row ← d.(handlings) !! subject.(sb_handlingID);
  if bool_decide (row.(hr_state) = HandlingOpen) &&
     bool_decide (row.(hr_head) = subject.(sb_head).(er_id)) &&
     bool_decide (row.(hr_claim) = Some claimAttachment) && (row.(hr_fence) =? subject.(sb_fence))
  then Some row else None.

Definition settled_handling (row : handling_row) (event : Event) (state : handling_state)
    (outcome : option string) : handling_row := {|
  hr_target := row.(hr_target); hr_head := event.(ev_id); hr_state := state; hr_outcome := outcome;
  hr_claim := None; hr_fence := row.(hr_fence); hr_until := None; hr_created := row.(hr_created) |}.

Definition settleSubjectTx (d : db) (event : Event) (claimAttachment : AttachmentID)
    (state : handling_state) (outcome : option string) : result db :=
  let unbound := Errorf "admit Intent: subject effect lacks bound subject" in
  subject ← of_option event.(ev_subject) unbound;
  _ ← fail_if (IsZero claimAttachment) unbound;
  row ← of_option (claimed_subject d subject claimAttachment)
          (Errorf "admit Intent: subject settlement cardinality violated");
  wrap_error "admit Intent: settle subject"
    (write_handling d subject.(sb_handlingID) (settled_handling row event state outcome)).

(** ** References *)

Definition reference_check (state : reference_state) (artifact : option string) : bool :=
  match state, artifact with
  | ReferenceActive, Some _ | ReferenceRetracted, None => true
  | _, _ => false
  end.

Definition insert_lineage (d : db) (id : string) (row : lineage_row) : result db :=
  _ ← constraint (negb (references d.(reference_lineage) id)) "UNIQUE reference_lineage.event_id";
  _ ← constraint (reference_check row.(lr_state) row.(lr_artifact)) "CHECK reference_lineage";
  _ ← constraint (references d.(events) id) "FOREIGN KEY reference_lineage.event_id";
  _ ← constraint (references_opt d.(events) row.(lr_previous))
        "FOREIGN KEY reference_lineage.previous_event_id";
  _ ← constraint (references_opt d.(verified_artifacts) row.(lr_artifact))
        "FOREIGN KEY reference_lineage.artifact_digest";
  Ok (set_reference_lineage (<[id := row]> d.(reference_lineage)) d).

Definition write_reference (d : db) (key : string) (row : reference_row) : result db :=
  _ ← constraint (reference_check row.(rf_state) row.(rf_artifact)) "CHECK active_references";
  _ ← constraint (references d.(events) row.(rf_head)) "FOREIGN KEY active_references.head_event_id";
  _ ← constraint (references_opt d.(verified_artifacts) row.(rf_artifact))
        "FOREIGN KEY active_references.artifact_digest";
  Ok (set_active_references (<[key := row]> d.(active_references)) d).

Definition publishReferenceTx (d : db) (event : Event) : result db :=
  let malformed := Errorf "admit Intent: malformed Reference publish" in
  match event.(ev_expectedRef), event.(ev_artifacts) with
  | Some expected, [artifact] =>
      _ ← fail_if (negb expected.(re_absent)) malformed;
      let value := Some (Digest_String artifact) in
      d ← wrap_error "admit Intent: append Reference publish lineage"
        (insert_lineage d event.(ev_id)
           {| lr_key := expected.(re_key); lr_previous := None; lr_state := ReferenceActive;
              lr_artifact := value |});
      wrap_error "admit Intent: publish Reference head"
        (_ ← constraint (negb (references d.(active_references) expected.(re_key)))
               "UNIQUE active_references.reference_key";
         write_reference d expected.(re_key)
           {| rf_head := event.(ev_id); rf_state := ReferenceActive; rf_artifact := value |})
  | _, _ => Err malformed
  end.

(** [WHERE reference_key = ? AND head_event_id = ?]. *)
Definition reference_at (d : db) (expected : ReferenceExpectation) : option reference_row :=
  row ← d.(active_references) !! expected.(re_key);
  if bool_decide (row.(rf_head) = expected.(re_head).(er_id)) then Some row else None.

Definition supersedeReferenceTx (d : db) (event : Event) : result db :=
  let malformed := Errorf "admit Intent: malformed Reference supersede" in
  match event.(ev_expectedRef), event.(ev_artifacts) with
  | Some expected, [artifact] =>
      _ ← fail_if expected.(re_absent) malformed;
      let value := Some (Digest_String artifact) in
      d ← wrap_error "admit Intent: append Reference supersede lineage"
        (insert_lineage d event.(ev_id)
           {| lr_key := expected.(re_key); lr_previous := Some expected.(re_head).(er_id);
              lr_state := ReferenceActive; lr_artifact := value |});
      _ ← of_option (reference_at d expected) (row_cardinality "Reference supersede");
      wrap_error "admit Intent: supersede Reference head"
        (write_reference d expected.(re_key)
           {| rf_head := event.(ev_id); rf_state := ReferenceActive; rf_artifact := value |})
  | _, _ => Err malformed
  end.

Definition retractReferenceTx (d : db) (event : Event) : result db :=
  let malformed := Errorf "admit Intent: malformed Reference retract" in
  match event.(ev_expectedRef), event.(ev_artifacts) with
  | Some expected, [] =>
      _ ← fail_if expected.(re_absent) malformed;
      d ← wrap_error "admit Intent: append Reference retract lineage"
        (insert_lineage d event.(ev_id)
           {| lr_key := expected.(re_key); lr_previous := Some expected.(re_head).(er_id);
              lr_state := ReferenceRetracted; lr_artifact := None |});
      let unique := row_cardinality "Reference retract" in
      row ← of_option (reference_at d expected) unique;
      _ ← fail_if (negb (bool_decide (row.(rf_state) = ReferenceActive))) unique;
      wrap_error "admit Intent: retract Reference head"
        (write_reference d expected.(re_key)
           {| rf_head := event.(ev_id); rf_state := ReferenceRetracted; rf_artifact := None |})
  | _, _ => Err malformed
  end.

(** ** Effects *)

Definition applyDomainEffectTx (d : db) (event : Event) (claimAttachment : AttachmentID)
    (handlingIDs : list HandlingID) : result db :=
  let settle state outcome :=
    d ← settleSubjectTx d event claimAttachment state outcome;
    createSuccessorHandlingsTx d event handlingIDs in
  match event.(ev_consequence) with
  | ConsequenceCreateHandlings => createSuccessorHandlingsTx d event handlingIDs
  | ConsequenceAdvanceHandling => settle HandlingOpen None
  | ConsequenceResolveCompleted => settle HandlingTerminal (Some "completed")
  | ConsequenceResolveDeclined => settle HandlingTerminal (Some "declined")
  | ConsequenceResolveUnresolved => settle HandlingTerminal (Some "unresolved")
  | ConsequencePublishReference => publishReferenceTx d event
  | ConsequenceSupersedeReference => supersedeReferenceTx d event
  | ConsequenceRetractReference => retractReferenceTx d event
  | ConsequenceObserveCompleted | ConsequenceObserveDeclined | ConsequenceObserveUnresolved =>
      _ ← fail_if (negb (lenZ handlingIDs =? 0))
            (Errorf "admit peer observation: successor cardinality must be zero");
      Ok d
  | _ => Err (Errorf "admit Event: unknown consequence")
  end.

Definition commitDomainAdmissionTx (d : db) (candidate : domainAdmissionCandidate) (eventID : EventID)
    (handlingIDs : list HandlingID) (now : Time) : result (Event * db) :=
  '(event, claimAttachment, d) ← newDomainEventTx d candidate eventID now;
  d ← insertEventTx d event;
  d ← applyDomainEffectTx d event claimAttachment handlingIDs;
  d ← insertPeerDeliveriesTx d event handlingIDs now;
  Ok (event, d).
