(* ===== verification/Admission.v ===== *)
(** Local admission (internal/agency/authority/admission.go,
    admission_validate.go, admission_record.go): authentication, exact replay,
    validation of the mutable authority a request was bound to, and the atomic
    commit of one accepted or rejected outcome.

    Artifact byte verification is the parameter [verifier]; the request's context
    is not cancelled. *)

From Stdlib Require Import Lia.
From S2P Require Import Prelude Utf8 Json Wire Sha256 Time StoreTime Value Intent Bound Event Peer.
From S2P Require Import View Store EventStore Attach Routes Inbox Outbox Domain.

#[local] Open Scope Z_scope.
#[local] Arguments String.append : simpl nomatch.

Definition MaxOpenHandlingsPerPrincipal : Z := 64.

Record AdmissionResult := {
  ar_receiptJSON : string; ar_receiptDigest : Digest; ar_outcome : ReceiptOutcome; ar_replayed : bool }.

Definition resultFromReceipt (receipt : Receipt) (replayed : bool) : AdmissionResult := {|
  ar_receiptJSON := receipt.(rc_canonical); ar_receiptDigest := receipt.(rc_digest);
  ar_outcome := receipt.(rc_outcome); ar_replayed := replayed |}.

(** ** Replay *)

Definition receipt_accepted (receipt : Receipt) : bool :=
  bool_decide (receipt.(rc_outcome) = ReceiptOutcomeAccepted).

Definition validateReplayEventTx (d : db) (receipt : Receipt) (storedEvent : option string)
    : result () :=
  if negb (receipt_accepted receipt) then
    fail_if (is_some storedEvent) (Errorf "admit Intent: rejected operation names an Event")
  else
    let mismatch := Errorf "admit Intent: accepted operation Event mismatch" in
    id ← of_option storedEvent mismatch;
    _ ← fail_if (negb (bool_decide (id = receipt.(rc_event).(er_id)))) mismatch;
    '(storedRef, _, _, _) ← wrap_error "admit Intent: inspect replay Event" (loadStoredEventTx d id);
    fail_if (negb (bool_decide (storedRef = receipt.(rc_event))))
      (Errorf "admit Intent: replay Event digest mismatch").

Definition operationReplayTx (d : db) (principal : AgentPrincipalID) (request : BoundIntent)
    : result (option AdmissionResult) :=
  match d.(operations) !! (principal, request.(bi_operationKey)) with
  | None => Ok None
  | Some row =>
      _ ← fail_if (negb (bool_decide (row.(opr_request_digest) = Digest_String request.(bi_digest))))
            ErrOperationConflict;
      let corrupt := Errorf "admit Intent: corrupt stored Receipt" in
      receiptDigest ← or_error (ParseDigest row.(opr_receipt_digest)) corrupt;
      parsedReceipt ← or_error (ParseReceiptCanonicalJSON row.(opr_receipt)) corrupt;
      _ ← fail_if (negb (bool_decide (parsedReceipt.(rc_digest) = receiptDigest)) ||
                   negb (bool_decide (parsedReceipt.(rc_operationKey) = request.(bi_operationKey))) ||
                   negb (bool_decide (parsedReceipt.(rc_requestDigest) = request.(bi_digest)))) corrupt;
      let outcome := parsedReceipt.(rc_outcome) in
      _ ← fail_if (negb (bool_decide (row.(opr_outcome) = ReceiptOutcome_String outcome)))
            (Errorf "admit Intent: corrupt operation outcome");
      _ ← fail_if (negb (bool_decide (formatTime parsedReceipt.(rc_recordedAt) = row.(opr_recorded_at))))
            (Errorf "admit Intent: corrupt operation timestamp");
      _ ← validateReplayEventTx d parsedReceipt row.(opr_event);
      Ok (Some {| ar_receiptJSON := row.(opr_receipt); ar_receiptDigest := receiptDigest;
                  ar_outcome := outcome; ar_replayed := true |})
  end.

Definition requireBoundAttachment (authenticated : authenticatedAttachment) (request : BoundIntent)
    : result () :=
  fail_if (negb (bool_decide (request.(bi_attachment) = authenticated.(aa_value)))) ErrAttachmentAuth.

(** ** Mutable authority *)

Record projectedClaim := {
  pc_handlingID : HandlingID; pc_head : EventRef; pc_fence : Z; pc_observationRevision : Z;
  pc_kind : SemanticLabel; pc_payload : SemanticPayload; pc_artifacts : list Digest }.

Definition issued_view (attachment : Attachment) (viewDigest : Digest) (key : string * string)
    (row : current_row) : bool :=
  bool_decide (key.1 = attachment.(at_id)) &&
  bool_decide (row.(cur_authority_digest) = Digest_String viewDigest).

Definition validateIssuedViewTx (d : db) (attachment : Attachment) (request : BoundIntent)
    : result (option admissionRejection) :=
  match query_row (issued_view attachment request.(bi_viewDigest)) d.(current_operations) with
  | None => Ok (reject rejectionStaleView "View was not issued by this authority")
  | Some (_, row) =>
      let corrupt := Errorf "admit Intent: corrupt issued View authority" in
      digest ← or_error (ParseDigest row.(cur_authority_digest)) corrupt;
      view ← or_error (ParseViewAuthorityCanonicalJSON row.(cur_authority) attachment) corrupt;
      _ ← fail_if (negb (bool_decide (digest = request.(bi_viewDigest))) ||
                   negb (bool_decide (view.(va_digest) = digest))) corrupt;
      Ok None
  end.

Definition validate_target (d : db) (attachment : Attachment) (target : ResolvedTarget)
    : result (option admissionRejection) :=
  match target.(rt_destination) with
  | TargetDestinationLocal =>
      if negb (bool_decide (target.(rt_localPrincipal) = attachment.(at_principal)))
      then Ok (reject rejectionStaleView "target is outside the local Principal") else Ok None
  | TargetDestinationRemote =>
      found ← wrap_error "admit Intent: inspect peer route"
                (peerRouteByIDTx d target.(rt_remoteRoute));
      let stale := reject rejectionStaleRoute "peer route is unavailable, revoked, or changed" in
      match found with
      | None => Ok stale
      | Some route =>
          if negb route.(pr_active) || target.(rt_requested).(tr_self) ||
             negb (bool_decide (target.(rt_requested).(tr_alias) = pr_publicAlias route)) ||
             negb (bool_decide (target.(rt_remoteAlias) = pr_remoteTargetAlias route))
          then Ok stale else Ok None
      end
  | TargetDestinationInvalid => Ok (reject rejectionStaleView "target destination is invalid")
  end.

(** The first check that rejects. *)
Fixpoint first_rejection {A} (check : A → result (option admissionRejection)) (xs : list A)
    : result (option admissionRejection) :=
  match xs with
  | [] => Ok None
  | x :: xs =>
      rejection ← check x;
      match rejection with Some r => Ok (Some r) | None => first_rejection check xs end
  end.

Definition validateTargetsTx (d : db) (attachment : Attachment) (targets : list ResolvedTarget)
    : result (option admissionRejection) :=
  first_rejection (validate_target d attachment) targets.

(** The claim of the attachment on an open Handling of its Principal, and its
    expiry; [sql.ErrNoRows] when there is none. *)
Definition currentClaimForAdmissionTx (d : db) (attachment : Attachment)
    : result (projectedClaim * Time) :=
  '(handlingValue, row) ← of_option (query_row (λ _ row,
      bool_decide (row.(hr_claim) = Some attachment.(at_id)) &&
      bool_decide (row.(hr_target) = attachment.(at_principal)) &&
      bool_decide (row.(hr_state) = HandlingOpen)) d.(handlings)) sql_ErrNoRows;
  claimUntilValue ← of_option row.(hr_until) (StdError "sql: Scan");
  handlingID ← or_error (NewHandlingID handlingValue)
    (Errorf "admit Intent: corrupt claimed Handling ID");
  '(eventRef, kind, payload, artifacts) ← loadStoredEventTx d row.(hr_head);
  observationRevision ← terminalObservationRevisionTx d handlingID;
  claimUntil ← parseTime claimUntilValue;
  Ok ({| pc_handlingID := handlingID; pc_head := eventRef; pc_fence := row.(hr_fence);
         pc_observationRevision := observationRevision; pc_kind := kind; pc_payload := payload;
         pc_artifacts := artifacts |}, claimUntil).

Definition validateBoundSubject (request : BoundIntent) (claim : option (projectedClaim * Time))
    (now : Time) : option admissionRejection :=
  match request.(bi_subject) with
  | None => None
  | Some subject =>
      let stale := reject rejectionStaleSubject
        "subject claim, head, fence, or observation revision is stale" in
      match claim with
      | None => stale
      | Some (claim, claimUntil) =>
          if negb (bool_decide (subject.(sb_handlingID) = claim.(pc_handlingID))) ||
             negb (bool_decide (subject.(sb_head) = claim.(pc_head))) ||
             negb (subject.(sb_fence) =? claim.(pc_fence)) ||
             negb (subject.(sb_observationRevision) =? claim.(pc_observationRevision)) ||
             negb (now <? claimUntil)
          then stale else None
      end
  end.

Definition claimable (principal : AgentPrincipalID) (_ : string) (row : handling_row) : bool :=
  bool_decide (row.(hr_target) = principal) && bool_decide (row.(hr_state) = HandlingOpen) &&
  is_none row.(hr_claim).

Definition rejectIfClaimableTx (d : db) (principal : AgentPrincipalID) : option admissionRejection :=
  if exists_row (claimable principal) d.(handlings)
  then reject rejectionStaleView "a pending Handling now requires a current View" else None.

(** A Reference head joined with its Event. *)
Definition reference_head (d : db) (key : string) : option (string * string * reference_state) :=
  row ← d.(active_references) !! key;
  event ← d.(events) !! row.(rf_head);
  Some (row.(rf_head), event.(evr_digest), row.(rf_state)).

Definition validateReferenceExpectationTx (d : db) (request : BoundIntent)
    : result (option admissionRejection) :=
  match request.(bi_expectedReference) with
  | None => Ok None
  | Some expected =>
      let head := reference_head d expected.(re_key) in
      if expected.(re_absent) then
        Ok (if is_some head then reject rejectionStaleReference "Reference key is no longer absent"
            else None)
      else
        match head with
        | None => Ok (reject rejectionStaleReference "Reference head no longer exists")
        | Some (headValue, headDigestValue, state) =>
            headDigest ← or_error (ParseDigest headDigestValue)
              (Errorf "admit Intent: corrupt Reference head digest");
            if negb (bool_decide (headValue = expected.(re_head).(er_id))) ||
               negb (bool_decide (headDigest = expected.(re_head).(er_digest)))
            then Ok (reject rejectionStaleReference "Reference head changed")
            else if bool_decide (request.(bi_intent).(ai_consequence) = ConsequenceRetractReference) &&
                    negb (bool_decide (state = ReferenceActive))
            then Ok (reject rejectionStaleReference "Reference head is already retracted")
            else Ok None
        end
  end.

Definition citation_rejection (d : db) (cited : EventRef) : result (option admissionRejection) :=
  match (lineage ← d.(reference_lineage) !! cited.(er_id);
         event ← d.(events) !! cited.(er_id);
         Some (lineage.(lr_key), event.(evr_digest))) with
  | None => Ok None
  | Some (keyValue, citedDigestValue) =>
      let corrupt := Errorf "admit Intent: corrupt cited Reference lineage" in
      key ← or_error (NewReferenceKey keyValue) corrupt;
      citedDigest ← or_error (ParseDigest citedDigestValue) corrupt;
      _ ← fail_if (negb (bool_decide (citedDigest = cited.(er_digest)))) corrupt;
      let changed := reject rejectionStaleReference "cited Reference head changed" in
      match reference_head d key with
      | None => Ok changed
      | Some (headIDValue, headDigestValue, _) =>
          let corrupt := Errorf "admit Intent: corrupt current Reference head" in
          headID ← or_error (NewEventID headIDValue) corrupt;
          headDigest ← or_error (ParseDigest headDigestValue) corrupt;
          current ← or_error (NewEventRef headID headDigest)
            (Errorf "admit Intent: corrupt current Reference identity");
          Ok (if bool_decide (current = cited) then None else changed)
      end
  end.

(** The [seen] set skips repeated citations. *)
Fixpoint citations (d : db) (seen : list string) (cited : list EventRef)
    : result (option admissionRejection) :=
  match cited with
  | [] => Ok None
  | ref :: cited =>
      let identity := eventRefKey ref in
      if bool_decide (identity ∈ seen) then citations d seen cited else
      rejection ← citation_rejection d ref;
      match rejection with Some r => Ok (Some r) | None => citations d (identity :: seen) cited end
  end.

Definition validateReferenceCitationsTx (d : db) (request : BoundIntent)
    : result (option admissionRejection) :=
  citations d [] (request.(bi_causation) ++
    (if EventRef_IsZero request.(bi_correlation) then [] else [request.(bi_correlation)])).

(** [if rejection, err := check; err != nil || rejection != nil { return rejection, err }]. *)
Definition or_else (check rest : result (option admissionRejection))
    : result (option admissionRejection) :=
  rejection ← check;
  match rejection with Some r => Ok (Some r) | None => rest end.

Definition validateReferenceReadSetTx (d : db) (request : BoundIntent)
    : result (option admissionRejection) :=
  or_else (validateReferenceExpectationTx d request) (validateReferenceCitationsTx d request).

Definition open_for (principal : AgentPrincipalID) (_ : string) (row : handling_row) : bool :=
  bool_decide (row.(hr_target) = principal) && bool_decide (row.(hr_state) = HandlingOpen).

Definition validateHandlingBoundTx (d : db) (principal : AgentPrincipalID) (request : BoundIntent)
    : option admissionRejection :=
  let local := localTargetCount request.(bi_targets) in
  let within delta :=
    if delta <=? 0 then None
    else if MaxOpenHandlingsPerPrincipal <? count (open_for principal) d.(handlings) + delta
    then reject rejectionResourceBound "open Handling bound reached" else None in
  match request.(bi_intent).(ai_consequence) with
  | ConsequenceResolveCompleted | ConsequenceResolveDeclined | ConsequenceResolveUnresolved =>
      within (local - 1)
  | ConsequencePublishReference | ConsequenceSupersedeReference | ConsequenceRetractReference => None
  | _ => within local
  end.

Definition admission_claim (d : db) (attachment : Attachment) : result (option (projectedClaim * Time)) :=
  match currentClaimForAdmissionTx d attachment with
  | Ok claim => Ok (Some claim)
  | Err e => if errors_is e sql_ErrNoRows then Ok None else Err e
  end.

Definition validateMutableAuthorityTx (d : db) (attachment : Attachment) (request : BoundIntent)
    (now : Time) : result (option admissionRejection) :=
  or_else (validateIssuedViewTx d attachment request)
  (or_else (validateTargetsTx d attachment request.(bi_targets))
  (or_else (validatePeerDeliveryCapacityTx d request now)
  (claim ← admission_claim d attachment;
   or_else (Ok (validateBoundSubject request claim now))
   (or_else (Ok (if is_some claim then None else rejectIfClaimableTx d attachment.(at_principal)))
   (or_else (validateReferenceReadSetTx d request)
   (or_else (Ok (validateHandlingBoundTx d attachment.(at_principal) request))
   (Ok (if bool_decide (request.(bi_intent).(ai_consequence) = ConsequenceResolveCompleted) &&
           (lenZ request.(bi_artifacts) =? 0)
        then reject rejectionArtifactUnavailable "completed requires a verified Artifact"
        else None)))))))).

Definition freshAdmissionRejectionTx (d : db) (authenticated : authenticatedAttachment)
    (request : BoundIntent) (artifactFailure : bool) (now : Time) : result (option admissionRejection) :=
  if negb (is_ok (requireLiveAttachment authenticated now))
  then Ok (reject rejectionAttachmentExpired "attachment expired") else
  if artifactFailure
  then Ok (reject rejectionArtifactUnavailable "Artifact bytes unavailable or invalid") else
  if negb (is_ok (requireArtifacts d request.(bi_artifacts)))
  then Ok (reject rejectionArtifactUnavailable "Artifact is not in the verified catalog") else
  validateMutableAuthorityTx d authenticated.(aa_value) request now.

(** ** Recording an outcome *)

Definition operation_check (row : operation_row) : bool :=
  match row.(opr_event) with
  | Some _ => bool_decide (row.(opr_outcome) = "accepted")
  | None => bool_decide (row.(opr_outcome) = "rejected")
  end.

Definition insertOperationTx (d : db) (principal : AgentPrincipalID) (receipt : Receipt)
    (eventID : EventID) : result db :=
  let key := (principal, receipt.(rc_operationKey)) in
  let row := {|
    opr_request_digest := Digest_String receipt.(rc_requestDigest);
    opr_outcome := ReceiptOutcome_String receipt.(rc_outcome);
    opr_event := if IsZero eventID then None else Some eventID;
    opr_receipt_digest := Digest_String receipt.(rc_digest); opr_receipt := receipt.(rc_canonical);
    opr_recorded_at := formatTime receipt.(rc_recordedAt) |} in
  wrap_error "admit Intent: persist operation"
    (_ ← constraint (negb (references d.(operations) key)) "UNIQUE operations";
     _ ← constraint (references d.(principals) principal) "FOREIGN KEY operations.actor_principal_id";
     _ ← constraint (operation_check row) "CHECK operations";
     _ ← constraint (references_opt d.(events) row.(opr_event)) "FOREIGN KEY operations.event_id";
     Ok (set_operations (<[key := row]> d.(operations)) d)).

Definition persistRejectionTx (d : db) (principal : AgentPrincipalID) (request : BoundIntent)
    (rejection : admissionRejection) (now : Time) : result (AdmissionResult * db) :=
  receipt ← wrap_error "admit Intent: construct rejected Receipt"
    (NewRejectedReceipt request rejection.(rj_code) rejection.(rj_diagnostic) now);
  d ← insertOperationTx d principal receipt "";
  Ok (resultFromReceipt receipt false, d).

Definition commitAcceptedAdmissionTx (d : db) (principal : AgentPrincipalID) (request : BoundIntent)
    (eventID : EventID) (handlingIDs : list HandlingID) (now : Time) : result (AdmissionResult * db) :=
  '(event, d) ← commitDomainAdmissionTx d (localDomainAdmission request) eventID handlingIDs now;
  receipt ← wrap_error "admit Intent: construct Receipt" (NewAcceptedReceipt request event now);
  d ← insertOperationTx d principal receipt event.(ev_id);
  Ok (resultFromReceipt receipt false, d).

(** ** The two transactions of [Admit] *)

(** What the preflight decides: an exact replay, or the Artifact bytes to verify
    before the commit. *)
Inductive preflight_outcome :=
| PreflightReplay (replay : AdmissionResult)
| PreflightChecks (checks : list artifactCheck).

Definition preflightAdmissionTx (now : Time) (proof : AttachmentProof) (request : BoundIntent) (d : db)
    : result preflight_outcome :=
  authenticated ← authenticateAttachmentTx d proof;
  replay ← operationReplayTx d authenticated.(aa_value).(at_principal) request;
  match replay with
  | Some replay => Ok (PreflightReplay replay)
  | None =>
      _ ← requireBoundAttachment authenticated request;
      if negb (is_ok (requireLiveAttachment authenticated now)) then Ok (PreflightChecks []) else
      rejection ← validateMutableAuthorityTx d authenticated.(aa_value) request now;
      match rejection with
      | Some _ => Ok (PreflightChecks [])
      | None =>
          match artifactChecksTx d request.(bi_artifacts) with
          | Ok checks => Ok (PreflightChecks checks)
          | Err e => if errors_is e ErrArtifactUnavailable then Ok (PreflightChecks []) else Err e
          end
      end
  end.

Definition commitAdmissionTx (now : Time) (proof : AttachmentProof) (request : BoundIntent)
    (artifactFailure : bool) (eventID : EventID) (handlingIDs : list HandlingID) (d : db)
    : result (AdmissionResult * db) :=
  authenticated ← authenticateAttachmentTx d proof;
  let principal := authenticated.(aa_value).(at_principal) in
  replay ← operationReplayTx d principal request;
  match replay with
  | Some replay => Ok (replay, d)
  | None =>
      _ ← requireBoundAttachment authenticated request;
      rejection ← freshAdmissionRejectionTx d authenticated request artifactFailure now;
      match rejection with
      | Some rejection => persistRejectionTx d principal request rejection now
      | None => commitAcceptedAdmissionTx d principal request eventID handlingIDs now
      end
  end.

Section local_admission.
(** [artifactVerifier]: nil, or whether the bytes of a digest and size verify. *)
Context (verifier : option (Digest → Z → bool)).
(** [crypto/rand]: the nth read of a call. *)
Context (entropy : nat → string).

Definition verifyAdmissionArtifacts (checks : list artifactCheck) : bool :=
  match checks, verifier with
  | [], _ => false
  | _, None => true
  | _, Some verify => negb (forallb (λ c, verify c.(ac_digest) c.(ac_size)) checks)
  end.

Definition preflightAdmission (s : Store) (now : Time) (proof : AttachmentProof) (request : BoundIntent)
    : result preflight_outcome :=
  now ← trustedNow now;
  _ ← requireOpen s;
  preflightAdmissionTx now proof request s.(st_db).

Definition admission_identifiers (request : BoundIntent) : result (EventID * list HandlingID) :=
  eventID ← newEventID (entropy 0);
  handlingIDs ← newHandlingIDs
    (map (λ i, entropy (S i)) (seq 0 (Z.to_nat (localTargetCount request.(bi_targets)))));
  Ok (eventID, handlingIDs).

Definition commitAdmission (s : Store) (now : Time) (proof : AttachmentProof) (request : BoundIntent)
    (artifactFailure : bool) : result AdmissionResult * Store :=
  guarded s (now ← trustedNow now;
             '(eventID, handlingIDs) ← admission_identifiers request;
             Ok (now, eventID, handlingIDs)) (λ '(now, eventID, handlingIDs),
  transact s (commitAdmissionTx now proof request artifactFailure eventID handlingIDs)).

(** The lock is released between the two transactions: [between] is what other
    calls do to the Store meanwhile. *)
Definition Admit (between : Store → Store) (s : Store) (now1 now2 : Time) (proof : AttachmentProof)
    (request : BoundIntent) : result AdmissionResult * Store :=
  guarded s (fail_if (IsZero request.(bi_operationKey) || Digest_IsZero request.(bi_digest))
               (Errorf "admit Intent: complete BoundIntent is required")) (λ _,
  guarded s (preflightAdmission s now1 proof request) (λ outcome,
  match outcome with
  | PreflightReplay replay => (Ok replay, s)
  | PreflightChecks checks =>
      commitAdmission (between s) now2 proof request (verifyAdmissionArtifacts checks)
  end)).
End local_admission.
