(* ===== verification/PeerAdmission.v ===== *)
(** Receiver-local admission of a staged delivery (internal/agency/authority/
    peer_delivery_admission.go). *)

From Stdlib Require Import Lia.
From S2P Require Import Prelude Utf8 Json Wire Sha256 Time StoreTime Value Intent Bound Event Peer.
From S2P Require Import Store EventStore Routes Inbox Outbox Domain.

#[local] Open Scope Z_scope.
#[local] Arguments String.append : simpl nomatch.

Record preparedPeerAdmission := { pp_result : PeerAdmissionResult; pp_verified : VerifiedPeerDelivery }.

(** A preparation that already decided the outcome, or one to commit. *)
Inductive preparation :=
| PreparedDone (result : PeerAdmissionResult)
| PreparedCommit (prepared : preparedPeerAdmission).

Definition sameArtifactChecks (left right : list artifactCheck) : bool := bool_decide (left = right).

Definition peerVerifiedArtifacts (checks : list artifactCheck) (now : Time)
    : result (list VerifiedPeerArtifact) :=
  mapR (λ check, NewVerifiedPeerArtifact check.(ac_digest) check.(ac_size) now) checks.

(** The Artifact evidence of the commit: what the preflight verified must still
    be what the catalog says; [None] leaves the candidate staged. *)
Definition latest_checks (d : db) (delivery : PeerDelivery) (checks : list artifactCheck)
    : result (option (list artifactCheck)) :=
  let changed := Errorf "admit PeerDelivery: Artifact catalog changed" in
  match artifactChecksTx d delivery.(pd_artifacts) with
  | Ok latest => _ ← fail_if (negb (sameArtifactChecks checks latest)) changed; Ok (Some latest)
  | Err e => if errors_is e ErrArtifactUnavailable then Ok None else Err changed
  end.

Section admission.
Context (ed25519_verify : string → string → string → bool).

(** The signed envelope verified again from the stored row. *)
Definition verify_staged (d : db) (deliveryID : DeliveryID) (delivery : PeerDelivery)
    (route : PeerRouteProjection) (latest : list artifactCheck) (now : Time)
    : result VerifiedPeerDelivery :=
  verifiedArtifacts ← peerVerifiedArtifacts latest now;
  parsed ← or_error (ParsePeerDeliveryCanonicalJSON delivery.(pd_canonical) (pr_routeID route))
    (Errorf "admit PeerDelivery: corrupt staged envelope");
  _ ← fail_if (negb (storedPeerInboxSignatureValidTx ed25519_verify d deliveryID route
                       (delivery_message parsed.(pp_delivery))))
        (Errorf "admit PeerDelivery: corrupt staged signature");
  NewVerifiedPeerDelivery parsed route.(pr_surrogateSource) (pr_localTargetPrincipal route)
    verifiedArtifacts.

Definition prepareStagedTx (d : db) (deliveryID : DeliveryID) (result : PeerAdmissionResult)
    (checks : list artifactCheck) (now : Time) : Prelude.result (preparation * db) :=
  let delivery := result.(pa_delivery) in
  let unavailable := Errorf "admit PeerDelivery: route unavailable" in
  found ← or_error (routeForInboxTx d deliveryID) unavailable;
  route ← of_option found unavailable;
  if negb route.(pr_active) then
    '(rejected, d) ← settleRejectedPeerInboxTx d delivery
      "peer.route_revoked" "route was revoked before local admission" now;
    Ok (PreparedDone rejected, d)
  else if negb (now <? delivery.(pd_expiresAt)) then
    '(expired, d) ← expirePeerInboxTx d delivery now;
    Ok (PreparedDone expired, d)
  else
  latest ← latest_checks d delivery checks;
  match latest with
  | None => Ok (PreparedDone result, d)
  | Some latest =>
      verified ← verify_staged d deliveryID delivery route latest now;
      let commit := PreparedCommit {| pp_result := result; pp_verified := verified |} in
      if RequiresTerminalReplyMatch verified.(vpd_delivery) then
        matched ← matchOpenTerminalReplyAnchorTx d verified (pr_routeID route);
        match matched with
        | None =>
            '(rejected, d) ← settleRejectedPeerInboxTx d delivery "peer.terminal_reply_unmatched"
              "terminal reply does not match an open local responsibility" now;
            Ok (PreparedDone rejected, d)
        | Some _ => Ok (commit, d)
        end
      else Ok (commit, d)
  end.

Definition preparePeerAdmissionTx (d : db) (deliveryID : DeliveryID) (checks : list artifactCheck)
    (now : Time) : result (preparation * db) :=
  found ← peerInboxResultTx d deliveryID;
  result ← of_option found ErrPeerDeliveryUnavailable;
  if negb (bool_decide (result.(pa_state) = PeerAdmissionStateStaged))
  then Ok (PreparedDone (as_replay result), d)
  else prepareStagedTx d deliveryID result checks now.

Definition commitAcceptedPeerAdmissionTx (d : db) (prepared : preparedPeerAdmission)
    (eventID : EventID) (handlingIDs : list HandlingID) (now : Time)
    : result (PeerAdmissionResult * db) :=
  let delivery := prepared.(pp_result).(pa_delivery) in
  effect ← decidePeerEffect prepared.(pp_verified);
  _ ← fail_if (negb (lenZ handlingIDs =? 1) || (lenZ handlingIDs <? lenZ effect.(pe_targets)))
        (Errorf "admit PeerDelivery: Handling ID pool is invalid");
  let handlingIDs := take (length effect.(pe_targets)) handlingIDs in
  '(event, d) ← commitDomainAdmissionTx d (peerDomainAdmission prepared.(pp_verified) effect)
                  eventID handlingIDs now;
  receipt ← NewAcceptedPeerAdmissionReceipt delivery (Event_Ref event) now;
  row ← of_option (staged_inbox d delivery.(pd_id)) (row_cardinality "peer inbox admission");
  d ← wrap_error "admit PeerDelivery: settle inbox"
        (write_inbox d (DeliveryID_String delivery.(pd_id))
           (settle_row row (Some event.(ev_id)) receipt now));
  Ok (admission_result PeerAdmissionStateAccepted delivery (Some receipt), d).

Definition commitPeerAdmissionTx (deliveryID : DeliveryID) (checks : list artifactCheck)
    (eventID : EventID) (handlingIDs : list HandlingID) (now : Time) (d : db)
    : result (PeerAdmissionResult * db) :=
  '(prepared, d) ← preparePeerAdmissionTx d deliveryID checks now;
  match prepared with
  | PreparedDone result => Ok (result, d)
  | PreparedCommit prepared => commitAcceptedPeerAdmissionTx d prepared eventID handlingIDs now
  end.

(** The preflight commits the expiry of its own row; it reports the checks to
    make, or that the stored state (possibly still staged) is the answer. *)
Inductive peer_preflight :=
| PeerPreflightDone (result : PeerAdmissionResult)
| PeerPreflightChecks (checks : list artifactCheck) (staged : PeerAdmissionResult).

Definition preflightPeerAdmissionTx (deliveryID : DeliveryID) (now : Time) (d : db)
    : result (peer_preflight * db) :=
  let d := expirePeerInboxDeliveryTx d deliveryID now in
  found ← peerInboxResultTx d deliveryID;
  result ← of_option found ErrPeerDeliveryUnavailable;
  if negb (bool_decide (result.(pa_state) = PeerAdmissionStateStaged))
  then Ok (PeerPreflightDone (as_replay result), d)
  else
    match artifactChecksTx d result.(pa_delivery).(pd_artifacts) with
    | Ok checks => Ok (PeerPreflightChecks checks result, d)
    | Err e => if errors_is e ErrArtifactUnavailable then Ok (PeerPreflightDone result, d) else Err e
    end.

Definition preflightPeerAdmission (s : Store) (now : Time) (deliveryID : DeliveryID)
    : result peer_preflight * Store :=
  guarded s (fail_if (DeliveryID_IsZero deliveryID)
               (Errorf "admit PeerDelivery: DeliveryID is required")) (λ _,
  transact s (λ d, now ← trustedNow now; preflightPeerAdmissionTx deliveryID now d)).

Context (verifier : option (Digest → Z → bool)).
Context (entropy : nat → string).

Definition peer_artifacts_verified (checks : list artifactCheck) : bool :=
  forallb (λ c, match verifier with
                | Some verify => verify c.(ac_digest) c.(ac_size)
                | None => false
                end) checks.

Definition commitPeerAdmission (s : Store) (now : Time) (deliveryID : DeliveryID)
    (checks : list artifactCheck) (handlingIDs : list HandlingID)
    : result PeerAdmissionResult * Store :=
  guarded s (newEventID (entropy 1)) (λ eventID,
  transact s (λ d,
    now ← trustedNow now; commitPeerAdmissionTx deliveryID checks eventID handlingIDs now d)).

(** [between]: what other calls do to the Store while Artifact bytes are read. *)
Definition AdmitPeerDelivery (between : Store → Store) (s : Store) (now1 now2 : Time)
    (deliveryID : DeliveryID) : result PeerAdmissionResult * Store :=
  let '(outcome, s) := preflightPeerAdmission s now1 deliveryID in
  match outcome with
  | Err e => (Err e, s)
  | Ok (PeerPreflightDone result) => (Ok result, s)
  | Ok (PeerPreflightChecks checks staged) =>
      guarded s (fail_if (negb (peer_artifacts_verified checks)) ErrArtifactUnavailable) (λ _,
      guarded s (newHandlingIDs [entropy 0]) (λ handlingIDs,
      commitPeerAdmission (between s) now2 deliveryID checks handlingIDs))
  end.
End admission.
