(* ===== verification/Current.v ===== *)
(** The Current operation (internal/agency/authority/current.go,
    current_projection.go, current_focus.go): claim scheduling, the projection of
    one bounded View, its durable replay, and Artifact reads under it. *)

From Stdlib Require Import Lia.
From S2P Require Import Prelude Utf8 Json Wire Sha256 Time StoreTime Value Intent Bound Event Peer.
From S2P Require Import View AgentView Bind Store EventStore Attach Routes Inbox Outbox.
From S2P Require Import Domain Admission.

#[local] Open Scope Z_scope.
#[local] Arguments String.append : simpl nomatch.

Definition maxProjectedReferences : Z := MaxAgentViewReferences.

Definition currentRequestWire : string :=
  marshal (JObj [("schema", JStr "mnemon.current"); ("version", JNum "1")]).

Record CurrentOperation := { co_key : OperationKey; co_requestDigest : Digest }.

Definition NewCurrentOperation (key : OperationKey) : result CurrentOperation :=
  _ ← fail_if (IsZero key) (Errorf "current operation: stable key is required");
  Ok {| co_key := key; co_requestDigest := Sum currentRequestWire |}.

Definition CurrentOperation_valid (operation : CurrentOperation) : bool :=
  negb (IsZero operation.(co_key)) && negb (Digest_IsZero operation.(co_requestDigest)).

Record BoundView := { bv_authority : ViewAuthority; bv_public : AgentView }.

Definition BoundView_Bind (view : BoundView) := bindIntent view.(bv_authority).

Definition BoundView_ResolveOfferedArtifact (view : BoundView) :=
  ResolveOfferedArtifact view.(bv_authority).

(** ** Handles derived from machine facts *)

Definition join_nul (values : list string) : string :=
  match values with
  | [] => ""
  | v :: vs => v +:+ foldr (λ w acc, String "000" (w +:+ acc)) "" vs
  end.

Definition deterministicHandle (domain : string) (values : list string) : result OpaqueHandle :=
  let digest := Digest_String (Sum (domain +:+ String "000" (join_nul values))) in
  NewOpaqueHandle ("r7:" +:+ domain +:+ ":" +:+ default "" (strip_prefix "sha256:" digest)).

Definition currentViewHandle (attachment : Attachment) (operation : OperationKey)
    (authorityDigest : Digest) : result OpaqueHandle :=
  _ ← fail_if (IsZero attachment.(at_id) || IsZero operation || Digest_IsZero authorityDigest)
        (Errorf "current View: handle authority is incomplete");
  deterministicHandle "view" [attachment.(at_id); operation; Digest_String authorityDigest].

(** ** Claim scheduling *)

Definition scanProjectedClaim (d : db) (id : string) (row : handling_row) : result projectedClaim :=
  handlingID ← or_error (NewHandlingID id) (Errorf "current View: corrupt Handling ID");
  '(eventRef, kind, payload, artifacts) ← loadStoredEventTx d row.(hr_head);
  observationRevision ← terminalObservationRevisionTx d handlingID;
  Ok {| pc_handlingID := handlingID; pc_head := eventRef; pc_fence := row.(hr_fence);
        pc_observationRevision := observationRevision; pc_kind := kind; pc_payload := payload;
        pc_artifacts := artifacts |}.

Definition claimed_open (attachment : Attachment) (_ : string) (row : handling_row) : bool :=
  bool_decide (row.(hr_claim) = Some attachment.(at_id)) &&
  bool_decide (row.(hr_target) = attachment.(at_principal)) &&
  bool_decide (row.(hr_state) = HandlingOpen).

Definition existingClaimTx (d : db) (attachment : Attachment) : result projectedClaim :=
  '(id, row) ← of_option (query_row (claimed_open attachment) d.(handlings)) sql_ErrNoRows;
  scanProjectedClaim d id row.

(** [ORDER BY claim_fence, created_sequence, handling_id]. *)
Definition attention_order (a b : string * handling_row) : comparison :=
  then_compare (Z.compare a.2.(hr_fence) b.2.(hr_fence))
    (then_compare (Z.compare a.2.(hr_created) b.2.(hr_created)) (text_compare a.1 b.1)).

Definition next_claimable (d : db) (principal : AgentPrincipalID) : option (string * handling_row) :=
  head (order_by attention_order (select (claimable principal) d.(handlings))).

Definition claim_row (row : handling_row) (attachment : Attachment) : handling_row := {|
  hr_target := row.(hr_target); hr_head := row.(hr_head); hr_state := row.(hr_state);
  hr_outcome := row.(hr_outcome); hr_claim := Some attachment.(at_id);
  hr_fence := row.(hr_fence) + 1; hr_until := Some (formatTime attachment.(at_expiresAt));
  hr_created := row.(hr_created) |}.

(** The database keeps the claim even when the claimed row then fails to scan. *)
Definition claimNextTx (d : db) (attachment : Attachment) : result projectedClaim * db :=
  match next_claimable d attachment.(at_principal) with
  | None => (Err sql_ErrNoRows, d)
  | Some (id, row) =>
      let claimed := claim_row row attachment in
      match wrap_error "current View: claim next" (write_handling d id claimed) with
      | Err e => (Err e, d)
      | Ok d => (scanProjectedClaim d id claimed, d)
      end
  end.

(** The claim a fresh Current works on, if any. *)
Definition acquireClaimTx (d : db) (attachment : Attachment) : result (option projectedClaim * db) :=
  let '(claim, d) :=
    match existingClaimTx d attachment with
    | Err e => if errors_is e sql_ErrNoRows then claimNextTx d attachment else (Err e, d)
    | Ok claim => (Ok claim, d)
    end in
  match claim with
  | Ok claim => Ok (Some claim, d)
  | Err e => if errors_is e sql_ErrNoRows then Ok (None, d) else Err e
  end.

(** ** References *)

Record projectedReference := {
  pj_key : ReferenceKey; pj_head : EventRef; pj_state : reference_state; pj_artifact : Digest }.

Definition scanProjectedReference (key : string) (row : reference_row) (eventDigest : string)
    : result projectedReference :=
  key ← or_error (NewReferenceKey key) (Errorf "current View: corrupt Reference key");
  eventID ← or_error (NewEventID row.(rf_head)) (Errorf "current View: corrupt Reference Event ID");
  digest ← or_error (ParseDigest eventDigest) (Errorf "current View: corrupt Reference Event digest");
  head ← NewEventRef eventID digest;
  match row.(rf_state), row.(rf_artifact) with
  | ReferenceRetracted, None =>
      Ok {| pj_key := key; pj_head := head; pj_state := ReferenceRetracted; pj_artifact := zero_digest |}
  | ReferenceActive, Some value =>
      artifact ← or_error (ParseDigest value) (Errorf "current View: corrupt Reference Artifact digest");
      Ok {| pj_key := key; pj_head := head; pj_state := ReferenceActive; pj_artifact := artifact |}
  | _, _ => Err (Errorf "current View: corrupt Reference state")
  end.

(** [JOIN events e ON e.event_id = r.head_event_id ORDER BY r.reference_key]. *)
Definition joined_references (d : db) : list (string * reference_row * string) :=
  omap (λ '(key, row), event ← d.(events) !! row.(rf_head); Some (key, row, event.(evr_digest)))
    (sort_by fst (map_to_list d.(active_references))).

Definition loadReferencesTx (d : db) : result (list projectedReference) :=
  references ← mapR (λ '(key, row, digest), scanProjectedReference key row digest)
    (take (Z.to_nat (maxProjectedReferences + 1)) (joined_references d));
  _ ← fail_if (maxProjectedReferences <? lenZ references)
        (Errorf "current View: Reference projection exceeds 8");
  Ok references.

Definition projectedConsequences (hasClaim : bool) (references : list projectedReference)
    (mayInitiate : bool) : list Consequence :=
  (if lenZ references <? maxProjectedReferences then [ConsequencePublishReference] else []) ++
  (if hasClaim then [ConsequenceAdvanceHandling; ConsequenceResolveCompleted;
                     ConsequenceResolveDeclined; ConsequenceResolveUnresolved]
   else if mayInitiate then [ConsequenceCreateHandlings] else []) ++
  (if lenZ references =? 0 then [] else [ConsequenceSupersedeReference]) ++
  (if existsb (λ r, bool_decide (r.(pj_state) = ReferenceActive)) references
   then [ConsequenceRetractReference] else []).

(** ** Targets *)

Definition loadActivePeerRoutesTx (d : db) : result (list PeerRouteProjection) :=
  routes ← mapR (λ '(id, row),
      route ← wrap_error "current View: scan peer route" (scanPeerRoute id row);
      _ ← fail_if (negb route.(pr_active))
            (Errorf "current View: active peer route query returned revoked route");
      Ok route)
    (take (Z.to_nat (MaxActivePeerRoutes + 1))
       (sort_by fst (select route_active d.(peer_routes))));
  _ ← fail_if (MaxActivePeerRoutes <? lenZ routes)
        (Errorf "current View: peer route projection exceeds 8");
  Ok routes.

Definition project_route (route : PeerRouteProjection) : result ResolvedTarget :=
  requested ← or_error (AliasTarget (pr_publicAlias route))
    (Errorf "current View: corrupt peer route public alias");
  or_error (ResolveRemoteTarget requested (pr_routeID route) (pr_remoteTargetAlias route))
    (Errorf "current View: corrupt peer route target authority").

Definition projectTargetsTx (d : db) (attachment : Attachment) (hasClaim : bool)
    : result (list ResolvedTarget) :=
  if negb hasClaim && negb attachment.(at_mayInitiate) then Ok [] else
  self ← ResolveLocalTarget SelfTarget attachment.(at_principal);
  routes ← loadActivePeerRoutesTx d;
  resolved ← mapR project_route
    (filter (λ route, pr_localTargetPrincipal route = attachment.(at_principal)) routes);
  Ok (self :: resolved).

(** ** Content of a View: what a projection adds to the two specifications *)

Definition project_artifact_handles (domain : string) (head : EventID) (digests : list Digest)
    : result (list ViewArtifactOffer) :=
  mapR (λ digest,
    handle ← deterministicHandle domain [head; Digest_String digest];
    NewViewArtifactOffer handle digest) digests.

Definition uint_text (n : Z) : string := dec_of_N (Z.to_N n).

Definition projectClaim (claim : projectedClaim) (replyRoot : EventRef)
    : result (SubjectBinding * list ProvenanceOffer * list ViewArtifactOffer * AgentViewCurrentSpec) :=
  _ ← fail_if (EventRef_IsZero replyRoot) (Errorf "current View: reply root is required");
  let head := claim.(pc_head) in
  subjectHandle ← deterministicHandle "subject" [claim.(pc_handlingID); head.(er_id);
    Digest_String head.(er_digest); uint_text claim.(pc_fence);
    uint_text claim.(pc_observationRevision)];
  subject ← NewSubjectBinding subjectHandle claim.(pc_handlingID) head claim.(pc_fence)
    claim.(pc_observationRevision);
  provenance ← NewProvenanceOffer subjectHandle head;
  '(replyHandle, replyOffers) ←
    (if bool_decide (replyRoot = head) then Ok (subjectHandle, [])
     else
       replyHandle ← deterministicHandle "reply-to" [head.(er_id); replyRoot.(er_id);
         Digest_String replyRoot.(er_digest)];
       replyOffer ← NewProvenanceOffer replyHandle replyRoot;
       Ok (replyHandle, [replyOffer]));
  artifacts ← project_artifact_handles "artifact" head.(er_id) claim.(pc_artifacts);
  Ok (subject, provenance :: replyOffers, artifacts,
      {| acs_Subject := subjectHandle; acs_ReplyTo := replyHandle; acs_Kind := claim.(pc_kind);
         acs_Payload := claim.(pc_payload); acs_Artifacts := map vao_handle artifacts |}).

Definition projectReference (reference : projectedReference)
    : result (ReferenceExpectation * ProvenanceOffer * list ViewArtifactOffer * AgentViewReferenceSpec) :=
  let head := reference.(pj_head) in
  headHandle ← deterministicHandle "reference"
    [reference.(pj_key); head.(er_id); Digest_String head.(er_digest)];
  expectation ← ExpectReferenceHead headHandle reference.(pj_key) head;
  provenance ← NewProvenanceOffer headHandle head;
  if bool_decide (reference.(pj_state) = ReferenceActive) then
    artifactHandle ← deterministicHandle "reference-artifact"
      [head.(er_id); Digest_String reference.(pj_artifact)];
    offer ← NewViewArtifactOffer artifactHandle reference.(pj_artifact);
    Ok (expectation, provenance, [offer],
        {| avr_Head := headHandle; avr_State := AgentViewReferenceStateActive;
           avr_Artifact := artifactHandle |})
  else
    Ok (expectation, provenance, [],
        {| avr_Head := headHandle; avr_State := AgentViewReferenceStateRetracted;
           avr_Artifact := "" |}).

(** ** Focus *)

Record openHead := { oh_handlingID : string; oh_eventID : string }.

Definition loadOpenHeadsTx (d : db) (principal : AgentPrincipalID) : result (list openHead) :=
  let heads := map (λ '(id, row), {| oh_handlingID := id; oh_eventID := row.(hr_head) |})
    (take (Z.to_nat (MaxOpenHandlingsPerPrincipal + 1))
       (order_by attention_order (select (open_for principal) d.(handlings)))) in
  _ ← fail_if (MaxOpenHandlingsPerPrincipal <? lenZ heads)
        (Errorf "current View: open Handling bound violated");
  Ok heads.

(** The length of the JSON string content. *)
Definition jsonEncodedPayloadBytes (payload : SemanticPayload) : Z := slen (marshal_string payload) - 2.

Record projectedRelated := {
  prl_details : storedEventDetails; prl_relation : AgentViewRelation;
  prl_outcome : AgentViewTerminalOutcome }.

Definition within_focus (used payload : Z) : bool :=
  (used <=? MaxAgentViewFocusPayloadBytes) && (payload <=? MaxAgentViewFocusPayloadBytes - used).

(** The loop: bytes used, projections so far (newest last), related total. *)
Fixpoint select_related (root : EventRef) (used : Z) (projected : list projectedRelated) (total : Z)
    (candidates : list storedEventDetails) : list projectedRelated * Z :=
  match candidates with
  | [] => (projected, total)
  | details :: candidates =>
      if negb (bool_decide (details.(sd_correlation) = root))
      then select_related root used projected total candidates
      else
        let payload := jsonEncodedPayloadBytes details.(sd_payload) in
        if (lenZ projected <? MaxAgentViewRelated) && within_focus used payload
        then select_related root (used + payload)
               (projected ++ [{| prl_details := details; prl_relation := AgentViewRelationCorrelation;
                                 prl_outcome := AgentViewTerminalOutcomeInvalid |}])
               (total + 1) candidates
        else select_related root used projected (total + 1) candidates
  end.

Definition selectFocusRelated (currentPayload : SemanticPayload) (root : EventRef)
    (candidates : list storedEventDetails) : list projectedRelated * Z :=
  select_related root (jsonEncodedPayloadBytes currentPayload) [] 0 candidates.

Record terminalObservationCandidate := {
  toc_details : storedEventDetails; toc_outcome : AgentViewTerminalOutcome }.

Definition terminalObservationOutcome (consequence : Consequence) : result AgentViewTerminalOutcome :=
  match consequence with
  | ConsequenceObserveCompleted => Ok AgentViewTerminalOutcomeCompleted
  | ConsequenceObserveDeclined => Ok AgentViewTerminalOutcomeDeclined
  | ConsequenceObserveUnresolved => Ok AgentViewTerminalOutcomeUnresolved
  | _ => Err (Errorf "current View: linked reply is not a terminal observation")
  end.

(** The accepted replies to the anchor's outbound Deliveries:
    (observed Event, outbound Delivery, origin sequence). *)
Definition observation_rows (d : db) (anchor : HandlingID) : list (string * string * Z) :=
  omap (λ '(_, row),
    event ← row.(ir_local_event);
    outbound ← row.(ir_in_reply_to);
    observed ← d.(events) !! event;
    Some (event, outbound, observed.(evr_origin_sequence)))
    (select (answers_anchor d anchor) d.(peer_inbox)).

Definition observation_order (a b : string * string * Z) : comparison :=
  then_compare (Z.compare a.2 b.2) (text_compare a.1.1 b.1.1).

Definition load_observation (d : db) (row : string * string * Z) : result terminalObservationCandidate :=
  let '(eventID, outboundID, _) := row in
  details ← loadStoredEventDetailsTx d eventID;
  let diverges := Errorf "current View: terminal observation reply binding diverges" in
  outbound ← or_error (ParseDeliveryID outboundID) diverges;
  _ ← fail_if (negb (bool_decide (details.(sd_inReplyTo) = outbound))) diverges;
  outcome ← terminalObservationOutcome details.(sd_consequence);
  Ok {| toc_details := details; toc_outcome := outcome |}.

Definition loadTerminalObservationCandidatesTx (d : db) (anchor : HandlingID)
    : result (list terminalObservationCandidate) :=
  let selected := take (Z.to_nat (MaxTerminalObservationsPerAnchor + 1))
    (order_by observation_order (observation_rows d anchor)) in
  _ ← fail_if (MaxTerminalObservationsPerAnchor <? lenZ selected)
        (Errorf "current View: terminal observation bound violated");
  mapR (load_observation d) selected.

(** The rotation: from offset [(fence - 1) mod n], the first candidate that fits. *)
Definition selectTerminalObservation (currentPayload : SemanticPayload) (fence : Z)
    (candidates : list terminalObservationCandidate) : option projectedRelated :=
  if (lenZ candidates =? 0) || (fence =? 0) then None else
  let used := jsonEncodedPayloadBytes currentPayload in
  let start := Z.to_nat ((fence - 1) mod lenZ candidates) in
  candidate ← find (λ c, within_focus used (jsonEncodedPayloadBytes c.(toc_details).(sd_payload)))
    (drop start candidates ++ take start candidates);
  Some {| prl_details := candidate.(toc_details); prl_relation := AgentViewRelationTerminalReply;
          prl_outcome := candidate.(toc_outcome) |}.

Definition loadFocusProjectionTx (d : db) (principal : AgentPrincipalID)
    (claim : option projectedClaim) (focusRoot : EventRef)
    : result (list projectedRelated * AgentViewOutstanding) :=
  heads ← loadOpenHeadsTx d principal;
  match claim with
  | None =>
      Ok ([], {| avo_OpenTotal := lenZ heads; avo_RelatedTotal := 0; avo_RelatedProjected := 0;
                 avo_Truncated := false |})
  | Some claim =>
      _ ← fail_if (EventRef_IsZero focusRoot) (Errorf "current View: corrupt current focus root");
      candidates ← mapR (λ head, loadStoredEventDetailsTx d head.(oh_eventID))
        (filter (λ head, oh_handlingID head ≠ claim.(pc_handlingID)) heads);
      let '(related, openRelatedTotal) := selectFocusRelated claim.(pc_payload) focusRoot candidates in
      observations ← loadTerminalObservationCandidatesTx d claim.(pc_handlingID);
      let projected :=
        match selectTerminalObservation claim.(pc_payload) claim.(pc_fence) observations with
        | Some observation => [observation]
        | None => related
        end in
      let relatedTotal := openRelatedTotal + lenZ observations in
      Ok (projected,
          {| avo_OpenTotal := lenZ heads; avo_RelatedTotal := relatedTotal;
             avo_RelatedProjected := lenZ projected;
             avo_Truncated := lenZ projected <? relatedTotal |})
  end.

Definition projectRelated (related : projectedRelated)
    : result (ProvenanceOffer * list ViewArtifactOffer * AgentViewRelatedSpec) :=
  let details := related.(prl_details) in
  let ref := details.(sd_ref) in
  eventHandle ← deterministicHandle "related" [ref.(er_id); Digest_String ref.(er_digest)];
  provenance ← NewProvenanceOffer eventHandle ref;
  artifacts ← project_artifact_handles "related-artifact" ref.(er_id) details.(sd_artifacts);
  Ok (provenance, artifacts,
      {| ars_Event := eventHandle; ars_Relation := related.(prl_relation);
         ars_Outcome := related.(prl_outcome); ars_Kind := details.(sd_kind);
         ars_Payload := details.(sd_payload); ars_Artifacts := map vao_handle artifacts |}).

(** An outbound Delivery anchored at the Handling that no accepted reply answers. *)
Definition replyObservationPendingTx (d : db) (anchor : HandlingID) : result bool :=
  _ ← fail_if (IsZero anchor) (Errorf "current View: reply observation anchor is required");
  Ok (exists_row (λ id sent, bool_decide (sent.(or_anchor) = Some anchor) &&
        negb (exists_row (λ _ row, bool_decide (accepted_reply row = Some id)) d.(peer_inbox)))
        d.(peer_outbox)).

(** ** The projected View *)

(** What the claim contributes: reply context, subject, offers, current spec. *)
Record claim_projection := {
  cp_reply : currentReplyContext; cp_pending : bool; cp_subject : SubjectBinding;
  cp_provenance : list ProvenanceOffer; cp_artifacts : list ViewArtifactOffer;
  cp_current : AgentViewCurrentSpec }.

Definition project_claim_content (d : db) (claim : projectedClaim) : result claim_projection :=
  reply ← currentReplyContextTx d claim.(pc_handlingID) claim.(pc_head);
  pending ← replyObservationPendingTx d claim.(pc_handlingID);
  '(subject, provenance, artifacts, current) ← projectClaim claim reply.(crc_root);
  Ok {| cp_reply := reply; cp_pending := pending; cp_subject := subject;
        cp_provenance := provenance; cp_artifacts := artifacts; cp_current := current |}.

Definition projectViewContentTx (d : db) (attachment : Attachment) (claim : option projectedClaim)
    (references : list projectedReference) (targets : list ResolvedTarget)
    : result (MachineViewSpec * (OpaqueHandle → ViewAuthority → AgentViewSpec)) :=
  content ← match claim with
            | Some claim => c ← project_claim_content d claim; Ok (Some c)
            | None => Ok None
            end;
  let root := match content with Some c => c.(cp_reply).(crc_root) | None => zero_EventRef end in
  '(related, outstanding) ← loadFocusProjectionTx d attachment.(at_principal) claim root;
  related ← mapR projectRelated related;
  references_ ← mapR projectReference references;
  let of_content {A} (f : claim_projection → list A) := match content with Some c => f c | None => [] end in
  let spec := {|
    mv_Attachment := attachment;
    mv_Consequences := projectedConsequences (is_some claim) references attachment.(at_mayInitiate);
    mv_Subjects := of_content (λ c, [c.(cp_subject)]);
    mv_References := map (λ r, r.1.1.1) references_;
    mv_Targets := targets;
    mv_ReplyTo := match content with Some c => c.(cp_current).(acs_ReplyTo) | None => "" end;
    mv_ReplyTarget := match content with
                      | Some c => default no_target c.(cp_reply).(crc_target)
                      | None => no_target
                      end;
    mv_ReplyDelivery := match content with
                        | Some c => c.(cp_reply).(crc_delivery)
                        | None => zero_DeliveryID
                        end;
    mv_ReplyObservationPending := match content with Some c => c.(cp_pending) | None => false end;
    mv_Artifacts := of_content cp_artifacts ++ concat (map (λ r, r.1.2) related) ++
                    concat (map (λ r, r.1.2) references_);
    mv_Provenance := of_content cp_provenance ++ map (λ r, r.1.1) related ++
                     map (λ r, r.1.1.2) references_ |} in
  Ok (spec, λ handle authority, {|
    avs_Handle := handle; avs_Authority := authority; avs_Current := cp_current <$> content;
    avs_Related := map snd related; avs_Outstanding := outstanding;
    avs_References := map snd references_ |}).

Definition projectBoundViewTx (d : db) (attachment : Attachment) (claim : option projectedClaim)
    (operation : OperationKey) : result BoundView :=
  references ← loadReferencesTx d;
  targets ← projectTargetsTx d attachment (is_some claim);
  '(spec, publicSpec) ← projectViewContentTx d attachment claim references targets;
  authorityView ← NewViewAuthority spec;
  viewHandle ← currentViewHandle attachment operation authorityView.(va_digest);
  publicView ← NewAgentView (publicSpec viewHandle authorityView);
  Ok {| bv_authority := authorityView; bv_public := publicView |}.

(** ** Durable Views *)

Definition current_row_of (operation : CurrentOperation) (view : BoundView) : current_row := {|
  cur_request_digest := Digest_String operation.(co_requestDigest);
  cur_view_handle := view.(bv_public).(av_handle);
  cur_authority_digest := Digest_String view.(bv_authority).(va_digest);
  cur_authority := view.(bv_authority).(va_canonical);
  cur_agent_digest := Digest_String (Sum view.(bv_public).(av_canonical));
  cur_agent := view.(bv_public).(av_canonical) |}.

Definition insertCurrentOperationTx (d : db) (attachment : Attachment) (operation : CurrentOperation)
    (view : BoundView) : result db :=
  let key := (attachment.(at_id), operation.(co_key)) in
  let row := current_row_of operation view in
  wrap_error "current View: persist operation"
    (_ ← constraint (negb (references d.(current_operations) key)) "UNIQUE current_operations";
     _ ← constraint (negb (exists_row (λ key' row',
            bool_decide (key'.1 = attachment.(at_id)) &&
            bool_decide (row'.(cur_view_handle) = row.(cur_view_handle))) d.(current_operations)))
           "UNIQUE current_operations(attachment_id, view_handle)";
     _ ← constraint (references d.(attachments) attachment.(at_id))
           "FOREIGN KEY current_operations.attachment_id";
     Ok (set_current_operations (<[key := row]> d.(current_operations)) d)).

Definition reconstructCurrentView (attachment : Attachment) (operation : OperationKey)
    (row : current_row) : result BoundView :=
  authorityDigest ← or_error (ParseDigest row.(cur_authority_digest))
    (Errorf "current View: corrupt authority digest");
  let stored := Errorf "current View: corrupt stored authority" in
  authorityView ← or_error (ParseViewAuthorityCanonicalJSON row.(cur_authority) attachment) stored;
  _ ← fail_if (negb (bool_decide (authorityView.(va_digest) = authorityDigest))) stored;
  let handle := Errorf "current View: corrupt stored handle" in
  expectedHandle ← or_error (currentViewHandle attachment operation authorityDigest) handle;
  _ ← fail_if (negb (bool_decide (row.(cur_view_handle) = expectedHandle))) handle;
  let projection := Errorf "current View: corrupt Agent projection digest" in
  agentDigest ← or_error (ParseDigest row.(cur_agent_digest)) projection;
  _ ← fail_if (negb (bool_decide (Sum row.(cur_agent) = agentDigest))) projection;
  let corrupt := Errorf "current View: corrupt Agent projection" in
  publicView ← or_error (ParseAgentViewCanonicalJSON row.(cur_agent) authorityView) corrupt;
  _ ← fail_if (negb (bool_decide (publicView.(av_handle) = expectedHandle))) corrupt;
  Ok {| bv_authority := authorityView; bv_public := publicView |}.

Definition currentReplayTx (d : db) (attachment : Attachment) (operation : CurrentOperation)
    : result (option BoundView) :=
  match d.(current_operations) !! (attachment.(at_id), operation.(co_key)) with
  | None => Ok None
  | Some row =>
      _ ← fail_if (negb (bool_decide
            (row.(cur_request_digest) = Digest_String operation.(co_requestDigest))))
            ErrOperationConflict;
      view ← reconstructCurrentView attachment operation.(co_key) row;
      Ok (Some view)
  end.

(** ** Store methods *)

Definition currentTx (now : Time) (proof : AttachmentProof) (operation : CurrentOperation) (d : db)
    : result (BoundView * db) :=
  authenticated ← authenticateAttachmentTx d proof;
  let attachment := authenticated.(aa_value) in
  replay ← currentReplayTx d attachment operation;
  match replay with
  | Some view => Ok (view, d)
  | None =>
      _ ← requireLiveAttachment authenticated now;
      d ← settleExpiredClaimsTx d attachment.(at_principal) now MaxClaimExpirySettlementsPerCurrent;
      '(claim, d) ← acquireClaimTx d attachment;
      view ← projectBoundViewTx d attachment claim operation.(co_key);
      d ← insertCurrentOperationTx d attachment operation view;
      Ok (view, d)
  end.

Definition Current (s : Store) (now : Time) (proof : AttachmentProof) (operation : CurrentOperation)
    : result BoundView * Store :=
  guarded s (_ ← fail_if (negb (CurrentOperation_valid operation))
                   (Errorf "current View: valid machine operation is required");
             trustedNow now) (λ now,
  transact s (currentTx now proof operation)).

Definition ReplayCurrent (s : Store) (proof : AttachmentProof) (operation : CurrentOperation)
    : result BoundView :=
  _ ← fail_if (negb (CurrentOperation_valid operation))
        (Errorf "replay current View: valid machine operation is required");
  _ ← requireOpen s;
  authenticated ← authenticateAttachmentTx s.(st_db) proof;
  found ← currentReplayTx s.(st_db) authenticated.(aa_value) operation;
  of_option found ErrCurrentUnavailable.

Definition ResolveCurrentArtifact (s : Store) (now : Time) (proof : AttachmentProof)
    (operation : CurrentOperation) (handle : OpaqueHandle) : result (Digest * Z) :=
  _ ← fail_if (negb (CurrentOperation_valid operation) || IsZero handle)
        (Errorf "resolve current Artifact: complete authority is required");
  now ← trustedNow now;
  _ ← requireOpen s;
  authenticated ← authenticateAttachmentTx s.(st_db) proof;
  _ ← requireLiveAttachment authenticated now;
  found ← currentReplayTx s.(st_db) authenticated.(aa_value) operation;
  view ← of_option found ErrCurrentUnavailable;
  digest ← BoundView_ResolveOfferedArtifact view handle;
  row ← of_option (s.(st_db).(verified_artifacts) !! Digest_String digest) ErrArtifactUnavailable;
  _ ← fail_if ((row.(vr_byte_size) <? 0) || (MaxArtifactBytes <? row.(vr_byte_size)))
        (Errorf "resolve current Artifact: corrupt catalog size");
  Ok (digest, row.(vr_byte_size)).
