(* ===== verification/ControlWire.v ===== *)
(** What travels between the agent terminal and its daemon: HTTP messages, the closed
    JSON bodies (internal/daemon/control_wire.go and the same declarations in
    internal/agency/client/control_client.go) and their text. *)

From Stdlib Require Import Lia.
From S2P Require Import Prelude Utf8 Json Wire Sha256 Time Value Base64 Compact.

#[local] Open Scope Z_scope.

(** ** HTTP *)

Definition header : Type := list (string * string).
Definition Values (name : string) (h : header) : list string := (filter (λ e, e.1 = name) h).*2.
Definition Get (name : string) (h : header) : string := default "" (head (Values name h)).

(** [rq_body]: what reading the body to its end gives; [rq_path], [rq_query] are of the URL. *)
Record request := {
  rq_method : string; rq_path : string; rq_query : string; rq_header : header; rq_contentLength : Z;
  rq_transferEncoding : list string; rq_body : result string }.
(** [rs_contentLength] is -1 unless the handler set the header. *)
Record response := { rs_status : Z; rs_header : header; rs_contentLength : Z; rs_body : result string }.

Definition StatusOK : Z := 200.
Definition StatusBadRequest : Z := 400.
Definition StatusUnauthorized : Z := 401.
Definition StatusConflict : Z := 409.
Definition StatusInternalServerError : Z := 500.
Definition StatusServiceUnavailable : Z := 503.

Definition routeAttachments : string := "/v1/agency/attachments".
Definition routeAttachmentEnd : string := "/v1/agency/attachments/end".
Definition routeCurrent : string := "/v1/agency/current".
Definition routeSubmit : string := "/v1/agency/submit".
Definition routeArtifacts : string := "/v1/agency/artifacts".
Definition routeArtifactRead : string := "/v1/agency/artifacts/read".
Definition routeStatus : string := "/v1/agency/status".

Definition headerAttachment : string := "Mnemon-Agency-Attachment".
Definition headerCredential : string := "Mnemon-Agency-Credential".
Definition headerCurrentOperation : string := "Mnemon-Agency-Current-Operation".
Definition headerOperation : string := "Mnemon-Agency-Operation".
Definition headerArtifactDigest : string := "Mnemon-Artifact-Digest".

Definition attachmentSchema : string := "mnemon.agency.attachment".
Definition attachmentEndSchema : string := "mnemon.agency.attachment-end".
Definition artifactSchema : string := "mnemon.agency.artifact".
Definition statusSchema : string := "mnemon.agency.status".
Definition controlVersion : Z := 1.
Definition maxPrivateResponse : Z := Z.shiftl 4 10.
Definition maxArtifactRequestBody : Z := (Z.shiftl 4 20 + 2) / 3 * 4 + 256.

(** ** Text *)

(** [unicode.IsSpace]. *)
Definition is_space (c : N) : bool :=
  bool_decide (c ∈ [9; 10; 11; 12; 13; 32; 0x85; 0xa0; 0x1680; 0x2028; 0x2029; 0x202f; 0x205f; 0x3000]%N) ||
  ((0x2000 <=? c) && (c <=? 0x200a))%N.

(** The runes of any string; a byte that starts none is U+FFFD. *)
Fixpoint lossy_runes (fuel : nat) (s : string) : list N :=
  match fuel, s with
  | S fuel, String _ tl =>
      match decode_rune s with
      | Some (c, rest) => c :: lossy_runes fuel rest
      | None => 0xFFFD%N :: lossy_runes fuel tl
      end
  | _, _ => []
  end.

(** [strings.TrimSpace(s) == s]. *)
Definition trimmed (s : string) : bool :=
  let cs := lossy_runes (String.length s) s in
  match head cs, last cs with
  | Some a, Some b => negb (is_space a) && negb (is_space b)
  | _, _ => true
  end.

(** [base64.RawStdEncoding]: the alphabet of [base64.RawURLEncoding] with [+] and [/]. *)
Definition to_std (c : ascii) : ascii := if Ascii.eqb c "-" then "+"%char else if Ascii.eqb c "_" then "/"%char else c.
Definition of_std (c : ascii) : ascii := if Ascii.eqb c "+" then "-"%char else if Ascii.eqb c "/" then "_"%char else c.
Fixpoint map_string (f : ascii → ascii) (s : string) : string :=
  match s with EmptyString => "" | String c s => String (f c) (map_string f s) end.
Definition rawstd_encode (s : string) : string := map_string to_std (base64_encode s).
(** Strict. *)
Definition rawstd_decode (s : string) : option string :=
  if contains_byte "-" s || contains_byte "_" s then None else base64_decode (map_string of_std s).

(** [json.compact] with [escape]: the bytes of a [json.RawMessage] when it is marshalled. *)
Fixpoint escape_html (s : string) : string :=
  match s with
  | EmptyString => ""
  | String c tl =>
      if Ascii.eqb c "<" || Ascii.eqb c ">" || Ascii.eqb c "&" then u00 (N_of_byte c) +:+ escape_html tl
      else
        match tl with
        | String b1 (String b2 tl') =>
            if (N_of_byte c =? 0xe2)%N && (N_of_byte b1 =? 0x80)%N && ((N_of_byte b2 =? 0xa8) || (N_of_byte b2 =? 0xa9))%N
            then "\u202" +:+ String (hex_digit (N_of_byte b2 mod 16)) (escape_html tl')
            else String c (escape_html tl)
        | _ => String c (escape_html tl)
        end
  end.
Definition marshal_raw (raw : string) : string := escape_html (json_Compact raw).

(** ** Bodies *)

Record attachmentWire := {
  atw_Attachment : string; atw_Credential : string; atw_ExpiresAt : string; atw_Schema : string; atw_Version : Z }.
#[export] Instance attachmentWire_codec : Codec attachmentWire := {
  enc w := struct [field "attachment" w.(atw_Attachment); field "credential" w.(atw_Credential);
    field "expires_at" w.(atw_ExpiresAt); field "schema" w.(atw_Schema); @field Z int_codec "version" w.(atw_Version)];
  dec_value j :=
    ms ← members_of ["attachment"; "credential"; "expires_at"; "schema"; "version"] j;
    a ← get "attachment" ms; c ← get "credential" ms; e ← get "expires_at" ms; s ← get "schema" ms;
    v ← @get Z int_codec "version" ms;
    Ok {| atw_Attachment := a; atw_Credential := c; atw_ExpiresAt := e; atw_Schema := s; atw_Version := v |};
  zero := {| atw_Attachment := ""; atw_Credential := ""; atw_ExpiresAt := ""; atw_Schema := ""; atw_Version := 0 |};
  empty _ := false;
  enc_ok w := enc_ok w.(atw_Attachment) ∧ enc_ok w.(atw_Credential) ∧ enc_ok w.(atw_ExpiresAt) ∧
    enc_ok w.(atw_Schema) ∧ @enc_ok Z int_codec w.(atw_Version);
}.
#[export] Instance attachmentWire_laws : CodecLaws attachmentWire.
Proof. solve_struct. Qed.

Record attachmentBeginWire := { abw_BoundaryDigest : string }.
#[export] Instance attachmentBeginWire_codec : Codec attachmentBeginWire := {
  enc w := struct [field "boundary_digest" w.(abw_BoundaryDigest)];
  dec_value j := ms ← members_of ["boundary_digest"] j; b ← get "boundary_digest" ms; Ok {| abw_BoundaryDigest := b |};
  zero := {| abw_BoundaryDigest := "" |}; empty _ := false; enc_ok w := enc_ok w.(abw_BoundaryDigest);
}.
#[export] Instance attachmentBeginWire_laws : CodecLaws attachmentBeginWire.
Proof. solve_struct. Qed.

(** [struct{}]. *)
Record emptyWire := {}.
#[export] Instance emptyWire_codec : Codec emptyWire := {
  enc _ := struct []; dec_value j := _ ← members_of [] j; Ok Build_emptyWire; zero := Build_emptyWire; empty _ := false;
  enc_ok _ := True;
}.
#[export] Instance emptyWire_laws : CodecLaws emptyWire.
Proof. split; [by intros []|intros [] _; constructor; [constructor|done]|by intros []|by intros []]. Qed.

Record attachmentEndWire := {
  aew_ReleasedClaim : bool; aew_Replayed : bool; aew_Schema : string; aew_Status : string; aew_Version : Z }.
#[export] Instance attachmentEndWire_codec : Codec attachmentEndWire := {
  enc w := struct [field "released_claim" w.(aew_ReleasedClaim); field "replayed" w.(aew_Replayed);
    field "schema" w.(aew_Schema); field "status" w.(aew_Status); @field Z int_codec "version" w.(aew_Version)];
  dec_value j :=
    ms ← members_of ["released_claim"; "replayed"; "schema"; "status"; "version"] j;
    c ← get "released_claim" ms; r ← get "replayed" ms; s ← get "schema" ms; t ← get "status" ms;
    v ← @get Z int_codec "version" ms;
    Ok {| aew_ReleasedClaim := c; aew_Replayed := r; aew_Schema := s; aew_Status := t; aew_Version := v |};
  zero := {| aew_ReleasedClaim := false; aew_Replayed := false; aew_Schema := ""; aew_Status := ""; aew_Version := 0 |};
  empty _ := false;
  enc_ok w := enc_ok w.(aew_ReleasedClaim) ∧ enc_ok w.(aew_Replayed) ∧ enc_ok w.(aew_Schema) ∧ enc_ok w.(aew_Status) ∧
    @enc_ok Z int_codec w.(aew_Version);
}.
#[export] Instance attachmentEndWire_laws : CodecLaws attachmentEndWire.
Proof. solve_struct. Qed.

Record controlCandidateWire := { ccw_Digest : string; ccw_Handle : string }.
#[export] Instance controlCandidateWire_codec : Codec controlCandidateWire := {
  enc w := struct [field "digest" w.(ccw_Digest); field "handle" w.(ccw_Handle)];
  dec_value j := ms ← members_of ["digest"; "handle"] j; d ← get "digest" ms; h ← get "handle" ms;
    Ok {| ccw_Digest := d; ccw_Handle := h |};
  zero := {| ccw_Digest := ""; ccw_Handle := "" |}; empty _ := false;
  enc_ok w := enc_ok w.(ccw_Digest) ∧ enc_ok w.(ccw_Handle);
}.
#[export] Instance controlCandidateWire_laws : CodecLaws controlCandidateWire.
Proof. solve_struct. Qed.

Record artifactRequestWire := { arw_Content : string }.
#[export] Instance artifactRequestWire_codec : Codec artifactRequestWire := {
  enc w := struct [field "content_base64" w.(arw_Content)];
  dec_value j := ms ← members_of ["content_base64"] j; c ← get "content_base64" ms; Ok {| arw_Content := c |};
  zero := {| arw_Content := "" |}; empty _ := false; enc_ok w := enc_ok w.(arw_Content);
}.
#[export] Instance artifactRequestWire_laws : CodecLaws artifactRequestWire.
Proof. solve_struct. Qed.

Record artifactReadRequestWire := { arr_Handle : string }.
#[export] Instance artifactReadRequestWire_codec : Codec artifactReadRequestWire := {
  enc w := struct [field "handle" w.(arr_Handle)];
  dec_value j := ms ← members_of ["handle"] j; h ← get "handle" ms; Ok {| arr_Handle := h |};
  zero := {| arr_Handle := "" |}; empty _ := false; enc_ok w := enc_ok w.(arr_Handle);
}.
#[export] Instance artifactReadRequestWire_laws : CodecLaws artifactReadRequestWire.
Proof. solve_struct. Qed.

Record artifactResponseWire := {
  aow_ByteSize : Z; aow_Digest : string; aow_Handle : string; aow_Schema : string; aow_Version : Z }.
#[export] Instance artifactResponseWire_codec : Codec artifactResponseWire := {
  enc w := struct [@field Z int_codec "byte_size" w.(aow_ByteSize); field "digest" w.(aow_Digest);
    field "handle" w.(aow_Handle); field "schema" w.(aow_Schema); @field Z int_codec "version" w.(aow_Version)];
  dec_value j :=
    ms ← members_of ["byte_size"; "digest"; "handle"; "schema"; "version"] j;
    b ← @get Z int_codec "byte_size" ms; d ← get "digest" ms; h ← get "handle" ms; s ← get "schema" ms;
    v ← @get Z int_codec "version" ms;
    Ok {| aow_ByteSize := b; aow_Digest := d; aow_Handle := h; aow_Schema := s; aow_Version := v |};
  zero := {| aow_ByteSize := 0; aow_Digest := ""; aow_Handle := ""; aow_Schema := ""; aow_Version := 0 |};
  empty _ := false;
  enc_ok w := @enc_ok Z int_codec w.(aow_ByteSize) ∧ enc_ok w.(aow_Digest) ∧ enc_ok w.(aow_Handle) ∧
    enc_ok w.(aow_Schema) ∧ @enc_ok Z int_codec w.(aow_Version);
}.
#[export] Instance artifactResponseWire_laws : CodecLaws artifactResponseWire.
Proof. solve_struct. Qed.

Record statusWire := { stw_Schema : string; stw_Status : string; stw_Version : Z }.
#[export] Instance statusWire_codec : Codec statusWire := {
  enc w := struct [field "schema" w.(stw_Schema); field "status" w.(stw_Status); @field Z int_codec "version" w.(stw_Version)];
  dec_value j := ms ← members_of ["schema"; "status"; "version"] j; s ← get "schema" ms; t ← get "status" ms;
    v ← @get Z int_codec "version" ms; Ok {| stw_Schema := s; stw_Status := t; stw_Version := v |};
  zero := {| stw_Schema := ""; stw_Status := ""; stw_Version := 0 |}; empty _ := false;
  enc_ok w := enc_ok w.(stw_Schema) ∧ enc_ok w.(stw_Status) ∧ @enc_ok Z int_codec w.(stw_Version);
}.

(** [submitWire]: the Intent is a [json.RawMessage]; an absent one is [None]. *)
Record submitWire := { sw_Candidates : list controlCandidateWire; sw_Intent : option string }.

Definition marshal_submit (w : submitWire) : string :=
  let intent := dquote +:+ "intent" +:+ dquote +:+ ":" +:+ default "null" (marshal_raw <$> w.(sw_Intent)) in
  "{" +:+ (if bool_decide (w.(sw_Candidates) = []) then ""
           else dquote +:+ "candidates" +:+ dquote +:+ ":" +:+ canonical_bytes w.(sw_Candidates) +:+ ",") +:+ intent +:+ "}".

(** ** Strict decoding *)

(** The text of each member of an object that scans, after its opening brace. *)
Fixpoint raw_members (fuel : nat) (s : string) : list (string * string) :=
  match fuel with
  | O => []
  | S fuel =>
      match parse_first None s with
      | Ok (JStr key, t) =>
          match strip_prefix ":" (skip_ws t) with
          | None => []
          | Some t =>
              let t := skip_ws t in
              match parse_first None t with
              | Err _ => []
              | Ok (_, u) =>
                  let raw := String.substring 0 (String.length t - String.length u) t in
                  (key, raw) :: match strip_prefix "," (skip_ws u) with
                                | Some u => raw_members fuel u
                                | None => []
                                end
              end
          end
      | _ => []
      end
  end.
Definition raw_member (key body : string) : option string :=
  match body with
  | String _ members => assoc key (raw_members (String.length body) members)
  | EmptyString => None
  end.

(** A value, nothing after it, and exactly the bytes it marshals to.  A body that
    repeats a member never satisfies the last, whichever occurrence is decoded. *)
Definition errTrailing : error := Errorf "control JSON contains a trailing value".
Definition closed {A} (decode : json → result A) (text : A → string) (raw : string) : result A :=
  '(v, rest) ← parse_first None raw;
  w ← decode v;
  _ ← fail_if (negb (is_empty (skip_ws rest))) errTrailing;
  _ ← fail_if (negb (String.eqb (text w) raw)) (Errorf "control JSON does not match its closed schema");
  Ok w.
Definition decodeClosedJSON {A} `{Codec A} : string → result A := closed dec canonical_bytes.

Definition decode_submit (raw : string) : result submitWire :=
  closed (λ v,
    ms ← members_of ["candidates"; "intent"] v;
    candidates ← get "candidates" ms;
    Ok {| sw_Candidates := candidates; sw_Intent := raw_member "intent" raw |}) marshal_submit raw.
