(* ===== verification/ControlText.v ===== *)
(** Laws of the control messages' text: marshalled JSON survives as a raw message,
    tokens and base64 as header values, and a submit body decodes to what it carries. *)

From Stdlib Require Import Lia.
From S2P Require Import Prelude Utf8 Json Wire Sha256 Time Value Base64 Compact Journal ControlWire.

#[local] Open Scope Z_scope.
#[local] Arguments String.append : simpl nomatch.

(** ** Raw messages *)

(** Text that escaping leaves alone, whatever follows. *)
Definition html_text (x : string) : Prop := ∀ t, escape_html (x +:+ t) = x +:+ escape_html t.

Definition html_special (c : ascii) : bool :=
  Ascii.eqb c "<" || Ascii.eqb c ">" || Ascii.eqb c "&" || (N_of_byte c =? 0xe2)%N.

Lemma html_nil : html_text "".
Proof. done. Qed.
Lemma html_app x y : html_text x → html_text y → html_text (x +:+ y).
Proof. intros Hx Hy t. by rewrite !string_app_assoc, Hx, Hy. Qed.
Lemma html_cons c x : html_special c = false → html_text x → html_text (String c x).
Proof.
  unfold html_special. intros [H He]%orb_false_iff Hx t. change (String c x +:+ t) with (String c (x +:+ t)).
  cbn [escape_html]. rewrite H, He. specialize (Hx t). cbn [andb].
  destruct (x +:+ t) as [|b1 [|b2 u]] eqn:E; rewrite <- E, ?Hx in *; try done; by rewrite Hx.
Qed.

Lemma html_high c x : (0x80 <= N_of_byte c)%N → N_of_byte c ≠ 0xe2%N → html_text x → html_text (String c x).
Proof.
  intros Hc He. apply html_cons. unfold html_special.
  rewrite (byte_neq c 60 ltac:(lia) ltac:(lia) : Ascii.eqb c "<" = false), (byte_neq c 62 ltac:(lia) ltac:(lia) : Ascii.eqb c ">" = false),
    (byte_neq c 38 ltac:(lia) ltac:(lia) : Ascii.eqb c "&" = false), (proj2 (N.eqb_neq _ _) He). done.
Qed.

(** A three-byte code point that is not a line separator. *)
Lemma html_e2 b1 b2 :
  (N_of_byte b1 = 0x80 → N_of_byte b2 ≠ 0xa8 ∧ N_of_byte b2 ≠ 0xa9)%N → (0x80 <= N_of_byte b1 < 0xc0)%N → (0x80 <= N_of_byte b2 < 0xc0)%N →
  html_text (String (byte_of_N 0xe2) (String b1 (String b2 ""))).
Proof.
  intros Hb H1 H2 t. change (String (byte_of_N 0xe2) (String b1 (String b2 "")) +:+ t)
    with (String (byte_of_N 0xe2) (String b1 (String b2 t))).
  cbn [escape_html]. change (Ascii.eqb (byte_of_N 0xe2) "<" || Ascii.eqb (byte_of_N 0xe2) ">" || Ascii.eqb (byte_of_N 0xe2) "&") with false.
  change (N_of_byte (byte_of_N 0xe2) =? 0xe2)%N with true. cbn [andb].
  replace ((N_of_byte b1 =? 0x80) && ((N_of_byte b2 =? 0xa8) || (N_of_byte b2 =? 0xa9)))%N with false.
  - assert (html_text (String b1 (String b2 ""))) as H by (apply html_high; [lia|lia|]; apply html_high; [lia|lia|]; apply html_nil).
    specialize (H t). change (String b1 (String b2 "") +:+ t) with (String b1 (String b2 t)) in H.
    match type of H with escape_html ?x = _ => change (String (byte_of_N 0xe2) (escape_html x) = String (byte_of_N 0xe2) (String b1 (String b2 "") +:+ escape_html t)) end.
    by rewrite H.
  - destruct (N.eqb_spec (N_of_byte b1) 0x80) as [E|]; [|done]. destruct (Hb E) as [Ha Hc].
    by rewrite (proj2 (N.eqb_neq _ _) Ha), (proj2 (N.eqb_neq _ _) Hc).
Qed.

Lemma encode_rune_html c :
  (0x80 <= c)%N → scalar c = true → c ≠ 0x2028%N → c ≠ 0x2029%N → html_text (encode_rune c).
Proof.
  intros Hc Hs Hn1 Hn2. assert (c < 0x110000)%N.
  { unfold scalar in Hs. rewrite orb_true_iff, andb_true_iff, !N.ltb_lt in Hs. lia. }
  unfold encode_rune. destruct (N.ltb_spec c 0x80); [lia|].
  destruct (N.ltb_spec c 0x800); [|destruct (N.ltb_spec c 0x10000)].
  - repeat (apply html_high; [rewrite N_of_byte_of_N; div_lia..|]); apply html_nil.
  - destruct (N.eqb_spec (c / 4096) 2) as [E|E].
    + replace (0xE0 + c / 4096)%N with 0xe2%N by lia.
      apply html_e2; rewrite ?N_of_byte_of_N; try div_lia.
    + repeat (apply html_high; [rewrite N_of_byte_of_N; div_lia..|]); apply html_nil.
  - repeat (apply html_high; [rewrite N_of_byte_of_N; div_lia..|]); apply html_nil.
Qed.

Lemma escape_rune_html c : scalar c = true → html_text (escape_rune c).
Proof.
  intros Hs. destruct (N.ltb_spec c 0x80) as [Hc|Hc].
  - destruct c as [|p]; [by repeat (apply html_cons; [done|])|].
    do 7 (try (destruct p as [p|p|]; [| |by repeat (apply html_cons; [done|]); apply html_nil])); exfalso; lia.
  - unfold escape_rune. rewrite (proj2 (N.ltb_ge _ _) Hc).
    destruct (N.eqb_spec c 0x2028); [by repeat (apply html_cons; [done|])|].
    destruct (N.eqb_spec c 0x2029); [by repeat (apply html_cons; [done|])|].
    by apply encode_rune_html.
Qed.

Lemma escape_is_html s : valid_utf8 s = true → html_text (escape s).
Proof.
  revert s. apply valid_utf8_ind; [done|]. intros c s Hc _ IH. rewrite escape_encode by done.
  apply html_app; [by apply escape_rune_html|done].
Qed.

Lemma marshal_string_html s : valid_utf8 s = true → html_text (marshal_string s).
Proof. intros Hs. unfold marshal_string. apply html_cons; [done|]. apply html_app; [by apply escape_is_html|by apply html_cons]. Qed.

Lemma digits_html s : all_digits s = true → html_text s.
Proof.
  induction s as [|c s IH]; [done|]. cbn [all_digits]. intros [Hc Hs]%andb_prop.
  apply is_digit_inv in Hc. apply html_cons; [by destruct_or! Hc; subst|by apply IH].
Qed.

Lemma join_comma_html xs : Forall html_text xs → html_text (join_comma xs).
Proof.
  destruct 1 as [|x xs Hx Hxs]; [done|]. apply html_app; [done|].
  induction Hxs as [|y ys Hy _ IH]; [done|]. apply html_cons; [done|]. by apply html_app.
Qed.

Lemma marshal_html v : json_wf v → html_text (marshal v).
Proof.
  induction v as [|b|l|s|vs IH|ms IH] using json_induction; inversion 1; subst; cbn [marshal].
  - by repeat (apply html_cons; [done|]).
  - by destruct b; repeat (apply html_cons; [done|]).
  - apply digits_html. destruct l as [|c l]; [done|]. cbn [is_numeral all_digits] in *. by apply andb_prop in H1 as [H1 _].
  - by apply marshal_string_html.
  - apply html_cons; [done|]. apply html_app; [|by apply html_cons].
    apply join_comma_html, Forall_map. rewrite Forall_forall in *. naive_solver.
  - apply html_cons; [done|]. apply html_app; [|by apply html_cons].
    apply join_comma_html, Forall_map. rewrite Forall_forall in *.
    intros [k v] Hm. destruct (H2 _ Hm) as [Hk Hv]. cbn [fst snd] in *.
    apply html_app; [by apply marshal_string_html|]. apply html_cons; [done|]. by apply (IH _ Hm).
Qed.

(** A raw message of marshalled text is that text. *)
Lemma marshal_raw_marshal v : json_wf v → marshal_raw (marshal v) = marshal v.
Proof.
  intros Hv. unfold marshal_raw. rewrite json_Compact_marshal by done. pose proof (marshal_html v Hv "") as H.
  by rewrite !string_app_nil_r in H.
Qed.

(** ** Header values *)

(** Printable ASCII without the space. *)
Definition visible (c : ascii) : bool := in_range 33 126 c.

Lemma visible_facts c : visible c = true →
  (N_of_byte c < 0x80)%N ∧ is_space (N_of_byte c) = false ∧
  c ≠ " "%char ∧ c ≠ "009"%char ∧ c ≠ "010"%char ∧ c ≠ "013"%char.
Proof. destruct c as [[] [] [] [] [] [] [] []]; vm_compute; intros; try discriminate; repeat split; congruence. Qed.

Lemma lossy_runes_ascii fuel s :
  (String.length s <= fuel)%nat → Forall (λ c, (N_of_byte c < 0x80)%N) (string_to_bytes s) →
  lossy_runes fuel s = map N_of_byte (string_to_bytes s).
Proof.
  revert s. induction fuel as [|fuel IH]; intros [|c s]; cbn [String.length lossy_runes string_to_bytes map]; try done; [lia|].
  intros Hl [Hc Hs]%Forall_cons. unfold decode_rune. rewrite (proj2 (N.ltb_lt _ _) Hc). f_equal. apply IH; [lia|done].
Qed.

Lemma visible_trimmed s : forallb visible (string_to_bytes s) = true → trimmed s = true.
Proof.
  intros Hv. unfold trimmed.
  assert (Forall (λ c, visible c = true) (string_to_bytes s)) as Hf.
  { apply Forall_forall. intros c Hc. rewrite forallb_forall in Hv. by apply Hv, list_elem_of_In. }
  rewrite lossy_runes_ascii; [|done|eapply Forall_impl; [exact Hf|intros c Hc; by apply visible_facts]].
  destruct (head _) as [a|] eqn:Ea; [|done]. destruct (last _) as [b|] eqn:Eb; [|done].
  assert (∀ n, n ∈ map N_of_byte (string_to_bytes s) → is_space n = false) as Hsp.
  { intros n (c & -> & Hc)%list_elem_of_fmap. rewrite Forall_forall in Hf. by apply visible_facts, Hf. }
  rewrite !Hsp; [done| |].
  - apply last_Some in Eb as (l & ->). apply elem_of_app. right. by left.
  - destruct (map _ _); [done|]. injection Ea as ->. by left.
Qed.

Lemma visible_lacks c s : visible c = false → forallb visible (string_to_bytes s) = true → contains_byte c s = false.
Proof.
  intros Hc Hv. unfold contains_byte. apply bool_decide_eq_false. intros Hin. rewrite forallb_forall in Hv.
  apply list_elem_of_In, Hv in Hin. congruence.
Qed.

Lemma base64_visible s : forallb visible (string_to_bytes (base64_encode s)) = true.
Proof.
  pose proof (base64_encode_bytes s) as H. rewrite forallb_forall in *. intros c Hc%H.
  by destruct c as [[] [] [] [] [] [] [] []].
Qed.

Lemma token_visible maximum l s : token_ok maximum l s = true → forallb visible (string_to_bytes s) = true.
Proof.
  intros [Hb _]%token_ok_bytes. apply forallb_forall. intros c Hc%list_elem_of_In. rewrite Forall_forall in Hb.
  specialize (Hb c Hc). revert Hb. destruct c as [[] [] [] [] [] [] [] []], l; vm_compute; tauto || (intros [?|?]; congruence).
Qed.

(** ** Raw standard base64 *)

Lemma map_string_bytes f s : string_to_bytes (map_string f s) = map f (string_to_bytes s).
Proof. induction s as [|c s IH]; [done|]. cbn. by rewrite IH. Qed.
Lemma map_string_length f s : String.length (map_string f s) = String.length s.
Proof. induction s as [|c s IH]; [done|]. cbn. by rewrite IH. Qed.

Lemma rawstd_bytes s : Forall (λ c, visible c = true ∧ c ≠ "-"%char ∧ c ≠ "_"%char ∧ c ≠ "="%char ∧ plain_byte c = true)
  (string_to_bytes (rawstd_encode s)).
Proof.
  unfold rawstd_encode. rewrite map_string_bytes. apply Forall_map, Forall_forall. intros c Hc.
  pose proof (base64_encode_bytes s) as H. rewrite forallb_forall in H. apply list_elem_of_In, H in Hc. revert Hc. clear.
  destruct c as [[] [] [] [] [] [] [] []]; vm_compute; intros; try discriminate; repeat split; congruence.
Qed.

Lemma rawstd_decode_encode s : rawstd_decode (rawstd_encode s) = Some s.
Proof.
  unfold rawstd_decode. pose proof (rawstd_bytes s) as Hb. rewrite Forall_forall in Hb.
  assert (∀ c, (c = "-"%char ∨ c = "_"%char) → contains_byte c (rawstd_encode s) = false) as Hno.
  { intros c Hc. apply bool_decide_eq_false. intros (_ & ? & ? & _)%Hb. by destruct Hc. }
  rewrite !Hno by tauto. cbn [orb]. unfold rawstd_encode.
  assert (map_string of_std (map_string to_std (base64_encode s)) = base64_encode s) as ->; [|apply base64_decode_encode].
  pose proof (base64_encode_bytes s) as H. revert H. generalize (base64_encode s). clear.
  induction s as [|c s IH]; [done|]. cbn [string_to_bytes forallb map_string]. intros [Hc Hs]%andb_prop. rewrite IH by done.
  f_equal. by destruct c as [[] [] [] [] [] [] [] []].
Qed.

Lemma rawstd_length s : slen (rawstd_encode s) = (4 * slen s + 2) / 3.
Proof. rewrite <- base64_encode_length. unfold rawstd_encode, slen. by rewrite map_string_length. Qed.

(** ** Submit bodies *)

Lemma parse_first_prefix v t : json_wf v → value_end t = true → parse_first None (marshal v +:+ t) = Ok (v, t).
Proof.
  intros Hv Ht. unfold parse_first. apply marshal_parses_back; [done| |done].
  pose proof (json_size_marshal v). rewrite string_length_app. lia.
Qed.

(** A key is followed by its colon. *)
Lemma parse_first_key k t : valid_utf8 k = true → parse_first None (marshal_string k +:+ t) = Ok (JStr k, t).
Proof.
  intros Hk. unfold parse_first. cbn [parse_value]. unfold marshal_string, dquote.
  cbn [String.append]. rewrite skip_ws_id by done. cbn [Ascii.eqb Bool.eqb].
  rewrite string_app_assoc. cbn [String.append]. by rewrite scan_string_marshal.
Qed.

Lemma skip_ws_marshal v t : json_wf v → skip_ws (marshal v +:+ t) = marshal v +:+ t.
Proof.
  destruct 1 as [|[]|[|c l] Hl| | |]; try done. cbn [is_numeral] in Hl. apply andb_prop in Hl as [[Hc _]%andb_prop _].
  apply is_digit_inv in Hc. by destruct_or! Hc; subst.
Qed.

Definition member_text (m : string * json) : string := marshal_string m.1 +:+ String ":" (marshal m.2).

Lemma raw_members_marshal ms m fuel :
  Forall (λ m, valid_utf8 m.1 = true ∧ json_wf m.2) (m :: ms) → (length ms < fuel)%nat →
  raw_members fuel (member_text m +:+ comma_tail (map member_text ms) +:+ "}") =
    map (λ m, (m.1, marshal m.2)) (m :: ms).
Proof.
  revert m fuel. induction ms as [|m' ms IH]; intros [k v] [|fuel] Hall Hf; cbn [length] in Hf; try lia;
    apply Forall_cons in Hall as [[Hk Hv] Hms]; cbn [fst snd] in Hk, Hv; cbn [raw_members];
    unfold member_text at 1; cbn [fst snd]; rewrite string_app_assoc, parse_first_key by done;
    cbn [String.append skip_ws Ascii.eqb Bool.eqb orb strip_prefix]; rewrite skip_ws_marshal by done;
    rewrite parse_first_prefix by done; rewrite string_length_app, Nat.add_sub, substring_app_l; cbn [map fst snd]; [done|].
  cbn [map comma_tail foldr String.append skip_ws Ascii.eqb Bool.eqb orb strip_prefix].
  f_equal. rewrite string_app_assoc. apply IH; [done|lia].
Qed.

Lemma comma_tail_length xs : (length xs <= String.length (comma_tail xs))%nat.
Proof. induction xs as [|x xs IH]; [done|]. cbn. rewrite string_length_app. unfold comma_tail in IH. lia. Qed.

Lemma raw_member_marshal k ms :
  json_wf (JObj ms) → ms ≠ [] → raw_member k (marshal (JObj ms)) = marshal <$> assoc k ms.
Proof.
  inversion 1; subst. destruct ms as [|m ms]; [done|]. intros _. unfold raw_member. cbn [marshal].
  assert (join_comma (map (λ m, marshal_string m.1 +:+ String ":" (marshal m.2)) (m :: ms)) +:+ "}" =
    member_text m +:+ comma_tail (map member_text ms) +:+ "}") as E by by rewrite <- string_app_assoc.
  rewrite E, raw_members_marshal; [| |].
  - clear. induction (m :: ms) as [|[k' v'] l IH]; [done|]. cbn [map assoc fst snd]. by destruct (String.eqb _ _).
  - eapply Forall_impl; [eassumption|]. intros [] []; done.
  - cbn [String.length]. rewrite !string_length_app. pose proof (comma_tail_length (map member_text ms)) as Hc.
    rewrite length_map in Hc. lia.
Qed.

Definition candidate_text (w : controlCandidateWire) : Prop :=
  valid_utf8 w.(ccw_Digest) = true ∧ valid_utf8 w.(ccw_Handle) = true.

(** The members of a submit body that carries a marshalled Intent. *)
Definition submit_members (wires : list controlCandidateWire) (intent : json) : list (string * json) :=
  (if bool_decide (wires = []) then [] else [("candidates", enc wires)]) ++ [("intent", intent)].

Lemma marshal_submit_members wires intent :
  json_wf intent →
  marshal_submit {| sw_Candidates := wires; sw_Intent := Some (marshal intent) |} = marshal (JObj (submit_members wires intent)).
Proof.
  intros Hi. unfold marshal_submit, submit_members. cbn [sw_Candidates sw_Intent fmap option_fmap option_map default].
  rewrite marshal_raw_marshal by done. destruct (bool_decide (wires = [])).
  - cbn [app marshal map join_comma foldr fst snd]. by rewrite string_app_nil_r.
  - unfold canonical_bytes. cbn [app]. generalize (enc wires). intros c. cbn [marshal map join_comma foldr fst snd].
    change (marshal_string "candidates") with (dquote +:+ "candidates" +:+ dquote).
    change (marshal_string "intent") with (dquote +:+ "intent" +:+ dquote).
    generalize (marshal c), (marshal intent). intros x y. cbn. by rewrite !string_app_assoc, string_app_nil_r.
Qed.

Lemma decode_submit_marshal wires intent :
  json_wf intent → Forall candidate_text wires →
  decode_submit (marshal_submit {| sw_Candidates := wires; sw_Intent := Some (marshal intent) |}) =
    Ok {| sw_Candidates := wires; sw_Intent := Some (marshal intent) |}.
Proof.
  intros Hi Hw. assert (enc_ok wires) as Hok by (eapply Forall_impl; [exact Hw|by intros w []]).
  assert (json_wf (JObj (submit_members wires intent))) as Hj.
  { unfold submit_members. pose proof (enc_wf wires Hok).
    case_bool_decide; constructor; cbn [app].
    1, 3: struct_nodup. all: repeat (constructor; [done|]); constructor. }
  unfold decode_submit, closed. rewrite marshal_submit_members by done. rewrite parse_first_marshal by done.
  cbn [mbind result_bind].
  assert (submit_members wires intent ≠ []) as Hn by (unfold submit_members; by destruct (bool_decide _)).
  rewrite raw_member_marshal by done.
  assert (members_of ["candidates"; "intent"] (JObj (submit_members wires intent)) = Ok (submit_members wires intent)) as ->
    by (unfold submit_members; by destruct (bool_decide _)).
  cbn [mbind result_bind].
  assert (get "candidates" (submit_members wires intent) = Ok wires) as ->.
  { unfold submit_members, get. case_bool_decide as E; [by subst|]. exact (dec_enc wires Hok). }
  cbn [mbind result_bind].
  assert (assoc "intent" (submit_members wires intent) = Some intent) as ->
    by (unfold submit_members; by destruct (bool_decide _)).
  cbn [fmap option_fmap option_map skip_ws is_empty]. rewrite marshal_submit_members by done.
  by rewrite String.eqb_refl.
Qed.
