(* ===== verification/Control.v ===== *)
(** The daemon's control server (internal/daemon/control.go, control_parse.go,
    control_error.go): every route from the request it accepts to the response it
    writes, over what the local service offers. *)

From Stdlib Require Import Lia.
From S2P Require Import Prelude Io Utf8 Json Wire Sha256 Time Value Intent Bound Event View AgentView Base64.
From S2P Require Import Cas Bind StoreTime Store Attach Current ArtifactText Compact Journal Terminal ControlWire.

#[local] Open Scope Z_scope.

(** ** The local service *)

Record serviceAttachment := { sa_id : AttachmentID; sa_credential : string; sa_expiresAt : Time }.
Record attachmentEnd := { aed_replayed : bool; aed_releasedClaim : bool }.
Record capturedArtifact := { ca_handle : OpaqueHandle; ca_digest : Digest; ca_byteSize : Z }.
Record serviceCandidate := { sc_handle : OpaqueHandle; sc_digest : Digest }.

(** The methods of [localService]. *)
Record LocalService (W : Type) := {
  ls_attach : Digest → io W serviceAttachment;
  ls_endAttachment : AttachmentProof → io W attachmentEnd;
  ls_current : AttachmentProof → CurrentOperation → io W AgentView;
  ls_submit : AttachmentProof → CurrentOperation → OperationKey → AgentIntent → list serviceCandidate → io W AgentReceipt;
  ls_capture : string → io W capturedArtifact;
  ls_readArtifact : AttachmentProof → CurrentOperation → OpaqueHandle → io W (string * Digest);
  ls_available : io W ();
}.
Arguments ls_attach {_}.
Arguments ls_endAttachment {_}.
Arguments ls_current {_}.
Arguments ls_submit {_}.
Arguments ls_capture {_}.
Arguments ls_readArtifact {_}.
Arguments ls_available {_}.

(** ** Errors *)

Definition daemon_code_valid (code : string) : bool := bool_decide (code ∈ [
  codeInvalidArgument; codeArtifactInvalid; codeArtifactTooLarge; codeAuthenticationFailed; codeContextStale;
  codeActionNotAllowed; codeOperationMismatch; codeMnemondUnavailable; codeInternal]).

(** [newControlError]; the messages are literals with no space around them. *)
Definition controlFailure (code message : string) : error :=
  if negb (daemon_code_valid code) || is_empty message || (maxControlDiagnostic <? slen message)
  then ControlError codeInternal "internal control error" else ControlError code message.

Definition has_category (e : error) (c : ErrCategory) : bool :=
  match as_validation e with Some (c', _, _) => bool_decide (c' = c) | None => false end.

(** A context is never cancelled in the model. *)
Definition classifyServiceError (e : error) : error :=
  if errors_is e ErrAttachmentAuth || errors_is e ErrPrincipalUnavailable then
    controlFailure codeAuthenticationFailed "Agency attachment authentication failed"
  else if errors_is e ErrAttachmentExpired || errors_is e ErrAttachmentEnded || errors_is e ErrCurrentUnavailable then
    controlFailure codeContextStale "Agency context is stale"
  else if errors_is e ErrOperationConflict then
    controlFailure codeOperationMismatch "Agency operation conflicts with its prior request"
  else if errors_is e ErrArtifactUnavailable || errors_is e ErrCorruption || errors_is e ErrNotExist then
    controlFailure codeArtifactInvalid "Artifact is unavailable"
  else if has_category e ErrLimit || errors_is e ErrInput then
    controlFailure codeInvalidArgument "Agency input exceeds a closed bound"
  else if has_category e ErrInvalid then controlFailure codeInvalidArgument "Agency input is invalid"
  else if has_category e ErrInvariant then
    controlFailure codeActionNotAllowed "Intent is not allowed by the current View"
  else if errors_is e ErrClosed then
    controlFailure codeMnemondUnavailable "local Agency authority is unavailable"
  else controlFailure codeInternal "internal Agency error".

Definition daemon_httpStatus (code : string) : Z :=
  if String.eqb code codeAuthenticationFailed then StatusUnauthorized
  else if String.eqb code codeMnemondUnavailable then StatusServiceUnavailable
  else if bool_decide (code ∈ [codeContextStale; codeActionNotAllowed; codeOperationMismatch]) then StatusConflict
  else if String.eqb code codeInternal then StatusInternalServerError
  else StatusBadRequest.

(** ** Responses *)

Definition setControlHeaders : header := [
  ("Content-Type", "application/json"); ("Cache-Control", "no-store"); ("X-Content-Type-Options", "nosniff")].
Definition json_response (status : Z) (raw : string) : response :=
  {| rs_status := status; rs_header := setControlHeaders; rs_contentLength := -1; rs_body := Ok (raw +:+ newline) |}.

(** The text of a control error is below the bound of [writeControlJSON]. *)
Definition writeControlError (e : error) : response :=
  match e with
  | ControlError code message =>
      json_response (daemon_httpStatus code) (marshal (control_error_json {| cew_Code := code; cew_Message := message |}))
  | _ => json_response StatusInternalServerError (marshal (control_error_json
           {| cew_Code := codeInternal; cew_Message := "internal control error" |}))
  end.

Definition writeControlJSON {A} `{Codec A} (status : Z) (value : A) : response :=
  let raw := canonical_bytes value in
  if maxPrivateResponse <? slen raw
  then writeControlError (controlFailure codeInternal "control response cannot be encoded")
  else json_response status raw.

Definition writeProjection (raw : string) (maximum : Z) : response :=
  if negb (projection_shape raw) || (maximum <? slen raw)
  then writeControlError (controlFailure codeInternal "Agency service returned invalid canonical JSON")
  else json_response StatusOK raw.

Definition writeArtifactContent (content : string) (digest : Digest) : response :=
  if Digest_IsZero digest || negb (bool_decide (Sum content = digest)) || negb (is_ok (ValidateAgentArtifactText content))
  then writeControlError (controlFailure codeInternal "Agency service returned invalid Artifact content")
  else {| rs_status := StatusOK;
          rs_header := [("Content-Type", "application/octet-stream"); ("Cache-Control", "no-store");
            ("X-Content-Type-Options", "nosniff"); (headerArtifactDigest, Digest_String digest);
            ("Content-Length", pretty (slen content))];
          rs_contentLength := slen content; rs_body := Ok content |}.

(** ** Requests *)

Definition legacyHeaders : list string :=
  ["Authorization"; "Mnemon-Operation-Key"; "Mnemon-Claim-Context"; "Mnemon-Run-Attachment"].

Definition has_header (h : header) (name : string) : bool := negb (bool_decide (Values name h = [])).
Definition anyHeader (h : header) (names : list string) : bool := existsb (has_header h) names.

Definition prepareControlRequest (r : request) (readOnly requireAttachment requireCurrent requireOperation : bool) : result () :=
  let h := r.(rq_header) in
  _ ← fail_if (negb (String.eqb r.(rq_method) (if readOnly then "GET" else "POST")))
        (controlFailure codeInvalidArgument "method is not allowed");
  _ ← fail_if (negb (is_empty r.(rq_query)))
        (controlFailure codeInvalidArgument "local agency request must not contain a query");
  _ ← fail_if (anyHeader h legacyHeaders) (controlFailure codeInvalidArgument "R5 control metadata is not allowed");
  _ ← fail_if (negb (Bool.eqb (anyHeader h [headerAttachment; headerCredential]) requireAttachment) ||
               negb (Bool.eqb (has_header h headerCurrentOperation) requireCurrent) ||
               negb (Bool.eqb (has_header h headerOperation) requireOperation))
        (controlFailure codeInvalidArgument "Agency authority is not allowed on this route");
  if readOnly then
    fail_if (negb (r.(rq_contentLength) =? 0) || negb (bool_decide (r.(rq_transferEncoding) = [])) ||
             has_header h "Content-Type")
      (controlFailure codeInvalidArgument "status request must not contain content")
  else
    fail_if (negb (bool_decide (Values "Content-Type" h = ["application/json"])))
      (controlFailure codeInvalidArgument "Content-Type must be application/json").

Definition singleHeader (h : header) (name code message : string) : result string :=
  match Values name h with
  | [value] => _ ← fail_if (is_empty value || negb (trimmed value)) (controlFailure code message); Ok value
  | _ => Err (controlFailure code message)
  end.

Definition decodeSecret (value : string) : option string :=
  if negb (trimmed value) || existsb (λ c, contains_byte c value) ["="; " "; "009"; "013"; "010"]%char then None
  else
    decoded ← base64_decode value;
    if slen decoded =? attachmentCredentialBytes then Some decoded else None.

Definition parseAttachmentProof (h : header) : result AttachmentProof :=
  let required := "Agency attachment proof is required" in
  let broken := controlFailure codeAuthenticationFailed "Agency attachment proof is invalid" in
  attachmentValue ← singleHeader h headerAttachment codeAuthenticationFailed required;
  credentialValue ← singleHeader h headerCredential codeAuthenticationFailed required;
  credential ← of_option (decodeSecret credentialValue) broken;
  id ← or_error (NewAttachmentID attachmentValue) broken;
  or_error (NewAttachmentProof id credential) broken.

Definition parseControlAuthority (h : header) : result (AttachmentProof * CurrentOperation) :=
  let broken := controlFailure codeInvalidArgument "Agency current operation is invalid" in
  proof ← parseAttachmentProof h;
  currentValue ← singleHeader h headerCurrentOperation codeInvalidArgument "Agency current operation is required exactly once";
  key ← or_error (NewOperationKey currentValue) broken;
  current ← or_error (NewCurrentOperation key) broken;
  Ok (proof, current).

Fixpoint parse_candidates (seen : list string) (values : list controlCandidateWire) : result (list serviceCandidate) :=
  match values with
  | [] => Ok []
  | value :: values =>
      let broken := Errorf "candidate binding is invalid" in
      handle ← or_error (NewOpaqueHandle value.(ccw_Handle)) broken;
      digest ← or_error (ParseDigest value.(ccw_Digest)) broken;
      _ ← fail_if (IsZero handle || Digest_IsZero digest) broken;
      _ ← fail_if (bool_decide (handle ∈ seen)) (Errorf "candidate binding is duplicated");
      rest ← parse_candidates (handle :: seen) values;
      Ok ({| sc_handle := handle; sc_digest := digest |} :: rest)
  end.
Definition parseCandidateBindings : list controlCandidateWire → result (list serviceCandidate) := parse_candidates [].

Definition decodeArtifactContent (value : string) : result string :=
  _ ← fail_if (negb (trimmed value) || existsb (λ c, contains_byte c value) ["="; "009"; "013"; "010"; " "]%char)
        (controlFailure codeArtifactInvalid "Artifact content must be canonical raw base64");
  let large := controlFailure codeArtifactTooLarge "Artifact exceeds the closed byte bound" in
  _ ← fail_if ((MaxObjectBytes * 8 + 5) / 6 <? slen value) large;
  content ← of_option (rawstd_decode value) (controlFailure codeArtifactInvalid "Artifact content is invalid");
  _ ← fail_if (MaxObjectBytes <? slen content) large;
  Ok content.

Definition decodeClosedRequest {A} (decode : string → result A) (r : request) (maximum : Z) : result A :=
  let large := controlFailure codeInvalidArgument "request body exceeds the local control limit" in
  let schema := controlFailure codeInvalidArgument "request body does not match the closed route schema" in
  _ ← fail_if (maximum <? r.(rq_contentLength)) large;
  raw ← or_error r.(rq_body) large;
  _ ← fail_if (is_empty raw || (maximum <? slen raw) || negb (String.eqb (String.substring 0 1 raw) "{")) large;
  match decode raw with
  | Ok w => Ok w
  | Err e => Err (if errors_is e errTrailing
      then controlFailure codeInvalidArgument "request body contains a trailing value" else schema)
  end.

Section server.
Context {W : Type} (service : LocalService W).

(** What a service call fails with is classified. *)
Definition served {A} (m : io W A) : io W A := λ w,
  let '(r, w) := m w in (match r with Ok x => Ok x | Err e => Err (classifyServiceError e) end, w).

Definition handleAttach (r : request) : io W response :=
  _ ← lift (prepareControlRequest r false false false false);
  input ← lift (decodeClosedRequest (decodeClosedJSON (A := attachmentBeginWire)) r maxPrivateResponse);
  boundary ← lift (or_error (ParseDigest input.(abw_BoundaryDigest))
                     (controlFailure codeInvalidArgument "Host boundary operation is invalid"));
  result ← served (service.(ls_attach) boundary);
  _ ← guard (IsZero result.(sa_id) || negb (slen result.(sa_credential) =? attachmentCredentialBytes) ||
             (result.(sa_expiresAt) =? zero_time))
        (controlFailure codeInternal "Agency service returned invalid attachment");
  mret (writeControlJSON StatusOK {|
    atw_Attachment := result.(sa_id); atw_Credential := base64_encode result.(sa_credential);
    atw_ExpiresAt := formatTime result.(sa_expiresAt); atw_Schema := attachmentSchema; atw_Version := controlVersion |}).

Definition handleAttachmentEnd (r : request) : io W response :=
  _ ← lift (prepareControlRequest r false true false false);
  proof ← lift (parseAttachmentProof r.(rq_header));
  _ ← lift (decodeClosedRequest (decodeClosedJSON (A := emptyWire)) r maxPrivateResponse);
  result ← served (service.(ls_endAttachment) proof);
  mret (writeControlJSON StatusOK {|
    aew_ReleasedClaim := result.(aed_releasedClaim); aew_Replayed := result.(aed_replayed);
    aew_Schema := attachmentEndSchema; aew_Status := "ended"; aew_Version := controlVersion |}).

Definition handleCurrent (r : request) : io W response :=
  _ ← lift (prepareControlRequest r false true true false);
  '(proof, current) ← lift (parseControlAuthority r.(rq_header));
  _ ← lift (decodeClosedRequest (decodeClosedJSON (A := emptyWire)) r maxPrivateResponse);
  view ← served (service.(ls_current) proof current);
  mret (writeProjection view.(av_canonical) MaxAgentViewCanonicalBytes).

Definition handleSubmit (r : request) : io W response :=
  _ ← lift (prepareControlRequest r false true true true);
  '(proof, current) ← lift (parseControlAuthority r.(rq_header));
  operationValue ← lift (singleHeader r.(rq_header) headerOperation codeInvalidArgument
                           "Agency operation is required exactly once");
  operation ← lift (or_error (NewOperationKey operationValue)
                      (controlFailure codeInvalidArgument "Agency operation is invalid"));
  input ← lift (decodeClosedRequest decode_submit r (MaxIntentCanonicalBytes + maxPrivateResponse));
  let broken := controlFailure codeInvalidArgument "Intent or candidate binding is invalid" in
  intent ← lift (or_error (ParseAgentIntentJSON (default "" input.(sw_Intent))) broken);
  _ ← guard (MaxArtifactInputs <? Z.of_nat (length input.(sw_Candidates))) broken;
  bindings ← lift (or_error (parseCandidateBindings input.(sw_Candidates)) broken);
  receipt ← served (service.(ls_submit) proof current operation intent bindings);
  mret (writeProjection receipt.(agr_canonical) MaxAgentReceiptCanonicalBytes).

Definition handleArtifact (r : request) : io W response :=
  _ ← lift (prepareControlRequest r false false false false);
  input ← lift (decodeClosedRequest (decodeClosedJSON (A := artifactRequestWire)) r maxArtifactRequestBody);
  content ← lift (decodeArtifactContent input.(arw_Content));
  result ← served (service.(ls_capture) content);
  mret (writeControlJSON StatusOK {|
    aow_ByteSize := result.(ca_byteSize); aow_Digest := Digest_String result.(ca_digest);
    aow_Handle := result.(ca_handle); aow_Schema := artifactSchema; aow_Version := controlVersion |}).

Definition handleArtifactRead (r : request) : io W response :=
  _ ← lift (prepareControlRequest r false true true false);
  '(proof, current) ← lift (parseControlAuthority r.(rq_header));
  input ← lift (decodeClosedRequest (decodeClosedJSON (A := artifactReadRequestWire)) r maxPrivateResponse);
  handle ← lift (or_error (NewOpaqueHandle input.(arr_Handle))
                   (controlFailure codeInvalidArgument "Artifact handle is invalid"));
  '(content, digest) ← served (service.(ls_readArtifact) proof current handle);
  mret (writeArtifactContent content digest).

Definition handleStatus (r : request) : io W response :=
  _ ← lift (prepareControlRequest r true false false false);
  _ ← served service.(ls_available);
  mret (writeControlJSON StatusOK {| stw_Schema := statusSchema; stw_Status := "ready"; stw_Version := controlVersion |}).

Definition route (r : request) : io W response :=
  let path := r.(rq_path) in
  if String.eqb path routeAttachments then handleAttach r
  else if String.eqb path routeAttachmentEnd then handleAttachmentEnd r
  else if String.eqb path routeCurrent then handleCurrent r
  else if String.eqb path routeSubmit then handleSubmit r
  else if String.eqb path routeArtifacts then handleArtifact r
  else if String.eqb path routeArtifactRead then handleArtifactRead r
  else if String.eqb path routeStatus then handleStatus r
  else lift (Err (controlFailure codeInvalidArgument "local agency route does not exist")).

(** [controlServer.ServeHTTP]: a handler that stops writes its error. *)
Definition ServeHTTP (r : request) : io W response := λ w,
  let '(x, w) := route r w in (Ok (match x with Ok response => response | Err e => writeControlError e end), w).
End server.
