(* ===== verification/ControlClient.v ===== *)
(** The agent terminal's control client (internal/agency/client/control_client.go,
    control_transport.go, control_json.go): each call as one HTTP exchange, with what
    it checks before it sends and of what it receives.

    [Do] is [http.Client.Do] over the owner's socket: it may fail, and what it brings
    back is arbitrary. *)

From Stdlib Require Import Lia.
From S2P Require Import Prelude Io Utf8 Json Wire Sha256 Time Value Intent Bound Event View AgentView Base64.
From S2P Require Import StoreTime ArtifactText Compact Journal JournalDir Terminal ControlWire.

#[local] Open Scope Z_scope.

(** ** Errors *)

Definition invalidControlResponse (message : string) : error := newControlError codeInternal message.

(** [controlError] as it is decoded. *)
Record remoteError := {
  re_Code : string; re_Message : string; re_OperationID : option string; re_Replayed : bool; re_Retryable : bool;
  re_SchemaVersion : Z; re_Status : string }.
Definition remote_error_json (e : remoteError) : json := JObj [
  ("code", JStr e.(re_Code)); ("message", JStr e.(re_Message));
  ("operation_id", match e.(re_OperationID) with Some s => JStr s | None => JNull end);
  ("replayed", JBool e.(re_Replayed)); ("retryable", JBool e.(re_Retryable));
  ("schema_version", enc_Z e.(re_SchemaVersion)); ("status", JStr e.(re_Status))].
Definition decode_remote (v : json) : result remoteError :=
  ms ← members_of ["code"; "message"; "operation_id"; "replayed"; "retryable"; "schema_version"; "status"] v;
  code ← get "code" ms; message ← get "message" ms; operation ← get_ptr "operation_id" ms; replayed ← get "replayed" ms;
  retryable ← get "retryable" ms; version ← @get Z int_codec "schema_version" ms; status ← get "status" ms;
  Ok {| re_Code := code; re_Message := message; re_OperationID := operation; re_Replayed := replayed;
        re_Retryable := retryable; re_SchemaVersion := version; re_Status := status |}.

Definition validateControlError (e : remoteError) : bool :=
  (e.(re_SchemaVersion) =? controlSchemaVersion) && String.eqb e.(re_Status) "error" && code_valid e.(re_Code) &&
  Bool.eqb e.(re_Retryable) (code_retryable e.(re_Code)) && trimmed e.(re_Message) && negb (is_empty e.(re_Message)) &&
  (slen e.(re_Message) <=? maxControlDiagnostic) && negb e.(re_Replayed) && bool_decide (e.(re_OperationID) = None).

Definition httpStatusForError (code : string) : Z :=
  if String.eqb code codeAuthenticationFailed then StatusUnauthorized
  else if bool_decide (code ∈ [codeOperationPending; codeMnemondUnavailable]) then StatusServiceUnavailable
  else if bool_decide (code ∈ [codeContextStale; codeActionNotAllowed; codeOperationMismatch]) then StatusConflict
  else if String.eqb code codeInternal then StatusInternalServerError
  else StatusBadRequest.

(** The error a response carries. *)
Definition decodeRemoteError (object : string) (status : Z) : error :=
  match closed decode_remote (λ e, marshal (remote_error_json e)) object with
  | Ok e => if validateControlError e && (httpStatusForError e.(re_Code) =? status)
            then ControlError e.(re_Code) e.(re_Message)
            else invalidControlResponse "Mnemon Agency returned an invalid Agency error envelope"
  | Err _ => invalidControlResponse "Mnemon Agency returned an invalid Agency error envelope"
  end.

(** ** Values *)

Definition attachmentSecretBytes : Z := 32.

Definition validateAttachment (value : attachment) : bool :=
  is_ok (NewAttachmentID value.(at_ID)) && (slen value.(at_Credential) =? attachmentSecretBytes) &&
  negb (value.(at_ExpiresAt) =? zero_time).

Definition validateCapture (value : artifactCapture) : bool :=
  is_ok (NewOpaqueHandle value.(ac_Handle)) && is_ok (ParseDigest value.(ac_Digest)) && (0 <=? value.(ac_ByteSize)) &&
  (value.(ac_ByteSize) <=? maxArtifactInputBytes).

(** [decodeSecret] of the client. *)
Definition clientSecret (value : string) : option string :=
  if negb (trimmed value) || existsb (λ c, contains_byte c value) ["="; " "; "009"; "013"; "010"]%char then None
  else
    decoded ← base64_decode value;
    if slen decoded =? attachmentSecretBytes then Some decoded else None.

Definition attachmentHeaders (value : attachment) : result header :=
  _ ← fail_if (negb (validateAttachment value))
        (newControlError codeAuthenticationFailed "Agency attachment authority is unavailable");
  Ok [(headerAttachment, value.(at_ID)); (headerCredential, base64_encode value.(at_Credential))].

Definition authorityHeaders (value : attachment) (current operation : string) : result header :=
  headers ← attachmentHeaders value;
  _ ← or_error (NewOperationKey current) (newControlError codeInvalidArgument "Agency current operation is invalid");
  _ ← (if is_empty operation then Ok operation
       else or_error (NewOperationKey operation) (newControlError codeInvalidArgument "Agency operation is invalid"));
  Ok (headers ++ [(headerCurrentOperation, current)] ++
      (if is_empty operation then [] else [(headerOperation, operation)])).

(** ** Responses *)

Definition canonicalResponseObject (raw : string) : result string :=
  let broken := invalidControlResponse "local control response is not canonical" in
  let n := String.length raw in
  _ ← fail_if ((slen raw <? 2) || negb (String.eqb (String.substring (n - 1) 1 raw) newline) ||
               String.eqb (String.substring (n - 2) 1 raw) newline) broken;
  let object := String.substring 0 (n - 1) raw in
  _ ← fail_if (negb (projection_shape object)) broken;
  Ok object.

Definition success (status : Z) : bool := (200 <=? status) && (status <? 300).

Definition readProjectionResponse (r : response) (maximum : Z) : result string :=
  let bound := invalidControlResponse "Agency projection response exceeds its closed bound" in
  raw ← or_error r.(rs_body) bound;
  let n := String.length raw in
  _ ← fail_if ((maximum <=? 0) || (slen raw <? 3) || (maximum + 1 <? slen raw) ||
               negb (String.eqb (String.substring (n - 1) 1 raw) newline) ||
               negb (String.eqb (Get "Content-Type" r.(rs_header)) "application/json")) bound;
  let object := String.substring 0 (n - 1) raw in
  _ ← fail_if (negb (success r.(rs_status))) (decodeRemoteError object r.(rs_status));
  _ ← fail_if (negb (r.(rs_status) =? StatusOK) || negb (projection_shape object))
        (invalidControlResponse "Mnemon Agency returned an invalid Agency projection");
  Ok object.

Definition firstExact (values : list string) : string :=
  match values with [value] => value | _ => "" end.

Definition readArtifactResponse (r : response) : result string :=
  let bound := invalidControlResponse "Artifact response exceeds its closed bound" in
  raw ← or_error r.(rs_body) bound;
  _ ← fail_if (MaxAgentArtifactReadBytes <? slen raw) bound;
  if negb (success r.(rs_status)) then
    _ ← fail_if (negb (String.eqb (Get "Content-Type" r.(rs_header)) "application/json") || (maxPrivateResponse <? slen raw))
          (invalidControlResponse "Mnemon Agency returned an invalid Artifact error");
    object ← canonicalResponseObject raw;
    Err (decodeRemoteError object r.(rs_status))
  else
    let broken := invalidControlResponse "Mnemon Agency returned invalid Artifact content" in
    digest ← or_error (ParseDigest (firstExact (Values headerArtifactDigest r.(rs_header)))) broken;
    _ ← fail_if (negb (r.(rs_status) =? StatusOK) ||
                 negb (String.eqb (Get "Content-Type" r.(rs_header)) "application/octet-stream") ||
                 negb (r.(rs_contentLength) =? slen raw) || Digest_IsZero digest ||
                 negb (bool_decide (Sum raw = digest)) || negb (is_ok (ValidateAgentArtifactText raw))) broken;
    Ok raw.

Definition postRoute (route : string) : bool := bool_decide (route ∈ [
  routeAttachments; routeAttachmentEnd; routeCurrent; routeSubmit; routeArtifacts; routeArtifactRead]).

Definition newPostRequest (route body : string) (headers : header) : result request :=
  _ ← fail_if (is_empty body || negb (String.eqb (String.substring 0 1 body) "{") || (maxArtifactRequestBody <? slen body))
        (newControlError codeInvalidArgument "Agency request cannot be encoded canonically");
  Ok {| rq_method := "POST"; rq_path := route; rq_query := "";
        rq_header := ("Content-Type", "application/json") :: headers; rq_contentLength := slen body;
        rq_transferEncoding := []; rq_body := Ok body |}.

Section client.
Context {W : Type} (Do : request → io W response).

Definition exchange (r : request) : io W response :=
  answered ← attempt (Do r);
  lift (or_error answered (newControlError codeMnemondUnavailable "Mnemon Agency local control is unavailable")).

Definition send {A} `{Codec A} (r : request) (maximum : Z) : io W A :=
  answer ← exchange r;
  let bound := invalidControlResponse "local control response exceeds its closed bound" in
  raw ← lift (or_error answer.(rs_body) bound);
  _ ← guard (is_empty raw || (maximum <? slen raw)) bound;
  _ ← guard (negb (String.eqb (Get "Content-Type" answer.(rs_header)) "application/json"))
        (invalidControlResponse "local control response has the wrong content type");
  object ← lift (canonicalResponseObject raw);
  _ ← guard (negb (success answer.(rs_status))) (decodeRemoteError object answer.(rs_status));
  let broken := invalidControlResponse "Mnemon Agency returned an invalid success envelope" in
  _ ← guard (negb (answer.(rs_status) =? StatusOK)) broken;
  lift (or_error (decodeClosedJSON object) broken).

Definition post {A} `{Codec A} (route body : string) (headers : header) (maximum : Z) : io W A :=
  _ ← guard (negb (postRoute route) || (maximum <=? 0)) (invalidControlResponse "local Agency client is unavailable");
  r ← lift (newPostRequest route body headers);
  send r maximum.

Definition postProjection (route body : string) (headers : header) (maximum : Z) : io W string :=
  _ ← guard ((negb (String.eqb route routeCurrent) && negb (String.eqb route routeSubmit)) || (maximum <=? 0))
        (invalidControlResponse "local Agency client is unavailable");
  r ← lift (newPostRequest route body headers);
  answer ← exchange r;
  lift (readProjectionResponse answer maximum).

Definition postArtifact (route body : string) (headers : header) : io W string :=
  _ ← guard (negb (String.eqb route routeArtifactRead)) (invalidControlResponse "local Agency client is unavailable");
  r ← lift (newPostRequest route body headers);
  answer ← exchange r;
  lift (readArtifactResponse answer).

(** ** Calls *)

Definition control_Attach (boundary : Digest) : io W attachment :=
  _ ← guard (Digest_IsZero boundary) (newControlError codeInvalidArgument "Host boundary operation is invalid");
  wire ← post (A := attachmentWire) routeAttachments
           (canonical_bytes {| abw_BoundaryDigest := Digest_String boundary |}) [] maxPrivateResponse;
  _ ← guard (negb (String.eqb wire.(atw_Schema) attachmentSchema) || negb (wire.(atw_Version) =? controlVersion))
        (invalidControlResponse "Agency attachment response schema is unsupported");
  let broken := invalidControlResponse "Agency attachment response is invalid" in
  credential ← lift (of_option (clientSecret wire.(atw_Credential)) broken);
  let expiry := invalidControlResponse "Agency attachment expiry is invalid" in
  expiresAt ← lift (or_error (parseTime wire.(atw_ExpiresAt)) expiry);
  _ ← guard (expiresAt =? zero_time) expiry;
  let value := {| at_ID := wire.(atw_Attachment); at_Credential := credential; at_ExpiresAt := expiresAt |} in
  _ ← guard (negb (validateAttachment value)) broken;
  mret value.

Definition control_End (value : attachment) : io W () :=
  headers ← lift (attachmentHeaders value);
  wire ← post (A := attachmentEndWire) routeAttachmentEnd (canonical_bytes Build_emptyWire) headers maxPrivateResponse;
  guard (negb (String.eqb wire.(aew_Schema) attachmentEndSchema) || negb (wire.(aew_Version) =? controlVersion) ||
         negb (String.eqb wire.(aew_Status) "ended"))
    (invalidControlResponse "Agency attachment end response is invalid").

Definition control_Current (authority : attachment) (operation : string) : io W string :=
  headers ← lift (authorityHeaders authority operation "");
  view ← postProjection routeCurrent (canonical_bytes Build_emptyWire) headers MaxAgentViewCanonicalBytes;
  _ ← guard (negb (is_ok (ValidateAgentViewProjectionCanonicalJSON view)))
        (invalidControlResponse "Agency View projection is invalid");
  mret view.

Fixpoint candidate_wires (seen : list string) (candidates : list candidateBinding) : result (list controlCandidateWire) :=
  match candidates with
  | [] => Ok []
  | c :: candidates =>
      let broken := newControlError codeArtifactInvalid "candidate binding is invalid" in
      _ ← or_error (NewOpaqueHandle c.(cnb_Handle)) broken;
      _ ← or_error (ParseDigest c.(cnb_Digest)) broken;
      _ ← fail_if (bool_decide (c.(cnb_Handle) ∈ seen))
            (newControlError codeInvalidArgument "Intent or candidate binding is invalid");
      rest ← candidate_wires (c.(cnb_Handle) :: seen) candidates;
      Ok ({| ccw_Digest := c.(cnb_Digest); ccw_Handle := c.(cnb_Handle) |} :: rest)
  end.

Definition control_Submit (authority : attachment) (currentOperation operation intent : string)
    (candidates : list candidateBinding) : io W string :=
  let broken := newControlError codeInvalidArgument "Intent or candidate binding is invalid" in
  _ ← lift (or_error (NewOperationKey operation) broken);
  _ ← lift (or_error (ParseAgentIntentJSON intent) broken);
  _ ← guard (MaxArtifactInputs <? Z.of_nat (length candidates)) broken;
  headers ← lift (authorityHeaders authority currentOperation operation);
  wires ← lift (candidate_wires [] candidates);
  receipt ← postProjection routeSubmit (marshal_submit {| sw_Candidates := wires; sw_Intent := Some intent |}) headers
              MaxAgentReceiptCanonicalBytes;
  _ ← guard (negb (is_ok (ParseAgentReceiptProjectionCanonicalJSON receipt)))
        (invalidControlResponse "Agency Receipt projection is invalid");
  mret receipt.

Definition control_Capture (content : string) : io W artifactCapture :=
  _ ← guard (maxArtifactInputBytes <? slen content)
        (newControlError codeArtifactTooLarge "Artifact exceeds the closed byte bound");
  wire ← post (A := artifactResponseWire) routeArtifacts (canonical_bytes {| arw_Content := rawstd_encode content |}) []
           maxPrivateResponse;
  _ ← guard (negb (String.eqb wire.(aow_Schema) artifactSchema) || negb (wire.(aow_Version) =? controlVersion) ||
             negb (wire.(aow_ByteSize) =? slen content))
        (invalidControlResponse "Agency Artifact response is invalid");
  let capture := {| ac_Handle := wire.(aow_Handle); ac_Digest := wire.(aow_Digest); ac_ByteSize := wire.(aow_ByteSize) |} in
  _ ← guard (negb (validateCapture capture) || negb (String.eqb wire.(aow_Digest) (Digest_String (Sum content))))
        (invalidControlResponse "Agency Artifact response differs from content");
  mret capture.

Definition control_ReadArtifact (authority : attachment) (current handleValue : string) : io W string :=
  handle ← lift (or_error (NewOpaqueHandle handleValue) (newControlError codeInvalidArgument "Artifact handle is invalid"));
  headers ← lift (authorityHeaders authority current "");
  postArtifact routeArtifactRead (canonical_bytes {| arr_Handle := handle |}) headers.

(** [controlClient] as the terminal's [agencyClient]. *)
Definition controlClient : AgencyClient W := {|
  cl_Attach := control_Attach; cl_End := control_End; cl_Current := control_Current; cl_Submit := control_Submit;
  cl_Capture := control_Capture; cl_ReadArtifact := control_ReadArtifact |}.
End client.
