(* ===== verification/ControlProof.v ===== *)
(** The control protocol carries each call unchanged: what the terminal's client
    returns, when its requests are served by the daemon, is what the service it
    names returns to a caller beside it. *)

From Stdlib Require Import Lia.
From S2P Require Import Prelude Io Utf8 Json Wire Sha256 Time Value Intent Bound Event View AgentView Base64.
From S2P Require Import Frame Cas StoreTime Store Attach Current ArtifactText Compact Journal JournalDir Terminal JournalCalm.
From S2P Require Import ControlWire ControlText Control ControlClient.

#[local] Open Scope Z_scope.

(** ** What the service promises the protocol *)

Class SoundService {W} (S : LocalService W) : Prop := {
  attach_sound b w a w' : S.(ls_attach) b w = (Ok a, w') →
    handle_ok a.(sa_id) = true ∧ slen a.(sa_credential) = attachmentCredentialBytes ∧
    four_digit_year a.(sa_expiresAt);
  current_sound p o w v w' : S.(ls_current) p o w = (Ok v, w') →
    projection_shape v.(av_canonical) = true ∧ slen v.(av_canonical) <= MaxAgentViewCanonicalBytes;
  submit_sound p c o i bs w r w' : S.(ls_submit) p c o i bs w = (Ok r, w') →
    projection_shape r.(agr_canonical) = true ∧ slen r.(agr_canonical) <= MaxAgentReceiptCanonicalBytes;
  capture_sound content w c w' : S.(ls_capture) content w = (Ok c, w') →
    handle_ok c.(ca_handle) = true ∧ c.(ca_digest) = Sum content ∧ c.(ca_byteSize) = slen content ∧
    c.(ca_digest) ≠ zero_digest;
  read_sound p o h w content d w' : S.(ls_readArtifact) p o h w = (Ok (content, d), w') →
    d = Sum content ∧ d ≠ zero_digest ∧ ValidateAgentArtifactText content = Ok ();
}.

(** ** The same calls without a protocol *)

Section direct.
Context {W : Type} (S : LocalService W).

Definition proof_of (value : attachment) : AttachmentProof :=
  {| ap_id := value.(at_ID); ap_credential := value.(at_Credential); ap_expiresAt := zero_time |}.
Definition current_of (key : string) : CurrentOperation :=
  {| co_key := key; co_requestDigest := Sum currentRequestWire |}.
Definition candidate_of (w : controlCandidateWire) (d : Digest) : serviceCandidate :=
  {| sc_handle := w.(ccw_Handle); sc_digest := d |}.

Definition invalidAttachment : error := ControlError codeInternal "Agency service returned invalid attachment".

Definition direct_Attach (boundary : Digest) : io W attachment :=
  _ ← guard (Digest_IsZero boundary) (newControlError codeInvalidArgument "Host boundary operation is invalid");
  a ← served (S.(ls_attach) boundary);
  _ ← guard (a.(sa_expiresAt) =? zero_time) invalidAttachment;
  mret {| at_ID := a.(sa_id); at_Credential := a.(sa_credential); at_ExpiresAt := a.(sa_expiresAt) |}.

Definition direct_End (value : attachment) : io W () :=
  _ ← lift (attachmentHeaders value);
  _ ← served (S.(ls_endAttachment) (proof_of value));
  mret ().

Definition direct_Current (authority : attachment) (operation : string) : io W string :=
  _ ← lift (authorityHeaders authority operation "");
  view ← served (S.(ls_current) (proof_of authority) (current_of operation));
  _ ← guard (negb (is_ok (ValidateAgentViewProjectionCanonicalJSON view.(av_canonical))))
        (invalidControlResponse "Agency View projection is invalid");
  mret view.(av_canonical).

Definition direct_Capture (content : string) : io W artifactCapture :=
  _ ← guard (maxArtifactInputBytes <? slen content)
        (newControlError codeArtifactTooLarge "Artifact exceeds the closed byte bound");
  c ← served (S.(ls_capture) content);
  mret {| ac_Handle := c.(ca_handle); ac_Digest := Digest_String c.(ca_digest); ac_ByteSize := c.(ca_byteSize) |}.

Definition direct_ReadArtifact (authority : attachment) (current handle : string) : io W string :=
  _ ← lift (or_error (NewOpaqueHandle handle) (newControlError codeInvalidArgument "Artifact handle is invalid"));
  _ ← lift (authorityHeaders authority current "");
  '(content, _) ← served (S.(ls_readArtifact) (proof_of authority) (current_of current) handle);
  mret content.

Definition direct_Submit (authority : attachment) (currentOperation operation intent : string)
    (candidates : list candidateBinding) : io W string :=
  let broken := newControlError codeInvalidArgument "Intent or candidate binding is invalid" in
  _ ← lift (or_error (NewOperationKey operation) broken);
  parsed ← lift (or_error (ParseAgentIntentJSON intent) broken);
  _ ← guard (MaxArtifactInputs <? Z.of_nat (length candidates)) broken;
  _ ← lift (authorityHeaders authority currentOperation operation);
  wires ← lift (candidate_wires [] candidates);
  bindings ← lift (mapR (λ w, d ← ParseDigest w.(ccw_Digest); Ok (candidate_of w d)) wires);
  receipt ← served (S.(ls_submit) (proof_of authority) (current_of currentOperation) operation parsed bindings);
  _ ← guard (negb (is_ok (ParseAgentReceiptProjectionCanonicalJSON receipt.(agr_canonical))))
        (invalidControlResponse "Agency Receipt projection is invalid");
  mret receipt.(agr_canonical).
End direct.

(** ** Errors *)

Definition service_errors : list error := [
  ControlError codeAuthenticationFailed "Agency attachment authentication failed";
  ControlError codeContextStale "Agency context is stale";
  ControlError codeOperationMismatch "Agency operation conflicts with its prior request";
  ControlError codeArtifactInvalid "Artifact is unavailable";
  ControlError codeInvalidArgument "Agency input exceeds a closed bound";
  ControlError codeInvalidArgument "Agency input is invalid";
  ControlError codeActionNotAllowed "Intent is not allowed by the current View";
  ControlError codeMnemondUnavailable "local Agency authority is unavailable";
  ControlError codeInternal "internal Agency error"; invalidAttachment].

Lemma classify_service_errors e : classifyServiceError e ∈ service_errors.
Proof.
  unfold classifyServiceError.
  repeat match goal with |- context [if ?c then _ else _] => destruct c end; apply (bool_decide_unpack _); vm_compute; exact I.
Qed.

(** What [send] makes of an answer. *)
Definition read_answer {A} `{Codec A} (maximum : Z) (answer : response) : result A :=
  let bound := invalidControlResponse "local control response exceeds its closed bound" in
  raw ← or_error answer.(rs_body) bound;
  _ ← fail_if (is_empty raw || (maximum <? slen raw)) bound;
  _ ← fail_if (negb (String.eqb (Get "Content-Type" answer.(rs_header)) "application/json"))
        (invalidControlResponse "local control response has the wrong content type");
  object ← canonicalResponseObject raw;
  _ ← fail_if (negb (success answer.(rs_status))) (decodeRemoteError object answer.(rs_status));
  let broken := invalidControlResponse "Mnemon Agency returned an invalid success envelope" in
  _ ← fail_if (negb (answer.(rs_status) =? StatusOK)) broken;
  or_error (decodeClosedJSON object) broken.

Lemma lift_bind {W A B} (r : result A) (k : A → result B) (w : W) : (lift r ≫= λ x, lift (k x)) w = lift (r ≫= k) w.
Proof. by destruct r. Qed.

Lemma send_answer {W A} `{Codec A} (Do : request → io W response) r maximum w answer w' :
  Do r w = (Ok answer, w') → send (A := A) Do r maximum w = (read_answer maximum answer, w').
Proof.
  intros Hdo. unfold send, exchange, attempt, read_answer, guard, mbind, io_bind, result_bind. rewrite Hdo.
  unfold lift. cbn [or_error].
  repeat (match goal with |- context [match ?x with Ok _ => _ | Err _ => _ end] => destruct x end; try done).
Qed.

(** An error that crosses arrives as it left. *)
Lemma error_read_answer {A} `{Codec A} e : e ∈ service_errors → read_answer (A := A) maxPrivateResponse (writeControlError e) = Err e.
Proof. intros He. repeat (apply elem_of_cons in He as [->|He]; [by vm_compute|]). by apply elem_of_nil in He. Qed.
Lemma error_read_projection e maximum :
  maxPrivateResponse <= maximum → e ∈ service_errors → readProjectionResponse (writeControlError e) maximum = Err e.
Proof.
  intros Hm He.
  assert (readProjectionResponse (writeControlError e) maxPrivateResponse = Err e) as <-
    by (repeat (apply elem_of_cons in He as [->|He]; [by vm_compute|]); by apply elem_of_nil in He).
  assert (slen (default "" (match rs_body (writeControlError e) with Ok b => Some b | Err _ => None end)) <= maxPrivateResponse) as Hs
    by (repeat (apply elem_of_cons in He as [->|He]; [by vm_compute|]); by apply elem_of_nil in He).
  unfold readProjectionResponse. destruct (rs_body _) as [b|]; [|done].
  change (slen b <= 4096) in Hs. change maxPrivateResponse with 4096 in *. cbn [or_error mbind result_bind].
  replace (maximum <=? 0) with (4096 <=? 0) by lia. by replace (maximum + 1 <? slen b) with (4096 + 1 <? slen b) by lia.
Qed.
Lemma error_read_artifact e : e ∈ service_errors → readArtifactResponse (writeControlError e) = Err e.
Proof. intros He. repeat (apply elem_of_cons in He as [->|He]; [by vm_compute|]). by apply elem_of_nil in He. Qed.

(** ** Bodies *)

Lemma closed_canonical {A} `{CodecLaws A} (w : A) : enc_ok w → decodeClosedJSON (canonical_bytes w) = Ok w.
Proof.
  intros Hw. unfold decodeClosedJSON, closed. rewrite canonical_bytes_parse by done. cbn [mbind result_bind].
  rewrite dec_enc by done. cbn [mbind result_bind skip_ws is_empty]. by rewrite String.eqb_refl.
Qed.

(** The text of an object. *)
Definition object_text (body : string) : Prop := ∃ ms, body = marshal (JObj ms).
Lemma canonical_object {A} `{Codec A} (w : A) fs : enc w = struct fs → object_text (canonical_bytes w).
Proof. intros Hf. unfold canonical_bytes. rewrite Hf. by eexists. Qed.

Lemma object_first ms : String.substring 0 1 (marshal (JObj ms)) = "{".
Proof. cbn [marshal]. by destruct (join_comma _ +:+ _). Qed.

Lemma object_facts ms : let b := marshal (JObj ms) in
  is_empty b = false ∧ String.eqb (String.substring 0 1 b) "{" = true ∧ projection_shape b = true.
Proof.
  cbv zeta. rewrite object_first. split_and!; [done|done|].
  replace (JObj ms) with (struct (map (λ m, (m.1, Some m.2)) ms)); [apply projection_shape_struct|].
  unfold struct. f_equal. induction ms as [|[k v] ms IH]; [done|]. cbn. by rewrite IH.
Qed.

(** The request the client makes of a body, and that the server reads it back. *)
Definition post_request (route body : string) (headers : header) : request := {|
  rq_method := "POST"; rq_path := route; rq_query := ""; rq_header := ("Content-Type", "application/json") :: headers;
  rq_contentLength := slen body; rq_transferEncoding := []; rq_body := Ok body |}.

Lemma newPostRequest_object route headers body :
  object_text body → slen body <= maxArtifactRequestBody → newPostRequest route body headers = Ok (post_request route body headers).
Proof.
  intros [ms ->] Hl. unfold newPostRequest. destruct (object_facts ms) as (-> & -> & _).
  by rewrite (proj2 (Z.ltb_ge _ _) Hl).
Qed.

Lemma decodeClosedRequest_object {A} (decode : string → result A) route headers body maximum (w : A) :
  object_text body → slen body <= maximum → decode body = Ok w → decodeClosedRequest decode (post_request route body headers) maximum = Ok w.
Proof.
  intros [ms ->] Hl Hd. unfold decodeClosedRequest. cbn [post_request rq_contentLength rq_body].
  destruct (object_facts ms) as (He & Hf & _). rewrite (proj2 (Z.ltb_ge _ _) Hl).
  cbn [fail_if mbind result_bind or_error]. by rewrite He, Hf, (proj2 (Z.ltb_ge _ _) Hl), Hd.
Qed.

(** The response the server makes of a value, and that the client reads it back. *)
Lemma shape_last raw : projection_shape raw = true →
  String.substring (String.length (raw +:+ newline) - 2) 1 (raw +:+ newline) = "}".
Proof.
  unfold projection_shape. intros [[Hl%Z.leb_le _]%andb_true_iff He%String.eqb_eq]%andb_true_iff.
  unfold slen in Hl. pose proof (substring_split (String.length raw - 1) raw ltac:(lia)) as E.
  replace (String.length raw - (String.length raw - 1))%nat with 1%nat in E by lia. rewrite He in E.
  revert E. generalize (String.substring 0 (String.length raw - 1) raw). intros a ->. clear.
  rewrite !string_length_app. replace (_ - 2)%nat with (String.length a) by (cbn; lia). rewrite string_app_assoc.
  induction a as [|c a IH]; [done|exact IH].
Qed.

Lemma canonicalResponse_object raw : projection_shape raw = true → canonicalResponseObject (raw +:+ newline) = Ok raw.
Proof.
  intros Hs. unfold canonicalResponseObject. pose proof (shape_last raw Hs) as Hp. destruct (framed raw) as (Hn & Hb & Hl).
  rewrite Hn, Hp, Hb, Hl. unfold projection_shape in Hs. pose proof Hs as Hs2. fold (projection_shape raw) in Hs.
  apply andb_true_iff in Hs2 as [[Hz%Z.leb_le _]%andb_true_iff _].
  rewrite (proj2 (Z.ltb_ge _ 2)) by lia. rewrite Hs. done.
Qed.

Lemma read_answer_value {A} `{CodecLaws A} (w : A) fs :
  enc w = struct fs → enc_ok w → slen (canonical_bytes w) < maxPrivateResponse →
  read_answer maxPrivateResponse (writeControlJSON StatusOK w) = Ok w.
Proof.
  intros Hf Hw Hl. unfold writeControlJSON. rewrite (proj2 (Z.ltb_ge _ _)) by lia.
  unfold read_answer, json_response. cbn [rs_body or_error mbind result_bind rs_header rs_status].
  destruct (framed (canonical_bytes w)) as (_ & _ & El). rewrite El, (proj2 (Z.ltb_ge _ _)) by lia.
  replace (is_empty (canonical_bytes w +:+ newline)) with false.
  2:{ symmetry. apply is_empty_false. by destruct (canonical_bytes w). }
  change (String.eqb (Get "Content-Type" setControlHeaders) "application/json") with true. cbn [orb negb fail_if mbind result_bind].
  rewrite canonicalResponse_object.
  2:{ unfold canonical_bytes. rewrite Hf. apply projection_shape_struct. }
  cbn [mbind result_bind]. change (success StatusOK) with true. change (StatusOK =? StatusOK) with true.
  cbn [negb fail_if mbind result_bind]. by rewrite closed_canonical.
Qed.

(** ** Headers *)

Lemma singleHeader_visible h name value code message :
  Values name h = [value] → value ≠ "" → forallb visible (string_to_bytes value) = true →
  singleHeader h name code message = Ok value.
Proof.
  intros Hv Hn Hs. unfold singleHeader. rewrite Hv, (proj2 (is_empty_false _) Hn), visible_trimmed by done. done.
Qed.

Lemma secret_decodes s : slen s = attachmentCredentialBytes → decodeSecret (base64_encode s) = Some s.
Proof.
  intros Hl. unfold decodeSecret. pose proof (base64_visible s) as Hv. rewrite visible_trimmed by done.
  cbn [negb orb existsb]. rewrite (visible_lacks " " _ eq_refl Hv), (visible_lacks "009" _ eq_refl Hv),
    (visible_lacks "013" _ eq_refl Hv), (visible_lacks "010" _ eq_refl Hv).
  pose proof (base64_encode_bytes s) as Hb.
  assert (contains_byte "=" (base64_encode s) = false) as ->.
  { apply bool_decide_eq_false. intros Hin. rewrite forallb_forall in Hb. by apply list_elem_of_In, Hb in Hin. }
  cbn [orb]. rewrite base64_decode_encode. cbn [mbind option_bind]. by rewrite Hl, Z.eqb_refl.
Qed.

(** The attachment a client may present. *)
Lemma attachmentHeaders_Ok value hs :
  attachmentHeaders value = Ok hs → hs = [(headerAttachment, value.(at_ID)); (headerCredential, base64_encode value.(at_Credential))] ∧
    handle_ok value.(at_ID) = true ∧ slen value.(at_Credential) = attachmentCredentialBytes.
Proof.
  unfold attachmentHeaders, validateAttachment. intros H. apply bind_Ok in H as ([] & Hv%fail_if_Ok & H).
  apply (inj Ok) in H as <-. rewrite negb_false_iff, !andb_true_iff in Hv. destruct Hv as [[Hi Hc%Z.eqb_eq] _].
  split_and!; [done| |exact Hc]. unfold NewAttachmentID in Hi. destruct (newIdentifier _ _) as [i|] eqn:E; [|done].
  by apply newIdentifier_Ok in E as [_ ?].
Qed.

Lemma parseAttachmentProof_headers value hs content rest :
  attachmentHeaders value = Ok hs → Values headerAttachment rest = [] → Values headerCredential rest = [] →
  parseAttachmentProof (("Content-Type", content) :: hs ++ rest) = Ok (proof_of value).
Proof.
  intros (-> & Hi & Hc)%attachmentHeaders_Ok Ha Hr. unfold parseAttachmentProof.
  rewrite (singleHeader_visible _ headerAttachment value.(at_ID)).
  2: etrans; [|exact (f_equal (cons value.(at_ID)) Ha)]; reflexivity.
  2: by eapply token_ok_nonempty. 2: by eapply token_visible.
  cbn [mbind result_bind]. rewrite (singleHeader_visible _ headerCredential (base64_encode value.(at_Credential))).
  2: etrans; [|exact (f_equal (cons (base64_encode value.(at_Credential))) Hr)]; reflexivity.
  2:{ intros E. apply (f_equal base64_decode) in E. rewrite base64_decode_encode in E. apply (inj Some) in E. by rewrite E in Hc. }
  2: apply base64_visible.
  cbn [mbind result_bind]. rewrite secret_decodes by done. cbn [of_option mbind result_bind].
  rewrite (proj2 (newIdentifier_Ok "AttachmentID" _ _) (conj eq_refl Hi) : NewAttachmentID _ = _). cbn [or_error mbind result_bind].
  unfold NewAttachmentProof. assert (IsZero value.(at_ID) = false) as -> by (apply is_empty_false; by eapply token_ok_nonempty).
  by rewrite Hc, Z.eqb_refl.
Qed.

Lemma authorityHeaders_Ok value current operation hs :
  authorityHeaders value current operation = Ok hs →
  ∃ ah, attachmentHeaders value = Ok ah ∧ handle_ok current = true ∧ (operation = "" ∨ handle_ok operation = true) ∧
    hs = ah ++ (headerCurrentOperation, current) :: (if is_empty operation then [] else [(headerOperation, operation)]).
Proof.
  unfold authorityHeaders. intros H. apply bind_Ok in H as (ah & Ha & H). apply bind_Ok in H as (c & Hc%or_error_Ok & H).
  unfold NewOperationKey in Hc. apply newIdentifier_Ok in Hc as [-> Hc]. apply bind_Ok in H as (o & Ho & H).
  apply (inj Ok) in H as <-. exists ah. split_and!; [done|done| |done].
  destruct (is_empty operation) eqn:E; [left; by apply is_empty_true|right].
  apply or_error_Ok in Ho. by apply newIdentifier_Ok in Ho as [_ ?].
Qed.

Lemma parseControlAuthority_headers value current operation hs content :
  authorityHeaders value current operation = Ok hs →
  parseControlAuthority (("Content-Type", content) :: hs) = Ok (proof_of value, current_of current).
Proof.
  intros (ah & Ha & Hc & _ & ->)%authorityHeaders_Ok. unfold parseControlAuthority.
  erewrite parseAttachmentProof_headers; [|exact Ha|by destruct (is_empty operation)..]. cbn [mbind result_bind].
  apply attachmentHeaders_Ok in Ha as (-> & _).
  rewrite (singleHeader_visible _ headerCurrentOperation current).
  2: by destruct (is_empty operation). 2: by eapply token_ok_nonempty. 2: by eapply token_visible.
  cbn [mbind result_bind].
  rewrite (proj2 (newIdentifier_Ok "operation key" _ _) (conj eq_refl Hc) : NewOperationKey _ = _). cbn [or_error mbind result_bind].
  unfold NewCurrentOperation. assert (IsZero current = false) as -> by (apply is_empty_false; by eapply token_ok_nonempty). done.
Qed.

(** ** Sizes *)

Lemma formatTime_plain t :
  four_digit_year t → forallb plain_byte (string_to_bytes (formatTime t)) = true ∧ slen (formatTime t) = 30.
Proof.
  intros Ht. pose proof (clock_fields_ok t Ht) as H.
  with_strategy transparent [formatTime] unfold formatTime.
  destruct (clock_fields t) as [[[[[[y m] d] hh] mm] ss] ns]. destruct H as [[] _]. unfold ns_per_second in *.
  split.
  - rewrite !string_to_bytes_app, !forallb_app. by rewrite !(λ k n H, digits_plain _ (fixed_digits k n H)) by (simpl; lia).
  - unfold slen. rewrite !string_length_app, !fixed_length. done.
Qed.

Lemma plain_length s : forallb plain_byte (string_to_bytes s) = true → slen (marshal_string s) = slen s + 2.
Proof. intros H. by rewrite marshal_string_length, escape_plain. Qed.

(** The size of a struct, up to the texts it carries. *)
Ltac literal_sizes :=
  unfold attachmentSchema, artifactSchema;
  repeat match goal with |- context [slen (marshal_string (String ?c ?s))] =>
    let n := eval vm_compute in (slen (marshal_string (String c s))) in
    change (slen (marshal_string (String c s))) with n end.
Ltac struct_size :=
  unfold canonical_bytes; match goal with |- context [marshal (enc ?w)] =>
    let e := eval cbn -[struct field enc_Z] in (enc w) in change (enc w) with e end;
  eapply Z.le_lt_trans; [apply struct_length|];
  cbn [map field foldr member_size fst snd enc string_codec bool_codec int_codec int_codec_of];
  assert (∀ s, marshal (JStr s) = marshal_string s) as Estr by done; rewrite !Estr; clear Estr; literal_sizes.

Lemma begin_wire_size b : digest_wf b → slen (canonical_bytes {| abw_BoundaryDigest := Digest_String b |}) < 128.
Proof. intros Hb. struct_size. rewrite Digest_String_length by done. lia. Qed.

Lemma attachment_wire_size id credential t :
  handle_ok id = true → slen credential = 32 → four_digit_year t →
  slen (canonical_bytes {| atw_Attachment := id; atw_Credential := base64_encode credential; atw_ExpiresAt := formatTime t;
    atw_Schema := attachmentSchema; atw_Version := controlVersion |}) < 512.
Proof.
  intros Hi Hc Ht. struct_size. pose proof (marshal_token_length _ _ _ Hi) as Li. unfold MaxOpaqueHandleBytes in Li.
  destruct (formatTime_plain t Ht) as [Hp Hl]. rewrite (plain_length (formatTime t) Hp), Hl.
  rewrite (plain_length (base64_encode credential)) by apply base64_encode_plain. rewrite base64_encode_length, Hc.
  change (slen (marshal (enc_Z controlVersion))) with 1. change ((4 * 32 + 2) / 3) with 43. lia.
Qed.

Lemma end_wire_size c r :
  slen (canonical_bytes {| aew_ReleasedClaim := c; aew_Replayed := r; aew_Schema := attachmentEndSchema; aew_Status := "ended";
    aew_Version := controlVersion |}) < 512.
Proof. by destruct c, r. Qed.

Lemma artifact_request_size content :
  slen content <= MaxObjectBytes → slen (canonical_bytes {| arw_Content := rawstd_encode content |}) < maxArtifactRequestBody.
Proof.
  intros Hl. struct_size. rewrite plain_length, rawstd_length.
  2:{ apply forallb_forall. intros c Hc%list_elem_of_In. pose proof (rawstd_bytes content) as Hb. rewrite Forall_forall in Hb.
      by apply Hb. }
  change maxArtifactRequestBody with 5592664. change MaxObjectBytes with 4194304 in Hl.
  assert ((4 * slen content + 2) / 3 <= 5592406) by (apply Z.div_le_upper_bound; lia). lia.
Qed.

Lemma artifact_wire_size handle digest size :
  handle_ok handle = true → digest_wf digest → 0 <= size <= MaxObjectBytes →
  slen (canonical_bytes {| aow_ByteSize := size; aow_Digest := Digest_String digest; aow_Handle := handle;
    aow_Schema := artifactSchema; aow_Version := controlVersion |}) < 512.
Proof.
  intros Hh Hd Hs. struct_size. pose proof (marshal_token_length _ _ _ Hh) as Lh. unfold MaxOpaqueHandleBytes in Lh.
  rewrite Digest_String_length by done. change MaxObjectBytes with 4194304 in Hs.
  pose proof (enc_Z_length size 23 ltac:(cbn; lia) ltac:(lia)). change (slen (marshal (enc_Z controlVersion))) with 1. lia.
Qed.

Lemma read_wire_size handle : handle_ok handle = true → slen (canonical_bytes {| arr_Handle := handle |}) < 256.
Proof.
  intros Hh. struct_size. pose proof (marshal_token_length _ _ _ Hh) as Lh. unfold MaxOpaqueHandleBytes in Lh. lia.
Qed.

(** ** Calls *)

Lemma lift_run {W A B} (r : result A) (k : A → io W B) x w : r = Ok x → (lift r ≫= k) w = k x w.
Proof. by intros ->. Qed.
Lemma guard_run {W B} c e (k : () → io W B) w : c = false → (guard c e ≫= k) w = k () w.
Proof. by intros ->. Qed.

Lemma bind_run {W A B} (m : io W A) (k : A → io W B) w r w' :
  m w = (r, w') → (m ≫= k) w = match r with Ok x => k x w' | Err e => (Err e, w') end.
Proof. unfold mbind, io_bind. intros ->. by destruct r. Qed.

(** A handler that ends with one service call. *)
Definition respond {W A} (write : A → response) (m : io W A) : io W response := λ w,
  let '(r, w) := served m w in (Ok (match r with Ok x => write x | Err e => writeControlError e end), w).

Section answers.
Context {W : Type} (Do : request → io W response).
Lemma post_answer {A} `{Codec A} route body headers w answer w' :
  postRoute route = true → object_text body → slen body < maxArtifactRequestBody →
  Do (post_request route body headers) w = (Ok answer, w') →
  post (A := A) Do route body headers maxPrivateResponse w = (read_answer maxPrivateResponse answer, w').
Proof.
  intros Hr Ho Hl Hdo. unfold post. rewrite guard_run by by rewrite Hr.
  rewrite (lift_run _ _ _ _ (newPostRequest_object route headers body Ho ltac:(lia))). by apply send_answer.
Qed.

Lemma exchange_answer r w answer w' : Do r w = (Ok answer, w') → exchange Do r w = (Ok answer, w').
Proof. intros Hdo. unfold exchange, attempt, mbind, io_bind. by rewrite Hdo. Qed.

Lemma postProjection_answer route body headers maximum w answer w' :
  (route = routeCurrent ∨ route = routeSubmit) → 0 < maximum → object_text body → slen body < maxArtifactRequestBody →
  Do (post_request route body headers) w = (Ok answer, w') →
  postProjection Do route body headers maximum w = (readProjectionResponse answer maximum, w').
Proof.
  intros Hr Hm Ho Hl Hdo. unfold postProjection. rewrite guard_run.
  2:{ rewrite (proj2 (Z.leb_gt _ _) Hm), orb_false_r. by destruct Hr as [-> | ->]. }
  rewrite (lift_run _ _ _ _ (newPostRequest_object route headers body Ho ltac:(lia))).
  by rewrite (io_bind_run _ _ _ _ _ (exchange_answer _ _ _ _ Hdo)).
Qed.

Lemma postArtifact_answer body headers w answer w' :
  object_text body → slen body < maxArtifactRequestBody →
  Do (post_request routeArtifactRead body headers) w = (Ok answer, w') →
  postArtifact Do routeArtifactRead body headers w = (readArtifactResponse answer, w').
Proof.
  intros Ho Hl Hdo. unfold postArtifact. rewrite guard_run by done.
  rewrite (lift_run _ _ _ _ (newPostRequest_object _ headers body Ho ltac:(lia))).
  by rewrite (io_bind_run _ _ _ _ _ (exchange_answer _ _ _ _ Hdo)).
Qed.
End answers.

(** A call the daemon answers with a value, a projection or content gives the caller
    what the service returned, or the error its failure is classified as. *)
Section calls.
Context {W : Type} (S : LocalService W).

Lemma post_served {A B} `{CodecLaws A} route body headers (m : io W B) (wire : B → A) w :
  postRoute route = true → object_text body → slen body < maxArtifactRequestBody →
  ServeHTTP S (post_request route body headers) w = respond (λ x, writeControlJSON StatusOK (wire x)) m w →
  (∀ x w', m w = (Ok x, w') →
     enc_ok (wire x) ∧ (∃ fs, enc (wire x) = struct fs) ∧ slen (canonical_bytes (wire x)) < maxPrivateResponse) →
  post (ServeHTTP S) route body headers maxPrivateResponse w = (x ← served m; mret (wire x)) w.
Proof.
  intros Hr Ho Hl Hs Hw. unfold respond in Hs. destruct (served m w) as [r w'] eqn:E.
  rewrite (post_answer (ServeHTTP S) _ _ _ _ _ _ Hr Ho Hl Hs), (bind_run _ _ _ _ _ E).
  unfold served in E. destruct (m w) as [[x|e] w'']; injection E as <- <-.
  - destruct (Hw x _ eq_refl) as (Hok & [fs Hf] & Hsize). by erewrite read_answer_value.
  - by rewrite error_read_answer by apply classify_service_errors.
Qed.

Lemma read_projection raw maximum :
  projection_shape raw = true → slen raw <= maximum →
  readProjectionResponse (writeProjection raw maximum) maximum = Ok raw.
Proof.
  intros Hs Hl. unfold writeProjection. rewrite Hs, (proj2 (Z.ltb_ge _ _) Hl). cbn [negb orb].
  unfold readProjectionResponse, json_response. cbn [rs_body rs_header rs_status or_error mbind result_bind].
  destruct (framed raw) as (Hn & Hb & El). rewrite Hn, Hb, El, Hs.
  apply andb_true_iff in Hs as [[H2%Z.leb_le _]%andb_true_iff _].
  by rewrite (proj2 (Z.leb_gt maximum 0)), (proj2 (Z.ltb_ge _ 3)), (proj2 (Z.ltb_ge (maximum + 1) _)) by lia.
Qed.

Lemma postProjection_served {B} route body headers maximum (m : io W B) (text : B → string) w :
  (route = routeCurrent ∨ route = routeSubmit) → maxPrivateResponse <= maximum → object_text body →
  slen body < maxArtifactRequestBody →
  ServeHTTP S (post_request route body headers) w = respond (λ x, writeProjection (text x) maximum) m w →
  (∀ x w', m w = (Ok x, w') → projection_shape (text x) = true ∧ slen (text x) <= maximum) →
  postProjection (ServeHTTP S) route body headers maximum w = (x ← served m; mret (text x)) w.
Proof.
  intros Hr Hm Ho Hl Hs Hw. unfold respond in Hs. destruct (served m w) as [r w'] eqn:E.
  assert (0 < maximum) as H0 by (change maxPrivateResponse with 4096 in Hm; lia).
  rewrite (postProjection_answer (ServeHTTP S) _ _ _ _ _ _ _ Hr H0 Ho Hl Hs), (bind_run _ _ _ _ _ E).
  unfold served in E. destruct (m w) as [[x|e] w'']; injection E as <- <-.
  - destruct (Hw x _ eq_refl) as [Hshape Hsize]. by rewrite read_projection.
  - by rewrite error_read_projection by (done || apply classify_service_errors).
Qed.

Lemma read_artifact content d :
  d = Sum content → d ≠ zero_digest → ValidateAgentArtifactText content = Ok () →
  readArtifactResponse (writeArtifactContent content d) = Ok content.
Proof.
  intros Hd Hz Hv. assert (Digest_IsZero d = false) as Hnz by by apply bool_decide_eq_false.
  unfold writeArtifactContent. rewrite Hnz, Hv, bool_decide_eq_true_2 by done. cbn [negb orb is_ok].
  unfold readArtifactResponse. cbn [rs_body or_error mbind result_bind rs_status rs_contentLength].
  apply ValidateAgentArtifactText_Ok in Hv as Hv'. rewrite (proj2 (Z.ltb_ge MaxAgentArtifactReadBytes (slen content))) by apply Hv'.
  cbn [fail_if mbind result_bind]. change (success StatusOK) with true. cbn [negb].
  change (firstExact _) with (Digest_String d). rewrite ParseDigest_String by (done || (subst d; apply Sum_wf)).
  cbn [or_error mbind result_bind]. by rewrite Hnz, Hv, !Z.eqb_refl, bool_decide_eq_true_2 by done.
Qed.

Lemma postArtifact_served body headers (m : io W (string * Digest)) w :
  object_text body → slen body < maxArtifactRequestBody →
  ServeHTTP S (post_request routeArtifactRead body headers) w = respond (λ '(c, d), writeArtifactContent c d) m w →
  (∀ c d w', m w = (Ok (c, d), w') → d = Sum c ∧ d ≠ zero_digest ∧ ValidateAgentArtifactText c = Ok ()) →
  postArtifact (ServeHTTP S) routeArtifactRead body headers w = ('(c, _) ← served m; mret c) w.
Proof.
  intros Ho Hl Hs Hw. unfold respond in Hs. destruct (served m w) as [r w'] eqn:E.
  rewrite (postArtifact_answer (ServeHTTP S) _ _ _ _ _ Ho Hl Hs), (bind_run _ _ _ _ _ E).
  unfold served in E. destruct (m w) as [[[c d]|e] w'']; injection E as <- <-.
  - destruct (Hw c d _ eq_refl) as (Hd & Hz & Hv). by rewrite read_artifact.
  - by rewrite error_read_artifact by apply classify_service_errors.
Qed.

(** What the client does with an answer the service vouches for. *)
Lemma served_then {A B C} (m : io W A) (f : A → B) (call : io W B) (k : B → io W C) (k' : A → io W C) w :
  call w = (x ← served m; mret (f x)) w → (∀ x w', m w = (Ok x, w') → k (f x) w' = k' x w') →
  (call ≫= k) w = (served m ≫= k') w.
Proof.
  intros Hc Hk. unfold served, mbind, io_bind in *. rewrite Hc. destruct (m w) as [[x|e] w'] eqn:E; [|done]. by apply Hk.
Qed.
End calls.

(** The handler of a path. *)
Ltac serve handler :=
  unfold ServeHTTP; match goal with |- context [route ?S ?r ?w] => change (route S r w) with (handler _ S r w) end; unfold handler.

Section transparent.
Context {W : Type} (S : LocalService W) {Hsound : SoundService S}.

Definition attach_wire (a : serviceAttachment) : attachmentWire := {|
  atw_Attachment := a.(sa_id); atw_Credential := base64_encode a.(sa_credential);
  atw_ExpiresAt := formatTime a.(sa_expiresAt); atw_Schema := attachmentSchema; atw_Version := controlVersion |}.

Lemma serve_attach b w :
  digest_wf b → Digest_IsZero b = false →
  ServeHTTP S (post_request routeAttachments (canonical_bytes {| abw_BoundaryDigest := Digest_String b |}) []) w =
    respond (λ a, if a.(sa_expiresAt) =? zero_time then writeControlError invalidAttachment
                  else writeControlJSON StatusOK (attach_wire a)) (S.(ls_attach) b) w.
Proof.
  intros Hb Hz. serve @handleAttach. rewrite (lift_run _ _ () w eq_refl).
  rewrite (lift_run _ _ {| abw_BoundaryDigest := Digest_String b |}).
  2:{ apply decodeClosedRequest_object; [by eapply canonical_object| |apply closed_canonical, Digest_String_utf8].
      pose proof (begin_wire_size b Hb). change maxPrivateResponse with 4096. lia. }
  cbn [abw_BoundaryDigest]. rewrite (lift_run _ _ b); [|by rewrite ParseDigest_String].
  unfold respond, mbind, io_bind. destruct (served _ w) as [[a|e] w'] eqn:E; [|done].
  unfold served in E. destruct (ls_attach S b w) as [[a'|e] w''] eqn:Ea; [|done]. injection E as <- <-.
  apply attach_sound in Ea as (Hi & Hc & _). unfold guard, fail_if, lift.
  assert (IsZero (sa_id a') = false) as -> by (apply is_empty_false; by eapply token_ok_nonempty).
  rewrite Hc, Z.eqb_refl. by destruct (_ =? zero_time).
Qed.

Lemma secret_reads s : slen s = attachmentCredentialBytes → clientSecret (base64_encode s) = Some s.
Proof. exact (secret_decodes s). Qed.

(** The client makes of an attachment's wire what it stands for. *)
Lemma attach_wire_reads a :
  handle_ok a.(sa_id) = true → slen a.(sa_credential) = attachmentCredentialBytes → four_digit_year a.(sa_expiresAt) →
  read_answer maxPrivateResponse (writeControlJSON StatusOK (attach_wire a)) = Ok (attach_wire a).
Proof.
  intros Hi Hc Ht. pose proof (attachment_wire_size _ _ _ Hi Hc Ht) as Hs. destruct (formatTime_plain _ Ht) as [Hp _].
  eapply read_answer_value; [reflexivity| |change maxPrivateResponse with 4096; unfold attach_wire; lia].
  split_and!; [by eapply token_ok_utf8|apply plain_utf8, base64_encode_plain|by apply plain_utf8|done|done].
Qed.

Lemma attach_transparent b w : digest_wf b → control_Attach (ServeHTTP S) b w = direct_Attach S b w.
Proof.
  intros Hb. unfold control_Attach, direct_Attach. destruct (Digest_IsZero b) eqn:Hz; [done|].
  rewrite !guard_run by done. pose proof (serve_attach b w Hb Hz) as Hs. unfold respond in Hs.
  destruct (served (ls_attach S b) w) as [r w'] eqn:E. pose proof (begin_wire_size b Hb) as Hl.
  apply (post_answer (ServeHTTP S) (A := attachmentWire)) in Hs; [|done|by eapply canonical_object|change maxArtifactRequestBody with 5592664; lia].
  rewrite (bind_run _ _ _ _ _ Hs), (bind_run _ _ _ _ _ E). clear Hs.
  unfold served in E. destruct (ls_attach S b w) as [[a|e] w''] eqn:Ea; injection E as <- <-.
  2: by rewrite error_read_answer by apply classify_service_errors.
  apply attach_sound in Ea as (Hi & Hc & Ht). destruct (Z.eqb_spec a.(sa_expiresAt) zero_time) as [Hn|Hn].
  { by rewrite error_read_answer by (apply (bool_decide_unpack _); vm_compute; exact I). }
  rewrite attach_wire_reads by done. rewrite !guard_run by done. cbn [attach_wire atw_Credential atw_ExpiresAt atw_Attachment].
  rewrite (lift_run _ _ a.(sa_credential)) by by rewrite secret_reads.
  rewrite (lift_run _ _ a.(sa_expiresAt)) by by rewrite parseTime_format.
  rewrite guard_run by by apply Z.eqb_neq. rewrite guard_run; [done|].
  unfold validateAttachment. cbn [at_ID at_Credential at_ExpiresAt].
  rewrite (proj2 (newIdentifier_Ok "AttachmentID" _ _) (conj eq_refl Hi) : NewAttachmentID _ = _), Hc.
  by rewrite (proj2 (Z.eqb_neq _ _) Hn).
Qed.

(** *** hook end *)

Definition end_wire (r : attachmentEnd) : attachmentEndWire := {|
  aew_ReleasedClaim := r.(aed_releasedClaim); aew_Replayed := r.(aed_replayed);
  aew_Schema := attachmentEndSchema; aew_Status := "ended"; aew_Version := controlVersion |}.

Lemma serve_end value hs w :
  attachmentHeaders value = Ok hs →
  ServeHTTP S (post_request routeAttachmentEnd (canonical_bytes Build_emptyWire) hs) w =
    respond (λ r, writeControlJSON StatusOK (end_wire r)) (S.(ls_endAttachment) (proof_of value)) w.
Proof.
  intros Hh. serve @handleAttachmentEnd.
  pose proof (parseAttachmentProof_headers value hs "application/json" [] Hh eq_refl eq_refl) as Hp. rewrite app_nil_r in Hp.
  apply attachmentHeaders_Ok in Hh as (-> & _).
  rewrite (lift_run _ _ () w eq_refl), (lift_run _ _ _ w Hp), (lift_run _ _ Build_emptyWire w) by by vm_compute.
  unfold respond, mbind, io_bind. by destruct (served _ w) as [[] ?].
Qed.

Lemma end_transparent value w : control_End (ServeHTTP S) value w = direct_End S value w.
Proof.
  unfold control_End, direct_End. destruct (attachmentHeaders value) as [hs|e] eqn:Hh; [|done].
  rewrite !(lift_run _ _ hs) by done. apply (served_then _ end_wire); [|done].
  apply post_served; [apply _|done|by eapply canonical_object|done|by apply serve_end|]. intros r w' _.
  pose proof (end_wire_size r.(aed_releasedClaim) r.(aed_replayed)). change maxPrivateResponse with 4096.
  split_and!; [done|by eexists|unfold end_wire; lia].
Qed.

(** *** agent current *)

Lemma serve_current value operation hs w :
  authorityHeaders value operation "" = Ok hs →
  ServeHTTP S (post_request routeCurrent (canonical_bytes Build_emptyWire) hs) w =
    respond (λ v, writeProjection v.(av_canonical) MaxAgentViewCanonicalBytes)
      (S.(ls_current) (proof_of value) (current_of operation)) w.
Proof.
  intros Hh. serve @handleCurrent. pose proof (parseControlAuthority_headers _ _ _ _ "application/json" Hh) as Hp.
  apply authorityHeaders_Ok in Hh as (ah & (-> & _)%attachmentHeaders_Ok & _ & _ & ->).
  rewrite (lift_run _ _ () w eq_refl), (lift_run _ _ _ w Hp), (lift_run _ _ Build_emptyWire w) by by vm_compute.
  unfold respond, mbind, io_bind. by destruct (served _ w) as [[] ?].
Qed.

Lemma current_transparent value operation w :
  control_Current (ServeHTTP S) value operation w = direct_Current S value operation w.
Proof.
  unfold control_Current, direct_Current. destruct (authorityHeaders value operation "") as [hs|e] eqn:Hh; [|done].
  rewrite !(lift_run (Ok hs) _ hs w eq_refl). apply (served_then _ av_canonical).
  - apply postProjection_served; [by left|done|by eapply canonical_object|done|by apply serve_current|].
    intros v w' Hv%current_sound. exact Hv.
  - done.
Qed.

(** *** artifact capture *)

Definition capture_wire (c : capturedArtifact) : artifactResponseWire := {|
  aow_ByteSize := c.(ca_byteSize); aow_Digest := Digest_String c.(ca_digest); aow_Handle := c.(ca_handle);
  aow_Schema := artifactSchema; aow_Version := controlVersion |}.

Lemma rawstd_plain content : forallb plain_byte (string_to_bytes (rawstd_encode content)) = true.
Proof.
  apply forallb_forall. intros c Hc%list_elem_of_In. pose proof (rawstd_bytes content) as Hb. rewrite Forall_forall in Hb.
  by apply Hb.
Qed.

Lemma rawstd_lacks c content : visible c = false ∨ c = "="%char → contains_byte c (rawstd_encode content) = false.
Proof.
  intros Hc. apply bool_decide_eq_false. intros Hin. pose proof (rawstd_bytes content) as Hb. rewrite Forall_forall in Hb.
  apply Hb in Hin as (Hv & _ & _ & Hn & _). destruct Hc; congruence.
Qed.

Lemma decodeArtifactContent_rawstd content :
  slen content <= MaxObjectBytes → decodeArtifactContent (rawstd_encode content) = Ok content.
Proof.
  intros Hl. unfold decodeArtifactContent. rewrite visible_trimmed.
  2:{ apply forallb_forall. intros c Hc%list_elem_of_In. pose proof (rawstd_bytes content) as Hb. rewrite Forall_forall in Hb.
      by apply Hb. }
  cbn [existsb negb orb]. rewrite !rawstd_lacks by tauto. cbn [orb fail_if mbind result_bind].
  rewrite rawstd_decode_encode, rawstd_length. change MaxObjectBytes with 4194304 in *.
  rewrite (proj2 (Z.ltb_ge _ ((4 * slen content + 2) / 3))).
  2:{ apply Z.div_le_upper_bound; [lia|]. change ((4194304 * 8 + 5) / 6) with 5592406. lia. }
  cbn [fail_if mbind result_bind of_option]. by rewrite (proj2 (Z.ltb_ge _ (slen content))).
Qed.

Lemma serve_capture content w :
  slen content <= MaxObjectBytes →
  ServeHTTP S (post_request routeArtifacts (canonical_bytes {| arw_Content := rawstd_encode content |}) []) w =
    respond (λ c, writeControlJSON StatusOK (capture_wire c)) (S.(ls_capture) content) w.
Proof.
  intros Hl. serve @handleArtifact. rewrite (lift_run _ _ () w eq_refl).
  rewrite (lift_run _ _ {| arw_Content := rawstd_encode content |}).
  2:{ apply decodeClosedRequest_object; [by eapply canonical_object| |apply closed_canonical, plain_utf8, rawstd_plain].
      pose proof (artifact_request_size content Hl). lia. }
  rewrite (lift_run _ _ content) by by apply decodeArtifactContent_rawstd.
  unfold respond, mbind, io_bind. by destruct (served _ w) as [[] ?].
Qed.

Lemma capture_transparent content w : control_Capture (ServeHTTP S) content w = direct_Capture S content w.
Proof.
  unfold control_Capture, direct_Capture. destruct (maxArtifactInputBytes <? slen content) eqn:Hl; [done|].
  rewrite !guard_run by done. apply Z.ltb_ge in Hl. change maxArtifactInputBytes with MaxObjectBytes in Hl.
  assert (0 <= slen content) as H0 by (unfold slen; lia).
  apply (served_then _ capture_wire).
  - apply post_served; [apply _|done|by eapply canonical_object|by apply artifact_request_size|by apply serve_capture|].
    intros c w' (Hh & Hd & Hs & Hz)%capture_sound. unfold capture_wire. rewrite Hd, Hs. split_and!.
    + change MaxObjectBytes with 4194304 in Hl.
      cbn [enc_ok artifactResponseWire_codec int_codec int_codec_of string_codec aow_ByteSize aow_Digest aow_Handle aow_Schema aow_Version].
      split; [split; [lia|unfold min_int64, max_int64; lia]|]. split; [apply Digest_String_utf8|]. by split; [eapply token_ok_utf8|].
    + by eexists.
    + eapply Z.lt_trans; [apply artifact_wire_size|]; [done|apply Sum_wf|lia|done].
  - intros c w' (Hh & Hd & Hs & Hz)%capture_sound. unfold capture_wire. cbn [aow_Schema aow_Version aow_ByteSize aow_Handle aow_Digest].
    rewrite guard_run by by rewrite Hs, !Z.eqb_refl. rewrite guard_run; [done|].
    unfold validateCapture. cbn [ac_Handle ac_Digest ac_ByteSize].
    rewrite (proj2 (NewOpaqueHandle_Ok _ _) (conj eq_refl Hh)), ParseDigest_String.
    2: rewrite Hd; apply Sum_wf. 2: by apply bool_decide_eq_false.
    rewrite Hd, Hs, String.eqb_refl. change maxArtifactInputBytes with MaxObjectBytes.
    by rewrite (proj2 (Z.leb_le _ _) H0), (proj2 (Z.leb_le _ _) Hl).
Qed.

(** *** artifact read *)

Lemma serve_read value current handle hs w :
  handle_ok handle = true → authorityHeaders value current "" = Ok hs →
  ServeHTTP S (post_request routeArtifactRead (canonical_bytes {| arr_Handle := handle |}) hs) w =
    respond (λ '(c, d), writeArtifactContent c d) (S.(ls_readArtifact) (proof_of value) (current_of current) handle) w.
Proof.
  intros Hn Hh. serve @handleArtifactRead. pose proof (parseControlAuthority_headers _ _ _ _ "application/json" Hh) as Hp.
  apply authorityHeaders_Ok in Hh as (ah & (-> & _)%attachmentHeaders_Ok & _ & _ & ->).
  rewrite (lift_run _ _ () w eq_refl), (lift_run _ _ _ w Hp), (lift_run _ _ {| arr_Handle := handle |}).
  2:{ apply decodeClosedRequest_object; [by eapply canonical_object| |apply closed_canonical; by eapply token_ok_utf8].
      pose proof (read_wire_size handle Hn). change maxPrivateResponse with 4096. lia. }
  rewrite (lift_run (or_error (NewOpaqueHandle handle) _) _ handle) by by rewrite (proj2 (NewOpaqueHandle_Ok _ _) (conj eq_refl Hn)).
  unfold respond, mbind, io_bind. by destruct (served _ w) as [[[]|] ?].
Qed.

Lemma read_transparent value current handle w :
  control_ReadArtifact (ServeHTTP S) value current handle w = direct_ReadArtifact S value current handle w.
Proof.
  unfold control_ReadArtifact, direct_ReadArtifact. destruct (NewOpaqueHandle handle) as [h|e] eqn:Hn; [|done].
  apply NewOpaqueHandle_Ok in Hn as [-> Hn]. cbn [or_error]. rewrite !(lift_run (Ok handle) _ handle w eq_refl).
  destruct (authorityHeaders value current "") as [hs|e] eqn:Hh; [|done]. rewrite !(lift_run (Ok hs) _ hs w eq_refl).
  apply postArtifact_served; [by eapply canonical_object| |by apply serve_read|].
  - pose proof (read_wire_size handle Hn). change maxArtifactRequestBody with 5592664. lia.
  - intros c d w' (Hd & Hz & Hv)%read_sound. done.
Qed.

(** *** agent submit *)

Definition bind_wire (w : controlCandidateWire) : result serviceCandidate := d ← ParseDigest w.(ccw_Digest); Ok (candidate_of w d).
Definition wire_ok (w : controlCandidateWire) : Prop :=
  handle_ok w.(ccw_Handle) = true ∧ ∃ d, digest_ok d ∧ w.(ccw_Digest) = Digest_String d.

(** The server parses the candidates the client found fit to send. *)
Lemma candidate_wires_parse seen cs wires :
  candidate_wires seen cs = Ok wires →
  length wires = length cs ∧ Forall wire_ok wires ∧
  ∃ bs, mapR bind_wire wires = Ok bs ∧ parse_candidates seen wires = Ok bs.
Proof.
  revert seen wires. induction cs as [|c cs IH]; intros seen wires; cbn [candidate_wires].
  { intros H. apply (inj Ok) in H as <-. split_and!; [done|done|by exists []]. }
  intros H. apply bind_Ok in H as (h & Hh%or_error_Ok & H). apply NewOpaqueHandle_Ok in Hh as [-> Hh].
  apply bind_Ok in H as (d & Hd%or_error_Ok & H). apply bind_Ok in H as ([] & Hs%fail_if_Ok & H).
  apply bind_Ok in H as (rest & Hr & H). apply (inj Ok) in H as <-.
  destruct (IH _ _ Hr) as (Hlen & Hall & bs & Hbs & Hp). pose proof (ParseDigest_Ok _ _ Hd) as (Ed & Hw & Hz). split_and!.
  - cbn. by rewrite Hlen.
  - constructor; [|done]. split; [done|]. by exists d.
  - exists ({| sc_handle := c.(cnb_Handle); sc_digest := d |} :: bs). split.
    + assert (bind_wire {| ccw_Digest := c.(cnb_Digest); ccw_Handle := c.(cnb_Handle) |} =
        Ok {| sc_handle := c.(cnb_Handle); sc_digest := d |}) as E by (unfold bind_wire; cbn [ccw_Digest]; by rewrite Hd).
      cbn [mapR]. rewrite E. cbn [mbind result_bind]. by rewrite Hbs.
    + cbn [parse_candidates ccw_Handle ccw_Digest]. rewrite (proj2 (NewOpaqueHandle_Ok _ _) (conj eq_refl Hh)), Hd.
      cbn [or_error mbind result_bind]. rewrite Hz, Hs.
      assert (IsZero c.(cnb_Handle) = false) as -> by (apply is_empty_false; by eapply token_ok_nonempty).
      cbn [orb fail_if mbind result_bind]. by rewrite Hp.
Qed.

Lemma wires_length wires n :
  Forall wire_ok wires → Z.of_nat (length wires) <= n → slen (marshal (enc wires)) <= 2 + 293 * n.
Proof.
  intros Hw Hn. cbn [enc list_codec marshal]. unfold slen at 1. cbn [String.length]. rewrite string_length_app.
  pose proof (join_comma_app_length (map marshal (map enc wires))) as Hj. rewrite !map_map in *.
  unfold slen at 1 in Hj. cbn [String.length].
  enough (foldr Z.add 0 (map (λ x, slen (marshal (enc x)) + 1) wires) <= 293 * Z.of_nat (length wires)) by lia.
  clear - Hw. induction Hw as [|x l (Hh & d & [Hd _] & E) _ IH]; cbn [map foldr length]; [lia|].
  enough (slen (marshal (enc x)) <= 292) by lia. clear IH.
  change (enc x) with (struct [field "digest" x.(ccw_Digest); field "handle" x.(ccw_Handle)]).
  etransitivity; [apply struct_length|]. rewrite E. cbn [map field enc string_codec foldr member_size fst snd].
  change (marshal (JStr (ccw_Handle x))) with (marshal_string (ccw_Handle x)).
  change (marshal (JStr (Digest_String d))) with (marshal_string (Digest_String d)).
  rewrite Digest_String_length by done. pose proof (marshal_token_length _ _ _ Hh). unfold MaxOpaqueHandleBytes in *.
  change (slen (marshal_string "handle")) with 8. change (slen (marshal_string "digest")) with 8. lia.
Qed.

Lemma submit_size wires intent :
  Forall wire_ok wires → Z.of_nat (length wires) <= 8 → slen (marshal (JObj (submit_members wires intent))) <= slen (marshal intent) + 4096.
Proof.
  intros Hw Hn. pose proof (wires_length wires 8 Hw Hn) as Hl.
  replace (JObj (submit_members wires intent)) with
    (struct [("candidates", if bool_decide (wires = []) then None else Some (enc wires)); ("intent", Some intent)]).
  2:{ unfold submit_members. by destruct (bool_decide _). }
  etransitivity; [apply struct_length|]. unfold member_size. cbn [map foldr fst snd].
  change (slen (marshal_string "candidates")) with 12. change (slen (marshal_string "intent")) with 8.
  destruct (bool_decide _); lia.
Qed.

Lemma serve_submit value current operation hs i wires bs w :
  authorityHeaders value current operation = Ok hs → handle_ok operation = true → intent_wf i →
  Forall wire_ok wires → Z.of_nat (length wires) <= MaxArtifactInputs → parseCandidateBindings wires = Ok bs →
  ServeHTTP S (post_request routeSubmit (marshal_submit {| sw_Candidates := wires; sw_Intent := Some i.(ai_canonical) |}) hs) w =
    respond (λ r, writeProjection r.(agr_canonical) MaxAgentReceiptCanonicalBytes)
      (S.(ls_submit) (proof_of value) (current_of current) operation i bs) w.
Proof.
  intros Hh Ho Hi Hw Hn Hb. serve @handleSubmit. pose proof (parseControlAuthority_headers _ _ _ _ "application/json" Hh) as Hp.
  apply authorityHeaders_Ok in Hh as (ah & (-> & _)%attachmentHeaders_Ok & _ & _ & ->).
  assert (is_empty operation = false) as Hne by (apply is_empty_false; by eapply token_ok_nonempty). rewrite Hne in *.
  rewrite (lift_run _ _ () w eq_refl), (lift_run _ _ _ w Hp), (lift_run _ _ operation).
  2:{ apply singleHeader_visible; [done|by eapply token_ok_nonempty|by eapply token_visible]. }
  rewrite (lift_run _ _ operation)
    by by rewrite (proj2 (newIdentifier_Ok "operation key" _ _) (conj eq_refl Ho) : NewOperationKey _ = _).
  pose proof (iwf_canonical _ Hi) as Ec. pose proof (iwf_size _ Hi) as Hs. pose proof (enc_wf _ (intent_wire_ok _ (iwf_spec _ Hi))) as Hj.
  rewrite (lift_run _ _ {| sw_Candidates := wires; sw_Intent := Some i.(ai_canonical) |}).
  2:{ rewrite Ec in *. unfold canonical_bytes in *. pose proof (submit_size wires (enc (intent_wire i)) Hw Hn) as Hsize.
      apply decodeClosedRequest_object.
      - rewrite marshal_submit_members by done. by eexists.
      - rewrite marshal_submit_members by done. change maxPrivateResponse with 4096. lia.
      - apply decode_submit_marshal; [done|]. eapply Forall_impl; [exact Hw|]. intros x (Hx & d & _ & E). split.
        + rewrite E. apply Digest_String_utf8.
        + by eapply token_ok_utf8. }
  cbn [sw_Intent sw_Candidates default from_option].
  rewrite (lift_run (or_error (ParseAgentIntentJSON i.(ai_canonical)) _) _ i) by by rewrite ParseAgentIntentJSON_canonical.
  rewrite guard_run by by apply Z.ltb_ge. rewrite (lift_run (or_error (parseCandidateBindings wires) _) _ bs) by by rewrite Hb.
  unfold respond, mbind, io_bind. by destruct (served _ w) as [[] ?].
Qed.

Lemma submit_transparent value current operation i candidates w :
  intent_wf i →
  control_Submit (ServeHTTP S) value current operation i.(ai_canonical) candidates w =
    direct_Submit S value current operation i.(ai_canonical) candidates w.
Proof.
  intros Hi. unfold control_Submit, direct_Submit. destruct (NewOperationKey operation) as [o|e] eqn:Ho; [|done].
  apply newIdentifier_Ok in Ho as [-> Ho]. cbn [or_error]. rewrite !(lift_run (Ok operation) _ operation w eq_refl).
  rewrite ParseAgentIntentJSON_canonical by done. cbn [or_error]. rewrite !(lift_run (Ok i) _ i w eq_refl).
  destruct (MaxArtifactInputs <? Z.of_nat (length candidates)) eqn:Hn; [done|]. rewrite !guard_run by done. apply Z.ltb_ge in Hn.
  destruct (authorityHeaders value current operation) as [hs|e] eqn:Hh; [|done]. rewrite !(lift_run (Ok hs) _ hs w eq_refl).
  destruct (candidate_wires [] candidates) as [wires|e] eqn:Hc; [|done]. rewrite !(lift_run (Ok wires) _ wires w eq_refl).
  apply candidate_wires_parse in Hc as (Hlen & Hw & bs & Hbs & Hp). rewrite <- Hlen in Hn.
  change (mapR (λ w : controlCandidateWire, d ← ParseDigest (ccw_Digest w); Ok (candidate_of w d)) wires) with (mapR bind_wire wires).
  rewrite (lift_run _ _ bs w Hbs). apply (served_then _ agr_canonical).
  - pose proof (iwf_canonical _ Hi) as Ec. pose proof (iwf_size _ Hi) as Hs.
    pose proof (enc_wf _ (intent_wire_ok _ (iwf_spec _ Hi))) as Hj.
    apply postProjection_served; [by right|done| | |by apply serve_submit|].
    + rewrite Ec. unfold canonical_bytes. rewrite marshal_submit_members by done. by eexists.
    + rewrite Ec in *. unfold canonical_bytes in *. rewrite marshal_submit_members by done.
      pose proof (submit_size wires (enc (intent_wire i)) Hw Hn). change maxArtifactRequestBody with 5592664.
      change MaxIntentCanonicalBytes with 12288 in Hs. lia.
    + intros r w' Hr%submit_sound. exact Hr.
  - done.
Qed.
End transparent.
