(* ===== verification/Service.v ===== *)
(** The daemon's local service (internal/daemon/service.go): what the control server
    calls, over the authority Store, the Artifact store, a clock and entropy.

    The world [W] holds the Store and the file system; what other goroutines and
    processes do happens before each call ([se_others], [ce_others]) and, inside an
    admission, between its two transactions.  Context cancellation is left out. *)

From Stdlib Require Import Lia.
From S2P Require Import Prelude Io Utf8 Json Wire Sha256 Time Value Intent Bound Event View AgentView Base64.
From S2P Require Import Cas Bind StoreTime Store Attach Domain Admission Current ArtifactText Compact Journal Terminal.
From S2P Require Import ControlWire Control.

#[local] Open Scope Z_scope.

Definition candidateEntropyBytes : Z := 16.

Record ServiceEnv (W : Type) := {
  se_store : W → Store;
  se_put : W → Store → W;
  se_others : W → W;
  se_cas : CasEnv W;
  se_now : W → Time;
  (** [io.ReadFull(service.random, ...)] of the entropy of a candidate handle. *)
  se_random : W → result string;
  (** Inside [Admit]: other calls, the second clock reading, entropy and the Artifact
      verifier the Store was opened with. *)
  se_between : W → Store → Store;
  se_later : W → Time;
  se_entropy : W → nat → string;
  se_verifier : W → option (Digest → Z → bool);
}.
Arguments se_store {_}.
Arguments se_put {_}.
Arguments se_others {_}.
Arguments se_cas {_}.
Arguments se_now {_}.
Arguments se_random {_}.
Arguments se_between {_}.
Arguments se_later {_}.
Arguments se_entropy {_}.
Arguments se_verifier {_}.

(** ** Candidates *)

(** The candidate inputs of an Intent by handle; a later one replaces an earlier. *)
Definition candidate_inputs (intent : AgentIntent) : gmap string ArtifactInput :=
  foldl (λ inputs input,
    if bool_decide (input.(ain_kind) = ArtifactInputCandidate) then <[input.(ain_handle) := input]> inputs else inputs)
    ∅ intent.(ai_artifacts).

Fixpoint bind_captured (operation : OperationKey) (inputs : gmap string ArtifactInput) (seen : list string)
    (bindings : list serviceCandidate) : result (list CapturedCandidate) :=
  match bindings with
  | [] => Ok []
  | binding :: bindings =>
      let absent := Errorf "daemon submit: candidate is absent from Intent" in
      _ ← fail_if (IsZero binding.(sc_handle) || Digest_IsZero binding.(sc_digest)) absent;
      input ← of_option (inputs !! binding.(sc_handle)) absent;
      _ ← fail_if (bool_decide (binding.(sc_handle) ∈ seen)) (Errorf "daemon submit: duplicate candidate binding");
      candidate ← wrap_error "daemon submit candidate" (NewCapturedCandidate operation input binding.(sc_digest));
      rest ← bind_captured operation inputs (binding.(sc_handle) :: seen) bindings;
      Ok (candidate :: rest)
  end.

Definition service_bindCandidates (operation : OperationKey) (intent : AgentIntent) (bindings : list serviceCandidate)
    : result (list CapturedCandidate) :=
  _ ← fail_if (IsZero operation || (MaxArtifactInputs <? lenZ bindings))
        (Errorf "daemon submit: invalid candidate bindings");
  bind_captured operation (candidate_inputs intent) [] bindings.

(** ** Operations *)

Section service.
Context {W : Type} (env : ServiceEnv W).
Context (principal : AgentPrincipalID) (artifacts : CasStore).

(** One call on the Store. *)
Definition store_call {A} (f : W → Store → result A * Store) : io W A := λ w,
  let w := env.(se_others) w in
  let '(r, s) := f w (env.(se_store) w) in (r, env.(se_put) w s).

Definition service_available : io W () :=
  guard (IsZero principal) (Errorf "daemon: local service is unavailable").

Definition service_attach (boundary : Digest) : io W serviceAttachment :=
  _ ← service_available;
  proof ← wrapping "daemon attach" (store_call (λ w s, IssueInteractiveAttachment s (env.(se_now) w) principal boundary));
  mret {| sa_id := proof.(ap_id); sa_credential := proof.(ap_credential); sa_expiresAt := proof.(ap_expiresAt) |}.

Definition service_endAttachment (proof : AttachmentProof) : io W attachmentEnd :=
  _ ← service_available;
  result ← wrapping "daemon end attachment" (store_call (λ w s, EndInteractiveAttachment s (env.(se_now) w) proof));
  mret {| aed_replayed := result.(ae_replayed); aed_releasedClaim := result.(ae_releasedClaim) |}.

Definition service_current (proof : AttachmentProof) (operation : CurrentOperation) : io W AgentView :=
  _ ← service_available;
  view ← wrapping "daemon current" (store_call (λ w s, Current s (env.(se_now) w) proof operation));
  mret view.(bv_public).

Definition service_submit (proof : AttachmentProof) (current : CurrentOperation) (operation : OperationKey)
    (intent : AgentIntent) (bindings : list serviceCandidate) : io W AgentReceipt :=
  _ ← service_available;
  view ← wrapping "daemon submit current" (store_call (λ _ s, (ReplayCurrent s proof current, s)));
  candidates ← lift (service_bindCandidates operation intent bindings);
  bound ← wrapping "daemon submit bind" (lift (BoundView_Bind view intent operation candidates));
  result ← wrapping "daemon submit admit"
             (store_call (λ w s, Admit (env.(se_verifier) w) (env.(se_entropy) w) (env.(se_between) w) s
                                   (env.(se_now) w) (env.(se_later) w) proof bound));
  let corrupt := Errorf "daemon submit: authority returned corrupt Receipt" in
  receipt ← lift (or_error (ParseReceiptCanonicalJSON result.(ar_receiptJSON)) corrupt);
  _ ← guard (negb (bool_decide (receipt.(rc_digest) = result.(ar_receiptDigest))) ||
             negb (bool_decide (receipt.(rc_outcome) = result.(ar_outcome)))) corrupt;
  wrapping "daemon submit project Receipt" (lift (ProjectAgentReceipt receipt result.(ar_replayed))).

Definition newCandidateHandle : io W OpaqueHandle :=
  entropy ← run (λ w, (wrap_error "daemon capture handle" (env.(se_random) w), w));
  wrapping "daemon capture handle" (lift (NewOpaqueHandle ("artifact:" +:+ base64_encode entropy))).

Definition service_capture (content : string) : io W capturedArtifact :=
  _ ← service_available;
  _ ← guard (MaxObjectBytes <? slen content) (Errorf "daemon capture: Artifact exceeds its byte bound");
  let digest := Sum content in
  stored ← wrapping "daemon capture Artifact" (Put env.(se_cas) artifacts digest content);
  verified ← run (λ w,
    let diverged := Errorf "daemon capture: CAS verification diverged" in
    (verified ← or_error (VerifyArtifact content (env.(se_now) w)) diverged;
     _ ← fail_if (negb (bool_decide (verified.(vf_digest) = stored.(pr_digest))) ||
                  negb (verified.(vf_byteSize) =? stored.(pr_size))) diverged;
     Ok verified, w));
  _ ← wrapping "daemon capture catalog" (store_call (λ _ s, CatalogArtifact s verified));
  handle ← newCandidateHandle;
  mret {| ca_handle := handle; ca_digest := stored.(pr_digest); ca_byteSize := stored.(pr_size) |}.

(** Of an error with category [agency.ErrLimit] only the category is observed. *)
Definition service_readArtifact (proof : AttachmentProof) (current : CurrentOperation) (handle : OpaqueHandle)
    : io W (string * Digest) :=
  _ ← service_available;
  '(digest, byteSize) ← wrapping "daemon read Artifact authority"
     (store_call (λ w s, (ResolveCurrentArtifact s (env.(se_now) w) proof current handle, s)));
  _ ← guard (MaxAgentArtifactReadBytes <? byteSize) (limit "Agent Artifact read" byteSize MaxAgentArtifactReadBytes);
  content ← wrapping "daemon read Artifact bytes" (Read env.(se_cas) artifacts digest byteSize);
  _ ← guard (negb (slen content =? byteSize) || negb (bool_decide (Sum content = digest)))
        (Errorf "daemon read Artifact: verified CAS digest diverged");
  _ ← wrapping "daemon read Artifact projection" (lift (ValidateAgentArtifactText content));
  mret (content, digest).

Definition localService : LocalService W := {|
  ls_attach := service_attach; ls_endAttachment := service_endAttachment; ls_current := service_current;
  ls_submit := service_submit; ls_capture := service_capture; ls_readArtifact := service_readArtifact;
  ls_available := service_available |}.
End service.
