(* ===== verification/ServiceProof.v ===== *)
(** The local service keeps what the control protocol asks of it. *)

From Stdlib Require Import Lia.
From S2P Require Import Prelude Io Utf8 Json Wire Sha256 Time Value Intent Bound Event View AgentView Base64.
From S2P Require Import Cas Bind StoreTime Store Attach Domain Admission Current ArtifactText Compact Journal Terminal JournalCalm.
From S2P Require Import ControlWire Control ControlClient ControlProof Service.

#[local] Open Scope Z_scope.

(** ** Times the Store reads are of four-digit years *)

Lemma read_digits_bound k acc s v rest :
  read_digits k acc s = Some (v, rest) → 0 <= acc → 0 <= v < (acc + 1) * 10 ^ Z.of_nat k.
Proof.
  revert acc s. induction k as [|k IH]; intros acc s; cbn [read_digits]; [intros [= <- _]; lia|].
  destruct s as [|c s]; [done|]. destruct (is_digit c) eqn:Hc; [|done]. intros H Ha.
  assert (0 <= Z.of_N (N_of_byte c) - 48 < 10) as Hd by (apply is_digit_inv in Hc; by destruct_or! Hc; subst).
  apply IH in H; [|lia]. rewrite Nat2Z.inj_succ, Z.pow_succ_r by lia. pose proof (Z.pow_pos_nonneg 10 (Z.of_nat k)). nia.
Qed.

Lemma parse_layout_range s t : parse_layout s = Some t → four_digit_year t.
Proof.
  with_strategy transparent [parse_layout] unfold parse_layout. intros H.
  repeat match type of H with
  | (_ ≫= _) = Some _ => apply bind_Some in H as ([? ?] & ?%read_digits_bound & H); [|lia]
  | (_ ≫= _) = Some _ => apply bind_Some in H as (? & _ & H)
  end.
  match type of H with (if ?c then _ else _) = _ => destruct c eqn:Hc; [|done] end.
  rewrite !andb_true_iff, !Z.leb_le, !Z.ltb_lt in Hc. apply (inj Some) in H as <-. change (Z.of_nat 4) with 4 in *.
  change (Z.of_nat 2) with 2 in *. change (Z.of_nat 9) with 9 in *.
  destruct_and! Hc. unfold four_digit_year.
  match goal with |- context [days_from_civil ?y ?m ?d] =>
    assert (days_from_civil (-1) 12 31 < days_from_civil y m d < days_from_civil 10000 1 1) as Hdays
      by (split; apply days_from_civil_lt; try lia; done) end.
  change (days_from_civil (-1) 12 31) with (-719529) in Hdays. change (days_from_civil 10000 1 1) with 2932897 in Hdays.
  unfold ns_per_day, ns_per_second. lia.
Qed.

Lemma parseTime_four_digit s t : parseTime s = Ok t → four_digit_year t.
Proof.
  with_strategy transparent [parseTime] unfold parseTime. intros H.
  apply bind_Ok in H as (p & Hp%of_option_Ok & H). apply bind_Ok in H as ([] & _ & H).
  apply (inj Ok) in H as <-. by eapply parse_layout_range.
Qed.

(** ** What each operation returns *)

Section sound.
Context {W : Type} (env : ServiceEnv W) (principal : AgentPrincipalID) (artifacts : CasStore).

Lemma wrapping_Ok {A} context (m : io W A) x w w' : wrapping context m w = (Ok x, w') → m w = (Ok x, w').
Proof. unfold wrapping. destruct (m w) as [[y|e] w'']; cbn [wrap_error]; congruence. Qed.

Lemma lift_Ok {A} (r : result A) x (w w' : W) : lift r w = (Ok x, w') → r = Ok x ∧ w' = w.
Proof. unfold lift. intros [= -> ->]. done. Qed.

Lemma guard_Ok c e x (w w' : W) : guard c e w = (Ok x, w') → c = false ∧ w' = w.
Proof. unfold guard. intros [H%fail_if_Ok ->]%lift_Ok. done. Qed.

Lemma store_call_Ok {A} (f : W → Store → result A * Store) x w w' :
  store_call env f w = (Ok x, w') → ∃ w0 s', f w0 (env.(se_store) w0) = (Ok x, s') .
Proof.
  unfold store_call. destruct (f _ _) as [r s'] eqn:E. intros [= -> _]. exists (env.(se_others) w), s'. done.
Qed.

Lemma transact_result {A} s (body : db → result (A * db)) x s' :
  transact s body = (Ok x, s') → ∃ d', body s.(st_db) = Ok (x, d').
Proof.
  unfold transact. destruct (requireOpen s); [|done]. destruct (body (st_db s)) as [[y d']|]; [|done].
  intros [= -> _]. by exists d'.
Qed.

Lemma guarded_result {A B} s (g : result A) (k : A → result B * Store) x s' :
  guarded s g k = (Ok x, s') → ∃ a, g = Ok a ∧ k a = (Ok x, s').
Proof. unfold guarded. destruct g as [a|]; [|done]. by exists a. Qed.

(** An issued proof: a derived identifier and credential, and a time the Store wrote. *)
Lemma IssueInteractiveAttachment_proof s now p b proof s' :
  four_digit_year (now + interactiveAttachmentLifetime) →
  IssueInteractiveAttachment s now p b = (Ok proof, s') →
  handle_ok proof.(ap_id) = true ∧ slen proof.(ap_credential) = attachmentCredentialBytes ∧ four_digit_year proof.(ap_expiresAt).
Proof.
  intros Hnow (material & Hm & (d' & H)%transact_result)%guarded_result. apply bind_Ok in Hm as ([] & _ & Hm).
  assert (handle_ok material.(am_attachment) = true) as Hid.
  { unfold deriveAttachmentBegin in Hm. apply bind_Ok in Hm as (o & _ & Hm). apply bind_Ok in Hm as (id & Hi%wrap_error_Ok & Hm).
    apply newIdentifier_Ok in Hi as [-> Hi]. by apply (inj Ok) in Hm as <-. }
  assert (∀ t p0, (proof ← NewAttachmentProof material.(am_attachment) material.(am_credential); Ok (with_expiry proof t)) = Ok p0 →
    p0.(ap_id) = material.(am_attachment) ∧ slen p0.(ap_credential) = attachmentCredentialBytes ∧ p0.(ap_expiresAt) = t) as Hp.
  { intros t p0 Hb. apply bind_Ok in Hb as (q & Hq & Hb). apply (inj Ok) in Hb as <-. unfold NewAttachmentProof in Hq.
    apply bind_Ok in Hq as ([] & [_ Hl%negb_false_iff%Z.eqb_eq]%fail_if_Ok%orb_false_iff & Hq). by apply (inj Ok) in Hq as <-. }
  unfold issueAttachmentTx in H. apply bind_Ok in H as ([replay|] & Hr & H).
  - apply (inj Ok) in H. injection H as -> <-. unfold replayAttachmentBeginTx in Hr. destruct (query_row _ _) as [[a row]|]; [|done].
    do 3 apply bind_Ok in Hr as ([] & _ & Hr). apply bind_Ok in Hr as (i & _ & Hr).
    apply bind_Ok in Hr as (t & Ht%or_error_Ok%parseTime_four_digit & Hr). apply bind_Ok in Hr as ([] & _ & Hr).
    destruct (Hp t proof) as (-> & -> & ->); [|done]. apply bind_Ok in Hr as (q & Hq & Hr). rewrite Hq. cbn [mbind result_bind].
    by apply (inj Ok), (inj Some) in Hr as <-.
  - apply bind_Ok in H as ([] & _ & H). apply bind_Ok in H as (n & Hn & H). apply bind_Ok in Hn as ([] & _ & Hn).
    apply (inj Ok) in Hn as <-. apply bind_Ok in H as (d1 & _ & H). unfold insertAttachmentBeginTx in H.
    apply bind_Ok in H as (d2 & _ & H). apply bind_Ok in H as (q & Hq & H). apply (inj Ok) in H. injection H as <- <-.
    destruct (Hp (now + interactiveAttachmentLifetime) (with_expiry q (now + interactiveAttachmentLifetime))) as (-> & -> & ->);
      [by rewrite Hq|done].
Qed.

Lemma NewAgentView_text spec view :
  NewAgentView spec = Ok view → projection_shape view.(av_canonical) = true ∧ slen view.(av_canonical) <= MaxAgentViewCanonicalBytes.
Proof.
  unfold NewAgentView. cbv zeta. intros H. apply bind_Ok in H as ([] & _ & H).
  apply bind_Ok in H as ([? ?] & _ & H). apply bind_Ok in H as ([? ?] & _ & H). apply bind_Ok in H as ([? ?] & _ & H).
  do 2 apply bind_Ok in H as ([] & _ & H). apply bind_Ok in H as ([canonical ?] & Hc & H).
  apply bind_Ok in H as ([] & Hl%fail_if_Ok%Z.ltb_ge & H). apply (inj Ok) in H as <-. cbn [av_canonical].
  split; [|done]. unfold canonicalJSON in Hc. apply (inj Ok) in Hc. injection Hc as <- _. apply projection_shape_struct.
Qed.

Lemma replayed_view_text d a o view :
  currentReplayTx d a o = Ok (Some view) →
  projection_shape view.(bv_public).(av_canonical) = true ∧ slen view.(bv_public).(av_canonical) <= MaxAgentViewCanonicalBytes.
Proof.
  unfold currentReplayTx. destruct (current_operations d !! _) as [row|]; [|done]. intros H.
  apply bind_Ok in H as ([] & _ & H). apply bind_Ok in H as (v & Hv & H). apply (inj Ok), (inj Some) in H as <-.
  unfold reconstructCurrentView in Hv. apply bind_Ok in Hv as (? & _ & Hv). apply bind_Ok in Hv as (? & _ & Hv).
  apply bind_Ok in Hv as ([] & _ & Hv). apply bind_Ok in Hv as (? & _ & Hv). apply bind_Ok in Hv as ([] & _ & Hv).
  apply bind_Ok in Hv as (? & _ & Hv). apply bind_Ok in Hv as ([] & _ & Hv).
  apply bind_Ok in Hv as (p & Hp%or_error_Ok & Hv). apply bind_Ok in Hv as ([] & _ & Hv). apply (inj Ok) in Hv as <-.
  cbn [bv_public]. unfold ParseAgentViewCanonicalJSON in Hp. apply bind_Ok in Hp as (? & _ & Hp). apply bind_Ok in Hp as ([] & _ & Hp).
  apply bind_Ok in Hp as (? & _ & Hp). apply bind_Ok in Hp as (? & _ & Hp). apply bind_Ok in Hp as ([? ?] & _ & Hp).
  apply bind_Ok in Hp as (? & _ & Hp). apply bind_Ok in Hp as ([] & _ & Hp). apply bind_Ok in Hp as (q & Hq & Hp).
  apply bind_Ok in Hp as ([] & _ & Hp). apply (inj Ok) in Hp as <-. by eapply NewAgentView_text.
Qed.

Lemma Current_text s now p o view s' :
  Current s now p o = (Ok view, s') →
  projection_shape view.(bv_public).(av_canonical) = true ∧ slen view.(bv_public).(av_canonical) <= MaxAgentViewCanonicalBytes.
Proof.
  intros (n & _ & (d' & H)%transact_result)%guarded_result. unfold currentTx in H. apply bind_Ok in H as (a & _ & H).
  apply bind_Ok in H as ([v|] & Hr & H); [apply (inj Ok) in H; injection H as -> _; by eapply replayed_view_text|].
  apply bind_Ok in H as ([] & _ & H). apply bind_Ok in H as (d1 & _ & H). apply bind_Ok in H as ([c d2] & _ & H).
  apply bind_Ok in H as (v & Hv & H). apply bind_Ok in H as (d3 & _ & H). apply (inj Ok) in H. injection H as -> _.
  unfold projectBoundViewTx in Hv. apply bind_Ok in Hv as (? & _ & Hv). apply bind_Ok in Hv as (? & _ & Hv).
  apply bind_Ok in Hv as ([? ?] & _ & Hv). apply bind_Ok in Hv as (? & _ & Hv). apply bind_Ok in Hv as (? & _ & Hv).
  apply bind_Ok in Hv as (q & Hq & Hv). apply (inj Ok) in Hv as <-. by eapply NewAgentView_text.
Qed.

Lemma ProjectAgentReceipt_text r replayed p :
  ProjectAgentReceipt r replayed = Ok p →
  projection_shape p.(agr_canonical) = true ∧ slen p.(agr_canonical) <= MaxAgentReceiptCanonicalBytes.
Proof.
  unfold ProjectAgentReceipt. intros H. apply bind_Ok in H as (? & _ & H). apply bind_Ok in H as ([] & _ & H).
  apply bind_Ok in H as ([canonical ?] & Hc & H). apply bind_Ok in H as ([] & Hl%fail_if_Ok%Z.ltb_ge & H).
  apply (inj Ok) in H as <-. split; [|done]. apply (inj Ok) in Hc. injection Hc as <- _. apply projection_shape_struct.
Qed.

Lemma service_submit_text p c o i bs w r w' :
  service_submit env principal p c o i bs w = (Ok r, w') →
  projection_shape r.(agr_canonical) = true ∧ slen r.(agr_canonical) <= MaxAgentReceiptCanonicalBytes.
Proof.
  unfold service_submit. intros H. do 7 apply io_bind_Ok in H as (? & ? & _ & H).
  apply wrapping_Ok, lift_Ok in H as [H _]. by eapply ProjectAgentReceipt_text.
Qed.

Lemma service_capture_facts content w c w' :
  service_capture env principal artifacts content w = (Ok c, w') →
  handle_ok c.(ca_handle) = true ∧ c.(ca_digest) = Sum content ∧ c.(ca_byteSize) = slen content ∧ c.(ca_digest) ≠ zero_digest.
Proof.
  unfold service_capture. intros H. do 2 apply io_bind_Ok in H as (? & ? & _ & H).
  apply io_bind_Ok in H as (stored & w1 & _ & H). apply io_bind_Ok in H as (verified & w2 & Hv & H).
  unfold run in Hv. injection Hv as Hv <-. apply bind_Ok in Hv as (v & Hverify%or_error_Ok & Hv).
  apply bind_Ok in Hv as ([] & [Hd%negb_false_iff%bool_decide_eq_true Hs%negb_false_iff%Z.eqb_eq]%fail_if_Ok%orb_false_iff & Hv).
  apply (inj Ok) in Hv as <-. unfold VerifyArtifact in Hverify. do 2 apply bind_Ok in Hverify as ([] & _ & Hverify).
  apply (inj Ok) in Hverify as <-. cbn [vf_digest vf_byteSize] in *.
  apply io_bind_Ok in H as (u & w3 & Hc & H). apply wrapping_Ok, store_call_Ok in Hc as (w0 & s' & Hc).
  apply guarded_result in Hc as ([] & Hz%fail_if_Ok & _). cbn [vf_digest] in Hz.
  apply orb_false_iff in Hz as [[[Hz _]%orb_false_iff _]%orb_false_iff _].
  apply io_bind_Ok in H as (h & w4 & Hh & H). injection H as <- _. cbn [ca_handle ca_digest ca_byteSize].
  unfold newCandidateHandle in Hh. apply io_bind_Ok in Hh as (e & w5 & _ & Hh). apply wrapping_Ok, lift_Ok in Hh as [Hh _].
  apply NewOpaqueHandle_Ok in Hh as [-> Hh]. rewrite <- Hd, <- Hs. split_and!; [done|done|done|].
  by apply bool_decide_eq_false in Hz.
Qed.

Lemma service_read_facts p o h w content d w' :
  service_readArtifact env principal artifacts p o h w = (Ok (content, d), w') →
  d = Sum content ∧ d ≠ zero_digest ∧ ValidateAgentArtifactText content = Ok ().
Proof.
  unfold service_readArtifact. intros H. apply io_bind_Ok in H as (? & ? & _ & H).
  apply io_bind_Ok in H as ([digest size] & w1 & _ & H). apply io_bind_Ok in H as (? & w2 & _ & H).
  apply io_bind_Ok in H as (c & w3 & Hread & H). apply io_bind_Ok in H as (? & w4 & [Hg _]%guard_Ok & H).
  apply orb_false_iff in Hg as [_ Hd%negb_false_iff%bool_decide_eq_true].
  apply io_bind_Ok in H as ([] & w5 & Hv & H). apply wrapping_Ok, lift_Ok in Hv as [Hv _]. injection H as <- <- _.
  split_and!; [done| |done]. apply wrapping_Ok in Hread. unfold Read in Hread.
  apply io_bind_Ok in Hread as (? & w6 & [Hz _]%guard_Ok & _). apply orb_false_iff in Hz as [[Hz _]%orb_false_iff _].
  by apply bool_decide_eq_false in Hz.
Qed.

(** The clock reads instants whose attachments expire before the year 10000. *)
Lemma localService_sound :
  (∀ w, four_digit_year (env.(se_now) w + interactiveAttachmentLifetime)) → SoundService (localService env principal artifacts).
Proof.
  intros Hclock. split; cbn [localService ls_attach ls_current ls_submit ls_capture ls_readArtifact].
  - intros b w a w' H. unfold service_attach in H. apply io_bind_Ok in H as (? & ? & _ & H).
    apply io_bind_Ok in H as (proof & w1 & Hp & H). injection H as <- _. cbn [sa_id sa_credential sa_expiresAt].
    apply wrapping_Ok, store_call_Ok in Hp as (w0 & s' & Hp). by eapply IssueInteractiveAttachment_proof.
  - intros p o w v w' H. unfold service_current in H. apply io_bind_Ok in H as (? & ? & _ & H).
    apply io_bind_Ok in H as (view & w1 & Hp & H). injection H as <- _.
    apply wrapping_Ok, store_call_Ok in Hp as (w0 & s' & Hp). by eapply Current_text.
  - intros *. apply service_submit_text.
  - intros *. apply service_capture_facts.
  - intros *. apply service_read_facts.
Qed.
End sound.
