(* ===== verification/History.v ===== *)
(** What every operation of the Store leaves in place: Events, operations, Views,
    dispositions and Reference lineage are only appended; Attachments, routes,
    Handlings, outbox and inbox rows only move forward through their lifecycles. *)

From Stdlib Require Import Lia.
From S2P Require Import Prelude Utf8 Json Wire Sha256 Time StoreTime Value Intent Bound Event Peer.
From S2P Require Import View AgentView Bind Store EventStore Attach Routes Inbox Outbox.
From S2P Require Import Domain Admission PeerAdmission Current.

#[local] Open Scope Z_scope.

(** ** Rows move forward *)

Definition attachment_progress (r r' : attachment_row) : Prop :=
  r' = r ∨ (r.(atr_ended_at) = None ∧ ∃ t, r' = with_end r t).

Definition route_progress (r r' : route_row) : Prop :=
  r' = r ∨ (r.(rr_state) = RouteActive ∧ ∃ t, r' = revoke_row r t).

(** A Handling keeps its Principal and creation, its fence never decreases, and
    a terminal one never changes again. *)
Record handling_progress (r r' : handling_row) : Prop := {
  hp_target : r'.(hr_target) = r.(hr_target);
  hp_created : r'.(hr_created) = r.(hr_created);
  hp_fence : r.(hr_fence) <= r'.(hr_fence);
  hp_terminal : r.(hr_state) = HandlingTerminal → r' = r;
}.

Definition outbox_progress (r r' : outbox_row) : Prop :=
  r' = r ∨ (r.(or_state) = OutboxPending ∧
            ((∃ t, r' = expire_outbox t r) ∨ ∃ receipt sig now, r' = settle_outbox r receipt sig now)).

Definition inbox_progress (r r' : inbox_row) : Prop :=
  r' = r ∨ (r.(ir_state) = InboxStaged ∧
            ((∃ now, r' = expire_row r now) ∨ ∃ event receipt now, r' = settle_row r event receipt now)).

#[export] Instance attachment_progress_preorder : PreOrder attachment_progress.
Proof.
  split; [by left|]. intros x y z [->|[Hx [t ->]]]; [done|].
  intros [->|[Hy _]]; [right; eauto|]. done.
Qed.

#[export] Instance route_progress_preorder : PreOrder route_progress.
Proof.
  split; [by left|]. intros x y z [->|[Hx [t ->]]]; [done|].
  intros [->|[Hy _]]; [right; eauto|]. done.
Qed.

#[export] Instance handling_progress_preorder : PreOrder handling_progress.
Proof.
  split.
  - intros x. by split.
  - intros x y z [H1 H2 H3 H4] [K1 K2 K3 K4]. split; [congruence|congruence|lia|].
    intros Hx. specialize (H4 Hx) as ->. auto.
Qed.

#[export] Instance outbox_progress_preorder : PreOrder outbox_progress.
Proof.
  split; [by left|]. intros x y z [->|[Hx Hy]]; [done|].
  intros [->|[Hp _]]; [by right|]. destruct Hy as [[t ->]|(?&?&?&->)]; done.
Qed.

#[export] Instance inbox_progress_preorder : PreOrder inbox_progress.
Proof.
  split; [by left|]. intros x y z [->|[Hx Hy]]; [done|].
  intros [->|[Hp _]]; [by right|]. destruct Hy as [[t ->]|(?&?&?&->)]; done.
Qed.

(** ** Tables move forward *)

Section progress.
Context {K V : Type} `{Countable K} (R : relation V).

(** Every row is still there, moved forward. *)
Definition table_progress (m m' : gmap K V) : Prop :=
  ∀ k r, m !! k = Some r → ∃ r', m' !! k = Some r' ∧ R r r'.

#[export] Instance table_progress_preorder `{!PreOrder R} : PreOrder table_progress.
Proof.
  split; [intros m k r Hr; by exists r|]. intros m1 m2 m3 H1 H2 k r (r' & Hr' & HR)%H1.
  apply H2 in Hr' as (r'' & Hr'' & HR'). exists r''. split; [done|]. by etrans.
Qed.

Lemma table_progress_insert `{!PreOrder R} m k r :
  (∀ old, m !! k = Some old → R old r) → table_progress m (<[k := r]> m).
Proof.
  intros Hk j s Hj. destruct (decide (j = k)) as [->|Hne].
  - exists r. by rewrite lookup_insert_eq; auto.
  - exists s. by rewrite lookup_insert_ne.
Qed.

Lemma table_progress_new `{!PreOrder R} m k r : references m k = false → table_progress m (<[k := r]> m).
Proof.
  intros Hk. apply table_progress_insert. intros old Hold. unfold references in Hk.
  by rewrite Hold in Hk.
Qed.

Lemma table_progress_fmap m (f : V → V) : (∀ r, R r (f r)) → table_progress m (f <$> m).
Proof. intros Hf k r Hr. exists (f r). by rewrite lookup_fmap, Hr. Qed.

Lemma table_progress_alter `{!PreOrder R} m (f : V → V) k :
  (∀ r, R r (f r)) → table_progress m (alter f k m).
Proof.
  intros Hf j r Hr. destruct (decide (j = k)) as [->|Hne].
  - exists (f r). by rewrite lookup_alter_eq, Hr.
  - exists r. by rewrite lookup_alter_ne.
Qed.
End progress.

(** ** The database moves forward *)

Record extends (d d' : db) : Prop := {
  ex_sequence : d.(origin_sequence) <= d'.(origin_sequence);
  ex_principals : table_progress eq d.(principals) d'.(principals);
  ex_attachments : table_progress attachment_progress d.(attachments) d'.(attachments);
  ex_artifacts : table_progress eq d.(verified_artifacts) d'.(verified_artifacts);
  ex_events : table_progress eq d.(events) d'.(events);
  ex_routes : table_progress route_progress d.(peer_routes) d'.(peer_routes);
  ex_outbox : table_progress outbox_progress d.(peer_outbox) d'.(peer_outbox);
  ex_inbox : table_progress inbox_progress d.(peer_inbox) d'.(peer_inbox);
  ex_pins : d.(event_artifacts) ⊆ d'.(event_artifacts);
  ex_pins_frozen : ∀ id s, is_Some (d.(events) !! id) →
    (id, s) ∈ d'.(event_artifacts) → (id, s) ∈ d.(event_artifacts);
  ex_operations : table_progress eq d.(operations) d'.(operations);
  ex_currents : table_progress eq d.(current_operations) d'.(current_operations);
  ex_handlings : table_progress handling_progress d.(handlings) d'.(handlings);
  ex_dispositions : table_progress eq d.(claim_dispositions) d'.(claim_dispositions);
  ex_references : table_progress (λ _ _, True) d.(active_references) d'.(active_references);
  ex_lineage : table_progress eq d.(reference_lineage) d'.(reference_lineage);
}.

#[export] Instance any_preorder {A} : PreOrder (λ _ _ : A, True).
Proof. split; by repeat intros ?. Qed.

#[export] Instance extends_preorder : PreOrder extends.
Proof.
  split.
  - intros d. split; try done; reflexivity.
  - intros d1 d2 d3 H1 H2. split; try (etrans; [apply H1|apply H2]).
    intros id s Hid Hin. apply H1; [done|]. apply H2; [|done].
    destruct Hid as [r Hr]. apply (ex_events _ _ H1) in Hr as (r' & Hr' & _). eauto.
Qed.

(** A table replaced by one that moved forward; the others are untouched. *)
Ltac solve_extends :=
  split; db_simpl; try reflexivity; try lia; try assumption; try done.

Lemma extends_principals d t : table_progress eq d.(principals) t → extends d (set_principals t d).
Proof. intros H. solve_extends. Qed.
Lemma extends_attachments d t :
  table_progress attachment_progress d.(attachments) t → extends d (set_attachments t d).
Proof. intros H. solve_extends. Qed.
Lemma extends_artifacts d t :
  table_progress eq d.(verified_artifacts) t → extends d (set_verified_artifacts t d).
Proof. intros H. solve_extends. Qed.
Lemma extends_events d t : table_progress eq d.(events) t → extends d (set_events t d).
Proof. intros H. solve_extends. Qed.
Lemma extends_routes d t : table_progress route_progress d.(peer_routes) t → extends d (set_peer_routes t d).
Proof. intros H. solve_extends. Qed.
Lemma extends_outbox d t : table_progress outbox_progress d.(peer_outbox) t → extends d (set_peer_outbox t d).
Proof. intros H. solve_extends. Qed.
Lemma extends_inbox d t : table_progress inbox_progress d.(peer_inbox) t → extends d (set_peer_inbox t d).
Proof. intros H. solve_extends. Qed.
Lemma extends_operations d t : table_progress eq d.(operations) t → extends d (set_operations t d).
Proof. intros H. solve_extends. Qed.
Lemma extends_currents d t :
  table_progress eq d.(current_operations) t → extends d (set_current_operations t d).
Proof. intros H. solve_extends. Qed.
Lemma extends_handlings d t :
  table_progress handling_progress d.(handlings) t → extends d (set_handlings t d).
Proof. intros H. solve_extends. Qed.
Lemma extends_dispositions d t :
  table_progress eq d.(claim_dispositions) t → extends d (set_claim_dispositions t d).
Proof. intros H. solve_extends. Qed.
Lemma extends_references d t :
  table_progress (λ _ _, True) d.(active_references) t → extends d (set_active_references t d).
Proof. intros H. solve_extends. Qed.
Lemma extends_lineage d t :
  table_progress eq d.(reference_lineage) t → extends d (set_reference_lineage t d).
Proof. intros H. solve_extends. Qed.
Lemma extends_sequence d n : d.(origin_sequence) <= n → extends d (set_origin_sequence n d).
Proof. intros H. solve_extends. Qed.

(** Inversion of a transaction body that returned: its steps, guards and
    branches become hypotheses. *)
Ltac inv_tx_step :=
  match goal with
  | H : constraint _ _ = Ok _ |- _ => apply constraint_Ok in H
  | H : context [match ?x with _ => _ end] |- _ =>
      lazymatch type of H with
      | _ = Ok _ => lazymatch x with context [match _ with _ => _ end] => fail | _ => idtac end;
          destruct x eqn:?
      end
  | _ => inv_res_step
  end.
Ltac inv_tx := repeat (inv_tx_step; cbv beta iota zeta in *; subst).

(** ** Writers *)

Lemma insert_principal_extends d p t d' : insert_principal d p t = Ok d' → extends d d'.
Proof.
  unfold insert_principal. intros H. inv_tx. apply extends_principals, table_progress_new; [apply _|done].
Qed.

Lemma catalogArtifactTx_extends a d u d' : catalogArtifactTx a d = Ok (u, d') → extends d d'.
Proof.
  unfold catalogArtifactTx. intros H. inv_tx; [done|].
  apply extends_artifacts, table_progress_new; [apply _|]. unfold references. by rewrite Heqo.
Qed.

Lemma write_handling_extends d id row d' :
  write_handling d id row = Ok d' →
  (∀ old, d.(handlings) !! id = Some old → handling_progress old row) → extends d d'.
Proof.
  unfold write_handling. intros H Hp. inv_tx. by apply extends_handlings, table_progress_insert; [apply _|].
Qed.

Lemma insert_handling_extends d id row d' : insert_handling d id row = Ok d' → extends d d'.
Proof.
  unfold insert_handling. intros H. inv_tx. eapply write_handling_extends; [done|].
  intros old Hold. unfold references in *. by rewrite Hold in *.
Qed.

Lemma write_attachment_extends d id row d' :
  write_attachment d id row = Ok d' →
  (∀ old, d.(attachments) !! id = Some old → attachment_progress old row) → extends d d'.
Proof.
  unfold write_attachment. intros H Hp. inv_tx. by apply extends_attachments, table_progress_insert; [apply _|].
Qed.

Lemma write_route_extends d id row d' :
  write_route d id row = Ok d' →
  (∀ old, d.(peer_routes) !! id = Some old → route_progress old row) → extends d d'.
Proof.
  unfold write_route. intros H Hp. inv_tx. by apply extends_routes, table_progress_insert; [apply _|].
Qed.

Lemma write_outbox_extends d id row d' :
  write_outbox d id row = Ok d' →
  (∀ old, d.(peer_outbox) !! id = Some old → outbox_progress old row) → extends d d'.
Proof.
  unfold write_outbox. intros H Hp. inv_tx. by apply extends_outbox, table_progress_insert; [apply _|].
Qed.

Lemma write_inbox_extends d id row d' :
  write_inbox d id row = Ok d' →
  (∀ old, d.(peer_inbox) !! id = Some old → inbox_progress old row) → extends d d'.
Proof.
  unfold write_inbox. intros H Hp. inv_tx. by apply extends_inbox, table_progress_insert; [apply _|].
Qed.

Lemma insert_inbox_extends d id row d' : insert_inbox d id row = Ok d' → extends d d'.
Proof.
  unfold insert_inbox. intros H. inv_tx. eapply write_inbox_extends; [done|].
  intros old Hold. unfold references in *. by rewrite Hold in *.
Qed.

Lemma insert_disposition_extends d key row d' : insert_disposition d key row = Ok d' → extends d d'.
Proof.
  unfold insert_disposition. intros H. inv_tx. by apply extends_dispositions, table_progress_new; [apply _|].
Qed.

Lemma insert_lineage_extends d id row d' : insert_lineage d id row = Ok d' → extends d d'.
Proof.
  unfold insert_lineage. intros H. inv_tx. by apply extends_lineage, table_progress_new; [apply _|].
Qed.

Lemma write_reference_extends d key row d' : write_reference d key row = Ok d' → extends d d'.
Proof.
  unfold write_reference. intros H. inv_tx. by apply extends_references, table_progress_insert; [apply _|].
Qed.

Lemma insertEventTx_extends d e d' : insertEventTx d e = Ok d' → extends d d'.
Proof.
  intros (pins & -> & Hp & Hfresh & _)%insertEventTx_Ok. split; db_simpl; try reflexivity; try lia; try done.
  - apply table_progress_insert; [apply _|]. congruence.
  - intros p Hin. apply Hp. by right.
  - intros id s [r Hr] Hin. apply Hp in Hin as [Hin|]; [|done].
    apply list_elem_of_fmap in Hin as (x & [= -> _] & _). congruence.
Qed.

Lemma insertOperationTx_extends d p r e d' : insertOperationTx d p r e = Ok d' → extends d d'.
Proof.
  unfold insertOperationTx. intros H. inv_tx; by apply extends_operations, table_progress_new; [apply _|].
Qed.

(** ** Claims and boundaries *)

Lemma exact_claim_Some d claim row :
  exact_claim d claim = Some row →
  d.(handlings) !! claim.(ec_handling) = Some row ∧ row.(hr_state) = HandlingOpen ∧
  row.(hr_claim) = Some claim.(ec_attachment) ∧ row.(hr_fence) = claim.(ec_fence) ∧
  row.(hr_until) = Some (formatTime claim.(ec_claimUntil)).
Proof.
  unfold exact_claim. destruct (handlings d !! ec_handling claim) as [r|] eqn:E; [|done].
  cbn [mbind option_bind]. destruct (_ && _) eqn:Hc; [|done]. intros [= <-].
  inv_res. split_and!; try done. lia.
Qed.

Lemma release_progress d claim row old :
  exact_claim d claim = Some row → d.(handlings) !! claim.(ec_handling) = Some old →
  handling_progress old (release_claim row).
Proof.
  intros (Hl & Ho & _)%exact_claim_Some Hold. simplify_eq.
  split; cbn [release_claim hr_target hr_created hr_fence hr_state]; [done|done|lia|congruence].
Qed.

Lemma settleClaimExpiryTx_extends now d claim d' : settleClaimExpiryTx now d claim = Ok d' → extends d d'.
Proof.
  unfold settleClaimExpiryTx. intros H. inv_tx; [done|].
  match goal with Hw : write_handling _ _ _ = Ok _ |- _ => apply write_handling_extends in Hw end.
  - etrans; [done|]. unfold insertClaimExpiryTx in *. inv_tx. by eapply insert_disposition_extends.
  - intros old Hold. by eapply release_progress.
Qed.

Lemma foldR_extends {A} (f : db → A → result db) xs d d' :
  (∀ d x d', f d x = Ok d' → extends d d') → foldR f d xs = Ok d' → extends d d'.
Proof.
  intros Hf. revert d. induction xs as [|x xs IH]; intros d H; cbn [foldR] in H.
  - by injection H as <-.
  - apply bind_Ok in H as (d1 & H1 & H). etrans; [by eapply Hf|]. by apply IH.
Qed.

Lemma settleExpiredClaimsTx_extends d p now limit d' :
  settleExpiredClaimsTx d p now limit = Ok d' → extends d d'.
Proof.
  unfold settleExpiredClaimsTx. intros H. inv_tx. eapply foldR_extends; [|done].
  intros; by eapply settleClaimExpiryTx_extends.
Qed.

Lemma settleClaimBoundaryEndTx_extends d now claim d' :
  settleClaimBoundaryEndTx d now claim = Ok d' → extends d d'.
Proof.
  unfold settleClaimBoundaryEndTx. intros H. inv_tx.
  match goal with Hw : write_handling _ _ _ = Ok _ |- _ => apply write_handling_extends in Hw end.
  - etrans; [done|]. by eapply insert_disposition_extends.
  - intros old Hold. by eapply release_progress.
Qed.

Lemma live_attachment_Some d id row :
  live_attachment d id = Some row → d.(attachments) !! id = Some row ∧ row.(atr_ended_at) = None.
Proof.
  unfold live_attachment. destruct (attachments d !! id) as [r|]; [|done].
  cbn [mbind option_bind]. destruct (atr_ended_at r) eqn:E; [done|]. by intros [= <-].
Qed.

Lemma endLiveAttachmentTx_extends d now id b d' :
  endLiveAttachmentTx d now id = Ok (b, d') → extends d d'.
Proof.
  unfold endLiveAttachmentTx. intros H.
  apply bind_Ok in H as (claim & _ & H). apply bind_Ok in H as (row & Hrow & H).
  apply bind_Ok in H as (d1 & Hw & H). apply of_option_Ok, live_attachment_Some in Hrow as [Hl He].
  apply wrap_error_Ok, write_attachment_extends in Hw; [|intros old Hold; simplify_eq; right; eauto].
  etrans; [done|]. inv_tx; [by eapply settleClaimBoundaryEndTx_extends|done].
Qed.

Lemma endAttachmentTx_extends now proof d r d' : endAttachmentTx now proof d = Ok (r, d') → extends d d'.
Proof.
  unfold endAttachmentTx. intros H. inv_tx; [done|]. by eapply endLiveAttachmentTx_extends.
Qed.

Lemma issueAttachmentTx_extends now p m d r d' : issueAttachmentTx now p m d = Ok (r, d') → extends d d'.
Proof.
  unfold issueAttachmentTx. intros H. inv_tx; [done|].
  match goal with Hr : replaceLiveAttachmentTx _ _ _ = Ok ?x |- _ => transitivity x end.
  - unfold replaceLiveAttachmentTx in *. inv_tx; [by eapply endLiveAttachmentTx_extends|done].
  - unfold insertAttachmentBeginTx in *. inv_tx. eapply write_attachment_extends; [done|].
    intros old Hold. unfold references in *. by rewrite Hold in *.
Qed.

(** ** Routes and Principals *)

Lemma enrollPeerRouteTx_extends now spec sur d r d' :
  enrollPeerRouteTx now spec sur d = Ok (r, d') → extends d d'.
Proof.
  unfold enrollPeerRouteTx. intros H. inv_tx; [done|].
  match goal with Hp : insert_principal _ _ _ = Ok ?x |- _ => apply insert_principal_extends in Hp end.
  etrans; [done|]. eapply write_route_extends; [done|].
  intros old Hold. unfold references in *. by rewrite Hold in *.
Qed.

Lemma expire_outbox_where_extends w t d : extends d (expire_outbox_where w t d).
Proof.
  apply extends_outbox, table_progress_fmap. intros r.
  destruct (bool_decide _) eqn:Hp; [|by left]. destruct (w r); [|by left]. inv_res. right. eauto.
Qed.

Lemma revokePeerRouteTx_extends now id d r d' :
  revokePeerRouteTx now id d = Ok (r, d') → extends d d'.
Proof.
  unfold revokePeerRouteTx. intros H. inv_tx; [done|].
  match goal with Hp : write_route _ _ _ = Ok ?x |- _ => apply write_route_extends in Hp end.
  - etrans; [done|]. apply expire_outbox_where_extends.
  - intros old Hold. simplify_eq. right. eauto.
Qed.

Lemma provisionInitialPrincipalTx_extends now p d b d' :
  provisionInitialPrincipalTx now p d = Ok (b, d') → extends d d'.
Proof.
  unfold provisionInitialPrincipalTx. intros H. inv_tx; [done|]. by eapply insert_principal_extends.
Qed.

(** ** Inbox *)

Lemma staged_inbox_Some d id row :
  staged_inbox d id = Some row →
  d.(peer_inbox) !! DeliveryID_String id = Some row ∧ row.(ir_state) = InboxStaged.
Proof.
  unfold staged_inbox. destruct (_ !! _) as [r|]; [|done]. cbn [mbind option_bind].
  destruct (bool_decide _) eqn:E; [|done]. intros [= <-]. by inv_res.
Qed.

Lemma expirePeerInboxTx_extends d x now r d' : expirePeerInboxTx d x now = Ok (r, d') → extends d d'.
Proof.
  unfold expirePeerInboxTx. intros H. inv_tx.
  match goal with Hs : staged_inbox _ _ = Some _ |- _ => apply staged_inbox_Some in Hs as [? ?] end.
  eapply write_inbox_extends; [done|]. intros old Hold. simplify_eq. right. eauto.
Qed.

Lemma settleRejectedPeerInboxTx_extends d x c g now r d' :
  settleRejectedPeerInboxTx d x c g now = Ok (r, d') → extends d d'.
Proof.
  unfold settleRejectedPeerInboxTx. intros H. inv_tx.
  match goal with Hs : staged_inbox _ _ = Some _ |- _ => apply staged_inbox_Some in Hs as [? ?] end.
  eapply write_inbox_extends; [done|]. intros old Hold. simplify_eq. right. split; [done|]. right. eauto.
Qed.

Lemma expire_inbox_due_progress now r : inbox_progress r (expire_inbox_due now r).
Proof.
  unfold expire_inbox_due. destruct (bool_decide _) eqn:Hp; [|by left].
  destruct (String.leb _ _); [|by left]. inv_res. right. eauto.
Qed.

Lemma expirePeerInboxRowsTx_extends d now : extends d (expirePeerInboxRowsTx d now).
Proof. apply extends_inbox, table_progress_fmap. apply expire_inbox_due_progress. Qed.

Lemma expirePeerInboxDeliveryTx_extends d id now : extends d (expirePeerInboxDeliveryTx d id now).
Proof. apply extends_inbox, table_progress_alter; [apply _|]. apply expire_inbox_due_progress. Qed.

Lemma stageFreshPeerDeliveryTx_extends d route x sig now r d' :
  stageFreshPeerDeliveryTx d route x sig now = Ok (r, d') → extends d d'.
Proof.
  unfold stageFreshPeerDeliveryTx, insertRejectedPeerInboxTx, insertExpiredPeerInboxTx. intros H.
  inv_tx; (etrans; [apply (expirePeerInboxRowsTx_extends _ now)|by eapply insert_inbox_extends]).
Qed.

Lemma stagePeerDeliveryTx_extends verify peer c sig now d r d' :
  stagePeerDeliveryTx verify peer c sig now d = Ok (r, d') → extends d d'.
Proof.
  unfold stagePeerDeliveryTx, replayPeerInboxTx. intros H.
  inv_tx; [by eapply expirePeerInboxTx_extends|done|by eapply stageFreshPeerDeliveryTx_extends].
Qed.

(** ** Outbox *)

Lemma insertPeerDeliveriesTx_extends d e ids now d' :
  insertPeerDeliveriesTx d e ids now = Ok d' → extends d d'.
Proof.
  unfold insertPeerDeliveriesTx. intros H. inv_tx. eapply foldR_extends; [|done].
  clear. intros d t d' H. unfold insert_delivery in H. inv_tx. eapply write_outbox_extends; [done|].
  intros old Hold. unfold references in *. by rewrite Hold in *.
Qed.

Lemma settlePeerDeliveryTx_extends verify peer id c sig now d r d' :
  settlePeerDeliveryTx verify peer id c sig now d = Ok (r, d') → extends d d'.
Proof.
  unfold settlePeerDeliveryTx, outboxSettlementAuthorityTx, validateFreshPeerSettlement. intros H.
  inv_tx; [done|]. eapply write_outbox_extends; [done|]. intros old Hold. simplify_eq.
  right. split; [done|]. right. eauto.
Qed.

(** ** Admission *)

Lemma create_successors_extends e d ts ids d' : create_successors e d ts ids = Ok d' → extends d d'.
Proof.
  revert d ids. induction ts as [|t ts IH]; intros d ids H; cbn [create_successors] in H.
  - by injection H as <-.
  - inv_tx; [by eapply IH|]. etrans; [by eapply insert_handling_extends|by eapply IH].
Qed.

Lemma createSuccessorHandlingsTx_extends d e ids d' :
  createSuccessorHandlingsTx d e ids = Ok d' → extends d d'.
Proof. unfold createSuccessorHandlingsTx. intros H. inv_tx. by eapply create_successors_extends. Qed.

Lemma claimed_subject_Some d subject a row :
  claimed_subject d subject a = Some row →
  d.(handlings) !! subject.(sb_handlingID) = Some row ∧ row.(hr_state) = HandlingOpen ∧
  row.(hr_head) = subject.(sb_head).(er_id) ∧ row.(hr_claim) = Some a ∧
  row.(hr_fence) = subject.(sb_fence).
Proof.
  unfold claimed_subject. destruct (_ !! _) as [r|] eqn:E; [|done].
  cbn [mbind option_bind]. destruct (_ && _) eqn:Hc; [|done]. intros [= <-].
  inv_res. split_and!; try done. lia.
Qed.

Lemma settleSubjectTx_extends d e a st o d' : settleSubjectTx d e a st o = Ok d' → extends d d'.
Proof.
  unfold settleSubjectTx. intros H. inv_tx.
  match goal with Hs : claimed_subject _ _ _ = Some _ |- _ =>
    apply claimed_subject_Some in Hs as (? & ? & ? & ? & ?) end.
  eapply write_handling_extends; [done|]. intros old Hold. simplify_eq.
  split; cbn [settled_handling hr_target hr_created hr_fence hr_state]; [done|done|lia|congruence].
Qed.

Lemma publishReferenceTx_extends d e d' : publishReferenceTx d e = Ok d' → extends d d'.
Proof.
  unfold publishReferenceTx. intros H. inv_tx.
  etrans; [by eapply insert_lineage_extends|by eapply write_reference_extends].
Qed.

Lemma supersedeReferenceTx_extends d e d' : supersedeReferenceTx d e = Ok d' → extends d d'.
Proof.
  unfold supersedeReferenceTx. intros H. inv_tx.
  etrans; [by eapply insert_lineage_extends|by eapply write_reference_extends].
Qed.

Lemma retractReferenceTx_extends d e d' : retractReferenceTx d e = Ok d' → extends d d'.
Proof.
  unfold retractReferenceTx. intros H. inv_tx.
  etrans; [by eapply insert_lineage_extends|by eapply write_reference_extends].
Qed.

Lemma settle_then_create_extends d e a st o ids d' :
  (d ← settleSubjectTx d e a st o; createSuccessorHandlingsTx d e ids) = Ok d' → extends d d'.
Proof.
  intros H. apply bind_Ok in H as (d1 & H1 & H).
  etrans; [by eapply settleSubjectTx_extends|by eapply createSuccessorHandlingsTx_extends].
Qed.

Lemma applyDomainEffectTx_extends d e a ids d' : applyDomainEffectTx d e a ids = Ok d' → extends d d'.
Proof.
  unfold applyDomainEffectTx. cbv zeta. intros H.
  destruct (ev_consequence e); try done;
    try (by eapply settle_then_create_extends); try (by eapply createSuccessorHandlingsTx_extends).
  - by eapply publishReferenceTx_extends.
  - by eapply supersedeReferenceTx_extends.
  - by eapply retractReferenceTx_extends.
  - by inv_tx.
  - by inv_tx.
  - by inv_tx.
Qed.

Lemma nextOriginSequenceTx_Ok d n d' :
  nextOriginSequenceTx d = Ok (n, d') →
  n = d.(origin_sequence) + 1 ∧ d' = set_origin_sequence n d ∧ n <= max_int64.
Proof. unfold nextOriginSequenceTx. intros H. inv_tx. split_and!; [done|done|lia]. Qed.

Lemma newDomainEventTx_db d c id now e a d' :
  newDomainEventTx d c id now = Ok (e, a, d') →
  d' = set_origin_sequence (d.(origin_sequence) + 1) d.
Proof.
  unfold newDomainEventTx. intros H. apply bind_Ok in H as ([n d1] & H1 & H).
  apply nextOriginSequenceTx_Ok in H1 as (-> & -> & _). destruct c; inv_tx; done.
Qed.

Lemma commitDomainAdmissionTx_extends d c id ids now e d' :
  commitDomainAdmissionTx d c id ids now = Ok (e, d') → extends d d'.
Proof.
  unfold commitDomainAdmissionTx. intros H.
  apply bind_Ok in H as ([[e1 a] d1] & H1 & H). apply bind_Ok in H as (d2 & H2 & H).
  apply bind_Ok in H as (d3 & H3 & H). apply bind_Ok in H as (d4 & H4 & H). injection H as -> ->.
  apply newDomainEventTx_db in H1 as ->. etrans; [apply (extends_sequence d (origin_sequence d + 1)); lia|].
  etrans; [by eapply insertEventTx_extends|]. etrans; [by eapply applyDomainEffectTx_extends|].
  by eapply insertPeerDeliveriesTx_extends.
Qed.

Lemma commitAdmissionTx_extends now proof request fl id ids d r d' :
  commitAdmissionTx now proof request fl id ids d = Ok (r, d') → extends d d'.
Proof.
  unfold commitAdmissionTx, persistRejectionTx, commitAcceptedAdmissionTx. intros H.
  inv_tx; [done|by eapply insertOperationTx_extends|].
  etrans; [by eapply commitDomainAdmissionTx_extends|by eapply insertOperationTx_extends].
Qed.

Lemma prepareStagedTx_extends verify d id res checks now p d' :
  prepareStagedTx verify d id res checks now = Ok (p, d') → extends d d'.
Proof.
  unfold prepareStagedTx. cbv zeta. intros H.
  apply bind_Ok in H as (found & _ & H). apply bind_Ok in H as (route & _ & H).
  destruct (negb (pr_active route)).
  { apply bind_Ok in H as ([r d1] & H1 & H). injection H as <- <-.
    by eapply settleRejectedPeerInboxTx_extends. }
  destruct (negb (_ <? _)).
  { apply bind_Ok in H as ([r d1] & H1 & H). injection H as <- <-. by eapply expirePeerInboxTx_extends. }
  apply bind_Ok in H as ([latest|] & _ & H); [|by injection H as <- <-].
  apply bind_Ok in H as (verified & _ & H).
  destruct (RequiresTerminalReplyMatch _); [|by injection H as <- <-].
  apply bind_Ok in H as ([m|] & _ & H); [by injection H as <- <-|].
  apply bind_Ok in H as ([r d1] & H1 & H). injection H as <- <-.
  by eapply settleRejectedPeerInboxTx_extends.
Qed.

Lemma commitPeerAdmissionTx_extends verify id checks eid ids now d r d' :
  commitPeerAdmissionTx verify id checks eid ids now d = Ok (r, d') → extends d d'.
Proof.
  unfold commitPeerAdmissionTx. intros H. apply bind_Ok in H as ([p d1] & H1 & H).
  assert (extends d d1) as Hd.
  { clear H. unfold preparePeerAdmissionTx in H1. inv_tx; [done..|by eapply prepareStagedTx_extends]. }
  etrans; [done|]. destruct p as [res|prep]; [by injection H as -> ->|].
  unfold commitAcceptedPeerAdmissionTx in H. inv_tx.
  match goal with Hs : staged_inbox _ _ = Some _ |- _ => apply staged_inbox_Some in Hs as [? ?] end.
  etrans; [by eapply commitDomainAdmissionTx_extends|].
  eapply write_inbox_extends; [done|]. intros old Hold. simplify_eq. right. split; [done|]. right. eauto.
Qed.

Lemma preflightPeerAdmissionTx_extends id now d r d' :
  preflightPeerAdmissionTx id now d = Ok (r, d') → extends d d'.
Proof.
  unfold preflightPeerAdmissionTx. intros H. inv_tx; apply expirePeerInboxDeliveryTx_extends.
Qed.

(** ** Current *)

Lemma order_by_elem {A} (cmp : A → A → comparison) xs x : x ∈ order_by cmp xs ↔ x ∈ xs.
Proof. unfold order_by. by rewrite merge_sort_Permutation. Qed.

Lemma next_claimable_Some d p id row :
  next_claimable d p = Some (id, row) → d.(handlings) !! id = Some row ∧ claimable p id row = true.
Proof.
  unfold next_claimable. intros H%head_Some_elem_of.
  rewrite order_by_elem in H. by apply select_elem in H.
Qed.

Lemma claimNextTx_extends d a r d' : claimNextTx d a = (r, d') → extends d d'.
Proof.
  unfold claimNextTx. destruct (next_claimable _ _) as [[id row]|] eqn:E; [|by intros [= _ <-]].
  apply next_claimable_Some in E as [Hl Hc].
  destruct (wrap_error _ _) as [d1|e] eqn:Hw; intros [= _ <-]; [|done].
  apply wrap_error_Ok in Hw. eapply write_handling_extends; [done|].
  intros old Hold. simplify_eq. unfold claimable in Hc. inv_res.
  split; cbn [claim_row hr_target hr_created hr_fence hr_state]; [done|done|lia|congruence].
Qed.

Lemma acquireClaimTx_extends d a c d' : acquireClaimTx d a = Ok (c, d') → extends d d'.
Proof.
  unfold acquireClaimTx. destruct (existingClaimTx d a) as [claim|e].
  - by intros [= _ <-].
  - destruct (errors_is e sql_ErrNoRows); [|destruct (errors_is _ _); [by intros [= _ <-]|done]].
    destruct (claimNextTx d a) as [r d1] eqn:E. apply claimNextTx_extends in E.
    destruct r as [claim|e']; [by intros [= _ <-]|]. destruct (errors_is _ _); [by intros [= _ <-]|done].
Qed.

Lemma insertCurrentOperationTx_extends d a o v d' :
  insertCurrentOperationTx d a o v = Ok d' → extends d d'.
Proof.
  unfold insertCurrentOperationTx. intros H. inv_tx. by apply extends_currents, table_progress_new; [apply _|].
Qed.

Lemma currentTx_extends now proof o d v d' : currentTx now proof o d = Ok (v, d') → extends d d'.
Proof.
  unfold currentTx. cbv zeta. intros H. apply bind_Ok in H as (au & _ & H).
  apply bind_Ok in H as ([view|] & _ & H); [by injection H as -> ->|].
  apply bind_Ok in H as ([] & _ & H). apply bind_Ok in H as (d1 & H1 & H).
  apply bind_Ok in H as ([claim d2] & H2 & H). apply bind_Ok in H as (view & _ & H).
  apply bind_Ok in H as (d3 & H3 & H). injection H as -> ->.
  etrans; [by eapply settleExpiredClaimsTx_extends|].
  etrans; [by eapply acquireClaimTx_extends|by eapply insertCurrentOperationTx_extends].
Qed.

(** ** One call of a Store method *)

Section steps.
Context (ed25519_verify : string → string → string → bool).

(** The Store after one method call, whatever the call returned.  Reads change
    nothing; [Admit] and [AdmitPeerDelivery] are their two transactions. *)
Inductive store_step : Store → Store → Prop :=
| step_close s : store_step s (Close s)
| step_enroll s now p : store_step s (snd (EnrollPrincipal s now p))
| step_provision s now p : store_step s (snd (ProvisionInitialPrincipal s now p))
| step_catalog s a : store_step s (snd (CatalogArtifact s a))
| step_issue s now p boundary : store_step s (snd (IssueInteractiveAttachment s now p boundary))
| step_end s now proof : store_step s (snd (EndInteractiveAttachment s now proof))
| step_enroll_route s now spec : store_step s (snd (EnrollPeerRoute s now spec))
| step_revoke_route s now id : store_step s (snd (RevokePeerRoute s now id))
| step_current s now proof operation : store_step s (snd (Current s now proof operation))
| step_admit s now proof request entropy failure :
    store_step s (snd (commitAdmission entropy s now proof request failure))
| step_stage s now peer canonical signature :
    store_step s (snd (StagePeerDelivery ed25519_verify s now peer canonical signature))
| step_staged s now limit : store_step s (snd (StagedPeerDeliveries s now limit))
| step_peer_preflight s now id : store_step s (snd (preflightPeerAdmission s now id))
| step_peer_commit s now id entropy checks handlingIDs :
    store_step s (snd (commitPeerAdmission ed25519_verify entropy s now id checks handlingIDs))
| step_pending s now limit : store_step s (snd (PendingPeerDeliveries s now limit))
| step_settle s now peer id canonical signature :
    store_step s (snd (SettlePeerDelivery ed25519_verify s now peer id canonical signature)).
End steps.
