(* ===== verification/Frames.v ===== *)
(** Which tables each transaction may change: everything it is not listed for is
    left exactly as it was. *)

From Stdlib Require Import Lia.
From S2P Require Import Prelude Utf8 Json Wire Sha256 Time StoreTime Value Intent Bound Event Peer.
From S2P Require Import View AgentView Bind Store EventStore Attach Routes Inbox Outbox.
From S2P Require Import Domain Admission PeerAdmission Current History.

#[local] Open Scope Z_scope.

Inductive table :=
| TSequence | TPrincipals | TAttachments | TArtifacts | TEvents | TRoutes | TOutbox | TInbox | TPins
| TOperations | TCurrents | THandlings | TDispositions | TReferences | TLineage.
#[export] Instance table_eq_dec : EqDecision table.
Proof. solve_decision. Defined.

Definition same_on (t : table) (d d' : db) : Prop :=
  match t with
  | TSequence => d'.(origin_sequence) = d.(origin_sequence)
  | TPrincipals => d'.(principals) = d.(principals)
  | TAttachments => d'.(attachments) = d.(attachments)
  | TArtifacts => d'.(verified_artifacts) = d.(verified_artifacts)
  | TEvents => d'.(events) = d.(events)
  | TRoutes => d'.(peer_routes) = d.(peer_routes)
  | TOutbox => d'.(peer_outbox) = d.(peer_outbox)
  | TInbox => d'.(peer_inbox) = d.(peer_inbox)
  | TPins => d'.(event_artifacts) = d.(event_artifacts)
  | TOperations => d'.(operations) = d.(operations)
  | TCurrents => d'.(current_operations) = d.(current_operations)
  | THandlings => d'.(handlings) = d.(handlings)
  | TDispositions => d'.(claim_dispositions) = d.(claim_dispositions)
  | TReferences => d'.(active_references) = d.(active_references)
  | TLineage => d'.(reference_lineage) = d.(reference_lineage)
  end.

(** Only the tables of [ts] may differ. *)
Definition changes (ts : list table) (d d' : db) : Prop := ∀ t, bool_decide (t ∈ ts) = false → same_on t d d'.

#[export] Instance changes_preorder ts : PreOrder (changes ts).
Proof.
  split.
  - intros d t _. by destruct t.
  - intros d1 d2 d3 H1 H2 t Ht. specialize (H1 t Ht). specialize (H2 t Ht).
    destruct t; cbn in *; congruence.
Qed.

Lemma changes_weaken ts ts' d d' : ts ⊆ ts' → changes ts d d' → changes ts' d d'.
Proof.
  intros Hs Hc t Ht. apply Hc. apply bool_decide_eq_false in Ht. apply bool_decide_eq_false. set_solver.
Qed.

(** A tactic per shape: an unlisted table is one the setters do not touch. *)
Ltac solve_changes := let t := fresh "t" in intros t ?; destruct t; first [reflexivity|discriminate].

Lemma changes_same ts t d d' : changes ts d d' → bool_decide (t ∈ ts) = false → same_on t d d'.
Proof. auto. Qed.

(** ** Writers *)

Lemma insert_principal_changes d p t d' : insert_principal d p t = Ok d' → changes [TPrincipals] d d'.
Proof. unfold insert_principal. intros H. inv_tx. solve_changes. Qed.

Lemma catalogArtifactTx_changes a d u d' : catalogArtifactTx a d = Ok (u, d') → changes [TArtifacts] d d'.
Proof. unfold catalogArtifactTx. intros H. inv_tx; solve_changes. Qed.

Lemma write_handling_Ok d id row d' :
  write_handling d id row = Ok d' →
  d' = set_handlings (<[id := row]> d.(handlings)) d ∧ handling_check row = true ∧
  is_Some (d.(principals) !! row.(hr_target)) ∧ is_Some (d.(events) !! row.(hr_head)) ∧
  (∀ a, row.(hr_claim) = Some a → is_Some (d.(attachments) !! a)) ∧
  (∀ k r a, k ≠ id → d.(handlings) !! k = Some r → row.(hr_claim) = Some a → r.(hr_claim) ≠ Some a).
Proof.
  unfold write_handling. intros H. inv_tx.
  match goal with H : unique_column _ _ _ = true |- _ =>
    rewrite unique_column_true in H; rename H into Hslot end.
  split_and!; try done; try by apply references_true.
  - intros a Ha. rewrite Ha in *. by apply references_true.
  - intros k r a Hne Hk Ha. eapply Hslot; [|done]. by rewrite lookup_delete_ne.
Qed.

Lemma write_handling_changes d id row d' : write_handling d id row = Ok d' → changes [THandlings] d d'.
Proof. intros [-> _]%write_handling_Ok. solve_changes. Qed.

Lemma insert_handling_Ok d id row d' :
  insert_handling d id row = Ok d' → d.(handlings) !! id = None ∧ write_handling d id row = Ok d'.
Proof.
  unfold insert_handling. intros H. inv_tx. split; [|done]. unfold references in *.
  by destruct (handlings d !! id).
Qed.

Lemma write_attachment_Ok d id row d' :
  write_attachment d id row = Ok d' →
  d' = set_attachments (<[id := row]> d.(attachments)) d ∧ attachment_check row = true ∧
  is_Some (d.(principals) !! row.(atr_principal)) ∧
  (∀ k r, k ≠ id → d.(attachments) !! k = Some r →
     r.(atr_begin_operation_key) ≠ row.(atr_begin_operation_key)) ∧
  (∀ k r p, k ≠ id → d.(attachments) !! k = Some r → live_slot row = Some p → live_slot r ≠ Some p).
Proof.
  unfold write_attachment. intros H. inv_tx.
  match goal with H : unique_column live_slot _ _ = true |- _ =>
    rewrite unique_column_true in H; rename H into Hlive end.
  match goal with H : unique_column _ _ _ = true |- _ =>
    rewrite unique_column_true in H; rename H into Hkey end.
  split_and!; try done; try by apply references_true.
  - intros k r Hne Hk E. eapply Hkey; [by rewrite lookup_delete_ne|done|by rewrite E].
  - intros k r p Hne Hk Hp. eapply Hlive; [|done]. by rewrite lookup_delete_ne.
Qed.

Lemma write_attachment_changes d id row d' :
  write_attachment d id row = Ok d' → changes [TAttachments] d d'.
Proof. intros [-> _]%write_attachment_Ok. solve_changes. Qed.

Lemma write_route_changes d id row d' : write_route d id row = Ok d' → changes [TRoutes] d d'.
Proof. unfold write_route. intros H. inv_tx. solve_changes. Qed.

Lemma write_outbox_changes d id row d' : write_outbox d id row = Ok d' → changes [TOutbox] d d'.
Proof. unfold write_outbox. intros H. inv_tx. solve_changes. Qed.

Lemma write_inbox_changes d id row d' : write_inbox d id row = Ok d' → changes [TInbox] d d'.
Proof. unfold write_inbox. intros H. inv_tx. solve_changes. Qed.

Lemma insert_inbox_changes d id row d' : insert_inbox d id row = Ok d' → changes [TInbox] d d'.
Proof. unfold insert_inbox. intros H. inv_tx. by eapply write_inbox_changes. Qed.

Lemma insert_disposition_changes d key row d' :
  insert_disposition d key row = Ok d' → changes [TDispositions] d d'.
Proof. unfold insert_disposition. intros H. inv_tx. solve_changes. Qed.

Lemma insert_lineage_changes d id row d' : insert_lineage d id row = Ok d' → changes [TLineage] d d'.
Proof. unfold insert_lineage. intros H. inv_tx. solve_changes. Qed.

Lemma write_reference_changes d key row d' : write_reference d key row = Ok d' → changes [TReferences] d d'.
Proof. unfold write_reference. intros H. inv_tx. solve_changes. Qed.

Lemma insertEventTx_changes d e d' : insertEventTx d e = Ok d' → changes [TEvents; TPins] d d'.
Proof. intros (pins & -> & _)%insertEventTx_Ok. solve_changes. Qed.

Lemma insertOperationTx_changes d p r e d' : insertOperationTx d p r e = Ok d' → changes [TOperations] d d'.
Proof. unfold insertOperationTx. intros H. inv_tx; solve_changes. Qed.

Lemma insertCurrentOperationTx_changes d a o v d' :
  insertCurrentOperationTx d a o v = Ok d' → changes [TCurrents] d d'.
Proof. unfold insertCurrentOperationTx. intros H. inv_tx. solve_changes. Qed.

(** Weaken a writer's frame to the goal's. *)
Ltac frame_by lem :=
  first [eapply changes_weaken; [|eapply lem; eassumption]; set_solver].

(** ** Claims and boundaries *)

Definition claim_tables : list table := [THandlings; TDispositions].
Definition boundary_tables : list table := [TAttachments; THandlings; TDispositions].

Lemma settleClaimExpiryTx_changes now d claim d' :
  settleClaimExpiryTx now d claim = Ok d' → changes claim_tables d d'.
Proof.
  unfold settleClaimExpiryTx. intros H. inv_tx; [done|].
  etrans; [frame_by write_handling_changes|]. unfold insertClaimExpiryTx in *. inv_tx.
  frame_by insert_disposition_changes.
Qed.

Lemma foldR_changes {A} ts (f : db → A → result db) xs d d' :
  (∀ d x d', f d x = Ok d' → changes ts d d') → foldR f d xs = Ok d' → changes ts d d'.
Proof.
  intros Hf. revert d. induction xs as [|x xs IH]; intros d H; cbn [foldR] in H.
  - by injection H as <-.
  - apply bind_Ok in H as (d1 & H1 & H). etrans; [by eapply Hf|]. by apply IH.
Qed.

Lemma settleExpiredClaimsTx_changes d p now limit d' :
  settleExpiredClaimsTx d p now limit = Ok d' → changes claim_tables d d'.
Proof.
  unfold settleExpiredClaimsTx. intros H. inv_tx. eapply foldR_changes; [|done].
  intros; by eapply settleClaimExpiryTx_changes.
Qed.

Lemma settleClaimBoundaryEndTx_changes d now claim d' :
  settleClaimBoundaryEndTx d now claim = Ok d' → changes claim_tables d d'.
Proof.
  unfold settleClaimBoundaryEndTx. intros H. inv_tx.
  etrans; [frame_by write_handling_changes|frame_by insert_disposition_changes].
Qed.

Lemma endLiveAttachmentTx_changes d now id b d' :
  endLiveAttachmentTx d now id = Ok (b, d') → changes boundary_tables d d'.
Proof.
  unfold endLiveAttachmentTx. intros H. inv_tx; (etrans; [frame_by write_attachment_changes|]); [|done].
  frame_by settleClaimBoundaryEndTx_changes.
Qed.

Lemma endAttachmentTx_changes now proof d r d' :
  endAttachmentTx now proof d = Ok (r, d') → changes boundary_tables d d'.
Proof. unfold endAttachmentTx. intros H. inv_tx; [done|]. by eapply endLiveAttachmentTx_changes. Qed.

Lemma replaceLiveAttachmentTx_changes d now p d' :
  replaceLiveAttachmentTx d now p = Ok d' → changes boundary_tables d d'.
Proof. unfold replaceLiveAttachmentTx. intros H. inv_tx; [|done]. by eapply endLiveAttachmentTx_changes. Qed.

Lemma issueAttachmentTx_changes now p m d r d' :
  issueAttachmentTx now p m d = Ok (r, d') → changes boundary_tables d d'.
Proof.
  unfold issueAttachmentTx, insertAttachmentBeginTx. intros H. inv_tx; [done|].
  etrans; [by eapply replaceLiveAttachmentTx_changes|frame_by write_attachment_changes].
Qed.

(** ** Routes, inbox, outbox *)

Lemma enrollPeerRouteTx_changes now spec sur d r d' :
  enrollPeerRouteTx now spec sur d = Ok (r, d') → changes [TPrincipals; TRoutes] d d'.
Proof.
  unfold enrollPeerRouteTx. intros H. inv_tx; [done|].
  etrans; [frame_by insert_principal_changes|frame_by write_route_changes].
Qed.

Lemma revokePeerRouteTx_changes now id d r d' :
  revokePeerRouteTx now id d = Ok (r, d') → changes [TRoutes; TOutbox] d d'.
Proof.
  unfold revokePeerRouteTx. intros H. inv_tx; [done|].
  etrans; [frame_by write_route_changes|]. solve_changes.
Qed.

Lemma provisionInitialPrincipalTx_changes now p d b d' :
  provisionInitialPrincipalTx now p d = Ok (b, d') → changes [TPrincipals] d d'.
Proof. unfold provisionInitialPrincipalTx. intros H. inv_tx; [done|]. by eapply insert_principal_changes. Qed.

Lemma expirePeerInboxTx_changes d x now r d' : expirePeerInboxTx d x now = Ok (r, d') → changes [TInbox] d d'.
Proof. unfold expirePeerInboxTx. intros H. inv_tx. by eapply write_inbox_changes. Qed.

Lemma settleRejectedPeerInboxTx_changes d x c g now r d' :
  settleRejectedPeerInboxTx d x c g now = Ok (r, d') → changes [TInbox] d d'.
Proof. unfold settleRejectedPeerInboxTx. intros H. inv_tx. by eapply write_inbox_changes. Qed.

Lemma expirePeerOutboxTx_changes d now : changes [TOutbox] d (expirePeerOutboxTx d now).
Proof. solve_changes. Qed.

Lemma expirePeerInboxRowsTx_changes d now : changes [TInbox] d (expirePeerInboxRowsTx d now).
Proof. solve_changes. Qed.

Lemma stageFreshPeerDeliveryTx_changes d route x sig now r d' :
  stageFreshPeerDeliveryTx d route x sig now = Ok (r, d') → changes [TInbox] d d'.
Proof.
  unfold stageFreshPeerDeliveryTx, insertRejectedPeerInboxTx, insertExpiredPeerInboxTx. intros H.
  inv_tx; (etrans; [apply (expirePeerInboxRowsTx_changes _ now)|by eapply insert_inbox_changes]).
Qed.

Lemma stagePeerDeliveryTx_changes verify peer c sig now d r d' :
  stagePeerDeliveryTx verify peer c sig now d = Ok (r, d') → changes [TInbox] d d'.
Proof.
  unfold stagePeerDeliveryTx, replayPeerInboxTx. intros H.
  inv_tx; [by eapply expirePeerInboxTx_changes|done|by eapply stageFreshPeerDeliveryTx_changes].
Qed.

Lemma insertPeerDeliveriesTx_changes d e ids now d' :
  insertPeerDeliveriesTx d e ids now = Ok d' → changes [TOutbox] d d'.
Proof.
  unfold insertPeerDeliveriesTx. intros H. inv_tx. eapply foldR_changes; [|done].
  clear. intros d t d' H. unfold insert_delivery in H. inv_tx. by eapply write_outbox_changes.
Qed.

Lemma settlePeerDeliveryTx_changes verify peer id c sig now d r d' :
  settlePeerDeliveryTx verify peer id c sig now d = Ok (r, d') → changes [TOutbox] d d'.
Proof.
  unfold settlePeerDeliveryTx. intros H. inv_tx; [done|]. by eapply write_outbox_changes.
Qed.

(** ** Admission *)

Lemma create_successors_changes e d ts ids d' :
  create_successors e d ts ids = Ok d' → changes [THandlings] d d'.
Proof.
  revert d ids. induction ts as [|t ts IH]; intros d ids H; cbn [create_successors] in H.
  - by injection H as <-.
  - inv_tx; [by eapply IH|]. apply insert_handling_Ok in H0 as [_ H0].
    etrans; [by eapply write_handling_changes|by eapply IH].
Qed.

Lemma createSuccessorHandlingsTx_changes d e ids d' :
  createSuccessorHandlingsTx d e ids = Ok d' → changes [THandlings] d d'.
Proof. unfold createSuccessorHandlingsTx. intros H. inv_tx. by eapply create_successors_changes. Qed.

Lemma settleSubjectTx_changes d e a st o d' :
  settleSubjectTx d e a st o = Ok d' → changes [THandlings] d d'.
Proof. unfold settleSubjectTx. intros H. inv_tx. by eapply write_handling_changes. Qed.

Lemma settle_then_create_changes d e a st o ids d' :
  (d ← settleSubjectTx d e a st o; createSuccessorHandlingsTx d e ids) = Ok d' →
  changes [THandlings] d d'.
Proof.
  intros H. apply bind_Ok in H as (d1 & H1 & H).
  etrans; [by eapply settleSubjectTx_changes|by eapply createSuccessorHandlingsTx_changes].
Qed.

Definition effect_tables : list table := [THandlings; TReferences; TLineage].

Lemma applyDomainEffectTx_changes d e a ids d' :
  applyDomainEffectTx d e a ids = Ok d' → changes effect_tables d d'.
Proof.
  unfold applyDomainEffectTx. cbv zeta. intros H.
  destruct (ev_consequence e); try done;
    try frame_by settle_then_create_changes; try frame_by createSuccessorHandlingsTx_changes;
    try (by inv_tx);
    unfold publishReferenceTx, supersedeReferenceTx, retractReferenceTx in H; inv_tx;
    (etrans; [frame_by insert_lineage_changes|frame_by write_reference_changes]).
Qed.

Definition domain_tables : list table :=
  [TSequence; TEvents; TPins; THandlings; TReferences; TLineage; TOutbox].

Lemma commitDomainAdmissionTx_changes d c id ids now e d' :
  commitDomainAdmissionTx d c id ids now = Ok (e, d') → changes domain_tables d d'.
Proof.
  unfold commitDomainAdmissionTx. intros H.
  apply bind_Ok in H as ([[e1 a] d1] & H1 & H). apply bind_Ok in H as (d2 & H2 & H).
  apply bind_Ok in H as (d3 & H3 & H). apply bind_Ok in H as (d4 & H4 & H). injection H as -> ->.
  apply newDomainEventTx_db in H1 as ->.
  transitivity (set_origin_sequence (origin_sequence d + 1) d); [solve_changes|].
  etrans; [frame_by insertEventTx_changes|]. etrans; [frame_by applyDomainEffectTx_changes|].
  frame_by insertPeerDeliveriesTx_changes.
Qed.

Lemma commitAdmissionTx_changes now proof request fl id ids d r d' :
  commitAdmissionTx now proof request fl id ids d = Ok (r, d') →
  changes (TOperations :: domain_tables) d d'.
Proof.
  unfold commitAdmissionTx, persistRejectionTx, commitAcceptedAdmissionTx. intros H.
  inv_tx; [done|frame_by insertOperationTx_changes|].
  etrans; [frame_by commitDomainAdmissionTx_changes|frame_by insertOperationTx_changes].
Qed.

Lemma prepareStagedTx_changes verify d id res checks now p d' :
  prepareStagedTx verify d id res checks now = Ok (p, d') →
  changes [TInbox] d d' ∧ ∀ prep, p = PreparedCommit prep → d' = d ∧ prep.(pp_result) = res.
Proof.
  unfold prepareStagedTx. cbv zeta. intros H.
  apply bind_Ok in H as (found & _ & H). apply bind_Ok in H as (route & _ & H).
  destruct (negb (pr_active route)).
  { apply bind_Ok in H as ([r d1] & H1 & H). injection H as <- <-.
    split; [by eapply settleRejectedPeerInboxTx_changes|done]. }
  destruct (negb (_ <? _)).
  { apply bind_Ok in H as ([r d1] & H1 & H). injection H as <- <-.
    split; [by eapply expirePeerInboxTx_changes|done]. }
  apply bind_Ok in H as ([latest|] & _ & H); [|by injection H as <- <-].
  apply bind_Ok in H as (verified & _ & H).
  destruct (RequiresTerminalReplyMatch _); [|injection H as <- <-; by split; [|intros ? [= <-]]].
  apply bind_Ok in H as ([m|] & _ & H); [injection H as <- <-; by split; [|intros ? [= <-]]|].
  apply bind_Ok in H as ([r d1] & H1 & H). injection H as <- <-.
  split; [by eapply settleRejectedPeerInboxTx_changes|done].
Qed.

(** A preparation leaves the database alone or resolves its own inbox row. *)
Lemma preparePeerAdmissionTx_cases verify d id checks now p d' :
  preparePeerAdmissionTx verify d id checks now = Ok (p, d') →
  d' = d ∨ (∃ x c g r, settleRejectedPeerInboxTx d x c g now = Ok (r, d')) ∨
  (∃ x r, expirePeerInboxTx d x now = Ok (r, d')).
Proof.
  unfold preparePeerAdmissionTx. intros H. apply bind_Ok in H as (found & _ & H).
  apply bind_Ok in H as (res & _ & H). destruct (negb _); [left; by injection H as _ <-|].
  unfold prepareStagedTx in H. cbv zeta in H.
  apply bind_Ok in H as (found' & _ & H). apply bind_Ok in H as (route & _ & H).
  destruct (negb (pr_active route)).
  { apply bind_Ok in H as ([r d1] & H1 & H). injection H as <- <-. eauto 8. }
  destruct (negb (_ <? _)).
  { apply bind_Ok in H as ([r d1] & H1 & H). injection H as <- <-. eauto 8. }
  apply bind_Ok in H as ([latest|] & _ & H); [|left; by injection H as <- <-].
  apply bind_Ok in H as (verified & _ & H).
  destruct (RequiresTerminalReplyMatch _); [|left; by injection H as <- <-].
  apply bind_Ok in H as ([m|] & _ & H); [left; by injection H as <- <-|].
  apply bind_Ok in H as ([r d1] & H1 & H). injection H as <- <-. eauto 8.
Qed.

Lemma commitPeerAdmissionTx_changes verify id checks eid ids now d r d' :
  commitPeerAdmissionTx verify id checks eid ids now d = Ok (r, d') →
  changes (TInbox :: domain_tables) d d'.
Proof.
  unfold commitPeerAdmissionTx. intros H. apply bind_Ok in H as ([p d1] & H1 & H).
  transitivity d1.
  { clear H. unfold preparePeerAdmissionTx in H1. apply bind_Ok in H1 as (found & _ & H1).
    apply bind_Ok in H1 as (res & _ & H1). destruct (negb _); [by injection H1 as _ <-|].
    eapply changes_weaken; [|eapply prepareStagedTx_changes; eassumption]. set_solver. }
  destruct p as [res|prep]; [by injection H as -> ->|].
  unfold commitAcceptedPeerAdmissionTx in H. inv_tx.
  etrans; [frame_by commitDomainAdmissionTx_changes|frame_by write_inbox_changes].
Qed.

Lemma preflightPeerAdmissionTx_changes id now d r d' :
  preflightPeerAdmissionTx id now d = Ok (r, d') → changes [TInbox] d d'.
Proof. unfold preflightPeerAdmissionTx. intros H. inv_tx; solve_changes. Qed.

(** ** Current *)

Lemma claimNextTx_changes d a r d' : claimNextTx d a = (r, d') → changes [THandlings] d d'.
Proof.
  unfold claimNextTx. destruct (next_claimable _ _) as [[id row]|]; [|by intros [= _ <-]].
  destruct (wrap_error _ _) as [d1|e] eqn:Hw; intros [= _ <-]; [|done].
  apply wrap_error_Ok in Hw. by eapply write_handling_changes.
Qed.

Lemma acquireClaimTx_cases d a c d' :
  acquireClaimTx d a = Ok (c, d') → d' = d ∨ ∃ r, claimNextTx d a = (r, d').
Proof.
  unfold acquireClaimTx. destruct (existingClaimTx d a) as [claim|e].
  - intros [= _ <-]. by left.
  - destruct (errors_is e sql_ErrNoRows);
      [|destruct (errors_is _ _); [intros [= _ <-]; by left|done]].
    destruct (claimNextTx d a) as [r d1] eqn:E. intros H. right. exists r. revert H.
    destruct r as [claim|e']; [by intros [= _ <-]|].
    destruct (errors_is _ _); [by intros [= _ <-]|done].
Qed.

Definition current_tables : list table := [THandlings; TDispositions; TCurrents].

Lemma currentTx_Ok now proof o d v d' :
  currentTx now proof o d = Ok (v, d') →
  d' = d ∨ ∃ au d1 claim d2,
    authenticateAttachmentTx d proof = Ok au ∧ requireLiveAttachment au now = Ok () ∧
    settleExpiredClaimsTx d au.(aa_value).(at_principal) now MaxClaimExpirySettlementsPerCurrent = Ok d1 ∧
    acquireClaimTx d1 au.(aa_value) = Ok (claim, d2) ∧
    projectBoundViewTx d2 au.(aa_value) claim o.(co_key) = Ok v ∧
    insertCurrentOperationTx d2 au.(aa_value) o v = Ok d'.
Proof.
  unfold currentTx. cbv zeta. intros H. apply bind_Ok in H as (au & Hau & H).
  apply bind_Ok in H as ([view|] & _ & H); [left; by injection H as _ ->|]. right.
  apply bind_Ok in H as ([] & Hl & H). apply bind_Ok in H as (d1 & H1 & H).
  apply bind_Ok in H as ([claim d2] & H2 & H). apply bind_Ok in H as (view & Hv & H).
  apply bind_Ok in H as (d3 & H3 & H). injection H as -> ->. by exists au, d1, claim, d2.
Qed.

Lemma acquireClaimTx_changes d a c d' : acquireClaimTx d a = Ok (c, d') → changes [THandlings] d d'.
Proof. intros [->|[r H]]%acquireClaimTx_cases; [done|by eapply claimNextTx_changes]. Qed.

Lemma currentTx_changes now proof o d v d' :
  currentTx now proof o d = Ok (v, d') → changes current_tables d d'.
Proof.
  intros [->|(au & d1 & claim & d2 & _ & _ & H1 & H2 & _ & H3)]%currentTx_Ok; [done|].
  etrans; [frame_by settleExpiredClaimsTx_changes|].
  etrans; [frame_by acquireClaimTx_changes|frame_by insertCurrentOperationTx_changes].
Qed.

(** ** What an admission commits *)

(** The steps of the admission spine. *)
Lemma commitDomainAdmissionTx_Ok d c id ids now e d' :
  commitDomainAdmissionTx d c id ids now = Ok (e, d') →
  ∃ a d2 d3,
    newDomainEventTx d c id now = Ok (e, a, set_origin_sequence (d.(origin_sequence) + 1) d) ∧
    insertEventTx (set_origin_sequence (d.(origin_sequence) + 1) d) e = Ok d2 ∧
    applyDomainEffectTx d2 e a ids = Ok d3 ∧ insertPeerDeliveriesTx d3 e ids now = Ok d'.
Proof.
  unfold commitDomainAdmissionTx. intros H.
  apply bind_Ok in H as ([[e1 a] d1] & H1 & H). apply bind_Ok in H as (d2 & H2 & H).
  apply bind_Ok in H as (d3 & H3 & H). apply bind_Ok in H as (d4 & H4 & H). injection H as -> ->.
  pose proof H1 as E. apply newDomainEventTx_db in E as ->. by exists a, d2, d3.
Qed.

Lemma NewEvent_stamp request stamp e :
  NewEvent request stamp = Ok e →
  e.(ev_id) = stamp.(es_ID) ∧ e.(ev_originSequence) = stamp.(es_OriginSequence) ∧
  e.(ev_causalDepth) = stamp.(es_CausalDepth).
Proof.
  unfold NewEvent. intros H. apply bind_Ok in H as ([] & _ & H). apply bind_Ok in H as (t & _ & H).
  by apply sealEvent_Ok in H as ->.
Qed.

Lemma NewPeerEvent_stamp verified stamp consequence targets e :
  NewPeerEvent verified stamp consequence targets = Ok e →
  e.(ev_id) = stamp.(es_ID) ∧ e.(ev_originSequence) = stamp.(es_OriginSequence) ∧
  e.(ev_causalDepth) = stamp.(es_CausalDepth).
Proof.
  unfold NewPeerEvent. cbv zeta. intros H. apply bind_Ok in H as ([delivery artifacts] & _ & H).
  apply bind_Ok in H as ([] & _ & H). apply bind_Ok in H as ([] & Hdepth & H).
  do 4 apply bind_Ok in H as (? & _ & H). apply sealEvent_Ok in H as ->.
  apply fail_if_Ok, negb_false_iff, Z.eqb_eq in Hdepth. done.
Qed.

(** The new Event carries the identifier drawn for it and the next sequence. *)
Lemma newDomainEventTx_stamp d c id now e a d' :
  newDomainEventTx d c id now = Ok (e, a, d') →
  e.(ev_id) = id ∧ e.(ev_originSequence) = d.(origin_sequence) + 1.
Proof.
  unfold newDomainEventTx. intros H. apply bind_Ok in H as ([n d1] & H1 & H).
  apply nextOriginSequenceTx_Ok in H1 as (-> & -> & _).
  destruct c as [request|verified effect].
  - apply bind_Ok in H as (depth & _ & H). apply bind_Ok in H as (e1 & H1 & H). injection H as <- _ _.
    apply wrap_error_Ok, NewEvent_stamp in H1 as (? & ? & _). done.
  - apply bind_Ok in H as (e1 & H1 & H). injection H as <- _ _.
    apply wrap_error_Ok, NewPeerEvent_stamp in H1 as (? & ? & _). done.
Qed.

(** A local admission replays, records a rejection, or commits one Event. *)
Lemma commitAdmissionTx_Ok now proof request failure id ids d r d' :
  commitAdmissionTx now proof request failure id ids d = Ok (r, d') →
  ∃ au replay, authenticateAttachmentTx d proof = Ok au ∧
    operationReplayTx d au.(aa_value).(at_principal) request = Ok replay ∧
    match replay with
    | Some replay => r = replay ∧ d' = d
    | None => requireBoundAttachment au request = Ok () ∧
        ∃ rejection, freshAdmissionRejectionTx d au request failure now = Ok rejection ∧
        match rejection with
        | Some rejection =>
            persistRejectionTx d au.(aa_value).(at_principal) request rejection now = Ok (r, d')
        | None =>
            commitAcceptedAdmissionTx d au.(aa_value).(at_principal) request id ids now = Ok (r, d')
        end
    end.
Proof.
  unfold commitAdmissionTx. cbv zeta. intros H. apply bind_Ok in H as (au & Hau & H).
  apply bind_Ok in H as (replay & Hreplay & H). exists au, replay. split_and!; [done..|].
  destruct replay as [replay|]; [by injection H as -> ->|].
  apply bind_Ok in H as ([] & Hb & H). apply bind_Ok in H as (rejection & Hr & H).
  split; [done|]. exists rejection. by destruct rejection.
Qed.

Lemma persistRejectionTx_Ok d p request rejection now r d' :
  persistRejectionTx d p request rejection now = Ok (r, d') →
  ∃ receipt, NewRejectedReceipt request rejection.(rj_code) rejection.(rj_diagnostic) now = Ok receipt ∧
    insertOperationTx d p receipt "" = Ok d' ∧ r = resultFromReceipt receipt false.
Proof.
  unfold persistRejectionTx. intros H. apply bind_Ok in H as (receipt & Hr & H).
  apply bind_Ok in H as (d1 & H1 & H). injection H as <- <-. apply wrap_error_Ok in Hr. eauto.
Qed.

Lemma commitAcceptedAdmissionTx_Ok d p request id ids now r d' :
  commitAcceptedAdmissionTx d p request id ids now = Ok (r, d') →
  ∃ event d1 receipt,
    commitDomainAdmissionTx d (localDomainAdmission request) id ids now = Ok (event, d1) ∧
    NewAcceptedReceipt request event now = Ok receipt ∧
    insertOperationTx d1 p receipt event.(ev_id) = Ok d' ∧ r = resultFromReceipt receipt false.
Proof.
  unfold commitAcceptedAdmissionTx. intros H. apply bind_Ok in H as ([event d1] & H1 & H).
  apply bind_Ok in H as (receipt & Hr & H). apply bind_Ok in H as (d2 & H2 & H).
  injection H as <- <-. apply wrap_error_Ok in Hr. by exists event, d1, receipt.
Qed.

(** A peer admission only settles its inbox row, or commits one Event with it. *)
Lemma commitPeerAdmissionTx_Ok verify id checks eid ids now d r d' :
  commitPeerAdmissionTx verify id checks eid ids now d = Ok (r, d') →
  ∃ p d1, preparePeerAdmissionTx verify d id checks now = Ok (p, d1) ∧
    match p with
    | PreparedDone result => r = result ∧ d' = d1 ∧ changes [TInbox] d d'
    | PreparedCommit prepared => d1 = d ∧
        commitAcceptedPeerAdmissionTx d prepared eid ids now = Ok (r, d')
    end.
Proof.
  unfold commitPeerAdmissionTx. intros H. apply bind_Ok in H as ([p d1] & H1 & H).
  exists p, d1. split; [done|]. unfold preparePeerAdmissionTx in H1.
  apply bind_Ok in H1 as (found & _ & H1). apply bind_Ok in H1 as (res & _ & H1).
  destruct (negb _).
  - injection H1 as <- <-. by injection H as <- <-.
  - apply prepareStagedTx_changes in H1 as [Hc Hp].
    destruct p as [res'|prep]; [by injection H as <- <-|].
    destruct (Hp prep eq_refl) as [-> _]. done.
Qed.

Lemma commitAcceptedPeerAdmissionTx_Ok d prepared eid ids now r d' :
  commitAcceptedPeerAdmissionTx d prepared eid ids now = Ok (r, d') →
  let delivery := prepared.(pp_result).(pa_delivery) in
  ∃ effect event d1 receipt row,
    decidePeerEffect prepared.(pp_verified) = Ok effect ∧
    commitDomainAdmissionTx d (peerDomainAdmission prepared.(pp_verified) effect) eid
      (take (length effect.(pe_targets)) ids) now = Ok (event, d1) ∧
    NewAcceptedPeerAdmissionReceipt delivery (Event_Ref event) now = Ok receipt ∧
    staged_inbox d1 delivery.(pd_id) = Some row ∧
    write_inbox d1 (DeliveryID_String delivery.(pd_id))
      (settle_row row (Some event.(ev_id)) receipt now) = Ok d' ∧
    r = admission_result PeerAdmissionStateAccepted delivery (Some receipt).
Proof.
  unfold commitAcceptedPeerAdmissionTx. cbv zeta. intros H. apply bind_Ok in H as (effect & He & H).
  apply bind_Ok in H as ([] & _ & H). apply bind_Ok in H as ([event d1] & H1 & H).
  apply bind_Ok in H as (receipt & Hr & H). apply bind_Ok in H as (row & Hrow & H).
  apply bind_Ok in H as (d2 & H2 & H). injection H as <- <-.
  apply of_option_Ok in Hrow. apply wrap_error_Ok in H2.
  by exists effect, event, d1, receipt, row.
Qed.

(** ** Transactions of the Store *)

Section transactions.
Context (ed25519_verify : string → string → string → bool).

(** The committed transactions; the parameters are the ones the methods pass. *)
Inductive tx_step : db → db → Prop :=
| tx_principal d p t d' : insert_principal d p t = Ok d' → tx_step d d'
| tx_provision now p d b d' : provisionInitialPrincipalTx now p d = Ok (b, d') → tx_step d d'
| tx_catalog a d u d' : catalogArtifactTx a d = Ok (u, d') → tx_step d d'
| tx_issue now p m d r d' : issueAttachmentTx now p m d = Ok (r, d') → tx_step d d'
| tx_end now proof d r d' : endAttachmentTx now proof d = Ok (r, d') → tx_step d d'
| tx_enroll_route now spec sur d r d' : enrollPeerRouteTx now spec sur d = Ok (r, d') → tx_step d d'
| tx_revoke_route now id d r d' : revokePeerRouteTx now id d = Ok (r, d') → tx_step d d'
| tx_current now proof o d v d' : currentTx now proof o d = Ok (v, d') → tx_step d d'
| tx_admit now proof request fl id ids d r d' :
    commitAdmissionTx now proof request fl id ids d = Ok (r, d') → tx_step d d'
| tx_stage peer c sig now d r d' :
    stagePeerDeliveryTx ed25519_verify peer c sig now d = Ok (r, d') → tx_step d d'
| tx_expire_inbox d now : tx_step d (expirePeerInboxRowsTx d now)
| tx_peer_preflight id now d r d' : preflightPeerAdmissionTx id now d = Ok (r, d') → tx_step d d'
| tx_peer_commit id checks eid ids now d r d' :
    commitPeerAdmissionTx ed25519_verify id checks eid ids now d = Ok (r, d') → tx_step d d'
| tx_expire_outbox d now : tx_step d (expirePeerOutboxTx d now)
| tx_settle peer id c sig now d r d' :
    settlePeerDeliveryTx ed25519_verify peer id c sig now d = Ok (r, d') → tx_step d d'.

Lemma transact_step {A} s (body : db → result (A * db)) :
  (∀ a d', body s.(st_db) = Ok (a, d') → d' = s.(st_db) ∨ tx_step s.(st_db) d') →
  (snd (transact s body)).(st_db) = s.(st_db) ∨ tx_step s.(st_db) (snd (transact s body)).(st_db).
Proof.
  intros Hb. unfold transact. destruct (requireOpen s); [|by left].
  destruct (body (st_db s)) as [[a d']|e]; [|by left]. exact (Hb a d' eq_refl).
Qed.

Lemma guarded_step {A B} s (guard : result A) (k : A → result B * Store) :
  (∀ a, (snd (k a)).(st_db) = s.(st_db) ∨ tx_step s.(st_db) (snd (k a)).(st_db)) →
  (snd (guarded s guard k)).(st_db) = s.(st_db) ∨ tx_step s.(st_db) (snd (guarded s guard k)).(st_db).
Proof. intros Hk. unfold guarded. destruct guard; [apply Hk|by left]. Qed.

(** A method call changes nothing or commits one transaction. *)
Lemma store_step_tx s s' :
  store_step ed25519_verify s s' → s'.(st_db) = s.(st_db) ∨ tx_step s.(st_db) s'.(st_db).
Proof.
  destruct 1; [by left|..]; apply guarded_step; intros ?;
    repeat match goal with x : (_ * _)%type |- _ => destruct x end;
    apply transact_step; intros r d' H; cbv beta in H.
  - destruct (references _ _); inv_tx; [by left|right; by eapply tx_principal].
  - right. by eapply tx_provision.
  - right. by eapply tx_catalog.
  - right. by eapply tx_issue.
  - right. by eapply tx_end.
  - right. by eapply tx_enroll_route.
  - right. by eapply tx_revoke_route.
  - right. by eapply tx_current.
  - right. by eapply tx_admit.
  - apply bind_Ok in H as (t & _ & H). right. by eapply tx_stage.
  - inv_tx. right. apply tx_expire_inbox.
  - apply bind_Ok in H as (t & _ & H). right. by eapply tx_peer_preflight.
  - apply bind_Ok in H as (t & _ & H). right. by eapply tx_peer_commit.
  - inv_tx. right. apply tx_expire_outbox.
  - apply bind_Ok in H as (t & _ & H). right. by eapply tx_settle.
Qed.

Lemma tx_step_extends d d' : tx_step d d' → extends d d'.
Proof.
  destruct 1.
  - by eapply insert_principal_extends.
  - by eapply provisionInitialPrincipalTx_extends.
  - by eapply catalogArtifactTx_extends.
  - by eapply issueAttachmentTx_extends.
  - by eapply endAttachmentTx_extends.
  - by eapply enrollPeerRouteTx_extends.
  - by eapply revokePeerRouteTx_extends.
  - by eapply currentTx_extends.
  - by eapply commitAdmissionTx_extends.
  - by eapply stagePeerDeliveryTx_extends.
  - apply expirePeerInboxRowsTx_extends.
  - by eapply preflightPeerAdmissionTx_extends.
  - by eapply commitPeerAdmissionTx_extends.
  - apply expire_outbox_where_extends.
  - by eapply settlePeerDeliveryTx_extends.
Qed.

Lemma store_step_extends s s' : store_step ed25519_verify s s' → extends s.(st_db) s'.(st_db).
Proof. intros [->|H]%store_step_tx; [done|by apply tx_step_extends]. Qed.

Lemma store_steps_extend s s' : rtc (store_step ed25519_verify) s s' → extends s.(st_db) s'.(st_db).
Proof.
  induction 1 as [|s1 s2 s3 H _ IH]; [done|]. etrans; [by apply store_step_extends|done].
Qed.
End transactions.

(** ** Reading frames *)

(** The tables of [ts] are untouched. *)
Definition keeps (ts : list table) (d d' : db) : Prop := ∀ t, t ∈ ts → same_on t d d'.

Lemma changes_keeps us ts d d' :
  forallb (λ t, negb (bool_decide (t ∈ us))) ts = true → changes us d d' → keeps ts d d'.
Proof.
  intros Hd Hc t Ht. apply Hc. rewrite forallb_forall in Hd.
  apply list_elem_of_In in Ht. by apply negb_true_iff, Hd.
Qed.

(** [keep H]: the frame of the transaction that [H] says committed. *)
Ltac keep_by lem := eapply changes_keeps; [|eapply lem; eassumption]; vm_compute; reflexivity.

(** ** Ending a boundary *)

Lemma scanExpiredClaim_Ok id row claim :
  scanExpiredClaim id row = Ok claim →
  claim.(ec_handling) = id ∧ row.(hr_claim) = Some claim.(ec_attachment) ∧
  row.(hr_until) = Some (formatTime claim.(ec_claimUntil)) ∧ claim.(ec_fence) = row.(hr_fence).
Proof.
  unfold scanExpiredClaim. cbv zeta. intros H. inv_tx.
  repeat match goal with
  | H : NewHandlingID _ = Ok _ |- _ => apply newIdentifier_Ok in H as [-> _]
  | H : NewAttachmentID _ = Ok _ |- _ => apply newIdentifier_Ok in H as [-> _]
  | H : parseTime _ = Ok _ |- _ => apply parseTime_Ok in H as ->
  end. done.
Qed.

Lemma insert_disposition_Ok d key row d' :
  insert_disposition d key row = Ok d' →
  d' = set_claim_dispositions (<[key := row]> d.(claim_dispositions)) d ∧
  d.(claim_dispositions) !! key = None.
Proof.
  unfold insert_disposition. intros H. inv_tx. split; [done|]. unfold references in *.
  by destruct (claim_dispositions d !! key).
Qed.

(** The live boundary is closed; the claim it held, if any, is released with
    one disposition row.  Nothing else changes. *)
Lemma endLiveAttachmentTx_Ok d now id released d' :
  endLiveAttachmentTx d now id = Ok (released, d') →
  ∃ row, d.(attachments) !! id = Some row ∧ row.(atr_ended_at) = None ∧
  let d1 := set_attachments (<[id := with_end row (formatTime now)]> d.(attachments)) d in
  if released : bool
  then ∃ k h key disposition, d.(handlings) !! k = Some h ∧ h.(hr_state) = HandlingOpen ∧
    h.(hr_claim) = Some id ∧
    disposition.(dr_kind) = DispositionBoundaryEnd ∧ disposition.(dr_handling) = k ∧
    disposition.(dr_attachment) = id ∧ disposition.(dr_fence) = h.(hr_fence) ∧
    d.(claim_dispositions) !! key = None ∧
    d' = set_claim_dispositions (<[key := disposition]> d.(claim_dispositions))
           (set_handlings (<[k := release_claim h]> d.(handlings)) d1)
  else (∀ k h, d.(handlings) !! k = Some h → h.(hr_claim) ≠ Some id) ∧ d' = d1.
Proof.
  unfold endLiveAttachmentTx. intros H. apply bind_Ok in H as (claim & Hc & H).
  apply bind_Ok in H as (row & Hrow & H). apply bind_Ok in H as (d1 & Hw & H).
  apply of_option_Ok, live_attachment_Some in Hrow as [Hl He]. apply wrap_error_Ok in Hw.
  apply write_attachment_Ok in Hw as [-> _]. exists row. split_and!; [done..|]. cbv zeta.
  unfold attachmentClaimTx in Hc. destruct (query_row _ _) as [[k h]|] eqn:Eq; cbv beta iota in Hc.
  - apply query_row_Some in Eq as [_ Hclaimed]. unfold claimed_by in Hclaimed. inv_res.
    match goal with Hs : scanExpiredClaim _ _ = Ok _ |- _ =>
      apply scanExpiredClaim_Ok in Hs as (<- & Ha & Hu & Hf) end.
    unfold settleClaimBoundaryEndTx in *. inv_tx.
    match goal with Hs : exact_claim _ _ = Some ?h' |- _ =>
      apply exact_claim_Some in Hs as (Hh & Hopen & Hcl & Hfence & _); rename h' into g end.
    match goal with Hs : insert_disposition _ ?key ?disposition = Ok _ |- _ =>
      apply insert_disposition_Ok in Hs as [-> Hfresh];
      exists (ec_handling x), g, key, disposition end.
    match goal with Hs : write_handling _ _ _ = Ok _ |- _ =>
      apply write_handling_Ok in Hs as [-> _] end.
    assert (x.(ec_attachment) = id) as Hid by congruence. db_simpl.
    split_and!; try done; try congruence.
  - rewrite query_row_None in Eq. injection Hc as <-. injection H as <- <-. split; [|done].
    intros k h Hk E. specialize (Eq k h Hk). unfold claimed_by in Eq.
    by apply bool_decide_eq_false in Eq.
Qed.

(** ** Authentication *)

(** The proof names a stored boundary whose credential digest it matches. *)
Lemma authenticateAttachmentTx_Ok d proof au :
  authenticateAttachmentTx d proof = Ok au →
  ∃ row, d.(attachments) !! proof.(ap_id) = Some row ∧
    Digest_String (Sum proof.(ap_credential)) = row.(atr_credential_digest) ∧
    au.(aa_value).(at_id) = proof.(ap_id) ∧ au.(aa_value).(at_principal) = row.(atr_principal) ∧
    row.(atr_issued_at) = formatTime au.(aa_value).(at_issuedAt) ∧
    row.(atr_expires_at) = formatTime au.(aa_value).(at_expiresAt) ∧
    time_ok au.(aa_value).(at_expiresAt) ∧
    is_some au.(aa_endedAt) = is_some row.(atr_ended_at).
Proof.
  unfold authenticateAttachmentTx. intros H. apply bind_Ok in H as ([] & _ & H).
  apply bind_Ok in H as (row & Hrow & H). apply bind_Ok in H as ([] & _ & H).
  apply bind_Ok in H as (digest & Hd & H). apply bind_Ok in H as ([] & Hsum & H).
  apply bind_Ok in H as (p & Hp & H). apply bind_Ok in H as (issued & Hi & H).
  apply bind_Ok in H as (expires & Hx & H). apply bind_Ok in H as (attachment & Ha & H).
  apply bind_Ok in H as (ended & He & H). injection H as <-. cbn [aa_value aa_endedAt].
  apply of_option_Ok in Hrow. apply or_error_Ok, ParseDigest_Ok in Hd as [Hd _].
  apply fail_if_Ok, negb_false_iff, bool_decide_eq_true in Hsum.
  apply or_error_Ok, newIdentifier_Ok in Hp as [-> _]. apply parseTime_Ok in Hi, Hx.
  apply wrap_error_Ok in Ha. unfold NewAttachment in Ha. exists row.
  apply bind_Ok in Ha as ([] & _ & Ha). apply bind_Ok in Ha as (issued' & Hi' & Ha).
  apply bind_Ok in Ha as (expires' & Hx' & Ha). apply bind_Ok in Ha as ([] & _ & Ha). injection Ha as <-.
  apply canonicalTime_Ok in Hi' as [-> _]. apply canonicalTime_Ok in Hx' as [-> Hok].
  cbn [at_id at_principal at_issuedAt at_expiresAt]. split_and!; try done; [congruence|].
  destruct (atr_ended_at row); [|by injection He as <-].
  apply bind_Ok in He as (t & _ & He). apply bind_Ok in He as ([] & _ & He). by injection He as <-.
Qed.

Lemma requireLiveAttachment_Ok au now :
  requireLiveAttachment au now = Ok () ↔ au.(aa_endedAt) = None ∧ now < au.(aa_value).(at_expiresAt).
Proof.
  unfold requireLiveAttachment. split.
  - intros H. apply bind_Ok in H as ([] & H1 & H). rewrite fail_if_Ok in H1, H.
    destruct (aa_endedAt au); [done|]. split; [done|]. lia.
  - intros [-> Hlt]. apply bind_Ok. exists (). split; [done|]. apply fail_if_Ok. lia.
Qed.
