(* ===== verification/Invariant.v ===== *)
(** Invariants of the authority database: they hold of the database
    [initializeSchema] creates and every committed transaction preserves them. *)

From Stdlib Require Import Lia.
From S2P Require Import Prelude Utf8 Json Wire Sha256 Time StoreTime Value Intent Bound Event Peer.
From S2P Require Import View AgentView Bind Store EventStore Attach Routes Inbox Outbox.
From S2P Require Import Domain Admission PeerAdmission Current History Frames.

#[local] Open Scope Z_scope.

(** ** What an invariant is *)

Class StoreInvariant (I : db → Prop) : Prop := {
  inv_empty : I empty_db;
  inv_tx : ∀ verify d d', tx_step verify d d' → I d → I d';
}.

Definition initial_store : Store := {| st_db := empty_db; st_closed := false |}.

(** The databases some sequence of method calls produces. *)
Definition reachable (verify : string → string → string → bool) (s : Store) : Prop :=
  rtc (store_step verify) initial_store s.

Section reachability.
Context (verify : string → string → string → bool) (I : db → Prop) `{!StoreInvariant I}.

Lemma inv_steps s s' : rtc (store_step verify) s s' → I s.(st_db) → I s'.(st_db).
Proof.
  induction 1 as [|s1 s2 s3 H _ IH]; [done|]. intros HI. apply IH.
  apply store_step_tx in H as [->|H]; [done|]. by eapply inv_tx.
Qed.

Lemma inv_reachable s : reachable verify s → I s.(st_db).
Proof. intros H. eapply inv_steps; [exact H|]. apply inv_empty. Qed.
End reachability.

(** A transaction whose frame [lem] avoids the tables an invariant reads. *)
Ltac framed frame lem := eapply frame; [keep_by lem|].

(** The transactions of [tx_step] an invariant's frame already covers. *)
Ltac tx_framed frame :=
  lazymatch goal with
  | H : insert_principal _ _ _ = _ |- _ => framed frame insert_principal_changes
  | H : provisionInitialPrincipalTx _ _ _ = _ |- _ => framed frame provisionInitialPrincipalTx_changes
  | H : catalogArtifactTx _ _ = _ |- _ => framed frame catalogArtifactTx_changes
  | H : issueAttachmentTx _ _ _ _ = _ |- _ => framed frame issueAttachmentTx_changes
  | H : endAttachmentTx _ _ _ = _ |- _ => framed frame endAttachmentTx_changes
  | H : enrollPeerRouteTx _ _ _ _ = _ |- _ => framed frame enrollPeerRouteTx_changes
  | H : revokePeerRouteTx _ _ _ = _ |- _ => framed frame revokePeerRouteTx_changes
  | H : currentTx _ _ _ _ = _ |- _ => framed frame currentTx_changes
  | H : commitAdmissionTx _ _ _ _ _ _ _ = _ |- _ => framed frame commitAdmissionTx_changes
  | H : stagePeerDeliveryTx _ _ _ _ _ _ = _ |- _ => framed frame stagePeerDeliveryTx_changes
  | H : preflightPeerAdmissionTx _ _ _ = _ |- _ => framed frame preflightPeerAdmissionTx_changes
  | H : commitPeerAdmissionTx _ _ _ _ _ _ _ = _ |- _ => framed frame commitPeerAdmissionTx_changes
  | H : settlePeerDeliveryTx _ _ _ _ _ _ _ = _ |- _ => framed frame settlePeerDeliveryTx_changes
  | |- _ (expirePeerInboxRowsTx _ _) => framed frame expirePeerInboxRowsTx_changes
  | |- _ (expirePeerOutboxTx _ _) => framed frame expirePeerOutboxTx_changes
  end.

(** An invariant of the tables an admission writes: it is enough that the
    admission spine, an operation row and an inbox row keep it. *)
Section admissions.
Context (I : db → Prop) (ts : list table).
Context (Hframe : ∀ d d', extends d d' → keeps ts d d' → I d → I d').
Context (Hspine : ∀ d c id ids now e d',
  commitDomainAdmissionTx d c id ids now = Ok (e, d') → I d → I d').

Lemma admit_preserves now proof request fl id ids d r d' :
  bool_decide (TOperations ∈ ts) = false →
  commitAdmissionTx now proof request fl id ids d = Ok (r, d') → I d → I d'.
Proof.
  intros Ht H Hinv. apply commitAdmissionTx_Ok in H as (au & [replay|] & _ & _ & H);
    [by destruct H as [_ ->]|].
  assert (∀ d p x i d', insertOperationTx d p x i = Ok d' → I d → I d') as Hop.
  { intros d1 p x i d2 Hi. apply Hframe; [by eapply insertOperationTx_extends|].
    apply insertOperationTx_changes in Hi. intros t Hin. apply Hi.
    rewrite bool_decide_eq_false in Ht |- *. set_solver. }
  destruct H as (_ & [rejection|] & _ & H).
  - apply persistRejectionTx_Ok in H as (receipt & _ & H & _). eauto.
  - apply commitAcceptedAdmissionTx_Ok in H as (event & d1 & receipt & H1 & _ & H & _). eauto.
Qed.

Lemma peer_commit_preserves verify id checks eid ids now d r d' :
  bool_decide (TInbox ∈ ts) = false →
  commitPeerAdmissionTx verify id checks eid ids now d = Ok (r, d') → I d → I d'.
Proof.
  intros Ht H Hinv. pose proof (commitPeerAdmissionTx_extends _ _ _ _ _ _ _ _ _ H) as Hext.
  assert (∀ d d', changes [TInbox] d d' → keeps ts d d') as Hk.
  { intros d1 d2 Hc t Hin. apply Hc. rewrite bool_decide_eq_false in Ht |- *. set_solver. }
  apply commitPeerAdmissionTx_Ok in H as (p & d1 & _ & H). destruct p as [res|prep].
  - destruct H as (_ & <- & Hc). eauto.
  - destruct H as [_ H].
    apply commitAcceptedPeerAdmissionTx_Ok in H as (eff & ev & d2 & rc & row & _ & H2 & _ & Hs & Hw & _).
    apply (Hframe d2); [|eapply Hk, write_inbox_changes; done|eauto].
    apply staged_inbox_Some in Hs as [? ?]. eapply write_inbox_extends; [done|].
    intros old Hold. simplify_eq. right. split; [done|]. right. eauto.
Qed.
End admissions.

(** ** Events and the origin clock *)

(** Sequences are positive, distinct, and leave no gap below the clock. *)
Record clock_inv (d : db) : Prop := {
  ck_nonneg : 0 <= d.(origin_sequence);
  ck_bound : ∀ id r, d.(events) !! id = Some r →
    1 <= r.(evr_origin_sequence) <= d.(origin_sequence) ∧ 0 <= r.(evr_causal_depth) <= 32;
  ck_unique : ∀ id id' r r', d.(events) !! id = Some r → d.(events) !! id' = Some r' →
    r.(evr_origin_sequence) = r'.(evr_origin_sequence) → id = id';
  ck_gapless : ∀ n, 1 <= n <= d.(origin_sequence) →
    ∃ id r, d.(events) !! id = Some r ∧ r.(evr_origin_sequence) = n;
}.

Lemma clock_frame d d' : keeps [TSequence; TEvents] d d' → clock_inv d → clock_inv d'.
Proof.
  intros Hk [H0 H1 H2 H3].
  assert (d'.(origin_sequence) = d.(origin_sequence)) as E1 by (apply (Hk TSequence); set_solver).
  assert (d'.(events) = d.(events)) as E2 by (apply (Hk TEvents); set_solver).
  split; rewrite ?E1, ?E2; done.
Qed.

Lemma insertEventTx_clock d e d' :
  clock_inv d → e.(ev_originSequence) = d.(origin_sequence) + 1 →
  insertEventTx (set_origin_sequence (d.(origin_sequence) + 1) d) e = Ok d' → clock_inv d'.
Proof.
  intros [H0 H1 H2 H3] Hs (pins & -> & _ & Hfresh & _ & Hdepth & Hpos & _ & Hne)%insertEventTx_Ok. db_simpl.
  split; db_simpl; [lia|..].
  - intros id r [[<- <-]|[Hid Hr]]%lookup_insert_Some; [cbn; lia|].
    apply H1 in Hr. lia.
  - intros id id' r r' Hr Hr' E.
    apply lookup_insert_Some in Hr as [[<- <-]|[Hid Hr]];
      apply lookup_insert_Some in Hr' as [[<- <-]|[Hid' Hr']]; try done.
    + exfalso. cbn in E. apply Hne in Hr'. congruence.
    + exfalso. cbn in E. apply Hne in Hr. congruence.
    + by eapply H2.
  - intros n Hn. destruct (decide (n = d.(origin_sequence) + 1)) as [->|].
    + exists e.(ev_id), (event_row_of e). by rewrite lookup_insert_eq.
    + destruct (H3 n) as (id & r & Hr & Hseq); [lia|]. exists id, r. split; [|done].
      rewrite lookup_insert_ne; [done|congruence].
Qed.

Lemma commitDomainAdmissionTx_clock d c id ids now e d' :
  commitDomainAdmissionTx d c id ids now = Ok (e, d') → clock_inv d → clock_inv d'.
Proof.
  intros (a & d2 & d3 & He & H2 & H3 & H4)%commitDomainAdmissionTx_Ok Hinv.
  apply newDomainEventTx_stamp in He as [_ Hs]. pose proof (insertEventTx_clock _ _ _ Hinv Hs H2).
  framed clock_frame insertPeerDeliveriesTx_changes. by framed clock_frame applyDomainEffectTx_changes.
Qed.

Lemma clock_empty : clock_inv empty_db.
Proof. split; intros; cbn in *; [lia|done..|lia]. Qed.

#[export] Instance clock_invariant : StoreInvariant clock_inv.
Proof.
  assert (∀ d d', extends d d' → keeps [TSequence; TEvents] d d' → clock_inv d → clock_inv d')
    as Hf by (intros; by eapply clock_frame).
  split; [apply clock_empty|]. intros verify d d' Htx Hinv. destruct Htx; try by tx_framed clock_frame.
  - by eapply (admit_preserves _ _ Hf commitDomainAdmissionTx_clock).
  - by eapply (peer_commit_preserves _ _ Hf commitDomainAdmissionTx_clock).
Qed.

(** ** Artifact pins *)

(** Pins name stored Events. *)
Lemma pins_frame d d' : extends d d' → keeps [TPins] d d' → pins_closed d → pins_closed d'.
Proof.
  intros Hx Hk Hp id s Hin. assert (d'.(event_artifacts) = d.(event_artifacts)) as E
    by (apply (Hk TPins); set_solver). rewrite E in Hin.
  apply Hp in Hin as [r Hr]. apply (ex_events _ _ Hx) in Hr as (r' & Hr' & _). eauto.
Qed.

Lemma insertEventTx_pins d e d' : insertEventTx d e = Ok d' → pins_closed d → pins_closed d'.
Proof.
  intros H Hp. pose proof (insertEventTx_extends _ _ _ H) as Hx.
  apply insertEventTx_Ok in H as (pins & -> & Hpins & _). intros id s. db_simpl. rewrite Hpins.
  intros [Hin|Hin].
  - apply list_elem_of_fmap in Hin as (x & [= -> _] & _). rewrite lookup_insert_eq. eauto.
  - apply Hp in Hin as [r Hr]. apply (ex_events _ _ Hx) in Hr as (r' & Hr' & _). db_simpl. eauto.
Qed.

Lemma commitDomainAdmissionTx_pins d c id ids now e d' :
  commitDomainAdmissionTx d c id ids now = Ok (e, d') → pins_closed d → pins_closed d'.
Proof.
  intros (a & d2 & d3 & _ & H2 & H3 & H4)%commitDomainAdmissionTx_Ok Hinv.
  eapply pins_frame; [by eapply insertPeerDeliveriesTx_extends|keep_by insertPeerDeliveriesTx_changes|].
  eapply pins_frame; [by eapply applyDomainEffectTx_extends|keep_by applyDomainEffectTx_changes|].
  by eapply insertEventTx_pins.
Qed.

#[export] Instance pins_invariant : StoreInvariant pins_closed.
Proof.
  split; [intros id s Hin; cbn in Hin; set_solver|]. intros verify d d' Htx Hinv.
  pose proof (tx_step_extends _ _ _ Htx) as Hx. destruct Htx; try by tx_framed (pins_frame _ _ Hx).
  - by eapply (admit_preserves _ _ pins_frame commitDomainAdmissionTx_pins).
  - by eapply (peer_commit_preserves _ _ pins_frame commitDomainAdmissionTx_pins).
Qed.

(** A readable Event stays readable. *)
Lemma stored_extends d d' e : extends d d' → stored d e → stored d' e.
Proof.
  intros Hx [Hs Hr Hp]. split; [done| |].
  - apply (ex_events _ _ Hx) in Hr as (r' & Hr' & <-). done.
  - intros s. rewrite <- Hp. split; [|apply (ex_pins _ _ Hx)]. apply (ex_pins_frozen _ _ Hx). eauto.
Qed.

(** ** Boundaries and claims *)

(** Every Handling satisfies its table's CHECK; a claim is held by a live
    boundary of the Handling's Principal and lasts as long as that boundary; a
    boundary holds one claim, a Principal one live boundary. *)
Record claims_inv (d : db) : Prop := {
  cl_check : ∀ id r, d.(handlings) !! id = Some r → handling_check r = true;
  cl_live : ∀ id r a, d.(handlings) !! id = Some r → r.(hr_claim) = Some a →
    ∃ at_row, d.(attachments) !! a = Some at_row ∧ at_row.(atr_ended_at) = None ∧
      at_row.(atr_principal) = r.(hr_target) ∧ r.(hr_until) = Some at_row.(atr_expires_at);
  cl_slot : ∀ id id' r r' a, d.(handlings) !! id = Some r → d.(handlings) !! id' = Some r' →
    r.(hr_claim) = Some a → r'.(hr_claim) = Some a → id = id';
  cl_single : ∀ a a' r r' p, d.(attachments) !! a = Some r → d.(attachments) !! a' = Some r' →
    live_slot r = Some p → live_slot r' = Some p → a = a';
  cl_begin : ∀ a a' r r', d.(attachments) !! a = Some r → d.(attachments) !! a' = Some r' →
    r.(atr_begin_operation_key) = r'.(atr_begin_operation_key) → a = a';
}.

Lemma claims_frame d d' : keeps [THandlings; TAttachments] d d' → claims_inv d → claims_inv d'.
Proof.
  intros Hk [H1 H2 H3 H4 H5].
  assert (d'.(handlings) = d.(handlings)) as E1 by (apply (Hk THandlings); set_solver).
  assert (d'.(attachments) = d.(attachments)) as E2 by (apply (Hk TAttachments); set_solver).
  split; rewrite ?E1, ?E2; done.
Qed.

(** A Handling written with a claim that satisfies the invariant. *)
Lemma write_handling_claims d id row d' :
  claims_inv d → write_handling d id row = Ok d' →
  (∀ a, row.(hr_claim) = Some a → ∃ at_row, d.(attachments) !! a = Some at_row ∧
     at_row.(atr_ended_at) = None ∧ at_row.(atr_principal) = row.(hr_target) ∧
     row.(hr_until) = Some at_row.(atr_expires_at)) → claims_inv d'.
Proof.
  intros [H1 H2 H3 H4 H5] (-> & Hc & _ & _ & _ & Hu)%write_handling_Ok Hclaim.
  split; db_simpl; try done.
  - intros k r [[<- <-]|[_ Hk]]%lookup_insert_Some; eauto.
  - intros k r a [[<- <-]|[_ Hk]]%lookup_insert_Some; eauto.
  - intros k k' r r' a [[<- <-]|[Hne Hk]]%lookup_insert_Some [[<- <-]|[Hne' Hk']]%lookup_insert_Some Ha Ha';
      [done|..].
    + by edestruct Hu.
    + by edestruct Hu.
    + eauto.
Qed.

Lemma release_claims d id row d' :
  claims_inv d → write_handling d id (release_claim row) = Ok d' → claims_inv d'.
Proof. intros Hinv H. by eapply write_handling_claims. Qed.

Lemma settleClaimExpiryTx_claims now d claim d' :
  settleClaimExpiryTx now d claim = Ok d' → claims_inv d → claims_inv d'.
Proof.
  unfold settleClaimExpiryTx. intros H Hinv. inv_tx; [done|]. unfold insertClaimExpiryTx in *. inv_tx.
  framed claims_frame insert_disposition_changes. by eapply release_claims.
Qed.

Lemma foldR_preserves {A} (P : db → Prop) (f : db → A → result db) xs d d' :
  (∀ d x d', f d x = Ok d' → P d → P d') → foldR f d xs = Ok d' → P d → P d'.
Proof.
  intros Hf. revert d. induction xs as [|x xs IH]; intros d H HP; cbn [foldR] in H.
  - by injection H as <-.
  - apply bind_Ok in H as (d1 & H1 & H). eauto.
Qed.

Lemma settleExpiredClaimsTx_claims d p now limit d' :
  settleExpiredClaimsTx d p now limit = Ok d' → claims_inv d → claims_inv d'.
Proof.
  unfold settleExpiredClaimsTx. intros H. inv_tx. eapply foldR_preserves; [|done].
  intros; by eapply settleClaimExpiryTx_claims.
Qed.

(** Closing a boundary that holds no claim. *)
Lemma close_boundary_claims d id row t :
  claims_inv d → d.(attachments) !! id = Some row →
  (∀ k h, d.(handlings) !! k = Some h → h.(hr_claim) ≠ Some id) →
  claims_inv (set_attachments (<[id := with_end row t]> d.(attachments)) d).
Proof.
  intros [H1 H2 H3 H4 H5] Hrow Hno.
  assert (∀ a r, <[id := with_end row t]> d.(attachments) !! a = Some r →
    ∃ r0, d.(attachments) !! a = Some r0 ∧ r0.(atr_begin_operation_key) = r.(atr_begin_operation_key) ∧
      (∀ p, live_slot r = Some p → live_slot r0 = Some p)) as Hat.
  { intros a r [[<- <-]|[_ Ha]]%lookup_insert_Some; [by exists row|by exists r]. }
  split; db_simpl; [done| |done|..].
  - intros j r a Hj Ha. destruct (H2 j r a Hj Ha) as (r0 & Hr0 & ?). exists r0.
    rewrite lookup_insert_ne; [done|]. intros <-. by eapply Hno.
  - intros a a' r r' p (r0 & Hr0 & _ & Hp)%Hat (r0' & Hr0' & _ & Hp')%Hat ? ?. eauto.
  - intros a a' r r' (r0 & Hr0 & E & _)%Hat (r0' & Hr0' & E' & _)%Hat ?. eapply H5; eauto. congruence.
Qed.

(** A claim dropped from the table directly. *)
Lemma drop_claim_claims d k h :
  claims_inv d → d.(handlings) !! k = Some h →
  claims_inv (set_handlings (<[k := release_claim h]> d.(handlings)) d).
Proof.
  intros [H1 H2 H3 H4 H5] Hk. split; db_simpl; try done.
  - intros j r [[<- <-]|[_ Hj]]%lookup_insert_Some; [|eauto].
    specialize (H1 k h Hk). unfold handling_check in *.
    cbn [release_claim hr_outcome hr_fence hr_created hr_state hr_claim hr_until].
    apply andb_prop in H1 as [H1 _]. by rewrite H1.
  - intros j r a [[<- <-]|[_ Hj]]%lookup_insert_Some; [done|eauto].
  - intros j j' r r' a [[<- <-]|[_ Hj]]%lookup_insert_Some [[<- <-]|[_ Hj']]%lookup_insert_Some;
      try done. eauto.
Qed.

Lemma endLiveAttachmentTx_claims d now id b d' :
  endLiveAttachmentTx d now id = Ok (b, d') → claims_inv d → claims_inv d'.
Proof.
  intros (row & Hrow & _ & H)%endLiveAttachmentTx_Ok Hinv. destruct b; cbv zeta in H.
  - destruct H as (k & h & key & disp & Hk & Hopen & Hcl & _ & _ & _ & _ & _ & ->).
    set (d1 := set_handlings (<[k := release_claim h]> d.(handlings)) d).
    assert (claims_inv d1) as Hinv1 by by apply drop_claim_claims.
    assert (∀ j r, d1.(handlings) !! j = Some r → r.(hr_claim) ≠ Some id) as Hno.
    { intros j r Hj E. unfold d1 in Hj. db_simpl. apply lookup_insert_Some in Hj as [[<- <-]|[Hne Hj]]; [done|]. apply Hne. by eapply (cl_slot _ Hinv). }
    eapply claims_frame; [|exact (close_boundary_claims d1 id row (formatTime now) Hinv1 Hrow Hno)].
    intros t Ht. apply elem_of_cons in Ht as [->|Ht%list_elem_of_singleton]; by subst.
  - destruct H as [Hno ->]. by apply close_boundary_claims.
Qed.

Lemma replaceLiveAttachmentTx_claims d now p d' :
  replaceLiveAttachmentTx d now p = Ok d' → claims_inv d → claims_inv d'.
Proof.
  unfold replaceLiveAttachmentTx. intros H Hinv. inv_tx; [|done]. by eapply endLiveAttachmentTx_claims.
Qed.

Lemma issueAttachmentTx_claims now p m d r d' :
  issueAttachmentTx now p m d = Ok (r, d') → claims_inv d → claims_inv d'.
Proof.
  unfold issueAttachmentTx. intros H Hinv. inv_tx; [done|].
  match goal with Hr : replaceLiveAttachmentTx _ _ _ = Ok _ |- _ =>
    apply replaceLiveAttachmentTx_claims in Hr as [K1 K2 K3 K4 K5]; [|done] end.
  unfold insertAttachmentBeginTx in *. inv_tx.
  match goal with Hw : write_attachment _ _ _ = Ok _ |- _ =>
    apply write_attachment_Ok in Hw as (-> & _ & _ & Hkey & Hslot) end.
  unfold references in *. destruct (_ !! am_attachment m) eqn:Hfresh; [done|].
  split; db_simpl; [done| |done|..].
  - intros j h a Hj Ha. destruct (K2 j h a Hj Ha) as (r0 & Hr0 & ?). exists r0.
    rewrite lookup_insert_ne; [done|congruence].
  - intros a a' q q' s [[<- <-]|[Hne Ha]]%lookup_insert_Some [[<- <-]|[Hne' Ha']]%lookup_insert_Some Hs Hs';
      [done|..|by eauto]; exfalso.
    + by eapply Hslot.
    + by eapply Hslot.
  - intros a a' q q' [[<- <-]|[Hne Ha]]%lookup_insert_Some [[<- <-]|[Hne' Ha']]%lookup_insert_Some E;
      [done|..|by eauto]; exfalso.
    + by eapply Hkey.
    + by eapply Hkey.
Qed.

Lemma endAttachmentTx_claims now proof d r d' :
  endAttachmentTx now proof d = Ok (r, d') → claims_inv d → claims_inv d'.
Proof.
  unfold endAttachmentTx. intros H Hinv. inv_tx; [done|]. by eapply endLiveAttachmentTx_claims.
Qed.

Lemma claimNextTx_claims d0 d proof au now r d' :
  authenticateAttachmentTx d0 proof = Ok au → requireLiveAttachment au now = Ok () →
  d.(attachments) = d0.(attachments) →
  claimNextTx d au.(aa_value) = (r, d') → claims_inv d → claims_inv d'.
Proof.
  intros (row & Hrow & _ & Hid & Hp & _ & Hx & _ & He)%authenticateAttachmentTx_Ok
    [Hlive _]%requireLiveAttachment_Ok Eat H Hinv. unfold claimNextTx in H.
  destruct (next_claimable _ _) as [[k h]|] eqn:E; [|by injection H as _ <-].
  apply next_claimable_Some in E as [Hk Hc].
  destruct (wrap_error _ _) as [d1|e] eqn:Hw; injection H as _ <-; [|done].
  apply wrap_error_Ok in Hw. eapply write_handling_claims; [done..|].
  cbn [claim_row hr_claim hr_target hr_until]. intros a [= <-]. exists row.
  rewrite Hlive in He. unfold claimable in Hc. inv_res.
  rewrite Eat, Hid, Hx. split_and!; [done| |congruence|done]. by destruct (atr_ended_at row).
Qed.

Lemma currentTx_claims now proof o d v d' :
  currentTx now proof o d = Ok (v, d') → claims_inv d → claims_inv d'.
Proof.
  intros [->|(au & d1 & claim & d2 & Hau & Hlive & H1 & H2 & _ & H3)]%currentTx_Ok Hinv; [done|].
  framed claims_frame insertCurrentOperationTx_changes.
  pose proof (settleExpiredClaimsTx_claims _ _ _ _ _ H1 Hinv) as Hinv1.
  apply acquireClaimTx_cases in H2 as [->|[r H2]]; [done|]. eapply (claimNextTx_claims d d1); try done.
  apply settleExpiredClaimsTx_changes in H1. by apply (H1 TAttachments).
Qed.

Lemma create_successors_claims e d ts ids d' :
  create_successors e d ts ids = Ok d' → claims_inv d → claims_inv d'.
Proof.
  revert d ids. induction ts as [|t ts IH]; intros d ids H Hinv; cbn [create_successors] in H.
  - by injection H as <-.
  - inv_tx; [by eapply IH|]. eapply IH; [done|].
    match goal with Hi : insert_handling _ _ _ = Ok _ |- _ => apply insert_handling_Ok in Hi as [_ Hi] end.
    by eapply write_handling_claims.
Qed.

Lemma settleSubjectTx_claims d e a st o d' :
  settleSubjectTx d e a st o = Ok d' → claims_inv d → claims_inv d'.
Proof. unfold settleSubjectTx. intros H Hinv. inv_tx. by eapply write_handling_claims. Qed.

Lemma settle_then_create_claims d e a st o ids d' :
  (d ← settleSubjectTx d e a st o; createSuccessorHandlingsTx d e ids) = Ok d' →
  claims_inv d → claims_inv d'.
Proof.
  unfold createSuccessorHandlingsTx. intros H Hinv. apply bind_Ok in H as (d1 & H1 & H). inv_tx.
  eapply create_successors_claims; [done|]. by eapply settleSubjectTx_claims.
Qed.

Lemma reference_effect_changes d e d' :
  publishReferenceTx d e = Ok d' ∨ supersedeReferenceTx d e = Ok d' ∨ retractReferenceTx d e = Ok d' →
  changes [TReferences; TLineage] d d'.
Proof.
  unfold publishReferenceTx, supersedeReferenceTx, retractReferenceTx.
  intros [H|[H|H]]; inv_tx;
    (etrans; [frame_by insert_lineage_changes|frame_by write_reference_changes]).
Qed.

(** The effect of a consequence, by the tables it may touch. *)
Lemma applyDomainEffectTx_Ok d e a ids d' :
  applyDomainEffectTx d e a ids = Ok d' →
  (∃ st o, (d ← settleSubjectTx d e a st o; createSuccessorHandlingsTx d e ids) = Ok d') ∨
  createSuccessorHandlingsTx d e ids = Ok d' ∨
  (publishReferenceTx d e = Ok d' ∨ supersedeReferenceTx d e = Ok d' ∨ retractReferenceTx d e = Ok d') ∨
  d' = d.
Proof.
  unfold applyDomainEffectTx. cbv zeta. intros H. destruct (ev_consequence e); try done; eauto 6;
    inv_tx; by do 3 right.
Qed.

Lemma commitDomainAdmissionTx_claims d c id ids now e d' :
  commitDomainAdmissionTx d c id ids now = Ok (e, d') → claims_inv d → claims_inv d'.
Proof.
  intros (a & d2 & d3 & _ & H2 & H3 & H4)%commitDomainAdmissionTx_Ok Hinv.
  framed claims_frame insertPeerDeliveriesTx_changes.
  assert (claims_inv d2) as Hinv2.
  { framed claims_frame insertEventTx_changes. eapply claims_frame; [|done].
    intros t Ht. apply elem_of_cons in Ht as [->|Ht%list_elem_of_singleton]; by subst. }
  apply applyDomainEffectTx_Ok in H3 as [(st & o & H3)|[H3|[H3| ->]]]; [..|done].
  - by eapply settle_then_create_claims.
  - unfold createSuccessorHandlingsTx in H3. inv_tx. by eapply create_successors_claims.
  - by framed claims_frame reference_effect_changes.
Qed.

Lemma claims_empty : claims_inv empty_db.
Proof. split; intros; cbn in *; done. Qed.

#[export] Instance claims_invariant : StoreInvariant claims_inv.
Proof.
  assert (∀ d d', extends d d' → keeps [THandlings; TAttachments] d d' → claims_inv d → claims_inv d')
    as Hf by (intros; by eapply claims_frame).
  split; [apply claims_empty|]. intros verify d d' Htx Hinv. destruct Htx; try by tx_framed claims_frame.
  - by eapply issueAttachmentTx_claims.
  - by eapply endAttachmentTx_claims.
  - by eapply currentTx_claims.
  - by eapply (admit_preserves _ _ Hf commitDomainAdmissionTx_claims).
  - by eapply (peer_commit_preserves _ _ Hf commitDomainAdmissionTx_claims).
Qed.
