(* ===== verification/Lineage.v ===== *)
(** Reference lineage: every Event that ever defined a key lies on the single
    chain of predecessors that starts at the key's current head. *)

From Stdlib Require Import Lia.
From S2P Require Import Prelude Utf8 Json Wire Sha256 Time StoreTime Value Intent Bound Event Peer.
From S2P Require Import View AgentView Bind Store EventStore Attach Routes Inbox Outbox.
From S2P Require Import Domain Admission PeerAdmission Current History Frames Invariant.

#[local] Open Scope Z_scope.

(** [previous d x y]: the lineage row of [x] names [y]. *)
Definition previous (d : db) (x y : string) : Prop :=
  ∃ r, d.(reference_lineage) !! x = Some r ∧ r.(lr_previous) = Some y.

(** The Event [x] was accepted before the Event [y]. *)
Definition accepted_before (d : db) (x y : string) : Prop :=
  ∃ e e', d.(events) !! x = Some e ∧ d.(events) !! y = Some e' ∧
    e.(evr_origin_sequence) < e'.(evr_origin_sequence).

Record lineage_inv (d : db) : Prop := {
  ln_head : ∀ key ref, d.(active_references) !! key = Some ref →
    ∃ r, d.(reference_lineage) !! ref.(rf_head) = Some r ∧ r.(lr_key) = key ∧
      r.(lr_state) = ref.(rf_state) ∧ r.(lr_artifact) = ref.(rf_artifact);
  ln_chain : ∀ id r, d.(reference_lineage) !! id = Some r →
    ∃ ref, d.(active_references) !! r.(lr_key) = Some ref ∧ rtc (previous d) ref.(rf_head) id;
  ln_previous : ∀ id r p, d.(reference_lineage) !! id = Some r → r.(lr_previous) = Some p →
    ∃ r', d.(reference_lineage) !! p = Some r' ∧ r'.(lr_key) = r.(lr_key) ∧ accepted_before d p id;
  ln_event : ∀ id r, d.(reference_lineage) !! id = Some r → is_Some (d.(events) !! id);
}.

Lemma accepted_before_extends d d' x y : extends d d' → accepted_before d x y → accepted_before d' x y.
Proof.
  intros Hx (e & e' & He & He' & Hlt).
  apply (ex_events _ _ Hx) in He as (? & ? & <-). apply (ex_events _ _ Hx) in He' as (? & ? & <-).
  by exists e, e'.
Qed.

Lemma lineage_frame d d' :
  extends d d' → keeps [TReferences; TLineage] d d' → lineage_inv d → lineage_inv d'.
Proof.
  intros Hx Hk [H1 H2 H3 H4].
  assert (d'.(active_references) = d.(active_references)) as E1 by (apply (Hk TReferences); set_solver).
  assert (d'.(reference_lineage) = d.(reference_lineage)) as E2 by (apply (Hk TLineage); set_solver).
  split; unfold previous in *; rewrite ?E1, ?E2; [done..| |].
  - intros id r p Hr Hp. destruct (H3 id r p Hr Hp) as (r' & ? & ? & ?).
    exists r'. split_and!; [done..|by eapply accepted_before_extends].
  - intros id r [e He]%H4. apply (ex_events _ _ Hx) in He as (e' & He' & _). eauto.
Qed.

(** The head of a key moves to a fresh, later Event that names the old head. *)
Lemma extend_lineage d key id row ref :
  lineage_inv d → d.(reference_lineage) !! id = None → is_Some (d.(events) !! id) →
  (∀ id', id' ≠ id → is_Some (d.(events) !! id') → accepted_before d id' id) →
  row.(lr_key) = key → row.(lr_previous) = rf_head <$> d.(active_references) !! key →
  ref.(rf_head) = id → row.(lr_state) = ref.(rf_state) → row.(lr_artifact) = ref.(rf_artifact) →
  lineage_inv (set_active_references (<[key := ref]> d.(active_references))
                 (set_reference_lineage (<[id := row]> d.(reference_lineage)) d)).
Proof.
  intros [H1 H2 H3 H4] Hfresh Hev Hlast Hkey Hprev Hhead Hst Hart.
  set (d' := set_active_references _ _).
  assert (∀ x r, d.(reference_lineage) !! x = Some r →
    <[id := row]> d.(reference_lineage) !! x = Some r) as Hold.
  { intros x r Hr. rewrite lookup_insert_ne; [done|congruence]. }
  assert (∀ x y, rtc (previous d) x y → rtc (previous d') x y) as Hmono.
  { intros x y. apply rtc_subrel. intros u v (r & Hr & Hv). exists r. split; [by apply Hold|done]. }
  split; unfold d'; db_simpl.
  - intros k rf [[<- <-]|[Hne Hk]]%lookup_insert_Some.
    + exists row. rewrite Hhead, lookup_insert_eq. done.
    + destruct (H1 k rf Hk) as (r & Hr & ?). exists r. split; [by apply Hold|done].
  - intros x r [[<- <-]|[Hne Hx]]%lookup_insert_Some.
    + exists ref. rewrite Hkey, lookup_insert_eq, Hhead. split; [done|apply rtc_refl].
    + destruct (H2 x r Hx) as (rf & Hrf & Hchain). destruct (decide (lr_key r = key)) as [E|Hk].
      * exists ref. rewrite E, lookup_insert_eq. split; [done|]. eapply rtc_l; [|by apply Hmono].
        rewrite Hhead. exists row. rewrite Hprev, <- E, Hrf. split; [apply lookup_insert_eq|done].
      * exists rf. rewrite lookup_insert_ne by done. auto.
  - intros x r p [[<- <-]|[Hne Hx]]%lookup_insert_Some Hp.
    + rewrite Hprev in Hp. apply fmap_Some in Hp as (rf & Hrf & ->).
      destruct (H1 key rf Hrf) as (r & Hr & Hrk & _). exists r. split_and!; [by apply Hold|congruence|].
      apply (Hlast (rf_head rf)); [congruence|by eapply H4].
    + destruct (H3 x r p Hx Hp) as (r' & Hr' & ?). exists r'. split; [by apply Hold|done].
  - intros x r [[<- <-]|[Hne Hx]]%lookup_insert_Some; [done|by eapply H4].
Qed.

(** ** Reference effects *)

Lemma insert_lineage_Ok d id row d' :
  insert_lineage d id row = Ok d' →
  d' = set_reference_lineage (<[id := row]> d.(reference_lineage)) d ∧
  d.(reference_lineage) !! id = None ∧ is_Some (d.(events) !! id).
Proof.
  unfold insert_lineage. intros H. inv_tx. split_and!; [done| |by apply references_true].
  unfold references in *. by destruct (reference_lineage d !! id).
Qed.

Lemma write_reference_Ok d key row d' :
  write_reference d key row = Ok d' →
  d' = set_active_references (<[key := row]> d.(active_references)) d.
Proof. unfold write_reference. intros H. by inv_tx. Qed.

Lemma reference_at_Some d expected row :
  reference_at d expected = Some row →
  d.(active_references) !! expected.(re_key) = Some row ∧ row.(rf_head) = expected.(re_head).(er_id).
Proof.
  unfold reference_at. destruct (_ !! _) as [r|]; [|done]. cbn [mbind option_bind].
  destruct (bool_decide _) eqn:E; [|done]. intros [= <-]. by inv_res.
Qed.

(** Publish, supersede and retract all move the head of the expected key to the
    new Event; the lineage row names the head that was expected. *)
Lemma reference_effect_Ok d e d' :
  publishReferenceTx d e = Ok d' ∨ supersedeReferenceTx d e = Ok d' ∨ retractReferenceTx d e = Ok d' →
  ∃ expected row ref, e.(ev_expectedRef) = Some expected ∧
    row.(lr_key) = expected.(re_key) ∧ ref.(rf_head) = e.(ev_id) ∧
    row.(lr_state) = ref.(rf_state) ∧ row.(lr_artifact) = ref.(rf_artifact) ∧
    row.(lr_previous) = rf_head <$> d.(active_references) !! expected.(re_key) ∧
    row.(lr_previous) = (if expected.(re_absent) then None else Some expected.(re_head).(er_id)) ∧
    d.(reference_lineage) !! e.(ev_id) = None ∧ is_Some (d.(events) !! e.(ev_id)) ∧
    d' = set_active_references (<[expected.(re_key) := ref]> d.(active_references))
           (set_reference_lineage (<[e.(ev_id) := row]> d.(reference_lineage)) d).
Proof.
  unfold publishReferenceTx, supersedeReferenceTx, retractReferenceTx.
  intros [H|[H|H]]; inv_tx;
    match goal with Hi : insert_lineage _ _ _ = Ok _ |- _ => apply insert_lineage_Ok in Hi as (-> & ? & ?) end;
    match goal with Hi : write_reference _ _ _ = Ok _ |- _ => apply write_reference_Ok in Hi as -> end;
    db_simpl; eexists _, _, _; (split_and!; [done|..|done]); try done; cbn [lr_previous rf_head].
  - unfold references in *. by destruct (active_references d !! _).
  - by replace (re_absent _) with true by congruence.
  - match goal with Hi : reference_at _ _ = Some _ |- _ => apply reference_at_Some in Hi as [Hl Hh] end.
    db_simpl. rewrite Hl. cbn [fmap option_fmap option_map]. by rewrite Hh.
  - by replace (re_absent _) with false by congruence.
  - match goal with Hi : reference_at _ _ = Some _ |- _ => apply reference_at_Some in Hi as [Hl Hh] end.
    db_simpl. rewrite Hl. cbn [fmap option_fmap option_map]. by rewrite Hh.
  - by replace (re_absent _) with false by congruence.
Qed.

(** Right after it is inserted, the new Event is later than every other one. *)
Lemma inserted_last d e d2 id :
  clock_inv d → e.(ev_originSequence) = d.(origin_sequence) + 1 →
  insertEventTx (set_origin_sequence (d.(origin_sequence) + 1) d) e = Ok d2 →
  id ≠ e.(ev_id) → is_Some (d2.(events) !! id) → accepted_before d2 id e.(ev_id).
Proof.
  intros Hck Hseq (pins & -> & _)%insertEventTx_Ok Hne [r Hr]. unfold accepted_before. db_simpl.
  rewrite lookup_insert_ne in Hr by done. exists r, (event_row_of e).
  rewrite lookup_insert_ne, lookup_insert_eq by done. split_and!; [done..|].
  apply (ck_bound _ Hck) in Hr. cbn. lia.
Qed.

(** The clock orders the lineage. *)
Definition references_inv (d : db) : Prop := clock_inv d ∧ lineage_inv d.

Lemma commitDomainAdmissionTx_lineage d c id ids now e d' :
  commitDomainAdmissionTx d c id ids now = Ok (e, d') →
  references_inv d → references_inv d'.
Proof.
  intros H [Hck Hln]. split; [by eapply commitDomainAdmissionTx_clock|].
  apply commitDomainAdmissionTx_Ok in H as (a & d2 & d3 & He & H2 & H3 & H4).
  apply newDomainEventTx_stamp in He as [_ Hseq].
  eapply lineage_frame; [by eapply insertPeerDeliveriesTx_extends|keep_by insertPeerDeliveriesTx_changes|].
  assert (lineage_inv d2) as Hln2.
  { eapply lineage_frame; [|keep_by insertEventTx_changes|].
    - by eapply insertEventTx_extends.
    - eapply lineage_frame; [apply extends_sequence; lia| |done].
      intros t Ht. apply elem_of_cons in Ht as [->|Ht%list_elem_of_singleton]; by subst. }
  pose proof (λ i, inserted_last d e d2 i Hck Hseq H2) as Hlast.
  pose proof H3 as Hx. apply applyDomainEffectTx_extends in Hx.
  apply applyDomainEffectTx_Ok in H3 as [(st & o & H3)|[H3|[H3| ->]]]; [..|done].
  - eapply lineage_frame; [done|keep_by settle_then_create_changes|done].
  - eapply lineage_frame; [done|keep_by createSuccessorHandlingsTx_changes|done].
  - apply reference_effect_Ok in H3 as (x & row & ref & _ & E1 & E2 & E3 & E4 & E5 & _ & E6 & E7 & ->).
    by apply extend_lineage.
Qed.

#[export] Instance lineage_invariant : StoreInvariant references_inv.
Proof.
  assert (∀ d d', extends d d' → keeps [TSequence; TEvents; TReferences; TLineage] d d' →
    references_inv d → references_inv d') as Hf.
  { intros d d' Hx Hk [Hck Hln]. split.
    - eapply clock_frame; [|done]. intros t Ht. apply Hk. set_solver.
    - eapply lineage_frame; [done| |done]. intros t Ht. apply Hk. set_solver. }
  split; [split; [apply clock_empty|split; intros; cbn in *; done]|].
  intros verify d d' Htx Hinv. pose proof (tx_step_extends _ _ _ Htx) as Hx.
  destruct Htx; try by tx_framed (Hf _ _ Hx).
  - by eapply (admit_preserves _ _ Hf commitDomainAdmissionTx_lineage).
  - by eapply (peer_commit_preserves _ _ Hf commitDomainAdmissionTx_lineage).
Qed.

(** The keys along a chain agree, and acceptance order strictly decreases. *)
Lemma chain_key d x y r r' :
  lineage_inv d → rtc (previous d) x y →
  d.(reference_lineage) !! x = Some r → d.(reference_lineage) !! y = Some r' → r.(lr_key) = r'.(lr_key).
Proof.
  intros Hln Hxy. revert r. induction Hxy as [x|x z y (rx & Hx & Hp) _ IH]; intros r Hr Hr'; [congruence|].
  simplify_eq. destruct (ln_previous _ Hln _ _ _ Hx Hp) as (rz & Hz & <- & _). by apply IH.
Qed.

(** ** Chains of a functional relation are comparable *)

Lemma previous_functional d x y z : previous d x y → previous d x z → y = z.
Proof. intros (r & Hr & Hy) (r' & Hr' & Hz). congruence. Qed.

Lemma rtc_functional {A} (R : relation A) x y z :
  (∀ a b c, R a b → R a c → b = c) → rtc R x y → rtc R x z → rtc R y z ∨ rtc R z y.
Proof.
  intros Hf Hy. revert z. induction Hy as [x|x x1 y Hx Hy IH]; intros z Hz; [by left|].
  destruct Hz as [x|x x2 z Hx2 Hz]; [right; by eapply rtc_l|].
  apply IH. by rewrite (Hf _ _ _ Hx Hx2).
Qed.
