(* ===== verification/PeerInv.v ===== *)
(** Invariants of the peer tables: bounded active routes and staged deliveries,
    rows that satisfy their CHECKs, and the uniqueness the indexes give. *)

From Stdlib Require Import Lia.
From S2P Require Import Prelude Utf8 Json Wire Sha256 Time StoreTime Value Intent Bound Event Peer.
From S2P Require Import View AgentView Bind Store EventStore Attach Routes Inbox Outbox.
From S2P Require Import Domain Admission PeerAdmission Current History Frames Invariant.

#[local] Open Scope Z_scope.

(** ** A unique column across a write *)

Section unique.
Context {K R X : Type} `{Countable K, EqDecision X} (column : R → option X).

Definition unique_in (table : gmap K R) : Prop :=
  ∀ k k' r r' x, table !! k = Some r → table !! k' = Some r' →
    column r = Some x → column r' = Some x → k = k'.

Lemma unique_in_insert table k row :
  unique_in table → unique_column column row (delete k table) = true →
  unique_in (<[k := row]> table).
Proof.
  rewrite unique_column_true. intros Ht Hu i j r r' x Hi Hj Hr Hr'.
  apply lookup_insert_Some in Hi as [[<- <-]|[Hne Hi]];
    apply lookup_insert_Some in Hj as [[<- <-]|[Hne' Hj]]; [done|..|by eauto]; exfalso.
  - eapply (Hu j r'); [by rewrite lookup_delete_ne|done|done].
  - eapply (Hu i r); [by rewrite lookup_delete_ne|done|done].
Qed.

Lemma unique_in_fmap table (f : R → R) :
  (∀ r x, column (f r) = Some x → column r = Some x) → unique_in table → unique_in (f <$> table).
Proof.
  intros Hf Ht i j r r' x Hi Hj Hr Hr'. rewrite lookup_fmap in Hi, Hj.
  apply fmap_Some in Hi as (s & Hs & ->). apply fmap_Some in Hj as (s' & Hs' & ->). eauto.
Qed.
End unique.

(** ** Routes *)

Record routes_inv (d : db) : Prop := {
  ro_bound : count route_active d.(peer_routes) <= MaxActivePeerRoutes;
  ro_check : ∀ id r, d.(peer_routes) !! id = Some r → route_check r = true;
  ro_peer : unique_in (λ r, Some r.(rr_remote_peer)) d.(peer_routes);
  ro_source : unique_in (λ r, Some r.(rr_surrogate)) d.(peer_routes);
}.

Lemma routes_frame d d' : keeps [TRoutes] d d' → routes_inv d → routes_inv d'.
Proof.
  intros Hk [H1 H2 H3 H4].
  assert (d'.(peer_routes) = d.(peer_routes)) as E by (apply (Hk TRoutes); set_solver).
  split; by rewrite E.
Qed.

Lemma write_route_Ok d id row d' :
  write_route d id row = Ok d' →
  d' = set_peer_routes (<[id := row]> d.(peer_routes)) d ∧ route_check row = true ∧
  unique_column (λ r, Some r.(rr_remote_peer)) row (delete id d.(peer_routes)) = true ∧
  unique_column (λ r, Some r.(rr_surrogate)) row (delete id d.(peer_routes)) = true.
Proof. unfold write_route. intros H. by inv_tx. Qed.

Lemma write_route_routes d id row d' :
  routes_inv d → write_route d id row = Ok d' →
  count route_active (<[id := row]> d.(peer_routes)) <= MaxActivePeerRoutes → routes_inv d'.
Proof.
  intros [H1 H2 H3 H4] (-> & Hc & Hp & Hs)%write_route_Ok Hb. split; db_simpl; [done| |..].
  - intros k r [[<- <-]|[_ Hk]]%lookup_insert_Some; [done|eauto].
  - by apply unique_in_insert.
  - by apply unique_in_insert.
Qed.

Lemma enrollPeerRouteTx_routes now spec sur d r d' :
  enrollPeerRouteTx now spec sur d = Ok (r, d') → routes_inv d → routes_inv d'.
Proof.
  unfold enrollPeerRouteTx. intros H Hinv. inv_tx; [done|].
  match goal with Hp : insert_principal _ _ _ = Ok ?x |- _ =>
    assert (routes_inv x) by (by framed routes_frame insert_principal_changes);
    apply insert_principal_changes in Hp; pose proof (Hp TRoutes eq_refl) as E; cbn in E end.
  eapply write_route_routes; [done..|]. unfold references in *.
  rewrite count_insert_new by (by destruct (_ !! prs_RouteID spec)). rewrite E.
  unfold requirePeerRouteInputsAvailableTx in *. inv_tx. destruct (route_active _ _); lia.
Qed.

Lemma revokePeerRouteTx_routes now id d r d' :
  revokePeerRouteTx now id d = Ok (r, d') → routes_inv d → routes_inv d'.
Proof.
  unfold revokePeerRouteTx. intros H Hinv. inv_tx; [done|].
  match goal with Hl : peer_routes d !! id = Some ?x, Hw : write_route _ _ _ = Ok ?y |- _ =>
    cut (routes_inv y); [by apply routes_frame; intros t ->%list_elem_of_singleton|];
    eapply write_route_routes; [done..|]; rewrite (count_insert _ _ _ _ _ Hl) end.
  pose proof (ro_bound _ Hinv). match goal with |- context [route_active ?i (revoke_row ?x ?t)] =>
    change (route_active i (revoke_row x t)) with false end.
  destruct (route_active _ _); lia.
Qed.

#[export] Instance routes_invariant : StoreInvariant routes_inv.
Proof.
  split; [split; [done|intros; cbn in *; done..]|].
  intros verify d d' Htx Hinv. destruct Htx; try by tx_framed routes_frame.
  - by eapply enrollPeerRouteTx_routes.
  - by eapply revokePeerRouteTx_routes.
Qed.

(** ** Inbox *)

Record inbox_inv (d : db) : Prop := {
  in_bound : count inbox_staged d.(peer_inbox) <= MaxStagedPeerDeliveries;
  in_check : ∀ id r, d.(peer_inbox) !! id = Some r → inbox_check r = true;
  in_event : unique_in ir_local_event d.(peer_inbox);
  in_reply : unique_in accepted_reply d.(peer_inbox);
}.

Lemma inbox_frame d d' : keeps [TInbox] d d' → inbox_inv d → inbox_inv d'.
Proof.
  intros Hk [H1 H2 H3 H4].
  assert (d'.(peer_inbox) = d.(peer_inbox)) as E by (apply (Hk TInbox); set_solver).
  split; by rewrite E.
Qed.

Lemma write_inbox_Ok d id row d' :
  write_inbox d id row = Ok d' →
  d' = set_peer_inbox (<[id := row]> d.(peer_inbox)) d ∧ inbox_check row = true ∧
  is_Some (d.(peer_routes) !! row.(ir_route)) ∧
  unique_column ir_local_event row (delete id d.(peer_inbox)) = true ∧
  unique_column accepted_reply row (delete id d.(peer_inbox)) = true.
Proof. unfold write_inbox. intros H. inv_tx. split_and!; try done. by apply references_true. Qed.

Lemma write_inbox_inbox d id row d' :
  inbox_inv d → write_inbox d id row = Ok d' →
  count inbox_staged (<[id := row]> d.(peer_inbox)) <= MaxStagedPeerDeliveries → inbox_inv d'.
Proof.
  intros [H1 H2 H3 H4] (-> & Hc & _ & He & Hr)%write_inbox_Ok Hb. split; db_simpl; [done| |..].
  - intros k r [[<- <-]|[_ Hk]]%lookup_insert_Some; [done|eauto].
  - by apply unique_in_insert.
  - by apply unique_in_insert.
Qed.

(** A staged row settled or expired. *)
Lemma resolve_inbox d id old row d' :
  inbox_inv d → write_inbox d id row = Ok d' → d.(peer_inbox) !! id = Some old →
  row.(ir_state) ≠ InboxStaged → inbox_inv d'.
Proof.
  intros Hinv Hw Hold Hst. eapply write_inbox_inbox; [done..|].
  rewrite (count_insert _ _ _ _ _ Hold). pose proof (in_bound _ Hinv).
  unfold inbox_staged at 3. rewrite bool_decide_eq_false_2 by done.
  destruct (inbox_staged id old); lia.
Qed.

Lemma expirePeerInboxTx_inbox d x now r d' :
  expirePeerInboxTx d x now = Ok (r, d') → inbox_inv d → inbox_inv d'.
Proof.
  unfold expirePeerInboxTx. intros H Hinv. inv_tx.
  match goal with Hs : staged_inbox _ _ = Some _ |- _ => apply staged_inbox_Some in Hs as [? ?] end.
  by eapply resolve_inbox.
Qed.

Lemma settleRejectedPeerInboxTx_inbox d x c g now r d' :
  settleRejectedPeerInboxTx d x c g now = Ok (r, d') → inbox_inv d → inbox_inv d'.
Proof.
  unfold settleRejectedPeerInboxTx. intros H Hinv. inv_tx.
  match goal with Hs : staged_inbox _ _ = Some _ |- _ => apply staged_inbox_Some in Hs as [? ?] end.
  by eapply resolve_inbox.
Qed.

Lemma expire_inbox_due_facts now r :
  (∀ k, inbox_staged k (expire_inbox_due now r) = true → inbox_staged k r = true) ∧
  (inbox_check r = true → inbox_check (expire_inbox_due now r) = true) ∧
  (expire_inbox_due now r).(ir_local_event) = r.(ir_local_event) ∧
  accepted_reply (expire_inbox_due now r) = accepted_reply r.
Proof.
  unfold expire_inbox_due. destruct (bool_decide _) eqn:Hs; [|done].
  destruct (String.leb _ _); [|done]. split_and!; [done| |done|done].
  apply bool_decide_eq_true in Hs. unfold inbox_check.
  cbn [expire_row ir_signature ir_state ir_local_event ir_receipt_digest ir_receipt ir_settled_at].
  rewrite Hs. intros H. inv_res. repeat (apply andb_true_intro; split); done.
Qed.

Lemma expirePeerInboxRowsTx_inbox d now : inbox_inv d → inbox_inv (expirePeerInboxRowsTx d now).
Proof.
  intros [H1 H2 H3 H4]. unfold expirePeerInboxRowsTx. split; db_simpl.
  - etrans; [apply count_fmap_le|done]. intros k r. by apply expire_inbox_due_facts.
  - intros id r Hr. rewrite lookup_fmap in Hr. apply fmap_Some in Hr as (s & Hs & ->).
    apply expire_inbox_due_facts. eauto.
  - apply unique_in_fmap; [|done]. intros r x. by destruct (expire_inbox_due_facts now r) as (_ & _ & -> & _).
  - apply unique_in_fmap; [|done]. intros r x. by destruct (expire_inbox_due_facts now r) as (_ & _ & _ & ->).
Qed.

Lemma expirePeerInboxDeliveryTx_inbox d id now :
  inbox_inv d → inbox_inv (expirePeerInboxDeliveryTx d id now).
Proof.
  intros [H1 H2 H3 H4]. unfold expirePeerInboxDeliveryTx.
  destruct (d.(peer_inbox) !! DeliveryID_String id) as [r|] eqn:E.
  - assert (∀ x : gmap string inbox_row, x !! DeliveryID_String id = Some r →
      alter (expire_inbox_due now) (DeliveryID_String id) x =
      <[DeliveryID_String id := expire_inbox_due now r]> x) as Ealter.
    { intros x Hx. apply map_eq. intros k. destruct (decide (k = DeliveryID_String id)) as [->|Hne].
      - by rewrite lookup_alter_eq, lookup_insert_eq, Hx.
      - by rewrite lookup_alter_ne, lookup_insert_ne. }
    destruct (expire_inbox_due_facts now r) as (F1 & F2 & F3 & F4).
    rewrite Ealter by done. split; db_simpl.
    + rewrite (count_insert _ _ _ _ _ E). specialize (F1 (DeliveryID_String id)).
      destruct (inbox_staged _ (expire_inbox_due now r)), (inbox_staged _ r); lia || by specialize (F1 eq_refl).
    + intros k s [[<- <-]|[_ Hk]]%lookup_insert_Some; eauto.
    + intros i j s s' x [[<- <-]|[_ Hi]]%lookup_insert_Some [[<- <-]|[_ Hj]]%lookup_insert_Some;
        rewrite ?F3; eauto.
    + intros i j s s' x [[<- <-]|[_ Hi]]%lookup_insert_Some [[<- <-]|[_ Hj]]%lookup_insert_Some;
        rewrite ?F4; eauto.
  - rewrite alter_id by congruence. done.
Qed.

Lemma insert_inbox_inbox d id row d' :
  inbox_inv d → insert_inbox d id row = Ok d' →
  count inbox_staged d.(peer_inbox) < MaxStagedPeerDeliveries → inbox_inv d'.
Proof.
  unfold insert_inbox. intros Hinv H Hb. inv_tx. eapply write_inbox_inbox; [done..|].
  unfold references in *. rewrite count_insert_new by (by destruct (_ !! id)).
  destruct (inbox_staged id row); lia.
Qed.

Lemma stagePeerDeliveryTx_inbox verify peer c sig now d r d' :
  stagePeerDeliveryTx verify peer c sig now d = Ok (r, d') → inbox_inv d → inbox_inv d'.
Proof.
  unfold stagePeerDeliveryTx, replayPeerInboxTx. intros H Hinv.
  inv_tx; [by eapply expirePeerInboxTx_inbox|done|].
  unfold stageFreshPeerDeliveryTx, insertRejectedPeerInboxTx, insertExpiredPeerInboxTx in *.
  pose proof (expirePeerInboxRowsTx_inbox d now Hinv). inv_tx;
    (eapply insert_inbox_inbox; [done..|lia]).
Qed.

Lemma preparePeerAdmissionTx_inbox verify d id checks now p d' :
  preparePeerAdmissionTx verify d id checks now = Ok (p, d') → inbox_inv d → inbox_inv d'.
Proof.
  intros [->|[(x & c & g & r & H)|(x & r & H)]]%preparePeerAdmissionTx_cases; [done|..].
  - by eapply settleRejectedPeerInboxTx_inbox.
  - by eapply expirePeerInboxTx_inbox.
Qed.

Lemma commitPeerAdmissionTx_inbox verify id checks eid ids now d r d' :
  commitPeerAdmissionTx verify id checks eid ids now d = Ok (r, d') → inbox_inv d → inbox_inv d'.
Proof.
  intros (p & d1 & Hp & H)%commitPeerAdmissionTx_Ok Hinv.
  pose proof (preparePeerAdmissionTx_inbox _ _ _ _ _ _ _ Hp Hinv) as Hinv1.
  destruct p as [res|prep]; [by destruct H as (_ & -> & _)|]. destruct H as [-> H].
  apply commitAcceptedPeerAdmissionTx_Ok in H as (eff & ev & d2 & rc & row & _ & H2 & _ & Hs & Hw & _).
  apply staged_inbox_Some in Hs as [? ?]. eapply resolve_inbox; [|done..].
  by framed inbox_frame commitDomainAdmissionTx_changes.
Qed.

Lemma preflightPeerAdmissionTx_inbox id now d r d' :
  preflightPeerAdmissionTx id now d = Ok (r, d') → inbox_inv d → inbox_inv d'.
Proof.
  unfold preflightPeerAdmissionTx. intros H Hinv. inv_tx; by apply expirePeerInboxDeliveryTx_inbox.
Qed.

#[export] Instance inbox_invariant : StoreInvariant inbox_inv.
Proof.
  split; [split; [done|intros; cbn in *; done..]|].
  intros verify d d' Htx Hinv. destruct Htx; try by tx_framed inbox_frame.
  - by eapply stagePeerDeliveryTx_inbox.
  - by apply expirePeerInboxRowsTx_inbox.
  - by eapply preflightPeerAdmissionTx_inbox.
  - by eapply commitPeerAdmissionTx_inbox.
Qed.

(** ** Outbox *)

Record outbox_inv (d : db) : Prop := {
  ob_check : ∀ id r, d.(peer_outbox) !! id = Some r → outbox_check r = true;
  ob_origin : unique_in (λ r, Some (r.(or_origin_event), r.(or_route))) d.(peer_outbox);
  ob_envelope : unique_in (λ r, Some r.(or_envelope_digest)) d.(peer_outbox);
}.

Lemma outbox_frame d d' : keeps [TOutbox] d d' → outbox_inv d → outbox_inv d'.
Proof.
  intros Hk [H1 H2 H3].
  assert (d'.(peer_outbox) = d.(peer_outbox)) as E by (apply (Hk TOutbox); set_solver).
  split; by rewrite E.
Qed.

Lemma write_outbox_Ok d id row d' :
  write_outbox d id row = Ok d' →
  d' = set_peer_outbox (<[id := row]> d.(peer_outbox)) d ∧ outbox_check row = true ∧
  unique_column (λ r, Some r.(or_envelope_digest)) row (delete id d.(peer_outbox)) = true ∧
  unique_column (λ r, Some (r.(or_origin_event), r.(or_route))) row (delete id d.(peer_outbox)) = true.
Proof. unfold write_outbox. intros H. by inv_tx. Qed.

Lemma write_outbox_outbox d id row d' :
  write_outbox d id row = Ok d' → outbox_inv d → outbox_inv d'.
Proof.
  intros (-> & Hc & He & Ho)%write_outbox_Ok [H1 H2 H3]. split; db_simpl.
  - intros k r [[<- <-]|[_ Hk]]%lookup_insert_Some; [done|eauto].
  - by apply unique_in_insert.
  - by apply unique_in_insert.
Qed.

Lemma expire_outbox_where_outbox w t d : outbox_inv d → outbox_inv (expire_outbox_where w t d).
Proof.
  intros [H1 H2 H3]. unfold expire_outbox_where. split; db_simpl.
  - intros id r Hr. rewrite lookup_fmap in Hr. apply fmap_Some in Hr as (s & Hs & ->).
    specialize (H1 _ _ Hs). destruct (bool_decide _) eqn:Hp; [|done]. destruct (w s); [|done].
    apply bool_decide_eq_true in Hp. cbn [andb]. unfold outbox_check in *.
    cbn [expire_outbox or_anchor or_root_event or_root_digest or_state or_receipt_digest or_receipt
         or_receipt_signature or_settled_at]. rewrite Hp in H1.
    apply andb_prop in H1 as [-> H1]. inv_res. repeat (apply andb_true_intro; split); done.
  - apply unique_in_fmap; [|done]. intros r x. by destruct (_ && _).
  - apply unique_in_fmap; [|done]. intros r x. by destruct (_ && _).
Qed.

Lemma insertPeerDeliveriesTx_outbox d e ids now d' :
  insertPeerDeliveriesTx d e ids now = Ok d' → outbox_inv d → outbox_inv d'.
Proof.
  unfold insertPeerDeliveriesTx. intros H. apply bind_Ok in H as (reply & _ & H).
  eapply foldR_preserves; [|done]. clear. intros d t d' H Hinv. unfold insert_delivery in H. inv_tx.
  by eapply write_outbox_outbox.
Qed.

Lemma commitDomainAdmissionTx_outbox d c id ids now e d' :
  commitDomainAdmissionTx d c id ids now = Ok (e, d') → outbox_inv d → outbox_inv d'.
Proof.
  intros (a & d2 & d3 & _ & H2 & H3 & H4)%commitDomainAdmissionTx_Ok Hinv.
  eapply insertPeerDeliveriesTx_outbox; [done|]. framed outbox_frame applyDomainEffectTx_changes.
  framed outbox_frame insertEventTx_changes. eapply outbox_frame; [|done].
  by intros t ->%list_elem_of_singleton.
Qed.

Lemma revokePeerRouteTx_outbox now id d r d' :
  revokePeerRouteTx now id d = Ok (r, d') → outbox_inv d → outbox_inv d'.
Proof.
  unfold revokePeerRouteTx. intros H Hinv. inv_tx; [done|]. apply expire_outbox_where_outbox.
  by framed outbox_frame write_route_changes.
Qed.

#[export] Instance outbox_invariant : StoreInvariant outbox_inv.
Proof.
  assert (∀ d d', extends d d' → keeps [TOutbox] d d' → outbox_inv d → outbox_inv d')
    as Hf by (intros; by eapply outbox_frame).
  split; [split; intros; cbn in *; done|].
  intros verify d d' Htx Hinv. destruct Htx; try by tx_framed outbox_frame.
  - by eapply revokePeerRouteTx_outbox.
  - by eapply (admit_preserves _ _ Hf commitDomainAdmissionTx_outbox).
  - by eapply (peer_commit_preserves _ _ Hf commitDomainAdmissionTx_outbox).
  - by apply expire_outbox_where_outbox.
  - unfold settlePeerDeliveryTx in *. inv_tx; [done|by eapply write_outbox_outbox].
Qed.
