(* ===== verification/Replies.v ===== *)
(** What an accepted peer admission has established, and the terminal replies a
    local responsibility may collect: each outbound Delivery is answered at most
    once and a Handling observes at most 64 replies. *)

From Stdlib Require Import Lia.
From S2P Require Import Prelude Utf8 Json Wire Sha256 Time StoreTime Value Intent Bound Event Peer.
From S2P Require Import View AgentView Bind Store EventStore Attach Routes Inbox Outbox.
From S2P Require Import Domain Admission PeerAdmission Current History Frames Invariant PeerInv.

#[local] Open Scope Z_scope.

(** ** Inspection of stored rows *)

Lemma scanPeerRoute_id id row route : scanPeerRoute id row = Ok route → pr_routeID route = id.
Proof.
  unfold scanPeerRoute, scan_route_spec. intros H. apply bind_Ok in H as (spec & Hs & H).
  repeat (apply bind_Ok in Hs as (? & ? & Hs)). injection Hs as <-.
  match goal with Hn : or_error (NewRouteID _) _ = Ok _ |- _ =>
    apply or_error_Ok, newIdentifier_Ok in Hn as [-> _] end.
  apply bind_Ok in H as (? & _ & H). apply bind_Ok in H as (? & _ & H). apply bind_Ok in H as (? & _ & H).
  apply bind_Ok in H as (? & _ & H). apply bind_Ok in H as (? & _ & H).
  apply bind_Ok in H as ([] & _ & H). by injection H as <-.
Qed.

Lemma peerRouteByIDTx_Some d id route :
  peerRouteByIDTx d id = Ok (Some route) →
  ∃ row, d.(peer_routes) !! id = Some row ∧ scanPeerRoute id row = Ok route ∧ pr_routeID route = id.
Proof.
  unfold peerRouteByIDTx. destruct (_ !! id) as [row|] eqn:E; [|done]. intros H.
  apply bind_Ok in H as (r & Hr & [= ->]). exists row. split_and!; [done..|by eapply scanPeerRoute_id].
Qed.

(** An inbox row reads back as the Delivery its envelope parses to. *)
Lemma peerInboxResultTx_Some d id result :
  peerInboxResultTx d id = Ok (Some result) →
  ∃ row parsed, d.(peer_inbox) !! DeliveryID_String id = Some row ∧
    ParsePeerDeliveryCanonicalJSON row.(ir_delivery) row.(ir_route) = Ok parsed ∧
    result.(pa_delivery) = parsed.(pp_delivery) ∧ parsed.(pp_delivery).(pd_id) = id ∧
    row.(ir_in_reply_to) = peerInboxReplyValue parsed.(pp_delivery) ∧
    (result.(pa_state) = PeerAdmissionStateStaged → row.(ir_state) = InboxStaged).
Proof.
  unfold peerInboxResultTx. destruct (_ !! _) as [row|] eqn:E; [|done]. intros H.
  apply bind_Ok in H as (route & Hroute & H). apply or_error_Ok, newIdentifier_Ok in Hroute as [-> _].
  apply bind_Ok in H as (parsed & Hp & H). apply or_error_Ok in Hp.
  apply bind_Ok in H as ([] & Hid & H). apply bind_Ok in H as ([] & Hreply & H).
  apply bind_Ok in H as (? & _ & H). apply bind_Ok in H as ([] & _ & H).
  apply bind_Ok in H as (r & Hr & [= ->]). exists row, parsed.
  unfold peerInboxReplyMatches in Hreply. inv_res. split_and!; try done; revert Hr;
    unfold parsePeerInboxStateTx; cbv zeta; destruct (ir_state row); intros Hr; inv_tx; done.
Qed.

(** ** The authority of an accepted Delivery *)

Record admissible (verify : string → string → string → bool) (d : db) (id : DeliveryID)
    (checks : list artifactCheck) (now : Time) (prep : preparedPeerAdmission) (row : inbox_row)
    (route : PeerRouteProjection) : Prop := {
  ad_row : d.(peer_inbox) !! DeliveryID_String id = Some row;
  ad_staged : row.(ir_state) = InboxStaged;
  ad_route : peerRouteByIDTx d row.(ir_route) = Ok (Some route);
  ad_active : route.(pr_active) = true;
  ad_delivery : prep.(pp_verified).(vpd_delivery) = prep.(pp_result).(pa_delivery);
  ad_id : prep.(pp_result).(pa_delivery).(pd_id) = id;
  ad_envelope : prep.(pp_result).(pa_delivery).(pd_canonical) = row.(ir_delivery);
  ad_reply : row.(ir_in_reply_to) = peerInboxReplyValue prep.(pp_result).(pa_delivery);
  ad_fresh : now < prep.(pp_result).(pa_delivery).(pd_expiresAt);
  ad_signed : verifyPeerSignature verify (pr_remotePublicKey route)
    (delivery_message prep.(pp_result).(pa_delivery)) row.(ir_signature) = true;
  ad_source : prep.(pp_verified).(vpd_source) = route.(pr_surrogateSource);
  ad_target : prep.(pp_verified).(vpd_target) = pr_localTargetPrincipal route;
  ad_artifacts : artifactChecksTx d prep.(pp_result).(pa_delivery).(pd_artifacts) = Ok checks;
  ad_terminal : RequiresTerminalReplyMatch prep.(pp_result).(pa_delivery) = true →
    ∃ m, matchOpenTerminalReplyAnchorTx d prep.(pp_verified) (pr_routeID route) = Ok (Some m);
}.

Lemma verify_staged_Ok verify d id delivery route latest now verified :
  verify_staged verify d id delivery route latest now = Ok verified →
  ∃ parsed row, ParsePeerDeliveryCanonicalJSON delivery.(pd_canonical) (pr_routeID route) = Ok parsed ∧
    d.(peer_inbox) !! DeliveryID_String id = Some row ∧
    verifyPeerSignature verify (pr_remotePublicKey route) (delivery_message parsed.(pp_delivery))
      row.(ir_signature) = true ∧
    verified.(vpd_delivery) = parsed.(pp_delivery) ∧ verified.(vpd_source) = route.(pr_surrogateSource) ∧
    verified.(vpd_target) = pr_localTargetPrincipal route.
Proof.
  unfold verify_staged. intros H. apply bind_Ok in H as (vs & _ & H).
  apply bind_Ok in H as (parsed & Hp & H). apply bind_Ok in H as ([] & Hsig & H).
  apply or_error_Ok in Hp. unfold NewVerifiedPeerDelivery in H. cbv zeta in H.
  apply bind_Ok in H as ([] & _ & H). apply bind_Ok in H as (? & _ & H).
  apply bind_Ok in H as ([] & _ & H). injection H as <-.
  unfold storedPeerInboxSignatureValidTx in Hsig. apply fail_if_Ok, negb_false_iff in Hsig.
  destruct (_ !! _) as [row|] eqn:E; [|done]. apply andb_prop in Hsig as [_ Hsig].
  by exists parsed, row.
Qed.

Lemma latest_checks_Some d delivery checks latest :
  latest_checks d delivery checks = Ok (Some latest) →
  latest = checks ∧ artifactChecksTx d delivery.(pd_artifacts) = Ok checks.
Proof.
  unfold latest_checks. destruct (artifactChecksTx _ _) as [xs|e]; intros H.
  - apply bind_Ok in H as ([] & Hs & [= ->]). unfold sameArtifactChecks in Hs. inv_res. done.
  - by destruct (errors_is _ _).
Qed.

Lemma preparePeerAdmissionTx_commit verify d id checks now prep d' :
  preparePeerAdmissionTx verify d id checks now = Ok (PreparedCommit prep, d') →
  ∃ row route, admissible verify d id checks now prep row route.
Proof.
  unfold preparePeerAdmissionTx. intros H. apply bind_Ok in H as (found & Hfound & H).
  apply bind_Ok in H as (result & Hres & H). apply of_option_Ok in Hres as ->.
  destruct (negb _) eqn:Est; [done|]. apply negb_false_iff, bool_decide_eq_true in Est.
  apply peerInboxResultTx_Some in Hfound as (row & parsed & Hrow & Hparse & Hd & Hid & Hreply & Hst).
  specialize (Hst Est). unfold prepareStagedTx in H. cbv zeta in H.
  apply bind_Ok in H as (found & Hroute & H). apply bind_Ok in H as (route & Hf & H).
  apply of_option_Ok in Hf as ->. apply or_error_Ok in Hroute. unfold routeForInboxTx in Hroute.
  rewrite Hrow in Hroute. apply bind_Ok in Hroute as (rid & Hrid & Hroute).
  apply or_error_Ok, newIdentifier_Ok in Hrid as [-> _].
  pose proof (peerRouteByIDTx_Some _ _ _ Hroute) as (_ & _ & _ & Hroute_id).
  destruct (negb (pr_active route)) eqn:Hact; [by apply bind_Ok in H as ([? ?] & _ & H)|].
  destruct (negb (_ <? _)) eqn:Hexp; [by apply bind_Ok in H as ([? ?] & _ & H)|].
  apply bind_Ok in H as ([latest|] & Hl & H); [|done].
  apply latest_checks_Some in Hl as [-> Hchecks].
  apply bind_Ok in H as (verified & Hv & H).
  apply verify_staged_Ok in Hv as (parsed' & row' & Hparse' & Hrow' & Hsig & Ed & Es & Et).
  assert (pd_canonical (pa_delivery result) = ir_delivery row) as Hcanon.
  { rewrite Hd. by apply ParsePeerDeliveryCanonicalJSON_Ok in Hparse as [? _]. }
  rewrite Hcanon, Hroute_id, Hparse in Hparse'. injection Hparse' as <-. simplify_eq.
  assert (pp_result prep = result ∧ pp_verified prep = verified ∧
    (RequiresTerminalReplyMatch (vpd_delivery verified) = true →
     ∃ m, matchOpenTerminalReplyAnchorTx d verified (pr_routeID route) = Ok (Some m))) as (E1 & E2 & Hm).
  { destruct (RequiresTerminalReplyMatch _); [|by injection H as <- _].
    apply bind_Ok in H as ([m|] & Hm & H); [injection H as <- _; eauto|].
    by apply bind_Ok in H as ([? ?] & _ & H). }
  exists row, route. split; rewrite ?E1, ?E2; try done; try congruence.
  - by apply negb_false_iff in Hact.
  - lia.
  - rewrite <- Hd in Ed. by rewrite Ed in Hm.
Qed.

(** ** Observations *)

Record replies_inv (d : db) : Prop := {
  rp_outbound : ∀ id r outbound, d.(peer_inbox) !! id = Some r → accepted_reply r = Some outbound →
    is_Some (d.(peer_outbox) !! outbound);
  rp_bound : ∀ anchor, count (answers_anchor d anchor) d.(peer_inbox) <= MaxTerminalObservationsPerAnchor;
}.

Lemma answers_accepted d anchor k r :
  answers_anchor d anchor k r = true ↔
  ∃ outbound sent, accepted_reply r = Some outbound ∧ d.(peer_outbox) !! outbound = Some sent ∧
    sent.(or_anchor) = Some anchor.
Proof.
  unfold answers_anchor, accepted_reply. destruct (ir_local_event r); cbn [is_some andb].
  - destruct (ir_in_reply_to r) as [outbound|]; [|naive_solver].
    destruct (peer_outbox d !! outbound) as [sent|] eqn:E; rewrite ?bool_decide_eq_true; naive_solver.
  - naive_solver.
Qed.

Lemma outbox_progress_anchor r r' : outbox_progress r r' → r'.(or_anchor) = r.(or_anchor).
Proof. by intros [->|[_ [[t ->]|(?&?&?&->)]]]. Qed.

(** Replies keep their meaning when the outbox moves forward. *)
Lemma answers_extends d d' anchor k r :
  extends d d' → (∀ o, accepted_reply r = Some o → is_Some (d.(peer_outbox) !! o)) →
  answers_anchor d' anchor k r = answers_anchor d anchor k r.
Proof.
  intros Hx Hex. apply eq_true_iff_eq. rewrite !answers_accepted. split.
  - intros (o & sent' & Ho & Hs & Ha). destruct (Hex o Ho) as [sent Hsent].
    destruct (ex_outbox _ _ Hx _ _ Hsent) as (s & Hs' & Hp). simplify_eq.
    exists o, sent. split_and!; [done..|]. by rewrite <- (outbox_progress_anchor _ _ Hp).
  - intros (o & sent & Ho & Hs & Ha). destruct (ex_outbox _ _ Hx _ _ Hs) as (s & Hs' & Hp).
    exists o, s. split_and!; [done..|]. by rewrite (outbox_progress_anchor _ _ Hp).
Qed.

Lemma count_mono {K R} `{Countable K} (f g : K → R → bool) (table : gmap K R) :
  (∀ k r, table !! k = Some r → f k r = true → g k r = true) → count f table <= count g table.
Proof.
  induction table as [|k r table Hk Hfirst IH] using map_first_key_ind; [done|]. intros Hf.
  rewrite !count_insert_new by done.
  assert (count f table <= count g table).
  { apply IH. intros k' r' Hr'. apply Hf. rewrite lookup_insert_ne; [done|congruence]. }
  specialize (Hf k r (lookup_insert_eq _ _ _)). destruct (f k r), (g k r); lia || naive_solver.
Qed.

Lemma count_ext {K R} `{Countable K} (f g : K → R → bool) (table : gmap K R) :
  (∀ k r, table !! k = Some r → f k r = g k r) → count f table = count g table.
Proof.
  intros He. apply Z.le_antisymm; apply count_mono; intros k r Hr; by rewrite (He k r Hr).
Qed.

(** The inbox is untouched. *)
Lemma replies_frame d d' :
  extends d d' → keeps [TInbox] d d' → replies_inv d → replies_inv d'.
Proof.
  intros Hx Hk [H1 H2].
  assert (d'.(peer_inbox) = d.(peer_inbox)) as E by (apply (Hk TInbox); set_solver).
  split; rewrite E.
  - intros id r o Hr Ho. destruct (H1 id r o Hr Ho) as [s Hs].
    destruct (ex_outbox _ _ Hx _ _ Hs) as (s' & Hs' & _). eauto.
  - intros anchor. rewrite (count_ext _ (answers_anchor d anchor)); [done|]. intros k r Hr.
    apply answers_extends; eauto.
Qed.

(** A row written, with the count of every anchor still within the bound. *)
Lemma write_inbox_replies d id row d' :
  replies_inv d → write_inbox d id row = Ok d' →
  (∀ o, accepted_reply row = Some o → is_Some (d.(peer_outbox) !! o)) →
  (∀ anchor, count (answers_anchor d anchor) (<[id := row]> d.(peer_inbox)) <=
             MaxTerminalObservationsPerAnchor) → replies_inv d'.
Proof.
  intros [H1 H2] (-> & _)%write_inbox_Ok Ho Hc. split; db_simpl; [|exact Hc].
  intros k r o [[<- <-]|[_ Hk]]%lookup_insert_Some; eauto.
Qed.

(** A row that accepts nothing does not count. *)
Lemma count_unaccepted d anchor id row :
  accepted_reply row = None →
  count (answers_anchor d anchor) (<[id := row]> d.(peer_inbox)) <=
  count (answers_anchor d anchor) d.(peer_inbox).
Proof.
  intros Hn. assert (answers_anchor d anchor id row = false) as E.
  { apply not_true_is_false. rewrite answers_accepted, Hn. naive_solver. }
  destruct (d.(peer_inbox) !! id) as [old|] eqn:Hold.
  - rewrite (count_insert _ _ _ _ _ Hold), E. destruct (answers_anchor _ _ _ old); lia.
  - rewrite count_insert_new, E by done. lia.
Qed.

Lemma write_unaccepted_replies d id row d' :
  write_inbox d id row = Ok d' → accepted_reply row = None → replies_inv d → replies_inv d'.
Proof.
  intros Hw Hn Hinv. eapply write_inbox_replies; [done..|by rewrite Hn|].
  intros anchor. etrans; [by apply count_unaccepted|apply Hinv].
Qed.

Lemma expirePeerInboxRowsTx_replies d now : replies_inv d → replies_inv (expirePeerInboxRowsTx d now).
Proof.
  intros [H1 H2]. unfold expirePeerInboxRowsTx. split; db_simpl.
  - intros id r o Hr Ho. rewrite lookup_fmap in Hr. apply fmap_Some in Hr as (s & Hs & ->).
    destruct (expire_inbox_due_facts now s) as (_ & _ & _ & E). rewrite E in Ho. eauto.
  - intros anchor. etrans; [apply count_fmap_le|apply (H2 anchor)]. intros k r.
    rewrite !answers_accepted. by destruct (expire_inbox_due_facts now r) as (_ & _ & _ & ->).
Qed.

Lemma unsettled_reply row :
  inbox_check row = true → row.(ir_state) ≠ InboxSettled → accepted_reply row = None.
Proof.
  unfold inbox_check, accepted_reply. destruct (ir_state row); intros H ?; inv_res; [|done|];
    by destruct (ir_local_event row).
Qed.

Lemma expirePeerInboxTx_replies d x now r d' :
  expirePeerInboxTx d x now = Ok (r, d') → replies_inv d → replies_inv d'.
Proof.
  unfold expirePeerInboxTx. intros H Hinv. inv_tx. eapply write_unaccepted_replies; [done| |done].
  match goal with Hw : write_inbox _ _ _ = Ok _ |- _ => apply write_inbox_Ok in Hw as (_ & Hc & _) end.
  by apply unsettled_reply.
Qed.

Lemma settleRejectedPeerInboxTx_replies d x c g now r d' :
  settleRejectedPeerInboxTx d x c g now = Ok (r, d') → replies_inv d → replies_inv d'.
Proof.
  unfold settleRejectedPeerInboxTx. intros H Hinv. inv_tx. by eapply write_unaccepted_replies.
Qed.

Lemma stagePeerDeliveryTx_replies verify peer c sig now d r d' :
  stagePeerDeliveryTx verify peer c sig now d = Ok (r, d') → replies_inv d → replies_inv d'.
Proof.
  unfold stagePeerDeliveryTx, replayPeerInboxTx. intros H Hinv.
  inv_tx; [by eapply expirePeerInboxTx_replies|done|].
  unfold stageFreshPeerDeliveryTx, insertRejectedPeerInboxTx, insertExpiredPeerInboxTx, insert_inbox in *.
  pose proof (expirePeerInboxRowsTx_replies d now Hinv). inv_tx;
    by eapply write_unaccepted_replies.
Qed.

Lemma preflightPeerAdmissionTx_replies id now d r d' :
  preflightPeerAdmissionTx id now d = Ok (r, d') → replies_inv d → replies_inv d'.
Proof.
  intros H Hinv. assert (d' = expirePeerInboxDeliveryTx d id now) as ->.
  { unfold preflightPeerAdmissionTx in H. by inv_tx. }
  clear H. unfold expirePeerInboxDeliveryTx. destruct Hinv as [H1 H2].
  destruct (d.(peer_inbox) !! DeliveryID_String id) as [row|] eqn:E;
    [|rewrite alter_id by congruence; by split].
  rewrite <- (insert_id d.(peer_inbox) (DeliveryID_String id) row) at 1 by done.
  rewrite alter_insert_eq. destruct (expire_inbox_due_facts now row) as (_ & _ & _ & F). split; db_simpl.
  - intros k s o [[<- <-]|[_ Hk]]%lookup_insert_Some; rewrite ?F; eauto.
  - intros anchor. etrans; [|apply (H2 anchor)]. rewrite (count_insert _ _ _ _ _ E).
    assert (answers_anchor d anchor (DeliveryID_String id) (expire_inbox_due now row) =
            answers_anchor d anchor (DeliveryID_String id) row) as Ea.
    { apply eq_true_iff_eq. by rewrite !answers_accepted, F. }
    unfold answers_anchor in *. db_simpl. rewrite Ea. lia.
Qed.

Lemma preparePeerAdmissionTx_replies verify d id checks now p d' :
  preparePeerAdmissionTx verify d id checks now = Ok (p, d') → replies_inv d → replies_inv d'.
Proof.
  intros [->|[(x & c & g & r & H)|(x & r & H)]]%preparePeerAdmissionTx_cases; [done|..].
  - by eapply settleRejectedPeerInboxTx_replies.
  - by eapply expirePeerInboxTx_replies.
Qed.

(** A matched reply has an outbound row at an anchor that still takes replies,
    and no earlier reply to it was accepted. *)
Lemma matchOpenTerminalReplyAnchorTx_Some d verified route m :
  matchOpenTerminalReplyAnchorTx d verified route = Ok (Some m) →
  let outbound := DeliveryID_String verified.(vpd_delivery).(pd_inReplyToDelivery) in
  ∃ sent handling, d.(peer_outbox) !! outbound = Some sent ∧ sent.(or_route) = route ∧
    sent.(or_anchor) = Some m.(tm_anchor) ∧ d.(handlings) !! m.(tm_anchor) = Some handling ∧
    handling.(hr_state) = HandlingOpen ∧ handling.(hr_target) = verified.(vpd_target) ∧
    (∀ k r, d.(peer_inbox) !! k = Some r → accepted_reply r ≠ Some outbound) ∧
    count (answers_anchor d m.(tm_anchor)) d.(peer_inbox) < MaxTerminalObservationsPerAnchor.
Proof.
  unfold matchOpenTerminalReplyAnchorTx. cbv zeta. destruct (_ || _); [done|].
  destruct (reply_binding _ _ _ _ _) as [anchor|] eqn:Hb; [|done]. intros H.
  apply bind_Ok in H as (a & Ha & H). apply or_error_Ok, newIdentifier_Ok in Ha as [-> _].
  destruct (exists_row _ _) eqn:Hex; [done|]. rewrite exists_row_false in Hex.
  apply bind_Ok in H as (revision & Hr & H).
  unfold terminalObservationRevisionTx in Hr. apply bind_Ok in Hr as ([] & _ & Hr).
  apply bind_Ok in Hr as ([] & _ & Hr). injection Hr as <-.
  destruct (_ <=? _) eqn:Hle; [done|]. injection H as <-. cbn [tm_anchor].
  unfold reply_binding in Hb. destruct (peer_outbox d !! _) as [sent|] eqn:Hs; [|done].
  cbn [mbind option_bind] in Hb. destruct (or_anchor sent) as [a|] eqn:Ea; [|done].
  cbn [mbind option_bind] in Hb. destruct (handlings d !! a) as [h|] eqn:Eh; [|done].
  cbn [mbind option_bind] in Hb. destruct (_ && _) eqn:Hc; [|done]. injection Hb as ->. inv_res.
  exists sent, h. split_and!; try done; [|lia].
  intros k r Hk E. specialize (Hex k r Hk). by apply bool_decide_eq_false in Hex.
Qed.

(** The row an accepted admission settles. *)
Lemma accept_replies verify d id checks now prep row route d1 event receipt d' :
  replies_inv d → admissible verify d id checks now prep row route →
  extends d d1 → d1.(peer_inbox) = d.(peer_inbox) → replies_inv d1 →
  write_inbox d1 (DeliveryID_String id) (settle_row row (Some event) receipt now) = Ok d' →
  replies_inv d'.
Proof.
  intros Hinv Had Hx Ein Hinv1 Hw.
  assert (accepted_reply (settle_row row (Some event) receipt now) = row.(ir_in_reply_to)) as Eacc by done.
  rewrite (ad_reply _ _ _ _ _ _ _ _ Had) in Eacc. unfold peerInboxReplyValue in Eacc.
  destruct (DeliveryID_IsZero _) eqn:Hz; [by eapply write_unaccepted_replies|].
  destruct (ad_terminal _ _ _ _ _ _ _ _ Had) as [m Hm]; [unfold RequiresTerminalReplyMatch; by rewrite Hz|].
  apply matchOpenTerminalReplyAnchorTx_Some in Hm as (sent & h & Hs & _ & Ha & _ & _ & _ & _ & Hlt).
  rewrite (ad_delivery _ _ _ _ _ _ _ _ Had) in Hs.
  destruct (ex_outbox _ _ Hx _ _ Hs) as (sent1 & Hs1 & Hp). apply outbox_progress_anchor in Hp.
  eapply write_inbox_replies; [done..| |].
  - rewrite Eacc. intros o [= <-]. eauto.
  - intros anchor. rewrite Ein, (count_insert _ _ _ _ _ (ad_row _ _ _ _ _ _ _ _ Had)).
    assert (count (answers_anchor d1 anchor) (peer_inbox d) = count (answers_anchor d anchor) (peer_inbox d))
      as -> by (apply count_ext; intros k r Hr; apply answers_extends; [done|intros o; by apply (rp_outbound _ Hinv k r)]).
    pose proof (rp_bound _ Hinv anchor).
    destruct (answers_anchor d1 anchor _ row); [destruct (answers_anchor _ _ _ (settle_row _ _ _ _)); lia|].
    destruct (answers_anchor d1 anchor _ (settle_row _ _ _ _)) eqn:Hans; [|lia].
    apply answers_accepted in Hans as (o & s & Ho & Hos & Hanchor). rewrite Eacc in Ho.
    injection Ho as <-. simplify_eq. assert (anchor = tm_anchor m) as -> by congruence. lia.
Qed.

Lemma commitPeerAdmissionTx_replies verify id checks eid ids now d r d' :
  commitPeerAdmissionTx verify id checks eid ids now d = Ok (r, d') → replies_inv d → replies_inv d'.
Proof.
  intros (p & d1 & Hp & H)%commitPeerAdmissionTx_Ok Hinv.
  pose proof (preparePeerAdmissionTx_replies _ _ _ _ _ _ _ Hp Hinv) as Hinv1.
  destruct p as [res|prep]; [by destruct H as (_ & -> & _)|]. destruct H as [-> H].
  apply preparePeerAdmissionTx_commit in Hp as (row & route & Had).
  apply commitAcceptedPeerAdmissionTx_Ok in H as (eff & ev & d2 & rc & row' & _ & H2 & _ & Hs & Hw & _).
  rewrite (ad_id _ _ _ _ _ _ _ _ Had) in Hs, Hw.
  pose proof (commitDomainAdmissionTx_extends _ _ _ _ _ _ _ H2) as Hx.
  apply commitDomainAdmissionTx_changes in H2 as Hc. pose proof (Hc TInbox eq_refl) as Ein. cbn in Ein.
  apply staged_inbox_Some in Hs as [Hs _].
  assert (row' = row) as -> by (pose proof (ad_row _ _ _ _ _ _ _ _ Had); congruence).
  eapply accept_replies; [exact Hinv|exact Had|done..| |done].
  eapply replies_frame; [done| |done]. by intros t ->%list_elem_of_singleton.
Qed.

#[export] Instance replies_invariant : StoreInvariant replies_inv.
Proof.
  split; [split; intros; cbn in *; done|].
  intros verify d d' Htx Hinv. pose proof (tx_step_extends _ _ _ Htx) as Hx.
  destruct Htx; try by tx_framed (replies_frame _ _ Hx).
  - by eapply stagePeerDeliveryTx_replies.
  - by apply expirePeerInboxRowsTx_replies.
  - by eapply preflightPeerAdmissionTx_replies.
  - by eapply commitPeerAdmissionTx_replies.
Qed.
