(* ===== verification/Lifecycle.v ===== *)
(** The abstract lifecycle of a Handling, and that every transaction refines it.

    A Handling is opened free, alternates between free and claimed (each claim
    takes the next fence), and ends terminal.  Every move is attributed to the
    caller that made it: only the bearer of an attachment claims for it, only the
    bearer of the attachment that holds a claim moves the head or settles, and any
    other release of a claim has its disposition on record. *)

From Stdlib Require Import Lia.
From S2P Require Import Prelude Utf8 Json Wire Sha256 Time StoreTime Value Intent Bound Event Peer.
From S2P Require Import View AgentView Bind Store EventStore Attach Routes Inbox Outbox.
From S2P Require Import Domain Admission PeerAdmission Current History Frames Invariant.

#[local] Open Scope Z_scope.

(** ** The abstract machine *)

Inductive lifecycle :=
| Absent
| Free (head : string) (fence : Z)
| Claimed (head : string) (fence : Z) (attachment : string)
| Done (head : string) (fence : Z) (outcome : string).

(** Who makes a call: whoever bears the credential of an attachment, or the owner
    and peers, who present none. *)
Inductive caller := Bearer (attachment : string) | Unattached.

#[export] Instance caller_eq_dec : EqDecision caller.
Proof. solve_decision. Defined.

(** The moves that leave the fence alone.  Only the bearer of the attachment that
    holds a claim advances or settles under it; a claim is released otherwise only
    when [disposed] says that release is on record. *)
Inductive quiet_step (who : caller) (disposed : string → Z → Prop) : lifecycle → lifecycle → Prop :=
| life_open head : quiet_step who disposed Absent (Free head 0)
| life_release head fence a : disposed a fence → quiet_step who disposed (Claimed head fence a) (Free head fence)
| life_advance head fence a head' :
    who = Bearer a → quiet_step who disposed (Claimed head fence a) (Free head' fence)
| life_settle head fence a head' outcome :
    who = Bearer a → quiet_step who disposed (Claimed head fence a) (Done head' fence outcome).

(** A bearer claims for its own attachment. *)
Inductive lifecycle_step (who : caller) (disposed : string → Z → Prop) : lifecycle → lifecycle → Prop :=
| life_quiet a b : quiet_step who disposed a b → lifecycle_step who disposed a b
| life_claim head fence a : who = Bearer a → lifecycle_step who disposed (Free head fence) (Claimed head (fence + 1) a).

(** The moves of successive calls, each call's made by its caller. *)
Fixpoint life_run (disposed : string → Z → Prop) (callers : list caller) (l l' : lifecycle) : Prop :=
  match callers with
  | [] => l = l'
  | who :: callers => ∃ m, rtc (lifecycle_step who disposed) l m ∧ life_run disposed callers m l'
  end.

(** More on record permits no fewer moves. *)
Class Grows (step : (string → Z → Prop) → lifecycle → lifecycle → Prop) : Prop :=
  grows (P Q : string → Z → Prop) : (∀ a f, P a f → Q a f) → ∀ l l', step P l l' → step Q l l'.

#[export] Instance quiet_step_grows who : Grows (quiet_step who).
Proof. intros P Q H l l' []; constructor; auto. Qed.

#[export] Instance lifecycle_step_grows who : Grows (lifecycle_step who).
Proof. intros P Q H l l' []; constructor; [|done]. by eapply grows. Qed.

Lemma life_run_grows (P Q : string → Z → Prop) callers l l' :
  (∀ a f, P a f → Q a f) → life_run P callers l l' → life_run Q callers l l'.
Proof.
  intros H. revert l. induction callers as [|who callers IH]; intros l; cbn [life_run]; [done|].
  intros (m & Hm & Hrun). exists m. split; [|auto]. eapply rtc_subrel; [|exact Hm]. by apply grows.
Qed.

(** ** The abstraction of the table *)

Definition lifecycle_of (row : option handling_row) : lifecycle :=
  match row with
  | None => Absent
  | Some r =>
      match r.(hr_state), r.(hr_claim) with
      | HandlingTerminal, _ => Done r.(hr_head) r.(hr_fence) (default "" r.(hr_outcome))
      | HandlingOpen, Some a => Claimed r.(hr_head) r.(hr_fence) a
      | HandlingOpen, None => Free r.(hr_head) r.(hr_fence)
      end
  end.

(** The release of the claim at this fence has its row in [claim_dispositions]. *)
Definition disposed (d : db) (id : string) (attachment : string) (fence : Z) : Prop :=
  ∃ key row, d.(claim_dispositions) !! key = Some row ∧ row.(dr_handling) = id ∧
    row.(dr_attachment) = attachment ∧ row.(dr_fence) = fence.

(** Every Handling moves along the abstract machine, its releases on record after. *)
Definition refines (step : (string → Z → Prop) → lifecycle → lifecycle → Prop) (d d' : db) : Prop :=
  ∀ id, rtc (step (disposed d' id)) (lifecycle_of (d.(handlings) !! id)) (lifecycle_of (d'.(handlings) !! id)).

Lemma disposed_extends d d' id a f : extends d d' → disposed d id a f → disposed d' id a f.
Proof.
  intros Hx (key & row & Hrow & H). destruct (ex_dispositions _ _ Hx _ _ Hrow) as (row' & Hrow' & <-).
  by exists key, row.
Qed.

#[export] Instance refines_refl step : Reflexive (refines step).
Proof. intros d id. apply rtc_refl. Qed.

Lemma refines_trans step `{!Grows step} d1 d2 d3 :
  extends d2 d3 → refines step d1 d2 → refines step d2 d3 → refines step d1 d3.
Proof.
  intros Hx H1 H2 id. etrans; [|apply H2]. eapply rtc_subrel; [|apply H1]. apply grows.
  intros a f. by apply disposed_extends.
Qed.

Lemma refines_frame step d d' : keeps [THandlings] d d' → refines step d d'.
Proof.
  intros Hk id. assert (d'.(handlings) = d.(handlings)) as -> by (apply (Hk THandlings); set_solver).
  apply rtc_refl.
Qed.

Lemma refines_changes step ts d d' :
  changes ts d d' → bool_decide (THandlings ∈ ts) = false → refines step d d'.
Proof.
  intros Hc Ht. apply refines_frame. by intros t ->%list_elem_of_singleton; apply Hc.
Qed.

(** One row written. *)
Lemma refines_write step d id row d' :
  d'.(handlings) = <[id := row]> d.(handlings) →
  step (disposed d' id) (lifecycle_of (d.(handlings) !! id)) (lifecycle_of (Some row)) → refines step d d'.
Proof.
  intros Hd Hs j. rewrite Hd. destruct (decide (j = id)) as [->|Hne].
  - rewrite lookup_insert_eq. by apply rtc_once.
  - rewrite lookup_insert_ne by done. apply rtc_refl.
Qed.

Lemma refines_write_handling step d id row d' :
  write_handling d id row = Ok d' →
  step (disposed d' id) (lifecycle_of (d.(handlings) !! id)) (lifecycle_of (Some row)) → refines step d d'.
Proof. intros [-> _]%write_handling_Ok. by apply refines_write. Qed.

Lemma refines_quiet who d d' : refines (quiet_step who) d d' → refines (lifecycle_step who) d d'.
Proof. intros H id. eapply rtc_subrel; [|apply H]. intros a b. apply life_quiet. Qed.

Lemma release_step who (P : string → Z → Prop) row a :
  row.(hr_state) = HandlingOpen → row.(hr_claim) = Some a → P a row.(hr_fence) →
  quiet_step who P (lifecycle_of (Some row)) (lifecycle_of (Some (release_claim row))).
Proof. intros Hs Hc HP. cbn. rewrite Hs, Hc. by constructor. Qed.

(** ** Transactions *)

Lemma settleClaimExpiryTx_refines who now d claim d' :
  settleClaimExpiryTx now d claim = Ok d' → refines (quiet_step who) d d'.
Proof.
  unfold settleClaimExpiryTx, insertClaimExpiryTx. intros H. inv_tx; [done|].
  match goal with Hs : exact_claim _ _ = Some _ |- _ => apply exact_claim_Some in Hs as (Hl & Ho & Hc & Hf & _) end.
  match goal with Hw : write_handling _ _ _ = Ok _ |- _ => apply write_handling_Ok in Hw as [-> _] end.
  match goal with Hi : insert_disposition _ _ _ = Ok _ |- _ => apply insert_disposition_Ok in Hi as [-> _] end.
  eapply refines_write; [done|]. rewrite Hl. eapply release_step; [done..|].
  eexists _, _. db_simpl. rewrite lookup_insert_eq. split_and!; [done..|]. cbn. by rewrite Hf.
Qed.

Lemma settleExpiredClaimsTx_refines who d p now limit d' :
  settleExpiredClaimsTx d p now limit = Ok d' → refines (quiet_step who) d d'.
Proof.
  unfold settleExpiredClaimsTx. intros H. inv_tx.
  eapply (foldR_preserves (refines (quiet_step who) d)); [|done|done]. intros d1 x d2 Hx Hr.
  eapply refines_trans; [apply _|by eapply settleClaimExpiryTx_extends|done|by eapply settleClaimExpiryTx_refines].
Qed.

Lemma endLiveAttachmentTx_refines who d now id b d' :
  endLiveAttachmentTx d now id = Ok (b, d') → refines (quiet_step who) d d'.
Proof.
  intros (row & _ & _ & H)%endLiveAttachmentTx_Ok. destruct b.
  - destruct H as (k & h & key & disp & Hk & Ho & Hc & _ & H1 & H2 & H3 & _ & ->).
    eapply refines_write; [done|]. rewrite Hk. eapply release_step; [done..|].
    exists key, disp. db_simpl. by rewrite lookup_insert_eq.
  - destruct H as [_ ->]. by apply refines_frame; intros t ->%list_elem_of_singleton.
Qed.

Lemma endAttachmentTx_refines who now proof d r d' :
  endAttachmentTx now proof d = Ok (r, d') → refines (quiet_step who) d d'.
Proof. unfold endAttachmentTx. intros H. inv_tx; [done|by eapply endLiveAttachmentTx_refines]. Qed.

Lemma issueAttachmentTx_refines who now p m d r d' :
  issueAttachmentTx now p m d = Ok (r, d') → refines (quiet_step who) d d'.
Proof.
  unfold issueAttachmentTx. intros H. apply bind_Ok in H as ([proof|] & _ & H); [by injection H as _ <-|].
  apply bind_Ok in H as ([] & _ & H). apply bind_Ok in H as (t & _ & H).
  apply bind_Ok in H as (d1 & H1 & H). assert (refines (quiet_step who) d d1) as Hr.
  { unfold replaceLiveAttachmentTx in H1. inv_tx; [by eapply endLiveAttachmentTx_refines|done]. }
  unfold insertAttachmentBeginTx in H. apply bind_Ok in H as (d2 & Hw & H).
  apply bind_Ok in H as (? & _ & H). injection H as _ <-.
  apply wrap_error_Ok, bind_Ok in Hw as ([] & Hnew & Hw). pose proof (write_attachment_changes _ _ _ _ Hw) as Hc.
  eapply refines_trans; [apply _| |exact Hr|by eapply refines_changes].
  eapply write_attachment_extends; [done|]. intros old Hold. inv_tx. unfold references in *. by rewrite Hold in *.
Qed.

(** The claim a Current takes is for the attachment it authenticated. *)
Lemma currentTx_refines now proof o d v d' au :
  authenticateAttachmentTx d proof = Ok au → currentTx now proof o d = Ok (v, d') →
  refines (lifecycle_step (Bearer au.(aa_value).(at_id))) d d'.
Proof.
  intros Hau [->|(au' & d1 & claim & d2 & Hau' & _ & H1 & H2 & _ & H3)]%currentTx_Ok; [done|].
  rewrite Hau in Hau'. apply (inj Ok) in Hau' as <-.
  pose proof (acquireClaimTx_extends _ _ _ _ H2) as Hx2. pose proof (insertCurrentOperationTx_extends _ _ _ _ _ H3) as Hx3.
  eapply refines_trans; [apply _|exact (transitivity Hx2 Hx3)|by eapply refines_quiet, settleExpiredClaimsTx_refines|].
  eapply refines_trans; [apply _|exact Hx3| |by eapply refines_changes; [eapply insertCurrentOperationTx_changes|]].
  apply acquireClaimTx_cases in H2 as [->|[r H2]]; [done|]. unfold claimNextTx in H2.
  destruct (next_claimable _ _) as [[k h]|] eqn:E; [|by injection H2 as _ <-].
  apply next_claimable_Some in E as [Hk Hc].
  destruct (wrap_error _ _) as [d3|e] eqn:Hw; injection H2 as _ <-; [|done].
  apply wrap_error_Ok in Hw. eapply refines_write_handling; [done|]. rewrite Hk.
  unfold claimable in Hc. inv_res. cbn [lifecycle_of claim_row hr_state hr_claim hr_head hr_fence].
  match goal with Hs : hr_state _ = _ |- _ => rewrite Hs end. destruct (hr_claim h); [done|by apply life_claim].
Qed.

Lemma createSuccessorHandlingsTx_refines who d e ids d' :
  createSuccessorHandlingsTx d e ids = Ok d' → refines (quiet_step who) d d'.
Proof.
  unfold createSuccessorHandlingsTx. intros H. apply bind_Ok in H as ([] & _ & H). revert d ids H.
  induction (ev_targets e) as [|t ts IH]; intros d ids H; cbn [create_successors] in H.
  - by injection H as <-.
  - inv_tx; [by eapply IH|].
    eapply refines_trans; [apply _|by eapply create_successors_extends| |by eapply IH].
    match goal with Hi : insert_handling _ _ _ = Ok _ |- _ => apply insert_handling_Ok in Hi as [Hn Hi] end.
    eapply refines_write_handling; [done|]. rewrite Hn. apply life_open.
Qed.

Lemma settleSubjectTx_refines d e a st o d' :
  settleSubjectTx d e a st o = Ok d' → refines (quiet_step (Bearer a)) d d' ∧ e.(ev_subject) ≠ None.
Proof.
  unfold settleSubjectTx. intros H. apply bind_Ok in H as (subject & Hs%of_option_Ok & H). split; [|by rewrite Hs].
  inv_tx. match goal with Hs : claimed_subject _ _ _ = Some _ |- _ =>
    apply claimed_subject_Some in Hs as (Hl & Ho & _ & Hc & _) end.
  eapply refines_write_handling; [done|]. rewrite Hl.
  cbn [lifecycle_of settled_handling hr_state hr_claim hr_head hr_fence hr_outcome]. rewrite Ho, Hc.
  destruct st; by constructor.
Qed.

(** The caller is the bearer of the attachment the Event settles for, or the Event
    has no subject. *)
Lemma commitDomainAdmissionTx_refines who d c id ids now e d' :
  (∀ e a d1, newDomainEventTx d c id now = Ok (e, a, d1) → who = Bearer a ∨ e.(ev_subject) = None) →
  commitDomainAdmissionTx d c id ids now = Ok (e, d') → refines (quiet_step who) d d'.
Proof.
  intros Hwho (a & d2 & d3 & H1 & H2 & H3 & H4)%commitDomainAdmissionTx_Ok.
  eapply refines_trans; [apply _|by eapply insertPeerDeliveriesTx_extends| |by eapply refines_changes; [eapply insertPeerDeliveriesTx_changes|]].
  eapply (refines_trans _ _ d2); [by eapply applyDomainEffectTx_extends| |].
  { exact (refines_changes _ _ _ _ (insertEventTx_changes _ _ _ H2) eq_refl). }
  apply applyDomainEffectTx_Ok in H3 as [(st & o & H3)|[H3|[H3| ->]]]; [..|done].
  - apply bind_Ok in H3 as (d4 & H5 & H3). destruct (settleSubjectTx_refines _ _ _ _ _ _ H5) as [Hr Hs].
    destruct (Hwho _ _ _ H1) as [->|]; [|done].
    eapply refines_trans; [apply _|by eapply createSuccessorHandlingsTx_extends|done|by eapply createSuccessorHandlingsTx_refines].
  - by eapply createSuccessorHandlingsTx_refines.
  - by eapply refines_changes; [eapply reference_effect_changes|].
Qed.

(** An admission settles for the attachment it authenticated. *)
Lemma commitAdmissionTx_refines now proof request fl id ids d r d' au :
  authenticateAttachmentTx d proof = Ok au → commitAdmissionTx now proof request fl id ids d = Ok (r, d') →
  refines (quiet_step (Bearer au.(aa_value).(at_id))) d d'.
Proof.
  intros Hau (au' & [replay|] & Hau' & _ & H)%commitAdmissionTx_Ok; [by destruct H as [_ ->]|].
  rewrite Hau in Hau'. apply (inj Ok) in Hau' as <-. destruct H as (Hb & [rejection|] & _ & H).
  - apply persistRejectionTx_Ok in H as (receipt & _ & H & _).
    by eapply refines_changes; [eapply insertOperationTx_changes|].
  - apply commitAcceptedAdmissionTx_Ok in H as (event & d1 & receipt & H1 & _ & H & _).
    eapply refines_trans; [apply _|by eapply insertOperationTx_extends| |by eapply refines_changes; [eapply insertOperationTx_changes|]].
    eapply commitDomainAdmissionTx_refines; [|exact H1]. intros e a d2 He. left. f_equal.
    unfold newDomainEventTx in He. cbn [localDomainAdmission] in He. apply bind_Ok in He as ([n d3] & _ & He).
    apply bind_Ok in He as (depth & _ & He). apply bind_Ok in He as (e' & _ & He). injection He as _ <- _.
    apply fail_if_Ok, negb_false_iff, bool_decide_eq_true in Hb. by rewrite Hb.
Qed.

Lemma peer_event_subject verified stamp consequence targets e :
  NewPeerEvent verified stamp consequence targets = Ok e → e.(ev_subject) = None.
Proof.
  unfold NewPeerEvent. cbv zeta. intros H. apply bind_Ok in H as ([delivery artifacts] & _ & H).
  do 6 apply bind_Ok in H as (? & _ & H). by apply sealEvent_Ok in H as ->.
Qed.

Lemma commitPeerAdmissionTx_refines who verify id checks eid ids now d r d' :
  commitPeerAdmissionTx verify id checks eid ids now d = Ok (r, d') → refines (quiet_step who) d d'.
Proof.
  intros (p & d1 & _ & H)%commitPeerAdmissionTx_Ok. destruct p as [res|prep].
  - destruct H as (_ & -> & H). by eapply refines_changes.
  - destruct H as [_ H].
    apply commitAcceptedPeerAdmissionTx_Ok in H as (eff & ev & d2 & rc & row & _ & H2 & _ & Hrow & Hw & _).
    eapply (refines_trans _ _ d2); [ | |by eapply refines_changes; [eapply write_inbox_changes|]].
    + apply staged_inbox_Some in Hrow as [? ?]. eapply write_inbox_extends; [done|].
      intros old Hold. simplify_eq. right. split; [done|]. right. eauto.
    + eapply commitDomainAdmissionTx_refines; [|exact H2]. intros e a d3 He. right.
      unfold newDomainEventTx in He. cbn [peerDomainAdmission] in He. apply bind_Ok in He as ([n d4] & _ & He).
      apply bind_Ok in He as (e' & He'%wrap_error_Ok & He). injection He as -> _ _. by eapply peer_event_subject.
Qed.

(** Every transaction other than a Current leaves the fences alone. *)
Lemma tx_step_quiet verify d d' :
  tx_step verify d d' →
  (∃ who, refines (quiet_step who) d d') ∨ ∃ now proof operation view, currentTx now proof operation d = Ok (view, d').
Proof.
  destruct 1 as [| | | | | | | |now proof request fl id ids d r d' H| | | | | |].
  8: by right; eauto.
  8: { left. destruct (commitAdmissionTx_Ok _ _ _ _ _ _ _ _ _ H) as (au & _ & Hau & _).
       eexists. by eapply commitAdmissionTx_refines. }
  all: left; exists Unattached.
  - by eapply refines_changes; [eapply insert_principal_changes|].
  - by eapply refines_changes; [eapply provisionInitialPrincipalTx_changes|].
  - by eapply refines_changes; [eapply catalogArtifactTx_changes|].
  - by eapply issueAttachmentTx_refines.
  - by eapply endAttachmentTx_refines.
  - by eapply refines_changes; [eapply enrollPeerRouteTx_changes|].
  - by eapply refines_changes; [eapply revokePeerRouteTx_changes|].
  - by eapply refines_changes; [eapply stagePeerDeliveryTx_changes|].
  - by eapply refines_changes; [eapply expirePeerInboxRowsTx_changes|].
  - by eapply refines_changes; [eapply preflightPeerAdmissionTx_changes|].
  - by eapply commitPeerAdmissionTx_refines.
  - by eapply refines_changes; [eapply expirePeerOutboxTx_changes|].
  - by eapply refines_changes; [eapply settlePeerDeliveryTx_changes|].
Qed.

(** ** Calls with their callers *)

(** The attachment whose credential the proof carries, as the database knows it. *)
Definition bearer (d : db) (proof : AttachmentProof) : caller :=
  match authenticateAttachmentTx d proof with
  | Ok au => Bearer au.(aa_value).(at_id)
  | Err _ => Unattached
  end.

Section calls.
Context (ed25519_verify : string → string → string → bool).

(** [store_step] with the caller of each method. *)
Inductive store_call : caller → Store → Store → Prop :=
| call_close s : store_call Unattached s (Close s)
| call_enroll s now p : store_call Unattached s (snd (EnrollPrincipal s now p))
| call_provision s now p : store_call Unattached s (snd (ProvisionInitialPrincipal s now p))
| call_catalog s a : store_call Unattached s (snd (CatalogArtifact s a))
| call_issue s now p boundary : store_call Unattached s (snd (IssueInteractiveAttachment s now p boundary))
| call_end s now proof : store_call (bearer s.(st_db) proof) s (snd (EndInteractiveAttachment s now proof))
| call_enroll_route s now spec : store_call Unattached s (snd (EnrollPeerRoute s now spec))
| call_revoke_route s now id : store_call Unattached s (snd (RevokePeerRoute s now id))
| call_current s now proof operation :
    store_call (bearer s.(st_db) proof) s (snd (Current s now proof operation))
| call_admit s now proof request entropy failure :
    store_call (bearer s.(st_db) proof) s (snd (commitAdmission entropy s now proof request failure))
| call_stage s now peer canonical signature :
    store_call Unattached s (snd (StagePeerDelivery ed25519_verify s now peer canonical signature))
| call_staged s now limit : store_call Unattached s (snd (StagedPeerDeliveries s now limit))
| call_peer_preflight s now id : store_call Unattached s (snd (preflightPeerAdmission s now id))
| call_peer_commit s now id entropy checks handlingIDs :
    store_call Unattached s (snd (commitPeerAdmission ed25519_verify entropy s now id checks handlingIDs))
| call_pending s now limit : store_call Unattached s (snd (PendingPeerDeliveries s now limit))
| call_settle s now peer id canonical signature :
    store_call Unattached s (snd (SettlePeerDelivery ed25519_verify s now peer id canonical signature)).

(** Every method call has its caller. *)
Lemma store_step_call s s' : store_step ed25519_verify s s' ↔ ∃ who, store_call who s s'.
Proof. split; [intros []; eexists; constructor|intros [who []]; constructor]. Qed.

(** A sequence of calls with their callers. *)
Inductive store_run : list caller → Store → Store → Prop :=
| run_none s : store_run [] s s
| run_call who callers s1 s2 s3 : store_call who s1 s2 → store_run callers s2 s3 → store_run (who :: callers) s1 s3.

Lemma store_steps_run s s' : rtc (store_step ed25519_verify) s s' ↔ ∃ callers, store_run callers s s'.
Proof.
  split.
  - induction 1 as [s|s1 s2 s3 H _ [callers IH]]; [exists []; constructor|].
    apply store_step_call in H as [who H]. exists (who :: callers). by econstructor.
  - intros [callers H]. induction H as [|who callers s1 s2 s3 H _ IH]; [done|]. eapply rtc_l; [|exact IH].
    apply store_step_call. by exists who.
Qed.

Lemma transact_refines {A} step s (body : db → result (A * db)) :
  (∀ a d', body s.(st_db) = Ok (a, d') → refines step s.(st_db) d') →
  refines step s.(st_db) (snd (transact s body)).(st_db).
Proof.
  intros Hb. unfold transact. destruct (requireOpen s); [|done].
  destruct (body (st_db s)) as [[a d']|e]; [|done]. exact (Hb a d' eq_refl).
Qed.

Lemma guarded_refines {A B} step s (guard : result A) (k : A → result B * Store) :
  (∀ a, refines step s.(st_db) (snd (k a)).(st_db)) → refines step s.(st_db) (snd (guarded s guard k)).(st_db).
Proof. intros Hk. unfold guarded. destruct guard; [apply Hk|done]. Qed.

(** A call moves the Handlings as its caller may. *)
Lemma store_call_refines who s s' : store_call who s s' → refines (lifecycle_step who) s.(st_db) s'.(st_db).
Proof.
  destruct 1; [done|..]; apply guarded_refines; intros ?;
    repeat match goal with x : (_ * _)%type |- _ => destruct x end;
    apply transact_refines; intros r d' H; cbv beta in H.
  - destruct (references _ _); inv_tx; [done|by eapply refines_changes; [eapply insert_principal_changes|]].
  - by eapply refines_changes; [eapply provisionInitialPrincipalTx_changes|].
  - by eapply refines_changes; [eapply catalogArtifactTx_changes|].
  - by eapply refines_quiet, issueAttachmentTx_refines.
  - by eapply refines_quiet, endAttachmentTx_refines.
  - by eapply refines_changes; [eapply enrollPeerRouteTx_changes|].
  - by eapply refines_changes; [eapply revokePeerRouteTx_changes|].
  - unfold bearer. destruct (authenticateAttachmentTx (st_db s) proof) as [au|e] eqn:E; [by eapply currentTx_refines|].
    apply currentTx_Ok in H as [->|(au & _ & _ & _ & Hau & _)]; [done|]. congruence.
  - destruct (commitAdmissionTx_Ok _ _ _ _ _ _ _ _ _ H) as (au & _ & Hau & _). unfold bearer. rewrite Hau.
    by eapply refines_quiet, commitAdmissionTx_refines.
  - apply bind_Ok in H as (t & _ & H). by eapply refines_changes; [eapply stagePeerDeliveryTx_changes|].
  - inv_tx. by eapply refines_changes; [eapply expirePeerInboxRowsTx_changes|].
  - apply bind_Ok in H as (t & _ & H). by eapply refines_changes; [eapply preflightPeerAdmissionTx_changes|].
  - apply bind_Ok in H as (t & _ & H). by eapply refines_quiet, commitPeerAdmissionTx_refines.
  - inv_tx. by eapply refines_changes; [eapply expirePeerOutboxTx_changes|].
  - apply bind_Ok in H as (t & _ & H). by eapply refines_changes; [eapply settlePeerDeliveryTx_changes|].
Qed.

Lemma store_run_extends callers s s' : store_run callers s s' → extends s.(st_db) s'.(st_db).
Proof. intros H. apply (store_steps_extend ed25519_verify), store_steps_run. by exists callers. Qed.

Lemma store_run_refines callers s s' id : store_run callers s s' →
  life_run (disposed s'.(st_db) id) callers (lifecycle_of (s.(st_db).(handlings) !! id))
    (lifecycle_of (s'.(st_db).(handlings) !! id)).
Proof.
  induction 1 as [s|who callers s1 s2 s3 H Hrun IH]; [done|]. eexists. split; [|exact IH].
  eapply rtc_subrel; [|exact (store_call_refines _ _ _ H id)]. apply grows. intros a f.
  apply disposed_extends. by eapply store_run_extends.
Qed.
End calls.
