(* ===== verification/Projection.v ===== *)
(** Every View the authority projects is well formed: its offers came out of
    their own constructors, whatever the database held, because every stored
    value is parsed again on the way. *)

From Stdlib Require Import Lia.
From S2P Require Import Prelude Utf8 Json Wire Sha256 Time StoreTime Value Intent Bound Event Peer.
From S2P Require Import View AgentView Bind Store EventStore Attach Routes Inbox Outbox.
From S2P Require Import Domain Admission PeerAdmission Current History Frames Invariant PeerInv.
From S2P Require Import Replies.

#[local] Open Scope Z_scope.

(** ** Parsed values *)

Lemma parseOptionalEventRef_Ok field w r : parseOptionalEventRef field w = Ok r → opt_ref_ok r.
Proof.
  unfold parseOptionalEventRef. destruct w as [w|]; [|intros [= <-]; by left].
  intros H%wrap_error_Ok. apply parseEventRef_Ok in H as [? _]. by right.
Qed.

Lemma ParseEventCanonicalJSON_parts data e :
  ParseEventCanonicalJSON data = Ok e →
  handle_ok e.(ev_id) = true ∧ opt_ref_ok e.(ev_correlation) ∧ label_ok e.(ev_kind) = true ∧
  payload_ok e.(ev_payload) = true.
Proof.
  unfold ParseEventCanonicalJSON. intros H. apply bind_Ok in H as (wire & _ & H).
  apply bind_Ok in H as (e1 & He & H). apply bind_Ok in H as ([] & _ & [= ->]).
  unfold eventFromWire in He. cbv zeta in He. apply bind_Ok in He as ([] & _ & He).
  apply bind_Ok in He as (id & Hid & He). do 7 apply bind_Ok in He as (? & _ & He).
  apply bind_Ok in He as (kind & Hk & He). apply bind_Ok in He as (payload & Hp & He).
  do 5 apply bind_Ok in He as (? & _ & He). apply bind_Ok in He as (correlation & Hc & He).
  do 2 apply bind_Ok in He as (? & _ & He). apply sealEvent_Ok in He as ->.
  apply newIdentifier_Ok in Hid as [-> Hid]. apply NewSemanticLabel_Ok in Hk as [-> Hk].
  apply NewSemanticPayload_Ok in Hp as [-> Hp]. apply parseOptionalEventRef_Ok in Hc.
  cbn [with_seal ev_id ev_correlation ev_kind ev_payload]. done.
Qed.

(** What [loadStoredEventDetailsTx] returns. *)
Record details_ok (details : storedEventDetails) : Prop := {
  do_ref : ref_ok details.(sd_ref);
  do_correlation : opt_ref_ok details.(sd_correlation);
  do_artifacts : Forall digest_ok details.(sd_artifacts);
  do_kind : label_ok details.(sd_kind) = true;
  do_payload : payload_ok details.(sd_payload) = true;
}.

Lemma loadStoredEventDetailsTx_ok d id details :
  loadStoredEventDetailsTx d id = Ok details → details_ok details.
Proof.
  unfold loadStoredEventDetailsTx. intros H. apply bind_Ok in H as (row & _ & H).
  apply bind_Ok in H as ([details0 canonical] & Hi & H). apply bind_Ok in H as (artifacts & Ha & H).
  apply bind_Ok in H as ([] & _ & [= <-]). unfold inspectStoredEventDetails in Hi. cbv zeta in Hi.
  apply bind_Ok in Hi as (digest & Hd & Hi). apply bind_Ok in Hi as ([] & _ & Hi).
  apply bind_Ok in Hi as (event & He & Hi). apply bind_Ok in Hi as ([] & Heq & Hi).
  apply bind_Ok in Hi as ([] & _ & [= <- _]). apply wrap_error_Ok, ParseEventCanonicalJSON_parts in He.
  destruct He as (Hid & Hc & Hk & Hp). apply or_error_Ok, ParseDigest_Ok in Hd as [_ Hd].
  apply fail_if_Ok, negb_false_iff, bool_decide_eq_true in Heq.
  split; cbn [with_artifacts sd_ref sd_correlation sd_artifacts sd_kind sd_payload]; try done.
  - split; cbn [Event_Ref er_id er_digest]; [done|]. by rewrite Heq.
  - unfold loadEventArtifactsTx in Ha. apply mapR_Ok in Ha. eapply Forall2_Forall_right; [exact Ha|].
    intros x y Hy. apply or_error_Ok, ParseDigest_Ok in Hy. by destruct Hy as [_ Hy].
Qed.

Lemma loadStoredEventTx_ok d id ref kind payload artifacts :
  loadStoredEventTx d id = Ok (ref, kind, payload, artifacts) →
  ref_ok ref ∧ Forall digest_ok artifacts ∧ label_ok kind = true ∧ payload_ok payload = true.
Proof.
  unfold loadStoredEventTx. intros H. apply bind_Ok in H as (details & Hd & [= <- <- <- <-]).
  apply loadStoredEventDetailsTx_ok in Hd as []. done.
Qed.

Lemma ParsePeerDelivery_refs data route p :
  ParsePeerDeliveryCanonicalJSON data route = Ok p →
  ref_ok p.(pp_delivery).(pd_originEvent) ∧ opt_ref_ok p.(pp_delivery).(pd_originCorrelation).
Proof.
  unfold ParsePeerDeliveryCanonicalJSON. intros H. apply bind_Ok in H as ([] & _ & H).
  apply bind_Ok in H as (wire & _ & H). apply bind_Ok in H as (delivery & Hd & H).
  apply bind_Ok in H as ([] & _ & [= <-]). unfold peerDeliveryFromWire in Hd. cbv zeta in Hd.
  apply bind_Ok in Hd as ([] & _ & Hd). apply bind_Ok in Hd as (? & _ & Hd).
  apply bind_Ok in Hd as (origin & Ho & Hd). do 4 apply bind_Ok in Hd as (? & _ & Hd).
  apply bind_Ok in Hd as (correlation & Hc & Hd). do 6 apply bind_Ok in Hd as (? & _ & Hd).
  apply bind_Ok in Hd as (delivery' & Hn & Hd). apply bind_Ok in Hd as ([] & _ & [= <-]).
  unfold NewPeerDelivery in Hn. do 10 apply bind_Ok in Hn as (? & _ & Hn).
  apply bind_Ok in Hn as ([? ?] & _ & Hn). apply bind_Ok in Hn as ([] & _ & [= <-]).
  cbn [delivery_of_spec pp_delivery pd_originEvent pd_originCorrelation ps_OriginEvent ps_OriginCorrelation].
  apply wrap_error_Ok, parseEventRef_Ok in Ho as [Ho _]. split; [done|].
  by apply parseOptionalEventRef_Ok in Hc.
Qed.

(** ** Claims *)

Record claim_ok (claim : projectedClaim) : Prop := {
  co_handling : handle_ok claim.(pc_handlingID) = true;
  co_head : ref_ok claim.(pc_head);
  co_fence : 0 <= claim.(pc_fence) <= max_int64;
  co_revision : 0 <= claim.(pc_observationRevision) <= MaxTerminalObservationsPerAnchor;
  co_artifacts : Forall digest_ok claim.(pc_artifacts);
  co_kind : label_ok claim.(pc_kind) = true;
  co_payload : payload_ok claim.(pc_payload) = true;
}.

Lemma scanProjectedClaim_ok d id row claim :
  handling_check row = true → scanProjectedClaim d id row = Ok claim → claim_ok claim.
Proof.
  unfold scanProjectedClaim. intros Hc H. apply bind_Ok in H as (hid & Hid & H).
  apply or_error_Ok, newIdentifier_Ok in Hid as [-> Hid].
  apply bind_Ok in H as ([[[ref kind] payload] artifacts] & Hl & H).
  apply loadStoredEventTx_ok in Hl as (Href & Hart & Hk & Hp).
  apply bind_Ok in H as (rev & Hr & [= <-]). split; cbn; try done.
  - unfold handling_check in Hc. inv_res. lia.
  - unfold terminalObservationRevisionTx in Hr. apply bind_Ok in Hr as ([] & _ & Hr).
    apply bind_Ok in Hr as ([] & Hb & [= <-]). apply fail_if_Ok, Z.ltb_ge in Hb.
    split; [apply count_nonneg|done].
Qed.

Lemma acquireClaimTx_ok d a claim d' :
  claims_inv d → acquireClaimTx d a = Ok (Some claim, d') → claim_ok claim.
Proof.
  intros Hinv. unfold acquireClaimTx. destruct (existingClaimTx d a) as [c|e] eqn:Ex.
  - intros [= -> _]. unfold existingClaimTx in Ex. apply bind_Ok in Ex as ([id row] & Hq & Hs).
    apply of_option_Ok, query_row_Some in Hq as [Hq _].
    eapply scanProjectedClaim_ok; [by eapply (cl_check _ Hinv)|done].
  - destruct (errors_is e sql_ErrNoRows) eqn:He; [|intros H; by rewrite ?He in H].
    destruct (claimNextTx d a) as [r d1] eqn:E. cbv beta iota. destruct r as [c|e'];
      [|destruct (errors_is e' sql_ErrNoRows); done].
    intros [= -> _]. unfold claimNextTx in E.
    destruct (next_claimable _ _) as [[id row]|]; [|done].
    destruct (wrap_error _ _) as [d2|e2] eqn:Hw; injection E as E _; [|done].
    apply wrap_error_Ok, write_handling_Ok in Hw as (_ & Hc & _). by eapply scanProjectedClaim_ok.
Qed.

Lemma deterministicHandle_ok domain values h :
  deterministicHandle domain values = Ok h → handle_ok h = true.
Proof. unfold deterministicHandle. by intros [-> H]%NewOpaqueHandle_Ok. Qed.

Lemma project_artifact_handles_ok domain head digests offers :
  Forall digest_ok digests → project_artifact_handles domain head digests = Ok offers →
  Forall (λ a, handle_ok a.(vao_handle) = true ∧ digest_ok a.(vao_digest)) offers.
Proof.
  unfold project_artifact_handles. intros Hd H%mapR_Ok. induction H as [|x y xs ys Hy _ IH]; [constructor|].
  apply Forall_cons in Hd as [Hx Hd]. constructor; [|auto].
  apply bind_Ok in Hy as (h & Hh & Hy). unfold NewViewArtifactOffer in Hy.
  apply bind_Ok in Hy as ([] & _ & [= <-]). split; [by eapply deterministicHandle_ok|done].
Qed.

Lemma projectClaim_ok claim root subject provenance artifacts current :
  claim_ok claim → opt_ref_ok root → projectClaim claim root = Ok (subject, provenance, artifacts, current) →
  handle_ok subject.(sb_handle) = true ∧ subject_ok subject ∧
  Forall (λ p, handle_ok p.(po_handle) = true ∧ ref_ok p.(po_event)) provenance ∧
  Forall (λ a, handle_ok a.(vao_handle) = true ∧ digest_ok a.(vao_digest)) artifacts ∧
  handle_ok current.(acs_ReplyTo) = true.
Proof.
  intros [] Hroot. unfold projectClaim. cbv zeta. intros H. apply bind_Ok in H as ([] & Hz & H).
  apply fail_if_Ok in Hz. destruct Hroot as [->|Hroot]; [by rewrite zero_EventRef_IsZero in Hz|].
  apply bind_Ok in H as (h & Hh & H). apply deterministicHandle_ok in Hh.
  apply bind_Ok in H as (s & Hs & H). unfold NewSubjectBinding in Hs.
  apply bind_Ok in Hs as ([] & Hf & [= <-]). apply bind_Ok in H as (p & Hp & H).
  unfold NewProvenanceOffer in Hp. apply bind_Ok in Hp as ([] & _ & [= <-]).
  apply bind_Ok in H as ([rh ro] & Hr & H). apply bind_Ok in H as (arts & Ha & [= <- <- <- <-]).
  apply (project_artifact_handles_ok _ _ _ _ co_artifacts0) in Ha.
  assert (handle_ok rh = true ∧ Forall (λ p, handle_ok p.(po_handle) = true ∧ ref_ok p.(po_event)) ro) as [Hrh Hro].
  { destruct (bool_decide _); [injection Hr as <- <-; by split; [|constructor]|].
    apply bind_Ok in Hr as (x & Hx & Hr). apply bind_Ok in Hr as (o & Ho & [= <- <-]).
    apply deterministicHandle_ok in Hx. unfold NewProvenanceOffer in Ho.
    apply bind_Ok in Ho as ([] & _ & [= <-]). split; [done|]. by apply Forall_singleton. }
  apply fail_if_Ok in Hf. inv_res. split_and!; try done.
  - split; cbn; [done|done|unfold max_int64, max_uint64 in *; lia|].
    unfold MaxTerminalObservationsPerAnchor, max_uint64 in *. lia.
  - by apply Forall_cons.
Qed.

(** ** References, targets and the reply context *)

Lemma projectReference_ok d references r :
  loadReferencesTx d = Ok references → mapR projectReference references = Ok r →
  Forall (λ x, (handle_ok x.1.1.1.(re_handle) = true ∧ expectation_ok x.1.1.1) ∧
    (handle_ok x.1.1.2.(po_handle) = true ∧ ref_ok x.1.1.2.(po_event)) ∧
    Forall (λ a, handle_ok a.(vao_handle) = true ∧ digest_ok a.(vao_digest)) x.1.2) r.
Proof.
  intros Hl Hr. assert (Forall (λ x, key_ok x.(pj_key) = true ∧ ref_ok x.(pj_head) ∧
    (x.(pj_state) = ReferenceActive → digest_ok x.(pj_artifact))) references) as Hall.
  { unfold loadReferencesTx in Hl. apply bind_Ok in Hl as (refs & Hm & Hl).
    apply bind_Ok in Hl as ([] & _ & [= ->]). apply mapR_Ok in Hm.
    eapply Forall2_Forall_right; [exact Hm|]. intros [[key row] digest] y Hy. unfold scanProjectedReference in Hy.
    apply bind_Ok in Hy as (k & Hk & Hy). apply bind_Ok in Hy as (e & He & Hy).
    apply bind_Ok in Hy as (dg & Hd & Hy). apply bind_Ok in Hy as (head & Hh & Hy).
    apply or_error_Ok, NewReferenceKey_Ok in Hk as [-> Hk]. apply or_error_Ok, newIdentifier_Ok in He as [-> He].
    apply or_error_Ok, ParseDigest_Ok in Hd as [_ Hd]. unfold NewEventRef in Hh.
    apply bind_Ok in Hh as ([] & _ & [= <-]).
    destruct (rf_state row), (rf_artifact row) as [v|]; try done.
    - apply bind_Ok in Hy as (a & Ha & [= <-]). apply or_error_Ok, ParseDigest_Ok in Ha as [_ Ha].
      split_and!; [done|by split|done].
    - injection Hy as <-. split_and!; [done|by split|done]. }
  apply mapR_Ok in Hr. clear Hl. induction Hr as [|x y xs ys Hy _ IH]; [constructor|].
  apply Forall_cons in Hall as [(Hk & Hh & Ha) Hall]. constructor; [|auto].
  unfold projectReference in Hy. cbv zeta in Hy. apply bind_Ok in Hy as (h & Hhd & Hy).
  apply deterministicHandle_ok in Hhd. apply bind_Ok in Hy as (e & He & Hy). apply bind_Ok in Hy as (p & Hp & Hy).
  unfold ExpectReferenceHead in He. apply bind_Ok in He as ([] & _ & [= <-]).
  unfold NewProvenanceOffer in Hp. apply bind_Ok in Hp as ([] & _ & [= <-]).
  destruct (bool_decide (pj_state x = ReferenceActive)) eqn:Es.
  - apply bool_decide_eq_true in Es. apply bind_Ok in Hy as (ah & Hah & Hy). apply bind_Ok in Hy as (o & Ho & [= <-]).
    apply deterministicHandle_ok in Hah. unfold NewViewArtifactOffer in Ho.
    apply bind_Ok in Ho as ([] & _ & [= <-]). cbn. split_and!; try done. apply Forall_singleton. auto.
  - injection Hy as <-. cbn. by split_and!.
Qed.

(** The parts of a scanned route are well formed. *)
Lemma scanPeerRoute_ok id row route :
  scanPeerRoute id row = Ok route →
  handle_ok (pr_routeID route) = true ∧ handle_ok (pr_publicAlias route) = true ∧
  handle_ok (pr_remoteTargetAlias route) = true.
Proof.
  unfold scanPeerRoute, scan_route_spec. intros H. apply bind_Ok in H as (spec & Hs & H).
  apply bind_Ok in Hs as (a & Ha & Hs). apply bind_Ok in Hs as (b & Hb & Hs).
  apply bind_Ok in Hs as (c & _ & Hs). apply bind_Ok in Hs as (e & He & Hs).
  do 2 apply bind_Ok in Hs as (? & _ & Hs). injection Hs as <-.
  do 5 apply bind_Ok in H as (? & _ & H). apply bind_Ok in H as ([] & _ & H). injection H as <-.
  apply or_error_Ok, newIdentifier_Ok in Ha as [-> Ha]. apply or_error_Ok, NewOpaqueHandle_Ok in Hb as [-> Hb].
  by apply or_error_Ok, NewOpaqueHandle_Ok in He as [-> He].
Qed.

Lemma AliasTarget_ok alias t : handle_ok alias = true → AliasTarget alias = Ok t → target_wf t.
Proof. unfold AliasTarget. intros Ha H. inv_res. right. by split_and!. Qed.

Lemma projectTargetsTx_ok d attachment hasClaim targets :
  handle_ok attachment.(at_principal) = true → projectTargetsTx d attachment hasClaim = Ok targets →
  Forall (λ t, target_wf t.(rt_requested) ∧ target_ok t) targets.
Proof.
  intros Hp. unfold projectTargetsTx. destruct (_ && _); [by intros [= <-]|]. intros H.
  apply bind_Ok in H as (self & Hs & H). apply bind_Ok in H as (routes & Hr & H).
  apply bind_Ok in H as (resolved & Hm & [= <-]). constructor.
  { unfold ResolveLocalTarget in Hs. apply bind_Ok in Hs as ([] & _ & [= <-]). split; [by left|done]. }
  assert (Forall (λ r, handle_ok (pr_routeID r) = true ∧ handle_ok (pr_publicAlias r) = true ∧
    handle_ok (pr_remoteTargetAlias r) = true) routes) as Hall.
  { unfold loadActivePeerRoutesTx in Hr. apply bind_Ok in Hr as (rs & Hm' & Hr).
    apply bind_Ok in Hr as ([] & _ & [= ->]). apply mapR_Ok in Hm'.
    eapply Forall2_Forall_right; [exact Hm'|]. intros [id row] y Hy.
    apply bind_Ok in Hy as (r & Hsc & Hy). apply bind_Ok in Hy as ([] & _ & [= ->]).
    by apply wrap_error_Ok, scanPeerRoute_ok in Hsc. }
  apply mapR_Ok in Hm. set (l := filter _ routes) in Hm.
  assert (Forall (λ r, handle_ok (pr_routeID r) = true ∧ handle_ok (pr_publicAlias r) = true ∧
    handle_ok (pr_remoteTargetAlias r) = true) l) as Hl.
  { apply Forall_forall. intros r [_ Hin]%list_elem_of_filter. by rewrite Forall_forall in Hall; apply Hall. }
  clear Hall Hr. clearbody l. rename Hl into Hall. induction Hm as [|x y xs ys Hy _ IH]; [constructor|].
  apply Forall_cons in Hall as [(Hi & Hpa & Hra) Hall]. constructor; [|auto]. unfold project_route in Hy.
  apply bind_Ok in Hy as (t & Ht & Hy). apply or_error_Ok in Ht. apply (AliasTarget_ok _ _ Hpa) in Ht.
  apply or_error_Ok in Hy. unfold ResolveRemoteTarget in Hy. apply bind_Ok in Hy as ([] & _ & [= <-]). done.
Qed.

Lemma peerDeliveryForLocalEventTx_ok d ref delivery route :
  peerDeliveryForLocalEventTx d ref = Ok (Some (delivery, route)) →
  ref_ok delivery.(pd_originEvent) ∧ opt_ref_ok delivery.(pd_originCorrelation) ∧
  digest_ok delivery.(pd_id) ∧ handle_ok (pr_publicAlias route) = true.
Proof.
  unfold peerDeliveryForLocalEventTx. destruct (query_row _ _) as [[value row]|]; [|done]. intros H.
  apply bind_Ok in H as (id & Hid & H). apply bind_Ok in H as (rid & _ & H).
  apply bind_Ok in H as (found & Hr & H). apply bind_Ok in H as (r & Hf & H).
  apply bind_Ok in H as (found' & Hx & H). apply bind_Ok in H as (res & Hf' & H).
  do 3 apply bind_Ok in H as (? & _ & H). injection H as <- <-.
  apply of_option_Ok in Hf as ->. apply of_option_Ok in Hf' as ->.
  apply or_error_Ok, ParseDeliveryID_Ok in Hid as [_ Hid].
  apply or_error_Ok, peerRouteByIDTx_Some in Hr as (rrow & _ & Hscan & _).
  apply or_error_Ok, peerInboxResultTx_Some in Hx as (irow & parsed & _ & Hp & -> & -> & _ & _).
  apply ParsePeerDelivery_refs in Hp as [? ?]. apply scanPeerRoute_ok in Hscan as (_ & ? & _). done.
Qed.

Lemma currentReplyContextTx_ok d handling current reply :
  currentReplyContextTx d handling current = Ok reply →
  opt_ref_ok reply.(crc_root) ∧
  (default no_target reply.(crc_target) = no_target ∨ target_wf (default no_target reply.(crc_target))) ∧
  opt_delivery_ok reply.(crc_delivery).
Proof.
  unfold currentReplyContextTx. cbv zeta. intros H. apply bind_Ok in H as ([] & _ & H).
  apply bind_Ok in H as (creation & Hc & H). apply bind_Ok in H as (imported & Hi & H).
  assert (details_ok creation) as [].
  { unfold handlingCreationEventTx in Hc. cbv zeta in Hc. apply bind_Ok in Hc as (? & _ & Hc).
    apply bind_Ok in Hc as ([] & _ & Hc). apply bind_Ok in Hc as ([? ?] & _ & Hc).
    by eapply loadStoredEventDetailsTx_ok. }
  assert (opt_ref_ok (reply_root creation imported)) as Hroot.
  { unfold reply_root. destruct (negb _); [done|]. destruct imported as [[delivery route]|]; [|by right].
    apply peerDeliveryForLocalEventTx_ok in Hi as (? & ? & _). destruct (EventRef_IsZero _); [by right|done]. }
  destruct imported as [[delivery route]|].
  - apply peerDeliveryForLocalEventTx_ok in Hi as (_ & _ & Hd & Ha). destruct (pr_active route).
    + apply bind_Ok in H as (t & Ht & [= <-]). apply or_error_Ok, (AliasTarget_ok _ _ Ha) in Ht.
      cbn. split_and!; [done|by right|by right].
    + injection H as <-. cbn. split_and!; [done|by left|by left].
  - injection H as <-. cbn. split_and!; [done|by left|by left].
Qed.

(** ** The projected specification *)

Lemma select_related_ok root used projected total candidates related total' :
  Forall details_ok candidates → Forall (λ r, details_ok r.(prl_details)) projected →
  select_related root used projected total candidates = (related, total') →
  Forall (λ r, details_ok r.(prl_details)) related.
Proof.
  intros Hc. revert used projected total. induction Hc as [|x xs Hx _ IH]; intros used projected total Hp;
    cbn [select_related]; [by intros [= <- _]|].
  destruct (negb _); [by apply IH|]. destruct (_ && _); [|by apply IH].
  apply IH, Forall_app. split; [done|]. by apply Forall_singleton.
Qed.

Lemma loadFocusProjectionTx_ok d p claim root related outstanding :
  loadFocusProjectionTx d p claim root = Ok (related, outstanding) →
  Forall (λ r, details_ok r.(prl_details)) related.
Proof.
  unfold loadFocusProjectionTx. intros H. apply bind_Ok in H as (heads & _ & H).
  destruct claim as [claim|]; [|by injection H as <- _]. apply bind_Ok in H as ([] & _ & H).
  apply bind_Ok in H as (candidates & Hc & H).
  assert (Forall details_ok candidates) as Hcand.
  { apply mapR_Ok in Hc. eapply Forall2_Forall_right; [exact Hc|]. intros x y. apply loadStoredEventDetailsTx_ok. }
  destruct (selectFocusRelated _ _ _) as [rel tot] eqn:Es.
  apply bind_Ok in H as (observations & Ho & H). injection H as <- _.
  assert (Forall (λ o, details_ok o.(toc_details)) observations) as Hobs.
  { unfold loadTerminalObservationCandidatesTx in Ho. cbv zeta in Ho. apply bind_Ok in Ho as ([] & _ & Ho).
    apply mapR_Ok in Ho. eapply Forall2_Forall_right; [exact Ho|]. intros [[e o] n] y Hy. unfold load_observation in Hy.
    apply bind_Ok in Hy as (details & Hd & Hy). do 3 apply bind_Ok in Hy as (? & _ & Hy). injection Hy as <-.
    by eapply loadStoredEventDetailsTx_ok. }
  destruct (selectTerminalObservation _ _ _) as [o|] eqn:Eo.
  - apply Forall_singleton. unfold selectTerminalObservation in Eo. destruct (_ || _); [done|]. cbv zeta in Eo.
    destruct (find _ _) as [c|] eqn:Ef; [|done]. injection Eo as <-. apply find_some in Ef as [Hin _].
    rewrite Forall_forall in Hobs. apply Hobs. apply list_elem_of_In in Hin.
    match type of Hin with _ ∈ drop ?n _ ++ _ => rewrite <- (take_drop n observations) end.
    rewrite elem_of_app in *. tauto.
  - by eapply select_related_ok.
Qed.

Lemma projectRelated_ok related r :
  Forall (λ r, details_ok r.(prl_details)) related → mapR projectRelated related = Ok r →
  Forall (λ x, (handle_ok x.1.1.(po_handle) = true ∧ ref_ok x.1.1.(po_event)) ∧
    Forall (λ a, handle_ok a.(vao_handle) = true ∧ digest_ok a.(vao_digest)) x.1.2) r.
Proof.
  intros Hall H%mapR_Ok. induction H as [|x y xs ys Hy _ IH]; [constructor|].
  apply Forall_cons in Hall as [[] Hall]. constructor; [|auto]. unfold projectRelated in Hy. cbv zeta in Hy.
  apply bind_Ok in Hy as (h & Hh & Hy). apply deterministicHandle_ok in Hh.
  apply bind_Ok in Hy as (p & Hp & Hy). unfold NewProvenanceOffer in Hp. apply bind_Ok in Hp as ([] & _ & [= <-]).
  apply bind_Ok in Hy as (arts & Ha & [= <-]). split; [done|]. by eapply project_artifact_handles_ok.
Qed.

Lemma Forall_concat_map {A B} (P : B → Prop) (f : A → list B) xs :
  Forall (λ x, Forall P (f x)) xs → Forall P (concat (map f xs)).
Proof. induction 1; cbn; [constructor|]. by apply Forall_app. Qed.

Lemma projectViewContentTx_ok d attachment claim references targets spec public :
  handle_ok attachment.(at_principal) = true →
  match claim with Some claim => claim_ok claim | None => True end →
  loadReferencesTx d = Ok references → projectTargetsTx d attachment (is_some claim) = Ok targets →
  projectViewContentTx d attachment claim references targets = Ok (spec, public) →
  view_spec_ok spec ∧ spec.(mv_Attachment) = attachment.
Proof.
  intros Hp Hclaim Hrefs Htargets. unfold projectViewContentTx. intros H.
  apply bind_Ok in H as (content & Hc & H). cbv zeta in H.
  apply bind_Ok in H as ([related outstanding] & Hfocus & H). apply bind_Ok in H as (rel & Hrel & H).
  apply bind_Ok in H as (refs & Hr & H). injection H as <- _. split; [|done].
  apply loadFocusProjectionTx_ok in Hfocus. apply (projectRelated_ok _ _ Hfocus) in Hrel.
  apply (projectReference_ok _ _ _ Hrefs) in Hr. apply (projectTargetsTx_ok _ _ _ _ Hp) in Htargets.
  assert (match content with
    | Some c => handle_ok c.(cp_subject).(sb_handle) = true ∧ subject_ok c.(cp_subject) ∧
        Forall (λ p, handle_ok p.(po_handle) = true ∧ ref_ok p.(po_event)) c.(cp_provenance) ∧
        Forall (λ a, handle_ok a.(vao_handle) = true ∧ digest_ok a.(vao_digest)) c.(cp_artifacts) ∧
        handle_ok c.(cp_current).(acs_ReplyTo) = true ∧
        (default no_target c.(cp_reply).(crc_target) = no_target ∨
         target_wf (default no_target c.(cp_reply).(crc_target))) ∧
        opt_delivery_ok c.(cp_reply).(crc_delivery)
    | None => True end) as Hcontent.
  { destruct claim as [claim|]; [|by injection Hc as <-]. apply bind_Ok in Hc as (c & Hc & [= <-]).
    unfold project_claim_content in Hc. apply bind_Ok in Hc as (reply & Hreply & Hc).
    apply bind_Ok in Hc as (pending & _ & Hc). apply bind_Ok in Hc as ([[[s pr] ar] cu] & Hpc & [= <-]).
    apply currentReplyContextTx_ok in Hreply as (Hroot & Ht & Hd).
    by apply (projectClaim_ok _ _ _ _ _ _ Hclaim Hroot) in Hpc as (? & ? & ? & ? & ?). }
  split; cbn [mv_Attachment mv_Subjects mv_References mv_Targets mv_ReplyTo mv_ReplyTarget mv_ReplyDelivery
    mv_Artifacts mv_Provenance]; try done.
  - destruct content; [apply Forall_singleton; naive_solver|constructor].
  - apply Forall_map. eapply Forall_impl; [exact Hr|]. naive_solver.
  - destruct content; [right; naive_solver|by left].
  - destruct content; [naive_solver|by left].
  - destruct content; [naive_solver|by left].
  - apply Forall_app. split; [destruct content; [naive_solver|constructor]|]. apply Forall_app. split.
    + apply Forall_concat_map. eapply Forall_impl; [exact Hrel|]. naive_solver.
    + apply Forall_concat_map. eapply Forall_impl; [exact Hr|]. naive_solver.
  - apply Forall_app. split; [destruct content; [naive_solver|constructor]|]. apply Forall_app. split.
    + apply Forall_map. eapply Forall_impl; [exact Hrel|]. naive_solver.
    + apply Forall_map. eapply Forall_impl; [exact Hr|]. naive_solver.
Qed.

(** A projected View was sealed from a well-formed specification of its
    Attachment. *)
Lemma projectBoundViewTx_ok d attachment claim operation view :
  handle_ok attachment.(at_principal) = true →
  match claim with Some claim => claim_ok claim | None => True end →
  projectBoundViewTx d attachment claim operation = Ok view →
  ∃ references targets spec public, view_spec_ok spec ∧ spec.(mv_Attachment) = attachment ∧
    loadReferencesTx d = Ok references ∧ projectTargetsTx d attachment (is_some claim) = Ok targets ∧
    projectViewContentTx d attachment claim references targets = Ok (spec, public) ∧
    NewViewAuthority spec = Ok view.(bv_authority) ∧
    currentViewHandle attachment operation view.(bv_authority).(va_digest) = Ok view.(bv_public).(av_handle) ∧
    NewAgentView (public view.(bv_public).(av_handle) view.(bv_authority)) = Ok view.(bv_public).
Proof.
  intros Hp Hclaim. unfold projectBoundViewTx. intros H. apply bind_Ok in H as (references & Hr & H).
  apply bind_Ok in H as (targets & Ht & H). apply bind_Ok in H as ([spec public] & Hs & H).
  apply bind_Ok in H as (authority & Ha & H). apply bind_Ok in H as (handle & Hh & H).
  apply bind_Ok in H as (agent & Hagent & [= <-]). exists references, targets, spec, public.
  destruct (projectViewContentTx_ok _ _ _ _ _ _ _ Hp Hclaim Hr Ht Hs) as [Hok Eat].
  cbn [bv_authority bv_public].
  assert (handle = av_handle agent) as <-.
  { unfold NewAgentView in Hagent. cbv zeta in Hagent. apply bind_Ok in Hagent as ([] & _ & Hagent).
    apply bind_Ok in Hagent as ([? ?] & _ & Hagent). apply bind_Ok in Hagent as ([? ?] & _ & Hagent).
    apply bind_Ok in Hagent as ([? ?] & _ & Hagent). do 2 apply bind_Ok in Hagent as ([] & _ & Hagent).
    apply bind_Ok in Hagent as ([? ?] & _ & Hagent). apply bind_Ok in Hagent as ([] & _ & [= <-]).
    unfold projectViewContentTx in Hs. apply bind_Ok in Hs as (? & _ & Hs). cbv zeta in Hs.
    apply bind_Ok in Hs as ([? ?] & _ & Hs). do 2 apply bind_Ok in Hs as (? & _ & Hs). by injection Hs as _ <-. }
  done.
Qed.
