(* ===== verification/Replay.v ===== *)
(** Exact replay of local admissions: the recorded outcome of an operation reads
    back, on every later database, as the outcome that was returned first. *)

From Stdlib Require Import Lia.
From S2P Require Import Prelude Utf8 Json Wire Sha256 Time StoreTime Value Intent Bound Event Peer.
From S2P Require Import View AgentView Bind Store EventStore Attach Routes Inbox Outbox.
From S2P Require Import Domain Admission PeerAdmission Current History Frames Invariant PeerInv.
From S2P Require Import Replies Projection.

#[local] Open Scope Z_scope.

(** A request bound from a well-formed View and Intent whose cited handles name
    distinct Events. *)
Record bound_request (view : ViewAuthority) (intent : AgentIntent) (operation : OperationKey)
    (candidates : list CapturedCandidate) (request : BoundIntent) : Prop := {
  br_view : view_ok view;
  br_intent : intent_wf intent;
  br_operation : handle_ok operation = true;
  br_candidates : Forall (λ c, digest_ok c.(cc_digest)) candidates;
  br_bound : bindIntent view intent operation candidates = Ok request;
  br_causation : NoDup request.(bi_causation);
}.

Lemma bound_request_key view intent operation candidates request :
  bound_request view intent operation candidates request →
  handle_ok request.(bi_operationKey) = true ∧ digest_wf request.(bi_digest) ∧
  IsZero request.(bi_operationKey) = false.
Proof.
  intros [_ _ Hop _ Hb _]. pose proof (bindIntent_bound _ _ _ _ _ Hb) as Hbv.
  destruct (bv_structure _ _ _ _ _ Hbv) as [spec Hspec].
  destruct (NewBoundIntent_Ok _ _ Hspec) as (_ & _ & Eb & Hdig & _).
  rewrite (bv_operation _ _ _ _ _ Hbv). split_and!; [done| |].
  - rewrite Hdig. apply sha256_length.
  - by eapply is_empty_false, token_ok_nonempty.
Qed.

(** ** What the commit stores *)

Definition operation_row_of (receipt : Receipt) (eventID : EventID) : operation_row := {|
  opr_request_digest := Digest_String receipt.(rc_requestDigest);
  opr_outcome := ReceiptOutcome_String receipt.(rc_outcome);
  opr_event := if IsZero eventID then None else Some eventID;
  opr_receipt_digest := Digest_String receipt.(rc_digest); opr_receipt := receipt.(rc_canonical);
  opr_recorded_at := formatTime receipt.(rc_recordedAt) |}.

Lemma insertOperationTx_Ok d principal receipt id d' :
  insertOperationTx d principal receipt id = Ok d' →
  d' = set_operations (<[(principal, receipt.(rc_operationKey)) := operation_row_of receipt id]>
         d.(operations)) d ∧
  d.(operations) !! (principal, receipt.(rc_operationKey)) = None ∧
  operation_check (operation_row_of receipt id) = true.
Proof.
  unfold insertOperationTx. cbv zeta. intros H%wrap_error_Ok.
  apply bind_Ok in H as ([] & H1 & H). apply bind_Ok in H as ([] & _ & H).
  apply bind_Ok in H as ([] & H3 & H). apply bind_Ok in H as ([] & _ & [= <-]).
  rewrite constraint_Ok in H1, H3. split_and!; [done| |done].
  unfold references in H1. by destruct (_ !! _).
Qed.

Lemma deepest_nonneg d remote seen maximum refs depth :
  0 <= maximum → deepest d remote seen maximum refs = Ok depth → 0 <= depth.
Proof.
  revert seen maximum. induction refs as [|ref refs IH]; intros seen maximum Hm; cbn [deepest].
  - by intros [= <-].
  - destruct (bool_decide _); [by apply IH|]. destruct (exactEventDepthTx d ref) as [x|e].
    + apply IH. destruct (maximum <? x) eqn:E; lia.
    + destruct (_ && _); [by apply IH|done].
Qed.

(** The Event of an accepted bound request can be read back. *)
Lemma commitDomainAdmission_stored view intent operation candidates request d id ids now e d' :
  bound_request view intent operation candidates request → clock_inv d → pins_closed d →
  handle_ok id = true →
  commitDomainAdmissionTx d (localDomainAdmission request) id ids now = Ok (e, d') →
  Digest_IsZero e.(ev_digest) = false → stored d' e.
Proof.
  intros Hbr Hck Hpins Hid (a & d2 & d3 & He & H2 & H3 & H4)%commitDomainAdmissionTx_Ok Hz.
  eapply stored_extends; [by eapply insertPeerDeliveriesTx_extends|].
  eapply stored_extends; [by eapply applyDomainEffectTx_extends|].
  assert (sealed_event e) as Hs.
  { unfold newDomainEventTx in He. cbn [localDomainAdmission] in He.
    apply bind_Ok in He as ([n d1] & Hn & He). apply nextOriginSequenceTx_Ok in Hn as (-> & -> & Hmax).
    apply bind_Ok in He as (depth & Hdepth & He). apply bind_Ok in He as (e' & He & [= -> _]).
    apply wrap_error_Ok in He.
    assert (stamp_ok (event_stamp id now (origin_sequence d + 1) depth)) as Hst.
    { split; cbn; [done|pose proof (ck_nonneg _ Hck); unfold max_uint64, max_int64 in *; lia|].
      unfold deriveLocalEventCausalDepthTx in Hdepth. apply bind_Ok in Hdepth as (? & _ & Hdepth).
      by eapply deepest_nonneg. }
    destruct Hbr as [Hv Hi Hop Hc Hb Hnd].
    destruct (bound_event_ok _ _ _ _ _ _ _ Hv Hi Hop Hc Hst Hb Hnd He) as (e0 & Hseal & Hok).
    by exists e0. }
  apply (insertEventTx_stored _ _ _ Hs) in H2 as [? _]; [done|]. exact Hpins.
Qed.

(** ** Reading the outcome back *)

Lemma operationReplayTx_row d principal request receipt id :
  receipt_ok receipt → receipt_sealed receipt → Digest_IsZero receipt.(rc_digest) = false →
  receipt.(rc_operationKey) = request.(bi_operationKey) → receipt.(rc_requestDigest) = request.(bi_digest) →
  d.(operations) !! (principal, request.(bi_operationKey)) = Some (operation_row_of receipt id) →
  validateReplayEventTx d receipt (if IsZero id then None else Some id) = Ok () →
  operationReplayTx d principal request = Ok (Some (resultFromReceipt receipt true)).
Proof.
  intros Hok Hsealed Hz Hkey Hreq Hrow Hev. unfold operationReplayTx. rewrite Hrow.
  cbn [operation_row_of opr_request_digest opr_outcome opr_event opr_receipt_digest opr_receipt opr_recorded_at].
  rewrite Hreq, bool_decide_eq_true_2 by done. cbn [negb fail_if mbind result_bind].
  assert (digest_wf (rc_digest receipt)) as Hwf by (destruct Hsealed as [_ Hd]; rewrite Hd; apply sha256_length).
  rewrite ParseDigest_String by done.
  cbn [or_error mbind result_bind]. rewrite ParseReceiptCanonicalJSON_canonical by done.
  cbn [or_error mbind result_bind]. rewrite Hkey, Hreq, !bool_decide_eq_true_2 by done.
  cbn [negb orb fail_if mbind result_bind]. rewrite Hev. done.
Qed.

(** ** The recorded outcome *)

(** Every rejection carries one of the fixed codes. *)
Definition coded (rejection : result (option admissionRejection)) : Prop :=
  ∀ r, rejection = Ok (Some r) → label_ok r.(rj_code) = true.

Lemma coded_or_else check rest : coded check → coded rest → coded (or_else check rest).
Proof.
  intros Hc Hr r. unfold or_else. intros H. apply bind_Ok in H as ([x|] & Hx & H).
  - injection H as ->. by apply Hc.
  - by apply Hr.
Qed.

Lemma coded_first {A} (check : A → result (option admissionRejection)) xs :
  (∀ x, coded (check x)) → coded (first_rejection check xs).
Proof.
  intros Hc. induction xs as [|x xs IH]; [done|]. by apply (coded_or_else (check x)).
Qed.

Ltac solve_coded := intros ? ?; inv_tx; unfold reject in *; simplify_eq; done.

Lemma validateReferenceReadSetTx_coded d request : coded (validateReferenceReadSetTx d request).
Proof.
  apply coded_or_else; [unfold validateReferenceExpectationTx; solve_coded|].
  unfold validateReferenceCitationsTx. generalize (@nil string), (bi_causation request ++
    (if EventRef_IsZero (bi_correlation request) then [] else [bi_correlation request])).
  intros seen cited. revert seen. induction cited as [|ref cited IH]; intros seen; [done|].
  cbn [citations]. destruct (bool_decide _); [apply IH|].
  apply (coded_or_else (citation_rejection d ref)); [unfold citation_rejection; solve_coded|apply IH].
Qed.

Lemma freshAdmissionRejectionTx_coded d au request failure now :
  coded (freshAdmissionRejectionTx d au request failure now).
Proof.
  unfold freshAdmissionRejectionTx, validateMutableAuthorityTx.
  destruct (negb _); [solve_coded|]. destruct failure; [solve_coded|]. destruct (negb _); [solve_coded|].
  apply coded_or_else; [unfold validateIssuedViewTx; solve_coded|].
  apply coded_or_else; [apply coded_first; intros t; unfold validate_target; solve_coded|].
  apply coded_or_else; [unfold validatePeerDeliveryCapacityTx; solve_coded|].
  intros r H. apply bind_Ok in H as (claim & _ & H). revert r H.
  apply coded_or_else; [unfold validateBoundSubject; solve_coded|].
  apply coded_or_else; [unfold rejectIfClaimableTx; solve_coded|].
  apply coded_or_else; [apply validateReferenceReadSetTx_coded|].
  apply coded_or_else; [unfold validateHandlingBoundTx; solve_coded|]. solve_coded.
Qed.

(** An operation row whose Receipt, and Event if any, read back. *)
Definition recorded (d : db) (principal : AgentPrincipalID) (request : BoundIntent) (receipt : Receipt)
    : Prop :=
  receipt_ok receipt ∧ receipt_sealed receipt ∧
  receipt.(rc_operationKey) = request.(bi_operationKey) ∧ receipt.(rc_requestDigest) = request.(bi_digest) ∧
  ∃ id, d.(operations) !! (principal, request.(bi_operationKey)) = Some (operation_row_of receipt id) ∧
    ((id = "" ∧ receipt.(rc_outcome) = ReceiptOutcomeRejected) ∨
     ∃ e, stored d e ∧ id = e.(ev_id) ∧ receipt.(rc_outcome) = ReceiptOutcomeAccepted ∧
          receipt.(rc_event) = Event_Ref e).

Lemma recorded_extends d d' principal request receipt :
  extends d d' → recorded d principal request receipt → recorded d' principal request receipt.
Proof.
  intros Hx (H1 & H2 & H3 & H4 & id & Hrow & H5). split_and!; [done..|]. exists id. split.
  - by apply (ex_operations _ _ Hx) in Hrow as (r' & Hr' & <-).
  - destruct H5 as [H5|(e & Hs & H5)]; [by left|]. right. exists e. split; [by eapply stored_extends|done].
Qed.

Lemma recorded_replays d principal request receipt :
  recorded d principal request receipt → Digest_IsZero receipt.(rc_digest) = false →
  operationReplayTx d principal request = Ok (Some (resultFromReceipt receipt true)).
Proof.
  intros (H1 & H2 & H3 & H4 & id & Hrow & H5) Hz. eapply operationReplayTx_row; try done.
  unfold validateReplayEventTx, receipt_accepted. destruct H5 as [[-> ->]|(e & Hs & -> & -> & Hev)].
  - by rewrite bool_decide_eq_false_2.
  - rewrite bool_decide_eq_true_2 by done. cbn [negb]. pose proof (sealed_event_ok _ (st_sealed _ _ Hs)) as Hok.
    assert (IsZero (ev_id e) = false) as ->.
    { apply is_empty_false. eapply token_ok_nonempty, (eok_id _ Hok). }
    cbn [of_option mbind result_bind]. rewrite Hev. cbn [Event_Ref er_id].
    rewrite bool_decide_eq_true_2 by done. cbn [negb fail_if mbind result_bind].
    unfold loadStoredEventTx. rewrite loadStoredEventDetails_stored by done.
    cbn [mbind result_bind wrap_error details_of sd_ref]. by rewrite bool_decide_eq_true_2.
Qed.

(** A fresh outcome of the commit transaction is recorded under the caller's
    Principal. *)
Lemma commitAdmissionTx_recorded view intent operation candidates request d now proof failure id ids r d' :
  bound_request view intent operation candidates request → clock_inv d → pins_closed d →
  handle_ok id = true →
  commitAdmissionTx now proof request failure id ids d = Ok (r, d') → r.(ar_replayed) = false →
  ∃ au receipt, authenticateAttachmentTx d proof = Ok au ∧
    recorded d' au.(aa_value).(at_principal) request receipt ∧ r = resultFromReceipt receipt false.
Proof.
  intros Hbr Hck Hpins Hid H Hfresh. destruct (bound_request_key _ _ _ _ _ Hbr) as (Hop & Hw & _).
  apply commitAdmissionTx_Ok in H as (au & [replay|] & Hau & Hrep & H).
  { exfalso. destruct H as [-> _]. unfold operationReplayTx in Hrep. destruct (_ !! _); [|done].
    do 7 apply bind_Ok in Hrep as (? & _ & Hrep). by injection Hrep as <-. }
  destruct H as (_ & [rejection|] & Hrej & H).
  - apply persistRejectionTx_Ok in H as (receipt & Hr & H & ->).
    assert (label_ok rejection.(rj_code) = true) as Hcode by by eapply freshAdmissionRejectionTx_coded.
    apply (NewRejectedReceipt_ok _ _ _ _ _ Hop Hw Hcode) in Hr as (? & ? & Ek & ? & ? & _ & _).
    apply insertOperationTx_Ok in H as (-> & _). exists au, receipt. split_and!; [done| |done].
    split_and!; [done..|]. exists "". split; [|by left]. db_simpl. rewrite Ek. apply lookup_insert_eq.
  - apply commitAcceptedAdmissionTx_Ok in H as (e & d1 & receipt & H1 & Hr & H & ->).
    assert (Digest_IsZero (ev_digest e) = false) as Hz.
    { unfold NewAcceptedReceipt in Hr. apply bind_Ok in Hr as (? & _ & Hr).
      apply bind_Ok in Hr as ([] & Hg & _). apply fail_if_Ok in Hg. by inv_res. }
    pose proof (commitDomainAdmission_stored _ _ _ _ _ _ _ _ _ _ _ Hbr Hck Hpins Hid H1 Hz) as Hs.
    pose proof (sealed_event_ok _ (st_sealed _ _ Hs)) as Hok.
    assert (ref_ok (Event_Ref e)) as Href.
    { split; [apply Hok|]. by destruct (sealed_event_digest _ (st_sealed _ _ Hs)). }
    apply (NewAcceptedReceipt_ok _ _ _ _ Hop Hw Href) in Hr as (? & ? & Ek & ? & ? & ? & _).
    pose proof (insertOperationTx_extends _ _ _ _ _ H) as Hx.
    apply insertOperationTx_Ok in H as (-> & _). exists au, receipt. split_and!; [done| |done].
    split_and!; [done..|]. exists (ev_id e). split; [db_simpl; rewrite Ek; apply lookup_insert_eq|].
    right. exists e. split_and!; try done. by eapply stored_extends.
Qed.
