(* ===== verification/Effects.v ===== *)
(** The effect of one local admission on the Events, Handlings and References. *)

From Stdlib Require Import Lia.
From S2P Require Import Prelude Utf8 Json Wire Sha256 Time StoreTime Value Intent Bound Event Peer.
From S2P Require Import View AgentView Bind Store EventStore Attach Routes Inbox Outbox.
From S2P Require Import Domain Admission PeerAdmission Current History Frames Invariant Lineage.
From S2P Require Import PeerInv Replies Projection Replay.

#[local] Open Scope Z_scope.

(** ** The accepted Event *)

(** What the Event of a local admission copies from the request. *)
Record event_of (request : BoundIntent) (e : Event) : Prop := {
  eo_operation : e.(ev_operationKey) = request.(bi_operationKey);
  eo_request : e.(ev_requestDigest) = request.(bi_digest);
  eo_consequence : e.(ev_consequence) = request.(bi_intent).(ai_consequence);
  eo_subject : e.(ev_subject) = request.(bi_subject);
  eo_expected : e.(ev_expectedRef) = request.(bi_expectedReference);
  eo_targets : e.(ev_targets) = request.(bi_targets);
}.

Lemma newLocalEvent_Ok d request id now e a d' :
  newDomainEventTx d (localDomainAdmission request) id now = Ok (e, a, d') →
  event_of request e ∧ a = request.(bi_attachment).(at_id) ∧ e.(ev_id) = id ∧
  e.(ev_originSequence) = d.(origin_sequence) + 1.
Proof.
  unfold newDomainEventTx. cbn [localDomainAdmission]. intros H.
  apply bind_Ok in H as ([n d1] & Hn & H). apply nextOriginSequenceTx_Ok in Hn as (-> & -> & _).
  apply bind_Ok in H as (depth & _ & H). apply bind_Ok in H as (e' & He & [= -> <- _]).
  apply wrap_error_Ok in He. unfold NewEvent in He. apply bind_Ok in He as ([] & _ & He).
  apply bind_Ok in He as (t & _ & He). apply sealEvent_Ok in He as ->. done.
Qed.

(** One fresh Event row, the next tick of the clock, nothing else of history. *)
Lemma commitDomainAdmissionTx_event d c id ids now e d' :
  commitDomainAdmissionTx d c id ids now = Ok (e, d') →
  d'.(events) = <[e.(ev_id) := event_row_of e]> d.(events) ∧ d.(events) !! e.(ev_id) = None ∧
  d'.(origin_sequence) = d.(origin_sequence) + 1 ∧ d'.(operations) = d.(operations).
Proof.
  intros (a & d2 & d3 & _ & H2 & H3 & H4)%commitDomainAdmissionTx_Ok.
  apply insertPeerDeliveriesTx_changes in H4. apply applyDomainEffectTx_changes in H3.
  apply insertEventTx_Ok in H2 as (pins & -> & _ & Hnew & _). db_simpl.
  pose proof (H4 TEvents eq_refl) as E1. pose proof (H3 TEvents eq_refl) as E2.
  pose proof (H4 TSequence eq_refl) as E3. pose proof (H3 TSequence eq_refl) as E4.
  pose proof (H4 TOperations eq_refl) as E5. pose proof (H3 TOperations eq_refl) as E6.
  cbn in E1, E2, E3, E4, E5, E6. by rewrite E1, E2, E3, E4, E5, E6.
Qed.

(** ** Handlings *)

Lemma create_successors_keeps e d targets ids d' k r :
  create_successors e d targets ids = Ok d' → d.(handlings) !! k = Some r →
  d'.(handlings) !! k = Some r.
Proof.
  revert d ids. induction targets as [|t targets IH]; intros d ids H Hk; cbn [create_successors] in H.
  - by injection H as <-.
  - inv_tx; [by eapply IH|]. eapply IH; [done|].
    match goal with Hi : insert_handling _ _ _ = Ok _ |- _ =>
      apply insert_handling_Ok in Hi as [Hnew Hi]; apply write_handling_Ok in Hi as [-> _] end.
    db_simpl. rewrite lookup_insert_ne; [done|congruence].
Qed.

Lemma settleSubjectTx_Ok d e a st o d' :
  settleSubjectTx d e a st o = Ok d' →
  ∃ subject row, e.(ev_subject) = Some subject ∧
    d.(handlings) !! subject.(sb_handlingID) = Some row ∧ row.(hr_state) = HandlingOpen ∧
    row.(hr_head) = subject.(sb_head).(er_id) ∧ row.(hr_claim) = Some a ∧
    row.(hr_fence) = subject.(sb_fence) ∧
    d' = set_handlings (<[subject.(sb_handlingID) := settled_handling row e st o]> d.(handlings)) d.
Proof.
  unfold settleSubjectTx. intros H. apply bind_Ok in H as (subject & Hs%of_option_Ok & H).
  apply bind_Ok in H as ([] & _ & H). apply bind_Ok in H as (row & Hr%of_option_Ok & H).
  apply claimed_subject_Some in Hr as (? & ? & ? & ? & ?). apply wrap_error_Ok in H.
  apply write_handling_Ok in H as [-> _]. by exists subject, row.
Qed.

(** The state a consequence leaves its subject in. *)
Definition settled_state (c : Consequence) : option (handling_state * option string) :=
  match c with
  | ConsequenceAdvanceHandling => Some (HandlingOpen, None)
  | ConsequenceResolveCompleted => Some (HandlingTerminal, Some "completed")
  | ConsequenceResolveDeclined => Some (HandlingTerminal, Some "declined")
  | ConsequenceResolveUnresolved => Some (HandlingTerminal, Some "unresolved")
  | _ => None
  end.

Lemma applyDomainEffectTx_settles d e a ids d' st o :
  settled_state e.(ev_consequence) = Some (st, o) → applyDomainEffectTx d e a ids = Ok d' →
  ∃ d1, settleSubjectTx d e a st o = Ok d1 ∧ createSuccessorHandlingsTx d1 e ids = Ok d'.
Proof.
  unfold applyDomainEffectTx. cbv zeta. intros Hc H.
  destruct (ev_consequence e); try done; injection Hc as <- <-; by apply bind_Ok in H.
Qed.

(** ** References *)

Definition changes_reference (c : Consequence) : bool :=
  match c with
  | ConsequencePublishReference | ConsequenceSupersedeReference | ConsequenceRetractReference => true
  | _ => false
  end.

Lemma applyDomainEffectTx_reference d e a ids d' :
  changes_reference e.(ev_consequence) = true → applyDomainEffectTx d e a ids = Ok d' →
  publishReferenceTx d e = Ok d' ∨ supersedeReferenceTx d e = Ok d' ∨ retractReferenceTx d e = Ok d'.
Proof.
  unfold applyDomainEffectTx. cbv zeta. intros Hc H. destruct (ev_consequence e); try done; eauto.
Qed.

(** ** What an admission that is not rejected has checked *)

Lemma or_else_None check rest : or_else check rest = Ok None → check = Ok None ∧ rest = Ok None.
Proof. unfold or_else. intros H. apply bind_Ok in H as ([r|] & Hc & H); done. Qed.

Lemma first_rejection_None {A} (check : A → result (option admissionRejection)) xs :
  first_rejection check xs = Ok None → Forall (λ x, check x = Ok None) xs.
Proof.
  induction xs as [|x xs IH]; [by constructor|]. intros H.
  apply (or_else_None (check x)) in H as [Hx H]. constructor; auto.
Qed.

(** The claim an admission works under: the attachment holds the open Handling of
    its Principal, and the claim's head, fence, observation revision and expiry. *)
Record held_claim (d : db) (attachment : Attachment) (claim : projectedClaim) (until : Time)
    (row : handling_row) : Prop := {
  hc_row : d.(handlings) !! claim.(pc_handlingID) = Some row;
  hc_attachment : row.(hr_claim) = Some attachment.(at_id);
  hc_target : row.(hr_target) = attachment.(at_principal);
  hc_open : row.(hr_state) = HandlingOpen;
  hc_fence : claim.(pc_fence) = row.(hr_fence);
  hc_until : row.(hr_until) = Some (formatTime until);
  hc_revision : terminalObservationRevisionTx d claim.(pc_handlingID) = Ok claim.(pc_observationRevision);
}.

Lemma currentClaimForAdmissionTx_Ok d attachment claim until :
  currentClaimForAdmissionTx d attachment = Ok (claim, until) →
  ∃ row, held_claim d attachment claim until row.
Proof.
  unfold currentClaimForAdmissionTx. intros H. apply bind_Ok in H as ([id row] & Hq%of_option_Ok & H).
  apply query_row_Some in Hq as [Hq Hw]. apply andb_true_iff in Hw as [[Hc Ht]%andb_true_iff Ho].
  rewrite bool_decide_eq_true in Hc, Ht, Ho.
  apply bind_Ok in H as (u & Hu%of_option_Ok & H). apply bind_Ok in H as (hid & Hid & H).
  apply bind_Ok in H as ([[[ref kind] payload] artifacts] & _ & H).
  apply bind_Ok in H as (revision & Hrev & H). apply bind_Ok in H as (u' & Hu' & [= <- <-]).
  apply parseTime_Ok in Hu'.
  assert (hid = id) as -> by (unfold or_error in Hid; destruct (NewHandlingID id) eqn:E; [|done];
    injection Hid as <-; by apply newIdentifier_Ok in E as [-> _]).
  exists row. split; try done. congruence.
Qed.

Record admission_checked (d : db) (attachment : Attachment) (request : BoundIntent) (now : Time)
    : Prop := {
  ac_targets : Forall (λ t, validate_target d attachment t = Ok None) request.(bi_targets);
  ac_subject : ∀ subject, request.(bi_subject) = Some subject →
    ∃ claim until row, held_claim d attachment claim until row ∧ now < until ∧
      subject.(sb_handlingID) = claim.(pc_handlingID) ∧ subject.(sb_head) = claim.(pc_head) ∧
      subject.(sb_fence) = claim.(pc_fence) ∧
      subject.(sb_observationRevision) = claim.(pc_observationRevision);
  ac_reference : validateReferenceReadSetTx d request = Ok None;
  ac_bound : validateHandlingBoundTx d attachment.(at_principal) request = None;
  ac_completed : request.(bi_intent).(ai_consequence) = ConsequenceResolveCompleted →
    request.(bi_artifacts) ≠ [];
}.

Lemma validateBoundSubject_None request claim now subject :
  validateBoundSubject request claim now = None → request.(bi_subject) = Some subject →
  ∃ c until, claim = Some (c, until) ∧ now < until ∧
    subject.(sb_handlingID) = c.(pc_handlingID) ∧ subject.(sb_head) = c.(pc_head) ∧
    subject.(sb_fence) = c.(pc_fence) ∧ subject.(sb_observationRevision) = c.(pc_observationRevision).
Proof.
  unfold validateBoundSubject. intros H Hs. rewrite Hs in H. destruct claim as [[c until]|]; [|done].
  destruct (_ || _) eqn:E in H; [done|]. inv_res. exists c, until. split_and!; try done; lia.
Qed.

Lemma validateMutableAuthorityTx_None d attachment request now :
  validateMutableAuthorityTx d attachment request now = Ok None →
  admission_checked d attachment request now.
Proof.
  unfold validateMutableAuthorityTx. intros H.
  apply or_else_None in H as [_ H]. apply or_else_None in H as [Ht H].
  apply or_else_None in H as [_ H]. apply bind_Ok in H as (claim & Hc & H).
  apply or_else_None in H as [[= Hs] H]. apply or_else_None in H as [_ H].
  apply or_else_None in H as [Href H]. apply or_else_None in H as [[= Hb] H].
  split; [by apply first_rejection_None| |done|done|].
  - intros subject Hsub. destruct (validateBoundSubject_None _ _ _ _ Hs Hsub) as (c & until & -> & Hlt & ?).
    unfold admission_claim in Hc. destruct (currentClaimForAdmissionTx d attachment) as [[c' u']|e] eqn:E.
    + injection Hc as <- <-. apply currentClaimForAdmissionTx_Ok in E as [row Hrow]. by exists c', u', row.
    + by destruct (errors_is e sql_ErrNoRows).
  - intros Hcc Ha. injection H as H. rewrite bool_decide_eq_true_2, Ha in H by done. done.
Qed.

Lemma freshAdmissionRejectionTx_None d au request failure now :
  freshAdmissionRejectionTx d au request failure now = Ok None →
  requireLiveAttachment au now = Ok () ∧ failure = false ∧
  is_ok (requireArtifacts d request.(bi_artifacts)) = true ∧
  admission_checked d au.(aa_value) request now.
Proof.
  unfold freshAdmissionRejectionTx.
  destruct (requireLiveAttachment au now) as [[]|] eqn:Hl; [|done]. cbn [is_ok negb].
  destruct failure; [done|]. destruct (is_ok (requireArtifacts _ _)) eqn:Ha; [|done]. cbn [negb].
  intros H%validateMutableAuthorityTx_None. done.
Qed.

(** ** The three outcomes of the commit *)

Lemma operationReplayTx_replayed d p request r :
  operationReplayTx d p request = Ok (Some r) → r.(ar_replayed) = true.
Proof.
  unfold operationReplayTx. destruct (_ !! _); [|done]. intros H.
  do 7 apply bind_Ok in H as (? & _ & H). by injection H as <-.
Qed.

Lemma NewRejectedReceipt_fields request code diagnostic now r :
  NewRejectedReceipt request code diagnostic now = Ok r →
  r.(rc_operationKey) = request.(bi_operationKey) ∧ r.(rc_requestDigest) = request.(bi_digest) ∧
  r.(rc_outcome) = ReceiptOutcomeRejected.
Proof.
  unfold NewRejectedReceipt. intros Hr. do 3 apply bind_Ok in Hr as (? & _ & Hr).
  by apply newReceipt_Ok in Hr as (_ & ? & ? & ? & _).
Qed.

Lemma NewAcceptedReceipt_fields request event now r :
  NewAcceptedReceipt request event now = Ok r →
  r.(rc_operationKey) = request.(bi_operationKey) ∧ r.(rc_requestDigest) = request.(bi_digest) ∧
  r.(rc_outcome) = ReceiptOutcomeAccepted ∧ r.(rc_event) = Event_Ref event.
Proof.
  unfold NewAcceptedReceipt. intros Hr. do 3 apply bind_Ok in Hr as (? & _ & Hr).
  by apply newReceipt_Ok in Hr as (_ & ? & ? & ? & ? & _).
Qed.

(** An accepted local admission, from the checks to the recorded Receipt. *)
Record accepted_admission (now : Time) (proof : AttachmentProof) (request : BoundIntent) (d d' : db)
    (au : authenticatedAttachment) (e : Event) (ids : list HandlingID) : Prop := {
  aa_auth : authenticateAttachmentTx d proof = Ok au;
  aa_bound : request.(bi_attachment) = au.(aa_value);
  aa_live : requireLiveAttachment au now = Ok ();
  aa_checked : admission_checked d au.(aa_value) request now;
  aa_event : event_of request e;
  aa_effect : ∃ d2 d3, d2.(handlings) = d.(handlings) ∧
    d2.(active_references) = d.(active_references) ∧ d2.(reference_lineage) = d.(reference_lineage) ∧
    applyDomainEffectTx d2 e au.(aa_value).(at_id) ids = Ok d3 ∧
    d'.(handlings) = d3.(handlings) ∧ d'.(active_references) = d3.(active_references) ∧
    d'.(reference_lineage) = d3.(reference_lineage);
  aa_events : d'.(events) = <[e.(ev_id) := event_row_of e]> d.(events);
  aa_fresh : d.(events) !! e.(ev_id) = None;
  aa_clock : d'.(origin_sequence) = d.(origin_sequence) + 1;
  aa_operation : ∃ receipt, NewAcceptedReceipt request e now = Ok receipt ∧
    d'.(operations) = <[(au.(aa_value).(at_principal), receipt.(rc_operationKey)) :=
                        operation_row_of receipt e.(ev_id)]> d.(operations) ∧
    d.(operations) !! (au.(aa_value).(at_principal), receipt.(rc_operationKey)) = None;
}.

Lemma commitAdmissionTx_accepted now proof request failure id ids d r d' :
  commitAdmissionTx now proof request failure id ids d = Ok (r, d') →
  r.(ar_replayed) = false → r.(ar_outcome) = ReceiptOutcomeAccepted →
  ∃ au e, accepted_admission now proof request d d' au e ids.
Proof.
  intros (au & [replay|] & Hau & Hrep & H)%commitAdmissionTx_Ok Hfresh Hout.
  { destruct H as [-> _]. apply operationReplayTx_replayed in Hrep. congruence. }
  destruct H as (Hbound & [rejection|] & Hrej & H).
  { apply persistRejectionTx_Ok in H as (receipt & Hr & _ & ->). cbn in Hout.
    apply NewRejectedReceipt_fields in Hr as (_ & _ & Ho). congruence. }
  apply freshAdmissionRejectionTx_None in Hrej as (Hl & -> & _ & Hchk).
  apply commitAcceptedAdmissionTx_Ok in H as (e & d1 & receipt & H1 & Hr & H & _).
  pose proof (commitDomainAdmissionTx_event _ _ _ _ _ _ _ H1) as (Eev & Hnew & Eseq & Eop).
  apply insertOperationTx_Ok in H as (-> & Hnone & _). rewrite Eop in Hnone.
  apply commitDomainAdmissionTx_Ok in H1 as (a & d2 & d3 & He & H2 & H3 & H4).
  apply newLocalEvent_Ok in He as (Heo & -> & _). unfold requireBoundAttachment in Hbound.
  apply fail_if_Ok in Hbound. inv_res. rename Hbound into Eb. rewrite Eb in H3.
  apply insertEventTx_changes in H2. apply insertPeerDeliveriesTx_changes in H4.
  exists au, e. split; db_simpl; try done; [|by rewrite Eop; eauto].
  exists d2, d3. split_and!; [apply (H2 THandlings eq_refl)|apply (H2 TReferences eq_refl)|
    apply (H2 TLineage eq_refl)|done|apply (H4 THandlings eq_refl)|apply (H4 TReferences eq_refl)|
    apply (H4 TLineage eq_refl)].
Qed.

(** ** The number of open Handlings *)

Definition open_handlings (d : db) (principal : AgentPrincipalID) : Z :=
  count (open_for principal) d.(handlings).

Definition for_principal (principal : AgentPrincipalID) (targets : list ResolvedTarget) : Z :=
  lenZ (filter (λ t, rt_localPrincipal t = principal) (local_targets targets)).

Lemma create_successors_count e d targets ids d' p :
  create_successors e d targets ids = Ok d' →
  open_handlings d' p = open_handlings d p + for_principal p targets.
Proof.
  revert d ids. induction targets as [|t targets IH]; intros d ids H; cbn [create_successors] in H.
  - injection H as <-. unfold for_principal, lenZ. cbn. lia.
  - unfold for_principal, local_targets in *. rewrite filter_cons. destruct (bool_decide _) eqn:Hr.
    + apply bool_decide_eq_true in Hr. rewrite decide_False by congruence. by eapply IH.
    + inv_tx. rewrite decide_True by done.
      match goal with Hi : insert_handling _ _ _ = Ok _ |- _ =>
        apply insert_handling_Ok in Hi as [Hnew Hi]; apply write_handling_Ok in Hi as [-> _] end.
      erewrite IH by done. unfold open_handlings. db_simpl. rewrite count_insert_new by done.
      rewrite filter_cons. unfold open_for at 2. cbn [new_handling hr_target hr_state].
      rewrite (bool_decide_eq_true_2 (HandlingOpen = HandlingOpen)), andb_true_r by done.
      destruct (decide (rt_localPrincipal t = p)); [rewrite bool_decide_eq_true_2 by done|
        rewrite bool_decide_eq_false_2 by done]; unfold lenZ; cbn [length]; lia.
Qed.

(** Under the admission checks every local target is the admitting Principal. *)
Lemma checked_targets d attachment targets q :
  Forall (λ t, validate_target d attachment t = Ok None) targets →
  for_principal q targets =
  if bool_decide (q = attachment.(at_principal)) then localTargetCount targets else 0.
Proof.
  unfold for_principal, localTargetCount, local_targets, lenZ.
  induction 1 as [|t ts Ht _ IH]; [by destruct (bool_decide _)|]. rewrite filter_cons.
  destruct (decide _) as [Hl|]; [|done]. unfold validate_target in Ht. rewrite Hl in Ht.
  destruct (bool_decide (rt_localPrincipal t = at_principal attachment)) eqn:E; [|done].
  apply bool_decide_eq_true in E. rewrite filter_cons. destruct (decide (rt_localPrincipal t = q)) as [Hq|Hq].
  - rewrite bool_decide_eq_true_2 in IH |- * by congruence. cbn [length]. lia.
  - rewrite bool_decide_eq_false_2 in IH |- * by congruence. done.
Qed.

Lemma createSuccessorHandlingsTx_count d e ids d' p :
  createSuccessorHandlingsTx d e ids = Ok d' →
  open_handlings d' p = open_handlings d p + for_principal p e.(ev_targets).
Proof.
  unfold createSuccessorHandlingsTx. intros H. apply bind_Ok in H as ([] & _ & H).
  by eapply create_successors_count.
Qed.

Lemma settleSubjectTx_count d e a st o d' p :
  settleSubjectTx d e a st o = Ok d' →
  ∃ subject row, e.(ev_subject) = Some subject ∧
    d.(handlings) !! subject.(sb_handlingID) = Some row ∧
    open_handlings d' p = open_handlings d p -
      (if bool_decide (row.(hr_target) = p) && bool_decide (st = HandlingTerminal) then 1 else 0).
Proof.
  intros (subject & row & Hs & Hr & Ho & _ & _ & _ & ->)%settleSubjectTx_Ok. exists subject, row.
  split_and!; [done..|]. unfold open_handlings. db_simpl. rewrite (count_insert _ _ _ _ _ Hr).
  unfold open_for. cbn [settled_handling hr_target hr_state]. rewrite Ho.
  destruct (bool_decide (hr_target row = p)), st; vm_compute bool_decide; cbn [andb]; lia.
Qed.

Lemma applyDomainEffectTx_count d e a ids d' q :
  applyDomainEffectTx d e a ids = Ok d' →
  match e.(ev_consequence) with
  | ConsequenceCreateHandlings => open_handlings d' q = open_handlings d q + for_principal q e.(ev_targets)
  | c =>
      match settled_state c with
      | Some (st, _) => ∃ subject row, e.(ev_subject) = Some subject ∧
          d.(handlings) !! subject.(sb_handlingID) = Some row ∧
          open_handlings d' q = open_handlings d q + for_principal q e.(ev_targets) -
            (if bool_decide (row.(hr_target) = q) && bool_decide (st = HandlingTerminal) then 1 else 0)
      | None => open_handlings d' q = open_handlings d q
      end
  end.
Proof.
  intros H. assert (∀ st o, settled_state e.(ev_consequence) = Some (st, o) →
    ∃ subject row, e.(ev_subject) = Some subject ∧ d.(handlings) !! subject.(sb_handlingID) = Some row ∧
      open_handlings d' q = open_handlings d q + for_principal q e.(ev_targets) -
        (if bool_decide (row.(hr_target) = q) && bool_decide (st = HandlingTerminal) then 1 else 0)) as Hst.
  { intros st o Hs. destruct (applyDomainEffectTx_settles _ _ _ _ _ _ _ Hs H) as (d1 & H1 & H2).
    apply (settleSubjectTx_count _ _ _ _ _ _ q) in H1 as (s & row & ? & ? & E).
    apply (createSuccessorHandlingsTx_count _ _ _ _ q) in H2. exists s, row. split_and!; [done..|lia]. }
  assert (changes_reference e.(ev_consequence) = true → open_handlings d' q = open_handlings d q) as Href.
  { intros Hc. apply (applyDomainEffectTx_reference _ _ _ _ _ Hc), reference_effect_changes in H.
    pose proof (H THandlings eq_refl) as E. cbn in E. unfold open_handlings. by rewrite E. }
  unfold applyDomainEffectTx in H. cbv zeta in H.
  destruct (ev_consequence e); cbn [settled_state] in *; eauto; try done; try (inv_tx; done).
  by apply (createSuccessorHandlingsTx_count _ _ ids).
Qed.

(** A local admission moves only its own Principal's count, and leaves it within
    the bound unless it did not grow. *)
Lemma accepted_open_handlings now proof request d d' au e ids :
  accepted_admission now proof request d d' au e ids →
  let p := au.(aa_value).(at_principal) in
  (∀ q, q ≠ p → open_handlings d' q = open_handlings d q) ∧
  (open_handlings d' p <= MaxOpenHandlingsPerPrincipal ∨ open_handlings d' p <= open_handlings d p).
Proof.
  intros Hacc p. destruct (aa_effect _ _ _ _ _ _ _ _ Hacc) as (d2 & d3 & E2 & _ & _ & H & E3 & _).
  destruct (aa_checked _ _ _ _ _ _ _ _ Hacc) as [Ht Hs _ Hb _].
  destruct (aa_event _ _ _ _ _ _ _ _ Hacc) as [_ _ Ec Es _ Et].
  pose proof (λ q, applyDomainEffectTx_count _ _ _ _ _ q H) as Hq.
  assert (∀ s r, bi_subject request = Some s → d.(handlings) !! s.(sb_handlingID) = Some r →
    r.(hr_target) = p) as Htarget.
  { intros s r Hsub Hr. destruct (Hs s Hsub) as (c & u & row & Hc & _ & Hid & _).
    rewrite Hid, (hc_row _ _ _ _ _ Hc) in Hr. injection Hr as <-. apply (hc_target _ _ _ _ _ Hc). }
  assert (∀ q, open_handlings d' q = open_handlings d3 q ∧ open_handlings d2 q = open_handlings d q) as E
    by (intros q; unfold open_handlings; by rewrite E3, E2).
  assert (0 <= localTargetCount (bi_targets request)) as Hpos by (unfold localTargetCount, lenZ; lia).
  unfold validateHandlingBoundTx in Hb. fold p (open_handlings d p) in Hb. rewrite Ec in Hq. split.
  - intros q Hne. destruct (E q) as [-> <-]. specialize (Hq q).
    rewrite Et, Es, E2, (checked_targets _ _ _ q Ht) in Hq. fold p in Hq.
    rewrite bool_decide_eq_false_2 in Hq by done.
    destruct (ai_consequence _); cbn [settled_state] in Hq; try lia;
      destruct Hq as (s & r & Hsub & Hr & Hq); rewrite (Htarget _ _ Hsub Hr) in Hq;
      rewrite bool_decide_eq_false_2 in Hq by done; cbn [andb] in Hq; lia.
  - destruct (E p) as [-> <-]. specialize (Hq p). rewrite <- (proj2 (E p)) in Hb.
    rewrite Et, Es, E2, (checked_targets _ _ _ p Ht) in Hq. fold p in Hq.
    rewrite bool_decide_eq_true_2 in Hq by done. generalize dependent (localTargetCount (bi_targets request)).
    intros n Hb Hq Hn. destruct (ai_consequence _); cbn [settled_state] in Hq;
      try (destruct Hq as (s & r & Hsub & Hr & Hq); rewrite (Htarget _ _ Hsub Hr) in Hq;
           rewrite bool_decide_eq_true_2 in Hq by done; vm_compute bool_decide in Hq; cbn [andb] in Hq);
      repeat match type of Hb with context [if ?b then _ else _] => destruct b eqn:? end; try done; lia.
Qed.

(** ** The outcome of the commit transaction *)

(** A fresh operation row was written, by a rejection or with one Event. *)
Definition fresh_outcome (request : BoundIntent) (r : AdmissionResult) (d d' : db) : Prop :=
  ∃ principal receipt id,
    r = resultFromReceipt receipt false ∧ receipt.(rc_requestDigest) = request.(bi_digest) ∧
    d.(operations) !! (principal, request.(bi_operationKey)) = None ∧
    d'.(operations) =
      <[(principal, request.(bi_operationKey)) := operation_row_of receipt id]> d.(operations) ∧
    ((receipt.(rc_outcome) = ReceiptOutcomeRejected ∧ changes [TOperations] d d') ∨
     ∃ e, receipt.(rc_outcome) = ReceiptOutcomeAccepted ∧ receipt.(rc_event) = Event_Ref e ∧
       event_of request e ∧ d.(events) !! e.(ev_id) = None ∧
       d'.(events) = <[e.(ev_id) := event_row_of e]> d.(events) ∧
       d'.(origin_sequence) = d.(origin_sequence) + 1).

Lemma commitAdmissionTx_outcome now proof request failure id ids d r d' :
  commitAdmissionTx now proof request failure id ids d = Ok (r, d') →
  (r.(ar_replayed) = true ∧ d' = d) ∨ fresh_outcome request r d d'.
Proof.
  intros (au & [replay|] & _ & Hrep & H)%commitAdmissionTx_Ok.
  { left. destruct H as [-> ->]. split; [by eapply operationReplayTx_replayed|done]. }
  right. exists au.(aa_value).(at_principal). destruct H as (_ & [rejection|] & _ & H).
  - apply persistRejectionTx_Ok in H as (receipt & Hr & H & ->). exists receipt, "".
    pose proof (insertOperationTx_changes _ _ _ _ _ H) as Hch.
    apply insertOperationTx_Ok in H as (-> & Hnew & _).
    apply NewRejectedReceipt_fields in Hr as (Ek & Ed & Eo). rewrite Ek in Hnew. db_simpl.
    rewrite Ek in Hch |- *. split_and!; try done. by left.
  - apply commitAcceptedAdmissionTx_Ok in H as (e & d1 & receipt & H1 & Hr & H & ->).
    exists receipt, e.(ev_id).
    pose proof (commitDomainAdmissionTx_event _ _ _ _ _ _ _ H1) as (Eev & Hnew & Eseq & Eop).
    apply insertOperationTx_Ok in H as (-> & Hnone & _). db_simpl.
    apply NewAcceptedReceipt_fields in Hr as (Ek & Ed & Eo & Ee). rewrite Eop, Ek in *.
    split_and!; try done. right. exists e. split_and!; try done.
    apply commitDomainAdmissionTx_Ok in H1 as (a & ? & ? & He & _). by apply newLocalEvent_Ok in He as [? _].
Qed.
