(* ===== verification/Attention.v ===== *)
(** Which Handling a fresh Current works on: the attention order and what
    acquiring a claim does to the table.

    Bounded overtaking: while a Handling waits to be claimed, no other Handling of
    its Principal is claimed past the next fence. *)

From Stdlib Require Import Lia.
From S2P Require Import Prelude Utf8 Json Wire Sha256 Time StoreTime Value Intent Bound Event Peer View AgentView Bind.
From S2P Require Import Store EventStore Attach Routes Inbox Outbox Domain Admission PeerAdmission Current History.
From S2P Require Import Frames Invariant Projection Lifecycle.

#[local] Open Scope Z_scope.

(** ** The order *)

(** [a] is served no later than [b]. *)
Definition attention_le (a b : string * handling_row) : Prop := attention_order a b ≠ Gt.

Lemma text_compare_le a b : text_compare a b ≠ Gt ↔ String.le a b.
Proof.
  unfold text_compare, String.le, String.leb. destruct (String.compare a b); cbn; naive_solver.
Qed.

(** Fence first, then age, then identifier. *)
Lemma attention_le_spec a b :
  attention_le a b ↔
  a.2.(hr_fence) < b.2.(hr_fence) ∨ (a.2.(hr_fence) = b.2.(hr_fence) ∧
    (a.2.(hr_created) < b.2.(hr_created) ∨ (a.2.(hr_created) = b.2.(hr_created) ∧ String.le a.1 b.1))).
Proof.
  unfold attention_le, attention_order, then_compare. rewrite <- text_compare_le.
  destruct (Z.compare_spec a.2.(hr_fence) b.2.(hr_fence)) as [->|?|?];
    destruct (Z.compare_spec a.2.(hr_created) b.2.(hr_created)) as [->|?|?]; naive_solver lia.
Qed.

#[export] Instance attention_le_trans : Transitive attention_le.
Proof.
  intros a b c. rewrite !attention_le_spec. intros [H|[H1 [H2|[H2 H3]]]] [K|[K1 [K2|[K2 K3]]]];
    first [left; lia|right; split; [lia|]; first [left; lia|right; split; [lia|by etrans]]].
Qed.

#[export] Instance attention_le_total : Total attention_le.
Proof.
  intros a b. rewrite !attention_le_spec.
  destruct (Z.lt_total a.2.(hr_fence) b.2.(hr_fence)) as [?|[E|?]]; [naive_solver| |naive_solver].
  destruct (Z.lt_total a.2.(hr_created) b.2.(hr_created)) as [?|[E'|?]];
    [naive_solver| |right; right; split; [lia|left; lia]].
  destruct (total String.le a.1 b.1); [left|right]; right; (split; [lia|]); right; split; [lia|done|lia|done].
Qed.

(** The row served next is the least of the claimable ones. *)
Lemma next_claimable_least d p x :
  next_claimable d p = Some x →
  d.(handlings) !! x.1 = Some x.2 ∧ claimable p x.1 x.2 = true ∧
  ∀ id row, d.(handlings) !! id = Some row → claimable p id row = true → attention_le x (id, row).
Proof.
  destruct x as [i r]. intros H. pose proof (next_claimable_Some _ _ _ _ H) as [Hl Hc].
  split_and!; [done..|]. intros id row Hid Hcl. unfold next_claimable in H.
  assert ((id, row) ∈ order_by attention_order (select (claimable p) d.(handlings))) as Hin
    by by apply order_by_elem, select_elem.
  assert (StronglySorted attention_le (order_by attention_order (select (claimable p) d.(handlings)))) as Hs
    by apply (StronglySorted_merge_sort attention_le).
  destruct (order_by _ _) as [|y ys]; [done|]. injection H as ->.
  apply StronglySorted_inv in Hs as [_ Hs]. apply elem_of_cons in Hin as [->|Hin].
  - destruct (total attention_le (i, r) (i, r)); done.
  - by apply (proj1 (Forall_forall _ _) Hs).
Qed.

Lemma next_claimable_None d p :
  next_claimable d p = None → ∀ id row, d.(handlings) !! id = Some row → claimable p id row = false.
Proof.
  unfold next_claimable. intros H id row Hl. apply not_true_iff_false. intros Hc.
  assert ((id, row) ∈ order_by attention_order (select (claimable p) d.(handlings))) as Hin
    by by apply order_by_elem, select_elem.
  apply head_None in H. rewrite H in Hin. by apply not_elem_of_nil in Hin.
Qed.

(** ** Acquiring a claim *)

(** The least attended claimable Handling is claimed under the next fence. *)
Definition claims_next (attachment : Attachment) (d : db) (id : string) (row : handling_row) (d' : db) : Prop :=
  d.(handlings) !! id = Some row ∧ claimable attachment.(at_principal) id row = true ∧
  (∀ other r, d.(handlings) !! other = Some r → claimable attachment.(at_principal) other r = true →
     attention_le (id, row) (other, r)) ∧
  d' = set_handlings (<[id := claim_row row attachment]> d.(handlings)) d.

(** The claim a Current works on is the one its boundary holds; else the next one;
    else none is claimable, or the head of the one just claimed has no Event row. *)
Inductive acquired (attachment : Attachment) (d : db) : option projectedClaim → db → Prop :=
| acquired_held claim row :
    d.(handlings) !! claim.(pc_handlingID) = Some row → claimed_open attachment claim.(pc_handlingID) row = true →
    claim.(pc_fence) = row.(hr_fence) → acquired attachment d (Some claim) d
| acquired_next claim row d' :
    (∀ id other, d.(handlings) !! id = Some other → other.(hr_claim) ≠ Some attachment.(at_id)) →
    claims_next attachment d claim.(pc_handlingID) row d' → claim.(pc_fence) = row.(hr_fence) + 1 →
    acquired attachment d (Some claim) d'
| acquired_none :
    (∀ id row, d.(handlings) !! id = Some row → claimable attachment.(at_principal) id row = false) →
    acquired attachment d None d
| acquired_unreadable id row d' e :
    claims_next attachment d id row d' → scanProjectedClaim d' id (claim_row row attachment) = Err e →
    errors_is e sql_ErrNoRows = true → acquired attachment d None d'.

Lemma scanProjectedClaim_Ok d id row claim :
  scanProjectedClaim d id row = Ok claim →
  claim.(pc_handlingID) = id ∧ claim.(pc_fence) = row.(hr_fence).
Proof.
  unfold scanProjectedClaim. intros H. apply bind_Ok in H as (hid & Hid & H).
  apply or_error_Ok, newIdentifier_Ok in Hid as [-> _].
  apply bind_Ok in H as ([[[ref kind] payload] artifacts] & _ & H).
  apply bind_Ok in H as (rev & _ & [= <-]). done.
Qed.

(** A refused write is never mistaken for an empty result. *)
Lemma write_handling_error d id row e :
  write_handling d id row = Err e → errors_is e sql_ErrNoRows = false.
Proof.
  unfold write_handling, constraint. intros H.
  repeat (match type of H with context [fail_if ?b _] => destruct b end; cbn [fail_if mbind result_bind] in H);
    simplify_eq; vm_compute; reflexivity.
Qed.

Lemma claimNextTx_acquired d attachment r d' :
  claimNextTx d attachment = (r, d') →
  match r with
  | Ok claim => acquired attachment d (Some claim) d'
  | Err e => errors_is e sql_ErrNoRows = true → acquired attachment d None d'
  end.
Proof.
  unfold claimNextTx. destruct (next_claimable _ _) as [[id row]|] eqn:E.
  - apply next_claimable_least in E as (Hl & Hc & Hmin). cbn [fst snd] in *.
    destruct (wrap_error _ _) as [d1|e] eqn:Hw; intros [= <- <-].
    + apply wrap_error_Ok, write_handling_Ok in Hw as (-> & _ & _ & _ & _ & Hslot).
      destruct (scanProjectedClaim _ _ _) as [claim|e] eqn:Hs; [|intros He; by eapply acquired_unreadable].
      apply scanProjectedClaim_Ok in Hs as [<- Hf]. eapply acquired_next; [|by repeat split|done].
      intros k other Hk. destruct (decide (k = claim.(pc_handlingID))) as [->|Hne].
      * rewrite Hl in Hk. injection Hk as <-. unfold claimable in Hc. inv_res. by destruct (hr_claim row).
      * by eapply Hslot.
    + intros He. unfold wrap_error in Hw. destruct (write_handling _ _ _) eqn:Hwr; [done|].
      injection Hw as <-. apply write_handling_error in Hwr. cbn [errors_is] in He.
      rewrite Hwr, orb_false_r in He. by apply bool_decide_eq_true in He.
  - intros [= <- <-] _. apply acquired_none, next_claimable_None, E.
Qed.

Lemma acquireClaimTx_acquired d attachment claim d' :
  acquireClaimTx d attachment = Ok (claim, d') → acquired attachment d claim d'.
Proof.
  unfold acquireClaimTx. destruct (existingClaimTx d attachment) as [c|e] eqn:Ex.
  - intros [= <- <-]. unfold existingClaimTx in Ex. apply bind_Ok in Ex as ([id row] & Hq & Hs).
    apply of_option_Ok, query_row_Some in Hq as [Hq Hw]. apply scanProjectedClaim_Ok in Hs as [<- Hf].
    by eapply acquired_held.
  - destruct (errors_is e sql_ErrNoRows) eqn:He; [|intros H; by rewrite He in H].
    destruct (claimNextTx d attachment) as [r d1] eqn:E. apply claimNextTx_acquired in E.
    destruct r as [c|e']; [by intros [= <- <-]|]. destruct (errors_is e' sql_ErrNoRows) eqn:He'; [|done].
    intros [= <- <-]. by apply E.
Qed.

(** ** The View a fresh Current issues *)

Definition binds_claim (subject : SubjectBinding) (claim : projectedClaim) : Prop :=
  subject.(sb_handlingID) = claim.(pc_handlingID) ∧ subject.(sb_head) = claim.(pc_head) ∧
  subject.(sb_fence) = claim.(pc_fence) ∧
  subject.(sb_observationRevision) = claim.(pc_observationRevision).

(** The View offers exactly the claimed Handling as its subject. *)
Definition offers_claim (view : ViewAuthority) (claim : option projectedClaim) : Prop :=
  match claim with
  | Some claim => ∃ handle subject, view.(va_subjects) = {[handle := subject]} ∧ binds_claim subject claim
  | None => view.(va_subjects) = ∅
  end.

Lemma projectViewContentTx_subjects d attachment claim references targets spec public :
  projectViewContentTx d attachment claim references targets = Ok (spec, public) →
  match claim with
  | Some claim => ∃ subject, spec.(mv_Subjects) = [subject] ∧ binds_claim subject claim
  | None => spec.(mv_Subjects) = []
  end.
Proof.
  unfold projectViewContentTx. intros H. apply bind_Ok in H as (content & Hc & H). cbv zeta in H.
  apply bind_Ok in H as ([related outstanding] & _ & H). do 2 apply bind_Ok in H as (? & _ & H).
  injection H as <- _. cbn [mv_Subjects]. destruct claim as [c|]; [|by injection Hc as <-].
  apply bind_Ok in Hc as (cp & Hcp & [= <-]). eexists. split; [done|].
  unfold project_claim_content in Hcp. do 2 apply bind_Ok in Hcp as (? & _ & Hcp).
  apply bind_Ok in Hcp as ([[[subject ?] ?] ?] & Hp & [= <-]). cbn [cp_subject].
  unfold projectClaim in Hp. cbv zeta in Hp. apply bind_Ok in Hp as ([] & _ & Hp).
  apply bind_Ok in Hp as (handle & _ & Hp). apply bind_Ok in Hp as (s & Hs & Hp).
  apply bind_Ok in Hp as (? & _ & Hp). apply bind_Ok in Hp as ([? ?] & _ & Hp).
  apply bind_Ok in Hp as (? & _ & [= <- _ _ _]). unfold NewSubjectBinding in Hs. inv_res. done.
Qed.

Lemma load_offers_singleton {A V} check (key : A → string) (value : A → V) dup x m :
  load_offers check key value dup [x] = Ok m → m = {[key x := value x]}.
Proof.
  unfold load_offers. cbn [foldR]. intros H. apply bind_Ok in H as (m' & Hm & [= <-]).
  unfold load_offer in Hm. do 2 apply bind_Ok in Hm as ([] & _ & Hm). by injection Hm as <-.
Qed.

(** What a sealed View copies from its specification. *)
Lemma NewViewAuthority_fields spec v :
  NewViewAuthority spec = Ok v →
  v.(va_attachment) = spec.(mv_Attachment) ∧ loadSubjects spec.(mv_Subjects) = Ok v.(va_subjects).
Proof.
  intros (v0 & Hload & -> & _)%NewViewAuthority_Ok. cbn [view_with_seal va_attachment va_subjects].
  unfold load in Hload. apply bind_Ok in Hload as (? & _ & Hload).
  apply bind_Ok in Hload as (subjects & Hsub & Hload). do 5 apply bind_Ok in Hload as (? & _ & Hload).
  apply bind_Ok in Hload as ([] & _ & [= <-]). done.
Qed.

(** A fresh Current: who asked, the claims it expired, the claim it works on, the
    well-formed View it sealed, and the row it recorded. *)
Record fresh_current (now : Time) (proof : AttachmentProof) (operation : CurrentOperation)
    (d d' : db) (view : BoundView) (au : authenticatedAttachment) (d1 : db)
    (claim : option projectedClaim) (d2 : db) : Prop := {
  fc_auth : authenticateAttachmentTx d proof = Ok au;
  fc_live : requireLiveAttachment au now = Ok ();
  fc_expired : settleExpiredClaimsTx d au.(aa_value).(at_principal) now
                 MaxClaimExpirySettlementsPerCurrent = Ok d1;
  fc_acquired : acquired au.(aa_value) d1 claim d2;
  fc_subject : offers_claim view.(bv_authority) claim;
  fc_attachment : view.(bv_authority).(va_attachment) = au.(aa_value);
  fc_typed : view_ok view.(bv_authority);
  fc_sealed : ParseViewAuthorityCanonicalJSON view.(bv_authority).(va_canonical)
                view.(bv_authority).(va_attachment) = Ok view.(bv_authority);
  fc_row : d' = set_current_operations
    (<[(au.(aa_value).(at_id), operation.(co_key)) := current_row_of operation view]>
       d2.(current_operations)) d2;
}.

Lemma insertCurrentOperationTx_Ok d attachment operation view d' :
  insertCurrentOperationTx d attachment operation view = Ok d' →
  d' = set_current_operations
    (<[(attachment.(at_id), operation.(co_key)) := current_row_of operation view]>
       d.(current_operations)) d.
Proof.
  unfold insertCurrentOperationTx. cbv zeta. intros H%wrap_error_Ok.
  do 3 apply bind_Ok in H as ([] & _ & H). by injection H as <-.
Qed.

Lemma authenticateAttachmentTx_principal d proof au :
  authenticateAttachmentTx d proof = Ok au → handle_ok au.(aa_value).(at_principal) = true.
Proof.
  unfold authenticateAttachmentTx. intros H. apply bind_Ok in H as ([] & _ & H).
  apply bind_Ok in H as (row & _ & H). apply bind_Ok in H as ([] & _ & H).
  apply bind_Ok in H as (digest & _ & H). apply bind_Ok in H as ([] & _ & H).
  apply bind_Ok in H as (p & Hp & H). apply or_error_Ok, newIdentifier_Ok in Hp as [-> Hp].
  do 2 apply bind_Ok in H as (? & _ & H). apply bind_Ok in H as (a & Ha & H).
  apply bind_Ok in H as (? & _ & [= <-]). apply wrap_error_Ok in Ha. unfold NewAttachment in Ha.
  apply bind_Ok in Ha as ([] & _ & Ha). do 2 apply bind_Ok in Ha as (? & _ & Ha).
  apply bind_Ok in Ha as ([] & _ & [= <-]). done.
Qed.

Lemma currentTx_fresh now proof operation d view d' :
  claims_inv d → currentTx now proof operation d = Ok (view, d') →
  d' = d ∨ ∃ au d1 claim d2, fresh_current now proof operation d d' view au d1 claim d2.
Proof.
  intros Hinv [->|(au & d1 & claim & d2 & Hau & Hl & H1 & H2 & Hv & Hi)]%currentTx_Ok; [by left|right].
  exists au, d1, claim, d2.
  assert (handle_ok au.(aa_value).(at_principal) = true) as Hp.
  { by eapply authenticateAttachmentTx_principal. }
  pose proof (settleExpiredClaimsTx_claims _ _ _ _ _ H1 Hinv) as Hinv1.
  assert (match claim with Some c => claim_ok c | None => True end) as Hc.
  { destruct claim; [|done]. by eapply acquireClaimTx_ok. }
  destruct (projectBoundViewTx_ok _ _ _ _ _ Hp Hc Hv) as (refs & ts & spec & public & Hok & Ea & _ & _ & Hs & Hn & _).
  apply NewViewAuthority_fields in Hn as Hf. destruct Hf as [Eatt Hsub].
  split; try done; try congruence.
  - by apply acquireClaimTx_acquired.
  - apply projectViewContentTx_subjects in Hs. destruct claim as [c|]; cbn [offers_claim].
    + destruct Hs as (subject & E & Hb). rewrite E in Hsub. apply load_offers_singleton in Hsub. eauto.
    + rewrite Hs in Hsub. by injection Hsub as <-.
  - by eapply NewViewAuthority_view_ok.
  - by eapply ParseViewAuthorityCanonicalJSON_canonical.
  - by apply insertCurrentOperationTx_Ok.
Qed.

Definition life_fence (l : lifecycle) : Z :=
  match l with Absent => 0 | Free _ fence | Claimed _ fence _ | Done _ fence _ => fence end.

(** How often a Handling has been claimed; a Handling not yet opened never was. *)
Definition fence_of (d : db) (id : string) : Z := life_fence (lifecycle_of (d.(handlings) !! id)).

(** The Handling is open and unclaimed at this fence. *)
Definition waiting (principal : AgentPrincipalID) (id : HandlingID) (fence : Z) (d : db) : Prop :=
  ∃ row, d.(handlings) !! id = Some row ∧ claimable principal id row = true ∧ row.(hr_fence) = fence.

(** Every Handling of the Principal is at most at the fence it had or at [bound]. *)
Definition overtaken (principal : AgentPrincipalID) (bound : Z) (d d' : db) : Prop :=
  ∀ id row, d'.(handlings) !! id = Some row → row.(hr_target) = principal →
    row.(hr_fence) <= Z.max (fence_of d id) bound.

(** ** Fences *)

Lemma fence_of_Some d id row : d.(handlings) !! id = Some row → fence_of d id = row.(hr_fence).
Proof. intros H. unfold fence_of. rewrite H. cbn. by destruct (hr_state row), (hr_claim row). Qed.

Lemma quiet_fence who P l l' : rtc (quiet_step who P) l l' → life_fence l' = life_fence l.
Proof. induction 1 as [|l1 l2 l3 H _ IH]; [done|]. rewrite IH. by destruct H. Qed.

Lemma quiet_fences who d d' id : refines (quiet_step who) d d' → fence_of d' id = fence_of d id.
Proof. intros H. eapply quiet_fence, H. Qed.

(** A waiting Handling waits on. *)
Lemma quiet_free who P head fence l : rtc (quiet_step who P) (Free head fence) l → l = Free head fence.
Proof. by inversion 1 as [|? ? ? H']; [|inversion H']. Qed.

Lemma claimable_Free p id row :
  claimable p id row = true →
  row.(hr_target) = p ∧ lifecycle_of (Some row) = Free row.(hr_head) row.(hr_fence).
Proof.
  unfold claimable. intros H. inv_res. cbn. match goal with Hs : hr_state _ = _ |- _ => rewrite Hs end.
  by destruct (hr_claim row).
Qed.

Lemma Free_claimable id row head fence :
  lifecycle_of (Some row) = Free head fence →
  claimable row.(hr_target) id row = true ∧ row.(hr_fence) = fence.
Proof.
  cbn. unfold claimable. destruct (hr_state row) eqn:Hs, (hr_claim row) eqn:Hc; try done.
  intros [= _ ->]. by rewrite !bool_decide_eq_true_2 by done.
Qed.

Lemma waiting_quiet who p id fence d d' :
  extends d d' → refines (quiet_step who) d d' → waiting p id fence d → waiting p id fence d'.
Proof.
  intros Hx Hq (row & Hr & Hc & Hf). apply claimable_Free in Hc as [Ht Hfree].
  destruct (ex_handlings _ _ Hx _ _ Hr) as (row' & Hr' & Hp).
  specialize (Hq id). rewrite Hr, Hr', Hfree in Hq. apply quiet_free, (Free_claimable id) in Hq as [Hc Hf'].
  exists row'. rewrite (hp_target _ _ Hp), Ht in Hc. split_and!; [done..|congruence].
Qed.

(** ** Steps *)

Lemma claims_next_overtaken p k fence attachment d id row d' :
  waiting p k fence d → claims_next attachment d id row d' → overtaken p (fence + 1) d d'.
Proof.
  intros (waits & Hk & Hcl & Hf) (Hid & Hc & Hmin & ->) j r Hj Ht. db_simpl.
  apply lookup_insert_Some in Hj as [[<- <-]|[_ Hj]]; [|by rewrite (fence_of_Some _ _ _ Hj); lia].
  apply claimable_Free in Hc as [Hp _]. cbn [claim_row hr_target hr_fence] in *. rewrite Hp in Ht.
  rewrite <- Ht in Hcl. specialize (Hmin _ _ Hk Hcl). apply attention_le_spec in Hmin. cbn [fst snd] in Hmin. lia.
Qed.

Lemma quiet_overtaken who p bound d d' : refines (quiet_step who) d d' → overtaken p bound d d'.
Proof. intros H id row Hr _. rewrite <- (quiet_fences _ _ _ id H), (fence_of_Some _ _ _ Hr). lia. Qed.

Lemma same_overtaken p bound d : overtaken p bound d d.
Proof. by apply (quiet_overtaken Unattached). Qed.

Lemma quiet_then_overtaken who p bound d d1 d2 :
  refines (quiet_step who) d d1 → overtaken p bound d1 d2 → overtaken p bound d d2.
Proof. intros Hq H id row Hr Ht. rewrite <- (quiet_fences _ _ _ id Hq). by apply H. Qed.

Lemma acquired_overtaken p k fence attachment d claim d' :
  waiting p k fence d → acquired attachment d claim d' → overtaken p (fence + 1) d d'.
Proof.
  destruct 2; first [by eapply claims_next_overtaken|by apply same_overtaken].
Qed.

Lemma tx_step_overtaken verify p k fence d d' :
  waiting p k fence d → tx_step verify d d' → overtaken p (fence + 1) d d'.
Proof.
  intros Hw [[who H]|(now & proof & operation & view & H)]%tx_step_quiet; [by eapply quiet_overtaken|].
  apply currentTx_Ok in H as [->|(au & d1 & claim & d2 & _ & _ & H1 & H2 & _ & H3)]; [apply same_overtaken|].
  pose proof (settleExpiredClaimsTx_refines Unattached _ _ _ _ _ H1) as Hq.
  apply insertCurrentOperationTx_Ok in H3 as ->.
  eapply quiet_then_overtaken; [exact Hq|]. intros j row Hj. db_simpl. revert j row Hj.
  eapply acquired_overtaken; [|by apply acquireClaimTx_acquired].
  eapply waiting_quiet; [|exact Hq|exact Hw]. by eapply settleExpiredClaimsTx_extends.
Qed.

(** ** Runs *)

(** Calls made while the Handling waits. *)
Definition waiting_step verify (p : AgentPrincipalID) (k : HandlingID) (fence : Z) (s s' : Store) : Prop :=
  waiting p k fence s.(st_db) ∧ store_step verify s s'.

Lemma waiting_steps verify p k fence s s' :
  rtc (waiting_step verify p k fence) s s' → rtc (store_step verify) s s'.
Proof. apply rtc_subrel. by intros ? ? []. Qed.

Lemma fence_of_absent d d' id : extends d d' → d'.(handlings) !! id = None → fence_of d id = 0.
Proof.
  intros Hx Hn. unfold fence_of. destruct (d.(handlings) !! id) as [r|] eqn:Hr; [|done].
  apply (ex_handlings _ _ Hx) in Hr as (? & Hr & _). congruence.
Qed.

Lemma waiting_steps_overtaken verify p k fence s s' :
  rtc (waiting_step verify p k fence) s s' → overtaken p (fence + 1) s.(st_db) s'.(st_db).
Proof.
  induction 1 as [s|s s1 s2 [Hw Hs] Hrest IH]; [apply same_overtaken|].
  apply store_step_tx in Hs as [E|Hs]; [by rewrite <- E|]. intros j row Hj Ht.
  specialize (IH j row Hj Ht). destruct (s1.(st_db).(handlings) !! j) as [r|] eqn:Hr.
  - pose proof (store_steps_extend _ _ _ (waiting_steps _ _ _ _ _ _ Hrest)) as Hx.
    destruct (ex_handlings _ _ Hx _ _ Hr) as (r' & Hr' & Hp). rewrite Hj in Hr'. injection Hr' as <-.
    rewrite (hp_target _ _ Hp) in Ht. rewrite (fence_of_Some _ _ _ Hr) in IH.
    pose proof (tx_step_overtaken _ _ _ _ _ _ Hw Hs _ _ Hr Ht). lia.
  - rewrite (fence_of_absent _ _ _ (reflexivity s1.(st_db)) Hr) in IH.
    by rewrite (fence_of_absent _ _ _ (tx_step_extends _ _ _ Hs) Hr).
Qed.
