(* ===== verification/Boundary.v ===== *)
(** Host boundaries: the dispositions their ends leave behind, and that issuing
    and ending a boundary can both be repeated. *)

From Stdlib Require Import Lia.
From S2P Require Import Prelude Utf8 Json Wire Sha256 Time StoreTime Value Intent Bound Event Peer.
From S2P Require Import View AgentView Bind Store EventStore Attach Routes Inbox Outbox.
From S2P Require Import Domain Admission PeerAdmission Current History Frames Invariant.

#[local] Open Scope Z_scope.


(** ** Dispositions of ended boundaries *)

Definition ended_by (attachment : AttachmentID) (_ : string) (row : disposition_row) : bool :=
  bool_decide (row.(dr_attachment) = attachment) && bool_decide (row.(dr_kind) = DispositionBoundaryEnd).

(** Only an ended boundary has a boundary-end disposition, and it has at most one. *)
Record boundary_inv (d : db) : Prop := {
  bd_ended : ∀ key row, d.(claim_dispositions) !! key = Some row →
    row.(dr_kind) = DispositionBoundaryEnd →
    ∃ at_row, d.(attachments) !! row.(dr_attachment) = Some at_row ∧ is_Some at_row.(atr_ended_at);
  bd_single : ∀ a, count (ended_by a) d.(claim_dispositions) <= 1;
}.

Lemma boundary_frame d d' : keeps [TAttachments; TDispositions] d d' → boundary_inv d → boundary_inv d'.
Proof.
  intros Hk [H1 H2].
  assert (d'.(attachments) = d.(attachments)) as E1 by (apply (Hk TAttachments); set_solver).
  assert (d'.(claim_dispositions) = d.(claim_dispositions)) as E2 by (apply (Hk TDispositions); set_solver).
  split; rewrite ?E1, ?E2; done.
Qed.

Lemma count_none {K R} `{Countable K} (where_ : K → R → bool) (table : gmap K R) :
  (∀ k r, table !! k = Some r → where_ k r = false) → count where_ table = 0.
Proof.
  rewrite <- query_row_None. unfold query_row, count. by intros ->%head_None.
Qed.

Lemma no_end_disposition d a :
  boundary_inv d → (∀ row, d.(attachments) !! a = Some row → row.(atr_ended_at) = None) →
  count (ended_by a) d.(claim_dispositions) = 0.
Proof.
  intros Hinv Hlive. apply count_none. intros k r Hk. apply not_true_iff_false. unfold ended_by.
  intros [E1 E2]%andb_true_iff. rewrite bool_decide_eq_true in E1, E2.
  destruct (bd_ended _ Hinv k r Hk E2) as (row & Hr & [t Ht]).
  rewrite E1 in Hr. by rewrite (Hlive _ Hr) in Ht.
Qed.

(** Attachments may be added or ended; dispositions may be added for claims that
    expired. *)
Lemma boundary_attachments d t :
  (∀ a row, d.(attachments) !! a = Some row → is_Some row.(atr_ended_at) →
     ∃ row', t !! a = Some row' ∧ is_Some row'.(atr_ended_at)) →
  boundary_inv d → boundary_inv (set_attachments t d).
Proof.
  intros Ht [H1 H2]. split; db_simpl; [|done]. intros key row Hk E.
  destruct (H1 key row Hk E) as (r & Hr & He). by apply Ht in Hr as (r' & ? & ?); [exists r'|].
Qed.

Lemma boundary_disposition d key row :
  d.(claim_dispositions) !! key = None →
  (row.(dr_kind) = DispositionBoundaryEnd →
     count (ended_by row.(dr_attachment)) d.(claim_dispositions) = 0 ∧
     ∃ at_row, d.(attachments) !! row.(dr_attachment) = Some at_row ∧ is_Some at_row.(atr_ended_at)) →
  boundary_inv d → boundary_inv (set_claim_dispositions (<[key := row]> d.(claim_dispositions)) d).
Proof.
  intros Hnew Hrow [H1 H2]. split; db_simpl.
  - intros k r [[<- <-]|[_ Hk]]%lookup_insert_Some E; [by apply Hrow|eauto].
  - intros a. rewrite count_insert_new by done. pose proof (H2 a) as Ha. unfold ended_by at 2.
    destruct (decide (row.(dr_attachment) = a)) as [<-|Hne]; [|rewrite (bool_decide_eq_false_2 _ Hne); cbn [andb]; lia].
    destruct (decide (row.(dr_kind) = DispositionBoundaryEnd)) as [E|Hne].
    + destruct (Hrow E) as [-> _]. destruct (_ && _); lia.
    + rewrite (bool_decide_eq_false_2 _ Hne), andb_false_r. lia.
Qed.

Lemma settleClaimExpiryTx_boundary now d claim d' :
  settleClaimExpiryTx now d claim = Ok d' → boundary_inv d → boundary_inv d'.
Proof.
  unfold settleClaimExpiryTx, insertClaimExpiryTx. intros H Hinv. inv_tx; [done|].
  match goal with Hi : insert_disposition _ _ _ = Ok _ |- _ => apply insert_disposition_Ok in Hi as [-> Hnew] end.
  apply boundary_disposition; [done|done|]. framed boundary_frame write_handling_changes. done.
Qed.

Lemma endLiveAttachmentTx_boundary d now id b d' :
  endLiveAttachmentTx d now id = Ok (b, d') → boundary_inv d → boundary_inv d'.
Proof.
  intros (row & Hrow & Hlive & H)%endLiveAttachmentTx_Ok Hinv. cbv zeta in H.
  set (d1 := set_attachments _ d) in *.
  assert (boundary_inv d1) as Hinv1.
  { apply boundary_attachments; [|done]. intros a r Hr He. destruct (decide (a = id)) as [->|Hne].
    - exists (with_end row (formatTime now)). rewrite lookup_insert_eq. by eauto.
    - exists r. by rewrite lookup_insert_ne. }
  destruct b; [|by destruct H as [_ ->]].
  destruct H as (k & h & key & disp & _ & _ & _ & _ & _ & Ea & _ & Hnew & ->).
  set (d2 := set_handlings _ d1).
  apply (boundary_disposition d2); [done| |].
  - intros _. rewrite Ea. split.
    + apply (no_end_disposition d id); [done|]. intros r Hr. congruence.
    + exists (with_end row (formatTime now)). unfold d2, d1. db_simpl. rewrite lookup_insert_eq. by eauto.
  - eapply boundary_frame; [|exact Hinv1]. intros t Ht. apply elem_of_cons in Ht as [->|Ht%list_elem_of_singleton]; by subst.
Qed.

Lemma issueAttachmentTx_boundary now p m d r d' :
  issueAttachmentTx now p m d = Ok (r, d') → boundary_inv d → boundary_inv d'.
Proof.
  unfold issueAttachmentTx. intros H Hinv. apply bind_Ok in H as ([proof|] & _ & H); [by injection H as _ <-|].
  apply bind_Ok in H as ([] & _ & H). apply bind_Ok in H as (t & _ & H). apply bind_Ok in H as (d1 & H1 & H).
  assert (boundary_inv d1) as Hinv1.
  { unfold replaceLiveAttachmentTx in H1. inv_tx; [|done]. by eapply endLiveAttachmentTx_boundary. }
  unfold insertAttachmentBeginTx in H. apply bind_Ok in H as (d2 & H2 & H).
  apply bind_Ok in H as (x & _ & [= _ <-]). apply wrap_error_Ok in H2. apply bind_Ok in H2 as ([] & Hf & Hw).
  apply constraint_Ok, negb_true_iff in Hf. apply write_attachment_Ok in Hw as [-> _].
  apply boundary_attachments; [|done]. intros a row Hr He. exists row. rewrite lookup_insert_ne; [done|].
  intros <-. unfold references in Hf. by rewrite Hr in Hf.
Qed.

#[export] Instance boundary_invariant : StoreInvariant boundary_inv.
Proof.
  split.
  - split; [done|]. intros a. vm_compute. done.
  - intros verify d d' H Hinv. destruct H; try (tx_framed boundary_frame; done).
    + by eapply issueAttachmentTx_boundary.
    + unfold endAttachmentTx in *. inv_tx; [done|]. by eapply endLiveAttachmentTx_boundary.
    + match goal with Hc : currentTx _ _ _ _ = _ |- _ =>
        apply currentTx_Ok in Hc as [->|(au & d1 & claim & d2 & _ & _ & H1 & H2 & _ & H3)] end; [done|].
      framed boundary_frame insertCurrentOperationTx_changes. framed boundary_frame acquireClaimTx_changes.
      unfold settleExpiredClaimsTx in H1. inv_tx. eapply foldR_preserves; [|done|done].
      intros; by eapply settleClaimExpiryTx_boundary.
Qed.

(** ** Ending a boundary twice *)

Lemma NewAttachment_times id principal may issued expires a :
  NewAttachment id principal may issued expires = Ok a →
  time_ok issued ∧ time_ok expires ∧ a.(at_issuedAt) = issued ∧ a.(at_expiresAt) = expires.
Proof.
  unfold NewAttachment. intros H. apply bind_Ok in H as ([] & _ & H).
  apply bind_Ok in H as (i & Hi & H). apply bind_Ok in H as (x & Hx & H).
  apply bind_Ok in H as ([] & _ & [= <-]). apply canonicalTime_Ok in Hi as (-> & ?).
  by apply canonicalTime_Ok in Hx as (-> & ?).
Qed.

(** The proof of a boundary still authenticates once the boundary has ended. *)
Lemma authenticate_ended d d' proof au row now :
  authenticateAttachmentTx d proof = Ok au → d.(attachments) !! proof.(ap_id) = Some row →
  d'.(attachments) !! proof.(ap_id) = Some (with_end row (formatTime now)) →
  four_digit_year now → attachment_check (with_end row (formatTime now)) = true →
  authenticateAttachmentTx d' proof = Ok {| aa_value := au.(aa_value); aa_endedAt := Some now |}.
Proof.
  unfold authenticateAttachmentTx. intros H Hrow Hrow' Hy Hchk.
  apply bind_Ok in H as ([] & Hz & H). rewrite Hz, Hrow'. rewrite Hrow in H.
  cbn [of_option mbind result_bind with_end atr_mode atr_credential_digest atr_principal atr_issued_at
    atr_expires_at atr_ended_at] in *.
  do 7 (apply bind_Ok in H as (? & ? & H); apply bind_Ok; eexists; split; [eassumption|]).
  apply bind_Ok in H as (e & _ & [= <-]). apply bind_Ok. exists (Some now). split; [|done].
  apply bind_Ok. exists now. split; [by apply or_error_Ok, parseTime_format|].
  apply bind_Ok. exists (). split; [|done]. apply fail_if_Ok, Z.ltb_ge.
  match goal with Ha : wrap_error _ _ = Ok _ |- _ =>
    apply wrap_error_Ok, NewAttachment_times in Ha as ([_ Hok] & _) end.
  match goal with Hi : parseTime (atr_issued_at row) = Ok _ |- _ => apply parseTime_Ok in Hi end.
  unfold attachment_check in Hchk. cbn [with_end atr_ended_at atr_issued_at] in Hchk.
  apply andb_true_iff in Hchk as [_ Hle].
  match goal with Hi : atr_issued_at row = formatTime _ |- _ => rewrite Hi in Hle end.
  rewrite formatTime_leb in Hle by first [exact Hy|by apply int64_four_digit]. lia.
Qed.

Lemma endLiveAttachmentTx_check d now id released d' row :
  endLiveAttachmentTx d now id = Ok (released, d') → d.(attachments) !! id = Some row →
  attachment_check (with_end row (formatTime now)) = true.
Proof.
  unfold endLiveAttachmentTx. intros H Hrow. apply bind_Ok in H as (claim & _ & H).
  apply bind_Ok in H as (row' & Hl & H). apply bind_Ok in H as (d1 & Hw & _).
  apply of_option_Ok, live_attachment_Some in Hl as [Hl _]. simplify_eq.
  apply wrap_error_Ok in Hw. unfold write_attachment in Hw. cbv zeta in Hw.
  apply bind_Ok in Hw as ([] & Hc & _). by apply constraint_Ok in Hc.
Qed.

(** What the end of a live boundary leaves behind is what its replay reads. *)
Lemma endLiveAttachmentTx_replay d now id released d' :
  claims_inv d → boundary_inv d → endLiveAttachmentTx d now id = Ok (released, d') →
  replayBoundaryEndTx d' id = Ok released.
Proof.
  intros Hcl Hbd H. pose proof (endLiveAttachmentTx_claims _ _ _ _ _ H Hcl) as Hcl'.
  apply endLiveAttachmentTx_Ok in H as (row & Hrow & Hlive & H). cbv zeta in H.
  assert (count (ended_by id) d.(claim_dispositions) = 0) as Hzero.
  { apply no_end_disposition; [done|]. intros r Hr. congruence. }
  assert (d'.(attachments) !! id = Some (with_end row (formatTime now)) ∧
          count (ended_by id) d'.(claim_dispositions) = if released then 1 else 0) as [Hat Hcount].
  { destruct released.
    - destruct H as (k & h & key & disp & _ & _ & _ & Ek & _ & Ea & _ & Hnew & ->). db_simpl.
      rewrite lookup_insert_eq, count_insert_new, Hzero by done. split; [done|].
      unfold ended_by. by rewrite Ek, Ea, !bool_decide_eq_true_2.
    - destruct H as [_ ->]. db_simpl. by rewrite lookup_insert_eq. }
  unfold replayBoundaryEndTx. assert (exists_row (claimed_by id) d'.(handlings) = false) as ->.
  { apply exists_row_false. intros k h Hk. apply bool_decide_eq_false. intros Hc.
    destruct (cl_live _ Hcl' _ _ _ Hk Hc) as (r & Hr & He & _). rewrite Hat in Hr. by injection Hr as <-. }
  cbn [fail_if mbind result_bind]. fold (ended_by id). rewrite Hcount. by destruct released.
Qed.

Lemma endAttachmentTx_again now proof d r d' now' :
  claims_inv d → boundary_inv d → four_digit_year now →
  endAttachmentTx now proof d = Ok (r, d') → r.(ae_replayed) = false →
  endAttachmentTx now' proof d' =
    Ok ({| ae_replayed := true; ae_releasedClaim := r.(ae_releasedClaim) |}, d').
Proof.
  intros Hcl Hbd Hy H Hfresh. unfold endAttachmentTx in H. apply bind_Ok in H as (au & Hau & H).
  cbv zeta in H. destruct (is_some _); [apply bind_Ok in H as (? & _ & [= <- _]); done|].
  apply bind_Ok in H as ([released d1] & He & [= <- <-]). cbn [ae_releasedClaim].
  destruct (authenticateAttachmentTx_Ok _ _ _ Hau) as (row & Hrow & _ & Eid & _). rewrite Eid in He.
  pose proof (endLiveAttachmentTx_check _ _ _ _ _ _ He Hrow) as Hchk.
  pose proof (endLiveAttachmentTx_replay _ _ _ _ _ Hcl Hbd He) as Hrep.
  unfold endAttachmentTx. erewrite authenticate_ended; try done.
  - cbn [mbind result_bind aa_value aa_endedAt is_some]. by rewrite Eid, Hrep.
  - apply endLiveAttachmentTx_Ok in He as (row' & Hrow' & _ & He). simplify_eq. cbv zeta in He.
    destruct released; [destruct He as (?&?&?&?&_&_&_&_&_&_&_&_&->)|destruct He as [_ ->]];
      db_simpl; apply lookup_insert_eq.
Qed.

(** Exactly the claim of the boundary is released. *)
Lemma endAttachmentTx_releases now proof d r d' :
  claims_inv d → endAttachmentTx now proof d = Ok (r, d') → r.(ae_replayed) = false →
  (∀ row, d'.(attachments) !! proof.(ap_id) = Some row → is_Some row.(atr_ended_at)) ∧
  (∀ k h, d.(handlings) !! k = Some h →
     d'.(handlings) !! k =
       Some (if bool_decide (h.(hr_claim) = Some proof.(ap_id)) then release_claim h else h)) ∧
  (r.(ae_releasedClaim) = true ↔ ∃ k h, d.(handlings) !! k = Some h ∧ h.(hr_claim) = Some proof.(ap_id)).
Proof.
  intros Hcl H Hfresh. unfold endAttachmentTx in H. apply bind_Ok in H as (au & Hau & H).
  cbv zeta in H. destruct (is_some _); [apply bind_Ok in H as (? & _ & [= <- _]); done|].
  apply bind_Ok in H as ([released d1] & He & [= <- <-]). cbn [ae_releasedClaim].
  destruct (authenticateAttachmentTx_Ok _ _ _ Hau) as (row0 & _ & _ & Eid & _). rewrite Eid in He. clear Eid.
  apply endLiveAttachmentTx_Ok in He as (row & Hrow & _ & He). cbv zeta in He. destruct released.
  - destruct He as (k & h & key & disp & Hk & _ & Hc & _ & _ & _ & _ & _ & ->). db_simpl. split_and!.
    + intros r. rewrite lookup_insert_eq. intros [= <-]. by eauto.
    + intros j g Hj. destruct (decide (j = k)) as [->|Hne].
      * rewrite lookup_insert_eq. simplify_eq. by rewrite bool_decide_eq_true_2.
      * rewrite lookup_insert_ne, bool_decide_eq_false_2; [done| |done]. intros Hg. apply Hne.
        by eapply (cl_slot _ Hcl).
    + split; [intros _; eauto|done].
  - destruct He as [Hno ->]. db_simpl. split_and!.
    + intros r. rewrite lookup_insert_eq. intros [= <-]. by eauto.
    + intros j g Hj. rewrite bool_decide_eq_false_2; [done|]. by eapply Hno.
    + split; [done|]. intros (k & h & Hk & Hh). by destruct (Hno _ _ Hk).
Qed.

(** ** Issuing a boundary *)

Lemma replaceLiveAttachmentTx_none d now p d' :
  claims_inv d → replaceLiveAttachmentTx d now p = Ok d' →
  ∀ a r, d'.(attachments) !! a = Some r → live_slot r ≠ Some p.
Proof.
  unfold replaceLiveAttachmentTx. intros Hcl H a r Ha Hp.
  destruct (query_row (live_for p) d.(attachments)) as [[v row]|] eqn:E.
  - apply query_row_Some in E as [Hv Hlive]. apply bool_decide_eq_true in Hlive.
    apply bind_Ok in H as (id & Hid & H). apply or_error_Ok, newIdentifier_Ok in Hid as [-> _].
    apply bind_Ok in H as ([b d1] & He & [= <-]).
    apply endLiveAttachmentTx_Ok in He as (row' & Hrow' & _ & He). simplify_eq. cbv zeta in He.
    assert (d1.(attachments) = <[v := with_end row (formatTime now)]> d.(attachments)) as Eat.
    { destruct b; [by destruct He as (?&?&?&?&_&_&_&_&_&_&_&_&->)|by destruct He as [_ ->]]. }
    rewrite Eat in Ha. apply lookup_insert_Some in Ha as [[<- <-]|[Hne Ha]]; [done|].
    apply Hne. by eapply (cl_single _ Hcl).
  - rewrite query_row_None in E. injection H as <-. specialize (E a r Ha).
    by apply bool_decide_eq_false in E.
Qed.

(** The issued boundary is the Principal's only live one. *)
Lemma issueAttachmentTx_live now p m d r d' :
  claims_inv d → issueAttachmentTx now p m d = Ok (r, d') →
  ∃ row, d'.(attachments) !! r.(ap_id) = Some row ∧ live_slot row = Some p ∧
    row.(atr_credential_digest) = Digest_String (Sum r.(ap_credential)) ∧
    row.(atr_expires_at) = formatTime r.(ap_expiresAt).
Proof.
  intros Hcl H. unfold issueAttachmentTx in H. apply bind_Ok in H as ([proof|] & Hrep & H).
  - injection H as -> ->. unfold replayAttachmentBeginTx in Hrep.
    destruct (query_row _ _) as [[a row]|] eqn:E; [|done]. apply query_row_Some in E as [Ha _].
    apply bind_Ok in Hrep as ([] & _ & Hrep). apply bind_Ok in Hrep as ([] & He & Hrep).
    apply bind_Ok in Hrep as ([] & Hc & Hrep). apply bind_Ok in Hrep as (issued & _ & Hrep).
    apply bind_Ok in Hrep as (expires & Hx & Hrep). apply bind_Ok in Hrep as ([] & _ & Hrep).
    apply or_error_Ok, parseTime_Ok in Hx.
    apply bind_Ok in Hrep as (pr & Hp & [= <-]). unfold NewAttachmentProof in Hp. inv_res.
    exists row. unfold live_slot. cbn [with_expiry ap_id ap_credential ap_expiresAt].
    split_and!; try done. by destruct (atr_ended_at row).
  - apply bind_Ok in H as ([] & _ & H). apply bind_Ok in H as (t & _ & H).
    apply bind_Ok in H as (d1 & _ & H). unfold insertAttachmentBeginTx in H.
    apply bind_Ok in H as (d2 & Hw & H). apply bind_Ok in H as (pr & Hp & [= <- <-]).
    apply wrap_error_Ok in Hw. apply bind_Ok in Hw as ([] & _ & Hw). apply write_attachment_Ok in Hw as [-> _].
    unfold NewAttachmentProof in Hp. inv_res. db_simpl. exists (begin_row t p m).
    cbn [with_expiry ap_id ap_credential ap_expiresAt]. by rewrite lookup_insert_eq.
Qed.

Lemma NewAttachmentProof_id id credential proof :
  NewAttachmentProof id credential = Ok proof → proof.(ap_id) = id ∧ proof.(ap_credential) = credential.
Proof. unfold NewAttachmentProof. intros H. apply bind_Ok in H as ([] & _ & [= <-]). done. Qed.

(** Issuing the same boundary again returns the same proof. *)
Lemma issueAttachmentTx_again now p m d r d' now' :
  claims_inv d' → four_digit_year now → four_digit_year (now + interactiveAttachmentLifetime) →
  issueAttachmentTx now p m d = Ok (r, d') → issueAttachmentTx now' p m d' = Ok (r, d').
Proof.
  intros Hcl Hy Hy' H. unfold issueAttachmentTx in H. apply bind_Ok in H as ([proof|] & Hrep & H).
  { injection H as -> ->. unfold issueAttachmentTx. by rewrite Hrep. }
  apply bind_Ok in H as ([] & _ & H). apply bind_Ok in H as (t & Ht & H).
  unfold trustedNow in Ht. apply bind_Ok in Ht as ([] & _ & [= <-]).
  apply bind_Ok in H as (d1 & _ & H). unfold insertAttachmentBeginTx in H.
  apply bind_Ok in H as (d2 & Hw & H). apply bind_Ok in H as (pr & Hp & [= <- <-]).
  apply wrap_error_Ok in Hw. apply bind_Ok in Hw as ([] & _ & Hw). apply write_attachment_Ok in Hw as [-> _].
  unfold issueAttachmentTx, replayAttachmentBeginTx.
  rewrite (query_row_unique _ _ m.(am_attachment) (begin_row now p m)).
  - cbn [begin_row atr_begin_request_digest atr_ended_at atr_principal atr_mode atr_credential_digest
      atr_issued_at atr_expires_at is_some].
    apply bind_Ok. exists (Some (with_expiry pr (now + interactiveAttachmentLifetime))). split; [|done].
    apply bind_Ok. exists (). split; [by rewrite bool_decide_eq_true_2|].
    apply bind_Ok. exists (). split; [done|].
    apply bind_Ok. exists (). split; [by rewrite !bool_decide_eq_true_2|].
    apply bind_Ok. exists now. split; [by apply or_error_Ok, parseTime_format|].
    apply bind_Ok. exists (now + interactiveAttachmentLifetime).
    split; [by apply or_error_Ok, parseTime_format|].
    apply bind_Ok. exists (). split.
    { apply fail_if_Ok. unfold interactiveAttachmentLifetime, ns_per_second. lia. }
    apply bind_Ok. by exists pr.
  - db_simpl. apply lookup_insert_eq.
  - by apply bool_decide_eq_true.
  - intros k r Hk Hkey. apply bool_decide_eq_true in Hkey.
    eapply (cl_begin _ Hcl); [exact Hk|db_simpl; apply lookup_insert_eq|done].
Qed.
