(* ===== verification/PeerSteps.v ===== *)
(** What staging, settling and revoking do to the peer tables. *)

From Stdlib Require Import Lia.
From S2P Require Import Prelude Utf8 Json Wire Sha256 Time StoreTime Value Intent Bound Event Peer.
From S2P Require Import View AgentView Bind Store EventStore Attach Routes Inbox Outbox.
From S2P Require Import Domain Admission PeerAdmission Current History Frames Invariant PeerInv.
From S2P Require Import Replies Projection Replay Effects.

#[local] Open Scope Z_scope.

Lemma insert_inbox_Ok d id row d' :
  insert_inbox d id row = Ok d' →
  d' = set_peer_inbox (<[id := row]> d.(peer_inbox)) d ∧ d.(peer_inbox) !! id = None.
Proof.
  unfold insert_inbox, write_inbox. cbv zeta. intros H. apply bind_Ok in H as ([] & Hn & H).
  do 5 apply bind_Ok in H as ([] & _ & H). injection H as <-. split; [done|].
  apply constraint_Ok, negb_true_iff in Hn. unfold references in Hn. by destruct (_ !! id).
Qed.

(** ** Staging *)

Lemma ParsePeerDelivery_expiry data route p :
  ParsePeerDeliveryCanonicalJSON data route = Ok p → time_ok p.(pp_delivery).(pd_expiresAt).
Proof.
  unfold ParsePeerDeliveryCanonicalJSON. intros H. apply bind_Ok in H as ([] & _ & H).
  apply bind_Ok in H as (wire & _ & H). apply bind_Ok in H as (delivery & Hd & H).
  apply bind_Ok in H as ([] & _ & [= <-]). unfold peerDeliveryFromWire in Hd. cbv zeta in Hd.
  apply bind_Ok in Hd as ([] & _ & Hd). do 13 apply bind_Ok in Hd as (? & _ & Hd).
  apply bind_Ok in Hd as (delivery' & Hn & Hd). apply bind_Ok in Hd as ([] & _ & [= <-]).
  unfold NewPeerDelivery in Hn. do 3 apply bind_Ok in Hn as (? & _ & Hn). apply bind_Ok in Hn as (t1 & _ & Hn).
  apply bind_Ok in Hn as (t2 & Ht & Hn). do 5 apply bind_Ok in Hn as (? & _ & Hn).
  apply bind_Ok in Hn as ([? ?] & _ & Hn). apply bind_Ok in Hn as ([] & _ & [= <-]).
  cbn [pp_delivery delivery_of_spec pd_expiresAt]. by apply canonicalTime_Ok in Ht as (_ & ?).
Qed.

(** The authenticated envelope behind a stage: the route of the TLS peer, the
    delivery parsed under that route, the signature under the route's key. *)
Record authentic (verify : string → string → string → bool) (d : db) (peer : OpaqueHandle)
    (canonical signature : string) (route : PeerRouteProjection) (delivery : PeerDelivery) : Prop := {
  au_route : peerRouteByRemotePeerTx d peer = Ok (Some route);
  au_parsed : ParsePeerDeliveryCanonicalJSON canonical (pr_routeID route) = Ok {| pp_delivery := delivery |};
  au_signed : verifyPeerSignature verify (pr_remotePublicKey route) (delivery_message delivery) signature = true;
}.

(** A row that carries exactly the staged envelope. *)
Definition carries (row : inbox_row) (route : PeerRouteProjection) (canonical signature : string) : Prop :=
  row.(ir_route) = pr_routeID route ∧ row.(ir_delivery) = canonical ∧ row.(ir_signature) = signature.

Lemma stageFreshPeerDeliveryTx_Ok d route delivery signature now r d' :
  stageFreshPeerDeliveryTx d route delivery signature now = Ok (r, d') →
  route.(pr_active) = true ∧ r.(pa_delivery) = delivery ∧ r.(pa_replayed) = false ∧
  d.(peer_inbox) !! DeliveryID_String delivery.(pd_id) = None ∧
  changes [TInbox] d d' ∧ ∃ row, d'.(peer_inbox) !! DeliveryID_String delivery.(pd_id) = Some row ∧
    carries row route delivery.(pd_canonical) signature ∧
    (r.(pa_state) = PeerAdmissionStateStaged → r.(pa_receipt) = None ∧
       row = staged_row route delivery signature now ∧
       delivery.(pd_targetAlias) = pr_inboundTargetAlias route ∧ now < delivery.(pd_expiresAt)).
Proof.
  intros H. pose proof (stageFreshPeerDeliveryTx_changes _ _ _ _ _ _ _ H) as Hch.
  unfold stageFreshPeerDeliveryTx in H. cbv zeta in H. apply bind_Ok in H as ([] & Ha & H).
  apply fail_if_Ok, negb_false_iff in Ha. apply bind_Ok in H as ([] & _ & H).
  assert (∀ row d1, insert_inbox (expirePeerInboxRowsTx d now) (DeliveryID_String delivery.(pd_id)) row = Ok d1 →
    d.(peer_inbox) !! DeliveryID_String delivery.(pd_id) = None ∧
    d1.(peer_inbox) !! DeliveryID_String delivery.(pd_id) = Some row) as Hins.
  { intros row d1 (-> & Hn)%insert_inbox_Ok. db_simpl. rewrite lookup_insert_eq.
    unfold expirePeerInboxRowsTx in Hn. db_simpl. rewrite lookup_fmap in Hn. by destruct (_ !! _). }
  destruct (negb (bool_decide _)) eqn:Ealias; [|destruct (negb (now <? _)) eqn:Eexp].
  - unfold insertRejectedPeerInboxTx in H. apply bind_Ok in H as (code & _ & H).
    apply bind_Ok in H as (receipt & _ & H). apply bind_Ok in H as (d1 & Hi & [= <- <-]).
    apply wrap_error_Ok, Hins in Hi as [Hn Hrow]. split_and!; try done. by eexists.
  - unfold insertExpiredPeerInboxTx in H. apply bind_Ok in H as (d1 & Hi & [= <- <-]).
    apply wrap_error_Ok, Hins in Hi as [Hn Hrow]. split_and!; try done. by eexists.
  - apply bind_Ok in H as (d1 & Hi & [= <- <-]). apply Hins in Hi as [Hn Hrow]. split_and!; try done.
    exists (staged_row route delivery signature now). split_and!; try done. intros _. inv_res.
    split_and!; [done..|]. lia.
Qed.

Lemma stagePeerDeliveryTx_Ok verify peer canonical signature now d r d' :
  stagePeerDeliveryTx verify peer canonical signature now d = Ok (r, d') →
  ∃ route, authentic verify d peer canonical signature route r.(pa_delivery) ∧
    changes [TInbox] d d' ∧
    ∃ row, d'.(peer_inbox) !! DeliveryID_String r.(pa_delivery).(pd_id) = Some row ∧
      carries row route canonical signature ∧
      (r.(pa_replayed) = false → r.(pa_state) = PeerAdmissionStateStaged →
         route.(pr_active) = true ∧ r.(pa_receipt) = None ∧
         row = staged_row route r.(pa_delivery) signature now ∧
         r.(pa_delivery).(pd_targetAlias) = pr_inboundTargetAlias route ∧
         now < r.(pa_delivery).(pd_expiresAt)).
Proof.
  intros H. pose proof (stagePeerDeliveryTx_changes _ _ _ _ _ _ _ _ H) as Hch.
  unfold stagePeerDeliveryTx in H. apply bind_Ok in H as ([route|] & Hroute & H); [|done].
  cbn [of_option mbind result_bind] in H. apply bind_Ok in H as ([delivery] & Hp%or_error_Ok & H).
  cbn [pp_delivery] in H. cbv zeta in H. apply bind_Ok in H as ([] & Hsig & H).
  apply fail_if_Ok, negb_false_iff in Hsig.
  pose proof (ParsePeerDeliveryCanonicalJSON_Ok _ _ _ Hp) as (Ecan & _). cbn [pp_delivery] in Ecan.
  apply bind_Ok in H as ([existing|] & Hex & H).
  - apply peerInboxResultTx_Some in Hex as (row & parsed & Hrow & Hpr & Ed & Eid & _ & _).
    unfold replayPeerInboxTx in H. apply bind_Ok in H as ([] & Hm & H).
    unfold peerInboxSignatureMatchesTx in Hm. rewrite Hrow in Hm. apply fail_if_Ok in Hm.
    apply orb_false_iff in Hm as [[_ Hc]%orb_false_iff [Hr Hs]%negb_false_iff%andb_true_iff].
    apply negb_false_iff, bool_decide_eq_true in Hc. rewrite bool_decide_eq_true in Hr, Hs.
    destruct parsed as [delivery']. cbn [pp_delivery] in *.
    assert (carries row route canonical signature) as Hcar.
    { split_and!; try done. apply ParsePeerDeliveryCanonicalJSON_Ok in Hpr as [E _]. cbn in E. congruence. }
    assert (delivery' = delivery) as ->.
    { destruct Hcar as (E1 & E2 & _). rewrite E1, E2, Hp in Hpr. by injection Hpr. }
    destruct (_ && _) in H.
    + unfold expirePeerInboxTx in H. apply bind_Ok in H as (row' & Hst & H).
      apply bind_Ok in H as (d1 & Hw & [= <- <-]). apply of_option_Ok, staged_inbox_Some in Hst as [Hst _].
      simplify_eq. apply wrap_error_Ok, write_inbox_Ok in Hw as (-> & _). cbn [admission_result pa_delivery].
      exists route. split; [by split|]. split; [done|]. db_simpl. exists (expire_row row now).
      rewrite lookup_insert_eq. split_and!; [done| |done]. exact Hcar.
    + injection H as <- <-. cbn [as_replay pa_delivery pa_replayed]. rewrite Ed.
      exists route. split; [by split|]. split; [done|]. exists row. by split_and!.
  - apply stageFreshPeerDeliveryTx_Ok in H as (Hact & Ed & _ & _ & _ & row & Hrow & Hcar & Hst).
    rewrite Ed, <- Ecan in *. exists route. split; [by split|]. split; [done|]. exists row.
    split_and!; try done. intros _ Hs. by destruct (Hst Hs).
Qed.

Lemma scanPeerRoute_handle id row route : scanPeerRoute id row = Ok route → handle_ok (pr_routeID route) = true.
Proof.
  unfold scanPeerRoute, scan_route_spec. intros H. apply bind_Ok in H as (spec & Hs & H).
  apply bind_Ok in Hs as (rid & Hr & Hs). apply or_error_Ok, newIdentifier_Ok in Hr as [-> Hr].
  repeat (apply bind_Ok in Hs as (? & _ & Hs)). injection Hs as <-.
  do 5 apply bind_Ok in H as (? & _ & H). apply bind_Ok in H as ([] & _ & [= <-]). done.
Qed.

Lemma peerRouteByRemotePeerTx_Some d peer route :
  peerRouteByRemotePeerTx d peer = Ok (Some route) →
  ∃ row, d.(peer_routes) !! pr_routeID route = Some row ∧ row.(rr_remote_peer) = peer ∧
    scanPeerRoute (pr_routeID route) row = Ok route.
Proof.
  unfold peerRouteByRemotePeerTx. destruct (query_row _ _) as [[id row]|] eqn:E; [|done].
  intros H. apply bind_Ok in H as (r & Hr%wrap_error_Ok & [= ->]). apply query_row_Some in E as [Hl Hw].
  apply bool_decide_eq_true in Hw. pose proof (scanPeerRoute_id _ _ _ Hr) as ->. by exists row.
Qed.

(** A staged row reads back as the staged delivery. *)
Lemma peerInboxResultTx_staged d route delivery signature now :
  handle_ok (pr_routeID route) = true →
  ParsePeerDeliveryCanonicalJSON delivery.(pd_canonical) (pr_routeID route) = Ok {| pp_delivery := delivery |} →
  d.(peer_inbox) !! DeliveryID_String delivery.(pd_id) = Some (staged_row route delivery signature now) →
  peerInboxResultTx d delivery.(pd_id) = Ok (Some (admission_result PeerAdmissionStateStaged delivery None)).
Proof.
  intros Hr Hp Hrow. unfold peerInboxResultTx. rewrite Hrow.
  cbn [staged_row ir_route ir_delivery ir_envelope_digest ir_in_reply_to ir_expires_at].
  apply bind_Ok. exists (pr_routeID route). split; [by apply or_error_Ok, newIdentifier_Ok|].
  apply bind_Ok. exists {| pp_delivery := delivery |}. split; [by apply or_error_Ok|]. cbn [pp_delivery].
  apply bind_Ok. exists (). split; [by rewrite !bool_decide_eq_true_2|].
  apply bind_Ok. exists (). split; [unfold peerInboxReplyMatches; by rewrite bool_decide_eq_true_2|].
  apply bind_Ok. exists (pd_expiresAt delivery). split.
  { apply or_error_Ok, parseTime_format, int64_four_digit. by apply ParsePeerDelivery_expiry in Hp as [_ ?]. }
  apply bind_Ok. exists (). split; [by rewrite Z.eqb_refl|].
  apply bind_Ok. exists (admission_result PeerAdmissionStateStaged delivery None). by split.
Qed.

Lemma stagePeerDeliveryTx_again verify peer canonical signature now d r d' now' :
  stagePeerDeliveryTx verify peer canonical signature now d = Ok (r, d') →
  r.(pa_replayed) = false → r.(pa_state) = PeerAdmissionStateStaged → now' < r.(pa_delivery).(pd_expiresAt) →
  stagePeerDeliveryTx verify peer canonical signature now' d' = Ok (as_replay r, d').
Proof.
  intros (route & [Hroute Hp Hsig] & Hch & row & Hrow & (Er & Ec & Es) & Hst)%stagePeerDeliveryTx_Ok Hf Hs Hn.
  destruct (Hst Hf Hs) as (_ & Hrc & -> & _ & _). unfold stagePeerDeliveryTx.
  assert (peerRouteByRemotePeerTx d' peer = peerRouteByRemotePeerTx d peer) as ->.
  { unfold peerRouteByRemotePeerTx. pose proof (Hch TRoutes eq_refl) as E. cbn in E. by rewrite E. }
  rewrite Hroute. cbn [of_option mbind result_bind]. rewrite Hp. cbn [or_error mbind result_bind pp_delivery].
  cbv zeta. rewrite Hsig. cbn [negb fail_if mbind result_bind].
  destruct (peerRouteByRemotePeerTx_Some _ _ _ Hroute) as (rr & _ & _ & Hscan).
  cbn [staged_row ir_delivery] in Ec. rewrite <- Ec in Hp |- *.
  rewrite (peerInboxResultTx_staged _ _ _ _ _ (scanPeerRoute_handle _ _ _ Hscan) Hp Hrow).
  cbn [mbind result_bind]. unfold replayPeerInboxTx, peerInboxSignatureMatchesTx. rewrite Hrow.
  cbn [admission_result pa_delivery pa_state staged_row ir_route ir_signature].
  rewrite !bool_decide_eq_true_2 by done. cbn [negb orb andb fail_if mbind result_bind].
  rewrite (proj2 (Z.ltb_lt _ _) Hn). cbn [negb]. unfold as_replay. by destruct r; cbn in *; subst.
Qed.

(** ** Settlement *)

Lemma write_outbox_row d id row d' :
  write_outbox d id row = Ok d' → d' = set_peer_outbox (<[id := row]> d.(peer_outbox)) d.
Proof. unfold write_outbox. cbv zeta. intros H. do 6 apply bind_Ok in H as ([] & _ & H). by injection H as <-. Qed.

Lemma authentic_receipt_Ok verify pending canonical signature receipt :
  authentic_receipt verify pending canonical signature = Ok receipt →
  ParsePeerAdmissionReceiptCanonicalJSON canonical pending.(pp_pending) = Ok receipt ∧
  verifyPeerSignature verify (pr_remotePublicKey pending.(pp_route)) (receipt_message receipt) signature = true.
Proof.
  unfold authentic_receipt. intros H. apply bind_Ok in H as (rc & Hr%or_error_Ok & H).
  apply bind_Ok in H as ([] & Hs & [= <-]). by apply fail_if_Ok, negb_false_iff in Hs.
Qed.

(** A settlement is signed by the route's peer over a Receipt of this very
    Delivery; a fresh one finds the row pending, unexpired and on an active route,
    and changes that row alone. *)
Lemma settlePeerDeliveryTx_Ok verify peer id canonical signature now d receipt replayed d' :
  settlePeerDeliveryTx verify peer id canonical signature now d = Ok ((receipt, replayed), d') →
  ∃ row pending signed, d.(peer_outbox) !! DeliveryID_String id = Some row ∧
    parsePeerDeliveryRowTx d (DeliveryID_String id) row = Ok pending ∧
    pr_remotePeerID pending.(pp_route) = peer ∧
    ParsePeerAdmissionReceiptCanonicalJSON canonical pending.(pp_pending) = Ok signed ∧
    verifyPeerSignature verify (pr_remotePublicKey pending.(pp_route)) (receipt_message signed) signature = true ∧
    if replayed : bool
    then row.(or_state) = OutboxSettled ∧ default "" row.(or_receipt) = canonical ∧
         default "" row.(or_receipt_signature) = signature ∧ d' = d
    else receipt = signed ∧ row.(or_state) = OutboxPending ∧ pending.(pp_route).(pr_active) = true ∧
         now < pending.(pp_pending).(pd_expiresAt) ∧
         d' = set_peer_outbox (<[DeliveryID_String id := settle_outbox row receipt signature now]>
                d.(peer_outbox)) d.
Proof.
  unfold settlePeerDeliveryTx, outboxSettlementAuthorityTx. cbv zeta. intros H.
  apply bind_Ok in H as ([pending row] & Hauth & H). apply bind_Ok in Hauth as (row' & Hr%of_option_Ok & Hauth).
  apply bind_Ok in Hauth as (p & Hp & [= <- <-]). exists row', p. destruct (bool_decide _) eqn:Est.
  - apply bool_decide_eq_true in Est. apply bind_Ok in H as (rc & Hs & [= <- <- <-]).
    unfold replayPeerSettlement in Hs. cbv zeta in Hs. apply bind_Ok in Hs as ([] & Hpeer & Hs).
    apply bind_Ok in Hs as (signed & Hsig & Hs). apply authentic_receipt_Ok in Hsig as [Hparse Hver].
    apply bind_Ok in Hs as (stored & _ & Hs). apply bind_Ok in Hs as ([] & _ & Hs).
    apply bind_Ok in Hs as ([] & Hsame & _). apply fail_if_Ok in Hpeer, Hsame.
    apply negb_false_iff, bool_decide_eq_true in Hpeer.
    apply orb_false_iff in Hsame as [H1%negb_false_iff%bool_decide_eq_true H2%negb_false_iff%bool_decide_eq_true].
    exists signed. by split_and!.
  - apply bind_Ok in H as (rc & Hs & H). apply bind_Ok in H as (d1 & Hw & [= <- <- <-]).
    apply wrap_error_Ok, write_outbox_row in Hw as ->. unfold validateFreshPeerSettlement in Hs.
    apply bind_Ok in Hs as ([] & Hg & Hs). apply bind_Ok in Hs as ([] & Hpeer & Hs).
    apply authentic_receipt_Ok in Hs as [Hparse Hver]. apply fail_if_Ok in Hg, Hpeer.
    apply negb_false_iff, bool_decide_eq_true in Hpeer.
    apply orb_false_iff in Hg as [[H1%negb_false_iff%bool_decide_eq_true H2%negb_false_iff]%orb_false_iff
      H3%negb_false_iff%Z.ltb_lt].
    exists rc. by split_and!.
Qed.

(** ** Outbound deliveries *)

(** The pending row of one remote target of an Event. *)
Definition outbound (e : Event) (target : ResolvedTarget) (row : outbox_row) : Prop :=
  row.(or_origin_event) = e.(ev_id) ∧ row.(or_route) = target.(rt_remoteRoute) ∧
  row.(or_state) = OutboxPending.

Lemma insert_delivery_Ok e reply now d target d' :
  insert_delivery e reply now d target = Ok d' →
  ∃ k row, d' = set_peer_outbox (<[k := row]> d.(peer_outbox)) d ∧ d.(peer_outbox) !! k = None ∧
    outbound e target row ∧
    ∃ route_row, d.(peer_routes) !! target.(rt_remoteRoute) = Some route_row ∧
      route_row.(rr_state) = RouteActive.
Proof.
  unfold insert_delivery. cbv zeta. intros H. apply bind_Ok in H as (found & Hf%wrap_error_Ok & H).
  apply bind_Ok in H as (route & Hr%of_option_Ok & H). subst found. apply bind_Ok in H as ([] & Hg & H).
  apply fail_if_Ok, orb_false_iff in Hg as [Ha%negb_false_iff _].
  apply bind_Ok in H as (delivery & _ & H). apply wrap_error_Ok in H.
  apply bind_Ok in H as ([] & Hn & H). apply constraint_Ok, negb_true_iff in Hn.
  apply write_outbox_row in H as ->. apply peerRouteByIDTx_Some in Hf as (rr & Hrr & Hscan & Eid).
  eexists _, _. split_and!; [done| | |].
  - unfold references in Hn. by destruct (peer_outbox d !! _).
  - split_and!; [done|exact Eid|done].
  - exists rr. split; [done|]. unfold scanPeerRoute in Hscan. do 6 apply bind_Ok in Hscan as (? & _ & Hscan).
    apply bind_Ok in Hscan as ([active t] & Hl & [= <-]). cbn [pr_active] in Ha. subst active.
    unfold scan_route_lifecycle in Hl. destruct (rr_state rr); [done|]. destruct (rr_revoked_at rr); [|done].
    cbv zeta in Hl. apply bind_Ok in Hl as (? & _ & Hl). by apply bind_Ok in Hl as ([] & _ & Hl).
Qed.

(** The new rows are exactly one per remote target. *)
Lemma insert_deliveries_Ok e reply now targets d d' :
  foldR (insert_delivery e reply now) d targets = Ok d' →
  d'.(peer_routes) = d.(peer_routes) ∧
  (∀ k row, d.(peer_outbox) !! k = Some row → d'.(peer_outbox) !! k = Some row) ∧
  (∀ t, t ∈ targets → ∃ k row, d'.(peer_outbox) !! k = Some row ∧ d.(peer_outbox) !! k = None ∧ outbound e t row) ∧
  (∀ k row, d'.(peer_outbox) !! k = Some row → d.(peer_outbox) !! k = None →
     ∃ t route_row, t ∈ targets ∧ outbound e t row ∧
       d.(peer_routes) !! t.(rt_remoteRoute) = Some route_row ∧ route_row.(rr_state) = RouteActive) ∧
  Z.of_nat (size d'.(peer_outbox)) = Z.of_nat (size d.(peer_outbox)) + lenZ targets.
Proof.
  revert d. induction targets as [|t ts IH]; intros d H; cbn [foldR] in H.
  - injection H as <-. split_and!; [done|done|by intros t ?%not_elem_of_nil|congruence|unfold lenZ; cbn; lia].
  - apply bind_Ok in H as (d1 & H1 & H). apply insert_delivery_Ok in H1 as (k0 & r0 & -> & Hnew & Hout & Hact).
    apply IH in H as (Er & Hkeep & Hall & Honly & Hsize). db_simpl. split_and!; [done|..].
    + intros k row Hk. apply Hkeep. rewrite lookup_insert_ne; [done|congruence].
    + intros x [->|Hx]%elem_of_cons.
      * exists k0, r0. split_and!; try done. apply Hkeep, lookup_insert_eq.
      * destruct (Hall x Hx) as (k & row & Hk & Hn & Ho). exists k, row. split_and!; try done.
        by apply lookup_insert_None in Hn as [? _].
    + intros k row Hk Hn. destruct (decide (k = k0)) as [->|Hne].
      * assert (row = r0) as ->.
        { apply Some_inj. rewrite <- Hk. apply Hkeep, lookup_insert_eq. }
        destruct Hact as (rr & ? & ?). exists t, rr. split_and!; try done. constructor.
      * destruct (Honly k row Hk) as (x & rr & Hx & ?); [by rewrite lookup_insert_ne|].
        exists x, rr. split; [by constructor|done].
    + rewrite Hsize, map_size_insert_None by done. unfold lenZ. cbn [length]. lia.
Qed.

(** ** Pending deliveries ride on active routes *)

Definition pending_inv (d : db) : Prop := ∀ k row, d.(peer_outbox) !! k = Some row →
  row.(or_state) = OutboxPending →
  ∃ route_row, d.(peer_routes) !! row.(or_route) = Some route_row ∧ route_row.(rr_state) = RouteActive.

Lemma pending_frame d d' : keeps [TRoutes; TOutbox] d d' → pending_inv d → pending_inv d'.
Proof.
  intros Hk H.
  assert (d'.(peer_routes) = d.(peer_routes)) as E1 by (apply (Hk TRoutes); set_solver).
  assert (d'.(peer_outbox) = d.(peer_outbox)) as E2 by (apply (Hk TOutbox); set_solver).
  unfold pending_inv. by rewrite E1, E2.
Qed.

Lemma write_route_row d id row d' :
  write_route d id row = Ok d' → d' = set_peer_routes (<[id := row]> d.(peer_routes)) d.
Proof. unfold write_route. cbv zeta. intros H. do 6 apply bind_Ok in H as ([] & _ & H). by injection H as <-. Qed.

Lemma expire_outbox_where_pending w t d : pending_inv d → pending_inv (expire_outbox_where w t d).
Proof.
  intros H k row Hk Hp. unfold expire_outbox_where in *. db_simpl. rewrite lookup_fmap in Hk.
  apply fmap_Some in Hk as (r & Hr & ->). destruct (_ && _); [done|]. eauto.
Qed.

(** A revocation marks the route and expires its pending deliveries. *)
Lemma revokePeerRouteTx_Ok now id d r d' :
  revokePeerRouteTx now id d = Ok (r, d') →
  ∃ row, d.(peer_routes) !! id = Some row ∧
    ((row.(rr_state) = RouteRevoked ∧ d' = d) ∨
     d' = expire_outbox_where (λ o, bool_decide (o.(or_route) = id)) (formatTime now)
            (set_peer_routes (<[id := revoke_row row (formatTime now)]> d.(peer_routes)) d)).
Proof.
  unfold revokePeerRouteTx. cbv zeta. intros H. apply bind_Ok in H as (found & Hf & H).
  apply bind_Ok in H as (route & Hr%of_option_Ok & H). subst found.
  apply peerRouteByIDTx_Some in Hf as (row & Hrow & Hscan & _). exists row. split; [done|].
  destruct (pr_active route) eqn:Ha; cbn [negb] in H.
  - right. apply bind_Ok in H as (row' & Hr'%of_option_Ok & H). simplify_eq.
    apply bind_Ok in H as ([] & _ & H). apply bind_Ok in H as (d1 & Hw & [= _ <-]).
    by apply wrap_error_Ok, write_route_row in Hw as ->.
  - left. injection H as _ <-. split; [|done]. unfold scanPeerRoute in Hscan.
    do 6 apply bind_Ok in Hscan as (? & _ & Hscan). apply bind_Ok in Hscan as ([active t] & Hl & [= <-]).
    cbn [pr_active] in Ha. subst active. unfold scan_route_lifecycle in Hl. destruct (rr_state row); [|done].
    by destruct (rr_revoked_at row).
Qed.

Lemma revokePeerRouteTx_pending now id d r d' :
  revokePeerRouteTx now id d = Ok (r, d') → pending_inv d → pending_inv d'.
Proof.
  intros (row & Hrow & [[_ ->]| ->])%revokePeerRouteTx_Ok Hinv; [done|].
  intros k o Hk Hp. unfold expire_outbox_where in *. db_simpl. rewrite lookup_fmap in Hk.
  apply fmap_Some in Hk as (o' & Ho & ->). destruct (_ && _) eqn:E in Hp; [done|].
  rewrite E in *. rewrite (bool_decide_eq_true_2 _ Hp) in E. apply bool_decide_eq_false in E.
  destruct (Hinv k o' Ho Hp) as (rr & Hrr & ?). exists rr. by rewrite lookup_insert_ne.
Qed.

Lemma commitDomainAdmissionTx_pending d c id ids now e d' :
  commitDomainAdmissionTx d c id ids now = Ok (e, d') → pending_inv d → pending_inv d'.
Proof.
  intros (a & d2 & d3 & _ & H2 & H3 & H4)%commitDomainAdmissionTx_Ok Hinv.
  assert (pending_inv d3) as Hinv3.
  { framed pending_frame applyDomainEffectTx_changes. framed pending_frame insertEventTx_changes.
    eapply pending_frame; [|done]. intros t Ht. apply elem_of_cons in Ht as [->|Ht%list_elem_of_singleton]; by subst. }
  unfold insertPeerDeliveriesTx in H4. apply bind_Ok in H4 as (reply & _ & H4).
  apply insert_deliveries_Ok in H4 as (Er & Hkeep & _ & Honly & _). intros k row Hk Hp. rewrite Er.
  destruct (d3.(peer_outbox) !! k) as [row'|] eqn:E.
  - pose proof (Hkeep _ _ E). simplify_eq. by eapply Hinv3.
  - destruct (Honly k row Hk E) as (t & rr & _ & (_ & Ero & _) & ?). exists rr. by rewrite Ero.
Qed.

#[export] Instance pending_invariant : StoreInvariant pending_inv.
Proof.
  assert (∀ d d', extends d d' → keeps [TRoutes; TOutbox] d d' → pending_inv d → pending_inv d')
    as Hf by (intros; by eapply pending_frame).
  split; [by intros k row|].
  intros verify d d' Htx Hinv. destruct Htx; try by tx_framed pending_frame.
  - unfold enrollPeerRouteTx in *. inv_tx; [done|].
    match goal with Hw : write_route _ _ _ = Ok _ |- _ => apply write_route_row in Hw as -> end.
    intros k row Hk Hp.
    match goal with Hi : insert_principal _ _ _ = Ok ?d1 |- _ => pose proof (insert_principal_changes _ _ _ _ Hi) as Hc end.
    pose proof (Hc TOutbox eq_refl) as E1. pose proof (Hc TRoutes eq_refl) as E2. cbn in E1, E2. db_simpl.
    rewrite E1 in Hk. destruct (Hinv k row Hk Hp) as (rr & Hrr & Ha). exists rr. rewrite E2.
    rewrite lookup_insert_ne; [done|]. intros E.
    match goal with Hn : references (peer_routes _) _ = false |- _ =>
      unfold references in Hn; by rewrite E2, E, Hrr in Hn end.
  - by eapply revokePeerRouteTx_pending.
  - by eapply (admit_preserves _ _ Hf commitDomainAdmissionTx_pending).
  - by eapply (peer_commit_preserves _ _ Hf commitDomainAdmissionTx_pending).
  - by apply expire_outbox_where_pending.
  - match goal with r : (_ * _)%type |- _ => destruct r as [receipt replayed] end.
    match goal with Hs : settlePeerDeliveryTx _ _ _ _ _ _ _ = _ |- _ =>
      apply settlePeerDeliveryTx_Ok in Hs as (row & p & sg & _ & _ & _ & _ & _ & Hrow) end.
    destruct replayed; [by destruct Hrow as (_ & _ & _ & ->)|]. destruct Hrow as (_ & _ & _ & _ & ->).
    intros k o Hk Hp. db_simpl. apply lookup_insert_Some in Hk as [[<- <-]|[_ Hk]]; [done|by eapply Hinv].
Qed.

(** ** Admission *)

Lemma parsePeerInboxStateTx_state d delivery row r :
  parsePeerInboxStateTx d delivery row = Ok r → r.(pa_replayed) = false.
Proof. unfold parsePeerInboxStateTx. cbv zeta. intros H. destruct (ir_state row); inv_tx; done. Qed.

(** Only the committing branch reports a fresh acceptance. *)
Lemma preparePeerAdmissionTx_done verify d id checks now r d' :
  preparePeerAdmissionTx verify d id checks now = Ok (PreparedDone r, d') →
  r.(pa_replayed) = true ∨ r.(pa_state) ≠ PeerAdmissionStateAccepted.
Proof.
  unfold preparePeerAdmissionTx. intros H. apply bind_Ok in H as (found & _ & H).
  apply bind_Ok in H as (res & _ & H). destruct (bool_decide _) eqn:Es; cbn [negb] in H.
  - right. apply bool_decide_eq_true in Es. unfold prepareStagedTx in H. cbv zeta in H.
    unfold settleRejectedPeerInboxTx, expirePeerInboxTx in H. inv_tx; cbn; try done; congruence.
  - left. by injection H as <- _.
Qed.

Lemma commitPeerAdmissionTx_sound verify id checks eid ids now d r d' :
  commitPeerAdmissionTx verify id checks eid ids now d = Ok (r, d') →
  r.(pa_replayed) = false → r.(pa_state) = PeerAdmissionStateAccepted →
  ∃ prep row route e receipt, admissible verify d id checks now prep row route ∧
    d.(events) !! e.(ev_id) = None ∧ d'.(events) = <[e.(ev_id) := event_row_of e]> d.(events) ∧
    d'.(origin_sequence) = d.(origin_sequence) + 1 ∧ d'.(operations) = d.(operations) ∧
    r.(pa_receipt) = Some receipt ∧
    d'.(peer_inbox) !! DeliveryID_String id = Some (settle_row row (Some e.(ev_id)) receipt now).
Proof.
  intros H Hf Hs. apply commitPeerAdmissionTx_Ok in H as ([res|prep] & d1 & Hp & H).
  { destruct H as [-> _]. apply preparePeerAdmissionTx_done in Hp as [?|?]; congruence. }
  destruct H as [-> H]. destruct (preparePeerAdmissionTx_commit _ _ _ _ _ _ _ Hp) as (row & route & Hadm).
  apply commitAcceptedPeerAdmissionTx_Ok in H as (eff & e & d2 & receipt & row' & _ & H2 & _ & Hst & Hw & ->).
  pose proof (commitDomainAdmissionTx_event _ _ _ _ _ _ _ H2) as (Eev & Hnew & Eseq & Eop).
  apply write_inbox_Ok in Hw as (-> & _). apply staged_inbox_Some in Hst as [Hrow' _].
  apply commitDomainAdmissionTx_changes in H2. pose proof (H2 TInbox eq_refl) as Ein. cbn in Ein.
  rewrite (ad_id _ _ _ _ _ _ _ _ Hadm) in *. rewrite Ein, (ad_row _ _ _ _ _ _ _ _ Hadm) in Hrow'.
  injection Hrow' as <-. exists prep, row, route, e, receipt. split_and!; try done. db_simpl.
  apply lookup_insert_eq.
Qed.

(** ** The deliveries of one admission *)

(** Exactly one new pending row per remote target, on an active route. *)
Definition delivers (e : Event) (targets : list ResolvedTarget) (d d' : db) : Prop :=
  (∀ k row, d.(peer_outbox) !! k = Some row → d'.(peer_outbox) !! k = Some row) ∧
  (∀ t, t ∈ targets → ∃ k row, d'.(peer_outbox) !! k = Some row ∧ d.(peer_outbox) !! k = None ∧ outbound e t row) ∧
  (∀ k row, d'.(peer_outbox) !! k = Some row → d.(peer_outbox) !! k = None →
     ∃ t route_row, t ∈ targets ∧ outbound e t row ∧
       d.(peer_routes) !! t.(rt_remoteRoute) = Some route_row ∧ route_row.(rr_state) = RouteActive) ∧
  Z.of_nat (size d'.(peer_outbox)) = Z.of_nat (size d.(peer_outbox)) + lenZ targets.

Lemma commitDomainAdmissionTx_delivers d c id ids now e d' :
  commitDomainAdmissionTx d c id ids now = Ok (e, d') → delivers e (remote_targets e.(ev_targets)) d d'.
Proof.
  intros (a & d2 & d3 & _ & H2 & H3 & H4)%commitDomainAdmissionTx_Ok.
  apply insertEventTx_changes in H2. apply applyDomainEffectTx_changes in H3.
  pose proof (H2 TOutbox eq_refl) as E1. pose proof (H2 TRoutes eq_refl) as E2.
  pose proof (H3 TOutbox eq_refl) as E3. pose proof (H3 TRoutes eq_refl) as E4. cbn in E1, E2, E3, E4.
  unfold insertPeerDeliveriesTx in H4. apply bind_Ok in H4 as (reply & _ & H4).
  apply insert_deliveries_Ok in H4 as (_ & H5 & H6 & H7 & H8).
  unfold delivers. by rewrite <- E1, <- E3, <- E2, <- E4.
Qed.

Lemma commitAdmissionTx_delivers now proof request failure id ids d r d' :
  commitAdmissionTx now proof request failure id ids d = Ok (r, d') →
  r.(ar_replayed) = false → r.(ar_outcome) = ReceiptOutcomeAccepted →
  ∃ e, event_of request e ∧ d.(events) !! e.(ev_id) = None ∧ delivers e (remote_targets request.(bi_targets)) d d'.
Proof.
  intros (au & [replay|] & _ & Hrep & H)%commitAdmissionTx_Ok Hfresh Hout.
  { destruct H as [-> _]. apply operationReplayTx_replayed in Hrep. congruence. }
  destruct H as (_ & [rejection|] & _ & H).
  { apply persistRejectionTx_Ok in H as (receipt & Hr & _ & ->). cbn in Hout.
    apply NewRejectedReceipt_fields in Hr as (_ & _ & Ho). congruence. }
  apply commitAcceptedAdmissionTx_Ok in H as (e & d1 & receipt & H1 & _ & H & _).
  apply insertOperationTx_Ok in H as (-> & _).
  pose proof (commitDomainAdmissionTx_event _ _ _ _ _ _ _ H1) as (_ & Hnew & _).
  pose proof (commitDomainAdmissionTx_delivers _ _ _ _ _ _ _ H1) as Hd.
  apply commitDomainAdmissionTx_Ok in H1 as (a & d2 & d3 & He & _). apply newLocalEvent_Ok in He as [Heo _].
  exists e. rewrite <- (eo_targets _ _ Heo). split_and!; try done; apply Hd.
Qed.

(** ** Causal depth *)

Lemma eventRefKey_inj r r' : ref_ok r → ref_ok r' → eventRefKey r = eventRefKey r' → r = r'.
Proof.
  intros [_ [Hd _]] [_ [Hd' _]] E. unfold eventRefKey in E. apply append_suffix_inj in E as [Ei Es].
  - apply (f_equal (λ s, match s with String _ t => t | EmptyString => s end)) in Es. cbv beta iota in Es.
    apply Digest_String_inj in Es. destruct r, r'; cbn in *; congruence.
  - cbn. unfold Digest_String. rewrite !string_length_app, !hex_encode_length, Hd, Hd'. done.
Qed.

(** The loop computes a maximum over the Events it names: [seen] holds what was
    already accounted for. *)
Lemma deepest_maximum d remote named refs seen maximum depth :
  Forall ref_ok named → refs ⊆ named →
  (∀ k, k ∈ seen → ∃ r, r ∈ named ∧ eventRefKey r = k ∧
     match exactEventDepthTx d r with
     | Ok x => x <= maximum
     | Err e => errors_is e errCausalEventUnavailable = true ∧ k ∈ remote
     end) →
  deepest d remote seen maximum refs = Ok depth →
  maximum <= depth ∧
  (depth = maximum ∨ ∃ r, r ∈ refs ∧ exactEventDepthTx d r = Ok depth) ∧
  ∀ r, r ∈ refs → match exactEventDepthTx d r with
                  | Ok x => x <= depth
                  | Err e => errors_is e errCausalEventUnavailable = true ∧ eventRefKey r ∈ remote
                  end.
Proof.
  intros Hok. revert seen maximum. induction refs as [|r refs IH]; intros seen maximum Hsub Hseen H; cbn [deepest] in H.
  { injection H as <-. split_and!; [lia|by left|by intros ? ?%not_elem_of_nil]. }
  assert (r ∈ named ∧ refs ⊆ named) as [Hr Hsub'] by set_solver.
  assert (∀ m, maximum <= m →
    (match exactEventDepthTx d r with
     | Ok x => x <= m
     | Err e => errors_is e errCausalEventUnavailable = true ∧ eventRefKey r ∈ remote
     end) → (∀ k, k ∈ eventRefKey r :: seen → ∃ r, r ∈ named ∧ eventRefKey r = k ∧
     match exactEventDepthTx d r with
     | Ok x => x <= m
     | Err e => errors_is e errCausalEventUnavailable = true ∧ k ∈ remote
     end)) as Hnext.
  { intros m Hm Hnew k [->|Hk]%elem_of_cons; [by exists r|]. destruct (Hseen k Hk) as (x & Hx & Ex & Hv).
    exists x. split_and!; [done..|]. destruct (exactEventDepthTx d x); [lia|done]. }
  destruct (bool_decide (eventRefKey r ∈ seen)) eqn:Hin; [|destruct (exactEventDepthTx d r) as [x|e] eqn:Ex].
  - apply bool_decide_eq_true, Hseen in Hin as (r' & Hr' & Ek & Hv).
    rewrite Forall_forall in Hok. apply eventRefKey_inj in Ek as ->; [|by apply Hok..].
    apply IH in H as (H1 & H2 & H3); [|done..]. split_and!; [done| |].
    + destruct H2 as [?|(y & ? & ?)]; [by left|right; exists y; split; [by constructor|done]].
    + intros y [->|Hy]%elem_of_cons; [|by apply H3]. destruct (exactEventDepthTx d r); [lia|done].
  - apply IH in H as (H1 & H2 & H3); [|done|apply Hnext; destruct (maximum <? x) eqn:E; lia].
    split_and!; [destruct (maximum <? x) eqn:E; lia| |].
    + destruct H2 as [->|(y & ? & ?)]; [|right; exists y; split; [by constructor|done]].
      destruct (maximum <? x); [right; exists r; split; [constructor|done]|by left].
    + intros y [->|Hy]%elem_of_cons; [|by apply H3]. rewrite Ex. destruct (maximum <? x) eqn:E; lia.
  - destruct (errors_is e errCausalEventUnavailable) eqn:Ee; [|done].
    destruct (bool_decide (eventRefKey r ∈ remote)) eqn:Er; [|done]. apply bool_decide_eq_true in Er.
    apply IH in H as (H1 & H2 & H3); [|done|apply Hnext; [lia|done]]. split_and!; [done| |].
    + destruct H2 as [?|(y & ? & ?)]; [by left|right; exists y; split; [by constructor|done]].
    + intros y [->|Hy]%elem_of_cons; [|by apply H3]. by rewrite Ex.
Qed.
