(* ===== verification/Calls.v ===== *)
(** Method calls seen from outside: what a successful call did, and how the two
    transactions of an admission compose into steps of the Store. *)

From Stdlib Require Import Lia.
From S2P Require Import Prelude Utf8 Json Wire Sha256 Time StoreTime Value Intent Bound Event Peer.
From S2P Require Import View AgentView Bind Store EventStore Attach Routes Inbox Outbox.
From S2P Require Import Domain Admission PeerAdmission Current History Frames Invariant PeerInv.
From S2P Require Import Replies Projection Replay Effects Attention Boundary PeerSteps.

#[local] Open Scope Z_scope.

(** ** A call is a guard and one transaction *)

Lemma transact_Ok {A} s (body : db → result (A * db)) r :
  fst (transact s body) = Ok r →
  s.(st_closed) = false ∧ body s.(st_db) = Ok (r, (snd (transact s body)).(st_db)) ∧
  (snd (transact s body)).(st_closed) = false.
Proof.
  unfold transact, requireOpen. destruct (st_closed s); [done|]. cbn [fail_if].
  destruct (body (st_db s)) as [[a d]|e]; [|done]. by intros [= ->].
Qed.

Lemma transact_Err {A} s (body : db → result (A * db)) e :
  fst (transact s body) = Err e → snd (transact s body) = s.
Proof.
  unfold transact. destruct (requireOpen s); [|done]. destruct (body (st_db s)) as [[a d]|]; done.
Qed.

Lemma transact_body {A} s (body : db → result (A * db)) r d :
  s.(st_closed) = false → body s.(st_db) = Ok (r, d) →
  transact s body = (Ok r, {| st_db := d; st_closed := false |}).
Proof. unfold transact, requireOpen. intros -> ->. done. Qed.

Lemma guarded_Ok {A B} s (guard : result A) (k : A → result B * Store) r :
  fst (guarded s guard k) = Ok r → ∃ x, guard = Ok x ∧ guarded s guard k = k x.
Proof. destruct guard as [x|e]; [eauto|done]. Qed.

Lemma same_store s s' : s.(st_db) = s'.(st_db) → s.(st_closed) = s'.(st_closed) → s = s'.
Proof. destruct s, s'. cbn. by intros -> ->. Qed.

(** What a successful call returned and committed. *)
Ltac inv_call H :=
  lazymatch type of H with
  | fst (guarded _ _ _) = Ok _ =>
      let x := fresh "guard" in let Hx := fresh "Hguard" in let E := fresh "Ecall" in
      pose proof (guarded_Ok _ _ _ _ H) as (x & Hx & E); rewrite ?E in *; clear E; cbv beta in *
  | fst (transact _ _) = Ok _ =>
      let Ho := fresh "Hopen" in let Hb := fresh "Hbody" in let Hc := fresh "Hstill" in
      apply transact_Ok in H as (Ho & Hb & Hc)
  end.

Lemma trustedNow_Ok now t : trustedNow now = Ok t → t = now ∧ now ≠ zero_time.
Proof. unfold trustedNow. intros H. inv_res. lia. Qed.

Lemma trustedNow_nonzero now : now ≠ zero_time → trustedNow now = Ok now.
Proof. intros Hn. unfold trustedNow. by rewrite (proj2 (Z.eqb_neq _ _) Hn). Qed.

Lemma commitAdmission_Ok entropy s now proof request failure r :
  fst (commitAdmission entropy s now proof request failure) = Ok r →
  s.(st_closed) = false ∧ now ≠ zero_time ∧
  (snd (commitAdmission entropy s now proof request failure)).(st_closed) = false ∧
  ∃ id ids, handle_ok id = true ∧
    commitAdmissionTx now proof request failure id ids s.(st_db) =
      Ok (r, (snd (commitAdmission entropy s now proof request failure)).(st_db)).
Proof.
  unfold commitAdmission. intros H. pose proof (guarded_Ok _ _ _ _ H) as ([[t id] ids] & Hg & E).
  rewrite E in *. apply transact_Ok in H as (Ho & Hb & Ho').
  apply bind_Ok in Hg as (t' & Ht & Hg). apply trustedNow_Ok in Ht as [-> Hn].
  apply bind_Ok in Hg as ([id' ids'] & Hids & [= <- <- <-]). split_and!; [done..|].
  exists id', ids'. split; [|done]. unfold admission_identifiers in Hids.
  apply bind_Ok in Hids as (e & He & Hids). apply bind_Ok in Hids as (hs & _ & [= -> _]).
  unfold newEventID in He. by apply newIdentifier_Ok in He as [-> ?].
Qed.

Lemma commitAdmission_Err entropy s now proof request failure e :
  fst (commitAdmission entropy s now proof request failure) = Err e →
  snd (commitAdmission entropy s now proof request failure) = s.
Proof.
  unfold commitAdmission, guarded. destruct (_ ← trustedNow now; _) as [[[t id] ids]|err]; [|done].
  apply transact_Err.
Qed.

Lemma Current_Ok s now proof operation view :
  fst (Current s now proof operation) = Ok view →
  s.(st_closed) = false ∧
  currentTx now proof operation s.(st_db) = Ok (view, (snd (Current s now proof operation)).(st_db)).
Proof.
  unfold Current. intros H. pose proof (guarded_Ok _ _ _ _ H) as (t & Hg & E). rewrite E in *.
  apply transact_Ok in H as (Ho & Hb & _). apply bind_Ok in Hg as ([] & _ & Ht).
  by apply trustedNow_Ok in Ht as [-> _].
Qed.

Lemma IssueInteractiveAttachment_Ok s now p boundary proof :
  fst (IssueInteractiveAttachment s now p boundary) = Ok proof →
  let s' := snd (IssueInteractiveAttachment s now p boundary) in
  s.(st_closed) = false ∧ s'.(st_closed) = false ∧
  ∃ m, (_ ← fail_if (IsZero p || Digest_IsZero boundary)
              (Errorf "issue attachment: Principal and Host boundary are required");
        deriveAttachmentBegin p boundary) = Ok m ∧
    issueAttachmentTx now p m s.(st_db) = Ok (proof, s'.(st_db)).
Proof.
  unfold IssueInteractiveAttachment. intros H. pose proof (guarded_Ok _ _ _ _ H) as (m & Hg & E).
  cbv zeta. rewrite E in *. apply transact_Ok in H as (Ho & Hb & Hc). eauto 10.
Qed.

Lemma EndInteractiveAttachment_Ok s now proof r :
  fst (EndInteractiveAttachment s now proof) = Ok r →
  let s' := snd (EndInteractiveAttachment s now proof) in
  s.(st_closed) = false ∧ s'.(st_closed) = false ∧ now ≠ zero_time ∧
  endAttachmentTx now proof s.(st_db) = Ok (r, s'.(st_db)).
Proof.
  unfold EndInteractiveAttachment. intros H. pose proof (guarded_Ok _ _ _ _ H) as (t & Hg & E).
  cbv zeta. rewrite E in *. apply transact_Ok in H as (Ho & Hb & Hc).
  apply trustedNow_Ok in Hg as [-> Hn]. done.
Qed.

Lemma commitPeerAdmission_Ok verify entropy s now id checks ids r :
  fst (commitPeerAdmission verify entropy s now id checks ids) = Ok r →
  ∃ eid, commitPeerAdmissionTx verify id checks eid ids now s.(st_db) =
    Ok (r, (snd (commitPeerAdmission verify entropy s now id checks ids)).(st_db)).
Proof.
  unfold commitPeerAdmission. intros H. pose proof (guarded_Ok _ _ _ _ H) as (eid & _ & E). rewrite E in *.
  apply transact_Ok in H as (_ & Hb & _). apply bind_Ok in Hb as (t & Ht & Hb).
  apply trustedNow_Ok in Ht as [-> _]. by exists eid.
Qed.

Lemma StagePeerDelivery_Ok verify s now peer canonical signature r :
  fst (StagePeerDelivery verify s now peer canonical signature) = Ok r →
  let s' := snd (StagePeerDelivery verify s now peer canonical signature) in
  s'.(st_closed) = false ∧ (IsZero peer || is_empty canonical || is_empty signature) = false ∧
  stagePeerDeliveryTx verify peer canonical signature now s.(st_db) = Ok (r, s'.(st_db)).
Proof.
  unfold StagePeerDelivery. intros H. pose proof (guarded_Ok _ _ _ _ H) as ([] & Hg & E). cbv zeta.
  rewrite E in *. apply fail_if_Ok in Hg. apply transact_Ok in H as (_ & Hb & Hc).
  apply bind_Ok in Hb as (t & Ht & Hb). by apply trustedNow_Ok in Ht as [-> _].
Qed.

Lemma SettlePeerDelivery_Ok verify s now peer id canonical signature r :
  fst (SettlePeerDelivery verify s now peer id canonical signature) = Ok r →
  settlePeerDeliveryTx verify peer id canonical signature now s.(st_db) =
    Ok (r, (snd (SettlePeerDelivery verify s now peer id canonical signature)).(st_db)).
Proof.
  unfold SettlePeerDelivery. intros H. pose proof (guarded_Ok _ _ _ _ H) as ([] & _ & E).
  rewrite E in *. apply transact_Ok in H as (_ & Hb & _).
  apply bind_Ok in Hb as (t & Ht & Hb). by apply trustedNow_Ok in Ht as [-> _].
Qed.

Lemma RevokePeerRoute_Ok s now id r :
  fst (RevokePeerRoute s now id) = Ok r →
  revokePeerRouteTx now id s.(st_db) = Ok (r, (snd (RevokePeerRoute s now id)).(st_db)).
Proof.
  unfold RevokePeerRoute. intros H. pose proof (guarded_Ok _ _ _ _ H) as (t & Hg & E).
  rewrite E in *. apply transact_Ok in H as (_ & Hb & _).
  apply bind_Ok in Hg as ([] & _ & Ht). by apply trustedNow_Ok in Ht as [-> _].
Qed.

(** ** Compositions of two transactions *)

Section steps.
Context (verify : string → string → string → bool).

Lemma Admit_steps verifier entropy between s now1 now2 proof request :
  rtc (store_step verify) s (between s) →
  rtc (store_step verify) s (snd (Admit verifier entropy between s now1 now2 proof request)).
Proof.
  intros Hb. unfold Admit, guarded at 1. destruct (fail_if _ _); [|apply rtc_refl].
  unfold guarded. destruct (preflightAdmission _ _ _ _) as [[replay|checks]|e]; [apply rtc_refl| |apply rtc_refl].
  eapply rtc_r; [exact Hb|]. apply step_admit.
Qed.

Lemma AdmitPeerDelivery_steps verifier entropy between s now1 now2 id :
  (∀ s, rtc (store_step verify) s (between s)) →
  rtc (store_step verify) s
    (snd (AdmitPeerDelivery verify verifier entropy between s now1 now2 id)).
Proof.
  intros Hb. unfold AdmitPeerDelivery.
  pose proof (step_peer_preflight verify s now1 id) as Hp.
  destruct (preflightPeerAdmission s now1 id) as [[[r|checks staged]|e] s1]; cbn [snd] in *;
    [by apply rtc_once| |by apply rtc_once].
  eapply rtc_l; [exact Hp|]. unfold guarded. destruct (fail_if _ _); [|apply rtc_refl].
  destruct (newHandlingIDs _); [|apply rtc_refl]. eapply rtc_r; [apply Hb|]. apply step_peer_commit.
Qed.
End steps.

(** ** Replay through [Admit] *)

Definition as_admission_replay (r : AdmissionResult) : AdmissionResult := {|
  ar_receiptJSON := r.(ar_receiptJSON); ar_receiptDigest := r.(ar_receiptDigest);
  ar_outcome := r.(ar_outcome); ar_replayed := true |}.

(** A proof names the same Principal on every later database. *)
Lemma authenticate_extends d d' proof au au' :
  extends d d' → authenticateAttachmentTx d proof = Ok au → authenticateAttachmentTx d' proof = Ok au' →
  au'.(aa_value).(at_principal) = au.(aa_value).(at_principal).
Proof.
  intros Hx (row & Hr & _ & _ & E & _)%authenticateAttachmentTx_Ok
    (row' & Hr' & _ & _ & E' & _)%authenticateAttachmentTx_Ok.
  apply (ex_attachments _ _ Hx) in Hr as (r' & Hr & Hp). rewrite Hr' in Hr. injection Hr as <-.
  rewrite E, E'. by destruct Hp as [->|[_ [t ->]]].
Qed.

Lemma Admit_recorded verifier entropy between s now1 now2 proof request au receipt :
  recorded s.(st_db) au.(aa_value).(at_principal) request receipt →
  Digest_IsZero receipt.(rc_digest) = false → IsZero request.(bi_operationKey) = false →
  s.(st_closed) = false → now1 ≠ zero_time → authenticateAttachmentTx s.(st_db) proof = Ok au →
  Admit verifier entropy between s now1 now2 proof request = (Ok (resultFromReceipt receipt true), s).
Proof.
  intros Hrec Hz Hk Hc Hn Hau. pose proof (recorded_replays _ _ _ _ Hrec Hz) as Hrep.
  destruct Hrec as (Hok & _ & _ & Ed & _). unfold Admit. rewrite Hk.
  assert (Digest_IsZero (bi_digest request) = false) as ->.
  { rewrite <- Ed. apply (rok_request _ Hok). }
  unfold guarded at 1. cbn [orb fail_if]. unfold preflightAdmission, preflightAdmissionTx, requireOpen.
  rewrite trustedNow_nonzero, Hc by done. cbn [fail_if mbind result_bind]. rewrite Hau.
  cbn [mbind result_bind]. rewrite Hrep. done.
Qed.
