(* ===== verification/Exchange.v ===== *)
(** The peer exchange of the daemon (internal/daemon/exchange.go): the runtime
    built from enrolled routes, the callbacks it gives the peer server, and the
    pass over pending deliveries.

    A host is the part of a world [W] that holds its Store; what the exchange
    takes from outside (connections, Artifact bytes, clock, entropy, the calls
    other goroutines make in between) is the record [ExchangeEnv].  Context
    cancellation is left out. *)

From Stdlib Require Import Lia.
From S2P Require Import Prelude Utf8 Json Wire Sha256 Time StoreTime Value Intent Bound Event Peer.
From S2P Require Import View AgentView Bind Store EventStore Attach Routes Inbox Outbox.
From S2P Require Import Domain Admission PeerAdmission Base64 Compact Frame Link Io.

#[local] Open Scope Z_scope.

(** ** Configuration *)

Definition ns_per_millisecond : Z := 1000000.
Definition defaultExchangeInterval : Z := ns_per_second.
Definition minimumExchangeInterval : Z := 10 * ns_per_millisecond.
Definition maximumExchangeInterval : Z := 60 * ns_per_second.
Definition defaultExchangeBatch : Z := 8.
Definition maximumExchangeBatch : Z := 8.
Definition maxExchangeRoutes : Z := 8.
Definition peerIdentityDomain : string := "mnemon.r7.peer-identity.v1".

Record ExchangeOptions := { xo_ListenAddress : string; xo_PollInterval : Z; xo_BatchSize : Z }.

Record exchangeRuntime := {
  xr_identity : localIdentity;
  xr_peers : list LinkPeer;
  xr_peersByID : gmap string LinkPeer;
  xr_listenAddress : string;
  xr_pollInterval : Z;
  xr_batchSize : Z;
}.

Definition validateExchangeBounds (interval batch : Z) : result (Z * Z) :=
  let interval := if interval =? 0 then defaultExchangeInterval else interval in
  _ ← fail_if ((interval <? minimumExchangeInterval) || (maximumExchangeInterval <? interval))
        (Errorf "daemon exchange: poll interval is outside the supported bound");
  let batch := if batch =? 0 then defaultExchangeBatch else batch in
  _ ← fail_if ((batch <? 1) || (maximumExchangeBatch <? batch))
        (Errorf "daemon exchange: batch size is outside the supported bound");
  Ok (interval, batch).

Definition derivePeerIdentity (publicKey : string) : result OpaqueHandle :=
  _ ← fail_if (negb (slen publicKey =? PublicKeySize))
        (Errorf "derive peer identity: invalid Ed25519 public key");
  NewOpaqueHandle ("peer:" +:+ hex_encode (Sum (peerIdentityDomain +:+ String "000" publicKey))).

(** One route added to the transport peers. *)
Definition add_transport_peer (local : localIdentity) (acc : list LinkPeer * gmap string LinkPeer)
    (route : PeerRouteProjection) : result (list LinkPeer * gmap string LinkPeer) :=
  let '(peers, byID) := acc in
  if negb route.(pr_active) then Ok acc else
  _ ← fail_if (maxExchangeRoutes <=? lenZ peers) (Errorf "daemon exchange: active route bound exceeded");
  let key := pr_remotePublicKey route in
  let underived := Errorf "daemon exchange: route Peer identity is not derived from its key" in
  derived ← or_error (derivePeerIdentity key) underived;
  _ ← fail_if (negb (bool_decide (derived = pr_remotePeerID route))) underived;
  _ ← fail_if (bool_decide (derived = local.(li_id)) || bool_decide (key = local.(li_publicKey)))
        (Errorf "daemon exchange: route cannot target the local identity");
  _ ← fail_if (is_some (byID !! derived)) (Errorf "daemon exchange: duplicate active Peer identity");
  let peer := {| lp_ID := derived; lp_PublicKey := key;
                 lp_Address := route.(pr_spec).(prs_TransportAddress) |} in
  Ok (peers ++ [peer], <[derived := peer]> byID).

Definition activeTransportPeers (routes : list PeerRouteProjection) (local : localIdentity)
    : result (list LinkPeer * gmap string LinkPeer) :=
  '(peers, byID) ← foldR (add_transport_peer local) ([], ∅) routes;
  _ ← fail_if (lenZ peers =? 0) (Errorf "daemon exchange: at least one active route is required");
  Ok (peers, byID).

(** The identity document is read from a file: [identity] is what it holds. *)
Definition newExchangeRuntime (s : Store) (identity : localIdentity) (options : ExchangeOptions)
    : result exchangeRuntime :=
  _ ← fail_if (is_empty options.(xo_ListenAddress))
        (Errorf "daemon exchange: complete owner configuration is required");
  '(interval, batch) ← validateExchangeBounds options.(xo_PollInterval) options.(xo_BatchSize);
  routes ← wrap_error "daemon exchange: load routes" (PeerRoutes s);
  '(peers, byID) ← activeTransportPeers routes identity;
  Ok {| xr_identity := identity; xr_peers := peers; xr_peersByID := byID;
        xr_listenAddress := options.(xo_ListenAddress); xr_pollInterval := interval;
        xr_batchSize := batch |}.

(** ** Hosts and their environment *)

Record Host (W : Type) := { h_store : W → Store; h_put : W → Store → W }.
Arguments h_store {_}.
Arguments h_put {_}.

Record ExchangeEnv (W : Type) := {
  xe_link : LinkEnv W;
  (** [artifact.Store.Read] of the host's objects. *)
  xe_read : W → Digest → result string;
  xe_now : W → Time;
  (** What runs between two calls of this goroutine. *)
  xe_others : W → W;
  (** Inside [AdmitPeerDelivery]: other calls, the second clock reading, entropy
      and the Artifact verifier the Store was opened with. *)
  xe_between : W → Store → Store;
  xe_later : W → Time;
  xe_entropy : W → nat → string;
  xe_verifier : W → option (Digest → Z → bool);
}.
Arguments xe_link {_}.
Arguments xe_read {_}.
Arguments xe_now {_}.
Arguments xe_others {_}.
Arguments xe_between {_}.
Arguments xe_later {_}.
Arguments xe_entropy {_}.
Arguments xe_verifier {_}.

Definition ErrNotExist : error := Sentinel "file does not exist".
Definition errRemoteArtifactUnavailable : error := Sentinel "daemon exchange: remote Artifact unavailable".

Section exchange.
Context {W : Type} (host : Host W) (env : ExchangeEnv W).
Context (ed25519_sign : string → string → string) (ed25519_verify : string → string → string → bool).
Context (runtime : exchangeRuntime).

(** One call on the host's Store. *)
Definition call {A} (f : W → Store → result A * Store) : io W A := λ w,
  let w := env.(xe_others) w in
  let '(r, s) := f w (host.(h_store) w) in (r, host.(h_put) w s).

(** ** Receiving *)

Definition PeerAdmissionResult_Receipt (admission : PeerAdmissionResult)
    : option PeerAdmissionReceipt * bool :=
  (admission.(pa_receipt), bool_decide (admission.(pa_state) = PeerAdmissionStateAccepted) ||
                           bool_decide (admission.(pa_state) = PeerAdmissionStateRejected)).

(** [None] when the result carries no Receipt. *)
Definition peerAdmissionResponse (admission : PeerAdmissionResult) : option (result DeliveryResponse) :=
  let '(receipt, present) := PeerAdmissionResult_Receipt admission in
  if present then Some (NewAdmissionResponse receipt) else None.

Definition authenticatedDestination (peer : AuthenticatedPeer) : result LinkPeer :=
  let changed := Errorf "daemon exchange: authenticated Peer route changed" in
  destination ← of_option (runtime.(xr_peersByID) !! peer.(aup_id)) changed;
  _ ← fail_if (negb (bool_decide (destination.(lp_PublicKey) = peer.(aup_publicKey)))) changed;
  Ok destination.

Definition remote_failure (e : error) : error :=
  if errors_is e ErrTransport || errors_is e ErrAuthentication || errors_is e ErrFrame
  then Wrapped "pull" errRemoteArtifactUnavailable else e.

(** The bytes of one Artifact, pulled when the host has none. *)
Definition pull_content (destination : LinkPeer) (delivery : PeerDelivery) (digest : Digest)
    : io W string := λ w,
  match env.(xe_read) w digest with
  | Ok content => (Ok content, w)
  | Err e =>
      if negb (errors_is e ErrNotExist) then (Err (Wrapped "daemon exchange: read local Artifact" e), w) else
      let '(pulled, w) := PullArtifact env.(xe_link) runtime.(xr_identity) w destination delivery digest in
      match pulled with
      | Err e => (Err (remote_failure e), w)
      | Ok _ => (wrap_error "daemon exchange: read pulled Artifact" (env.(xe_read) w digest), w)
      end
  end.

Definition catalog_pulled (destination : LinkPeer) (delivery : PeerDelivery) (digest : Digest)
    : io W () :=
  content ← pull_content destination delivery digest;
  run (λ w,
    let diverged := Errorf "daemon exchange: pulled Artifact verification diverged" in
    match (verified ← or_error (VerifyArtifact content (env.(xe_now) w)) diverged;
           _ ← fail_if (negb (bool_decide (verified.(vf_digest) = digest))) diverged; Ok verified) with
    | Err e => (Err e, w)
    | Ok verified =>
        let '(r, w) := call (λ _ s, CatalogArtifact s verified) w in
        (wrap_error "daemon exchange: catalog Artifact" r, w)
    end).

Definition pullAndCatalog (destination : LinkPeer) (delivery : PeerDelivery) : io W () :=
  each (catalog_pulled destination delivery) delivery.(pd_artifacts).

(** A staged delivery: pull, then admit. *)
Definition admit_staged (peer : AuthenticatedPeer) (offer : DeliveryOffer) (delivery : PeerDelivery)
    : io W DeliveryResponse :=
  destination ← lift (authenticatedDestination peer);
  run (λ w,
    let '(pulled, w) := pullAndCatalog destination delivery w in
    match pulled with
    | Err e => if errors_is e errRemoteArtifactUnavailable then (Ok NewTransportACK, w) else (Err e, w)
    | Ok _ =>
        (result ← call (λ w s, AdmitPeerDelivery ed25519_verify (env.(xe_verifier) w) (env.(xe_entropy) w)
                     (env.(xe_between) w) s (env.(xe_now) w) (env.(xe_later) w) offer.(do_deliveryID));
         lift (default (Ok NewTransportACK) (peerAdmissionResponse result))) w
    end).

Definition receiveDelivery (peer : AuthenticatedPeer) (offer : DeliveryOffer) : io W DeliveryResponse :=
  result ← call (λ w s, StagePeerDelivery ed25519_verify s (env.(xe_now) w) peer.(aup_id)
                          offer.(do_canonical) offer.(do_signature));
  match peerAdmissionResponse result with
  | Some response => lift response
  | None =>
      if negb (bool_decide (result.(pa_state) = PeerAdmissionStateStaged)) then mret NewTransportACK
      else admit_staged peer offer result.(pa_delivery)
  end.

Definition exchange_authorizeArtifact (peer : AuthenticatedPeer) (request : ArtifactRequest)
    : io W bool :=
  call (λ w s, (AuthorizePeerArtifact s (env.(xe_now) w) peer.(aup_id) request.(arq_deliveryID)
                  request.(arq_envelopeDigest) request.(arq_objectDigest), s)).

(** A connection accepted by the host's server. *)
Definition serve (w : W) (client : AuthenticatedPeer) (input : string) : string * W :=
  handle ed25519_sign runtime.(xr_identity).(li_privateKey) (λ w peer offer, receiveDelivery peer offer w)
    (λ w peer request, exchange_authorizeArtifact peer request w) env.(xe_read) w client input.

(** ** Sending *)

Definition peerForRoute (route : PeerRouteProjection) : result LinkPeer :=
  let changed := Errorf "daemon exchange: pending delivery route changed" in
  peer ← of_option (runtime.(xr_peersByID) !! pr_remotePeerID route) changed;
  _ ← fail_if (negb route.(pr_active) ||
               negb (bool_decide (peer.(lp_Address) = route.(pr_spec).(prs_TransportAddress))) ||
               negb (bool_decide (peer.(lp_PublicKey) = pr_remotePublicKey route))) changed;
  Ok peer.

(** A signed Receipt is settled; an expired delivery is not a failure. *)
Definition settle_response (destination : LinkPeer) (delivery : PeerDelivery) (response : DeliveryResponse)
    : io W () :=
  receipt ← lift (of_option (DeliveryResponse_AdmissionReceipt response)
                    (Errorf "daemon exchange: peer returned an invalid response state"));
  run (λ w,
    let '(settled, w) := call (λ w s, SettlePeerDelivery ed25519_verify s (env.(xe_now) w) destination.(lp_ID)
      delivery.(pd_id) receipt.(par_canonical) response.(dr_signature)) w in
    match settled with
    | Ok _ => (Ok (), w)
    | Err e => if errors_is e ErrPeerDeliveryExpired then (Ok (), w)
               else (Err (Wrapped "daemon exchange: settle delivery" e), w)
    end).

Definition deliver_item (item : PendingPeerDelivery) : io W () :=
  destination ← lift (peerForRoute item.(pp_route));
  run (λ w,
    let '(response, w) := SendDelivery env.(xe_link) ed25519_sign ed25519_verify runtime.(xr_identity) w
      destination item.(pp_pending) in
    match response with
    | Err _ => (Ok (), w)
    | Ok response =>
        if response.(dr_transportACK) then (Ok (), w)
        else settle_response destination item.(pp_pending) response w
    end).

Definition deliverPending : io W () :=
  pending ← call (λ w s, PendingPeerDeliveries s (env.(xe_now) w) runtime.(xr_batchSize));
  each deliver_item pending.
End exchange.
