(* ===== verification/Agreement.v ===== *)
(** The Receipts the inbox reports: every Receipt that staging or admission
    returns is well formed and is the one the inbox row records.

    Two hosts and one link (daemon/exchange.go over peerlink and the Store): what
    an exchange does to a world that holds both, and that the Receipts a sender
    settles are the Receipts its receiver recorded. *)

From Stdlib Require Import Lia.
From S2P Require Import Prelude Utf8 Json Wire Sha256 Time StoreTime Value Intent Bound Event Peer View AgentView Bind.
From S2P Require Import Store EventStore Attach Routes Inbox Outbox Domain Admission PeerAdmission Current History.
From S2P Require Import Frames Invariant PeerInv Replies Effects PeerSteps Calls Frame Link Io Exchange.

#[local] Open Scope Z_scope.

(** The settled row of the Receipt's delivery holds the Receipt's bytes. *)
Definition receipt_recorded (d : db) (r : PeerAdmissionReceipt) : Prop :=
  ∃ row, d.(peer_inbox) !! DeliveryID_String r.(par_deliveryID) = Some row ∧ row.(ir_state) = InboxSettled ∧
    row.(ir_receipt) = Some r.(par_canonical) ∧
    row.(ir_envelope_digest) = Digest_String r.(par_envelopeDigest).

(** A result whose Receipt, if any, is recorded. *)
Definition result_recorded (d : db) (x : PeerAdmissionResult) : Prop :=
  ∀ r, x.(pa_receipt) = Some r → admission_receipt_ok r ∧ receipt_recorded d r.

Lemma result_recorded_none d x : x.(pa_receipt) = None → result_recorded d x.
Proof. intros E r. by rewrite E. Qed.

Lemma result_recorded_replay d x : result_recorded d x → result_recorded d (as_replay x).
Proof. done. Qed.

(** What a Receipt says of the delivery it answers. *)
Definition answers_delivery (delivery : PeerDelivery) (r : PeerAdmissionReceipt) : Prop :=
  r.(par_deliveryID) = delivery.(pd_id) ∧ r.(par_envelopeDigest) = delivery.(pd_envelopeDigest).

Lemma binding_answers r delivery :
  requirePeerAdmissionReceiptBinding r delivery = Ok () → answers_delivery delivery r.
Proof.
  unfold requirePeerAdmissionReceiptBinding. intros H. apply bind_Ok in H as ([] & H & _).
  apply fail_if_Ok, orb_false_iff in H as [H1%negb_false_iff%bool_decide_eq_true
    H2%negb_false_iff%bool_decide_eq_true]. done.
Qed.

Lemma new_receipt_answers delivery outcome event code diagnostic t r :
  newPeerAdmissionReceipt delivery outcome event code diagnostic t = Ok r → answers_delivery delivery r.
Proof. intros (_ & _ & -> & _)%newPeerAdmissionReceipt_Ok. done. Qed.

Lemma accepted_receipt_answers delivery event t r :
  NewAcceptedPeerAdmissionReceipt delivery event t = Ok r → answers_delivery delivery r.
Proof.
  unfold NewAcceptedPeerAdmissionReceipt. intros H. do 2 apply bind_Ok in H as ([] & _ & H).
  by eapply new_receipt_answers.
Qed.

Lemma rejected_receipt_answers delivery code diagnostic t r :
  NewRejectedPeerAdmissionReceipt delivery code diagnostic t = Ok r → answers_delivery delivery r.
Proof.
  unfold NewRejectedPeerAdmissionReceipt. intros H. do 2 apply bind_Ok in H as ([] & _ & H).
  by eapply new_receipt_answers.
Qed.

Lemma parsed_digests_ok data route p :
  ParsePeerDeliveryCanonicalJSON data route = Ok p → delivery_digests_ok p.(pp_delivery).
Proof. intros H%ParsePeerDeliveryCanonicalJSON_ok. by eapply delivery_ok_digests. Qed.

(** ** Reading *)

(** The stored row behind a result. *)
Lemma peerInboxResultTx_row d id x :
  peerInboxResultTx d id = Ok (Some x) →
  ∃ row, d.(peer_inbox) !! DeliveryID_String id = Some row ∧ x.(pa_delivery).(pd_id) = id ∧
    row.(ir_envelope_digest) = Digest_String x.(pa_delivery).(pd_envelopeDigest) ∧
    delivery_digests_ok x.(pa_delivery) ∧ parsePeerInboxStateTx d x.(pa_delivery) row = Ok x.
Proof.
  unfold peerInboxResultTx. destruct (_ !! _) as [row|] eqn:E; [|done]. intros H.
  apply bind_Ok in H as (route & _ & H). cbv zeta in H.
  apply bind_Ok in H as (parsed & Hp%or_error_Ok & H). apply bind_Ok in H as ([] & Hid & H).
  apply bind_Ok in H as ([] & _ & H). apply bind_Ok in H as (t & _ & H). apply bind_Ok in H as ([] & _ & H).
  apply bind_Ok in H as (r & Hr & [= ->]). apply parsed_digests_ok in Hp.
  apply fail_if_Ok, orb_false_iff in Hid as [H1%negb_false_iff%bool_decide_eq_true
    H2%negb_false_iff%bool_decide_eq_true].
  assert (x.(pa_delivery) = parsed.(pp_delivery)) as ->.
  { revert Hr. unfold parsePeerInboxStateTx. cbv zeta. destruct (ir_state row); intros Hr; inv_tx; done. }
  exists row. by split_and!.
Qed.

Lemma peerInboxResultTx_recorded d id x : peerInboxResultTx d id = Ok (Some x) → result_recorded d x.
Proof.
  intros (row & Hrow & Hid & Henv & _ & Hst)%peerInboxResultTx_row r Hr.
  unfold parsePeerInboxStateTx in Hst. cbv zeta in Hst. destruct (ir_state row) eqn:Es.
  - apply bind_Ok in Hst as ([] & _ & Hst). apply (inj Ok) in Hst. by rewrite <- Hst in Hr.
  - apply bind_Ok in Hst as (receipt & Hp%or_error_Ok & Hst). apply bind_Ok in Hst as ([] & _ & Hst).
    apply bind_Ok in Hst as ([] & _ & Hst). apply (inj Ok) in Hst. rewrite <- Hst in Hr.
    cbn [pa_receipt admission_result] in Hr. injection Hr as ->.
    apply ParsePeerAdmissionReceiptCanonicalJSON_Ok in Hp as (Hok & Hc & [E1 E2]%binding_answers).
    split; [done|]. exists row. rewrite E1, E2, Hid. split_and!; try done.
    destruct (ir_receipt row) as [c|]; cbn in Hc; [by rewrite Hc|].
    exfalso. pose proof (aro_canonical _ Hok) as Hcan. rewrite Hc in Hcan. symmetry in Hcan. revert Hcan.
    apply marshal_nonempty, enc_wf. by apply admission_receipt_wire_ok.
  - apply bind_Ok in Hst as ([] & _ & Hst). apply (inj Ok) in Hst. by rewrite <- Hst in Hr.
Qed.

(** ** Writing *)

Lemma settle_recorded d delivery row event r now d' :
  row.(ir_envelope_digest) = Digest_String delivery.(pd_envelopeDigest) → answers_delivery delivery r →
  write_inbox d (DeliveryID_String delivery.(pd_id)) (settle_row row event r now) = Ok d' → receipt_recorded d' r.
Proof.
  intros Henv [E1 E2] (-> & _)%write_inbox_Ok. exists (settle_row row event r now). db_simpl.
  rewrite E1, lookup_insert_eq, E2. done.
Qed.

Lemma settleRejectedPeerInboxTx_recorded d delivery code diagnostic now x d' :
  delivery_digests_ok delivery →
  (∀ row, staged_inbox d delivery.(pd_id) = Some row →
     row.(ir_envelope_digest) = Digest_String delivery.(pd_envelopeDigest)) →
  settleRejectedPeerInboxTx d delivery code diagnostic now = Ok (x, d') → result_recorded d' x.
Proof.
  intros Hd Hrow H. unfold settleRejectedPeerInboxTx in H.
  apply bind_Ok in H as (label & [-> Hl]%NewSemanticLabel_Ok & H). apply bind_Ok in H as (r & Hr & H).
  apply bind_Ok in H as (row & Hst%of_option_Ok & H). apply bind_Ok in H as (d1 & Hw%wrap_error_Ok & [= <- <-]).
  intros r' [= <-]. split; [by eapply NewRejectedPeerAdmissionReceipt_ok|].
  eapply settle_recorded; [by apply Hrow|by eapply rejected_receipt_answers|exact Hw].
Qed.

Lemma stageFreshPeerDeliveryTx_recorded d route delivery signature now x d' :
  delivery_digests_ok delivery →
  stageFreshPeerDeliveryTx d route delivery signature now = Ok (x, d') → result_recorded d' x.
Proof.
  intros Hd H. unfold stageFreshPeerDeliveryTx in H. cbv zeta in H. do 2 apply bind_Ok in H as ([] & _ & H).
  destruct (negb _); [|destruct (negb _)].
  - unfold insertRejectedPeerInboxTx in H. apply bind_Ok in H as (label & [-> Hl]%NewSemanticLabel_Ok & H).
    apply bind_Ok in H as (r & Hr & H). apply bind_Ok in H as (d1 & Hw%wrap_error_Ok & [= <- <-]).
    intros r' [= <-]. split; [by eapply NewRejectedPeerAdmissionReceipt_ok|].
    apply insert_inbox_Ok in Hw as (-> & _). apply rejected_receipt_answers in Hr as [E1 E2].
    eexists. db_simpl. rewrite E1, lookup_insert_eq, E2. done.
  - unfold insertExpiredPeerInboxTx in H. apply bind_Ok in H as (d1 & _ & [= <- <-]). done.
  - apply bind_Ok in H as (d1 & _ & [= <- <-]). done.
Qed.

(** ** Transactions *)

Lemma stagePeerDeliveryTx_recorded verify peer canonical signature now d x d' :
  stagePeerDeliveryTx verify peer canonical signature now d = Ok (x, d') → result_recorded d' x.
Proof.
  unfold stagePeerDeliveryTx. intros H. apply bind_Ok in H as (found & _ & H).
  apply bind_Ok in H as (route & _ & H). apply bind_Ok in H as (parsed & Hp%or_error_Ok & H). cbv zeta in H.
  apply bind_Ok in H as ([] & _ & H). apply parsed_digests_ok in Hp.
  apply bind_Ok in H as ([existing|] & Hex & H); [|by eapply stageFreshPeerDeliveryTx_recorded].
  unfold replayPeerInboxTx in H. apply bind_Ok in H as ([] & _ & H). destruct (_ && _).
  - unfold expirePeerInboxTx in H. apply bind_Ok in H as (row & _ & H).
    apply bind_Ok in H as (d1 & _ & [= <- <-]). done.
  - injection H as <- <-. apply result_recorded_replay. by eapply peerInboxResultTx_recorded.
Qed.

Lemma preflightPeerAdmissionTx_recorded id now d x d' :
  preflightPeerAdmissionTx id now d = Ok (PeerPreflightDone x, d') → result_recorded d' x.
Proof.
  unfold preflightPeerAdmissionTx. cbv zeta. intros H. apply bind_Ok in H as (found & Hf & H).
  apply bind_Ok in H as (r & ->%of_option_Ok & H). apply peerInboxResultTx_recorded in Hf. destruct (negb _).
  - injection H as <- <-. by apply result_recorded_replay.
  - destruct (artifactChecksTx _ _); [done|]. destruct (errors_is _ _); [|done]. by injection H as <- <-.
Qed.

Lemma preparePeerAdmissionTx_recorded verify d id checks now x d' :
  preparePeerAdmissionTx verify d id checks now = Ok (PreparedDone x, d') → result_recorded d' x.
Proof.
  unfold preparePeerAdmissionTx. intros H. apply bind_Ok in H as (found & Hf & H).
  apply bind_Ok in H as (r & ->%of_option_Ok & H). pose proof (peerInboxResultTx_recorded _ _ _ Hf) as Hrec.
  destruct (negb _); [injection H as <- <-; by apply result_recorded_replay|].
  apply peerInboxResultTx_row in Hf as (row & Hrow & Hid & Henv & Hdig & _).
  assert (∀ row', staged_inbox d r.(pa_delivery).(pd_id) = Some row' →
    row'.(ir_envelope_digest) = Digest_String r.(pa_delivery).(pd_envelopeDigest)) as Hst.
  { intros row' (Hr & _)%staged_inbox_Some. rewrite Hid, Hrow in Hr. by injection Hr as <-. }
  unfold prepareStagedTx in H. cbv zeta in H. apply bind_Ok in H as (found & _ & H).
  apply bind_Ok in H as (route & _ & H). destruct (negb (pr_active route)).
  { apply bind_Ok in H as ([y d1] & Hs & [= <- <-]). by eapply settleRejectedPeerInboxTx_recorded. }
  destruct (negb _).
  { apply bind_Ok in H as ([y d1] & Hs & [= <- <-]). unfold expirePeerInboxTx in Hs.
    apply bind_Ok in Hs as (? & _ & Hs). by apply bind_Ok in Hs as (? & _ & [= <- _]). }
  apply bind_Ok in H as ([latest|] & _ & H); [|by injection H as <- <-].
  apply bind_Ok in H as (verified & _ & H). destruct (RequiresTerminalReplyMatch _); [|done].
  apply bind_Ok in H as ([m|] & _ & H); [done|].
  apply bind_Ok in H as ([y d1] & Hs & [= <- <-]). by eapply settleRejectedPeerInboxTx_recorded.
Qed.

Lemma peer_event_ref verified stamp consequence targets e :
  handle_ok stamp.(es_ID) = true → NewPeerEvent verified stamp consequence targets = Ok e →
  EventRef_IsZero (Event_Ref e) = false → ref_ok (Event_Ref e).
Proof.
  intros Hid H Hz. pose proof (NewPeerEvent_stamp _ _ _ _ _ H) as (Ei & _).
  unfold NewPeerEvent in H. cbv zeta in H. apply bind_Ok in H as ([? ?] & _ & H).
  do 2 apply bind_Ok in H as ([] & _ & H). do 2 apply bind_Ok in H as (? & _ & H).
  do 2 apply bind_Ok in H as ([] & _ & H). apply sealEvent_Ok in H. unfold EventRef_IsZero in Hz.
  apply orb_false_iff in Hz as [_ Hz]. cbn [Event_Ref er_digest er_id] in *.
  split; cbn [Event_Ref er_id er_digest]; [by rewrite Ei|]. split; [|done]. rewrite H. apply Sum_wf.
Qed.

Lemma commitPeerAdmissionTx_recorded verify id checks eid ids now d x d' :
  handle_ok eid = true →
  commitPeerAdmissionTx verify id checks eid ids now d = Ok (x, d') → result_recorded d' x.
Proof.
  intros Heid ([y|prep] & d1 & Hp & H)%commitPeerAdmissionTx_Ok.
  { destruct H as (-> & -> & _). by eapply preparePeerAdmissionTx_recorded. }
  destruct H as [-> H]. destruct (preparePeerAdmissionTx_commit _ _ _ _ _ _ _ Hp) as (row & route & Hadm).
  unfold preparePeerAdmissionTx in Hp. apply bind_Ok in Hp as (found & Hf & Hp).
  apply bind_Ok in Hp as (r & ->%of_option_Ok & Hp). destruct (negb _); [done|].
  apply peerInboxResultTx_row in Hf as (row' & Hrow' & Hid & Henv & Hdig & _).
  assert (prep.(pp_result) = r) as E.
  { unfold prepareStagedTx in Hp. cbv zeta in Hp. inv_tx; done. }
  apply commitAcceptedPeerAdmissionTx_Ok in H as (eff & e & d2 & receipt & row2 & _ & H2 & Hr & Hst & Hw & ->).
  rewrite E in *. intros r' [= <-].
  pose proof (commitDomainAdmissionTx_changes _ _ _ _ _ _ _ H2 TInbox eq_refl) as Ein. cbn in Ein.
  apply staged_inbox_Some in Hst as [Hst _]. rewrite Ein, Hid, Hrow' in Hst. injection Hst as <-.
  split; [|by eapply settle_recorded; [exact Henv|eapply accepted_receipt_answers|]].
  eapply NewAcceptedPeerAdmissionReceipt_ok; [exact Hdig| |exact Hr].
  apply commitDomainAdmissionTx_Ok in H2 as (a & d3 & d4 & He & _). unfold newDomainEventTx in He.
  cbn [peerDomainAdmission] in He. apply bind_Ok in He as ([n d5] & _ & He).
  apply bind_Ok in He as (e' & He%wrap_error_Ok & [= -> _ _]). eapply peer_event_ref; [|exact He|]; [done|].
  unfold NewAcceptedPeerAdmissionReceipt in Hr. apply bind_Ok in Hr as ([] & Hz & _). by apply fail_if_Ok in Hz.
Qed.

(** ** Receipts through the Store's methods *)

Lemma StagePeerDelivery_recorded verify s now peer canonical signature x :
  fst (StagePeerDelivery verify s now peer canonical signature) = Ok x →
  result_recorded (snd (StagePeerDelivery verify s now peer canonical signature)).(st_db) x.
Proof. intros (_ & _ & H)%StagePeerDelivery_Ok. by eapply stagePeerDeliveryTx_recorded. Qed.

Lemma preflightPeerAdmission_Ok s now id r s' :
  preflightPeerAdmission s now id = (Ok r, s') → preflightPeerAdmissionTx id now s.(st_db) = Ok (r, s'.(st_db)).
Proof.
  intros E. assert (fst (preflightPeerAdmission s now id) = Ok r) as H by by rewrite E.
  assert (snd (preflightPeerAdmission s now id) = s') as <- by by rewrite E. clear E.
  unfold preflightPeerAdmission in *. pose proof (guarded_Ok _ _ _ _ H) as ([] & _ & E). rewrite E in *.
  apply transact_Ok in H as (_ & Hb & _). apply bind_Ok in Hb as (t & Ht & Hb).
  by apply trustedNow_Ok in Ht as [-> _].
Qed.

Lemma commitPeerAdmission_recorded verify entropy s now id checks ids x :
  fst (commitPeerAdmission verify entropy s now id checks ids) = Ok x →
  result_recorded (snd (commitPeerAdmission verify entropy s now id checks ids)).(st_db) x.
Proof.
  unfold commitPeerAdmission. intros H. pose proof (guarded_Ok _ _ _ _ H) as (eid & Heid & E). rewrite E in *.
  apply newIdentifier_Ok in Heid as [-> Heid]. apply transact_Ok in H as (_ & Hb & _).
  apply bind_Ok in Hb as (t & _ & Hb). by eapply commitPeerAdmissionTx_recorded.
Qed.

Lemma AdmitPeerDelivery_recorded verify verifier entropy between s now1 now2 id x :
  fst (AdmitPeerDelivery verify verifier entropy between s now1 now2 id) = Ok x →
  result_recorded (snd (AdmitPeerDelivery verify verifier entropy between s now1 now2 id)).(st_db) x.
Proof.
  unfold AdmitPeerDelivery. destruct (preflightPeerAdmission s now1 id) as [[[r|checks staged]|e] s1] eqn:Hp; [| |done].
  - cbn [fst snd]. intros [= ->]. apply preflightPeerAdmission_Ok in Hp.
    by eapply preflightPeerAdmissionTx_recorded.
  - unfold guarded. destruct (fail_if _ _); [|done]. destruct (newHandlingIDs _); [|done].
    apply commitPeerAdmission_recorded.
Qed.

(** ** One host *)

Section host.
Context {W : Type} (host : Host W) (env : ExchangeEnv W).
Context (sign : string → string → string) (verify : string → string → string → bool).
Context (runtime : exchangeRuntime).
Hypothesis store_put : ∀ w s, host.(h_store) (host.(h_put) w s) = s.

Lemma call_inv {A} (f : W → Store → result A * Store) w r w' :
  call host env f w = (r, w') →
  let w0 := env.(xe_others) w in
  fst (f w0 (host.(h_store) w0)) = r ∧ w' = host.(h_put) w0 (snd (f w0 (host.(h_store) w0))).
Proof. unfold call. cbv zeta. destruct (f _ _) as [r0 s0]. by intros [= <- <-]. Qed.

(** The response for an admission result answers with that result's Receipt. *)
Lemma peerAdmissionResponse_answers d x answer :
  result_recorded d x → peerAdmissionResponse x = Some answer →
  answers answer ∧
  ∀ response r, answer = Ok response → response.(dr_receipt) = Some r → receipt_recorded d r.
Proof.
  unfold peerAdmissionResponse, PeerAdmissionResult_Receipt, NewAdmissionResponse. intros Hx.
  destruct (_ || _); [|done]. intros [= <-].
  destruct (completeReceipt (pa_receipt x)) eqn:Hc; cbn [negb fail_if mbind result_bind]; [|done].
  destruct (pa_receipt x) as [r|] eqn:Hr; [|done]. destruct (Hx r Hr) as [Hok Hrec]. split.
  - right. by exists r.
  - intros response r' [= <-] [= <-]. done.
Qed.

Lemma ack_answers : answers (Ok NewTransportACK).
Proof. by left. Qed.

(** Whatever [receiveDelivery] answers, a Receipt in it is recorded. *)
Lemma receiveDelivery_recorded peer offer w answer w' :
  receiveDelivery host env verify runtime peer offer w = (answer, w') →
  answers answer ∧
  ∀ response r, answer = Ok response → response.(dr_receipt) = Some r →
    receipt_recorded (host.(h_store) w').(st_db) r.
Proof.
  unfold receiveDelivery, mbind, io_bind.
  destruct (call _ _ _ w) as [[x|e] w1] eqn:Hs; [|by intros [= <- <-]].
  apply call_inv in Hs as [Hx Ew1]. apply StagePeerDelivery_recorded in Hx.
  destruct (peerAdmissionResponse x) as [response|] eqn:Hresp.
  { intros [= <- <-]. rewrite Ew1, store_put. by eapply peerAdmissionResponse_answers. }
  destruct (negb _); [intros [= <- <-]; by split; [apply ack_answers|intros ? ? [= <-]]|].
  unfold admit_staged, mbind, io_bind, lift, run.
  destruct (authenticatedDestination _ _) as [destination|e]; [|by intros [= <- <-]].
  destruct (pullAndCatalog _ _ _ _ _ w1) as [[[]|e] w2].
  - destruct (call _ _ _ w2) as [[y|e] w3] eqn:Ha; [|by intros [= <- <-]].
    apply call_inv in Ha as [Hy Ew3]. apply AdmitPeerDelivery_recorded in Hy. intros [= <- <-].
    destruct (peerAdmissionResponse y) as [response|] eqn:Hresp'; cbn [default].
    + rewrite Ew3, store_put. by eapply peerAdmissionResponse_answers.
    + split; [apply ack_answers|by intros ? ? [= <-]].
  - destruct (errors_is _ _); intros [= <- <-]; [|done]. split; [apply ack_answers|by intros ? ? [= <-]].
Qed.
End host.

(** ** How a world evolves *)

(** Every step an exchange takes from outside, and every call on its Store, moves
    the world along [R]. *)
Record evolves {W} (host : Host W) (env : ExchangeEnv W) (verify : string → string → string → bool)
    (R : relation W) : Prop := {
  ev_others : ∀ w, R w (env.(xe_others) w);
  ev_dial : ∀ w peer bytes, R w (snd (env.(xe_link).(le_dial) w peer bytes));
  ev_put : ∀ w digest body, R w (snd (env.(xe_link).(le_put) w digest body));
  ev_between : ∀ w s, rtc (store_step verify) s (env.(xe_between) w s);
  ev_store : ∀ w s, rtc (store_step verify) (host.(h_store) w) s → R w (host.(h_put) w s);
}.

Section evolution.
Context {W : Type} (host : Host W) (env : ExchangeEnv W).
Context (sign : string → string → string) (verify : string → string → string → bool).
Context (runtime : exchangeRuntime) (R : relation W) `{!PreOrder R}.
Hypothesis Hev : evolves host env verify R.

Lemma call_evolves {A} (f : W → Store → result A * Store) w :
  (∀ w s, rtc (store_step verify) s (snd (f w s))) → R w (snd (call host env f w)).
Proof.
  intros Hf. unfold call. destruct (f _ _) as [r s] eqn:E. cbn [snd].
  etrans; [apply (ev_others _ _ _ _ Hev)|]. apply (ev_store _ _ _ _ Hev).
  specialize (Hf (env.(xe_others) w) (host.(h_store) (env.(xe_others) w))). by rewrite E in Hf.
Qed.

Lemma exchange_frames_evolves w peer request : R w (snd (exchange_frames env.(xe_link) w peer request)).
Proof.
  unfold exchange_frames. destruct (session_error _) as [bytes|e]; [|done].
  pose proof (ev_dial _ _ _ _ Hev w peer bytes) as H. by destruct (le_dial _ _ _ _).
Qed.

Lemma PullArtifact_evolves w input d digest :
  R w (snd (PullArtifact env.(xe_link) runtime.(xr_identity) w input d digest)).
Proof.
  unfold PullArtifact. destruct (_ ≫= _) as [[request peer]|e]; [|done].
  pose proof (exchange_frames_evolves w peer request) as H. destruct (exchange_frames _ _ _ _) as [f w1].
  destruct (f ≫= _) as [body|e]; [|done].
  pose proof (ev_put _ _ _ _ Hev w1 digest body) as H'. destruct (le_put _ _ _ _) as [stored w2].
  by etrans.
Qed.

Lemma SendDelivery_evolves w input d :
  R w (snd (SendDelivery env.(xe_link) sign verify runtime.(xr_identity) w input d)).
Proof.
  unfold SendDelivery. destruct (_ ≫= _) as [[request peer]|e]; [|done].
  pose proof (exchange_frames_evolves w peer request) as H. by destruct (exchange_frames _ _ _ _).
Qed.

Lemma catalog_pulled_evolves destination d digest w :
  R w (snd (catalog_pulled host env runtime destination d digest w)).
Proof.
  unfold catalog_pulled, mbind, io_bind, run, pull_content.
  assert (∀ content w0, R w0 (snd
    (match (verified ← or_error (VerifyArtifact content (env.(xe_now) w0))
               (Errorf "daemon exchange: pulled Artifact verification diverged");
            _ ← fail_if (negb (bool_decide (verified.(vf_digest) = digest)))
                  (Errorf "daemon exchange: pulled Artifact verification diverged"); Ok verified) with
     | Err e => (Err e, w0)
     | Ok verified => let '(r, w0) := call host env (λ _ s, CatalogArtifact s verified) w0 in
                      (wrap_error "daemon exchange: catalog Artifact" r, w0)
     end))) as Hcat.
  { intros content w0. destruct (_ ≫= _) as [verified|e]; [|done].
    pose proof (call_evolves (λ _ s, CatalogArtifact s verified) w0) as H.
    destruct (call _ _ _ w0). apply H. intros. apply rtc_once, step_catalog. }
  destruct (xe_read env w digest) as [content|e]; [apply Hcat|].
  destruct (negb (errors_is _ _)); [done|].
  pose proof (PullArtifact_evolves w destination d digest) as Hp.
  destruct (PullArtifact _ _ _ _ _ _) as [[[]|e'] w1]; [|done].
  destruct (xe_read env w1 digest) as [content|e']; cbn [wrap_error]; [|done]. etrans; [exact Hp|apply Hcat].
Qed.

Lemma admit_staged_evolves peer offer d w :
  R w (snd (admit_staged host env verify runtime peer offer d w)).
Proof.
  unfold admit_staged, mbind, io_bind, lift, run.
  destruct (authenticatedDestination _ _) as [destination|e]; [|done].
  pose proof (along_each R (catalog_pulled host env runtime destination d) d.(pd_artifacts)
    (catalog_pulled_evolves destination d) w) as Hp.
  unfold pullAndCatalog. destruct (each _ _ w) as [[[]|e] w1]; [|by destruct (errors_is _ _)].
  etrans; [exact Hp|].
  match goal with |- context [call host env ?f w1] =>
    pose proof (call_evolves f w1) as Hc; destruct (call host env f w1) as [[y|e] w2] end;
    apply Hc; intros; apply AdmitPeerDelivery_steps, (ev_between _ _ _ _ Hev).
Qed.

Lemma receiveDelivery_evolves peer offer w :
  R w (snd (receiveDelivery host env verify runtime peer offer w)).
Proof.
  unfold receiveDelivery, mbind, io_bind.
  match goal with |- context [call host env ?f w] =>
    pose proof (call_evolves f w ltac:(intros; apply rtc_once, step_stage)) as Hc;
    destruct (call host env f w) as [[x|e] w1] end; [|exact Hc].
  destruct (peerAdmissionResponse x); [exact Hc|]. destruct (negb _); [exact Hc|].
  etrans; [exact Hc|apply admit_staged_evolves].
Qed.

(** A served connection, too, only moves the world along. *)
Lemma serve_evolves w client input :
  R w (snd (serve host env sign verify runtime w client input)).
Proof.
  unfold serve, handle. destruct (readFrame input) as [[request rest]|e]; [|done]. unfold respond.
  destruct (bool_decide _).
  - cbv zeta. pose proof (receiveDelivery_evolves client (offer_of request) w) as H.
    destruct (receiveDelivery _ _ _ _ _ _ _) as [answer w1]. by destruct (_ ≫= _).
  - destruct (bool_decide _).
    + cbv zeta. unfold exchange_authorizeArtifact.
      match goal with |- context [call host env ?f w] =>
        pose proof (call_evolves f w ltac:(intros; apply rtc_refl)) as Hc; destruct (call host env f w) as [r w1] end.
      by destruct (_ ≫= _).
    + by cbn.
Qed.
End evolution.

(** ** Two hosts *)

Section hosts.
Context {W : Type} (sender receiver : Host W) (envS envR : ExchangeEnv W).
Context (sign : string → string → string) (verify : string → string → string → bool).
Context (runS runR : exchangeRuntime).
(** The receiver as the sender's route names it, and the sender as the receiver's
    server knows it. *)
Context (peer : LinkPeer) (client : AuthenticatedPeer) (route : string).

(** The two Stores are apart. *)
Record apart : Prop := {
  ap_sender : ∀ w s, sender.(h_store) (sender.(h_put) w s) = s;
  ap_receiver : ∀ w s, receiver.(h_store) (receiver.(h_put) w s) = s;
  ap_keep_receiver : ∀ w s, receiver.(h_store) (sender.(h_put) w s) = receiver.(h_store) w;
  ap_keep_sender : ∀ w s, sender.(h_store) (receiver.(h_put) w s) = sender.(h_store) w;
}.

Definition settled_from (d d' : db) : Prop := ∀ id row,
  d'.(peer_outbox) !! id = Some row → row.(or_state) = OutboxSettled → d.(peer_outbox) !! id = Some row.

(** A world in which the receiver's Store made steps, and the sender's moved
    forward without settling a delivery. *)
Definition calm (w w' : W) : Prop :=
  extends (sender.(h_store) w).(st_db) (sender.(h_store) w').(st_db) ∧
  settled_from (sender.(h_store) w).(st_db) (sender.(h_store) w').(st_db) ∧
  rtc (store_step verify) (receiver.(h_store) w) (receiver.(h_store) w').

#[export] Instance calm_preorder : PreOrder calm.
Proof.
  split.
  - intros w. split_and!; [done| |apply rtc_refl]. by intros id row Hr _.
  - intros w1 w2 w3 (E1 & S1 & R1) (E2 & S2 & R2). split_and!; [by etrans| |by etrans].
    intros id row Hr Hs. apply S1; [|done]. by apply S2.
Qed.

(** The route to the receiver is enrolled, and each delivery settled on it has its
    Receipt in the receiver's inbox, for the same envelope. *)
Record agree (w : W) : Prop := {
  ag_route : ∃ row, (sender.(h_store) w).(st_db).(peer_routes) !! route = Some row ∧
    row.(rr_remote_peer) = peer.(lp_ID);
  ag_settled : ∀ id row, (sender.(h_store) w).(st_db).(peer_outbox) !! id = Some row →
    row.(or_state) = OutboxSettled → row.(or_route) = route →
    ∃ row', (receiver.(h_store) w).(st_db).(peer_inbox) !! id = Some row' ∧
      row'.(ir_state) = InboxSettled ∧ row'.(ir_receipt) = row.(or_receipt) ∧
      row'.(ir_envelope_digest) = row.(or_envelope_digest);
}.

Lemma route_kept d d' row :
  extends d d' → d.(peer_routes) !! route = Some row →
  ∃ row', d'.(peer_routes) !! route = Some row' ∧ row'.(rr_remote_peer) = row.(rr_remote_peer).
Proof.
  intros Hx Hr. destruct (ex_routes _ _ Hx _ _ Hr) as (row' & Hr' & Hp). exists row'. split; [done|].
  by destruct Hp as [->|[_ [t ->]]].
Qed.

Lemma inbox_final d d' id row :
  extends d d' → d.(peer_inbox) !! id = Some row → row.(ir_state) = InboxSettled →
  d'.(peer_inbox) !! id = Some row.
Proof.
  intros Hx Hr Hs. destruct (ex_inbox _ _ Hx _ _ Hr) as (row' & Hr' & Hp).
  destruct Hp as [->|[Hst _]]; [done|congruence].
Qed.

Lemma receipt_recorded_extends d d' r : extends d d' → receipt_recorded d r → receipt_recorded d' r.
Proof. intros Hx (row & Hr & Hs & ?). exists row. split; [by eapply inbox_final|done]. Qed.

Lemma calm_agree w w' : calm w w' → agree w → agree w'.
Proof.
  intros (Hx & Hs & Hr) [(row & Hrow & Hp) Hag]. split.
  - destruct (route_kept _ _ _ Hx Hrow) as (row' & ? & ?). exists row'. split; congruence.
  - intros id orow Ho Hst Hrt. destruct (Hag id orow) as (irow & Hi & Hsi & ?); [by apply Hs|done|done|].
    exists irow. split; [|done]. eapply inbox_final; [by eapply store_steps_extend|done|done].
Qed.

(** What the model takes from outside: other goroutines and connections leave the
    Stores calm, and the connection to [peer] reaches the receiver's server. *)
Record linked : Prop := {
  lk_apart : apart;
  lk_sender_others : ∀ w, calm w (envS.(xe_others) w);
  lk_receiver_others : ∀ w, calm w (envR.(xe_others) w);
  lk_receiver_dial : ∀ w p bytes, calm w (snd (envR.(xe_link).(le_dial) w p bytes));
  lk_receiver_put : ∀ w digest body, calm w (snd (envR.(xe_link).(le_put) w digest body));
  lk_receiver_between : ∀ w s, rtc (store_step verify) s (envR.(xe_between) w s);
  lk_other_peers : ∀ w p bytes, p ≠ peer → calm w (snd (envS.(xe_link).(le_dial) w p bytes));
  lk_served : serves envS.(xe_link) sign runR.(xr_identity).(li_privateKey) client
    (λ w p offer, receiveDelivery receiver envR verify runR p offer w)
    (λ w p request, exchange_authorizeArtifact receiver envR p request w) envR.(xe_read) peer;
  lk_sign : ∀ key message, slen (sign key message) = SignatureSize;
  lk_peer : ∀ k p, runS.(xr_peersByID) !! k = Some p → p.(lp_ID) = peer.(lp_ID) → p = peer;
}.
Hypothesis Hlink : linked.

Lemma receiver_evolves : evolves receiver envR verify calm.
Proof.
  destruct Hlink as [[_ H2 _ H4] _ Ho Hd Hp Hb _ _ _ _]. split; try done. intros w s Hs.
  unfold calm. rewrite H4, H2. split_and!; [done| |done]. by intros id row Hr _.
Qed.

Lemma sender_dial_calm w p bytes : calm w (snd (envS.(xe_link).(le_dial) w p bytes)).
Proof.
  destruct (decide (p.(lp_ID) = peer.(lp_ID) ∧ p.(lp_PublicKey) = peer.(lp_PublicKey) ∧
    p.(lp_Address) = peer.(lp_Address))) as [(E1 & E2 & E3)|Hne].
  - assert (p = peer) as -> by (destruct p, peer; cbn in *; congruence).
    rewrite (lk_served Hlink). pose proof (serve_evolves receiver envR sign verify runR calm receiver_evolves
      w client bytes) as H. unfold serve in H. by destruct (handle _ _ _ _ _ _ _ _).
  - apply (lk_other_peers Hlink). intros ->. by apply Hne.
Qed.

Lemma SendDelivery_calm w input d :
  calm w (snd (SendDelivery envS.(xe_link) sign verify runS.(xr_identity) w input d)).
Proof.
  unfold SendDelivery. destruct (_ ≫= _) as [[request p]|e]; [|done]. unfold exchange_frames.
  destruct (session_error _) as [bytes|e]; [|done]. pose proof (sender_dial_calm w p bytes) as H.
  by destruct (le_dial _ _ _ _).
Qed.

(** A Receipt that comes back from [peer] is recorded at the receiver. *)
Lemma SendDelivery_recorded rt d w response w' r :
  delivery_ok rt d →
  SendDelivery envS.(xe_link) sign verify runS.(xr_identity) w peer d = (Ok response, w') →
  response.(dr_receipt) = Some r →
  admission_receipt_ok r ∧ receipt_recorded (receiver.(h_store) w').(st_db) r.
Proof.
  intros Hd H Hr.
  destruct (receiveDelivery receiver envR verify runR client (offered sign runS.(xr_identity) d) w)
    as [answer w1] eqn:Ha.
  pose proof (receiveDelivery_recorded receiver envR verify runR (ap_receiver (lk_apart Hlink)) _ _ _ _ _ Ha)
    as [Hans Hrec].
  pose proof (lk_sign Hlink) as Hsign.
  eapply SendDelivery_received in H as [-> Hrep]; [|by apply Hsign|by apply Hsign|exact (lk_served Hlink)|
    exact Hd|exact Ha|exact Hans].
  destruct answer as [[[] [r'|] sig]|e]; cbn [reported] in Hrep;
    try done; injection Hrep as <-; try done.
  injection Hr as ->. split; [|by eapply Hrec]. by eapply (answers_receipt _ Hans).
Qed.

(** ** The settlement of one delivery *)

Lemma parsePeerDeliveryRowTx_facts d id row pending :
  parsePeerDeliveryRowTx d id row = Ok pending →
  peerRouteByIDTx d row.(or_route) = Ok (Some pending.(pp_route)) ∧
  id = DeliveryID_String pending.(pp_pending).(pd_id) ∧
  row.(or_envelope_digest) = Digest_String pending.(pp_pending).(pd_envelopeDigest) ∧
  delivery_ok row.(or_route) pending.(pp_pending).
Proof.
  unfold parsePeerDeliveryRowTx. intros H. apply bind_Ok in H as (rt & Hrt%or_error_Ok & H).
  apply newIdentifier_Ok in Hrt as [-> _]. cbv zeta in H.
  apply bind_Ok in H as (found & Hf%or_error_Ok & H). apply bind_Ok in H as (proj & ->%of_option_Ok & H).
  apply bind_Ok in H as (parsed & Hp%or_error_Ok & H).
  apply bind_Ok in H as ([[[origin ?] ?] ?] & _ & H). apply bind_Ok in H as ([] & _ & H).
  apply bind_Ok in H as (created & _ & H). apply bind_Ok in H as (expires & _ & H).
  apply bind_Ok in H as ([] & Hd & H). apply (inj Ok) in H as <-. cbn [pp_route pp_pending].
  apply ParsePeerDeliveryCanonicalJSON_ok in Hp. apply fail_if_Ok in Hd. rewrite !orb_false_iff in Hd.
  destruct Hd as [[[H1%negb_false_iff%bool_decide_eq_true H2%negb_false_iff%bool_decide_eq_true] _] _]. done.
Qed.

Lemma peerRouteByIDTx_remote d rt proj :
  peerRouteByIDTx d rt = Ok (Some proj) →
  ∃ row, d.(peer_routes) !! rt = Some row ∧ row.(rr_remote_peer) = pr_remotePeerID proj.
Proof.
  unfold peerRouteByIDTx. destruct (_ !! _) as [row|]; [|done]. intros H. apply bind_Ok in H as (p & Hp & [= ->]).
  exists row. split; [done|]. unfold scanPeerRoute in Hp. apply bind_Ok in Hp as (spec & Hs & Hp).
  do 4 (apply bind_Ok in Hp as (? & _ & Hp)). apply bind_Ok in Hp as ([] & _ & Hp).
  apply bind_Ok in Hp as ([active revoked] & _ & Hp). apply (inj Ok) in Hp as <-. unfold pr_remotePeerID.
  cbn [pr_spec]. unfold scan_route_spec in Hs. do 2 apply bind_Ok in Hs as (? & _ & Hs).
  apply bind_Ok in Hs as (remote & Hr%or_error_Ok & Hs). apply newIdentifier_Ok in Hr as [-> _].
  do 3 apply bind_Ok in Hs as (? & _ & Hs). by apply (inj Ok) in Hs as <-.
Qed.

(** Only the two databases matter. *)
Lemma agree_stores w w' :
  (sender.(h_store) w').(st_db) = (sender.(h_store) w).(st_db) →
  (receiver.(h_store) w').(st_db) = (receiver.(h_store) w).(st_db) → agree w → agree w'.
Proof. intros E1 E2 [H1 H2]. split; rewrite ?E1, ?E2; done. Qed.

(** A call of [SettlePeerDelivery] either leaves the database or settles the row of
    this delivery with the Receipt given, on a route to the peer given. *)
Lemma SettlePeerDelivery_cases s now p d canonical signature :
  let s' := snd (SettlePeerDelivery verify s now p d canonical signature) in
  s'.(st_db) = s.(st_db) ∨
  ∃ row pending signed, s.(st_db).(peer_outbox) !! DeliveryID_String d = Some row ∧
    parsePeerDeliveryRowTx s.(st_db) (DeliveryID_String d) row = Ok pending ∧
    pr_remotePeerID pending.(pp_route) = p ∧
    ParsePeerAdmissionReceiptCanonicalJSON canonical pending.(pp_pending) = Ok signed ∧
    s'.(st_db) = set_peer_outbox (<[DeliveryID_String d := settle_outbox row signed signature now]>
      s.(st_db).(peer_outbox)) s.(st_db).
Proof.
  cbv zeta. destruct (fst (SettlePeerDelivery verify s now p d canonical signature)) as [[rc replayed]|e] eqn:E.
  - apply SettlePeerDelivery_Ok, settlePeerDeliveryTx_Ok in E
      as (row & pending & signed & H1 & H2 & H3 & H4 & _ & Hc). destruct replayed.
    + left. by destruct Hc as (_ & _ & _ & ->).
    + right. destruct Hc as (-> & _ & _ & _ & Hd). by exists row, pending, signed.
  - left. unfold SettlePeerDelivery, guarded in *. destruct (fail_if _ _); [|done].
    by rewrite (transact_Err _ _ _ E).
Qed.

(** Settling a Receipt the receiver recorded keeps the two hosts in agreement;
    settling on another route cannot break it. *)
Lemma settle_agree w now p d r signature :
  agree w → admission_receipt_ok r →
  (p = peer.(lp_ID) → receipt_recorded (receiver.(h_store) w).(st_db) r) →
  agree (sender.(h_put) w (snd (SettlePeerDelivery verify (sender.(h_store) w) now p d
    r.(par_canonical) signature))).
Proof.
  intros [Hroute Hag] Hok Hrec. destruct (lk_apart Hlink) as [H1 H2 H3 H4].
  destruct (SettlePeerDelivery_cases (sender.(h_store) w) now p d r.(par_canonical) signature)
    as [E|(row & pending & signed & Hrow & Hp & Hpeer & Hparse & E)].
  - apply (agree_stores w); [by rewrite H1|by rewrite H3|done].
  - apply ParsePeerAdmissionReceiptCanonicalJSON_Ok in Hparse as Hb. destruct Hb as (_ & _ & Hb).
    apply (ParsePeerAdmissionReceiptCanonicalJSON_exact _ _ _ Hok) in Hparse as ->.
    apply parsePeerDeliveryRowTx_facts in Hp as (Hrt & Hid & Henv & _).
    apply binding_answers in Hb as [E1 E2]. split; rewrite H1, E, ?H3; db_simpl; [done|].
    intros id' row' Hr' Hs' Hroute'. destruct (decide (id' = DeliveryID_String d)) as [->|Hne].
    + rewrite lookup_insert_eq in Hr'. injection Hr' as <-. cbn [settle_outbox or_route] in Hroute'.
      apply peerRouteByIDTx_remote in Hrt as (rrow & Hrr & Hremote). destruct Hroute as (rrow' & Hrr' & Hpe).
      rewrite Hroute', Hrr' in Hrr. injection Hrr as <-.
      destruct Hrec as (irow & Hi & Hsi & Hri & Hei); [congruence|]. exists irow.
      cbn [settle_outbox or_receipt or_envelope_digest]. rewrite Hid, <- E1. split_and!; try done. congruence.
    + rewrite lookup_insert_ne in Hr' by done. by eapply Hag.
Qed.

Lemma settle_response_agree w destination d response :
  agree w → (∀ r, response.(dr_receipt) = Some r → admission_receipt_ok r) →
  (destination.(lp_ID) = peer.(lp_ID) → ∀ r, response.(dr_receipt) = Some r →
     receipt_recorded (receiver.(h_store) w).(st_db) r) →
  agree (snd (settle_response sender envS verify destination d response w)).
Proof.
  intros Hag Hok Hrec. unfold settle_response, mbind, io_bind, lift, run.
  destruct (DeliveryResponse_AdmissionReceipt response) as [r|] eqn:Hr; cbn [of_option]; [|done].
  assert (response.(dr_receipt) = Some r) as Er.
  { unfold DeliveryResponse_AdmissionReceipt in Hr. by destruct (_ && _). }
  pose proof (lk_sender_others Hlink w) as Hcalm. unfold call. cbv zeta.
  pose proof (settle_agree (envS.(xe_others) w) (envS.(xe_now) (envS.(xe_others) w)) destination.(lp_ID)
    d.(pd_id) r response.(dr_signature) (calm_agree _ _ Hcalm Hag) (Hok r Er)) as H.
  destruct (SettlePeerDelivery _ _ _ _ _ _ _) as [settled s]. cbn [snd] in H.
  assert (agree (sender.(h_put) (envS.(xe_others) w) s)) as Hfinal.
  { apply H. intros E. destruct Hcalm as (_ & _ & Hsteps).
    eapply receipt_recorded_extends; [by eapply store_steps_extend|]. by apply Hrec. }
  destruct settled as [x|e]; [done|]. by destruct (errors_is _ _).
Qed.

Lemma deliver_item_agree rt item w :
  delivery_ok rt item.(pp_pending) → agree w →
  agree (snd (deliver_item sender envS sign verify runS item w)).
Proof.
  intros Hd Hag. unfold deliver_item, mbind, io_bind, lift, run.
  destruct (peerForRoute _ _) as [destination|e] eqn:Hdest; [|done].
  pose proof (SendDelivery_calm w destination item.(pp_pending)) as Hcalm.
  destruct (SendDelivery _ _ _ _ _ _ _) as [[response|e] w1] eqn:Hsend; cbn [snd] in Hcalm |- *;
    [|by eapply calm_agree].
  destruct (dr_transportACK response); [by eapply calm_agree|].
  apply settle_response_agree; [by eapply calm_agree| |].
  - intros r Hr. apply SendDelivery_sound in Hsend as [->|(r' & c & sg & -> & Hp & _)]; [done|].
    injection Hr as ->. by apply ParsePeerAdmissionReceiptCanonicalJSON_Ok in Hp as [? _].
  - intros E r Hr. assert (destination = peer) as ->.
    { unfold peerForRoute in Hdest. cbv zeta in Hdest. apply bind_Ok in Hdest as (p & Hp%of_option_Ok & Hdest).
      apply bind_Ok in Hdest as ([] & _ & Hdest). apply (inj Ok) in Hdest as ->. by eapply (lk_peer Hlink). }
    by eapply SendDelivery_recorded in Hsend as [_ ?].
Qed.

Lemma each_agree (f : PendingPeerDelivery → io W ()) items w :
  (∀ item w, item ∈ items → agree w → agree (snd (f item w))) → agree w → agree (snd (each f items w)).
Proof.
  revert w. induction items as [|item items IH]; intros w Hf Hag; [done|]. cbn [each]. unfold mbind, io_bind.
  pose proof (Hf item w ltac:(set_solver) Hag) as H. destruct (f item w) as [[[]|e] w1]; [|done].
  apply IH; [|done]. intros. apply Hf; [set_solver|done].
Qed.

(** Listing pending deliveries expires rows and settles none. *)
Lemma PendingPeerDeliveries_calm w now limit :
  calm w (sender.(h_put) w (snd (PendingPeerDeliveries (sender.(h_store) w) now limit))).
Proof.
  destruct (lk_apart Hlink) as [H1 H2 H3 H4]. unfold calm. rewrite H1, H3. split_and!; [| |apply rtc_refl].
  - apply (store_step_extends verify), step_pending.
  - intros id row Hr Hs. unfold PendingPeerDeliveries, guarded in Hr. destruct (fail_if _ _); [|done].
    unfold transact in Hr. destruct (requireOpen _); [|done]. destruct (_ ≫= _) as [[items d]|e] eqn:E; [|done].
    apply bind_Ok in E as (t & _ & E). cbv zeta in E. apply bind_Ok in E as (items' & _ & [= _ <-]).
    cbn [snd st_db] in Hr. unfold expirePeerOutboxTx, expire_outbox_where in Hr. db_simpl.
    rewrite lookup_fmap in Hr. apply fmap_Some in Hr as (row' & Hr' & ->). revert Hs.
    destruct (_ && _); [done|]. done.
Qed.

Lemma PendingPeerDeliveries_ok s now limit items :
  fst (PendingPeerDeliveries s now limit) = Ok items → ∀ item, item ∈ items → ∃ rt, delivery_ok rt item.(pp_pending).
Proof.
  unfold PendingPeerDeliveries. intros H. pose proof (guarded_Ok _ _ _ _ H) as ([] & _ & E). rewrite E in H.
  apply transact_Ok in H as (_ & Hb & _). apply bind_Ok in Hb as (t & _ & Hb). cbv zeta in Hb.
  apply bind_Ok in Hb as (items' & Hm & [= -> _]).
  assert (Forall (λ item, ∃ rt, delivery_ok rt item.(pp_pending)) items) as HF.
  { eapply mapR_Forall; [|exact Hm]. intros [id row] pending Hp. cbn in Hp.
    unfold parsePendingPeerDeliveryTx in Hp. apply bind_Ok in Hp as (p & Hp & H').
    apply bind_Ok in H' as ([] & _ & [= ->]). apply parsePeerDeliveryRowTx_facts in Hp as (_ & _ & _ & ?). eauto. }
  intros item Hi. by rewrite Forall_forall in HF; apply HF.
Qed.

Lemma deliverPending_agree w : agree w → agree (snd (deliverPending sender envS sign verify runS w)).
Proof.
  intros Hag. unfold deliverPending, mbind, io_bind, call. cbv zeta.
  set (w0 := envS.(xe_others) w).
  pose proof (PendingPeerDeliveries_calm w0 (envS.(xe_now) w0) runS.(xr_batchSize)) as Hc.
  assert (agree w0) as Hag0 by (eapply calm_agree; [apply (lk_sender_others Hlink)|done]).
  destruct (PendingPeerDeliveries _ _ _) as [[items|e] s] eqn:Hp; cbn [snd] in Hc |- *; [|by eapply calm_agree].
  assert (∀ item, item ∈ items → ∃ rt, delivery_ok rt item.(pp_pending)) as Hitems.
  { eapply PendingPeerDeliveries_ok. by rewrite Hp. }
  apply each_agree; [|by eapply calm_agree].
  intros item w1 Hi Hag1. destruct (Hitems item Hi) as [rt Hd]. by eapply deliver_item_agree.
Qed.

(** ** The system of two hosts *)

(** Passes of the sender's outbox worker, with calm steps before and after. *)
Inductive system_step : relation W :=
| system_calm w w' : calm w w' → system_step w w'
| system_pass w : system_step w (snd (deliverPending sender envS sign verify runS w)).

Lemma system_agree w w' : rtc system_step w w' → agree w → agree w'.
Proof.
  induction 1 as [|w1 w2 w3 Hs _ IH]; [done|]. intros Hag. apply IH. destruct Hs.
  - by eapply calm_agree.
  - by apply deliverPending_agree.
Qed.
End hosts.
