(* ===== verification/Scenario.v ===== *)
(** A concrete conversation between two hosts, run by the model: host A opens a
    responsibility for itself and for a peer, host B admits it, declines it with a
    terminal reply, and host A admits the answer. *)

From Stdlib Require Import Lia.
From S2P Require Import Prelude Utf8 Json Wire Sha256 Time StoreTime Value Intent Bound Event Peer.
From S2P Require Import View AgentView Bind Store EventStore Attach Routes Inbox Outbox.
From S2P Require Import Domain Admission PeerAdmission Current History Frames Invariant PeerInv.
From S2P Require Import Replies Projection Replay Lifecycle Attention Calls.

#[local] Open Scope Z_scope.

Module Scenario.

(** ** The environment *)

Definition t0 : Time := 1700000000 * ns_per_second.
Definition at_ns (n : Z) : Time := t0 + n.

(** Reads of [crypto/rand], distinct for distinct calls. *)
Definition entropy (call : string) (n : nat) : string := String.substring 0 16 (Sum (call +:+ pretty n)).

(** A signature here is the digest of the key and the message, twice. *)
Definition sign (key message : string) : string := Sum (key +:+ message) +:+ Sum (key +:+ message).
Definition verify (key message signature : string) : bool := bool_decide (signature = sign key message).

Definition keyA : string := Sum "host A".
Definition keyB : string := Sum "host B".

(** The result of a call that is expected to succeed. *)
Definition ok {A} (fallback : A) (r : result A) : A := match r with Ok x => x | Err _ => fallback end.

Definition no_proof : AttachmentProof := {| ap_id := ""; ap_credential := ""; ap_expiresAt := 0 |}.
Definition operation (key : string) : CurrentOperation :=
  {| co_key := key; co_requestDigest := Sum currentRequestWire |}.

Definition route_to (alias peer key principal : string) : PeerRouteSpec := {|
  prs_RouteID := "route:ab"; prs_PublicAlias := alias; prs_RemotePeerID := peer;
  prs_RemotePublicKey := key; prs_TransportAddress := "host:9"; prs_RemoteTargetAlias := "desk";
  prs_InboundTargetAlias := "desk"; prs_LocalTargetPrincipal := principal |}.

(** ** Host A opens a shared responsibility *)

Definition a1 : Store := snd (EnrollPrincipal initial_store (at_ns 0) "agent:a").
Definition a2 : Store := snd (EnrollPeerRoute a1 (at_ns 1) (route_to "peer-b" "peer:b" keyB "agent:a")).
Definition issued_a := IssueInteractiveAttachment a2 (at_ns 2) "agent:a" (Sum "boundary a").
Definition proof_a : AttachmentProof := ok no_proof (fst issued_a).
Definition current_a := Current (snd issued_a) (at_ns 3) proof_a (operation "current:a1").
Definition spec_a (peer : TargetRef) : IntentSpec := {|
  is_Kind := "question"; is_Payload := "can you take this?";
  is_Consequence := ConsequenceCreateHandlings; is_SubjectHandling := "";
  is_Successors := [SelfTarget; peer]; is_ReferenceKey := ""; is_ReferenceHead := "";
  is_Artifacts := []; is_CausationHandles := []; is_CorrelationHandle := "" |}.
Definition bound_a : result BoundIntent :=
  view ← fst current_a;
  peer ← AliasTarget "peer-b";
  intent ← NewAgentIntent (spec_a peer);
  BoundView_Bind view intent "op:a1" [].

Definition no_intent : AgentIntent := {|
  ai_kind := ""; ai_payload := ""; ai_consequence := ConsequenceCreateHandlings;
  ai_subjectHandling := ""; ai_successors := []; ai_referenceKey := ""; ai_referenceHead := "";
  ai_artifacts := []; ai_causationHandles := []; ai_correlationHandle := ""; ai_canonical := "" |}.
Definition no_attachment : Attachment := {|
  at_id := ""; at_principal := ""; at_mayInitiate := false; at_issuedAt := 0; at_expiresAt := 0 |}.
Definition no_request : BoundIntent := {|
  bi_intent := no_intent; bi_operationKey := ""; bi_attachment := no_attachment;
  bi_viewDigest := zero_digest; bi_subject := None; bi_expectedReference := None; bi_targets := [];
  bi_resolvedArtifacts := []; bi_artifacts := []; bi_causation := []; bi_correlation := zero_EventRef;
  bi_inReplyToDelivery := zero_DeliveryID; bi_canonical := ""; bi_digest := zero_digest |}.

Definition request_a : BoundIntent := ok no_request bound_a.
Definition admitted_a := commitAdmission (entropy "admit a") (snd current_a) (at_ns 4) proof_a request_a false.

(** Other content under the key host A has used. *)
Definition other_request (request : BoundIntent) : BoundIntent := {|
  bi_intent := request.(bi_intent); bi_operationKey := request.(bi_operationKey);
  bi_attachment := request.(bi_attachment); bi_viewDigest := request.(bi_viewDigest);
  bi_subject := request.(bi_subject); bi_expectedReference := request.(bi_expectedReference);
  bi_targets := request.(bi_targets); bi_resolvedArtifacts := request.(bi_resolvedArtifacts);
  bi_artifacts := request.(bi_artifacts); bi_causation := request.(bi_causation);
  bi_correlation := request.(bi_correlation); bi_inReplyToDelivery := request.(bi_inReplyToDelivery);
  bi_canonical := request.(bi_canonical); bi_digest := Sum "other content" |}.
Definition pending_a := PendingPeerDeliveries (snd admitted_a) (at_ns 5) 64.
Definition a6 : Store := snd pending_a.

Definition no_delivery : PeerDelivery := {|
  pd_id := zero_DeliveryID; pd_originEvent := zero_EventRef; pd_originSequence := 0;
  pd_originAcceptedAt := 0; pd_originSource := ""; pd_originConsequence := ConsequenceCreateHandlings;
  pd_originTargetCount := 0; pd_originCausation := []; pd_originCorrelation := zero_EventRef;
  pd_inReplyToDelivery := zero_DeliveryID; pd_targetAlias := ""; pd_kind := ""; pd_payload := "";
  pd_artifacts := []; pd_causalDepth := 0; pd_expiresAt := 0; pd_canonical := "";
  pd_envelopeDigest := zero_digest |}.
Definition first_delivery (pending : result (list PendingPeerDelivery)) : PeerDelivery :=
  match pending with Ok (p :: _) => p.(pp_pending) | _ => no_delivery end.
Definition sent_a : PeerDelivery := first_delivery (fst pending_a).

(** ** Host B admits it and declines *)

Definition b1 : Store := snd (EnrollPrincipal initial_store (at_ns 0) "agent:b").
Definition b2 : Store := snd (EnrollPeerRoute b1 (at_ns 1) (route_to "peer-a" "peer:a" keyA "agent:b")).
Definition staged_b := StagePeerDelivery verify b2 (at_ns 10) "peer:a" sent_a.(pd_canonical)
  (sign keyA (delivery_message sent_a)).
Definition handling_ids (call : string) : list HandlingID := ok [] (newHandlingIDs [entropy call 0]).
Definition accepted_b := commitPeerAdmission verify (entropy "admit b") (snd staged_b) (at_ns 11)
  sent_a.(pd_id) [] (handling_ids "admit b").
Definition issued_b := IssueInteractiveAttachment (snd accepted_b) (at_ns 12) "agent:b" (Sum "boundary b").
Definition proof_b : AttachmentProof := ok no_proof (fst issued_b).
Definition current_b := Current (snd issued_b) (at_ns 13) proof_b (operation "current:b1").

(** The handle a View offers for its subject. *)
Definition subject_handle (view : BoundView) : OpaqueHandle :=
  match map_to_list view.(bv_authority).(va_subjects) with (handle, _) :: _ => handle | [] => "" end.
Definition bound_b : result BoundIntent :=
  view ← fst current_b;
  peer ← AliasTarget "peer-a";
  intent ← NewAgentIntent {|
    is_Kind := "answer"; is_Payload := "no, sorry"; is_Consequence := ConsequenceResolveDeclined;
    is_SubjectHandling := subject_handle view; is_Successors := [peer]; is_ReferenceKey := "";
    is_ReferenceHead := ""; is_Artifacts := []; is_CausationHandles := [];
    is_CorrelationHandle := view.(bv_authority).(va_replyTo) |};
  BoundView_Bind view intent "op:b1" [].
Definition request_b : BoundIntent := ok no_request bound_b.
Definition admitted_b := commitAdmission (entropy "answer b") (snd current_b) (at_ns 14) proof_b request_b false.
Definition pending_b := PendingPeerDeliveries (snd admitted_b) (at_ns 15) 64.
Definition sent_b : PeerDelivery := first_delivery (fst pending_b).

(** ** Host A settles its delivery and admits the answer *)

Definition receipt_of (r : result PeerAdmissionResult) : option PeerAdmissionReceipt :=
  match r with Ok r => r.(pa_receipt) | Err _ => None end.
Definition receipt_canonical : string := default "" (par_canonical <$> receipt_of (fst accepted_b)).
Definition receipt_signature : string :=
  sign keyB (default "" (receipt_message <$> receipt_of (fst accepted_b))).
Definition settled_a := SettlePeerDelivery verify a6 (at_ns 20) "peer:b" sent_a.(pd_id)
  receipt_canonical receipt_signature.
Definition staged_a := StagePeerDelivery verify (snd settled_a) (at_ns 21) "peer:b" sent_b.(pd_canonical)
  (sign keyB (delivery_message sent_b)).
Definition accepted_a := commitPeerAdmission verify (entropy "admit answer") (snd staged_a) (at_ns 22)
  sent_b.(pd_id) [] (handling_ids "admit answer").
Definition current_a2 := Current (snd accepted_a) (at_ns 23) proof_a (operation "current:a2").

(** Two calls the conversation does not make. *)
Definition ended_b := EndInteractiveAttachment (snd current_b) (at_ns 14) proof_b.
Definition revoked_a := RevokePeerRoute a6 (at_ns 6) "route:ab".

(** ** Host C publishes a Reference and replaces it *)

Definition artifact (content : string) : VerifiedArtifact :=
  {| vf_digest := Sum content; vf_byteSize := slen content; vf_verifiedAt := at_ns 0 |}.
Definition c1 : Store := snd (EnrollPrincipal initial_store (at_ns 0) "agent:c").
Definition c2 : Store := snd (CatalogArtifact c1 (artifact "draft")).
Definition c3 : Store := snd (CatalogArtifact c2 (artifact "final")).
Definition issued_c := IssueInteractiveAttachment c3 (at_ns 2) "agent:c" (Sum "boundary c").
Definition proof_c : AttachmentProof := ok no_proof (fst issued_c).
Definition current_c := Current (snd issued_c) (at_ns 3) proof_c (operation "current:c1").
Definition reference_request (consequence : Consequence) (key : ReferenceKey)
    (head : BoundView → OpaqueHandle) (content op : string) (view : result BoundView)
    : result BoundIntent :=
  view ← view;
  input ← NewArtifactCandidate "draft";
  candidate ← NewCapturedCandidate op input (Sum content);
  intent ← NewAgentIntent {|
    is_Kind := "note"; is_Payload := content; is_Consequence := consequence; is_SubjectHandling := "";
    is_Successors := []; is_ReferenceKey := key; is_ReferenceHead := head view;
    is_Artifacts := [input]; is_CausationHandles := []; is_CorrelationHandle := "" |};
  BoundView_Bind view intent op [candidate].
Definition reference_handle (view : BoundView) : OpaqueHandle :=
  match map_to_list view.(bv_authority).(va_references) with (handle, _) :: _ => handle | [] => "" end.
Definition bound_c : result BoundIntent :=
  reference_request ConsequencePublishReference "plan" (λ _, "") "draft" "op:c1" (fst current_c).
Definition request_c : BoundIntent := ok no_request bound_c.
Definition published_c := commitAdmission (entropy "publish c") (snd current_c) (at_ns 4) proof_c request_c false.
Definition current_c2 := Current (snd published_c) (at_ns 5) proof_c (operation "current:c2").
Definition bound_c2 : result BoundIntent :=
  reference_request ConsequenceSupersedeReference "" reference_handle "final" "op:c2" (fst current_c2).
Definition request_c2 : BoundIntent := ok no_request bound_c2.
Definition superseded_c := commitAdmission (entropy "supersede c") (snd current_c2) (at_ns 6) proof_c request_c2 false.

(** ** The stores of the run are reachable *)

Lemma reach_step s s' : reachable verify s → store_step verify s s' → reachable verify s'.
Proof. intros H1 H2. by eapply rtc_r. Qed.

Ltac reach_by step prev := apply (reach_step _ _ prev), step.

Lemma reach_a1 : reachable verify a1.
Proof. eapply rtc_once. apply step_enroll. Qed.
Lemma reach_a2 : reachable verify a2.
Proof. reach_by step_enroll_route reach_a1. Qed.
Lemma reach_issued_a : reachable verify (snd issued_a).
Proof. reach_by step_issue reach_a2. Qed.
Lemma reach_current_a : reachable verify (snd current_a).
Proof. reach_by step_current reach_issued_a. Qed.
Lemma reach_admitted_a : reachable verify (snd admitted_a).
Proof. reach_by step_admit reach_current_a. Qed.
Lemma reach_a6 : reachable verify a6.
Proof. reach_by step_pending reach_admitted_a. Qed.

Lemma reach_b1 : reachable verify b1.
Proof. eapply rtc_once. apply step_enroll. Qed.
Lemma reach_b2 : reachable verify b2.
Proof. reach_by step_enroll_route reach_b1. Qed.
Lemma reach_staged_b : reachable verify (snd staged_b).
Proof. reach_by step_stage reach_b2. Qed.
Lemma reach_accepted_b : reachable verify (snd accepted_b).
Proof. reach_by step_peer_commit reach_staged_b. Qed.
Lemma reach_issued_b : reachable verify (snd issued_b).
Proof. reach_by step_issue reach_accepted_b. Qed.
Lemma reach_current_b : reachable verify (snd current_b).
Proof. reach_by step_current reach_issued_b. Qed.
Lemma reach_admitted_b : reachable verify (snd admitted_b).
Proof. reach_by step_admit reach_current_b. Qed.

Lemma reach_settled_a : reachable verify (snd settled_a).
Proof. reach_by step_settle reach_a6. Qed.
Lemma reach_staged_a : reachable verify (snd staged_a).
Proof. reach_by step_stage reach_settled_a. Qed.
Lemma reach_accepted_a : reachable verify (snd accepted_a).
Proof. reach_by step_peer_commit reach_staged_a. Qed.
Lemma reach_current_a2 : reachable verify (snd current_a2).
Proof. reach_by step_current reach_accepted_a. Qed.

Lemma reach_c1 : reachable verify c1.
Proof. eapply rtc_once. apply step_enroll. Qed.
Lemma reach_c2 : reachable verify c2.
Proof. reach_by step_catalog reach_c1. Qed.
Lemma reach_c3 : reachable verify c3.
Proof. reach_by step_catalog reach_c2. Qed.
Lemma reach_issued_c : reachable verify (snd issued_c).
Proof. reach_by step_issue reach_c3. Qed.
Lemma reach_current_c : reachable verify (snd current_c).
Proof. reach_by step_current reach_issued_c. Qed.
Lemma reach_published_c : reachable verify (snd published_c).
Proof. reach_by step_admit reach_current_c. Qed.
Lemma reach_current_c2 : reachable verify (snd current_c2).
Proof. reach_by step_current reach_published_c. Qed.
Lemma reach_superseded_c : reachable verify (snd superseded_c).
Proof. reach_by step_admit reach_current_c2. Qed.

(** ** The run *)

(** A fresh acceptance with a non-zero Receipt digest. *)
Definition freshly_accepted (r : result AdmissionResult) : bool :=
  match r with
  | Ok r => negb r.(ar_replayed) && bool_decide (r.(ar_outcome) = ReceiptOutcomeAccepted) &&
            negb (Digest_IsZero r.(ar_receiptDigest))
  | Err _ => false
  end.

Definition peer_state (r : result PeerAdmissionResult) (state : PeerAdmissionState) : bool :=
  match r with Ok r => negb r.(pa_replayed) && bool_decide (r.(pa_state) = state) | Err _ => false end.

Definition ref_okb (r : EventRef) : bool :=
  handle_ok r.(er_id) && (String.length r.(er_digest) =? 32)%nat && negb (Digest_IsZero r.(er_digest)).

Definition expires_after (now : Time) (r : result PeerAdmissionResult) : bool :=
  match r with Ok r => now <? r.(pa_delivery).(pd_expiresAt) | Err _ => false end.

Definition freshly_released (r : result AttachmentEndResult) : bool :=
  match r with Ok r => negb r.(ae_replayed) && r.(ae_releasedClaim) | Err _ => false end.

(** The proof names a Principal that has used the request's key for other content. *)
Definition conflicts (d : db) (proof : AttachmentProof) (request : BoundIntent) : bool :=
  match authenticateAttachmentTx d proof with
  | Ok au =>
    match d.(operations) !! (au.(aa_value).(at_principal), request.(bi_operationKey)) with
    | Some row => negb (bool_decide (row.(opr_request_digest) = Digest_String request.(bi_digest)))
    | None => false
    end
  | Err _ => false
  end.

(** Exactly two Events ever defined a Reference, both under one key. *)
Definition one_key (rows : list (EventID * lineage_row)) : bool :=
  match rows with
  | [(_, r); (_, r')] => bool_decide (r.(lr_key) = r'.(lr_key))
  | _ => false
  end.

(** The only Handling of both databases waits for the Principal at fence 0. *)
Definition still_waiting (p : AgentPrincipalID) (rows rows' : list (string * handling_row)) : bool :=
  match rows, rows' with
  | [(id, row)], [(id', row')] =>
      bool_decide (id = id') && claimable p id row && claimable p id' row' &&
      (row.(hr_fence) =? 0) && (row'.(hr_fence) =? 0)
  | _, _ => false
  end.

(** The only Handling is settled with the outcome, claimed once. *)
Definition settled_once (outcome : string) (rows : list (string * handling_row)) : bool :=
  match rows with
  | [(_, row)] => bool_decide (row.(hr_state) = HandlingTerminal) && (row.(hr_fence) =? 1) &&
      bool_decide (row.(hr_outcome) = Some outcome)
  | _ => false
  end.

(** Some delivery in the inbox is an accepted reply. *)
Definition has_reply (rows : list (string * inbox_row)) : bool :=
  match filter (λ x, is_some (accepted_reply x.2) = true) rows with _ :: _ => true | [] => false end.

(** What the witnesses of the contracts read off the run. *)
Definition facts : list bool := [
  (* 0 *) is_ok (fst issued_a); is_ok (fst current_a);
  (* 2 *) freshly_accepted (fst admitted_a); is_ok (fst pending_a);
  (* 4 *) peer_state (fst staged_b) PeerAdmissionStateStaged;
  (* 5 *) peer_state (fst accepted_b) PeerAdmissionStateAccepted;
  (* 6 *) is_ok (fst current_b); freshly_accepted (fst admitted_b);
  (* 8 *) is_ok (fst settled_a); peer_state (fst staged_a) PeerAdmissionStateStaged;
  (* 10 *) peer_state (fst accepted_a) PeerAdmissionStateAccepted; is_ok (fst current_a2);
  (* 12 *) freshly_released (fst ended_b);
  (* 13 *) is_ok (fst revoked_a);
  (* 14 *) negb (snd admitted_a).(st_closed) &&
           is_ok (authenticateAttachmentTx (snd admitted_a).(st_db) proof_a);
  (* 15 *) is_ok bound_a;
  (* 16 *) expires_after (at_ns 12) (fst staged_b);
  (* 17 *) bool_decide (request_b.(bi_intent).(ai_consequence) = ConsequenceResolveDeclined);
  (* 18 *) forallb ref_okb (request_refs request_b) &&
           is_ok (deriveLocalEventCausalDepthTx (snd current_b).(st_db) request_b) &&
           (0 <? lenZ (request_refs request_b));
  (* 19 *) references (snd current_a).(st_db).(current_operations) (proof_a.(ap_id), "current:a1");
  (* 20 *) negb (references (snd issued_a).(st_db).(current_operations) (proof_a.(ap_id), "current:a1"));
  (* 21 *) (length request_a.(bi_causation) =? 0)%nat;
  (* 22 *) conflicts (snd admitted_a).(st_db) proof_a (other_request request_a);
  (* 23 *) negb (IsZero request_a.(bi_operationKey)) &&
           negb (Digest_IsZero (other_request request_a).(bi_digest));
  (* 24 *) still_waiting "agent:b" (map_to_list (snd accepted_b).(st_db).(handlings))
             (map_to_list (snd issued_b).(st_db).(handlings));
  (* 25 *) settled_once "declined" (map_to_list (snd admitted_b).(st_db).(handlings));
  (* 26 *) bool_decide (bearer (snd issued_b).(st_db) proof_b = Bearer proof_b.(ap_id));
  (* 27 *) bool_decide (bearer (snd current_b).(st_db) proof_b = Bearer proof_b.(ap_id));
  (* 28 *) references (snd current_b).(st_db).(current_operations) (proof_b.(ap_id), "current:b1");
  (* 29 *) negb (references (snd issued_b).(st_db).(current_operations) (proof_b.(ap_id), "current:b1"));
  (* 30 *) has_reply (map_to_list (snd accepted_a).(st_db).(peer_inbox))].

(** The whole conversation succeeds. *)
Lemma run_facts : facts = replicate 31 true.
Proof. vm_compute. reflexivity. Qed.

Definition facts_c : list bool := [
  (* 0 *) freshly_accepted (fst published_c); freshly_accepted (fst superseded_c);
  (* 2 *) bool_decide (request_c2.(bi_intent).(ai_consequence) = ConsequenceSupersedeReference);
  (* 3 *) one_key (map_to_list (snd superseded_c).(st_db).(reference_lineage))].

Lemma run_facts_c : facts_c = replicate 4 true.
Proof. vm_compute. reflexivity. Qed.

(** The nth fact of a run. *)
Lemma nth_fact n xs m b : xs = replicate m true → xs !! n = Some b → b = true.
Proof. intros ->. by intros [-> _]%lookup_replicate_1. Qed.

(** ** What the facts say *)

Lemma is_ok_true {A} (r : result A) : is_ok r = true → ∃ x, r = Ok x.
Proof. destruct r; [eauto|done]. Qed.

Lemma freshly_accepted_true r :
  freshly_accepted r = true → ∃ x, r = Ok x ∧ x.(ar_replayed) = false ∧
    x.(ar_outcome) = ReceiptOutcomeAccepted ∧ Digest_IsZero x.(ar_receiptDigest) = false.
Proof.
  destruct r as [x|]; [|done]. cbn [freshly_accepted]. intros [[H1 H2]%andb_true_iff H3]%andb_true_iff.
  exists x. rewrite negb_true_iff in H1, H3. by apply bool_decide_eq_true in H2.
Qed.

Lemma peer_state_true r state :
  peer_state r state = true → ∃ x, r = Ok x ∧ x.(pa_replayed) = false ∧ x.(pa_state) = state.
Proof.
  destruct r as [x|]; [|done]. cbn [peer_state]. intros [H1 H2]%andb_true_iff. exists x.
  rewrite negb_true_iff in H1. by apply bool_decide_eq_true in H2.
Qed.

Lemma freshly_released_true r :
  freshly_released r = true → ∃ x, r = Ok x ∧ x.(ae_replayed) = false ∧ x.(ae_releasedClaim) = true.
Proof.
  destruct r as [x|]; [|done]. cbn [freshly_released]. intros [H1%negb_true_iff H2]%andb_true_iff. by exists x.
Qed.

Lemma conflicts_true d proof request :
  conflicts d proof request = true → ∃ au row, authenticateAttachmentTx d proof = Ok au ∧
    d.(operations) !! (au.(aa_value).(at_principal), request.(bi_operationKey)) = Some row ∧
    row.(opr_request_digest) ≠ Digest_String request.(bi_digest).
Proof.
  unfold conflicts. destruct (authenticateAttachmentTx d proof) as [au|]; [|done].
  destruct (operations d !! _) as [row|] eqn:Hrow; [|done].
  intros H%negb_true_iff%bool_decide_eq_false. by exists au, row.
Qed.

Lemma one_key_true (m : gmap EventID lineage_row) :
  one_key (map_to_list m) = true → ∃ id r id' r', id ≠ id' ∧ m !! id = Some r ∧ m !! id' = Some r' ∧
    r.(lr_key) = r'.(lr_key).
Proof.
  pose proof (NoDup_fst_map_to_list m) as Hnd.
  pose proof (λ k x, proj1 (elem_of_map_to_list m k x)) as Hin.
  destruct (map_to_list m) as [|[id r] [|[id' r'] [|]]]; try done.
  intros H%bool_decide_eq_true. exists id, r, id', r'. apply NoDup_cons in Hnd as [Hnd _].
  split_and!; [cbn in Hnd; set_solver|apply Hin; set_solver..|done].
Qed.

Lemma still_waiting_true p d d' :
  still_waiting p (map_to_list d.(handlings)) (map_to_list d'.(handlings)) = true →
  ∃ id, waiting p id 0 d ∧ waiting p id 0 d'.
Proof.
  pose proof (λ k x, proj1 (elem_of_map_to_list d.(handlings) k x)) as Hin.
  pose proof (λ k x, proj1 (elem_of_map_to_list d'.(handlings) k x)) as Hin'.
  destruct (map_to_list d.(handlings)) as [|[id row] [|]], (map_to_list d'.(handlings)) as [|[id' row'] [|]]; try done.
  cbn [still_waiting]. intros H. rewrite !andb_true_iff, bool_decide_eq_true, !Z.eqb_eq in H.
  destruct H as [[[[-> H1] H2] H3] H4]. exists id'.
  split; [exists row|exists row']; split_and!; try done; [apply Hin|apply Hin']; set_solver.
Qed.

Lemma settled_once_true outcome (m : gmap string handling_row) :
  settled_once outcome (map_to_list m) = true → ∃ id head, lifecycle_of (m !! id) = Done head 1 outcome.
Proof.
  pose proof (λ k x, proj1 (elem_of_map_to_list m k x)) as Hin. destruct (map_to_list m) as [|[id row] [|]]; try done.
  cbn [settled_once]. rewrite !andb_true_iff, !bool_decide_eq_true, Z.eqb_eq. intros [[Hs Hf] Ho].
  exists id, row.(hr_head). rewrite (Hin id row ltac:(set_solver)). cbn [lifecycle_of]. by rewrite Hs, Hf, Ho.
Qed.

Lemma has_reply_true (m : gmap string inbox_row) :
  has_reply (map_to_list m) = true → ∃ k row sent, m !! k = Some row ∧ accepted_reply row = Some sent.
Proof.
  unfold has_reply. destruct (filter _ _) as [|[k row] rows] eqn:E; [done|]. intros _.
  assert ((k, row) ∈ filter (λ x, is_some (accepted_reply x.2) = true) (map_to_list m)) as Hin by (rewrite E; by left).
  apply list_elem_of_filter in Hin as [Hr Hin]. cbn in Hr. destruct (accepted_reply row) as [sent|] eqn:Hs; [|done].
  exists k, row, sent. split; [by apply elem_of_map_to_list|done].
Qed.

Lemma ok_Ok {A} (fallback : A) r x : r = Ok x → ok fallback r = x.
Proof. by intros ->. Qed.

Lemma ref_okb_true r : ref_okb r = true → ref_ok r.
Proof.
  unfold ref_okb. intros [[H1 H2%Nat.eqb_eq]%andb_true_iff H3%negb_true_iff]%andb_true_iff.
  split; [done|]. by split.
Qed.

Lemma refs_okb_true rs : forallb ref_okb rs = true → Forall ref_ok rs.
Proof. rewrite forallb_forall, Forall_forall. intros H r Hr%list_elem_of_In. by apply ref_okb_true, H. Qed.

Lemma four_digit_at n : 0 <= n <= 1000000000000 → four_digit_year (at_ns n).
Proof. intros Hn. apply int64_four_digit. unfold at_ns, t0, ns_per_second, min_int64, max_int64. lia. Qed.

Lemma at_nonzero n : 0 <= n → at_ns n ≠ zero_time.
Proof. intros Hn. unfold at_ns, t0, ns_per_second. intros E. unfold zero_time, ns_per_second in E. lia. Qed.

(** The [n]th fact of the conversation, or of the Reference run. *)
Ltac run_fact n H := pose proof (nth_fact n facts 31 _ run_facts eq_refl) as H.
Ltac run_fact_c n H := pose proof (nth_fact n facts_c 4 _ run_facts_c eq_refl) as H.

(** Host B's calls with their callers, up to the answer. *)
Lemma run_b : store_run verify
  [Unattached; Unattached; Unattached; Unattached; Unattached; Bearer proof_b.(ap_id); Bearer proof_b.(ap_id)]
  initial_store (snd admitted_b).
Proof.
  refine (run_call _ _ _ _ b1 _ (call_enroll verify initial_store (at_ns 0) "agent:b") _).
  refine (run_call _ _ _ _ b2 _ (call_enroll_route verify b1 (at_ns 1) _) _).
  refine (run_call _ _ _ _ (snd staged_b) _ (call_stage verify b2 (at_ns 10) _ _ _) _).
  refine (run_call _ _ _ _ (snd accepted_b) _ (call_peer_commit verify (snd staged_b) (at_ns 11) _ _ _ _) _).
  refine (run_call _ _ _ _ (snd issued_b) _ (call_issue verify (snd accepted_b) (at_ns 12) _ _) _).
  run_fact 26%nat H1. apply bool_decide_eq_true in H1. run_fact 27%nat H2. apply bool_decide_eq_true in H2.
  rewrite <- H1 at 1. refine (run_call _ _ _ _ (snd current_b) _ (call_current verify (snd issued_b) (at_ns 13) proof_b _) _).
  rewrite <- H2. refine (run_call _ _ _ _ (snd admitted_b) _ (call_admit verify (snd current_b) (at_ns 14) proof_b request_b _ false) _).
  apply run_none.
Qed.

(** A Current that recorded a new View changed the Store. *)
Lemma recorded_changes (d d' : db) key :
  references d'.(current_operations) key = true → negb (references d.(current_operations) key) = true → d' ≠ d.
Proof. intros H1 H2 ->. by rewrite H1 in H2. Qed.

(** The View host A was shown is well formed. *)
Lemma view_a_ok view : fst current_a = Ok view → view_ok view.(bv_authority).
Proof.
  intros Hv. unfold current_a in Hv. apply Current_Ok in Hv as [_ Hv].
  apply (currentTx_fresh _ _ _ _ _ _ (inv_reachable _ claims_inv _ reach_issued_a)) in Hv
    as [E|(au & d1 & claim & d2 & Hf)]; [exfalso|exact (fc_typed _ _ _ _ _ _ _ _ _ _ Hf)].
  run_fact 19%nat H1. run_fact 20%nat H2. apply negb_true_iff in H2.
  unfold current_a in H1. rewrite E in H1. exact (diff_true_false (eq_trans (eq_sym H1) H2)).
Qed.

Lemma spec_a_wf peer : target_wf peer → spec_wf (spec_a peer).
Proof. intros Hp. split; cbn; try done; try by left. constructor; [by left|]. by constructor. Qed.

(** Host A's request was bound from that View. *)
Lemma request_a_bound : ∃ view intent, bound_request view intent "op:a1" [] request_a.
Proof.
  run_fact 15%nat H. apply is_ok_true in H as [r Hr]. pose proof (ok_Ok no_request bound_a r Hr) as Er.
  change (request_a = r) in Er. unfold bound_a in Hr.
  apply bind_Ok in Hr as (view & Hv & Hr). apply bind_Ok in Hr as (peer & Hp & Hr).
  apply bind_Ok in Hr as (intent & Hi & Hr). exists view.(bv_authority), intent. split.
  - exact (view_a_ok view Hv).
  - exact (NewAgentIntent_wf _ _ (spec_a_wf _ (AliasTarget_ok "peer-b" peer eq_refl Hp)) Hi).
  - reflexivity.
  - constructor.
  - exact (eq_trans Hr (f_equal Ok (eq_sym Er))).
  - run_fact 21%nat Hc. apply Nat.eqb_eq in Hc. apply nil_length_inv in Hc.
    exact (eq_ind_r NoDup (NoDup_nil_2) Hc).
Qed.
End Scenario.
