(* ===== verification/ExchangeScenario.v ===== *)
(** The conversation of [Scenario] carried over a link: host A's outbox worker makes
    one pass, host B's server receives, admits and answers, host A settles. *)

From Stdlib Require Import Lia.
From S2P Require Import Prelude Utf8 Json Wire Sha256 Time StoreTime Value Intent Bound Event Peer.
From S2P Require Import View AgentView Bind Store EventStore Attach Routes Inbox Outbox.
From S2P Require Import Domain Admission PeerAdmission Current History Frames Frame Link.
From S2P Require Import Io Exchange Agreement Scenario.

#[local] Open Scope Z_scope.
Import Scenario.

Module TwoHosts.

(** An Ed25519 private key is the seed and the public key; here both are the
    public key. *)
Definition private (key : string) : string := key +:+ key.
Definition link_sign (key message : string) : string := sign (String.substring 0 32 key) message.

Definition world : Type := Store * Store.
Definition host_a : Host world := {| h_store := fst; h_put w s := (s, w.2) |}.
Definition host_b : Host world := {| h_store := snd; h_put w s := (w.1, s) |}.

Definition identity_a : localIdentity :=
  {| li_id := "peer:a"; li_privateKey := private keyA; li_publicKey := keyA |}.
Definition identity_b : localIdentity :=
  {| li_id := "peer:b"; li_privateKey := private keyB; li_publicKey := keyB |}.
Definition peer_a : LinkPeer := {| lp_ID := "peer:a"; lp_PublicKey := keyA; lp_Address := "host:9" |}.
Definition peer_b : LinkPeer := {| lp_ID := "peer:b"; lp_PublicKey := keyB; lp_Address := "host:9" |}.
Definition client_a : AuthenticatedPeer := {| aup_id := "peer:a"; aup_publicKey := keyA |}.

Definition runtime_of (identity : localIdentity) (peer : LinkPeer) : exchangeRuntime := {|
  xr_identity := identity; xr_peers := [peer]; xr_peersByID := {[ peer.(lp_ID) := peer ]};
  xr_listenAddress := "host:9"; xr_pollInterval := defaultExchangeInterval;
  xr_batchSize := defaultExchangeBatch |}.
Definition runtime_a : exchangeRuntime := runtime_of identity_a peer_b.
Definition runtime_b : exchangeRuntime := runtime_of identity_b peer_a.

(** No Artifacts, no other goroutines; [dial] is the only difference. *)
Definition env_of (dial : world → LinkPeer → string → result string * world) (now : Time)
    : ExchangeEnv world := {|
  xe_link := {| le_dial := dial; le_put w _ _ := (Err (Errorf "no objects"), w) |};
  xe_read _ _ := Err ErrNotExist; xe_now _ := now; xe_others w := w; xe_between _ s := s;
  xe_later _ := now; xe_entropy _ := entropy "admit b"; xe_verifier _ := Some (λ _ _, true) |}.

Definition is_b (peer : LinkPeer) : bool :=
  bool_decide (peer.(lp_ID) = "peer:b") && bool_decide (peer.(lp_PublicKey) = keyB) &&
  bool_decide (peer.(lp_Address) = "host:9").

Definition env_b : ExchangeEnv world := env_of (λ w _ _, (Err ErrTransport, w)) (at_ns 10).
Definition env_a : ExchangeEnv world :=
  env_of (λ w peer bytes,
    if is_b peer
    then let '(output, w) := serve host_b env_b link_sign verify runtime_b w client_a bytes in (Ok output, w)
    else (Err ErrTransport, w)) (at_ns 20).

Definition before : world := (a6, b2).
Definition pass : result () * world := deliverPending host_a env_a link_sign verify runtime_a before.

Lemma sign_length key message : slen (link_sign key message) = SignatureSize.
Proof.
  unfold link_sign, sign, slen. rewrite string_length_app. by rewrite !(Sum_wf _ : String.length _ = 32%nat).
Qed.

Lemma is_b_true peer : is_b peer = true ↔ peer = peer_b.
Proof.
  unfold is_b, peer_b. rewrite !andb_true_iff, !bool_decide_eq_true. destruct peer as [id key address].
  cbn [lp_ID lp_PublicKey lp_Address]. split; [by intros [[-> ->] ->]|]. intros [= -> -> ->]. auto.
Qed.

Lemma hosts_apart : apart host_a host_b.
Proof. by split. Qed.

Lemma calm_refl w : calm host_a host_b verify w w.
Proof. reflexivity. Qed.

Lemma hosts_linked :
  linked host_a host_b env_a env_b link_sign verify runtime_a runtime_b peer_b client_a.
Proof.
  split.
  - apply hosts_apart.
  - intros w. apply calm_refl.
  - intros w. apply calm_refl.
  - intros w p bytes. apply calm_refl.
  - intros w digest body. apply calm_refl.
  - intros w s. apply rtc_refl.
  - intros w p bytes Hne. unfold env_a. cbn [env_of xe_link le_dial].
    destruct (is_b p) eqn:E; [|apply calm_refl]. exfalso. apply Hne, is_b_true, E.
  - intros w bytes. unfold env_a. cbn [env_of xe_link le_dial].
    by rewrite (proj2 (is_b_true peer_b) eq_refl).
  - apply sign_length.
  - intros k p Hp Hid. unfold runtime_a, runtime_of in Hp. cbn [xr_peersByID] in Hp.
    by apply lookup_singleton_Some in Hp as [_ <-].
Qed.

(** ** The pass, run *)

Definition settled_rows (w : world) : list (string * option string) :=
  (λ '(id, row), (id, row.(or_receipt))) <$>
    filter (λ '(_, row), row.(or_state) = OutboxSettled ∧ row.(or_route) = "route:ab") (map_to_list w.1.(st_db).(peer_outbox)).

Definition recorded_row (w : world) (id : string) (receipt : option string) : bool :=
  match w.2.(st_db).(peer_inbox) !! id with
  | Some row => bool_decide (row.(ir_state) = InboxSettled) && bool_decide (row.(ir_receipt) = receipt)
  | None => false
  end.

Definition routed_to_b (d : db) : bool :=
  match d.(peer_routes) !! "route:ab" with
  | Some row => bool_decide (row.(rr_remote_peer) = "peer:b")
  | None => false
  end.

Lemma routed_to_b_true d :
  routed_to_b d = true → ∃ row, d.(peer_routes) !! "route:ab" = Some row ∧ row.(rr_remote_peer) = "peer:b".
Proof.
  unfold routed_to_b. destruct (_ !! _) as [row|]; [|done]. intros H%bool_decide_eq_true. by exists row.
Qed.

(** One delivery was pending; after the pass it is settled, and host B holds the
    Receipt. *)
Definition pass_facts : list bool := [
  is_ok (fst pass);
  bool_decide (length (settled_rows before) = 0%nat);
  bool_decide (length (settled_rows (snd pass)) = 1%nat);
  forallb (λ '(id, receipt), is_some receipt && recorded_row (snd pass) id receipt) (settled_rows (snd pass));
  routed_to_b a6.(st_db)].
Lemma run_pass_facts : pass_facts = replicate 5 true.
Proof. vm_compute. reflexivity. Qed.

(** ** The delivery offered *)

Definition receive_b (w : world) (peer : AuthenticatedPeer) (offer : DeliveryOffer)
    : result DeliveryResponse * world := receiveDelivery host_b env_b verify runtime_b peer offer w.
Definition answer_b : result DeliveryResponse * world :=
  receive_b before client_a (offered link_sign identity_a sent_a).

Definition bound_answer (answer : result DeliveryResponse) (d : PeerDelivery) : bool :=
  match answer with
  | Ok {| dr_receipt := Some r |} => is_ok (requirePeerAdmissionReceiptBinding r d)
  | _ => false
  end.

Definition offer_facts : list bool := [
  is_ok (fst pending_a) && negb (bool_decide (length (ok [] (fst pending_a)) = 0%nat));
  negb (DeliveryID_IsZero sent_a.(pd_id));
  negb (Digest_IsZero sent_a.(pd_envelopeDigest));
  bool_decide (slen (private keyA) = PrivateKeySize);
  bool_decide (slen (private keyB) = PrivateKeySize);
  is_ok (destination identity_a peer_b);
  bound_answer (fst answer_b) sent_a;
  bool_decide (String.substring 0 32 (private keyB) = keyB)].
Lemma run_offer_facts : offer_facts = replicate 8 true.
Proof. vm_compute. reflexivity. Qed.

Lemma first_delivery_ok (s : Store) now limit r :
  fst (PendingPeerDeliveries s now limit) = r →
  is_ok r && negb (bool_decide (length (ok [] r) = 0%nat)) = true →
  ∃ rt, delivery_ok rt (first_delivery r).
Proof.
  intros Hr H. destruct r as [[|p items]|e]; [done| |done].
  apply (PendingPeerDeliveries_ok _ _ _ _ Hr p). set_solver.
Qed.

Lemma bound_answer_true answer d :
  bound_answer answer d = true →
  ∀ response r, answer = Ok response → response.(dr_receipt) = Some r →
    requirePeerAdmissionReceiptBinding r d = Ok ().
Proof.
  intros H response r -> Hr. destruct response as [ack receipt signature]. cbn [dr_receipt] in Hr. subst receipt.
  cbn in H. by destruct (requirePeerAdmissionReceiptBinding r d) as [[]|e].
Qed.

Lemma settled_rows_elem w n :
  length (settled_rows w) = S n →
  ∃ id row, w.1.(st_db).(peer_outbox) !! id = Some row ∧ row.(or_state) = OutboxSettled ∧
    row.(or_route) = "route:ab".
Proof.
  unfold settled_rows. rewrite length_fmap. destruct (filter _ _) as [|[id row] l] eqn:E; [done|].
  intros _. exists id, row. assert ((id, row) ∈ (id, row) :: l) as H by set_solver. rewrite <- E in H.
  apply list_elem_of_filter in H as [[Hs Hroute] Hm]. by apply elem_of_map_to_list in Hm.
Qed.

Lemma settled_rows_none w :
  length (settled_rows w) = 0%nat →
  ∀ id row, w.1.(st_db).(peer_outbox) !! id = Some row → row.(or_state) = OutboxSettled →
    row.(or_route) = "route:ab" → False.
Proof.
  unfold settled_rows. rewrite length_fmap. intros H id row Hr Hs Hroute. apply nil_length_inv in H.
  assert ((id, row) ∈ ([] : list (string * outbox_row))) as Hin.
  { rewrite <- H. apply list_elem_of_filter. split; [done|]. by apply elem_of_map_to_list. }
  by apply not_elem_of_nil in Hin.
Qed.
End TwoHosts.
