(* ===== verification/StoreContracts.v ===== *)
(** Properties of the authority Store: what every reachable database satisfies,
    and what one local call does to it. *)

From Stdlib Require Import Lia.
From S2P Require Import Prelude Utf8 Json Wire Sha256 Time StoreTime Value Intent Bound Event Peer.
From S2P Require Import View AgentView Bind Store EventStore Attach Routes Inbox Outbox.
From S2P Require Import Domain Admission PeerAdmission Current History Frames Invariant Lineage.
From S2P Require Import PeerInv Replies Lifecycle Projection Replay Effects Attention.
From S2P Require Import Boundary Calls Scenario.
Import Scenario.

#[local] Open Scope Z_scope.

(** ** Every reachable database *)

(** C16. Authority history is append-only: over any sequence of method calls no
    Event, operation, issued View, Artifact, claim disposition or Reference
    lineage row is changed or lost, an ended boundary stays ended, a revoked route
    stays revoked, a settled delivery stays settled, and a terminal Handling never
    changes again. *)
Theorem history_append_only verify s s' :
  rtc (store_step verify) s s' → extends s.(st_db) s'.(st_db).
Proof. apply store_steps_extend. Qed.

Lemma history_append_only_witness : extends initial_store.(st_db) (snd accepted_a).(st_db).
Proof. exact (history_append_only verify _ _ reach_accepted_a). Defined.

(** C17. The origin sequence of accepted Events is a clock: the sequences are
    exactly 1 .. [origin_sequence], each carried by one Event, and every causal
    depth is at most 32. *)
Theorem origin_clock_gapless verify s : reachable verify s → clock_inv s.(st_db).
Proof. apply inv_reachable, _. Qed.

Lemma origin_clock_gapless_witness : clock_inv (snd accepted_a).(st_db).
Proof. exact (origin_clock_gapless verify _ reach_accepted_a). Defined.

(** C18. Claims are exclusive: a claimed Handling is held by an attachment that
    has not ended, belongs to the Handling's own Principal and expires when the
    claim does; an attachment holds at most one claim; a Principal has at most one
    live attachment; and a begin operation key names one attachment. *)
Theorem claims_exclusive verify s : reachable verify s → claims_inv s.(st_db).
Proof. apply inv_reachable, _. Qed.

Lemma claims_exclusive_witness : claims_inv (snd current_a2).(st_db).
Proof. exact (claims_exclusive verify _ reach_current_a2). Defined.

(** C19. The history of a Reference key is linear: of two Events that ever defined
    the key, one is reached from the other by following predecessors, each
    predecessor was accepted strictly earlier, and the current head is at the end of
    every such chain. *)
Theorem reference_history_linear verify s id id' r r' :
  reachable verify s →
  s.(st_db).(reference_lineage) !! id = Some r → s.(st_db).(reference_lineage) !! id' = Some r' →
  r.(lr_key) = r'.(lr_key) →
  (rtc (previous s.(st_db)) id id' ∨ rtc (previous s.(st_db)) id' id) ∧
  (∀ p, r.(lr_previous) = Some p → accepted_before s.(st_db) p id) ∧
  ∃ ref, s.(st_db).(active_references) !! r.(lr_key) = Some ref ∧
    rtc (previous s.(st_db)) ref.(rf_head) id.
Proof.
  intros Hs Hr Hr' Hk. destruct (inv_reachable _ references_inv _ Hs) as [_ Hinv].
  destruct (ln_chain _ Hinv _ _ Hr) as (ref & Href & Hc).
  destruct (ln_chain _ Hinv _ _ Hr') as (ref' & Href' & Hc').
  assert (ref' = ref) as -> by congruence. split_and!.
  - eapply rtc_functional; [|exact Hc|exact Hc']. apply previous_functional.
  - intros p Hp. by destruct (ln_previous _ Hinv _ _ _ Hr Hp) as (_ & _ & _ & ?).
  - eauto.
Qed.

Lemma reference_history_linear_witness :
  ∃ id id', id ≠ id' ∧
    (rtc (previous (snd superseded_c).(st_db)) id id' ∨ rtc (previous (snd superseded_c).(st_db)) id' id).
Proof.
  run_fact_c 3%nat H. apply one_key_true in H as (id & r & id' & r' & Hne & Hr & Hr' & Hk).
  exists id, id'. split; [exact Hne|].
  exact (proj1 (reference_history_linear verify _ id id' r r' reach_superseded_c Hr Hr' Hk)).
Defined.

(** C20. Refinement: whatever calls are made, each Handling moves along the
    abstract lifecycle, call by call and caller by caller.  It is opened free; a
    bearer of an attachment's credential claims it for that attachment, under the
    next fence; while it is claimed, its head is advanced or it is settled only by
    a call that bears the credential of the attachment holding the claim; the claim
    is released without that only when the release, with its attachment and fence,
    is on record; and once settled it never moves again. *)
Theorem handling_lifecycle_refined verify callers s s' id :
  store_run verify callers s s' →
  life_run (disposed s'.(st_db) id) callers (lifecycle_of (s.(st_db).(handlings) !! id))
    (lifecycle_of (s'.(st_db).(handlings) !! id)).
Proof. apply store_run_refines. Qed.

(** A Handling opened by a peer's delivery, then claimed and declined by the bearer
    of one attachment. *)
Lemma handling_lifecycle_refined_witness :
  ∃ id head, lifecycle_of ((snd admitted_b).(st_db).(handlings) !! id) = Done head 1 "declined" ∧
    life_run (disposed (snd admitted_b).(st_db) id)
      [Unattached; Unattached; Unattached; Unattached; Unattached; Bearer proof_b.(ap_id); Bearer proof_b.(ap_id)]
      Absent (Done head 1 "declined").
Proof.
  run_fact 25%nat H. apply settled_once_true in H as (id & head & H). exists id, head. split; [exact H|].
  rewrite <- H. exact (handling_lifecycle_refined verify _ initial_store (snd admitted_b) id run_b).
Defined.

(** ** Local admission *)

(** C21. The commit of an admission has exactly these outcomes: an error, which
    changes nothing; an exact replay, which changes nothing; a recorded rejection,
    which adds one operation row under a fresh key and nothing else; or an
    acceptance, which adds that row, exactly one fresh Event that carries the
    request, and one tick of the origin clock. *)
Theorem admission_outcomes entropy s now proof request failure :
  let '(outcome, s') := commitAdmission entropy s now proof request failure in
  match outcome with
  | Err _ => s' = s
  | Ok r => (r.(ar_replayed) = true ∧ s' = s) ∨ fresh_outcome request r s.(st_db) s'.(st_db)
  end.
Proof.
  pose proof (commitAdmission_Err entropy s now proof request failure) as He.
  pose proof (commitAdmission_Ok entropy s now proof request failure) as Ho.
  destruct (commitAdmission _ _ _ _ _ _) as [[r|e] s']; cbn [fst snd] in *; [|by apply (He e)].
  destruct (Ho r eq_refl) as (Hc & _ & Hc' & id & ids & _ & Htx).
  apply commitAdmissionTx_outcome in Htx as [[? ?]|?]; [left|by right].
  split; [done|]. apply same_store; congruence.
Qed.



(** C23. An operation key names one request: submitting different content under a
    key the Principal has already used is refused as a conflict, and changes
    nothing. *)
Theorem operation_key_conflict verifier entropy between s now1 now2 proof au row request :
  authenticateAttachmentTx s.(st_db) proof = Ok au →
  s.(st_db).(operations) !! (au.(aa_value).(at_principal), request.(bi_operationKey)) = Some row →
  row.(opr_request_digest) ≠ Digest_String request.(bi_digest) →
  s.(st_closed) = false → now1 ≠ zero_time → IsZero request.(bi_operationKey) = false →
  Digest_IsZero request.(bi_digest) = false →
  Admit verifier entropy between s now1 now2 proof request = (Err ErrOperationConflict, s).
Proof.
  intros Hau Hrow Hne Hc Hn Hk Hd. unfold Admit. rewrite Hk, Hd. unfold guarded at 1. cbn [orb fail_if].
  unfold preflightAdmission, preflightAdmissionTx, requireOpen.
  rewrite trustedNow_nonzero, Hc by done. cbn [fail_if mbind result_bind]. rewrite Hau.
  cbn [mbind result_bind]. unfold operationReplayTx. rewrite Hrow, bool_decide_eq_false_2 by done. done.
Qed.

Lemma operation_key_conflict_witness :
  Admit None (entropy "retry") id (snd admitted_a) (at_ns 900) (at_ns 901) proof_a
    (other_request request_a) = (Err ErrOperationConflict, snd admitted_a).
Proof.
  run_fact 22%nat H. apply conflicts_true in H as (au & row & Hau & Hrow & Hd).
  run_fact 14%nat H. apply andb_true_iff in H as [Hc _]. apply negb_true_iff in Hc.
  run_fact 23%nat H. apply andb_true_iff in H as [Hk Hz]. apply negb_true_iff in Hk. apply negb_true_iff in Hz.
  exact (operation_key_conflict _ _ _ _ _ _ proof_a au row (other_request request_a)
    Hau Hrow Hd Hc (at_nonzero 900 ltac:(lia)) Hk Hz).
Defined.

(** C24. Compare and swap on the subject: an admission that settles a Handling is
    accepted only when the live caller holds the unexpired claim on exactly the
    head, fence and observation revision its View showed; it then moves that
    Handling's head to the new Event, releases the claim, and leaves every other
    existing Handling as it was. *)
Theorem subject_compare_and_swap entropy s now proof request failure r st o :
  fst (commitAdmission entropy s now proof request failure) = Ok r →
  r.(ar_replayed) = false → r.(ar_outcome) = ReceiptOutcomeAccepted →
  settled_state request.(bi_intent).(ai_consequence) = Some (st, o) →
  let d := s.(st_db) in
  let d' := (snd (commitAdmission entropy s now proof request failure)).(st_db) in
  ∃ au subject row until e,
    authenticateAttachmentTx d proof = Ok au ∧ requireLiveAttachment au now = Ok () ∧
    request.(bi_subject) = Some subject ∧ d.(handlings) !! subject.(sb_handlingID) = Some row ∧
    row.(hr_state) = HandlingOpen ∧ row.(hr_target) = au.(aa_value).(at_principal) ∧
    row.(hr_claim) = Some au.(aa_value).(at_id) ∧ row.(hr_until) = Some (formatTime until) ∧ now < until ∧
    row.(hr_head) = subject.(sb_head).(er_id) ∧ row.(hr_fence) = subject.(sb_fence) ∧
    terminalObservationRevisionTx d subject.(sb_handlingID) = Ok subject.(sb_observationRevision) ∧
    d.(events) !! e.(ev_id) = None ∧
    d'.(handlings) !! subject.(sb_handlingID) = Some (settled_handling row e st o) ∧
    (∀ k r, k ≠ subject.(sb_handlingID) → d.(handlings) !! k = Some r → d'.(handlings) !! k = Some r).
Proof.
  intros H Hfresh Hout Hst d d'. apply commitAdmission_Ok in H as (_ & _ & _ & id & ids & _ & Htx).
  apply commitAdmissionTx_accepted in Htx as (au & e & Hacc); [|done..]. fold d d' in Hacc.
  destruct (aa_effect _ _ _ _ _ _ _ _ Hacc) as (d2 & d3 & E2 & _ & _ & H & E3 & _).
  pose proof (aa_event _ _ _ _ _ _ _ _ Hacc) as Heo. rewrite <- (eo_consequence _ _ Heo) in Hst.
  destruct (applyDomainEffectTx_settles _ _ _ _ _ _ _ Hst H) as (d1 & H1 & H2).
  apply settleSubjectTx_Ok in H1 as (subject & row & Hs & Hr & Ho & Hh & Hc & Hf & ->).
  rewrite (eo_subject _ _ Heo) in Hs. rewrite E2 in Hr.
  destruct (ac_subject _ _ _ _ (aa_checked _ _ _ _ _ _ _ _ Hacc) _ Hs)
    as (claim & until & row' & Hheld & Hlt & Eid & _ & _ & Erev).
  pose proof (hc_row _ _ _ _ _ Hheld) as Hr'. rewrite <- Eid, Hr in Hr'. injection Hr' as <-.
  assert (∀ k r, <[sb_handlingID subject := settled_handling row e st o]> (handlings d2) !! k = Some r →
    handlings d' !! k = Some r) as Hkeep.
  { intros k r' Hk. rewrite E3. unfold createSuccessorHandlingsTx in H2.
    apply bind_Ok in H2 as ([] & _ & H2). by eapply create_successors_keeps. }
  exists au, subject, row, until, e. split_and!; try apply Hacc; try apply Hheld; try done.
  - rewrite Eid, Erev. apply Hheld.
  - apply Hkeep, lookup_insert_eq.
  - intros k r' Hk Hl. apply Hkeep. by rewrite lookup_insert_ne, E2 by done.
Qed.

Lemma subject_compare_and_swap_witness :
  ∃ subject row, request_b.(bi_subject) = Some subject ∧
    (snd current_b).(st_db).(handlings) !! subject.(sb_handlingID) = Some row ∧
    row.(hr_fence) = subject.(sb_fence).
Proof.
  run_fact 7%nat H. apply freshly_accepted_true in H as (r & Hr & Hf & Ho & _). unfold admitted_b in Hr.
  run_fact 17%nat Hc. apply bool_decide_eq_true in Hc.
  assert (settled_state request_b.(bi_intent).(ai_consequence) = Some (HandlingTerminal, Some "declined")) as Hst.
  { rewrite Hc. reflexivity. }
  destruct (subject_compare_and_swap _ _ _ _ _ _ r _ _ Hr Hf Ho Hst)
    as (au & subject & row & until & e & _ & _ & H1 & H2 & _ & _ & _ & _ & _ & _ & H3 & _).
  exists subject, row. exact (conj H1 (conj H2 H3)).
Defined.

(** C25. Compare and swap on a Reference: an admission that publishes, supersedes
    or retracts is accepted only when the key is absent or at the head the request
    expected; the key's head then is the new Event, whose lineage names the head it
    replaced, and no other key moves. *)
Theorem reference_compare_and_swap entropy s now proof request failure r :
  fst (commitAdmission entropy s now proof request failure) = Ok r →
  r.(ar_replayed) = false → r.(ar_outcome) = ReceiptOutcomeAccepted →
  changes_reference request.(bi_intent).(ai_consequence) = true →
  let d := s.(st_db) in
  let d' := (snd (commitAdmission entropy s now proof request failure)).(st_db) in
  ∃ expected ref row e,
    request.(bi_expectedReference) = Some expected ∧ d.(events) !! e.(ev_id) = None ∧
    rf_head <$> d.(active_references) !! expected.(re_key) =
      (if expected.(re_absent) then None else Some expected.(re_head).(er_id)) ∧
    d'.(active_references) = <[expected.(re_key) := ref]> d.(active_references) ∧
    ref.(rf_head) = e.(ev_id) ∧
    d'.(reference_lineage) = <[e.(ev_id) := row]> d.(reference_lineage) ∧
    row.(lr_key) = expected.(re_key) ∧
    row.(lr_previous) = rf_head <$> d.(active_references) !! expected.(re_key) ∧
    d'.(handlings) = d.(handlings).
Proof.
  intros H Hfresh Hout Hc d d'. apply commitAdmission_Ok in H as (_ & _ & _ & id & ids & _ & Htx).
  apply commitAdmissionTx_accepted in Htx as (au & e & Hacc); [|done..]. fold d d' in Hacc.
  destruct (aa_effect _ _ _ _ _ _ _ _ Hacc) as (d2 & d3 & E2 & E2r & E2l & H & E3 & E3r & E3l).
  pose proof (aa_event _ _ _ _ _ _ _ _ Hacc) as Heo. rewrite <- (eo_consequence _ _ Heo) in Hc.
  apply (applyDomainEffectTx_reference _ _ _ _ _ Hc), reference_effect_Ok in H
    as (expected & row & ref & Hx & Hk & Hh & _ & _ & Hp & Hp' & _ & _ & ->).
  rewrite (eo_expected _ _ Heo) in Hx. rewrite E2r in *. db_simpl.
  exists expected, ref, row, e. split_and!; try done; [apply Hacc|congruence| |]; db_simpl; congruence.
Qed.

Lemma reference_compare_and_swap_witness :
  ∃ expected, request_c2.(bi_expectedReference) = Some expected ∧
    rf_head <$> (snd current_c2).(st_db).(active_references) !! expected.(re_key) =
      (if expected.(re_absent) then None else Some expected.(re_head).(er_id)).
Proof.
  run_fact_c 1%nat H. apply freshly_accepted_true in H as (r & Hr & Hf & Ho & _). unfold superseded_c in Hr.
  run_fact_c 2%nat Hc. apply bool_decide_eq_true in Hc.
  assert (changes_reference request_c2.(bi_intent).(ai_consequence) = true) as Hst.
  { rewrite Hc. reflexivity. }
  destruct (reference_compare_and_swap _ _ _ _ _ _ r Hr Hf Ho Hst) as (expected & _ & _ & _ & H1 & _ & H2 & _).
  exists expected. exact (conj H1 H2).
Defined.

(** C26. Local admissions respect the bound on open Handlings: an accepted one
    leaves its Principal with at most 64 open Handlings unless it opened none on
    balance, and never opens one for another Principal. *)
Theorem open_handlings_bounded entropy s now proof request failure r :
  fst (commitAdmission entropy s now proof request failure) = Ok r →
  r.(ar_replayed) = false → r.(ar_outcome) = ReceiptOutcomeAccepted →
  let d := s.(st_db) in
  let d' := (snd (commitAdmission entropy s now proof request failure)).(st_db) in
  ∃ au, authenticateAttachmentTx d proof = Ok au ∧
    let principal := au.(aa_value).(at_principal) in
    (∀ other, other ≠ principal → open_handlings d' other = open_handlings d other) ∧
    (open_handlings d' principal <= MaxOpenHandlingsPerPrincipal ∨
     open_handlings d' principal <= open_handlings d principal).
Proof.
  intros H Hfresh Hout d d'. apply commitAdmission_Ok in H as (_ & _ & _ & id & ids & _ & Htx).
  apply commitAdmissionTx_accepted in Htx as (au & e & Hacc); [|done..].
  exists au. split; [apply Hacc|]. by eapply accepted_open_handlings.
Qed.

Lemma open_handlings_bounded_witness :
  ∃ au, authenticateAttachmentTx (snd current_a).(st_db) proof_a = Ok au ∧
    (open_handlings (snd admitted_a).(st_db) au.(aa_value).(at_principal) <= MaxOpenHandlingsPerPrincipal ∨
     open_handlings (snd admitted_a).(st_db) au.(aa_value).(at_principal) <=
     open_handlings (snd current_a).(st_db) au.(aa_value).(at_principal)).
Proof.
  run_fact 2%nat H. apply freshly_accepted_true in H as (r & Hr & Hf & Ho & _). unfold admitted_a in Hr.
  destruct (open_handlings_bounded _ _ _ _ _ _ r Hr Hf Ho) as (au & H1 & _ & H2).
  exists au. exact (conj H1 H2).
Defined.

(** ** Current *)

(** C27. Attention is fair: a Current either replays an issued View and changes
    nothing, or works - after expiring overdue claims - on the claim its live
    boundary already holds, else on the free open Handling of its Principal with
    the lowest fence (then the oldest, then the least identifier), which it claims
    under the next fence until the boundary expires; the View offers exactly that
    Handling, its head, fence and observation revision as the subject, and no
    other Handling changes. *)
Theorem current_serves_least_attended verify s now proof operation view :
  reachable verify s → fst (Current s now proof operation) = Ok view →
  let d := s.(st_db) in
  let d' := (snd (Current s now proof operation)).(st_db) in
  d' = d ∨
  ∃ au d1 claim d2,
    authenticateAttachmentTx d proof = Ok au ∧ requireLiveAttachment au now = Ok () ∧
    settleExpiredClaimsTx d au.(aa_value).(at_principal) now MaxClaimExpirySettlementsPerCurrent = Ok d1 ∧
    acquired au.(aa_value) d1 claim d2 ∧ offers_claim view.(bv_authority) claim ∧
    d'.(handlings) = d2.(handlings).
Proof.
  intros Hs H d d'. apply Current_Ok in H as [_ H].
  apply (currentTx_fresh _ _ _ _ _ _ (inv_reachable _ claims_inv _ Hs)) in H
    as [H|(au & d1 & claim & d2 & Hf)]; [by left|right].
  exists au, d1, claim, d2. split_and!; try apply Hf. unfold d'. by rewrite (fc_row _ _ _ _ _ _ _ _ _ _ Hf).
Qed.

Lemma current_serves_least_attended_witness :
  ∃ view claim, fst current_b = Ok view ∧ offers_claim view.(bv_authority) claim.
Proof.
  run_fact 6%nat H. apply is_ok_true in H as [view Hv]. unfold current_b in Hv.
  destruct (current_serves_least_attended verify _ _ _ _ _ reach_issued_b Hv)
    as [H|(_ & _ & claim & _ & _ & _ & _ & _ & H & _)]; [|exists view, claim; exact (conj Hv H)].
  run_fact 28%nat H1. run_fact 29%nat H2. destruct (recorded_changes _ _ _ H1 H2 H).
Defined.

(** C28. Views are well formed and durable: the machine authority of a freshly
    issued View belongs to the caller's own attachment, every handle in it resolves
    to a well-formed value, its sealed bytes parse back to exactly that authority,
    and the recorded row holds those bytes and their digest. *)
Theorem issued_views_read_back verify s now proof operation view :
  reachable verify s → fst (Current s now proof operation) = Ok view →
  let d := s.(st_db) in
  let d' := (snd (Current s now proof operation)).(st_db) in
  d' = d ∨
  ∃ au, authenticateAttachmentTx d proof = Ok au ∧
    view.(bv_authority).(va_attachment) = au.(aa_value) ∧ view_ok view.(bv_authority) ∧
    ParseViewAuthorityCanonicalJSON view.(bv_authority).(va_canonical) au.(aa_value) =
      Ok view.(bv_authority) ∧
    d'.(current_operations) !! (au.(aa_value).(at_id), operation.(co_key)) =
      Some (current_row_of operation view).
Proof.
  intros Hs H d d'. apply Current_Ok in H as [_ H].
  apply (currentTx_fresh _ _ _ _ _ _ (inv_reachable _ claims_inv _ Hs)) in H
    as [H|(au & d1 & claim & d2 & Hf)]; [by left|right].
  exists au. pose proof (fc_attachment _ _ _ _ _ _ _ _ _ _ Hf) as Ea.
  split_and!; try apply Hf; [rewrite <- Ea; apply Hf|].
  unfold d'. rewrite (fc_row _ _ _ _ _ _ _ _ _ _ Hf). db_simpl. apply lookup_insert_eq.
Qed.

Lemma issued_views_read_back_witness :
  ∃ view, fst current_a = Ok view ∧ view_ok view.(bv_authority).
Proof.
  run_fact 1%nat H. apply is_ok_true in H as [view Hv]. exists view. split; [exact Hv|]. unfold current_a in Hv.
  destruct (issued_views_read_back verify _ _ _ _ _ reach_issued_a Hv) as [H|(_ & _ & _ & H & _)]; [|exact H].
  run_fact 19%nat H1. run_fact 20%nat H2. destruct (recorded_changes _ _ _ H1 H2 H).
Defined.

(** ** Host boundaries *)

(** C29. Issuing a boundary leaves it as its Principal's only live attachment,
    bound to the returned credential and expiry, and issuing the same boundary
    again at any time returns the same proof and changes nothing. *)
Theorem issue_is_exclusive_and_idempotent verify s now principal boundary proof :
  reachable verify s → fst (IssueInteractiveAttachment s now principal boundary) = Ok proof →
  four_digit_year now → four_digit_year (now + interactiveAttachmentLifetime) →
  let s' := snd (IssueInteractiveAttachment s now principal boundary) in
  (∃ row, s'.(st_db).(attachments) !! proof.(ap_id) = Some row ∧ live_slot row = Some principal ∧
     row.(atr_credential_digest) = Digest_String (Sum proof.(ap_credential)) ∧
     row.(atr_expires_at) = formatTime proof.(ap_expiresAt)) ∧
  (∀ a r, s'.(st_db).(attachments) !! a = Some r → live_slot r = Some principal → a = proof.(ap_id)) ∧
  ∀ now', IssueInteractiveAttachment s' now' principal boundary = (Ok proof, s').
Proof.
  intros Hs H Hy Hy' s'. pose proof (inv_reachable _ claims_inv _ Hs) as Hcl.
  apply IssueInteractiveAttachment_Ok in H as (_ & Hc' & m & Hm & Htx). fold s' in Hc', Htx.
  pose proof (issueAttachmentTx_claims _ _ _ _ _ _ Htx Hcl) as Hcl'.
  destruct (issueAttachmentTx_live _ _ _ _ _ _ Hcl Htx) as (row & Hrow & Hlive & Hcred).
  split_and!; [by exists row| |].
  - intros a r Ha Hl. by eapply (cl_single _ Hcl').
  - intros now'. unfold IssueInteractiveAttachment, guarded. rewrite Hm.
    erewrite transact_body; [|done|exact (issueAttachmentTx_again _ _ _ _ _ _ now' Hcl' Hy Hy' Htx)].
    f_equal. by apply same_store.
Qed.

Lemma issue_is_exclusive_and_idempotent_witness :
  ∃ proof, fst issued_a = Ok proof ∧
    IssueInteractiveAttachment (snd issued_a) (at_ns 500) "agent:a" (Sum "boundary a") = (Ok proof, snd issued_a).
Proof.
  run_fact 0%nat H. apply is_ok_true in H as [proof Hp]. exists proof. split; [exact Hp|].
  unfold issued_a in Hp.
  assert (four_digit_year (at_ns 2 + interactiveAttachmentLifetime)) as Hy.
  { apply int64_four_digit. unfold at_ns, t0, interactiveAttachmentLifetime, ns_per_second, min_int64, max_int64. lia. }
  exact (proj2 (proj2 (issue_is_exclusive_and_idempotent verify _ _ _ _ _ reach_a2 Hp
    (four_digit_at 2 ltac:(lia)) Hy)) (at_ns 500)).
Defined.

(** C30. Ending a boundary closes it, releases the claim it held and no other -
    the Handling keeps its head, state and fence - and ending it again reports the
    same release and changes nothing. *)
Theorem end_releases_exactly_its_claim verify s now proof r :
  reachable verify s → fst (EndInteractiveAttachment s now proof) = Ok r → r.(ae_replayed) = false →
  four_digit_year now →
  let d := s.(st_db) in
  let s' := snd (EndInteractiveAttachment s now proof) in
  (∀ row, s'.(st_db).(attachments) !! proof.(ap_id) = Some row → is_Some row.(atr_ended_at)) ∧
  (∀ k h, d.(handlings) !! k = Some h →
     s'.(st_db).(handlings) !! k =
       Some (if bool_decide (h.(hr_claim) = Some proof.(ap_id)) then release_claim h else h)) ∧
  (r.(ae_releasedClaim) = true ↔ ∃ k h, d.(handlings) !! k = Some h ∧ h.(hr_claim) = Some proof.(ap_id)) ∧
  ∀ now', now' ≠ zero_time → EndInteractiveAttachment s' now' proof =
    (Ok {| ae_replayed := true; ae_releasedClaim := r.(ae_releasedClaim) |}, s').
Proof.
  intros Hs H Hfresh Hy d s'. pose proof (inv_reachable _ claims_inv _ Hs) as Hcl.
  pose proof (inv_reachable _ boundary_inv _ Hs) as Hbd.
  apply EndInteractiveAttachment_Ok in H as (_ & Hc' & _ & Htx). fold d s' in Hc', Htx.
  destruct (endAttachmentTx_releases _ _ _ _ _ Hcl Htx Hfresh) as (H1 & H2 & H3).
  split_and!; try done. intros now' Hn. unfold EndInteractiveAttachment, guarded.
  rewrite trustedNow_nonzero by done. erewrite transact_body; [|done|exact (endAttachmentTx_again _ _ _ _ _ now' Hcl Hbd Hy Htx Hfresh)].
  f_equal. by apply same_store.
Qed.

Lemma end_releases_exactly_its_claim_witness :
  ∃ r, fst ended_b = Ok r ∧ r.(ae_releasedClaim) = true ∧
    EndInteractiveAttachment (snd ended_b) (at_ns 15) proof_b =
      (Ok {| ae_replayed := true; ae_releasedClaim := r.(ae_releasedClaim) |}, snd ended_b).
Proof.
  run_fact 12%nat H. apply freshly_released_true in H as (r & Hr & Hf & Hrel). exists r.
  split; [exact Hr|]. split; [exact Hrel|]. unfold ended_b in Hr.
  exact (proj2 (proj2 (proj2 (end_releases_exactly_its_claim verify _ _ _ r reach_current_b Hr Hf
    (four_digit_at 14 ltac:(lia))))) (at_ns 15) (at_nonzero 15 ltac:(lia))).
Defined.

(** ** Fairness *)

(** C40. Bounded overtaking: while a Handling waits unclaimed, whatever calls are
    made, every other Handling of its Principal - those opened meanwhile included -
    is claimed only until it has been claimed once more often than the waiting one,
    so the waiting Handling's turn comes after boundedly many claims. *)
Theorem bounded_overtaking verify p k fence s s' id row :
  rtc (waiting_step verify p k fence) s s' →
  s'.(st_db).(handlings) !! id = Some row → row.(hr_target) = p →
  row.(hr_fence) <= Z.max (fence_of s.(st_db) id) (fence + 1).
Proof. intros H. by apply (waiting_steps_overtaken verify p k fence s s' H). Qed.

Lemma bounded_overtaking_witness :
  ∃ k, waiting "agent:b" k 0 (snd issued_b).(st_db) ∧
  ∀ id row, (snd current_b).(st_db).(handlings) !! id = Some row → row.(hr_target) = "agent:b" →
    row.(hr_fence) <= Z.max (fence_of (snd accepted_b).(st_db) id) (0 + 1).
Proof.
  run_fact 24%nat H. apply still_waiting_true in H as (k & H1 & H2). exists k. split; [exact H2|].
  intros id row. apply (bounded_overtaking verify "agent:b" k 0 (snd accepted_b) (snd current_b) id row).
  exact (rtc_l _ _ _ _ (conj H1 (step_issue verify _ _ _ _)) (rtc_once _ _ (conj H2 (step_current verify _ _ _ _)))).
Defined.
