(* ===== verification/PeerContracts.v ===== *)
(** Properties of the peer exchange: routes, staged and admitted deliveries,
    terminal replies and settlement. *)

From Stdlib Require Import Lia.
From S2P Require Import Prelude Utf8 Json Wire Sha256 Time StoreTime Value Intent Bound Event Peer.
From S2P Require Import View AgentView Bind Store EventStore Attach Routes Inbox Outbox.
From S2P Require Import Domain Admission PeerAdmission Current History Frames Invariant Lineage.
From S2P Require Import PeerInv Replies Lifecycle Projection Replay Effects PeerSteps Calls.
From S2P Require Import Scenario.
Import Scenario.

#[local] Open Scope Z_scope.

(** ** Every reachable database *)

(** C31. The peer tables stay bounded and unambiguous: at most 8 active routes and
    64 staged deliveries; one route per remote peer and per surrogate Principal; one
    outbound delivery per origin Event and route, and per envelope; and every
    pending delivery rides on an active route. *)
Theorem peer_tables_bounded verify s :
  reachable verify s →
  routes_inv s.(st_db) ∧ inbox_inv s.(st_db) ∧ outbox_inv s.(st_db) ∧ pending_inv s.(st_db).
Proof. intros Hs. split_and!; apply (inv_reachable verify), Hs; apply _. Qed.

Lemma peer_tables_bounded_witness : routes_inv (snd accepted_a).(st_db) ∧ inbox_inv (snd accepted_a).(st_db) ∧
  outbox_inv (snd accepted_a).(st_db) ∧ pending_inv (snd accepted_a).(st_db).
Proof. exact (peer_tables_bounded verify _ reach_accepted_a). Defined.

(** C32. Terminal replies are counted, not replayed: two accepted deliveries never
    answer the same outbound delivery, an accepted reply answers one that was sent,
    and the observation revision of a Handling is always defined and at most 64. *)
Theorem terminal_replies_bounded verify s :
  reachable verify s →
  (∀ k k' row row' sent, s.(st_db).(peer_inbox) !! k = Some row → s.(st_db).(peer_inbox) !! k' = Some row' →
     accepted_reply row = Some sent → accepted_reply row' = Some sent → k = k') ∧
  (∀ k row sent, s.(st_db).(peer_inbox) !! k = Some row → accepted_reply row = Some sent →
     is_Some (s.(st_db).(peer_outbox) !! sent)) ∧
  (∀ anchor, IsZero anchor = false →
     ∃ revision, terminalObservationRevisionTx s.(st_db) anchor = Ok revision ∧ 0 <= revision <= 64).
Proof.
  intros Hs. pose proof (inv_reachable _ inbox_inv _ Hs) as Hin.
  pose proof (inv_reachable _ replies_inv _ Hs) as Hrp. split_and!.
  - intros k k' row row' sent. apply (in_reply _ Hin).
  - apply (rp_outbound _ Hrp).
  - intros anchor Hz. unfold terminalObservationRevisionTx. rewrite Hz. cbn [fail_if mbind result_bind].
    pose proof (rp_bound _ Hrp anchor) as Hb. rewrite (proj2 (Z.ltb_ge _ _) Hb). cbn [fail_if mbind result_bind].
    eexists. split; [done|]. split; [apply count_nonneg|exact Hb].
Qed.

Lemma terminal_replies_bounded_witness :
  ∃ k row sent, (snd accepted_a).(st_db).(peer_inbox) !! k = Some row ∧ accepted_reply row = Some sent ∧
    is_Some ((snd accepted_a).(st_db).(peer_outbox) !! sent).
Proof.
  run_fact 30%nat H. apply has_reply_true in H as (k & row & sent & Hk & Hs). exists k, row, sent.
  destruct (terminal_replies_bounded verify _ reach_accepted_a) as (_ & H & _).
  exact (conj Hk (conj Hs (H k row sent Hk Hs))).
Defined.

(** ** Receiving *)

(** C33. Staging authenticates: a delivery is recorded only under the route of the
    authenticated peer, when its bytes parse canonically under that route and the
    route's key signed them; the recorded row holds exactly those bytes and that
    signature; a fresh staged one is addressed to the route's inbound target, is not
    expired, and came over an active route; no other table changes. *)
Theorem staging_authenticates verify s now peer canonical signature r :
  fst (StagePeerDelivery verify s now peer canonical signature) = Ok r →
  let d := s.(st_db) in
  let d' := (snd (StagePeerDelivery verify s now peer canonical signature)).(st_db) in
  ∃ route row, authentic verify d peer canonical signature route r.(pa_delivery) ∧
    changes [TInbox] d d' ∧
    d'.(peer_inbox) !! DeliveryID_String r.(pa_delivery).(pd_id) = Some row ∧
    carries row route canonical signature ∧
    (r.(pa_replayed) = false → r.(pa_state) = PeerAdmissionStateStaged →
       route.(pr_active) = true ∧ r.(pa_delivery).(pd_targetAlias) = pr_inboundTargetAlias route ∧
       now < r.(pa_delivery).(pd_expiresAt)).
Proof.
  intros H d d'. apply StagePeerDelivery_Ok in H as (_ & _ & H).
  apply stagePeerDeliveryTx_Ok in H as (route & Ha & Hch & row & Hrow & Hcar & Hst).
  exists route, row. split_and!; try done. intros Hf Hs. by destruct (Hst Hf Hs) as (? & _ & _ & ? & ?).
Qed.

Lemma staging_authenticates_witness :
  ∃ r route row, fst staged_b = Ok r ∧
    authentic verify b2.(st_db) "peer:a" sent_a.(pd_canonical) (sign keyA (delivery_message sent_a)) route
      r.(pa_delivery) ∧
    carries row route sent_a.(pd_canonical) (sign keyA (delivery_message sent_a)).
Proof.
  run_fact 4%nat H. apply peer_state_true in H as (r & Hr & Hf & Hs).
  pose proof Hr as Hcall. unfold staged_b in Hcall.
  destruct (staging_authenticates verify b2 (at_ns 10) _ _ _ r Hcall) as (route & row & Ha & _ & _ & Hc & _).
  exists r, route, row. exact (conj Hr (conj Ha Hc)).
Defined.

(** Staging is idempotent: the same signed bytes delivered again before they
    expire return the same staged result, marked as a replay, and change nothing. *)
Theorem staging_idempotent verify s now peer canonical signature r now' :
  fst (StagePeerDelivery verify s now peer canonical signature) = Ok r →
  r.(pa_replayed) = false → r.(pa_state) = PeerAdmissionStateStaged →
  now' ≠ zero_time → now' < r.(pa_delivery).(pd_expiresAt) →
  let s' := snd (StagePeerDelivery verify s now peer canonical signature) in
  StagePeerDelivery verify s' now' peer canonical signature = (Ok (as_replay r), s').
Proof.
  intros H Hf Hs Hz Hn s'. apply StagePeerDelivery_Ok in H as (Hc & Hg & H). fold s' in Hc, H.
  unfold StagePeerDelivery, guarded. rewrite Hg. cbn [fail_if].
  erewrite transact_body; [|done|].
  2:{ rewrite trustedNow_nonzero by done. cbn [mbind result_bind].
      exact (stagePeerDeliveryTx_again _ _ _ _ _ _ _ _ now' H Hf Hs Hn). }
  f_equal. by apply same_store.
Qed.

Lemma staging_idempotent_witness :
  ∃ r, fst staged_b = Ok r ∧
    StagePeerDelivery verify (snd staged_b) (at_ns 12) "peer:a" sent_a.(pd_canonical)
      (sign keyA (delivery_message sent_a)) = (Ok (as_replay r), snd staged_b).
Proof.
  run_fact 4%nat H. apply peer_state_true in H as (r & Hr & Hf & Hs). exists r. split; [exact Hr|].
  assert (at_ns 12 < r.(pa_delivery).(pd_expiresAt)) as Hlt.
  { run_fact 16%nat Hx. rewrite Hr in Hx. by apply Z.ltb_lt. }
  exact (staging_idempotent verify b2 (at_ns 10) "peer:a" _ _ r (at_ns 12) Hr Hf Hs (at_nonzero 12 ltac:(lia)) Hlt).
Defined.

(** C35. Peer admission is sound: a delivery becomes a local Event only if it was
    staged, its route is still active, its stored bytes still verify under the
    route's key, it has not expired, its Artifacts are in the catalog, it names the
    route's own source and target, and a terminal reply matches an open
    responsibility; then exactly one Event is added, at the next origin sequence, and
    the row is settled with the Receipt of that Event. *)
Theorem peer_admission_sound verify entropy s now id checks ids r :
  fst (commitPeerAdmission verify entropy s now id checks ids) = Ok r →
  r.(pa_replayed) = false → r.(pa_state) = PeerAdmissionStateAccepted →
  let d := s.(st_db) in
  let d' := (snd (commitPeerAdmission verify entropy s now id checks ids)).(st_db) in
  ∃ prep row route e receipt, admissible verify d id checks now prep row route ∧
    d.(events) !! e.(ev_id) = None ∧ d'.(events) = <[e.(ev_id) := event_row_of e]> d.(events) ∧
    d'.(origin_sequence) = d.(origin_sequence) + 1 ∧ d'.(operations) = d.(operations) ∧
    r.(pa_receipt) = Some receipt ∧
    d'.(peer_inbox) !! DeliveryID_String id = Some (settle_row row (Some e.(ev_id)) receipt now).
Proof.
  intros H Hf Hacc d d'. apply commitPeerAdmission_Ok in H as (eid & H). fold d d' in H.
  by apply commitPeerAdmissionTx_sound in H.
Qed.

Lemma peer_admission_sound_witness :
  ∃ prep row route, admissible verify (snd staged_a).(st_db) sent_b.(pd_id) [] (at_ns 22) prep row route.
Proof.
  run_fact 10%nat H. apply peer_state_true in H as (r & Hr & Hf & Hs).
  unfold accepted_a in Hr. destruct (peer_admission_sound verify _ _ _ _ _ _ r Hr Hf Hs)
    as (prep & row & route & _ & _ & Hadm & _). exists prep, row, route. exact Hadm.
Defined.

(** ** Sending *)

(** C36. An accepted admission queues exactly one delivery per remote target: each
    remote target of the request gets one new pending row, for its own route, which
    is active, and for the new Event; no other row appears or changes. *)
Theorem one_delivery_per_remote_target entropy s now proof request failure r :
  fst (commitAdmission entropy s now proof request failure) = Ok r →
  r.(ar_replayed) = false → r.(ar_outcome) = ReceiptOutcomeAccepted →
  ∃ e, event_of request e ∧ s.(st_db).(events) !! e.(ev_id) = None ∧
    delivers e (remote_targets request.(bi_targets)) s.(st_db)
      (snd (commitAdmission entropy s now proof request failure)).(st_db).
Proof.
  intros H Hf Ho. apply commitAdmission_Ok in H as (_ & _ & _ & id & ids & _ & H).
  by eapply commitAdmissionTx_delivers.
Qed.

Lemma one_delivery_per_remote_target_witness :
  ∃ e, delivers e (remote_targets request_a.(bi_targets)) (snd current_a).(st_db) (snd admitted_a).(st_db).
Proof.
  run_fact 2%nat H. apply freshly_accepted_true in H as (r & Hr & Hf & Ho & _). unfold admitted_a in Hr.
  destruct (one_delivery_per_remote_target _ _ _ _ _ _ _ Hr Hf Ho) as (e & _ & _ & Hd). exists e. exact Hd.
Defined.

(** C37. Settlement is authenticated and final: a delivery is settled only by the
    route's own peer, with a Receipt that parses as a Receipt of that very delivery
    and is signed by the route's key, while the row is pending, unexpired and on an
    active route - and then only that row changes; on a settled row the only Receipt
    that is answered is the recorded one, and nothing changes. *)
Theorem settlement_authenticated verify s now peer id canonical signature receipt replayed :
  fst (SettlePeerDelivery verify s now peer id canonical signature) = Ok (receipt, replayed) →
  let d := s.(st_db) in
  let d' := (snd (SettlePeerDelivery verify s now peer id canonical signature)).(st_db) in
  ∃ row pending signed, d.(peer_outbox) !! DeliveryID_String id = Some row ∧
    parsePeerDeliveryRowTx d (DeliveryID_String id) row = Ok pending ∧
    pr_remotePeerID pending.(pp_route) = peer ∧
    ParsePeerAdmissionReceiptCanonicalJSON canonical pending.(pp_pending) = Ok signed ∧
    verifyPeerSignature verify (pr_remotePublicKey pending.(pp_route)) (receipt_message signed) signature = true ∧
    if replayed : bool
    then row.(or_state) = OutboxSettled ∧ default "" row.(or_receipt) = canonical ∧
         default "" row.(or_receipt_signature) = signature ∧ d' = d
    else receipt = signed ∧ row.(or_state) = OutboxPending ∧ pending.(pp_route).(pr_active) = true ∧
         now < pending.(pp_pending).(pd_expiresAt) ∧
         d' = set_peer_outbox (<[DeliveryID_String id := settle_outbox row receipt signature now]>
                d.(peer_outbox)) d.
Proof. intros H d d'. apply SettlePeerDelivery_Ok in H. by apply settlePeerDeliveryTx_Ok in H. Qed.

Lemma settlement_authenticated_witness :
  ∃ row pending, a6.(st_db).(peer_outbox) !! DeliveryID_String sent_a.(pd_id) = Some row ∧
    parsePeerDeliveryRowTx a6.(st_db) (DeliveryID_String sent_a.(pd_id)) row = Ok pending ∧
    pr_remotePeerID pending.(pp_route) = "peer:b".
Proof.
  run_fact 8%nat H. apply is_ok_true in H as [[receipt replayed] Hr].
  unfold settled_a in Hr. destruct (settlement_authenticated verify a6 (at_ns 20) _ _ _ _ receipt replayed Hr)
    as (row & pending & _ & H1 & H2 & H3 & _). exists row, pending. exact (conj H1 (conj H2 H3)).
Defined.

(** Revocation is final: once a route is revoked, after any sequence of later
    calls it is still revoked and no delivery is pending on it; at the revocation
    itself the deliveries of other routes are left alone. *)
Theorem revocation_final verify s now id r s' :
  reachable verify s → fst (RevokePeerRoute s now id) = Ok r →
  rtc (store_step verify) (snd (RevokePeerRoute s now id)) s' →
  (∃ row, s'.(st_db).(peer_routes) !! id = Some row ∧ row.(rr_state) = RouteRevoked) ∧
  (∀ k row, s'.(st_db).(peer_outbox) !! k = Some row → row.(or_route) = id → row.(or_state) ≠ OutboxPending) ∧
  (∀ k row, s.(st_db).(peer_outbox) !! k = Some row → row.(or_route) ≠ id →
     (snd (RevokePeerRoute s now id)).(st_db).(peer_outbox) !! k = Some row).
Proof.
  intros Hs H Hsteps.
  assert (reachable verify s') as Hs' by (eapply rtc_trans; [exact Hs|eapply rtc_l; [apply step_revoke_route|done]]).
  apply RevokePeerRoute_Ok, revokePeerRouteTx_Ok in H as (row & Hrow & H).
  set (s1 := snd (RevokePeerRoute s now id)) in *.
  assert (∃ row, s1.(st_db).(peer_routes) !! id = Some row ∧ row.(rr_state) = RouteRevoked) as (row1 & Hrow1 & Hst1).
  { destruct H as [[Hst ->]| ->]; [by exists row|]. unfold expire_outbox_where. db_simpl.
    rewrite lookup_insert_eq. by eexists. }
  apply store_steps_extend in Hsteps. apply (ex_routes _ _ Hsteps) in Hrow1 as (row2 & Hrow2 & Hp).
  assert (row2.(rr_state) = RouteRevoked) as Hst2 by (destruct Hp as [->|[? _]]; congruence).
  split_and!; [by exists row2| |].
  - intros k o Hk Ho Hpend. destruct (inv_reachable _ pending_inv _ Hs' k o Hk Hpend) as (rr & Hrr & Ha).
    rewrite Ho in Hrr. congruence.
  - intros k o Hk Ho. destruct H as [[_ ->]| ->]; [done|]. unfold expire_outbox_where. db_simpl.
    rewrite lookup_fmap, Hk. cbn. by rewrite (bool_decide_eq_false_2 _ Ho), andb_false_r.
Qed.

Lemma revocation_final_witness :
  ∃ row, (snd revoked_a).(st_db).(peer_routes) !! "route:ab" = Some row ∧ row.(rr_state) = RouteRevoked.
Proof.
  run_fact 13%nat H. apply is_ok_true in H as [r Hr].
  exact (proj1 (revocation_final verify a6 (at_ns 6) "route:ab" r (snd revoked_a) reach_a6 Hr (rtc_refl _ _))).
Defined.

(** The causal depth of a local Event is the greatest depth of the Events it
    names - subject head, expected Reference head, causation and correlation - or 0
    when it names none that is stored here; only Events a remote peer is known to
    have named may be missing. *)
Theorem causal_depth_is_maximum d request depth :
  Forall ref_ok (request_refs request) → deriveLocalEventCausalDepthTx d request = Ok depth →
  (depth = 0 ∨ ∃ r, r ∈ request_refs request ∧ exactEventDepthTx d r = Ok depth) ∧
  ∀ r, r ∈ request_refs request →
    match exactEventDepthTx d r with
    | Ok x => x <= depth
    | Err e => errors_is e errCausalEventUnavailable = true ∧
        ∃ subject predecessors, request.(bi_subject) = Some subject ∧
          subjectRemotePredecessorsTx d subject = Ok predecessors ∧
          eventRefKey r ∈ map eventRefKey predecessors
    end.
Proof.
  intros Hok H. unfold deriveLocalEventCausalDepthTx in H. apply bind_Ok in H as (remote & Hr & H).
  apply (deepest_maximum _ _ _ _ _ _ _ Hok) in H as (_ & H1 & H2); [|done|by intros k ?%not_elem_of_nil].
  split; [done|]. intros r Hin. specialize (H2 r Hin). destruct (exactEventDepthTx d r); [done|].
  destruct H2 as [? Hrem]. split; [done|]. destruct (bi_subject request) as [subject|].
  - apply bind_Ok in Hr as (refs & Hs & [= <-]). by exists subject, refs.
  - injection Hr as <-. by apply not_elem_of_nil in Hrem.
Qed.

Lemma causal_depth_is_maximum_witness :
  ∃ depth, 0 < lenZ (request_refs request_b) ∧
    (depth = 0 ∨ ∃ r, r ∈ request_refs request_b ∧ exactEventDepthTx (snd current_b).(st_db) r = Ok depth).
Proof.
  run_fact 18%nat H. apply andb_true_iff in H as [[H1 H2]%andb_true_iff H3%Z.ltb_lt].
  apply is_ok_true in H2 as [depth Hd]. exists depth. split; [exact H3|].
  exact (proj1 (causal_depth_is_maximum _ request_b depth (refs_okb_true _ H1) Hd)).
Defined.
