(* ===== verification/MessageContracts.v ===== *)
(** Properties of the values and messages of internal/agency: each is a short
    consequence of the lemmas of the component that implements it. *)

From Stdlib Require Import Lia.
From S2P Require Import Prelude Utf8 Json Wire Sha256 Time StoreTime Value Intent Bound Event Peer.
From S2P Require Import View Bind.

#[local] Open Scope Z_scope.

(** ** Fixtures: one Host boundary, one View, one Intent *)

Definition fx_attachment : Attachment := {|
  at_id := "attachment:one"; at_principal := "agent:local"; at_mayInitiate := true;
  at_issuedAt := 1700000000000000000; at_expiresAt := 1700000900000000000 |}.

Definition fx_digest : Digest := Sum "one artifact".
Definition fx_event : EventRef := {| er_id := "event:one"; er_digest := Sum "one event" |}.
Definition fx_event2 : EventRef := {| er_id := "event:two"; er_digest := Sum "another event" |}.
Definition fx_self : ResolvedTarget := {|
  rt_requested := SelfTarget; rt_destination := TargetDestinationLocal;
  rt_localPrincipal := "agent:local"; rt_remoteRoute := ""; rt_remoteAlias := "" |}.

Definition fx_view_spec (provenance : list ProvenanceOffer) : MachineViewSpec := {|
  mv_Attachment := fx_attachment; mv_Consequences := [ConsequenceCreateHandlings];
  mv_Subjects := []; mv_References := []; mv_Targets := [fx_self];
  mv_ReplyTo := ""; mv_ReplyTarget := no_target; mv_ReplyDelivery := zero_DeliveryID;
  mv_ReplyObservationPending := false; mv_Artifacts := []; mv_Provenance := provenance |}.

Definition fx_offers : list ProvenanceOffer := [
  {| po_handle := "r7:related:a"; po_event := fx_event |};
  {| po_handle := "r7:subject:b"; po_event := fx_event |}].

Definition fx_intent_spec (causation : list OpaqueHandle) : IntentSpec := {|
  is_Kind := "note"; is_Payload := "hello"; is_Consequence := ConsequenceCreateHandlings;
  is_SubjectHandling := ""; is_Successors := [SelfTarget]; is_ReferenceKey := "";
  is_ReferenceHead := ""; is_Artifacts := []; is_CausationHandles := causation;
  is_CorrelationHandle := "" |}.

Definition fx_bind (causation : list OpaqueHandle) : result BoundIntent :=
  view ← NewViewAuthority (fx_view_spec fx_offers);
  intent ← NewAgentIntent (fx_intent_spec causation);
  bindIntent view intent "op:one" [].

Definition fx_stamp : EventStamp := {|
  es_ID := "event:two"; es_AcceptedAt := 1700000001000000000; es_OriginSequence := 2;
  es_CausalDepth := 0 |}.

Definition fx_reparse (causation : list OpaqueHandle) : result Event :=
  b ← fx_bind causation; e ← NewEvent b fx_stamp; ParseEventCanonicalJSON e.(ev_canonical).

Lemma fx_event_ok : ref_ok fx_event.
Proof. split; [done|]. split; [apply sha256_length|vm_compute; done]. Qed.

Lemma fx_event2_ok : ref_ok fx_event2.
Proof. split; [done|]. split; [apply sha256_length|vm_compute; done]. Qed.

Lemma fx_view_spec_ok : view_spec_ok (fx_view_spec fx_offers).
Proof.
  pose proof fx_event_ok. split; cbn [fx_view_spec fx_offers mv_Attachment mv_Subjects mv_References
    mv_Targets mv_ReplyTo mv_ReplyTarget mv_ReplyDelivery mv_Artifacts mv_Provenance].
  - done.
  - constructor.
  - constructor.
  - repeat constructor.
  - by left.
  - by left.
  - by left.
  - constructor.
  - repeat (constructor; [by split|]). constructor.
Qed.

Lemma fx_intent_spec_wf causation :
  Forall (λ h, handle_ok h = true) causation → spec_wf (fx_intent_spec causation).
Proof.
  intros H. split; cbn; try done; try (by left); try (vm_compute; done).
  constructor; [by left|constructor].
Qed.

(** ** Binding *)

(** C1. Every machine value in a bound request - attachment, View digest,
    subject, Reference head, targets, Artifact digests, causation, correlation,
    reply Delivery - is the one the sealed View offers for the handle the Intent
    names (or the digest captured for this very operation); the consequence was
    offered, root initiation needs an initiating Attachment, targets are
    distinct, and a remote request leaves a local Handling open. *)
Theorem bind_intent_sound view intent operation candidates b :
  bindIntent view intent operation candidates = Ok b →
  bound_by_view view intent operation candidates b.
Proof. apply bindIntent_bound. Qed.

Lemma bind_intent_sound_witness :
  ∃ view intent b, NewViewAuthority (fx_view_spec fx_offers) = Ok view ∧
    bindIntent view intent "op:one" [] = Ok b ∧ bound_by_view view intent "op:one" [] b.
Proof.
  assert (H : is_ok (fx_bind ["r7:related:a"]) = true) by (vm_compute; reflexivity).
  unfold fx_bind in H. destruct (NewViewAuthority _) as [view|] eqn:Ev; [|discriminate H].
  destruct (NewAgentIntent _) as [intent|] eqn:Ei; [|discriminate H]. cbn [mbind result_bind] in H.
  destruct (bindIntent _ _ _ _) as [b|] eqn:Eb; [|discriminate H].
  exists view, intent, b. split; [reflexivity|]. split; [exact Eb|]. exact (bind_intent_sound _ _ _ _ _ Eb).
Defined.

(** C2. An Event accepted from a bound request reads back from its stored
    canonical bytes as the same Event without its View handles, when no two of
    the cited provenance handles name one Event. *)
Theorem bound_event_roundtrip spec view intent operation candidates b stamp e :
  view_spec_ok spec → NewViewAuthority spec = Ok view → intent_wf intent →
  handle_ok operation = true → Forall (λ c, digest_ok c.(cc_digest)) candidates → stamp_ok stamp →
  bindIntent view intent operation candidates = Ok b → NoDup b.(bi_causation) →
  NewEvent b stamp = Ok e →
  ParseEventCanonicalJSON e.(ev_canonical) = Ok (erase_handles e).
Proof.
  intros Hs Hv. apply bound_event_reparses. by eapply NewViewAuthority_view_ok.
Qed.

Lemma bound_event_roundtrip_witness :
  ∃ b e, fx_bind ["r7:related:a"] = Ok b ∧ NewEvent b fx_stamp = Ok e ∧
    ParseEventCanonicalJSON e.(ev_canonical) = Ok (erase_handles e).
Proof.
  assert (H : is_ok (b ← fx_bind ["r7:related:a"];
    _ ← fail_if (has_dup b.(bi_causation)) (Errorf ""); NewEvent b fx_stamp) = true)
    by (vm_compute; reflexivity).
  unfold fx_bind in *. destruct (NewViewAuthority _) as [view|] eqn:Ev; [|discriminate H].
  destruct (NewAgentIntent _) as [intent|] eqn:Ei; [|discriminate H]. cbn [mbind result_bind] in *.
  destruct (bindIntent _ _ _ _) as [b|] eqn:Eb; [|discriminate H]. cbn [mbind result_bind] in *.
  destruct (has_dup (bi_causation b)) eqn:Ed; [discriminate H|]. cbn [fail_if mbind result_bind] in H.
  destruct (NewEvent b fx_stamp) as [e|] eqn:Ee; [|discriminate H].
  exists b, e. split; [reflexivity|]. split; [exact Ee|].
  apply (bound_event_roundtrip (fx_view_spec fx_offers) view intent "op:one" [] b fx_stamp e);
    [exact fx_view_spec_ok|exact Ev| |reflexivity|constructor| |exact Eb|by apply has_dup_NoDup|exact Ee].
  - eapply NewAgentIntent_wf; [|exact Ei]. apply fx_intent_spec_wf. repeat constructor.
  - split; [reflexivity|split; [reflexivity|discriminate]|discriminate].
Defined.

(** C3. Two provenance handles of one View may name one Event; an Intent that
    cites both binds, and its Event is sealed, but the stored bytes no longer
    parse: every later load of that Event fails. *)
Theorem duplicate_provenance_unreadable :
  ∃ view intent b e,
    NewViewAuthority (fx_view_spec fx_offers) = Ok view ∧
    NewAgentIntent (fx_intent_spec ["r7:related:a"; "r7:subject:b"]) = Ok intent ∧
    bindIntent view intent "op:one" [] = Ok b ∧ NewEvent b fx_stamp = Ok e ∧
    ParseEventCanonicalJSON e.(ev_canonical) =
      Err (invalid "Event causation" "contains a duplicate Event reference").
Proof.
  assert (H : is_ok (b ← fx_bind ["r7:related:a"; "r7:subject:b"]; NewEvent b fx_stamp) = true)
    by (vm_compute; reflexivity).
  assert (Hp : fx_reparse ["r7:related:a"; "r7:subject:b"] =
    Err (invalid "Event causation" "contains a duplicate Event reference")) by (vm_compute; reflexivity).
  unfold fx_reparse, fx_bind in *. destruct (NewViewAuthority _) as [view|] eqn:Ev; [|discriminate H].
  destruct (NewAgentIntent _) as [intent|] eqn:Ei; [|discriminate H]. cbn [mbind result_bind] in *.
  destruct (bindIntent _ _ _ _) as [b|] eqn:Eb; [|discriminate H]. cbn [mbind result_bind] in *.
  destruct (NewEvent b fx_stamp) as [e|] eqn:Ee; [|discriminate H].
  exists view, intent, b, e. repeat (split; [done|]). exact Hp.
Qed.

(** ** Intents *)

(** C4. Whatever JSON text an Agent sends, the Intent parsed from it has a
    canonical form that parses to the very same Intent, within the size bound
    and with its causation handles sorted and distinct. *)
Theorem parsed_intent_canonical data i :
  ParseAgentIntentJSON data = Ok i →
  ParseAgentIntentJSON i.(ai_canonical) = Ok i ∧
  slen i.(ai_canonical) <= MaxIntentCanonicalBytes ∧
  StronglySorted String.le i.(ai_causationHandles) ∧ NoDup i.(ai_causationHandles).
Proof.
  intros Hi%ParseAgentIntentJSON_wf. pose proof (iwf_rebuild _ Hi) as Hnew.
  split_and!; [by apply ParseAgentIntentJSON_canonical|apply Hi|..].
  all: unfold NewAgentIntent in Hnew; do 7 (apply bind_Ok in Hnew as ([] & _ & Hnew));
    apply bind_Ok in Hnew as (? & _ & Hnew); apply bind_Ok in Hnew as (hs & Hhs & Hnew);
    unfold canonicalJSON in Hnew; cbn [mbind result_bind] in Hnew;
    apply bind_Ok in Hnew as ([] & _ & Hnew); injection Hnew as Ei;
    apply (f_equal ai_causationHandles) in Ei; cbn [ai_causationHandles] in Ei; rewrite <- Ei;
    apply normalizeHandles_Ok in Hhs as (-> & _ & _ & Hnd).
  - apply (sort_by_sorted (λ h : string, h)).
  - by rewrite sort_by_perm.
Qed.

Definition fx_intent_json : string :=
  let q := dquote in
  "{" +:+ q +:+ "kind" +:+ q +:+ ":" +:+ q +:+ "note" +:+ q +:+ ", " +:+
  q +:+ "payload" +:+ q +:+ ":" +:+ q +:+ "hi" +:+ q +:+ ", " +:+
  q +:+ "consequence" +:+ q +:+ ":" +:+ q +:+ "handling.create" +:+ q +:+ ", " +:+
  q +:+ "successors" +:+ q +:+ ":[{" +:+ q +:+ "self" +:+ q +:+ ":true}]}".

Lemma parsed_intent_canonical_witness :
  ∃ i, ParseAgentIntentJSON fx_intent_json = Ok i ∧ ParseAgentIntentJSON i.(ai_canonical) = Ok i.
Proof.
  assert (H : is_ok (ParseAgentIntentJSON fx_intent_json) = true) by (vm_compute; reflexivity).
  destruct (ParseAgentIntentJSON fx_intent_json) as [i|] eqn:E; [|discriminate H].
  exists i. split; [reflexivity|]. apply (parsed_intent_canonical fx_intent_json i E).
Defined.

(** ** Views *)

(** A sealed View reads back from its stored bytes, under the Attachment it
    was issued to, as the same View. *)
Theorem view_roundtrip spec view :
  view_spec_ok spec → NewViewAuthority spec = Ok view →
  ParseViewAuthorityCanonicalJSON view.(va_canonical) view.(va_attachment) = Ok view.
Proof. apply ParseViewAuthorityCanonicalJSON_canonical. Qed.

Lemma view_roundtrip_witness :
  ∃ view, NewViewAuthority (fx_view_spec fx_offers) = Ok view ∧
    ParseViewAuthorityCanonicalJSON view.(va_canonical) view.(va_attachment) = Ok view.
Proof.
  assert (H : is_ok (NewViewAuthority (fx_view_spec fx_offers)) = true) by (vm_compute; reflexivity).
  destruct (NewViewAuthority (fx_view_spec fx_offers)) as [view|] eqn:E; [|discriminate H].
  exists view. split; [reflexivity|]. exact (view_roundtrip _ _ fx_view_spec_ok E).
Defined.

(** The order in which offers are listed does not matter: the same offers
    in another order seal the same View, bytes and digest included. *)
Theorem view_order_irrelevant spec spec' view :
  spec_perm spec spec' → NewViewAuthority spec = Ok view → NewViewAuthority spec' = Ok view.
Proof. apply NewViewAuthority_perm. Qed.

Lemma view_order_irrelevant_witness :
  ∃ view, NewViewAuthority (fx_view_spec fx_offers) = Ok view ∧
    NewViewAuthority (fx_view_spec (reverse fx_offers)) = Ok view.
Proof.
  assert (H : is_ok (NewViewAuthority (fx_view_spec fx_offers)) = true) by (vm_compute; reflexivity).
  destruct (NewViewAuthority (fx_view_spec fx_offers)) as [view|] eqn:E; [|discriminate H].
  exists view. split; [reflexivity|].
  apply (view_order_irrelevant (fx_view_spec fx_offers)); [|exact E].
  unfold spec_perm. cbn. split_and!; try reflexivity. apply perm_swap.
Defined.

(** ** Receipts *)

(** Accepted and rejected Receipts always fit their byte bound and read back
    from their stored bytes as themselves. *)
Theorem receipt_roundtrip request event code diagnostic recordedAt r :
  handle_ok request.(bi_operationKey) = true → digest_wf request.(bi_digest) →
  ref_ok (Event_Ref event) → label_ok code = true →
  NewAcceptedReceipt request event recordedAt = Ok r ∨
  NewRejectedReceipt request code diagnostic recordedAt = Ok r →
  ParseReceiptCanonicalJSON r.(rc_canonical) = Ok r ∧
  slen r.(rc_canonical) <= MaxReceiptCanonicalBytes ∧
  r.(rc_operationKey) = request.(bi_operationKey) ∧ r.(rc_requestDigest) = request.(bi_digest).
Proof.
  intros Hop Hd He Hc [H|H];
    [apply NewAcceptedReceipt_ok in H as (Hok & Hs & E1 & E2 & _)
    |apply NewRejectedReceipt_ok in H as (Hok & Hs & E1 & E2 & _)]; try done;
    (split_and!; [by apply ParseReceiptCanonicalJSON_canonical| |done|done]);
    destruct Hs as [-> _]; by apply receipt_size.
Qed.

Lemma receipt_roundtrip_witness :
  ∃ b e r, fx_bind ["r7:related:a"] = Ok b ∧ NewAcceptedReceipt b e fx_stamp.(es_AcceptedAt) = Ok r ∧
    ParseReceiptCanonicalJSON r.(rc_canonical) = Ok r.
Proof.
  assert (H : is_ok (b ← fx_bind ["r7:related:a"]; e ← NewEvent b fx_stamp;
    _ ← fail_if (negb (handle_ok b.(bi_operationKey)) || negb (slen b.(bi_digest) =? 32) ||
                 negb (handle_ok e.(ev_id)) || negb (slen e.(ev_digest) =? 32) ||
                 Digest_IsZero e.(ev_digest)) (Errorf "");
    NewAcceptedReceipt b e fx_stamp.(es_AcceptedAt)) = true) by (vm_compute; reflexivity).
  destruct (fx_bind _) as [b|] eqn:Eb; [|discriminate H]. cbn [mbind result_bind] in H.
  destruct (NewEvent b fx_stamp) as [e|] eqn:Ee; [|discriminate H]. cbn [mbind result_bind] in H.
  destruct (negb (handle_ok _) || _ || _ || _ || _) eqn:Eg; [discriminate H|]. cbn [fail_if mbind result_bind] in H.
  destruct (NewAcceptedReceipt b e _) as [r|] eqn:Er; [|discriminate H].
  inv_res. exists b, e, r. split; [reflexivity|]. split; [exact Er|].
  apply (receipt_roundtrip b e "authority.stale_view" "" (es_AcceptedAt fx_stamp) r); [done| | |done|by left].
  - unfold digest_wf, slen in *. lia.
  - split; [done|]. split; [|done]. unfold digest_wf, slen, Event_Ref in *. cbn [er_digest]. lia.
Defined.

(** ** Peer deliveries *)

Definition fx_delivery_spec : PeerDeliverySpec := {|
  ps_OriginEvent := fx_event; ps_OriginSequence := 1; ps_OriginAcceptedAt := 1700000000000000000;
  ps_OriginSource := "agent:local"; ps_OriginConsequence := ConsequenceCreateHandlings;
  ps_OriginTargetCount := 2; ps_OriginCausation := []; ps_OriginCorrelation := zero_EventRef;
  ps_InReplyToDelivery := zero_DeliveryID; ps_TargetAlias := "peer:target"; ps_Kind := "note";
  ps_Payload := "hello"; ps_Artifacts := []; ps_CausalDepth := 1;
  ps_ExpiresAt := 1700003600000000000 |}.

Lemma fx_delivery_spec_ok : delivery_spec_ok fx_delivery_spec.
Proof.
  pose proof fx_event_ok. split; cbn [fx_delivery_spec ps_OriginEvent ps_OriginSequence ps_OriginSource
    ps_OriginTargetCount ps_OriginCausation ps_OriginCorrelation ps_InReplyToDelivery ps_TargetAlias
    ps_Kind ps_Payload ps_Artifacts ps_CausalDepth]; try done; try (by left); try constructor;
    by vm_compute.
Qed.

(** A Delivery built for an enrolled route reads back from its canonical
    bytes under that route as the same Delivery. *)
Theorem peer_delivery_roundtrip route spec delivery :
  delivery_spec_ok spec → NewPeerDelivery route spec = Ok delivery →
  Digest_IsZero delivery.(pd_id) = false →
  ParsePeerDeliveryCanonicalJSON delivery.(pd_canonical) route = Ok {| pp_delivery := delivery |}.
Proof. intros Hs Hd. by apply ParsePeerDeliveryCanonicalJSON_canonical, (NewPeerDelivery_Ok _ spec). Qed.

Lemma peer_delivery_roundtrip_witness :
  ∃ delivery, NewPeerDelivery "route:one" fx_delivery_spec = Ok delivery ∧
    ParsePeerDeliveryCanonicalJSON delivery.(pd_canonical) "route:one" =
      Ok {| pp_delivery := delivery |}.
Proof.
  assert (H : is_ok (d ← NewPeerDelivery "route:one" fx_delivery_spec;
    fail_if (Digest_IsZero d.(pd_id)) (Errorf "")) = true) by (vm_compute; reflexivity).
  destruct (NewPeerDelivery "route:one" fx_delivery_spec) as [d|] eqn:E; [|discriminate H].
  cbn [mbind result_bind] in H. destruct (Digest_IsZero (pd_id d)) eqn:Ez; [discriminate H|].
  exists d. split; [reflexivity|]. exact (peer_delivery_roundtrip _ _ _ fx_delivery_spec_ok E Ez).
Defined.

(** A Delivery accepted from bytes is the one those bytes spell: its
    canonical form is the input, its envelope digest is over the input, and its
    identity is derived from this route, its origin Event and its target alias; the
    same bytes are accepted under no other route, short of a SHA-256 collision. *)
Theorem peer_delivery_route_bound data route parsed :
  ParsePeerDeliveryCanonicalJSON data route = Ok parsed →
  parsed.(pp_delivery).(pd_canonical) = data ∧
  parsed.(pp_delivery).(pd_envelopeDigest) =
    domainSeparatedDigest peerDeliveryEnvelopeDomain data ∧
  deriveDeliveryID route parsed.(pp_delivery).(pd_originEvent) parsed.(pp_delivery).(pd_targetAlias) =
    Ok parsed.(pp_delivery).(pd_id) ∧
  (handle_ok route = true → ∀ route' parsed', handle_ok route' = true →
     ParsePeerDeliveryCanonicalJSON data route' = Ok parsed' →
     route = route' ∨ ∃ m m', m ≠ m' ∧ Sum m = Sum m').
Proof.
  intros H. destruct (ParsePeerDeliveryCanonicalJSON_Ok _ _ _ H) as (H1 & H2 & H3).
  split_and!; [done..|]. intros Hr route' parsed' Hr' H'.
  exact (ParsePeerDeliveryCanonicalJSON_route _ _ _ _ _ Hr Hr' H H').
Qed.

Lemma peer_delivery_route_bound_witness :
  ∃ data parsed, ParsePeerDeliveryCanonicalJSON data "route:one" = Ok parsed ∧
    parsed.(pp_delivery).(pd_canonical) = data.
Proof.
  assert (H : is_ok (d ← NewPeerDelivery "route:one" fx_delivery_spec;
    ParsePeerDeliveryCanonicalJSON d.(pd_canonical) "route:one") = true) by (vm_compute; reflexivity).
  destruct (NewPeerDelivery "route:one" fx_delivery_spec) as [d|] eqn:E; [|discriminate H].
  cbn [mbind result_bind] in H.
  destruct (ParsePeerDeliveryCanonicalJSON _ _) as [parsed|] eqn:Ep; [|discriminate H].
  exists (pd_canonical d), parsed. split; [exact Ep|].
  exact (proj1 (peer_delivery_route_bound (pd_canonical d) "route:one" parsed Ep)).
Defined.

(** The Receipt a receiver settles a Delivery with reads back, against that
    Delivery, as the same Receipt. *)
Theorem peer_receipt_roundtrip delivery event code diagnostic recordedAt r :
  delivery_digests_ok delivery → delivery_complete delivery = true →
  ref_ok event → label_ok code = true →
  NewAcceptedPeerAdmissionReceipt delivery event recordedAt = Ok r ∨
  NewRejectedPeerAdmissionReceipt delivery code diagnostic recordedAt = Ok r →
  requirePeerAdmissionReceiptBinding r delivery = Ok () →
  ParsePeerAdmissionReceiptCanonicalJSON r.(par_canonical) delivery = Ok r.
Proof.
  intros Hd Hc He Hl [H|H] Hb; apply ParsePeerAdmissionReceiptCanonicalJSON_canonical; try done.
  - by eapply NewAcceptedPeerAdmissionReceipt_ok.
  - by eapply NewRejectedPeerAdmissionReceipt_ok.
Qed.

Lemma peer_receipt_roundtrip_witness :
  ∃ d r, NewAcceptedPeerAdmissionReceipt d fx_event2 1700000002000000000 = Ok r ∧
    ParsePeerAdmissionReceiptCanonicalJSON r.(par_canonical) d = Ok r.
Proof.
  assert (H : is_ok (d ← NewPeerDelivery "route:one" fx_delivery_spec;
    r ← NewAcceptedPeerAdmissionReceipt d fx_event2 1700000002000000000;
    _ ← fail_if (negb (delivery_complete d) || negb (slen d.(pd_id) =? 32) ||
                 negb (slen d.(pd_envelopeDigest) =? 32)) (Errorf "");
    requirePeerAdmissionReceiptBinding r d) = true) by (vm_compute; reflexivity).
  destruct (NewPeerDelivery "route:one" fx_delivery_spec) as [d|] eqn:E; [|discriminate H].
  cbn [mbind result_bind] in H.
  destruct (NewAcceptedPeerAdmissionReceipt _ _ _) as [r|] eqn:Er; [|discriminate H].
  cbn [mbind result_bind] in H.
  destruct (negb (delivery_complete d) || _ || _) eqn:Eg; [discriminate H|]. cbn [fail_if mbind result_bind] in H.
  destruct (requirePeerAdmissionReceiptBinding r d) as [[]|] eqn:Eb; [|discriminate H].
  inv_res. exists d, r. split; [exact Er|].
  apply (peer_receipt_roundtrip d fx_event2 "peer.refused" "" 1700000002000000000 r);
    [|done|exact fx_event2_ok|done|by left|done].
  unfold delivery_digests_ok, digest_wf, slen in *. split; lia.
Defined.

(** ** Values *)

(** A token is accepted exactly when it is within the bound, starts and ends
    with an ASCII letter or digit, and has only letters, digits and the closed
    punctuation in between. *)
Theorem token_grammar field value maximum lowercase :
  validateToken field value maximum lowercase = Ok () ↔ token_spec maximum lowercase value.
Proof. apply validateToken_iff. Qed.

(** Digests and Delivery identities round-trip through their text, and the
    parsers accept nothing but that text. *)
Theorem digest_text_roundtrip text d :
  (ParseDigest text = Ok d ↔ text = Digest_String d ∧ digest_ok d) ∧
  (ParseDeliveryID text = Ok d ↔ text = DeliveryID_String d ∧ digest_ok d).
Proof.
  split; split.
  - intros (-> & Hw & Hz)%ParseDigest_Ok. done.
  - intros (-> & Hw & Hz). by apply ParseDigest_String.
  - apply ParseDeliveryID_Ok.
  - intros [-> Hd]. by apply ParseDeliveryID_String.
Qed.

(** The strict decoder accepts a wire value's canonical bytes, and nothing
    else: what it accepts is byte for byte the canonical encoding of the value
    it returns, so that one value has one accepted spelling. *)
Theorem canonical_decoder_exact {A} `{CodecLaws A} field data maximum (w : A) :
  enc_ok w → slen data <= maximum →
  decodeCanonicalObject field data maximum = Ok w ↔ data = canonical_bytes w.
Proof.
  intros Hw Hl. split.
  - by intros (-> & _)%decodeCanonicalObject_Ok.
  - intros ->. by apply decodeCanonicalObject_canonical.
Qed.

Lemma canonical_decoder_exact_witness :
  decodeCanonicalObject "ref" (canonical_bytes (EventRef_canonical fx_event)) 4096 =
    Ok (EventRef_canonical fx_event).
Proof.
  apply (canonical_decoder_exact "ref"); [|vm_compute; discriminate|reflexivity].
  apply ref_wire_ok, fx_event_ok.
Defined.

(** Store times order by their text as by the instants they name, and read
    back unchanged: SQL comparisons of TEXT times are comparisons of instants. *)
Theorem store_time_order t1 t2 :
  four_digit_year t1 → four_digit_year t2 →
  parseTime (formatTime t1) = Ok t1 ∧
  (String.le (formatTime t1) (formatTime t2) ↔ t1 <= t2) ∧
  (formatTime t1 = formatTime t2 ↔ t1 = t2).
Proof.
  intros H1 H2. split_and!; [by apply parseTime_format| |].
  - unfold String.le. rewrite formatTime_leb by done. rewrite <- (Z.leb_le t1 t2). by rewrite Is_true_true.
  - split; [by apply formatTime_inj|by intros ->].
Qed.

Lemma store_time_order_witness :
  String.le (formatTime 1700000000000000000) (formatTime 1700000000000000001).
Proof.
  apply (store_time_order 1700000000000000000 1700000000000000001);
    unfold four_digit_year, ns_per_day, ns_per_second; lia.
Defined.

(** [canonicalTime] accepts exactly the instants of the [UnixNano] range
    (its RFC 3339 comparison never fails there) and canonical text reads back. *)
Theorem canonical_time_exact field t t' :
  (canonicalTime field t = Ok t' ↔ t' = t ∧ time_ok t) ∧
  (time_ok t → parse_canonical_time field (format_time t) = Ok t).
Proof.
  split; [rewrite canonicalTime_Ok; unfold time_ok; tauto|apply parse_canonical_time_format].
Qed.

Lemma canonical_time_exact_witness :
  parse_canonical_time "t" (format_time 1700000000000000000) = Ok 1700000000000000000.
Proof.
  apply (canonical_time_exact "t" 1700000000000000000 0). split; [done|]. vm_compute. split; discriminate.
Defined.
