(* ===== verification/LinkContracts.v ===== *)
(** Properties of the peer link and of two hosts that exchange over it. *)

From Stdlib Require Import Lia.
From S2P Require Import Prelude Utf8 Json Wire Sha256 Time StoreTime Value Intent Bound Event Peer.
From S2P Require Import View AgentView Bind Store EventStore Attach Routes Inbox Outbox.
From S2P Require Import Domain Admission PeerAdmission Current History Frames Frame Link.
From S2P Require Import Io Exchange Agreement Scenario ExchangeScenario.

#[local] Open Scope Z_scope.
Import Scenario TwoHosts.

(** The frame reader is the exact inverse of the frame writer: a stream reads as
    a frame and a rest if and only if it is the bytes the writer gives for that frame
    followed by the rest.  So every frame that can be written is read back unchanged
    whatever follows it on the stream, and no other bytes - another header layout, an
    unknown type, a body that is not the Artifact named - are read as a frame. *)
Theorem frames_exact input f rest :
  readFrame input = Ok (f, rest) ↔
  frame_typed f ∧ ∃ bytes, writeFrame f = Ok bytes ∧ input = bytes +:+ rest.
Proof.
  split; [apply readFrame_Ok|]. intros (Ht & bytes & Hw & ->). by apply readFrame_writeFrame.
Qed.

(** C12. The link neither loses nor invents: when the connection to the destination
    reaches a peer server, the delivery callback there sees exactly the delivery sent,
    under the sender's signature, and [SendDelivery] reports exactly what it answered -
    a transport ACK, the Receipt signed by the server's key, or a transport failure
    when the callback failed.  In particular every offer and every answer fits the
    header bound of a frame. *)
Theorem link_transparent {W} (env : LinkEnv W) sign verify identity key client delivery authorizeArtifact
    read route d input w answer w' :
  (∀ message, slen (sign identity.(li_privateKey) message) = SignatureSize) →
  (∀ message, slen (sign key message) = SignatureSize) →
  (∀ message, verify input.(lp_PublicKey) message (sign key message) = true) →
  serves env sign key client delivery authorizeArtifact read input →
  delivery_ok route d → DeliveryID_IsZero d.(pd_id) = false → Digest_IsZero d.(pd_envelopeDigest) = false →
  slen identity.(li_privateKey) = PrivateKeySize → slen key = PrivateKeySize →
  destination identity input = Ok input →
  delivery w client (offered sign identity d) = (answer, w') → answers answer →
  (∀ response r, answer = Ok response → response.(dr_receipt) = Some r →
     requirePeerAdmissionReceiptBinding r d = Ok ()) →
  SendDelivery env sign verify identity w input d = (reported sign key answer, w').
Proof. intros. by eapply SendDelivery_transparent. Qed.

Lemma link_transparent_witness :
  ∃ answer w', receive_b before client_a (offered link_sign identity_a sent_a) = (answer, w') ∧
    SendDelivery env_a.(xe_link) link_sign verify identity_a before peer_b sent_a =
      (reported link_sign (private keyB) answer, w').
Proof.
  pose proof (nth_fact 0 _ _ _ run_offer_facts eq_refl) as F0.
  pose proof (nth_fact 1 _ _ _ run_offer_facts eq_refl) as F1.
  pose proof (nth_fact 2 _ _ _ run_offer_facts eq_refl) as F2.
  pose proof (nth_fact 3 _ _ _ run_offer_facts eq_refl) as F3.
  pose proof (nth_fact 4 _ _ _ run_offer_facts eq_refl) as F4.
  pose proof (nth_fact 5 _ _ _ run_offer_facts eq_refl) as F5.
  pose proof (nth_fact 6 _ _ _ run_offer_facts eq_refl) as F6.
  pose proof (nth_fact 7 _ _ _ run_offer_facts eq_refl) as F7.
  apply bool_decide_eq_true in F3, F4, F7. apply negb_true_iff in F1, F2.
  apply is_ok_true in F5 as [dest F5]. pose proof (destination_Ok _ _ _ F5) as [E _]. rewrite E in F5.
  destruct (first_delivery_ok _ _ _ _ eq_refl F0) as [rt Hd]. unfold answer_b in F6.
  destruct (receive_b before client_a (offered link_sign identity_a sent_a)) as [answer w'] eqn:Ha.
  cbn [fst] in F6. exists answer, w'. split; [exact eq_refl|].
  pose proof (receiveDelivery_recorded host_b env_b verify runtime_b (ap_receiver _ _ hosts_apart) _ _ _ _ _ Ha)
    as [Hans _].
  refine (link_transparent env_a.(xe_link) link_sign verify identity_a (private keyB) client_a receive_b _ _
    rt sent_a peer_b before answer w' _ _ _ (lk_served _ _ _ _ _ _ _ _ _ _ hosts_linked) Hd F1 F2 F3 F4 F5 Ha
    Hans (bound_answer_true _ _ F6)).
  - exact (sign_length _).
  - exact (sign_length _).
  - intros message. unfold link_sign, verify. rewrite F7. apply bool_decide_eq_true. exact eq_refl.
Defined.

(** C15. Two hosts agree on every settled delivery.  Take a sender and a receiver whose
    Stores are apart, the sender's connection to the receiver reaching the receiver's
    server, and anything else - other goroutines, other peers, the connections the
    receiver opens to pull Artifacts - moving the Stores only by Store methods that
    settle no delivery at the sender.  Then along every sequence of such steps and of
    outbox passes, each delivery the sender has settled on its route to the receiver is
    settled in the receiver's inbox too, with byte for byte the same Receipt and the
    same envelope digest: no delivery is settled on a transport ACK, on a Receipt that
    was not recorded, or on the Receipt of another delivery. *)
Theorem hosts_agree {W} (sender receiver : Host W) envS envR sign verify runS runR peer client route w w' :
  linked sender receiver envS envR sign verify runS runR peer client →
  rtc (system_step sender receiver envS sign verify runS) w w' →
  agree sender receiver peer route w →
  ∀ id row, (sender.(h_store) w').(st_db).(peer_outbox) !! id = Some row →
    row.(or_state) = OutboxSettled → row.(or_route) = route →
    ∃ row', (receiver.(h_store) w').(st_db).(peer_inbox) !! id = Some row' ∧
      row'.(ir_state) = InboxSettled ∧ row'.(ir_receipt) = row.(or_receipt) ∧
      row'.(ir_envelope_digest) = row.(or_envelope_digest).
Proof.
  intros Hl Hs Hag. pose proof (system_agree _ _ _ _ _ _ _ _ _ _ _ Hl _ _ Hs Hag) as [_ H]. exact H.
Qed.

Lemma hosts_agree_witness :
  ∃ id row row', (snd pass).1.(st_db).(peer_outbox) !! id = Some row ∧ row.(or_state) = OutboxSettled ∧
    (snd pass).2.(st_db).(peer_inbox) !! id = Some row' ∧ row'.(ir_receipt) = row.(or_receipt).
Proof.
  pose proof (nth_fact 1 _ _ _ run_pass_facts eq_refl) as F1.
  pose proof (nth_fact 2 _ _ _ run_pass_facts eq_refl) as F2.
  pose proof (nth_fact 4 _ _ _ run_pass_facts eq_refl) as F4.
  apply bool_decide_eq_true in F1, F2.
  assert (agree host_a host_b peer_b "route:ab" before) as Hag.
  { split.
    - exact (routed_to_b_true _ F4).
    - intros id row Hr Hs Hroute. destruct (settled_rows_none before F1 id row Hr Hs Hroute). }
  destruct (settled_rows_elem (snd pass) 0 F2) as (id & row & Hr & Hs & Hroute).
  destruct (hosts_agree host_a host_b env_a env_b link_sign verify runtime_a runtime_b peer_b client_a
    "route:ab" before (snd pass) hosts_linked (rtc_once _ _ (system_pass _ _ _ _ _ _ before)) Hag id row Hr Hs
    Hroute) as (row' & H1 & _ & H2 & _).
  exists id, row, row'. exact (conj Hr (conj Hs (conj H1 H2))).
Defined.
