(* ===== verification/JournalContracts.v ===== *)
(** Contracts of the agent terminal: what its commands keep whatever fails, that an
    undisturbed submit finishes what an interrupted one left, and that an Intent
    submitted again is the same operation. *)

From Stdlib Require Import Lia.
From S2P Require Import Prelude Io Utf8 Json Wire Sha256 Time Value Intent Bound Event View AgentView Base64.
From S2P Require Import Journal JournalDir Terminal JournalProto JournalOps JournalSafe JournalCalm.

#[local] Open Scope Z_scope.

(** ** Resubmission *)

Lemma valid_candidates_after p cs c :
  valid_candidates p cs = true → c ∈ cs → ~ String.le c.(cb_Handle) p.
Proof.
  revert p. induction cs as [|x cs IH]; intros p; cbn [valid_candidates]; [by intros _ ?%elem_of_nil|].
  intros [[_ Hx%bool_decide_eq_false]%negb_true_iff%orb_false_iff Hcs]%andb_true_iff [->|Hin]%elem_of_cons; [done|].
  intros Hc. apply (IH _ Hcs Hin). destruct (total String.le x.(cb_Handle) p); [done|]. by etrans.
Qed.

Lemma valid_candidates_unique p cs c c' :
  valid_candidates p cs = true → c ∈ cs → c' ∈ cs → c.(cb_Handle) = c'.(cb_Handle) → c = c'.
Proof.
  revert p. induction cs as [|x cs IH]; intros p; cbn [valid_candidates]; [by intros _ ?%elem_of_nil|].
  intros [_ Hcs]%andb_true_iff [->|Hin]%elem_of_cons [->|Hin']%elem_of_cons E; [done| | |by eapply IH].
  - exfalso. eapply (valid_candidates_after _ _ _ Hcs Hin'). by rewrite E.
  - exfalso. eapply (valid_candidates_after _ _ _ Hcs Hin). by rewrite E.
Qed.

Lemma find_candidate_kept h cs cs' c p :
  find_candidate h cs = Some c → (∀ c, c ∈ cs → c ∈ cs') → valid_candidates p cs' = true → find_candidate h cs' = Some c.
Proof.
  intros [Hc%list_elem_of_In Eh%String.eqb_eq]%List.find_some Hin Hv. unfold find_candidate.
  destruct (List.find _ cs') as [c'|] eqn:E.
  - apply List.find_some in E as [Hc'%list_elem_of_In Eh'%String.eqb_eq]. f_equal.
    eapply valid_candidates_unique; [done|done|by apply Hin|congruence].
  - apply List.find_none with (x := c) in E; [|by apply list_elem_of_In, Hin]. by rewrite Eh, String.eqb_refl in E.
Qed.

Lemma bind_candidates_kept cs cs' p seen inputs bound :
  bind_candidates cs seen inputs = Ok bound → (∀ c, c ∈ cs → c ∈ cs') → valid_candidates p cs' = true →
  bind_candidates cs' seen inputs = Ok bound.
Proof.
  intros H Hin Hv. revert seen bound H. induction inputs as [|x inputs IH]; intros seen bound; cbn [bind_candidates]; [done|].
  destruct (negb _); [apply IH|]. intros H. apply bind_Ok in H as (c & Hc%of_option_Ok & H).
  rewrite (find_candidate_kept _ _ _ _ _ Hc Hin Hv). cbn [of_option mbind result_bind].
  apply bind_Ok in H as ([] & -> & H). cbn [mbind result_bind]. apply bind_Ok in H as (rest & Hr & H).
  rewrite (IH _ _ Hr). exact H.
Qed.

(** C6. An Intent submitted again, after more captures and after Current was read
    again, binds the same captured Artifacts and derives the same operation key; and
    under that key nothing but the same Intent with the same Artifacts can be
    submitted, unless SHA-256 collides on the two hashed texts. *)
Theorem resubmission_exact raw i j j' cs op :
  ParseAgentIntentJSON raw = Ok i → journal_ok j → journal_ok j' → evolves j j' →
  bindCandidates j i = Ok cs → deriveAdmissionOperation j.(cj_CurrentOperation) i cs = Ok op →
  bindCandidates j' i = Ok cs ∧ deriveAdmissionOperation j'.(cj_CurrentOperation) i cs = Ok op ∧
  ∀ raw' i' cs', ParseAgentIntentJSON raw' = Ok i' → bindCandidates j' i' = Ok cs' →
    (∀ t t', operation_candidates cs = Ok t → operation_candidates cs' = Ok t' →
       Sum (operation_text j.(cj_CurrentOperation) i t) = Sum (operation_text j.(cj_CurrentOperation) i' t') →
       operation_text j.(cj_CurrentOperation) i t = operation_text j.(cj_CurrentOperation) i' t') →
    deriveAdmissionOperation j'.(cj_CurrentOperation) i' cs' = Ok op → i' = i ∧ cs' = cs.
Proof.
  intros Hi%ParseAgentIntentJSON_wf Hj Hj' [_ _ Hcur Hcands] Hb Hd. rewrite Hcur by (by eapply derive_current).
  split_and!; [by eapply bind_candidates_kept, (jo_sorted _ Hj')|done|].
  intros raw' i' cs' Hi'%ParseAgentIntentJSON_wf _ Hsum Hd'.
  pose proof (deriveAdmissionOperation_Ok _ _ _ _ Hd) as (t & Ht & _).
  pose proof (deriveAdmissionOperation_Ok _ _ _ _ Hd') as (t' & Ht' & _).
  assert (∀ x, intent_wf x → slen x.(ai_canonical) < 2 ^ 64) as Hlen.
  { intros x Hx. pose proof (iwf_size _ Hx). change MaxIntentCanonicalBytes with 12288 in *. lia. }
  assert (slen j.(cj_CurrentOperation) < 2 ^ 64) as Hc.
  { destruct (jo_operation _ Hj) as [->|[[_ Ho]%token_ok_plain _]]; [done|]. unfold MaxOpaqueHandleBytes in Ho. lia. }
  destruct (deriveAdmissionOperation_inj _ _ _ _ _ _ _ _ _ Hc Hc (Hlen i Hi) (Hlen i' Hi') Ht Ht' (Hsum t t' Ht Ht') Hd Hd')
    as (_ & Ei & Ecs). split; [|done].
  pose proof (ParseAgentIntentJSON_canonical _ Hi) as E. rewrite Ei, (ParseAgentIntentJSON_canonical _ Hi') in E.
  by apply (inj Ok) in E.
Qed.

(** ** Commands *)

(** Commands run one after the other, each on its arguments and standard input. *)
Definition session {W} (tm : Terminal W) (commands : list (list string * result string)) (w : W) : W :=
  foldl (λ w c, snd (terminal_run tm c.1 c.2 w)) w commands.

Lemma session_steps {W} (tm : Terminal W) log commands w :
  terminal_world tm log → state_inv (st tm log w) → rtc jstep (st tm log w) (st tm log (session tm commands w)).
Proof.
  intros Hw. revert w. induction commands as [|[args stdin] commands IH]; intros w Hi; [apply rtc_refl|].
  destruct (ht_terminal_run tm log args stdin w Hi I) as [Hs _]. etrans; [exact Hs|]. apply IH. by eapply jsteps_inv.
Qed.

(** C34. Whatever commands run, with whatever arguments and input, whichever of their
    system calls, control calls and writes fail, and whatever other commands do in
    between: the private directory keeps exactly one readable journal or none; every
    accepted Receipt the control service answered is either printed, or its boundary
    was ended, or the journal still carries the Current operation from which the same
    submit is derived; and a terminal file always stands for an accepted answer to the
    operation in its name, one without Current operation for a Receipt that was printed. *)
Theorem accepted_receipts_kept {W} (tm : Terminal W) log commands w :
  terminal_world tm log → proto_inv (st tm log w) →
  let s := st tm log (session tm commands w) in
  state_inv s ∧
  (∀ a current op i cs r, Answered a current op i cs r ∈ s.2 → accepted r → provided s a current) ∧
  (∀ d n j, s.1 = Some d → holds d n j → validTerminalName n = true →
     ∃ op current i cs r, n = terminalName op ∧ Answered j.(cj_Attachment) current op i cs r ∈ s.2 ∧ accepted r ∧
       (j.(cj_CurrentOperation) = current ∨ j.(cj_CurrentOperation) = "" ∧ Printed (r +:+ newline) ∈ s.2)).
Proof.
  intros Hw Hp s. assert (proto_inv s) as [Hi _ Ha Ht].
  { eapply jsteps_proto; [apply (session_steps tm log commands w Hw), (pi_dir _ Hp)|done]. }
  split_and!; [done|done|done].
Qed.

(** C39. Undisturbed, [agent submit] finishes from any directory an interrupted
    command left, whether the Receipt was never received, was received and its journal
    not yet renamed, or was renamed and not yet printed: the command exits with 0,
    having asked once for exactly the operation the Intent derives, printed the
    Receipt, ended the boundary, and left nothing but the lock file. *)
Theorem submit_finishes {W} (tm : Terminal W) log w d n f j raw i cs op r :
  terminal_world tm log → quiet_terminal tm log →
  tm.(tm_dir) w = Some d → dir_inv d → journal_name n → d !! n = Some f →
  parseClientJournal f.(jf_content) = Ok (j, Sum f.(jf_content)) →
  raw ≠ "" → slen raw <= maxIntentInputBytes → ParseAgentIntentJSON raw = Ok i →
  submit_operation (journal_at n f j) i = Ok (cs, op) →
  (∀ w, fst (tm.(tm_client).(cl_Submit) j.(cj_Attachment) j.(cj_CurrentOperation) op i.(ai_canonical) cs w) = Ok r) →
  accepted r →
  ∃ lk w', terminal_run tm ["agent"; "submit"; "--json"] (Ok raw) w = (Ok 0, w') ∧
    tm.(tm_dir) w' = Some {[journalLockName := lk]} ∧
    log w' = log w ++ [Answered j.(cj_Attachment) j.(cj_CurrentOperation) op i.(ai_canonical) cs r;
                       Printed (r +:+ newline); Ended j.(cj_Attachment)].
Proof.
  intros Hw Hq Hd Hi Hn Hf Hp Hraw Hlen Hint Hsub Hans Hr.
  destruct (finishes_submit tm log Hq d n f j raw i cs op r (log w) Hi Hn Hf Hp Hraw Hlen Hint Hsub Hans Hr) as [lk H].
  destruct (H w) as (w' & E & Hs); [by unfold JournalOps.st; rewrite Hd|]. exists lk, w'. unfold JournalOps.st in Hs.
  injection Hs as Hd' Hl. split_and!; [exact E|done|]. rewrite Hl, <- !app_assoc. done.
Qed.

(** ** Witnesses *)

Lemma deriveAdmissionOperation_total c i cs parts :
  c ≠ "" → i.(ai_canonical) ≠ "" → Z.of_nat (length cs) <= MaxArtifactInputs → operation_candidates cs = Ok parts →
  ∃ op, deriveAdmissionOperation c i cs = Ok op.
Proof.
  intros Hc Hi Hn Hp. unfold deriveAdmissionOperation. unfold IsZero.
  rewrite (proj2 (is_empty_false _) Hc), (proj2 (is_empty_false _) Hi), (proj2 (Z.ltb_ge _ _) Hn), Hp.
  cbn [orb fail_if mbind result_bind]. cbv zeta.
  eexists. apply admission_key, Sum_wf.
Qed.

(** A terminal whose world is just its directory and its log: nothing fails, nobody
    else runs, every submit is answered with the same accepted Receipt. *)
Definition fx_world : Type := option jdir * list event.
Definition fx_expires : Time := Eval vm_compute in default 0 (parse_time "2031-05-06T07:08:09Z").
Definition fx_attachment : attachment := {|
  at_ID := "attachment-1"; at_Credential := "0123456789abcdef0123456789abcdef"; at_ExpiresAt := fx_expires |}.
Definition fx_receipt : string := Eval vm_compute in canonical_bytes {|
  agw_Schema := AgentReceiptSchema; agw_Version := AgentReceiptVersion; agw_Outcome := "accepted"; agw_Replayed := false;
  agw_Diagnostic := "" |}.
Definition fx_call {A} (x : A) (events : list event) : io fx_world A := λ w, (Ok x, (w.1, w.2 ++ events)).

Definition fx_terminal : Terminal fx_world := {|
  tm_dir := fst; tm_put := λ w d, (Some d, w.2); tm_others := λ w, w; tm_tick := λ w, w; tm_fault := λ _, None;
  tm_short := λ _, 0%nat; tm_random := λ _, Ok "0123456789abcdef0123456789abcdef"; tm_clock := λ _, 0;
  tm_print := λ line, fx_call () [Printed line];
  tm_client := {|
    cl_Attach := λ b, fx_call fx_attachment [Attached b fx_attachment];
    cl_End := λ a, fx_call () [Ended a];
    cl_Current := λ _ _, fx_call "{}" [];
    cl_Submit := λ a c op i cs, fx_call fx_receipt [Answered a c op i cs fx_receipt];
    cl_Capture := λ _, fx_call {| ac_Handle := "artifact-1"; ac_Digest := ""; ac_ByteSize := 0 |} [];
    cl_ReadArtifact := λ _ _ _, fx_call "text" [] |};
  tm_workspace := fx_call () []; tm_ensureDaemon := fx_call () []; tm_newClient := fx_call () [] |}.

Lemma fx_time_ok : time_text_ok fx_expires.
Proof. split; [done|]. vm_compute. reflexivity. Qed.

Lemma fx_terminal_world : terminal_world fx_terminal snd.
Proof.
  split; try (intros; done).
  - intros w n f f' _ H H' _. cbn in *. congruence.
  - intros b w a [= <-]. apply fx_time_ok.
Qed.

Lemma fx_terminal_quiet : quiet_terminal fx_terminal snd.
Proof. by split. Qed.

Definition fx_submit_json : string :=
  let q := dquote in
  "{" +:+ q +:+ "kind" +:+ q +:+ ":" +:+ q +:+ "note" +:+ q +:+ ", " +:+
  q +:+ "payload" +:+ q +:+ ":" +:+ q +:+ "hello" +:+ q +:+ ", " +:+
  q +:+ "consequence" +:+ q +:+ ":" +:+ q +:+ "handling.create" +:+ q +:+ ", " +:+
  q +:+ "successors" +:+ q +:+ ":[{" +:+ q +:+ "self" +:+ q +:+ ":true}]}".

(** A journal between Current and submit, and the same with a captured Artifact. *)
Definition fx_candidate : capturedBinding :=
  {| cb_Handle := "artifact-1"; cb_Digest := "abcdefghijklmnopqrstuvwxyzabcdef" |}.
Definition fx_journal (cs : list capturedBinding) : journal := {|
  cj_Attachment := fx_attachment; cj_BoundaryDigest := "ABCDEFGHIJKLMNOPQRSTUVWXYZABCDEF";
  cj_CurrentOperation := "current:one"; cj_CurrentProjection := "empty"; cj_Candidates := cs |}.

Lemma fx_journal_ok : journal_ok (fx_journal []) ∧ journal_ok (fx_journal [fx_candidate]).
Proof.
  assert (attachment_ok fx_attachment) as Ha by (split; [vm_compute; reflexivity|reflexivity|apply fx_time_ok]).
  split; split; try (split; vm_compute; reflexivity); try (vm_compute; discriminate); try (vm_compute; reflexivity); try exact Ha.
  all: try (right; split; [vm_compute; reflexivity|vm_compute; reflexivity]).
  all: try (right; split; [by left|discriminate]).
  all: repeat constructor; vm_compute; reflexivity.
Qed.

Lemma fx_submit_parses : ∃ i, ParseAgentIntentJSON fx_submit_json = Ok i ∧ i.(ai_artifacts) = [] ∧ i.(ai_canonical) ≠ "".
Proof.
  assert (match ParseAgentIntentJSON fx_submit_json with
          | Ok i => (length i.(ai_artifacts) =? 0)%nat && negb (is_empty i.(ai_canonical)) | Err _ => false end = true) as H
    by (vm_compute; reflexivity).
  destruct (ParseAgentIntentJSON fx_submit_json) as [i|e]; [|discriminate H].
  apply andb_true_iff in H as [H1%Nat.eqb_eq H2%negb_true_iff%is_empty_false]. exists i. split_and!; [done| |done].
  by apply nil_length_inv.
Qed.

Lemma fx_candidates i cs : i.(ai_artifacts) = [] → bindCandidates (fx_journal cs) i = Ok [].
Proof. unfold bindCandidates. by intros ->. Qed.

Lemma resubmission_exact_witness :
  ∃ i op, ParseAgentIntentJSON fx_submit_json = Ok i ∧ bindCandidates (fx_journal [fx_candidate]) i = Ok [] ∧
    deriveAdmissionOperation "current:one" i [] = Ok op.
Proof.
  destruct fx_submit_parses as (i & Hi & Ha & Hc).
  destruct (deriveAdmissionOperation_total "current:one" i [] "") as [op Hop]; [discriminate|exact Hc|vm_compute; discriminate|reflexivity|].
  exists i, op. split; [exact Hi|].
  destruct (resubmission_exact fx_submit_json i (fx_journal []) (fx_journal [fx_candidate]) [] op Hi
    (proj1 fx_journal_ok) (proj2 fx_journal_ok)) as (H1 & H2 & _).
  - split; [reflexivity|reflexivity|reflexivity|]. intros c Hc'. by apply elem_of_nil in Hc'.
  - exact (fx_candidates i [] Ha).
  - exact Hop.
  - exact (conj H1 H2).
Defined.

Definition fx_boundary : string := Eval vm_compute in canonical_bytes {|
  hbw_Boundary := base64_encode "0123456789abcdef0123456789abcdef"; hbw_Schema := hookBoundarySchema;
  hbw_Version := hookBoundaryVersion |}.

Lemma fx_start : proto_inv (st fx_terminal snd (None, [])).
Proof.
  split.
  - intros d [=].
  - intros a c op i cs r H. by apply elem_of_nil in H.
  - intros a c op i cs r H. by apply elem_of_nil in H.
  - intros d n j [=].
Qed.

Lemma accepted_receipts_kept_witness :
  state_inv (st fx_terminal snd (session fx_terminal
    [(["hook"; "attach"; "--json"], Ok fx_boundary); (["agent"; "current"; "--json"], Ok "");
     (["agent"; "submit"; "--json"], Ok fx_submit_json)] (None, []))).
Proof.
  exact (proj1 (accepted_receipts_kept fx_terminal snd
    [(["hook"; "attach"; "--json"], Ok fx_boundary); (["agent"; "current"; "--json"], Ok "");
     (["agent"; "submit"; "--json"], Ok fx_submit_json)] (None, []) fx_terminal_world fx_start)).
Defined.

(** The directory a submit left that stopped while it staged a file. *)
Definition fx_file : jfile :=
  {| jf_content := canonical_bytes (journal_wire (fx_journal [])) +:+ newline; jf_safe := true |}.
Definition fx_dir : jdir :=
  <[journalStageName := {| jf_content := "half"; jf_safe := true |}]> (tidy lock_file journalActiveName fx_file).

Lemma fx_parse : parseClientJournal fx_file.(jf_content) = Ok (fx_journal [], Sum fx_file.(jf_content)).
Proof.
  exact (parseClientJournal_canonical _ _ (proj1 fx_journal_ok) (journal_canonical_ok _ (proj1 fx_journal_ok))).
Qed.

Lemma fx_dir_inv : dir_inv fx_dir.
Proof.
  apply dir_inv_private; [by right|done|]. apply (tidy_inv _ _ _ (fx_journal [])).
  split; [by left|done|done|exact fx_parse].
Qed.

Lemma submit_finishes_witness :
  ∃ op lk w', terminal_run fx_terminal ["agent"; "submit"; "--json"] (Ok fx_submit_json) (Some fx_dir, []) = (Ok 0, w') ∧
    w'.1 = Some {[journalLockName := lk]} ∧
    ∃ i, w'.2 = [Answered fx_attachment "current:one" op i [] fx_receipt; Printed (fx_receipt +:+ newline); Ended fx_attachment].
Proof.
  destruct fx_submit_parses as (i & Hi & Ha & Hc).
  destruct (deriveAdmissionOperation_total "current:one" i [] "") as [op Hop]; [discriminate|exact Hc|vm_compute; discriminate|reflexivity|].
  assert (submit_operation (journal_at journalActiveName fx_file (fx_journal [])) i = Ok ([], op)) as Hsub.
  { unfold submit_operation. cbn [journal_at cj_journal cj_fileName]. rewrite (fx_candidates i [] Ha).
    change (IsZero (cj_CurrentOperation (fx_journal []))) with false. cbn [fail_if mbind result_bind].
    change (cj_CurrentOperation (fx_journal [])) with "current:one". rewrite Hop. reflexivity. }
  destruct (submit_finishes fx_terminal snd (Some fx_dir, []) fx_dir journalActiveName fx_file (fx_journal []) fx_submit_json i
    [] op fx_receipt fx_terminal_world fx_terminal_quiet eq_refl fx_dir_inv (or_introl eq_refl)) as (lk & w' & E & Hd & Hl).
  - unfold fx_dir. rewrite lookup_insert_ne by discriminate. apply lookup_insert_eq.
  - exact fx_parse.
  - discriminate.
  - vm_compute. discriminate.
  - exact Hi.
  - exact Hsub.
  - intros w. reflexivity.
  - vm_compute. reflexivity.
  - exists op, lk, w'. split; [exact E|]. split; [exact Hd|]. exists i.(ai_canonical). exact Hl.
Defined.
