(* ===== verification/ServiceReplay.v ===== *)
(** A submission the local service has recorded is answered again with the recorded
    Receipt: the View an operation names reads back unchanged, binding to it is
    deterministic, and the authority replays. *)

From Stdlib Require Import Lia.
From S2P Require Import Prelude Io Utf8 Json Wire Sha256 Time StoreTime Value Intent Bound Event Peer View AgentView Base64.
From S2P Require Import Cas Bind Store EventStore Attach Routes Inbox Outbox Domain Admission PeerAdmission Current.
From S2P Require Import History Frames Invariant PeerInv Replies Projection Replay Calls.
From S2P Require Import ArtifactText Compact Journal Terminal JournalCalm ControlWire Control ControlClient ControlProof Service ServiceProof.

#[local] Open Scope Z_scope.

(** ** A View authority reads back well formed *)

Lemma get_subjects_range ms (wires : list viewSubjectWire) :
  get "subjects" ms = Ok wires →
  Forall (λ w, 0 <= w.(vsw_Binding).(sbw_Fence) <= max_uint64 ∧
               0 <= w.(vsw_Binding).(sbw_ObservationRevision) <= max_uint64) wires.
Proof.
  assert (0 <= 0 <= max_uint64) as H0 by done.
  assert (∀ j (b : subjectBindingWire), dec j = Ok b →
    0 <= b.(sbw_Fence) <= max_uint64 ∧ 0 <= b.(sbw_ObservationRevision) <= max_uint64) as Hb.
  { intros j b H. destruct j; try done; [by injection H as <-|]. cbn [dec dec_value subjectBindingWire_codec] in H.
    apply bind_Ok in H as (ms' & _ & H). do 2 apply bind_Ok in H as (? & _ & H).
    apply bind_Ok in H as (f & Hf & H). apply bind_Ok in H as (o & Ho & H). apply (inj Ok) in H as <-.
    split; [exact (get_int_range _ _ _ _ _ H0 Hf)|exact (get_int_range _ _ _ _ _ H0 Ho)]. }
  unfold get. destruct (assoc "subjects" ms) as [j|]; [|by intros [= <-]].
  destruct j; try done; [by intros [= <-]|]. cbn [dec dec_value list_codec]. intros H. eapply mapR_Forall; [|exact H].
  intros j w Hw. destruct j; try done; [by injection Hw as <-|]. cbn [dec dec_value viewSubjectWire_codec] in Hw.
  apply bind_Ok in Hw as (ms' & _ & Hw). apply bind_Ok in Hw as (? & _ & Hw). apply bind_Ok in Hw as (b & Hg & Hw).
  apply (inj Ok) in Hw as <-. cbn [vsw_Binding]. unfold get in Hg. destruct (assoc "binding" ms'); [by eapply Hb|by injection Hg as <-].
Qed.

Lemma subject_reads w s :
  0 <= w.(vsw_Binding).(sbw_Fence) <= max_uint64 → 0 <= w.(vsw_Binding).(sbw_ObservationRevision) <= max_uint64 →
  parseViewSubject w = Ok s → handle_ok s.(sb_handle) = true ∧ subject_ok s.
Proof.
  intros Hf Ho H. unfold parseViewSubject in H. apply bind_Ok in H as (h & [-> Hh]%NewOpaqueHandle_Ok & H).
  apply bind_Ok in H as (id & Hi & H). apply newIdentifier_Ok in Hi as [-> Hi].
  apply bind_Ok in H as (head & [Hr _]%parseEventRef_Ok & H). unfold NewSubjectBinding in H.
  apply bind_Ok in H as ([] & [_ Hz%Z.eqb_neq]%fail_if_Ok%orb_false_iff & H). apply (inj Ok) in H as <-.
  split; [done|]. split; cbn; [done|done|lia|lia].
Qed.

Lemma reference_reads w r : parseViewReference w = Ok r → handle_ok r.(re_handle) = true ∧ expectation_ok r.
Proof.
  unfold parseViewReference. intros H. apply bind_Ok in H as ([] & _ & H). apply bind_Ok in H as (hw & _ & H).
  apply bind_Ok in H as (h & [-> Hh]%NewOpaqueHandle_Ok & H). apply bind_Ok in H as (k & [-> Hk]%NewReferenceKey_Ok & H).
  apply bind_Ok in H as (e & [He _]%parseEventRef_Ok & H). unfold ExpectReferenceHead in H.
  apply bind_Ok in H as ([] & _ & H). apply (inj Ok) in H as <-. by split.
Qed.

Lemma target_reads w t : parseViewTarget w = Ok t → target_wf t.(rt_requested) ∧ target_ok t.
Proof.
  unfold parseViewTarget. intros H. apply bind_Ok in H as (requested & Hr%parseTarget_Ok & H). unfold parseResolvedTarget in H.
  destruct (String.eqb _ "local"); [|destruct (String.eqb _ "remote"); [|done]].
  - apply bind_Ok in H as ([] & _ & H). apply bind_Ok in H as (p & Hp & H). apply newIdentifier_Ok in Hp as [-> Hp].
    unfold ResolveLocalTarget in H. apply bind_Ok in H as ([] & _ & H). by apply (inj Ok) in H as <-.
  - apply bind_Ok in H as ([] & _ & H). apply bind_Ok in H as (p & Hp & H). apply newIdentifier_Ok in Hp as [-> Hp].
    apply bind_Ok in H as (a & [-> Ha]%NewOpaqueHandle_Ok & H).
    unfold ResolveRemoteTarget in H. apply bind_Ok in H as ([] & _ & H). by apply (inj Ok) in H as <-.
Qed.

Lemma artifact_reads w a : parseViewArtifact w = Ok a → handle_ok a.(vao_handle) = true ∧ digest_ok a.(vao_digest).
Proof.
  unfold parseViewArtifact. intros H. apply bind_Ok in H as (h & [-> Hh]%NewOpaqueHandle_Ok & H).
  apply bind_Ok in H as (d & (_ & Hd)%ParseDigest_Ok & H). unfold NewViewArtifactOffer in H.
  apply bind_Ok in H as ([] & _ & H). by apply (inj Ok) in H as <-.
Qed.

Lemma provenance_reads w p : parseViewProvenanceOffer w = Ok p → handle_ok p.(po_handle) = true ∧ ref_ok p.(po_event).
Proof.
  unfold parseViewProvenanceOffer. intros H. apply bind_Ok in H as (h & [-> Hh]%NewOpaqueHandle_Ok & H).
  apply bind_Ok in H as (e & [He _]%parseEventRef_Ok & H). unfold NewProvenanceOffer in H.
  apply bind_Ok in H as ([] & _ & H). by apply (inj Ok) in H as <-.
Qed.

Lemma ParseViewAuthority_view_ok data attachment view :
  ParseViewAuthorityCanonicalJSON data attachment = Ok view → view_ok view.
Proof.
  unfold ParseViewAuthorityCanonicalJSON. intros H. apply bind_Ok in H as (wire & Hw & H).
  apply bind_Ok in H as ([] & _ & H). apply bind_Ok in H as (p & Hp & H). apply newIdentifier_Ok in Hp as [-> Hp].
  apply bind_Ok in H as ([] & Hg%fail_if_Ok & H).
  apply orb_false_iff in Hg as [[_ Ha%negb_false_iff%bool_decide_eq_true]%orb_false_iff _].
  apply bind_Ok in H as (spec & Hs & H). apply bind_Ok in H as (v & Hv & H). apply bind_Ok in H as ([] & _ & H).
  apply (inj Ok) in H as <-. eapply NewViewAuthority_view_ok; [|exact Hv]. unfold machineViewSpecFromWire in Hs.
  apply bind_Ok in Hs as (cs & _ & Hs). apply bind_Ok in Hs as (ss & Hss & Hs). apply bind_Ok in Hs as (rs & Hrs & Hs).
  apply bind_Ok in Hs as (ts & Hts & Hs). apply bind_Ok in Hs as (rt & Hrt & Hs). apply bind_Ok in Hs as (rg & Hrg & Hs).
  apply bind_Ok in Hs as (rd & Hrd & Hs). apply bind_Ok in Hs as (ars & Hars & Hs). apply bind_Ok in Hs as (ps & Hps & Hs).
  apply (inj Ok) in Hs as <-.
  split; cbn [mv_Attachment mv_Subjects mv_References mv_Targets mv_ReplyTo mv_ReplyTarget mv_ReplyDelivery mv_Artifacts mv_Provenance].
  - by rewrite <- Ha.
  - apply decodeCanonicalObject_dec in Hw as [j Hj].
    assert (∃ ms, get "subjects" ms = Ok wire.(mvw_Subjects)) as [ms Hms%get_subjects_range].
    { destruct j; try done; [by injection Hj as <-; exists []|]. cbn [dec dec_value machineViewWire_codec] in Hj.
      apply bind_Ok in Hj as (ms & _ & Hj). do 4 apply bind_Ok in Hj as (? & _ & Hj).
      apply bind_Ok in Hj as (sw & Hsw & Hj). do 8 apply bind_Ok in Hj as (? & _ & Hj). apply (inj Ok) in Hj as <-. by exists ms. }
    apply mapR_Ok in Hss. eapply Forall2_Forall_r; [exact Hss|]. eapply Forall_impl; [exact Hms|].
    intros w [Hf Ho] s Hp'. by eapply subject_reads.
  - eapply mapR_Forall; [exact reference_reads|exact Hrs].
  - eapply mapR_Forall; [exact target_reads|exact Hts].
  - destruct (is_empty _); [left; by injection Hrt as <-|]. apply NewOpaqueHandle_Ok in Hrt as [-> ?]. by right.
  - unfold parseViewReplyTarget in Hrg. destruct (mvw_ReplyTarget wire); [|left; by injection Hrg as <-].
    apply bind_Ok in Hrg as (tg & Ht%parseTarget_Ok & Hrg). apply bind_Ok in Hrg as ([] & _ & Hrg). apply (inj Ok) in Hrg as <-. by right.
  - unfold parse_optional_delivery in Hrd. destruct (is_empty (mvw_ReplyDelivery wire)); [left; by apply (inj Ok) in Hrd|]. right. by apply ParseDeliveryID_Ok in Hrd as [_ ?].
  - eapply mapR_Forall; [exact artifact_reads|exact Hars].
  - eapply mapR_Forall; [exact provenance_reads|exact Hps].
Qed.

(** ** The View an operation names *)

Lemma authenticated_value d proof au :
  authenticateAttachmentTx d proof = Ok au →
  ∃ row issuedAt expiresAt, d.(attachments) !! proof.(ap_id) = Some row ∧
    parseTime row.(atr_issued_at) = Ok issuedAt ∧ parseTime row.(atr_expires_at) = Ok expiresAt ∧
    NewAttachment proof.(ap_id) row.(atr_principal) true issuedAt expiresAt = Ok au.(aa_value).
Proof.
  unfold authenticateAttachmentTx. intros H. apply bind_Ok in H as ([] & _ & H).
  apply bind_Ok in H as (row & Hrow%of_option_Ok & H). apply bind_Ok in H as ([] & _ & H). apply bind_Ok in H as (? & _ & H).
  apply bind_Ok in H as ([] & _ & H). apply bind_Ok in H as (p & Hp%or_error_Ok & H). apply newIdentifier_Ok in Hp as [-> _].
  apply bind_Ok in H as (i & Hi & H). apply bind_Ok in H as (e & He & H).
  apply bind_Ok in H as (a & Ha%wrap_error_Ok & H). apply bind_Ok in H as (? & _ & H). apply (inj Ok) in H as <-.
  by exists row, i, e.
Qed.

(** A proof names the same Attachment on every later database. *)
Lemma authenticated_extends d d' proof au au' :
  extends d d' → authenticateAttachmentTx d proof = Ok au → authenticateAttachmentTx d' proof = Ok au' →
  au'.(aa_value) = au.(aa_value).
Proof.
  intros Hx (row & i & e & Hr & Hi & He & Ha)%authenticated_value (row' & i' & e' & Hr' & Hi' & He' & Ha')%authenticated_value.
  apply (ex_attachments _ _ Hx) in Hr as (r' & Hr & Hp). rewrite Hr' in Hr. injection Hr as <-.
  assert (row'.(atr_issued_at) = row.(atr_issued_at) ∧ row'.(atr_expires_at) = row.(atr_expires_at) ∧
    row'.(atr_principal) = row.(atr_principal)) as (Ei & Ee & Ep) by by destruct Hp as [->|[_ [t ->]]].
  rewrite Ei, Hi in Hi'. rewrite Ee, He in He'. apply (inj Ok) in Hi' as <-. apply (inj Ok) in He' as <-.
  rewrite Ep, Ha in Ha'. by apply (inj Ok) in Ha'.
Qed.

Lemma ReplayCurrent_Ok s proof operation view :
  ReplayCurrent s proof operation = Ok view →
  CurrentOperation_valid operation = true ∧ ∃ au, authenticateAttachmentTx s.(st_db) proof = Ok au ∧
    currentReplayTx s.(st_db) au.(aa_value) operation = Ok (Some view).
Proof.
  unfold ReplayCurrent. intros H. apply bind_Ok in H as ([] & Hv%fail_if_Ok%negb_false_iff & H). apply bind_Ok in H as ([] & _ & H).
  apply bind_Ok in H as (au & Hau & H). apply bind_Ok in H as (found & Hf & H%of_option_Ok). subst found. eauto.
Qed.

Lemma ReplayCurrent_extends s s' proof operation view au' :
  extends s.(st_db) s'.(st_db) → ReplayCurrent s proof operation = Ok view → s'.(st_closed) = false →
  authenticateAttachmentTx s'.(st_db) proof = Ok au' → ReplayCurrent s' proof operation = Ok view.
Proof.
  intros Hx (Hv & au & Hau & Hr)%ReplayCurrent_Ok Hc Hau'. unfold ReplayCurrent, requireOpen. rewrite Hv, Hc, Hau'.
  cbn [negb fail_if mbind result_bind]. rewrite (authenticated_extends _ _ _ _ _ Hx Hau Hau').
  unfold currentReplayTx in *. destruct (current_operations (st_db s) !! _) as [row|] eqn:E; [|done].
  apply (ex_currents _ _ Hx) in E as (row' & -> & <-). rewrite Hr. done.
Qed.

Lemma replayed_view_ok s proof operation view : ReplayCurrent s proof operation = Ok view → view_ok view.(bv_authority).
Proof.
  intros (_ & au & _ & H)%ReplayCurrent_Ok. unfold currentReplayTx in H. destruct (_ !! _) as [row|]; [|done].
  apply bind_Ok in H as ([] & _ & H). apply bind_Ok in H as (v & Hv & H). apply (inj Ok), (inj Some) in H as <-.
  unfold reconstructCurrentView in Hv. apply bind_Ok in Hv as (? & _ & Hv). apply bind_Ok in Hv as (a & Ha%or_error_Ok & Hv).
  apply bind_Ok in Hv as ([] & _ & Hv). apply bind_Ok in Hv as (? & _ & Hv). apply bind_Ok in Hv as ([] & _ & Hv).
  apply bind_Ok in Hv as (? & _ & Hv). apply bind_Ok in Hv as ([] & _ & Hv). apply bind_Ok in Hv as (? & _ & Hv).
  apply bind_Ok in Hv as ([] & _ & Hv). apply (inj Ok) in Hv as <-. by eapply ParseViewAuthority_view_ok.
Qed.

(** ** Submitting *)

Lemma bind_captured_digests operation inputs seen bindings cs :
  Forall (λ b, digest_ok b.(sc_digest)) bindings → bind_captured operation inputs seen bindings = Ok cs →
  Forall (λ c, digest_ok c.(cc_digest)) cs.
Proof.
  revert seen cs. induction bindings as [|b bs IH]; intros seen cs Hb; cbn [bind_captured].
  { intros H. by apply (inj Ok) in H as <-. }
  apply Forall_cons in Hb as [Hd Hb]. intros H. apply bind_Ok in H as ([] & _ & H). apply bind_Ok in H as (i & _ & H).
  apply bind_Ok in H as ([] & _ & H). apply bind_Ok in H as (c & Hc%wrap_error_Ok & H). apply bind_Ok in H as (rest & Hr & H).
  apply (inj Ok) in H as <-. unfold NewCapturedCandidate in Hc. apply bind_Ok in Hc as ([] & _ & Hc). apply (inj Ok) in Hc as <-.
  constructor; [done|by eapply IH].
Qed.

(** An admission that is not a replay was committed. *)
Lemma Admit_fresh verifier entropy between s now1 now2 proof request r s' :
  Admit verifier entropy between s now1 now2 proof request = (Ok r, s') → r.(ar_replayed) = false →
  ∃ failure, commitAdmission entropy (between s) now2 proof request failure = (Ok r, s').
Proof.
  unfold Admit. intros ([] & _ & H)%guarded_result Hf. apply guarded_result in H as ([replay|checks] & Hp & H); [|by eauto].
  exfalso. injection H as <- _. unfold preflightAdmission in Hp. apply bind_Ok in Hp as (? & _ & Hp). apply bind_Ok in Hp as (? & _ & Hp).
  unfold preflightAdmissionTx in Hp. apply bind_Ok in Hp as (au & _ & Hp). apply bind_Ok in Hp as ([rep|] & Hr & Hp).
  - apply (inj Ok) in Hp. injection Hp as ->. unfold operationReplayTx in Hr. destruct (_ !! _); [|done].
    do 7 apply bind_Ok in Hr as (? & _ & Hr). apply (inj Ok), (inj Some) in Hr as <-. done.
  - apply bind_Ok in Hp as ([] & _ & Hp). destruct (negb _); [done|]. apply bind_Ok in Hp as ([?|] & _ & Hp); [done|].
    destruct (artifactChecksTx _ _); [done|]. by destruct (errors_is _ _).
Qed.

(** A Receipt's diagnostic: none when accepted, a bounded text when rejected. *)
Definition diagnosed (r : Receipt) : Prop :=
  match r.(rc_outcome) with
  | ReceiptOutcomeAccepted => r.(rc_diagnostic) = ""
  | ReceiptOutcomeRejected => payload_ok r.(rc_diagnostic) = true ∧ slen r.(rc_diagnostic) <= MaxDiagnosticBytes
  | ReceiptOutcomeInvalid => False
  end.

Lemma receipt_ok_diagnosed r : receipt_ok r → diagnosed r.
Proof. intros Hok. pose proof (rok_outcome _ Hok) as Ho. unfold diagnosed. destruct (rc_outcome r); tauto. Qed.

Lemma ParseReceipt_diagnosed data r : ParseReceiptCanonicalJSON data = Ok r → diagnosed r.
Proof.
  unfold ParseReceiptCanonicalJSON. intros H. do 3 apply bind_Ok in H as ([] & _ & H). apply bind_Ok in H as ([wire ?] & _ & H).
  apply bind_Ok in H as ([] & _ & H). apply bind_Ok in H as (q & Hq & H). apply bind_Ok in H as ([? ?] & _ & H).
  apply bind_Ok in H as ([] & _ & H). apply (inj Ok) in H as <-. change (diagnosed q).
  unfold receiptFromWire in Hq. apply bind_Ok in Hq as ([] & _ & Hq). do 3 apply bind_Ok in Hq as (? & _ & Hq). cbv zeta in Hq.
  destruct (String.eqb _ "accepted"); [|destruct (String.eqb _ "rejected"); [|done]].
  - apply bind_Ok in Hq as (? & _ & Hq). apply bind_Ok in Hq as ([] & _ & Hq). apply bind_Ok in Hq as (? & _ & Hq). by apply (inj Ok) in Hq as <-.
  - apply bind_Ok in Hq as ([] & _ & Hq). apply bind_Ok in Hq as (? & _ & Hq). apply bind_Ok in Hq as ([] & Hl%fail_if_Ok%Z.ltb_ge & Hq).
    apply bind_Ok in Hq as (? & [_ Hp]%NewSemanticPayload_Ok & Hq). by apply (inj Ok) in Hq as <-.
Qed.

Lemma agent_wire_facts r replayed (wire := agent_receipt_wire r replayed) :
  diagnosed r → wire.(agw_Diagnostic) = r.(rc_diagnostic) ∧ enc_ok wire ∧ slen (canonical_bytes wire) <= MaxAgentReceiptCanonicalBytes.
Proof.
  intros Hok.
  assert (wire.(agw_Diagnostic) = r.(rc_diagnostic) ∧ slen r.(rc_diagnostic) <= 512 ∧ valid_utf8 r.(rc_diagnostic) = true) as (Ed & Hl & Hu).
  { subst wire. cbn [agent_receipt_wire agw_Diagnostic]. unfold diagnosed in Hok. destruct (rc_outcome r); [done| |].
    - by rewrite Hok.
    - destruct Hok as [Hp Hl]. split_and!; [done|done|by apply payload_ok_utf8]. }
  split_and!; [done| |].
  - split; [done|]. split; [done|]. split; [by cbn; destruct (rc_outcome r)|]. split; [done|].
    change (valid_utf8 wire.(agw_Diagnostic) = true). by rewrite Ed.
  - unfold canonical_bytes. change (enc wire) with (struct [field "schema" AgentReceiptSchema; @field Z int_codec "version" AgentReceiptVersion;
      field "outcome" wire.(agw_Outcome); field "replayed" replayed; omitempty "diagnostic" wire.(agw_Diagnostic)]).
    etransitivity; [apply struct_length|]. rewrite Ed. cbn [map foldr].
    pose proof (omitempty_string_size "diagnostic" (rc_diagnostic r)) as Sd.
    rewrite (marshal_string_length (rc_diagnostic r)) in Sd.
    assert (slen (escape (rc_diagnostic r)) <= 6 * 512) by (pose proof (escape_length _ Hu); unfold slen in *; lia).
    change (slen (marshal_string "diagnostic")) with 12 in Sd.
    assert (member_size (field "outcome" wire.(agw_Outcome)) <= 32) by (cbn; by destruct (rc_outcome r)).
    assert (member_size (field "replayed" replayed) <= 32) by by destruct replayed.
    change (member_size (field "schema" AgentReceiptSchema)) with 32. change (member_size (@field Z int_codec "version" AgentReceiptVersion)) with 12.
    change MaxAgentReceiptCanonicalBytes with 4096. lia.
Qed.

Lemma ProjectAgentReceipt_ok r replayed :
  receipt_ok r → receipt_sealed r →
  ProjectAgentReceipt r replayed = Ok {| agr_outcome := r.(rc_outcome); agr_replayed := replayed;
    agr_diagnostic := r.(rc_diagnostic); agr_canonical := canonical_bytes (agent_receipt_wire r replayed) |}.
Proof.
  intros Hok Hsealed. destruct (agent_wire_facts r replayed (receipt_ok_diagnosed r Hok)) as (_ & _ & Hs).
  unfold ProjectAgentReceipt. rewrite (ParseReceiptCanonicalJSON_canonical r Hok Hsealed). cbn [or_error mbind result_bind].
  rewrite bool_decide_eq_true_2 by done. cbn [negb fail_if mbind result_bind canonicalJSON]. by rewrite (proj2 (Z.ltb_ge _ _) Hs).
Qed.

(** The projection of a Receipt reads back, whether or not it is marked as a replay. *)
Lemma receipt_projection_reads r replayed replayed' p :
  diagnosed r → ParseAgentReceiptProjectionCanonicalJSON (canonical_bytes (agent_receipt_wire r replayed)) = Ok p →
  p.(agr_outcome) = r.(rc_outcome) ∧ p.(agr_diagnostic) = r.(rc_diagnostic) ∧ p.(agr_replayed) = replayed ∧
  ParseAgentReceiptProjectionCanonicalJSON (canonical_bytes (agent_receipt_wire r replayed')) =
    Ok {| agr_outcome := r.(rc_outcome); agr_replayed := replayed'; agr_diagnostic := r.(rc_diagnostic);
          agr_canonical := canonical_bytes (agent_receipt_wire r replayed') |}.
Proof.
  intros Hok. destruct (agent_wire_facts r replayed Hok) as (Ed & Hw & Hs). destruct (agent_wire_facts r replayed' Hok) as (Ed' & Hw' & Hs').
  unfold ParseAgentReceiptProjectionCanonicalJSON. rewrite !decodeCanonicalObject_canonical by done.
  cbn [mbind result_bind]. rewrite Ed, Ed'. cbn [agent_receipt_wire agw_Schema agw_Version agw_Outcome agw_Replayed].
  set (raw := canonical_bytes _). set (raw' := canonical_bytes _). clearbody raw raw'.
  unfold diagnosed in Hok. destruct (rc_outcome r); [done| |].
  - rewrite Hok. cbn. intros H. apply (inj Ok) in H as <-. done.
  - change (String.eqb (ReceiptOutcome_String ReceiptOutcomeRejected) "accepted") with false.
    change (String.eqb (ReceiptOutcome_String ReceiptOutcomeRejected) "rejected") with true.
    rewrite !bool_decide_eq_true_2 by done. change (AgentReceiptVersion =? AgentReceiptVersion) with true.
    cbn [negb orb fail_if mbind result_bind]. intros H. apply bind_Ok in H as (o & Ho' & H).
    apply bind_Ok in Ho' as ([] & Hg & Ho'). rewrite Hg. cbn [mbind result_bind]. apply bind_Ok in Ho' as (q & Hq & Ho').
    rewrite Hq. apply (inj Ok) in Ho' as <-. apply (inj Ok) in H as <-. done.
Qed.

(** ** Resubmitting *)

Section resubmit.
Context {W : Type} (verify : string → string → string → bool) (env : ServiceEnv W) (principal : AgentPrincipalID).

(** The Store of a world changes only by calls on it; an attachment issued now
    expires before the year 10000. *)
Record service_world : Prop := {
  sw_clock w : four_digit_year (env.(se_now) w + interactiveAttachmentLifetime);
  sw_put w s : env.(se_store) (env.(se_put) w s) = s;
  sw_others w : rtc (store_step verify) (env.(se_store) w) (env.(se_store) (env.(se_others) w));
  sw_between w s : rtc (store_step verify) s (env.(se_between) w s);
}.

(** The Store is open, the clock runs and the proof authenticates. *)
Definition ready (proof : AttachmentProof) (w : W) : Prop :=
  (env.(se_store) w).(st_closed) = false ∧ env.(se_now) w ≠ zero_time ∧
  is_ok (authenticateAttachmentTx (env.(se_store) w).(st_db) proof) = true.

(** The worlds in which a submission calls the Store: to read the View, to admit. *)
Definition view_world (w : W) : W := env.(se_others) w.
Definition admit_world (w : W) : W :=
  let v := view_world w in env.(se_others) (env.(se_put) v (env.(se_store) v)).

(** What a submission that returns did. *)
Record submitted (p : AttachmentProof) (c : CurrentOperation) (op : OperationKey) (i : AgentIntent) (bs : list serviceCandidate)
    (w : W) (view : BoundView) (cs : list CapturedCandidate) (bound : BoundIntent) (result : AdmissionResult) (receipt : Receipt)
    (s : Store) (r : AgentReceipt) : Prop := {
  sub_available : IsZero principal = false;
  sub_view : ReplayCurrent (env.(se_store) (view_world w)) p c = Ok view;
  sub_candidates : service_bindCandidates op i bs = Ok cs;
  sub_bound : BoundView_Bind view i op cs = Ok bound;
  sub_admit : let v := admit_world w in
    Admit (env.(se_verifier) v) (env.(se_entropy) v) (env.(se_between) v) (env.(se_store) v) (env.(se_now) v)
      (env.(se_later) v) p bound = (Ok result, s);
  sub_receipt : ParseReceiptCanonicalJSON result.(ar_receiptJSON) = Ok receipt;
  sub_digest : receipt.(rc_digest) = result.(ar_receiptDigest);
  sub_outcome : receipt.(rc_outcome) = result.(ar_outcome);
  sub_projected : ProjectAgentReceipt receipt result.(ar_replayed) = Ok r;
}.

Lemma service_submit_Ok p c op i bs w r w' :
  service_submit env principal p c op i bs w = (Ok r, w') →
  ∃ view cs bound result receipt s, submitted p c op i bs w view cs bound result receipt s r ∧ w' = env.(se_put) (admit_world w) s.
Proof.
  unfold service_submit. intros H. apply io_bind_Ok in H as ([] & w1 & [Ha ->]%guard_Ok & H).
  apply io_bind_Ok in H as (view & w2 & Hv%wrapping_Ok & H). unfold store_call in Hv. injection Hv as Hv <-.
  apply io_bind_Ok in H as (cs & w3 & [Hc ->]%lift_Ok & H).
  apply io_bind_Ok in H as (bound & w4 & [Hb ->]%wrapping_Ok%lift_Ok & H).
  apply io_bind_Ok in H as (result & w5 & Hr%wrapping_Ok & H). unfold store_call in Hr.
  destruct (Admit _ _ _ _ _ _ _ _) as [ra s] eqn:Hadmit. injection Hr as -> <-.
  apply io_bind_Ok in H as (receipt & w6 & [Hp%or_error_Ok ->]%lift_Ok & H).
  apply io_bind_Ok in H as ([] & w7 & [Hg ->]%guard_Ok & H). apply wrapping_Ok, lift_Ok in H as [Hj ->].
  apply orb_false_iff in Hg as [Hd%negb_false_iff%bool_decide_eq_true Ho%negb_false_iff%bool_decide_eq_true].
  exists view, cs, bound, result, receipt, s. split; [by split|done].
Qed.

Lemma service_submit_run p c op i bs w view cs bound result receipt s r :
  submitted p c op i bs w view cs bound result receipt s r →
  service_submit env principal p c op i bs w = (Ok r, env.(se_put) (admit_world w) s).
Proof.
  intros []. unfold service_submit, service_available. rewrite guard_run by done.
  rewrite (bind_run _ _ w (Ok view) (env.(se_put) (view_world w) (env.(se_store) (view_world w)))).
  2:{ unfold wrapping, store_call. fold (view_world w). by rewrite sub_view0. }
  rewrite (lift_run _ _ cs) by done.
  rewrite (bind_run _ _ _ (Ok bound) (env.(se_put) (view_world w) (env.(se_store) (view_world w)))).
  2:{ unfold wrapping, lift. by rewrite sub_bound0. }
  rewrite (bind_run _ _ _ (Ok result) (env.(se_put) (admit_world w) s)).
  2:{ unfold wrapping, store_call. fold (admit_world w). cbv zeta in sub_admit0. by rewrite sub_admit0. }
  rewrite (lift_run _ _ receipt) by by rewrite sub_receipt0.
  rewrite guard_run by by rewrite !bool_decide_eq_true_2. unfold wrapping, lift. by rewrite sub_projected0.
Qed.

Lemma world_extends w w' :
  rtc (store_step verify) (env.(se_store) w) (env.(se_store) w') → extends (env.(se_store) w).(st_db) (env.(se_store) w').(st_db).
Proof. apply store_steps_extend. Qed.

Lemma admit_world_steps w :
  service_world → rtc (store_step verify) (env.(se_store) (view_world w)) (env.(se_store) (admit_world w)).
Proof.
  intros Hw. unfold admit_world. cbv zeta.
  pose proof (sw_others Hw (env.(se_put) (view_world w) (env.(se_store) (view_world w)))) as H. by rewrite (sw_put Hw) in H.
Qed.

(** A projected Receipt that reads as fresh is the projection of a fresh admission. *)
Lemma submitted_fresh p c op i bs w view cs bound result receipt s r parsed :
  submitted p c op i bs w view cs bound result receipt s r →
  ParseAgentReceiptProjectionCanonicalJSON r.(agr_canonical) = Ok parsed → r.(agr_replayed) = parsed.(agr_replayed).
Proof.
  intros Hsub Hp. pose proof (ParseReceipt_diagnosed _ _ (sub_receipt _ _ _ _ _ _ _ _ _ _ _ _ _ Hsub)) as Hd.
  pose proof (sub_projected _ _ _ _ _ _ _ _ _ _ _ _ _ Hsub) as H. unfold ProjectAgentReceipt in H.
  apply bind_Ok in H as (? & _ & H). apply bind_Ok in H as ([] & _ & H). apply bind_Ok in H as ([? ?] & Hc & H).
  apply bind_Ok in H as ([] & _ & H). apply (inj Ok) in H as <-. apply (inj Ok) in Hc. injection Hc as <- _.
  cbn [agr_canonical agr_replayed] in *. symmetry. by eapply (receipt_projection_reads _ _ true) in Hp as (_ & _ & ? & _).
Qed.

(** A fresh submission records its Receipt. *)
Lemma submitted_recorded p c op i bs w view cs bound result receipt s r :
  service_world → reachable verify (env.(se_store) w) → intent_wf i → handle_ok op = true →
  Forall (λ b, digest_ok b.(sc_digest)) bs → NoDup bound.(bi_causation) →
  submitted p c op i bs w view cs bound result receipt s r → r.(agr_replayed) = false →
  ∃ au, authenticateAttachmentTx (env.(se_between) (admit_world w) (env.(se_store) (admit_world w))).(st_db) p = Ok au ∧
    recorded s.(st_db) au.(aa_value).(at_principal) bound receipt ∧ result = resultFromReceipt receipt false ∧
    rtc (store_step verify) (env.(se_between) (admit_world w) (env.(se_store) (admit_world w))) s.
Proof.
  intros Hw Hreach Hi Hop Hbs Hnd Hsub Hf.
  assert (result.(ar_replayed) = false) as Hfresh.
  { pose proof (sub_projected _ _ _ _ _ _ _ _ _ _ _ _ _ Hsub) as H. unfold ProjectAgentReceipt in H.
    apply bind_Ok in H as (? & _ & H). apply bind_Ok in H as ([] & _ & H). apply bind_Ok in H as ([? ?] & _ & H).
    apply bind_Ok in H as ([] & _ & H). by apply (inj Ok) in H as <-. }
  pose proof (sub_admit _ _ _ _ _ _ _ _ _ _ _ _ _ Hsub) as Hadmit. cbv zeta in Hadmit.
  destruct (Admit_fresh _ _ _ _ _ _ _ _ _ _ Hadmit Hfresh) as [failure Hcommit].
  set (v := admit_world w) in *. set (s0 := env.(se_between) v (env.(se_store) v)) in *.
  assert (reachable verify s0) as Hs0.
  { unfold reachable. etrans; [exact Hreach|]. etrans; [exact (sw_others Hw w)|]. etrans; [exact (admit_world_steps w Hw)|].
    exact (sw_between Hw v _). }
  pose proof (step_admit verify s0 (env.(se_later) v) p bound (env.(se_entropy) v) failure) as Hstep. rewrite Hcommit in Hstep.
  pose proof (commitAdmission_Ok (env.(se_entropy) v) s0 (env.(se_later) v) p bound failure result) as Hok.
  rewrite Hcommit in Hok. destruct (Hok eq_refl) as (_ & _ & _ & id & ids & Hid & Htx). cbn [snd] in Htx.
  assert (bound_request view.(bv_authority) i op cs bound) as Hbr.
  { split; [eapply replayed_view_ok, Hsub|done|done| |exact (sub_bound _ _ _ _ _ _ _ _ _ _ _ _ _ Hsub)|done].
    pose proof (sub_candidates _ _ _ _ _ _ _ _ _ _ _ _ _ Hsub) as Hc. unfold service_bindCandidates in Hc.
    apply bind_Ok in Hc as ([] & _ & Hc). by eapply bind_captured_digests. }
  destruct (commitAdmissionTx_recorded _ _ _ _ _ _ _ _ _ _ _ _ _ Hbr (inv_reachable _ clock_inv _ Hs0) (inv_reachable _ pins_closed _ Hs0)
    Hid Htx Hfresh) as (au & receipt' & Hau & Hrec & E).
  pose proof (sub_receipt _ _ _ _ _ _ _ _ _ _ _ _ _ Hsub) as Hp. rewrite E in Hp. cbn [resultFromReceipt ar_receiptJSON] in Hp.
  destruct Hrec as (H1 & H2 & Hrest). rewrite (ParseReceiptCanonicalJSON_canonical _ H1 H2) in Hp. apply (inj Ok) in Hp as ->.
  exists au. split; [done|]. split; [exact (conj H1 (conj H2 Hrest))|]. split; [done|by apply rtc_once].
Qed.

Lemma service_resubmits p c op i bs w r w1 w2 :
  service_world → reachable verify (env.(se_store) w) → intent_wf i → handle_ok op = true →
  Forall (λ b, digest_ok b.(sc_digest)) bs →
  (∀ view cs bound, ReplayCurrent (env.(se_store) (view_world w)) p c = Ok view → BoundView_Bind view i op cs = Ok bound →
     NoDup bound.(bi_causation)) →
  service_submit env principal p c op i bs w = (Ok r, w1) → r.(agr_replayed) = false →
  (∀ q row, (env.(se_store) w1).(st_db).(operations) !! (q, op) = Some row → row.(opr_receipt_digest) ≠ Digest_String zero_digest) →
  rtc (store_step verify) (env.(se_store) w1) (env.(se_store) w2) → ready p (view_world w2) → ready p (admit_world w2) →
  ∃ receipt, diagnosed receipt ∧ r.(agr_canonical) = canonical_bytes (agent_receipt_wire receipt false) ∧
    ∃ r' w3, service_submit env principal p c op i bs w2 = (Ok r', w3) ∧
      r'.(agr_canonical) = canonical_bytes (agent_receipt_wire receipt true) ∧ env.(se_store) w3 = env.(se_store) (admit_world w2).
Proof.
  intros Hw Hreach Hi Hop Hbs Hnd Hsub Hf Hz Hsteps (Hc1 & _ & Ha1) (Hc2 & Hn2 & Ha2).
  apply service_submit_Ok in Hsub as (view & cs & bound & result & receipt & s & Hsub & ->). rewrite (sw_put Hw) in Hz, Hsteps.
  assert (NoDup bound.(bi_causation)) as Hd by (eapply Hnd; eapply Hsub).
  destruct (submitted_recorded _ _ _ _ _ _ _ _ _ _ _ _ _ Hw Hreach Hi Hop Hbs Hd Hsub Hf) as (au & Hau & Hrec & E & Hs).
  assert (bound.(bi_operationKey) = op) as Hkey.
  { pose proof (sub_bound _ _ _ _ _ _ _ _ _ _ _ _ _ Hsub) as Hb. by apply bindIntent_bound, bv_operation in Hb. }
  assert (Digest_IsZero receipt.(rc_digest) = false) as Hnz.
  { destruct Hrec as (_ & _ & _ & _ & id & Hrow & _). rewrite Hkey in Hrow. apply Hz in Hrow.
    apply bool_decide_eq_false. intros Hzero. apply Hrow. cbn. by rewrite Hzero. }
  pose proof Hrec as (Hrok & Hsealed & _).
  pose proof (store_steps_extend _ _ _ (transitivity Hsteps (sw_others Hw w2))) as Hx1. fold (view_world w2) in Hx1.
  pose proof (transitivity Hx1 (store_steps_extend _ _ _ (admit_world_steps w2 Hw))) as Hx2.
  pose proof (store_steps_extend _ _ _ Hs) as Hx0.
  pose proof (store_steps_extend _ _ _ (transitivity (admit_world_steps w Hw) (sw_between Hw (admit_world w) _))) as Hx.
  destruct (authenticateAttachmentTx (st_db (se_store env (view_world w2))) p) as [au1|] eqn:Hau1; [|done].
  destruct (authenticateAttachmentTx (st_db (se_store env (admit_world w2))) p) as [au2|] eqn:Hau2; [|done].
  exists receipt. split; [by apply receipt_ok_diagnosed|]. split.
  { pose proof (sub_projected _ _ _ _ _ _ _ _ _ _ _ _ _ Hsub) as Hj. rewrite E in Hj. cbn [resultFromReceipt ar_replayed] in Hj.
    rewrite ProjectAgentReceipt_ok in Hj by done. by apply (inj Ok) in Hj as <-. }
  eexists _, _. split.
  - apply (service_submit_run p c op i bs w2 view cs bound (resultFromReceipt receipt true) receipt (env.(se_store) (admit_world w2))).
    split; [by eapply sub_available| |by eapply sub_candidates|by eapply sub_bound| | |done|done|].
    + eapply ReplayCurrent_extends; [|by eapply sub_view|done|done]. by etrans; [exact Hx|]; etrans; [exact Hx0|].
    + cbv zeta. eapply Admit_recorded; [|done| |done|done|done].
      * rewrite (authenticate_extends _ _ _ _ _ (transitivity Hx0 Hx2) Hau Hau2). by eapply recorded_extends.
      * rewrite Hkey. by eapply is_empty_false, token_ok_nonempty.
    + cbn [resultFromReceipt ar_receiptJSON]. by apply ParseReceiptCanonicalJSON_canonical.
    + cbn [resultFromReceipt ar_replayed]. by apply ProjectAgentReceipt_ok.
  - cbn [agr_canonical]. split; [done|apply (sw_put Hw)].
Qed.
End resubmit.
