(* ===== verification/ControlContracts.v ===== *)
(** What the control protocol guarantees: the daemon's HTTP server and the terminal's
    client together are the local service itself, and a submission whose answer was lost
    is answered again with the Receipt that was recorded. *)

From Stdlib Require Import Lia.
From S2P Require Import Prelude Io Utf8 Json Wire Sha256 Time StoreTime Value Intent Bound Event Peer View AgentView Base64.
From S2P Require Import Cas Bind Store EventStore Attach Routes Inbox Outbox Domain Admission PeerAdmission Current.
From S2P Require Import History Frames Invariant PeerInv Replies Projection Replay Calls Scenario.
From S2P Require Import ArtifactText Compact Journal JournalDir Terminal JournalCalm ControlWire Control ControlClient ControlProof.
From S2P Require Import Service ServiceProof ServiceReplay.

#[local] Open Scope Z_scope.

(** ** One client *)

(** The terminal's client when the service is beside it. *)
Definition directClient {W} (S : LocalService W) : AgencyClient W := {|
  cl_Attach := direct_Attach S; cl_End := direct_End S; cl_Current := direct_Current S; cl_Submit := direct_Submit S;
  cl_Capture := direct_Capture S; cl_ReadArtifact := direct_ReadArtifact S |}.

(** Two clients behave alike on what the terminal passes them: digests of 32 bytes and
    canonical Intents. *)
Record same_client {W} (a b : AgencyClient W) : Prop := {
  same_Attach d w : digest_wf d → a.(cl_Attach) d w = b.(cl_Attach) d w;
  same_End v w : a.(cl_End) v w = b.(cl_End) v w;
  same_Current v o w : a.(cl_Current) v o w = b.(cl_Current) v o w;
  same_Submit v c o i cs w : intent_wf i →
    a.(cl_Submit) v c o i.(ai_canonical) cs w = b.(cl_Submit) v c o i.(ai_canonical) cs w;
  same_Capture content w : a.(cl_Capture) content w = b.(cl_Capture) content w;
  same_ReadArtifact v c h w : a.(cl_ReadArtifact) v c h w = b.(cl_ReadArtifact) v c h w;
}.

Lemma client_transparent {W} (S : LocalService W) :
  SoundService S → same_client (controlClient (ServeHTTP S)) (directClient S).
Proof.
  intros HS. split; cbn [controlClient directClient cl_Attach cl_End cl_Current cl_Submit cl_Capture cl_ReadArtifact].
  - intros d w. by apply attach_transparent.
  - intros v w. by apply end_transparent.
  - intros v o w. by apply current_transparent.
  - intros v c o i cs w. by apply submit_transparent.
  - intros content w. by apply capture_transparent.
  - intros v c h w. by apply read_transparent.
Qed.

Lemma direct_Submit_Ok {W} (S : LocalService W) a c o i cs w raw w' :
  intent_wf i → direct_Submit S a c o i.(ai_canonical) cs w = (Ok raw, w') →
  handle_ok o = true ∧ ∃ bs r, Forall (λ b, digest_ok b.(sc_digest)) bs ∧
    S.(ls_submit) (proof_of a) (current_of c) o i bs w = (Ok r, w') ∧ raw = r.(agr_canonical) ∧
    ∀ v r' v', S.(ls_submit) (proof_of a) (current_of c) o i bs v = (Ok r', v') →
      is_ok (ParseAgentReceiptProjectionCanonicalJSON r'.(agr_canonical)) = true →
      direct_Submit S a c o i.(ai_canonical) cs v = (Ok r'.(agr_canonical), v').
Proof.
  intros Hi H. unfold direct_Submit in H |- *. apply io_bind_Ok in H as (o' & w1 & [Ho%or_error_Ok ->]%lift_Ok & H).
  apply newIdentifier_Ok in Ho as [-> Ho]. rewrite ParseAgentIntentJSON_canonical in H |- * by done. cbn [or_error] in H |- *.
  apply io_bind_Ok in H as (i' & w2 & [Ei ->]%lift_Ok & H). apply (inj Ok) in Ei as <-.
  apply io_bind_Ok in H as ([] & w3 & [Hn ->]%guard_Ok & H).
  apply io_bind_Ok in H as (hs & w4 & [Hh ->]%lift_Ok & H). apply io_bind_Ok in H as (wires & w5 & [Hw ->]%lift_Ok & H).
  apply io_bind_Ok in H as (bs & w6 & [Hb ->]%lift_Ok & H). apply io_bind_Ok in H as (r & w7 & Hs & H).
  apply io_bind_Ok in H as ([] & w8 & [_ ->]%guard_Ok & H). injection H as <- <-.
  split; [done|]. exists bs, r. split_and!.
  - eapply mapR_Forall; [|exact Hb]. intros x b Hx. apply bind_Ok in Hx as (d & (_ & Hd)%ParseDigest_Ok & Hx).
    by apply (inj Ok) in Hx as <-.
  - unfold served in Hs. destruct (ls_submit _ _ _ _ _ _ _) as [[y|e] v]; [|done]. by injection Hs as <- <-.
  - done.
  - intros v r' v' Hr Hp. rewrite (lift_run _ _ o) by by rewrite (proj2 (newIdentifier_Ok "operation key" _ _) (conj eq_refl Ho) : NewOperationKey _ = _).
    rewrite (lift_run (Ok i) _ i v eq_refl), guard_run by done. rewrite (lift_run _ _ hs) by done. rewrite (lift_run _ _ wires) by done.
    rewrite (lift_run _ _ bs) by done. rewrite (bind_run _ _ _ (Ok r') v') by (unfold served; by rewrite Hr).
    rewrite guard_run; [done|]. by rewrite Hp.
Qed.

(** ** A daemon beside the scenario's Store *)

Module Fixture.
Import Scenario.

(** The world is the Store; the clock stands still, nobody else runs, and the Artifact
    store is empty. *)
Definition cas : CasEnv Store := {|
  ce_fs := λ _, {| fs_files := ∅; fs_inodes := ∅; fs_dirs := ∅ |}; ce_put := λ w _, w; ce_others := λ w, w;
  ce_fault := λ _, None; ce_short := λ _, O; ce_random := λ _, Ok (entropy "cas" 0); ce_clock := λ _, 0;
  ce_real := λ _ p, Ok p |}.
Definition env : ServiceEnv Store := {|
  se_store := λ w, w; se_put := λ _ s, s; se_others := λ w, w; se_cas := cas; se_now := λ _, at_ns 4;
  se_random := λ _, Ok (entropy "candidate" 0); se_between := λ _ s, s; se_later := λ _, at_ns 5;
  se_entropy := λ _, entropy "admit"; se_verifier := λ _, None |}.
Definition artifacts : CasStore := {| cs_root := "/cas"; cs_temp := "/cas/.tmp" |}.
Definition service : LocalService Store := localService env "agent:a" artifacts.

Definition authority : attachment := {|
  at_ID := proof_a.(ap_id); at_Credential := proof_a.(ap_credential); at_ExpiresAt := proof_a.(ap_expiresAt) |}.
Definition intent_a : AgentIntent := ok no_intent (peer ← AliasTarget "peer-b"; NewAgentIntent (spec_a peer)).
Definition submit : io Store string :=
  control_Submit (ServeHTTP service) authority "current:a1" "op:a1" intent_a.(ai_canonical) [].

Lemma clock w : four_digit_year (env.(se_now) w + interactiveAttachmentLifetime).
Proof.
  cbn [env se_now]. unfold at_ns. rewrite <- Z.add_assoc. apply (four_digit_at (4 + interactiveAttachmentLifetime)).
  unfold interactiveAttachmentLifetime, ns_per_second. lia.
Qed.

Lemma world : service_world verify env.
Proof. split; [exact clock|done|intros; apply rtc_refl..]. Qed.

(** What the first submission leaves. *)
Definition submit_facts (answer : result string * Store) : bool :=
  match answer with
  | (Ok raw, s) =>
      match ParseAgentReceiptProjectionCanonicalJSON raw with
      | Ok p => negb p.(agr_replayed) && bool_decide (p.(agr_outcome) = ReceiptOutcomeAccepted)
      | Err _ => false
      end && negb s.(st_closed) && is_ok (authenticateAttachmentTx s.(st_db) (proof_of authority)) &&
      forallb (λ e, negb (String.eqb e.2.(opr_receipt_digest) (Digest_String zero_digest))) (map_to_list s.(st_db).(operations))
  | _ => false
  end.
Definition fixture_facts : bool :=
  submit_facts (submit (snd current_a)) && (length intent_a.(ai_causationHandles) =? 0)%nat &&
  is_ok (peer ← AliasTarget "peer-b"; NewAgentIntent (spec_a peer)).
Lemma fixture_run : fixture_facts = true.
Proof. vm_compute. reflexivity. Qed.

Lemma intent_a_wf : intent_wf intent_a ∧ intent_a.(ai_causationHandles) = [].
Proof.
  pose proof fixture_run as H. unfold fixture_facts in H. apply andb_true_iff in H as [[_ Hc]%andb_true_iff Hi].
  apply Nat.eqb_eq, nil_length_inv in Hc. split; [|exact Hc]. apply is_ok_true in Hi as [i Hi].
  pose proof (ok_Ok no_intent _ _ Hi) as E. apply bind_Ok in Hi as (peer & Hp & Hi).
  pose proof (NewAgentIntent_wf _ _ (spec_a_wf _ (AliasTarget_ok "peer-b" peer eq_refl Hp)) Hi) as Hwf.
  exact (eq_ind_r intent_wf Hwf E).
Qed.

(** An Intent that cites nothing binds to no cause. *)
Lemma nothing_cited view intent op cs bound :
  intent.(ai_causationHandles) = [] → BoundView_Bind view intent op cs = Ok bound → NoDup bound.(bi_causation).
Proof.
  intros Hc Hb. apply bindIntent_bound, bv_causation in Hb. rewrite Hc in Hb. inversion Hb. constructor.
Qed.

Lemma submitted_a : ∃ raw p w1, submit (snd current_a) = (Ok raw, w1) ∧
  ParseAgentReceiptProjectionCanonicalJSON raw = Ok p ∧ p.(agr_replayed) = false ∧ ready env (proof_of authority) w1 ∧
  (∀ q row, w1.(st_db).(operations) !! (q, "op:a1") = Some row → row.(opr_receipt_digest) ≠ Digest_String zero_digest).
Proof.
  pose proof fixture_run as H. unfold fixture_facts in H. apply andb_true_iff in H as [[H _]%andb_true_iff _].
  destruct (submit (snd current_a)) as [[raw|e] w1]; [|exact (False_ind _ (diff_false_true H))].
  unfold submit_facts in H. apply andb_true_iff in H as [[[H Hc%negb_true_iff]%andb_true_iff Ha]%andb_true_iff Hr].
  destruct (ParseAgentReceiptProjectionCanonicalJSON raw) as [p|e] eqn:Hp; [|exact (False_ind _ (diff_false_true H))].
  apply andb_true_iff in H as [Hf%negb_true_iff _]. exists raw, p, w1. split; [reflexivity|]. split; [exact Hp|]. split; [exact Hf|]. split.
  - split; [exact Hc|]. split; [|exact Ha]. cbn [env se_now]. apply (at_nonzero 4). lia.
  - intros q row Hrow E. rewrite forallb_forall in Hr. apply elem_of_map_to_list in Hrow.
    apply list_elem_of_In, Hr in Hrow. cbn [snd] in Hrow. rewrite E, String.eqb_refl in Hrow. exact (diff_false_true Hrow).
Qed.
End Fixture.

(** ** Contracts *)

(** C5. The control protocol is transparent: every call of the terminal's client, sent
    as an HTTP request that the daemon's control server parses, serves and answers,
    returns exactly what the local service returns to a caller beside it - the same
    value, the same change of the world, and for every failure of the service the
    error it is classified as - for all inputs the terminal passes. *)
Theorem control_transparent {W} (env : ServiceEnv W) (principal : AgentPrincipalID) (artifacts : CasStore) :
  (∀ w, four_digit_year (env.(se_now) w + interactiveAttachmentLifetime)) →
  let service := localService env principal artifacts in
  same_client (controlClient (ServeHTTP service)) (directClient service).
Proof. intros Hclock. by apply client_transparent, localService_sound. Qed.

Lemma control_transparent_witness :
  same_client (controlClient (ServeHTTP Fixture.service)) (directClient Fixture.service).
Proof. exact (control_transparent Fixture.env "agent:a" Fixture.artifacts Fixture.clock). Defined.

(** C8. A lost answer costs nothing: when the daemon has recorded the Receipt of a
    submission, the terminal that submits the same Intent under the same operation
    again - after any other calls on the Store, its boundary possibly ended, while its
    proof still authenticates - is answered with the same outcome and diagnostic,
    marked as a replay, and the Store is left as it was.  The Intent's cited handles
    name distinct Events, and the recorded digest is not the zero digest. *)
Theorem lost_answer_replays {W} verify (env : ServiceEnv W) principal artifacts authority current operation intent
    candidates w raw receipt w1 w2 :
  let submit := control_Submit (ServeHTTP (localService env principal artifacts)) authority current operation
                  intent.(ai_canonical) candidates in
  service_world verify env → reachable verify (env.(se_store) w) → intent_wf intent →
  (∀ view cs bound, ReplayCurrent (env.(se_store) (view_world env w)) (proof_of authority) (current_of current) = Ok view →
     BoundView_Bind view intent operation cs = Ok bound → NoDup bound.(bi_causation)) →
  submit w = (Ok raw, w1) → ParseAgentReceiptProjectionCanonicalJSON raw = Ok receipt → receipt.(agr_replayed) = false →
  (∀ p row, (env.(se_store) w1).(st_db).(operations) !! (p, operation) = Some row →
     row.(opr_receipt_digest) ≠ Digest_String zero_digest) →
  rtc (store_step verify) (env.(se_store) w1) (env.(se_store) w2) →
  ready env (proof_of authority) (view_world env w2) → ready env (proof_of authority) (admit_world env w2) →
  ∃ raw' w3, submit w2 = (Ok raw', w3) ∧
    ParseAgentReceiptProjectionCanonicalJSON raw' = Ok {|
      agr_outcome := receipt.(agr_outcome); agr_replayed := true; agr_diagnostic := receipt.(agr_diagnostic);
      agr_canonical := raw' |} ∧
    env.(se_store) w3 = env.(se_store) (admit_world env w2).
Proof.
  cbv zeta. intros Hw Hreach Hi Hnd Hsubmit Hp Hf Hz Hsteps Hr1 Hr2.
  pose proof (localService_sound env principal artifacts (sw_clock _ _ Hw)) as HS.
  rewrite submit_transparent in Hsubmit |- * by done.
  apply direct_Submit_Ok in Hsubmit as (Hop & bs & r & Hbs & Hserve & -> & Hagain); [|done].
  cbn [localService ls_submit] in Hserve.
  assert (r.(agr_replayed) = false) as Hfresh.
  { pose proof Hserve as Hs. apply service_submit_Ok in Hs as (view & cs & bound & result & rc & s & Hsub & _).
    rewrite (submitted_fresh _ _ _ _ _ _ _ _ _ _ _ _ _ _ _ _ Hsub Hp). exact Hf. }
  destruct (service_resubmits verify env principal _ _ _ _ _ _ _ _ w2 Hw Hreach Hi Hop Hbs Hnd Hserve Hfresh Hz Hsteps Hr1 Hr2)
    as (rc & Hok & Ec & r' & w3 & Hserve' & Ec' & Hstore).
  rewrite Ec in Hp. destruct (receipt_projection_reads rc false true receipt Hok Hp) as (Eo & Ed & _ & Hreads).
  exists r'.(agr_canonical), w3. rewrite Ec'. split_and!; [|by rewrite Hreads, Eo, Ed|done].
  rewrite <- Ec'. apply Hagain; [exact Hserve'|]. by rewrite Ec', Hreads.
Qed.

Lemma lost_answer_replays_witness :
  ∃ raw p w1 raw' w3, Fixture.submit (snd Scenario.current_a) = (Ok raw, w1) ∧
    ParseAgentReceiptProjectionCanonicalJSON raw = Ok p ∧ Fixture.submit w1 = (Ok raw', w3) ∧
    ParseAgentReceiptProjectionCanonicalJSON raw' = Ok {|
      agr_outcome := p.(agr_outcome); agr_replayed := true; agr_diagnostic := p.(agr_diagnostic); agr_canonical := raw' |} ∧ w3 = w1.
Proof.
  destruct Fixture.submitted_a as (raw & p & w1 & Hs & Hp & Hf & Hready & Hz). destruct Fixture.intent_a_wf as [Hi Hc].
  destruct (lost_answer_replays Scenario.verify Fixture.env "agent:a" Fixture.artifacts Fixture.authority "current:a1" "op:a1"
    Fixture.intent_a [] (snd Scenario.current_a) raw p w1 w1 Fixture.world Scenario.reach_current_a Hi
    (λ view cs bound _ Hb, Fixture.nothing_cited view _ _ cs bound Hc Hb) Hs Hp Hf Hz (rtc_refl _ _) Hready Hready)
    as (raw' & w3 & Hs' & Hp' & Hw).
  exists raw, p, w1, raw', w3. exact (conj Hs (conj Hp (conj Hs' (conj Hp' Hw)))).
Defined.
