(* ===== verification/Heap.v ===== *)
(** Binary heaps in an array, as container/heap of the Go standard library keeps
    them: [up], [down], [Push] and [Pop], with the loops as they are written, and the
    facts their users rely on.  The element that no other is [less] than is first. *)

From Stdlib Require Import Lia.
From S2P Require Import Prelude.

#[local] Open Scope nat_scope.

(** A strict weak order: [less] is asymmetric and its negation is transitive. *)
Class WeakOrder {T} (less : T → T → bool) : Prop := {
  less_asym a b : less a b = true → less b a = false;
  less_neg_trans a b c : less b a = false → less c b = false → less c a = false;
}.

Section heap.
Context {T : Type} (less : T → T → bool).

(** [h.Less(i, j)] and [h.Swap(i, j)] on a slice; indices out of range do not occur. *)
Definition less_at (h : list T) (i j : nat) : bool :=
  match h !! i, h !! j with Some a, Some b => less a b | _, _ => false end.

Definition swap (h : list T) (i j : nat) : list T :=
  match h !! i, h !! j with Some a, Some b => <[i := b]> (<[j := a]> h) | _, _ => h end.

Definition parent (j : nat) : nat := (j - 1) / 2.

(** [up(h, j)]; every turn lowers [j], so [j] turns are enough. *)
Fixpoint up_loop (turns : nat) (h : list T) (j : nat) : list T :=
  match turns with
  | 0 => h
  | S turns =>
      let i := parent j in
      if (i =? j) || negb (less_at h j i) then h else up_loop turns (swap h i j) i
  end.
Definition up (h : list T) (j : nat) : list T := up_loop j h j.

(** [down(h, i, n)]; every turn raises [i], which stays below [n]. *)
Fixpoint down_loop (turns : nat) (h : list T) (i n : nat) : list T :=
  match turns with
  | 0 => h
  | S turns =>
      let j1 := 2 * i + 1 in
      if n <=? j1 then h else
      let j2 := j1 + 1 in
      let j := if (j2 <? n) && less_at h j2 j1 then j2 else j1 in
      if negb (less_at h j i) then h else down_loop turns (swap h i j) j n
  end.
Definition down (h : list T) (i n : nat) : list T := down_loop n h i n.

(** [heap.Push(h, x)]. *)
Definition heap_push (h : list T) (x : T) : list T := up (h ++ [x]) (length h).

(** [heap.Pop(h)]: the first element and the heap without it. *)
Definition heap_pop (h : list T) : option (T * list T) :=
  let n := length h - 1 in
  let h' := down (swap h 0 n) 0 n in
  x ← h' !! n; Some (x, take n h').

(** ** Swaps *)

Lemma swap_length h i j : length (swap h i j) = length h.
Proof. unfold swap. repeat case_match; by rewrite ?length_insert. Qed.

Lemma swap_lookup h i j a b : h !! i = Some a → h !! j = Some b → i ≠ j → ∀ k,
  swap h i j !! k = if decide (k = i) then Some b else if decide (k = j) then Some a else h !! k.
Proof.
  intros Ha Hb Hij k. unfold swap. rewrite Ha, Hb.
  pose proof (lookup_lt_Some _ _ _ Ha). pose proof (lookup_lt_Some _ _ _ Hb).
  destruct (decide (k = i)) as [->|Hi]; [apply list_lookup_insert_eq; by rewrite length_insert|].
  rewrite list_lookup_insert_ne by done.
  destruct (decide (k = j)) as [->|Hj]; [by apply list_lookup_insert_eq|by apply list_lookup_insert_ne].
Qed.

Lemma insert_Permutation (h : list T) i a x :
  h !! i = Some a → a :: <[i := x]> h ≡ₚ x :: h.
Proof.
  intros Ha. pose proof (lookup_lt_Some _ _ _ Ha).
  rewrite insert_take_drop by done. rewrite <- (take_drop_middle h i a) at 3 by done.
  rewrite <- !Permutation_middle. apply Permutation_swap.
Qed.

Lemma swap_Permutation h i j : swap h i j ≡ₚ h.
Proof.
  unfold swap. destruct (h !! i) as [a|] eqn:Ha; [|done]. destruct (h !! j) as [b|] eqn:Hb; [|done].
  destruct (decide (i = j)) as [->|Hij].
  { simplify_eq. by rewrite list_insert_insert_eq, list_insert_id. }
  apply (Permutation_cons_inv (a := a)).
  rewrite insert_Permutation by (rewrite list_lookup_insert_ne by done; exact Ha).
  by apply insert_Permutation.
Qed.

Lemma up_Permutation h j : up h j ≡ₚ h.
Proof.
  unfold up. generalize j at 1. intros t. revert h j. induction t as [|t IH]; intros h j; cbn [up_loop]; [done|].
  case_match; [done|]. by rewrite IH, swap_Permutation.
Qed.

Lemma down_loop_Permutation t h i n : down_loop t h i n ≡ₚ h.
Proof.
  revert h i. induction t as [|t IH]; intros h i; cbn [down_loop]; [done|].
  cbv zeta. case_match; [done|]. generalize (if ((2 * i + 1 + 1) <? n) && less_at h (2 * i + 1 + 1) (2 * i + 1) then 2 * i + 1 + 1 else 2 * i + 1).
  intros j. destruct (negb _); [done|]. by rewrite IH, swap_Permutation.
Qed.

Lemma down_Permutation h i n : down h i n ≡ₚ h.
Proof. apply down_loop_Permutation. Qed.

Lemma heap_push_Permutation h x : heap_push h x ≡ₚ x :: h.
Proof. unfold heap_push. rewrite up_Permutation. symmetry. apply Permutation_cons_append. Qed.

(** ** Heap order *)

(** The first [n] elements are ordered below their parents, at the places [P]. *)
Definition ordered (P : nat → Prop) (h : list T) (n : nat) : Prop :=
  ∀ j, 0 < j → j < n → P j → less_at h j (parent j) = false.

Definition heap_ok (h : list T) : Prop := ordered (λ _, True) h (length h).

Lemma parent_lt j : 0 < j → parent j < j.
Proof. intros ?. unfold parent. apply Nat.Div0.div_lt_upper_bound; lia. Qed.

Lemma parent_child i j : 0 < j → parent j = i ↔ j = 2 * i + 1 ∨ j = 2 * i + 2.
Proof.
  intros Hj. unfold parent. pose proof (Nat.Div0.div_mod (j - 1) 2) as E.
  pose proof (Nat.mod_upper_bound (j - 1) 2 ltac:(lia)). lia.
Qed.

Context `{!WeakOrder less}.

Lemma less_irrefl a : less a a = false.
Proof. destruct (less a a) eqn:E; [|done]. pose proof (less_asym _ _ E). congruence. Qed.

(** The first element is least. *)
Lemma heap_ok_least h n x y i :
  ordered (λ _, True) h n → n <= length h → h !! 0 = Some x → i < n → h !! i = Some y → less y x = false.
Proof.
  intros Ho Hn Hx. revert y. induction i as [i IH] using lt_wf_ind. intros y Hi Hy.
  destruct (decide (i = 0)) as [->|Hi0]; [simplify_eq; apply less_irrefl|].
  pose proof (parent_lt i ltac:(lia)) as Hp.
  destruct (lookup_lt_is_Some_2 h (parent i)) as [p Hpv]; [lia|].
  eapply less_neg_trans; [exact (IH _ Hp p ltac:(lia) Hpv)|].
  specialize (Ho i ltac:(lia) Hi I). unfold less_at in Ho. by rewrite Hy, Hpv in Ho.
Qed.

(** Comparisons by place; a swap permutes the places. *)
Lemma less_at_trans h a b c :
  b < length h → less_at h b a = false → less_at h c b = false → less_at h c a = false.
Proof.
  intros [y Hy]%lookup_lt_is_Some. unfold less_at. rewrite Hy.
  destruct (h !! a), (h !! c); try done. apply less_neg_trans.
Qed.

Lemma less_at_asym h a b : less_at h a b = true → less_at h b a = false.
Proof. unfold less_at. destruct (h !! a), (h !! b); try done. apply less_asym. Qed.

Definition other (i j k : nat) : nat := if decide (k = i) then j else if decide (k = j) then i else k.

Lemma less_at_swap h i j a b : i ≠ j → i < length h → j < length h →
  less_at (swap h i j) a b = less_at h (other i j a) (other i j b).
Proof.
  intros Hij [x Hx]%lookup_lt_is_Some [y Hy]%lookup_lt_is_Some. unfold less_at, other.
  rewrite !(swap_lookup _ _ _ _ _ Hx Hy Hij). repeat case_decide; by rewrite ?Hx, ?Hy.
Qed.

(** Ordered except at [j], whose children are ordered below its parent. *)
Definition up_ok (h : list T) (j : nat) : Prop :=
  ordered (λ k, k ≠ j) h (length h) ∧
  ∀ c, 0 < j → 0 < c → c < length h → parent c = j → less_at h c (parent j) = false.

Ltac places := unfold other; repeat case_decide; subst; try done; try lia.

Lemma up_swap_ok h j : 0 < j → j < length h →
  less_at h j (parent j) = true → up_ok h j → up_ok (swap h (parent j) j) (parent j).
Proof.
  intros Hj Hl Hless [Ho Hg]. pose proof (parent_lt j Hj) as Hp. remember (parent j) as i eqn:Ei.
  split; [|intros c Hi Hc Hcl Hci; rewrite swap_length in Hcl].
  - intros k Hk Hkl Hne. rewrite swap_length in Hkl. rewrite less_at_swap by lia.
    destruct (decide (k = j)) as [->|Hkj].
    { rewrite <- Ei. places. by apply less_at_asym. }
    destruct (decide (parent k = j)) as [Hkp|Hkp].
    { rewrite Hkp. places. by apply Hg. }
    destruct (decide (parent k = i)) as [Hki|Hki].
    { assert (less_at h k j = false); [|rewrite Hki; places].
      apply (less_at_trans _ _ i); [lia|by apply less_at_asym|]. rewrite <- Hki. by apply Ho. }
    pose proof (Ho k Hk Hkl Hkj). places.
  - pose proof (parent_lt i Hi) as Hpi. rewrite less_at_swap by lia.
    assert (i ≠ j) as Hij by lia. pose proof (Ho i Hi ltac:(lia) Hij) as Hii. pose proof (parent_lt c Hc).
    destruct (decide (c = j)) as [->|Hcj]; [places|].
    pose proof (Ho c Hc Hcl Hcj) as Hcp. rewrite Hci in Hcp.
    assert (less_at h c (parent i) = false) by (apply (less_at_trans _ _ i); [lia|done|done]). places.
Qed.

Lemma up_ok_root h : up_ok h 0 → heap_ok h.
Proof. intros [Ho _] k Hk Hkl _. apply Ho; [done|done|lia]. Qed.

Lemma up_loop_ok t h j : j <= t → j < length h → up_ok h j → heap_ok (up_loop t h j).
Proof.
  revert h j. induction t as [|t IH]; intros h j Ht Hl Hok; cbn [up_loop].
  { assert (j = 0) as -> by lia. by apply up_ok_root. }
  destruct (decide (j = 0)) as [->|Hj]; [by apply up_ok_root|]. pose proof (parent_lt j ltac:(lia)) as Hp.
  destruct (parent j =? j) eqn:E; [apply Nat.eqb_eq in E; lia|]. cbn [orb].
  destruct (less_at h j (parent j)) eqn:Hless; cbn [negb].
  - apply IH; [lia|rewrite swap_length; lia|]. apply up_swap_ok; [lia|done|done|done].
  - intros k Hk Hkl _. destruct (decide (k = j)) as [->|Hkj]; [done|]. by apply Hok.
Qed.

Lemma up_heap_ok h j : j < length h → up_ok h j → heap_ok (up h j).
Proof. by apply up_loop_ok. Qed.

Lemma less_at_app h x i j : i < length h → j < length h → less_at (h ++ x) i j = less_at h i j.
Proof. intros ??. unfold less_at. by rewrite !lookup_app_l. Qed.

Lemma heap_push_ok h x : heap_ok h → heap_ok (heap_push h x).
Proof.
  intros Ho. apply up_heap_ok; [rewrite length_app; cbn; lia|]. split.
  - intros k Hk Hkl Hne. rewrite length_app in Hkl. cbn in Hkl. pose proof (parent_lt k Hk).
    rewrite less_at_app by lia. apply Ho; [done|lia|done].
  - intros c Hj Hc Hcl E. rewrite length_app in Hcl. cbn in Hcl. pose proof (parent_lt c Hc). lia.
Qed.

(** Ordered except below [i], whose children are ordered below its parent. *)
Definition down_ok (h : list T) (i n : nat) : Prop :=
  ordered (λ k, parent k ≠ i) h n ∧
  ∀ c, 0 < i → 0 < c → c < n → parent c = i → less_at h c (parent i) = false.

(** The child that goes up is less than no other child of [i]. *)
Definition least_child (h : list T) (i j n : nat) : Prop :=
  0 < j ∧ j < n ∧ parent j = i ∧ ∀ k, 0 < k → k < n → parent k = i → less_at h k j = false.

Lemma least_child_chosen h i n : ~ n <= 2 * i + 1 →
  least_child h i (if (2 * i + 1 + 1 <? n) && less_at h (2 * i + 1 + 1) (2 * i + 1) then 2 * i + 1 + 1 else 2 * i + 1) n.
Proof.
  intros Hn. assert (∀ a, less_at h a a = false) as Hirr.
  { intros a. unfold less_at. destruct (h !! a); [apply less_irrefl|done]. }
  assert (∀ c k, 0 < k → parent k = i → less_at h (2 * i + 1) c = false → less_at h (2 * i + 1 + 1) c = false → less_at h k c = false) as Hboth.
  { intros c k Hk [-> | ->]%parent_child; [done|replace (2 * i + 2) with (2 * i + 1 + 1) by lia; done|lia]. }
  destruct (2 * i + 1 + 1 <? n) eqn:H2; [apply Nat.ltb_lt in H2|apply Nat.ltb_ge in H2].
  - destruct (less_at h (2 * i + 1 + 1) (2 * i + 1)) eqn:Hl; cbn [andb].
    + split_and!; [lia|lia|apply parent_child; lia|]. intros k Hk _ Hp. by apply Hboth; [..|apply less_at_asym|].
    + split_and!; [lia|lia|apply parent_child; lia|]. intros k Hk _ Hp. by apply Hboth.
  - cbn [andb]. split_and!; [lia|lia|apply parent_child; lia|]. intros k Hk Hkn [-> | ->]%parent_child; [done|lia|lia].
Qed.

Lemma down_swap_ok h i j n : n <= length h → least_child h i j n →
  less_at h j i = true → down_ok h i n → down_ok (swap h i j) j n.
Proof.
  intros Hn (Hj & Hjn & Hji & Hleast) Hless [Ho Hg]. pose proof (parent_lt j Hj) as Hp. rewrite Hji in Hp.
  split.
  - intros k Hk Hkn Hne. rewrite less_at_swap by lia. pose proof (parent_lt k Hk).
    destruct (decide (k = i)) as [->|Hki].
    { pose proof (Hg j ltac:(lia) Hj Hjn Hji). places. }
    destruct (decide (k = j)) as [->|Hkj].
    { rewrite Hji. places. by apply less_at_asym. }
    destruct (decide (parent k = i)) as [Hpk|Hpk].
    { pose proof (Hleast k Hk Hkn Hpk). rewrite Hpk. places. }
    pose proof (Ho k Hk Hkn Hpk). places.
  - intros c _ Hc Hcn Hcj. rewrite less_at_swap by lia. pose proof (parent_lt c Hc).
    assert (parent c ≠ i) as Hci by lia. pose proof (Ho c Hc Hcn Hci) as Hoc. rewrite Hcj in Hoc. rewrite Hji. places.
Qed.

Lemma down_loop_ok t h i n : n <= length h → n <= t + i → down_ok h i n →
  ordered (λ _, True) (down_loop t h i n) n.
Proof.
  revert h i. induction t as [|t IH]; intros h i Hn Ht [Ho Hg]; cbn [down_loop].
  { intros k Hk Hkn _. pose proof (parent_lt k Hk). apply Ho; [done|done|lia]. }
  cbv zeta. destruct (n <=? 2 * i + 1) eqn:E; [apply Nat.leb_le in E|apply Nat.leb_gt in E].
  { intros k Hk Hkn _. apply Ho; [done|done|]. intros Hp%parent_child; lia. }
  pose proof (least_child_chosen h i n ltac:(lia)) as Hc. revert Hc.
  generalize (if (2 * i + 1 + 1 <? n) && less_at h (2 * i + 1 + 1) (2 * i + 1) then 2 * i + 1 + 1 else 2 * i + 1).
  intros j Hc. pose proof Hc as (Hj & Hjn & Hji & Hleast). pose proof (parent_lt j Hj).
  destruct (less_at h j i) eqn:Hless; cbn [negb].
  - apply IH; [by rewrite swap_length|lia|]. by apply down_swap_ok.
  - intros k Hk Hkn _. destruct (decide (parent k = i)) as [Hpk|Hpk]; [|by apply Ho].
    rewrite Hpk. apply (less_at_trans _ _ j); [lia|done|by apply Hleast].
Qed.

Lemma down_heap_ok h i n : n <= length h → down_ok h i n → ordered (λ _, True) (down h i n) n.
Proof. intros ?. apply down_loop_ok; [done|lia]. Qed.

(** ** Removing the first element *)

Lemma down_loop_above t h i n k : n <= k → down_loop t h i n !! k = h !! k.
Proof.
  intros Hk. revert h i. induction t as [|t IH]; intros h i; cbn [down_loop]; [done|]. cbv zeta.
  destruct (n <=? 2 * i + 1) eqn:E; [done|]. apply Nat.leb_gt in E.
  pose proof (least_child_chosen h i n ltac:(lia)) as Hc. revert Hc.
  generalize (if (2 * i + 1 + 1 <? n) && less_at h (2 * i + 1 + 1) (2 * i + 1) then 2 * i + 1 + 1 else 2 * i + 1).
  intros j (Hj & Hjn & <- & _). pose proof (parent_lt j Hj). destruct (negb _); [done|]. rewrite IH.
  unfold swap. destruct (h !! parent j), (h !! j); try done. by rewrite !list_lookup_insert_ne by lia.
Qed.

Lemma less_at_take h n i j : i < n → j < n → less_at (take n h) i j = less_at h i j.
Proof. intros ??. unfold less_at. by rewrite !lookup_take_lt. Qed.

(** Popping a non-empty heap gives its first element, which is least, and a heap of
    the others. *)
Lemma heap_pop_ok h x h' : heap_ok h → h = x :: h' →
  ∃ rest, heap_pop h = Some (x, rest) ∧ heap_ok rest ∧ rest ≡ₚ h' ∧
    Forall (λ y, less y x = false) rest.
Proof.
  intros Hok E. assert (h !! 0 = Some x) as Hx by by rewrite E.
  assert (length h = S (length h')) as Hlen by by rewrite E.
  set (n := length h - 1). assert (n < length h) as Hn by (subst n; lia).
  destruct (lookup_lt_is_Some_2 _ _ Hn) as [z Hz].
  set (g := down (swap h 0 n) 0 n).
  assert (length g = length h) as Hgl by (unfold g; by rewrite (Permutation_length (down_Permutation _ _ _)), swap_length).
  assert (g !! n = Some x) as Hgn.
  { unfold g, down. rewrite down_loop_above by lia. destruct (decide (n = 0)) as [->|Hn0].
    - unfold swap. rewrite Hx. by rewrite list_insert_insert_eq, list_insert_id.
    - rewrite (swap_lookup _ _ _ _ _ Hx Hz) by lia. by rewrite decide_False, decide_True by lia. }
  assert (g = take n g ++ [x]) as Eg.
  { rewrite <- (take_drop_middle _ _ _ Hgn) at 1. by rewrite drop_ge by lia. }
  assert (take n g ≡ₚ h') as Hperm.
  { apply (Permutation_cons_inv (a := x)). rewrite <- E, Permutation_cons_append, <- Eg.
    unfold g. by rewrite down_Permutation, swap_Permutation. }
  exists (take n g). split_and!.
  - unfold heap_pop. cbv zeta. fold n. fold g. by rewrite Hgn.
  - assert (ordered (λ _, True) g n) as Hg.
    { unfold g. apply down_heap_ok; [rewrite swap_length; lia|]. split; [|lia].
      intros k Hk Hkn Hp. pose proof (parent_lt k Hk). rewrite less_at_swap by lia.
      unfold other. rewrite !decide_False by lia. apply Hok; [done|lia|done]. }
    intros k Hk Hkn _. pose proof (parent_lt k Hk). rewrite length_take in Hkn.
    rewrite less_at_take by lia. apply Hg; [done|lia|done].
  - done.
  - rewrite Hperm. apply Forall_lookup. intros i y Hy.
    apply (heap_ok_least h (length h) x y (S i)); [done|done|done| |by rewrite E].
    rewrite Hlen. apply lookup_lt_Some in Hy. lia.
Qed.

End heap.

(** The order of a heap depends only on how its elements compare. *)
Lemma heap_ok_ext {T} (less less' : T → T → bool) h :
  (∀ a b, a ∈ h → b ∈ h → less a b = less' a b) → heap_ok less h → heap_ok less' h.
Proof.
  intros E Ho j Hj Hjl _. specialize (Ho j Hj Hjl I). unfold less_at in *.
  destruct (h !! j) as [a|] eqn:Ha; [|done]. destruct (h !! parent j) as [b|] eqn:Hb; [|done].
  rewrite <- E; [done|by eapply list_elem_of_lookup_2..].
Qed.
