(* ===== verification/TopK.v ===== *)
(** Bounded selection (internal/memory/internal/topk/topk.go): a worst-first heap that
    keeps the [limit] best of the values it is given, and that what it returns is
    what sorting all of them and keeping the first [limit] returns, up to ties. *)

From Stdlib Require Import Lia.
From S2P Require Import Prelude Heap.

#[local] Open Scope nat_scope.

Record Selector (T : Type) := { items : list T; limit : Z; better : T → T → bool }.
Arguments items {T} _.
Arguments limit {T} _.
Arguments better {T} _.

(** [New] panics on a limit that is not positive. *)
Definition New {T} (limit : Z) (better : T → T → bool) : option (Selector T) :=
  if (limit <=? 0)%Z then None else Some {| items := []; limit := limit; better := better |}.

Section add.
Context {T : Type} (better : T → T → bool).

Definition better_at (items : list T) (i j : nat) : bool :=
  match items !! i, items !! j with Some a, Some b => better a b | _, _ => false end.

(** The loop of [Add] from the last place towards the first; [i] turns are enough. *)
Fixpoint raise (turns : nat) (items : list T) (i : nat) : list T :=
  match turns with
  | 0 => items
  | S turns =>
      if i =? 0 then items else
      let parent := (i - 1) / 2 in
      if negb (better_at items parent i) then items else raise turns (swap items parent i) parent
  end.

(** The loop of [Add] from the first place down; [len(items)] turns are enough. *)
Fixpoint lower (turns : nat) (items : list T) (i : nat) : list T :=
  match turns with
  | 0 => items
  | S turns =>
      let child := 2 * i + 1 in
      if length items <=? child then items else
      let child := if (child + 1 <? length items) && better_at items child (child + 1) then child + 1 else child in
      if negb (better_at items i child) then items else lower turns (swap items i child) child
  end.
End add.

Definition Add {T} (s : Selector T) (value : T) : Selector T :=
  let with_items l := {| items := l; limit := s.(limit); better := s.(better) |} in
  if (Z.of_nat (length s.(items)) <? s.(limit))%Z then
    with_items (raise s.(better) (length s.(items)) (s.(items) ++ [value]) (length s.(items)))
  else
    match s.(items) with
    | worst :: rest =>
        if negb (s.(better) value worst) then s
        else with_items (lower s.(better) (length s.(items)) (value :: rest) 0)
    | [] => s
    end.

(** [sort.Slice]: some reordering of the slice in which no element is less than one
    before it; the order of equal elements is not specified. *)
Class SortSlice (sort : ∀ T, (T → T → bool) → list T → list T) : Prop := {
  sort_slice_perm T less l : sort T less l ≡ₚ l;
  sort_slice_sorted T less `{!WeakOrder less} l : StronglySorted (λ a b, less b a = false) (sort T less l);
}.

Definition Selector_Sorted (sort : ∀ T, (T → T → bool) → list T → list T) {T} (s : Selector T) : list T :=
  sort T s.(better) s.(items).

(** A whole selection, as the callers run it: [New], an [Add] per candidate, [Sorted]. *)
Definition select (sort : ∀ T, (T → T → bool) → list T → list T) {T} (limit : Z) (better : T → T → bool)
    (candidates : list T) : option (list T) :=
  s ← New limit better; Some (Selector_Sorted sort (fold_left Add candidates s)).

(** ** The loops are those of a heap with the worst first *)

Section heap.
Context {T : Type} (better : T → T → bool).

(** The order of the heap: the worst first. *)
Definition worse (a b : T) : bool := better b a.

Lemma worse_at l i j : less_at worse l i j = better_at better l j i.
Proof. unfold less_at, better_at. by destruct (l !! i), (l !! j). Qed.

Lemma raise_up t l i : raise better t l i = up_loop worse t l i.
Proof.
  revert l i. induction t as [|t IH]; intros l i; cbn [raise up_loop]; [done|]. cbv zeta.
  rewrite worse_at. change ((i - 1) / 2) with (parent i).
  destruct (i =? 0) eqn:E; [apply Nat.eqb_eq in E as ->; done|]. apply Nat.eqb_neq in E.
  pose proof (parent_lt i ltac:(lia)). replace (parent i =? i) with false by (symmetry; apply Nat.eqb_neq; lia).
  cbn [orb]. case_match; [done|]. apply IH.
Qed.

Lemma lower_down t l i : lower better t l i = down_loop worse t l i (length l).
Proof.
  revert l i. induction t as [|t IH]; intros l i; cbn [lower down_loop]; [done|]. cbv zeta.
  rewrite !worse_at. case_match; [done|]. destruct (negb _); [done|]. by rewrite IH, swap_length.
Qed.

Lemma lower_Permutation t l i : lower better t l i ≡ₚ l.
Proof. rewrite lower_down. apply down_loop_Permutation. Qed.

#[local] Instance worse_order : WeakOrder better → WeakOrder worse.
Proof. unfold worse. intros Hb. split; intros; eauto using less_asym, less_neg_trans. Qed.

(** ** What is kept

    Of the candidates so far, the kept ones are as many as the limit allows and no
    dropped one is better than a kept one. *)
Record keeps_best (k : Z) (candidates : list T) (s : Selector T) : Prop := {
  kb_limit : s.(limit) = k;
  kb_better : TopK.better s = better;
  kb_heap : heap_ok worse s.(items);
  kb_bound : (Z.of_nat (length s.(items)) <= k)%Z;
  kb_split : ∃ dropped, s.(items) ++ dropped ≡ₚ candidates ∧
    (dropped ≠ [] → Z.of_nat (length s.(items)) = k) ∧
    ∀ d r, d ∈ dropped → r ∈ s.(items) → better d r = false;
}.

Context `{!WeakOrder better}.

Lemma New_keeps_best k s : New k better = Some s → keeps_best k [] s.
Proof.
  unfold New. case_match eqn:E; [done|]. intros [= <-]. apply Z.leb_gt in E.
  split; cbn; [done|done| |lia|].
  - intros j Hj Hl. cbn in Hl. lia.
  - exists []. split_and!; [done|done|by intros ?? ?%elem_of_nil].
Qed.

(** The first of the heap is the worst kept. *)
Lemma worst_kept worst rest r : heap_ok worse (worst :: rest) → r ∈ worst :: rest → better worst r = false.
Proof.
  intros Ho [i Hi]%list_elem_of_lookup_1.
  exact (heap_ok_least worse _ _ _ _ i Ho (le_n _) eq_refl (lookup_lt_Some _ _ _ Hi) Hi).
Qed.

(** Replacing the first keeps the order below it. *)
Lemma replaced_heap_ok value worst rest : heap_ok worse (worst :: rest) →
  heap_ok worse (lower better (length (worst :: rest)) (value :: rest) 0).
Proof.
  intros Ho. rewrite lower_down. change (length (worst :: rest)) with (length (value :: rest)).
  fold (down worse (value :: rest) 0 (length (value :: rest))).
  unfold heap_ok. rewrite (Permutation_length (down_Permutation _ _ _ _)).
  apply (down_heap_ok worse); [lia|]. split; [|lia]. intros j Hj Hjl Hp.
  specialize (Ho j Hj Hjl I). unfold less_at in *. destruct j as [|j]; [lia|].
  destruct (parent (S j)) as [|i] eqn:E; [by destruct Hp|done].
Qed.

Lemma Add_keeps_best k candidates s value : keeps_best k candidates s →
  keeps_best k (value :: candidates) (Add s value).
Proof.
  intros [Hlim Hbet Hheap Hb (dropped & Hperm & Hfull & Hbest)]. unfold Add. rewrite Hlim, Hbet.
  destruct (Z.of_nat (length s.(items)) <? k)%Z eqn:E.
  - apply Z.ltb_lt in E. rewrite raise_up. fold (up worse (s.(items) ++ [value]) (length s.(items))).
    fold (heap_push worse s.(items) value).
    assert (dropped = []) as -> by (destruct dropped; [done|specialize (Hfull ltac:(done)); lia]).
    split; cbn; [done|done|by apply (heap_push_ok worse)| |].
    + rewrite (Permutation_length (heap_push_Permutation _ _ _)). cbn. lia.
    + exists []. split_and!; [|done|by intros ?? ?%elem_of_nil].
      rewrite app_nil_r in *. by rewrite heap_push_Permutation, Hperm.
  - apply Z.ltb_ge in E. destruct s.(items) as [|worst rest] eqn:Ei.
    { (* an empty selection is below every positive k *)
      cbn in *. assert (k = 0%Z) as -> by lia. split; rewrite ?Ei; cbn; [done|done|done|done|].
      exists (value :: dropped). split_and!; [by rewrite <- Hperm|done|]. intros ?? _ ?%elem_of_nil. done. }
    destruct (better value worst) eqn:Ev; cbn [negb].
    + split; cbn -[lower]; [done|done|exact (replaced_heap_ok value worst rest Hheap)| |];
        rewrite (Permutation_length (lower_Permutation _ _ _)); [done|].
      exists (worst :: dropped). rewrite lower_Permutation. split_and!.
      * cbn. rewrite <- Permutation_middle. rewrite <- Hperm. done.
      * cbn in *. lia.
      * intros d r Hd Hr. rewrite lower_Permutation in Hr.
        assert (better d worst = false) as Hdw.
        { apply elem_of_cons in Hd as [->|Hd]; [apply (less_irrefl better)|]. apply Hbest; [done|left]. }
        apply elem_of_cons in Hr as [->|Hr].
        { eapply less_neg_trans; [apply less_asym, Ev|exact Hdw]. }
        apply elem_of_cons in Hd as [->|Hd]; [|apply Hbest; [done|by right]]. eapply worst_kept; [done|by right].
    + split; rewrite ?Ei; cbn; [done|done|done|done|]. exists (value :: dropped). split_and!.
      * rewrite <- Hperm. symmetry. exact (Permutation_middle (worst :: rest) dropped value).
      * intros _. cbn in *. lia.
      * intros d r [->|Hd]%elem_of_cons Hr; [|by apply Hbest].
        eapply less_neg_trans; [|exact Ev]. by eapply worst_kept.
Qed.

Lemma fold_keeps_best k candidates more s : keeps_best k candidates s →
  keeps_best k (rev more ++ candidates) (fold_left Add more s).
Proof.
  revert candidates s. induction more as [|x more IH]; intros cs s H; [done|]. cbn.
  rewrite <- app_assoc. by apply IH, Add_keeps_best.
Qed.
End heap.

(** ** Ties

    Two values are of one rank when neither is better.  Two sorted reorderings of the
    same values agree rank by rank. *)
Section ties.
Context {T : Type} (better : T → T → bool) `{!WeakOrder better}.

Definition same_rank (a b : T) : Prop := better a b = false ∧ better b a = false.
Abbreviation no_worse := (λ a b, better b a = false).

#[export] Instance same_rank_equivalence : Equivalence same_rank.
Proof.
  split.
  - intros a. split; apply (less_irrefl better).
  - intros a b [??]. done.
  - intros a b c [??] [??]. split; by eapply less_neg_trans.
Qed.

Lemma same_rank_replace x a m y l : same_rank a m → Forall2 same_rank (x ++ a :: y) l → Forall2 same_rank (x ++ m :: y) l.
Proof.
  intros Ham (l1 & l2 & H1 & H2 & ->)%Forall2_app_inv_l. apply Forall2_cons_inv_l in H2 as (b & l3 & Hab & H2 & ->).
  apply Forall2_app; [done|]. constructor; [|done]. etrans; [symmetry; exact Ham|exact Hab].
Qed.

Lemma sorted_ranks l m l' : StronglySorted no_worse l → StronglySorted no_worse l' →
  l ≡ₚ m → Forall2 same_rank m l' → Forall2 same_rank l l'.
Proof.
  intros Hl. revert m l'. induction Hl as [|a r Hr IH Ha]; intros m l' Hl' Hp Hm.
  { apply Permutation_nil in Hp as ->. done. }
  destruct Hl' as [|b r' Hr' Hb]; [apply Forall2_nil_inv_r in Hm as ->; by apply Permutation_nil_r in Hp|].
  apply Forall2_cons_inv_r in Hm as (m0 & ms & Hm0 & Hms & ->).
  assert (better b a = false) as Hba.
  { assert (m0 ∈ a :: r) as [->|Hin]%elem_of_cons by (rewrite Hp; left); [apply Hm0|].
    eapply less_neg_trans; [|apply (proj2 Hm0)]. rewrite Forall_forall in Ha. by apply Ha. }
  assert (better a b = false) as Hab.
  { assert (a ∈ m0 :: ms) as [->|Hin]%elem_of_cons by (rewrite <- Hp; left); [apply Hm0|].
    apply list_elem_of_lookup_1 in Hin as [i Hi]. destruct (Forall2_lookup_l _ _ _ _ _ Hms Hi) as (c & Hc & Hac).
    eapply less_neg_trans; [|apply (proj1 Hac)]. rewrite Forall_lookup in Hb. by eapply Hb. }
  assert (same_rank a b) as Hrank by done.
  constructor; [done|]. assert (a ∈ m0 :: ms) as Hin by (rewrite <- Hp; left).
  apply elem_of_cons in Hin as [->|Hin]; [apply Permutation_cons_inv in Hp; by eapply IH|].
  apply list_elem_of_split in Hin as (x & y & ->). apply (IH (x ++ m0 :: y)); [done| |].
  - apply (Permutation_cons_inv (a := a)). rewrite Hp. rewrite <- !Permutation_middle. apply Permutation_swap.
  - eapply same_rank_replace; [|exact Hms]. etrans; [exact Hrank|by symmetry].
Qed.

(** What is kept, sorted, is a sorted prefix of everything. *)
Lemma kept_ranks kept dropped l best all :
  kept ++ dropped ≡ₚ l → (∀ d r, d ∈ dropped → r ∈ kept → better d r = false) →
  best ≡ₚ kept → StronglySorted no_worse best → all ≡ₚ l → StronglySorted no_worse all →
  ∀ rest, rest ≡ₚ dropped → StronglySorted no_worse rest →
  Forall2 same_rank best (take (length best) all).
Proof.
  intros Hsplit Hbest Hk Hsk Hall Hsall rest Hrest Hsrest.
  assert (Forall2 same_rank (best ++ rest) all) as H.
  { apply (sorted_ranks _ all); [|done| |].
    - clear Hall Hsall. assert (∀ x y, x ∈ best → y ∈ rest → better y x = false) as Hxy.
      { intros x y Hx Hy. apply Hbest; [by rewrite <- Hrest|by rewrite <- Hk]. }
      clear Hk Hbest. induction Hsk as [|x b Hb IH Hx]; [done|]. cbn. constructor.
      + apply IH. intros ????. apply Hxy; [by right|done].
      + apply Forall_app. split; [done|]. apply Forall_forall. intros y Hy. apply Hxy; [left|done].
    - by rewrite Hall, <- Hsplit, Hk, Hrest.
    - apply Forall_Forall2_diag, Forall_true. intros x. reflexivity. }
  apply (Forall2_take _ _ _ (length best)) in H. by rewrite take_app_length in H.
Qed.
End ties.

(** C13. Selecting the best [limit] of any candidates with the bounded heap, in one
    pass and without keeping the others, returns what sorting all of them and
    keeping the first [limit] returns, rank by rank: the results differ at most in
    which of several tied candidates they hold.  What is returned is part of the
    candidates, sorted, and as long as the limit allows.  A limit that is not
    positive is refused. *)
Theorem selection_is_sort_and_cut (sort : ∀ T, (T → T → bool) → list T → list T)
    {T} (better : T → T → bool) (limit : Z) (candidates : list T) :
  SortSlice sort → WeakOrder better →
  ((limit <= 0)%Z → select sort limit better candidates = None) ∧
  ((0 < limit)%Z → ∃ best dropped, select sort limit better candidates = Some best ∧
    Forall2 (same_rank better) best (take (Z.to_nat limit) (sort T better candidates)) ∧
    best ++ dropped ≡ₚ candidates ∧ StronglySorted (λ a b, better b a = false) best).
Proof.
  intros Hsort Hbetter. split; intros Hl; unfold select.
  { unfold New. apply Z.leb_le in Hl. by rewrite Hl. }
  destruct (New limit better) as [s|] eqn:Hnew; [|unfold New in Hnew; apply Z.leb_gt in Hl; by rewrite Hl in Hnew].
  apply (New_keeps_best better) in Hnew. apply (fold_keeps_best better _ _ candidates) in Hnew.
  rewrite app_nil_r in Hnew. cbn [mbind option_bind]. set (k := fold_left Add candidates s) in *.
  destruct Hnew as [_ Hb _ Hbound (dropped & Hsplit & Hfull & Hbest)]. rewrite <- Permutation_rev in Hsplit.
  unfold Selector_Sorted. rewrite Hb. exists (sort T better k.(items)), dropped.
  assert (length (sort T better k.(items)) = length k.(items)) as Hlen by (by rewrite sort_slice_perm).
  assert (take (Z.to_nat limit) (sort T better candidates) = take (length k.(items)) (sort T better candidates)) as ->.
  { destruct dropped as [|d ds]; [|rewrite <- (Hfull ltac:(done)); by rewrite Nat2Z.id].
    rewrite app_nil_r in Hsplit. pose proof (Permutation_length Hsplit) as E.
    rewrite !take_ge; [done|rewrite sort_slice_perm; lia..]. }
  split_and!; [done| |by rewrite sort_slice_perm|apply sort_slice_sorted, _].
  rewrite <- Hlen. eapply kept_ranks; [apply _|exact Hsplit|exact Hbest|apply sort_slice_perm|apply sort_slice_sorted, _|apply sort_slice_perm|apply sort_slice_sorted, _|exact (sort_slice_perm _ better dropped)|apply sort_slice_sorted, _].
Qed.

(** A sort with the laws of [sort.Slice]: merge sort. *)
Definition sort_merge (T : Type) (less : T → T → bool) : list T → list T :=
  merge_sort (λ a b, less b a = false) (H := λ a b, decide (less b a = false)).

#[export] Instance sort_merge_slice : SortSlice sort_merge.
Proof.
  split; intros T less; [apply merge_sort_Permutation|]. intros Ho l. unfold sort_merge.
  assert (Transitive (λ a b, less b a = false)) by (intros a b c; apply less_neg_trans).
  assert (Total (λ a b, less b a = false)).
  { intros a b. destruct (less b a) eqn:E; [right; by apply less_asym|by left]. }
  apply StronglySorted_merge_sort; apply _.
Qed.

(** Similarities in thousandths, as the semantic candidates are ranked. *)
Definition closer (a b : Z * string) : bool := (b.1 <? a.1)%Z.

Lemma closer_order : WeakOrder closer.
Proof. split; unfold closer; intros *; rewrite ?Z.ltb_lt, ?Z.ltb_ge; lia. Qed.

Lemma selection_is_sort_and_cut_witness :
  ∃ best dropped, select sort_merge 2 closer [(310, "a"); (870, "b"); (120, "c"); (870, "d"); (500, "e")]%Z = Some best ∧
    Forall2 (same_rank closer) best [(870, "b"); (870, "d")]%Z ∧
    best ++ dropped ≡ₚ [(310, "a"); (870, "b"); (120, "c"); (870, "d"); (500, "e")]%Z ∧
    StronglySorted (λ a b, closer b a = false) best.
Proof.
  apply (selection_is_sort_and_cut sort_merge closer 2
    [(310, "a"); (870, "b"); (120, "c"); (870, "d"); (500, "e")]%Z sort_merge_slice closer_order). reflexivity.
Defined.
