(* ===== verification/Registry.v ===== *)
(** The open user stores of the memory server (internal/aml/registry.go): a cache of
    opened stores, least recently used first out, shared by concurrent requests that
    hold an entry between [acquire] and [release].

    Entries are objects that outlive their place in the cache, so the registry has a
    heap of them; the map and the recency list hold their identities.  Each section
    under the mutex is one function; a request is a machine that runs them one at a
    time, and the requests interleave between them. *)

From Stdlib Require Import Lia.
From S2P Require Import Prelude Utf8 Json Wire Sha256 Value.

#[local] Open Scope Z_scope.

(** ** Keys *)

(** [hex.EncodeToString(sha256(userID))[:32]]. *)
Definition userKey (userID : string) : string := String.substring 0 32 (hex_encode (sha256 userID)).

Definition isUserKey (name : string) : bool :=
  (String.length name =? 32)%nat &&
  forallb (λ c, let n := N_of_byte c in
    ((48 <=? n) && (n <=? 57) || (97 <=? n) && (n <=? 102))%N) (string_to_bytes name).

Section registry.
(** What an opened user has: the store, the agent and the stop of its runtime. *)
Context {H : Type}.

(** [elem] is the entry's place in [lru]; [writes] and [waiting] belong to the Adds of
    the server and are not touched here. *)
Record userEntry := {
  ue_key : string;
  ue_ready : bool;                (* the channel is closed *)
  ue_opened : option (result H);  (* store, agent and stop, or err *)
  ue_refs : Z;
  ue_evicted : bool;
  ue_closed : bool;
}.

Record registry := {
  g_limit : Z;
  g_entries : gmap string nat;
  g_lru : list nat;               (* front = most recently used *)
  g_closing : bool;
  g_objs : gmap nat userEntry;    (* every entry ever made *)
  g_next : nat;
}.

Definition newRegistry (limit : Z) : registry :=
  {| g_limit := limit; g_entries := ∅; g_lru := []; g_closing := false; g_objs := ∅; g_next := 0 |}.

Definition update_entry (f : userEntry → userEntry) (e : nat) (g : registry) : registry :=
  {| g_limit := g.(g_limit); g_entries := g.(g_entries); g_lru := g.(g_lru); g_closing := g.(g_closing);
     g_objs := alter f e g.(g_objs); g_next := g.(g_next) |}.

Definition add_refs (d : Z) (o : userEntry) : userEntry :=
  {| ue_key := o.(ue_key); ue_ready := o.(ue_ready); ue_opened := o.(ue_opened);
     ue_refs := o.(ue_refs) + d; ue_evicted := o.(ue_evicted); ue_closed := o.(ue_closed) |}.
Definition mark_closed (o : userEntry) : userEntry :=
  {| ue_key := o.(ue_key); ue_ready := o.(ue_ready); ue_opened := o.(ue_opened);
     ue_refs := o.(ue_refs); ue_evicted := o.(ue_evicted); ue_closed := true |}.
Definition mark_evicted (o : userEntry) : userEntry :=
  {| ue_key := o.(ue_key); ue_ready := o.(ue_ready); ue_opened := o.(ue_opened);
     ue_refs := o.(ue_refs); ue_evicted := true; ue_closed := o.(ue_closed) |}.
Definition mark_ready (o : userEntry) : userEntry :=
  {| ue_key := o.(ue_key); ue_ready := true; ue_opened := o.(ue_opened);
     ue_refs := o.(ue_refs); ue_evicted := o.(ue_evicted); ue_closed := o.(ue_closed) |}.
Definition set_opened (r : result H) (o : userEntry) : userEntry :=
  {| ue_key := o.(ue_key); ue_ready := o.(ue_ready); ue_opened := Some r;
     ue_refs := o.(ue_refs); ue_evicted := o.(ue_evicted); ue_closed := o.(ue_closed) |}.

(** ** The sections under the mutex *)

Definition removeLocked (e : nat) (g : registry) : registry :=
  match g.(g_objs) !! e with
  | Some o =>
      if o.(ue_evicted) then g else
      {| g_limit := g.(g_limit); g_entries := delete o.(ue_key) g.(g_entries);
         g_lru := filter (λ x, x ≠ e) g.(g_lru); g_closing := g.(g_closing);
         g_objs := alter mark_evicted e g.(g_objs); g_next := g.(g_next) |}
  | None => g
  end.

(** The walk of [evictLocked] from the back of the recency list; the next element is
    taken before the current one is removed. *)
Fixpoint evict_walk (back : list nat) (g : registry) (victims : list nat) : registry * list nat :=
  match back with
  | [] => (g, victims)
  | e :: back =>
      if Z.of_nat (size g.(g_entries)) <=? g.(g_limit) then (g, victims) else
      match g.(g_objs) !! e with
      | Some o =>
          if o.(ue_refs) =? 0
          then evict_walk back (update_entry mark_closed e (removeLocked e g)) (victims ++ [e])
          else evict_walk back g victims
      | None => evict_walk back g victims
      end
  end.
Definition evictLocked (g : registry) : registry * list nat := evict_walk (rev g.(g_lru)) g [].

Definition cached (key : string) (g : registry) : bool := bool_decide (is_Some (g.(g_entries) !! key)).

Definition isOpen (key : string) (g : registry) : bool := cached key g.

Definition open (g : registry) : nat := size g.(g_entries).

(** The section in the middle of [acquireKey]. *)
Inductive entered :=
| EnterClosing
| EnterHit (e : nat)
| EnterMiss (e : nat) (victims : list nat).

Definition acquire_section (key : string) (g : registry) : entered * registry :=
  if g.(g_closing) then (EnterClosing, g) else
  match g.(g_entries) !! key with
  | Some e =>
      (EnterHit e,
       {| g_limit := g.(g_limit); g_entries := g.(g_entries);
          g_lru := e :: filter (λ x, x ≠ e) g.(g_lru); g_closing := g.(g_closing);
          g_objs := alter (add_refs 1) e g.(g_objs); g_next := g.(g_next) |})
  | None =>
      let e := g.(g_next) in
      let entry := {| ue_key := key; ue_ready := false; ue_opened := None; ue_refs := 1;
                      ue_evicted := false; ue_closed := false |} in
      let g := {| g_limit := g.(g_limit); g_entries := <[key := e]> g.(g_entries);
                  g_lru := e :: g.(g_lru); g_closing := g.(g_closing);
                  g_objs := <[e := entry]> g.(g_objs); g_next := S e |} in
      let '(g, victims) := evictLocked g in (EnterMiss e victims, g)
  end.

(** The section of [release]. *)
Definition release_section (e : nat) (g : registry) : registry * list nat :=
  let g := update_entry (add_refs (-1)) e g in
  let '(g, victims) := evictLocked g in
  match g.(g_objs) !! e with
  | Some o =>
      if o.(ue_evicted) && (o.(ue_refs) =? 0) && negb o.(ue_closed)
      then (update_entry mark_closed e g, victims ++ [e]) else (g, victims)
  | None => (g, victims)
  end.

(** The section of [close]; a Go map is ranged over in any order. *)
Fixpoint close_walk (order : list nat) (g : registry) (victims : list nat) : registry * list nat :=
  match order with
  | [] => (g, victims)
  | e :: order =>
      let g := removeLocked e g in
      match g.(g_objs) !! e with
      | Some o =>
          if (o.(ue_refs) =? 0) && negb o.(ue_closed)
          then close_walk order (update_entry mark_closed e g) (victims ++ [e])
          else close_walk order g victims
      | None => close_walk order g victims
      end
  end.
Definition close_section (order : list nat) (g : registry) : registry * list nat :=
  close_walk order
    {| g_limit := g.(g_limit); g_entries := g.(g_entries); g_lru := g.(g_lru); g_closing := true;
       g_objs := g.(g_objs); g_next := g.(g_next) |} [].

(** ** Requests

    Where a goroutine is in [acquireKey], in the use of what it acquired, in [release]
    or in [close].  [victims] are the entries it has yet to close. *)
Inductive request :=
| Looking (key : string) (create : bool)
| Entering (key : string)
| Opening (e : nat) (victims : list nat)
| Removing (e : nat)
| Publishing (e : nat)
| Waiting (e : nat)
| Holding (e : nat)
| Releasing (e : nat)
| Closing (victims : list nat).

(** One step of a request over the registry and the log of closed entries: the
    request goes on as [Some], or ends. *)
Inductive request_step : request → registry → list nat → option request → registry → list nat → Prop :=
| step_look key create g log :
    (* found in the cache, asked to create, or its file exists *)
    request_step (Looking key create) g log (Some (Entering key)) g log
| step_absent key g log :
    cached key g = false → (* its file does not exist, or cannot be looked up *)
    request_step (Looking key false) g log None g log
| step_closing key g log g' :
    acquire_section key g = (EnterClosing, g') →
    request_step (Entering key) g log None g' log
| step_hit key g log e g' :
    acquire_section key g = (EnterHit e, g') →
    request_step (Entering key) g log (Some (Waiting e)) g' log
| step_miss key g log e victims g' :
    acquire_section key g = (EnterMiss e victims, g') →
    request_step (Entering key) g log (Some (Opening e victims)) g' log
| step_close_victim e v victims g log :
    request_step (Opening e (v :: victims)) g log (Some (Opening e victims)) g (log ++ [v])
| step_opened e h g log :
    request_step (Opening e []) g log (Some (Publishing e)) (update_entry (set_opened (Ok h)) e g) log
| step_open_failed e err g log :
    request_step (Opening e []) g log (Some (Removing e)) (update_entry (set_opened (Err err)) e g) log
| step_remove e g log :
    request_step (Removing e) g log (Some (Publishing e)) (removeLocked e g) log
| step_publish e o h g log :
    g.(g_objs) !! e = Some o → o.(ue_opened) = Some (Ok h) →
    request_step (Publishing e) g log (Some (Holding e)) (update_entry mark_ready e g) log
| step_publish_failed e o err g log :
    g.(g_objs) !! e = Some o → o.(ue_opened) = Some (Err err) →
    request_step (Publishing e) g log (Some (Releasing e)) (update_entry mark_ready e g) log
| step_ready e o h g log :
    g.(g_objs) !! e = Some o → o.(ue_ready) = true → o.(ue_opened) = Some (Ok h) →
    request_step (Waiting e) g log (Some (Holding e)) g log
| step_ready_failed e o err g log :
    g.(g_objs) !! e = Some o → o.(ue_ready) = true → o.(ue_opened) = Some (Err err) →
    request_step (Waiting e) g log (Some (Releasing e)) g log
| step_cancelled e g log :
    request_step (Waiting e) g log (Some (Releasing e)) g log
| step_done e g log :
    request_step (Holding e) g log (Some (Releasing e)) g log
| step_release e g log g' victims :
    release_section e g = (g', victims) →
    request_step (Releasing e) g log (Some (Closing victims)) g' log
| step_close v victims g log :
    request_step (Closing (v :: victims)) g log (Some (Closing victims)) g (log ++ [v])
| step_closed g log :
    request_step (Closing []) g log None g log.

(** The server: its registry, the requests under way and the entries closed so far. *)
Record server := { sv_reg : registry; sv_requests : list request; sv_log : list nat }.

Inductive server_step : server → server → Prop :=
| serve_new g ts log key create :
    server_step {| sv_reg := g; sv_requests := ts; sv_log := log |}
      {| sv_reg := g; sv_requests := Looking key create :: ts; sv_log := log |}
| serve_shutdown g ts log order g' victims :
    order ≡ₚ (map_to_list g.(g_entries)).*2 → close_section order g = (g', victims) →
    server_step {| sv_reg := g; sv_requests := ts; sv_log := log |}
      {| sv_reg := g'; sv_requests := Closing victims :: ts; sv_log := log |}
| serve_request g ts log t rest next g' log' :
    ts ≡ₚ t :: rest → request_step t g log next g' log' →
    server_step {| sv_reg := g; sv_requests := ts; sv_log := log |}
      {| sv_reg := g'; sv_requests := option_list next ++ rest; sv_log := log' |}.

Definition server_start (limit : Z) : server :=
  {| sv_reg := newRegistry limit; sv_requests := []; sv_log := [] |}.

(** ** The invariant *)

(** The entry a request holds, the one it opens, and what it has yet to close. *)
Definition holder (t : request) : option nat :=
  match t with
  | Opening e _ | Removing e | Publishing e | Waiting e | Holding e | Releasing e => Some e
  | _ => None
  end.
Definition opener (t : request) : option nat :=
  match t with Opening e _ | Removing e | Publishing e => Some e | _ => None end.
Definition pending (t : request) : list nat :=
  match t with Opening _ victims | Closing victims => victims | _ => [] end.

Abbreviation held := (count_of holder).
Abbreviation openers := (count_of opener).

Definition failed (o : userEntry) : bool :=
  match o.(ue_opened) with Some (Err _) => true | _ => false end.

Record entry_ok (g : registry) (ts : list request) (pool due : list nat) (e : nat) (o : userEntry) : Prop := {
  eo_refs : o.(ue_refs) = held e ts;
  eo_cached : o.(ue_evicted) = false ↔ g.(g_entries) !! o.(ue_key) = Some e;
  eo_recent : o.(ue_evicted) = false ↔ e ∈ g.(g_lru);
  eo_pool : o.(ue_closed) = true ↔ e ∈ pool;
  eo_closed : o.(ue_closed) = true → o.(ue_evicted) = true ∧ held e ts = 0;
  eo_idle : o.(ue_evicted) = true → held e ts = 0 → o.(ue_closed) = true ∨ e ∈ due;
  eo_gone : o.(ue_evicted) = true → 0 < held e ts → failed o = true ∨ g.(g_closing) = true;
  eo_opener : 0 < openers e ts → o.(ue_ready) = false;
  eo_opening vs : Opening e vs ∈ ts → o.(ue_opened) = None;
  eo_removing : Removing e ∈ ts → failed o = true;
  eo_user : Holding e ∈ ts → o.(ue_ready) = true ∧ ∃ h, o.(ue_opened) = Some (Ok h);
  eo_fresh : (e < g.(g_next))%nat;
}.

(** [pool]: the entries closed or about to be; [due]: those whose last
    hold is gone and that the section under way has yet to mark. *)
Record inv (g : registry) (ts : list request) (pool due : list nat) : Prop := {
  i_entry e o : g.(g_objs) !! e = Some o → entry_ok g ts pool due e o;
  i_map k e : g.(g_entries) !! k = Some e → ∃ o, g.(g_objs) !! e = Some o ∧ o.(ue_key) = k;
  i_lru : NoDup g.(g_lru);
  i_lru_known e : e ∈ g.(g_lru) → is_Some (g.(g_objs) !! e);
  i_pool : NoDup pool;
  i_pool_known e : e ∈ pool → is_Some (g.(g_objs) !! e);
  i_holder t e : t ∈ ts → holder t = Some e → is_Some (g.(g_objs) !! e);
  i_openers e : openers e ts <= 1;
  i_key e1 e2 o1 o2 : e1 ≠ e2 → g.(g_objs) !! e1 = Some o1 → g.(g_objs) !! e2 = Some o2 →
    o1.(ue_key) = o2.(ue_key) → 0 < held e1 ts → 0 < held e2 ts → failed o1 = true ∨ failed o2 = true;
}.

(** More entries are cached than the limit only while every one of them is held. *)
Definition bounded (g : registry) : Prop :=
  Z.of_nat (size g.(g_entries)) <= g.(g_limit) ∨
  ∀ k e o, g.(g_entries) !! k = Some e → g.(g_objs) !! e = Some o → o.(ue_refs) ≠ 0.

Lemma inv_perm g ts ts' pool pool' due : ts ≡ₚ ts' → pool ≡ₚ pool' → inv g ts pool due → inv g ts' pool' due.
Proof.
  intros Ht Hp [I1 I2 I3 I4 I5 I6 I7 I8 I9].
  assert (∀ f e, count_of f e ts' = count_of f e ts) as Hc by (intros; unfold count_of; by rewrite Ht).
  split; [|exact I2|exact I3|exact I4|by rewrite <- Hp|intros e; rewrite <- Hp; apply I6|intros t e; rewrite <- Ht; apply I7
    |intros e; rewrite Hc; apply I8|intros e1 e2 o1 o2; rewrite !Hc; apply I9].
  intros e o He. destruct (I1 e o He) as [E1 E2 E3 E4 E5 E6 E7 E8 E9 E10 E11 E12].
  split; rewrite ?Hc; try done; [by rewrite <- Hp|intros vs| |]; rewrite <- Ht; auto. apply E9.
Qed.

(** ** Moves that keep it *)

Ltac entry_of I He := destruct (i_entry _ _ _ _ I _ _ He).

(** A request that holds nothing comes and goes. *)
Lemma inv_free g t ts pool due : holder t = None → opener t = None →
  inv g ts pool due ↔ inv g (t :: ts) pool due.
Proof.
  intros Hh Ho. assert (∀ e, held e (t :: ts) = held e ts) as Eh.
  { intros e. rewrite count_of_cons. by rewrite Hh. }
  assert (∀ e, openers e (t :: ts) = openers e ts) as Eo.
  { intros e. rewrite count_of_cons. by rewrite Ho. }
  assert (∀ t', t' ∈ t :: ts → holder t' ≠ None → t' ∈ ts) as Hin.
  { intros t' [->|?]%elem_of_cons ?; [by destruct H0|done]. }
  split; intros I.
  - split; try apply I.
    + intros e o He. entry_of I He. split; rewrite ?Eh, ?Eo; try done.
      * intros vs Hv. eapply eo_opening0, Hin; [exact Hv|done].
      * intros Hv. apply eo_removing0, Hin; [exact Hv|done].
      * intros Hv. apply eo_user0, Hin; [exact Hv|done].
    + intros t' e Ht He. apply (i_holder _ _ _ _ I t' e); [|done]. apply Hin; [done|by rewrite He].
    + intros e. rewrite Eo. apply I.
    + intros e1 e2 o1 o2. rewrite !Eh. apply I.
  - split; try apply I.
    + intros e o He. entry_of I He. rewrite ?Eh, ?Eo in *. split; try done.
      * intros vs Hv. eapply eo_opening0. right. exact Hv.
      * intros Hv. apply eo_removing0. by right.
      * intros Hv. apply eo_user0. by right.
    + intros t' e Ht He. apply (i_holder _ _ _ _ I t' e); [by right|done].
    + intros e. rewrite <- Eo. apply I.
    + intros e1 e2 o1 o2. rewrite <- !Eh. apply I.
Qed.

(** A request goes on with the entry it holds. *)
Lemma inv_request g t t' ts pool due : holder t' = holder t → opener t' = opener t ∨ opener t' = None →
  (∀ e o, g.(g_objs) !! e = Some o →
    (∀ vs, t' = Opening e vs → o.(ue_opened) = None) ∧ (t' = Removing e → failed o = true) ∧
    (t' = Holding e → o.(ue_ready) = true ∧ ∃ h, o.(ue_opened) = Some (Ok h))) →
  inv g (t :: ts) pool due → inv g (t' :: ts) pool due.
Proof.
  intros Hh Ho Hnew I. assert (∀ e, held e (t' :: ts) = held e (t :: ts)) as Eh.
  { intros e. rewrite !count_of_cons. by rewrite Hh. }
  assert (∀ e, openers e (t' :: ts) <= openers e (t :: ts)) as Eo.
  { intros e. rewrite !count_of_cons. destruct Ho as [-> | ->]; [lia|]. repeat case_decide; try done; lia. }
  split; try apply I.
  - intros e o He. destruct (Hnew e o He) as (H1 & H2 & H3). entry_of I He. split; rewrite ?Eh; try done.
    + intros ?. apply eo_opener0. specialize (Eo e). lia.
    + intros vs [E|?]%elem_of_cons; [by eapply H1|]. eapply eo_opening0. by right.
    + intros [E|?]%elem_of_cons; [by apply H2|]. apply eo_removing0. by right.
    + intros [E|?]%elem_of_cons; [by apply H3|]. apply eo_user0. by right.
  - intros x e [->|Hx]%elem_of_cons He; [apply (i_holder _ _ _ _ I t); [left|congruence]|].
    apply (i_holder _ _ _ _ I x); [by right|done].
  - intros e. etrans; [apply Eo|apply I].
  - intros e1 e2 o1 o2. rewrite !Eh. apply I.
Qed.

(** Writing the fields of an entry that only its opener writes. *)
Lemma inv_update f e g ts pool due :
  (∀ o, g.(g_objs) !! e = Some o →
    (f o).(ue_key) = o.(ue_key) ∧ (f o).(ue_refs) = o.(ue_refs) ∧ (f o).(ue_evicted) = o.(ue_evicted) ∧
    (f o).(ue_closed) = o.(ue_closed) ∧ (failed o = true → failed (f o) = true) ∧
    (0 < openers e ts → (f o).(ue_ready) = false) ∧
    (∀ vs, Opening e vs ∈ ts → (f o).(ue_opened) = None) ∧
    (Holding e ∈ ts → (f o).(ue_ready) = true ∧ ∃ h, (f o).(ue_opened) = Some (Ok h))) →
  inv g ts pool due → inv (update_entry f e g) ts pool due.
Proof.
  intros Hf I.
  assert (∀ x o', (update_entry f e g).(g_objs) !! x = Some o' → ∃ o, g.(g_objs) !! x = Some o ∧
    o'.(ue_key) = o.(ue_key) ∧ (failed o = true → failed o' = true)) as Hold.
  { intros x o'. cbn. rewrite lookup_alter. destruct (decide (e = x)) as [<-|?].
    - destruct (g.(g_objs) !! e) as [o|] eqn:Ho; [|done]. intros [= <-].
      exists o. destruct (Hf o eq_refl) as (? & _ & _ & _ & ? & _). done.
    - intros Ho. by exists o'. }
  assert (∀ x, is_Some (g.(g_objs) !! x) → is_Some ((update_entry f e g).(g_objs) !! x)) as Hsome.
  { intros x [o Ho]. cbn. rewrite lookup_alter. case_decide; [subst x|]; rewrite Ho; cbn; eauto. }
  pose proof (i_lru_known _ _ _ _ I). pose proof (i_pool_known _ _ _ _ I). split; try apply I; auto.
  - intros x o'. cbn. rewrite lookup_alter. destruct (decide (e = x)) as [<-|Hne].
    + destruct (g.(g_objs) !! e) as [o|] eqn:Ho; [|done]. intros [= <-].
      entry_of I Ho. destruct (Hf o eq_refl) as (K & R & Ev & Cl & Hfl & Hq1 & Hq2 & Hq3).
      split; cbn; rewrite ?K, ?R, ?Ev, ?Cl; auto. intros Hgone Hheld. destruct (eo_gone0 Hgone Hheld); auto.
    + intros Ho. entry_of I Ho. by split.
  - intros k x Hk. destruct (i_map _ _ _ _ I k x Hk) as (o & Ho & Hkey). cbn. rewrite lookup_alter.
    case_decide; [subst x|]; rewrite Ho; [|by exists o]. eexists. split; [done|]. rewrite <- Hkey. apply (Hf o Ho).
  - intros t x Ht Hx. apply Hsome. by eapply (i_holder _ _ _ _ I).
  - intros e1 e2 o1 o2 Hne (p1 & Hp1 & Hk1 & Hf1)%Hold (p2 & Hp2 & Hk2 & Hf2)%Hold Hk Hh1 Hh2.
    destruct (i_key _ _ _ _ I e1 e2 p1 p2) as [?|?]; auto; congruence.
Qed.

(** An entry leaves the cache. *)
Lemma removeLocked_evicted e o g : g.(g_objs) !! e = Some o → o.(ue_evicted) = false →
  removeLocked e g = {| g_limit := g.(g_limit); g_entries := delete o.(ue_key) g.(g_entries);
    g_lru := filter (λ x, x ≠ e) g.(g_lru); g_closing := g.(g_closing);
    g_objs := alter mark_evicted e g.(g_objs); g_next := g.(g_next) |}.
Proof. intros Ho He. unfold removeLocked. by rewrite Ho, He. Qed.

Lemma inv_remove e o g ts pool due : g.(g_objs) !! e = Some o → o.(ue_evicted) = false →
  (0 < held e ts → failed o = true ∨ g.(g_closing) = true) →
  inv g ts pool due → inv (removeLocked e g) ts pool (e :: due).
Proof.
  intros Ho He Hheld I. rewrite (removeLocked_evicted e o) by done.
  assert (∀ x o', alter mark_evicted e g.(g_objs) !! x = Some o' → ∃ p, g.(g_objs) !! x = Some p ∧
    o'.(ue_key) = p.(ue_key) ∧ failed o' = failed p) as Hold.
  { intros x o'. rewrite lookup_alter. case_decide; [subst x; rewrite Ho; intros [= <-]; by exists o|by exists o']. }
  assert (∀ x, is_Some (g.(g_objs) !! x) → is_Some (alter mark_evicted e g.(g_objs) !! x)) as Hsome.
  { intros x [p Hp]. rewrite lookup_alter. case_decide; [subst x|]; rewrite Hp; cbn; eauto. }
  split; cbn; try apply I.
  - intros x o'. rewrite lookup_alter. destruct (decide (e = x)) as [<-|Hne].
    + rewrite Ho. intros [= <-]. entry_of I Ho. split; cbn; try done.
      * split; [done|]. rewrite lookup_delete_eq. done.
      * split; [done|]. intros [? _]%list_elem_of_filter. done.
      * intros [? ?]%eo_closed0. congruence.
      * intros _ _. right. left.
    + intros Hx. entry_of I Hx. entry_of I Ho. split; cbn; try done.
      * rewrite eo_cached0, lookup_delete. case_decide as E; [|done]. split; [|done]. intros Hx'.
        apply eo_cached1 in He. congruence.
      * rewrite eo_recent0. rewrite list_elem_of_filter. naive_solver.
      * intros Hev Hz. destruct (eo_idle0 Hev Hz); [by left|right; by right].
  - intros k x [Hk Hx]%lookup_delete_Some. destruct (i_map _ _ _ _ I k x Hx) as (p & Hp & Hkey).
    rewrite lookup_alter. case_decide; [subst x|]; rewrite Hp; [|by exists p]. cbn. eexists. split; [done|done].
  - apply NoDup_filter, I.
  - intros x [_ Hx]%list_elem_of_filter. apply Hsome, (i_lru_known _ _ _ _ I), Hx.
  - intros x Hx. apply Hsome, (i_pool_known _ _ _ _ I), Hx.
  - intros t x Ht Hx. by eapply Hsome, (i_holder _ _ _ _ I).
  - intros e1 e2 o1 o2 Hne (p1 & Hp1 & -> & ->)%Hold (p2 & Hp2 & -> & ->)%Hold. by apply (i_key _ _ _ _ I).
Qed.

(** An entry that no one holds is marked closed, by one request. *)
Lemma inv_close e o g ts pool due : g.(g_objs) !! e = Some o → o.(ue_evicted) = true → o.(ue_refs) = 0 →
  o.(ue_closed) = false →
  inv g ts pool (e :: due) → inv (update_entry mark_closed e g) ts (pool ++ [e]) due.
Proof.
  intros Ho He Hr Hc I.
  assert (∀ x o', alter mark_closed e g.(g_objs) !! x = Some o' → ∃ p, g.(g_objs) !! x = Some p ∧
    o'.(ue_key) = p.(ue_key) ∧ failed o' = failed p) as Hold.
  { intros x o'. rewrite lookup_alter. case_decide; [subst x; rewrite Ho; intros [= <-]; by exists o|by exists o']. }
  assert (∀ x, is_Some (g.(g_objs) !! x) → is_Some (alter mark_closed e g.(g_objs) !! x)) as Hsome.
  { intros x [p Hp]. rewrite lookup_alter. case_decide; [subst x|]; rewrite Hp; cbn; eauto. }
  split; cbn; try apply I.
  - intros x o'. rewrite lookup_alter. destruct (decide (e = x)) as [<-|Hne].
    + rewrite Ho. intros [= <-]. entry_of I Ho. split; cbn; try done.
      * split; [|done]. intros _. apply elem_of_app. right. by left.
      * intros _. by rewrite <- eo_refs0.
      * intros _ _. by left.
    + intros Hx. entry_of I Hx. split; cbn; try done.
      * rewrite eo_pool0, elem_of_app, list_elem_of_singleton. naive_solver.
      * intros Hev Hz. destruct (eo_idle0 Hev Hz) as [?|[?|?]%elem_of_cons]; [by left|done|by right].
  - intros k x Hx. destruct (i_map _ _ _ _ I k x Hx) as (p & Hp & Hkey).
    rewrite lookup_alter. case_decide; [subst x|]; rewrite Hp; [|by exists p]. cbn. eexists. split; [done|done].
  - intros x Hx. apply Hsome, (i_lru_known _ _ _ _ I), Hx.
  - apply NoDup_app. split_and!; [apply I| |apply NoDup_singleton]. intros x Hx ->%list_elem_of_singleton.
    apply (eo_pool _ _ _ _ _ _ (i_entry _ _ _ _ I _ _ Ho)) in Hx. congruence.
  - intros x [Hx| ->%list_elem_of_singleton]%elem_of_app; [apply Hsome, (i_pool_known _ _ _ _ I), Hx|apply Hsome; by exists o].
  - intros t x Ht Hx. by eapply Hsome, (i_holder _ _ _ _ I).
  - intros e1 e2 o1 o2 Hne (p1 & Hp1 & -> & ->)%Hold (p2 & Hp2 & -> & ->)%Hold. by apply (i_key _ _ _ _ I).
Qed.

(** Nothing is due for an entry that is cached, held or closed already. *)
Lemma inv_not_due e g ts pool due :
  (∀ o, g.(g_objs) !! e = Some o → o.(ue_evicted) = true → o.(ue_refs) = 0 → o.(ue_closed) = true) →
  inv g ts pool (e :: due) → inv g ts pool due.
Proof.
  intros Hd I. split; try apply I. intros x o Hx. entry_of I Hx. split; try done.
  intros Hev Hz. destruct (eo_idle0 Hev Hz) as [?|[->|?]%elem_of_cons]; [by left| |by right].
  left. apply (Hd o); congruence.
Qed.

(** A hold is released. *)
Lemma inv_unref e t g ts pool due : holder t = Some e → opener t = None →
  inv g (t :: ts) pool due → inv (update_entry (add_refs (-1)) e g) ts pool (e :: due).
Proof.
  intros Hh Hop I.
  assert (∀ x, openers x (t :: ts) = openers x ts) as Eo by (intros; by rewrite count_of_other by congruence).
  assert (∀ x, held x (t :: ts) = if decide (e = x) then 1 + held x ts else held x ts) as Eh.
  { intros x. case_decide; [subst x; by apply count_of_self|]. apply count_of_other. congruence. }
  assert (∀ x o', alter (add_refs (-1)) e g.(g_objs) !! x = Some o' → ∃ p, g.(g_objs) !! x = Some p ∧
    o'.(ue_key) = p.(ue_key) ∧ failed o' = failed p) as Hold.
  { intros x o'. rewrite lookup_alter. case_decide; [subst x|by exists o'].
    destruct (g.(g_objs) !! e) as [o|]; [|done]. intros [= <-]. by exists o. }
  assert (∀ x, is_Some (g.(g_objs) !! x) → is_Some (alter (add_refs (-1)) e g.(g_objs) !! x)) as Hsome.
  { intros x [p Hp]. rewrite lookup_alter. case_decide; [subst x|]; rewrite Hp; cbn; eauto. }
  split; cbn; try apply I.
  - intros x o'. rewrite lookup_alter. destruct (decide (e = x)) as [<-|Hne].
    + destruct (g.(g_objs) !! e) as [o|] eqn:Ho; [|done]. intros [= <-]. entry_of I Ho.
      rewrite ?Eo, ?Eh, ?decide_True in * by done. pose proof (count_of_nonneg holder e ts).
      split; cbn; try done; [lia|intros [_ ?]%eo_closed0; lia|intros _ _; right; left| | | |].
      * intros ??. apply eo_gone0; [done|lia].
      * intros vs Hv. eapply eo_opening0. right. exact Hv.
      * intros Hv. apply eo_removing0. by right.
      * intros Hv. apply eo_user0. by right.
    + intros Hx. entry_of I Hx. rewrite ?Eo, ?Eh, ?decide_False in * by done. split; cbn; try done.
      * intros Hev Hz. destruct (eo_idle0 Hev Hz); [by left|right; by right].
      * intros vs Hv. eapply eo_opening0. right. exact Hv.
      * intros Hv. apply eo_removing0. by right.
      * intros Hv. apply eo_user0. by right.
  - intros k x Hx. destruct (i_map _ _ _ _ I k x Hx) as (p & Hp & Hkey).
    rewrite lookup_alter. case_decide; [subst x|]; rewrite Hp; [|by exists p]. cbn. eexists. split; [done|done].
  - intros x Hx. apply Hsome, (i_lru_known _ _ _ _ I), Hx.
  - intros x Hx. apply Hsome, (i_pool_known _ _ _ _ I), Hx.
  - intros t' x Ht Hx. eapply Hsome, (i_holder _ _ _ _ I); [by right|done].
  - intros x. rewrite <- Eo. apply I.
  - intros e1 e2 o1 o2 Hne (p1 & Hp1 & -> & ->)%Hold (p2 & Hp2 & -> & ->)%Hold Hk Hh1 Hh2.
    apply (i_key _ _ _ _ I e1 e2); try done; rewrite Eh; case_decide; lia.
Qed.

(** The only entries of a key that are held beside the cached one failed to open. *)
Lemma key_alone g ts pool due k x o : inv g ts pool due → g.(g_closing) = false →
  g.(g_objs) !! x = Some o → o.(ue_key) = k → g.(g_entries) !! k ≠ Some x → 0 < held x ts → failed o = true.
Proof.
  intros I Hc Ho <- Hk Hh. entry_of I Ho. destruct (ue_evicted o) eqn:E; [|by destruct Hk; apply eo_cached0].
  destruct (eo_gone0 eq_refl Hh); congruence.
Qed.

Lemma inv_hit key e g ts pool due :
  g.(g_closing) = false → g.(g_entries) !! key = Some e → inv g ts pool due →
  inv (acquire_section key g).2 (Waiting e :: ts) pool due.
Proof.
  intros Hc Hk I. unfold acquire_section. rewrite Hc, Hk. cbn [snd].
  assert (∀ x, openers x (Waiting e :: ts) = openers x ts) as Eo by (intros; by rewrite count_of_other).
  assert (∀ x, held x (Waiting e :: ts) = if decide (e = x) then 1 + held x ts else held x ts) as Eh.
  { intros x. case_decide; [subst x; by apply count_of_self|]. apply count_of_other. cbn. congruence. }
  assert (∀ x o', alter (add_refs 1) e g.(g_objs) !! x = Some o' → ∃ p, g.(g_objs) !! x = Some p ∧
    o'.(ue_key) = p.(ue_key) ∧ failed o' = failed p) as Hold.
  { intros x o'. rewrite lookup_alter. case_decide; [subst x|by exists o'].
    destruct (g.(g_objs) !! e) as [o|]; [|done]. intros [= <-]. by exists o. }
  assert (∀ x, is_Some (g.(g_objs) !! x) → is_Some (alter (add_refs 1) e g.(g_objs) !! x)) as Hsome.
  { intros x [p Hp]. rewrite lookup_alter. case_decide; [subst x|]; rewrite Hp; cbn; eauto. }
  destruct (i_map _ _ _ _ I _ _ Hk) as (o & Ho & Hkey).
  assert (e ∈ g.(g_lru)) as Hin by (entry_of I Ho; apply eo_recent0, eo_cached0; congruence).
  assert (∀ x, x ∈ e :: filter (λ y, y ≠ e) g.(g_lru) ↔ x ∈ g.(g_lru)) as Hlru.
  { intros x. rewrite elem_of_cons, list_elem_of_filter. destruct (decide (x = e)); naive_solver. }
  split; cbn; try apply I.
  - intros x o'. rewrite lookup_alter. destruct (decide (e = x)) as [<-|Hne].
    + rewrite Ho. intros [= <-]. entry_of I Ho. pose proof (count_of_nonneg holder e ts).
      assert (ue_evicted o = false) as Hev by (apply eo_cached0; congruence).
      split; cbn; rewrite ?Hlru, ?Eo, ?Eh, ?decide_True by done; try done; [lia| | | | | |].
      * intros [? ?]%eo_closed0. congruence.
      * congruence.
      * congruence.
      * intros vs [?|?]%elem_of_cons; [done|by eapply eo_opening0].
      * intros [?|?]%elem_of_cons; [done|by eapply eo_removing0].
      * intros [?|?]%elem_of_cons; [done|by eapply eo_user0].
    + intros Hx. entry_of I Hx. rewrite Hc in eo_gone0.
      split; cbn; rewrite ?Hlru, ?Eo, ?Eh, ?decide_False by done; try done.
      * intros vs [?|?]%elem_of_cons; [done|by eapply eo_opening0].
      * intros [?|?]%elem_of_cons; [done|by eapply eo_removing0].
      * intros [?|?]%elem_of_cons; [done|by eapply eo_user0].
  - intros k x Hx. destruct (i_map _ _ _ _ I k x Hx) as (p & Hp & Hkey').
    rewrite lookup_alter. case_decide; [subst x|]; rewrite Hp; [|by exists p]. cbn. eexists. split; [done|done].
  - constructor; [rewrite list_elem_of_filter; naive_solver|apply NoDup_filter, I].
  - intros x Hx%Hlru. apply Hsome, (i_lru_known _ _ _ _ I), Hx.
  - intros x Hx. apply Hsome, (i_pool_known _ _ _ _ I), Hx.
  - intros t' x [->|Ht]%elem_of_cons Hx; [injection Hx as <-; apply Hsome; by exists o|]. by eapply Hsome, (i_holder _ _ _ _ I).
  - intros e1 e2 o1 o2 Hne (p1 & Hp1 & -> & ->)%Hold (p2 & Hp2 & -> & ->)%Hold E. rewrite !Eh.
    destruct (decide (e = e1)) as [<-|], (decide (e = e2)) as [<-|]; [done| | |by apply (i_key _ _ _ _ I e1 e2)].
    + intros _ Hh. right. eapply (key_alone _ _ _ _ key); [exact I|done|exact Hp2|congruence|congruence|done].
    + intros Hh _. left. eapply (key_alone _ _ _ _ key); [exact I|done|exact Hp1|congruence|congruence|done].
Qed.

(** A new entry, with the request that opens it. *)
Lemma inv_new key g ts pool due : g.(g_closing) = false → g.(g_entries) !! key = None → inv g ts pool due →
  inv {| g_limit := g.(g_limit); g_entries := <[key := g.(g_next)]> g.(g_entries);
         g_lru := g.(g_next) :: g.(g_lru); g_closing := g.(g_closing);
         g_objs := <[g.(g_next) := {| ue_key := key; ue_ready := false; ue_opened := None; ue_refs := 1;
                      ue_evicted := false; ue_closed := false |}]> g.(g_objs); g_next := S g.(g_next) |}
    (Opening g.(g_next) [] :: ts) pool due.
Proof.
  intros Hc Hk I. set (e := g.(g_next)).
  assert (g.(g_objs) !! e = None) as Hnone.
  { destruct (g.(g_objs) !! e) as [o|] eqn:Ho; [|done]. pose proof (eo_fresh _ _ _ _ _ _ (i_entry _ _ _ _ I _ _ Ho)). subst e. lia. }
  assert (∀ t, t ∈ ts → holder t ≠ Some e) as Hno.
  { intros t Ht Hh. destruct (i_holder _ _ _ _ I t e Ht Hh) as [? ?]. congruence. }
  assert (∀ f, (∀ t, f t = Some e → holder t = Some e) → count_of f e ts = 0) as Hzero.
  { intros f Hf. apply count_of_zero. intros t Ht Hft. by eapply Hno, Hf. }
  assert (held e ts = 0) as Hh0 by by apply Hzero.
  assert (openers e ts = 0) as Ho0 by (apply Hzero; by intros []).
  assert (∀ x, held x (Opening e [] :: ts) = if decide (e = x) then 1 else held x ts) as Eh.
  { intros x. case_decide; [subst x; rewrite count_of_self by done; lia|]. apply count_of_other. cbn. congruence. }
  assert (∀ x, openers x (Opening e [] :: ts) = if decide (e = x) then 1 else openers x ts) as Eo.
  { intros x. case_decide; [subst x; rewrite count_of_self by done; lia|]. apply count_of_other. cbn. congruence. }
  assert (∀ x, is_Some (g.(g_objs) !! x) → x ≠ e) as Hne by (intros x [? ?] ->; congruence).
  split; cbn [g_objs g_entries g_lru].
  - intros x o'. rewrite lookup_insert. destruct (decide (e = x)) as [<-|Hx].
    + intros [= <-]. split; cbn -[count_of elem_of]; rewrite ?Eh, ?Eo, ?decide_True by done; try done.
      * by rewrite lookup_insert_eq.
      * split; [by left|done].
      * split; [done|]. intros Hp. destruct (i_pool_known _ _ _ _ I _ Hp). congruence.
      * intros [?|Hr]%elem_of_cons; [done|]. by destruct (Hno _ Hr).
      * intros [?|Hr]%elem_of_cons; [done|]. by destruct (Hno _ Hr).
      * subst e. lia.
    + intros Ho. entry_of I Ho. split; cbn -[count_of elem_of]; rewrite ?Eh, ?Eo, ?decide_False by done; try done.
      * rewrite eo_cached0, lookup_insert. case_decide as E; [|done]. split; [congruence|]. by intros [= ?].
      * rewrite eo_recent0, elem_of_cons. naive_solver.
      * intros vs [[= ? ?]|?]%elem_of_cons; [done|by eapply eo_opening0].
      * intros [?|?]%elem_of_cons; [done|by eapply eo_removing0].
      * intros [?|?]%elem_of_cons; [done|by eapply eo_user0].
      * lia.
  - intros k x. rewrite lookup_insert. case_decide as E; [intros [= <-]; subst k|intros Hx].
    + eexists. split; [apply lookup_insert_eq|done].
    + destruct (i_map _ _ _ _ I k x Hx) as (p & Hp & Hkey). exists p.
      rewrite lookup_insert_ne; [done|]. intros <-. congruence.
  - constructor; [|apply I]. intros Hin. destruct (i_lru_known _ _ _ _ I _ Hin). congruence.
  - intros x [->|Hx]%elem_of_cons; [by rewrite lookup_insert_eq|]. pose proof (i_lru_known _ _ _ _ I _ Hx) as Hs.
    rewrite lookup_insert_ne by (by apply not_eq_sym, Hne). done.
  - apply I.
  - intros x Hx. pose proof (i_pool_known _ _ _ _ I _ Hx) as Hs. rewrite lookup_insert_ne by (by apply not_eq_sym, Hne). done.
  - intros t x [->|Ht]%elem_of_cons Hx; [injection Hx as <-; by rewrite lookup_insert_eq|].
    pose proof (i_holder _ _ _ _ I t x Ht Hx) as Hs. rewrite lookup_insert_ne by (by apply not_eq_sym, Hne). done.
  - intros x. rewrite Eo. case_decide; [done|apply I].
  - intros e1 e2 o1 o2 Hn. rewrite !lookup_insert, !Eh.
    destruct (decide (e = e1)) as [<-|], (decide (e = e2)) as [<-|]; [done| | |by apply (i_key _ _ _ _ I)].
    + intros [= <-] H2 E _ Hh. right. cbn in E.
      eapply (key_alone _ _ _ _ key); [exact I|done|exact H2|done|congruence|done].
    + intros H1 [= <-] E Hh _. left. cbn in E.
      eapply (key_alone _ _ _ _ key); [exact I|done|exact H1|done|congruence|done].
Qed.

(** ** The walks *)

Definition evict_one (e : nat) (g : registry) : registry := update_entry mark_closed e (removeLocked e g).

Lemma inv_evict_one e o g ts pool due : g.(g_objs) !! e = Some o → e ∈ g.(g_lru) → o.(ue_refs) = 0 →
  inv g ts pool due → inv (evict_one e g) ts (pool ++ [e]) due.
Proof.
  intros Ho Hl Hr I. entry_of I Ho.
  assert (o.(ue_evicted) = false) as Hev by by apply eo_recent0.
  eapply (inv_close e (mark_evicted o)); cbn; [|done|done| |].
  - rewrite (removeLocked_evicted e o) by done. cbn. by rewrite lookup_alter_eq, Ho.
  - destruct (ue_closed o) eqn:E; [|done]. destruct (eo_closed0 eq_refl). congruence.
  - eapply inv_remove; [exact Ho|done| |done]. intros ?. lia.
Qed.

(** What a walk leaves alone. *)
Definition walked (g g' : registry) : Prop :=
  g'.(g_closing) = g.(g_closing) ∧ g'.(g_limit) = g.(g_limit) ∧
  (∀ e, e ∈ g'.(g_lru) → e ∈ g.(g_lru)) ∧
  ∀ e o', g'.(g_objs) !! e = Some o' → ∃ o, g.(g_objs) !! e = Some o ∧ o'.(ue_refs) = o.(ue_refs) ∧
    o'.(ue_opened) = o.(ue_opened) ∧ (o.(ue_evicted) = true → o'.(ue_evicted) = true).

#[local] Instance walked_preorder : PreOrder walked.
Proof.
  split.
  - intros g. split_and!; try done. intros e o ?. by exists o.
  - intros g1 g2 g3 (C1 & L1 & R1 & O1) (C2 & L2 & R2 & O2). split_and!; [congruence|congruence|auto|].
    intros e o3 (o2 & Hp2 & ? & ? & ?)%O2. destruct (O1 e o2 Hp2) as (o1 & Hp1 & ? & ? & ?).
    exists o1. split_and!; [done|congruence|congruence|auto].
Qed.

Lemma removeLocked_walked e g : walked g (removeLocked e g).
Proof.
  destruct (g.(g_objs) !! e) as [o|] eqn:Ho; [|unfold removeLocked; by rewrite Ho].
  destruct (ue_evicted o) eqn:E; [unfold removeLocked; by rewrite Ho, E|].
  rewrite (removeLocked_evicted e o) by done. split_and!; [done|done| |].
  - cbn. by intros x [_ ?]%list_elem_of_filter.
  - intros x o'. cbn. rewrite lookup_alter. case_decide; [subst x|by exists o'].
    rewrite Ho. intros [= <-]. by exists o.
Qed.

Lemma mark_closed_walked e g : walked g (update_entry mark_closed e g).
Proof.
  split_and!; [done|done|done|]. intros x o'. cbn. rewrite lookup_alter. case_decide; [subst x|by exists o'].
  destruct (g.(g_objs) !! e) as [o|]; [|done]. intros [= <-]. by exists o.
Qed.

Lemma evict_walk_inv back g vs g' vs' ts pool due :
  evict_walk back g vs = (g', vs') → NoDup back → (∀ e, e ∈ back → e ∈ g.(g_lru)) → inv g ts pool due →
  ∃ new, vs' = vs ++ new ∧ inv g' ts (pool ++ new) due ∧ walked g g' ∧
    (Z.of_nat (size g'.(g_entries)) <= g'.(g_limit) ∨
     ∀ e o, e ∈ back → g'.(g_objs) !! e = Some o → o.(ue_refs) = 0 → o.(ue_evicted) = true).
Proof.
  revert g vs pool. induction back as [|e back IH]; intros g vs pool Hw Hnd Hin I; cbn [evict_walk] in Hw.
  { injection Hw as <- <-. exists []. rewrite !app_nil_r. split_and!; [done|done|done|]. right. by intros ?? ?%elem_of_nil. }
  apply NoDup_cons in Hnd as [He Hnd]. destruct (_ <=? _) eqn:Hsz.
  { injection Hw as <- <-. exists []. rewrite !app_nil_r. split_and!; [done|done|done|]. left. by apply Z.leb_le. }
  destruct (i_lru_known _ _ _ _ I e (Hin e ltac:(left))) as [o Ho]. rewrite Ho in Hw.
  destruct (o.(ue_refs) =? 0) eqn:Hr.
  - apply Z.eqb_eq in Hr. fold (evict_one e g) in Hw.
    pose proof (inv_evict_one e o g ts pool due Ho (Hin e ltac:(left)) Hr I) as I'.
    assert (o.(ue_evicted) = false) as Hev by (entry_of I Ho; apply eo_recent0, Hin; left).
    assert (walked g (evict_one e g)) as Hwk by (etrans; [apply removeLocked_walked|apply mark_closed_walked]).
    assert (∀ x, x ∈ back → x ∈ (evict_one e g).(g_lru)) as Hin'.
    { intros x Hx. unfold evict_one. rewrite (removeLocked_evicted e o) by done. cbn.
      apply list_elem_of_filter. split; [by intros ->|apply Hin; by right]. }
    destruct (IH _ _ _ Hw Hnd Hin' I') as (new & -> & I'' & Hwk' & Hend).
    { exists (e :: new). rewrite <- !app_assoc in *. split_and!; [done|done|by etrans|].
      destruct Hend as [?|Hend]; [by left|right]. intros x p [->|Hx]%elem_of_cons Hp Hz; [|by eapply Hend].
      destruct Hwk' as (_ & _ & _ & Hobj). destruct (Hobj _ _ Hp) as (q & Hq & _ & _ & Hev'). apply Hev'.
      unfold evict_one in Hq. rewrite (removeLocked_evicted e o) in Hq by done. cbn in Hq.
      rewrite !lookup_alter_eq, Ho in Hq. by injection Hq as <-. }
  - apply Z.eqb_neq in Hr. destruct (IH _ _ _ Hw Hnd (λ x Hx, Hin x (proj2 (elem_of_cons _ _ _) (or_intror Hx))) I) as (new & -> & I'' & Hwk' & Hend).
    exists new. split_and!; [done|done|done|]. destruct Hend as [?|Hend]; [by left|right].
    intros x p [->|Hx]%elem_of_cons Hp Hz; [|by eapply Hend].
    destruct Hwk' as (_ & _ & _ & Hobj). destruct (Hobj _ _ Hp) as (q & Hq & ? & _). congruence.
Qed.

Lemma evictLocked_inv g g' victims ts pool due : evictLocked g = (g', victims) → inv g ts pool due →
  inv g' ts (pool ++ victims) due ∧ walked g g' ∧ bounded g'.
Proof.
  unfold evictLocked. intros Hw I. eapply evict_walk_inv in Hw as (new & -> & I' & Hwk & Hend); [|rewrite <- Permutation_rev; apply I| |exact I].
  2: { intros e. rewrite <- Permutation_rev. done. }
  split_and!; [done|done|]. destruct Hend as [?|Hend]; [by left|right]. intros k e o Hk Ho Hz.
  destruct (i_map _ _ _ _ I' _ _ Hk) as (o' & Ho' & Hkey). rewrite Ho in Ho'. injection Ho' as <-. entry_of I' Ho.
  assert (ue_evicted o = false) as Hev by (apply eo_cached0; congruence).
  assert (e ∈ g'.(g_lru)) as Hl by by apply eo_recent0. rewrite (Hend e o) in Hev; [done| |done|done].
  rewrite <- Permutation_rev. by apply Hwk.
Qed.

Lemma release_inv e g g' victims ts pool : release_section e g = (g', victims) →
  inv g (Releasing e :: ts) pool [] → inv g' ts (pool ++ victims) [] ∧ bounded g'.
Proof.
  unfold release_section. intros Hrel I. apply (inv_unref e) in I; [|done|done].
  destruct (evictLocked _) as [g1 vs] eqn:Hw. destruct (evictLocked_inv _ _ _ _ _ _ Hw I) as (I1 & _ & Hb).
  destruct (g1.(g_objs) !! e) as [o|] eqn:Ho.
  2: { injection Hrel as <- <-. split; [|done]. eapply inv_not_due; [|exact I1]. congruence. }
  destruct (ue_evicted o && (ue_refs o =? 0) && negb (ue_closed o)) eqn:E.
  - apply andb_prop in E as [[Hev Hr%Z.eqb_eq]%andb_prop Hc%negb_true_iff]. injection Hrel as <- <-.
    rewrite app_assoc. split; [by eapply inv_close|]. destruct Hb as [?|Hb]; [by left|right].
    intros k x p Hk. cbn. rewrite lookup_alter. case_decide; [subst x|by eapply Hb].
    rewrite Ho. intros [= <-]. exact (Hb k e o Hk Ho).
  - injection Hrel as <- <-. split; [|done]. eapply inv_not_due; [|exact I1]. intros p Hp Hev Hr.
    rewrite Ho in Hp. injection Hp as <-. rewrite Hev, Hr in E. cbn in E. by apply negb_false_iff in E.
Qed.

Lemma close_walk_inv order g vs g' vs' ts pool :
  close_walk order g vs = (g', vs') → g.(g_closing) = true → NoDup order →
  (∀ e, e ∈ order → ∃ o, g.(g_objs) !! e = Some o ∧ o.(ue_evicted) = false) →
  (∀ k e, g.(g_entries) !! k = Some e → e ∈ order) → inv g ts pool [] →
  ∃ new, vs' = vs ++ new ∧ inv g' ts (pool ++ new) [] ∧ ∀ k, g'.(g_entries) !! k = None.
Proof.
  revert g vs pool. induction order as [|e order IH]; intros g vs pool Hw Hc Hnd Hin Hall I; cbn [close_walk] in Hw.
  { injection Hw as <- <-. exists []. rewrite !app_nil_r. split_and!; [done|done|]. intros k.
    destruct (g.(g_entries) !! k) as [e|] eqn:E; [|done]. by apply Hall, elem_of_nil in E. }
  apply NoDup_cons in Hnd as [He Hnd]. destruct (Hin e ltac:(left)) as (o & Ho & Hev).
  assert ((removeLocked e g).(g_objs) !! e = Some (mark_evicted o)) as Ho'.
  { rewrite (removeLocked_evicted e o) by done. cbn. by rewrite lookup_alter_eq, Ho. }
  assert (∀ x, x ∈ order → ∃ p, (removeLocked e g).(g_objs) !! x = Some p ∧ p.(ue_evicted) = false) as Hin'.
  { intros x Hx. rewrite (removeLocked_evicted e o) by done. cbn. rewrite lookup_alter_ne by (by intros ->).
    apply Hin. by right. }
  assert (∀ k x, (removeLocked e g).(g_entries) !! k = Some x → x ∈ order) as Hall'.
  { intros k x. rewrite (removeLocked_evicted e o) by done. cbn. intros [Hk Hx]%lookup_delete_Some.
    apply Hall in Hx as Hx'. apply elem_of_cons in Hx' as [->|?]; [|done].
    destruct (i_map _ _ _ _ I _ _ Hx) as (p & Hp & Hkey). destruct Hk. congruence. }
  assert ((removeLocked e g).(g_closing) = true) as Hc'.
  { by destruct (removeLocked_walked e g) as [-> _]. }
  pose proof (inv_remove e o g ts pool [] Ho Hev (λ _, or_intror Hc) I) as I1.
  rewrite Ho' in Hw. cbn [ue_refs ue_closed mark_evicted] in Hw.
  destruct ((o.(ue_refs) =? 0) && negb o.(ue_closed)) eqn:E.
  - apply andb_prop in E as [Hr%Z.eqb_eq Hcl%negb_true_iff].
    assert (inv (update_entry mark_closed e (removeLocked e g)) ts (pool ++ [e]) []) as I2.
    { eapply (inv_close e (mark_evicted o)); [exact Ho'|done..|exact I1]. }
    destruct (IH _ _ (pool ++ [e]) Hw) as (new & -> & I3 & Hend); [exact Hc'|done| |exact Hall'|exact I2|].
    + intros x Hx. cbn. rewrite lookup_alter_ne by (by intros ->). by apply Hin'.
    + exists (e :: new). rewrite <- !app_assoc in *. done.
  - assert (inv (removeLocked e g) ts pool []) as I2.
    { eapply inv_not_due; [|exact I1]. intros p Hp _ Hr. rewrite Ho' in Hp. injection Hp as <-. cbn in *.
      rewrite Hr in E. cbn in E. by apply negb_false_iff in E. }
    destruct (IH _ _ pool Hw) as (new & -> & I3 & Hend); [exact Hc'|done|exact Hin'|exact Hall'|exact I2|]. by exists new.
Qed.

Lemma close_walk_limit order g vs g' vs' : close_walk order g vs = (g', vs') → g'.(g_limit) = g.(g_limit).
Proof.
  revert g vs. induction order as [|e order IH]; intros g vs; cbn [close_walk]; [by intros [= <- _]|].
  destruct (removeLocked_walked e g) as (_ & <- & _). case_match; [case_match|]; intros Hw%IH; exact Hw.
Qed.

Lemma close_inv order g g' victims ts pool : order ≡ₚ (map_to_list g.(g_entries)).*2 →
  close_section order g = (g', victims) → inv g ts pool [] →
  inv g' ts (pool ++ victims) [] ∧ bounded g' ∧ g'.(g_entries) = ∅.
Proof.
  intros Hord Hcl I.
  assert (∀ e, e ∈ order ↔ ∃ k, g.(g_entries) !! k = Some e) as Hmem.
  { intros e. rewrite Hord, list_elem_of_fmap. split.
    - intros ([k x] & -> & Hk%elem_of_map_to_list). by exists k.
    - intros [k Hk]. exists (k, e). split; [done|]. by apply elem_of_map_to_list. }
  assert (∀ k e, g.(g_entries) !! k = Some e → ∃ o, g.(g_objs) !! e = Some o ∧ o.(ue_key) = k ∧ o.(ue_evicted) = false) as Hent.
  { intros k e Hk. destruct (i_map _ _ _ _ I _ _ Hk) as (o & Ho & Hkey). exists o. split_and!; [done|done|].
    entry_of I Ho. apply eo_cached0. congruence. }
  unfold close_section in Hcl. eapply close_walk_inv in Hcl as (new & -> & I' & Hend); [split_and!; [exact I'| |]|..].
  - right. intros k e o. by rewrite Hend.
  - by apply map_empty.
  - done.
  - rewrite Hord. apply NoDup_fmap_2_strong; [|apply NoDup_map_to_list].
    intros [k1 e1] [k2 e2] Hk1%elem_of_map_to_list Hk2%elem_of_map_to_list E. cbn in E. subst e2.
    destruct (Hent _ _ Hk1) as (o1 & ? & ? & _), (Hent _ _ Hk2) as (o2 & ? & ? & _). congruence.
  - intros e [k Hk]%Hmem. destruct (Hent _ _ Hk) as (o & ? & _ & ?). by exists o.
  - intros k e Hk. apply Hmem. by exists k.
  - split; try apply I. intros e o Ho. entry_of I Ho. split; try done. intros. by right.
Qed.

(** ** Requests and the server *)

Lemma bounded_update f e g : (∀ o, (f o).(ue_refs) = o.(ue_refs)) → bounded g → bounded (update_entry f e g).
Proof.
  intros Hf [?|Hb]; [by left|right]. intros k x p Hk. cbn. rewrite lookup_alter. case_decide; [subst x|by eapply Hb].
  destruct (g.(g_objs) !! e) as [o|] eqn:Ho; [|done]. intros [= <-]. rewrite Hf. exact (Hb k e o Hk Ho).
Qed.

Lemma bounded_remove e g : bounded g → bounded (removeLocked e g).
Proof.
  unfold removeLocked. destruct (g.(g_objs) !! e) as [o|] eqn:Ho; [|done]. destruct (ue_evicted o); [done|].
  intros [Hs|Hb]; [left|right]; cbn.
  - pose proof (map_subseteq_size _ _ (delete_subseteq g.(g_entries) o.(ue_key))). lia.
  - intros k x p [_ Hk]%lookup_delete_Some. rewrite lookup_alter. case_decide; [subst x|by eapply Hb].
    rewrite Ho. intros [= <-]. exact (Hb k e o Hk Ho).
Qed.

Lemma bounded_hit key e g ts pool due : g.(g_closing) = false → g.(g_entries) !! key = Some e →
  inv g ts pool due → bounded g → bounded (acquire_section key g).2.
Proof.
  intros Hc Hk I Hb. unfold acquire_section. rewrite Hc, Hk. destruct Hb as [?|Hb]; [by left|right].
  intros k x p Hk'. cbn. rewrite lookup_alter. case_decide; [subst x|by eapply Hb].
  destruct (g.(g_objs) !! e) as [o|] eqn:Ho; [|done]. intros [= <-]. cbn. entry_of I Ho.
  pose proof (count_of_nonneg holder e ts). lia.
Qed.

(** Nothing is cached once the registry closes, and its limit never changes. *)
Definition closed_empty (g : registry) : Prop := g.(g_closing) = true → g.(g_entries) = ∅.

Record server_ok (limit : Z) (sv : server) : Prop := {
  so_inv : inv sv.(sv_reg) sv.(sv_requests) (sv.(sv_log) ++ concat (pending <$> sv.(sv_requests))) [];
  so_bounded : bounded sv.(sv_reg);
  so_closed : closed_empty sv.(sv_reg);
  so_limit : sv.(sv_reg).(g_limit) = limit;
}.

Lemma miss_inv key e victims g g' ts pool : acquire_section key g = (EnterMiss e victims, g') →
  inv g ts pool [] → inv g' (Opening e victims :: ts) (pool ++ victims) [] ∧ bounded g' ∧
    g'.(g_closing) = false ∧ g'.(g_limit) = g.(g_limit).
Proof.
  unfold acquire_section. destruct (g_closing g) eqn:Hc; [done|]. destruct (g_entries g !! key) eqn:Hk; [done|].
  intros Heq I. apply (inv_new key) in I; [|done|done]. rewrite Hc in I.
  destruct (evictLocked _) as [g1 vs] eqn:Hw. injection Heq as <- <- <-.
  destruct (evictLocked_inv _ _ _ _ _ _ Hw I) as (I1 & (Hc1 & Hl1 & _) & Hb). cbn in Hc1, Hl1.
  split_and!; [|done|done|done]. eapply inv_request; [| | |exact I1]; [done|by left|].
  intros x o Ho. entry_of I1 Ho. split_and!; [|done|done]. intros ws [= E1 E2]. subst x. eapply eo_opening0. left.
Qed.

Lemma hit_acquires key e g g' : acquire_section key g = (EnterHit e, g') →
  g.(g_closing) = false ∧ g.(g_entries) !! key = Some e ∧ g' = (acquire_section key g).2.
Proof.
  intros E. rewrite E. unfold acquire_section in E. destruct (g_closing g); [done|].
  destruct (g_entries g !! key); [by injection E as -> _|]. by destruct (evictLocked _).
Qed.

Lemma release_closed e g g' victims : release_section e g = (g', victims) →
  closed_empty g → closed_empty g' ∧ g'.(g_limit) = g.(g_limit).
Proof.
  assert (∀ back h vs h' vs', evict_walk back h vs = (h', vs') → closed_empty h →
    closed_empty h' ∧ h'.(g_limit) = h.(g_limit)) as Hwalk.
  { induction back as [|x back IH]; cbn [evict_walk]; intros h vs h' vs'; [by intros [= <- _]|].
    destruct (_ <=? _); [by intros [= <- _]|]. destruct (h.(g_objs) !! x) as [o|] eqn:Ho; [|apply IH].
    destruct (_ =? 0); [|apply IH]. intros Hw Hc. destruct (IH _ _ _ _ Hw) as [? ->].
    - unfold closed_empty, removeLocked in *. cbn. rewrite Ho. destruct (ue_evicted o); [done|]. cbn.
      intros Hcl. rewrite (Hc Hcl). apply delete_empty.
    - split; [done|]. unfold removeLocked. rewrite Ho. by destruct (ue_evicted o). }
  unfold release_section. intros Hrel Hc. destruct (evictLocked _) as [g1 vs] eqn:Hw.
  destruct (Hwalk _ _ _ _ _ Hw Hc) as [Hc1 Hl1].
  destruct (g1.(g_objs) !! e) as [o|]; [destruct (_ && _)|]; by injection Hrel as <- _.
Qed.

(** The opener of an entry is alone. *)
Lemma opener_alone e t t' g ts pool due : inv g (t :: ts) pool due → opener t = Some e → t' ∈ ts → opener t' ≠ Some e.
Proof.
  intros I Ht Hin Ht'. pose proof (i_openers _ _ _ _ I e) as Hle. rewrite count_of_self in Hle by done.
  pose proof (count_of_pos opener e t' ts Hin Ht'). lia.
Qed.

Lemma opened_inv e r g ts pool due : inv g (Opening e [] :: ts) pool due →
  inv (update_entry (set_opened r) e g) (match r with Ok _ => Publishing e | Err _ => Removing e end :: ts) pool due.
Proof.
  intros I. assert (∀ o, g.(g_objs) !! e = Some o → o.(ue_opened) = None) as Hnone.
  { intros o Ho. entry_of I Ho. eapply eo_opening0. left. }
  pose proof (λ t' Hin, opener_alone e (Opening e []) t' g ts pool due I eq_refl Hin) as Halone.
  assert (inv (update_entry (set_opened r) e g) (Publishing e :: ts) pool due) as I1.
  { apply (inv_request _ _ (Publishing e)) in I; [|done|by left|done].
    apply inv_update; [|done]. intros o Ho. entry_of I Ho. pose proof (Hnone o Ho) as Hn. unfold failed. rewrite Hn.
    split_and!; [done|done|done|done|done|done| |].
    - intros vs [?|Hin]%elem_of_cons; [done|]. by destruct (Halone _ Hin).
    - intros Hin. destruct (eo_user0 Hin) as (_ & h & ?). congruence. }
  destruct r; [done|]. eapply inv_request; [| | |exact I1]; [done|by left|].
  intros x o. cbn. rewrite lookup_alter. intros Ho. split_and!; [done| |done]. intros [= ->].
  rewrite decide_True in Ho by done. destruct (g_objs g !! x); [|done]. by injection Ho as <-.
Qed.

Lemma published_inv e g ts pool due : inv g (Publishing e :: ts) pool due →
  inv (update_entry mark_ready e g) (Releasing e :: ts) pool due.
Proof.
  intros I. pose proof (i_openers _ _ _ _ I e) as Hle. rewrite count_of_self in Hle by done.
  apply (inv_request _ _ (Releasing e)) in I; [|done|by right|done].
  apply inv_update; [|done]. intros o Ho. entry_of I Ho. split_and!; try done.
  - rewrite count_of_other by done. lia.
  - intros Hin. split; [done|]. by destruct (eo_user0 Hin).
Qed.

(** A failed entry leaves the cache, while its opener still holds it. *)
Lemma removing_inv e g ts pool : inv g (Removing e :: ts) pool [] → inv (removeLocked e g) (Publishing e :: ts) pool [].
Proof.
  intros I. destruct (i_holder _ _ _ _ I (Removing e) e ltac:(left) eq_refl) as [o Ho].
  assert (failed o = true) as Hf by (entry_of I Ho; apply eo_removing0; left).
  apply (inv_request _ _ (Publishing e)) in I; [|done|by left|done].
  destruct (ue_evicted o) eqn:Hev; [unfold removeLocked; by rewrite Ho, Hev|].
  eapply inv_not_due; [|eapply inv_remove; [exact Ho|done|by left|exact I]].
  intros p Hp _ Hz. rewrite (removeLocked_evicted e o) in Hp by done. cbn in Hp. rewrite lookup_alter_eq, Ho in Hp.
  injection Hp as <-. cbn in Hz. entry_of I Ho. rewrite count_of_self in eo_refs0 by done.
  pose proof (count_of_nonneg holder e ts). lia.
Qed.

(** A request that has seen the entry open holds it. *)
Lemma holding_inv e t o h g ts pool due : holder t = Some e → opener t = None →
  g.(g_objs) !! e = Some o → o.(ue_ready) = true → o.(ue_opened) = Some (Ok h) →
  inv g (t :: ts) pool due → inv g (Holding e :: ts) pool due.
Proof.
  intros Ht Hop Ho Hr Hopen I. eapply inv_request; [| | |exact I]; [done|by right|].
  intros x p Hp. split_and!; [done|done|]. intros [= <-]. rewrite Ho in Hp. injection Hp as <-. eauto.
Qed.

(** One step of a request, beside any others. *)
Lemma request_step_ok limit t rest g log next g' log' :
  request_step t g log next g' log' →
  server_ok limit {| sv_reg := g; sv_requests := t :: rest; sv_log := log |} →
  server_ok limit {| sv_reg := g'; sv_requests := option_list next ++ rest; sv_log := log' |}.
Proof.
  intros Hstep [I Hb Hc Hl]; cbn [sv_reg sv_requests sv_log] in *. rewrite fmap_cons in I. cbn [concat] in I.
  destruct Hstep as [| |?? ? ? E|?? ? ?? E|?? ? ? ? ? E| | | | |e o h g log Ho E|e o err g log Ho E|e o h g log Ho Hr E|
    e o err g log Ho Hr E| | |e g log g' victims E| |]; cbn [option_list app pending] in *.
  - split; try done. cbn [sv_reg sv_requests sv_log] in *. apply inv_free; [done|done|]. by eapply inv_free in I.
  - split; try done. by eapply inv_free in I.
  - unfold acquire_section in E. destruct (g_closing g) eqn:Hcl; [simplify_eq|].
    + split; try done. by eapply inv_free in I.
    + destruct (g_entries g !! key); [done|]. by destruct (evictLocked _).
  - apply inv_free in I; [|done|done]. apply hit_acquires in E as (E1 & E2 & ->).
    split; cbn [sv_reg sv_requests sv_log]; [by apply inv_hit|by eapply bounded_hit| |];
      unfold closed_empty, acquire_section; by rewrite E1, E2.
  - apply inv_free in I; [|done|done]. eapply miss_inv in E as (I1 & Hb1 & Hc1 & Hl1); [|exact I].
    split; cbn [sv_reg sv_requests sv_log]; [|done|by unfold closed_empty; rewrite Hc1|congruence].
    eapply inv_perm; [reflexivity| |exact I1]. cbn. rewrite <- app_assoc. f_equiv. apply Permutation_app_comm.
  - split; try done. cbn [sv_reg sv_requests sv_log]. rewrite <- app_assoc. eapply inv_request; [| | |exact I]; [done|by left|].
    intros x o Ho. entry_of I Ho. split_and!; [|done|done]. intros ws [= E1 E2]. subst x. eapply eo_opening0. left.
  - split; try done; cbn [sv_reg sv_requests sv_log]; [|by apply bounded_update]. exact (opened_inv e (Ok h) _ _ _ _ I).
  - split; try done; cbn [sv_reg sv_requests sv_log]; [|by apply bounded_update]. exact (opened_inv e (Err err) _ _ _ _ I).
  - (* the failed entry leaves the cache *)
    split; cbn [sv_reg sv_requests sv_log]; [exact (removing_inv _ _ _ _ I)|by apply bounded_remove| |].
    + unfold closed_empty, removeLocked in *. repeat case_match; [done| |done]. cbn. intros Hcl.
      rewrite (Hc Hcl). apply delete_empty.
    + rewrite <- Hl. by destruct (removeLocked_walked e g) as (_ & -> & _).
  - split; try done; cbn [sv_reg sv_requests sv_log]; [|by apply bounded_update].
    eapply (holding_inv e (Releasing e) (mark_ready o)); [done|done| |done|exact E|by apply published_inv].
    cbn. by rewrite lookup_alter_eq, Ho.
  - split; try done; cbn [sv_reg sv_requests sv_log]; [|by apply bounded_update]. by apply published_inv.
  - split; try done. by eapply (holding_inv e (Waiting e) o).
  - split; try done. eapply inv_request; [| | |exact I]; [done|by left|done].
  - split; try done. eapply inv_request; [| | |exact I]; [done|by left|done].
  - split; try done. eapply inv_request; [| | |exact I]; [done|by left|done].
  - destruct (release_inv _ _ _ _ _ _ E I) as [I1 Hb1]. destruct (release_closed _ _ _ _ E Hc) as [Hc1 Hl1].
    split; cbn [sv_reg sv_requests sv_log]; [|done|done|congruence]. apply inv_free; [done|done|].
    eapply inv_perm; [reflexivity| |exact I1]. cbn. rewrite <- app_assoc. f_equiv. apply Permutation_app_comm.
  - split; try done. cbn [sv_reg sv_requests sv_log]. rewrite <- app_assoc. apply inv_free; [done|done|]. by eapply inv_free in I.
  - split; try done. by eapply inv_free in I.
Qed.

Lemma registry_step_ok limit sv sv' : server_step sv sv' → server_ok limit sv → server_ok limit sv'.
Proof.
  intros Hstep. destruct Hstep as [g ts log key create|g ts log order g' victims Hord Hcl|g ts log t rest next g' log' Ht Hstep].
  - intros [I Hb Hc Hl]. split; try done. by apply inv_free.
  - intros [I Hb Hc Hl]. cbn [sv_reg sv_requests sv_log] in *.
    destruct (close_inv _ _ _ _ _ _ Hord Hcl I) as (I1 & Hb1 & He1). split; cbn [sv_reg sv_requests sv_log]; [|done| |].
    + apply inv_free; [done|done|]. eapply inv_perm; [reflexivity| |exact I1]. cbn. rewrite <- app_assoc. f_equiv. apply Permutation_app_comm.
    + by intros _.
    + unfold close_section in Hcl. by rewrite (close_walk_limit _ _ _ _ _ Hcl).
  - intros Hok. eapply request_step_ok; [exact Hstep|]. destruct Hok as [I Hb Hc Hl]. split; try done.
    cbn [sv_reg sv_requests sv_log] in *. eapply inv_perm; [exact Ht| |exact I]. by rewrite Ht.
Qed.

Lemma server_start_ok limit : server_ok limit (server_start limit).
Proof.
  split; [|right; intros k e o; cbn; by rewrite lookup_empty|done|done].
  split; cbn [server_start sv_reg sv_requests sv_log newRegistry g_objs g_entries g_lru fmap list_fmap concat app].
  - intros e o. by rewrite lookup_empty.
  - intros k e. by rewrite lookup_empty.
  - apply NoDup_nil_2.
  - by intros e ?%elem_of_nil.
  - apply NoDup_nil_2.
  - by intros e ?%elem_of_nil.
  - by intros t e ?%elem_of_nil.
  - intros e. unfold count_of. cbn. lia.
  - intros e1 e2 o1 o2 _. by rewrite lookup_empty.
Qed.

Lemma server_reachable_ok limit sv : rtc server_step (server_start limit) sv → server_ok limit sv.
Proof.
  intros Hr. pose proof (server_start_ok limit) as Hok. induction Hr as [|x y z Hs _ IH]; [done|].
  apply IH. by eapply registry_step_ok.
Qed.

End registry.
Arguments userEntry : clear implicits.
Arguments registry : clear implicits.
Arguments server : clear implicits.
Arguments server_start : clear implicits.

(** Keys of users are keys. *)
Lemma hex_lower_ok n : (n < 16)%N →
  (let m := N_of_byte (hex_lower n) in ((48 <=? m) && (m <=? 57) || (97 <=? m) && (m <=? 102))%N) = true.
Proof.
  intros Hn. assert (n ∈ (N.of_nat <$> seq 0 16)) as Hin.
  { apply list_elem_of_fmap. exists (N.to_nat n). split; [by rewrite N2Nat.id|]. apply elem_of_seq. lia. }
  revert n Hn Hin. intros n _. set (P := λ m, ((48 <=? m) && (m <=? 57) || (97 <=? m) && (m <=? 102))%N).
  intros Hin. assert (Forall (λ n, P (N_of_byte (hex_lower n)) = true) (N.of_nat <$> seq 0 16)) as Hall.
  { apply Forall_forall. intros m. by repeat (intros [->|Hm]%elem_of_cons; [done|revert Hm]); intros ?%elem_of_nil. }
  rewrite Forall_forall in Hall. by apply Hall.
Qed.

Lemma substring_length n s : (n <= String.length s)%nat → String.length (String.substring 0 n s) = n.
Proof.
  revert s. induction n as [|n IH]; intros [|c s]; cbn [String.length String.substring]; intros Hn; [done..|lia|].
  by rewrite IH by lia.
Qed.

Lemma isUserKey_userKey userID : isUserKey (userKey userID) = true.
Proof.
  assert (∀ n s, forallb (λ c, let m := N_of_byte c in
    ((48 <=? m) && (m <=? 57) || (97 <=? m) && (m <=? 102))%N) (string_to_bytes (String.substring 0 (2 * n) (hex_encode s))) = true) as Hhex.
  { intros n s. revert n. induction s as [|c s IH]; intros n; [by destruct n|]. destruct n as [|n]; [done|].
    replace (2 * S n)%nat with (S (S (2 * n)))%nat by lia. cbn [hex_encode String.substring string_to_bytes forallb].
    rewrite IH. pose proof (N_of_byte_bound c) as Hb.
    rewrite !hex_lower_ok; [done|apply N.mod_lt; done|apply N.Div0.div_lt_upper_bound; lia]. }
  unfold isUserKey, userKey. apply andb_true_intro. split; [|exact (Hhex 16%nat _)].
  apply Nat.eqb_eq. apply substring_length. rewrite hex_encode_length, sha256_length. lia.
Qed.

(** ** The contract *)

(** The request holds the entry: it opens it, waits for it, uses it or is about to
    release it. *)
Definition holds {H} (sv : server H) (e : nat) : Prop := ∃ t, t ∈ sv.(sv_requests) ∧ holder t = Some e.

(** C14. Whatever requests the server runs, however they interleave, and however
    opening a store ends: a store is never closed while a request holds its entry,
    and never twice; a request that uses an entry has an opened store; two requests
    that use one user's store at the same time use the same one; more stores than
    the limit are cached only while every one of them is held; and once the
    registry is closed and its requests have ended, every entry ever made has been
    closed. *)
Theorem registry_contract {H} (limit : Z) (sv : server H) :
  rtc server_step (server_start H limit) sv →
  (∀ e, holds sv e → e ∉ sv.(sv_log)) ∧ NoDup sv.(sv_log) ∧
  (∀ e, Holding e ∈ sv.(sv_requests) →
     ∃ o h, sv.(sv_reg).(g_objs) !! e = Some o ∧ o.(ue_ready) = true ∧ o.(ue_opened) = Some (Ok h)) ∧
  (∀ e1 e2 o1 o2, Holding e1 ∈ sv.(sv_requests) → Holding e2 ∈ sv.(sv_requests) →
     sv.(sv_reg).(g_objs) !! e1 = Some o1 → sv.(sv_reg).(g_objs) !! e2 = Some o2 → o1.(ue_key) = o2.(ue_key) → e1 = e2) ∧
  (Z.of_nat (open sv.(sv_reg)) <= limit ∨ ∀ k e, sv.(sv_reg).(g_entries) !! k = Some e → holds sv e) ∧
  (sv.(sv_reg).(g_closing) = true → sv.(sv_requests) = [] → ∀ e, is_Some (sv.(sv_reg).(g_objs) !! e) → e ∈ sv.(sv_log)).
Proof.
  intros Hr. destruct (server_reachable_ok _ _ Hr) as [I Hb Hc Hl].
  assert (∀ e, 0 < count_of holder e sv.(sv_requests) → holds sv e) as Hpos by (intros e; apply count_of_pos_inv).
  split_and!.
  - intros e (t & Ht & Hh) Hin. destruct (i_holder _ _ _ _ I t e Ht Hh) as [o Ho]. destruct (i_entry _ _ _ _ I _ _ Ho).
    assert (ue_closed o = true) as Hcl by (apply eo_pool0, elem_of_app; by left). destruct (eo_closed0 Hcl) as [_ Hz].
    pose proof (count_of_pos holder e t _ Ht Hh). lia.
  - pose proof (i_pool _ _ _ _ I) as Hnd. by apply NoDup_app in Hnd as [? _].
  - intros e He. destruct (i_holder _ _ _ _ I _ e He eq_refl) as [o Ho]. destruct (i_entry _ _ _ _ I _ _ Ho).
    destruct (eo_user0 He) as (? & h & ?). by exists o, h.
  - intros e1 e2 o1 o2 H1 H2 Ho1 Ho2 Hk. destruct (decide (e1 = e2)) as [|Hne]; [done|].
    destruct (i_key _ _ _ _ I e1 e2 o1 o2 Hne Ho1 Ho2 Hk) as [Hf|Hf]; [by apply (count_of_pos holder e1 (Holding e1))|by apply (count_of_pos holder e2 (Holding e2))| |].
    + destruct (i_entry _ _ _ _ I _ _ Ho1). destruct (eo_user0 H1) as (_ & h & Hop). unfold failed in Hf. by rewrite Hop in Hf.
    + destruct (i_entry _ _ _ _ I _ _ Ho2). destruct (eo_user0 H2) as (_ & h & Hop). unfold failed in Hf. by rewrite Hop in Hf.
  - rewrite <- Hl. destruct Hb as [?|Hb]; [by left|right]. intros k e Hk. apply Hpos.
    destruct (i_map _ _ _ _ I _ _ Hk) as (o & Ho & _). specialize (Hb k e o Hk Ho). destruct (i_entry _ _ _ _ I _ _ Ho).
    pose proof (count_of_nonneg holder e sv.(sv_requests)). lia.
  - intros Hclosing Hnone e [o Ho]. pose proof (Hc Hclosing) as He. destruct (i_entry _ _ _ _ I _ _ Ho). rewrite Hnone in *.
    assert (ue_evicted o = true) as Hev.
    { destruct (ue_evicted o); [done|]. pose proof (proj1 eo_cached0 eq_refl) as E. by rewrite He, lookup_empty in E. }
    destruct (eo_idle0 Hev eq_refl) as [Hcl|?%elem_of_nil]; [|done]. apply eo_pool0 in Hcl.
    cbn in Hcl. by rewrite app_nil_r in Hcl.
Qed.

(** Two users with room for one store: the first one's is closed when it is released
    while the second is in use. *)
Definition one_store_left : server string :=
  {| sv_reg := {| g_limit := 1; g_entries := {["b" := 1%nat]}; g_lru := [1%nat]; g_closing := false;
       g_objs := {[0%nat := {| ue_key := "a"; ue_ready := true; ue_opened := Some (Ok "store a"); ue_refs := 0; ue_evicted := true; ue_closed := true |};
                   1%nat := {| ue_key := "b"; ue_ready := true; ue_opened := Some (Ok "store b"); ue_refs := 1; ue_evicted := false; ue_closed := false |}]};
       g_next := 2 |};
     sv_requests := [Closing []; Holding 1]; sv_log := [0%nat] |}.

Ltac serve := eapply rtc_l; [eapply (serve_request _ _ _ _ _ _ _ _ (Permutation_refl _)); econstructor; reflexivity|].
Ltac serve_second := eapply rtc_l; [eapply (serve_request _ _ _ _ _ _ _ _ (Permutation_swap _ _ _)); econstructor; reflexivity|].

Lemma registry_contract_witness :
  rtc server_step (server_start string 1) one_store_left ∧ Z.of_nat (open one_store_left.(sv_reg)) = 1 ∧
  1%nat ∉ one_store_left.(sv_log).
Proof.
  assert (rtc server_step (server_start string 1) one_store_left) as Hrun.
  { eapply rtc_l; [apply (serve_new _ _ _ "a" true)|]. serve. serve.
    eapply rtc_l; [eapply (serve_request _ _ _ _ _ _ _ _ (Permutation_refl _)); apply (step_opened _ "store a")|]. serve.
    eapply rtc_l; [apply (serve_new _ _ _ "b" true)|]. serve. serve.
    eapply rtc_l; [eapply (serve_request _ _ _ _ _ _ _ _ (Permutation_refl _)); apply (step_opened _ "store b")|]. serve.
    serve_second. serve. serve. vm_compute. constructor. }
  split; [exact Hrun|]. split; [reflexivity|].
  apply (registry_contract 1 one_store_left Hrun). exists (Holding 1). split; [right; left|reflexivity].
Defined.
