(* ===== verification/Scheduler.v ===== *)
(** The scheduler of background consolidation (internal/aml/scheduler.go): which users
    have work, who runs next on the fixed pool of workers, who backs off after a
    failed job and who waits for a backlog to shrink.

    The users are objects that the queue, the retry heap, the running jobs, the
    holds and the waiters refer to, so the scheduler has a heap of them.  Each
    section under the mutex is one function.  The change channel is the number of
    channels made before it; a goroutine that waits on channel [c] can go on once
    [c] is no longer the current one.  (A section that replaces the channel closes
    the old one as soon as it has released the mutex; this is taken as one step.)
    Log lines other than that of a dropped notification are left out. *)

From Stdlib Require Import Lia SpecFloat.
From S2P Require Import Prelude Time Heap.

#[local] Open Scope Z_scope.

(** ** Constants and machine arithmetic *)

Definition second : Z := 1000000000.
Definition retryBase : Z := 30 * second.
Definition retryMax : Z := 600 * second.
Definition reservePause : Z := 600 * second.
Definition queueFullEvery : Z := 60 * second.
Definition maxConsolidationUsers : Z := 100000.
Definition defaultConsolidationWorkers : Z := 4.

(** int64 addition and the saturating difference of two times. *)
Definition add64 (a b : Z) : Z := (a + b + 2 ^ 63) mod 2 ^ 64 - 2 ^ 63.
Definition time_Sub (a b : Time) : Z := Z.max (- 2 ^ 63) (Z.min (2 ^ 63 - 1) (a - b)).

(** float64 as the IEEE 754 format, each operation rounded to nearest even. *)
Definition f64_mul : spec_float → spec_float → spec_float := SFmul 53 1024.
Definition f64_add : spec_float → spec_float → spec_float := SFadd 53 1024.
Definition f64_of_Z (n : Z) : spec_float := binary_normalize 53 1024 n 0 false.
Definition f64_0_8 : spec_float := S754_finite false 7205759403792794 (-53).
Definition f64_0_4 : spec_float := S754_finite false 7205759403792794 (-54).
Definition f64_0_2 : spec_float := S754_finite false 7205759403792794 (-55).

(** [time.Duration(math.Round(x))], half away from zero, on finite values. *)
Definition round_duration (x : spec_float) : Z :=
  match x with
  | S754_finite s m e =>
      let n := if 0 <=? e then Z.pos m * 2 ^ e else (2 * Z.pos m + 2 ^ (- e)) / (2 * 2 ^ (- e)) in
      if s then - n else n
  | _ => 0
  end.

(** The wait before the retry after a user's [failures]-th failed job in a row. *)
Definition retryDelay (failures : Z) (jitter : spec_float) : Z :=
  let delay := if failures <=? 10 then Z.shiftl retryBase (Z.max (failures - 1) 0) else retryMax in
  let jittered := round_duration (f64_mul (f64_of_Z delay) (f64_add f64_0_8 (f64_mul f64_0_4 jitter))) in
  Z.min jittered (round_duration (f64_mul (f64_of_Z retryMax) (f64_add f64_0_8 (f64_mul f64_0_2 jitter)))).

(** ** Outcomes of jobs *)

(** Declared by memoryagent: the budget reserve kept for searches. *)
Definition ErrBudgetCap : error := Sentinel "model spending cap reached, including unresolved reservations".
Definition ErrBackgroundReserve : error := Wrapped "kept for searches" ErrBudgetCap.

Definition jobOK : string := "ok".
Definition jobFailed : string := "failed".
Definition jobPaused : string := "paused".
Definition jobCanceled : string := "canceled".

Definition jobOutcome (cut : bool) (err : option error) : string :=
  if cut then jobCanceled else
  match err with
  | None => jobOK
  | Some err => if errors_is err ErrBackgroundReserve then jobPaused else jobFailed
  end.

(** ** State *)

Inductive userState := userIdle | userQueued | userRunning | userBackingOff.
#[export] Instance userState_eq_dec : EqDecision userState.
Proof. solve_decision. Defined.

(** [elem], the user's place in the queue, is its place in [s_queue]. *)
Record schedUser := {
  u_key : string; u_state : userState; u_holds : Z; u_waiters : Z; u_backlog : Z; u_added : Z;
  u_dirty : bool; u_measured : bool; u_failures : Z; u_retryAt : Time; u_seq : Z;
  u_since : Time; u_dirtySince : Time;
}.

Definition new_user (key : string) : schedUser :=
  {| u_key := key; u_state := userIdle; u_holds := 0; u_waiters := 0; u_backlog := 0; u_added := 0;
     u_dirty := false; u_measured := false; u_failures := 0; u_retryAt := zero_time; u_seq := 0;
     u_since := zero_time; u_dirtySince := zero_time |}.

Definition u_with_state (v : userState) (u : schedUser) : schedUser :=
  {| u_key := u.(u_key); u_state := v; u_holds := u.(u_holds); u_waiters := u.(u_waiters); u_backlog :=
     u.(u_backlog); u_added := u.(u_added); u_dirty := u.(u_dirty); u_measured := u.(u_measured); u_failures
     := u.(u_failures); u_retryAt := u.(u_retryAt); u_seq := u.(u_seq); u_since := u.(u_since); u_dirtySince
     := u.(u_dirtySince) |}.
Definition u_with_holds (v : Z) (u : schedUser) : schedUser :=
  {| u_key := u.(u_key); u_state := u.(u_state); u_holds := v; u_waiters := u.(u_waiters); u_backlog :=
     u.(u_backlog); u_added := u.(u_added); u_dirty := u.(u_dirty); u_measured := u.(u_measured); u_failures
     := u.(u_failures); u_retryAt := u.(u_retryAt); u_seq := u.(u_seq); u_since := u.(u_since); u_dirtySince
     := u.(u_dirtySince) |}.
Definition u_with_waiters (v : Z) (u : schedUser) : schedUser :=
  {| u_key := u.(u_key); u_state := u.(u_state); u_holds := u.(u_holds); u_waiters := v; u_backlog :=
     u.(u_backlog); u_added := u.(u_added); u_dirty := u.(u_dirty); u_measured := u.(u_measured); u_failures
     := u.(u_failures); u_retryAt := u.(u_retryAt); u_seq := u.(u_seq); u_since := u.(u_since); u_dirtySince
     := u.(u_dirtySince) |}.
Definition u_with_backlog (v : Z) (u : schedUser) : schedUser :=
  {| u_key := u.(u_key); u_state := u.(u_state); u_holds := u.(u_holds); u_waiters := u.(u_waiters);
     u_backlog := v; u_added := u.(u_added); u_dirty := u.(u_dirty); u_measured := u.(u_measured);
     u_failures := u.(u_failures); u_retryAt := u.(u_retryAt); u_seq := u.(u_seq); u_since := u.(u_since);
     u_dirtySince := u.(u_dirtySince) |}.
Definition u_with_added (v : Z) (u : schedUser) : schedUser :=
  {| u_key := u.(u_key); u_state := u.(u_state); u_holds := u.(u_holds); u_waiters := u.(u_waiters);
     u_backlog := u.(u_backlog); u_added := v; u_dirty := u.(u_dirty); u_measured := u.(u_measured);
     u_failures := u.(u_failures); u_retryAt := u.(u_retryAt); u_seq := u.(u_seq); u_since := u.(u_since);
     u_dirtySince := u.(u_dirtySince) |}.
Definition u_with_dirty (v : bool) (u : schedUser) : schedUser :=
  {| u_key := u.(u_key); u_state := u.(u_state); u_holds := u.(u_holds); u_waiters := u.(u_waiters);
     u_backlog := u.(u_backlog); u_added := u.(u_added); u_dirty := v; u_measured := u.(u_measured);
     u_failures := u.(u_failures); u_retryAt := u.(u_retryAt); u_seq := u.(u_seq); u_since := u.(u_since);
     u_dirtySince := u.(u_dirtySince) |}.
Definition u_with_measured (v : bool) (u : schedUser) : schedUser :=
  {| u_key := u.(u_key); u_state := u.(u_state); u_holds := u.(u_holds); u_waiters := u.(u_waiters);
     u_backlog := u.(u_backlog); u_added := u.(u_added); u_dirty := u.(u_dirty); u_measured := v; u_failures
     := u.(u_failures); u_retryAt := u.(u_retryAt); u_seq := u.(u_seq); u_since := u.(u_since); u_dirtySince
     := u.(u_dirtySince) |}.
Definition u_with_failures (v : Z) (u : schedUser) : schedUser :=
  {| u_key := u.(u_key); u_state := u.(u_state); u_holds := u.(u_holds); u_waiters := u.(u_waiters);
     u_backlog := u.(u_backlog); u_added := u.(u_added); u_dirty := u.(u_dirty); u_measured :=
     u.(u_measured); u_failures := v; u_retryAt := u.(u_retryAt); u_seq := u.(u_seq); u_since :=
     u.(u_since); u_dirtySince := u.(u_dirtySince) |}.
Definition u_with_retryAt (v : Time) (u : schedUser) : schedUser :=
  {| u_key := u.(u_key); u_state := u.(u_state); u_holds := u.(u_holds); u_waiters := u.(u_waiters);
     u_backlog := u.(u_backlog); u_added := u.(u_added); u_dirty := u.(u_dirty); u_measured :=
     u.(u_measured); u_failures := u.(u_failures); u_retryAt := v; u_seq := u.(u_seq); u_since :=
     u.(u_since); u_dirtySince := u.(u_dirtySince) |}.
Definition u_with_seq (v : Z) (u : schedUser) : schedUser :=
  {| u_key := u.(u_key); u_state := u.(u_state); u_holds := u.(u_holds); u_waiters := u.(u_waiters);
     u_backlog := u.(u_backlog); u_added := u.(u_added); u_dirty := u.(u_dirty); u_measured :=
     u.(u_measured); u_failures := u.(u_failures); u_retryAt := u.(u_retryAt); u_seq := v; u_since :=
     u.(u_since); u_dirtySince := u.(u_dirtySince) |}.
Definition u_with_since (v : Time) (u : schedUser) : schedUser :=
  {| u_key := u.(u_key); u_state := u.(u_state); u_holds := u.(u_holds); u_waiters := u.(u_waiters);
     u_backlog := u.(u_backlog); u_added := u.(u_added); u_dirty := u.(u_dirty); u_measured :=
     u.(u_measured); u_failures := u.(u_failures); u_retryAt := u.(u_retryAt); u_seq := u.(u_seq); u_since
     := v; u_dirtySince := u.(u_dirtySince) |}.
Definition u_with_dirtySince (v : Time) (u : schedUser) : schedUser :=
  {| u_key := u.(u_key); u_state := u.(u_state); u_holds := u.(u_holds); u_waiters := u.(u_waiters);
     u_backlog := u.(u_backlog); u_added := u.(u_added); u_dirty := u.(u_dirty); u_measured :=
     u.(u_measured); u_failures := u.(u_failures); u_retryAt := u.(u_retryAt); u_seq := u.(u_seq); u_since
     := u.(u_since); u_dirtySince := v |}.

Record scheduler := {
  s_workers : Z; s_maxUsers : Z;
  s_objs : gmap nat schedUser; s_fresh : nat;
  s_users : gmap string nat; s_measured : gset string;
  s_queue : list nat; s_retries : list nat; s_running : Z; s_retrySeq : Z;
  s_changed : nat; s_started : bool; s_stopped : bool; s_draining : bool; s_fullLogged : Time;
}.

Definition s_with_objs (v : gmap nat schedUser) (s : scheduler) : scheduler :=
  {| s_workers := s.(s_workers); s_maxUsers := s.(s_maxUsers); s_objs := v; s_fresh := s.(s_fresh); s_users
     := s.(s_users); s_measured := s.(s_measured); s_queue := s.(s_queue); s_retries := s.(s_retries);
     s_running := s.(s_running); s_retrySeq := s.(s_retrySeq); s_changed := s.(s_changed); s_started :=
     s.(s_started); s_stopped := s.(s_stopped); s_draining := s.(s_draining); s_fullLogged :=
     s.(s_fullLogged) |}.
Definition s_with_fresh (v : nat) (s : scheduler) : scheduler :=
  {| s_workers := s.(s_workers); s_maxUsers := s.(s_maxUsers); s_objs := s.(s_objs); s_fresh := v; s_users
     := s.(s_users); s_measured := s.(s_measured); s_queue := s.(s_queue); s_retries := s.(s_retries);
     s_running := s.(s_running); s_retrySeq := s.(s_retrySeq); s_changed := s.(s_changed); s_started :=
     s.(s_started); s_stopped := s.(s_stopped); s_draining := s.(s_draining); s_fullLogged :=
     s.(s_fullLogged) |}.
Definition s_with_users (v : gmap string nat) (s : scheduler) : scheduler :=
  {| s_workers := s.(s_workers); s_maxUsers := s.(s_maxUsers); s_objs := s.(s_objs); s_fresh := s.(s_fresh);
     s_users := v; s_measured := s.(s_measured); s_queue := s.(s_queue); s_retries := s.(s_retries);
     s_running := s.(s_running); s_retrySeq := s.(s_retrySeq); s_changed := s.(s_changed); s_started :=
     s.(s_started); s_stopped := s.(s_stopped); s_draining := s.(s_draining); s_fullLogged :=
     s.(s_fullLogged) |}.
Definition s_with_measured (v : gset string) (s : scheduler) : scheduler :=
  {| s_workers := s.(s_workers); s_maxUsers := s.(s_maxUsers); s_objs := s.(s_objs); s_fresh := s.(s_fresh);
     s_users := s.(s_users); s_measured := v; s_queue := s.(s_queue); s_retries := s.(s_retries); s_running
     := s.(s_running); s_retrySeq := s.(s_retrySeq); s_changed := s.(s_changed); s_started := s.(s_started);
     s_stopped := s.(s_stopped); s_draining := s.(s_draining); s_fullLogged := s.(s_fullLogged) |}.
Definition s_with_queue (v : list nat) (s : scheduler) : scheduler :=
  {| s_workers := s.(s_workers); s_maxUsers := s.(s_maxUsers); s_objs := s.(s_objs); s_fresh := s.(s_fresh);
     s_users := s.(s_users); s_measured := s.(s_measured); s_queue := v; s_retries := s.(s_retries);
     s_running := s.(s_running); s_retrySeq := s.(s_retrySeq); s_changed := s.(s_changed); s_started :=
     s.(s_started); s_stopped := s.(s_stopped); s_draining := s.(s_draining); s_fullLogged :=
     s.(s_fullLogged) |}.
Definition s_with_retries (v : list nat) (s : scheduler) : scheduler :=
  {| s_workers := s.(s_workers); s_maxUsers := s.(s_maxUsers); s_objs := s.(s_objs); s_fresh := s.(s_fresh);
     s_users := s.(s_users); s_measured := s.(s_measured); s_queue := s.(s_queue); s_retries := v; s_running
     := s.(s_running); s_retrySeq := s.(s_retrySeq); s_changed := s.(s_changed); s_started := s.(s_started);
     s_stopped := s.(s_stopped); s_draining := s.(s_draining); s_fullLogged := s.(s_fullLogged) |}.
Definition s_with_running (v : Z) (s : scheduler) : scheduler :=
  {| s_workers := s.(s_workers); s_maxUsers := s.(s_maxUsers); s_objs := s.(s_objs); s_fresh := s.(s_fresh);
     s_users := s.(s_users); s_measured := s.(s_measured); s_queue := s.(s_queue); s_retries :=
     s.(s_retries); s_running := v; s_retrySeq := s.(s_retrySeq); s_changed := s.(s_changed); s_started :=
     s.(s_started); s_stopped := s.(s_stopped); s_draining := s.(s_draining); s_fullLogged :=
     s.(s_fullLogged) |}.
Definition s_with_retrySeq (v : Z) (s : scheduler) : scheduler :=
  {| s_workers := s.(s_workers); s_maxUsers := s.(s_maxUsers); s_objs := s.(s_objs); s_fresh := s.(s_fresh);
     s_users := s.(s_users); s_measured := s.(s_measured); s_queue := s.(s_queue); s_retries :=
     s.(s_retries); s_running := s.(s_running); s_retrySeq := v; s_changed := s.(s_changed); s_started :=
     s.(s_started); s_stopped := s.(s_stopped); s_draining := s.(s_draining); s_fullLogged :=
     s.(s_fullLogged) |}.
Definition s_with_changed (v : nat) (s : scheduler) : scheduler :=
  {| s_workers := s.(s_workers); s_maxUsers := s.(s_maxUsers); s_objs := s.(s_objs); s_fresh := s.(s_fresh);
     s_users := s.(s_users); s_measured := s.(s_measured); s_queue := s.(s_queue); s_retries :=
     s.(s_retries); s_running := s.(s_running); s_retrySeq := s.(s_retrySeq); s_changed := v; s_started :=
     s.(s_started); s_stopped := s.(s_stopped); s_draining := s.(s_draining); s_fullLogged :=
     s.(s_fullLogged) |}.
Definition s_with_started (v : bool) (s : scheduler) : scheduler :=
  {| s_workers := s.(s_workers); s_maxUsers := s.(s_maxUsers); s_objs := s.(s_objs); s_fresh := s.(s_fresh);
     s_users := s.(s_users); s_measured := s.(s_measured); s_queue := s.(s_queue); s_retries :=
     s.(s_retries); s_running := s.(s_running); s_retrySeq := s.(s_retrySeq); s_changed := s.(s_changed);
     s_started := v; s_stopped := s.(s_stopped); s_draining := s.(s_draining); s_fullLogged :=
     s.(s_fullLogged) |}.
Definition s_with_stopped (v : bool) (s : scheduler) : scheduler :=
  {| s_workers := s.(s_workers); s_maxUsers := s.(s_maxUsers); s_objs := s.(s_objs); s_fresh := s.(s_fresh);
     s_users := s.(s_users); s_measured := s.(s_measured); s_queue := s.(s_queue); s_retries :=
     s.(s_retries); s_running := s.(s_running); s_retrySeq := s.(s_retrySeq); s_changed := s.(s_changed);
     s_started := s.(s_started); s_stopped := v; s_draining := s.(s_draining); s_fullLogged :=
     s.(s_fullLogged) |}.
Definition s_with_draining (v : bool) (s : scheduler) : scheduler :=
  {| s_workers := s.(s_workers); s_maxUsers := s.(s_maxUsers); s_objs := s.(s_objs); s_fresh := s.(s_fresh);
     s_users := s.(s_users); s_measured := s.(s_measured); s_queue := s.(s_queue); s_retries :=
     s.(s_retries); s_running := s.(s_running); s_retrySeq := s.(s_retrySeq); s_changed := s.(s_changed);
     s_started := s.(s_started); s_stopped := s.(s_stopped); s_draining := v; s_fullLogged :=
     s.(s_fullLogged) |}.
Definition s_with_fullLogged (v : Time) (s : scheduler) : scheduler :=
  {| s_workers := s.(s_workers); s_maxUsers := s.(s_maxUsers); s_objs := s.(s_objs); s_fresh := s.(s_fresh);
     s_users := s.(s_users); s_measured := s.(s_measured); s_queue := s.(s_queue); s_retries :=
     s.(s_retries); s_running := s.(s_running); s_retrySeq := s.(s_retrySeq); s_changed := s.(s_changed);
     s_started := s.(s_started); s_stopped := s.(s_stopped); s_draining := s.(s_draining); s_fullLogged := v
     |}.

Definition newScheduler (workers maxUsers : Z) : scheduler :=
  {| s_workers := workers; s_maxUsers := maxUsers; s_objs := ∅; s_fresh := 0; s_users := ∅; s_measured := ∅;
     s_queue := []; s_retries := []; s_running := 0; s_retrySeq := 0; s_changed := 0; s_started := false;
     s_stopped := false; s_draining := false; s_fullLogged := zero_time |}.

(** Writes to the fields of one user. *)
Definition update (u : nat) (f : schedUser → schedUser) (s : scheduler) : scheduler :=
  s_with_objs (alter f u s.(s_objs)) s.

(** [s.users[key]]. *)
Definition user_of (key : string) (s : scheduler) : option (nat * schedUser) :=
  u ← s.(s_users) !! key; o ← s.(s_objs) !! u; Some (u, o).

(** [u = &schedUser{key: key}; s.users[key] = u]. *)
Definition add_user (key : string) (s : scheduler) : nat * scheduler :=
  let u := s.(s_fresh) in
  (u, s_with_users (<[key := u]> s.(s_users))
        (s_with_objs (<[u := new_user key]> s.(s_objs)) (s_with_fresh (S u) s))).

(** ** Helpers that run under the mutex *)

Definition activeLocked (s : scheduler) : Z :=
  Z.of_nat (length s.(s_queue)) + s.(s_running) + Z.of_nat (length s.(s_retries)).

Definition enqueueLocked (u : nat) (s : scheduler) : scheduler :=
  s_with_queue (s.(s_queue) ++ [u]) (update u (u_with_state userQueued) s).

(** [retryHeap.Less]: by retry time, then by when they failed. *)
Definition retry_key (objs : gmap nat schedUser) (u : nat) : Time * Z :=
  match objs !! u with Some o => (o.(u_retryAt), o.(u_seq)) | None => (0, 0) end.
Definition retry_less (objs : gmap nat schedUser) (a b : nat) : bool :=
  let '(ta, sa) := retry_key objs a in
  let '(tb, sb) := retry_key objs b in
  if negb (ta =? tb) then ta <? tb else sa <? sb.

(** The loop of [retryDueLocked]; a turn takes one user from the heap. *)
Fixpoint retry_due (turns : nat) (now : Time) (s : scheduler) : scheduler :=
  match turns with
  | O => s
  | S turns =>
      match s.(s_retries) with
      | u :: _ =>
          if now <? (retry_key s.(s_objs) u).1 then s else
          match heap_pop (retry_less s.(s_objs)) s.(s_retries) with
          | Some (u, rest) => retry_due turns now (enqueueLocked u (s_with_retries rest s))
          | None => s
          end
      | [] => s
      end
  end.
Definition retryDueLocked (now : Time) (s : scheduler) : scheduler := retry_due (length s.(s_retries)) now s.

Definition unheld (s : scheduler) (u : nat) : bool :=
  match s.(s_objs) !! u with Some o => o.(u_holds) =? 0 | None => false end.
Definition firstUnheldLocked (s : scheduler) : option nat := List.find (unheld s) s.(s_queue).

Definition forgetLocked (u : nat) (s : scheduler) : scheduler :=
  match s.(s_objs) !! u with
  | Some o =>
      if bool_decide (o.(u_state) = userIdle) && (o.(u_holds) =? 0) && (o.(u_waiters) =? 0) &&
         (o.(u_backlog) <=? 0) && bool_decide (s.(s_users) !! o.(u_key) = Some u)
      then s_with_users (delete o.(u_key) s.(s_users)) s else s
  | None => s
  end.

(** A change: the channel is replaced and the old one closed. *)
Definition unlockChanged (s : scheduler) : scheduler := s_with_changed (S s.(s_changed)) s.

(** ** Operations *)

Definition short (key : string) : string := String.substring 0 8 key.

(** The new scheduler, whether the notification was accepted, and the line it logs. *)
Definition Notify (now : Time) (key : string) (addedChars : Z) (s : scheduler) : scheduler * bool * option string :=
  if match user_of key s with Some (_, o) => bool_decide (o.(u_state) = userIdle) | None => true end &&
     (s.(s_maxUsers) <=? activeLocked s)
  then
    let logFull := (s.(s_fullLogged) =? zero_time) || (queueFullEvery <=? time_Sub now s.(s_fullLogged)) in
    (if logFull then s_with_fullLogged now s else s, false,
     if logFull then Some ("consolidation queue full: " +:+ pretty s.(s_maxUsers) +:+
       " users have work; dropped a notification (user " +:+ short key +:+ ")") else None)
  else
    let '(u, s) := match s.(s_users) !! key with Some u => (u, s) | None => add_user key s end in
    let s := update u (λ o, u_with_backlog (add64 o.(u_backlog) addedChars) o) s in
    let s :=
      match s.(s_objs) !! u with
      | Some o =>
          match o.(u_state) with
          | userIdle => enqueueLocked u (update u (u_with_since now) s)
          | userRunning =>
              let s := update u (λ o, u_with_added (add64 o.(u_added) addedChars) o) s in
              if o.(u_dirty) then s else update u (λ o, u_with_dirtySince now (u_with_dirty true o)) s
          | _ => s
          end
      | None => s
      end in
    (unlockChanged s, true, None).

(** What a turn of [WaitBacklog] decides: return, or wait on a channel. *)
Inductive wait_turn := WaitReturns | WaitOn (c : nat).

(** The deferred end of [WaitBacklog]. *)
Definition wait_end (u : nat) (s : scheduler) : scheduler :=
  forgetLocked u (update u (λ o, u_with_waiters (o.(u_waiters) - 1) o) s).

(** One turn of its loop, with the return when the loop ends. *)
Definition wait_check (now : Time) (u : nat) (limit : Z) (s : scheduler) : scheduler * wait_turn :=
  match s.(s_objs) !! u with
  | Some o =>
      if (limit <? o.(u_backlog)) && negb (bool_decide (o.(u_state) = userBackingOff)) &&
         negb s.(s_stopped) && negb s.(s_draining)
      then
        if bool_decide (o.(u_state) = userIdle) then
          if s.(s_maxUsers) <=? activeLocked s then (wait_end u s, WaitReturns) else
          let s := unlockChanged (enqueueLocked u (update u (u_with_since now) s)) in
          (s, WaitOn s.(s_changed))
        else (s, WaitOn s.(s_changed))
      else (wait_end u s, WaitReturns)
  | None => (s, WaitReturns)
  end.

(** The first section of [WaitBacklog], up to its first wait or its return. *)
Definition wait_begin (now : Time) (key : string) (limit : Z) (s : scheduler) : scheduler * option (nat * nat) :=
  match s.(s_users) !! key with
  | None => (s, None)
  | Some u =>
      match wait_check now u limit (update u (λ o, u_with_waiters (o.(u_waiters) + 1) o) s) with
      | (s, WaitReturns) => (s, None)
      | (s, WaitOn c) => (s, Some (u, c))
      end
  end.

Definition Hold (key : string) (s : scheduler) : nat * scheduler :=
  let '(u, s) := match s.(s_users) !! key with Some u => (u, s) | None => add_user key s end in
  (u, update u (λ o, u_with_holds (o.(u_holds) + 1) o) s).

(** What [Hold] returns, run once. *)
Definition hold_release (u : nat) (s : scheduler) : scheduler :=
  unlockChanged (forgetLocked u (update u (λ o, u_with_holds (o.(u_holds) - 1) o) s)).

Definition yielding (key : string) (s : scheduler) : bool :=
  s.(s_draining) || match user_of key s with Some (_, o) => 0 <? o.(u_holds) | None => false end.

Definition Drain (s : scheduler) : scheduler := unlockChanged (s_with_draining true s).

Definition runningJobs (s : scheduler) : Z := s.(s_running).

(** [Run] up to its workers, and after they have exited. *)
Definition run_begin (s : scheduler) : result scheduler :=
  if s.(s_started) then Err (Errorf "the consolidation scheduler is already running")
  else Ok (s_with_stopped false (s_with_started true s)).
Definition run_end (s : scheduler) : scheduler := unlockChanged (s_with_stopped true (s_with_started false s)).

Record SchedulerStatus := {
  st_Queued : Z; st_Running : Z; st_BackingOff : Z; st_Held : Z; st_OldestQueued : Z; st_MaxBacklog : Z;
}.

Definition Status (now : Time) (s : scheduler) : SchedulerStatus :=
  map_fold (λ _ u status,
    match s.(s_objs) !! u with
    | Some o =>
        {| st_Queued := status.(st_Queued); st_Running := status.(st_Running);
           st_BackingOff := status.(st_BackingOff);
           st_Held := if 0 <? o.(u_holds) then status.(st_Held) + 1 else status.(st_Held);
           st_OldestQueued :=
             if negb (bool_decide (o.(u_state) = userIdle)) && negb (o.(u_since) =? zero_time)
             then Z.max status.(st_OldestQueued) (time_Sub now o.(u_since)) else status.(st_OldestQueued);
           st_MaxBacklog := Z.max status.(st_MaxBacklog) o.(u_backlog) |}
    | None => status
    end)
    {| st_Queued := Z.of_nat (length s.(s_queue)); st_Running := s.(s_running);
       st_BackingOff := Z.of_nat (length s.(s_retries)); st_Held := 0; st_OldestQueued := 0; st_MaxBacklog := 0 |}
    s.(s_users).

Definition StateOf (key : string) (s : scheduler) : string * Z :=
  match user_of key s with
  | None => ("", 0)
  | Some (_, o) =>
      (match o.(u_state) with
       | userQueued => "queued"
       | userRunning => "running"
       | userBackingOff => "backing-off"
       | userIdle => if 0 <? o.(u_holds) then "held" else ""
       end, o.(u_failures))
  end.

Definition Backlog (key : string) (s : scheduler) : Z * bool :=
  match user_of key s with
  | Some (_, o) => if o.(u_measured) then (o.(u_backlog), true) else (0, false)
  | None => (0, false)
  end.

Definition Measured (key : string) (chars : Z) (s : scheduler) : scheduler :=
  match user_of key s with
  | None => s
  | Some (u, o) =>
      if o.(u_measured) || bool_decide (o.(u_state) = userRunning) then s else
      unlockChanged (s_with_measured ({[key]} ∪ s.(s_measured))
        (update u (λ o, u_with_measured true (u_with_backlog chars o)) s))
  end.

Definition HasMeasured (key : string) (s : scheduler) : bool := bool_decide (key ∈ s.(s_measured)).

Definition signal (s : scheduler) : scheduler := unlockChanged s.

(** ** Workers *)

(** What the second section of a turn of [next] decides. *)
Inductive next_turn := NextExits | NextRuns (u : nat) | NextSleeps (wait : Z).

(** A user starts to run. *)
Definition start_user (u : nat) (s : scheduler) : scheduler :=
  let s := s_with_queue (filter (λ x, x ≠ u) s.(s_queue)) s in
  let s := update u (λ o, u_with_dirtySince zero_time (u_with_dirty false (u_with_added 0 (u_with_state userRunning o)))) s in
  s_with_running (s.(s_running) + 1) s.

Definition next_section (now : Time) (s : scheduler) : scheduler * next_turn :=
  if s.(s_draining) then (s, NextExits) else
  let s := retryDueLocked now s in
  match firstUnheldLocked s with
  | Some u => (start_user u s, NextRuns u)
  | None =>
      (s, NextSleeps match s.(s_retries) with
                     | u :: _ => time_Sub (retry_key s.(s_objs) u).1 now
                     | [] => 0
                     end)
  end.

(** [finish]: [now], [jitter] and whether the context had ended are read before the
    mutex is taken. *)
Definition finish (now : Time) (jitter : spec_float) (cut : bool) (u : nat) (backlog : Z) (err : option error)
    (s : scheduler) : scheduler :=
  match s.(s_objs) !! u with
  | None => s
  | Some before =>
      let s := s_with_running (s.(s_running) - 1) s in
      let s :=
        if 0 <=? backlog
        then s_with_measured ({[before.(u_key)]} ∪ s.(s_measured))
               (update u (λ o, u_with_measured true (u_with_backlog (add64 backlog o.(u_added)) o)) s)
        else s in
      let s := update u (u_with_added 0) s in
      let s :=
        if cut then enqueueLocked u s else
        match err with
        | None =>
            let s := update u (u_with_failures 0) s in
            if before.(u_dirty)
            then enqueueLocked u (update u (λ o, u_with_since o.(u_dirtySince) o) s)
            else update u (λ o, u_with_since zero_time (u_with_state userIdle o)) s
        | Some err =>
            let failures := before.(u_failures) + 1 in
            let delay := if errors_is err ErrBackgroundReserve then reservePause else retryDelay failures jitter in
            let seq := (s.(s_retrySeq) + 1) mod 2 ^ 64 in
            let s := s_with_retrySeq seq s in
            let s := update u (λ o, u_with_seq seq (u_with_retryAt (now + delay)
                       (u_with_state userBackingOff (u_with_failures failures o)))) s in
            s_with_retries (heap_push (retry_less s.(s_objs)) s.(s_retries) u) s
        end in
      let s := update u (λ o, u_with_dirtySince zero_time (u_with_dirty false o)) s in
      unlockChanged (forgetLocked u s)
  end.

(** ** Evaluation *)

Example first_failure_waits_24s : retryDelay 1 (S754_zero false) = 24 * second.
Proof. vm_compute. reflexivity. Qed.
Example half_jitter_is_the_base : retryDelay 3 (S754_finite false 4503599627370496 (-53)) = 120 * second.
Proof. vm_compute. reflexivity. Qed.
Example many_failures_are_capped : retryDelay 40 (S754_zero false) = 480 * second.
Proof. vm_compute. reflexivity. Qed.
