(* ===== verification/SchedulerProof.v ===== *)
(** The scheduler of background consolidation at work (internal/aml/scheduler.go): its
    workers, the Searches that hold users, the Adds that wait and the drains, as
    goroutines that interleave between the sections under the mutex, and what holds
    of every state they reach. *)

From Stdlib Require Import Lia SpecFloat.
From S2P Require Import Prelude Time Heap Scheduler.

#[local] Open Scope Z_scope.

(** ** Goroutines

    [W*]: a worker in [work], at the top of [next], with the channel taken, with the
    clock read, about to start its timer, asleep until the channel closes or the
    timer fires (its deadline, and how long after reading the clock it was started),
    running a job, and in [finish] before the mutex.  [AWait]: an Add in
    [WaitBacklog].  [AHold]: a Search between [Hold] and its release.  [DWait]: a
    stop in [WaitDrained]. *)
Inductive routine :=
| WTop
| WTaken (c : nat)
| WRead (c : nat) (now : Time)
| WArming (c : nat) (now : Time) (wait : Z)
| WSleep (c : nat) (timer : option (Time * Z))
| WJob (u : nat)
| WEnded (u : nat) (backlog : Z) (err : option error) (now : Time) (jitter : spec_float) (cut : bool)
| AWait (u : nat) (limit : Z) (now : Time) (c : nat)
| AHold (u : nat)
| DWait (c : nat).

Definition worker (t : routine) : bool := match t with AWait _ _ _ _ | AHold _ | DWait _ => false | _ => true end.
Definition job (t : routine) : option nat := match t with WJob u | WEnded u _ _ _ _ _ => Some u | _ => None end.
Definition holder (t : routine) : option nat := match t with AHold u => Some u | _ => None end.
Definition waiter (t : routine) : option nat := match t with AWait u _ _ _ => Some u | _ => None end.
(** The channel it has taken or waits on. *)
Definition channel (t : routine) : option nat :=
  match t with
  | WTaken c | WRead c _ | WArming c _ _ | WSleep c _ | AWait _ _ _ c | DWait c => Some c
  | _ => None
  end.

(** The scheduler, the clock, whether the context of [Run] has ended; and, to say what
    the scheduler owes, per user: the notifications accepted so far, those accepted
    when its last job began, and those that had been when its last successful job
    began. *)
Record world := {
  w_s : scheduler; w_clock : Time; w_cut : bool;
  w_accepted : string → nat; w_begun : string → nat; w_covered : string → nat;
}.

Definition with_s (s : scheduler) (w : world) : world :=
  {| w_s := s; w_clock := w.(w_clock); w_cut := w.(w_cut);
     w_accepted := w.(w_accepted); w_begun := w.(w_begun); w_covered := w.(w_covered) |}.

Definition set_at (k : string) (n : nat) (f : string → nat) : string → nat := λ x, if decide (x = k) then n else f x.

Definition key_of (u : nat) (s : scheduler) : string := match s.(s_objs) !! u with Some o => o.(u_key) | None => "" end.

Inductive routine_step : routine → world → option routine → world → Prop :=
| rs_exit w : w.(w_cut) = true → routine_step WTop w None w
| rs_take w : w.(w_cut) = false → routine_step WTop w (Some (WTaken w.(w_s).(s_changed))) w
| rs_read c w : routine_step (WTaken c) w (Some (WRead c w.(w_clock))) w
| rs_next_exit c now w s' : next_section now w.(w_s) = (s', NextExits) →
    routine_step (WRead c now) w None (with_s s' w)
| rs_next_run c now w s' u : next_section now w.(w_s) = (s', NextRuns u) →
    routine_step (WRead c now) w (Some (WJob u))
      {| w_s := s'; w_clock := w.(w_clock); w_cut := w.(w_cut); w_accepted := w.(w_accepted);
         w_begun := set_at (key_of u s') (w.(w_accepted) (key_of u s')) w.(w_begun); w_covered := w.(w_covered) |}
| rs_next_sleep c now w s' wait : next_section now w.(w_s) = (s', NextSleeps wait) →
    routine_step (WRead c now) w (Some (WArming c now wait)) (with_s s' w)
| rs_arm c now wait w :
    routine_step (WArming c now wait) w
      (Some (WSleep c (if 0 <? wait then Some (w.(w_clock) + wait, w.(w_clock) - now) else None))) w
| rs_wake c timer w :
    w.(w_cut) = true ∨ c ≠ w.(w_s).(s_changed) ∨ (∃ d lag, timer = Some (d, lag) ∧ d <= w.(w_clock)) →
    routine_step (WSleep c timer) w (Some WTop) w
| rs_job u backlog err jitter w :
    routine_step (WJob u) w (Some (WEnded u backlog err w.(w_clock) jitter w.(w_cut))) w
| rs_finish u backlog err now jitter cut w :
    routine_step (WEnded u backlog err now jitter cut) w (Some WTop)
      {| w_s := finish now jitter cut u backlog err w.(w_s); w_clock := w.(w_clock); w_cut := w.(w_cut);
         w_accepted := w.(w_accepted); w_begun := w.(w_begun);
         w_covered := if cut then w.(w_covered) else
           match err with
           | None => set_at (key_of u w.(w_s)) (w.(w_begun) (key_of u w.(w_s))) w.(w_covered)
           | Some _ => w.(w_covered)
           end |}
| rs_wait_ends u limit now c w :  (* the Add's context ends *)
    routine_step (AWait u limit now c) w None (with_s (wait_end u w.(w_s)) w)
| rs_wait_returns u limit now c w s' : c ≠ w.(w_s).(s_changed) →
    wait_check now u limit w.(w_s) = (s', WaitReturns) →
    routine_step (AWait u limit now c) w None (with_s s' w)
| rs_wait_again u limit now c w s' c' : c ≠ w.(w_s).(s_changed) →
    wait_check now u limit w.(w_s) = (s', WaitOn c') →
    routine_step (AWait u limit now c) w (Some (AWait u limit now c')) (with_s s' w)
| rs_release u w : routine_step (AHold u) w None (with_s (hold_release u w.(w_s)) w)
| rs_drain_ends c w : routine_step (DWait c) w None w
| rs_drain_again c w : c ≠ w.(w_s).(s_changed) → runningJobs w.(w_s) ≠ 0 →
    routine_step (DWait c) w (Some (DWait w.(w_s).(s_changed))) w.

(** Requests of the server, the clock and the start and end of [Run]. *)
Inductive server_step : world → list routine → world → list routine → Prop :=
| sv_tick w rs d : 0 <= d →
    server_step w rs {| w_s := w.(w_s); w_clock := w.(w_clock) + d; w_cut := w.(w_cut);
      w_accepted := w.(w_accepted); w_begun := w.(w_begun); w_covered := w.(w_covered) |} rs
| sv_cancel w rs :
    server_step w rs {| w_s := w.(w_s); w_clock := w.(w_clock); w_cut := true;
      w_accepted := w.(w_accepted); w_begun := w.(w_begun); w_covered := w.(w_covered) |} rs
| sv_notify w rs now key chars s' ok line : now <= w.(w_clock) → Notify now key chars w.(w_s) = (s', ok, line) →
    server_step w rs {| w_s := s'; w_clock := w.(w_clock); w_cut := w.(w_cut);
      w_accepted := if ok : bool then set_at key (S (w.(w_accepted) key)) w.(w_accepted) else w.(w_accepted);
      w_begun := w.(w_begun); w_covered := w.(w_covered) |} rs
| sv_wait_returns w rs now key limit s' : wait_begin now key limit w.(w_s) = (s', None) →
    server_step w rs (with_s s' w) rs
| sv_wait w rs now key limit s' u c : wait_begin now key limit w.(w_s) = (s', Some (u, c)) →
    server_step w rs (with_s s' w) (AWait u limit now c :: rs)
| sv_hold w rs key u s' : Hold key w.(w_s) = (u, s') → server_step w rs (with_s s' w) (AHold u :: rs)
| sv_drain w rs : server_step w rs (with_s (Drain w.(w_s)) w) rs
| sv_wait_drained w rs : runningJobs w.(w_s) ≠ 0 → w.(w_s).(s_draining) = true →
    server_step w rs w (DWait w.(w_s).(s_changed) :: rs)
| sv_measured w rs key chars : server_step w rs (with_s (Measured key chars w.(w_s)) w) rs
| sv_signal w rs : server_step w rs (with_s (signal w.(w_s)) w) rs
| sv_run w rs s' : run_begin w.(w_s) = Ok s' →
    server_step w rs {| w_s := s'; w_clock := w.(w_clock); w_cut := false;
      w_accepted := w.(w_accepted); w_begun := w.(w_begun); w_covered := w.(w_covered) |}
      (replicate (Z.to_nat s'.(s_workers)) WTop ++ rs)
| sv_run_ends w rs : w.(w_s).(s_started) = true → Forall (λ t, worker t = false) rs →
    server_step w rs (with_s (run_end w.(w_s)) w) rs.

(** The whole program: one step of the server or of one goroutine. *)
Inductive program_step : world * list routine → world * list routine → Prop :=
| ps_server w rs w' rs' : server_step w rs w' rs' → program_step (w, rs) (w', rs')
| ps_routine w rs t rest next w' : rs ≡ₚ t :: rest → routine_step t w next w' →
    program_step (w, rs) (w', option_list next ++ rest).

Definition program_start (workers maxUsers : Z) (now : Time) : world * list routine :=
  ({| w_s := newScheduler workers maxUsers; w_clock := now; w_cut := false;
      w_accepted := λ _, O; w_begun := λ _, O; w_covered := λ _, O |}, []).

(** ** Where each user is

    [limbo]: the user that the section under way has taken out of one place and not
    yet put into another. *)
Definition jobs (rs : list routine) : Z := Z.of_nat (length (filter (λ t, is_Some (job t)) rs)).

Record user_ok (s : scheduler) (rs : list routine) (limbo : option nat) (u : nat) (o : schedUser) : Prop := {
  b_live : (o.(u_state) ≠ userIdle ∨ o.(u_holds) ≠ 0 ∨ o.(u_waiters) ≠ 0 ∨ limbo = Some u) →
    s.(s_users) !! o.(u_key) = Some u;
  b_holds : o.(u_holds) = count_of holder u rs;
  b_waiters : o.(u_waiters) = count_of waiter u rs;
  b_queue : limbo ≠ Some u → (o.(u_state) = userQueued ↔ u ∈ s.(s_queue));
  b_retry : limbo ≠ Some u → (o.(u_state) = userBackingOff ↔ u ∈ s.(s_retries));
  b_job : limbo ≠ Some u → (o.(u_state) = userRunning ↔ 0 < count_of job u rs);
  b_out : limbo = Some u → (u ∉ s.(s_queue)) ∧ (u ∉ s.(s_retries)) ∧ count_of job u rs = 0;
  b_fresh : (u < s.(s_fresh))%nat;
}.

Record core (s : scheduler) (rs : list routine) (limbo : option nat) : Prop := {
  c_user u o : s.(s_objs) !! u = Some o → user_ok s rs limbo u o;
  c_map k u : s.(s_users) !! k = Some u → ∃ o, s.(s_objs) !! u = Some o ∧ o.(u_key) = k;
  c_queue : NoDup s.(s_queue);
  c_retries : NoDup s.(s_retries);
  c_queue_known u : u ∈ s.(s_queue) → is_Some (s.(s_objs) !! u);
  c_retries_known u : u ∈ s.(s_retries) → is_Some (s.(s_objs) !! u);
  c_known t u : t ∈ rs → (job t = Some u ∨ holder t = Some u ∨ waiter t = Some u) → is_Some (s.(s_objs) !! u);
  c_limbo u : limbo = Some u → is_Some (s.(s_objs) !! u);
  c_jobs u : count_of job u rs <= 1;
  c_running : s.(s_running) = jobs rs;
  c_heap : heap_ok (retry_less s.(s_objs)) s.(s_retries);
  c_bound : activeLocked s + (match limbo with Some _ => 1 | None => 0 end) <= Z.max 0 s.(s_maxUsers);
}.

(** ** Moves that keep it *)

Ltac user_of C Ho := destruct (c_user _ _ _ C _ _ Ho).

#[export] Instance retry_less_order objs : WeakOrder (retry_less objs).
Proof.
  split; unfold retry_less; intros *;
    [destruct (retry_key objs a) as [ta sa], (retry_key objs b) as [tb sb]
    |destruct (retry_key objs a) as [ta sa], (retry_key objs b) as [tb sb], (retry_key objs c) as [tc sc]];
    repeat case_match; rewrite ?negb_true_iff, ?negb_false_iff, ?Z.eqb_eq, ?Z.eqb_neq, ?Z.ltb_lt, ?Z.ltb_ge in *; lia.
Qed.

Lemma retry_less_ext objs objs' a b : retry_key objs a = retry_key objs' a → retry_key objs b = retry_key objs' b →
  retry_less objs a b = retry_less objs' a b.
Proof. unfold retry_less. by intros -> ->. Qed.

(** Fields of a user change; of a user in its place, not its place. *)
Definition keeps_identity (f : schedUser → schedUser) : Prop := ∀ o,
  (f o).(u_key) = o.(u_key) ∧ (f o).(u_holds) = o.(u_holds) ∧ (f o).(u_waiters) = o.(u_waiters).
Definition keeps_place (f : schedUser → schedUser) : Prop := ∀ o,
  (f o).(u_state) = o.(u_state) ∧ (f o).(u_retryAt) = o.(u_retryAt) ∧ (f o).(u_seq) = o.(u_seq).

Lemma core_update u f s rs limbo : keeps_identity f → (limbo = Some u ∨ keeps_place f) →
  core s rs limbo → core (update u f s) rs limbo.
Proof.
  intros Hid Hpl C.
  assert (∀ x o', alter f u s.(s_objs) !! x = Some o' → ∃ o, s.(s_objs) !! x = Some o ∧ (o' = o ∨ u = x ∧ o' = f o)) as Hold.
  { intros x o'. rewrite lookup_alter. case_decide; [subst x|by eauto].
    destruct (s.(s_objs) !! u) as [o|]; [|done]. intros [= <-]. eauto. }
  assert (∀ x, is_Some (s.(s_objs) !! x) → is_Some (alter f u s.(s_objs) !! x)) as Hsome.
  { intros x [o Ho]. rewrite lookup_alter. case_decide; [subst x|]; rewrite Ho; cbn; eauto. }
  assert (∀ x, x ∈ s.(s_retries) → retry_key s.(s_objs) x = retry_key (alter f u s.(s_objs)) x) as Hkey.
  { intros x Hx. unfold retry_key. rewrite lookup_alter. case_decide; [subst x|done].
    destruct (s.(s_objs) !! u) as [o|] eqn:Ho; [|done]. cbn. destruct Hpl as [->|Hpl].
    - user_of C Ho. by destruct (b_out0 eq_refl) as (_ & ? & _).
    - by destruct (Hpl o) as (_ & -> & ->). }
  split; cbn [update s_with_objs s_objs s_users s_queue s_retries s_running s_maxUsers]; try apply C.
  - intros x o' (o & Ho & [->|[-> ->]])%Hold; user_of C Ho; [by split|]. destruct (Hid o) as (K & Hh & Hw).
    split; cbn; rewrite ?K, ?Hh, ?Hw; try done; (destruct Hpl as [->|Hpl]; [|destruct (Hpl o) as (-> & _)]); try done.
    intros _. apply b_live0. auto.
  - intros k x Hk. destruct (c_map _ _ _ C _ _ Hk) as (o & Ho & Hk').
    rewrite lookup_alter. case_decide; [subst x|]; rewrite Ho; [|by exists o]. cbn. eexists. split; [done|].
    destruct (Hid o) as (-> & _). done.
  - intros x Hx. apply Hsome, (c_queue_known _ _ _ C), Hx.
  - intros x Hx. apply Hsome, (c_retries_known _ _ _ C), Hx.
  - intros t x Ht Hx. by eapply Hsome, (c_known _ _ _ C).
  - intros x Hx. by eapply Hsome, (c_limbo _ _ _ C).
  - eapply heap_ok_ext; [|apply C]. intros a b Ha Hb. apply retry_less_ext; by apply Hkey.
Qed.

(** A user takes its place at the back of the queue. *)
Lemma core_enqueue u s rs : core s rs (Some u) → core (enqueueLocked u s) rs None.
Proof.
  intros C. apply (core_update u (u_with_state userQueued)) in C; [|done|by left].
  unfold enqueueLocked. set (s' := update u _ s) in *.
  destruct (c_limbo _ _ _ C u eq_refl) as [o Ho].
  assert (o.(u_state) = userQueued) as Hst.
  { cbn in Ho. rewrite lookup_alter_eq in Ho. destruct (s_objs s !! u); [|done]. by injection Ho as <-. }
  pose proof (c_user _ _ _ C _ _ Ho) as Hu. destruct (b_out _ _ _ _ _ Hu eq_refl) as (Hq & Hr & Hj).
  change (s_queue s) with (s_queue s'). clearbody s'.
  split; cbn [s_with_queue s_objs s_users s_queue s_retries s_running s_maxUsers]; try apply C.
  - intros x p Hp. destruct (decide (x = u)) as [->|Hne].
    + rewrite Ho in Hp. injection Hp as <-. destruct Hu. split; cbn; rewrite ?Hst; try done.
      * intros _. apply b_live0. by left; rewrite Hst.
      * intros _. split; [|done]. intros _. apply elem_of_app. right. by left.
      * intros _. by rewrite Hj.
    + user_of C Hp. split; cbn; try done.
      * intros ?. apply b_live0. naive_solver.
      * intros _. rewrite b_queue0 by congruence. rewrite elem_of_app, list_elem_of_singleton. naive_solver.
      * intros _. apply b_retry0. congruence.
      * intros _. apply b_job0. congruence.
  - apply NoDup_app. split_and!; [apply C| |apply NoDup_singleton]. by intros x Hx ->%list_elem_of_singleton.
  - intros x [Hx| ->%list_elem_of_singleton]%elem_of_app; [by apply (c_queue_known _ _ _ C)|by exists o].
  - done.
  - pose proof (c_bound _ _ _ C) as Hb. cbv zeta beta iota in *. unfold activeLocked in *. cbn. rewrite length_app. cbn. lia.
Qed.

(** The fields the invariant looks at. *)
Lemma core_same s s' rs limbo :
  s'.(s_objs) = s.(s_objs) → s'.(s_fresh) = s.(s_fresh) → s'.(s_users) = s.(s_users) → s'.(s_queue) = s.(s_queue) →
  s'.(s_retries) = s.(s_retries) → s'.(s_running) = s.(s_running) → s'.(s_maxUsers) = s.(s_maxUsers) →
  core s rs limbo → core s' rs limbo.
Proof.
  intros E1 E2 E3 E4 E5 E6 E7 C. split; rewrite ?E1, ?E3, ?E4, ?E5, ?E6; try apply C.
  - intros u o Ho. user_of C Ho. split; rewrite ?E2, ?E3, ?E4, ?E5; done.
  - pose proof (c_bound _ _ _ C). unfold activeLocked in *. by rewrite E4, E5, E6, E7.
Qed.

(** A user leaves the queue. *)
Lemma core_unqueue u s rs : u ∈ s.(s_queue) → core s rs None →
  core (s_with_queue (filter (λ x, x ≠ u) s.(s_queue)) s) rs (Some u).
Proof.
  intros Hin C. destruct (c_queue_known _ _ _ C _ Hin) as [o Ho].
  pose proof (c_user _ _ _ C _ _ Ho) as Hu. pose proof (proj2 (b_queue _ _ _ _ _ Hu ltac:(done)) Hin) as Hst.
  assert (s.(s_queue) ≡ₚ u :: filter (λ x, x ≠ u) s.(s_queue)) as Hp.
  { apply NoDup_Permutation; [apply C| |].
    - constructor; [rewrite list_elem_of_filter; naive_solver|apply NoDup_filter, C].
    - intros x. rewrite elem_of_cons, list_elem_of_filter. destruct (decide (x = u)); naive_solver. }
  split; cbn [s_with_queue s_objs s_users s_queue s_retries s_running s_maxUsers]; try apply C.
  - intros x p Hx. destruct (decide (x = u)) as [->|Hne].
    + rewrite Ho in Hx. injection Hx as <-. destruct Hu. split; cbn; try done.
      * intros _. apply b_live0. left. by rewrite Hst.
      * intros _. split_and!; [rewrite list_elem_of_filter; naive_solver| |].
        -- rewrite <- b_retry0 by done. congruence.
        -- pose proof (count_of_nonneg job u rs). destruct (decide (count_of job u rs = 0)); [done|].
           rewrite (proj2 (b_job0 ltac:(done))) in Hst by lia. done.
    + user_of C Hx. split; cbn; try done; try congruence.
      * intros ?. apply b_live0. naive_solver.
      * intros _. rewrite b_queue0 by done. rewrite list_elem_of_filter. naive_solver.
      * intros _. by apply b_retry0.
      * intros _. by apply b_job0.
  - apply NoDup_filter, C.
  - intros x [_ ?]%list_elem_of_filter. by apply (c_queue_known _ _ _ C).
  - intros x [= <-]. by exists o.
  - pose proof (c_bound _ _ _ C) as Hb. unfold activeLocked in *. cbn. rewrite (Permutation_length Hp) in Hb. cbn in Hb. lia.
Qed.

(** The first of the heap leaves it. *)
Lemma core_pop s rs u rest : heap_pop (retry_less s.(s_objs)) s.(s_retries) = Some (u, rest) → core s rs None →
  core (s_with_retries rest s) rs (Some u) ∧ s.(s_retries) ≡ₚ u :: rest ∧ (∃ r, s.(s_retries) = u :: r).
Proof.
  intros Hpop C. destruct s.(s_retries) as [|x r] eqn:Er; [done|].
  destruct (heap_pop_ok (retry_less s.(s_objs)) s.(s_retries) x r) as (rest' & Hpop' & Hheap & Hperm & _); [apply C|done|].
  rewrite Er in Hpop'. rewrite Hpop in Hpop'. injection Hpop' as <- <-.
  assert (s.(s_retries) ≡ₚ u :: rest) as Hp by (by rewrite Er, Hperm).
  assert (NoDup (u :: rest)) as [Hnin Hnd]%NoDup_cons by (rewrite <- Hp; apply C).
  assert (u ∈ s.(s_retries)) as Hin by (rewrite Hp; left).
  assert (∀ x, x ∈ s.(s_retries) ↔ x = u ∨ x ∈ rest) as Hmem by (intros x; by rewrite Hp, elem_of_cons).
  destruct (c_retries_known _ _ _ C _ Hin) as [o Ho]. pose proof (c_user _ _ _ C _ _ Ho) as Hu.
  pose proof (proj2 (b_retry _ _ _ _ _ Hu ltac:(done)) Hin) as Hst.
  split; [|split; [by rewrite <- Er|eauto]]. split; cbn [s_with_retries s_objs s_users s_queue s_retries s_running s_maxUsers]; try apply C; try done.
  - intros y p Hy. destruct (decide (y = u)) as [->|Hne].
    + rewrite Ho in Hy. injection Hy as <-. destruct Hu. split; cbn; try done.
      * intros _. apply b_live0. left. by rewrite Hst.
      * intros _. split_and!; [rewrite <- b_queue0 by done; congruence|done|].
        pose proof (count_of_nonneg job u rs). destruct (decide (count_of job u rs = 0)); [done|].
        rewrite (proj2 (b_job0 ltac:(done))) in Hst by lia. done.
    + user_of C Hy. split; cbn; try done; try congruence.
      * intros ?. apply b_live0. naive_solver.
      * intros _. by apply b_queue0.
      * intros _. rewrite b_retry0 by done. rewrite Hmem. naive_solver.
      * intros _. by apply b_job0.
  - intros y Hy. apply (c_retries_known _ _ _ C), Hmem. by right.
  - intros y [= <-]. by exists o.
  - pose proof (c_bound _ _ _ C) as Hb. unfold activeLocked in *. cbn. rewrite (Permutation_length Hp) in Hb. cbn in Hb. lia.
Qed.

(** An idle user that is known, while there is room. *)
Lemma core_leave_idle u o s rs : s.(s_objs) !! u = Some o → o.(u_state) = userIdle →
  s.(s_users) !! o.(u_key) = Some u → activeLocked s < s.(s_maxUsers) → core s rs None → core s rs (Some u).
Proof.
  intros Ho Hst Hk Hroom C. split; try apply C.
  - intros x p Hx. destruct (decide (x = u)) as [->|Hne].
    + rewrite Ho in Hx. injection Hx as <-. user_of C Ho. split; try done. intros _.
      split_and!; [rewrite <- b_queue0 by done; congruence|rewrite <- b_retry0 by done; congruence|].
      pose proof (count_of_nonneg job u rs). destruct (decide (count_of job u rs = 0)); [done|].
      rewrite (proj2 (b_job0 ltac:(done))) in Hst by lia. done.
    + user_of C Hx. split; try done; try congruence;
        [intros ?; apply b_live0; naive_solver|intros _; by apply b_queue0|intros _; by apply b_retry0|intros _; by apply b_job0].
  - intros x [= <-]. by exists o.
  - lia.
Qed.

(** A user becomes idle. *)
Lemma core_settle_idle u o s rs : s.(s_objs) !! u = Some o → o.(u_state) = userIdle →
  core s rs (Some u) → core s rs None.
Proof.
  intros Ho Hst C. split; try apply C; try done.
  - intros x p Hx. destruct (decide (x = u)) as [->|Hne].
    + rewrite Ho in Hx. injection Hx as <-. user_of C Ho. destruct (b_out0 eq_refl) as (Hq & Hr & Hj). split; try done.
      * intros ?. apply b_live0. naive_solver.
      * rewrite Hst. done.
      * rewrite Hst. done.
      * rewrite Hst, Hj. done.
    + user_of C Hx. split; try done; intros ?; [apply b_live0; naive_solver|apply b_queue0|apply b_retry0|apply b_job0]; congruence.
  - pose proof (c_bound _ _ _ C). cbv beta iota in *. lia.
Qed.

(** A user backs off. *)
Lemma core_push u o s rs : s.(s_objs) !! u = Some o → o.(u_state) = userBackingOff → core s rs (Some u) →
  core (s_with_retries (heap_push (retry_less s.(s_objs)) s.(s_retries) u) s) rs None.
Proof.
  intros Ho Hst C. pose proof (heap_push_Permutation (retry_less s.(s_objs)) s.(s_retries) u) as Hp.
  pose proof (c_user _ _ _ C _ _ Ho) as Hu. destruct (b_out _ _ _ _ _ Hu eq_refl) as (Hq & Hr & Hj).
  split; cbn [s_with_retries s_objs s_users s_queue s_retries s_running s_maxUsers]; try apply C; try done.
  - intros x p Hx. destruct (decide (x = u)) as [->|Hne].
    + rewrite Ho in Hx. injection Hx as <-. destruct Hu. split; cbn [s_with_retries s_objs s_users s_queue s_retries]; try done.
      * intros ?. apply b_live0. auto.
      * intros _. rewrite Hst. done.
      * intros _. rewrite Hp, elem_of_cons. naive_solver.
      * intros _. rewrite Hst, Hj. done.
    + user_of C Hx. split; cbn [s_with_retries s_objs s_users s_queue s_retries]; try done.
      * intros ?. apply b_live0. naive_solver.
      * intros _. apply b_queue0. congruence.
      * intros _. rewrite Hp, elem_of_cons, b_retry0 by congruence. naive_solver.
      * intros _. apply b_job0. congruence.
  - rewrite Hp. constructor; [done|apply C].
  - intros x. rewrite Hp. intros [->|Hx]%elem_of_cons; [by exists o|]. by apply (c_retries_known _ _ _ C).
  - apply heap_push_ok; [apply _|apply C].
  - pose proof (c_bound _ _ _ C) as Hb. unfold activeLocked in *. cbn [s_with_retries s_queue s_running s_retries].
    rewrite (Permutation_length Hp). cbn [length]. lia.
Qed.

(** Goroutines come, go and change without changing what they refer to. *)
Definition same_refs (rs rs' : list routine) : Prop :=
  (∀ u, count_of job u rs' = count_of job u rs) ∧ (∀ u, count_of holder u rs' = count_of holder u rs) ∧
  (∀ u, count_of waiter u rs' = count_of waiter u rs) ∧ jobs rs' = jobs rs.

Lemma core_routines s rs rs' limbo : same_refs rs rs' → core s rs limbo → core s rs' limbo.
Proof.
  intros (Ej & Eh & Ew & Er) C. split; try apply C.
  - intros u o Ho. user_of C Ho. split; rewrite ?Ej, ?Eh, ?Ew; done.
  - intros t u Ht Hu.
    assert (∀ f, (∀ u, count_of f u rs' = count_of f u rs) → f t = Some u → ∃ t', t' ∈ rs ∧ f t' = Some u) as Hf.
    { intros f Ef Hft. apply count_of_pos_inv. rewrite <- Ef. by eapply count_of_pos. }
    destruct Hu as [Hu|[Hu|Hu]]; apply Hf in Hu as (t' & Ht' & Hu); try done; eapply (c_known _ _ _ C); eauto.
  - intros u. rewrite Ej. apply C.
  - rewrite Er. apply C.
Qed.

Lemma jobs_cons t rs : jobs (t :: rs) = (if decide (is_Some (job t)) then 1 else 0) + jobs rs.
Proof. unfold jobs. rewrite filter_cons. case_decide; [cbn [length]; lia|done]. Qed.

Lemma same_refs_perm rs rs' : rs ≡ₚ rs' → same_refs rs rs'.
Proof. intros Hp. split_and!; [intros u; by rewrite Hp..|]. unfold jobs. by rewrite Hp. Qed.

Lemma same_refs_replace t t' rs : job t' = job t → holder t' = holder t → waiter t' = waiter t →
  same_refs (t :: rs) (t' :: rs).
Proof. intros Ej Eh Ew. split_and!; intros; rewrite ?count_of_cons, ?jobs_cons, ?Ej, ?Eh, ?Ew; done. Qed.

Definition neutral (t : routine) : Prop := job t = None ∧ holder t = None ∧ waiter t = None.

Lemma same_refs_neutral ts rs : Forall neutral ts → same_refs rs (ts ++ rs) ∧ same_refs (ts ++ rs) rs.
Proof.
  intros Hts. induction Hts as [|t ts (Ej & Eh & Ew) _ [(J & Hh & W & R) _]]; [done|]. cbn [app].
  assert (jobs (t :: ts ++ rs) = jobs rs) as E by (rewrite jobs_cons, Ej, decide_False by (by intros [??]); exact R).
  split; split_and!; intros; rewrite ?count_of_cons, ?Ej, ?Eh, ?Ew, ?E, ?J, ?Hh, ?W; done.
Qed.

(** A job ends. *)
Lemma core_end_job u t s rs : job t = Some u → holder t = None → waiter t = None →
  core s (t :: rs) None → core (s_with_running (s.(s_running) - 1) s) rs (Some u).
Proof.
  intros Hj Hh Hw C.
  assert (count_of job u rs = 0) as Hz.
  { pose proof (c_jobs _ _ _ C u) as Hle. rewrite count_of_self in Hle by done. pose proof (count_of_nonneg job u rs). lia. }
  assert (jobs (t :: rs) = 1 + jobs rs) as Hjobs by (rewrite jobs_cons, Hj, decide_True by eauto; done).
  assert (∀ x, x ≠ u → count_of job x (t :: rs) = count_of job x rs) as Ej by (intros; apply count_of_other; congruence).
  assert (∀ x, count_of holder x (t :: rs) = count_of holder x rs) as Eh by (intros; apply count_of_other; congruence).
  assert (∀ x, count_of waiter x (t :: rs) = count_of waiter x rs) as Ew by (intros; apply count_of_other; congruence).
  split; cbn [s_with_running s_objs s_users s_queue s_retries s_running s_maxUsers]; try apply C.
  - intros x p Hx. pose proof (c_user _ _ _ C _ _ Hx) as [L H W Q R J O F]. rewrite ?Eh, ?Ew in *.
    destruct (decide (x = u)) as [->|Hne].
    + assert (u_state p = userRunning) as Hst by (apply J; [done|]; rewrite count_of_self by done; lia).
      split; cbn; try done; [intros _; apply L; left; by rewrite Hst|]. intros _.
      split_and!; [rewrite <- Q by done; congruence|rewrite <- R by done; congruence|done].
    + rewrite ?Ej in * by done. split; cbn; try done; try congruence;
        [intros ?; apply L; naive_solver|intros _; by apply Q|intros _; by apply R|intros _; by apply J].
  - intros t' x Ht Hx. eapply (c_known _ _ _ C); [right; exact Ht|exact Hx].
  - intros x [= <-]. eapply (c_known _ _ _ C); [left|by left].
  - intros x. destruct (decide (x = u)) as [->|Hne]; [lia|]. rewrite <- Ej by done. apply C.
  - rewrite (c_running _ _ _ C). lia.
  - pose proof (c_bound _ _ _ C) as Hb. unfold activeLocked in *. cbn in *. lia.
Qed.

(** A job begins. *)
Lemma core_begin_job u o t s rs : job t = Some u → holder t = None → waiter t = None →
  s.(s_objs) !! u = Some o → o.(u_state) = userRunning →
  core s rs (Some u) → core (s_with_running (s.(s_running) + 1) s) (t :: rs) None.
Proof.
  intros Hj Hh Hw Ho Hst C. pose proof (b_out _ _ _ _ _ (c_user _ _ _ C _ _ Ho) eq_refl) as (Hq & Hr & Hz).
  assert (jobs (t :: rs) = 1 + jobs rs) as Hjobs by (rewrite jobs_cons, Hj, decide_True by eauto; done).
  assert (∀ x, x ≠ u → count_of job x (t :: rs) = count_of job x rs) as Ej by (intros; apply count_of_other; congruence).
  assert (∀ x, count_of holder x (t :: rs) = count_of holder x rs) as Eh by (intros; apply count_of_other; congruence).
  assert (∀ x, count_of waiter x (t :: rs) = count_of waiter x rs) as Ew by (intros; apply count_of_other; congruence).
  split; cbn [s_with_running s_objs s_users s_queue s_retries s_running s_maxUsers]; try apply C; try done.
  - intros x p Hx. pose proof (c_user _ _ _ C _ _ Hx) as [L H W Q R J O F].
    destruct (decide (x = u)) as [->|Hne].
    + rewrite Ho in Hx. injection Hx as <-. split; cbn -[count_of]; rewrite ?Eh, ?Ew; try done.
      * intros _. apply L. auto.
      * intros _. rewrite Hst. done.
      * intros _. rewrite Hst. done.
      * intros _. rewrite count_of_self by done. split; [lia|done].
    + split; cbn -[count_of]; rewrite ?Eh, ?Ew, ?Ej by done; try done;
        [intros ?; apply L; naive_solver|intros _; apply Q|intros _; apply R|intros _; apply J]; congruence.
  - intros t' x [->|Ht]%elem_of_cons Hx; [|eapply (c_known _ _ _ C); [exact Ht|exact Hx]].
    destruct Hx as [Hx|[Hx|Hx]]; [|congruence..]. rewrite Hj in Hx. injection Hx as <-. by exists o.
  - intros x. destruct (decide (x = u)) as [->|Hne]; [rewrite count_of_self by done; lia|]. rewrite Ej by done. apply C.
  - rewrite (c_running _ _ _ C). lia.
  - pose proof (c_bound _ _ _ C) as Hb. unfold activeLocked in *. cbn in *. lia.
Qed.

(** The holds and the waiters of a user change with the goroutines that count. *)
Lemma core_refs u f dh dw s rs rs' :
  (∀ o, (f o).(u_key) = o.(u_key) ∧ (f o).(u_holds) = o.(u_holds) + dh ∧ (f o).(u_waiters) = o.(u_waiters) + dw) →
  keeps_place f → (∀ o, s.(s_objs) !! u = Some o → (0 < dh ∨ 0 < dw) → s.(s_users) !! o.(u_key) = Some u) →
  is_Some (s.(s_objs) !! u) →
  (∀ x, count_of job x rs' = count_of job x rs) → jobs rs' = jobs rs →
  (∀ x, count_of holder x rs' = count_of holder x rs + if decide (x = u) then dh else 0) →
  (∀ x, count_of waiter x rs' = count_of waiter x rs + if decide (x = u) then dw else 0) →
  core s rs None → core (update u f s) rs' None.
Proof.
  intros Hf Hpl Hlive Hsu Ej Er Eh Ew C.
  assert (∀ x, is_Some (s.(s_objs) !! x) → is_Some (alter f u s.(s_objs) !! x)) as Hsome.
  { intros x [o Ho]. rewrite lookup_alter. case_decide; [subst x|]; rewrite Ho; cbn; eauto. }
  split; cbn [update s_with_objs s_objs s_users s_queue s_retries s_running s_maxUsers]; try apply C; try done.
  - intros x o'. rewrite lookup_alter. destruct (decide (u = x)) as [<-|Hne].
    + destruct (s.(s_objs) !! u) as [o|] eqn:Ho; [|done]. intros [= <-]. user_of C Ho.
      destruct (Hf o) as (K & Hh & Hw), (Hpl o) as (P & _).
      split; cbn; rewrite ?K, ?Hh, ?Hw, ?P, ?Ej, ?Eh, ?Ew, ?decide_True by done; try done; [|lia|lia].
      intros H. destruct (decide (0 < dh ∨ 0 < dw)); [by apply Hlive|]. apply b_live0.
      pose proof (count_of_nonneg holder u rs'). pose proof (count_of_nonneg waiter u rs').
      rewrite Eh, decide_True in * by done. rewrite Ew, decide_True in * by done.
      destruct H as [H|[H|[H|H]]]; [by left| | |done]; right; [left|right; left]; lia.
    + intros Ho. user_of C Ho. split; cbn; rewrite ?Ej, ?Eh, ?Ew, ?decide_False, ?Z.add_0_r by congruence; done.
  - intros k x Hk. destruct (c_map _ _ _ C _ _ Hk) as (o & Ho & Hk').
    rewrite lookup_alter. case_decide; [subst x|]; rewrite Ho; [|by exists o]. cbn. eexists. split; [done|].
    destruct (Hf o) as (-> & _). done.
  - intros x Hx. apply Hsome, (c_queue_known _ _ _ C), Hx.
  - intros x Hx. apply Hsome, (c_retries_known _ _ _ C), Hx.
  - intros t x Ht Hx. apply Hsome. destruct (decide (x = u)) as [->|Hne]; [done|].
    assert (∀ g, (count_of g x rs' = count_of g x rs) → g t = Some x → ∃ t', t' ∈ rs ∧ g t' = Some x) as Hg.
    { intros g Eg Hgt. apply count_of_pos_inv. rewrite <- Eg. by eapply count_of_pos. }
    destruct Hx as [Hx|[Hx|Hx]]; apply Hg in Hx as (t' & Ht' & Hx); rewrite ?Ej, ?Eh, ?Ew, ?decide_False, ?Z.add_0_r by done; try done;
      eapply (c_known _ _ _ C); eauto.
  - intros x. rewrite Ej. apply C.
  - rewrite Er. apply C.
  - eapply heap_ok_ext; [|apply C]. intros a b _ _. apply retry_less_ext; unfold retry_key; rewrite lookup_alter; case_decide; try done;
      subst; destruct (s.(s_objs) !! _) as [o|]; try done; cbn; by destruct (Hpl o) as (_ & -> & ->).
Qed.

(** A user nothing refers to is forgotten. *)
Lemma core_forget u s rs : core s rs None → core (forgetLocked u s) rs None.
Proof.
  intros C. unfold forgetLocked. destruct (s.(s_objs) !! u) as [o|] eqn:Ho; [|done].
  destruct (_ && _ && _ && _ && _) eqn:E; [|done].
  apply andb_prop in E as [[[[Hst%bool_decide_eq_true Hh%Z.eqb_eq]%andb_prop Hw%Z.eqb_eq]%andb_prop _]%andb_prop Hk%bool_decide_eq_true].
  split; cbn [s_with_users s_objs s_users s_queue s_retries s_running s_maxUsers]; try apply C; try done.
  - intros x p Hx. user_of C Hx. split; cbn; try done. intros Hl. apply b_live0 in Hl as Hl'.
    rewrite lookup_delete_ne; [done|]. intros E. assert (x = u) as -> by congruence. rewrite Ho in Hx. injection Hx as <-. naive_solver.
  - intros k x [_ Hx]%lookup_delete_Some. by apply (c_map _ _ _ C).
Qed.

(** A user the scheduler has not known. *)
Lemma core_add_user key s rs : s.(s_users) !! key = None → core s rs None → core (add_user key s).2 rs None.
Proof.
  intros Hk C. unfold add_user. set (u := s.(s_fresh)).
  assert (s.(s_objs) !! u = None) as Hnone.
  { destruct (s.(s_objs) !! u) as [o|] eqn:Ho; [|done]. pose proof (b_fresh _ _ _ _ _ (c_user _ _ _ C _ _ Ho)). subst u. lia. }
  assert (∀ x, is_Some (s.(s_objs) !! x) → x ≠ u) as Hne by (intros x [? ?] ->; congruence).
  assert (∀ x, is_Some (s.(s_objs) !! x) → is_Some (<[u := new_user key]> s.(s_objs) !! x)) as Hsome.
  { intros x Hx. rewrite lookup_insert_ne by (by apply not_eq_sym, Hne). done. }
  assert (∀ f, (∀ t, f t = Some u → job t = Some u ∨ holder t = Some u ∨ waiter t = Some u) → count_of f u rs = 0) as Hz.
  { intros f Hf. apply count_of_zero. intros t Ht Hft. apply Hf in Hft. apply (Hne u); [|done]. by eapply (c_known _ _ _ C). }
  split; cbn [s_with_users s_with_objs s_with_fresh s_objs s_users s_queue s_retries s_running s_maxUsers snd]; try apply C; try done.
  - intros x p. rewrite lookup_insert. destruct (decide (u = x)) as [<-|Hx].
    + intros [= <-]. split; cbn -[count_of]; try done.
      * intros [?|[?|[?|?]]]; done.
      * symmetry. apply Hz. auto.
      * symmetry. apply Hz. auto.
      * intros _. split; [done|]. intros Hin%(c_queue_known _ _ _ C). by destruct (Hne u).
      * intros _. split; [done|]. intros Hin%(c_retries_known _ _ _ C). by destruct (Hne u).
      * intros _. rewrite Hz by auto. split; [done|lia].
      * subst u. lia.
    + intros Ho. user_of C Ho. split; cbn -[count_of]; try done; [|lia]. intros Hl. apply b_live0 in Hl.
      rewrite lookup_insert_ne; [done|]. congruence.
  - intros k x. rewrite lookup_insert. case_decide as E; [intros [= <-]; subst k|intros Hx].
    + eexists. split; [apply lookup_insert_eq|done].
    + destruct (c_map _ _ _ C _ _ Hx) as (o & Ho & Hko). exists o. rewrite lookup_insert_ne; [done|]. apply not_eq_sym, Hne. eauto.
  - intros x Hx. apply Hsome, (c_queue_known _ _ _ C), Hx.
  - intros x Hx. apply Hsome, (c_retries_known _ _ _ C), Hx.
  - intros t x Ht Hx. by eapply Hsome, (c_known _ _ _ C).
  - eapply heap_ok_ext; [|apply C]. intros a b Ha Hb.
    apply retry_less_ext; unfold retry_key; rewrite lookup_insert_ne; try done; apply not_eq_sym, Hne; by apply (c_retries_known _ _ _ C).
Qed.

(** ** The operations keep it *)

Ltac frame := first [done | by intros ?].

Lemma core_changed s rs limbo : core s rs limbo → core (unlockChanged s) rs limbo.
Proof. by apply core_same. Qed.

Lemma core_with_measured m s rs limbo : core s rs limbo → core (s_with_measured m s) rs limbo.
Proof. by apply core_same. Qed.

Lemma user_of_known key s rs limbo u o : core s rs limbo → user_of key s = Some (u, o) ↔
  s.(s_users) !! key = Some u ∧ s.(s_objs) !! u = Some o.
Proof.
  intros C. unfold user_of. destruct (s.(s_users) !! key) as [x|] eqn:Hk; [|naive_solver]. cbn.
  destruct (s.(s_objs) !! x) as [p|] eqn:Ho; cbn; naive_solver.
Qed.

Lemma user_of_unknown key s rs limbo : core s rs limbo → user_of key s = None ↔ s.(s_users) !! key = None.
Proof.
  intros C. unfold user_of. destruct (s.(s_users) !! key) as [x|] eqn:Hk; [|done]. cbn.
  destruct (c_map _ _ _ C _ _ Hk) as (o & -> & _). done.
Qed.

(** [s.users[key]], made when it is missing. *)
Definition ensure_user (key : string) (s : scheduler) : nat * scheduler :=
  match s.(s_users) !! key with Some u => (u, s) | None => add_user key s end.

Lemma ensure_user_ok key s rs u s' : ensure_user key s = (u, s') → core s rs None →
  core s' rs None ∧ s'.(s_users) !! key = Some u ∧ activeLocked s' = activeLocked s ∧ s'.(s_maxUsers) = s.(s_maxUsers) ∧
  ∃ o, s'.(s_objs) !! u = Some o ∧ o.(u_key) = key ∧
    (s.(s_users) !! key = None ∧ o = new_user key ∨ user_of key s = Some (u, o)).
Proof.
  unfold ensure_user. intros E C. destruct (s.(s_users) !! key) as [x|] eqn:Hk.
  - injection E as <- <-. destruct (c_map _ _ _ C _ _ Hk) as (o & Ho & Hko). split_and!; try done.
    exists o. split_and!; [done|done|right]. by apply (user_of_known _ _ _ _ _ _ C).
  - pose proof (core_add_user key s rs Hk C) as C'. rewrite E in C'. cbn in C'.
    unfold add_user in E. injection E as <- <-. split_and!; try done; [cbn; apply lookup_insert_eq|].
    eexists. split_and!; [cbn; apply lookup_insert_eq|done|by left].
Qed.

(** An idle user is queued. *)
Lemma core_queue_idle u o s rs now : s.(s_objs) !! u = Some o → o.(u_state) = userIdle →
  s.(s_users) !! o.(u_key) = Some u → activeLocked s < s.(s_maxUsers) → core s rs None →
  core (enqueueLocked u (update u (u_with_since now) s)) rs None.
Proof.
  intros Ho Hst Hk Hroom C. apply core_enqueue, core_update; [done|by left|]. by eapply core_leave_idle.
Qed.

Lemma core_Notify now key chars s rs s' ok line : Notify now key chars s = (s', ok, line) → core s rs None → core s' rs None.
Proof.
  unfold Notify. destruct (_ && _) eqn:Hdrop; intros E C.
  { injection E as <- _ _. destruct (_ || _); [|done]. by apply (core_same s). }
  fold (ensure_user key s) in E. destruct (ensure_user key s) as [u s1] eqn:Eu.
  destruct (ensure_user_ok _ _ _ _ _ Eu C) as (C1 & Hk & Hact & Hmax & o & Ho & Hko & Hfrom).
  set (f := λ o, u_with_backlog (add64 o.(u_backlog) chars) o) in *.
  assert (core (update u f s1) rs None) as C2 by (apply core_update; [done|by right|done]).
  cbn [update s_with_objs s_objs] in E. rewrite lookup_alter_eq, Ho in E. cbn [fmap option_fmap option_map u_with_backlog u_state u_dirty f] in E.
  injection E as <- _ _. apply core_changed. change (s_with_objs (alter f u (s_objs s1)) s1) with (update u f s1).
  destruct (u_state o) eqn:Hst; [|done| |done].
  - eapply core_queue_idle; [cbn; by rewrite lookup_alter_eq, Ho|done|cbn; by rewrite Hko| |done].
    change (activeLocked (update u f s1)) with (activeLocked s1). rewrite Hact. cbn. rewrite Hmax.
    apply andb_false_iff in Hdrop as [Hd|Hd]; [|by apply Z.leb_gt in Hd].
    destruct Hfrom as [[Hn _]|Hu]; [by rewrite (proj2 (user_of_unknown _ _ _ _ C) Hn) in Hd|]. rewrite Hu in Hd.
    by rewrite bool_decide_eq_true_2 in Hd.
  - cbv zeta. destruct (u_dirty o); repeat apply core_update; try done; by right.
Qed.

(** What [Hold] and [WaitBacklog] count, and their ends. *)
Lemma core_Hold key s rs u s' : Hold key s = (u, s') → core s rs None → core s' (AHold u :: rs) None.
Proof.
  unfold Hold. fold (ensure_user key s). destruct (ensure_user key s) as [x s1] eqn:Eu. intros E C. injection E as <- <-.
  destruct (ensure_user_ok _ _ _ _ _ Eu C) as (C1 & Hk & _ & _ & o & Ho & Hko & _).
  apply (core_refs x _ 1 0 s1 rs); [intros p; cbn; split_and!; [done|done|lia]|done| |by exists o|..|done]; try done.
  - intros p Hp _. congruence.
  - intros y. rewrite count_of_cons. cbn [holder]. repeat case_decide; try congruence; lia.
  - intros y. rewrite count_of_other by done. case_decide; lia.
Qed.

Lemma core_hold_release u s rs : core s (AHold u :: rs) None → core (hold_release u s) rs None.
Proof.
  intros C. unfold hold_release. apply core_changed, core_forget.
  apply (core_refs u _ (-1) 0 s (AHold u :: rs)); [intros p; cbn; split_and!; [done|done|lia]|done|lia| |..|done]; try done.
  - eapply (c_known _ _ _ C); [left|right; left; done].
  - intros y. rewrite count_of_cons. cbn [holder]. repeat case_decide; try congruence; lia.
  - intros y. rewrite (count_of_other _ _ (AHold u)) by done. case_decide; lia.
Qed.

Lemma core_wait_end u limit now c s rs : core s (AWait u limit now c :: rs) None → core (wait_end u s) rs None.
Proof.
  intros C. unfold wait_end. apply core_forget.
  apply (core_refs u _ 0 (-1) s (AWait u limit now c :: rs)); [intros p; cbn; split_and!; [done|lia|done]|done|lia| |..|done]; try done.
  - eapply (c_known _ _ _ C); [left|right; right; done].
  - intros y. rewrite (count_of_other _ _ (AWait _ _ _ _)) by done. case_decide; lia.
  - intros y. rewrite (count_of_cons waiter). cbn [waiter]. repeat case_decide; try congruence; lia.
Qed.

(** A turn of the loop of [WaitBacklog]. *)
Lemma core_wait_check now u limit s rs s' r c : wait_check now u limit s = (s', r) →
  core s (AWait u limit now c :: rs) None →
  match r with WaitReturns => core s' rs None | WaitOn c' => core s' (AWait u limit now c' :: rs) None end.
Proof.
  unfold wait_check. intros E C.
  destruct (c_known _ _ _ C (AWait u limit now c) u ltac:(left) (or_intror (or_intror eq_refl))) as [o Ho]. rewrite Ho in E.
  assert (∀ c', core s (AWait u limit now c' :: rs) None) as Cc.
  { intros c'. eapply core_routines; [|exact C]. by apply same_refs_replace. }
  destruct (_ && _ && _ && _) eqn:Hcond; [|injection E as <- <-; by eapply core_wait_end].
  case_bool_decide as Hst; [|injection E as <- <-; apply Cc].
  destruct (_ <=? _) eqn:Hroom; injection E as <- <-; [by eapply core_wait_end|].
  apply core_changed. eapply core_queue_idle; [exact Ho|done| |by apply Z.leb_gt|apply Cc].
  user_of C Ho. apply b_live0. right. right. left. rewrite b_waiters0, count_of_self by done.
  pose proof (count_of_nonneg waiter u rs). lia.
Qed.

Lemma core_wait_begin now key limit s rs s' r : wait_begin now key limit s = (s', r) → core s rs None →
  match r with None => core s' rs None | Some (u, c) => core s' (AWait u limit now c :: rs) None end.
Proof.
  unfold wait_begin. intros E C. destruct (s.(s_users) !! key) as [u|] eqn:Hk; [|by injection E as <- <-].
  destruct (c_map _ _ _ C _ _ Hk) as (o & Ho & Hko).
  destruct (wait_check _ _ _ _) as [s1 turn] eqn:Hc.
  assert (core (update u (λ o, u_with_waiters (o.(u_waiters) + 1) o) s) (AWait u limit now 0 :: rs) None) as C1.
  { apply (core_refs u _ 0 1 s rs); [intros p; cbn; split_and!; [done|lia|done]|done| |by exists o|..|done]; try done.
    - intros p Hp _. congruence.
    - intros y. rewrite count_of_other by done. case_decide; lia.
    - intros y. rewrite (count_of_cons waiter). cbn [waiter]. repeat case_decide; try congruence; lia. }
  pose proof (core_wait_check _ _ _ _ _ _ _ _ Hc C1) as C2. destruct turn; by injection E as <- <-.
Qed.

Lemma core_retry_due turns now s rs : core s rs None → core (retry_due turns now s) rs None.
Proof.
  revert s. induction turns as [|n IH]; intros s C; cbn [retry_due]; [done|].
  destruct (s.(s_retries)) as [|x r] eqn:Er; [done|]. destruct (now <? _); [done|].
  destruct (heap_pop _ _) as [[u rest]|] eqn:Hpop; [|done]. rewrite <- Er in Hpop.
  apply IH, core_enqueue. by apply (core_pop s rs u rest).
Qed.

Lemma start_user_core u s rs t : job t = Some u → holder t = None → waiter t = None →
  u ∈ s.(s_queue) → core s rs None → core (start_user u s) (t :: rs) None.
Proof.
  intros Hj Hh Hw Hin C. unfold start_user. destruct (c_queue_known _ _ _ C _ Hin) as [o Ho].
  eapply core_begin_job; [done|done|done| | |apply core_update; [done|by left|by apply core_unqueue]].
  - cbn. by rewrite lookup_alter_eq, Ho.
  - done.
Qed.

Lemma firstUnheld_queued s u : firstUnheldLocked s = Some u → u ∈ s.(s_queue) ∧ unheld s u = true.
Proof. unfold firstUnheldLocked. intros [Hin Hu]%find_some. by split; [apply list_elem_of_In|]. Qed.

Lemma core_next now s rs s' r : next_section now s = (s', r) → core s rs None →
  match r with NextRuns u => core s' (WJob u :: rs) None | _ => core s' rs None end.
Proof.
  unfold next_section. intros E C. destruct (s_draining s); [by injection E as <- <-|].
  pose proof (core_retry_due (length s.(s_retries)) now s rs C) as C1. fold (retryDueLocked now s) in C1.
  destruct (firstUnheldLocked _) as [u|] eqn:Hu; injection E as <- <-; [|done].
  apply firstUnheld_queued in Hu as [Hin _]. by apply start_user_core.
Qed.

(** The state a job that ended leaves its user in. *)
Definition settled (now : Time) (jitter : spec_float) (cut : bool) (u : nat) (backlog : Z) (err : option error)
    (before : schedUser) (s : scheduler) : scheduler :=
  if cut then enqueueLocked u s else
  match err with
  | None =>
      let s := update u (u_with_failures 0) s in
      if before.(u_dirty) then enqueueLocked u (update u (λ o, u_with_since o.(u_dirtySince) o) s)
      else update u (λ o, u_with_since zero_time (u_with_state userIdle o)) s
  | Some err =>
      let failures := before.(u_failures) + 1 in
      let delay := if errors_is err ErrBackgroundReserve then reservePause else retryDelay failures jitter in
      let seq := (s.(s_retrySeq) + 1) mod 2 ^ 64 in
      let s := s_with_retrySeq seq s in
      let s := update u (λ o, u_with_seq seq (u_with_retryAt (now + delay)
                 (u_with_state userBackingOff (u_with_failures failures o)))) s in
      s_with_retries (heap_push (retry_less s.(s_objs)) s.(s_retries) u) s
  end.

(** What [finish] writes before it settles the user. *)
Definition measured_end (u : nat) (backlog : Z) (key : string) (s : scheduler) : scheduler :=
  let s := s_with_running (s.(s_running) - 1) s in
  update u (u_with_added 0)
    (if 0 <=? backlog
     then s_with_measured ({[key]} ∪ s.(s_measured))
            (update u (λ o, u_with_measured true (u_with_backlog (add64 backlog o.(u_added)) o)) s)
     else s).

Lemma finish_unfold now jitter cut u backlog err s before : s.(s_objs) !! u = Some before →
  finish now jitter cut u backlog err s =
  unlockChanged (forgetLocked u (update u (λ o, u_with_dirtySince zero_time (u_with_dirty false o))
    (settled now jitter cut u backlog err before (measured_end u backlog before.(u_key) s)))).
Proof. intros Ho. unfold finish. by rewrite Ho. Qed.

Lemma core_settled now jitter cut u backlog err before s rs : core s rs (Some u) →
  core (settled now jitter cut u backlog err before s) rs None.
Proof.
  intros C. unfold settled. destruct (c_limbo _ _ _ C u eq_refl) as [o Ho].
  destruct cut; [by apply core_enqueue|]. destruct err as [err|].
  - cbv zeta. set (seq := (s_retrySeq s + 1) mod 2 ^ 64). eapply core_push; [cbn; by rewrite lookup_alter_eq, Ho|done|].
    apply core_update; [done|by left|]. by apply (core_same s).
  - cbv zeta. destruct (u_dirty before); [apply core_enqueue; repeat (apply core_update; [done|by left|]); done|].
    eapply core_settle_idle; [cbn; by rewrite !lookup_alter_eq, Ho|done|].
    repeat (apply core_update; [done|by left|]). exact C.
Qed.

Lemma core_measured_end u backlog key s t rs : job t = Some u → holder t = None → waiter t = None →
  core s (t :: rs) None → core (measured_end u backlog key s) rs (Some u).
Proof.
  intros Hj Hh Hw C. apply (core_end_job u t) in C; [|done|done|done].
  unfold measured_end. cbv zeta. apply core_update; [done|by left|]. destruct (0 <=? backlog); [|done].
  apply core_with_measured, core_update; [done|by left|done].
Qed.

Lemma core_finish now jitter cut u backlog err s rs : core s (WEnded u backlog err now jitter cut :: rs) None →
  core (finish now jitter cut u backlog err s) rs None.
Proof.
  intros C. destruct (c_known _ _ _ C _ u ltac:(left) (or_introl eq_refl)) as [o Ho]. rewrite (finish_unfold _ _ _ _ _ _ _ o) by done.
  apply core_changed, core_forget, core_update; [done|by right|]. apply core_settled. eapply core_measured_end; [..|exact C]; done.
Qed.

Lemma core_Measured key chars s rs : core s rs None → core (Measured key chars s) rs None.
Proof.
  intros C. unfold Measured. destruct (user_of key s) as [[u o]|]; [|done]. destruct (_ || _); [done|].
  apply core_changed, core_with_measured, core_update; [done|by right|done].
Qed.

(** ** Sleeping and waking *)

(** Work a sleeping worker could start: a queued user that no one holds, or one whose
    backoff ends some time. *)
Definition startable (o : schedUser) : Prop :=
  (o.(u_state) = userQueued ∧ o.(u_holds) = 0) ∨ o.(u_state) = userBackingOff.

Definition in_line (o : schedUser) : Prop := o.(u_state) = userQueued ∨ o.(u_state) = userRunning.

(** A section that wakes no one: nothing becomes startable but by the end of a backoff,
    and who is in line stays so. *)
Record quiet (s s' : scheduler) : Prop := {
  q_changed : s'.(s_changed) = s.(s_changed);
  q_draining : s'.(s_draining) = s.(s_draining);
  q_stopped : s.(s_stopped) = false → s'.(s_stopped) = false;
  q_running : s.(s_running) <= s'.(s_running);
  q_line u o : s.(s_objs) !! u = Some o → ∃ o', s'.(s_objs) !! u = Some o' ∧ o'.(u_backlog) = o.(u_backlog) ∧ (in_line o → in_line o');
  q_startable u o' : s'.(s_objs) !! u = Some o' → startable o' →
    ∃ o, s.(s_objs) !! u = Some o ∧ o.(u_retryAt) = o'.(u_retryAt) ∧ startable o;
}.

#[local] Instance quiet_preorder : PreOrder quiet.
Proof.
  split.
  - intros s. split; [done|done|done|lia|intros u o ?; by exists o|intros u o ??; by exists o].
  - intros s1 s2 s3 A B. destruct A as [A1 A2 A3 A4 A5 A6], B as [B1 B2 B3 B4 B5 B6]. split; [congruence|congruence|auto|lia| |].
    + intros u o (o2 & Ho2 & ? & ?)%A5. apply B5 in Ho2 as (o3 & ? & ? & ?). exists o3. split_and!; [done|congruence|auto].
    + intros u o Ho Hs. destruct (B6 u o Ho Hs) as (o2 & Ho2 & ? & Hs2). destruct (A6 u o2 Ho2 Hs2) as (o1 & ? & ? & ?).
      exists o1. split_and!; [done|congruence|done].
Qed.

Lemma quiet_same s s' : s'.(s_changed) = s.(s_changed) → s'.(s_draining) = s.(s_draining) →
  s'.(s_stopped) = s.(s_stopped) ∨ s'.(s_stopped) = false → s.(s_running) <= s'.(s_running) → s'.(s_objs) = s.(s_objs) → quiet s s'.
Proof.
  intros E1 E2 E3 E4 E5. split; rewrite ?E5; [done|done|naive_solver congruence|done| |].
  - intros u o ?. by exists o.
  - intros u o ??. by exists o.
Qed.

Ltac quiet_field := apply quiet_same; [done|done|by left|cbn; lia|done].

Lemma quiet_update u f s : (∀ o, s.(s_objs) !! u = Some o → (f o).(u_backlog) = o.(u_backlog) ∧ (in_line o → in_line (f o)) ∧
    (startable (f o) → (f o).(u_retryAt) = o.(u_retryAt) ∧ startable o)) → quiet s (update u f s).
Proof.
  intros Hf. split; try done; cbn.
  - intros x o Ho. rewrite lookup_alter. case_decide; [subst x|]; rewrite Ho; [|by exists o].
    destruct (Hf o Ho) as (? & ? & _). cbn. by eexists.
  - intros x o'. rewrite lookup_alter. case_decide; [subst x|by eexists].
    destruct (s.(s_objs) !! u) as [o|] eqn:Ho; [|done]. cbn. intros [= <-] Hs. destruct (Hf o eq_refl) as (_ & _ & Hst).
    destruct (Hst Hs). exists o. by rewrite H.
Qed.

Lemma quiet_forget u s : quiet s (forgetLocked u s).
Proof. unfold forgetLocked. destruct (_ !! u); [|done]. destruct (_ && _ && _ && _ && _); [|done]. quiet_field. Qed.

Lemma quiet_add_user key s rs : core s rs None → quiet s (add_user key s).2.
Proof.
  intros C. unfold add_user. set (u := s.(s_fresh)).
  assert (s.(s_objs) !! u = None) as Hnone.
  { destruct (s.(s_objs) !! u) as [o|] eqn:Ho; [|done]. pose proof (b_fresh _ _ _ _ _ (c_user _ _ _ C _ _ Ho)). subst u. lia. }
  split; try done; cbn.
  - intros x o Ho. exists o. rewrite lookup_insert_ne; [done|]. intros <-. congruence.
  - intros x o. rewrite lookup_insert. case_decide; [|by eexists]. intros [= <-] [[? _]|?]; done.
Qed.

Lemma quiet_ensure key s rs u s' : ensure_user key s = (u, s') → core s rs None → quiet s s'.
Proof.
  unfold ensure_user. intros E C. destruct (_ !! key); [by injection E as <- <-|].
  pose proof (quiet_add_user key s rs C) as Hq. by rewrite E in Hq.
Qed.

(** A queued user has a place, and backs off from one. *)
Lemma quiet_requeue u o s rest : s.(s_objs) !! u = Some o → o.(u_state) = userBackingOff →
  quiet s (enqueueLocked u (s_with_retries rest s)).
Proof.
  intros Ho Hst. unfold enqueueLocked. transitivity (update u (u_with_state userQueued) (s_with_retries rest s)).
  - transitivity (s_with_retries rest s); [quiet_field|]. apply quiet_update.
    intros p Hp. cbn in Hp. rewrite Ho in Hp. injection Hp as <-. cbn. split_and!; [done|by left|]. intros _. split; [done|by right].
  - quiet_field.
Qed.

Lemma quiet_retry_due turns now s rs : core s rs None → quiet s (retry_due turns now s).
Proof.
  revert s. induction turns as [|n IH]; intros s C; cbn [retry_due]; [done|].
  destruct (s.(s_retries)) as [|x r] eqn:Er; [done|]. destruct (now <? _); [done|].
  destruct (heap_pop _ _) as [[u rest]|] eqn:Hpop; [|done]. rewrite <- Er in Hpop.
  destruct (core_pop s rs u rest Hpop C) as (C1 & Hp & _).
  assert (u ∈ s.(s_retries)) as Hin by (rewrite Hp; left). destruct (c_retries_known _ _ _ C _ Hin) as [o Ho].
  etrans; [eapply quiet_requeue; [exact Ho|]|apply IH, core_enqueue, C1]. user_of C Ho. by apply b_retry0.
Qed.

Lemma quiet_start u s rs : u ∈ s.(s_queue) → core s rs None → quiet s (start_user u s).
Proof.
  intros Hin C. unfold start_user. destruct (c_queue_known _ _ _ C _ Hin) as [o Ho].
  set (s1 := s_with_queue _ s). transitivity s1; [quiet_field|].
  set (f := λ o, u_with_dirtySince zero_time (u_with_dirty false (u_with_added 0 (u_with_state userRunning o)))).
  transitivity (update u f s1); [|quiet_field].
  apply quiet_update. intros p Hp. cbn. split_and!; [done|by right|]. intros [[? _]|?]; done.
Qed.

Lemma quiet_next now s rs s' r : next_section now s = (s', r) → core s rs None → quiet s s'.
Proof.
  unfold next_section. intros E C. destruct (s_draining s); [by injection E as <- <-|].
  pose proof (core_retry_due (length s.(s_retries)) now s rs C) as C1. fold (retryDueLocked now s) in C1.
  pose proof (quiet_retry_due (length s.(s_retries)) now s rs C) as Q1. fold (retryDueLocked now s) in Q1.
  destruct (firstUnheldLocked _) as [u|] eqn:Hu; injection E as <- <-; [|done].
  apply firstUnheld_queued in Hu as [Hin _]. etrans; [exact Q1|by eapply quiet_start].
Qed.

Lemma quiet_wait_end u s : quiet s (wait_end u s).
Proof.
  unfold wait_end. etrans; [|apply quiet_forget]. apply quiet_update. intros o _. by split_and!.
Qed.

(** What a goroutine that waits on the current channel knows. *)
Definition wakes (s : scheduler) (t : routine) : Prop :=
  (∀ c, channel t = Some c → (c <= s.(s_changed))%nat) ∧
  (channel t = Some s.(s_changed) →
   match t with
   | WArming _ now wait => ∀ u o, s.(s_objs) !! u = Some o → startable o → 0 < wait ∧ now + wait <= o.(u_retryAt)
   | WSleep _ timer => ∀ u o, s.(s_objs) !! u = Some o → startable o →
       ∃ d lag, timer = Some (d, lag) ∧ d <= o.(u_retryAt) + lag
   | AWait u limit _ _ => s.(s_stopped) = false ∧ s.(s_draining) = false ∧
       ∃ o, s.(s_objs) !! u = Some o ∧ limit < o.(u_backlog) ∧ in_line o
   | DWait _ => 0 < s.(s_running)
   | _ => True
   end).

Lemma wakes_quiet s s' t : quiet s s' → wakes s t → wakes s' t.
Proof.
  intros [Q1 Q2 Q3 Q4 Q5 Q6] [Hle Hw]. unfold wakes. rewrite Q1. split; [done|]. intros Hc. specialize (Hw Hc).
  destruct t; try done.
  - intros u o Ho Hs. destruct (Q6 u o Ho Hs) as (p & Hp & <- & Hps). by eapply Hw.
  - intros u o Ho Hs. destruct (Q6 u o Ho Hs) as (p & Hp & <- & Hps). by eapply Hw.
  - destruct Hw as (Hst & Hd & o & Ho & Hb & Hl). destruct (Q5 _ _ Ho) as (p & Hp & Hpb & Hpl).
    rewrite Q2. split_and!; [auto|done|]. exists p. rewrite Hpb. auto.
  - lia.
Qed.

Lemma wakes_changed s s' t : (s.(s_changed) < s'.(s_changed))%nat → wakes s t → wakes s' t.
Proof. intros Hlt [Hle _]. split; [intros c Hc%Hle; lia|]. intros Hc%Hle. lia. Qed.

(** Each operation wakes everyone or is quiet. *)
Definition tells (s s' : scheduler) : Prop := quiet s s' ∨ (s.(s_changed) < s'.(s_changed))%nat.

Lemma wakes_tells s s' t : tells s s' → wakes s t → wakes s' t.
Proof. intros [Hq|Hc]; [by apply wakes_quiet|by apply wakes_changed]. Qed.

Lemma tells_Notify now key chars s s' ok line : Notify now key chars s = (s', ok, line) → tells s s'.
Proof.
  unfold Notify. destruct (_ && _); intros E.
  { injection E as <- _ _. left. destruct (_ || _); [|done]. quiet_field. }
  fold (ensure_user key s) in E. destruct (ensure_user key s) as [u s1] eqn:Eu. right.
  assert (s1.(s_changed) = s.(s_changed)) as <-.
  { unfold ensure_user in Eu. destruct (_ !! key); [by injection Eu as <- <-|]. unfold add_user in Eu. by injection Eu as <- <-. }
  injection E as <- _ _. unfold unlockChanged. cbn [s_with_changed s_changed]. repeat case_match; cbn; lia.
Qed.

Lemma tells_wait_check now u limit s s' r : wait_check now u limit s = (s', r) →
  tells s s' ∧ match r with WaitReturns => True | WaitOn c => ∀ now', c = s'.(s_changed) ∧ wakes s' (AWait u limit now' c) end.
Proof.
  unfold wait_check. destruct (s.(s_objs) !! u) as [o|] eqn:Ho; [|intros [= <- <-]; by split; [left|]].
  destruct (_ && _ && _ && _) eqn:E; [|intros [= <- <-]; split; [left; apply quiet_wait_end|done]].
  apply andb_prop in E as [[[Hb%Z.ltb_lt Hbo%negb_true_iff%bool_decide_eq_false]%andb_prop Hst%negb_true_iff]%andb_prop Hd%negb_true_iff].
  case_bool_decide as Hidle; [destruct (_ <=? _)|]; intros [= <- <-].
  - split; [left; apply quiet_wait_end|done].
  - split; [right; cbn; lia|]. intros now'. split; [done|]. split; [intros ? [= <-]; done|]. intros _. cbn. split_and!; [done|done|].
    rewrite !lookup_alter_eq, Ho. eexists. split; [done|]. cbn. split; [done|by left].
  - split; [by left|]. intros now'. split; [done|]. split; [intros ? [= <-]; done|]. intros _. split_and!; [done|done|].
    exists o. split_and!; [done|done|]. unfold in_line. destruct (u_state o); naive_solver.
Qed.

Lemma tells_wait_begin now key limit s s' r : wait_begin now key limit s = (s', r) →
  tells s s' ∧ match r with None => True | Some (u, c) => wakes s' (AWait u limit now c) end.
Proof.
  unfold wait_begin. destruct (s.(s_users) !! key) as [u|]; [|intros [= <- <-]; by split; [left|]].
  set (f := λ o, u_with_waiters (o.(u_waiters) + 1) o). assert (quiet s (update u f s)) as Hq.
  { apply quiet_update. intros o _. by split_and!. }
  destruct (wait_check _ _ _ _) as [s1 turn] eqn:Hc. apply tells_wait_check in Hc as [Ht Hw].
  assert (tells s s1) as Ht'.
  { destruct Ht as [Ht|Ht]; [left; by etrans|right]. by rewrite (q_changed _ _ Hq) in Ht. }
  destruct turn; intros [= <- <-]; split; try done. apply Hw.
Qed.

Lemma quiet_Hold key s rs u s' : Hold key s = (u, s') → core s rs None → quiet s s'.
Proof.
  unfold Hold. fold (ensure_user key s). destruct (ensure_user key s) as [x s1] eqn:Eu. intros E C. injection E as <- <-.
  etrans; [by eapply quiet_ensure|]. destruct (ensure_user_ok _ _ _ _ _ Eu C) as (C1 & _).
  apply quiet_update. intros o Ho. cbn. split_and!; [done|done|]. intros [[Hq Hz]|Hb]; (split; [done|]); [|by right].
  cbn in Hz. pose proof (b_holds _ _ _ _ _ (c_user _ _ _ C1 _ _ Ho)) as Hh. pose proof (count_of_nonneg holder x rs). lia.
Qed.

Lemma changed_forget u s : (forgetLocked u s).(s_changed) = s.(s_changed).
Proof. unfold forgetLocked. by repeat case_match. Qed.

Lemma tells_finish now jitter cut u backlog err s : is_Some (s.(s_objs) !! u) →
  tells s (finish now jitter cut u backlog err s).
Proof.
  intros [o Ho]. right. rewrite (finish_unfold _ _ _ _ _ _ _ o) by done.
  unfold unlockChanged. cbn [s_with_changed s_changed]. rewrite changed_forget.
  unfold settled, measured_end. repeat case_match; cbn; lia.
Qed.

(** No head of the heap is due after [retryDueLocked]. *)
Lemma retry_due_done turns now s rs : core s rs None → (length s.(s_retries) <= turns)%nat →
  ∀ u r, (retry_due turns now s).(s_retries) = u :: r → now < (retry_key (retry_due turns now s).(s_objs) u).1.
Proof.
  revert s. induction turns as [|n IH]; intros s C Hlen u r; cbn [retry_due].
  { destruct (s.(s_retries)); [done|cbn in Hlen; lia]. }
  destruct (s.(s_retries)) as [|x xs] eqn:Er; [by rewrite Er|]. destruct (now <? _) eqn:Hdue.
  { rewrite Er. intros [= <- <-]. by apply Z.ltb_lt. }
  destruct (heap_pop_ok (retry_less s.(s_objs)) s.(s_retries) x xs) as (rest & Hpop & _ & Hp & _); [apply C|done|].
  rewrite Er in Hpop. rewrite Hpop. rewrite <- Er in Hpop. destruct (core_pop s rs x rest Hpop C) as (C1 & _).
  apply IH; [by apply core_enqueue|]. cbn. rewrite (Permutation_length Hp). cbn in Hlen. lia.
Qed.

Lemma retry_least objs h u r x : heap_ok (retry_less objs) h → h = u :: r → x ∈ h → (retry_key objs u).1 <= (retry_key objs x).1.
Proof.
  intros Hh -> [i Hi]%list_elem_of_lookup_1.
  pose proof (heap_ok_least (retry_less objs) _ _ u x i Hh (le_n _) eq_refl (lookup_lt_Some _ _ _ Hi) Hi) as Hl.
  unfold retry_less in Hl. destruct (retry_key objs x) as [tx sx], (retry_key objs u) as [tu su]. cbn in *.
  destruct (tx =? tu) eqn:E; cbn in Hl; [apply Z.eqb_eq in E; lia|]. by apply Z.ltb_ge in Hl.
Qed.

(** A worker goes to sleep only when nothing can start, with a timer for the next
    backoff to end. *)
Lemma next_sleeps now s rs s' wait : next_section now s = (s', NextSleeps wait) → core s rs None →
  ∀ u o, s'.(s_objs) !! u = Some o → startable o → 0 < wait ∧ now + wait <= o.(u_retryAt).
Proof.
  unfold next_section. intros E C. destruct (s_draining s); [done|].
  pose proof (core_retry_due (length s.(s_retries)) now s rs C) as C1.
  pose proof (retry_due_done (length s.(s_retries)) now s rs C ltac:(done)) as Hdone.
  fold (retryDueLocked now s) in *. set (s1 := retryDueLocked now s) in *. clearbody s1.
  destruct (firstUnheldLocked s1) as [u|] eqn:Hu; [done|]. injection E as <- <-. intros u o Ho Hs.
  user_of C1 Ho. destruct Hs as [[Hq Hz]|Hb].
  - assert (u ∈ s1.(s_queue)) as Hin by by apply b_queue0. exfalso.
    unfold firstUnheldLocked in Hu. pose proof (find_none _ _ Hu u (proj1 (list_elem_of_In _ _) Hin)) as Hn.
    unfold unheld in Hn. rewrite Ho in Hn. by apply Z.eqb_neq in Hn.
  - assert (u ∈ s1.(s_retries)) as Hin by by apply b_retry0.
    destruct (s1.(s_retries)) as [|x r] eqn:Er; [by apply elem_of_nil in Hin|].
    pose proof (Hdone x r eq_refl) as Hnd. rewrite <- Er in Hin. pose proof (c_heap _ _ _ C1) as Hheap.
    pose proof (retry_least _ _ x r u Hheap Er Hin) as Hle. unfold retry_key at 2 in Hle. rewrite Ho in Hle. cbn in Hle.
    unfold time_Sub. lia.
Qed.

(** ** What is owed *)

Inductive work := Resting | Pending | Working (dirty : bool).

Definition work_of (o : schedUser) : work :=
  match o.(u_state) with
  | userIdle => Resting
  | userQueued | userBackingOff => Pending
  | userRunning => Working o.(u_dirty)
  end.

(** What the scheduler is doing for a user. *)
Definition work_for (s : scheduler) (k : string) : work :=
  match user_of k s with Some (_, o) => work_of o | None => Resting end.

(** Every notification it accepted has been followed by a job that began after it and
    succeeded, or the user still has work; a job that missed one knows. *)
Definition owes (w : world) (k : string) : Prop :=
  (w.(w_covered) k <= w.(w_begun) k)%nat ∧ (w.(w_begun) k <= w.(w_accepted) k)%nat ∧
  match work_for w.(w_s) k with
  | Resting => w.(w_covered) k = w.(w_accepted) k
  | Pending => True
  | Working dirty => dirty = false → w.(w_begun) k = w.(w_accepted) k
  end.

Lemma work_same s s' k : s'.(s_users) = s.(s_users) → s'.(s_objs) = s.(s_objs) → work_for s' k = work_for s k.
Proof. intros E1 E2. unfold work_for, user_of. by rewrite E1, E2. Qed.

Lemma work_update u f s rs limbo k : core s rs limbo → keeps_identity f →
  work_for (update u f s) k =
  match s.(s_users) !! k, s.(s_objs) !! u with
  | Some x, Some o => if decide (x = u) then work_of (f o) else work_for s k
  | _, _ => work_for s k
  end.
Proof.
  intros C Hid. unfold work_for, user_of. cbn. destruct (s.(s_users) !! k) as [x|] eqn:Hk; [|done]. cbn.
  rewrite lookup_alter. destruct (decide (u = x)) as [<-|Hne].
  - destruct (s.(s_objs) !! u) as [o|]; [|done]. cbn. by rewrite decide_True.
  - destruct (s.(s_objs) !! u); [|done]. rewrite decide_False by congruence. done.
Qed.

(** A write that keeps the state and the mark of a user changes no work. *)
Lemma work_inert u f s rs limbo k : core s rs limbo → keeps_identity f → (∀ o, work_of (f o) = work_of o) →
  work_for (update u f s) k = work_for s k.
Proof.
  intros C Hid Hw. rewrite (work_update u f s rs limbo k C Hid).
  destruct (s.(s_users) !! k) as [x|] eqn:Hk; [|done]. destruct (s.(s_objs) !! u) as [o|] eqn:Ho; [|done].
  case_decide; [subst x|done]. rewrite Hw. unfold work_for, user_of. rewrite Hk. cbn. by rewrite Ho.
Qed.

(** A write to one user changes no other's work. *)
Lemma work_other u f s rs limbo k : core s rs limbo → keeps_identity f → k ≠ key_of u s →
  work_for (update u f s) k = work_for s k.
Proof.
  intros C Hid Hk. rewrite (work_update u f s rs limbo k C Hid).
  destruct (s.(s_users) !! k) as [x|] eqn:Hx; [|done]. destruct (s.(s_objs) !! u) as [o|] eqn:Ho; [|done].
  case_decide; [subst x|done]. destruct (c_map _ _ _ C _ _ Hx) as (p & Hp & Hkp). unfold key_of in Hk. rewrite Ho in *. congruence.
Qed.

Lemma work_forget u s k : work_for (forgetLocked u s) k = work_for s k.
Proof.
  unfold forgetLocked. destruct (s.(s_objs) !! u) as [o|] eqn:Ho; [|done]. destruct (_ && _ && _ && _ && _) eqn:E; [|done].
  apply andb_prop in E as [[[[Hst%bool_decide_eq_true _]%andb_prop _]%andb_prop _]%andb_prop Hk%bool_decide_eq_true].
  unfold work_for, user_of. cbn. rewrite lookup_delete. case_decide; [subst k|done]. rewrite Hk. cbn. rewrite Ho. cbn.
  unfold work_of. by rewrite Hst.
Qed.

Lemma work_add_user key s rs k : core s rs None → s.(s_users) !! key = None → work_for (add_user key s).2 k = work_for s k.
Proof.
  intros C Hn. unfold add_user. set (u := s.(s_fresh)).
  assert (s.(s_objs) !! u = None) as Hnone.
  { destruct (s.(s_objs) !! u) as [o|] eqn:Ho; [|done]. pose proof (b_fresh _ _ _ _ _ (c_user _ _ _ C _ _ Ho)). subst u. lia. }
  unfold work_for, user_of. cbn. rewrite lookup_insert. case_decide; [subst k; rewrite Hn; cbn; by rewrite lookup_insert_eq|].
  destruct (s.(s_users) !! k) as [x|] eqn:Hk; [|done]. cbn. rewrite lookup_insert_ne; [done|].
  intros <-. destruct (c_map _ _ _ C _ _ Hk) as (o & Ho & _). congruence.
Qed.

Lemma work_ensure key s rs u s' k : ensure_user key s = (u, s') → core s rs None → work_for s' k = work_for s k.
Proof.
  unfold ensure_user. intros E C. destruct (s.(s_users) !! key) eqn:Hk; [by injection E as <- <-|].
  pose proof (work_add_user key s rs k C Hk) as Hw. by rewrite E in Hw.
Qed.

(** Queueing a user gives it work pending. *)
Lemma work_enqueue u s rs limbo k : core s rs limbo → work_for (enqueueLocked u s) k =
  match s.(s_users) !! k, s.(s_objs) !! u with
  | Some x, Some _ => if decide (x = u) then Pending else work_for s k
  | _, _ => work_for s k
  end.
Proof.
  intros C. unfold enqueueLocked. rewrite (work_same (update u (u_with_state userQueued) s)) by done.
  by rewrite (work_update _ _ _ rs limbo).
Qed.

Lemma work_retry_due turns now s rs k : core s rs None → work_for (retry_due turns now s) k = work_for s k.
Proof.
  revert s. induction turns as [|n IH]; intros s C; cbn [retry_due]; [done|].
  destruct (s.(s_retries)) as [|x r] eqn:Er; [done|]. destruct (now <? _); [done|].
  destruct (heap_pop _ _) as [[u rest]|] eqn:Hpop; [|done]. rewrite <- Er in Hpop.
  destruct (core_pop s rs u rest Hpop C) as (C1 & Hp & _). rewrite IH by by apply core_enqueue.
  rewrite (work_enqueue _ _ rs (Some u)) by done. cbn [s_with_retries s_users s_objs].
  destruct (s.(s_users) !! k) as [y|] eqn:Hk; [|by apply work_same]. destruct (s.(s_objs) !! u) as [o|] eqn:Ho; [|by apply work_same].
  case_decide; [subst y|by apply work_same]. unfold work_for, user_of. rewrite Hk. cbn. rewrite Ho. cbn.
  assert (u ∈ s.(s_retries)) as Hin by (rewrite Hp; left). user_of C Ho. unfold work_of. by rewrite (proj2 (b_retry0 ltac:(done)) Hin).
Qed.

(** Starting a user: its work is running, and clean; the others' is as it was. *)
Lemma work_next now s rs s' r k : next_section now s = (s', r) → core s rs None →
  match r with
  | NextRuns u => work_for s' k = if decide (k = key_of u s') then Working false else work_for s k
  | _ => work_for s' k = work_for s k
  end.
Proof.
  unfold next_section. intros E C. destruct (s_draining s); [by injection E as <- <-|].
  pose proof (core_retry_due (length s.(s_retries)) now s rs C) as C1.
  pose proof (work_retry_due (length s.(s_retries)) now s rs k C) as W1. fold (retryDueLocked now s) in *.
  set (s1 := retryDueLocked now s) in *. clearbody s1.
  destruct (firstUnheldLocked s1) as [u|] eqn:Hu; injection E as <- <-; [|done].
  apply firstUnheld_queued in Hu as [Hin _]. destruct (c_queue_known _ _ _ C1 _ Hin) as [o Ho].
  unfold start_user. set (f := λ o, u_with_dirtySince zero_time (u_with_dirty false (u_with_added 0 (u_with_state userRunning o)))).
  cbv zeta. set (s2 := s_with_queue _ s1). rewrite (work_same (update u f s2)) by done.
  assert (core s2 rs (Some u)) as C2 by by apply core_unqueue.
  assert (key_of u (s_with_running (s_running (update u f s2) + 1) (update u f s2)) = o.(u_key)) as ->.
  { unfold key_of. cbn. by rewrite lookup_alter_eq, Ho. }
  case_decide as Hk.
  - subst k. rewrite (work_update u f s2 rs (Some u)) by done. change (s_objs s2) with (s_objs s1). rewrite Ho.
    user_of C2 Ho. rewrite b_live0 by auto. by rewrite decide_True.
  - rewrite (work_other u f s2 rs (Some u)); [|done|done|unfold key_of; change (s_objs s2) with (s_objs s1); by rewrite Ho].
    rewrite (work_same s1) by done. done.
Qed.

(** The work of the user at hand, as the section reads it. *)
Lemma work_at key u o s : s.(s_users) !! key = Some u → s.(s_objs) !! u = Some o → work_for s key = work_of o.
Proof. intros Hk Ho. unfold work_for, user_of. rewrite Hk. cbn. by rewrite Ho. Qed.

Lemma key_of_at u o s : s.(s_objs) !! u = Some o → key_of u s = o.(u_key).
Proof. unfold key_of. by intros ->. Qed.

Lemma work_Notify now key chars s rs s' ok line k : Notify now key chars s = (s', ok, line) → core s rs None →
  work_for s' k =
  if ok then if decide (k = key) then match work_for s key with Working _ => Working true | _ => Pending end else work_for s k
  else work_for s k.
Proof.
  unfold Notify. destruct (_ && _) eqn:Hdrop; intros E C.
  { injection E as <- <- _. destruct (_ || _); [|done]. by apply work_same. }
  fold (ensure_user key s) in E. destruct (ensure_user key s) as [u s1] eqn:Eu.
  destruct (ensure_user_ok _ _ _ _ _ Eu C) as (C1 & Hk & _ & _ & o & Ho & Hko & _).
  rewrite <- !(work_ensure key s rs u s1 _ Eu C). rewrite (work_at key u o s1 Hk Ho).
  set (f := λ o, u_with_backlog (add64 o.(u_backlog) chars) o) in *.
  assert (core (update u f s1) rs None) as C2 by (apply core_update; [done|by right|done]).
  cbn [update s_with_objs s_objs] in E. rewrite lookup_alter_eq, Ho in E. cbn [fmap option_fmap option_map u_with_backlog u_state u_dirty f] in E.
  injection E as <- <- _. change (s_with_objs (alter f u (s_objs s1)) s1) with (update u f s1).
  rewrite (work_same (match u_state o with userIdle => _ | _ => _ end)) by done.
  assert (∀ k, work_for (update u f s1) k = work_for s1 k) as Wf by (intros; by apply (work_inert u f s1 rs None)).
  unfold work_of. destruct (u_state o) eqn:Hst.
  - rewrite (work_enqueue _ _ rs None) by (apply core_update; [done|by right|done]). cbn. rewrite !lookup_alter_eq, Ho. cbn.
    case_decide as E; [subst k; rewrite Hk; by rewrite decide_True|].
    destruct (s_users s1 !! k) as [x|] eqn:Hx; [case_decide; [subst x; destruct (c_map _ _ _ C1 _ _ Hx) as (p & Hp & ?); congruence|]|].
    all: rewrite (work_inert u (u_with_since now) _ rs None); [apply Wf|done|done|done].
  - rewrite Wf. case_decide; [subst k|done]. rewrite (work_at _ _ _ _ Hk Ho). unfold work_of. by rewrite Hst.
  - cbv zeta. set (g := λ o, u_with_added (add64 o.(u_added) chars) o).
    set (h := λ o, u_with_dirtySince now (u_with_dirty true o)).
    assert (core (update u g (update u f s1)) rs None) as C3 by (apply core_update; [done|by right|done]).
    assert (∀ k, work_for (update u g (update u f s1)) k = work_for s1 k) as Wg.
    { intros x. rewrite (work_inert u g _ rs None); [apply Wf|done|done|done]. }
    case_decide as E.
    + subst k. destruct (u_dirty o) eqn:Hd.
      * rewrite Wg, (work_at _ _ _ _ Hk Ho). unfold work_of. by rewrite Hst, Hd.
      * rewrite (work_update u h _ rs None) by done. cbn. rewrite Hk, !lookup_alter_eq, Ho. cbn. rewrite decide_True by done.
        unfold work_of. cbn. by rewrite Hst.
    + destruct (u_dirty o); [apply Wg|]. rewrite (work_other u h _ rs None); [apply Wg|done|done|].
      rewrite (key_of_at u (g (f o))); [by cbn; rewrite Hko|]. cbn. by rewrite !lookup_alter_eq, Ho.
  - rewrite Wf. case_decide; [subst k|done]. rewrite (work_at _ _ _ _ Hk Ho). unfold work_of. by rewrite Hst.
Qed.

(** Changes of the counts of holds and waiters. *)
Lemma work_update_counts u f s k : (∀ o, (f o).(u_state) = o.(u_state) ∧ (f o).(u_dirty) = o.(u_dirty)) →
  work_for (update u f s) k = work_for s k.
Proof.
  intros Hf. unfold work_for, user_of. cbn. destruct (s.(s_users) !! k) as [x|]; [|done]. cbn. rewrite lookup_alter.
  case_decide; [subst x|done]. destruct (s.(s_objs) !! u) as [o|]; [|done]. cbn. unfold work_of. by destruct (Hf o) as [-> ->].
Qed.

Lemma work_wait_end u s k : work_for (wait_end u s) k = work_for s k.
Proof. unfold wait_end. rewrite work_forget. by apply work_update_counts. Qed.

Lemma work_wait_check now u limit s rs s' r k : wait_check now u limit s = (s', r) → core s rs None →
  work_for s' k = work_for s k ∨ work_for s' k = Pending.
Proof.
  unfold wait_check. intros E C. destruct (s.(s_objs) !! u) as [o|] eqn:Ho; [|injection E as <- _; by left].
  destruct (_ && _ && _ && _); [|injection E as <- _; left; apply work_wait_end].
  case_bool_decide as Hst; [|injection E as <- _; by left].
  destruct (_ <=? _); injection E as <- _; [left; apply work_wait_end|].
  unfold unlockChanged. set (s1 := update u (u_with_since now) s). rewrite (work_same (enqueueLocked u s1)) by done.
  assert (core s1 rs None) as C1 by (apply core_update; [done|by right|done]).
  rewrite (work_enqueue u s1 rs None) by done.
  assert (work_for s1 k = work_for s k) as W by by apply work_update_counts.
  repeat case_match; auto.
Qed.

Lemma work_wait_begin now key limit s rs s' r k : wait_begin now key limit s = (s', r) → core s rs None →
  work_for s' k = work_for s k ∨ work_for s' k = Pending.
Proof.
  unfold wait_begin. intros E C. destruct (s.(s_users) !! key) as [u|] eqn:Hk; [|injection E as <- _; by left].
  destruct (wait_check _ _ _ _) as [s1 turn] eqn:Hc. set (f := λ o, u_with_waiters (o.(u_waiters) + 1) o) in *.
  destruct (c_map _ _ _ C _ _ Hk) as (o & Ho & Hko).
  assert (core (update u f s) (AWait u limit now 0 :: rs) None) as C1.
  { apply (core_refs u _ 0 1 s rs); [intros p; cbn; split_and!; [done|lia|done]|done| |by exists o|..|done]; try done.
    - intros p Hp _. congruence.
    - intros y. rewrite count_of_other by done. case_decide; lia.
    - intros y. rewrite (count_of_cons waiter). cbn [waiter]. repeat case_decide; try congruence; lia. }
  destruct (work_wait_check _ _ _ _ _ _ _ k Hc C1) as [W|W]; destruct turn; injection E as <- _; [left| left|by right|by right];
    rewrite W; by apply work_update_counts.
Qed.

Lemma work_Hold key s rs u s' k : Hold key s = (u, s') → core s rs None → work_for s' k = work_for s k.
Proof.
  unfold Hold. fold (ensure_user key s). destruct (ensure_user key s) as [x s1] eqn:Eu. intros E C. injection E as <- <-.
  rewrite work_update_counts by done. by eapply work_ensure.
Qed.

Lemma work_hold_release u s k : work_for (hold_release u s) k = work_for s k.
Proof.
  unfold hold_release, unlockChanged. set (s1 := update u _ s). rewrite (work_same (forgetLocked u s1)) by done.
  rewrite work_forget. by apply work_update_counts.
Qed.

Lemma work_Measured key chars s k : work_for (Measured key chars s) k = work_for s k.
Proof.
  unfold Measured. destruct (user_of key s) as [[u o]|]; [|done]. destruct (_ || _); [done|].
  set (f := λ o, u_with_measured true (u_with_backlog chars o)).
  rewrite (work_same (update u f s)) by done. by apply work_update_counts.
Qed.

(** Writing to a user that is known. *)
Lemma work_set u f s rs limbo k p : core s rs limbo → keeps_identity f → s.(s_objs) !! u = Some p →
  s.(s_users) !! p.(u_key) = Some u →
  work_for (update u f s) k = if decide (k = p.(u_key)) then work_of (f p) else work_for s k.
Proof.
  intros C Hid Hp Hk. case_decide as E.
  - subst k. rewrite (work_update u f s rs limbo) by done. rewrite Hk, Hp. by rewrite decide_True.
  - rewrite (work_other u f s rs limbo); [done|done|done|]. by rewrite (key_of_at u p).
Qed.

Lemma work_settled now jitter cut u backlog err before s rs k p : core s rs (Some u) → s.(s_objs) !! u = Some p →
  work_for (settled now jitter cut u backlog err before s) k =
  if decide (k = p.(u_key))
  then if cut then Pending else match err with Some _ => Pending | None => if u_dirty before then Pending else Resting end
  else work_for s k.
Proof.
  intros C Hp. assert (s.(s_users) !! p.(u_key) = Some u) as Hk by (user_of C Hp; auto).
  assert (∀ s' q, core s' rs (Some u) → s'.(s_objs) !! u = Some q → q.(u_key) = p.(u_key) → s'.(s_users) = s.(s_users) →
    (∀ x, x ≠ p.(u_key) → work_for s' x = work_for s x) →
    work_for (enqueueLocked u s') k = if decide (k = p.(u_key)) then Pending else work_for s k) as Henq.
  { intros s' q C' Hq Hkq Hus Hw. unfold enqueueLocked. rewrite (work_same (update u (u_with_state userQueued) s')) by done.
    rewrite (work_set u _ s' rs (Some u) k q); [|done|done|done|congruence]. rewrite Hkq. case_decide; [done|by apply Hw]. }
  unfold settled. destruct cut; [by apply (Henq s p)|]. destruct err as [err|]; cbv zeta.
  - set (f := λ o, u_with_seq _ _). rewrite (work_same (update u f (s_with_retrySeq ((s_retrySeq s + 1) mod 2 ^ 64) s))) by done.
    rewrite (work_set u f _ rs (Some u) k p); [|by apply (core_same s)|done|done|done]. case_decide; [done|by apply work_same].
  - assert (core (update u (u_with_failures 0) s) rs (Some u)) as C1 by (apply core_update; [done|by left|done]).
    assert (∀ x, work_for (update u (u_with_failures 0) s) x = work_for s x) as W1 by (intros; by apply work_update_counts).
    destruct (u_dirty before).
    + eapply Henq; [apply core_update; [done|by left|exact C1]|cbn; by rewrite !lookup_alter_eq, Hp|done|done|].
      intros x _. rewrite work_update_counts by done. apply W1.
    + rewrite (work_set u _ _ rs (Some u) k (u_with_failures 0 p)); [|done|done|cbn; by rewrite lookup_alter_eq, Hp|done].
      cbn [u_with_failures u_key]. case_decide; [done|apply W1].
Qed.

(** A job that ended leaves work pending, unless it succeeded and missed nothing. *)
Lemma work_finish now jitter cut u backlog err s rs k o :
  s.(s_objs) !! u = Some o → core s (WEnded u backlog err now jitter cut :: rs) None →
  work_for (finish now jitter cut u backlog err s) k =
  if decide (k = o.(u_key))
  then if cut then Pending else match err with Some _ => Pending | None => if u_dirty o then Pending else Resting end
  else work_for s k.
Proof.
  intros Ho C. rewrite (finish_unfold _ _ _ _ _ _ _ o) by done.
  assert (core (measured_end u backlog o.(u_key) s) rs (Some u)) as C1 by (eapply core_measured_end; [..|exact C]; done).
  assert (∀ x, work_for (measured_end u backlog o.(u_key) s) x = work_for s x) as W1.
  { intros x. unfold measured_end. cbv zeta. rewrite work_update_counts by done. destruct (0 <=? backlog); [|by apply work_same].
    set (f := λ o, u_with_measured true _). rewrite (work_same (update u f (s_with_running (s_running s - 1) s))) by done.
    rewrite work_update_counts by done. by apply work_same. }
  assert (∃ p, (measured_end u backlog o.(u_key) s).(s_objs) !! u = Some p ∧ p.(u_key) = o.(u_key)) as (p & Hp & Hkp).
  { unfold measured_end. destruct (0 <=? backlog); cbn; rewrite !lookup_alter_eq, Ho; cbn; by eexists. }
  set (s1 := measured_end u backlog o.(u_key) s) in *. clearbody s1.
  set (s2 := settled now jitter cut u backlog err o s1).
  assert (core s2 rs None) as C2 by by apply core_settled.
  unfold unlockChanged. set (f := λ o, u_with_dirtySince zero_time (u_with_dirty false o)).
  rewrite (work_same (forgetLocked u (update u f s2))) by done. rewrite work_forget.
  assert (work_for (update u f s2) k = work_for s2 k) as ->.
  { rewrite (work_update u f s2 rs None) by done. destruct (s_users s2 !! k) as [x|] eqn:Hx; [|done].
    destruct (s_objs s2 !! u) as [q|] eqn:Hq; [|done]. case_decide; [subst x|done]. rewrite (work_at _ _ _ _ Hx Hq).
    assert (q.(u_state) ≠ userRunning) as Hnr.
    { destruct (b_out _ _ _ _ _ (c_user _ _ _ C1 _ _ Hp) eq_refl) as (_ & _ & Hz). user_of C2 Hq.
      rewrite b_job0 by done. lia. }
    unfold work_of. cbn. by destruct (u_state q). }
  unfold s2. rewrite (work_settled _ _ _ _ _ _ _ _ rs _ p) by done. rewrite Hkp. by rewrite W1.
Qed.

(** ** Every state the program reaches *)

Definition fixed (s s' : scheduler) : Prop :=
  s'.(s_workers) = s.(s_workers) ∧ s'.(s_maxUsers) = s.(s_maxUsers) ∧ s'.(s_started) = s.(s_started).

Lemma fixed_forget u s : fixed s (forgetLocked u s).
Proof. unfold forgetLocked. by repeat case_match. Qed.

Lemma fixed_ensure key s u s' : ensure_user key s = (u, s') → fixed s s'.
Proof. unfold ensure_user, add_user. by case_match; intros [= <- <-]. Qed.

Lemma fixed_retry_due turns now s : fixed s (retry_due turns now s).
Proof.
  revert s. induction turns as [|n IH]; intros s; cbn [retry_due]; [done|].
  destruct (s_retries s); [done|]. destruct (now <? _); [done|]. destruct (heap_pop _ _) as [[u rest]|]; [|done].
  exact (IH (enqueueLocked u (s_with_retries rest s))).
Qed.

Lemma fixed_next now s s' r : next_section now s = (s', r) → fixed s s'.
Proof.
  unfold next_section. destruct (s_draining s); [by intros [= <- <-]|].
  pose proof (fixed_retry_due (length (s_retries s)) now s) as Hf. fold (retryDueLocked now s) in Hf.
  destruct (firstUnheldLocked _); intros [= <- <-]; exact Hf.
Qed.

Lemma fixed_Notify now key chars s s' ok line : Notify now key chars s = (s', ok, line) → fixed s s'.
Proof.
  unfold Notify. destruct (_ && _); intros E; [injection E as <- _ _; by destruct (_ || _)|].
  fold (ensure_user key s) in E. destruct (ensure_user key s) as [u s1] eqn:Eu. apply fixed_ensure in Eu.
  injection E as <- _ _. by repeat case_match.
Qed.

Lemma fixed_wait_end u s : fixed s (wait_end u s).
Proof. exact (fixed_forget u (update u _ s)). Qed.

Lemma fixed_wait_check now u limit s s' r : wait_check now u limit s = (s', r) → fixed s s'.
Proof.
  unfold wait_check. destruct (s_objs s !! u); [|by intros [= <- <-]].
  destruct (_ && _ && _ && _); [|intros [= <- <-]; apply fixed_wait_end].
  case_bool_decide; [|by intros [= <- <-]]. destruct (_ <=? _); intros [= <- <-]; [apply fixed_wait_end|done].
Qed.

Lemma fixed_wait_begin now key limit s s' r : wait_begin now key limit s = (s', r) → fixed s s'.
Proof.
  unfold wait_begin. destruct (s_users s !! key); [|by intros [= <- <-]].
  destruct (wait_check _ _ _ _) as [s1 turn] eqn:E. apply fixed_wait_check in E. destruct turn; by intros [= <- <-].
Qed.

Lemma fixed_Hold key s u s' : Hold key s = (u, s') → fixed s s'.
Proof.
  unfold Hold. fold (ensure_user key s). destruct (ensure_user key s) as [x s1] eqn:Eu. apply fixed_ensure in Eu. by intros [= <- <-].
Qed.

Lemma fixed_finish now jitter cut u backlog err s : fixed s (finish now jitter cut u backlog err s).
Proof.
  destruct (s_objs s !! u) as [o|] eqn:Ho; [|unfold finish; by rewrite Ho]. rewrite (finish_unfold _ _ _ _ _ _ _ o) by done.
  unfold unlockChanged. match goal with |- fixed _ (s_with_changed _ (forgetLocked _ ?x)) => pose proof (fixed_forget u x) as F; assert (fixed s x) as G end.
  { unfold settled, measured_end. by repeat case_match. }
  unfold fixed in *. cbn. naive_solver congruence.
Qed.

Definition workers_of (rs : list routine) : Z := Z.of_nat (length (filter (λ t, worker t = true) rs)).

Record program_ok (workers maxUsers : Z) (p : world * list routine) : Prop := {
  po_core : core p.1.(w_s) p.2 None;
  po_wakes : Forall (wakes p.1.(w_s)) p.2;
  po_owes k : owes p.1 k;
  po_workers : workers_of p.2 <= Z.max 0 workers;
  po_started : p.1.(w_s).(s_started) = false → Forall (λ t, worker t = false) p.2;
  po_fixed : p.1.(w_s).(s_workers) = workers ∧ p.1.(w_s).(s_maxUsers) = maxUsers;
}.

Lemma workers_of_cons t rs : workers_of (t :: rs) = (if worker t then 1 else 0) + workers_of rs.
Proof. unfold workers_of. rewrite filter_cons. destruct (worker t); [rewrite decide_True by done; cbn [length]; lia|by rewrite decide_False]. Qed.

(** A goroutine goes on, with a new scheduler. *)
Lemma program_goes_on workers maxUsers w t next rest s' w' :
  program_ok workers maxUsers (w, t :: rest) → w'.(w_s) = s' → fixed w.(w_s) s' → tells w.(w_s) s' →
  core s' (option_list next ++ rest) None →
  (∀ t', next = Some t' → worker t' = worker t ∧ wakes s' t') → (∀ k, owes w' k) →
  program_ok workers maxUsers (w', option_list next ++ rest).
Proof.
  intros [C W O Wk St Fx] Es (F1 & F2 & F3) Ht C' Hnext O'. cbn [fst snd] in *. apply Forall_cons in W as [_ W].
  rewrite workers_of_cons in Wk. split; cbn [fst snd]; rewrite ?Es; [done| |done| | |rewrite F1, F2; done].
  - apply Forall_app. split; [destruct next as [t'|]; [|done]; apply Forall_singleton; by apply (Hnext t')|].
    eapply Forall_impl; [exact W|]. intros x. by apply wakes_tells.
  - destruct next as [t'|]; [change (option_list (Some t') ++ rest) with (t' :: rest)|change (option_list None ++ rest) with rest; revert Wk; destruct (worker t); lia].
    rewrite workers_of_cons. by destruct (Hnext t' eq_refl) as [-> _].
  - rewrite F3. intros Hs. apply St in Hs as [Hs1 Hs2]%Forall_cons. apply Forall_app. split; [|done].
    destruct next as [t'|]; [|done]. apply Forall_singleton. by destruct (Hnext t' eq_refl) as [-> _].
Qed.

Lemma owes_same w w' k : work_for w'.(w_s) k = work_for w.(w_s) k ∨ work_for w'.(w_s) k = Pending →
  w'.(w_accepted) k = w.(w_accepted) k → w'.(w_begun) k = w.(w_begun) k → w'.(w_covered) k = w.(w_covered) k →
  owes w k → owes w' k.
Proof. intros Hw Ea Eb Ec (H1 & H2 & H3). unfold owes. rewrite Ea, Eb, Ec. destruct Hw as [->| ->]; done. Qed.

Lemma routine_step_ok workers maxUsers t w next w' rest :
  routine_step t w next w' → program_ok workers maxUsers (w, t :: rest) →
  program_ok workers maxUsers (w', option_list next ++ rest).
Proof.
  intros Hstep Hok. pose proof Hok as [C W O Wk St Fx]. cbn [fst snd] in *.
  pose proof (proj1 (proj1 (Forall_cons _ _ _) W)) as Hle. pose proof (proj2 (proj1 (Forall_cons _ _ _) W)) as Hwt.
  assert (∀ t', job t' = job t → holder t' = holder t → waiter t' = waiter t → core w.(w_s) (t' :: rest) None) as Crep.
  { intros t' Hj Hh Hw. eapply core_routines; [by apply same_refs_replace|exact C]. }
  assert (∀ k, job t = None → holder t = None → waiter t = None → owes w k → core w.(w_s) rest None) as Cdrop.
  { intros _ Hj Hh Hw _. eapply core_routines; [|exact C]. apply (same_refs_neutral [t]). by repeat constructor. }
  destruct Hstep as [w Hcut|w Hcut|c w|c now w s' E|c now w s' u E|c now w s' wait E|c now wait w|c timer w Hwake|u backlog err jitter w
    |u backlog err now jitter cut w|u limit now c w|u limit now c w s' Hc E|u limit now c w s' c' Hc E|u w|c w|c w Hc Hrun].
  - eapply (program_goes_on _ _ w WTop None rest w.(w_s)); [exact Hok|done|done|by left|by apply (Cdrop "")|done|done].
  - eapply (program_goes_on _ _ w WTop (Some _) rest w.(w_s)); [exact Hok|done|done|by left|by apply Crep| |done].
    intros t' [= <-]. split; [done|]. split; [intros ? [= <-]; done|done].
  - eapply (program_goes_on _ _ w (WTaken c) (Some _) rest w.(w_s)); [exact Hok|done|done|by left|by apply Crep| |done].
    intros t' [= <-]. split; [done|]. split; [apply Hle|done].
  - eapply (program_goes_on _ _ w (WRead c now) None rest s'); [exact Hok|done|by eapply fixed_next|left; by eapply quiet_next| |done|].
    + apply (core_next _ _ _ _ _ E). by apply (Cdrop "").
    + intros k. eapply owes_same; [left|..|apply O]; try done. apply (work_next _ _ _ _ _ _ E C).
  - (* a user starts *)
    assert (core s' (WJob u :: rest) None) as C' by (apply (core_next _ _ _ _ _ E); by apply (Cdrop "")).
    eapply (program_goes_on _ _ w (WRead c now) (Some _) rest s'); [exact Hok|done|by eapply fixed_next|left; by eapply quiet_next|done| |].
    + intros t' [= <-]. split; [done|]. by split.
    + intros k. pose proof (work_next _ _ _ _ _ k E C) as Hw. cbn in Hw. destruct (O k) as (O1 & O2 & O3).
      unfold owes. cbn [w_s w_accepted w_begun w_covered]. unfold set_at. rewrite Hw. case_decide as Ek; [|done]. rewrite <- Ek. split_and!; [lia|lia|done].
  - eapply (program_goes_on _ _ w (WRead c now) (Some _) rest s'); [exact Hok|done|by eapply fixed_next|left; by eapply quiet_next| | |].
    + eapply core_routines; [by apply (same_refs_replace (WRead c now))|apply (core_next _ _ _ _ _ E C)].
    + intros t' [= <-]. split; [done|]. split.
      * intros ? [= <-]. rewrite (q_changed _ _ (quiet_next _ _ _ _ _ E C)). by apply Hle.
      * intros _. exact (next_sleeps _ _ _ _ _ E C).
    + intros k. eapply owes_same; [left|..|apply O]; try done. apply (work_next _ _ _ _ _ _ E C).
  - eapply (program_goes_on _ _ w (WArming c now wait) (Some _) rest w.(w_s)); [exact Hok|done|done|by left|by apply Crep| |done].
    intros t' [= <-]. split; [done|]. split; [apply Hle|]. cbn [channel]. intros Hc u o Ho Hs.
    destruct (proj2 Hle Hc u o Ho Hs) as [Hpos Hat]. rewrite (proj2 (Z.ltb_lt _ _) Hpos). do 2 eexists. split; [done|]. lia.
  - eapply (program_goes_on _ _ w (WSleep c timer) (Some _) rest w.(w_s)); [exact Hok|done|done|by left|by apply Crep| |done].
    intros t' [= <-]. by split.
  - eapply (program_goes_on _ _ w (WJob u) (Some _) rest w.(w_s)); [exact Hok|done|done|by left|by apply Crep| |done].
    intros t' [= <-]. by split.
  - (* a job ends *)
    destruct (c_known _ _ _ C _ u ltac:(left) (or_introl eq_refl)) as [o Ho].
    eapply (program_goes_on _ _ w (WEnded u backlog err now jitter cut) (Some _) rest); [exact Hok|done|apply fixed_finish|apply tells_finish; by exists o| | |].
    + eapply core_routines; [|apply core_finish, C]. apply (same_refs_neutral [WTop]). by repeat constructor.
    + intros t' [= <-]. by split.
    + intros k. pose proof (work_finish _ _ _ _ _ _ _ _ k o Ho C) as Hw. destruct (O k) as (O1 & O2 & O3).
      unfold owes. cbn [w_s w_accepted w_begun w_covered]. rewrite Hw. rewrite (key_of_at u o) by done.
      assert (s_users (w_s w) !! u_key o = Some u ∧ u_state o = userRunning) as [Hk Hst].
      { user_of C Ho. assert (u_state o = userRunning) as Hst by (apply b_job0; [done|]; eapply count_of_pos; [left|done]).
        split; [apply b_live0; left; by rewrite Hst|done]. }
      case_decide as Ek.
      * subst k. rewrite (work_at _ _ _ _ Hk Ho) in O3. unfold work_of in O3. rewrite Hst in O3.
        destruct cut; [done|]. destruct err; [done|]. unfold set_at. rewrite decide_True by done.
        destruct (u_dirty o); split_and!; auto; lia.
      * destruct cut; [done|]. destruct err; [done|]. unfold set_at. by rewrite decide_False.
  - eapply (program_goes_on _ _ w (AWait u limit now c) None rest); [exact Hok|done|apply fixed_wait_end|left; apply quiet_wait_end|by eapply core_wait_end|done|].
    intros k. eapply owes_same; [left; apply work_wait_end|done|done|done|apply O].
  - destruct (tells_wait_check _ _ _ _ _ _ E) as [Ht _].
    eapply (program_goes_on _ _ w (AWait u limit now c) None rest); [exact Hok|done|by eapply fixed_wait_check|done|exact (core_wait_check _ _ _ _ _ _ _ _ E C)|done|].
    intros k. eapply owes_same; [exact (work_wait_check _ _ _ _ _ _ _ k E C)|done|done|done|apply O].
  - destruct (tells_wait_check _ _ _ _ _ _ E) as [Ht Hw].
    eapply (program_goes_on _ _ w (AWait u limit now c) (Some _) rest); [exact Hok|done|by eapply fixed_wait_check|done|exact (core_wait_check _ _ _ _ _ _ _ _ E C)| |].
    + intros t' [= <-]. split; [done|]. apply Hw.
    + intros k. eapply owes_same; [exact (work_wait_check _ _ _ _ _ _ _ k E C)|done|done|done|apply O].
  - eapply (program_goes_on _ _ w (AHold u) None rest); [exact Hok|done|exact (fixed_forget u (update u _ _))| |by apply core_hold_release|done|].
    + right. unfold hold_release, unlockChanged. cbn [s_with_changed s_changed]. rewrite changed_forget. cbn. lia.
    + intros k. eapply owes_same; [left; apply work_hold_release|done|done|done|apply O].
  - eapply (program_goes_on _ _ w (DWait c) None rest w.(w_s)); [exact Hok|done|done|by left|by apply (Cdrop "")|done|done].
  - eapply (program_goes_on _ _ w (DWait c) (Some _) rest w.(w_s)); [exact Hok|done|done|by left|by apply Crep| |done].
    intros t' [= <-]. split; [done|]. split; [intros ? [= <-]; done|]. intros _. unfold runningJobs in Hrun.
    rewrite (c_running _ _ _ C) in *. unfold jobs in *. lia.
Qed.

Lemma workers_of_replicate n rs : Forall (λ t, worker t = false) rs → workers_of (replicate n WTop ++ rs) = Z.of_nat n.
Proof.
  intros Hrs. induction n as [|n IH]; cbn [replicate app]; [|rewrite workers_of_cons, IH; cbn [worker]; lia].
  induction Hrs as [|t rs Ht _ IH]; [done|]. rewrite workers_of_cons, IH, Ht. done.
Qed.

(** The server starts goroutines that are not workers, with a new scheduler. *)
Lemma program_serves workers maxUsers w rs news s' w' :
  program_ok workers maxUsers (w, rs) → w'.(w_s) = s' → fixed w.(w_s) s' → tells w.(w_s) s' →
  core s' (news ++ rs) None → Forall (λ t, worker t = false ∧ wakes s' t) news → (∀ k, owes w' k) →
  program_ok workers maxUsers (w', news ++ rs).
Proof.
  intros [C W O Wk St Fx] Es (F1 & F2 & F3) Ht C' Hnew O'. cbn [fst snd] in *.
  split; cbn [fst snd]; rewrite ?Es; [done| |done| | |rewrite F1, F2; done].
  - apply Forall_app. split; [eapply Forall_impl; [exact Hnew|]; by intros ? [_ ?]|].
    eapply Forall_impl; [exact W|]. intros x. by apply wakes_tells.
  - clear C'. induction Hnew as [|t news [Ht' _] _ IH]; [done|]. cbn [app]. rewrite workers_of_cons, Ht'. exact IH.
  - rewrite F3. intros Hs. apply Forall_app. split; [|by apply St]. eapply Forall_impl; [exact Hnew|]. by intros ? [? _].
Qed.

Lemma server_step_ok workers maxUsers w rs w' rs' : server_step w rs w' rs' →
  program_ok workers maxUsers (w, rs) → program_ok workers maxUsers (w', rs').
Proof.
  intros Hstep Hok. pose proof Hok as [C W O Wk St Fx]. cbn [fst snd] in *.
  destruct Hstep as [w rs d Hd|w rs|w rs now key chars s' ok line Hnow E|w rs now key limit s' E|w rs now key limit s' u c E|w rs key u s' E
    |w rs|w rs Hrun Hdr|w rs key chars|w rs|w rs s' E|w rs Hs Hnone].
  - eapply (program_serves _ _ w rs [] w.(w_s)); [exact Hok|done|done|by left|done|done|]. intros k. apply (O k).
  - eapply (program_serves _ _ w rs [] w.(w_s)); [exact Hok|done|done|by left|done|done|]. intros k. apply (O k).
  - eapply (program_serves _ _ w rs [] s'); [exact Hok|done|by eapply fixed_Notify|by eapply tells_Notify|by eapply core_Notify|done|].
    intros k. pose proof (work_Notify _ _ _ _ _ _ _ _ k E C) as Hw. destruct (O k) as (O1 & O2 & O3).
    unfold owes. cbn [w_s w_accepted w_begun w_covered]. rewrite Hw. destruct ok; [|done]. unfold set_at.
    case_decide; [subst k|done]. split_and!; [lia|lia|]. by destruct (work_for _ key).
  - destruct (tells_wait_begin _ _ _ _ _ _ E) as [Ht _].
    eapply (program_serves _ _ w rs [] s'); [exact Hok|done|by eapply fixed_wait_begin|done|exact (core_wait_begin _ _ _ _ _ _ _ E C)|done|].
    intros k. eapply owes_same; [exact (work_wait_begin _ _ _ _ _ _ _ k E C)|done|done|done|apply O].
  - destruct (tells_wait_begin _ _ _ _ _ _ E) as [Ht Hw].
    eapply (program_serves _ _ w rs [_] s'); [exact Hok|done|by eapply fixed_wait_begin|done|exact (core_wait_begin _ _ _ _ _ _ _ E C)| |].
    + by apply Forall_singleton.
    + intros k. eapply owes_same; [exact (work_wait_begin _ _ _ _ _ _ _ k E C)|done|done|done|apply O].
  - eapply (program_serves _ _ w rs [_] s'); [exact Hok|done|by eapply fixed_Hold|left; by eapply quiet_Hold|exact (core_Hold _ _ _ _ _ E C)| |].
    + apply Forall_singleton. split; [done|]. by split.
    + intros k. eapply owes_same; [left; by eapply work_Hold|done|done|done|apply O].
  - eapply (program_serves _ _ w rs [] _); [exact Hok|done|done|right; cbn; lia|by apply (core_same w.(w_s))|done|].
    intros k. eapply owes_same; [left; by apply work_same|done|done|done|apply O].
  - eapply (program_serves _ _ w rs [_] w.(w_s)); [exact Hok|done|done|by left| | |apply O].
    + eapply core_routines; [|exact C]. apply (same_refs_neutral [_]). by repeat constructor.
    + apply Forall_singleton. split; [done|]. split; [intros ? [= <-]; done|]. intros _. unfold runningJobs in Hrun.
      rewrite (c_running _ _ _ C) in *. unfold jobs in *. lia.
  - eapply (program_serves _ _ w rs [] _); [exact Hok|done| | |by apply core_Measured|done|].
    + unfold Measured. by repeat case_match.
    + unfold Measured. destruct (user_of key _) as [[u o]|]; [|by left]. destruct (_ || _); [by left|right; cbn; lia].
    + intros k. eapply owes_same; [left; apply work_Measured|done|done|done|apply O].
  - eapply (program_serves _ _ w rs [] _); [exact Hok|done|done|right; cbn; lia|by apply (core_same w.(w_s))|done|].
    intros k. eapply owes_same; [left; by apply work_same|done|done|done|apply O].
  - (* the workers of a new Run: there were none *)
    unfold run_begin in E. destruct (s_started w.(w_s)) eqn:Hs; [done|]. injection E as <-. specialize (St eq_refl).
    set (s' := s_with_stopped false (s_with_started true w.(w_s))). change (s_workers s') with (s_workers w.(w_s)). destruct Fx as [<- <-].
    assert (quiet w.(w_s) s') as Q by (apply quiet_same; [done|done|by right|cbn; lia|done]).
    split; cbn [fst snd w_s].
    + apply (core_same w.(w_s)); try done. eapply core_routines; [|exact C]. apply same_refs_neutral. by apply Forall_replicate.
    + apply Forall_app. split; [apply Forall_replicate; by split|]. eapply Forall_impl; [exact W|]. intros x. by apply wakes_quiet.
    + intros k. eapply owes_same; [left; by apply work_same|done|done|done|apply O].
    + rewrite workers_of_replicate by done. lia.
    + done.
    + done.
  - split; cbn [fst snd w_s with_s]; try done.
    + by apply (core_same w.(w_s)).
    + eapply Forall_impl; [exact W|]. intros x. apply wakes_changed. cbn. lia.
Qed.

Lemma program_start_ok workers maxUsers now : program_ok workers maxUsers (program_start workers maxUsers now).
Proof.
  split; cbn [program_start fst snd w_s]; [|done| |change (workers_of []) with 0; lia|done|done].
  - split; cbn [newScheduler s_objs s_users s_queue s_retries s_running s_maxUsers].
    + intros u o. by rewrite lookup_empty.
    + intros k u. by rewrite lookup_empty.
    + apply NoDup_nil_2.
    + apply NoDup_nil_2.
    + by intros u ?%elem_of_nil.
    + by intros u ?%elem_of_nil.
    + by intros t u ?%elem_of_nil.
    + done.
    + intros u. unfold count_of. cbn. lia.
    + done.
    + intros j Hj Hl. cbn in Hl. lia.
    + unfold activeLocked. cbn. lia.
  - intros k. unfold owes, work_for, user_of. cbn. by rewrite lookup_empty.
Qed.

Lemma program_reachable_ok workers maxUsers now p : rtc program_step (program_start workers maxUsers now) p →
  program_ok workers maxUsers p.
Proof.
  intros Hr. pose proof (program_start_ok workers maxUsers now) as Hok. induction Hr as [|x y z Hs _ IH]; [done|]. apply IH.
  destruct Hs as [w rs w' rs' Hs|w rs t rest next w' Hp Hs]; [by eapply server_step_ok|]. eapply routine_step_ok; [exact Hs|].
  destruct Hok as [C W O Wk St Fx]. cbn [fst snd] in *. split; cbn [fst snd]; try done.
  - eapply core_routines; [by apply same_refs_perm|exact C].
  - by rewrite <- Hp.
  - unfold workers_of in *. by rewrite <- Hp.
  - rewrite <- Hp. done.
Qed.

(** ** The contract *)

(** The keys of the users whose jobs run. *)
Definition running_keys (s : scheduler) (rs : list routine) : list string :=
  omap (λ t, (λ u, key_of u s) <$> job t) rs.

Lemma running_keys_known s rs rs' k : core s rs' None → (∀ t, t ∈ rs → t ∈ rs') → k ∈ running_keys s rs →
  ∃ t u o, t ∈ rs ∧ job t = Some u ∧ s.(s_objs) !! u = Some o ∧ o.(u_key) = k ∧ s.(s_users) !! k = Some u.
Proof.
  intros C Hsub (t & Ht & Hk)%list_elem_of_omap. destruct (job t) as [u|] eqn:Hj; [|done]. injection Hk as Hk.
  destruct (c_known _ _ _ C t u (Hsub t Ht) (or_introl Hj)) as [o Ho]. rewrite (key_of_at u o s Ho) in Hk.
  exists t, u, o. split_and!; try done. user_of C Ho. rewrite <- Hk. apply b_live0. left.
  rewrite (proj2 (b_job0 ltac:(done))); [done|]. eapply count_of_pos; [by apply Hsub|done].
Qed.

Lemma running_keys_nodup s rs rs' : core s rs' None → (∀ t, t ∈ rs → t ∈ rs') →
  (∀ u, count_of job u rs <= 1) → NoDup (running_keys s rs).
Proof.
  intros C Hsub. induction rs as [|t rs IH]; intros Hle; [constructor|].
  assert (NoDup (running_keys s rs)) as Hnd.
  { apply IH; [intros; apply Hsub; by right|]. intros u. specialize (Hle u). rewrite count_of_cons in Hle. case_decide; lia. }
  unfold running_keys. cbn [omap list_omap]. destruct (job t) as [u|] eqn:Hj; [|exact Hnd]. cbn. constructor; [|exact Hnd].
  intros Hin. destruct (running_keys_known s rs rs' _ C ltac:(intros; apply Hsub; by right) Hin) as (t' & u' & o & Ht' & Hj' & Ho & Hk & Hu).
  assert (u' = u) as ->.
  { destruct (c_known _ _ _ C t u (Hsub t ltac:(left)) (or_introl Hj)) as [p Hp]. rewrite (key_of_at u p s Hp) in *.
    assert (s.(s_users) !! p.(u_key) = Some u); [|congruence]. user_of C Hp. apply b_live0. left.
    rewrite (proj2 (b_job0 ltac:(done))); [done|]. eapply count_of_pos; [apply Hsub; left|done]. }
  pose proof (count_of_pos job u t' rs Ht' Hj') as Hpos. specialize (Hle u). rewrite count_of_self in Hle by done. lia.
Qed.

(** C9. Whatever Adds, Searches and stops do, and however jobs end: at most one job
    runs per user and at most as many as there are workers; the users with work,
    queued, running or backing off, are never more than the bound; a user known to
    the scheduler is in the queue exactly when it is queued, in the retry heap
    exactly when it backs off and running exactly when a worker has its job, each
    at most once; and a job starts only for a user that no Search holds. *)
Theorem scheduler_exclusive (workers maxUsers : Z) (now : Time) (p : world * list routine) :
  rtc program_step (program_start workers maxUsers now) p →
  let s := p.1.(w_s) in let rs := p.2 in
  NoDup (running_keys s rs) ∧ s.(s_running) = Z.of_nat (length (running_keys s rs)) ∧ s.(s_running) <= Z.max 0 workers ∧
  activeLocked s <= Z.max 0 maxUsers ∧ NoDup s.(s_queue) ∧ NoDup s.(s_retries) ∧
  (∀ k u o, user_of k s = Some (u, o) →
    o.(u_key) = k ∧ (o.(u_state) = userQueued ↔ u ∈ s.(s_queue)) ∧ (o.(u_state) = userBackingOff ↔ u ∈ s.(s_retries)) ∧
    (o.(u_state) = userRunning ↔ k ∈ running_keys s rs)) ∧
  (∀ t s' u, next_section t s = (s', NextRuns u) → s.(s_draining) = false ∧ AHold u ∉ rs).
Proof.
  intros Hr. destruct (program_reachable_ok _ _ _ _ Hr) as [C _ _ Wk _ [_ Fm]]. destruct p as [w rs]. cbn [fst snd] in *. cbv zeta.
  assert (w.(w_s).(s_running) = Z.of_nat (length (running_keys w.(w_s) rs))) as Hlen.
  { rewrite (c_running _ _ _ C). unfold jobs, running_keys. f_equal. clear. induction rs as [|t rs IH]; [done|].
    rewrite filter_cons. cbn [omap list_omap]. destruct (job t) as [u|] eqn:Hj; cbn.
    - rewrite decide_True by eauto. cbn. by rewrite IH.
    - rewrite decide_False by by intros [??]. exact IH. }
  split_and!.
  - eapply running_keys_nodup; [exact C|done|apply C].
  - done.
  - etrans; [|exact Wk]. rewrite (c_running _ _ _ C). unfold jobs, workers_of. apply inj_le. clear.
    induction rs as [|t rs IH]; [done|]. rewrite !filter_cons. destruct t; cbn; repeat case_decide; cbn; try lia; naive_solver eauto.
  - rewrite <- Fm. pose proof (c_bound _ _ _ C). cbn in *. lia.
  - apply C.
  - apply C.
  - intros k u o [Hk Ho]%(user_of_known _ _ _ _ _ _ C). destruct (c_map _ _ _ C _ _ Hk) as (o' & Ho' & Hko).
    assert (o' = o) as -> by congruence. pose proof C as C'. user_of C' Ho. split_and!; [done|by apply b_queue0|by apply b_retry0|].
    rewrite (b_job0 ltac:(done)). split.
    + intros (t & Ht & Hj)%count_of_pos_inv. apply list_elem_of_omap. exists t. split; [done|]. rewrite Hj. cbn.
      by rewrite (key_of_at u o _ Ho), Hko.
    + intros Hin. destruct (running_keys_known _ _ _ _ C (λ _ x, x) Hin) as (t & u' & o' & Ht & Hj & _ & _ & Hu').
      assert (u' = u) as -> by congruence. by eapply count_of_pos.
  - intros t s' u. unfold next_section. destruct (s_draining w.(w_s)); [done|]. intros E. split; [done|].
    pose proof (core_retry_due (length (s_retries w.(w_s))) t w.(w_s) rs C) as C1. fold (retryDueLocked t w.(w_s)) in C1.
    destruct (firstUnheldLocked _) as [x|] eqn:Hf; [|done]. injection E as _ <-. apply firstUnheld_queued in Hf as [Hin Hun].
    intros Ha. unfold unheld in Hun. destruct (s_objs (retryDueLocked t w.(w_s)) !! x) as [o|] eqn:Ho; [|done]. apply Z.eqb_eq in Hun.
    user_of C1 Ho. pose proof (count_of_pos holder x (AHold x) rs Ha eq_refl). lia.
Qed.

(** A run of one worker: a user is notified and its job starts. *)
Ltac routine := eapply rtc_l; [eapply (ps_routine _ _ _ _ _ _ (Permutation_refl _)); econstructor; reflexivity|].

Lemma scheduler_exclusive_witness : ∃ p, rtc program_step (program_start 1 2 0) p ∧ p.1.(w_s).(s_running) = 1 ∧
  p.1.(w_s).(s_running) <= Z.max 0 1 ∧ activeLocked p.1.(w_s) <= Z.max 0 2.
Proof.
  assert (∃ p, rtc program_step (program_start 1 2 0) p ∧ p.1.(w_s).(s_running) = 1) as (p & Hr & E).
  { eexists. split; [|cycle 1].
    - eapply rtc_l; [apply ps_server; eapply sv_run; reflexivity|].
      eapply rtc_l; [apply ps_server; eapply (sv_notify _ _ 0 "a" 10); [reflexivity|vm_compute; reflexivity]|].
      routine. routine.
      eapply rtc_l; [eapply (ps_routine _ _ _ _ _ _ (Permutation_refl _)); eapply rs_next_run; vm_compute; reflexivity|].
      apply rtc_refl.
    - reflexivity. }
  exists p. split; [exact Hr|]. split; [exact E|].
  split; apply (scheduler_exclusive 1 2 0 p Hr).
Defined.

(** The end of a backoff touches no one in the queue. *)
Lemma retry_due_kept turns now s u o : s.(s_objs) !! u = Some o → o.(u_state) = userQueued →
  ∃ o', (retry_due turns now s).(s_objs) !! u = Some o' ∧ o'.(u_state) = userQueued ∧ o'.(u_holds) = o.(u_holds).
Proof.
  revert s o. induction turns as [|n IH]; intros s o Ho Hst; cbn [retry_due]; [by exists o|].
  destruct (s_retries s); [by exists o|]. destruct (now <? _); [by exists o|].
  destruct (heap_pop _ _) as [[x rest]|]; [|by exists o].
  assert (∃ p, (enqueueLocked x (s_with_retries rest s)).(s_objs) !! u = Some p ∧ p.(u_state) = userQueued ∧ p.(u_holds) = o.(u_holds)) as (p & Hp & Hps & Hph).
  { cbn. rewrite lookup_alter. case_decide; [subst x|]; rewrite Ho; cbn; by eexists. }
  destruct (IH _ p Hp Hps) as (q & Hq & Hqs & Hqh). exists q. split_and!; [done|done|congruence].
Qed.

(** C11. No goroutine sleeps over something it waits for.  A worker asleep on the open
    change channel, its timer not fired, leaves no user waiting: a queued user that no
    Search holds, or one whose backoff has ended, became so less than [lag] ago, the
    time between the worker's reading of the clock and the start of its timer, and
    the timer is set for it.  An Add asleep in [WaitBacklog] waits for a user whose
    backlog is still above the limit and whose job is queued or running, on a scheduler
    that neither stopped nor drains; a stop asleep in [WaitDrained] waits for a job
    that runs.  And a worker that looks while a user is queued and not held starts a
    job, unless the scheduler drains. *)
Theorem no_lost_wakeups (workers maxUsers : Z) (now : Time) (p : world * list routine) :
  rtc program_step (program_start workers maxUsers now) p →
  let s := p.1.(w_s) in let rs := p.2 in let c := s.(s_changed) in
  (∀ timer u o, WSleep c timer ∈ rs → s.(s_objs) !! u = Some o → startable o →
     ∃ d lag, timer = Some (d, lag) ∧ (p.1.(w_clock) < d → p.1.(w_clock) < o.(u_retryAt) + lag)) ∧
  (∀ u limit t, AWait u limit t c ∈ rs → s.(s_stopped) = false ∧ s.(s_draining) = false ∧
     ∃ o, s.(s_objs) !! u = Some o ∧ limit < o.(u_backlog) ∧ (u ∈ s.(s_queue) ∨ ∃ t, t ∈ rs ∧ job t = Some u)) ∧
  (DWait c ∈ rs → ∃ t u, t ∈ rs ∧ job t = Some u) ∧
  (∀ t s' r u o, next_section t s = (s', r) → s.(s_draining) = false → s.(s_objs) !! u = Some o →
     o.(u_state) = userQueued → o.(u_holds) = 0 → ∃ u', r = NextRuns u').
Proof.
  intros Hr. destruct (program_reachable_ok _ _ _ _ Hr) as [C W _ _ _ _]. destruct p as [w rs]. cbn [fst snd] in *. cbv zeta.
  rewrite Forall_forall in W. split_and!.
  - intros timer u o Hin Ho Hs. destruct (W _ Hin) as [_ Hw]. destruct (Hw eq_refl u o Ho Hs) as (d & lag & -> & Hle).
    exists d, lag. split; [done|lia].
  - intros u limit t Hin. destruct (W _ Hin) as [_ Hw]. destruct (Hw eq_refl) as (H1 & H2 & o & Ho & Hb & Hl). split_and!; [done|done|].
    exists o. split_and!; [done|done|]. user_of C Ho. destruct Hl as [Hl|Hl]; [left; by apply b_queue0|right].
    apply count_of_pos_inv. by apply b_job0.
  - intros Hin. destruct (W _ Hin) as [_ Hw]. specialize (Hw eq_refl). cbn in Hw. rewrite (c_running _ _ _ C) in Hw. unfold jobs in Hw.
    destruct (filter _ rs) as [|t l] eqn:E; [cbn in Hw; lia|].
    assert (t ∈ filter (λ t, is_Some (job t)) rs) as [[u Hu] Ht]%list_elem_of_filter by (rewrite E; left). by exists t, u.
  - intros t s' r u o E Hd Ho Hst Hz. unfold next_section in E. rewrite Hd in E.
    pose proof (core_retry_due (length (s_retries w.(w_s))) t w.(w_s) rs C) as C1.
    destruct (retry_due_kept (length (s_retries w.(w_s))) t w.(w_s) u o Ho Hst) as (o' & Ho' & Hst' & Hh').
    fold (retryDueLocked t w.(w_s)) in *. destruct (firstUnheldLocked _) as [x|] eqn:Hf; injection E as _ <-; [by exists x|]. exfalso.
    assert (u ∈ (retryDueLocked t w.(w_s)).(s_queue)) as Hin by (user_of C1 Ho'; by apply b_queue0).
    unfold firstUnheldLocked in Hf. pose proof (find_none _ _ Hf u (proj1 (list_elem_of_In _ _) Hin)) as Hn.
    unfold unheld in Hn. rewrite Ho' in Hn. apply Z.eqb_neq in Hn. congruence.
Qed.

(** A worker that found nothing sleeps without a timer. *)
Lemma no_lost_wakeups_witness : ∃ p, rtc program_step (program_start 1 2 0) p ∧
  WSleep p.1.(w_s).(s_changed) None ∈ p.2 ∧ ∀ u o, p.1.(w_s).(s_objs) !! u = Some o → ¬ startable o.
Proof.
  assert (∃ p, rtc program_step (program_start 1 2 0) p ∧ WSleep p.1.(w_s).(s_changed) None ∈ p.2) as (p & Hr & E).
  { eexists. split; [|cycle 1].
    - eapply rtc_l; [apply ps_server; eapply sv_run; reflexivity|]. routine. routine.
      eapply rtc_l; [eapply (ps_routine _ _ _ _ _ _ (Permutation_refl _)); eapply rs_next_sleep; vm_compute; reflexivity|].
      eapply rtc_l; [eapply (ps_routine _ _ _ _ _ _ (Permutation_refl _)); eapply rs_arm|]. apply rtc_refl.
    - left. }
  exists p. split; [exact Hr|]. split; [exact E|]. intros u o Ho Hs.
  destruct (proj1 (no_lost_wakeups 1 2 0 p Hr) None u o E Ho Hs) as (d & lag & Hn & _). discriminate Hn.
Defined.

(** C38. No accepted notification is lost.  For every user, each notification the
    scheduler accepted has been followed by a job that began after it and succeeded,
    or the user is queued, running or backing off; and if the job that runs began
    before some notification, the user is marked to run again.  So whenever no user
    has work, every accepted notification has been covered. *)
Theorem accepted_work_kept (workers maxUsers : Z) (now : Time) (p : world * list routine) (k : string) :
  rtc program_step (program_start workers maxUsers now) p →
  let w := p.1 in let s := w.(w_s) in
  (w.(w_covered) k <= w.(w_accepted) k)%nat ∧
  ((w.(w_covered) k < w.(w_accepted) k)%nat → (StateOf k s).1 ∈ ["queued"; "running"; "backing-off"]) ∧
  ((StateOf k s).1 = "running" → (w.(w_begun) k < w.(w_accepted) k)%nat →
     ∃ u o, user_of k s = Some (u, o) ∧ o.(u_dirty) = true) ∧
  (activeLocked s = 0 → w.(w_covered) k = w.(w_accepted) k).
Proof.
  intros Hr. destruct (program_reachable_ok _ _ _ _ Hr) as [C _ O _ _ _]. destruct p as [w rs]. cbn [fst snd] in *. cbv zeta.
  destruct (O k) as (O1 & O2 & O3). unfold work_for in O3. unfold StateOf.
  destruct (user_of k w.(w_s)) as [[u o]|] eqn:Hu; cbn [fst].
  - unfold work_of in O3. destruct (u_state o) eqn:Hst.
    + split_and!; [lia|lia| |done]. destruct (0 <? _); done.
    + split_and!; [lia| |done|].
      * intros _. left.
      * intros Ha. exfalso. apply (user_of_known _ _ _ _ _ _ C) in Hu as [Hk Ho]. user_of C Ho.
        assert (u ∈ s_queue w.(w_s)) as Hin by by apply b_queue0. unfold activeLocked in Ha.
        pose proof (c_running _ _ _ C). unfold jobs in *. destruct (s_queue w.(w_s)); [by apply elem_of_nil in Hin|cbn in Ha; lia].
    + split_and!; [lia| | |].
      * intros _. right. left.
      * intros _ Hlt. exists u, o. split; [done|]. destruct (u_dirty o); [done|]. specialize (O3 eq_refl). lia.
      * intros Ha. exfalso. apply (user_of_known _ _ _ _ _ _ C) in Hu as [Hk Ho]. user_of C Ho.
        assert (0 < count_of job u rs) as (t & Ht & Hj)%count_of_pos_inv by by apply b_job0.
        assert (0 < jobs rs) as Hpos.
        { unfold jobs. apply list_elem_of_split in Ht as (l1 & l2 & ->). rewrite filter_app, length_app, filter_cons_True by eauto. cbn. lia. }
        rewrite <- (c_running _ _ _ C) in Hpos. unfold activeLocked in Ha. lia.
    + split_and!; [lia| |done|].
      * intros _. right. right. left.
      * intros Ha. exfalso. apply (user_of_known _ _ _ _ _ _ C) in Hu as [Hk Ho]. user_of C Ho.
        assert (u ∈ s_retries w.(w_s)) as Hin by by apply b_retry0. unfold activeLocked in Ha.
        pose proof (c_running _ _ _ C). unfold jobs in *. destruct (s_retries w.(w_s)); [by apply elem_of_nil in Hin|cbn in Ha; lia].
  - split_and!; [lia|lia|done|done].
Qed.

(** A notification that no job has covered yet. *)
Lemma accepted_work_kept_witness : ∃ p, rtc program_step (program_start 1 2 0) p ∧
  (p.1.(w_covered) "a" < p.1.(w_accepted) "a")%nat ∧ (StateOf "a" p.1.(w_s)).1 ∈ ["queued"; "running"; "backing-off"].
Proof.
  assert (∃ p, rtc program_step (program_start 1 2 0) p ∧ (p.1.(w_covered) "a" < p.1.(w_accepted) "a")%nat) as (p & Hr & E).
  { eexists. split; [|cycle 1].
    - eapply rtc_l; [apply ps_server; eapply sv_run; reflexivity|].
      eapply rtc_l; [apply ps_server; eapply (sv_notify _ _ 0 "a" 10); [reflexivity|vm_compute; reflexivity]|].
      apply rtc_refl.
    - apply Nat.ltb_lt. reflexivity. }
  exists p. split; [exact Hr|]. split; [exact E|].
  apply (accepted_work_kept 1 2 0 p "a" Hr). exact E.
Defined.
